(* ===== verification/_CoqProject ===== *)
-Q . S2P
Prelude.v
Effect.v
CString.v
Ring.v
Pipe.v
Printf.v
Proc.v
Locks.v
Sched.v
Kalloc.v
Vm.v
Pagetable.v
Usermem.v
Uvm.v
Kvm.v
Bio.v
Log.v
Fs.v
Dinode.v
Path.v
Walk.v
Content.v
Mkfs.v
Image.v
File.v
Sysfile.v
Ftable.v
Sysfd.v
Exec.v
Cache.v
Confirm.v
AgentCmd.v
Console.v
Kernel.v
Sysproc.v
Syscall.v
Trap.v
Boot.v
User.v
Ulib.v
Agentd.v
Denyctl.v
Grep.v
Tools.v
Shell.v
Umalloc.v
Virtio.v
Uart.v
