(* ===== verification/Prelude.v ===== *)
(** * Verification of the LLM-agent xv6 kernel

    The program (src/xv6-riscv/) is xv6 for RISC-V, extended to host an LLM agent: the
    host writes command lines to the serial port, the kernel filters them against a deny
    list and queues them for a jailed process (agentd), which runs them; dangerous system
    calls of jailed processes wait for a yes of the host user; replies of the model are
    kept in a cache of two levels; and the scheduler is a CFS with priorities.

    ** Parts and files

    Below everything: this file (machine integers, [outcome], byte buffers, shared
    tactics), Effect.v (the monad [M] of computations that change a state, may sleep and
    may panic) and Ring.v (circular buffers).

    - kernel/string.c: CString.v.  kernel/printf.c: Printf.v.
    - kernel/spinlock.c, sleeplock.c: Locks.v, a step relation for any number of CPUs.
      Sched.v, another, has the context switches ([scheduler], [sched], the locks of processes).
    - kernel/kalloc.c: Kalloc.v, the free list inside the free pages.
    - kernel/vm.c: Vm.v has the functions, over the pages of Kalloc.v; Pagetable.v the
      theory of the page-table tree, Usermem.v faults, [copyout] and [copyin], Uvm.v address
      spaces and [uvmcopy], Kvm.v the kernel's own table.
    - kernel/bio.c, log.c: Bio.v, Log.v, over a disk that is a map of blocks; a crash
      keeps a prefix of the block writes.
    - kernel/fs.c: Fs.v has all its functions; Path.v the invariant of the inode
      table and directory search, Walk.v path walks and the jail; Dinode.v and Content.v the
      inodes on disk and the contents of files.
    - mkfs/mkfs.c: Mkfs.v; Image.v relates the image it builds to the kernel's view in Content.v.
    - kernel/file.c, pipe.c, sysfile.c: Pipe.v (the two transfer loops), File.v,
      Sysfile.v; Ftable.v and Sysfd.v are about reference counts.
    - kernel/proc.c: Proc.v, over the interface [ProcEnv] (memory, files, inodes).
    - kernel/cache.c: Cache.v, over the interface [CacheFile] (the record file), which
      [ram_file] implements.  kernel/confirm.c: Confirm.v.  kernel/agentcmd.c:
      AgentCmd.v, over the interface [LLMCache], which Cache.v implements.
    - kernel/exec.c and [sys_exec]: Exec.v.  kernel/virtio_disk.c: Virtio.v, steps of the
      driver and of a device that follows the virtio standard.  kernel/uart.c: Uart.v,
      steps of writers, CPUs, the port and its interrupt.
    - kernel/console.c: Console.v.  Kernel.v puts the process table, the agent state
      and the console together; kernel/sysproc.c, syscall.c and trap.c (with the interrupt
      handler of uart.c) are Sysproc.v, Syscall.v and Trap.v on that state.
    - kernel/start.c, main.c, plic.c: Boot.v, on the control registers of a hart.
    - user/: User.v has the type [prog] of programs (trees of system calls with the kernel's
      answers), ulib.c and printf.c, Ulib.v the memory
      routines of ulib.c; Umalloc.v umalloc.c on a memory of headers.  The programs are
      Agentd.v (agentd.c), Denyctl.v, Grep.v, Shell.v (sh.c) and Tools.v (init.c and the small
      commands).

    How they meet: a trap (Trap.v) is a system call, an interrupt or a fault; the system
    call table (Syscall.v) stops a jailed process at the gate and runs a handler
    (Sysproc.v; the handlers of Sysfile.v are a parameter there); the UART interrupt feeds
    the console (Console.v), whose sniffer hands lines to AgentCmd.v; the timer drains
    the agent queue and runs the confirm timeout.  The file system stack is
    Sysfile.v, File.v, Fs.v, Log.v, Bio.v, each calling the next through [zoom].  Below
    Bio.v a block is read or written whole; Virtio.v shows that the driver does that with
    any interleaving of requests.  User programs meet the kernel at the type of system calls only.

    ** Conventions

    A C integer is a [Z]; wrap-around is written out ([u32], [u64], [s32]).  A pointer into
    a static array is its index, a null pointer [None] or 0; a physical page is its
    address.  A buffer is a [list Z] of bytes.  [panic] is [Panic] or [Panics]; a sleep
    is [Blocks], or a value that says where the caller waits; an access outside an
    object is [Undef].  A critical section runs whole, because its lock is held; where
    the order of critical sections matters (locks, confirm, pipes, crashes of the log) the
    model is a step relation or a sequence of sections.

    Loops that are not structural carry fuel: the number of iterations the code's own
    bound allows (the buffer length, the number of pages or blocks, 3 levels of a page
    table; the length of the line plus 2 for the shell's parser; one more than the
    bytes of the file for a program that reads it; three times the ring plus 4 for [malloc];
    nine for a chain of descriptors).  Running out is [Undef] or the loop's exit; the theorems on these functions
    state the result, so that the fuel is enough is part of what they prove.

    ** What the theorems show

    - The agent path: a denied command only prints, except ASK and LLM_RESP, which the
      kernel handles before it looks at the deny list and which can queue a line for agentd;
      the queues are FIFOs, an answer reaches only the process that asked
      and only through CONFIRM_RES, a jailed process passes the gate only with a yes, the
      cache answers what was stored and stays well-formed, the sniffer shows no
      request line on the console.
    - Processes: invariants of the process table under every system call, the scheduler
      picks the least virtual runtime, a runnable process waits for a number of picks that only
      the rivals it starts with and the processes woken or forked meanwhile can raise (nothing
      bounds those), a child of a jailed process is
      jailed, wait finds the zombies in table order, priorities change only as the policy says.
    - Concurrency: a spinlock has one holder; a process is on one CPU at most, also between its
      release of the CPU and the switch, and no test of the scheduler panics while the kernel
      calls sleep and yield with no other spinlock held ([keeps_count]); the locks of processes
      come free again; a pipe delivers
      the bytes written, in order.
    - Memory: a page has one owner; the kernel's page table maps exactly what the memory layout
      says; [copyout] changes only what the process may write,
      and [copyin] reads back what it wrote; [uvmcopy] gives a child a copy of its own of the
      parent's memory, or changes neither's.
    - Files: a system call's writes are one atomic change of the disk whatever crashes happen,
      path walks of a jailed process stay inside its jail, every file is counted once for
      each descriptor; a write inside a file is read back and changes nothing else, and the kernel
      finds in the image of mkfs the files that were put into it (at most 198, and the entries
      of the root, dot and dotdot included, no multiple of 64).
    - Traps: every way back to user space (a handled trap, the timer's yield, a system call that
      waited, a new child) leaves the registers and the trapframe as the next sret and trap need
      them, with the pc past the ecall of a system call.  The kernel's stack pointer is not part
      of that: the trap code takes one page for the stack, memlayout.h eight.
    - exec: the stack holds the arguments and their pointers, aligned and inside its page;
      with exactly MAXARG arguments the final store is past the end of [ustack], which is [Undef].
    - Devices: each disk request is one transfer of one block, in any order of completion, and the
      driver never panics, as long as the device reports no error; the serial port loses no byte
      and no wakeup.
    - User programs: agentd stays jailed and answers one reply for each request, grep's matcher
      decides the language of its patterns, the shell parses what it prints and wires a
      pipeline's descriptors, init keeps one shell, [malloc]
      never gives a unit twice and loses none, for requests of at most 2^31-32 bytes (the size
      in units overflows near 2^32).

    - Boot: [start] enters [main] in supervisor mode with its interrupts delegated, no hart
      runs before hart 0 has initialised the kernel, and the device interrupts reach every hart.

    ** Not modelled

    A disk that reports an error: the interrupt handler panics on it, and the steps of the
    device in Virtio.v leave it out.
    The assembly files (the switch of registers, the trampoline, the entry): they are not C.
    usertests.c and the other test programs are not part of the system.
    agent.py, the host side, is not C. *)

From stdpp Require Export base tactics list numbers option gmap sets.
From Stdlib Require Export ZArith Lia.
From Stdlib Require Strings.Ascii Strings.String.
Export Strings.String.StringSyntax.
Delimit Scope string_scope with string.

#[export] Set Default Goal Selector "!".

(** ** Machine integers

    A C integer of width [w] is a [Z]; the wrap-around is written out where the
    C code relies on it ([uint] and [uint64] arithmetic, conversions). *)

Definition u8 (x : Z) : Z := (x mod 2 ^ 8)%Z.
Definition u16 (x : Z) : Z := (x mod 2 ^ 16)%Z.
Definition u32 (x : Z) : Z := (x mod 2 ^ 32)%Z.
Definition u64 (x : Z) : Z := (x mod 2 ^ 64)%Z.

(** Conversion to [int]: two's complement, as gcc defines it. *)
Definition s32 (x : Z) : Z :=
  let y := (x mod 2 ^ 32)%Z in if (y <? 2 ^ 31)%Z then y else (y - 2 ^ 32)%Z.

(** Conversion to [long long]. *)
Definition s64 (x : Z) : Z :=
  let y := (x mod 2 ^ 64)%Z in if (y <? 2 ^ 63)%Z then y else (y - 2 ^ 64)%Z.

(** The same for a 16-bit [short]. *)
Definition s16 (x : Z) : Z :=
  let y := (x mod 2 ^ 16)%Z in if (y <? 2 ^ 15)%Z then y else (y - 2 ^ 16)%Z.

Definition is_u8 (x : Z) : Prop := (0 ≤ x < 2 ^ 8)%Z.
Definition is_u16 (x : Z) : Prop := (0 ≤ x < 2 ^ 16)%Z.
Definition is_u32 (x : Z) : Prop := (0 ≤ x < 2 ^ 32)%Z.
Definition is_u64 (x : Z) : Prop := (0 ≤ x < 2 ^ 64)%Z.

Declare Scope c_scope.
Delimit Scope c_scope with c.
Infix "+₃₂" := (λ x y, u32 (x + y)) (at level 50, left associativity) : c_scope.
Infix "-₃₂" := (λ x y, u32 (x - y)) (at level 50, left associativity) : c_scope.
Infix "+₆₄" := (λ x y, u64 (x + y)) (at level 50, left associativity) : c_scope.
Infix "-₆₄" := (λ x y, u64 (x - y)) (at level 50, left associativity) : c_scope.
Infix "*₆₄" := (λ x y, u64 (x * y)) (at level 40, left associativity) : c_scope.

Create HintDb cint.

Lemma u8_range x : is_u8 (u8 x).
Proof. apply Z.mod_pos_bound. lia. Qed.
Lemma u16_range x : is_u16 (u16 x).
Proof. apply Z.mod_pos_bound. lia. Qed.
Lemma u32_range x : is_u32 (u32 x).
Proof. apply Z.mod_pos_bound. lia. Qed.
Lemma u64_range x : is_u64 (u64 x).
Proof. apply Z.mod_pos_bound. lia. Qed.
#[export] Hint Resolve u8_range u16_range u32_range u64_range : cint.

Lemma u8_id x : is_u8 x → u8 x = x.
Proof. apply Z.mod_small. Qed.
Lemma u16_id x : is_u16 x → u16 x = x.
Proof. apply Z.mod_small. Qed.
Lemma u32_id x : is_u32 x → u32 x = x.
Proof. apply Z.mod_small. Qed.
Lemma u64_id x : is_u64 x → u64 x = x.
Proof. apply Z.mod_small. Qed.

Lemma s32_range x : (-2 ^ 31 ≤ s32 x < 2 ^ 31)%Z.
Proof.
  unfold s32. pose proof (Z.mod_pos_bound x (2 ^ 32) ltac:(lia)).
  destruct (Z.ltb_spec (x mod 2 ^ 32) (2 ^ 31)); lia.
Qed.

Lemma s32_id x : (-2 ^ 31 ≤ x < 2 ^ 31)%Z → s32 x = x.
Proof.
  intros H. unfold s32. destruct (Z.ltb_spec x 0).
  - rewrite <- (Z_mod_plus_full x 1), Z.mod_small by lia.
    destruct (Z.ltb_spec (x + 1 * 2 ^ 32) (2 ^ 31)); lia.
  - rewrite Z.mod_small by lia.
    destruct (Z.ltb_spec x (2 ^ 31)); lia.
Qed.

Lemma s64_id x : (-2 ^ 63 ≤ x < 2 ^ 63)%Z → s64 x = x.
Proof.
  intros H. unfold s64. destruct (Z.ltb_spec x 0).
  - rewrite <- (Z_mod_plus_full x 1), Z.mod_small by lia.
    destruct (Z.ltb_spec (x + 1 * 2 ^ 64) (2 ^ 63)); lia.
  - rewrite Z.mod_small by lia.
    destruct (Z.ltb_spec x (2 ^ 63)); lia.
Qed.

Create Rewrite HintDb cint_simp.
#[export] Hint Rewrite s32_id s64_id u8_id u16_id u32_id u64_id using lia : cint_simp.

(** ** Tactics *)

(** Case analysis on the boolean tests of the code. *)
Ltac bcase :=
  match goal with
  | |- context [(?a =? ?b)%Z] => destruct (Z.eqb_spec a b)
  | |- context [(?a <? ?b)%Z] => destruct (Z.ltb_spec a b)
  | |- context [(?a <=? ?b)%Z] => destruct (Z.leb_spec a b)
  | |- context [(?a =? ?b)%nat] => destruct (Nat.eqb_spec a b)
  | |- context [(?a <? ?b)%nat] => destruct (Nat.ltb_spec a b)
  | |- context [(?a <=? ?b)%nat] => destruct (Nat.leb_spec a b)
  end.

Ltac bcase_in H :=
  match type of H with
  | context [(?a =? ?b)%Z] => destruct (Z.eqb_spec a b)
  | context [(?a <? ?b)%Z] => destruct (Z.ltb_spec a b)
  | context [(?a <=? ?b)%Z] => destruct (Z.leb_spec a b)
  | context [(?a =? ?b)%nat] => destruct (Nat.eqb_spec a b)
  | context [(?a <? ?b)%nat] => destruct (Nat.ltb_spec a b)
  | context [(?a <=? ?b)%nat] => destruct (Nat.leb_spec a b)
  end.

(** Boolean connectives in hypotheses to propositions. *)
Ltac bool_hyps :=
  cbv beta in *;
  repeat match goal with
  | H : (_ && _) = true |- _ => apply andb_true_iff in H as [? ?]
  | H : (_ || _) = false |- _ => apply orb_false_iff in H as [? ?]
  | H : negb _ = true |- _ => apply negb_true_iff in H
  | H : negb _ = false |- _ => apply negb_false_iff in H
  | H : (_ =? _)%Z = true |- _ => apply Z.eqb_eq in H
  | H : (_ =? _)%Z = false |- _ => apply Z.eqb_neq in H
  | H : (_ <? _)%Z = true |- _ => apply Z.ltb_lt in H
  | H : (_ <? _)%Z = false |- _ => apply Z.ltb_ge in H
  | H : (_ <=? _)%Z = true |- _ => apply Z.leb_le in H
  | H : (_ <=? _)%Z = false |- _ => apply Z.leb_gt in H
  end.

(** Unfold every [let] and split the [match]es of a hypothesis that is an
    equation on the result of a translated function. *)
Ltac fstep H :=
  match type of H with
  | context [match ?e with _ => _ end] => destruct e eqn:?
  end; simplify_eq/=.

(** ** Lists *)

Section list_lemmas.
Context {A : Type}.
Implicit Types l k : list A.

(** First index whose element satisfies a test: the shape of every linear
    scan of a C array that returns at the first match. *)
Fixpoint find_index (p : A → bool) (l : list A) : option nat :=
  match l with
  | [] => None
  | x :: l' => if p x then Some 0 else S <$> find_index p l'
  end.

Lemma find_index_Some p l i :
  find_index p l = Some i →
  ∃ x, l !! i = Some x ∧ p x = true ∧
    ∀ j y, j < i → l !! j = Some y → p y = false.
Proof.
  revert i. induction l as [|x l IH]; intros i; simpl; [done|].
  destruct (p x) eqn:Hp.
  - intros [= <-]. exists x. repeat split; [done..|]. intros; lia.
  - destruct (find_index p l) as [i'|] eqn:Hf; [|done].
    intros [= <-]. destruct (IH _ eq_refl) as (y & Hy & Hpy & Hmin).
    exists y. repeat split; [done..|].
    intros [|j] z Hj Hz; simpl in Hz; [congruence|]. apply (Hmin j); [lia|done].
Qed.

Lemma find_index_None p l :
  find_index p l = None → ∀ i x, l !! i = Some x → p x = false.
Proof.
  induction l as [|x l IH]; simpl; [done|].
  destruct (p x) eqn:Hp; [done|].
  destruct (find_index p l); [done|].
  intros _ [|i] y Hy; simpl in Hy; [congruence|]. by apply (IH eq_refl i).
Qed.

Lemma find_index_is_Some p l i x :
  l !! i = Some x → p x = true → is_Some (find_index p l).
Proof.
  intros Hi Hp. destruct (find_index p l) eqn:Hf; [by eauto|].
  pose proof (find_index_None _ _ Hf _ _ Hi). congruence.
Qed.

Lemma find_index_ext p q l :
  (∀ i x, l !! i = Some x → p x = q x) → find_index p l = find_index q l.
Proof.
  induction l as [|x l IH]; intros Hpq; simpl; [done|].
  rewrite (Hpq 0%nat x eq_refl), IH; [done|]. intros i y Hy. by apply (Hpq (S i)).
Qed.

Lemma find_index_lt p l i : find_index p l = Some i → i < length l.
Proof.
  intros H. apply find_index_Some in H as (x & Hx & _).
  by eapply lookup_lt_Some.
Qed.

(** A test evaluated on every element. *)
Lemma forallb_lookup p l i x : forallb p l = true → l !! i = Some x → p x = true.
Proof. rewrite forallb_forall. intros Hf Hi. apply Hf, list_elem_of_In. by eapply list_elem_of_lookup_2. Qed.

Lemma lookup_map {B} (f : A → B) l (k : nat) : map f l !! k = f <$> l !! k.
Proof. apply list_lookup_fmap. Qed.

Lemma Forall_insert_upd (P : A → Prop) l i x :
  Forall P l → P x → Forall P (<[i:=x]> l).
Proof. intros. by apply Forall_insert. Qed.

Lemma alter_insert (f : A → A) l i x : l !! i = Some x → alter f i l = <[i := f x]> l.
Proof.
  intros Hi. apply list_eq. intros j. destruct (decide (i = j)) as [->|Hne].
  - rewrite list_lookup_alter_eq, Hi. rewrite list_lookup_insert_eq; [done|].
    by eapply lookup_lt_Some.
  - by rewrite list_lookup_alter_ne, list_lookup_insert_ne.
Qed.

(** A lookup at the end of a list grown by one. *)
Lemma lookup_snoc_cases l x j y :
  (l ++ [x]) !! j = Some y → l !! j = Some y ∨ (j = length l ∧ y = x).
Proof.
  intros Hj. destruct (decide (j < length l)) as [Hlt|Hge].
  - left. by rewrite lookup_app_l in Hj.
  - right. rewrite lookup_app_r in Hj by lia.
    apply list_lookup_singleton_Some in Hj as [? ->]. split; [lia|done].
Qed.
End list_lemmas.

(** ** Panics

    [panic()] never returns: the value of a computation that calls it. *)
Inductive outcome (A : Type) : Type :=
  | Ok (a : A)
  | Panic.
Arguments Ok {A} a.
Arguments Panic {A}.

#[export] Instance outcome_ret : MRet outcome := @Ok.
#[export] Instance outcome_bind : MBind outcome :=
  λ A B f m, match m with Ok a => f a | Panic => Panic end.

Lemma Ok_inj {A} (a b : A) : Ok a = Ok b → a = b.
Proof. by intros [= ->]. Qed.

Lemma outcome_bind_Ok {A B} (f : A → outcome B) m b :
  m ≫= f = Ok b → ∃ a, m = Ok a ∧ f a = Ok b.
Proof. destruct m as [a|]; [|done]. intros H. by exists a. Qed.

(** ** Bytes, little-endian words and buffers *)

(** String literals of the C source as byte lists. *)
Definition bytes (s : String.string) : list Z :=
  List.map (λ a, Z.of_nat (Ascii.nat_of_ascii a)) (String.list_ascii_of_string s).
Arguments bytes s%_string.

Fixpoint le_encode (n : nat) (x : Z) : list Z :=
  match n with
  | O => []
  | S n' => (x mod 2 ^ 8)%Z :: le_encode n' (x / 2 ^ 8)%Z
  end.

Fixpoint le_decode (l : list Z) : Z :=
  match l with
  | [] => 0%Z
  | b :: l' => (b + 2 ^ 8 * le_decode l')%Z
  end.

(** [sub l off n]: the [n] bytes at offset [off]. *)
Definition sub {A} (off n : nat) (l : list A) : list A := take n (drop off l).

(** [blit dst off src]: a [memmove] of [src] into the buffer [dst] at [off]. *)
Definition blit {A} (dst : list A) (off : nat) (src : list A) : list A :=
  take off dst ++ src ++ drop (off + length src) dst.

Lemma length_le_encode n x : length (le_encode n x) = n.
Proof. revert x. induction n as [|n IH]; intros x; simpl; [done|]. by rewrite IH. Qed.

Lemma le_encode_u8 n x : Forall is_u8 (le_encode n x).
Proof.
  revert x. induction n as [|n IH]; intros x; simpl; constructor; [|done].
  apply u8_range.
Qed.

Lemma le_decode_encode n x :
  (0 ≤ x < 2 ^ (8 * Z.of_nat n))%Z → le_decode (le_encode n x) = x.
Proof.
  revert x. induction n as [|n IH]; intros x Hx; simpl.
  { change (2 ^ (8 * Z.of_nat 0))%Z with 1%Z in Hx. lia. }
  rewrite IH; [rewrite (Z.div_mod x (2 ^ 8)) at 3; lia|].
  split; [apply Z.div_pos; lia|].
  apply Z.div_lt_upper_bound; [lia|].
  rewrite <- Z.pow_add_r by lia.
  replace (8 + 8 * Z.of_nat n)%Z with (8 * Z.of_nat (S n))%Z by lia. lia.
Qed.

Lemma le_decode_range l :
  Forall is_u8 l → (0 ≤ le_decode l < 2 ^ (8 * Z.of_nat (length l)))%Z.
Proof.
  induction 1 as [|b l Hb Hl IH]; simpl; [done|].
  replace (8 * Z.of_nat (S (length l)))%Z with (8 + 8 * Z.of_nat (length l))%Z by lia.
  rewrite Z.pow_add_r by lia. unfold is_u8 in Hb. lia.
Qed.

Lemma length_sub {A} (l : list A) off n :
  off + n ≤ length l → length (sub off n l) = n.
Proof. intros. unfold sub. rewrite length_take, length_drop. lia. Qed.

Lemma length_blit {A} (dst src : list A) off :
  off + length src ≤ length dst → length (blit dst off src) = length dst.
Proof. intros. unfold blit. rewrite !length_app, length_take, length_drop. lia. Qed.

Lemma sub_blit_eq {A} (dst src : list A) off :
  off + length src ≤ length dst → sub off (length src) (blit dst off src) = src.
Proof.
  intros. unfold sub, blit.
  rewrite drop_app_length' by (rewrite length_take; lia).
  by rewrite take_app_length.
Qed.

Lemma sub_blit_at {A} (dst src : list A) off n :
  length src = n → off + n ≤ length dst → sub off n (blit dst off src) = src.
Proof. intros <-. apply sub_blit_eq. Qed.

Lemma sub_blit_lt {A} (dst src : list A) off o n :
  off + length src ≤ length dst → o + n ≤ off →
  sub o n (blit dst off src) = sub o n dst.
Proof.
  intros. unfold sub, blit.
  rewrite drop_app_le by (rewrite length_take; lia).
  rewrite take_app_le by (rewrite length_drop, length_take; lia).
  by rewrite !take_drop_commute, take_take, Nat.min_l by lia.
Qed.

Lemma sub_blit_ge {A} (dst src : list A) off o n :
  off + length src ≤ length dst → off + length src ≤ o →
  sub o n (blit dst off src) = sub o n dst.
Proof.
  intros. unfold sub, blit. f_equal. rewrite app_assoc.
  rewrite drop_app_ge by (rewrite length_app, length_take; lia).
  rewrite drop_drop, length_app, length_take. f_equal. lia.
Qed.

Lemma sub_0_take {A} (l : list A) n : sub 0 n l = take n l.
Proof. done. Qed.

Lemma blit_0 {A} (dst src : list A) : blit dst 0 src = src ++ drop (length src) dst.
Proof. done. Qed.

Lemma Forall_blit {A} (P : A → Prop) dst off src :
  Forall P dst → Forall P src → Forall P (blit dst off src).
Proof.
  intros. unfold blit. repeat apply Forall_app_2; try done.
  - by apply Forall_take.
  - by apply Forall_drop.
Qed.

Lemma Forall_sub {A} (P : A → Prop) off n l : Forall P l → Forall P (sub off n l).
Proof. intros. by apply Forall_take, Forall_drop. Qed.

Lemma Forall_bytes_u8 s : Forall is_u8 (bytes s).
Proof.
  unfold bytes. apply List.Forall_forall. intros x (a & <- & _)%List.in_map_iff.
  unfold is_u8. pose proof (Ascii.nat_ascii_bounded a). lia.
Qed.

#[export] Hint Resolve Forall_blit Forall_sub Forall_bytes_u8 le_encode_u8 : cint.
