(* ===== verification/Effect.v ===== *)
(** * Stateful computations

    Code that changes the kernel's state, may go to sleep on a lock and may panic:
    a computation maps a state to a [result].  [Blocks] is a sleep (on a
    sleeplock another process holds, or for log space), [Undef] an access the C program has no
    meaning for (an index outside an array). *)

From S2P Require Import Prelude.

Inductive result (A : Type) : Type :=
  | Done (a : A) | Blocks | Panics | Undef.
Arguments Done {A} a.
Arguments Blocks {A}.
Arguments Panics {A}.
Arguments Undef {A}.

Definition M (S A : Type) : Type := S → result (A * S).

#[export] Instance M_ret S : MRet (M S) := λ A a s, Done (a, s).
#[export] Instance M_bind S : MBind (M S) := λ A B f m s,
  match m s with
  | Done (a, s') => f a s'
  | Blocks => Blocks
  | Panics => Panics
  | Undef => Undef
  end.

Section ops.
Context {S : Type}.

Definition gets {A} (f : S → A) : M S A := λ s, Done (f s, s).
Definition modify (f : S → S) : M S () := λ s, Done ((), f s).
Definition panics {A} : M S A := λ _, Panics.
Definition blocks {A} : M S A := λ _, Blocks.
Definition undef {A} : M S A := λ _, Undef.

(** A statement [if(c) m]. *)
Definition when (c : bool) (m : M S ()) : M S () := if c then m else mret ().

(** [for(; n iterations; i++) body]. *)
Fixpoint for_ (n : nat) (i : Z) (body : Z → M S ()) : M S () :=
  match n with
  | O => mret ()
  | Datatypes.S n' => body i;; for_ n' (i + 1)%Z body
  end.

(** A pointer the code dereferences without a test. *)
Definition deref {A} (o : option A) : M S A := match o with Some a => mret a | None => undef end.
End ops.

(** A computation on a part of the state. *)
Definition zoom {S T A} (get : T → S) (put : S → T → T) (m : M S A) : M T A := λ t,
  match m (get t) with
  | Done (a, s) => Done (a, put s t)
  | Blocks => Blocks
  | Panics => Panics
  | Undef => Undef
  end.

(** ** Rules *)

Lemma run_bind {S A B} (m : M S A) (f : A → M S B) s a s' :
  m s = Done (a, s') → (m ≫= f) s = f a s'.
Proof. intros Hm. unfold mbind, M_bind. by rewrite Hm. Qed.

Lemma run_bind_panics {S A B} (m : M S A) (f : A → M S B) s : m s = Panics → (m ≫= f) s = Panics.
Proof. intros Hm. unfold mbind, M_bind. by rewrite Hm. Qed.

Lemma run_zoom_panics {S T A} (get : T → S) put (m : M S A) t : m (get t) = Panics → zoom get put m t = Panics.
Proof. intros Hm. unfold zoom. by rewrite Hm. Qed.

Lemma run_bind_inv {S A B} (m : M S A) (f : A → M S B) s b s'' :
  (m ≫= f) s = Done (b, s'') → ∃ a s', m s = Done (a, s') ∧ f a s' = Done (b, s'').
Proof. unfold mbind, M_bind. destruct (m s) as [[a s']| | |]; [by eauto|done..]. Qed.

Lemma run_zoom {S T A} (get : T → S) put (m : M S A) t a s :
  m (get t) = Done (a, s) → zoom get put m t = Done (a, put s t).
Proof. intros Hm. unfold zoom. by rewrite Hm. Qed.

Lemma run_zoom_inv {S T A} (get : T → S) put (m : M S A) t a t' :
  zoom get put m t = Done (a, t') → ∃ s, m (get t) = Done (a, s) ∧ t' = put s t.
Proof. unfold zoom. destruct (m (get t)) as [[a' s]| | |]; [|done..]. intros [= <- <-]. by eauto. Qed.

Lemma bind_assoc_M {S A B C} (m : M S A) (f : A → M S B) (g : B → M S C) s :
  ((m ≫= f) ≫= g) s = (m ≫= λ a, f a ≫= g) s.
Proof. unfold mbind, M_bind. by destruct (m s) as [[a s']| | |]. Qed.

(** Step a goal through the next call, whose run is the term given. *)
Tactic Notation "run" uconstr(H) := erewrite run_bind by (eapply H); cbv beta.

(** A postcondition holds of every run that returns. *)
Definition post {S A} (m : M S A) (P : S → Prop) (Q : A → S → Prop) : Prop :=
  ∀ s a s', P s → m s = Done (a, s') → Q a s'.

Lemma post_bind {S A B} (m : M S A) (f : A → M S B) P Q R :
  post m P Q → (∀ a, post (f a) (Q a) R) → post (m ≫= f) P R.
Proof.
  intros Hm Hf s b s'' Hp Hr. apply run_bind_inv in Hr as (a & s' & Hms & Hfs).
  eapply Hf; [|done]. by eapply Hm.
Qed.

Lemma post_ret {S A} (a : A) (P : S → Prop) Q : (∀ s, P s → Q a s) → post (mret a) P Q.
Proof. intros HPQ s b s' Hp [= <- <-]. by apply HPQ. Qed.

Lemma post_conseq {S A} (m : M S A) P P' (Q Q' : A → S → Prop) :
  post m P' Q' → (∀ s, P s → P' s) → (∀ a s, Q' a s → Q a s) → post m P Q.
Proof. intros Hm HP HQ s a s' Hp Hr. eapply HQ, Hm; [|done]. by apply HP. Qed.
