(* ===== verification/CString.v ===== *)
(** * kernel/string.c: the byte and C-string routines

    Two views of memory are used.  The routines on raw memory ([memset],
    [memcmp], [memmove]) work on one flat byte memory [list Z] with [nat]
    addresses, because [memmove] is about overlapping ranges.  The routines on
    C strings take a [char *] as the list of the bytes from the pointer to the
    end of its buffer: [hd 0 p] is [*p] and [tl p] is [p + 1]; a byte past the
    end of the list reads as the terminating NUL. *)

From S2P Require Import Prelude.

Local Open Scope Z_scope.

(** ** Definitions *)

(** One byte of the flat memory, and one store. *)
Notation rd mem a := (nth a mem 0) (only parsing).

Fixpoint memset_loop (cdst : nat) (c : Z) (n : nat) (mem : list Z) : list Z :=
  match n with
  | O => mem
  | S n' => memset_loop (S cdst) c n' (<[cdst := u8 c]> mem)
  end.

Definition memset (mem : list Z) (dst : nat) (c : Z) (n : nat) : list Z :=
  memset_loop dst c n mem.

Fixpoint memcmp (mem : list Z) (s1 s2 : nat) (n : nat) : Z :=
  match n with
  | O => 0
  | S n' =>
      if negb (rd mem s1 =? rd mem s2) then rd mem s1 - rd mem s2
      else memcmp mem (S s1) (S s2) n'
  end.

(** [while(n-- > 0) *--d = *--s;] *)
Fixpoint move_backward (mem : list Z) (d s n : nat) : list Z :=
  match n with
  | O => mem
  | S n' => move_backward (<[(d - 1)%nat := rd mem (s - 1)%nat]> mem) (d - 1) (s - 1) n'
  end.

(** [while(n-- > 0) *d++ = *s++;] *)
Fixpoint move_forward (mem : list Z) (d s n : nat) : list Z :=
  match n with
  | O => mem
  | S n' => move_forward (<[d := rd mem s]> mem) (S d) (S s) n'
  end.

Definition memmove (mem : list Z) (dst src n : nat) : list Z :=
  if (n =? 0)%nat then mem
  else if (src <? dst)%nat && (dst <? src + n)%nat
  then move_backward mem (dst + n) (src + n) n
  else move_forward mem dst src n.

Definition memcpy (mem : list Z) (dst src n : nat) : list Z := memmove mem dst src n.

Fixpoint strncmp (p q : list Z) (n : nat) : Z :=
  match n with
  | O => 0
  | S n' =>
      if negb (hd 0 p =? 0) && (hd 0 p =? hd 0 q)
      then strncmp (tl p) (tl q) n'
      else u8 (hd 0 p) - u8 (hd 0 q)
  end.

(** [while(n-- > 0) *s++ = 0;] *)
Fixpoint zero_fill (s : list Z) (n : nat) : list Z :=
  match n with
  | O => s
  | S n' => 0 :: zero_fill (tl s) n'
  end.

Fixpoint strncpy (s t : list Z) (n : nat) : list Z :=
  match n with
  | O => s
  | S n' =>
      let c := hd 0 t in
      c :: (if c =? 0 then zero_fill (tl s) n' else strncpy (tl s) (tl t) n')
  end.

(** The loop of [safestrcpy] with [m] = [n - 1] copies left; the final [*s = 0]
    lands after the copied NUL when the copy stopped at it. *)
Fixpoint safestrcpy_loop (s t : list Z) (m : nat) : list Z :=
  match m with
  | O => 0 :: tl s
  | S m' =>
      let c := hd 0 t in
      c :: (if c =? 0 then 0 :: tl (tl s) else safestrcpy_loop (tl s) (tl t) m')
  end.

Definition safestrcpy (s t : list Z) (n : Z) : list Z :=
  if n <=? 0 then s else safestrcpy_loop s t (Z.to_nat (n - 1)).

Fixpoint strlen (s : list Z) : nat :=
  match s with
  | [] => 0
  | c :: s' => if c =? 0 then 0 else S (strlen s')
  end.

(** The string a buffer holds: its bytes up to the first NUL. *)
Fixpoint cstring (s : list Z) : list Z :=
  match s with
  | [] => []
  | c :: s' => if c =? 0 then [] else c :: cstring s'
  end.

(** Specification of a copy of [n] bytes on the flat memory: the destination
    range holds what the source range held before the call. *)
Definition copied (mem mem' : list Z) (dst src n : nat) : Prop :=
  length mem' = length mem ∧
  ∀ i, (i < length mem)%nat →
    rd mem' i = if (dst <=? i)%nat && (i <? dst + n)%nat then rd mem (src + (i - dst))%nat
                else rd mem i.

(** Bytes that may stand in a C string. *)
Definition is_char (c : Z) : Prop := 0 < c < 256.

(** ** Lemmas on the flat memory *)

Lemma rd_insert mem a b x :
  (b < length mem)%nat → rd (<[b := x]> mem) a = if (a =? b)%nat then x else rd mem a.
Proof.
  intros Hb. rewrite !nth_lookup. bcase; subst.
  - by rewrite list_lookup_insert_eq.
  - by rewrite list_lookup_insert_ne.
Qed.

Lemma memset_loop_spec n cdst c mem :
  (cdst + n ≤ length mem)%nat →
  length (memset_loop cdst c n mem) = length mem ∧
  ∀ i, rd (memset_loop cdst c n mem) i =
    if (cdst <=? i)%nat && (i <? cdst + n)%nat then u8 c else rd mem i.
Proof.
  revert cdst mem. induction n as [|n IH]; intros cdst mem Hn; simpl.
  { split; [done|]. intros i. repeat bcase; simpl; try done; lia. }
  destruct (IH (S cdst) (<[cdst:=u8 c]> mem)) as [Hl Hi].
  { rewrite length_insert. lia. }
  split; [by rewrite Hl, length_insert|].
  intros i. rewrite Hi, rd_insert by lia.
  repeat bcase; simpl; try done; lia.
Qed.

(** A forward copy is right when the destination does not start inside the
    source range, a backward copy when it does not end there. *)
Lemma move_forward_spec n d s mem :
  (d + n ≤ length mem)%nat → (s + n ≤ length mem)%nat → ¬ (s < d < s + n)%nat →
  copied mem (move_forward mem d s n) d s n.
Proof.
  revert d s mem. induction n as [|n IH]; intros d s mem Hd Hs Hov; simpl.
  { split; [done|]. intros i _. repeat bcase; simpl; try done; lia. }
  destruct (IH (S d) (S s) (<[d:=rd mem s]> mem)) as [Hl Hi];
    [rewrite ?length_insert; lia..|].
  split; [by rewrite Hl, length_insert|].
  intros i Hlt. rewrite Hi by (rewrite length_insert; lia).
  rewrite !rd_insert by lia.
  repeat bcase; simpl; try lia; try done; subst.
  all: try (f_equal; lia).
Qed.

Lemma move_backward_spec n d s mem :
  (d + n ≤ length mem)%nat → (s + n ≤ length mem)%nat → (s < d)%nat →
  copied mem (move_backward mem (d + n) (s + n) n) d s n.
Proof.
  revert mem. induction n as [|n IH]; intros mem Hd Hs Hov; simpl.
  { split; [done|]. intros i _. repeat bcase; simpl; try done; lia. }
  replace (d + S n - 1)%nat with (d + n)%nat by lia.
  replace (s + S n - 1)%nat with (s + n)%nat by lia.
  destruct (IH (<[(d + n)%nat:=rd mem (s + n)%nat]> mem)) as [Hl Hi];
    [rewrite ?length_insert; lia..|].
  split; [by rewrite Hl, length_insert|].
  intros i Hlt. rewrite Hi by (rewrite length_insert; lia).
  rewrite !rd_insert by lia.
  repeat bcase; simpl; try lia; try done; subst.
  all: try (f_equal; lia).
Qed.

Lemma memmove_copied mem dst src n :
  (dst + n ≤ length mem)%nat → (src + n ≤ length mem)%nat →
  copied mem (memmove mem dst src n) dst src n.
Proof.
  intros Hd Hs. unfold memmove. bcase; subst.
  { split; [done|]. intros i _. repeat bcase; simpl; try done; lia. }
  destruct ((src <? dst)%nat && (dst <? src + n)%nat) eqn:Hov.
  - apply andb_true_iff in Hov as [?%Nat.ltb_lt ?%Nat.ltb_lt].
    by apply move_backward_spec.
  - apply move_forward_spec; [done..|].
    intros [H1%Nat.ltb_lt H2%Nat.ltb_lt]. by rewrite H1, H2 in Hov.
Qed.

(** ** Lemmas on C strings *)

Lemma strlen_cstring s : strlen s = length (cstring s).
Proof. induction s as [|c s IH]; simpl; [done|]. bcase; simpl; lia. Qed.

Lemma cstring_nz s : Forall (λ c, c ≠ 0) (cstring s).
Proof. induction s as [|c s IH]; simpl; [done|]. bcase; by constructor. Qed.

Lemma cstring_id s : Forall (λ c, c ≠ 0) s → cstring s = s.
Proof.
  induction 1 as [|c s Hc Hs IH]; simpl; [done|]. bcase; [done|]. by rewrite IH.
Qed.

Lemma cstring_split s : ∃ t, s = cstring s ++ t ∧ hd 0 t = 0.
Proof.
  induction s as [|c s (t & IH & Ht)]; simpl; [by exists []|]. bcase; [subst; by exists (0 :: s)|].
  exists t. simpl. by rewrite <- IH.
Qed.

Lemma cstring_idemp s : cstring (cstring s) = cstring s.
Proof. apply cstring_id, cstring_nz. Qed.

Lemma cstring_app s t :
  Forall (λ c, c ≠ 0) s → cstring (s ++ t) = s ++ cstring t.
Proof.
  induction 1 as [|c s Hc Hs IH]; simpl; [done|]. bcase; [done|]. by rewrite IH.
Qed.

Lemma cstring_app_nul s t : Forall (λ c, c ≠ 0) s → cstring (s ++ 0 :: t) = s.
Proof. intros H. rewrite cstring_app by done. simpl. by rewrite app_nil_r. Qed.

Lemma cstring_tl s : hd 0 s ≠ 0 → cstring s = hd 0 s :: cstring (tl s).
Proof. destruct s as [|c s]; simpl; [done|]. intros. by bcase. Qed.

Lemma cstring_hd0 s : hd 0 s = 0 → cstring s = [].
Proof. destruct s as [|c s]; simpl; [done|]. intros ->. done. Qed.

Lemma Forall_cstring (P : Z → Prop) s : Forall P s → Forall P (cstring s).
Proof. induction 1; simpl; [done|]. bcase; by constructor. Qed.

Lemma length_cstring s : (length (cstring s) ≤ length s)%nat.
Proof. induction s as [|c s IH]; simpl; [lia|]. bcase; simpl; lia. Qed.

(** [strncmp] decides equality of the first [n] bytes of the strings. *)
Lemma strncmp_eq n p q :
  Forall is_u8 p → Forall is_u8 q →
  strncmp p q n = 0 ↔ take n (cstring p) = take n (cstring q).
Proof.
  assert (Hhd : ∀ l, Forall is_u8 l → u8 (hd 0 l) = hd 0 l).
  { intros [|c l] Hl; [done|]. apply u8_id. by inversion Hl. }
  assert (Htl : ∀ l, Forall is_u8 l → Forall is_u8 (tl l)).
  { intros [|c l] Hl; [done|]. by inversion Hl. }
  revert p q. induction n as [|n IH]; intros p q Hp Hq; simpl; [done|].
  rewrite !Hhd by done.
  destruct (decide (hd 0 p = 0)) as [Hp0|Hp0].
  - rewrite Hp0, (cstring_hd0 p) by done. simpl.
    destruct (decide (hd 0 q = 0)) as [Hq0|Hq0].
    + rewrite Hq0, (cstring_hd0 q) by done. simpl. split; [done|lia].
    + rewrite (cstring_tl q) by done. simpl. split; [lia|done].
  - rewrite (cstring_tl p) by done. bcase; [done|]. simpl.
    bcase.
    + rewrite (cstring_tl q) by congruence. simpl.
      rewrite IH by auto. split; [by intros ->; f_equal|by intros [= _ ?]].
    + split; [lia|]. intros Heq. destruct (decide (hd 0 q = 0)) as [Hq0|Hq0].
      * by rewrite (cstring_hd0 q) in Heq.
      * rewrite (cstring_tl q) in Heq by done. simpl in Heq. congruence.
Qed.

Lemma length_safestrcpy_loop m s t :
  (m < length s)%nat → length (safestrcpy_loop s t m) = length s.
Proof.
  revert s t. induction m as [|m IH]; intros [|c s] t Hm; simpl in *; try lia.
  bcase; simpl.
  - destruct s; simpl in *; lia.
  - rewrite IH; lia.
Qed.

Lemma length_safestrcpy s t n :
  n ≤ Z.of_nat (length s) → length (safestrcpy s t n) = length s.
Proof.
  intros Hn. unfold safestrcpy. bcase; [done|]. apply length_safestrcpy_loop. lia.
Qed.

Lemma cstring_safestrcpy s t n :
  0 < n → cstring (safestrcpy s t n) = take (Z.to_nat (n - 1)) (cstring t).
Proof.
  intros Hn. unfold safestrcpy. bcase; [lia|].
  generalize (Z.to_nat (n - 1)) as m. clear. intros m. revert s t.
  induction m as [|m IH]; intros s t; simpl; [done|].
  bcase.
  - by rewrite (cstring_hd0 t).
  - by rewrite IH, (cstring_tl t).
Qed.

Lemma Forall_tl {A} (P : A → Prop) l : Forall P l → Forall P (tl l).
Proof. destruct 1; simpl; [constructor|done]. Qed.

Lemma is_u8_hd l : Forall is_u8 l → is_u8 (hd 0 l).
Proof. destruct 1; simpl; [|done]. unfold is_u8. lia. Qed.

Lemma safestrcpy_u8 s t n :
  Forall is_u8 s → Forall is_u8 t → Forall is_u8 (safestrcpy s t n).
Proof.
  intros Hs Ht. unfold safestrcpy. bcase; [done|].
  generalize (Z.to_nat (n - 1)) as m. clear -Hs Ht. intros m. revert s t Hs Ht.
  assert (H0 : is_u8 0) by (unfold is_u8; lia).
  induction m as [|m IH]; intros s t Hs Ht; simpl.
  { constructor; [done|]. by apply Forall_tl. }
  constructor; [by apply is_u8_hd|]. bcase.
  - constructor; [done|]. by apply Forall_tl, Forall_tl.
  - apply IH; by apply Forall_tl.
Qed.

#[export] Hint Resolve Forall_tl is_u8_hd safestrcpy_u8 Forall_cstring cstring_nz : cint.
