(* ===== verification/Ring.v ===== *)
(** * Circular buffers

    The buffers of agentcmd.c ([agentq], [agent_q]), pipe.c and console.c are C
    arrays indexed modulo their size.  [ring_seq N buf r n] is the sequence of
    the [n] elements from index [r] on; the lemmas say what a store behind the
    last element and an advance of the read index do to it. *)

From S2P Require Import Prelude.

Local Open Scope Z_scope.

Section ring.
Context {A : Type} `{!Inhabited A}.
Implicit Types buf : list A.

Definition ring_get (N : Z) buf (i : Z) : A := nth (Z.to_nat (i mod N)) buf inhabitant.

Definition ring_put (N : Z) buf (i : Z) (x : A) : list A := <[Z.to_nat (i mod N) := x]> buf.

Definition ring_seq (N : Z) buf (r : Z) (n : nat) : list A :=
  map (λ k, ring_get N buf (r + Z.of_nat k)) (seq 0 n).

Lemma length_ring_put N buf i x : length (ring_put N buf i x) = length buf.
Proof. apply length_insert. Qed.

Lemma length_ring_seq N buf r n : length (ring_seq N buf r n) = n.
Proof. unfold ring_seq. by rewrite length_map, length_seq. Qed.

Lemma ring_seq_S N buf r n :
  ring_seq N buf r (S n) = ring_get N buf r :: ring_seq N buf (r + 1) n.
Proof.
  unfold ring_seq. cbn [seq map]. f_equal; [f_equal; lia|].
  rewrite <- seq_shift, map_map. apply map_ext. intros k. f_equal. lia.
Qed.

Lemma ring_seq_snoc N buf r n :
  ring_seq N buf r (S n) = ring_seq N buf r n ++ [ring_get N buf (r + Z.of_nat n)].
Proof. unfold ring_seq. rewrite seq_S, map_app. done. Qed.

Lemma ring_get_congr N buf i j : i mod N = j mod N → ring_get N buf i = ring_get N buf j.
Proof. unfold ring_get. by intros ->. Qed.

Lemma ring_seq_congr N buf r r' n :
  0 < N → r mod N = r' mod N → ring_seq N buf r n = ring_seq N buf r' n.
Proof.
  intros HN H. unfold ring_seq. apply map_ext. intros k. apply ring_get_congr.
  by rewrite <- (Zplus_mod_idemp_l r), <- (Zplus_mod_idemp_l r'), H.
Qed.

Lemma ring_seq_mod N buf r n : 0 < N → ring_seq N buf (r mod N) n = ring_seq N buf r n.
Proof. intros HN. apply ring_seq_congr; [done|]. apply Zmod_mod. Qed.

Lemma ring_get_put N buf i x :
  0 < N → Z.of_nat (length buf) = N → ring_get N (ring_put N buf i x) i = x.
Proof.
  intros HN Hl. unfold ring_get, ring_put. pose proof (Z.mod_pos_bound i N HN).
  apply nth_lookup_Some. apply list_lookup_insert_eq. lia.
Qed.

Lemma ring_get_put_ne N buf i j x :
  0 < N → i mod N ≠ j mod N → ring_get N (ring_put N buf j x) i = ring_get N buf i.
Proof.
  intros HN Hne. unfold ring_get, ring_put.
  pose proof (Z.mod_pos_bound i N HN). pose proof (Z.mod_pos_bound j N HN).
  rewrite !nth_lookup. rewrite list_lookup_insert_ne by lia. done.
Qed.

Lemma mod_add_ne N r k n : 0 < N → 0 ≤ k < n → n < N → (r + k) mod N ≠ (r + n) mod N.
Proof.
  intros HN Hk Hn Heq.
  assert ((n - k) mod N = 0).
  { replace (n - k) with (r + n - (r + k)) by lia. rewrite Zminus_mod, Heq, Z.sub_diag.
    apply Zmod_0_l. }
  rewrite Z.mod_small in H by lia. lia.
Qed.

Lemma ring_seq_put N buf r n x :
  0 < N → Z.of_nat n < N →
  ring_seq N (ring_put N buf (r + Z.of_nat n) x) r n = ring_seq N buf r n.
Proof.
  intros HN Hn. unfold ring_seq. apply map_ext_in. intros k Hk%in_seq.
  apply ring_get_put_ne; [done|]. apply mod_add_ne; lia.
Qed.

(** A push: store at the slot behind the last element. *)
Lemma ring_seq_push N buf r n x :
  Z.of_nat (length buf) = N → Z.of_nat n < N →
  ring_seq N (ring_put N buf (r + Z.of_nat n) x) r (S n) = ring_seq N buf r n ++ [x].
Proof.
  intros Hl Hn. rewrite ring_seq_snoc, ring_seq_put by lia.
  by rewrite ring_get_put by lia.
Qed.

Lemma ring_put_congr N buf i j x : i mod N = j mod N → ring_put N buf i x = ring_put N buf j x.
Proof. unfold ring_put. by intros ->. Qed.

Lemma ring_seq_app N buf r n m :
  ring_seq N buf r (n + m) = ring_seq N buf r n ++ ring_seq N buf (r + Z.of_nat n) m.
Proof.
  revert r. induction n as [|n IH]; intros r.
  { change (ring_seq N buf r 0) with (@nil A). cbn [Nat.add app]. change (Z.of_nat 0) with 0. rewrite Z.add_0_r. done. }
  cbn [Nat.add]. rewrite !ring_seq_S, IH. cbn [app].
  replace (r + Z.of_nat (S n)) with (r + 1 + Z.of_nat n) by lia. done.
Qed.

(** A store beyond the sequence. *)
Lemma ring_seq_put_ge N buf r n m x :
  0 < N → (n ≤ m)%nat → Z.of_nat m < N →
  ring_seq N (ring_put N buf (r + Z.of_nat m) x) r n = ring_seq N buf r n.
Proof.
  intros HN Hn Hm. unfold ring_seq. apply map_ext_in. intros k Hk%in_seq.
  apply ring_get_put_ne; [done|]. apply mod_add_ne; lia.
Qed.

End ring.

(** The [uint] counters wrap at 2^32, which a power-of-two size divides. *)
Lemma u32_mod N x : 0 < N → (N | 2 ^ 32) → u32 x mod N = x mod N.
Proof. intros HN Hd. unfold u32. symmetry. apply Znumtheory.Zmod_div_mod; [done|lia|done]. Qed.
