(* ===== verification/Pipe.v ===== *)
(** * kernel/pipe.c

    [pipewrite] and [piperead] hold the pipe's lock except while they sleep; a
    definition here is one critical section: [write_pass] from [i] bytes written
    until the call returns or sleeps, [read_pass] from the test for an empty
    pipe.  [get i] is the byte [copyin] finds at [addr + i], [ok i] says whether
    [copyout] to [addr + i] works. *)

From S2P Require Import Prelude Ring.

Local Open Scope Z_scope.

Definition PIPESIZE : Z := 512.
#[global] Arguments PIPESIZE : simpl never.

Record pipe := mk_pipe {
  pdata : list Z; nread : Z; nwrite : Z; readopen : Z; writeopen : Z;
}.

(** The page from [kalloc] has any contents. *)
Definition pipe_init (data : list Z) : pipe := mk_pipe data 0 0 1 1.

(** The call returns, or sleeps having done [i] bytes. *)
Inductive pres := PRet (v : Z) | PSleep (i : Z).

(** Which channels the section wakes. *)
Inductive pwake := WakeNone | WakeReaders | WakeWriters.

(** The page is freed when both ends are closed. *)
Definition pipeclose (writable : bool) (pi : pipe) : pipe * pwake * bool :=
  let '(pi, wk) := if writable
                   then (mk_pipe (pdata pi) (nread pi) (nwrite pi) (readopen pi) 0, WakeReaders)
                   else (mk_pipe (pdata pi) (nread pi) (nwrite pi) 0 (writeopen pi), WakeWriters) in
  (pi, wk, (readopen pi =? 0) && (writeopen pi =? 0)).

Fixpoint write_loop (fuel : nat) (killed : bool) (get : Z → option Z) (i n : Z) (pi : pipe) : pres * pwake * pipe :=
  match fuel with
  | O => (PRet i, WakeReaders, pi)
  | S fuel' =>
      if i <? n then
        if (readopen pi =? 0) || killed then (PRet (-1), WakeNone, pi)
        else if nwrite pi =? u32 (nread pi + PIPESIZE) then (PSleep i, WakeReaders, pi)
        else
          match get i with
          | None => (PRet i, WakeReaders, pi)
          | Some ch =>
              write_loop fuel' killed get (i + 1) n
                (mk_pipe (ring_put PIPESIZE (pdata pi) (nwrite pi) ch) (nread pi) (u32 (nwrite pi + 1))
                   (readopen pi) (writeopen pi))
          end
      else (PRet i, WakeReaders, pi)
  end.

Definition write_pass (killed : bool) (get : Z → option Z) (i n : Z) (pi : pipe) : pres * pwake * pipe :=
  write_loop (S (Z.to_nat (n - i))) killed get i n pi.

Definition pipewrite (killed : bool) (get : Z → option Z) (n : Z) (pi : pipe) : pres * pwake * pipe :=
  write_pass killed get 0 n pi.

(** The copy loop; the bytes copied out. *)
Fixpoint read_loop (fuel : nat) (ok : Z → bool) (i n : Z) (pi : pipe) : Z * list Z * pipe :=
  match fuel with
  | O => (i, [], pi)
  | S fuel' =>
      if i <? n then
        if nread pi =? nwrite pi then (i, [], pi)
        else
          let ch := ring_get PIPESIZE (pdata pi) (nread pi) in
          if negb (ok i) then (if i =? 0 then -1 else i, [], pi)
          else
            let '(r, l, pi) := read_loop fuel' ok (i + 1) n
              (mk_pipe (pdata pi) (u32 (nread pi + 1)) (nwrite pi) (readopen pi) (writeopen pi)) in
            (r, ch :: l, pi)
      else (i, [], pi)
  end.

Definition piperead (killed : bool) (ok : Z → bool) (n : Z) (pi : pipe) : pres * list Z * pwake * pipe :=
  if (nread pi =? nwrite pi) && negb (writeopen pi =? 0) then
    if killed then (PRet (-1), [], WakeNone, pi) else (PSleep 0, [], WakeNone, pi)
  else
    let '(r, l, pi) := read_loop (Z.to_nat n) ok 0 n pi in (PRet r, l, WakeWriters, pi).

(** ** The byte stream *)

Record pipe_inv (pi : pipe) : Prop := {
  pv_data : length (pdata pi) = 512%nat;
  pv_read : is_u32 (nread pi);
  pv_write : is_u32 (nwrite pi);
  pv_count : u32 (nwrite pi - nread pi) ≤ PIPESIZE;
}.

Definition pcount (pi : pipe) : nat := Z.to_nat (u32 (nwrite pi - nread pi)).

(** The bytes in the pipe, oldest first. *)
Definition contents (pi : pipe) : list Z := ring_seq PIPESIZE (pdata pi) (nread pi) (pcount pi).

Ltac pipe_lia :=
  unfold pcount, u32, is_u32, PIPESIZE in *; cbn [nread nwrite pdata] in *;
  Z.div_mod_to_equations; lia.

Lemma length_contents pi : length (contents pi) = pcount pi.
Proof. apply length_ring_seq. Qed.

Lemma pipe_init_inv data : length data = 512%nat → pipe_inv (pipe_init data) ∧ contents (pipe_init data) = [].
Proof. intros Hd. split; [split; cbn; try done|done]. Qed.

Lemma pipe_push pi ch :
  pipe_inv pi → nwrite pi ≠ u32 (nread pi + PIPESIZE) →
  let pi' := mk_pipe (ring_put PIPESIZE (pdata pi) (nwrite pi) ch) (nread pi) (u32 (nwrite pi + 1))
               (readopen pi) (writeopen pi) in
  pipe_inv pi' ∧ contents pi' = contents pi ++ [ch].
Proof.
  intros [H1 H2 H3 H4] Hne pi'. assert (Hlt : u32 (nwrite pi - nread pi) < 512).
  { clear -H2 H3 H4 Hne. pipe_lia. }
  assert (Hc : pcount pi' = S (pcount pi)) by (unfold pi'; clear -H2 H3 Hlt; pipe_lia).
  split.
  - split; cbn [pi' pdata nread nwrite]; [by rewrite length_ring_put|done|apply u32_range|].
    clear -H2 H3 Hlt. pipe_lia.
  - unfold contents. rewrite Hc. cbn [pi' pdata nread].
    rewrite (ring_put_congr _ _ (nwrite pi) (nread pi + Z.of_nat (pcount pi))).
    + apply ring_seq_push; [unfold PIPESIZE; lia|]. clear -Hlt. pipe_lia.
    + unfold pcount. rewrite Z2Nat.id by apply u32_range. unfold PIPESIZE.
      rewrite <- (Zplus_mod_idemp_r (u32 _)), u32_mod, Zplus_mod_idemp_r; [f_equal; lia|lia|by exists (2 ^ 23)].
Qed.

Lemma pipe_pop pi :
  pipe_inv pi → nread pi ≠ nwrite pi →
  let pi' := mk_pipe (pdata pi) (u32 (nread pi + 1)) (nwrite pi) (readopen pi) (writeopen pi) in
  pipe_inv pi' ∧ contents pi = ring_get PIPESIZE (pdata pi) (nread pi) :: contents pi'.
Proof.
  intros [H1 H2 H3 H4] Hne pi'.
  assert (Hc : pcount pi = S (pcount pi')) by (unfold pi'; clear -H2 H3 Hne; pipe_lia).
  split.
  - split; cbn [pi' pdata nread nwrite]; [done|apply u32_range|done|].
    clear -H2 H3 H4 Hne. pipe_lia.
  - unfold contents. rewrite Hc, ring_seq_S. f_equal. cbn [pi' pdata nread]. apply ring_seq_congr; [done|].
    symmetry. apply u32_mod; [done|by exists (2 ^ 23)].
Qed.

Lemma pipe_empty pi : pipe_inv pi → nread pi = nwrite pi ↔ contents pi = [].
Proof.
  intros [H1 H2 H3 H4]. rewrite <- length_zero_iff_nil, length_contents. clear -H2 H3. pipe_lia.
Qed.

(** The bytes a write takes: from [get i] up to the position it stops at. *)
Definition taken (get : Z → option Z) (i j : Z) : list Z :=
  map (λ k, default 0 (get (i + Z.of_nat k))) (seq 0 (Z.to_nat (j - i))).

Lemma taken_cons get i j ch : i < j → get i = Some ch → taken get i j = ch :: taken get (i + 1) j.
Proof.
  intros Hij Hg. unfold taken. replace (Z.to_nat (j - i)) with (S (Z.to_nat (j - (i + 1)))) by lia.
  cbn [seq map]. replace (i + Z.of_nat 0) with i by lia. rewrite Hg. cbn [default]. f_equal.
  rewrite <- seq_shift, map_map. apply map_ext. intros k. f_equal. f_equal. lia.
Qed.

Lemma taken_nil get i : taken get i i = [].
Proof. unfold taken. by rewrite Z.sub_diag. Qed.

Definition stopped_at (i : Z) (r : pres) : Prop := r = PRet i ∨ r = PSleep i ∨ r = PRet (-1).

(** Up to where a section that began at [i] took the caller's bytes, from its result: a call that
    fails has taken none in its last section. *)
Definition upto (i : Z) (r : pres) : Z :=
  match r with PSleep j => j | PRet v => if v <? 0 then i else v end.

Lemma write_loop_spec fuel killed get : ∀ i n pi,
  pipe_inv pi → 0 ≤ i → (Z.to_nat (n - i) < fuel)%nat →
  let '(r, _, pi') := write_loop fuel killed get i n pi in
  pipe_inv pi' ∧ ∃ j, i ≤ j ∧ (j ≤ n ∨ j = i) ∧ stopped_at j r ∧ j = upto i r ∧
    contents pi' = contents pi ++ taken get i j ∧ readopen pi' = readopen pi ∧ writeopen pi' = writeopen pi ∧
    match r with
    | PSleep _ => length (contents pi') = 512%nat ∧ j < n
    | PRet v => v = -1 ∧ (readopen pi = 0 ∨ killed = true) ∨ v = j ∧ (n ≤ j ∨ get j = None)
    end.
Proof.
  assert (Hret : ∀ i j, 0 ≤ j → j = upto i (PRet j)).
  { intros i j Hj. unfold upto. by rewrite (proj2 (Z.ltb_ge j 0)). }
  induction fuel as [|fuel IH]; intros i n pi Hi H0 Hf; [lia|]. cbn [write_loop].
  destruct (Z.ltb_spec i n) as [Hin|Hin].
  2:{ split; [done|]. exists i. rewrite taken_nil, app_nil_r. unfold stopped_at. naive_solver lia. }
  destruct ((readopen pi =? 0) || killed) eqn:Hrk.
  { split; [done|]. exists i. rewrite taken_nil, app_nil_r. unfold stopped_at.
    apply orb_true_iff in Hrk as [Hr|Hk]; [apply Z.eqb_eq in Hr|]; naive_solver lia. }
  destruct (Z.eqb_spec (nwrite pi) (u32 (nread pi + PIPESIZE))) as [Hfull|Hroom].
  { split; [done|]. exists i. rewrite taken_nil, app_nil_r, length_contents. unfold stopped_at.
    assert (Hc : pcount pi = 512%nat) by (destruct Hi as [_ Hr Hw _]; clear -Hr Hw Hfull; pipe_lia).
    naive_solver lia. }
  destruct (get i) as [ch|] eqn:Hg.
  2:{ split; [done|]. exists i. rewrite taken_nil, app_nil_r. unfold stopped_at. naive_solver lia. }
  destruct (pipe_push pi ch Hi Hroom) as [Hi' Hc'].
  specialize (IH (i + 1) n _ Hi' ltac:(lia) ltac:(lia)).
  destruct (write_loop fuel killed get (i + 1) n _) as [[r wk] pi'].
  destruct IH as (Hi2 & j & Hj1 & Hj2 & Hst & Hup & Hc2 & Hr2 & Hw2 & Hres). split; [done|].
  exists j. rewrite Hc2, Hc', (taken_cons get i j ch) by (done || lia).
  rewrite <- app_assoc. cbn [readopen writeopen app] in *. split_and!; try done; [lia|lia| |].
  { destruct r as [v|v]; [|done]. destruct Hres as [(-> & Hrk')|(-> & _)]; [|by apply Hret; lia].
    apply orb_false_iff in Hrk as [Hr Hk]. apply Z.eqb_neq in Hr. destruct Hrk'; congruence. }
  rewrite Hc2, Hc', <- app_assoc in Hres. exact Hres.
Qed.

Lemma read_loop_spec fuel ok : ∀ i n pi,
  pipe_inv pi → 0 ≤ i → (Z.to_nat (n - i) ≤ fuel)%nat →
  let '(r, l, pi') := read_loop fuel ok i n pi in
  pipe_inv pi' ∧ contents pi = l ++ contents pi' ∧ readopen pi' = readopen pi ∧ writeopen pi' = writeopen pi ∧
  (r = -1 ∧ l = [] ∧ i = 0 ∧ ok 0 = false ∨ r = i + Z.of_nat (length l)) ∧
  ((∀ k, ok k = true) → i ≤ n → r = i + Z.min (n - i) (Z.of_nat (length (contents pi)))).
Proof.
  induction fuel as [|fuel IH]; intros i n pi Hi H0 Hf; cbn [read_loop].
  { split_and!; try done; [right; cbn; lia|intros; lia]. }
  destruct (Z.ltb_spec i n) as [Hin|Hin].
  2:{ split_and!; try done; [right; cbn; lia|intros; lia]. }
  destruct (Z.eqb_spec (nread pi) (nwrite pi)) as [He|He].
  { assert (Hc : contents pi = []) by by apply pipe_empty.
    split_and!; try done; [right; cbn; lia|intros; rewrite Hc; cbn; lia]. }
  destruct (pipe_pop pi Hi He) as [Hi' Hc'].
  destruct (ok i) eqn:Hok; cbn [negb].
  2:{ split_and!; try done.
      - destruct (Z.eqb_spec i 0) as [->|]; [by left|right; cbn; lia].
      - intros Hall. by rewrite Hall in Hok. }
  specialize (IH (i + 1) n _ Hi' ltac:(lia) ltac:(lia)).
  destruct (read_loop fuel ok (i + 1) n _) as [[r l] pi'].
  destruct IH as (Hi2 & Hc2 & Hr2 & Hw2 & Hres & Hall). split_and!; try done.
  - by rewrite Hc', Hc2.
  - right. cbn [length]. destruct Hres as [(_ & _ & ? & _)|?]; lia.
  - intros Hk _. rewrite Hall, Hc' by (done || lia). cbn [length]. lia.
Qed.

(** ** Any sequence of calls *)

Inductive pipe_op :=
  | PWrite (killed : bool) (get : Z → option Z) (i n : Z)
  | PRead (killed : bool) (ok : Z → bool) (n : Z)
  | PClose (writable : bool).

(** The pipe, the bytes accepted so far and the bytes delivered so far.  A write accepts bytes of
    the caller's buffer, as many as its result says; a read delivers what it copies out. *)
Definition pipe_step (s : pipe * list Z * list Z) (o : pipe_op) : pipe * list Z * list Z :=
  let '(pi, acc, del) := s in
  match o with
  | PWrite killed get i n =>
      let '(r, _, pi') := write_pass killed get i n pi in (pi', acc ++ taken get i (upto i r), del)
  | PRead killed ok n =>
      let '(_, l, _, pi') := piperead killed ok n pi in (pi', acc, del ++ l)
  | PClose w => ((pipeclose w pi).1.1, acc, del)
  end.

Definition pipe_op_ok (o : pipe_op) : Prop := match o with PWrite _ _ i _ => 0 ≤ i | _ => True end.

Lemma pipe_step_inv pi acc del o :
  pipe_inv pi → acc = del ++ contents pi → pipe_op_ok o →
  let '(pi', acc', del') := pipe_step (pi, acc, del) o in
  pipe_inv pi' ∧ acc' = del' ++ contents pi'.
Proof.
  intros Hi -> Ho. destruct o as [killed get i n|killed ok n|w]; cbn [pipe_step].
  - unfold write_pass. pose proof (write_loop_spec (S (Z.to_nat (n - i))) killed get i n pi Hi Ho ltac:(lia)) as Hw.
    destruct (write_loop _ _ _ _ _ _) as [[r wk] pi'].
    destruct Hw as (Hi' & j & _ & _ & _ & -> & Hc & _). split; [done|].
    by rewrite Hc, app_assoc.
  - unfold piperead. destruct (_ && _); [by destruct killed; rewrite app_nil_r|].
    pose proof (read_loop_spec (Z.to_nat n) ok 0 n pi Hi ltac:(lia) ltac:(lia)) as Hr.
    destruct (read_loop _ _ _ _ _) as [[r l] pi']. destruct Hr as (Hi' & Hc & _).
    split; [done|]. by rewrite Hc, app_assoc.
  - split; [|unfold pipeclose; by destruct w]. destruct Hi. unfold pipeclose. by destruct w; split.
Qed.

(** C19: A pipe is a byte stream.  After any sequence of writes, reads and closes by any number of
    processes, in any interleaving of their critical sections, the bytes of the writers' buffers
    that the writes accepted, in the order they accepted them, are exactly the bytes delivered
    followed by the at most 512 in the pipe: none lost, none duplicated, none changed, none
    reordered, across the wrap of the 32-bit counters.  A read of an empty pipe whose write end is
    closed returns 0 at once, and a write of at least one byte to a pipe whose read end is closed
    returns -1. *)
Theorem pipe_stream data ops :
  length data = 512%nat → Forall pipe_op_ok ops →
  let '(pi, acc, del) := fold_left pipe_step ops (pipe_init data, [], []) in
  acc = del ++ contents pi ∧ (length (contents pi) ≤ 512)%nat ∧
  (contents pi = [] → writeopen pi = 0 → ∀ killed ok n, (piperead killed ok n pi).1.1.1 = PRet 0) ∧
  (readopen pi = 0 → ∀ killed get n, 0 < n → (pipewrite killed get n pi).1.1 = PRet (-1)).
Proof.
  intros Hd Hops.
  assert (Hrun : ∀ s, pipe_inv s.1.1 → s.1.2 = s.2 ++ contents s.1.1 →
    let '(pi, acc, del) := fold_left pipe_step ops s in pipe_inv pi ∧ acc = del ++ contents pi).
  { clear Hd. induction Hops as [|o ops Ho Hops IH]; intros [[pi acc] del] Hi Ha; cbn [fold_left fst snd] in *; [done|].
    pose proof (pipe_step_inv pi acc del o Hi Ha Ho) as Hs.
    destruct (pipe_step (pi, acc, del) o) as [[pi' acc'] del'] eqn:Hst. destruct Hs as [Hi' Ha'].
    by apply (IH (pi', acc', del')). }
  destruct (pipe_init_inv data Hd) as [Hi0 Hc0]. specialize (Hrun (pipe_init data, [], []) Hi0).
  cbn [fst snd] in Hrun. rewrite Hc0 in Hrun. specialize (Hrun eq_refl).
  destruct (fold_left _ _ _) as [[pi acc] del]. destruct Hrun as [Hi Ha]. split_and!; [done| | |].
  - rewrite length_contents. pose proof (pv_count _ Hi) as Hc. clear -Hc. pipe_lia.
  - intros He Hw killed ok n. unfold piperead. rewrite Hw. cbn [Z.eqb negb]. rewrite andb_false_r.
    destruct (Z.to_nat n) as [|k]; cbn [read_loop]; [done|]. destruct (0 <? n); [|done].
    rewrite (proj2 (Z.eqb_eq _ _)); [done|]. by apply pipe_empty.
  - intros Hr killed get n Hn. unfold pipewrite, write_pass. cbn [write_loop].
    rewrite (proj2 (Z.ltb_lt 0 n)) by done. by rewrite Hr.
Qed.

(** "hello" written, two bytes read, and the end of the stream. *)
Definition hello (i : Z) : option Z := nth_error (bytes "hello") (Z.to_nat i).

Definition pipe_demo : list pipe_op := [PWrite false hello 0 5; PRead false (λ _, true) 2; PClose true].

Lemma pipe_stream_witness :
  let '(pi, acc, del) := fold_left pipe_step pipe_demo (pipe_init (replicate 512 0), [], []) in
  acc = bytes "hello" ∧ del = bytes "he" ∧ acc = del ++ contents pi.
Proof.
  pose proof (pipe_stream (replicate 512 0) pipe_demo ltac:(by rewrite length_replicate)
    ltac:(repeat constructor; cbn; lia)) as H.
  assert (Hv : (λ '(pi, acc, del), (acc, del)) (fold_left pipe_step pipe_demo (pipe_init (replicate 512 0), [], []))
    = (bytes "hello", bytes "he")) by by vm_compute.
  destruct (fold_left pipe_step pipe_demo _) as [[pi acc] del]. injection Hv as -> ->.
  destruct H as [Ha _]. split; [reflexivity|]. split; [reflexivity|exact Ha].
Defined.
