(* ===== verification/Printf.v ===== *)
(** * kernel/printf.c and the output half of kernel/console.c

    Console output is the list of the bytes handed to [uartputc_sync], in
    order.  [printf] is a function from the format and the argument slots to
    the bytes it emits: it holds [pr.lock] for the whole call, so no other
    [printf] interleaves with it.  An argument slot is a 64-bit word or a
    string pointer ([None] for a null pointer). *)

From S2P Require Import Prelude CString.

Local Open Scope Z_scope.

Definition BACKSPACE : Z := 0x100.

Definition consputc (c : Z) : list Z :=
  if c =? BACKSPACE then [8; 32; 8] else [u8 c].

Definition digits : list Z := bytes "0123456789abcdef".

(** [do { buf[i++] = digits[x % base]; } while((x /= base) != 0);] with [buf]
    kept newest first; a 64-bit [x] has at most 64 digits in any base. *)
Fixpoint digit_loop (fuel : nat) (digits : list Z) (x base : Z) (buf : list Z) : list Z :=
  match fuel with
  | O => buf
  | S fuel' =>
      let buf := nth (Z.to_nat (x mod base)) digits 0 :: buf in
      let x := x / base in
      if negb (x =? 0) then digit_loop fuel' digits x base buf else buf
  end.

(** The bytes in the order they are printed: [buf] from its last index down. *)
Definition printint (xx base : Z) (sign : bool) : list Z :=
  let neg := sign && (xx <? 0) in
  let x := if neg then u64 (- xx) else u64 xx in
  let buf := digit_loop 64 digits x base [] in
  concat (map consputc (if neg then 45 :: buf else buf)).

Fixpoint printptr_loop (n : nat) (x : Z) : list Z :=
  match n with
  | O => []
  | S n' =>
      consputc (nth (Z.to_nat (Z.shiftr x 60)) digits 0)
      ++ printptr_loop n' (u64 (Z.shiftl x 4))
  end.

Definition printptr (x : Z) : list Z :=
  consputc 48 ++ consputc 120 ++ printptr_loop 16 (u64 x).

(** A variadic argument. *)
Inductive varg :=
  | VInt (x : Z)
  | VStr (s : option (list Z)).

(** [va_arg] on the slot as a word, and as a [char *]. *)
Definition va_word (args : list varg) : Z * list varg :=
  match args with
  | VInt x :: args' => (x, args')
  | _ => (0, tl args)
  end.

Definition va_str (args : list varg) : option (list Z) * list varg :=
  match args with
  | VStr s :: args' => (s, args')
  | _ => (None, tl args)
  end.

Definition print_str (s : option (list Z)) : list Z :=
  concat (map consputc (cstring (default (bytes "(null)") s))).

(** One conversion after a [%], on the next three bytes of the format: the
    extra format bytes it takes, its output and the remaining arguments. *)
Definition conv (c0 c1 c2 : Z) (args : list varg) : nat * list Z * list varg :=
  let '(w, rest) := va_word args in
  if c0 =? 100 (* d *) then (0%nat, printint (s32 w) 10 true, rest)
  else if (c0 =? 108) && (c1 =? 100) then (1%nat, printint (s64 w) 10 true, rest)
  else if (c0 =? 108) && (c1 =? 108) && (c2 =? 100) then (2%nat, printint (s64 w) 10 true, rest)
  else if c0 =? 117 (* u *) then (0%nat, printint (u32 w) 10 false, rest)
  else if (c0 =? 108) && (c1 =? 117) then (1%nat, printint (s64 w) 10 false, rest)
  else if (c0 =? 108) && (c1 =? 108) && (c2 =? 117) then (2%nat, printint (s64 w) 10 false, rest)
  else if c0 =? 120 (* x *) then (0%nat, printint (u32 w) 16 false, rest)
  else if (c0 =? 108) && (c1 =? 120) then (1%nat, printint (s64 w) 16 false, rest)
  else if (c0 =? 108) && (c1 =? 108) && (c2 =? 120) then (2%nat, printint (s64 w) 16 false, rest)
  else if c0 =? 112 (* p *) then (0%nat, printptr w, rest)
  else if c0 =? 99 (* c *) then (0%nat, consputc (u32 w), rest)
  else if c0 =? 115 (* s *) then let '(s, rest) := va_str args in (0%nat, print_str s, rest)
  else if c0 =? 37 (* % *) then (0%nat, consputc 37, args)
  else (0%nat, consputc 37 ++ consputc c0, args).

Fixpoint printf (fmt : list Z) (args : list varg) : list Z :=
  match fmt with
  | [] => []
  | cx :: f1 =>
      if u8 cx =? 0 then []
      else if negb (u8 cx =? 37) then consputc (u8 cx) ++ printf f1 args
      else
        match f1 with
        | [] => []
        | c0 :: f2 =>
            if u8 c0 =? 0 then [] else
            let c1 := u8 (hd 0 f2) in
            let c2 := if c1 =? 0 then 0 else u8 (hd 0 (tl f2)) in
            let '(k, out, args) := conv (u8 c0) c1 c2 args in
            out ++ match k with
                   | O => printf f2 args
                   | S O => match f2 with _ :: f3 => printf f3 args | _ => [] end
                   | _ => match f2 with _ :: _ :: f4 => printf f4 args | _ => [] end
                   end
        end
  end.

(** What [panic] prints before it spins. *)
Definition panic (s : list Z) : list Z :=
  printf (bytes "panic: ") [] ++ printf (bytes "%s
") [VStr (Some s)].

(** ** Reading numbers back *)

(** The value of a sequence of digits, most significant first. *)
Definition digit_val (c : Z) : option Z :=
  if (48 <=? c) && (c <=? 57) then Some (c - 48)
  else if (97 <=? c) && (c <=? 102) then Some (c - 87)
  else None.

Definition digit_step (base : Z) (acc : option Z) (c : Z) : option Z :=
  v ← acc; d ← digit_val c; if d <? base then Some (v * base + d) else None.

Definition digits_val (base : Z) (l : list Z) : option Z :=
  fold_left (digit_step base) l (Some 0).

Definition int_val (base : Z) (l : list Z) : option Z :=
  match l with
  | [] => None
  | c :: l' => if c =? 45 then Z.opp <$> digits_val base l' else digits_val base l
  end.

(** ** Lemmas *)

Lemma nth_digits d : 0 ≤ d < 16 → digit_val (nth (Z.to_nat d) digits 0) = Some d.
Proof.
  intros H. assert (Hd : ∃ n, (n < 16)%nat ∧ d = Z.of_nat n).
  { exists (Z.to_nat d). lia. }
  destruct Hd as (n & Hn & ->). rewrite Nat2Z.id. clear H.
  do 16 (destruct n as [|n]; [reflexivity|]). lia.
Qed.

Lemma nth_digits_char d : 0 ≤ d < 16 → 48 ≤ nth (Z.to_nat d) digits 0 < 128.
Proof.
  intros H. assert (Hd : ∃ n, (n < 16)%nat ∧ d = Z.of_nat n).
  { exists (Z.to_nat d). lia. }
  destruct Hd as (n & Hn & ->). rewrite Nat2Z.id. clear H.
  do 16 (destruct n as [|n]; [vm_compute; split; [discriminate|reflexivity]|]). lia.
Qed.

Lemma digit_step_none base l : fold_left (digit_step base) l None = None.
Proof. by induction l. Qed.

(** A digit string read from the value [n] of what came before it. *)
Lemma digits_val_cons base c l n v :
  fold_left (digit_step base) (c :: l) (Some n) = Some v →
  ∃ d, digit_val c = Some d ∧ d < base ∧ fold_left (digit_step base) l (Some (n * base + d)) = Some v.
Proof.
  cbn [fold_left]. unfold digit_step at 2. simpl.
  destruct (digit_val c) as [d|]; simpl; [|by rewrite digit_step_none].
  destruct (Z.ltb_spec d base); [|by rewrite digit_step_none]. intros H'. by exists d.
Qed.

Lemma digit_val_dec c d : digit_val c = Some d → d < 10 → 48 ≤ c ≤ 57 ∧ d = c - 48.
Proof. unfold digit_val. intros H ?. repeat bcase_in H; simpl in H; simplify_eq; lia. Qed.

Lemma digits_val_mono l n v :
  0 ≤ n → fold_left (digit_step 10) l (Some n) = Some v → n ≤ v.
Proof.
  revert n. induction l as [|c l IH]; intros n Hn Hf; [injection Hf as ->; lia|].
  apply digits_val_cons in Hf as (d & Hd & Hlt & Hf).
  destruct (digit_val_dec _ _ Hd Hlt) as [? ->]. specialize (IH (n * 10 + (c - 48)) ltac:(lia) Hf). lia.
Qed.

(** [digit_loop] leaves the digits of [x] before what was in the buffer. *)
Lemma digit_loop_app fuel ds x base buf :
  digit_loop fuel ds x base buf = digit_loop fuel ds x base [] ++ buf.
Proof.
  revert x buf. induction fuel as [|fuel IH]; intros x buf; [done|].
  cbn [digit_loop]. destruct (negb (x / base =? 0)); [|done].
  rewrite IH, (IH _ [_]), <- app_assoc. done.
Qed.

Lemma digit_loop_ne fuel x base : digit_loop (S fuel) digits x base [] ≠ [].
Proof.
  cbn [digit_loop]. destruct (negb _); [|done]. rewrite digit_loop_app.
  by destruct (digit_loop fuel digits (x / base) base []).
Qed.

Lemma digits_val_snoc base l v d c :
  digits_val base l = Some v → digit_val c = Some d → d < base →
  digits_val base (l ++ [c]) = Some (v * base + d).
Proof.
  unfold digits_val. rewrite fold_left_app. intros -> Hc Hd. simpl. unfold digit_step.
  rewrite Hc. simpl. by rewrite (proj2 (Z.ltb_lt _ _) Hd).
Qed.

Lemma digit_loop_val fuel x base :
  2 ≤ base ≤ 16 → 0 ≤ x < 2 ^ Z.of_nat fuel → (0 < fuel)%nat →
  digits_val base (digit_loop fuel digits x base []) = Some x.
Proof.
  intros Hb. revert x. induction fuel as [|fuel IH]; intros x Hx Hf; [lia|].
  cbn [digit_loop]. pose proof (Z.mod_pos_bound x base ltac:(lia)) as Hm.
  pose proof (Z.div_mod x base ltac:(lia)) as Hdm.
  pose proof (nth_digits (x mod base) ltac:(lia)) as Hn.
  destruct (Z.eqb_spec (x / base) 0) as [H0|H0]; cbn [negb].
  - pose proof (digits_val_snoc base [] 0 _ _ eq_refl Hn ltac:(lia)) as Hs. cbn [app] in Hs.
    rewrite Hs. f_equal. rewrite H0 in Hdm. lia.
  - rewrite Nat2Z.inj_succ, Z.pow_succ_r in Hx by lia.
    assert (0 < x / base) by (pose proof (Z.div_pos x base ltac:(lia) ltac:(lia)); lia).
    assert (x / base < 2 ^ Z.of_nat fuel) by (apply Z.div_lt_upper_bound; nia).
    destruct fuel as [|fuel]; [change (2 ^ Z.of_nat 0) with 1 in *; lia|].
    rewrite digit_loop_app.
    erewrite digits_val_snoc; [|apply IH; lia|exact Hn|lia].
    f_equal. lia.
Qed.

Lemma length_digit_loop fuel x base k :
  2 ≤ base → 0 ≤ x < base ^ Z.of_nat k → (0 < k)%nat →
  (length (digit_loop fuel digits x base []) ≤ k)%nat.
Proof.
  intros Hb. revert x k. induction fuel as [|fuel IH]; intros x k Hx Hk; [simpl; lia|].
  cbn [digit_loop]. destruct (Z.eqb_spec (x / base) 0) as [H0|H0]; cbn [negb]; [simpl; lia|].
  rewrite digit_loop_app, length_app. cbn [length].
  destruct k as [|k]; [lia|]. rewrite Nat2Z.inj_succ, Z.pow_succ_r in Hx by lia.
  assert (0 < x / base) by (pose proof (Z.div_pos x base ltac:(lia) ltac:(lia)); lia).
  assert (x / base < base ^ Z.of_nat k) by (apply Z.div_lt_upper_bound; nia).
  destruct k as [|k]; [change (base ^ Z.of_nat 0) with 1 in *; lia|].
  specialize (IH (x / base) (S k) ltac:(lia) ltac:(lia)). lia.
Qed.

Lemma digit_loop_chars fuel x base :
  2 ≤ base ≤ 16 → 0 ≤ x →
  Forall (λ c, 48 ≤ c < 128) (digit_loop fuel digits x base []).
Proof.
  intros Hb. revert x. induction fuel as [|fuel IH]; intros x Hx; [constructor|].
  cbn [digit_loop]. pose proof (Z.mod_pos_bound x base ltac:(lia)).
  destruct (negb (x / base =? 0)).
  - rewrite digit_loop_app. apply Forall_app. split; [apply IH, Z.div_pos; lia|].
    constructor; [apply nth_digits_char; lia|constructor].
  - constructor; [apply nth_digits_char; lia|constructor].
Qed.

Lemma consputc_id c : 0 ≤ c < 256 → consputc c = [c].
Proof.
  intros. unfold consputc, BACKSPACE. destruct (Z.eqb_spec c 0x100); [lia|].
  rewrite u8_id by (unfold is_u8; lia). done.
Qed.

Lemma concat_consputc l : Forall (λ c, 0 ≤ c < 256) l → concat (map consputc l) = l.
Proof.
  induction 1 as [|c l Hc Hl IH]; [done|]. simpl. rewrite consputc_id by done. by rewrite IH.
Qed.

(** The bytes [printint] emits, as the digits of the absolute value. *)
Lemma printint_eq xx base sign :
  2 ≤ base ≤ 16 → - 2 ^ 63 ≤ xx < 2 ^ 63 →
  printint xx base sign =
  (if sign && (xx <? 0) then [45] else []) ++
  digit_loop 64 digits (if sign && (xx <? 0) then - xx else u64 xx) base [].
Proof.
  intros Hb Hx. unfold printint.
  assert (Hu : sign && (xx <? 0) = true → u64 (- xx) = - xx).
  { intros H. bool_hyps. apply u64_id. unfold is_u64. lia. }
  destruct (sign && (xx <? 0)) eqn:Hs.
  - rewrite Hu by done. apply concat_consputc. constructor; [lia|].
    bool_hyps. eapply Forall_impl; [apply digit_loop_chars; lia|]. simpl. lia.
  - apply concat_consputc. pose proof (u64_range xx) as Hr. unfold is_u64 in Hr.
    eapply Forall_impl; [apply digit_loop_chars; lia|]. simpl. lia.
Qed.

(** A number printed by the kernel's [%d], [%u] and [%x] reads back as itself,
    and [printint] never fills more than the 20 bytes of its buffer. *)
Theorem printint_roundtrip xx base sign :
  base = 10 ∨ (base = 16 ∧ sign = false) → - 2 ^ 63 ≤ xx < 2 ^ 63 →
  int_val base (printint xx base sign) = Some (if sign then xx else u64 xx) ∧
  (length (printint xx base sign) ≤ 20)%nat.
Proof.
  intros Hb Hx. assert (Hb' : 2 ≤ base ≤ 16) by lia.
  rewrite printint_eq by lia. pose proof (u64_range xx) as Hr. unfold is_u64 in Hr.
  destruct (sign && (xx <? 0)) eqn:Hs.
  - bool_hyps. subst sign. split.
    { pose proof (digit_loop_val 64 (- xx) base Hb' ltac:(lia) ltac:(lia)) as Hd. revert Hd.
      generalize (digit_loop 64 digits (- xx) base []) as l. intros l Hd. simpl.
      rewrite Hd. simpl. f_equal. lia. }
    destruct Hb as [->|[_ ?]]; [|done].
    pose proof (length_digit_loop 64 (- xx) 10 19 ltac:(lia) ltac:(lia) ltac:(lia)).
    rewrite length_app. cbn [length]. lia.
  - assert (Hv : (if sign then xx else u64 xx) = u64 xx).
    { destruct sign; [|done]. symmetry. apply u64_id. unfold is_u64.
      apply andb_false_iff in Hs as [?|?]; bool_hyps; [done|lia]. }
    rewrite Hv. cbn [app]. split.
    + pose proof (digit_loop_chars 64 (u64 xx) base Hb' ltac:(lia)) as Hc.
      pose proof (digit_loop_val 64 (u64 xx) base Hb' ltac:(lia) ltac:(lia)) as Hd.
      pose proof (digit_loop_ne 63 (u64 xx) base) as Hne. revert Hc Hd Hne.
      generalize (digit_loop 64 digits (u64 xx) base []) as l. intros [|c l] Hc Hd Hne; [done|].
      apply Forall_inv in Hc. simpl. destruct (Z.eqb_spec c 45); [lia|]. exact Hd.
    + apply length_digit_loop; [lia| |lia].
      destruct Hb as [->|[-> _]]; lia.
Qed.

Lemma printint_roundtrip_witness :
  int_val 10 (printint (-42) 10 true) = Some (-42) ∧ printint (-42) 10 true = bytes "-42".
Proof. split; [apply (printint_roundtrip (-42) 10 true); lia|reflexivity]. Defined.
