(* ===== verification/Proc.v ===== *)
(** * kernel/proc.c: processes and the CFS scheduler

    The process table is a list of 64 records.  A process pointer is its index;
    the null pointer is [None].  Memory, page tables, files and inodes belong to
    other components: the interface [ProcEnv] has the calls proc.c makes to them
    on an environment state [E].

    Each function runs whole: its critical sections under [p->lock],
    [wait_lock], [pid_lock] and [cfs_lock] are executed one after the other.
    [swtch] is the end of a step: [sched] leaves the CPU to [scheduler_step]. *)

From S2P Require Import Prelude CString Printf.

Local Open Scope Z_scope.

Definition NPROC : nat := 64.
Definition NOFILE : nat := 16.
Definition PGSIZE : Z := 4096.
Definition MAXVA : Z := 2 ^ 38.
Definition TRAMPOLINE : Z := MAXVA - PGSIZE.
Definition TRAPFRAME : Z := TRAMPOLINE - PGSIZE.
Definition KSTACK_PAGES : Z := 8.
Definition KSTACK (p : Z) : Z := TRAMPOLINE - (p + 1) * (KSTACK_PAGES + 1) * PGSIZE.
#[global] Arguments NPROC : simpl never.
#[global] Arguments NOFILE : simpl never.

Definition PTE_R : Z := 2.
Definition PTE_W : Z := 4.
Definition PTE_X : Z := 8.

(** ** CFS *)

Definition NICE_0_LOAD : Z := 1024.
Definition CFS_WMULT : Z := 2 ^ 20.
Definition CFS_WAKEUP_BONUS : Z := 1000000.

Definition cfs_weight : list Z :=
  [88761; 71755; 56483; 46273; 36291;
   29154; 23254; 18705; 14949; 11916;
   9548; 7620; 6100; 4904; 3906;
   3121; 2501; 1991; 1586; 1277;
   1024; 820; 655; 526; 423;
   335; 272; 215; 172; 137;
   110; 87; 70; 56; 45;
   36; 29; 23; 18; 15;
   12].

Definition cfs_vdelta (priority : Z) : Z :=
  let idx := priority + 20 in
  let idx := if idx <? 0 then 0 else idx in
  let idx := if 40 <? idx then 40 else idx in
  CFS_WMULT * NICE_0_LOAD / nth (Z.to_nat idx) cfs_weight 0.

(** ** Data *)

Inductive procstate := UNUSED | USED | SLEEPING | RUNNABLE | RUNNING | ZOMBIE.

#[export] Instance procstate_eq_dec : EqDecision procstate.
Proof. solve_decision. Defined.

(** What a process can sleep on: a process table entry ([kwait]), the tick
    counter, or another kernel object. *)
Inductive channel := ChanProc (p : nat) | ChanTicks | ChanObj (a : Z).

#[export] Instance channel_eq_dec : EqDecision channel.
Proof. solve_decision. Defined.

(** [struct proc]; [ctx_ra] and [ctx_sp] are the two registers [allocproc] sets
    in the saved context. *)
Record procrec := mk_proc {
  st : procstate;
  chan : option channel;
  killed : Z;
  xstate : Z;
  pid : Z;
  parent : option nat;
  kstack : Z;
  sz : Z;
  pagetable : Z;
  trapframe : Z;
  ctx_ra : Z;
  ctx_sp : Z;
  ofile : list Z;
  cwd : Z;
  name : list Z;
  priority : Z;
  vruntime : Z;
  creation_tick : Z;
  is_agent : Z;
  jail_root : Z;
}.

(** What proc.c calls in kalloc.c, vm.c, file.c, fs.c and log.c. Pointers are
    their addresses; 0 is the null pointer. *)
Class ProcEnv (E : Type) := {
  kalloc : E → Z * E;
  kfree : Z → E → E;
  uvmcreate : E → Z * E;
  mappages : Z → Z → Z → Z → Z → E → Z * E;
  uvmunmap : Z → Z → Z → Z → E → E;
  uvmfree : Z → Z → E → E;
  uvmcopy : Z → Z → Z → E → Z * E;
  uvmalloc : Z → Z → Z → Z → E → Z * E;
  uvmdealloc : Z → Z → Z → E → Z * E;
  copyout : Z → Z → list Z → E → Z * E;
  copyin : Z → Z → Z → E → option (list Z);
  kmemmove : Z → list Z → E → E;
  kmemread : Z → Z → E → list Z;
  tf_copy : Z → Z → E → E;
  tf_set_a0 : Z → Z → E → E;
  filedup : Z → E → Z * E;
  fileclose : Z → E → E;
  idup : Z → E → Z * E;
  iput : Z → E → E;
  begin_op : E → E;
  end_op : E → E;
  namei_root : E → Z * E;
  trampoline : Z;
  forkret : Z;
}.

(** The table, the other static data of proc.c, [ticks] and the console. *)
Record state (E : Type) := mk_state {
  procs : list procrec;
  nextpid : Z;
  cfs_min_vruntime : Z;
  initproc : option nat;
  ticks : Z;
  env : E;
}.
Arguments mk_state {E}.
Arguments procs {E}.
Arguments nextpid {E}.
Arguments cfs_min_vruntime {E}.
Arguments initproc {E}.
Arguments ticks {E}.
Arguments env {E}.

Definition unused_proc (kstack : Z) : procrec :=
  mk_proc UNUSED None 0 0 0 None kstack 0 0 0 0 0 (replicate NOFILE 0) 0 (replicate 16 0) 0 0 0 0 0.

(** ** Field updates *)

Definition set_st (x : procstate) (p : procrec) : procrec :=
  mk_proc x (chan p) (killed p) (xstate p) (pid p) (parent p) (kstack p) (sz p) (pagetable p)
    (trapframe p) (ctx_ra p) (ctx_sp p) (ofile p) (cwd p) (name p) (priority p) (vruntime p)
    (creation_tick p) (is_agent p) (jail_root p).
Definition set_killed (x : Z) (p : procrec) : procrec :=
  mk_proc (st p) (chan p) x (xstate p) (pid p) (parent p) (kstack p) (sz p) (pagetable p)
    (trapframe p) (ctx_ra p) (ctx_sp p) (ofile p) (cwd p) (name p) (priority p) (vruntime p)
    (creation_tick p) (is_agent p) (jail_root p).
Definition set_chan (x : option channel) (p : procrec) : procrec :=
  mk_proc (st p) x (killed p) (xstate p) (pid p) (parent p) (kstack p) (sz p) (pagetable p)
    (trapframe p) (ctx_ra p) (ctx_sp p) (ofile p) (cwd p) (name p) (priority p) (vruntime p)
    (creation_tick p) (is_agent p) (jail_root p).
Definition set_parent (x : option nat) (p : procrec) : procrec :=
  mk_proc (st p) (chan p) (killed p) (xstate p) (pid p) x (kstack p) (sz p) (pagetable p)
    (trapframe p) (ctx_ra p) (ctx_sp p) (ofile p) (cwd p) (name p) (priority p) (vruntime p)
    (creation_tick p) (is_agent p) (jail_root p).
Definition set_vruntime (x : Z) (p : procrec) : procrec :=
  mk_proc (st p) (chan p) (killed p) (xstate p) (pid p) (parent p) (kstack p) (sz p) (pagetable p)
    (trapframe p) (ctx_ra p) (ctx_sp p) (ofile p) (cwd p) (name p) (priority p) x
    (creation_tick p) (is_agent p) (jail_root p).
Definition set_priority (x : Z) (p : procrec) : procrec :=
  mk_proc (st p) (chan p) (killed p) (xstate p) (pid p) (parent p) (kstack p) (sz p) (pagetable p)
    (trapframe p) (ctx_ra p) (ctx_sp p) (ofile p) (cwd p) (name p) x (vruntime p)
    (creation_tick p) (is_agent p) (jail_root p).
Definition set_mem (s pt tf : Z) (p : procrec) : procrec :=
  mk_proc (st p) (chan p) (killed p) (xstate p) (pid p) (parent p) (kstack p) s pt
    tf (ctx_ra p) (ctx_sp p) (ofile p) (cwd p) (name p) (priority p) (vruntime p)
    (creation_tick p) (is_agent p) (jail_root p).
Definition set_context (ra sp : Z) (p : procrec) : procrec :=
  mk_proc (st p) (chan p) (killed p) (xstate p) (pid p) (parent p) (kstack p) (sz p) (pagetable p)
    (trapframe p) ra sp (ofile p) (cwd p) (name p) (priority p) (vruntime p)
    (creation_tick p) (is_agent p) (jail_root p).
Definition set_files (fs : list Z) (c : Z) (p : procrec) : procrec :=
  mk_proc (st p) (chan p) (killed p) (xstate p) (pid p) (parent p) (kstack p) (sz p) (pagetable p)
    (trapframe p) (ctx_ra p) (ctx_sp p) fs c (name p) (priority p) (vruntime p)
    (creation_tick p) (is_agent p) (jail_root p).
Definition set_jail (a j : Z) (p : procrec) : procrec :=
  mk_proc (st p) (chan p) (killed p) (xstate p) (pid p) (parent p) (kstack p) (sz p) (pagetable p)
    (trapframe p) (ctx_ra p) (ctx_sp p) (ofile p) (cwd p) (name p) (priority p) (vruntime p)
    (creation_tick p) a j.
Definition set_xstate (x : Z) (p : procrec) : procrec :=
  mk_proc (st p) (chan p) (killed p) x (pid p) (parent p) (kstack p) (sz p) (pagetable p)
    (trapframe p) (ctx_ra p) (ctx_sp p) (ofile p) (cwd p) (name p) (priority p) (vruntime p)
    (creation_tick p) (is_agent p) (jail_root p).
(** What [kfork] copies besides memory and files. *)
Definition set_inherited (nm : list Z) (prio vr a : Z) (p : procrec) : procrec :=
  mk_proc (st p) (chan p) (killed p) (xstate p) (pid p) (parent p) (kstack p) (sz p) (pagetable p)
    (trapframe p) (ctx_ra p) (ctx_sp p) (ofile p) (cwd p) nm prio vr
    (creation_tick p) a (jail_root p).

(** ** Operations *)

Section proc.
Context `{ProcEnv E}.
Implicit Types s : state E.

Definition upd (f : procrec → procrec) (i : nat) s : state E :=
  mk_state (alter f i (procs s)) (nextpid s) (cfs_min_vruntime s) (initproc s) (ticks s) (env s).
Definition set_env (e : E) s : state E :=
  mk_state (procs s) (nextpid s) (cfs_min_vruntime s) (initproc s) (ticks s) e.
Definition set_procs (l : list procrec) s : state E :=
  mk_state l (nextpid s) (cfs_min_vruntime s) (initproc s) (ticks s) (env s).

(** [proc[i]]. *)
Definition pget (i : nat) s : procrec := nth i (procs s) (unused_proc 0).

(** Boot: zeroed static memory, then [procinit]. *)
Definition procinit (e : E) : state E :=
  mk_state (map (λ i, unused_proc (KSTACK (Z.of_nat i))) (seq 0 NPROC)) 1 0 None 0 e.

Definition cfs_advance_min (v : Z) s : state E :=
  mk_state (procs s) (nextpid s)
    (if cfs_min_vruntime s <? v then v else cfs_min_vruntime s) (initproc s) (ticks s) (env s).

Definition allocpid s : Z * state E :=
  (nextpid s,
   mk_state (procs s) (s32 (nextpid s + 1)) (cfs_min_vruntime s) (initproc s) (ticks s) (env s)).

Definition proc_pagetable (tf : Z) (e : E) : Z * E :=
  let '(pt, e) := uvmcreate e in
  if pt =? 0 then (0, e) else
  let '(r, e) := mappages pt TRAMPOLINE PGSIZE trampoline (Z.lor PTE_R PTE_X) e in
  if r <? 0 then (0, uvmfree pt 0 e) else
  let '(r, e) := mappages pt TRAPFRAME PGSIZE tf (Z.lor PTE_R PTE_W) e in
  if r <? 0 then (0, uvmfree pt 0 (uvmunmap pt TRAMPOLINE 1 0 e)) else (pt, e).

Definition proc_freepagetable (pt size : Z) (e : E) : E :=
  uvmfree pt size (uvmunmap pt TRAPFRAME 1 0 (uvmunmap pt TRAMPOLINE 1 0 e)).

(** The fields [freeproc] clears; [name[0] = 0]. *)
Definition cleared (p : procrec) : procrec :=
  mk_proc UNUSED None 0 0 0 None (kstack p) 0 0 0 (ctx_ra p) (ctx_sp p) (ofile p) (cwd p)
    (<[0%nat := 0]> (name p)) 0 0 0 0 0.

Definition freeproc (i : nat) s : state E :=
  let p := pget i s in
  let e := if negb (trapframe p =? 0) then kfree (trapframe p) (env s) else env s in
  let e := if negb (pagetable p =? 0) then proc_freepagetable (pagetable p) (sz p) e else e in
  upd cleared i (set_env e s).

(** The fields [allocproc] sets before it allocates memory. *)
Definition claimed (newpid vr t : Z) (p : procrec) : procrec :=
  mk_proc USED (chan p) (killed p) (xstate p) newpid (parent p) (kstack p) (sz p) (pagetable p)
    (trapframe p) (ctx_ra p) (ctx_sp p) (ofile p) (cwd p) (name p) 10 vr t 0 0.

Definition find_unused s : option nat :=
  find_index (λ p, bool_decide (st p = UNUSED)) (procs s).

Definition allocproc s : option nat * state E :=
  match find_unused s with
  | None => (None, s)
  | Some i =>
      let '(newpid, s) := allocpid s in
      let s := upd (claimed newpid (cfs_min_vruntime s) (ticks s)) i s in
      let '(tf, e) := kalloc (env s) in
      let s := upd (λ p, set_mem (sz p) (pagetable p) tf p) i (set_env e s) in
      if tf =? 0 then (None, freeproc i s) else
      let '(pt, e) := proc_pagetable tf (env s) in
      let s := upd (λ p, set_mem (sz p) pt (trapframe p) p) i (set_env e s) in
      if pt =? 0 then (None, freeproc i s) else
      (Some i, upd (λ p, set_context forkret (kstack p + KSTACK_PAGES * PGSIZE) p) i s)
  end.

(** A failing [allocproc] here would dereference a null pointer. *)
Definition userinit s : outcome (state E) :=
  let '(np, s) := allocproc s in
  match np with
  | None => Panic
  | Some i =>
      let '(root, e) := namei_root (env s) in
      let s := mk_state (procs s) (nextpid s) (cfs_min_vruntime s) (Some i) (ticks s) e in
      Ok (upd (λ p, set_st RUNNABLE (set_priority (-5) (set_files (ofile p) root p))) i s)
  end.

Definition growproc (me : nat) (n : Z) s : Z * state E :=
  let p := pget me s in
  if 0 <? n then
    if TRAPFRAME <? u64 (sz p + n) then (-1, s) else
    let '(size, e) := uvmalloc (pagetable p) (sz p) (u64 (sz p + n)) PTE_W (env s) in
    if size =? 0 then (-1, set_env e s)
    else (0, upd (λ p, set_mem size (pagetable p) (trapframe p) p) me (set_env e s))
  else if n <? 0 then
    let '(size, e) := uvmdealloc (pagetable p) (sz p) (u64 (sz p + n)) (env s) in
    (0, upd (λ p, set_mem size (pagetable p) (trapframe p) p) me (set_env e s))
  else (0, s).

(** [for(i = 0; i < NOFILE; i++) if(p->ofile[i]) np->ofile[i] = filedup(p->ofile[i]);] *)
Fixpoint dup_files (from to : list Z) (e : E) : list Z * E :=
  match from, to with
  | f :: from', t :: to' =>
      let '(x, e) := if negb (f =? 0) then filedup f e else (t, e) in
      let '(l, e) := dup_files from' to' e in (x :: l, e)
  | _, _ => (to, e)
  end.

Definition kfork (me : nat) s : Z * state E :=
  let '(np, s) := allocproc s in
  match np with
  | None => (-1, s)
  | Some n =>
      let p := pget me s in
      let '(r, e) := uvmcopy (pagetable p) (pagetable (pget n s)) (sz p) (env s) in
      let s := set_env e s in
      if r <? 0 then (-1, freeproc n s) else
      let tf := trapframe (pget n s) in
      let e := tf_set_a0 tf 0 (tf_copy tf (trapframe p) e) in
      let '(fs, e) := dup_files (ofile p) (ofile (pget n s)) e in
      let '(c, e) := idup (cwd p) e in
      let prio := if priority p <? 0 then 10 else priority p in
      let '(j, e) := if negb (jail_root p =? 0) then idup (jail_root p) e
                     else (jail_root (pget n s), e) in
      let s := upd (λ q,
        set_st RUNNABLE (set_parent (Some me)
          (set_jail (is_agent p) j
            (set_inherited (safestrcpy (name q) (name p) 16) prio (vruntime p) (is_agent p)
              (set_files fs c
                (set_mem (sz p) (pagetable q) (trapframe q) q)))))) n (set_env e s) in
      (pid (pget n s), s)
  end.

(** ** Sleeping and waking *)

(** The body of [wakeup]'s loop for one woken process. *)
Definition woken (mvr : Z) (p : procrec) : procrec :=
  let base := if mvr <? vruntime p then vruntime p else mvr in
  set_vruntime (if CFS_WAKEUP_BONUS <? base then base - CFS_WAKEUP_BONUS else 0)
    (set_st RUNNABLE p).

Definition wakes (ch : channel) (me : option nat) (i : nat) (p : procrec) : bool :=
  negb (bool_decide (Some i = me)) &&
  bool_decide (st p = SLEEPING) && bool_decide (chan p = Some ch).

Definition wakeup (ch : channel) (me : option nat) s : state E :=
  let mvr := cfs_min_vruntime s in
  set_procs (imap (λ i p, if wakes ch me i p then woken mvr p else p) (procs s)) s.

(** [sleep] up to [sched]; [resume] is what it does when it runs again. *)
Definition sleep (ch : channel) (me : nat) s : state E :=
  upd (λ p, set_st SLEEPING (set_chan (Some ch) p)) me s.

Definition resume (me : nat) s : state E := upd (set_chan None) me s.

Definition yield (me : nat) s : state E := upd (set_st RUNNABLE) me s.

Definition find_pid (x : Z) s : option nat := find_index (λ p, pid p =? x) (procs s).

Definition kkill (x : Z) s : Z * state E :=
  match find_pid x s with
  | None => (-1, s)
  | Some i =>
      (0, upd (λ p, let p := set_killed 1 p in
                    if decide (st p = SLEEPING) then set_st RUNNABLE p else p) i s)
  end.

Definition setkilled (i : nat) s : state E := upd (set_killed 1) i s.

Definition is_killed (i : nat) s : bool := negb (killed (pget i s) =? 0).

(** ** Exit and wait *)

(** The body of [reparent]'s loop: one [wakeup(initproc)] per child. *)
Definition reparent_one (i p : nat) (me : option nat) s : state E :=
  if decide (parent (pget i s) = Some p) then
    let s := upd (set_parent (initproc s)) i s in
    match initproc s with
    | Some ip => wakeup (ChanProc ip) me s
    | None => s
    end
  else s.

Fixpoint reparent_loop (k : nat) (i p : nat) (me : option nat) s : state E :=
  match k with
  | O => s
  | S k' => reparent_loop k' (S i) p me (reparent_one i p me s)
  end.

Definition reparent (p : nat) (me : option nat) s : state E :=
  reparent_loop (length (procs s)) 0 p me s.

Definition close_files (fs : list Z) (e : E) : E :=
  fold_left (λ e f, if negb (f =? 0) then fileclose f e else e) fs e.

(** Up to the call of [sched]; it never returns. *)
Definition kexit (me : nat) (status : Z) s : outcome (state E) :=
  if decide (initproc s = Some me) then Panic else
  let p := pget me s in
  let e := close_files (ofile p) (env s) in
  let e := iput (cwd p) (begin_op e) in
  let e := if negb (jail_root p =? 0) then iput (jail_root p) e else e in
  let e := end_op e in
  let s := upd (λ p, set_jail (is_agent p) 0 (set_files (replicate NOFILE 0) 0 p)) me (set_env e s) in
  let s := reparent me (Some me) s in
  let s := match parent (pget me s) with
           | Some pp => wakeup (ChanProc pp) (Some me) s
           | None => s
           end in
  Ok (upd (λ p, set_st ZOMBIE (set_xstate status p)) me s).

Inductive wait_result := Reaped (x : Z) | NoWait | MustSleep.

(** One pass over the table; a zombie child ends it. *)
Fixpoint wait_scan (k i me : nat) (addr : Z) (havekids : bool) s : wait_result * bool * state E :=
  match k with
  | O => (MustSleep, havekids, s)
  | S k' =>
      let pp := pget i s in
      if decide (parent pp = Some me) then
        if decide (st pp = ZOMBIE) then
          let '(r, e) := if negb (addr =? 0)
                         then copyout (pagetable (pget me s)) addr (le_encode 4 (u32 (xstate pp))) (env s)
                         else (0, env s) in
          let s := set_env e s in
          if negb (addr =? 0) && (r <? 0) then (NoWait, true, s)
          else (Reaped (pid pp), true, freeproc i s)
        else wait_scan k' (S i) me addr true s
      else wait_scan k' (S i) me addr havekids s
  end.

(** [kwait] up to its first [sleep]: [None] when it goes to sleep. *)
Definition kwait (me : nat) (addr : Z) s : option Z * state E :=
  let '(r, havekids, s) := wait_scan (length (procs s)) 0 me addr false s in
  match r with
  | Reaped x => (Some x, s)
  | NoWait => (Some (-1), s)
  | MustSleep =>
      if negb havekids || is_killed me s then (Some (-1), s)
      else (None, sleep (ChanProc me) me s)
  end.

(** ** The scheduler *)

(** The scan: [best], [best_vr], [best_ct]. *)
Fixpoint pick_loop (l : list procrec) (i : nat) (best : option (nat * Z * Z)) : option (nat * Z * Z) :=
  match l with
  | [] => best
  | p :: l' =>
      let better :=
        bool_decide (st p = RUNNABLE) &&
        match best with
        | None => true
        | Some (_, best_vr, best_ct) =>
            (vruntime p <? best_vr) || ((vruntime p =? best_vr) && (creation_tick p <? best_ct))
        end in
      pick_loop l' (S i) (if better then Some (i, vruntime p, creation_tick p) else best)
  end.

(** One round of [scheduler] on a CPU: the process it switches to. *)
Definition scheduler_step s : option nat * state E :=
  match pick_loop (procs s) 0 None with
  | None => (None, s)
  | Some (i, best_vr, _) => (Some i, upd (set_st RUNNING) i (cfs_advance_min best_vr s))
  end.

(** The timer branch of [usertrap] and [kerneltrap]: charge the tick, then [yield]. *)
Definition charge_tick (i : nat) s : state E :=
  upd (λ p, set_vruntime (u64 (vruntime p + cfs_vdelta (priority p))) p) i s.

Definition timer_tick (me : nat) s : state E := yield me (charge_tick me s).

(** ** Copying to and from a process *)

Definition either_copyout (me : nat) (user_dst : bool) (dst : Z) (src : list Z) s : Z * state E :=
  if user_dst then
    let '(r, e) := copyout (pagetable (pget me s)) dst src (env s) in (r, set_env e s)
  else (0, set_env (kmemmove dst src (env s)) s).

Definition either_copyin (me : nat) (user_src : bool) (src len : Z) s : option (list Z) :=
  if user_src then copyin (pagetable (pget me s)) src len (env s)
  else Some (kmemread src len (env s)).

(** ** The process listing *)

Definition state_name (x : procstate) : list Z :=
  match x with
  | UNUSED => bytes "unused" | USED => bytes "used" | SLEEPING => bytes "sleep "
  | RUNNABLE => bytes "runble" | RUNNING => bytes "run   " | ZOMBIE => bytes "zombie"
  end.

Definition dump_proc (p : procrec) : list Z :=
  if decide (st p = UNUSED) then [] else
  printf (bytes "%d %s %s prio=%d%s%s")
    [VInt (pid p); VStr (Some (state_name (st p))); VStr (Some (name p)); VInt (priority p);
     VStr (Some (if priority p <? 0 then bytes " [K]" else []));
     VStr (Some (if negb (is_agent p =? 0) then bytes " [A]" else []))]
  ++ printf (bytes "
") [].

Definition procdump s : list Z :=
  printf (bytes "
") [] ++ concat (map dump_proc (procs s)).
End proc.

(** ** The scheduler's choice *)

Lemma vdelta_table p : -20 ≤ p ≤ 20 →
  ∃ w, cfs_weight !! Z.to_nat (p + 20) = Some w ∧ 12 ≤ w ≤ 88761 ∧
    cfs_vdelta p = 2 ^ 30 / w.
Proof.
  intros Hp. unfold cfs_vdelta.
  rewrite (proj2 (Z.ltb_ge (p + 20) 0)), (proj2 (Z.ltb_ge 40 (p + 20))) by lia.
  destruct (lookup_lt_is_Some_2 cfs_weight (Z.to_nat (p + 20))) as [w Hw].
  { change (length cfs_weight) with 41%nat. lia. }
  exists w. rewrite (nth_lookup_Some _ _ _ _ Hw). split_and!; [done|..].
  1,2: assert (HF : Forall (λ w, 12 ≤ w ≤ 88761) cfs_weight)
         by (repeat (constructor; [lia|]); constructor);
       destruct (Forall_lookup_1 _ _ _ _ HF Hw); lia.
  f_equal.
Qed.

Lemma vdelta_pos p : 0 < cfs_vdelta p < 2 ^ 27.
Proof.
  assert (Hc : ∃ q, -20 ≤ q ≤ 20 ∧ cfs_vdelta p = cfs_vdelta q).
  { unfold cfs_vdelta.
    destruct (Z.ltb_spec (p + 20) 0); [exists (-20); split; [lia|done]|].
    destruct (Z.ltb_spec 40 (p + 20)); [exists 20; split; [lia|done]|].
    exists p. split; [lia|]. rewrite (proj2 (Z.ltb_ge (p + 20) 0)), (proj2 (Z.ltb_ge 40 (p + 20))) by lia. done. }
  destruct Hc as (q & Hq & ->). destruct (vdelta_table q Hq) as (w & _ & Hw & ->).
  split; [apply Z.div_str_pos; lia|]. apply Z.div_lt_upper_bound; lia.
Qed.

(** [before p q]: [p] is preferred to [q]: smaller vruntime, then older. *)
Definition before (p q : procrec) : Prop :=
  vruntime p < vruntime q ∨ (vruntime p = vruntime q ∧ creation_tick p ≤ creation_tick q).

Definition runnable (p : procrec) : bool := bool_decide (st p = RUNNABLE).

(** The scan over the entries [i], [i + 1], ... of the table [pre ++ l]. *)
Lemma pick_loop_spec l pre best :
  match best with
  | None => ∀ j q, pre !! j = Some q → runnable q = false
  | Some (b, vr, ct) => ∃ p, pre !! b = Some p ∧ runnable p = true ∧ vruntime p = vr ∧
      creation_tick p = ct ∧ ∀ j q, pre !! j = Some q → runnable q = true → before p q
  end →
  match pick_loop l (length pre) best with
  | None => ∀ j q, (pre ++ l) !! j = Some q → runnable q = false
  | Some (b, vr, ct) => ∃ p, (pre ++ l) !! b = Some p ∧ runnable p = true ∧ vruntime p = vr ∧
      creation_tick p = ct ∧ ∀ j q, (pre ++ l) !! j = Some q → runnable q = true → before p q
  end.
Proof.
  revert pre best. induction l as [|p l IH]; intros pre best Hb; cbn [pick_loop].
  { rewrite app_nil_r. exact Hb. }
  assert (Hpre : pre ++ p :: l = (pre ++ [p]) ++ l) by (by rewrite <- app_assoc).
  rewrite Hpre. replace (S (length pre)) with (length (pre ++ [p])) by (rewrite length_app; simpl; lia).
  apply IH. fold (runnable p).
  assert (Hin : ∀ j q, (pre ++ [p]) !! j = Some q → pre !! j = Some q ∨ (j = length pre ∧ q = p)).
  { intros j q. apply lookup_snoc_cases. }
  destruct (runnable p) eqn:Hr; cbn [andb].
  - destruct best as [[[b vr] ct]|].
    + destruct Hb as (pb & Hpb & Hrb & <- & <- & Hmin).
      destruct ((vruntime p <? vruntime pb) ||
                (vruntime p =? vruntime pb) && (creation_tick p <? creation_tick pb)) eqn:Hbet.
      * exists p. split_and!; try done; [by rewrite lookup_app_r, Nat.sub_diag by lia|].
        intros j q [Hq|[-> ->]]%Hin Hrq; [|right; lia].
        specialize (Hmin j q Hq Hrq). unfold before in *.
        apply orb_true_iff in Hbet as [?|[??]%andb_true_iff]; bool_hyps; lia.
      * exists pb. split_and!; try done; [by apply lookup_app_l_Some|].
        intros j q [Hq|[-> ->]]%Hin Hrq; [by eapply Hmin|]. unfold before.
        apply orb_false_iff in Hbet as [? [?|?]%andb_false_iff]; bool_hyps; lia.
    + exists p. split_and!; try done; [by rewrite lookup_app_r, Nat.sub_diag by lia|].
      intros j q [Hq|[-> ->]]%Hin Hrq; [by rewrite (Hb _ _ Hq) in Hrq|right; lia].
  - destruct best as [[[b vr] ct]|].
    + destruct Hb as (pb & Hpb & Hrb & Hvr & Hct & Hmin).
      exists pb. split_and!; try done; [by apply lookup_app_l_Some|].
      intros j q [Hq|[-> ->]]%Hin Hrq; [by eapply Hmin|congruence].
    + intros j q [Hq|[-> ->]]%Hin; [by eapply Hb|done].
Qed.

Section proofs.
Context `{ProcEnv E}.
Implicit Types s : state E.

Lemma pick_spec s :
  match pick_loop (procs s) 0 None with
  | None => ∀ j q, procs s !! j = Some q → runnable q = false
  | Some (b, vr, _) => ∃ p, procs s !! b = Some p ∧ runnable p = true ∧ vruntime p = vr ∧
      ∀ j q, procs s !! j = Some q → runnable q = true → before p q
  end.
Proof.
  pose proof (pick_loop_spec (procs s) [] None ltac:(done)) as Hp. cbn [length app] in Hp.
  destruct (pick_loop (procs s) 0 None) as [[[b vr] ct]|]; [|done]. naive_solver.
Qed.

(** C10: CFS: a scheduling round switches to a runnable process of least vruntime,
    the oldest of them on a tie, marks it running and pulls the global
    min_vruntime up to its vruntime, never back; with nothing runnable it
    changes nothing. *)
Theorem scheduler_picks_min s :
  match scheduler_step s with
  | (None, s') => s' = s ∧ ∀ j q, procs s !! j = Some q → st q ≠ RUNNABLE
  | (Some i, s') =>
      ∃ p, procs s !! i = Some p ∧ st p = RUNNABLE ∧
        procs s' = <[i := set_st RUNNING p]> (procs s) ∧
        (∀ j q, procs s !! j = Some q → st q = RUNNABLE → before p q) ∧
        cfs_min_vruntime s' = Z.max (cfs_min_vruntime s) (vruntime p)
  end.
Proof.
  pose proof (pick_spec s) as Hp. unfold scheduler_step.
  destruct (pick_loop (procs s) 0 None) as [[[b vr] ct]|].
  - destruct Hp as (p & Hp & Hr & <- & Hmin). unfold runnable in *. apply bool_decide_eq_true in Hr.
    exists p. split_and!; try done.
    + cbn [upd procs cfs_advance_min]. by apply alter_insert.
    + intros j q Hq Hrq. eapply Hmin; [done|]. by apply bool_decide_eq_true_2.
    + cbn [upd cfs_advance_min cfs_min_vruntime]. bcase; lia.
  - split; [done|]. intros j q Hq. specialize (Hp j q Hq). unfold runnable in Hp.
    by apply bool_decide_eq_false in Hp.
Qed.

(** ** What each operation does to the table *)

Lemma procs_upd f i q s l :
  procs s = <[i := q]> l → (i < length l)%nat → procs (upd f i s) = <[i := f q]> l.
Proof.
  intros Hs Hi. cbn [upd procs]. rewrite Hs.
  rewrite (alter_insert _ _ _ _ (list_lookup_insert_eq _ _ _ Hi)). apply list_insert_insert_eq.
Qed.

Lemma procs_upd_same f i p s : procs s !! i = Some p → procs (upd f i s) = <[i := f p]> (procs s).
Proof. intros Hi. cbn [upd procs]. by apply alter_insert. Qed.

Lemma procs_freeproc i q s l :
  procs s = <[i := q]> l → (i < length l)%nat → procs (freeproc i s) = <[i := cleared q]> l.
Proof. intros Hs Hi. unfold freeproc. by apply procs_upd. Qed.

Lemma find_unused_Some s i :
  find_unused s = Some i → ∃ p, procs s !! i = Some p ∧ st p = UNUSED.
Proof.
  intros Hf. apply find_index_Some in Hf as (p & Hp & Hu & _). exists p.
  by apply bool_decide_eq_true in Hu.
Qed.

(** The entry [allocproc] hands out. *)
Record fresh (s : state E) (p q : procrec) : Prop := {
  fr_st : st q = USED;
  fr_pid : pid q = nextpid s;
  fr_parent : parent q = parent p;
  fr_killed : killed q = killed p;
  fr_chan : chan q = chan p;
  fr_priority : priority q = 10;
  fr_vruntime : vruntime q = cfs_min_vruntime s;
  fr_agent : is_agent q = 0;
  fr_jail : jail_root q = 0;
  fr_context : ctx_sp q = kstack p + KSTACK_PAGES * PGSIZE;
}.

(** What [allocproc] changes besides the entry. *)
Definition same_globals s s' : Prop :=
  cfs_min_vruntime s' = cfs_min_vruntime s ∧ initproc s' = initproc s ∧ ticks s' = ticks s.

Lemma allocproc_spec s :
  match allocproc s with
  | (Some i, s') => ∃ p q, procs s !! i = Some p ∧ st p = UNUSED ∧
      procs s' = <[i := q]> (procs s) ∧ fresh s p q ∧
      nextpid s' = s32 (nextpid s + 1) ∧ same_globals s s'
  | (None, s') => same_globals s s' ∧
      ((s' = s ∧ find_unused s = None) ∨
       ∃ i p q, procs s !! i = Some p ∧ st p = UNUSED ∧ procs s' = <[i := cleared q]> (procs s) ∧
         nextpid s' = s32 (nextpid s + 1))
  end.
Proof.
  unfold allocproc. destruct (find_unused s) as [i|] eqn:Hf; [|by split; [|left]].
  destruct (find_unused_Some _ _ Hf) as (p & Hp & Hu).
  pose proof (lookup_lt_Some _ _ _ Hp) as Hlt. cbn [allocpid].
  set (s0 := mk_state (procs s) (s32 (nextpid s + 1)) _ _ _ _).
  pose proof (procs_upd_same (claimed (nextpid s) (cfs_min_vruntime s0) (ticks s0)) i p s0 Hp) as H1.
  set (s1 := upd (claimed _ _ _) i s0) in *. destruct (kalloc (env s1)) as [tf e1].
  pose proof (procs_upd (λ p, set_mem (sz p) (pagetable p) tf p) i _ (set_env e1 s1) _ H1 Hlt) as H2.
  set (s2 := upd _ i (set_env e1 s1)) in *. destruct (tf =? 0).
  { split; [done|]. right. eexists i, p, _. split_and!; [done|done| |done].
    by apply procs_freeproc. }
  destruct (proc_pagetable tf (env s2)) as [pt e2].
  pose proof (procs_upd (λ p, set_mem (sz p) pt (trapframe p) p) i _ (set_env e2 s2) _ H2 Hlt) as H3.
  set (s3 := upd _ i (set_env e2 s2)) in *. destruct (pt =? 0).
  { split; [done|]. right. eexists i, p, _. split_and!; [done|done| |done].
    by apply procs_freeproc. }
  eexists p, _. split_and!; [done|done| | |done|done].
  - by eapply procs_upd.
  - by split.
Qed.

(** The child [kfork] leaves runnable. *)
Record forked (s : state E) (me : nat) (p q : procrec) : Prop := {
  fk_st : st q = RUNNABLE;
  fk_pid : pid q = nextpid s;
  fk_parent : parent q = Some me;
  fk_priority : priority q = if priority p <? 0 then 10 else priority p;
  fk_vruntime : vruntime q = vruntime p;
  fk_agent : is_agent q = is_agent p;
  fk_jail : jail_root p = 0 → jail_root q = 0;
}.

Lemma kfork_spec me s p :
  procs s !! me = Some p → st p ≠ UNUSED →
  let '(r, s') := kfork me s in
  same_globals s s' ∧
  ((r = -1 ∧ (s' = s ∨ ∃ i o q, procs s !! i = Some o ∧ st o = UNUSED ∧
       procs s' = <[i := cleared q]> (procs s) ∧ nextpid s' = s32 (nextpid s + 1))) ∨
   (r = nextpid s ∧ ∃ i o q e, procs s !! i = Some o ∧ st o = UNUSED ∧
      procs s' = <[i := q]> (procs s) ∧ forked s me p q ∧ nextpid s' = s32 (nextpid s + 1) ∧
      chan q = chan o ∧ killed q = killed o ∧
      (jail_root p ≠ 0 → jail_root q = (idup (jail_root p) e).1))).
Proof.
  intros Hme Hst. unfold kfork. pose proof (allocproc_spec s) as Ha.
  destruct (allocproc s) as [[n|] s1].
  - destruct Ha as (o & q & Ho & Hou & Hps & Hfr & Hnp & Hg).
    pose proof (lookup_lt_Some _ _ _ Ho) as Hlt.
    assert (Hne : n ≠ me) by (intros ->; congruence).
    assert (Hgp : pget me s1 = p).
    { unfold pget. apply nth_lookup_Some. by rewrite Hps, list_lookup_insert_ne. }
    rewrite Hgp. destruct (uvmcopy _ _ _ _) as [r e]. destruct (r <? 0).
    { split; [done|]. left. split; [done|]. right. exists n, o, q. split_and!; [done|done| |done].
      by apply procs_freeproc. }
    assert (Hgn : pget n (set_env e s1) = q).
    { unfold pget. cbn [set_env procs]. rewrite Hps. by apply nth_lookup_Some, list_lookup_insert_eq. }
    rewrite !Hgn. destruct (dup_files _ _ _) as [fs e2]. destruct (idup (cwd p) e2) as [c e3].
    destruct (Z.eqb_spec (jail_root p) 0) as [Hj|Hj]; cbn [negb].
    + split; [done|]. right. unfold pget. cbn [upd set_env procs]. rewrite Hps.
      rewrite (alter_insert _ _ _ _ (list_lookup_insert_eq _ _ _ Hlt)), list_insert_insert_eq.
      rewrite (nth_lookup_Some _ _ _ _ (list_lookup_insert_eq _ _ _ Hlt)).
      split; [by apply (fr_pid _ _ _ Hfr)|].
      eexists n, o, _, e3. split_and!; [done|done|reflexivity| |done|apply (fr_chan _ _ _ Hfr)
        |apply (fr_killed _ _ _ Hfr)|done].
      split; try done; [apply (fr_pid _ _ _ Hfr)|]. intros _. apply (fr_jail _ _ _ Hfr).
    + destruct (idup (jail_root p) e3) as [j e4] eqn:Hdup.
      split; [done|]. right. unfold pget. cbn [upd set_env procs]. rewrite Hps.
      rewrite (alter_insert _ _ _ _ (list_lookup_insert_eq _ _ _ Hlt)), list_insert_insert_eq.
      rewrite (nth_lookup_Some _ _ _ _ (list_lookup_insert_eq _ _ _ Hlt)).
      split; [by apply (fr_pid _ _ _ Hfr)|].
      eexists n, o, _, e3. split_and!; [done|done|reflexivity| |done|apply (fr_chan _ _ _ Hfr)
        |apply (fr_killed _ _ _ Hfr)|by rewrite Hdup].
      split; try done; apply (fr_pid _ _ _ Hfr).
  - destruct Ha as [Hg Ha]. split; [done|]. left. split; [done|].
    destruct Ha as [[-> _]|Ha]; [by left|right; done].
Qed.

(** [wakeup]: exactly the sleepers on the channel, other than the caller, wake. *)
Lemma wakeup_lookup ch me s i :
  procs (wakeup ch me s) !! i =
  (λ p, if wakes ch me i p then woken (cfs_min_vruntime s) p else p) <$> procs s !! i.
Proof. unfold wakeup. cbn [set_procs procs]. apply list_lookup_imap. Qed.

Lemma wakes_spec ch me i p :
  wakes ch me i p = true ↔ Some i ≠ me ∧ st p = SLEEPING ∧ chan p = Some ch.
Proof.
  unfold wakes. rewrite !andb_true_iff, negb_true_iff, bool_decide_eq_false, !bool_decide_eq_true. tauto.
Qed.

(** A wakeup makes runnable exactly the processes asleep on the channel other
    than the caller, whatever their number; each gets a vruntime of at least the
    global minimum, and at least its own, less the wakeup bonus, and none
    above the larger of the two. *)
Theorem wakeup_exact ch me s i p :
  procs s !! i = Some p → is_u64 (vruntime p) → is_u64 (cfs_min_vruntime s) →
  ∃ q, procs (wakeup ch me s) !! i = Some q ∧
    (if bool_decide (Some i ≠ me ∧ st p = SLEEPING ∧ chan p = Some ch)
     then st q = RUNNABLE ∧ chan q = chan p ∧
          vruntime q = Z.max 0 (Z.max (vruntime p) (cfs_min_vruntime s) - CFS_WAKEUP_BONUS)
     else q = p).
Proof.
  intros Hp Hv Hm. eexists. rewrite wakeup_lookup, Hp. split; [reflexivity|].
  destruct (wakes ch me i p) eqn:Hw.
  - rewrite bool_decide_eq_true_2 by by apply wakes_spec. split_and!; [done|done|].
    unfold woken. cbn [set_vruntime vruntime].
    destruct (Z.ltb_spec (cfs_min_vruntime s) (vruntime p));
      destruct (Z.ltb_spec CFS_WAKEUP_BONUS (if (cfs_min_vruntime s <? vruntime p)%Z then vruntime p else cfs_min_vruntime s));
      unfold CFS_WAKEUP_BONUS in *; repeat bcase; lia.
  - rewrite bool_decide_eq_false_2; [done|]. intros Hn. apply wakes_spec in Hn. congruence.
Qed.

(** What other processes' steps may do to an entry: wake it, and no more. *)
Definition core (p : procrec) : Z * option nat * Z * Z * Z * option channel :=
  (pid p, parent p, priority p, is_agent p, jail_root p, chan p).

Definition wake_rel (p q : procrec) : Prop :=
  core q = core p ∧ (st q = st p ∧ vruntime q = vruntime p ∨ st p = SLEEPING ∧ st q = RUNNABLE ∧ 0 ≤ vruntime q).

#[local] Instance wake_rel_refl : Reflexive wake_rel.
Proof. intros p. split; [done|by left]. Qed.

#[local] Instance wake_rel_trans : Transitive wake_rel.
Proof.
  intros p q r [H1 H2] [H3 H4]. split; [congruence|].
  destruct H2 as [[? Hv]|(? & ? & ?)], H4 as [[? Hv']|(? & ? & ?)]; [left|right|right|right]; split_and?; (congruence || by rewrite ?Hv').
Qed.

Definition pointwise (R : nat → procrec → procrec → Prop) (l l' : list procrec) : Prop :=
  length l' = length l ∧ ∀ i p, l !! i = Some p → ∃ q, l' !! i = Some q ∧ R i p q.

Lemma wakeup_pointwise ch me s : pointwise (λ _, wake_rel) (procs s) (procs (wakeup ch me s)).
Proof.
  split; [cbn [wakeup set_procs procs]; apply length_imap|]. intros i p Hp. eexists.
  rewrite wakeup_lookup, Hp. split; [reflexivity|].
  destruct (wakes ch me i p) eqn:Hw; [|done]. apply wakes_spec in Hw as (_ & Hs & _).
  split; [done|]. right. split_and!; [done|done|]. unfold woken. cbn [set_vruntime vruntime].
  destruct (Z.ltb_spec CFS_WAKEUP_BONUS (if (cfs_min_vruntime s <? vruntime p)%Z then vruntime p else cfs_min_vruntime s)); lia.
Qed.

Lemma wakeup_self ch me s p :
  procs s !! me = Some p → procs (wakeup ch (Some me) s) !! me = Some p.
Proof.
  intros Hp. rewrite wakeup_lookup, Hp. simpl. unfold wakes.
  by rewrite (bool_decide_eq_true_2 (Some me = Some me)) by done.
Qed.

Lemma wakeup_globals ch me s :
  initproc (wakeup ch me s) = initproc s ∧ nextpid (wakeup ch me s) = nextpid s.
Proof. done. Qed.

(** Giving the children that satisfy [c] to init, and wakes. *)
Definition adopted (ip : option nat) (c : Prop) `{Decision c} (p q : procrec) : Prop :=
  if decide c then wake_rel (set_parent ip p) q else wake_rel p q.

Lemma wake_rel_parent p q : wake_rel p q → parent q = parent p.
Proof. intros [Hc _]. unfold core in Hc. by injection Hc. Qed.

Lemma wake_rel_set_parent ip p q : wake_rel p q → wake_rel (set_parent ip p) (set_parent ip q).
Proof.
  intros [Hc Hs]. split; [|exact Hs]. unfold core in *.
  cbn [set_parent pid parent priority is_agent jail_root chan]. by injection Hc as -> _ -> -> -> ->.
Qed.

Lemma reparent_one_spec i x me s :
  let s' := reparent_one i x me s in
  initproc s' = initproc s ∧ nextpid s' = nextpid s ∧ length (procs s') = length (procs s) ∧
  (∀ j p, procs s !! j = Some p → ∃ q, procs s' !! j = Some q ∧
     adopted (initproc s) (j = i ∧ parent p = Some x) p q) ∧
  (∀ m p, me = Some m → procs s !! m = Some p → parent p ≠ Some x → procs s' !! m = Some p).
Proof.
  cbv zeta. unfold reparent_one. destruct (decide (parent (pget i s) = Some x)) as [Hx|Hx].
  2:{ split_and!; try done. intros j p Hp. exists p. split; [done|]. unfold adopted.
      rewrite decide_False; [done|]. intros [-> Hpx]. apply Hx. unfold pget.
      by rewrite (nth_lookup_Some _ _ _ _ Hp). }
  set (su := upd (set_parent (initproc s)) i s).
  assert (Hl : length (procs su) = length (procs s)) by apply length_alter.
  assert (Hlook : ∀ j p, procs s !! j = Some p → ∃ q, procs su !! j = Some q ∧
     q = if decide (j = i ∧ parent p = Some x) then set_parent (initproc s) p else p).
  { intros j p Hp. unfold su. cbn [upd procs]. destruct (decide (j = i)) as [->|Hne].
    - rewrite list_lookup_alter_eq, Hp. eexists. split; [reflexivity|]. rewrite decide_True; [done|].
      split; [done|]. rewrite <- Hx. unfold pget. by rewrite (nth_lookup_Some _ _ _ _ Hp).
    - rewrite list_lookup_alter_ne by done. exists p. by rewrite decide_False by tauto. }
  change (initproc s) with (initproc su) at 1.
  destruct (initproc su) as [ip|] eqn:Hisu; change (initproc su) with (initproc s) in Hisu.
  - destruct (wakeup_pointwise (ChanProc ip) me su) as [Hlw Hw].
    split_and!; [done|done|by rewrite Hlw| |].
    + intros j p Hp. destruct (Hlook j p Hp) as (q & Hq & ->). destruct (Hw j _ Hq) as (r & Hr & Hqr).
      exists r. split; [done|]. unfold adopted. by case_decide.
    + intros m p -> Hp Hpx. apply wakeup_self. destruct (Hlook m p Hp) as (q & Hq & ->).
      by rewrite decide_False in Hq by tauto.
  - split_and!; [done|done|done| |].
    + intros j p Hp. destruct (Hlook j p Hp) as (q & Hq & ->). eexists. split; [exact Hq|].
      unfold adopted. by case_decide.
    + intros m p -> Hp Hpx. destruct (Hlook m p Hp) as (q & Hq & ->).
      by rewrite decide_False in Hq by tauto.
Qed.

(** [reparent] gives every child of [x] to init and wakes sleepers at most. *)
Lemma reparent_loop_spec k i x me s :
  (i + k = length (procs s))%nat → initproc s ≠ Some x →
  let s' := reparent_loop k i x me s in
  initproc s' = initproc s ∧ nextpid s' = nextpid s ∧ length (procs s') = length (procs s) ∧
  (∀ j p, procs s !! j = Some p → ∃ q, procs s' !! j = Some q ∧
     adopted (initproc s) ((i ≤ j)%nat ∧ parent p = Some x) p q) ∧
  (∀ m p, me = Some m → procs s !! m = Some p → parent p ≠ Some x → procs s' !! m = Some p).
Proof.
  revert i s. induction k as [|k IH]; intros i s Hk Hip; cbn [reparent_loop].
  { cbv zeta. split_and!; try done. intros j p Hp. exists p. split; [done|]. unfold adopted.
    rewrite decide_False; [done|]. apply lookup_lt_Some in Hp. lia. }
  destruct (reparent_one_spec i x me s) as (Hi1 & Hn1 & Hl1 & Hp1 & Hm1).
  destruct (IH (S i) (reparent_one i x me s) ltac:(lia) ltac:(by rewrite Hi1)) as (Hi2 & Hn2 & Hl2 & Hp2 & Hm2).
  cbv zeta in *. split_and!; [congruence|congruence|congruence| |].
  2:{ intros m p Hm Hp Hpx. apply (Hm2 m p Hm); [|done]. by apply (Hm1 m p Hm). }
  intros j p Hp. destruct (Hp1 j p Hp) as (q & Hq & Hcase).
  destruct (Hp2 j q Hq) as (r & Hr & Hcase2). exists r. split; [done|]. rewrite Hi1 in Hcase2.
  unfold adopted in *. destruct (decide (j = i ∧ parent p = Some x)) as [[-> Hpx]|Hji].
  - rewrite decide_True by (split; [lia|done]). rewrite decide_False in Hcase2 by lia. by transitivity q.
  - rewrite <- (wake_rel_parent _ _ Hcase).
    destruct (decide ((S i ≤ j)%nat ∧ parent q = Some x)) as [[? Hqx]|Hn].
    + rewrite decide_True by (split; [lia|done]).
      transitivity (set_parent (initproc s) q); [by apply wake_rel_set_parent|done].
    + rewrite decide_False; [by transitivity q|]. intros [Hle Hqx].
      rewrite (wake_rel_parent _ _ Hcase) in Hqx, Hn.
      destruct (decide (j = i)); [by apply Hji|]. apply Hn. split; [lia|done].
Qed.

(** What [kexit] leaves: the process is a zombie with its exit status and no
    files or directories, its children belong to init, sleepers may be awake. *)
Lemma kexit_spec me status s p :
  procs s !! me = Some p → initproc s ≠ Some me → parent p ≠ Some me →
  ∃ s', kexit me status s = Ok s' ∧ initproc s' = initproc s ∧ nextpid s' = nextpid s ∧
    length (procs s') = length (procs s) ∧
    (∃ q, procs s' !! me = Some q ∧ st q = ZOMBIE ∧ xstate q = status ∧ pid q = pid p ∧
       parent q = parent p ∧ priority q = priority p ∧ is_agent q = is_agent p ∧ jail_root q = 0 ∧
       ofile q = replicate NOFILE 0 ∧ cwd q = 0 ∧ chan q = chan p ∧ vruntime q = vruntime p) ∧
    (∀ j r, j ≠ me → procs s !! j = Some r → ∃ q, procs s' !! j = Some q ∧
       adopted (initproc s) (parent r = Some me) r q).
Proof.
  intros Hp Hip Hpar. unfold kexit. rewrite decide_False by done.
  assert (Hget : pget me s = p) by by apply nth_lookup_Some. rewrite Hget.
  match goal with |- context [set_env ?e s] => set (s0 := upd (λ p, set_jail (is_agent p) 0
    (set_files (replicate NOFILE 0) 0 p)) me (set_env e s)) end.
  set (p0 := set_jail (is_agent p) 0 (set_files (replicate NOFILE 0) 0 p)).
  assert (H0 : procs s0 = <[me := p0]> (procs s)).
  { unfold s0. cbn [upd procs set_env]. by rewrite (alter_insert _ _ _ _ Hp). }
  assert (Hp0 : procs s0 !! me = Some p0) by (rewrite H0; apply list_lookup_insert_eq; by eapply lookup_lt_Some).
  destruct (reparent_loop_spec (length (procs s0)) 0 me (Some me) s0 eq_refl Hip) as (Hi1 & Hn1 & Hl1 & Hp1 & Hm1).
  fold (reparent me (Some me) s0) in *. set (s1 := reparent me (Some me) s0) in *.
  assert (Hme1 : procs s1 !! me = Some p0) by by apply (Hm1 me p0).
  set (s2 := match parent (pget me s1) with Some pp => wakeup (ChanProc pp) (Some me) s1 | None => s1 end).
  assert (H2 : procs s2 !! me = Some p0 ∧ pointwise (λ _, wake_rel) (procs s1) (procs s2) ∧
               initproc s2 = initproc s1 ∧ nextpid s2 = nextpid s1).
  { unfold s2. destruct (parent (pget me s1)) as [pp|].
    - split_and!; [by apply wakeup_self|apply wakeup_pointwise|done|done].
    - split_and!; try done. split; [done|]. intros j q Hq. by exists q. }
  destruct H2 as (Hme2 & [Hl2 Hpt2] & Hi2 & Hn2).
  eexists. split; [reflexivity|]. cbn [upd initproc nextpid procs]. rewrite length_alter.
  split_and!; [rewrite Hi2, Hi1; done|rewrite Hn2, Hn1; done
    |rewrite Hl2, Hl1, H0; apply length_insert| |].
  - rewrite list_lookup_alter_eq, Hme2. eexists. split; [reflexivity|]. done.
  - intros j r Hj Hr. rewrite list_lookup_alter_ne by done.
    assert (Hr0 : procs s0 !! j = Some r) by (by rewrite H0, list_lookup_insert_ne).
    destruct (Hp1 j r Hr0) as (q1 & Hq1 & Hc1). destruct (Hpt2 j q1 Hq1) as (q2 & Hq2 & Hc2).
    exists q2. split; [done|]. unfold adopted in *. change (initproc s0) with (initproc s) in Hc1.
    destruct (decide (parent r = Some me)).
    + rewrite decide_True in Hc1 by (split; [lia|done]). by transitivity q1.
    + rewrite decide_False in Hc1 by tauto. by transitivity q1.
Qed.

Lemma procs_freeproc_same i p s :
  procs s !! i = Some p → procs (freeproc i s) = <[i := cleared p]> (procs s).
Proof. intros Hp. unfold freeproc. cbn [upd procs set_env]. by rewrite (alter_insert _ _ _ _ Hp). Qed.

(** One pass of [kwait] over the entries from [i] on. *)
Lemma wait_scan_spec k i me addr hk s :
  (i + k = length (procs s))%nat →
  let '(r, hk', s') := wait_scan k i me addr hk s in
  initproc s' = initproc s ∧ nextpid s' = nextpid s ∧
  match r with
  | Reaped x => ∃ j z, procs s !! j = Some z ∧ parent z = Some me ∧ st z = ZOMBIE ∧ x = pid z ∧
      procs s' = <[j := cleared z]> (procs s) ∧
      (∀ j' z', (i ≤ j' < j)%nat → procs s !! j' = Some z' → parent z' = Some me → st z' ≠ ZOMBIE)
  | NoWait => procs s' = procs s
  | MustSleep => s' = s ∧ (∀ j z, (i ≤ j)%nat → procs s !! j = Some z → parent z = Some me → st z ≠ ZOMBIE) ∧
      (hk' = true ↔ hk = true ∨ ∃ j z, (i ≤ j)%nat ∧ procs s !! j = Some z ∧ parent z = Some me)
  end.
Proof.
  revert i hk. induction k as [|k IH]; intros i hk Hk; cbn [wait_scan].
  { assert (Hno : ∀ j z, (i ≤ j)%nat → procs s !! j ≠ Some z)
      by (intros j z Hj Hz; apply lookup_lt_Some in Hz; lia).
    split; [done|]. split; [done|]. split; [done|]. naive_solver. }
  destruct (lookup_lt_is_Some_2 (procs s) i ltac:(lia)) as [z Hz].
  assert (Hget : pget i s = z) by by apply nth_lookup_Some. rewrite Hget.
  destruct (decide (parent z = Some me)) as [Hpar|Hpar]; [destruct (decide (st z = ZOMBIE)) as [Hzo|Hzo]|].
  - destruct (if negb (addr =? 0) then _ else _) as [r e]. destruct (_ && _); [done|].
    split_and!; [done|done|]. exists i, z. split_and!; try done; [by apply (procs_freeproc_same i z (set_env e s))|lia].
  - specialize (IH (S i) true ltac:(lia)). destruct (wait_scan k (S i) me addr true s) as [[r hk'] s'].
    destruct IH as (H1 & H2 & H3). split_and!; [done|done|]. destruct r; try done.
    { destruct H3 as (j & y & H4 & H5 & H6 & H7 & H8 & H9). exists j, y. split_and!; try done.
      intros j' z' Hj' Hz' Hp'. destruct (decide (j' = i)) as [->|]; [|apply (H9 j'); [lia|done|done]]. congruence. }
    destruct H3 as (-> & Hnz & Hhk). split; [done|]. split.
    + intros j y Hj Hy. destruct (decide (j = i)) as [->|]; [by replace y with z by congruence|].
      apply (Hnz j); [lia|done].
    + split; [intros _; right; exists i, z; split_and!; [lia|done|done]|intros _; apply Hhk; by left].
  - specialize (IH (S i) hk ltac:(lia)). destruct (wait_scan k (S i) me addr hk s) as [[r hk'] s'].
    destruct IH as (H1 & H2 & H3). split_and!; [done|done|]. destruct r; try done.
    { destruct H3 as (j & y & H4 & H5 & H6 & H7 & H8 & H9). exists j, y. split_and!; try done.
      intros j' z' Hj' Hz' Hp'. destruct (decide (j' = i)) as [->|]; [|apply (H9 j'); [lia|done|done]]. congruence. }
    destruct H3 as (-> & Hnz & Hhk). split; [done|]. split.
    + intros j y Hj Hy. destruct (decide (j = i)) as [->|]; [by replace y with z by congruence|].
      apply (Hnz j); [lia|done].
    + rewrite Hhk. split; intros [?|(j & y & Hj & Hy & Hpy)]; [by left| |by left|].
      * right. exists j, y. split_and!; [lia|done|done].
      * right. exists j, y. split_and!; [|done|done].
        destruct (decide (j = i)) as [->|]; [|lia]. congruence.
Qed.

(** ** The multiprocessor *)

(** The table and, per CPU, [c->proc]. *)
Record system := mk_system { ps : state E; cpus : list (option nat) }.

(** What can happen: the scheduler of an idle CPU, or the process running on a
    CPU, or a wakeup or kill from an interrupt or a system call on a CPU. *)
Inductive sys_label :=
  | Pick (c : nat)
  | Timer (c : nat)
  | SleepOn (c : nat) (ch : channel)
  | Fork (c : nat)
  | Exit (c : nat) (status : Z)
  | Wait (c : nat) (addr : Z)
  | Wake (c : nat) (ch : channel)
  | Kill (x : Z)
  | SetKilled (c : nat).

Definition running_on (c : nat) (y : system) : option nat := mjoin (cpus y !! c).

Definition idle (c : nat) (y : system) : bool :=
  match cpus y !! c with Some None => true | _ => false end.

Definition sys_step (y : system) (l : sys_label) : option system :=
  match l with
  | Pick c =>
      if idle c y then
        match scheduler_step (ps y) with
        | (Some i, s) => Some (mk_system (resume i s) (<[c := Some i]> (cpus y)))
        | (None, s) => Some (mk_system s (cpus y))
        end
      else None
  | Timer c => me ← running_on c y; Some (mk_system (timer_tick me (ps y)) (<[c := None]> (cpus y)))
  | SleepOn c ch => me ← running_on c y; Some (mk_system (sleep ch me (ps y)) (<[c := None]> (cpus y)))
  | Fork c => me ← running_on c y; Some (mk_system (kfork me (ps y)).2 (cpus y))
  | Exit c status =>
      me ← running_on c y;
      match kexit me status (ps y) with
      | Ok s => Some (mk_system s (<[c := None]> (cpus y)))
      | Panic => None
      end
  | Wait c addr =>
      me ← running_on c y;
      match kwait me addr (ps y) with
      | (Some _, s) => Some (mk_system s (cpus y))
      | (None, s) => Some (mk_system s (<[c := None]> (cpus y)))
      end
  | Wake c ch => Some (mk_system (wakeup ch (running_on c y) (ps y)) (cpus y))
  | Kill x => Some (mk_system (kkill x (ps y)).2 (cpus y))
  | SetKilled c => me ← running_on c y; Some (mk_system (setkilled me (ps y)) (cpus y))
  end.

Inductive sys_steps : system → list sys_label → system → Prop :=
  | sys_nil y : sys_steps y [] y
  | sys_snoc y tr y1 l y2 : sys_steps y tr y1 → sys_step y1 l = Some y2 → sys_steps y (tr ++ [l]) y2.

(** A process that can still run. *)
Definition alive (x : procstate) : bool := match x with UNUSED | ZOMBIE => false | _ => true end.

Record sys_inv (y : system) : Prop := {
  si_pid : ∀ i p, procs (ps y) !! i = Some p → st p ≠ UNUSED → 0 < pid p < nextpid (ps y);
  si_inj : ∀ i j p q, procs (ps y) !! i = Some p → procs (ps y) !! j = Some q →
    st p ≠ UNUSED → st q ≠ UNUSED → pid p = pid q → i = j;
  si_unused : ∀ i p, procs (ps y) !! i = Some p → st p = UNUSED →
    pid p = 0 ∧ parent p = None ∧ is_agent p = 0;
  si_cpu : ∀ c i, cpus y !! c = Some (Some i) → ∃ p, procs (ps y) !! i = Some p ∧ st p = RUNNING;
  si_excl : ∀ c d i, cpus y !! c = Some (Some i) → cpus y !! d = Some (Some i) → c = d;
  si_run : ∀ i p, procs (ps y) !! i = Some p → st p = RUNNING → ∃ c, cpus y !! c = Some (Some i);
  si_sleep : ∀ i p, procs (ps y) !! i = Some p → st p = SLEEPING → chan p ≠ None;
  si_init : ∀ ip, initproc (ps y) = Some ip →
    ∃ p, procs (ps y) !! ip = Some p ∧ alive (st p) = true ∧ parent p = None;
  si_parent : ∀ i p j, procs (ps y) !! i = Some p → parent p = Some j →
    ∃ q, procs (ps y) !! j = Some q ∧ alive (st q) = true ∧ i ≠ j;
}.

(** Steps that only wake processes and set [killed]. *)
Definition quiet_rel (p q : procrec) : Prop :=
  pid q = pid p ∧ parent q = parent p ∧ is_agent q = is_agent p ∧ chan q = chan p ∧
  (st q = st p ∨ (st p = SLEEPING ∧ st q = RUNNABLE)).

Lemma wake_quiet p q : wake_rel p q → quiet_rel p q.
Proof. intros [Hc Hs]. unfold core in Hc. injection Hc. intros. unfold quiet_rel. split_and!; try done. naive_solver. Qed.

Lemma quiet_st p q : quiet_rel p q →
  (st q = UNUSED ↔ st p = UNUSED) ∧ (st q = RUNNING ↔ st p = RUNNING) ∧
  (st q = SLEEPING → st p = SLEEPING) ∧ alive (st q) = alive (st p).
Proof. intros (_ & _ & _ & _ & [-> |[-> ->]]); naive_solver. Qed.

(** The entry of [l'] that stands where one of [l] did. *)
Lemma pointwise_back R l l' j q :
  pointwise R l l' → l' !! j = Some q → ∃ p, l !! j = Some p ∧ R j p q.
Proof.
  intros [Hl Hp] Hq. destruct (lookup_lt_is_Some_2 l j) as [p Hpj].
  { rewrite <- Hl. by eapply lookup_lt_Some. }
  exists p. split; [done|]. destruct (Hp j p Hpj) as (q' & Hq' & HR). by replace q with q' by congruence.
Qed.

Lemma inv_quiet y s :
  sys_inv y → pointwise (λ _, quiet_rel) (procs (ps y)) (procs s) →
  nextpid s = nextpid (ps y) → initproc s = initproc (ps y) → sys_inv (mk_system s (cpus y)).
Proof.
  intros [H1 H2 H3 H4 H5 H6 H7 H8 H9] Hpt Hn Hip.
  assert (Hfwd : ∀ i p, procs (ps y) !! i = Some p → ∃ q, procs s !! i = Some q ∧ quiet_rel p q).
  { intros i p Hp. by apply Hpt. }
  assert (Hback : ∀ i q, procs s !! i = Some q → ∃ p, procs (ps y) !! i = Some p ∧ quiet_rel p q).
  { intros i q Hq. by apply (pointwise_back _ _ _ _ _ Hpt Hq). }
  split; cbn [ps cpus]; rewrite ?Hn, ?Hip.
  - intros i q (p & Hp & Hqp)%Hback Hst. destruct (quiet_st _ _ Hqp) as (Hu & _).
    destruct Hqp as (-> & _). apply (H1 i p Hp). tauto.
  - intros i j q q' (p & Hp & Hqp)%Hback (p' & Hp' & Hqp')%Hback Hs Hs' Hpid.
    destruct (quiet_st _ _ Hqp) as (Hu & _), (quiet_st _ _ Hqp') as (Hu' & _).
    destruct Hqp as (Hx & _), Hqp' as (Hx' & _). apply (H2 i j p p'); try done; [tauto|tauto|congruence].
  - intros i q (p & Hp & Hqp)%Hback Hst. destruct (quiet_st _ _ Hqp) as (Hu & _).
    destruct Hqp as (-> & -> & -> & _). apply (H3 i p Hp). tauto.
  - intros c i Hc. destruct (H4 c i Hc) as (p & Hp & Hr). destruct (Hfwd i p Hp) as (q & Hq & Hqp).
    exists q. split; [done|]. by apply (quiet_st _ _ Hqp).
  - done.
  - intros i q (p & Hp & Hqp)%Hback Hst. apply (H6 i p Hp). by apply (quiet_st _ _ Hqp).
  - intros i q (p & Hp & Hqp)%Hback Hst. destruct (quiet_st _ _ Hqp) as (_ & _ & Hs & _).
    destruct Hqp as (_ & _ & _ & -> & _). apply (H7 i p Hp). auto.
  - intros ip Hi. destruct (H8 ip Hi) as (p & Hp & Ha & Hnp). destruct (Hfwd ip p Hp) as (q & Hq & Hqp).
    exists q. split_and!; [done| |destruct Hqp as (_ & -> & _); done].
    by rewrite (proj2 (proj2 (proj2 (quiet_st _ _ Hqp)))).
  - intros i q j (p & Hp & Hqp)%Hback Hpar. destruct Hqp as (_ & Hpp & _).
    destruct (H9 i p j Hp ltac:(congruence)) as (r & Hr & Ha & Hne).
    destruct (Hfwd j r Hr) as (q' & Hq' & Hqr). exists q'. split_and!; [done| |done].
    by rewrite (proj2 (proj2 (proj2 (quiet_st _ _ Hqr)))).
Qed.

(** A process leaves its CPU: the entry keeps its identity and its state goes
    from [RUNNING] to [RUNNABLE] or [SLEEPING]. *)
Lemma inv_off_cpu y c me p q s :
  sys_inv y → cpus y !! c = Some (Some me) → procs (ps y) !! me = Some p →
  procs s = <[me := q]> (procs (ps y)) → nextpid s = nextpid (ps y) → initproc s = initproc (ps y) →
  pid q = pid p → parent q = parent p → is_agent q = is_agent p →
  (st q = RUNNABLE ∨ (st q = SLEEPING ∧ chan q ≠ None)) →
  sys_inv (mk_system s (<[c := None]> (cpus y))).
Proof.
  intros [H1 H2 H3 H4 H5 H6 H7 H8 H9] Hc Hp Hs Hn Hip Hpid Hpar Hag Hst.
  destruct (H4 c me Hc) as (p' & Hp' & Hrun). replace p' with p in * by congruence. clear p' Hp'.
  assert (Hst' : st q ≠ UNUSED ∧ st q ≠ RUNNING ∧ alive (st q) = true).
  { clear -Hst. destruct Hst as [Hst|[Hst _]]; rewrite Hst; done. }
  destruct Hst' as (Hqu & Hqr & Hqa). assert (Hpu : st p ≠ UNUSED) by congruence.
  split; cbn [ps cpus]; rewrite ?Hn, ?Hip, ?Hs.
  - intros i r [(-> & <- & _)|[Hne Hr]]%list_lookup_insert_Some Hu; [|by eapply H1].
    rewrite Hpid. by eapply H1.
  - intros i j r r' [(-> & <- & _)|[Hne Hr]]%list_lookup_insert_Some
      [(-> & <- & _)|[Hne' Hr']]%list_lookup_insert_Some Hu Hu' Hpid'; [done| | |by eapply H2].
    + eapply (H2 i j p r'); try done. congruence.
    + eapply (H2 i j r p); try done. congruence.
  - intros i r [(-> & <- & _)|[Hne Hr]]%list_lookup_insert_Some Hu; [done|by eapply H3].
  - intros d i [(-> & ? & _)|[Hne Hd]]%list_lookup_insert_Some; [done|].
    destruct (H4 d i Hd) as (r & Hr & Hrr). exists r. split; [|done].
    rewrite list_lookup_insert_ne; [done|]. intros ->. by rewrite (H5 c d i Hc Hd) in Hne.
  - intros d d' i [(_ & ? & _)|[Hne Hd]]%list_lookup_insert_Some
      [(_ & ? & _)|[Hne' Hd']]%list_lookup_insert_Some; try done. by eapply H5.
  - intros i r [(-> & <- & _)|[Hne Hr]]%list_lookup_insert_Some Hrr; [done|].
    destruct (H6 i r Hr Hrr) as [d Hd]. exists d. rewrite list_lookup_insert_ne; [done|].
    intros ->. congruence.
  - intros i r [(-> & <- & _)|[Hne Hr]]%list_lookup_insert_Some Hsl; [|by eapply H7].
    destruct Hst as [Hst|[_ Hst]]; [congruence|done].
  - intros ip Hi. destruct (H8 ip Hi) as (r & Hr & Ha & Hnp). destruct (decide (ip = me)) as [->|Hne].
    + exists q. split_and!; [|done|rewrite Hpar; congruence]. apply list_lookup_insert_eq. by eapply lookup_lt_Some.
    + exists r. by rewrite list_lookup_insert_ne.
  - intros i r j [(-> & <- & _)|[Hne Hr]]%list_lookup_insert_Some Hpj.
    + destruct (H9 i p j Hp ltac:(congruence)) as (r & Hr & Ha & Hne). exists r.
      by rewrite list_lookup_insert_ne by done.
    + destruct (H9 i r j Hr Hpj) as (r' & Hr' & Ha & Hne'). destruct (decide (j = me)) as [->|Hnj].
      * exists q. split_and!; [|done|done]. apply list_lookup_insert_eq. by eapply lookup_lt_Some.
      * exists r'. by rewrite list_lookup_insert_ne by done.
Qed.

(** An entry that is neither running nor waited on is replaced: a new child
    where nothing was, or nothing where a zombie was. *)
Lemma inv_replace y i o q s :
  sys_inv y → procs (ps y) !! i = Some o → st o = UNUSED ∨ st o = ZOMBIE →
  procs s = <[i := q]> (procs (ps y)) → nextpid (ps y) ≤ nextpid s → initproc s = initproc (ps y) →
  (st q = UNUSED ∧ pid q = 0 ∧ parent q = None ∧ is_agent q = 0 ∨
   st q = RUNNABLE ∧ pid q = nextpid (ps y) ∧ 0 < nextpid (ps y) < nextpid s ∧
   ∃ me p, parent q = Some me ∧ procs (ps y) !! me = Some p ∧ alive (st p) = true) →
  sys_inv (mk_system s (cpus y)).
Proof.
  intros [H1 H2 H3 H4 H5 H6 H7 H8 H9] Ho Hst Hs Hn Hip Hq.
  assert (Hqs : st q ≠ RUNNING ∧ st q ≠ SLEEPING).
  { clear -Hq. destruct Hq as [(Hq & _)|(Hq & _)]; rewrite Hq; done. }
  destruct Hqs as [Hqr Hqsl].
  assert (Hqpid : st q ≠ UNUSED → pid q = nextpid (ps y) ∧ 0 < nextpid (ps y) < nextpid s).
  { clear -Hq. destruct Hq as [(Hq & _)|(_ & Hp & Hn & _)]; done. }
  assert (Hqun : st q = UNUSED → pid q = 0 ∧ parent q = None ∧ is_agent q = 0).
  { clear -Hq. destruct Hq as [(_ & Hq)|(Hq & _)]; [done|]. by rewrite Hq. }
  assert (Hoa : alive (st o) = false) by (destruct Hst as [-> | ->]; done).
  assert (Hnea : ∀ j r, procs (ps y) !! j = Some r → alive (st r) = true → j ≠ i).
  { intros j r Hr Ha ->. congruence. }
  split; cbn [ps cpus]; rewrite ?Hip, ?Hs.
  - intros j r [(-> & <- & _)|[Hne Hr]]%list_lookup_insert_Some Hu; [specialize (Hqpid Hu); lia|].
    specialize (H1 j r Hr Hu). lia.
  - intros j k r r' [(-> & <- & _)|[Hne Hr]]%list_lookup_insert_Some
      [(-> & <- & _)|[Hne' Hr']]%list_lookup_insert_Some Hu Hu' Hpid; [done| | |by eapply H2].
    + pose proof (H1 _ _ Hr' Hu'). specialize (Hqpid Hu). lia.
    + pose proof (H1 _ _ Hr Hu). specialize (Hqpid Hu'). lia.
  - intros j r [(-> & <- & _)|[Hne Hr]]%list_lookup_insert_Some Hu; [by apply Hqun|by eapply H3].
  - intros c j Hc. destruct (H4 c j Hc) as (r & Hr & Hrr). exists r. split; [|done].
    rewrite list_lookup_insert_ne; [done|]. intros <-. eapply (Hnea i r); [done|by rewrite Hrr|done].
  - done.
  - intros j r [(-> & <- & _)|[Hne Hr]]%list_lookup_insert_Some Hrr; [done|by eapply H6].
  - intros j r [(-> & <- & _)|[Hne Hr]]%list_lookup_insert_Some Hsl; [done|by eapply H7].
  - intros ip Hi. destruct (H8 ip Hi) as (r & Hr & Ha & Hnp). exists r.
    rewrite list_lookup_insert_ne; [done|]. symmetry. by eapply Hnea.
  - intros j r k [(-> & <- & _)|[Hne Hr]]%list_lookup_insert_Some Hpj.
    + destruct Hq as [(_ & _ & Hqp & _)|(_ & _ & _ & me & p & Hqp & Hp & Ha)]; [congruence|].
      rewrite Hqp in Hpj. injection Hpj as ->. pose proof (Hnea k p Hp Ha).
      exists p. rewrite list_lookup_insert_ne by done. done.
    + destruct (H9 j r k Hr Hpj) as (r' & Hr' & Ha & Hne'). pose proof (Hnea k r' Hr' Ha).
      exists r'. by rewrite list_lookup_insert_ne by done.
Qed.

(** [kexit]: the process is a zombie off its CPU and its children are init's. *)
Lemma inv_exit y c me p q s :
  sys_inv y → cpus y !! c = Some (Some me) → procs (ps y) !! me = Some p →
  initproc (ps y) ≠ Some me → length (procs s) = length (procs (ps y)) →
  nextpid s = nextpid (ps y) → initproc s = initproc (ps y) →
  procs s !! me = Some q → st q = ZOMBIE → pid q = pid p → parent q = parent p →
  (∀ j r, j ≠ me → procs (ps y) !! j = Some r → ∃ r', procs s !! j = Some r' ∧
     adopted (initproc (ps y)) (parent r = Some me) r r') →
  sys_inv (mk_system s (<[c := None]> (cpus y))).
Proof.
  intros [H1 H2 H3 H4 H5 H6 H7 H8 H9] Hc Hp Hnip Hlen Hn Hip Hq Hqz Hqpid Hqpar Hoth.
  destruct (H4 c me Hc) as (p' & Hp' & Hrun). replace p' with p in * by congruence. clear p' Hp'.
  (* the other entries: state and identity as in a quiet step, parent adopted *)
  assert (Had : ∀ r r', adopted (initproc (ps y)) (parent r = Some me) r r' →
    (st r' = UNUSED ↔ st r = UNUSED) ∧ (st r' = RUNNING ↔ st r = RUNNING) ∧
    (st r' = SLEEPING → st r = SLEEPING) ∧ alive (st r') = alive (st r) ∧
    pid r' = pid r ∧ is_agent r' = is_agent r ∧ chan r' = chan r ∧
    parent r' = if decide (parent r = Some me) then initproc (ps y) else parent r).
  { unfold adopted. intros r r' Hr. case_decide as Hd.
    - pose proof (quiet_st _ _ (wake_quiet _ _ Hr)) as (? & ? & ? & ?).
      destruct (wake_quiet _ _ Hr) as (? & ? & ? & ? & _). done.
    - pose proof (quiet_st _ _ (wake_quiet _ _ Hr)) as (? & ? & ? & ?).
      destruct (wake_quiet _ _ Hr) as (? & ? & ? & ? & _). done. }
  assert (Hback : ∀ j r', procs s !! j = Some r' → (j = me ∧ r' = q) ∨
    (j ≠ me ∧ ∃ r, procs (ps y) !! j = Some r ∧ adopted (initproc (ps y)) (parent r = Some me) r r')).
  { intros j r' Hr'. destruct (decide (j = me)) as [->|Hne]; [left; split; [done|congruence]|right].
    split; [done|]. destruct (lookup_lt_is_Some_2 (procs (ps y)) j) as [r Hr].
    { rewrite <- Hlen. by eapply lookup_lt_Some. }
    exists r. split; [done|]. destruct (Hoth j r Hne Hr) as (r'' & Hr'' & Ha).
    by replace r' with r'' by congruence. }
  split; cbn [ps cpus]; rewrite ?Hn, ?Hip.
  - intros j r' [[-> ->]|(Hne & r & Hr & Ha)]%Hback Hu; [rewrite Hqpid; eapply H1; [done|congruence]|].
    destruct (Had _ _ Ha) as (Hun & _ & _ & _ & -> & _). eapply H1; [done|tauto].
  - intros j k r' z' [[-> ->]|(Hne & r & Hr & Ha)]%Hback [[-> ->]|(Hne' & z & Hz & Hza)]%Hback Hu Hu' Hpid; [done|..].
    + destruct (Had _ _ Hza) as (Hun & _ & _ & _ & Hzp & _).
      apply (H2 me k p z); try done; [congruence|tauto|congruence].
    + destruct (Had _ _ Ha) as (Hun & _ & _ & _ & Hrp & _).
      apply (H2 j me r p); try done; [tauto|congruence|congruence].
    + destruct (Had _ _ Ha) as (Hun & _ & _ & _ & Hrp & _), (Had _ _ Hza) as (Hun' & _ & _ & _ & Hzp & _).
      apply (H2 j k r z); try done; [tauto|tauto|congruence].
  - intros j r' [[-> ->]|(Hne & r & Hr & Ha)]%Hback Hu; [congruence|].
    destruct (Had _ _ Ha) as (Hun & _ & _ & _ & -> & -> & _ & ->).
    destruct (H3 j r Hr ltac:(tauto)) as (-> & -> & ->). done.
  - intros d i [(_ & ? & _)|[Hne Hd]]%list_lookup_insert_Some; [done|].
    destruct (H4 d i Hd) as (r & Hr & Hrr).
    assert (Hi : i ≠ me) by (intros ->; by rewrite (H5 c d me Hc Hd) in Hne).
    destruct (Hoth i r Hi Hr) as (r' & Hr' & Ha). exists r'. split; [done|]. by apply (Had _ _ Ha).
  - intros d d' i [(_ & ? & _)|[Hne Hd]]%list_lookup_insert_Some
      [(_ & ? & _)|[Hne' Hd']]%list_lookup_insert_Some; try done. by eapply H5.
  - intros j r' [[-> ->]|(Hne & r & Hr & Ha)]%Hback Hrr; [congruence|].
    destruct (H6 j r Hr) as [d Hd]; [by apply (Had _ _ Ha)|]. exists d.
    rewrite list_lookup_insert_ne; [done|]. intros ->. congruence.
  - intros j r' [[-> ->]|(Hne & r & Hr & Ha)]%Hback Hsl; [congruence|].
    destruct (Had _ _ Ha) as (_ & _ & Hs & _ & _ & _ & -> & _). eapply H7; [done|auto].
  - intros ip Hi. destruct (H8 ip Hi) as (r & Hr & Hal & Hnp).
    assert (Hne : ip ≠ me) by congruence. destruct (Hoth ip r Hne Hr) as (r' & Hr' & Ha). exists r'.
    destruct (Had _ _ Ha) as (_ & _ & _ & -> & _ & _ & _ & ->). rewrite decide_False by congruence. done.
  - intros j r' k [[-> ->]|(Hne & r & Hr & Ha)]%Hback Hpk.
    + destruct (H9 me p k Hp ltac:(congruence)) as (z & Hz & Hal & Hne).
      destruct (Hoth k z ltac:(done) Hz) as (z' & Hz' & Hza). exists z'.
      split_and!; [done| |done]. by rewrite (proj1 (proj2 (proj2 (proj2 (Had _ _ Hza))))).
    + destruct (Had _ _ Ha) as (_ & _ & _ & _ & _ & _ & _ & Hpr). rewrite Hpr in Hpk.
      destruct (decide (parent r = Some me)) as [Hd|Hd].
      * destruct (H8 k Hpk) as (z & Hz & Hal & Hnp).
        destruct (Hoth k z ltac:(congruence) Hz) as (z' & Hz' & Hza). exists z'. split_and!; [done| |].
        -- by rewrite (proj1 (proj2 (proj2 (proj2 (Had _ _ Hza))))).
        -- intros ->. congruence.
      * destruct (H9 j r k Hr Hpk) as (z & Hz & Hal & Hne').
        destruct (Hoth k z ltac:(congruence) Hz) as (z' & Hz' & Hza). exists z'. split_and!; [done| |done].
        by rewrite (proj1 (proj2 (proj2 (proj2 (Had _ _ Hza))))).
Qed.

Lemma running_on_Some c y me : running_on c y = Some me → cpus y !! c = Some (Some me).
Proof. unfold running_on. destruct (cpus y !! c) as [[?|]|]; simpl; congruence. Qed.

Lemma s32_succ x : 0 < x < 2 ^ 31 - 1 → s32 (x + 1) = x + 1.
Proof. intros. apply s32_id. lia. Qed.

(** [Pick]: a runnable process gets an idle CPU. *)
Lemma inv_pick y c i s :
  sys_inv y → cpus y !! c = Some None → scheduler_step (ps y) = (Some i, s) →
  sys_inv (mk_system (resume i s) (<[c := Some i]> (cpus y))).
Proof.
  intros Hi Hc Hpick. pose proof Hi as [H1 H2 H3 H4 H5 H6 H7 H8 H9].
  assert (Hs : ∃ p, procs (ps y) !! i = Some p ∧ st p = RUNNABLE ∧
     procs (resume i s) = <[i := set_chan None (set_st RUNNING p)]> (procs (ps y)) ∧
     nextpid s = nextpid (ps y) ∧ initproc s = initproc (ps y)).
  { pose proof (pick_spec (ps y)) as Hp. unfold scheduler_step in Hpick.
    destruct (pick_loop (procs (ps y)) 0 None) as [[[b vr] ct]|]; [|done]. injection Hpick as <- <-.
    destruct Hp as (p & Hp & Hr & _). exists p. unfold runnable in Hr. apply bool_decide_eq_true in Hr.
    split_and!; try done. unfold resume. eapply procs_upd; [|by eapply lookup_lt_Some].
    cbn [upd procs cfs_advance_min]. by apply alter_insert. }
  destruct Hs as (p & Hp & Hrun & Hs & Hn & Hip). pose proof (lookup_lt_Some _ _ _ Hp) as Hlt.
  assert (Hpu : st p ≠ UNUSED) by congruence. set (q := set_chan None (set_st RUNNING p)) in *.
  split; cbn [ps cpus resume upd nextpid initproc]; rewrite ?Hn, ?Hip;
    change (alter (set_chan None) i (procs s)) with (procs (resume i s)); rewrite ?Hs.
  - intros j r [(-> & <- & _)|[Hne Hr]]%list_lookup_insert_Some Hu; [by eapply (H1 j p)|by eapply H1].
  - intros j k r r' [(-> & <- & _)|[Hne Hr]]%list_lookup_insert_Some
      [(-> & <- & _)|[Hne' Hr']]%list_lookup_insert_Some Hu Hu' Hpid; [done| | |by eapply H2].
    + by eapply (H2 j k p r').
    + by eapply (H2 j k r p).
  - intros j r [(-> & <- & _)|[Hne Hr]]%list_lookup_insert_Some Hu; [done|by eapply H3].
  - intros d j [(-> & [= ->] & _)|[Hne Hd]]%list_lookup_insert_Some.
    + exists q. split; [|done]. by apply list_lookup_insert_eq.
    + destruct (H4 d j Hd) as (r & Hr & Hrr). exists r. split; [|done].
      rewrite list_lookup_insert_ne; [done|]. intros ->. congruence.
  - intros d d' j [(-> & [= ->] & _)|[Hne Hd]]%list_lookup_insert_Some
      [(-> & Hx & _)|[Hne' Hd']]%list_lookup_insert_Some; try done.
    + destruct (H4 d' j Hd') as (r & Hr & Hrr). congruence.
    + injection Hx as ->. destruct (H4 d j Hd) as (r & Hr & Hrr). congruence.
    + by eapply H5.
  - intros j r [(-> & <- & _)|[Hne Hr]]%list_lookup_insert_Some Hrr.
    + exists c. apply list_lookup_insert_eq. by eapply lookup_lt_Some.
    + destruct (H6 j r Hr Hrr) as [d Hd]. exists d. rewrite list_lookup_insert_ne; [done|]. intros ->. congruence.
  - intros j r [(-> & <- & _)|[Hne Hr]]%list_lookup_insert_Some Hsl; [done|by eapply H7].
  - intros ip Hii. destruct (H8 ip Hii) as (r & Hr & Ha & Hnp). destruct (decide (ip = i)) as [->|Hne].
    + exists q. split_and!; [by apply list_lookup_insert_eq|done|]. cbn. congruence.
    + exists r. by rewrite list_lookup_insert_ne.
  - intros j r k [(-> & <- & _)|[Hne Hr]]%list_lookup_insert_Some Hpk.
    + destruct (H9 j p k Hp Hpk) as (z & Hz & Ha & Hne). exists z. by rewrite list_lookup_insert_ne.
    + destruct (H9 j r k Hr Hpk) as (z & Hz & Ha & Hne'). destruct (decide (k = i)) as [->|Hnk].
      * exists q. split_and!; [by apply list_lookup_insert_eq|done|done].
      * exists z. by rewrite list_lookup_insert_ne.
Qed.

Lemma pointwise_upd (R : procrec → procrec → Prop) f i l :
  (∀ p, R p p) → (∀ p, l !! i = Some p → R p (f p)) → pointwise (λ _, R) l (alter f i l).
Proof.
  intros Hr Hf. split; [apply length_alter|]. intros j p Hp. destruct (decide (i = j)) as [->|Hne].
  - exists (f p). rewrite list_lookup_alter_eq, Hp. auto.
  - exists p. rewrite list_lookup_alter_ne by done. auto.
Qed.

Lemma quiet_refl p : quiet_rel p p.
Proof. unfold quiet_rel. auto 10. Qed.

Lemma fork_inv y c me :
  sys_inv y → cpus y !! c = Some (Some me) → 0 < nextpid (ps y) < 2 ^ 31 - 1 →
  sys_inv (mk_system (kfork me (ps y)).2 (cpus y)) ∧
  nextpid (ps y) ≤ nextpid (kfork me (ps y)).2 ≤ nextpid (ps y) + 1.
Proof.
  intros Hi Hc Hn. destruct (si_cpu _ Hi c me Hc) as (p & Hp & Hrun).
  pose proof (kfork_spec me (ps y) p Hp ltac:(congruence)) as Hf.
  destruct (kfork me (ps y)) as [r s]. cbn [snd].
  destruct Hf as [[_ [Hip _]] [[_ [->|(i & o & q & Ho & Hou & Hps & Hnp)]]|(_ & i & o & q & e & Ho & Hou & Hps & Hfk & Hnp & _)]].
  - destruct y. split; [done|lia].
  - rewrite s32_succ in Hnp by lia. split; [|lia].
    eapply inv_replace; [done|done|by left|exact Hps|lia|done|]. left. done.
  - rewrite s32_succ in Hnp by lia. split; [|lia].
    eapply inv_replace; [done|done|by left|exact Hps|lia|done|]. right.
    destruct Hfk as [F1 F2 F3 _ _ _ _]. split_and!; [done|done|lia|lia|].
    exists me, p. split_and!; [done|done|by rewrite Hrun].
Qed.

Lemma wait_inv y c me addr :
  sys_inv y → cpus y !! c = Some (Some me) →
  nextpid (kwait me addr (ps y)).2 = nextpid (ps y) ∧
  match kwait me addr (ps y) with
  | (Some _, s) => sys_inv (mk_system s (cpus y))
  | (None, s) => sys_inv (mk_system s (<[c := None]> (cpus y)))
  end.
Proof.
  intros Hi Hc. destruct (si_cpu _ Hi c me Hc) as (p & Hp & Hrun). unfold kwait.
  pose proof (wait_scan_spec (length (procs (ps y))) 0 me addr false (ps y) eq_refl) as Hw.
  destruct (wait_scan _ _ _ _ _ _) as [[r hk] s]. destruct Hw as (Hip & Hn & Hw). destruct r as [x| |].
  - destruct Hw as (j & z & Hz & _ & Hzo & _ & Hps & _). split; [done|].
    eapply inv_replace; [done|done|by right|exact Hps|lia|done|]. left. done.
  - split; [done|]. apply inv_quiet; [done| |done|done]. rewrite Hw.
    split; [done|]. intros j q Hq. exists q. split; [done|apply quiet_refl].
  - destruct Hw as [-> _]. destruct (negb hk || is_killed me (ps y)); [by destruct y|].
    split; [done|]. eapply inv_off_cpu; [done|exact Hc|exact Hp|by apply procs_upd_same|done|done|done|done|done|].
    by right.
Qed.

Lemma sys_step_inv y l y' :
  sys_inv y → 0 < nextpid (ps y) < 2 ^ 31 - 1 → sys_step y l = Some y' →
  sys_inv y' ∧ nextpid (ps y) ≤ nextpid (ps y') ≤ nextpid (ps y) + 1.
Proof.
  intros Hi Hn Hs. destruct l as [c|c|c ch|c|c status|c addr|c ch|x|c]; simpl in Hs.
  - destruct (idle c y) eqn:Hidle; [|done].
    assert (Hc : cpus y !! c = Some None).
    { unfold idle in Hidle. by destruct (cpus y !! c) as [[?|]|]. }
    destruct (scheduler_step (ps y)) as [[i|] s] eqn:Hpick; injection Hs as <-.
    + split; [by apply inv_pick|]. cbn [ps resume upd nextpid]. unfold scheduler_step in Hpick.
      destruct (pick_loop _ _ _) as [[[b vr] ct]|]; [|done]. injection Hpick as <- <-. cbn. lia.
    + unfold scheduler_step in Hpick. destruct (pick_loop _ _ _) as [[[b vr] ct]|]; [done|].
      injection Hpick as <-. destruct y. split; [done|cbn; lia].
  - destruct (running_on c y) as [me|] eqn:Hc; [|done]. injection Hs as <-. apply running_on_Some in Hc.
    destruct (si_cpu _ Hi c me Hc) as (p & Hp & Hrun). split; [|cbn; lia].
    eapply inv_off_cpu; [done|exact Hc|exact Hp| |done|done|..].
    { unfold timer_tick, yield, charge_tick. eapply procs_upd; [by apply procs_upd_same|by eapply lookup_lt_Some]. }
    all: try done. by left.
  - destruct (running_on c y) as [me|] eqn:Hc; [|done]. injection Hs as <-. apply running_on_Some in Hc.
    destruct (si_cpu _ Hi c me Hc) as (p & Hp & Hrun). split; [|cbn; lia].
    eapply inv_off_cpu; [done|exact Hc|exact Hp|by apply procs_upd_same|done|done|done|done|done|]. by right.
  - destruct (running_on c y) as [me|] eqn:Hc; [|done]. injection Hs as <-. apply running_on_Some in Hc.
    by apply (fork_inv y c).
  - destruct (running_on c y) as [me|] eqn:Hc; [|done]. apply running_on_Some in Hc. simpl in Hs.
    destruct (si_cpu _ Hi c me Hc) as (p & Hp & Hrun).
    destruct (decide (initproc (ps y) = Some me)) as [He|He].
    { unfold kexit in Hs. by rewrite decide_True in Hs. }
    assert (Hpar : parent p ≠ Some me).
    { intros Hx. by destruct (si_parent _ Hi me p me Hp Hx) as (_ & _ & _ & ?). }
    destruct (kexit_spec me status (ps y) p Hp He Hpar)
      as (s & Hk & Hip & Hnn & Hl & (q & Hq & Hz & _ & Hqp & Hqpar & _) & Ho).
    rewrite Hk in Hs. injection Hs as <-. split; [by eapply inv_exit|cbn; lia].
  - destruct (running_on c y) as [me|] eqn:Hc; [|done]. apply running_on_Some in Hc. simpl in Hs.
    destruct (wait_inv y c me addr Hi Hc) as [Hnp Hinv].
    destruct (kwait me addr (ps y)) as [[r|] s]; injection Hs as <-; cbn in *; split; try done; lia.
  - injection Hs as <-. split; [|cbn; lia]. apply inv_quiet; [done| |done|done].
    destruct (wakeup_pointwise ch (running_on c y) (ps y)) as [Hl Hp]. split; [done|].
    intros i p Hi'. destruct (Hp i p Hi') as (q & Hq & Hw). exists q. split; [done|by apply wake_quiet].
  - injection Hs as <-. unfold kkill. destruct (find_pid x (ps y)) as [i|]; cbn [snd ps].
    + split; [|cbn; lia]. apply inv_quiet; [done| |done|done]. apply pointwise_upd; [apply quiet_refl|].
      intros p _. case_decide as Hd; unfold quiet_rel; cbn in *; auto 10.
    + destruct y. split; [done|cbn; lia].
  - destruct (running_on c y) as [me|] eqn:Hc; [|done]. injection Hs as <-.
    split; [|cbn; lia]. apply inv_quiet; [done| |done|done]. apply pointwise_upd; [apply quiet_refl|].
    intros p _. unfold quiet_rel. cbn. auto 10.
Qed.

(** ** Boot *)

Implicit Types e : E.

Lemma procinit_lookup e i p :
  procs (procinit e) !! i = Some p → p = unused_proc (KSTACK (Z.of_nat i)).
Proof.
  unfold procinit. cbn [procs]. intros Hp. apply list_lookup_fmap_Some in Hp as (j & -> & Hj).
  by apply lookup_seq in Hj as [-> _].
Qed.

Lemma boot_inv e s0 n :
  userinit (procinit e) = Ok s0 →
  sys_inv (mk_system s0 (replicate n None)) ∧ nextpid s0 = 2.
Proof.
  unfold userinit. pose proof (allocproc_spec (procinit e)) as Ha.
  destruct (allocproc (procinit e)) as [[i|] s1]; [|done].
  destruct Ha as (p & q & Hp & _ & Hps & Hfr & Hn & _).
  destruct (namei_root (env s1)) as [root e1]. intros [= <-].
  set (q' := set_st RUNNABLE (set_priority (-5) (set_files (ofile q) root q))).
  assert (Hps' : alter (λ p, set_st RUNNABLE (set_priority (-5) (set_files (ofile p) root p))) i (procs s1)
                 = <[i := q']> (procs (procinit e))).
  { rewrite Hps, (alter_insert _ _ _ q), list_insert_insert_eq; [done|].
    apply list_lookup_insert_eq. by eapply lookup_lt_Some. }
  assert (Hcase : ∀ j r, <[i := q']> (procs (procinit e)) !! j = Some r →
    (j = i ∧ r = q') ∨ (j ≠ i ∧ r = unused_proc (KSTACK (Z.of_nat j)))).
  { intros j r [(-> & <- & _)|[Hne Hr]]%list_lookup_insert_Some; [by left|right].
    split; [done|]. by eapply procinit_lookup. }
  assert (Hpid : pid q' = 1) by apply (fr_pid _ _ _ Hfr).
  assert (Hpar : parent q' = None).
  { pose proof (fr_parent _ _ _ Hfr) as Hx. cbn in *. by rewrite Hx, (procinit_lookup e _ _ Hp). }
  assert (Hnp : nextpid s1 = 2) by (rewrite Hn; done).
  cbn [upd nextpid]. split; [|exact Hnp].
  split; cbn [upd ps cpus procs nextpid initproc]; rewrite ?Hps', ?Hnp.
  - intros j r [[-> ->]|[_ ->]]%Hcase Hu; [lia|done].
  - intros j k r r' [[-> ->]|[_ ->]]%Hcase [[-> ->]|[_ ->]]%Hcase; done.
  - intros j r [[-> ->]|[_ ->]]%Hcase Hu; done.
  - intros c j Hc. apply lookup_replicate in Hc as [? _]. done.
  - intros c d j Hc. apply lookup_replicate in Hc as [? _]. done.
  - intros j r [[-> ->]|[_ ->]]%Hcase Hu; done.
  - intros j r [[-> ->]|[_ ->]]%Hcase Hu; done.
  - intros ip [= <-]. exists q'. split_and!; [|done|done].
    apply list_lookup_insert_eq. by eapply lookup_lt_Some.
  - intros j r k [[-> ->]|[_ ->]]%Hcase Hk; [congruence|done].
Qed.

Lemma sys_steps_inv y tr y' :
  sys_steps y tr y' → sys_inv y → 0 < nextpid (ps y) → nextpid (ps y) + Z.of_nat (length tr) < 2 ^ 31 - 1 →
  sys_inv y' ∧ 0 < nextpid (ps y') ≤ nextpid (ps y) + Z.of_nat (length tr).
Proof.
  induction 1 as [y|y tr y1 l y2 Htr IH Hstep]; intros Hi H0 Hlen; [cbn [length] in *; split; [done|lia]|].
  rewrite length_app in *. cbn [length] in *. destruct (IH Hi H0 ltac:(lia)) as [Hi1 Hn1].
  destruct (sys_step_inv y1 l y2 Hi1 ltac:(lia) Hstep) as [Hi2 Hn2]. split; [done|lia].
Qed.

(** C9: Every run of the machine from boot: a process is on at most one CPU; it is
    marked RUNNING exactly while it is on one; live and zombie processes have
    distinct positive pids; a sleeper has a channel; and a parent is
    never a zombie or a freed entry, so an exited process always has someone to
    reap it.  The bound keeps [nextpid] below its overflow. *)
Theorem sys_safe e s0 n tr y :
  userinit (procinit e) = Ok s0 →
  sys_steps (mk_system s0 (replicate n None)) tr y → Z.of_nat (length tr) < 2 ^ 31 - 3 →
  (∀ c d i, cpus y !! c = Some (Some i) → cpus y !! d = Some (Some i) → c = d) ∧
  (∀ i p, procs (ps y) !! i = Some p → (st p = RUNNING ↔ ∃ c, cpus y !! c = Some (Some i))) ∧
  (∀ i j p q, procs (ps y) !! i = Some p → procs (ps y) !! j = Some q →
     st p ≠ UNUSED → st q ≠ UNUSED → pid p = pid q → i = j) ∧
  (∀ i p, procs (ps y) !! i = Some p → (st p = UNUSED ↔ pid p = 0) ∧ 0 ≤ pid p) ∧
  (∀ i p, procs (ps y) !! i = Some p → st p = SLEEPING → chan p ≠ None) ∧
  (∀ i p j, procs (ps y) !! i = Some p → parent p = Some j →
     ∃ q, procs (ps y) !! j = Some q ∧ alive (st q) = true ∧ i ≠ j).
Proof.
  intros Hb Htr Hlen. destruct (boot_inv e s0 n Hb) as [Hi Hn].
  destruct (sys_steps_inv _ _ _ Htr Hi) as [Hy _]; [cbn; lia|cbn; lia|].
  split_and!; try apply Hy.
  - intros i p Hp. split; [by apply (si_run _ Hy)|]. intros [c Hc].
    destruct (si_cpu _ Hy c i Hc) as (q & Hq & Hr). congruence.
  - intros i p Hp. pose proof (si_pid _ Hy i p Hp). pose proof (si_unused _ Hy i p Hp).
    destruct (decide (st p = UNUSED)) as [Hu|Hu]; [|specialize (H0 Hu)]; naive_solver lia.
Qed.

(** ** No starvation *)

(** How often a runnable [q] can still be chosen before a process of vruntime [v], if each time it
    runs for one whole tick. *)
Definition turns (v : Z) (q : procrec) : nat :=
  if runnable q && (vruntime q <=? v) then S (Z.to_nat ((v - vruntime q) / cfs_vdelta (priority q))) else 0.

(** [q] after the tick that ends its turn. *)
Definition charged (q : procrec) : procrec :=
  set_st RUNNABLE (set_vruntime (u64 (vruntime q + cfs_vdelta (priority q))) q).

(** The turns ahead of [v] of a process that competes for a CPU or is on one. *)
Definition claims (v : Z) (q : procrec) : nat :=
  match st q with RUNNABLE => turns v q | RUNNING => turns v (charged q) | _ => 0 end.
Definition competes (q : procrec) : bool := match st q with RUNNABLE | RUNNING => true | _ => false end.

(** Those of all processes but [k]; and those of the processes that one step lets compete: woken,
    killed in their sleep, or forked. *)
Definition rivals (k : nat) (v : Z) (l : list procrec) : nat :=
  sum_list (imap (λ i q, if bool_decide (i = k) then 0%nat else claims v q) l).
Definition arrivals (k : nat) (v : Z) (l l' : list procrec) : nat :=
  sum_list (imap (λ i x, if bool_decide (i = k) then 0%nat else if competes x.1 then 0%nat else claims v x.2) (zip l l')).

(** A run in which process [k] stays runnable, and the turns that arrive during it. *)
Inductive waits (k : nat) (v : Z) : system → list sys_label → nat → system → Prop :=
  | waits_nil y : waits k v y [] 0 y
  | waits_snoc y tr a y1 l y2 p :
      waits k v y tr a y1 → sys_step y1 l = Some y2 → procs (ps y2) !! k = Some p → st p = RUNNABLE →
      waits k v y (tr ++ [l]) (a + arrivals k v (procs (ps y1)) (procs (ps y2))) y2.

Definition is_pick (l : sys_label) : bool := match l with Pick _ => true | _ => false end.
Definition picks (tr : list sys_label) : nat := length (base.filter (λ l, is_pick l = true) tr).

Lemma charged_turns v q :
  runnable q = true → vruntime q ≤ v → 0 ≤ vruntime q → v + 2 ^ 27 ≤ 2 ^ 64 →
  S (turns v (charged q)) = turns v q.
Proof.
  intros Hr Hv H0 Hmax. pose proof (vdelta_pos (priority q)) as Hd. unfold turns. rewrite Hr.
  rewrite (proj2 (Z.leb_le _ _) Hv). cbn [andb].
  assert (Hrc : runnable (charged q) = true) by done.
  assert (Hvc : vruntime (charged q) = u64 (vruntime q + cfs_vdelta (priority q))) by done.
  assert (Hpc : priority (charged q) = priority q) by done.
  rewrite Hrc, Hvc, Hpc, u64_id by (unfold is_u64; lia). cbn [andb].
  set (d := cfs_vdelta (priority q)) in *.
  destruct (Z.leb_spec (vruntime q + d) v).
  - f_equal. rewrite <- Z2Nat.inj_succ by (apply Z.div_pos; lia). f_equal.
    replace (v - vruntime q) with (v - (vruntime q + d) + 1 * d) by lia.
    rewrite Z.div_add by lia. lia.
  - rewrite Z.div_small by lia. done.
Qed.

Lemma sum_list_insert (f : nat → procrec → nat) l i q q' :
  l !! i = Some q →
  (sum_list (imap f (<[i := q']> l)) + f i q = sum_list (imap f l) + f i q')%nat.
Proof.
  revert i f. induction l as [|p l IH]; intros [|i] f Hi; simpl in *; [done|done| |].
  - injection Hi as ->. lia.
  - specialize (IH i (f ∘ S) Hi). unfold compose in *. simpl in *. lia.
Qed.

(** What a step that is not a pick may do to an entry: it adds no turns to one that competes. *)
Definition gentle (v : Z) (p q : procrec) : Prop :=
  (0 ≤ vruntime p → 0 ≤ vruntime q) ∧ (competes p = true → (claims v q ≤ claims v p)%nat) ∧
  (st p = RUNNABLE → st q = RUNNABLE → vruntime q = vruntime p).

Lemma rivals_gentle k v l l' :
  pointwise (λ _, gentle v) l l' → (rivals k v l' ≤ rivals k v l + arrivals k v l l')%nat.
Proof.
  unfold rivals, arrivals. intros [Hl Hp].
  cut (∀ f : nat → bool, (sum_list (imap (λ i q, if f i then 0%nat else claims v q) l') ≤
    sum_list (imap (λ i q, if f i then 0%nat else claims v q) l) +
    sum_list (imap (λ i x, if f i then 0%nat else if competes x.1 then 0%nat else claims v x.2) (zip l l')))%nat).
  { intros Hc. exact (Hc (λ i, bool_decide (i = k))). }
  revert l' Hl Hp. induction l as [|p l IH]; intros [|q l'] Hl Hp f; [cbn; lia|done|done|].
  assert (IH' := IH l' (eq_add_S _ _ Hl) (λ i x Hx, Hp (S i) x Hx) (f ∘ S)). clear IH.
  destruct (Hp 0%nat p eq_refl) as (q' & [= ->] & _ & Hle & _). unfold compose in *.
  cbn [imap zip zip_with sum_list sum_list_with fst snd]. unfold compose.
  destruct (f 0%nat); [cbn in *; lia|]. destruct (competes p); [specialize (Hle eq_refl)|]; cbn in *; lia.
Qed.

Lemma gentle_same v p q : st q = st p → vruntime q = vruntime p → priority q = priority p → gentle v p q.
Proof.
  intros Hs Hv Hp. split_and!; [by rewrite Hv| |done]. intros _.
  unfold claims, turns, runnable, charged. cbn. rewrite Hs, Hv, Hp. lia.
Qed.

Lemma gentle_refl v p : gentle v p p.
Proof. by apply gentle_same. Qed.

Lemma gentle_gone v p q : (0 ≤ vruntime p → 0 ≤ vruntime q) → competes q = false → gentle v p q.
Proof.
  intros Hv Hq. split_and!; [done| |].
  - intros _. unfold claims. unfold competes in Hq. destruct (st q); try done; lia.
  - intros _ Hr. unfold competes in Hq. by rewrite Hr in Hq.
Qed.

Lemma gentle_new v p q : competes p = false → (0 ≤ vruntime p → 0 ≤ vruntime q) → gentle v p q.
Proof. intros Hp Hv. split_and!; [done|congruence|]. intros Hr. unfold competes in Hp. by rewrite Hr in Hp. Qed.

Lemma gentle_charged v p : st p = RUNNING → gentle v p (charged p).
Proof.
  intros Hp. split_and!; [intros _; apply u64_range| |congruence]. intros _. unfold claims. rewrite Hp. cbn [charged set_st st]. lia.
Qed.

Lemma gentle_wake v p q : wake_rel p q → gentle v p q.
Proof.
  intros [Hc Hs]. unfold core in Hc. injection Hc as _ _ Hp _ _ _. destruct Hs as [[H1 H2]|(H1 & H2 & H3)]; [by apply gentle_same|].
  apply gentle_new; [unfold competes; by rewrite H1|done].
Qed.

Lemma gentle_adopted v ip (c : Prop) `{Decision c} p q : adopted ip c p q → gentle v p q.
Proof.
  unfold adopted. case_decide; [|apply gentle_wake]. intros Hw. pose proof (gentle_wake v _ _ Hw) as Hg.
  unfold gentle, claims, competes, turns, runnable, charged in *. cbn in *. exact Hg.
Qed.

Lemma pointwise_insert (R : procrec → procrec → Prop) i p q l :
  (∀ x, R x x) → l !! i = Some p → R p q → pointwise (λ _, R) l (<[i := q]> l).
Proof.
  intros Hr Hp Hq. split; [apply length_insert|]. intros j x Hx. destruct (decide (j = i)) as [->|Hne].
  - exists q. replace x with p by congruence. split; [|done]. apply list_lookup_insert_eq. by eapply lookup_lt_Some.
  - exists x. by rewrite list_lookup_insert_ne.
Qed.

Lemma pointwise_same (R : procrec → procrec → Prop) l : (∀ x, R x x) → pointwise (λ _, R) l l.
Proof. intros Hr. split; [done|]. intros i p Hp. by exists p. Qed.

Lemma pointwise_gentle v (R : nat → procrec → procrec → Prop) l l' :
  pointwise R l l' → (∀ i p q, R i p q → gentle v p q) → pointwise (λ _, gentle v) l l'.
Proof. intros [Hl Hp] HR. split; [done|]. intros i p Hi. destruct (Hp i p Hi) as (q & Hq & Hr). eauto. Qed.

(** Every step but a pick is gentle. *)
Lemma step_gentle v y l y' :
  sys_inv y → (∀ j r, procs (ps y) !! j = Some r → 0 ≤ vruntime r) → sys_step y l = Some y' → is_pick l = false →
  pointwise (λ _, gentle v) (procs (ps y)) (procs (ps y')).
Proof.
  intros Hi Hpos Hs Hl. destruct l as [c|c|c ch|c|c status|c addr|c ch|x|c]; try done; clear Hl; simpl in Hs;
    try (destruct (running_on c y) as [me|] eqn:Hc; [|done]; apply running_on_Some in Hc;
         destruct (si_cpu _ Hi c me Hc) as (p & Hp & Hrun); cbn [mbind option_bind] in Hs).
  - injection Hs as <-. cbn [ps]. unfold timer_tick, yield, charge_tick.
    erewrite procs_upd by (by apply procs_upd_same || by eapply lookup_lt_Some).
    apply (pointwise_insert _ _ p); [apply gentle_refl|done|by apply gentle_charged].
  - injection Hs as <-. cbn [ps]. unfold sleep. erewrite procs_upd_same by done.
    apply (pointwise_insert _ _ p); [apply gentle_refl|done|by apply gentle_gone].
  - injection Hs as <-. cbn [ps]. pose proof (kfork_spec me (ps y) p Hp ltac:(congruence)) as Hf.
    destruct (kfork me (ps y)) as [r s]. cbn [snd].
    destruct Hf as [_ [[_ [->|(i & o & q & Ho & Hou & -> & _)]]|(_ & i & o & q & e & Ho & Hou & -> & Hfk & _)]];
      [apply pointwise_same, gentle_refl|apply (pointwise_insert _ _ o); [apply gentle_refl|done|by apply gentle_gone]|].
    apply (pointwise_insert _ _ o); [apply gentle_refl|done|]. apply gentle_new; [unfold competes; by rewrite Hou|].
    intros _. rewrite (fk_vruntime _ _ _ _ Hfk). by eapply Hpos.
  - destruct (decide (initproc (ps y) = Some me)) as [He|He]; [unfold kexit in Hs; by rewrite decide_True in Hs|].
    assert (Hpar : parent p ≠ Some me).
    { intros Hx. by destruct (si_parent _ Hi me p me Hp Hx) as (_ & _ & _ & ?). }
    destruct (kexit_spec me status (ps y) p Hp He Hpar) as (s & Hk & _ & _ & Hl & (q & Hq & Hz & Hqs) & Ho).
    rewrite Hk in Hs. injection Hs as <-. split; [done|]. intros j r Hr. destruct (decide (j = me)) as [->|Hne].
    + exists q. split; [done|]. replace r with p by congruence. destruct_and! Hqs. apply gentle_gone; [by intros; congruence|].
      unfold competes. by rewrite Hz.
    + destruct (Ho j r Hne Hr) as (q' & Hq' & Ha). exists q'. split; [done|by eapply gentle_adopted].
  - unfold kwait in Hs. pose proof (wait_scan_spec (length (procs (ps y))) 0 me addr false (ps y) eq_refl) as Hw.
    destruct (wait_scan _ _ _ _ _ _) as [[r hk] s]. destruct Hw as (_ & _ & Hw). destruct r as [x| |].
    + destruct Hw as (j & z & Hz & _ & Hzo & _ & Hps & _). injection Hs as <-. cbn [ps]. rewrite Hps.
      apply (pointwise_insert _ _ z); [apply gentle_refl|done|by apply gentle_gone].
    + injection Hs as <-. cbn [ps]. rewrite Hw. apply pointwise_same, gentle_refl.
    + destruct Hw as [-> _]. destruct (negb hk || is_killed me (ps y)); injection Hs as <-; cbn [ps];
        [apply pointwise_same, gentle_refl|]. unfold sleep. erewrite procs_upd_same by done.
      apply (pointwise_insert _ _ p); [apply gentle_refl|done|by apply gentle_gone].
  - injection Hs as <-. eapply pointwise_gentle; [apply wakeup_pointwise|]. intros i p q. apply gentle_wake.
  - injection Hs as <-. unfold kkill. destruct (find_pid x (ps y)) as [i|]; cbn [snd ps]; [|apply pointwise_same, gentle_refl].
    apply pointwise_upd; [apply gentle_refl|]. intros p _. case_decide as Hd; [|by apply gentle_same].
    apply gentle_new; [|done]. cbn in Hd. unfold competes. by rewrite Hd.
  - injection Hs as <-. apply pointwise_upd; [apply gentle_refl|]. intros q _. by apply gentle_same.
Qed.

(** A pick puts a process that is ahead of every runnable one on a CPU. *)
Lemma step_pick y c y' :
  sys_step y (Pick c) = Some y' →
  (procs (ps y') = procs (ps y) ∧ ∀ j q, procs (ps y) !! j = Some q → st q ≠ RUNNABLE) ∨
  ∃ i p, procs (ps y) !! i = Some p ∧ st p = RUNNABLE ∧ (∀ j q, procs (ps y) !! j = Some q → st q = RUNNABLE → before p q) ∧
    procs (ps y') = <[i := set_chan None (set_st RUNNING p)]> (procs (ps y)) ∧ running_on c y' = Some i.
Proof.
  simpl. destruct (idle c y) eqn:Hidle; [|done]. pose proof (pick_spec (ps y)) as Hp. unfold scheduler_step.
  destruct (pick_loop (procs (ps y)) 0 None) as [[[b vr] ct]|]; intros [= <-].
  - right. destruct Hp as (p & Hp & Hr & _ & Hmin). unfold runnable in *. apply bool_decide_eq_true in Hr. exists b, p.
    split_and!; [done|done| | |].
    + intros j q Hq Hrq. eapply Hmin; [done|]. by apply bool_decide_eq_true_2.
    + cbn [ps]. unfold resume. eapply procs_upd; [|by eapply lookup_lt_Some]. cbn [upd procs cfs_advance_min]. by apply alter_insert.
    + unfold running_on, idle in *. cbn [cpus]. destruct (cpus y !! c) eqn:Hc; [|done].
      rewrite list_lookup_insert_eq; [done|]. by eapply lookup_lt_Some.
  - left. split; [done|]. intros j q Hq. specialize (Hp j q Hq). unfold runnable in Hp. by apply bool_decide_eq_false in Hp.
Qed.

Lemma nonneg_step y l y' :
  sys_inv y → (∀ j r, procs (ps y) !! j = Some r → 0 ≤ vruntime r) → sys_step y l = Some y' →
  ∀ j r, procs (ps y') !! j = Some r → 0 ≤ vruntime r.
Proof.
  intros Hi Hpos Hs j r Hr. destruct (is_pick l) eqn:Hl.
  - destruct l as [c| | | | | | | |]; try done. destruct (step_pick y c y' Hs) as [[He _]|(i & p & Hp & _ & _ & He & _)]; rewrite He in Hr;
      [by eapply Hpos|]. apply list_lookup_insert_Some in Hr as [(-> & <- & _)|[_ Hr]]; [by apply (Hpos j p)|by eapply Hpos].
  - destruct (pointwise_back _ _ _ _ _ (step_gentle 0 y l y' Hi Hpos Hs Hl) Hr) as (p & Hp & Hg & _). by apply Hg, (Hpos j).
Qed.

(** The pick of another process uses up one of its turns. *)
Lemma rivals_pick k v i q l :
  l !! i = Some q → st q = RUNNABLE → i ≠ k → vruntime q ≤ v → 0 ≤ vruntime q → v + 2 ^ 27 ≤ 2 ^ 64 →
  S (rivals k v (<[i := set_chan None (set_st RUNNING q)]> l)) = rivals k v l.
Proof.
  intros Hq Hqr Hne Hv H0 Hmax. unfold rivals.
  pose proof (sum_list_insert (λ i q, if bool_decide (i = k) then 0%nat else claims v q) l i q
                (set_chan None (set_st RUNNING q)) Hq) as Hsum. cbv beta in Hsum.
  rewrite !(bool_decide_eq_false_2 (i = k)) in Hsum by done.
  assert (Hturn : S (claims v (set_chan None (set_st RUNNING q))) = claims v q); [|lia].
  assert (Hc : claims v q = turns v q) by (unfold claims; by rewrite Hqr). rewrite Hc.
  exact (charged_turns v q (bool_decide_eq_true_2 _ Hqr) Hv H0 Hmax).
Qed.

(** One step of a run in which [k] waits. *)
Lemma waits_step k v y l y' p p' :
  sys_inv y → (∀ j r, procs (ps y) !! j = Some r → 0 ≤ vruntime r) → sys_step y l = Some y' → v + 2 ^ 27 ≤ 2 ^ 64 →
  procs (ps y) !! k = Some p → st p = RUNNABLE → vruntime p = v → procs (ps y') !! k = Some p' → st p' = RUNNABLE →
  vruntime p' = v ∧
  ((if is_pick l then 1 else 0) + rivals k v (procs (ps y')) ≤ rivals k v (procs (ps y)) + arrivals k v (procs (ps y)) (procs (ps y')))%nat.
Proof.
  intros Hi Hpos Hs Hmax Hp Hr Hv Hp' Hr'. destruct (is_pick l) eqn:Hl.
  - destruct l as [c| | | | | | | |]; try done. destruct (step_pick y c y' Hs) as [[_ Hno]|(i & q & Hq & Hqr & Hmin & He & _)];
      [by destruct (Hno k p)|]. rewrite He in *. destruct (decide (i = k)) as [->|Hne].
    { rewrite list_lookup_insert_eq in Hp' by (by eapply lookup_lt_Some). injection Hp' as <-. done. }
    rewrite list_lookup_insert_ne in Hp' by done. replace p' with p by congruence. split; [done|].
    specialize (Hmin k p Hp Hr). unfold before in Hmin.
    pose proof (rivals_pick k v i q (procs (ps y)) Hq Hqr Hne ltac:(lia) (Hpos i q Hq) Hmax). lia.
  - pose proof (step_gentle v y l y' Hi Hpos Hs Hl) as Hg. split; [|by apply rivals_gentle].
    destruct Hg as [_ Hg]. destruct (Hg k p Hp) as (q & Hq & _ & _ & Hvv). replace q with p' in * by congruence. rewrite <- Hv. by apply Hvv.
Qed.

Lemma picks_snoc tr l : picks (tr ++ [l]) = (picks tr + if is_pick l then 1 else 0)%nat.
Proof. unfold picks. rewrite filter_app, length_app. f_equal. destruct l; done. Qed.

Lemma waits_bound k y tr a y' p :
  waits k (vruntime p) y tr a y' → sys_inv y → (∀ j r, procs (ps y) !! j = Some r → 0 ≤ vruntime r) →
  0 < nextpid (ps y) → nextpid (ps y) + Z.of_nat (length tr) < 2 ^ 31 - 1 →
  procs (ps y) !! k = Some p → st p = RUNNABLE → vruntime p + 2 ^ 27 ≤ 2 ^ 64 →
  sys_steps y tr y' ∧ (∀ j r, procs (ps y') !! j = Some r → 0 ≤ vruntime r) ∧
  (∃ p', procs (ps y') !! k = Some p' ∧ st p' = RUNNABLE ∧ vruntime p' = vruntime p) ∧
  (picks tr + rivals k (vruntime p) (procs (ps y')) ≤ rivals k (vruntime p) (procs (ps y)) + a)%nat.
Proof.
  intros Hw. induction Hw as [y|y tr a y1 l y2 p2 Hw IH Hs Hp2 Hr2]; intros Hi Hpos H0 Hlen Hp Hr Hmax.
  - split; [constructor|]. split; [done|]. split; [by exists p|]. cbn. lia.
  - rewrite length_app in Hlen. cbn [length] in Hlen.
    destruct (IH Hi Hpos H0 ltac:(lia) Hp Hr Hmax) as (Ht & Hpos1 & (p1 & Hp1 & Hr1 & Hv1) & Hb).
    destruct (sys_steps_inv _ _ _ Ht Hi H0 ltac:(lia)) as [Hi1 _].
    destruct (waits_step k (vruntime p) y1 l y2 p1 p2 Hi1 Hpos1 Hs Hmax Hp1 Hr1 Hv1 Hp2 Hr2) as [Hv2 Hb2].
    split; [by econstructor|]. split; [by eapply nonneg_step|]. split; [by exists p2|]. rewrite picks_snoc. lia.
Qed.

Lemma boot_nonneg e s0 n j r :
  userinit (procinit e) = Ok s0 → procs (ps (mk_system s0 (replicate n None))) !! j = Some r → 0 ≤ vruntime r.
Proof.
  unfold userinit. pose proof (allocproc_spec (procinit e)) as Ha. destruct (allocproc (procinit e)) as [[i|] s1]; [|done].
  destruct Ha as (p & q & Hp & _ & Hps & Hfr & _). destruct (namei_root (env s1)) as [root e1]. intros [= <-]. cbn [ps upd procs].
  rewrite Hps, (alter_insert _ _ _ q) by (apply list_lookup_insert_eq; by eapply lookup_lt_Some). rewrite list_insert_insert_eq.
  intros [(_ & <- & _)|[_ ->%procinit_lookup]]%list_lookup_insert_Some; [|done].
  cbn [set_st set_priority set_files vruntime]. rewrite (fr_vruntime _ _ _ Hfr). done.
Qed.

Lemma sys_steps_nonneg y tr y' :
  sys_steps y tr y' → sys_inv y → 0 < nextpid (ps y) → nextpid (ps y) + Z.of_nat (length tr) < 2 ^ 31 - 1 →
  (∀ j r, procs (ps y) !! j = Some r → 0 ≤ vruntime r) → ∀ j r, procs (ps y') !! j = Some r → 0 ≤ vruntime r.
Proof.
  induction 1 as [y|y tr y1 l y2 Htr IH Hstep]; intros Hi H0 Hlen Hpos; [done|].
  rewrite length_app in Hlen. cbn [length] in Hlen. destruct (sys_steps_inv _ _ _ Htr Hi H0 ltac:(lia)) as [Hi1 _].
  eapply nonneg_step; [done| |done]. by apply IH; try lia.
Qed.

(** C11: How long CFS lets a runnable process wait.  On any number of CPUs, from any state the
    machine reached from boot, and whatever the others do meanwhile (ticks, sleeps, wakeups, forks,
    exits, kills), while process [k] stays runnable the scheduler picks other processes at most
    [rivals] times, the whole ticks they need to overtake its vruntime at their weights, plus the
    turns of the processes that are woken or forked meanwhile ([arrivals], which nothing bounds: a
    process that is woken again and again before its tick takes a turn each time).  When these are
    used up, the next idle CPU picks [k].  The two bounds on numbers keep [nextpid] and the vruntime
    of [k] below their overflow; priorities do not change in these runs. *)
Theorem cfs_no_starvation e s0 n tr0 y k p tr a y' :
  userinit (procinit e) = Ok s0 → sys_steps (mk_system s0 (replicate n None)) tr0 y →
  procs (ps y) !! k = Some p → st p = RUNNABLE → vruntime p + 2 ^ 27 ≤ 2 ^ 64 →
  waits k (vruntime p) y tr a y' → Z.of_nat (length (tr0 ++ tr)) < 2 ^ 31 - 3 →
  (picks tr ≤ rivals k (vruntime p) (procs (ps y)) + a)%nat ∧
  (picks tr = rivals k (vruntime p) (procs (ps y)) + a →
   ∀ c y2, sys_step y' (Pick c) = Some y2 → running_on c y2 = Some k)%nat.
Proof.
  intros Hb Htr Hp Hr Hmax Hw Hlen. rewrite length_app in Hlen. destruct (boot_inv e s0 n Hb) as [Hi Hn].
  destruct (sys_steps_inv _ _ _ Htr Hi) as [Hy [H0 Hny]]; [cbn; lia|cbn; lia|]. cbn [ps] in Hny.
  pose proof (sys_steps_nonneg _ _ _ Htr Hi ltac:(cbn; lia) ltac:(cbn; lia) (λ j r, boot_nonneg e s0 n j r Hb)) as Hpos.
  destruct (waits_bound k y tr a y' p Hw Hy Hpos H0 ltac:(lia) Hp Hr Hmax) as (_ & Hpos' & (p' & Hp' & Hr' & Hv') & Hle).
  split; [lia|]. intros He c y2 Hs. destruct (step_pick y' c y2 Hs) as [[_ Hno]|(i & q & Hq & Hqr & Hmin & _ & Hrun)];
    [by destruct (Hno k p')|]. destruct (decide (i = k)) as [->|Hne]; [done|exfalso].
  specialize (Hmin k p' Hp' Hr'). unfold before in Hmin.
  pose proof (rivals_pick k (vruntime p) i q (procs (ps y')) Hq Hqr Hne ltac:(lia) (Hpos' i q Hq) Hmax). lia.
Qed.

(** ** Fork, exit and wait *)

(** C12: A fork either fails with -1 or returns the pid of one new entry, the
    first free one, that is the caller's child, runnable, with its agent flag and its jail directory
    (the same inode, its reference count raised by [idup]), never in
    the kernel priority band, and behind the caller in vruntime by nothing. So
    a process started below a jail stays below it. *)
Theorem fork_confined me s p r s' :
  procs s !! me = Some p → st p ≠ UNUSED → (∀ x e, (idup x e).1 = x) →
  kfork me s = (r, s') →
  r = -1 ∧ (∀ j q, procs s' !! j = Some q → st q ≠ UNUSED → procs s !! j = Some q) ∨
  ∃ i q, procs s' = <[i := q]> (procs s) ∧ (i < length (procs s))%nat ∧ i ≠ me ∧ r = pid q ∧
    st q = RUNNABLE ∧ parent q = Some me ∧ is_agent q = is_agent p ∧ jail_root q = jail_root p ∧
    0 ≤ priority q ∧ (0 ≤ priority p → priority q = priority p) ∧ vruntime q = vruntime p.
Proof.
  intros Hp Hst Hid Hf. pose proof (kfork_spec me s p Hp Hst) as Hk. rewrite Hf in Hk.
  destruct Hk as [_ [[-> Hk]|(-> & i & o & q & e & Ho & Hou & Hps & Hfk & _ & _ & _ & Hj)]].
  - left. split; [done|]. destruct Hk as [->|(i & o & q & Ho & Hou & Hps & _)]; [done|].
    intros j z. rewrite Hps. intros [(-> & <- & _)|[Hne Hz]]%list_lookup_insert_Some Hz'; done.
  - right. exists i, q. destruct Hfk as [F1 F2 F3 F4 F5 F6 F7].
    split_and!; try done; [by eapply lookup_lt_Some|congruence| | |].
    + destruct (decide (jail_root p = 0)) as [H0|H0]; [by rewrite (F7 H0)|by rewrite (Hj H0)].
    + rewrite F4. bcase; lia.
    + rewrite F4. bcase; lia.
Qed.

(** With no status address a scan never fails. *)
Lemma wait_scan_0 k i me hk s hk' s' : wait_scan k i me 0 hk s ≠ (NoWait, hk', s').
Proof.
  revert i hk. induction k as [|k IH]; intros i hk; cbn [wait_scan]; [done|].
  destruct (decide _); [destruct (decide _); [done|]|]; apply IH.
Qed.

(** After [kexit] nobody is asleep in the parent's [kwait]. *)
Lemma kexit_wakes me status s s' p pp :
  kexit me status s = Ok s' → procs s !! me = Some p → initproc s ≠ Some me →
  parent p = Some pp → pp ≠ me →
  ∀ j q, procs s' !! j = Some q → st q = SLEEPING → chan q ≠ Some (ChanProc pp).
Proof.
  intros Hk Hp Hip Hpar Hne. unfold kexit in Hk. rewrite decide_False in Hk by done.
  assert (Hget : pget me s = p) by by apply nth_lookup_Some. rewrite Hget in Hk.
  match type of Hk with context [set_env ?e s] => set (s0 := upd (λ p, set_jail (is_agent p) 0
    (set_files (replicate NOFILE 0) 0 p)) me (set_env e s)) in Hk end.
  set (p0 := set_jail (is_agent p) 0 (set_files (replicate NOFILE 0) 0 p)).
  assert (Hp0 : procs s0 !! me = Some p0).
  { unfold s0. cbn [upd procs set_env]. by rewrite list_lookup_alter_eq, Hp. }
  destruct (reparent_loop_spec (length (procs s0)) 0 me (Some me) s0 eq_refl Hip) as (_ & _ & _ & _ & Hm1).
  fold (reparent me (Some me) s0) in Hm1. set (s1 := reparent me (Some me) s0) in *.
  assert (Hme1 : pget me s1 = p0).
  { apply nth_lookup_Some. apply (Hm1 me p0); [done|done|]. cbn. congruence. }
  rewrite Hme1 in Hk. change (parent p0) with (parent p) in Hk. rewrite Hpar in Hk. injection Hk as <-.
  intros j q Hj Hsl Hch. cbn [upd procs] in Hj. destruct (decide (me = j)) as [->|Hmj].
  { rewrite list_lookup_alter_eq in Hj. apply fmap_Some in Hj as (z & _ & ->). done. }
  rewrite list_lookup_alter_ne, wakeup_lookup in Hj by done.
  apply fmap_Some in Hj as (z & Hz & ->).
  destruct (wakes (ChanProc pp) (Some me) j z) eqn:Hw; [done|].
  assert (wakes (ChanProc pp) (Some me) j z = true); [|congruence].
  apply wakes_spec. split_and!; [congruence|done|done].
Qed.

(** A parent with a zombie child gets the first one of the table, and frees it. *)
Lemma kwait_first pp s k q :
  procs s !! k = Some q → parent q = Some pp → st q = ZOMBIE →
  ∃ j z s', kwait pp 0 s = (Some (pid z), s') ∧ procs s !! j = Some z ∧ parent z = Some pp ∧ st z = ZOMBIE ∧ (j ≤ k)%nat ∧
    (∀ j' z', (j' < j)%nat → procs s !! j' = Some z' → parent z' = Some pp → st z' ≠ ZOMBIE) ∧
    procs s' = <[j := cleared z]> (procs s).
Proof.
  intros Hq Hpar Hz. unfold kwait. pose proof (wait_scan_spec (length (procs s)) 0 pp 0 false s eq_refl) as Hw.
  destruct (wait_scan (length (procs s)) 0 pp 0 false s) as [[r hk] s2] eqn:Hscan.
  destruct Hw as (_ & _ & Hw). destruct r as [x| |].
  - destruct Hw as (j & z & Hj & Hzp & Hzz & -> & Hps & Hfirst). exists j, z, s2. split_and!; try done.
    + destruct (decide (j ≤ k)%nat) as [|Hn]; [done|]. by destruct (Hfirst k q ltac:(lia) Hq Hpar).
    + intros j' z' Hj'. apply Hfirst. lia.
  - exfalso. clear -Hscan. generalize dependent (length (procs s)). intros n Hscan. by eapply wait_scan_0.
  - exfalso. destruct Hw as (_ & Hno & _). eapply (Hno k q); [lia|done|done|done].
Qed.

(** So a zombie child is returned once the zombie children before it in the table are. *)
Lemma reaped_in_turn pp k q d : ∀ s,
  procs s !! k = Some q → parent q = Some pp → st q = ZOMBIE →
  (∀ j z, procs s !! j = Some z → parent z = Some pp → st z = ZOMBIE → (k ≤ j + d)%nat) →
  ∃ n s2 s3, (n ≤ d)%nat ∧ Nat.iter n (λ s, (kwait pp 0 s).2) s = s2 ∧
    kwait pp 0 s2 = (Some (pid q), s3) ∧ procs s2 !! k = Some q ∧ procs s3 = <[k := cleared q]> (procs s2).
Proof.
  induction d as [d IH] using lt_wf_ind. intros s Hq Hpar Hz Hd.
  destruct (kwait_first pp s k q Hq Hpar Hz) as (j & z & s' & Hk & Hj & Hzp & Hzz & Hle & Hfirst & Hps).
  destruct (decide (j = k)) as [->|Hne].
  - replace z with q in * by congruence. exists 0%nat, s, s'. split_and!; (done || lia).
  - pose proof (Hd j z Hj Hzp Hzz). destruct (IH (k - S j)%nat ltac:(lia) s') as (n & s2 & s3 & Hn & Hit & H1 & H2 & H3).
    + by rewrite Hps, list_lookup_insert_ne.
    + done.
    + done.
    + intros i y Hi Hy Hyz. rewrite Hps in Hi. apply list_lookup_insert_Some in Hi as [(_ & <- & _)|[Hij Hi]]; [done|].
      destruct (decide (i < j)%nat) as [Hlt|]; [by destruct (Hfirst i y Hlt Hi Hy)|lia].
    + exists (S n), s2, s3. split_and!; try done; [lia|]. by rewrite Nat.iter_succ_r, Hk.
Qed.

(** C13: Exit and wait meet.  When a process other than init exits, nobody is left asleep in its
    parent's [kwait], and the entry is a zombie with the exit status.  The parent's next [kwait(0)]
    returns the pid of its first zombie child in table order and frees that entry; so the exiting
    process is the one when no other child before it in the table is a zombie, and otherwise after
    as many more calls at most as there are entries before it. *)
Theorem exit_then_wait me status s p pp :
  procs s !! me = Some p → parent p = Some pp → pp ≠ me → initproc s ≠ Some me →
  ∃ s1 q, kexit me status s = Ok s1 ∧
    (∀ j r, procs s1 !! j = Some r → st r = SLEEPING → chan r ≠ Some (ChanProc pp)) ∧
    procs s1 !! me = Some q ∧ st q = ZOMBIE ∧ xstate q = status ∧ pid q = pid p ∧
    (∃ j z s2, kwait pp 0 s1 = (Some (pid z), s2) ∧ procs s1 !! j = Some z ∧ parent z = Some pp ∧ st z = ZOMBIE ∧
      (j ≤ me)%nat ∧ (∀ i y, (i < j)%nat → procs s1 !! i = Some y → parent y = Some pp → st y ≠ ZOMBIE) ∧
      procs s2 = <[j := cleared z]> (procs s1)) ∧
    ∃ n s2 s3, (n ≤ me)%nat ∧ Nat.iter n (λ s, (kwait pp 0 s).2) s1 = s2 ∧ kwait pp 0 s2 = (Some (pid p), s3) ∧
      procs s2 !! me = Some q ∧ procs s3 = <[me := cleared q]> (procs s2).
Proof.
  intros Hp Hpar Hne Hip. assert (Hpar' : parent p ≠ Some me) by congruence.
  destruct (kexit_spec me status s p Hp Hip Hpar') as (s1 & Hk & _ & _ & _ & (q & Hq & Hzq & Hx & Hpq & Hparq & _) & _).
  exists s1, q. rewrite Hpar in Hparq. split_and!; try done.
  - by eapply kexit_wakes.
  - by eapply kwait_first.
  - rewrite <- Hpq. apply reaped_in_turn; try done. intros; lia.
Qed.

(** ** A kill of pid 0 *)

Lemma find_pid_0_unused y :
  sys_inv y → find_pid 0 (ps y) = find_unused (ps y).
Proof.
  intros Hi. unfold find_pid, find_unused. apply find_index_ext. intros i p Hp.
  pose proof (si_pid _ Hi i p Hp) as H1. pose proof (si_unused _ Hi i p Hp) as H2.
  destruct (decide (st p = UNUSED)) as [Hu|Hu].
  - rewrite (bool_decide_eq_true_2 (st p = UNUSED)) by done. destruct (H2 Hu) as [-> _]. done.
  - rewrite (bool_decide_eq_false_2 (st p = UNUSED)) by done. apply Z.eqb_neq. specialize (H1 Hu). lia.
Qed.

(** [kill(0)] succeeds while the table has a free entry, and marks the entry
    the next [allocproc] takes: that process is born killed. *)
Theorem kill_zero_poisons y i :
  sys_inv y → find_unused (ps y) = Some i →
  ∃ s, kkill 0 (ps y) = (0, s) ∧
    match allocproc s with
    | (Some j, s') => j = i ∧ is_killed i s' = true
    | (None, _) => True
    end.
Proof.
  intros Hi Hf. unfold kkill. rewrite find_pid_0_unused, Hf by done. eexists. split; [reflexivity|].
  destruct (find_unused_Some _ _ Hf) as (p & Hp & Hu). apply find_index_Some in Hf as (_ & _ & _ & Hmin).
  set (f := λ p, let p := set_killed 1 p in if decide (st p = SLEEPING) then set_st RUNNABLE p else p).
  assert (Hfu : st (f p) = UNUSED ∧ killed (f p) = 1).
  { unfold f. cbn [set_killed st]. rewrite Hu. done. }
  assert (Hps : procs (upd f i (ps y)) = <[i := f p]> (procs (ps y))) by (cbn [upd procs]; by apply alter_insert).
  pose proof (allocproc_spec (upd f i (ps y))) as Ha.
  destruct (allocproc (upd f i (ps y))) as [[j|] s'] eqn:Hal; [|done].
  destruct Ha as (o & q & Ho & Hou & Hps' & Hfr & _).
  assert (Hj : j = i).
  { unfold allocproc in Hal. destruct (find_unused (upd f i (ps y))) as [k|] eqn:Hk; [|done].
    assert (k = i) as ->.
    { apply find_index_Some in Hk as (o' & Ho' & Hu' & Hm'). rewrite Hps in *.
      destruct (Nat.lt_trichotomy k i) as [Hlt|[?|Hlt]]; [|done|].
      - rewrite list_lookup_insert_ne in Ho' by lia. rewrite (Hmin _ _ Hlt Ho') in Hu'. done.
      - assert (Hx : bool_decide (st (f p) = UNUSED) = false).
        { apply (Hm' i); [done|]. apply list_lookup_insert_eq. by eapply lookup_lt_Some. }
        apply bool_decide_eq_false in Hx. destruct Hfu as [Hfu _]. done. }
    clear -Hal. destruct (allocpid _). repeat match type of Hal with
    | context [let '(_, _) := ?x in _] => destruct x
    | context [if ?b then _ else _] => destruct b
    end; congruence. }
  split; [done|]. subst j. unfold is_killed, pget. rewrite Hps', (nth_lookup_Some _ _ _ q).
  - rewrite (fr_killed _ _ _ Hfr). rewrite Hps, list_lookup_insert_eq in Ho by by eapply lookup_lt_Some.
    injection Ho as <-. destruct Hfu as [_ ->]. done.
  - apply list_lookup_insert_eq. by eapply lookup_lt_Some.
Qed.
End proofs.

(** ** Concrete runs

    A memory that never runs out: pages are numbered upwards from the
    environment's value, page tables and files need no content. *)
#[export] Instance simple_env : ProcEnv Z := {|
  kalloc e := (e + PGSIZE, e + PGSIZE);
  kfree _ e := e;
  uvmcreate e := (e + PGSIZE, e + PGSIZE);
  mappages _ _ _ _ _ e := (0, e);
  uvmunmap _ _ _ _ e := e;
  uvmfree _ _ e := e;
  uvmcopy _ _ _ e := (0, e);
  uvmalloc _ _ newsz _ e := (newsz, e);
  uvmdealloc _ _ newsz e := (newsz, e);
  copyout _ _ _ e := (0, e);
  copyin _ _ n _ := Some (replicate (Z.to_nat n) 0);
  kmemmove _ _ e := e;
  kmemread _ n _ := replicate (Z.to_nat n) 0;
  tf_copy _ _ e := e;
  tf_set_a0 _ _ e := e;
  filedup f e := (f, e);
  fileclose _ e := e;
  idup x e := (x, e);
  iput _ e := e;
  begin_op e := e;
  end_op e := e;
  namei_root e := (1, e);
  trampoline := PGSIZE;
  forkret := 2 * PGSIZE;
|}.

Definition sys_run {E} `{ProcEnv E} (y : system) (tr : list sys_label) : option (system (E := E)) :=
  foldl (λ o l, o ≫= λ y, sys_step y l) (Some y) tr.

Lemma sys_run_steps {E} `{ProcEnv E} (y : system (E := E)) tr y' : sys_run y tr = Some y' → sys_steps y tr y'.
Proof.
  revert y'. induction tr as [|l tr IH] using rev_ind; intros y' Hr.
  - injection Hr as <-. constructor.
  - unfold sys_run in Hr. rewrite foldl_snoc in Hr. apply bind_Some in Hr as (y1 & Hy1 & Hl).
    eapply sys_snoc; [by apply IH|done].
Qed.

(** Boot, then a trace, on two CPUs. *)
Definition demo_boot : state Z := match userinit (procinit 0) with Ok s => s | Panic => procinit 0 end.

Definition demo (tr : list sys_label) : system :=
  default (mk_system demo_boot []) (sys_run (mk_system demo_boot (replicate 2 None)) tr).

(** init forks twice and waits; a child runs on each CPU, one exits. *)
Definition demo_trace : list sys_label :=
  [Pick 0; Fork 0; Fork 0; Wait 0 0; Pick 0; Pick 1; Exit 1 7; Pick 1].

Lemma sys_safe_witness :
  let y := demo demo_trace in
  cpus y = [Some 1%nat; Some 0%nat] ∧
  (st <$> take 4 (procs (ps y))) = [RUNNING; RUNNING; ZOMBIE; UNUSED] ∧
  (∀ c d i, cpus y !! c = Some (Some i) → cpus y !! d = Some (Some i) → c = d).
Proof.
  cbv zeta. split; [by vm_compute|]. split; [by vm_compute|].
  refine (proj1 (sys_safe 0 demo_boot 2 demo_trace (demo demo_trace) _ _ _)); [by vm_compute| |by vm_compute].
  apply sys_run_steps. by vm_compute.
Defined.

(** The two children of [demo_trace], before either has run. *)
Definition demo_pair : state Z := ps (demo [Pick 0; Fork 0; Fork 0; Wait 0 0]).

(** The second child waits while the first is picked and wakes the parent by its exit, which is then
    picked too: one rival, one arrival, and the next pick is the second child's. *)
Definition demo_forks : list sys_label := [Pick 0; Fork 0; Fork 0; Wait 0 0].
Definition demo_wait : list sys_label := [Pick 0; Exit 0 7; Pick 0].

Definition demo_at (i : nat) : system := demo (demo_forks ++ take i demo_wait).
Definition demo_arrivals (i : nat) : nat := arrivals 2 0 (procs (ps (demo_at i))) (procs (ps (demo_at (S i)))).

Lemma demo_waits : waits 2 0 (demo demo_forks) demo_wait (0 + demo_arrivals 0 + demo_arrivals 1 + demo_arrivals 2) (demo_at 3).
Proof.
  refine (waits_snoc 2 0 (demo demo_forks) [Pick 0; Exit 0 7] (0 + demo_arrivals 0 + demo_arrivals 1) (demo_at 2) (Pick 0)
    (demo_at 3) (pget 2 (ps (demo_at 3))) _ _ _ _); [|vm_compute; reflexivity..].
  refine (waits_snoc 2 0 (demo demo_forks) [Pick 0] (0 + demo_arrivals 0) (demo_at 1) (Exit 0 7)
    (demo_at 2) (pget 2 (ps (demo_at 2))) _ _ _ _); [|vm_compute; reflexivity..].
  refine (waits_snoc 2 0 (demo demo_forks) [] 0 (demo demo_forks) (Pick 0)
    (demo_at 1) (pget 2 (ps (demo_at 1))) _ _ _ _); [constructor|vm_compute; reflexivity..].
Qed.

Lemma cfs_no_starvation_witness :
  picks demo_wait = (rivals 2 0 (procs (ps (demo demo_forks))) + (0 + demo_arrivals 0 + demo_arrivals 1 + demo_arrivals 2))%nat ∧
  ∃ y2, sys_step (demo_at 3) (Pick 1) = Some y2 ∧ running_on 1 y2 = Some 2%nat.
Proof.
  split; [vm_compute; reflexivity|]. eexists. split; [vm_compute; reflexivity|].
  refine (proj2 (cfs_no_starvation 0 demo_boot 2 demo_forks (demo demo_forks) 2 (pget 2 (ps (demo demo_forks))) demo_wait _ _
    _ _ _ _ _ demo_waits _) _ 1%nat _ _); try (vm_compute; reflexivity); [apply sys_run_steps; vm_compute; reflexivity|vm_compute; discriminate].
Defined.

Lemma wakeup_exact_witness :
  ∃ q, procs (wakeup (ChanProc 0) None demo_pair) !! 0%nat = Some q ∧ st q = RUNNABLE ∧
    vruntime q = 0.
Proof.
  destruct (wakeup_exact (ChanProc 0) None demo_pair 0 (pget 0 demo_pair)) as (q & Hq & Hs).
  - by vm_compute.
  - split; vm_compute; done.
  - split; vm_compute; done.
  - exists q. split; [exact Hq|]. rewrite bool_decide_eq_true_2 in Hs.
    + destruct Hs as (? & _ & Hv). split; [done|]. rewrite Hv. by vm_compute.
    + split; [intros Hn; discriminate Hn|]. split; [by vm_compute|by vm_compute].
Defined.

(** The first child of [demo_trace], made an agent jailed below inode 77. *)
Definition demo_agent : state Z := upd (set_jail 1 77) 1 demo_pair.

Lemma fork_confined_witness :
  ∃ q, procs (kfork 1 demo_agent).2 = <[3%nat := q]> (procs demo_agent) ∧ jail_root q = 77 ∧ is_agent q = 1.
Proof.
  destruct (fork_confined 1 demo_agent (pget 1 demo_agent) 4 (kfork 1 demo_agent).2) as [[? _]|Hq].
  - by vm_compute.
  - by vm_compute.
  - done.
  - by vm_compute.
  - done.
  - destruct Hq as (i & q & Hps & Hlt & Hne & Hpid & _ & _ & Ha & Hj & _).
    exists q. assert (Hi : i = 3%nat).
    { destruct (decide (i = 3%nat)) as [|Hn]; [done|exfalso].
      assert (H3 : st <$> (procs (kfork 1 demo_agent).2 !! 3%nat) = Some RUNNABLE) by by vm_compute.
      rewrite Hps, list_lookup_insert_ne in H3 by done. by vm_compute in H3. }
    subst i. split; [exact Hps|]. split; [rewrite Hj; by vm_compute|rewrite Ha; by vm_compute].
Defined.

(** The second child of [demo_pair] exits first, then the first: the parent gets them in table order. *)
Definition demo_zombie : state Z := match kexit 2 3 demo_pair with Ok s => s | Panic => demo_pair end.

Lemma exit_then_wait_witness :
  ∃ s1 s2, kexit 1 7 demo_pair = Ok s1 ∧ kwait 0 0 s1 = (Some 2, s2) ∧ ∃ n s3 s4, kexit 1 7 demo_zombie = Ok s3 ∧
    kwait 0 0 (Nat.iter n (λ s, (kwait 0 0 s).2) s3) = (Some 2, s4).
Proof.
  destruct (exit_then_wait 1 7 demo_pair (pget 1 demo_pair) 0) as (s1 & q & H1 & _ & _ & _ & _ & _ & (j & z & s2 & H2 & H3 & _ & H4 & _) & _);
    [by vm_compute|by vm_compute|done|by vm_compute|].
  destruct (exit_then_wait 1 7 demo_zombie (pget 1 demo_zombie) 0) as (s3 & q' & H5 & _ & _ & _ & _ & _ & _ & (n & s4 & s5 & _ & <- & H6 & _));
    [by vm_compute|by vm_compute|done|by vm_compute|].
  exists s1. assert (Hs : Ok s1 = kexit 1 7 demo_pair) by done. vm_compute in Hs. injection Hs as ->.
  eexists. split; [exact H1|]. split; [vm_compute; reflexivity|]. exists n, s3, s5. split; [exact H5|exact H6].
Defined.

Lemma kill_zero_poisons_witness :
  let y := mk_system demo_boot (replicate 2 None) in
  ∃ s, kkill 0 (ps y) = (0, s).
Proof.
  intros y. assert (Hi : sys_inv y) by apply (proj1 (boot_inv 0 demo_boot 2 ltac:(by vm_compute))).
  assert (Hf : find_unused (ps y) = Some 1%nat) by (vm_compute; reflexivity).
  destruct (kill_zero_poisons y 1 Hi Hf) as (s & Hs & _).
  exists s. exact Hs.
Defined.
