(* ===== verification/Locks.v ===== *)
(** * kernel/spinlock.c and sleeplock.c

    Spinlocks on several CPUs, step by step: [acquire] turns interrupts off and
    checks ([Begin]), spins on the atomic swap ([Swap]) and records the holder
    ([Record_]); [release] checks and clears the holder ([Clear]), unlocks
    ([Unlock]) and pops.  The other steps are [push_off], [pop_off] and the interrupt
    switch of code that holds nothing.  [held] and [pushes] are history: the
    locks a CPU has and the [push_off]s it made itself.

    Sleeplocks are a lock word and a pid under their spinlock. *)

From S2P Require Import Prelude Proc.

Local Open Scope Z_scope.

(** ** Data *)

(** [struct spinlock] without its name; [lk_cpu] is [None] for a null pointer. *)
Record spinlock := mk_lock { locked : Z; lk_cpu : option nat }.

Definition initlock : spinlock := mk_lock 0 None.

(** Where a CPU is in [acquire] or [release]. *)
Inductive lphase := Free | Spinning (l : nat) | Swapped (l : nat) | Cleared (l : nat).

#[export] Instance lphase_eq_dec : EqDecision lphase.
Proof. solve_decision. Defined.

(** [struct cpu]'s lock fields, the interrupt bit, and the history. *)
Record lcpu := mk_lcpu {
  noff : Z; intena : bool; ie : bool; at_ : lphase; held : list nat; pushes : nat;
}.

Record lstate := mk_lstate { lcpus : list lcpu; locks : list spinlock }.

(** ** Operations *)

Definition holding (c : nat) (lk : spinlock) : bool :=
  negb (locked lk =? 0) && bool_decide (lk_cpu lk = Some c).

Definition push_off (x : lcpu) : lcpu :=
  mk_lcpu (noff x + 1) (if noff x =? 0 then ie x else intena x) false (at_ x) (held x) (pushes x).

Definition pop_off (x : lcpu) : outcome lcpu :=
  if ie x then Panic
  else if noff x <? 1 then Panic
  else Ok (mk_lcpu (noff x - 1) (intena x) ((noff x - 1 =? 0) && intena x) (at_ x) (held x) (pushes x)).

Definition set_at (p : lphase) (x : lcpu) : lcpu :=
  mk_lcpu (noff x) (intena x) (ie x) p (held x) (pushes x).
Definition set_held (h : list nat) (x : lcpu) : lcpu :=
  mk_lcpu (noff x) (intena x) (ie x) (at_ x) h (pushes x).
Definition set_pushes (n : nat) (x : lcpu) : lcpu :=
  mk_lcpu (noff x) (intena x) (ie x) (at_ x) (held x) n.
Definition set_ie (b : bool) (x : lcpu) : lcpu :=
  mk_lcpu (noff x) (intena x) b (at_ x) (held x) (pushes x).

(** [acquire] up to the loop. *)
Definition acquire_begin (c l : nat) (lk : spinlock) (x : lcpu) : outcome lcpu :=
  let x := push_off x in
  if holding c lk then Panic else Ok (set_at (Spinning l) x).

(** One [__sync_lock_test_and_set(&lk->locked, 1)]. *)
Definition test_and_set (l : nat) (lk : spinlock) (x : lcpu) : spinlock * lcpu :=
  (mk_lock 1 (lk_cpu lk),
   if locked lk =? 0 then set_held (l :: held x) (set_at (Swapped l) x) else x).

Definition acquire_end (c : nat) (lk : spinlock) (x : lcpu) : spinlock * lcpu :=
  (mk_lock (locked lk) (Some c), set_at Free x).

Definition release_begin (c l : nat) (lk : spinlock) (x : lcpu) : outcome (spinlock * lcpu) :=
  if negb (holding c lk) then Panic else Ok (mk_lock (locked lk) None, set_at (Cleared l) x).

Definition release_end (l : nat) (lk : spinlock) (x : lcpu) : outcome (spinlock * lcpu) :=
  x ← pop_off (set_held (filter (λ m, m ≠ l) (held x)) (set_at Free x));
  Ok (mk_lock 0 (lk_cpu lk), x).

(** ** The multiprocessor *)

Inductive llabel :=
  | Begin (c l : nat) | Swap (c : nat) | Record_ (c : nat)
  | Clear (c l : nat) | Unlock (c : nat)
  | Push (c : nat) | Pop (c : nat) | Switch (c : nat) (on : bool).

(** [None]: not enabled. A panic is a label's own outcome. *)
Definition lstep (s : lstate) (a : llabel) : option (outcome lstate) :=
  let put c x l lk := mk_lstate (<[c := x]> (lcpus s)) (<[l := lk]> (locks s)) in
  match a with
  | Begin c l =>
      x ← lcpus s !! c; lk ← locks s !! l;
      match at_ x with
      | Free => Some (x ← acquire_begin c l lk x; Ok (put c x l lk))
      | _ => None
      end
  | Swap c =>
      x ← lcpus s !! c;
      match at_ x with
      | Spinning l => lk ← locks s !! l; let '(lk, x) := test_and_set l lk x in Some (Ok (put c x l lk))
      | _ => None
      end
  | Record_ c =>
      x ← lcpus s !! c;
      match at_ x with
      | Swapped l => lk ← locks s !! l; let '(lk, x) := acquire_end c lk x in Some (Ok (put c x l lk))
      | _ => None
      end
  | Clear c l =>
      x ← lcpus s !! c; lk ← locks s !! l;
      match at_ x with
      | Free => Some ('(lk, x) ← release_begin c l lk x; Ok (put c x l lk))
      | _ => None
      end
  | Unlock c =>
      x ← lcpus s !! c;
      match at_ x with
      | Cleared l => lk ← locks s !! l; Some ('(lk, x) ← release_end l lk x; Ok (put c x l lk))
      | _ => None
      end
  | Push c =>
      x ← lcpus s !! c;
      match at_ x with
      | Free => Some (Ok (mk_lstate (<[c := set_pushes (S (pushes x)) (push_off x)]> (lcpus s)) (locks s)))
      | _ => None
      end
  | Pop c =>
      x ← lcpus s !! c;
      match at_ x, pushes x with
      | Free, S n => Some (x ← pop_off (set_pushes n x); Ok (mk_lstate (<[c := x]> (lcpus s)) (locks s)))
      | _, _ => None
      end
  | Switch c on =>
      x ← lcpus s !! c;
      if (noff x =? 0) && bool_decide (at_ x = Free)
      then Some (Ok (mk_lstate (<[c := set_ie on x]> (lcpus s)) (locks s))) else None
  end.

Inductive lsteps : lstate → list llabel → lstate → Prop :=
  | lsteps_nil s : lsteps s [] s
  | lsteps_snoc s tr s1 a s2 : lsteps s tr s1 → lstep s1 a = Some (Ok s2) → lsteps s (tr ++ [a]) s2.

(** Boot: [n] CPUs with interrupts off and nothing pushed, [m] free locks. *)
Definition lboot (n m : nat) : lstate :=
  mk_lstate (replicate n (mk_lcpu 0 false false Free [] 0)) (replicate m initlock).

(** ** The invariant *)

(** Between the swap and the record, or between the clear and the unlock. *)
Definition busy (l : nat) (p : lphase) : bool :=
  match p with Swapped m | Cleared m => bool_decide (m = l) | _ => false end.

Definition spin (p : lphase) : Z := match p with Spinning _ => 1 | _ => 0 end.

Record cpu_ok (x : lcpu) : Prop := {
  co_noff : noff x = Z.of_nat (pushes x) + Z.of_nat (length (held x)) + spin (at_ x);
  co_off : noff x ≠ 0 → ie x = false;
  co_nodup : NoDup (held x);
  co_busy : ∀ l, busy l (at_ x) = true → l ∈ held x;
}.

(** [own] says which CPU has each lock. *)
Definition lock_ok (own : nat → option nat) (cs : list lcpu) (l : nat) (lk : spinlock) : Prop :=
  (locked lk = 0 ∧ own l = None ∧ lk_cpu lk = None) ∨
  (locked lk = 1 ∧ ∃ c x, own l = Some c ∧ cs !! c = Some x ∧
     lk_cpu lk = if busy l (at_ x) then None else Some c).

Record linv (own : nat → option nat) (s : lstate) : Prop := {
  li_cpu : ∀ c x, lcpus s !! c = Some x → cpu_ok x;
  li_held : ∀ c x l, lcpus s !! c = Some x → l ∈ held x ↔ own l = Some c;
  li_lock : ∀ l lk, locks s !! l = Some lk → lock_ok own (lcpus s) l lk;
}.

Lemma linv_boot n m : linv (λ _, None) (lboot n m).
Proof.
  split; cbn [lboot lcpus locks].
  - intros c x [-> _]%lookup_replicate. split; cbn; try done. constructor.
  - intros c x l [-> _]%lookup_replicate. cbn [held]. split; [by intros ?%elem_of_nil|done].
  - intros l lk [-> _]%lookup_replicate. by left.
Qed.

(** One CPU and one lock change; the others keep their owners. *)
Lemma linv_update own own' s c x x' l lk' :
  linv own s → lcpus s !! c = Some x → cpu_ok x' →
  (∀ m, m ≠ l → own' m = own m ∧ (m ∈ held x' ↔ m ∈ held x) ∧ busy m (at_ x') = busy m (at_ x)) →
  (l ∈ held x' ↔ own' l = Some c) → (∀ d, d ≠ c → own' l = Some d ↔ own l = Some d) →
  lock_ok own' (<[c := x']> (lcpus s)) l lk' →
  linv own' (mk_lstate (<[c := x']> (lcpus s)) (<[l := lk']> (locks s))).
Proof.
  intros [H1 H2 H3] Hx Hok Hne Hl Hd Hlk. split; cbn [lcpus locks].
  - intros d y [(_ & <- & _)|[_ Hy]]%list_lookup_insert_Some; [done|by eapply H1].
  - intros d y m [(<- & <- & _)|[Hdc Hy]]%list_lookup_insert_Some.
    + destruct (decide (m = l)) as [->|Hm]; [done|]. destruct (Hne m Hm) as (-> & -> & _). by apply H2.
    + rewrite (H2 d y m Hy). destruct (decide (m = l)) as [->|Hm]; [by rewrite Hd|].
      by destruct (Hne m Hm) as (-> & _).
  - intros m lk [(<- & <- & _)|[Hml Hm]]%list_lookup_insert_Some; [done|].
    destruct (Hne m ltac:(done)) as (Ho & _ & Hb).
    destruct (H3 m lk Hm) as [(? & ? & ?)|(? & d & y & Hod & Hy & Hc)]; [left; by rewrite Ho|right].
    split; [done|]. destruct (decide (d = c)) as [->|Hdc].
    + exists c, x'. rewrite Ho. split_and!; [done|apply list_lookup_insert_eq; by eapply lookup_lt_Some|].
      replace y with x in * by congruence. by rewrite Hb.
    + exists d, y. rewrite Ho, list_lookup_insert_ne by done. done.
Qed.

(** The lock and its owner stay as they were. *)
Lemma linv_same own s c x x' l lk :
  linv own s → lcpus s !! c = Some x → locks s !! l = Some lk → cpu_ok x' →
  held x' = held x → (∀ m, busy m (at_ x') = busy m (at_ x)) →
  linv own (mk_lstate (<[c := x']> (lcpus s)) (<[l := lk]> (locks s))).
Proof.
  intros Hi Hx Hlk Hok Hh Hb. eapply linv_update; try done.
  - intros m _. by rewrite Hh, Hb.
  - rewrite Hh. by apply (li_held _ _ Hi).
  - destruct (li_lock _ _ Hi l lk Hlk) as [?|(? & d & y & Hod & Hy & Hc)]; [by left|right].
    split; [done|]. destruct (decide (d = c)) as [->|Hdc].
    + exists c, x'. split_and!; [done|apply list_lookup_insert_eq; by eapply lookup_lt_Some|].
      replace y with x in * by congruence. by rewrite Hb.
    + exists d, y. by rewrite list_lookup_insert_ne.
Qed.

Lemma linv_cpu own s c x x' :
  linv own s → lcpus s !! c = Some x → cpu_ok x' → held x' = held x → at_ x' = at_ x →
  linv own (mk_lstate (<[c := x']> (lcpus s)) (locks s)).
Proof.
  intros [H1 H2 H3] Hx Hok Hh Ha. split; cbn [lcpus locks].
  - intros d y [(_ & <- & _)|[_ Hy]]%list_lookup_insert_Some; [done|by eapply H1].
  - intros d y m [(<- & <- & _)|[Hdc Hy]]%list_lookup_insert_Some; [rewrite Hh|]; by apply H2.
  - intros m lk Hm. destruct (H3 m lk Hm) as [?|(? & d & y & Hod & Hy & Hc)]; [by left|right].
    split; [done|]. destruct (decide (d = c)) as [->|Hdc].
    + exists c, x'. split_and!; [done|apply list_lookup_insert_eq; by eapply lookup_lt_Some|].
      replace y with x in * by congruence. by rewrite Ha.
    + exists d, y. by rewrite list_lookup_insert_ne.
Qed.

Lemma cpu_ok_push x p n :
  cpu_ok x → at_ x = Free → (∀ l, busy l p = false) → Z.of_nat n + spin p = Z.of_nat (pushes x) + 1 →
  cpu_ok (set_pushes n (set_at p (push_off x))).
Proof.
  intros [H1 H2 H3 H4] Ha Hp Hn. split; cbn; try done.
  - rewrite H1, Ha. cbn [spin]. lia.
  - intros l. by rewrite Hp.
Qed.

Lemma pop_off_ok x : cpu_ok x → (0 < pushes x + length (held x))%nat → at_ x = Free →
  ∃ y, pop_off x = Ok y ∧ noff y = noff x - 1 ∧ (noff y ≠ 0 → ie y = false) ∧ held y = held x ∧
    pushes y = pushes x ∧ at_ y = Free.
Proof.
  intros [H1 H2 H3 H4] Hn Ha. rewrite Ha in H1. cbn [spin] in H1. unfold pop_off. rewrite H2 by lia.
  rewrite (proj2 (Z.ltb_ge (noff x) 1)) by lia. eexists. split; [reflexivity|].
  cbn [noff ie held pushes at_]. split_and!; try done. intros Hy.
  by rewrite (proj2 (Z.eqb_neq _ _) Hy).
Qed.

Lemma filter_ne l (h : list nat) : l ∉ h → filter (λ m, m ≠ l) h = h.
Proof.
  induction h as [|a h IH]; intros Hl; [done|]. apply not_elem_of_cons in Hl as [Ha Hl].
  rewrite filter_cons, decide_True by done. by rewrite IH.
Qed.

Lemma held_filter l (h : list nat) :
  NoDup h → l ∈ h → S (length (filter (λ m, m ≠ l) h)) = length h.
Proof.
  induction h as [|a h IH]; intros Hn Hl; [by apply elem_of_nil in Hl|].
  apply NoDup_cons in Hn as [Ha Hn]. rewrite filter_cons. destruct (decide (a ≠ l)) as [Hne|He].
  - cbn [length]. rewrite IH; [done|done|]. apply elem_of_cons in Hl as [->|?]; done.
  - assert (a = l) as -> by (destruct (decide (a = l)); tauto). cbn [length]. f_equal.
    by rewrite filter_ne.
Qed.

(** Every step keeps the invariant; the owners change as the labels say. *)
Lemma lstep_inv own s a s' : linv own s → lstep s a = Some (Ok s') → ∃ own', linv own' s'.
Proof.
  intros Hi Hs. destruct a as [c l|c|c|c l|c|c|c|c on]; cbn [lstep] in Hs;
    apply bind_Some in Hs as (x & Hx & Hs); pose proof (li_cpu _ _ Hi c x Hx) as Hok.
  - (* Begin *)
    apply bind_Some in Hs as (lk & Hlk & Hs). destruct (at_ x) eqn:Ha; try done.
    unfold acquire_begin in Hs. destruct (holding c lk); [done|]. injection Hs as <-. exists own.
    apply (linv_same _ _ _ x); try done; [|by intros m; rewrite Ha].
    apply (cpu_ok_push x (Spinning l) (pushes x)); try done.
  - (* Swap *)
    destruct (at_ x) as [|l|l|l] eqn:Ha; try done. apply bind_Some in Hs as (lk & Hlk & Hs).
    destruct (li_lock _ _ Hi l lk Hlk) as [(H0 & Ho & Hc)|(H1 & d & y & Hod & Hy & Hc)].
    + unfold test_and_set in Hs. rewrite H0 in Hs. cbn in Hs. injection Hs as <-.
      exists (λ m, if decide (m = l) then Some c else own m).
      assert (Hnl : l ∉ held x) by (rewrite (li_held _ _ Hi c x l Hx); congruence).
      eapply linv_update; [done|done| | | | |].
      * destruct Hok as [N1 N2 N3 N4]. split; cbn; [rewrite N1, Ha; cbn; lia|done|by constructor|].
        intros m Hm. apply bool_decide_eq_true in Hm as ->. left.
      * intros m Hm. rewrite decide_False by done. cbn. rewrite elem_of_cons.
        rewrite bool_decide_eq_false_2 by congruence. rewrite Ha. cbn. split_and!; [done|tauto|done].
      * rewrite decide_True by done. cbn. split; [done|left].
      * intros d Hd. rewrite decide_True by done. split; congruence.
      * right. split; [done|]. exists c. eexists. rewrite decide_True by done.
        split_and!; [done|apply list_lookup_insert_eq; by eapply lookup_lt_Some|].
        cbn. by rewrite bool_decide_eq_true_2.
    + unfold test_and_set in Hs. rewrite H1 in Hs. cbn in Hs. injection Hs as <-. exists own.
      replace (mk_lock 1 (lk_cpu lk)) with lk by (destruct lk; cbn in *; congruence).
      by apply (linv_same _ _ _ x).
  - (* Record_ *)
    destruct (at_ x) as [|l|l|l] eqn:Ha; try done. apply bind_Some in Hs as (lk & Hlk & Hs).
    cbn in Hs. injection Hs as <-. exists own.
    assert (Hl : l ∈ held x) by (apply (co_busy _ Hok); rewrite Ha; cbn; by apply bool_decide_eq_true_2).
    assert (Hown : own l = Some c) by (by apply (li_held _ _ Hi c x l Hx)).
    eapply linv_update; [done|done| | | | |].
    + destruct Hok as [N1 N2 N3 N4]. split; cbn; [rewrite N1, Ha; cbn; lia|done|done|done].
    + intros m Hm. rewrite Ha. cbn. rewrite bool_decide_eq_false_2 by congruence. done.
    + cbn. tauto.
    + done.
    + right. destruct (li_lock _ _ Hi l lk Hlk) as [(_ & Ho & _)|(H1 & _)]; [congruence|].
      split; [done|]. exists c. eexists. split_and!; [done|apply list_lookup_insert_eq; by eapply lookup_lt_Some|done].
  - (* Clear *)
    apply bind_Some in Hs as (lk & Hlk & Hs). destruct (at_ x) eqn:Ha; try done.
    unfold release_begin in Hs. destruct (holding c lk) eqn:Hh; [|done]. cbn in Hs. injection Hs as <-. exists own.
    unfold holding in Hh. apply andb_true_iff in Hh as [Hl0 Hc%bool_decide_eq_true].
    assert (Hown : own l = Some c).
    { destruct (li_lock _ _ Hi l lk Hlk) as [(H0 & _)|(_ & d & y & Hod & Hy & Hcd)]; [by rewrite H0 in Hl0|].
      destruct (busy l (at_ y)); congruence. }
    assert (Hl : l ∈ held x) by (by apply (li_held _ _ Hi c x l Hx)).
    eapply linv_update; [done|done| | | | |].
    + destruct Hok as [N1 N2 N3 N4]. split; cbn; [rewrite N1, Ha; cbn; lia|done|done|].
      intros m Hm. apply bool_decide_eq_true in Hm as <-. done.
    + intros m Hm. rewrite Ha. cbn. rewrite bool_decide_eq_false_2 by congruence. done.
    + cbn. tauto.
    + done.
    + right. destruct (li_lock _ _ Hi l lk Hlk) as [(_ & Ho & _)|(H1 & _)]; [congruence|].
      split; [done|]. exists c. eexists. split_and!; [done|apply list_lookup_insert_eq; by eapply lookup_lt_Some|].
      cbn. by rewrite bool_decide_eq_true_2.
  - (* Unlock *)
    destruct (at_ x) as [|l|l|l] eqn:Ha; try done. apply bind_Some in Hs as (lk & Hlk & Hs).
    assert (Hl : l ∈ held x) by (apply (co_busy _ Hok); rewrite Ha; cbn; by apply bool_decide_eq_true_2).
    assert (Hown : own l = Some c) by (by apply (li_held _ _ Hi c x l Hx)).
    destruct Hok as [N1 N2 N3 N4]. pose proof (held_filter l (held x) N3 Hl) as Hlen. rewrite Ha in N1. cbn in N1.
    unfold release_end, pop_off in Hs. cbn in Hs. rewrite N2 in Hs by lia.
    rewrite (proj2 (Z.ltb_ge (noff x) 1)) in Hs by lia. cbn in Hs. injection Hs as <-.
    exists (λ m, if decide (m = l) then None else own m). eapply linv_update; [done|done| | | | |].
    + split; cbn; [lia| |by apply NoDup_filter|done]. intros Hn. by rewrite (proj2 (Z.eqb_neq _ _) Hn).
    + intros m Hm. rewrite decide_False by done. cbn. rewrite list_elem_of_filter, Ha. cbn.
      rewrite bool_decide_eq_false_2 by congruence. tauto.
    + rewrite decide_True by done. cbn. rewrite list_elem_of_filter. split; [tauto|done].
    + intros d Hd. rewrite decide_True by done. split; congruence.
    + left. rewrite decide_True by done. split_and!; [done|done|]. cbn.
      destruct (li_lock _ _ Hi l lk Hlk) as [(_ & Ho & _)|(_ & d & y & Hod & Hy & Hcd)]; [congruence|].
      replace d with c in * by congruence. replace y with x in * by congruence.
      rewrite Ha in Hcd. cbn in Hcd. by rewrite bool_decide_eq_true_2 in Hcd.
  - (* Push *)
    destruct (at_ x) eqn:Ha; try done. injection Hs as <-. exists own.
    apply (linv_cpu _ _ _ x); try done.
    pose proof (cpu_ok_push x Free (S (pushes x)) Hok Ha ltac:(done) ltac:(cbn; lia)) as Hp.
    unfold set_at in Hp. cbn in Hp. rewrite <- Ha in Hp at 1. exact Hp.
  - (* Pop *)
    destruct (at_ x) eqn:Ha; try done. destruct (pushes x) as [|n] eqn:Hn; [done|].
    destruct Hok as [N1 N2 N3 N4]. rewrite Ha, Hn in N1. cbn [spin] in N1.
    unfold pop_off in Hs. cbn in Hs. rewrite N2 in Hs by lia.
    rewrite (proj2 (Z.ltb_ge (noff x) 1)) in Hs by lia. cbn in Hs. injection Hs as <-. exists own.
    apply (linv_cpu _ _ _ x); try done. split; cbn; rewrite ?Ha; cbn; [lia| |done|done].
    intros Hn'. by rewrite (proj2 (Z.eqb_neq _ _) Hn').
  - (* Switch *)
    destruct ((noff x =? 0) && _) eqn:Hc; [|done]. injection Hs as <-. exists own.
    apply andb_true_iff in Hc as [H0%Z.eqb_eq _]. apply (linv_cpu _ _ _ x); try done.
    destruct Hok as [N1 N2 N3 N4]. split; cbn; try done.
Qed.

Lemma lsteps_inv n m tr s : lsteps (lboot n m) tr s → ∃ own, linv own s.
Proof.
  intros Hs. remember (lboot n m) as s0 eqn:H0. induction Hs as [s|s tr s1 a s2 _ IH Hst]; subst.
  - eexists. apply linv_boot.
  - destruct (IH eq_refl) as [own Hi]. by eapply lstep_inv.
Qed.

(** C18: Spinlocks are mutually exclusive and interrupt-safe, on any number of CPUs
    and locks and in any interleaving: no lock is with two CPUs, a CPU that has a lock
    runs with interrupts off, [holding] tells the truth between [acquire] and
    [release], and the [pop_off] that ends a matched pair never panics. *)
Theorem spinlock_exclusion n m tr s :
  lsteps (lboot n m) tr s →
  (∀ c d x y l, lcpus s !! c = Some x → lcpus s !! d = Some y → l ∈ held x → l ∈ held y → c = d) ∧
  (∀ c x l, lcpus s !! c = Some x → l ∈ held x → ie x = false ∧ 0 < noff x) ∧
  (∀ c x l lk, lcpus s !! c = Some x → locks s !! l = Some lk → at_ x = Free →
     holding c lk = bool_decide (l ∈ held x)) ∧
  (∀ c, lstep s (Unlock c) ≠ Some Panic ∧ lstep s (Pop c) ≠ Some Panic).
Proof.
  intros Hs. destruct (lsteps_inv _ _ _ _ Hs) as [own Hi]. split_and!.
  - intros c d x y l Hx Hy Hlx Hly. rewrite (li_held _ _ Hi c x l Hx) in Hlx.
    rewrite (li_held _ _ Hi d y l Hy) in Hly. congruence.
  - intros c x l Hx Hl. destruct (li_cpu _ _ Hi c x Hx) as [N1 N2 _ _].
    assert (Hn : 0 < noff x).
    { rewrite N1. destruct (held x); [by apply elem_of_nil in Hl|]. cbn [length]. destruct (at_ x); cbn; lia. }
    split; [apply N2; lia|done].
  - intros c x l lk Hx Hlk Ha. pose proof (li_held _ _ Hi c x l Hx) as Hh. unfold holding.
    destruct (li_lock _ _ Hi l lk Hlk) as [(H0 & Ho & Hc)|(H1 & d & y & Hod & Hy & Hc)].
    + rewrite H0. cbn. rewrite bool_decide_eq_false_2; [done|]. rewrite Hh. congruence.
    + rewrite H1. cbn. apply bool_decide_ext. rewrite Hc, Hh, Hod. destruct (decide (d = c)) as [->|Hdc].
      * replace y with x by congruence. by rewrite Ha.
      * destruct (busy l (at_ y)); split; congruence.
  - intros c. assert (Hpop : ∀ x n, lcpus s !! c = Some x → Z.of_nat n = noff x → (0 < n)%nat →
      ie x = false ∧ (noff x <? 1) = false).
    { intros x k Hx Hk Hk0. destruct (li_cpu _ _ Hi c x Hx) as [_ N2 _ _]. split; [apply N2; lia|]. apply Z.ltb_ge. lia. }
    split; cbn [lstep]; destruct (lcpus s !! c) as [x|] eqn:Hx; cbn; try done;
      destruct (li_cpu _ _ Hi c x Hx) as [N1 N2 N3 N4]; destruct (at_ x) as [|l|l|l] eqn:Ha; try done.
    + destruct (locks s !! l) as [lk|] eqn:Hlk; [|done]. cbn. unfold release_end, pop_off. cbn.
      assert (Hl : l ∈ held x) by (apply N4; cbn; by apply bool_decide_eq_true_2).
      cbn [spin] in N1. destruct (held x) as [|a h]; [by apply elem_of_nil in Hl|]. cbn [length] in N1.
      destruct (Hpop x (pushes x + S (length h))%nat eq_refl ltac:(lia) ltac:(lia)) as [-> ->]. done.
    + destruct (pushes x) as [|k] eqn:Hk; [done|]. cbn [spin] in N1. unfold pop_off. cbn.
      destruct (Hpop x (S k + length (held x))%nat eq_refl ltac:(lia) ltac:(lia)) as [-> ->]. done.
Qed.

(** Two CPUs want the same lock; the second spins. *)
Definition lock_trace : list llabel := [Begin 0 0; Begin 1 0; Swap 0; Swap 1; Record_ 0; Swap 1].

Definition lrun (s : lstate) (tr : list llabel) : option (outcome lstate) :=
  foldl (λ o a, match o with Some (Ok s) => lstep s a | _ => o end) (Some (Ok s)) tr.

Lemma lrun_steps s tr s' : lrun s tr = Some (Ok s') → lsteps s tr s'.
Proof.
  revert s'. induction tr as [|a tr IH] using rev_ind; intros s' Hr.
  - injection Hr as <-. constructor.
  - unfold lrun in Hr. rewrite foldl_snoc in Hr.
    destruct (foldl _ _ tr) as [[s1|]|] eqn:Hf; try done. eapply lsteps_snoc; [by apply IH|done].
Qed.

Definition contended : lstate := match lrun (lboot 2 1) lock_trace with Some (Ok s) => s | _ => lboot 0 0 end.

Lemma spinlock_exclusion_witness :
  (held <$> lcpus contended) = [[0%nat]; []] ∧
  (∀ c x l, lcpus contended !! c = Some x → l ∈ held x → ie x = false ∧ 0 < noff x).
Proof.
  split; [by vm_compute|].
  refine (proj1 (proj2 (spinlock_exclusion 2 1 lock_trace contended _))).
  apply lrun_steps. by vm_compute.
Defined.

(** ** Sleeplocks

    The bodies run under the sleeplock's own spinlock. *)

(** [locked] and [pid] of [struct sleeplock]. *)
Record sleeplock := mk_sleeplock { sl_locked : Z; sl_pid : Z }.

Definition initsleeplock : sleeplock := mk_sleeplock 0 0.

(** [None]: the caller sleeps on the lock, and tries again when it wakes. *)
Definition acquiresleep (pid : Z) (lk : sleeplock) : option sleeplock :=
  if negb (sl_locked lk =? 0) then None else Some (mk_sleeplock 1 pid).

(** Followed by [wakeup(lk)]. *)
Definition releasesleep (lk : sleeplock) : sleeplock := mk_sleeplock 0 0.

Definition holdingsleep (pid : Z) (lk : sleeplock) : bool :=
  negb (sl_locked lk =? 0) && (sl_pid lk =? pid).

Lemma acquiresleep_holds pid lk lk' :
  acquiresleep pid lk = Some lk' → holdingsleep pid lk' = true ∧ ∀ q, acquiresleep q lk' = None.
Proof.
  unfold acquiresleep. destruct (negb _); [done|]. intros [= <-]. unfold holdingsleep. cbn.
  by rewrite Z.eqb_refl.
Qed.
