(* ===== verification/Sched.v ===== *)
(** * Context switches of kernel/proc.c on several CPUs

    What Proc.v takes as one step, the round of [scheduler] and [sched], cut at the process locks:
    any number of CPUs scan the table, switch to a process while they hold its lock, and come back
    through [sched].  A label is one critical step of one CPU; a lock another CPU holds blocks it, one its own CPU
    holds makes [acquire] panic.
    [saved] is what a context holds between two switches.  Spinlocks other than those of
    processes only count in [noff]; Locks.v has the spinlocks themselves, and Proc.v the
    weights and the minimum of [vruntime]. *)

From S2P Require Import Prelude Proc.

Local Open Scope Z_scope.

(** ** Data *)

(** Where a process that does not run goes on: [forkret], or after [swtch] in [sched] (with the
    [intena] of its frame), called by [yield], [sleep] or [kexit]. *)
Inductive caller := By_yield | By_sleep | By_exit.
Inductive saved := Forkret | In_sched (by_ : caller) (intena : bool).

(** The fields of [struct proc] that matter here; [slk] is the CPU that holds [p->lock]. *)
Record sproc := mk_sproc { ss : procstate; svr : Z; sct : Z; slk : option nat; sctx : saved }.

(** Where a CPU is.  In [scheduler]: before [acquire] of process [i], between it and the
    releases, back from [swtch].  In process [p]: just switched to, running, taking back the lock
    of [sleep], in [sched] before [swtch]. *)
Local Notation best := (option (nat * Z * Z)).
Inductive cphase :=
  | Scan (i : nat) (b : best) | Comparing (i : nat) (b : best) | Switched_out (p : nat)
  | Switched_in (p : nat) | Run (p : nat) | Waking (p : nat) | Leaving (p : nat) (by_ : caller).

(** [struct cpu], and the interrupt bit. *)
Record scpu := mk_scpu { ph : cphase; snoff : Z; sintena : bool; sie : bool }.

Record sstate := mk_sstate { scpus : list scpu; sprocs : list sproc }.

(** ** Steps *)

Definition goto (p : cphase) (y : scpu) : scpu := mk_scpu p (snoff y) (sintena y) (sie y).
Definition with_intena (b : bool) (y : scpu) : scpu := mk_scpu (ph y) (snoff y) b (sie y).

(** [push_off] and [pop_off] inside [acquire] and [release]. *)
Definition cpush (y : scpu) : scpu :=
  mk_scpu (ph y) (snoff y + 1) (if snoff y =? 0 then sie y else sintena y) false.
Definition cpop (y : scpu) : outcome scpu :=
  if sie y then Panic
  else if snoff y <? 1 then Panic
  else Ok (mk_scpu (ph y) (snoff y - 1) (sintena y) ((snoff y - 1 =? 0) && sintena y)).

Definition set_ss (t : procstate) (x : sproc) : sproc := mk_sproc t (svr x) (sct x) (slk x) (sctx x).
Definition set_slk (l : option nat) (x : sproc) : sproc := mk_sproc (ss x) (svr x) (sct x) l (sctx x).
Definition set_svr (v : Z) (x : sproc) : sproc := mk_sproc (ss x) v (sct x) (slk x) (sctx x).
Definition set_sctx (k : saved) (x : sproc) : sproc := mk_sproc (ss x) (svr x) (sct x) (slk x) k.

(** [c->proc], and [myproc]. *)
Definition cproc (p : cphase) : option nat :=
  match p with
  | Switched_out q | Switched_in q | Run q | Waking q | Leaving q _ => Some q
  | Scan _ _ | Comparing _ _ => None
  end.
Definition myproc (y : scpu) : outcome (option nat * scpu) :=
  let y := cpush y in
  z ← cpop y; Ok (cproc (ph y), z).

(** The test of the scan. *)
Definition better (x : sproc) (b : best) : bool :=
  bool_decide (ss x = RUNNABLE) &&
  match b with
  | None => true
  | Some (_, vr, ct) => (svr x <? vr) || ((svr x =? vr) && (sct x <? ct))
  end.

Definition gone (by_ : caller) : procstate :=
  match by_ with By_yield => RUNNABLE | By_sleep => SLEEPING | By_exit => ZOMBIE end.

Inductive slabel :=
  | Take (c : nat) | Decide (c : nat) | Choose (c : nat) | Back (c : nat)
  | Resume (c : nat) | Relock (c : nat)
  | Yield (c : nat) | Sleep (c : nat) | Exit (c : nat) | Swtch (c : nat)
  | Charge (c : nat) (vr : Z) | Lock (c : nat) | Unlock (c : nat) | Intr (c : nat) (on : bool)
  | Wake (c j : nat) (vr : Z) | Alloc (c j : nat) (vr ct : Z) | Ready (c j : nat) | Reap (c j : nat).

Section step.
Context (s : sstate) (c : nat) (y : scpu).

(** The CPU goes on as [y']; process [j] becomes [x']. *)
Definition cput (y' : scpu) : sstate := mk_sstate (<[c := y']> (scpus s)) (sprocs s).
Definition cpput (y' : scpu) (j : nat) (x' : sproc) : sstate := mk_sstate (<[c := y']> (scpus s)) (<[j := x']> (sprocs s)).

(** [release(&p->lock)] of a lock this CPU holds. *)
Definition unlock (y' : scpu) (j : nat) (x' : sproc) : outcome sstate :=
  if bool_decide (slk x' = Some c) then z ← cpop y'; Ok (cpput z j (set_slk None x')) else Panic.

(** A process other than [j] runs, or, if [idle], an interrupt came in where [scheduler] allows them. *)
Definition visitor (idle : bool) (j : nat) : bool :=
  match ph y with
  | Run p => bool_decide (j ≠ p)
  | Scan O None => idle
  | _ => false
  end.

(** [acquire] of process [j], before [k]: its test of [holding] comes first; while another CPU has
    the lock it spins. *)
Definition acquire (x : sproc) (k : outcome sstate) : option (outcome sstate) :=
  match slk x with
  | None => Some k
  | Some d => if bool_decide (d = c) then Some Panic else None
  end.

(** [acquire] of process [j], [f] on it if it is in state [from], [release]. *)
Definition inside (idle : bool) (j : nat) (from : procstate) (f : sproc → sproc) : option (outcome sstate) :=
  x ← sprocs s !! j;
  if visitor idle j then
    acquire x (z ← cpop (cpush y); Ok (if bool_decide (ss x = from) then cpput z j (f x) else cput z))
  else None.

(** [acquire(&p->lock)], the new state; [sleep] and [kexit] then release the lock they came with,
    which [release] tests that they hold. *)
Definition leave (by_ : caller) : option (outcome sstate) :=
  match ph y with
  | Run p =>
      x ← sprocs s !! p;
      let y' := goto (Leaving p by_) (cpush y) in
      let x' := set_slk (Some c) (set_ss (gone by_) x) in
      acquire x
        match by_ with
        | By_yield => Ok (cpput y' p x')
        | By_sleep | By_exit => if snoff y <? 1 then Panic else z ← cpop y'; Ok (cpput z p x')
        end
  | _ => None
  end.

(** [sched]: its tests, and [swtch] to the scheduler, which clears [c->proc]. *)
Definition sched : option (outcome sstate) :=
  match ph y with
  | Leaving p by_ =>
      x ← sprocs s !! p;
      Some (if negb (bool_decide (slk x = Some c)) then Panic
            else if negb (snoff y =? 1) then Panic
            else if bool_decide (ss x = RUNNING) then Panic
            else if sie y then Panic
            else Ok (cpput (goto (Switched_out p) y) p (set_sctx (In_sched by_ (sintena y)) x)))
  | _ => None
  end.
End step.

(** [None]: not enabled. *)
Definition sched_step (s : sstate) (a : slabel) : option (outcome sstate) :=
  match a with
  | Take c =>
      y ← scpus s !! c;
      match ph y with
      | Scan i b =>
          x ← sprocs s !! i;
          acquire c x (Ok (cpput s c (goto (Comparing i b) (cpush y)) i (set_slk (Some c) x)))
      | _ => None
      end
  | Decide c =>
      y ← scpus s !! c;
      match ph y with
      | Comparing i b =>
          x ← sprocs s !! i;
          if better x b then
            let y' := goto (Scan (S i) (Some (i, svr x, sct x))) y in
            match b with
            | None => Some (Ok (cput s c y'))
            | Some (m, _, _) => xm ← sprocs s !! m; Some (unlock s c y' m xm)
            end
          else Some (unlock s c (goto (Scan (S i) b) y) i x)
      | _ => None
      end
  | Choose c =>
      y ← scpus s !! c;
      match ph y with
      | Scan i b =>
          if (i <? length (sprocs s))%nat then None
          else
            match b with
            | None => Some (Ok (cput s c (goto (Scan 0 None) y)))
            | Some (m, _, _) => x ← sprocs s !! m; Some (Ok (cpput s c (goto (Switched_in m) y) m (set_ss RUNNING x)))
            end
      | _ => None
      end
  | Back c =>
      y ← scpus s !! c;
      match ph y with
      | Switched_out p =>
          x ← sprocs s !! p;
          Some (if bool_decide (slk x = Some c)
                then z ← cpop y; Ok (cpput s c (mk_scpu (Scan 0 None) (snoff z) (sintena z) false) p (set_slk None x))
                else Panic)
      | _ => None
      end
  | Resume c =>
      y ← scpus s !! c;
      match ph y with
      | Switched_in p =>
          x ← sprocs s !! p;
          Some (match sctx x with
                | Forkret => unlock s c (goto (Run p) y) p x
                | In_sched By_yield i => unlock s c (goto (Run p) (with_intena i y)) p x
                | In_sched By_sleep i => unlock s c (goto (Waking p) (with_intena i y)) p x
                | In_sched By_exit _ => Panic
                end)
      | _ => None
      end
  | Relock c =>
      y ← scpus s !! c;
      match ph y with Waking p => Some (Ok (cput s c (goto (Run p) (cpush y)))) | _ => None end
  | Yield c => y ← scpus s !! c; leave s c y By_yield
  | Sleep c => y ← scpus s !! c; leave s c y By_sleep
  | Exit c => y ← scpus s !! c; leave s c y By_exit
  | Swtch c => y ← scpus s !! c; sched s c y
  | Charge c vr =>
      y ← scpus s !! c;
      match ph y with Run p => x ← sprocs s !! p; Some (Ok (cpput s c y p (set_svr vr x))) | _ => None end
  | Lock c => y ← scpus s !! c; match ph y with Run _ => Some (Ok (cput s c (cpush y))) | _ => None end
  | Unlock c =>
      y ← scpus s !! c;
      match ph y with
      | Run _ => Some (z ← cpop y; Ok (cput s c z))
      | _ => None
      end
  | Intr c on =>
      y ← scpus s !! c;
      match ph y with
      | Run p => Some (Ok (cput s c (mk_scpu (Run p) (snoff y) (sintena y) on)))
      | _ => None
      end
  | Wake c j vr => y ← scpus s !! c; inside s c y true j SLEEPING (λ x, set_svr vr (set_ss RUNNABLE x))
  | Alloc c j vr ct => y ← scpus s !! c; inside s c y false j UNUSED (λ x, mk_sproc USED vr ct (slk x) Forkret)
  | Ready c j => y ← scpus s !! c; inside s c y false j USED (set_ss RUNNABLE)
  | Reap c j => y ← scpus s !! c; inside s c y false j ZOMBIE (λ x, mk_sproc UNUSED 0 0 (slk x) (sctx x))
  end.

(** What the callers in other files keep to, with the number of spinlocks they hold on their CPU:
    none when they yield or turn interrupts on or off, one when they sleep or exit ([lk],
    [wait_lock]), and they release what they acquired. *)
Definition keeps_count (s : sstate) (a : slabel) : bool :=
  let count c (f : Z → bool) := match scpus s !! c with Some y => f (snoff y) | None => true end in
  match a with
  | Yield c | Intr c _ => count c (λ n, n =? 0)
  | Sleep c | Exit c => count c (λ n, n =? 1)
  | Unlock c => count c (λ n, 1 <=? n)
  | _ => true
  end.

Inductive ssteps : sstate → list slabel → sstate → Prop :=
  | ssteps_nil s : ssteps s [] s
  | ssteps_snoc s tr s1 a s2 :
      ssteps s tr s1 → keeps_count s1 a = true → sched_step s1 a = Some (Ok s2) → ssteps s (tr ++ [a]) s2.

(** [n] CPUs enter [scheduler]; process 0 is ready to run, the other [m] are unused. *)
Definition sboot (n m : nat) : sstate :=
  mk_sstate (replicate n (mk_scpu (Scan 0 None) 0 false false))
    (mk_sproc RUNNABLE 0 0 None Forkret :: replicate m (mk_sproc UNUSED 0 0 None Forkret)).

(** ** The invariant *)

(** The process locks a CPU holds, and the process whose kernel stack it is on. *)
Definition is_best (b : best) (j : nat) : bool := match b with Some (m, _, _) => bool_decide (m = j) | None => false end.
Definition holds (p : cphase) (j : nat) : bool :=
  match p with
  | Scan _ b => is_best b j
  | Comparing i b => bool_decide (i = j) || is_best b j
  | Switched_out q | Switched_in q | Leaving q _ => bool_decide (q = j)
  | Run _ | Waking _ => false
  end.
Definition on (p : cphase) : option nat :=
  match p with
  | Switched_in q | Run q | Waking q | Leaving q _ => Some q
  | _ => None
  end.

Definition state_is (ps : list sproc) (j : nat) (P : procstate → Prop) : Prop := ∃ x, ps !! j = Some x ∧ P (ss x).
Definition best_ok (ps : list sproc) (i : nat) (b : best) : Prop :=
  match b with Some (m, _, _) => (m < i)%nat ∧ state_is ps m (eq RUNNABLE) | None => True end.
Definition nbest (b : best) : Z := match b with Some _ => 1 | None => 0 end.

Definition cpu_fits (ps : list sproc) (y : scpu) : Prop :=
  match ph y with
  | Scan i b => (i ≤ length ps)%nat ∧ snoff y = nbest b ∧ sie y = false ∧ (b = None ∨ sintena y = false) ∧ best_ok ps i b
  | Comparing i b => (i < length ps)%nat ∧ snoff y = 1 + nbest b ∧ sie y = false ∧ sintena y = false ∧ best_ok ps i b
  | Switched_out j => snoff y = 1 ∧ sie y = false ∧ state_is ps j (λ t, t ≠ RUNNING)
  | Switched_in j => snoff y = 1 ∧ sie y = false ∧ state_is ps j (eq RUNNING)
  | Run j => 0 ≤ snoff y ∧ (snoff y ≠ 0 → sie y = false) ∧ state_is ps j (eq RUNNING)
  | Waking j => snoff y = 0 ∧ state_is ps j (eq RUNNING)
  | Leaving j k => snoff y = 1 ∧ sie y = false ∧ state_is ps j (eq (gone k))
  end.

Record sinv (s : sstate) : Prop := {
  si_lock : ∀ j x c, sprocs s !! j = Some x → slk x = Some c ↔ ∃ y, scpus s !! c = Some y ∧ holds (ph y) j = true;
  si_on : ∀ c d y z j, scpus s !! c = Some y → scpus s !! d = Some z → on (ph y) = Some j → on (ph z) = Some j → c = d;
  si_fits : ∀ c y, scpus s !! c = Some y → cpu_fits (sprocs s) y;
  si_running : ∀ j x, sprocs s !! j = Some x → ss x = RUNNING → ∃ c y, scpus s !! c = Some y ∧ on (ph y) = Some j;
  si_ctx : ∀ j x i, sprocs s !! j = Some x → sctx x = In_sched By_exit i → ss x = ZOMBIE ∨ ss x = UNUSED;
}.

Definition mentions (p : cphase) (j : nat) : bool := holds p j || bool_decide (on p = Some j).

(** A CPU fits as long as the processes it is about keep their states. *)
Lemma cpu_fits_keep ps ps' y :
  cpu_fits ps y → length ps' = length ps →
  (∀ j x, mentions (ph y) j = true → ps !! j = Some x → ∃ x', ps' !! j = Some x' ∧ ss x' = ss x) → cpu_fits ps' y.
Proof.
  unfold cpu_fits, mentions. intros Hf Hl Hk.
  assert (Hs : ∀ j P, mentions (ph y) j = true → state_is ps j P → state_is ps' j P).
  { intros j P Hm (x & Hx & HP). destruct (Hk j x Hm Hx) as (x' & Hx' & He). exists x'. by rewrite He. }
  assert (Hb : ∀ i b, (∀ j, is_best b j = true → mentions (ph y) j = true) → best_ok ps i b → best_ok ps' i b).
  { intros i [[[m vr] ct]|] Hm; [|done]. intros [Hi Hx]. split; [done|]. apply Hs; [|done]. apply Hm. cbn. by apply bool_decide_eq_true_2. }
  unfold mentions in *. rewrite Hl. destruct (ph y) as [i b|i b|j|j|j|j|j k]; cbn [holds on] in *;
    repeat match goal with H : _ ∧ _ |- _ => destruct H end; split_and!; try done;
    try (apply Hb; [|done]; intros m Hm; by rewrite ?Hm, ?orb_true_r); apply Hs; [|done|..];
    rewrite ?bool_decide_eq_true_2 by done; try done; by rewrite orb_true_r.
Qed.

(** Another CPU that has to do with a process whose lock this CPU has or may take is running it. *)
Lemma other_mentions s c d z j x :
  sinv s → sprocs s !! j = Some x → slk x = None ∨ slk x = Some c → d ≠ c → scpus s !! d = Some z →
  holds (ph z) j = false ∧ (mentions (ph z) j = true → on (ph z) = Some j ∧ ss x = RUNNING).
Proof.
  intros [S1 S2 S3 S4 S5] Hj Hl Hd Hz. assert (Hh : holds (ph z) j = false).
  { destruct (holds (ph z) j) eqn:Hh; [|done]. assert (slk x = Some d) by (apply (S1 j x d Hj); by exists z).
    destruct Hl; congruence. }
  split; [done|]. unfold mentions. rewrite Hh. cbn [orb]. intros Hon%bool_decide_eq_true. split; [done|].
  pose proof (S3 d z Hz) as Hf. unfold cpu_fits in Hf. destruct (ph z); cbn [holds on] in *; try done;
    injection Hon as ->; try (by rewrite bool_decide_eq_true_2 in Hh by done); destruct Hf as (_ & Hf);
    [destruct Hf as (_ & Hf)|]; destruct Hf as (x' & Hx' & He); congruence.
Qed.

(** One CPU and one process change. *)
Lemma sinv_step s c y y' j x x' :
  sinv s → scpus s !! c = Some y → sprocs s !! j = Some x → slk x = None ∨ slk x = Some c →
  slk x' = (if holds (ph y') j then Some c else None) → (∀ m, m ≠ j → holds (ph y') m = holds (ph y) m) →
  on (ph y') = on (ph y) ∨ on (ph y') = None ∧ ss x' ≠ RUNNING ∨ on (ph y') = Some j ∧ ss x ≠ RUNNING →
  (on (ph y) ≠ Some j → ss x = RUNNING → False) →
  (ss x' = RUNNING → on (ph y') = Some j) → (∀ m, on (ph y) = Some m → m = j) →
  (∀ i, sctx x' = In_sched By_exit i → ss x' = ZOMBIE ∨ ss x' = UNUSED) →
  cpu_fits (<[j := x']> (sprocs s)) y' → sinv (cpput s c y' j x').
Proof.
  intros Hi Hc Hj Hl Hl' Hh Hon Hnr Hrun Hm Hctx Hf. pose proof Hi as [S1 S2 S3 S4 S5].
  assert (Hother : ∀ d z, d ≠ c → scpus s !! d = Some z → holds (ph z) j = false ∧ on (ph z) ≠ Some j).
  { intros d z Hd Hz. destruct (other_mentions s c d z j x Hi Hj Hl Hd Hz) as [Hz1 Hz2]. split; [done|]. intros Hz3.
    destruct Hz2 as [_ Hr]; [unfold mentions; rewrite Hz3; by rewrite bool_decide_eq_true_2, orb_true_r|].
    destruct (decide (on (ph y) = Some j)) as [Hy|Hy]; [|by apply Hnr]. by destruct Hd; eapply S2. }
  split; cbn [cpput scpus sprocs].
  - intros m xm d [(<- & <- & _)|[Hmj Hmx]]%list_lookup_insert_Some.
    + rewrite Hl'. split.
      * destruct (holds (ph y') j) eqn:Hy; [|done]. intros [= <-]. exists y'. split; [|done].
        apply list_lookup_insert_eq. by eapply lookup_lt_Some.
      * intros (z & [(<- & <- & _)|[Hdc Hz]]%list_lookup_insert_Some & Hz2); [by rewrite Hz2|].
        destruct (Hother d z ltac:(done) Hz). congruence.
    + rewrite (S1 m xm d Hmx). split.
      * intros (z & Hz & Hz2). destruct (decide (d = c)) as [->|Hdc].
        -- exists y'. split; [apply list_lookup_insert_eq; by eapply lookup_lt_Some|]. rewrite Hh by done. congruence.
        -- exists z. by rewrite list_lookup_insert_ne.
      * intros (z & [(<- & <- & _)|[Hdc Hz]]%list_lookup_insert_Some & Hz2); [exists y; by rewrite <- Hh|by exists z].
  - assert (Hnew : ∀ d z m, d ≠ c → scpus s !! d = Some z → on (ph z) = Some m → on (ph y') = Some m → False).
    { intros d z m Hd Hz Hz1 Hy1. destruct Hon as [He|[[He _]|[He _]]]; [|congruence|].
      - rewrite He in Hy1. by destruct Hd; eapply S2.
      - rewrite He in Hy1. injection Hy1 as <-. by destruct (Hother d z Hd Hz). }
    intros d e z w m [(<- & <- & _)|[Hd Hz]]%list_lookup_insert_Some [(<- & <- & _)|[He Hw]]%list_lookup_insert_Some Hz1 Hw1;
      [done|by destruct (Hnew e w m)|by destruct (Hnew d z m)|by eapply S2].
  - intros d z [(<- & <- & _)|[Hd Hz]]%list_lookup_insert_Some; [done|].
    apply (cpu_fits_keep (sprocs s)); [by eapply S3|by rewrite length_insert|]. intros m xm Hmm Hmx.
    destruct (decide (m = j)) as [->|Hne]; [|exists xm; by rewrite list_lookup_insert_ne].
    destruct (other_mentions s c d z j x Hi Hj Hl ltac:(done) Hz) as [_ Hz2]. destruct (Hz2 Hmm). by destruct (Hother d z ltac:(done) Hz).
  - intros m xm [(<- & <- & _)|[Hmj Hmx]]%list_lookup_insert_Some Hr.
    + exists c, y'. split; [apply list_lookup_insert_eq; by eapply lookup_lt_Some|by apply Hrun].
    + destruct (S4 m xm Hmx Hr) as (d & z & Hz & Hz1). destruct (decide (d = c)) as [->|Hd].
      * replace z with y in * by congruence. by destruct Hmj; symmetry; apply Hm.
      * exists d, z. by rewrite list_lookup_insert_ne.
  - intros m xm i [(<- & <- & _)|[Hmj Hmx]]%list_lookup_insert_Some Hk; [by eapply Hctx|by eapply S5].
Qed.

(** Locks are taken or released. *)
Lemma sinv_locks s c y y' j x x' :
  sinv s → scpus s !! c = Some y → sprocs s !! j = Some x → slk x = None ∨ slk x = Some c →
  slk x' = (if holds (ph y') j then Some c else None) → (∀ m, m ≠ j → holds (ph y') m = holds (ph y) m) →
  on (ph y') = on (ph y) → ss x' = ss x → sctx x' = sctx x → cpu_fits (sprocs s) y' → sinv (cpput s c y' j x').
Proof.
  intros Hi Hc Hj Hl Hl' Hh Hon Hss Hctx Hf. pose proof Hi as [S1 S2 S3 S4 S5].
  assert (Hkeep : ∀ z, cpu_fits (sprocs s) z → cpu_fits (<[j := x']> (sprocs s)) z).
  { intros z Hz. apply (cpu_fits_keep (sprocs s)); [done|by rewrite length_insert|]. intros m xm _ Hmx.
    destruct (decide (m = j)) as [->|Hne]; [|exists xm; by rewrite list_lookup_insert_ne].
    exists x'. split; [apply list_lookup_insert_eq; by eapply lookup_lt_Some|congruence]. }
  assert (Hons : ∀ d z m, scpus (cpput s c y' j x') !! d = Some z → on (ph z) = Some m →
    ∃ z', scpus s !! d = Some z' ∧ on (ph z') = Some m).
  { intros d z m [(<- & <- & _)|[Hd Hz]]%list_lookup_insert_Some Hz1; [exists y; by rewrite <- Hon|by exists z]. }
  split.
  - cbn [cpput scpus sprocs]. intros m xm d [(<- & <- & _)|[Hmj Hmx]]%list_lookup_insert_Some.
    + rewrite Hl'. split.
      * destruct (holds (ph y') j) eqn:Hy; [|done]. intros [= <-]. exists y'. split; [|done].
        apply list_lookup_insert_eq. by eapply lookup_lt_Some.
      * intros (z & [(<- & <- & _)|[Hdc Hz]]%list_lookup_insert_Some & Hz2); [by rewrite Hz2|].
        destruct (other_mentions s c d z j x Hi Hj Hl ltac:(done) Hz). congruence.
    + rewrite (S1 m xm d Hmx). split.
      * intros (z & Hz & Hz2). destruct (decide (d = c)) as [->|Hdc].
        -- exists y'. split; [apply list_lookup_insert_eq; by eapply lookup_lt_Some|]. rewrite Hh by done. congruence.
        -- exists z. by rewrite list_lookup_insert_ne.
      * intros (z & [(<- & <- & _)|[Hdc Hz]]%list_lookup_insert_Some & Hz2); [exists y; by rewrite <- Hh|by exists z].
  - intros d e z w m Hz Hw Hz1 Hw1. destruct (Hons d z m Hz Hz1) as (z' & ? & ?), (Hons e w m Hw Hw1) as (w' & ? & ?). by eapply S2.
  - cbn [cpput scpus sprocs]. intros d z [(<- & <- & _)|[Hd Hz]]%list_lookup_insert_Some; apply Hkeep; [done|by eapply S3].
  - cbn [cpput scpus sprocs]. intros m xm Hmx Hr.
    assert (∃ xm', sprocs s !! m = Some xm' ∧ ss xm' = RUNNING) as (xm' & Hmx' & Hr').
    { apply list_lookup_insert_Some in Hmx as [(<- & <- & _)|[_ Hmx]]; [exists x; split; congruence|by exists xm]. }
    destruct (S4 m xm' Hmx' Hr') as (d & z & Hz & Hz1). destruct (decide (d = c)) as [->|Hd].
    + exists c, y'. split; [apply list_lookup_insert_eq; by eapply lookup_lt_Some|]. congruence.
    + exists d, z. by rewrite list_lookup_insert_ne.
  - cbn [cpput scpus sprocs]. intros m xm i [(<- & <- & _)|[Hmj Hmx]]%list_lookup_insert_Some Hk; [|by eapply S5].
    rewrite Hss. eapply S5; [done|]. by rewrite <- Hctx.
Qed.

(** Only the CPU changes, or a field of its process nobody else looks at. *)
Lemma sinv_cpu s c y y' :
  sinv s → scpus s !! c = Some y → (∀ m, holds (ph y') m = holds (ph y) m) → on (ph y') = on (ph y) →
  cpu_fits (sprocs s) y' → sinv (cput s c y').
Proof.
  intros [S1 S2 S3 S4 S5] Hc Hh Hon Hf.
  assert (Hold : ∀ d z, scpus (cput s c y') !! d = Some z →
    ∃ z', scpus s !! d = Some z' ∧ on (ph z') = on (ph z) ∧ ∀ m, holds (ph z') m = holds (ph z) m).
  { intros d z [(<- & <- & _)|[Hd Hz]]%list_lookup_insert_Some; [by exists y|by exists z]. }
  assert (Hnew : ∀ d z, scpus s !! d = Some z →
    ∃ z', scpus (cput s c y') !! d = Some z' ∧ on (ph z') = on (ph z) ∧ ∀ m, holds (ph z') m = holds (ph z) m).
  { intros d z Hz. destruct (decide (d = c)) as [->|Hd].
    - exists y'. replace z with y by congruence. split; [|done]. apply list_lookup_insert_eq. by eapply lookup_lt_Some.
    - exists z. cbn [cput scpus]. by rewrite list_lookup_insert_ne. }
  split.
  - intros j x d Hx. rewrite (S1 j x d Hx). split; intros (z & Hz & Hz1).
    + destruct (Hnew d z Hz) as (z' & ? & _ & Hz2). exists z'. by rewrite Hz2.
    + destruct (Hold d z Hz) as (z' & ? & _ & Hz2). exists z'. by rewrite Hz2.
  - intros d e z w m Hz Hw Hz1 Hw1. destruct (Hold d z Hz) as (z' & ? & ? & _), (Hold e w Hw) as (w' & ? & ? & _).
    eapply (S2 d e z' w' m); congruence.
  - intros d z [(<- & <- & _)|[Hd Hz]]%list_lookup_insert_Some; [done|by eapply S3].
  - intros m xm Hmx Hr. destruct (S4 m xm Hmx Hr) as (d & z & Hz & Hz1). destruct (Hnew d z Hz) as (z' & ? & ? & _).
    exists d, z'. split; congruence.
  - done.
Qed.

(** A process nobody is on changes under its lock. *)
Lemma sinv_visit s c y y' j x x' :
  sinv s → scpus s !! c = Some y → ph y' = ph y → cpu_fits (sprocs s) y' → sprocs s !! j = Some x →
  slk x = None → slk x' = None → ss x ≠ RUNNING → ss x' ≠ RUNNING →
  (∀ i, sctx x' = In_sched By_exit i → ss x' = ZOMBIE ∨ ss x' = UNUSED) → sinv (cpput s c y' j x').
Proof.
  intros Hi Hc Hp Hf Hj Hl Hl' Hs Hs' Hctx. pose proof (sinv_cpu s c y y' Hi Hc ltac:(by rewrite Hp) ltac:(by rewrite Hp) Hf) as Hi'.
  change (cpput s c y' j x') with (mk_sstate (scpus (cput s c y')) (<[j := x']> (sprocs s))).
  change (sprocs s) with (sprocs (cput s c y')) in *. set (s1 := cput s c y') in *. clearbody s1.
  pose proof Hi' as [S1 S2 S3 S4 S5].
  assert (Hno : ∀ d z, scpus s1 !! d = Some z → holds (ph z) j = false ∧ mentions (ph z) j = false).
  { intros d z Hz. destruct (other_mentions s1 (S d) d z j x Hi' Hj (or_introl Hl) ltac:(lia) Hz) as [H1 H2]. split; [done|].
    destruct (mentions (ph z) j); [|done]. by destruct H2. }
  split; cbn [scpus sprocs].
  - intros m xm d [(<- & <- & _)|[Hmj Hmx]]%list_lookup_insert_Some; [|by apply S1].
    rewrite Hl'. split; [done|]. intros (z & Hz & Hz1). destruct (Hno d z Hz). congruence.
  - exact S2.
  - intros d z Hz. apply (cpu_fits_keep (sprocs s1)); [by eapply S3|by rewrite length_insert|]. intros m xm Hm Hmx.
    destruct (Hno d z Hz) as [_ Hmj]. exists xm. rewrite list_lookup_insert_ne; [done|]. intros ->. congruence.
  - intros m xm [(<- & <- & _)|[Hmj Hmx]]%list_lookup_insert_Some Hr; [done|by eapply S4].
  - intros m xm i [(<- & <- & _)|[Hmj Hmx]]%list_lookup_insert_Some Hk; [by eapply Hctx|by eapply S5].
Qed.

(** ** Every step keeps it, and none panics *)

Lemma cpop_ok y : sie y = false → 1 ≤ snoff y →
  cpop y = Ok (mk_scpu (ph y) (snoff y - 1) (sintena y) ((snoff y - 1 =? 0) && sintena y)).
Proof. intros H1 H2. unfold cpop. by rewrite H1, (proj2 (Z.ltb_ge _ _)) by lia. Qed.

Lemma pop_ie b n i : n ≠ 0 → (n =? 0) && i = b → b = false.
Proof. intros Hn <-. by rewrite (proj2 (Z.eqb_neq n 0)). Qed.

(** [myproc] in a process gives the process it runs and leaves the interrupt state alone. *)
Lemma myproc_run ps y p : cpu_fits ps y → ph y = Run p →
  ∃ z, myproc y = Ok (Some p, z) ∧ ph z = ph y ∧ snoff z = snoff y ∧ sie z = sie y.
Proof.
  intros Hf Hp. unfold cpu_fits in Hf. rewrite Hp in Hf. destruct Hf as (F1 & F2 & _). unfold myproc.
  rewrite cpop_ok by (cbn; (done || lia)). eexists. split; [cbn; rewrite Hp; reflexivity|]. cbn [ph snoff sie cpush sintena].
  replace (snoff y + 1 - 1) with (snoff y) by lia. split_and!; [done|done|].
  destruct (Z.eqb_spec (snoff y) 0); [done|]. cbn. by rewrite F2.
Qed.

(** The lock of a process a CPU's phase says it holds. *)
Lemma holder s c y j x : sinv s → scpus s !! c = Some y → holds (ph y) j = true → sprocs s !! j = Some x → slk x = Some c.
Proof. intros Hi Hc Hh Hj. apply (si_lock _ Hi j x c Hj). by exists y. Qed.

Lemma is_best_true b j : is_best b j = true ↔ ∃ vr ct, b = Some (j, vr, ct).
Proof.
  destruct b as [[[m vr] ct]|]; cbn; [|split; [done|by intros (? & ? & ?)]]. rewrite bool_decide_eq_true. split.
  - intros ->. by exists vr, ct.
  - by intros (? & ? & [= -> _ _]).
Qed.

Lemma best_lt ps i b j : best_ok ps i b → is_best b j = true → (j < i)%nat.
Proof. intros Hb (vr & ct & ->)%is_best_true. by destruct Hb. Qed.

Lemma best_weaken ps i b : best_ok ps i b → best_ok ps (S i) b.
Proof. destruct b as [[[m vr] ct]|]; [|done]. intros [Hm Hs]. split; [lia|done]. Qed.

(** A CPU that does not hold a lock gets past the test of [acquire]. *)
Lemma acquire_ok s c y j x k o :
  sinv s → scpus s !! c = Some y → sprocs s !! j = Some x → holds (ph y) j = false →
  acquire c x k = Some o → slk x = None ∧ o = k.
Proof.
  intros Hi Hc Hx Hh Ha. unfold acquire in Ha. destruct (slk x) as [d|] eqn:Hl; [|by injection Ha as <-].
  destruct (bool_decide_reflect (d = c)) as [->|]; [|done]. apply (si_lock _ Hi j x c Hx) in Hl as (z & Hz & Hhz). congruence.
Qed.

Lemma scan_take_ok s c y i b x o :
  sinv s → scpus s !! c = Some y → ph y = Scan i b → sprocs s !! i = Some x →
  acquire c x (Ok (cpput s c (goto (Comparing i b) (cpush y)) i (set_slk (Some c) x))) = Some o → ∃ s', o = Ok s' ∧ sinv s'.
Proof.
  intros Hi Hc Hp Hx Ha. assert (Hno : holds (ph y) i = false).
  { pose proof (si_fits _ Hi c y Hc) as Hf. unfold cpu_fits in Hf. rewrite Hp in *. destruct Hf as (_ & _ & _ & _ & Hb).
    cbn. destruct (is_best b i) eqn:He; [|done]. pose proof (best_lt _ _ _ _ Hb He). lia. }
  destruct (acquire_ok s c y i x _ _ Hi Hc Hx Hno Ha) as [Hl ->]. eexists. split; [done|]. pose proof (si_fits _ Hi c y Hc) as Hf. unfold cpu_fits in Hf. rewrite Hp in Hf. destruct Hf as (F1 & F2 & F3 & F5 & F4).
  apply (sinv_locks s c y _ i x); try done; [by left| | | |].
  - cbn [goto ph holds]. by rewrite bool_decide_eq_true_2.
  - intros m Hm. cbn [goto ph holds]. rewrite Hp. cbn [holds]. by rewrite bool_decide_eq_false_2.
  - by rewrite Hp.
  - unfold cpu_fits. cbn [goto ph cpush snoff sie]. split_and!; [by eapply lookup_lt_Some|lia|done| |done].
    cbn [goto cpush sintena]. destruct F5 as [->|F5]; [by rewrite F2|]. by destruct (_ =? _).
Qed.

Lemma decide_ok s c o :
  sinv s → sched_step s (Decide c) = Some o → ∃ s', o = Ok s' ∧ sinv s'.
Proof.
  intros Hi (y & Hc & Hs)%bind_Some. pose proof (si_fits _ Hi c y Hc) as Hf. unfold cpu_fits in Hf.
  destruct (ph y) as [| i b | | | | |] eqn:Hp; try done. destruct Hf as (F1 & F2 & F3 & F5 & F4).
  apply bind_Some in Hs as (x & Hx & Hs).
  destruct (better x b) eqn:Hb.
  - assert (Hrun : ss x = RUNNABLE) by (unfold better in Hb; by apply andb_true_iff in Hb as [?%bool_decide_eq_true _]).
    destruct b as [[[m vr] ct]|].
    + apply bind_Some in Hs as (xm & Hxm & [= <-]). destruct F4 as [Hmi Hm].
      assert (Hh : holds (ph y) m = true) by (rewrite Hp; cbn; by rewrite (bool_decide_eq_true_2 (m = m)), orb_true_r).
      pose proof (holder s c y m xm Hi Hc Hh Hxm) as Hlk. unfold unlock. rewrite bool_decide_eq_true_2 by done.
      rewrite cpop_ok by (cbn in *; (done || lia)). eexists. split; [reflexivity|]. cbn [goto ph snoff sintena sie].
      apply (sinv_locks s c y _ m xm); try done; [by right| | | |].
      * cbn [ph holds is_best slk set_slk]. by rewrite bool_decide_eq_false_2 by lia.
      * intros k Hk. rewrite Hp. cbn [ph holds is_best]. by rewrite (bool_decide_eq_false_2 (m = k)), orb_false_r.
      * by rewrite Hp.
      * unfold cpu_fits. cbn [ph snoff sie nbest] in *. rewrite F2. cbn. split_and!; [lia|done|done|by right|lia|]. by exists x.
    + injection Hs as <-. eexists. split; [reflexivity|]. apply (sinv_cpu s c y); try done.
      * intros k. rewrite Hp. cbn. by rewrite orb_false_r.
      * by rewrite Hp.
      * unfold cpu_fits. cbn [goto ph snoff sie nbest] in *. split_and!; [lia|lia|done|by right|]. split; [lia|by exists x].
  - injection Hs as <-. assert (Hh : holds (ph y) i = true) by (rewrite Hp; cbn; by rewrite bool_decide_eq_true_2).
    pose proof (holder s c y i x Hi Hc Hh Hx) as Hlk. unfold unlock. rewrite bool_decide_eq_true_2 by done.
    rewrite cpop_ok by (cbn; (done || (destruct b; cbn in F2; lia))). eexists. split; [reflexivity|]. cbn [goto ph snoff sintena sie].
    apply (sinv_locks s c y _ i x); try done; [by right| | | |].
    + cbn [ph holds slk set_slk]. destruct (is_best b i) eqn:He; [|done]. pose proof (best_lt _ _ _ _ F4 He). lia.
    + intros k Hk. rewrite Hp. cbn [ph holds]. by rewrite bool_decide_eq_false_2.
    + by rewrite Hp.
    + unfold cpu_fits. cbn [ph snoff sie sintena]. rewrite F2, F5, andb_false_r. split_and!; [lia|lia|done|by right|by apply best_weaken].
Qed.

Lemma choose_ok s c o : sinv s → sched_step s (Choose c) = Some o → ∃ s', o = Ok s' ∧ sinv s'.
Proof.
  intros Hi (y & Hc & Hs)%bind_Some. pose proof (si_fits _ Hi c y Hc) as Hf. unfold cpu_fits in Hf.
  destruct (ph y) as [i b| | | | | |] eqn:Hp; try done. destruct Hf as (F1 & F2 & F3 & F5 & F4).
  destruct (i <? _)%nat; [done|]. destruct b as [[[m vr] ct]|].
  - apply bind_Some in Hs as (x & Hx & [= <-]). eexists. split; [reflexivity|]. destruct F4 as [Hmi (x' & Hx' & Hr)].
    replace x' with x in * by congruence. clear x' Hx'.
    assert (Hh : holds (ph y) m = true) by (rewrite Hp; cbn; by rewrite bool_decide_eq_true_2).
    pose proof (holder s c y m x Hi Hc Hh Hx) as Hlk.
    apply (sinv_step s c y _ m x); try done.
    + by right.
    + cbn. by rewrite bool_decide_eq_true_2.
    + intros k Hk. rewrite Hp. done.
    + right. right. split; [done|congruence].
    + congruence.
    + intros k. by rewrite Hp.
    + intros k Hk. cbn [set_ss sctx] in Hk. destruct (si_ctx _ Hi m x k Hx Hk); congruence.
    + unfold cpu_fits. cbn [goto ph snoff sie nbest] in *. split_and!; [done|done|].
      exists (set_ss RUNNING x). split; [apply list_lookup_insert_eq; by eapply lookup_lt_Some|done].
  - injection Hs as <-. eexists. split; [reflexivity|]. apply (sinv_cpu s c y); try done.
    + intros k. by rewrite Hp.
    + by rewrite Hp.
    + unfold cpu_fits. cbn [goto ph snoff sie nbest best_ok] in *. split_and!; try done; try lia; by left.
Qed.

Lemma sched_back_ok s c o : sinv s → sched_step s (Back c) = Some o → ∃ s', o = Ok s' ∧ sinv s'.
Proof.
  intros Hi (y & Hc & Hs)%bind_Some. pose proof (si_fits _ Hi c y Hc) as Hf. unfold cpu_fits in Hf.
  destruct (ph y) as [| |p| | | |] eqn:Hp; try done. destruct Hf as (F1 & F2 & F3).
  apply bind_Some in Hs as (x & Hx & [= <-]).
  assert (Hh : holds (ph y) p = true) by (rewrite Hp; cbn; by rewrite bool_decide_eq_true_2).
  rewrite bool_decide_eq_true_2 by (by eapply holder). rewrite cpop_ok by (done || lia). eexists. split; [reflexivity|].
  apply (sinv_locks s c y _ p x); try done.
  - right. by eapply holder.
  - intros k Hk. rewrite Hp. cbn. by rewrite bool_decide_eq_false_2.
  - by rewrite Hp.
  - unfold cpu_fits. cbn [ph snoff sie nbest best_ok]. rewrite F1. split_and!; try done; try lia; by left.
Qed.

(** The lock of the process the CPU was switched to is released, with the [intena] of its frame. *)
Lemma resume_ok_at s c y p x ph' i :
  sinv s → scpus s !! c = Some y → ph y = Switched_in p → sprocs s !! p = Some x → (ph' = Run p ∨ ph' = Waking p) →
  ∃ s', unlock s c (mk_scpu ph' (snoff y) i (sie y)) p x = Ok s' ∧ sinv s'.
Proof.
  intros Hi Hc Hp Hx Hph. pose proof (si_fits _ Hi c y Hc) as Hf. unfold cpu_fits in Hf. rewrite Hp in Hf. destruct Hf as (F1 & F2 & F3).
  assert (Hh : holds (ph y) p = true) by (rewrite Hp; cbn; by rewrite bool_decide_eq_true_2).
  unfold unlock. rewrite bool_decide_eq_true_2 by (by eapply holder). rewrite cpop_ok by (cbn; (done || lia)). eexists. split; [reflexivity|].
  cbn [ph snoff sintena sie]. rewrite F1. apply (sinv_locks s c y _ p x); try done.
  - right. by eapply holder.
  - by destruct Hph as [-> | ->].
  - intros k Hk. rewrite Hp. cbn [ph]. destruct Hph as [-> | ->]; cbn; by rewrite bool_decide_eq_false_2.
  - rewrite Hp. by destruct Hph as [-> | ->].
  - destruct Hph as [-> | ->]; unfold cpu_fits; cbn; split_and!; done.
Qed.

Lemma resume_ok s c o : sinv s → sched_step s (Resume c) = Some o → ∃ s', o = Ok s' ∧ sinv s'.
Proof.
  intros Hi (y & Hc & Hs)%bind_Some. pose proof (si_fits _ Hi c y Hc) as Hf. unfold cpu_fits in Hf.
  destruct (ph y) as [| | |p| | |] eqn:Hp; try done. apply bind_Some in Hs as (x & Hx & [= <-]).
  destruct Hf as (_ & _ & x' & Hx' & Hr). replace x' with x in * by congruence.
  destruct (sctx x) as [|[] i] eqn:Hk.
  - destruct (resume_ok_at s c y p x (Run p) (sintena y) Hi Hc Hp Hx) as (s' & E & H'); [by left|]. by exists s'.
  - destruct (resume_ok_at s c y p x (Run p) i Hi Hc Hp Hx) as (s' & E & H'); [by left|]. by exists s'.
  - destruct (resume_ok_at s c y p x (Waking p) i Hi Hc Hp Hx) as (s' & E & H'); [by right|]. by exists s'.
  - destruct (si_ctx _ Hi p x i Hx Hk); congruence.
Qed.

Lemma leave_ok s c y k o :
  sinv s → scpus s !! c = Some y → snoff y = (match k with By_yield => 0 | _ => 1 end) → leave s c y k = Some o → ∃ s', o = Ok s' ∧ sinv s'.
Proof.
  intros Hi Hc Hn Hs. pose proof (si_fits _ Hi c y Hc) as Hf. unfold cpu_fits in Hf. unfold leave in Hs.
  destruct (ph y) as [| | | |p| |] eqn:Hp; try done. apply bind_Some in Hs as (x & Hx & Hs). destruct Hf as (F1 & F2 & F3).
  apply (acquire_ok s c y p x) in Hs as [Hl ->]; [|done..|by rewrite Hp]. destruct F3 as (x' & Hx' & Hr). replace x' with x in * by congruence. clear x' Hx'.
  assert (Hgone : gone k ≠ RUNNING) by by destruct k.
  assert (Hgo : ∀ i, sinv (cpput s c (mk_scpu (Leaving p k) 1 i false) p (set_slk (Some c) (set_ss (gone k) x)))).
  { intros i. apply (sinv_step s c y _ p x); try done.
    - by left.
    - cbn. by rewrite bool_decide_eq_true_2.
    - intros m Hm. rewrite Hp. cbn. by rewrite bool_decide_eq_false_2.
    - left. by rewrite Hp.
    - intros Hon. by rewrite Hp in Hon.
    - intros m. rewrite Hp. by intros [= <-].
    - intros j Hk. cbn [set_slk set_ss sctx] in Hk. destruct (si_ctx _ Hi p x j Hx Hk); congruence.
    - unfold cpu_fits. cbn [ph snoff sie]. split_and!; [done|done|]. exists (set_slk (Some c) (set_ss (gone k) x)).
      split; [apply list_lookup_insert_eq; by eapply lookup_lt_Some|done]. }
  destruct k; unfold goto, cpush; cbn [ph snoff sintena sie]; rewrite Hn.
  - eexists. split; [reflexivity|]. apply Hgo.
  - rewrite cpop_ok by done. eexists. split; [reflexivity|]. apply Hgo.
  - rewrite cpop_ok by done. eexists. split; [reflexivity|]. apply Hgo.
Qed.

Lemma sched_ok s c y o : sinv s → scpus s !! c = Some y → sched s c y = Some o → ∃ s', o = Ok s' ∧ sinv s'.
Proof.
  intros Hi Hc Hs. pose proof (si_fits _ Hi c y Hc) as Hf. unfold cpu_fits in Hf. unfold sched in Hs.
  destruct (ph y) as [| | | | | |p k] eqn:Hp; try done. apply bind_Some in Hs as (x & Hx & [= <-]). destruct Hf as (F1 & F2 & F3).
  destruct F3 as (x' & Hx' & Hr). replace x' with x in * by congruence. clear x' Hx'.
  assert (Hh : holds (ph y) p = true) by (rewrite Hp; cbn; by rewrite bool_decide_eq_true_2).
  pose proof (holder s c y p x Hi Hc Hh Hx) as Hlk. rewrite bool_decide_eq_true_2 by done. rewrite F1, F2. cbn [negb Z.eqb Pos.eqb].
  assert (Hgone : ss x ≠ RUNNING) by (rewrite <- Hr; by destruct k). rewrite bool_decide_eq_false_2 by done.
  eexists. split; [reflexivity|]. apply (sinv_step s c y _ p x); try done.
  - by right.
  - cbn. by rewrite bool_decide_eq_true_2.
  - intros m Hm. by rewrite Hp.
  - right. by left.
  - intros m. rewrite Hp. by intros [= <-].
  - intros i Hk. cbn [set_sctx sctx ss] in *. injection Hk as -> _. left. by rewrite <- Hr.
  - unfold cpu_fits. cbn [goto ph snoff sie]. split_and!; [done|done|]. eexists.
    split; [apply list_lookup_insert_eq; by eapply lookup_lt_Some|done].
Qed.

Lemma inside_ok s c y idle j from f o :
  sinv s → scpus s !! c = Some y → from ≠ RUNNING → (∀ x, ss (f x) ≠ RUNNING ∧ slk (f x) = slk x) →
  (∀ x i, sprocs s !! j = Some x → ss x = from → sctx (f x) = In_sched By_exit i → ss (f x) = ZOMBIE ∨ ss (f x) = UNUSED) →
  inside s c y idle j from f = Some o → ∃ s', o = Ok s' ∧ sinv s'.
Proof.
  intros Hi Hc Hfrom Hff Hctx (x & Hx & Hs)%bind_Some. pose proof (si_fits _ Hi c y Hc) as Hf.
  destruct (visitor y idle j) eqn:Hv; [|done]. apply (acquire_ok s c y j x) in Hs as [Hl ->]; [|done..|];
    [|unfold visitor in Hv; by destruct (ph y) as [[|i] []| | | |p| |]].
  assert (Hn : 0 ≤ snoff y ∧ (snoff y ≠ 0 → sie y = false)).
  { unfold cpu_fits, visitor in *. destruct (ph y) as [[|i] []| | | |p| |]; try done; cbn [nbest] in Hf;
      repeat match goal with H : _ ∧ _ |- _ => destruct H end; split; try done; lia. }
  rewrite cpop_ok by (cbn; (done || lia)). cbn [cpush ph snoff sintena sie]. replace (snoff y + 1 - 1) with (snoff y) by lia.
  set (y' := mk_scpu _ _ _ _). assert (Hf' : cpu_fits (sprocs s) y').
  { unfold cpu_fits, visitor in *. subst y'. cbn [ph snoff sie sintena].
    destruct (Z.eqb_spec (snoff y) 0) as [H0|H0]; cbn [andb]; destruct (ph y) as [[|i] []| | | |p| |]; try done;
      repeat match goal with H : _ ∧ _ |- _ => destruct H end; by split_and!; auto. }
  destruct (bool_decide_reflect (ss x = from)) as [He|_]; (eexists; split; [reflexivity|]).
  - destruct (Hff x) as [F1 F2]. apply (sinv_visit s c y _ j x); try done; [congruence|congruence|intros i; by apply Hctx].
  - by apply (sinv_cpu s c y y').
Qed.

(** A CPU in [Run] or [Waking], on its own. *)
Lemma run_ok s c y p y' :
  sinv s → scpus s !! c = Some y → ph y = Run p ∨ ph y = Waking p → ph y' = Run p →
  0 ≤ snoff y' → (snoff y' ≠ 0 → sie y' = false) → sinv (cput s c y').
Proof.
  intros Hi Hc Hp Hp' Hn Hie. pose proof (si_fits _ Hi c y Hc) as Hf. unfold cpu_fits in Hf.
  apply (sinv_cpu s c y y' Hi Hc).
  - intros m. rewrite Hp'. by destruct Hp as [-> | ->].
  - rewrite Hp'. by destruct Hp as [-> | ->].
  - unfold cpu_fits. rewrite Hp'. destruct Hp as [Hp|Hp]; rewrite Hp in Hf; by destruct_and!.
Qed.

(** [vruntime] is charged without the lock. *)
Lemma charge_ok s c y p x vr :
  sinv s → scpus s !! c = Some y → sprocs s !! p = Some x → sinv (cpput s c y p (set_svr vr x)).
Proof.
  intros [S1 S2 S3 S4 S5] Hc Hx. unfold cpput. rewrite list_insert_id by done.
  assert (Hold : ∀ j z, <[p := set_svr vr x]> (sprocs s) !! j = Some z →
    ∃ z', sprocs s !! j = Some z' ∧ slk z = slk z' ∧ ss z = ss z' ∧ sctx z = sctx z').
  { intros j z [(<- & <- & _)|[_ Hz]]%list_lookup_insert_Some; [by exists x|by exists z]. }
  split; cbn [scpus sprocs].
  - intros j z d Hz. destruct (Hold j z Hz) as (z' & Hz' & -> & _). by apply S1.
  - done.
  - intros d z Hz. apply (cpu_fits_keep (sprocs s)); [by eapply S3|by rewrite length_insert|]. intros j w _ Hw.
    destruct (decide (j = p)) as [->|Hne]; [|exists w; by rewrite list_lookup_insert_ne].
    exists (set_svr vr x). split; [apply list_lookup_insert_eq; by eapply lookup_lt_Some|]. by replace w with x by congruence.
  - intros j z Hz Hr. destruct (Hold j z Hz) as (z' & Hz' & _ & He & _). eapply S4; [done|congruence].
  - intros j z i Hz Hk. destruct (Hold j z Hz) as (z' & Hz' & _ & -> & He). eapply S5; [done|by rewrite <- He].
Qed.

Lemma sched_step_ok s a o : sinv s → keeps_count s a = true → sched_step s a = Some o → ∃ s', o = Ok s' ∧ sinv s'.
Proof.
  intros Hi Hk Hs. destruct a as [c|c|c|c|c|c|c|c|c|c|c vr|c|c|c b|c j vr|c j vr ct|c j|c j];
    try (first [by eapply decide_ok | by eapply choose_ok | by eapply sched_back_ok | by eapply resume_ok]);
    apply bind_Some in Hs as (y & Hc & Hs); cbn [keeps_count] in Hk; rewrite ?Hc in Hk;
    try (first [eapply (leave_ok s c y _ _ Hi Hc); [|exact Hs]; by apply Z.eqb_eq | by eapply sched_ok]).
  - destruct (ph y) as [i b| | | | | |] eqn:Hp; try done. apply bind_Some in Hs as (x & Hx & Hs). by eapply scan_take_ok.
  - destruct (ph y) as [| | | | |p|] eqn:Hp; try done. injection Hs as <-. eexists. split; [done|].
    pose proof (si_fits _ Hi c y Hc) as Hf. unfold cpu_fits in Hf. rewrite Hp in Hf. destruct Hf as [Hn _].
    apply (run_ok s c y p); try done; [by right|cbn; lia].
  - destruct (ph y) as [| | | |p| |]; try done. apply bind_Some in Hs as (x & Hx & [= <-]). eexists. split; [done|]. by apply charge_ok.
  - destruct (ph y) as [| | | |p| |] eqn:Hp; try done. injection Hs as <-. eexists. split; [done|].
    pose proof (si_fits _ Hi c y Hc) as Hf. unfold cpu_fits in Hf. rewrite Hp in Hf. destruct Hf as [Hn _].
    apply (run_ok s c y p); try done; [by left|cbn; lia].
  - destruct (ph y) as [| | | |p| |] eqn:Hp; try done. pose proof (si_fits _ Hi c y Hc) as Hf. unfold cpu_fits in Hf. rewrite Hp in Hf.
    destruct Hf as (Hn & Hie & _). apply Z.leb_le in Hk. injection Hs as <-.
    rewrite cpop_ok by (first [by apply Hie; lia | lia]). eexists. split; [done|]. apply (run_ok s c y p); try done; [by left|cbn; lia|].
    cbn. intros H1. by rewrite (proj2 (Z.eqb_neq _ 0)).
  - destruct (ph y) as [| | | |p| |] eqn:Hp; try done. apply Z.eqb_eq in Hk. injection Hs as <-. eexists. split; [done|].
    apply (run_ok s c y p); try done; [by left|cbn; lia].
  - refine (inside_ok _ _ _ _ _ _ _ _ Hi Hc _ _ _ Hs); [done|done|]. intros x i Hx Hr He. cbn in *. destruct (si_ctx _ Hi j x i Hx He); congruence.
  - by refine (inside_ok _ _ _ _ _ _ _ _ Hi Hc _ _ _ Hs).
  - refine (inside_ok _ _ _ _ _ _ _ _ Hi Hc _ _ _ Hs); [done|done|]. intros x i Hx Hr He. cbn in *. destruct (si_ctx _ Hi j x i Hx He); congruence.
  - refine (inside_ok _ _ _ _ _ _ _ _ Hi Hc _ _ _ Hs); [done|done|]. intros x i Hx Hr He. by right.
Qed.

Lemma sboot_cpu n m c y : scpus (sboot n m) !! c = Some y → y = mk_scpu (Scan 0 None) 0 false false.
Proof. by intros [-> _]%lookup_replicate. Qed.

Lemma sboot_proc n m j x : sprocs (sboot n m) !! j = Some x → ss x ≠ RUNNING ∧ slk x = None ∧ sctx x = Forkret.
Proof. destruct j as [|j]; cbn; [by intros [= <-]|]. by intros [-> _]%lookup_replicate. Qed.

Lemma sboot_ok n m : sinv (sboot n m).
Proof.
  split.
  - intros j x c Hx. destruct (sboot_proc _ _ _ _ Hx) as (_ & -> & _). split; [done|]. by intros (y & ->%sboot_cpu & ?).
  - by intros c d y z j ->%sboot_cpu.
  - intros c y ->%sboot_cpu. unfold cpu_fits. cbn. split_and!; try done; try lia; by left.
  - by intros j x [? _]%sboot_proc.
  - intros j x i (_ & _ & ->)%sboot_proc. done.
Qed.

Lemma ssteps_ok s tr s' : sinv s → ssteps s tr s' → sinv s'.
Proof. intros Hi. induction 1 as [|s tr s1 a s2 _ IH Hk Hs]; [done|]. destruct (sched_step_ok s1 a _ (IH Hi) Hk Hs) as (s' & [= ->] & ?). done. Qed.

(** C7: the scheduler runs a process on one CPU at a time.  In a state reached from boot, by any
    number of CPUs that scan the table, switch, yield, sleep, exit and wake in any order, with
    callers that keep their count of spinlocks ([keeps_count]), no two CPUs are on the kernel stack
    of the same process; no step of such a caller, and no step of the scheduler, panics: a CPU does
    not acquire the lock of a process it already holds, the tests of [sched] and [pop_off] hold, and
    an exiting process is not resumed; and when the parent frees a zombie, no CPU is on its stack or
    has yet to come back from it. *)
Theorem one_cpu_per_process n m tr s :
  ssteps (sboot n m) tr s →
  (∀ c d y z j, scpus s !! c = Some y → scpus s !! d = Some z → on (ph y) = Some j → on (ph z) = Some j → c = d) ∧
  (∀ a, keeps_count s a = true → sched_step s a ≠ Some Panic) ∧
  (∀ c j s' d z x, sched_step s (Reap c j) = Some (Ok s') → sprocs s !! j = Some x → ss x = ZOMBIE →
    scpus s !! d = Some z → on (ph z) ≠ Some j ∧ holds (ph z) j = false).
Proof.
  intros Hs%ssteps_ok; [|apply sboot_ok]. split_and!; [apply Hs| |].
  - intros a Hk Ha. by destruct (sched_step_ok s a _ Hs Hk Ha) as (s' & ? & _).
  - intros c j s' d z x Ha Hx Hz Hd. cbn in Ha. apply bind_Some in Ha as (y & Hc & (x' & Hx' & Ha)%bind_Some).
    replace x' with x in Ha by congruence. destruct (visitor y false j); [|done]. unfold acquire in Ha. destruct (slk x) as [e|] eqn:Hl; [by destruct (bool_decide _)|].
    destruct (other_mentions s (S d) d z j x Hs Hx (or_introl Hl) ltac:(lia) Hd) as [H1 H2]. split; [|done].
    intros Hon. destruct H2 as [_ Hr]; [|congruence]. unfold mentions. by rewrite Hon, bool_decide_eq_true_2, orb_true_r.
Qed.

(** ** The locks come free *)

(** The CPU of a step of [scheduler] or [sched] itself. *)
Definition mover (a : slabel) : option nat :=
  match a with
  | Take c | Decide c | Choose c | Back c | Resume c | Swtch c => Some c
  | _ => None
  end.

Definition moves (a : slabel) (p q : cphase) : Prop :=
  match a, p with
  | Take _, Scan i b => q = Comparing i b
  | Decide _, Comparing i b => q = Scan (S i) b ∨ ∃ vr ct, q = Scan (S i) (Some (i, vr, ct))
  | Choose _, Scan _ None | Back _, Switched_out _ => q = Scan 0 None
  | Choose _, Scan _ (Some (m, _, _)) => q = Switched_in m
  | Resume _, Switched_in i => q = Run i ∨ q = Waking i
  | Swtch _, Leaving i _ => q = Switched_out i
  | _, _ => False
  end.

Lemma mover_keeps s a c : mover a = Some c → keeps_count s a = true.
Proof. by destruct a. Qed.

Lemma cpop_ph y z : cpop y = Ok z → ph z = ph y.
Proof. unfold cpop. destruct (sie y); [done|]. by destruct (snoff y <? 1); [|intros [= <-]]. Qed.

Lemma unlock_moves s c y j x s' :
  unlock s c y j x = Ok s' → ∃ y', scpus s' = <[c := y']> (scpus s) ∧ ph y' = ph y ∧ length (sprocs s') = length (sprocs s).
Proof.
  unfold unlock. destruct (bool_decide _); [|done]. destruct (cpop y) as [z|] eqn:Hz; [|done]. intros [= <-].
  exists z. split_and!; [done|by apply cpop_ph|apply length_insert].
Qed.

(** A step of the scheduler moves one CPU, and nobody else. *)
Lemma mover_moves s a c s' :
  mover a = Some c → sched_step s a = Some (Ok s') →
  ∃ y y', scpus s !! c = Some y ∧ scpus s' = <[c := y']> (scpus s) ∧ length (sprocs s') = length (sprocs s) ∧ moves a (ph y) (ph y').
Proof.
  intros Ha Hs. destruct a; try done; injection Ha as ->; apply bind_Some in Hs as (y & Hc & Hs); exists y;
    try (unfold sched in Hs); destruct (ph y) as [i b|i b|p|p|p|p|p k] eqn:Hp; try done; cbn -[Nat.ltb cpop] in Hs.
  - apply bind_Some in Hs as (x & Hx & Hs). unfold acquire in Hs. destruct (slk x); [by destruct (bool_decide _)|]. injection Hs as <-.
    eexists. split_and!; [done|done|apply length_insert|]. cbn; eauto.
  - apply bind_Some in Hs as (x & Hx & Hs). destruct (better x b); [destruct b as [[[m vr] ct]|]; [apply bind_Some in Hs as (xm & Hxm & Hs)|]|].
    + injection Hs as Hs. destruct (unlock_moves _ _ _ _ _ _ Hs) as (y' & H1 & H2 & H3). exists y'. split_and!; try done. rewrite H2; cbn; eauto.
    + injection Hs as <-. eexists. split_and!; [done..|]. cbn; eauto.
    + injection Hs as Hs. destruct (unlock_moves _ _ _ _ _ _ Hs) as (y' & H1 & H2 & H3). exists y'. split_and!; try done. rewrite H2; cbn; eauto.
  - destruct (i <? _)%nat; [done|]. destruct b as [[[m vr] ct]|]; [apply bind_Some in Hs as (xm & Hxm & Hs)|]; injection Hs as <-;
      (eexists; split_and!; [done|done| |cbn; eauto]); [apply length_insert|done].
  - apply bind_Some in Hs as (x & Hx & Hs). destruct (bool_decide _); [|done]. destruct (cpop y); [|done]. injection Hs as <-.
    eexists. split_and!; [done|done|apply length_insert|cbn; eauto].
  - apply bind_Some in Hs as (x & Hx & Hs). injection Hs as Hs. destruct (sctx x) as [|[] i]; [..|done];
      destruct (unlock_moves _ _ _ _ _ _ Hs) as (y' & H1 & H2 & H3); exists y'; split_and!; try done; rewrite H2; cbn; eauto.
  - apply bind_Some in Hs as (x & Hx & Hs). injection Hs as Hs.
    destruct (bool_decide (slk x = Some c)), (snoff y =? 1), (bool_decide (ss x = RUNNING)), (sie y); try done. injection Hs as <-.
    eexists. split_and!; [done|done|apply length_insert|cbn; eauto].
Qed.

(** From [s], steps of the scheduler alone lead to a state where [P] holds. *)
Definition leads (s : sstate) (P : sstate → Prop) : Prop :=
  ∃ tr s', Forall (λ a, is_Some (mover a)) tr ∧ ssteps s tr s' ∧ P s'.

Lemma ssteps_app s tr s1 tr2 s2 : ssteps s tr s1 → ssteps s1 tr2 s2 → ssteps s (tr ++ tr2) s2.
Proof. intros H1. induction 1 as [|s1 tr2 s2 a s3 _ IH Hk Hs]; [by rewrite app_nil_r|]. rewrite (assoc_L (++)). eapply ssteps_snoc; [by apply IH|done|done]. Qed.

Lemma leads_now s (P : sstate → Prop) : P s → leads s P.
Proof. intros HP. exists [], s. split_and!; [done|constructor|done]. Qed.

Lemma leads_trans s (P Q : sstate → Prop) : leads s P → (∀ s', P s' → leads s' Q) → leads s Q.
Proof.
  intros (tr & s1 & H1 & H2 & H3) HQ. destruct (HQ s1 H3) as (tr2 & s2 & H4 & H5 & H6).
  exists (tr ++ tr2), s2. split_and!; [by apply Forall_app|by eapply ssteps_app|done].
Qed.

(** What one step of the scheduler on CPU [c] does, seen from the phases. *)
Lemma leads_step s a c o (P : sstate → Prop) :
  sinv s → mover a = Some c → sched_step s a = Some o →
  (∀ s' y y', sinv s' → scpus s !! c = Some y → scpus s' = <[c := y']> (scpus s) → length (sprocs s') = length (sprocs s) →
    scpus s' !! c = Some y' → moves a (ph y) (ph y') → leads s' P) → leads s P.
Proof.
  intros Hi Ha Hs HP. pose proof (mover_keeps s a c Ha) as Hk. destruct (sched_step_ok s a o Hi Hk Hs) as (s' & -> & Hi').
  destruct (mover_moves s a c s' Ha Hs) as (y & y' & Hc & Hs' & Hl & Hm). apply (leads_trans s (eq s')).
  - exists [a], s'. split_and!; [by repeat constructor|eapply (ssteps_snoc s []); [constructor|done|done]|done].
  - intros ? <-. eapply HP; try done. rewrite Hs'. apply list_lookup_insert_eq. by eapply lookup_lt_Some.
Qed.

(** No CPU but [c] has the lock of a process [k] or later. *)
Definition clear_but (s : sstate) (k : nat) (c : option nat) : Prop :=
  ∀ d z j, Some d ≠ c → scpus s !! d = Some z → (k ≤ j)%nat → holds (ph z) j = false.

Lemma clear_moved s s' k c y' : clear_but s k (Some c) → scpus s' = <[c := y']> (scpus s) → clear_but s' k (Some c).
Proof. intros Hk Hs d z j Hd Hz Hj. rewrite Hs, list_lookup_insert_ne in Hz by congruence. by eapply Hk. Qed.

Lemma clear_all s k c y :
  clear_but s k (Some c) → scpus s !! c = Some y → (∀ j, (k ≤ j)%nat → holds (ph y) j = false) → clear_but s k None.
Proof.
  intros Hk Hc Hy d z j _ Hz Hj. destruct (decide (d = c)) as [->|Hd]; [|eapply Hk; [|done..]; congruence].
  replace z with y by congruence. by apply Hy.
Qed.

(** A process whose lock a CPU has, or a candidate for it, is in the table. *)
Lemma holds_in s c y j : sinv s → scpus s !! c = Some y → holds (ph y) j = true → ∃ x, sprocs s !! j = Some x.
Proof.
  intros Hi Hc Hh. pose proof (si_fits _ Hi c y Hc) as Hf. unfold cpu_fits in Hf.
  assert (Hb : ∀ i b, best_ok (sprocs s) i b → is_best b j = true → ∃ x, sprocs s !! j = Some x).
  { intros i b Hb (vr & ct & ->)%is_best_true. destruct Hb as (_ & x & Hx & _). by exists x. }
  destruct (ph y) as [i b|i b|p|p|p|p|p k]; cbn [holds] in Hh; try done.
  - destruct Hf as (_ & _ & _ & _ & Hf). by eapply Hb.
  - destruct Hf as (Hl & _ & _ & _ & Hf). apply orb_true_iff in Hh as [->%bool_decide_eq_true|Hh]; [|by eapply Hb].
    by apply lookup_lt_is_Some.
  - apply bool_decide_eq_true in Hh as ->. destruct Hf as (_ & _ & x & Hx & _). by exists x.
  - apply bool_decide_eq_true in Hh as ->. destruct Hf as (_ & _ & x & Hx & _). by exists x.
  - apply bool_decide_eq_true in Hh as ->. destruct Hf as (_ & _ & x & Hx & _). by exists x.
Qed.

Definition drained (n k : nat) (s : sstate) : Prop := sinv s ∧ clear_but s k None ∧ length (sprocs s) = n.

Section drain.
Context (k n : nat).

(** CPU [c] alone may hold locks from [k] on, and is in phase [p]. *)
Definition at_phase (c : nat) (p : cphase) (s : sstate) : Prop :=
  sinv s ∧ (∃ y, scpus s !! c = Some y ∧ ph y = p) ∧ clear_but s k (Some c) ∧ length (sprocs s) = n.

Lemma at_step a c p s (P : sstate → Prop) :
  at_phase c p s → mover a = Some c → is_Some (sched_step s a) →
  (∀ s' q, at_phase c q s' → moves a p q → leads s' P) → leads s P.
Proof.
  intros (Hi & (y & Hc & <-) & Hk & Hn) Ha [o Ho] HP. eapply (leads_step s a c o); [done..|].
  intros s' y0 y' Hi' Hc0 Hs' Hl Hc' Hm. replace y0 with y in * by congruence. apply (HP s' (ph y')); [|done].
  split_and!; [done|by exists y'|by eapply clear_moved|congruence].
Qed.

Lemma at_clear c p s : at_phase c p s → (∀ j, (k ≤ j)%nat → holds p j = false) → leads s (drained n k).
Proof. intros (Hi & (y & Hc & <-) & Hk & Hn) Hp. apply leads_now. split_and!; [done|by eapply clear_all|done]. Qed.

Lemma at_holds c p s j : at_phase c p s → holds p j = true → ∃ x, sprocs s !! j = Some x.
Proof. intros (Hi & (y & Hc & <-) & _) Hp. by eapply holds_in. Qed.

Lemma back_leads c p s : at_phase c (Switched_out p) s → leads s (drained n k).
Proof.
  intros Hs. pose proof Hs as (_ & (y & Hc & Hp) & _). destruct (at_holds c _ s p Hs) as [x Hx]; [by apply bool_decide_eq_true_2|].
  apply (at_step (Back c) c _ s _ Hs); [done|cbn; rewrite Hc; cbn; rewrite Hp, Hx; done|].
  intros s' q Hs' ->. by eapply at_clear.
Qed.

Lemma swtch_leads c p by_ s : at_phase c (Leaving p by_) s → leads s (drained n k).
Proof.
  intros Hs. pose proof Hs as (_ & (y & Hc & Hp) & _). destruct (at_holds c _ s p Hs) as [x Hx]; [by apply bool_decide_eq_true_2|].
  apply (at_step (Swtch c) c _ s _ Hs); [done|cbn; rewrite Hc; cbn; unfold sched; rewrite Hp, Hx; done|].
  intros s' q Hs' ->. by eapply back_leads.
Qed.

Lemma resume_leads c p s : at_phase c (Switched_in p) s → leads s (drained n k).
Proof.
  intros Hs. pose proof Hs as (_ & (y & Hc & Hp) & _). destruct (at_holds c _ s p Hs) as [x Hx]; [by apply bool_decide_eq_true_2|].
  apply (at_step (Resume c) c _ s _ Hs); [done|cbn; rewrite Hc; cbn; rewrite Hp, Hx; done|].
  intros s' q Hs' [-> | ->]; by eapply at_clear.
Qed.

(** The scan, from its candidate [m] on, ends with the switch to the best of the rest. *)
Lemma scan_leads c len : ∀ s i m vr ct,
  at_phase c (Scan i (Some (m, vr, ct))) s → (k ≤ m)%nat → (n - i = len)%nat → leads s (drained n k).
Proof.
  induction len as [|len IH]; intros s i m vr ct Hs Hm Hlen; pose proof Hs as (Hi & (y & Hc & Hp) & Hk & Hn).
  - destruct (at_holds c _ s m Hs) as [x Hx]; [by apply bool_decide_eq_true_2|].
    apply (at_step (Choose c) c _ s _ Hs); [done| |].
    + cbn -[Nat.ltb]. rewrite Hc. cbn -[Nat.ltb]. rewrite Hp, (proj2 (Nat.ltb_ge _ _)) by lia. by rewrite Hx.
    + intros s' q Hs' ->. by eapply resume_leads.
  - pose proof (si_fits _ Hi c y Hc) as Hf. unfold cpu_fits in Hf. rewrite Hp in Hf. destruct Hf as (_ & _ & _ & _ & Hmi & _).
    destruct (lookup_lt_is_Some_2 (sprocs s) i) as [x Hx]; [lia|]. assert (Hl : slk x = None).
    { destruct (slk x) as [d|] eqn:Hl; [|done]. apply (si_lock _ Hi i x d Hx) in Hl as (z & Hz & Hh).
      destruct (decide (d = c)) as [->|Hd]; [|rewrite (Hk d z i) in Hh; [done|congruence|done|lia]].
      replace z with y in Hh by congruence. rewrite Hp in Hh. apply bool_decide_eq_true in Hh. lia. }
    apply (at_step (Take c) c _ s _ Hs); [done|cbn; rewrite Hc; cbn; rewrite Hp, Hx; cbn; unfold acquire; by rewrite Hl|].
    intros s1 q H1 ->. pose proof H1 as (Hi1 & (y1 & Hc1 & Hp1) & _).
    destruct (at_holds c _ s1 i H1) as [x1 Hx1]; [cbn; by rewrite bool_decide_eq_true_2|].
    destruct (at_holds c _ s1 m H1) as [xm Hxm]; [cbn; by rewrite (bool_decide_eq_true_2 (m = m)), orb_true_r|].
    apply (at_step (Decide c) c _ s1 _ H1); [done|cbn; rewrite Hc1; cbn; rewrite Hp1, Hx1; cbn; rewrite Hxm; by destruct (better _ _)|].
    intros s2 q H2 [-> | (vr' & ct' & ->)]; (eapply IH; [done|lia|lia]).
Qed.

(** A CPU that has the lock of process [k] releases it. *)
Lemma holder_leads c p s :
  at_phase c p s → holds p k = true → (∀ j, (k < j)%nat → holds p j = false) → leads s (drained n k).
Proof.
  intros Hs Hh Hno. pose proof Hs as (Hi & (y & Hc & Hp) & Hk & Hn). destruct p as [i b|i b|j|j|j|j|j by_]; try done.
  - apply is_best_true in Hh as (vr & ct & ->). by eapply scan_leads.
  - pose proof (si_fits _ Hi c y Hc) as Hf. unfold cpu_fits in Hf. rewrite Hp in Hf. destruct Hf as (Hlt & _ & _ & _ & Hb).
    assert (i ≤ k)%nat. { destruct (decide (i ≤ k)%nat); [done|]. specialize (Hno i ltac:(lia)). cbn in Hno. by rewrite bool_decide_eq_true_2 in Hno. }
    assert (Hbk : ∀ j, (k ≤ j)%nat → is_best b j = false).
    { intros j Hj. destruct (is_best b j) eqn:E; [|done]. pose proof (best_lt _ _ _ _ Hb E). lia. }
    cbn [holds] in Hh. rewrite Hbk, orb_false_r in Hh by done. apply bool_decide_eq_true in Hh as ->.
    destruct (at_holds c _ s k Hs) as [x Hx]; [cbn; by rewrite bool_decide_eq_true_2|].
    apply (at_step (Decide c) c _ s _ Hs); [done| |].
    + cbn. rewrite Hc. cbn. rewrite Hp, Hx. cbn. destruct (better x b); [|done]. destruct b as [[[m vr] ct]|]; [|done].
      destruct Hb as (_ & xm & -> & _). done.
    + intros s' q Hs' [-> | (vr & ct & ->)]; [by eapply at_clear|]. by eapply scan_leads.
  - apply bool_decide_eq_true in Hh as ->. by eapply back_leads.
  - apply bool_decide_eq_true in Hh as ->. by eapply resume_leads.
  - apply bool_decide_eq_true in Hh as ->. by eapply swtch_leads.
Qed.
End drain.

Lemma drain_locks n d : ∀ s k, sinv s → length (sprocs s) = n → (n - k = d)%nat → leads s (drained n k).
Proof.
  induction d as [|d IH]; intros s k Hi Hn Hd.
  - apply leads_now. split_and!; [done| |done]. intros c y j _ Hc Hj. destruct (holds (ph y) j) eqn:Hh; [|done].
    destruct (holds_in s c y j Hi Hc Hh) as [x ?%lookup_lt_Some]. lia.
  - eapply leads_trans; [apply (IH s (S k)); [done|done|lia]|]. clear s Hi Hn. intros s (Hi & Hcl & Hn).
    destruct (lookup_lt_is_Some_2 (sprocs s) k) as [x Hx]; [lia|].
    assert (Hother : ∀ c z, scpus s !! c = Some z → slk x ≠ Some c → ∀ j, (k ≤ j)%nat → holds (ph z) j = false).
    { intros c z Hz Hl j Hj. destruct (decide (j = k)) as [->|]; [|eapply Hcl; [done|done|lia]].
      destruct (holds (ph z) k) eqn:Hh; [|done]. destruct Hl. by eapply holder. }
    destruct (slk x) as [c|] eqn:Hl.
    + pose proof Hl as Hl'. apply (si_lock _ Hi k x c Hx) in Hl' as (y & Hc & Hh). eapply (holder_leads k n c (ph y)); [|done|].
      * split_and!; [done|by exists y| |done]. intros e z j He Hz Hj. eapply Hother; [done|congruence|done].
      * intros j Hj. by eapply Hcl.
    + apply leads_now. split_and!; [done| |done]. intros e z j _ Hz Hj. by eapply Hother.
Qed.

(** C8: the locks of the process table never deadlock the scheduler.  From every state reached from
    boot, where CPUs are in the middle of their scans with the lock of their best candidate still
    held, or of switches, steps of [scheduler] and [sched] alone lead to a state where no lock of a
    process is held, so that every CPU that waits for one can take it. *)
Theorem scheduler_locks_come_free n m tr s :
  ssteps (sboot n m) tr s → leads s (λ s', ∀ j x, sprocs s' !! j = Some x → slk x = None).
Proof.
  intros Hs%ssteps_ok; [|apply sboot_ok]. eapply leads_trans; [by apply (drain_locks (length (sprocs s)) (length (sprocs s) - 0) s 0)|].
  intros s' (Hi & Hcl & _). apply leads_now. intros j x Hx. destruct (slk x) as [c|] eqn:Hl; [|done].
  apply (si_lock _ Hi j x c Hx) in Hl as (y & Hc & Hh). rewrite (Hcl c y j) in Hh; [done|done|done|lia].
Qed.

(** ** On concrete runs *)

Fixpoint srun (s : sstate) (tr : list slabel) : option sstate :=
  match tr with
  | [] => Some s
  | a :: tr' => if keeps_count s a then match sched_step s a with Some (Ok s1) => srun s1 tr' | _ => None end else None
  end.

Lemma srun_ssteps_from tr : ∀ s0 tr0 s s', ssteps s0 tr0 s → srun s tr = Some s' → ssteps s0 (tr0 ++ tr) s'.
Proof.
  induction tr as [|a tr IH]; intros s0 tr0 s s' H0 Hr; cbn in Hr.
  - injection Hr as <-. by rewrite app_nil_r.
  - destruct (keeps_count s a) eqn:Hk; [|done]. destruct (sched_step s a) as [[s1|]|] eqn:Ha; [|done..]. rewrite cons_middle, (assoc_L (++)). eapply IH; [|done]. by econstructor.
Qed.

Lemma srun_ssteps s tr s' : srun s tr = Some s' → ssteps s tr s'.
Proof. apply (srun_ssteps_from tr s [] s s'). constructor. Qed.

(** Process 0 runs on CPU 0 and forks process 1, which CPU 1 finds; then it exits there. *)
Definition forked : list slabel :=
  [Take 0; Decide 0; Take 0; Decide 0; Choose 0; Resume 0; Alloc 0 1 0 0; Ready 0 1;
   Take 1; Decide 1; Take 1; Decide 1; Choose 1; Resume 1]%nat.
Definition exited : list slabel := forked ++ [Lock 1; Exit 1; Swtch 1]%nat.

Example both_run :
  (map ph ∘ scpus <$> srun (sboot 2 1) forked) = Some [Run 0; Run 1].
Proof. vm_compute. reflexivity. Qed.

(** The parent cannot free the zombie before CPU 1 is back from its stack. *)
Example reap_waits :
  (s ← srun (sboot 2 1) exited; sched_step s (Reap 0 1)) = None ∧
  (map ss ∘ sprocs <$> srun (sboot 2 1) (exited ++ [Back 1%nat; Reap 0 1])) = Some [RUNNING; UNUSED].
Proof. split; vm_compute; reflexivity. Qed.

(** What [keeps_count] rules out, the code's tests catch: a process that sleeps with two spinlocks
    panics in [sched], one that sleeps with none in [release]. *)
Example sleep_panics :
  (s ← srun (sboot 2 1) (forked ++ [Lock 1; Lock 1]%nat);
   match sched_step s (Sleep 1) with Some (Ok s1) => sched_step s1 (Swtch 1) | _ => None end) = Some Panic ∧
  (s ← srun (sboot 2 1) forked; sched_step s (Sleep 1)) = Some Panic.
Proof. split; vm_compute; reflexivity. Qed.

Lemma one_cpu_per_process_witness :
  ∃ s, srun (sboot 2 1) (exited ++ [Back 1%nat]) = Some s ∧ (∀ a, keeps_count s a = true → sched_step s a ≠ Some Panic) ∧
    is_Some (sched_step s (Reap 0 1)) ∧ map ph (scpus s) = [Run 0; Scan 0 None].
Proof.
  eexists. split; [vm_compute; reflexivity|]. split.
  - eapply (one_cpu_per_process 2 1 (exited ++ [Back 1%nat])). apply srun_ssteps. vm_compute. reflexivity.
  - split; [eexists|]; vm_compute; reflexivity.
Defined.

(** CPU 0 has its candidate and looks at the next process; CPU 1 cannot begin its scan. *)
Definition scanning : list slabel :=
  (forked ++ [Yield 1; Swtch 1; Back 1; Yield 0; Swtch 0; Back 0; Take 0; Decide 0; Take 0])%nat.

Lemma scheduler_locks_come_free_witness :
  ∃ s, srun (sboot 2 1) scanning = Some s ∧ map slk (sprocs s) = [Some 0%nat; Some 0%nat] ∧ sched_step s (Take 1) = None ∧
    leads s (λ s', ∀ j x, sprocs s' !! j = Some x → slk x = None).
Proof.
  eexists. split; [vm_compute; reflexivity|]. split; [vm_compute; reflexivity|]. split; [vm_compute; reflexivity|].
  apply (scheduler_locks_come_free 2 1 scanning). apply srun_ssteps. vm_compute. reflexivity.
Defined.
