(* ===== verification/Kalloc.v ===== *)
(** * kernel/kalloc.c: the page allocator

    Physical memory is a map from page addresses to their 4096 bytes.  The free
    list is threaded through the free pages: the first 8 bytes of a free page
    are the address of the next.  [kend] is the linker's symbol [end]. *)

From S2P Require Import Prelude Proc.

Local Open Scope Z_scope.

Definition KERNBASE : Z := 0x80000000.
Definition PHYSTOP : Z := KERNBASE + 128 * 1024 * 1024.
#[global] Arguments PHYSTOP : simpl never.

Definition PGROUNDUP (x : Z) : Z := Z.ldiff (x + PGSIZE - 1) (PGSIZE - 1).

(** The memory and [kmem.freelist]. *)
Record kmem := mk_kmem { pages : gmap Z (list Z); freelist : Z }.

(** [r->next]. *)
Definition run_next (m : kmem) (r : Z) : Z := le_decode (sub 0 8 (default [] (pages m !! r))).

Section kalloc.
Context (kend : Z).

Definition kfree (pa : Z) (m : kmem) : outcome kmem :=
  if negb (pa mod PGSIZE =? 0) || (pa <? kend) || (PHYSTOP <=? pa) then Panic
  else
    let junk := replicate (Z.to_nat PGSIZE) 1 in
    Ok (mk_kmem (<[pa := blit junk 0 (le_encode 8 (freelist m))]> (pages m)) pa).

Definition kalloc (m : kmem) : Z * kmem :=
  let r := freelist m in
  if negb (r =? 0)
  then (r, mk_kmem (<[r := replicate (Z.to_nat PGSIZE) 5]> (pages m)) (run_next m r))
  else (r, m).

(** [for(; p + PGSIZE <= pa_end; p += PGSIZE) kfree(p)]. *)
Fixpoint freerange_loop (fuel : nat) (p pa_end : Z) (m : kmem) : outcome kmem :=
  match fuel with
  | O => Ok m
  | S fuel' =>
      if p + PGSIZE <=? pa_end then m ← kfree p m; freerange_loop fuel' (p + PGSIZE) pa_end m
      else Ok m
  end.

Definition freerange (pa_start pa_end : Z) (m : kmem) : outcome kmem :=
  freerange_loop (S (Z.to_nat ((pa_end - PGROUNDUP pa_start) / PGSIZE))) (PGROUNDUP pa_start) pa_end m.

Definition kinit (m0 : gmap Z (list Z)) : outcome kmem := freerange kend PHYSTOP (mk_kmem m0 0).

(** ** The free list *)

Definition valid_page (pa : Z) : Prop := pa mod PGSIZE = 0 ∧ kend ≤ pa < PHYSTOP ∧ 0 < pa.

(** The pages on the list from [p], in order. *)
Fixpoint chain (m : kmem) (p : Z) (l : list Z) : Prop :=
  match l with
  | [] => p = 0
  | a :: l' => p = a ∧ valid_page a ∧ is_Some (pages m !! a) ∧ chain m (run_next m a) l'
  end.

Lemma chain_frame m m' p l :
  chain m p l → (∀ a, a ∈ l → pages m' !! a = pages m !! a) → chain m' p l.
Proof.
  revert p. induction l as [|a l IH]; intros p; cbn [chain]; [done|].
  intros (-> & Hv & Hs & Hc) Hf. assert (Ha : pages m' !! a = pages m !! a) by (apply Hf; left).
  split_and!; [done|done|by rewrite Ha|]. unfold run_next in *. rewrite Ha.
  apply IH; [done|]. intros b Hb. apply Hf. by right.
Qed.

Lemma page_insert (m : gmap Z (list Z)) pa b : default [] (<[pa := b]> m !! pa) = b.
Proof. by rewrite lookup_insert_eq. Qed.

Lemma run_next_insert m pa n f :
  0 ≤ n < 2 ^ 64 → run_next (mk_kmem (<[pa := blit (replicate (Z.to_nat PGSIZE) 1) 0 (le_encode 8 n)]> (pages m)) f) pa = n.
Proof.
  intros Hn. unfold run_next. cbn [pages]. rewrite page_insert, sub_blit_at.
  - by apply le_decode_encode.
  - apply length_le_encode.
  - rewrite length_replicate. unfold PGSIZE. lia.
Qed.

Lemma kfree_spec m l pa :
  chain m (freelist m) l → valid_page pa → pa ∉ l →
  ∃ m', kfree pa m = Ok m' ∧ chain m' (freelist m') (pa :: l) ∧
    (∀ a, a ≠ pa → pages m' !! a = pages m !! a).
Proof.
  intros Hc (Hmod & Hr & Hpos) Hni. unfold kfree.
  rewrite (proj2 (Z.eqb_eq _ _) Hmod), (proj2 (Z.ltb_ge _ _)), (proj2 (Z.leb_gt _ _)) by lia. cbn [negb orb].
  eexists. split; [reflexivity|]. cbn [freelist]. split.
  - assert (Hf : 0 ≤ freelist m < 2 ^ 64).
    { destruct l as [|a l]; cbn [chain] in Hc; [lia|]. destruct Hc as (-> & (_ & Ha & Hap) & _).
      unfold PHYSTOP, KERNBASE in Ha. lia. }
    cbn [chain]. split_and!; [done|done|cbn; by rewrite lookup_insert_eq|].
    rewrite run_next_insert by done. eapply chain_frame; [exact Hc|]. intros a Ha. cbn [pages].
    apply lookup_insert_ne. by intros ->.
  - intros a Ha. cbn [pages]. by apply lookup_insert_ne.
Qed.

Lemma kalloc_spec m l :
  chain m (freelist m) l → NoDup l →
  match l with
  | [] => kalloc m = (0, m)
  | a :: l' => ∃ m', kalloc m = (a, m') ∧ chain m' (freelist m') l' ∧
      pages m' !! a = Some (replicate 4096 5) ∧ (∀ b, b ≠ a → pages m' !! b = pages m !! b)
  end.
Proof.
  intros Hc Hn. unfold kalloc. destruct l as [|a l]; cbn [chain] in Hc; [by rewrite Hc|].
  destruct Hc as (-> & (_ & _ & Ha) & _ & Hc). rewrite (proj2 (Z.eqb_neq a 0)) by lia. cbn [negb].
  apply NoDup_cons in Hn as [Hna Hn]. eexists. split; [reflexivity|]. cbn [freelist pages]. split_and!.
  - eapply chain_frame; [exact Hc|]. intros b Hb. cbn [pages]. apply lookup_insert_ne. by intros ->.
  - by rewrite lookup_insert_eq.
  - intros b Hb. by apply lookup_insert_ne.
Qed.

(** ** Boot *)

(** The pages of a range, the last first: the free list [freerange] builds. *)
Definition range_pages (p : Z) (n : nat) : list Z := rev (map (λ i, p + Z.of_nat i * PGSIZE) (seq 0 n)).

Lemma range_pages_S p n :
  range_pages p (S n) = range_pages (p + PGSIZE) n ++ [p].
Proof.
  unfold range_pages. cbn [seq map rev]. f_equal; [|f_equal; lia]. f_equal.
  rewrite <- seq_shift, map_map. apply map_ext. intros i. unfold PGSIZE. lia.
Qed.

Lemma elem_of_range_pages p n a : a ∈ range_pages p n ↔ ∃ i, (i < n)%nat ∧ a = p + Z.of_nat i * PGSIZE.
Proof.
  unfold range_pages. rewrite list_elem_of_In, <- in_rev, in_map_iff. setoid_rewrite in_seq. naive_solver lia.
Qed.

Lemma NoDup_range_pages p n : NoDup (range_pages p n).
Proof.
  unfold range_pages. apply NoDup_ListNoDup, NoDup_rev, Finite.Injective_map_NoDup; [|apply seq_NoDup].
  intros i j. unfold PGSIZE. lia.
Qed.

Lemma freerange_loop_spec n : ∀ fuel p m l,
  (n < fuel)%nat → p mod PGSIZE = 0 → kend ≤ p → 0 < p →
  p + Z.of_nat n * PGSIZE ≤ PHYSTOP < p + Z.of_nat n * PGSIZE + PGSIZE →
  chain m (freelist m) l → (∀ a, a ∈ l → a < p) →
  ∃ m', freerange_loop fuel p PHYSTOP m = Ok m' ∧ chain m' (freelist m') (range_pages p n ++ l).
Proof.
  assert (HP : PGSIZE = 4096) by done.
  induction n as [|n IH]; intros fuel p m l Hf Hmod Hk H0 Hr Hc Hl; (destruct fuel as [|fuel]; [lia|]); cbn [freerange_loop].
  { rewrite (proj2 (Z.leb_gt _ _)) by lia. by exists m. }
  rewrite (proj2 (Z.leb_le _ _)) by lia.
  destruct (kfree_spec m l p Hc) as (m1 & Hm1 & Hc1 & _).
  { split_and!; [done|lia..]. }
  { intros Hp. specialize (Hl p Hp). lia. }
  rewrite Hm1. cbn [mbind outcome_bind].
  destruct (IH fuel (p + PGSIZE) m1 (p :: l)) as (m' & Hm' & Hc'); [lia| |lia|lia|lia|done| |].
  - rewrite HP in *. rewrite <- Zplus_mod_idemp_r, Z_mod_same_full, Z.add_0_r. done.
  - intros a [->|Ha]%elem_of_cons; [lia|]. specialize (Hl a Ha). lia.
  - exists m'. split; [exact Hm'|]. rewrite range_pages_S, <- app_assoc. exact Hc'.
Qed.

Definition first_page : Z := PGROUNDUP kend.
Definition num_pages : nat := Z.to_nat ((PHYSTOP - first_page) / PGSIZE).

Lemma PGROUNDUP_spec x : 0 ≤ x → PGROUNDUP x mod PGSIZE = 0 ∧ x ≤ PGROUNDUP x < x + PGSIZE.
Proof.
  intros Hx. unfold PGROUNDUP. change (PGSIZE - 1) with (Z.ones 12). rewrite Z.ldiff_ones_r by lia.
  rewrite Z.shiftl_mul_pow2, Z.shiftr_div_pow2 by lia. change (2 ^ 12) with 4096. unfold PGSIZE.
  split; [apply Z_mod_mult|]. Z.div_mod_to_equations. lia.
Qed.

Lemma kinit_spec m0 :
  0 < kend ≤ PHYSTOP - PGSIZE →
  ∃ m, kinit m0 = Ok m ∧ chain m (freelist m) (range_pages first_page num_pages).
Proof.
  intros Hk. destruct (PGROUNDUP_spec kend ltac:(lia)) as [Hmod Hr]. unfold kinit, freerange.
  assert (HS : PHYSTOP mod PGSIZE = 0) by done. fold first_page in *. fold num_pages.
  assert (Hn : first_page + Z.of_nat num_pages * PGSIZE = PHYSTOP).
  { clear -Hmod Hr HS Hk. unfold num_pages, PGSIZE in *. Z.div_mod_to_equations. lia. }
  assert (HP : PGSIZE = 4096) by done.
  destruct (freerange_loop_spec num_pages (S num_pages) first_page (mk_kmem m0 0) []) as (m & Hm & Hc);
    [lia|done|lia|lia|lia|done|by intros a Ha%elem_of_nil|].
  exists m. split; [exact Hm|]. by rewrite app_nil_r in Hc.
Qed.

(** ** Clients *)

Inductive kop := KAlloc | KFree (pa : Z).

(** The allocator and the pages its clients have; a client frees only pages it has. *)
Definition kstep (s : kmem * list Z) (o : kop) : option (kmem * list Z) :=
  match o with
  | KAlloc => let '(r, m) := kalloc s.1 in Some (m, if r =? 0 then s.2 else r :: s.2)
  | KFree pa =>
      if decide (pa ∈ s.2)
      then match kfree pa s.1 with Ok m => Some (m, filter (λ a, a ≠ pa) s.2) | Panic => None end
      else None
  end.

Fixpoint krun (s : kmem * list Z) (ops : list kop) : option (kmem * list Z) :=
  match ops with [] => Some s | o :: ops' => s' ← kstep s o; krun s' ops' end.

Definition kinv (s : kmem * list Z) : Prop :=
  ∃ l, chain s.1 (freelist s.1) l ∧ NoDup l ∧ NoDup s.2 ∧ (∀ a, a ∈ l → a ∉ s.2) ∧
    ∀ a, a ∈ range_pages first_page num_pages ↔ a ∈ l ∨ a ∈ s.2.

Lemma chain_valid m p l a : chain m p l → a ∈ l → valid_page a.
Proof.
  revert p. induction l as [|b l IH]; intros p; cbn [chain]; [by intros _ ?%elem_of_nil|].
  intros (_ & Hv & _ & Hc) [->|Ha]%elem_of_cons; [done|]. by eapply IH.
Qed.

Lemma kstep_inv s o s' : 0 < kend ≤ PHYSTOP - PGSIZE → kinv s → kstep s o = Some s' → kinv s'.
Proof.
  intros Hk (l & Hc & Hn & Hno & Hd & Hall) Hs. destruct s as [m out]. cbn [fst snd] in *.
  destruct o as [|pa]; cbn [kstep fst snd] in Hs.
  - pose proof (kalloc_spec m l Hc Hn) as Hka. destruct l as [|a l].
    + rewrite Hka in Hs. injection Hs as <-. by exists [].
    + destruct Hka as (m' & Hm & Hc' & _ & _). rewrite Hm in Hs. cbn [chain] in Hc.
      destruct Hc as (_ & (_ & _ & Ha) & _). rewrite (proj2 (Z.eqb_neq a 0)) in Hs by lia.
      injection Hs as <-. apply NoDup_cons in Hn as [Hna Hn]. exists l. cbn [fst snd]. split_and!; try done.
      * constructor; [|done]. apply Hd. left.
      * intros b Hb [->|Hb']%elem_of_cons; [done|]. apply (Hd b); [by right|done].
      * intros b. rewrite Hall, !elem_of_cons. tauto.
  - destruct (decide (pa ∈ out)) as [Hin|]; [|done].
    assert (Hv : valid_page pa).
    { assert (Hr : pa ∈ range_pages first_page num_pages) by (apply Hall; by right).
      apply elem_of_range_pages in Hr as (i & Hi & ->).
      destruct (PGROUNDUP_spec kend ltac:(lia)) as [Hmod Hr]. fold first_page in *.
      unfold num_pages in Hi. unfold valid_page. assert (HP : PGSIZE = 4096) by done. rewrite HP in *.
      split_and!; [|clear -Hi Hr Hk Hmod; Z.div_mod_to_equations; lia..].
      by rewrite Z_mod_plus_full. }
    assert (Hpl : pa ∉ l) by (intros Hl; by apply (Hd pa)).
    destruct (kfree_spec m l pa Hc Hv Hpl) as (m' & Hm & Hc' & _).
    rewrite Hm in Hs. injection Hs as <-. exists (pa :: l). cbn [fst snd]. split_and!; try done.
    + by constructor.
    + by apply NoDup_filter.
    + intros a Ha Hf. apply list_elem_of_filter in Hf as [Hne Hf]. apply elem_of_cons in Ha as [->|Ha]; [done|].
      by apply (Hd a).
    + intros a. rewrite Hall, elem_of_cons, list_elem_of_filter. destruct (decide (a = pa)) as [->|]; naive_solver.
Qed.

Lemma krun_inv ops : ∀ s s',
  0 < kend ≤ PHYSTOP - PGSIZE → kinv s → krun s ops = Some s' → kinv s'.
Proof.
  induction ops as [|o ops IH]; intros s s' Hk Hi Hr; cbn [krun] in Hr; [by injection Hr as <-|].
  apply bind_Some in Hr as (s1 & Hs1 & Hr). eapply IH; [done| |exact Hr]. by eapply kstep_inv.
Qed.

(** C20: The page allocator, from boot and for any sequence of allocations and frees
    by clients that free only what they have: a page has at most one owner, every
    page handed out is an aligned page between the kernel's end and the top of
    memory, an allocation fails only when every page is out, it gives a page nobody
    has, filled with junk, and freeing a page one has never panics. *)
Theorem kmem_exclusive m0 m ops m' out :
  0 < kend ≤ PHYSTOP - PGSIZE → kinit m0 = Ok m → krun (m, []) ops = Some (m', out) →
  NoDup out ∧ (∀ a, a ∈ out → a mod PGSIZE = 0 ∧ kend ≤ a < PHYSTOP) ∧
  match kalloc m' with
  | (r, m2) =>
      if r =? 0 then ∀ a, a ∈ range_pages first_page num_pages → a ∈ out
      else r ∉ out ∧ r ∈ range_pages first_page num_pages ∧ pages m2 !! r = Some (replicate 4096 5)
  end ∧
  ∀ a, a ∈ out → ∃ m2, kfree a m' = Ok m2.
Proof.
  intros Hk Hinit Hr. destruct (kinit_spec m0 Hk) as (m1 & Hm1 & Hc). replace m1 with m in * by congruence.
  assert (Hi : kinv (m, [])).
  { exists (range_pages first_page num_pages). cbn [fst snd]. split_and!; [done|apply NoDup_range_pages|constructor| |].
    - intros a _ Ha. by apply elem_of_nil in Ha.
    - intros a. split; [by left|]. intros [?|Ha%elem_of_nil]; done. }
  destruct (krun_inv ops _ _ Hk Hi Hr) as (l & Hcl & Hn & Hno & Hd & Hall). cbn [fst snd] in *.
  assert (Hpage : ∀ a, a ∈ range_pages first_page num_pages → valid_page a).
  { intros a. by apply (chain_valid _ _ _ _ Hc). }
  split_and!; [done| | |].
  - intros a Ha. destruct (Hpage a) as (? & ? & _); [apply Hall; by right|]. done.
  - pose proof (kalloc_spec m' l Hcl Hn) as Hka. destruct l as [|a l].
    + rewrite Hka. cbn [Z.eqb]. intros a [Ha|Ha]%Hall; [by apply elem_of_nil in Ha|done].
    + destruct Hka as (m2 & Hm2 & _ & Hp & _). rewrite Hm2.
      assert (Ha : a ∈ range_pages first_page num_pages) by (apply Hall; left; left).
      destruct (Hpage a Ha) as (_ & _ & Hpos). rewrite (proj2 (Z.eqb_neq a 0)) by lia.
      split_and!; [apply Hd; left|done|done].
  - intros a Ha. assert (Hv : valid_page a) by (apply Hpage, Hall; by right).
    assert (Hl : a ∉ l) by (intros Hl; by apply (Hd a)).
    destruct (kfree_spec m' l a Hcl Hv Hl) as (m2 & Hm2 & _). by exists m2.
Qed.
End kalloc.

(** Three pages of memory: two allocations, one free. *)
Definition three_pages : Z := PHYSTOP - 3 * PGSIZE.

Definition kdemo : option (kmem * list Z) :=
  match kinit three_pages ∅ with
  | Ok m => krun three_pages (m, []) [KAlloc; KAlloc; KFree (PHYSTOP - PGSIZE)]
  | Panic => None
  end.

Lemma kmem_exclusive_witness :
  ∃ m out, kdemo = Some (m, out) ∧ out = [PHYSTOP - 2 * PGSIZE] ∧ NoDup out.
Proof.
  destruct (kinit three_pages ∅) as [m0|] eqn:Hi; [|exfalso; assert (Hx : (match kinit three_pages ∅ with Ok _ => true | Panic => false end) = true) by (vm_compute; reflexivity); rewrite Hi in Hx; discriminate].
  assert (Hv : snd <$> kdemo = Some [PHYSTOP - 2 * PGSIZE]) by (vm_compute; reflexivity).
  unfold kdemo in *. rewrite Hi in *.
  destruct (krun three_pages (m0, []) _) as [[m out]|] eqn:Hr; [|discriminate Hv]. injection Hv as Hv.
  exists m, out. split; [reflexivity|]. split; [exact Hv|].
  refine (proj1 (kmem_exclusive three_pages ∅ m0 _ m out _ Hi Hr)). by vm_compute.
Defined.
