(* ===== verification/Vm.v ===== *)
(** * kernel/vm.c: page tables and user memory

    Physical memory and its free list are the [kmem] of Kalloc.v: a page table, a
    page-table page and a page of user memory are all pages of it, addressed by
    their physical address.  A [pte_t *] is the address of the entry.  [Undef] is an
    access outside the pages.  [vmfault] reads the size and the page table of
    [myproc()]: [cursz] and [curpt]. *)

From S2P Require Import Prelude Effect Proc Kalloc.

Local Open Scope Z_scope.

Definition PTE_V : Z := 1.
Definition PTE_U : Z := 16.
Definition PA2PTE (pa : Z) : Z := Z.shiftl (Z.shiftr pa 12) 10.
Definition PTE2PA (pte : Z) : Z := u64 (Z.shiftl (Z.shiftr pte 10) 12).
Definition PTE_FLAGS (pte : Z) : Z := Z.land pte 0x3FF.
Definition PX (level va : Z) : Z := Z.land (Z.shiftr va (12 + 9 * level)) 0x1FF.
Definition PGROUNDDOWN (a : Z) : Z := Z.ldiff a (PGSIZE - 1).
Definition PGROUNDUP64 (a : Z) : Z := Z.ldiff (u64 (a + PGSIZE - 1)) (PGSIZE - 1).
Definition UART0 : Z := 0x10000000.
Definition VIRTIO0 : Z := 0x10001000.
Definition PLIC : Z := 0x0c000000.

(** [pte & flag] *)
Definition has (flag pte : Z) : bool := negb (Z.land pte flag =? 0).

(** ** Memory *)

(** The page an address is in, and the offset. *)
Definition page_of (a : Z) : Z := a - a mod PGSIZE.
Definition off_of (a : Z) : nat := Z.to_nat (a mod PGSIZE).

Definition set_page (pa : Z) (l : list Z) (m : kmem) : kmem := mk_kmem (<[pa := l]> (pages m)) (freelist m).
Definition get_page (pa : Z) : M kmem (list Z) := o ← gets (λ m, pages m !! pa); deref o.

Definition load64 (a : Z) : M kmem Z := l ← get_page (page_of a); mret (le_decode (sub (off_of a) 8 l)).
Definition store64 (a v : Z) : M kmem () :=
  l ← get_page (page_of a); modify (set_page (page_of a) (blit l (off_of a) (le_encode 8 v))).

(** [n] bytes at [a], in one page. *)
Definition load_bytes (a n : Z) : M kmem (list Z) :=
  l ← get_page (page_of a); mret (sub (off_of a) (Z.to_nat n) l).
Definition store_bytes (a : Z) (bs : list Z) : M kmem () :=
  l ← get_page (page_of a); modify (set_page (page_of a) (blit l (off_of a) bs)).

(** [memset(pa, 0, PGSIZE)] *)
Definition zero_page (pa : Z) : M kmem () := modify (set_page pa (replicate (Z.to_nat PGSIZE) 0)).

Section vm.
Context (kend : Z).

Definition palloc : M kmem Z := λ m, let '(pa, m') := Kalloc.kalloc m in Done (pa, m').
Definition pfree (pa : Z) : M kmem () := λ m,
  match Kalloc.kfree kend pa m with
  | Ok m' => Done ((), m')
  | Panic => Panics
  end.

(** [&pagetable[i]] *)
Definition pte_addr (pt i : Z) : Z := pt + 8 * i.

(** The loop of [walk] with [level] = [n] down to 1. *)
Fixpoint walk_levels (n : nat) (pt va : Z) (alloc : bool) : M kmem (option Z) :=
  match n with
  | O => mret (Some (pte_addr pt (PX 0 va)))
  | S n' =>
      let a := pte_addr pt (PX (Z.of_nat n) va) in
      pte ← load64 a;
      if has PTE_V pte then walk_levels n' (PTE2PA pte) va alloc
      else if negb alloc then mret None
      else
        new ← palloc;
        if new =? 0 then mret None
        else
          zero_page new;;
          store64 a (Z.lor (PA2PTE new) PTE_V);;
          walk_levels n' new va alloc
  end.

Definition walk (pt va : Z) (alloc : bool) : M kmem (option Z) :=
  if MAXVA <=? va then panics else walk_levels 2 pt va alloc.

Definition walkaddr (pt va : Z) : M kmem Z :=
  if MAXVA <=? va then mret 0
  else
    a ← walk pt va false;
    match a with
    | None => mret 0
    | Some a =>
        pte ← load64 a;
        if negb (has PTE_V pte) || negb (has PTE_U pte) then mret 0 else mret (PTE2PA pte)
    end.

(** The loop of [mappages] from address [a]. *)
Fixpoint map_loop (fuel : nat) (pt a last pa perm : Z) : M kmem Z :=
  match fuel with
  | O => undef
  | S fuel' =>
      p ← walk pt a true;
      match p with
      | None => mret (-1)
      | Some p =>
          pte ← load64 p;
          if has PTE_V pte then panics
          else
            store64 p (Z.lor (Z.lor (PA2PTE pa) perm) PTE_V);;
            if a =? last then mret 0 else map_loop fuel' pt (u64 (a + PGSIZE)) last (u64 (pa + PGSIZE)) perm
      end
  end.

Definition mappages (pt va size pa perm : Z) : M kmem Z :=
  if negb (va mod PGSIZE =? 0) then panics
  else if negb (size mod PGSIZE =? 0) then panics
  else if size =? 0 then panics
  else map_loop (Z.to_nat (size / PGSIZE)) pt va (u64 (va + size - PGSIZE)) pa perm.

Definition kvmmap (kpt va pa sz perm : Z) : M kmem () :=
  r ← mappages kpt va sz pa perm;
  if negb (r =? 0) then panics else mret ().

(** [proc_mapstacks] of proc.c: page [j] of the stack of process [p]. *)
Definition map_stack_page (kpt p j : Z) : M kmem () :=
  pa ← palloc;
  if pa =? 0 then panics else kvmmap kpt (KSTACK p + j * PGSIZE) pa PGSIZE (Z.lor PTE_R PTE_W).

Definition proc_mapstacks (kpt : Z) : M kmem () :=
  for_ NPROC 0 (λ p, for_ (Z.to_nat KSTACK_PAGES) 0 (map_stack_page kpt p)).

(** [etext] and [trampoline] are the linker's. *)
Definition kvmmake (etext trampoline : Z) : M kmem Z :=
  kpt ← palloc;
  zero_page kpt;;
  kvmmap kpt UART0 UART0 PGSIZE (Z.lor PTE_R PTE_W);;
  kvmmap kpt VIRTIO0 VIRTIO0 PGSIZE (Z.lor PTE_R PTE_W);;
  kvmmap kpt PLIC PLIC 0x4000000 (Z.lor PTE_R PTE_W);;
  kvmmap kpt KERNBASE KERNBASE (etext - KERNBASE) (Z.lor PTE_R PTE_X);;
  kvmmap kpt etext etext (PHYSTOP - etext) (Z.lor PTE_R PTE_W);;
  kvmmap kpt TRAMPOLINE trampoline PGSIZE (Z.lor PTE_R PTE_X);;
  proc_mapstacks kpt;;
  mret kpt.

Definition uvmcreate : M kmem Z :=
  pt ← palloc;
  if pt =? 0 then mret 0 else zero_page pt;; mret pt.

(** One page of [uvmunmap]. *)
Definition unmap_page (pt a : Z) (do_free : bool) : M kmem () :=
  p ← walk pt a false;
  match p with
  | None => mret ()
  | Some p =>
      pte ← load64 p;
      if negb (has PTE_V pte) then mret ()
      else
        when do_free (pfree (PTE2PA pte));;
        store64 p 0
  end.

Definition uvmunmap (pt va npages : Z) (do_free : bool) : M kmem () :=
  if negb (va mod PGSIZE =? 0) then panics
  else for_ (Z.to_nat ((u64 (va + npages * PGSIZE) - va) / PGSIZE)) 0 (λ i, unmap_page pt (va + i * PGSIZE) do_free).

Definition uvmdealloc (pt oldsz newsz : Z) : M kmem Z :=
  if oldsz <=? newsz then mret oldsz
  else
    when (PGROUNDUP64 newsz <? PGROUNDUP64 oldsz) (
      uvmunmap pt (PGROUNDUP64 newsz) (s32 ((PGROUNDUP64 oldsz - PGROUNDUP64 newsz) / PGSIZE)) true);;
    mret newsz.

(** The loop of [uvmalloc] from [a]. *)
Fixpoint alloc_loop (fuel : nat) (pt oldsz a newsz xperm : Z) : M kmem Z :=
  match fuel with
  | O => undef
  | S fuel' =>
      if a <? newsz then
        mem ← palloc;
        if mem =? 0 then uvmdealloc pt a oldsz;; mret 0
        else
          zero_page mem;;
          r ← mappages pt a PGSIZE mem (Z.lor (Z.lor PTE_R PTE_U) xperm);
          if negb (r =? 0) then pfree mem;; uvmdealloc pt a oldsz;; mret 0
          else alloc_loop fuel' pt oldsz (u64 (a + PGSIZE)) newsz xperm
      else mret newsz
  end.

Definition uvmalloc (pt oldsz newsz xperm : Z) : M kmem Z :=
  if newsz <? oldsz then mret oldsz
  else
    let old := PGROUNDUP64 oldsz in
    alloc_loop (S (Z.to_nat ((newsz - old) / PGSIZE + 1))) pt old old newsz xperm.

(** Entry [i] of a table in [freewalk]; [rec] frees the table below. *)
Definition freewalk_entry (rec : Z → M kmem ()) (pt i : Z) : M kmem () :=
  pte ← load64 (pte_addr pt i);
  if has PTE_V pte && (Z.land pte (Z.lor (Z.lor PTE_R PTE_W) PTE_X) =? 0) then
    rec (PTE2PA pte);; store64 (pte_addr pt i) 0
  else if has PTE_V pte then panics
  else mret ().

(** [depth]: the levels of the tree. *)
Fixpoint freewalk (depth : nat) (pt : Z) : M kmem () :=
  match depth with
  | O => undef
  | S depth' =>
      for_ 512 0 (freewalk_entry (freewalk depth') pt);;
      pfree pt
  end.

Definition uvmfree (pt sz : Z) : M kmem () :=
  when (0 <? sz) (uvmunmap pt 0 (PGROUNDUP64 sz / PGSIZE) true);;
  freewalk 3 pt.

(** The loop of [uvmcopy] from address [i]. *)
Fixpoint copy_loop (fuel : nat) (old new i sz : Z) : M kmem Z :=
  match fuel with
  | O => undef
  | S fuel' =>
      if i <? sz then
        p ← walk old i false;
        match p with
        | None => copy_loop fuel' old new (u64 (i + PGSIZE)) sz
        | Some p =>
            pte ← load64 p;
            if negb (has PTE_V pte) then copy_loop fuel' old new (u64 (i + PGSIZE)) sz
            else
              mem ← palloc;
              if mem =? 0 then uvmunmap new 0 (i / PGSIZE) true;; mret (-1)
              else
                l ← get_page (PTE2PA pte);
                modify (set_page mem l);;
                r ← mappages new i PGSIZE mem (PTE_FLAGS pte);
                if negb (r =? 0) then pfree mem;; uvmunmap new 0 (i / PGSIZE) true;; mret (-1)
                else copy_loop fuel' old new (u64 (i + PGSIZE)) sz
        end
      else mret 0
  end.

Definition uvmcopy (old new sz : Z) : M kmem Z := copy_loop (S (Z.to_nat (sz / PGSIZE + 1))) old new 0 sz.

Definition uvmclear (pt va : Z) : M kmem () :=
  p ← walk pt va false;
  match p with
  | None => panics
  | Some p => pte ← load64 p; store64 p (Z.ldiff pte PTE_U)
  end.

Definition ismapped (pt va : Z) : M kmem bool :=
  p ← walk pt va false;
  match p with
  | None => mret false
  | Some p => pte ← load64 p; mret (has PTE_V pte)
  end.

Section user.
Context (cursz curpt : Z).

Definition vmfault (pt va : Z) : M kmem Z :=
  if cursz <=? va then mret 0
  else
    let va := PGROUNDDOWN va in
    mapped ← ismapped pt va;
    if (mapped : bool) then mret 0
    else
      mem ← palloc;
      if mem =? 0 then mret 0
      else
        zero_page mem;;
        r ← mappages curpt va PGSIZE mem (Z.lor (Z.lor PTE_W PTE_U) PTE_R);
        if negb (r =? 0) then pfree mem;; mret 0 else mret mem.

(** [walkaddr], then [vmfault]. *)
Definition user_page (pt va0 : Z) : M kmem Z :=
  pa0 ← walkaddr pt va0;
  if pa0 =? 0 then vmfault pt va0 else mret pa0.

(** The number of bytes of the range that are in the first page. *)
Definition chunk_len (va len : Z) : Z := Z.min (PGSIZE - (va - PGROUNDDOWN va)) len.

(** [src] is what is left to copy. *)
Fixpoint copyout_loop (fuel : nat) (pt dstva : Z) (src : list Z) : M kmem Z :=
  match fuel with
  | O => undef
  | S fuel' =>
      match src with
      | [] => mret 0
      | _ =>
          let va0 := PGROUNDDOWN dstva in
          if MAXVA <=? va0 then mret (-1)
          else
            pa0 ← user_page pt va0;
            if pa0 =? 0 then mret (-1)
            else
              p ← walk pt va0 false;
              p ← deref p;
              pte ← load64 p;
              if negb (has PTE_W pte) then mret (-1)
              else
                let n := chunk_len dstva (Z.of_nat (length src)) in
                store_bytes (pa0 + (dstva - va0)) (take (Z.to_nat n) src);;
                copyout_loop fuel' pt (u64 (va0 + PGSIZE)) (drop (Z.to_nat n) src)
      end
  end.

Definition copyout (pt dstva : Z) (src : list Z) : M kmem Z := copyout_loop (S (length src)) pt dstva src.

(** The bytes copied, and whether all were. *)
Fixpoint copyin_loop (fuel : nat) (pt srcva len : Z) : M kmem (list Z * bool) :=
  match fuel with
  | O => undef
  | S fuel' =>
      if 0 <? len then
        let va0 := PGROUNDDOWN srcva in
        pa0 ← user_page pt va0;
        if pa0 =? 0 then mret ([], false)
        else
          let n := chunk_len srcva len in
          l ← load_bytes (pa0 + (srcva - va0)) n;
          '(rest, ok) ← copyin_loop fuel' pt (u64 (va0 + PGSIZE)) (len - n);
          mret (l ++ rest, ok)
      else mret ([], true)
  end.

Definition copyin (pt srcva len : Z) : M kmem (list Z * bool) := copyin_loop (S (Z.to_nat len)) pt srcva len.
End user.

(** The bytes up to a NUL, and whether there was one. *)
Fixpoint upto_nul (l : list Z) : list Z * bool :=
  match l with
  | [] => ([], false)
  | c :: l' => if c =? 0 then ([], true) else let '(r, b) := upto_nul l' in (c :: r, b)
  end.

(** The string without its NUL; [None] is the result -1. *)
Fixpoint copyinstr_loop (fuel : nat) (pt srcva max : Z) : M kmem (option (list Z)) :=
  match fuel with
  | O => undef
  | S fuel' =>
      if 0 <? max then
        let va0 := PGROUNDDOWN srcva in
        pa0 ← walkaddr pt va0;
        if pa0 =? 0 then mret None
        else
          let n := chunk_len srcva max in
          l ← load_bytes (pa0 + (srcva - va0)) n;
          let '(s, got) := upto_nul l in
          if (got : bool) then mret (Some s)
          else
            r ← copyinstr_loop fuel' pt (u64 (va0 + PGSIZE)) (max - n);
            mret (match r with Some s' => Some (s ++ s') | None => None end)
      else mret None
  end.

Definition copyinstr (pt srcva max : Z) : M kmem (option (list Z)) := copyinstr_loop (S (Z.to_nat max)) pt srcva max.
End vm.
