(* ===== verification/Pagetable.v ===== *)
(** * Page tables: the tree in memory and translation

    [tables] says that the pages of a table form a tree below its root; [find] is
    [walk] as a pure function; [space] adds the free list and the pages of user memory. *)

From S2P Require Import Prelude Effect Proc Kalloc Vm.

Local Open Scope Z_scope.

Definition PAGE : nat := 4096.
#[global] Arguments PAGE : simpl never.

(** ** Entries *)

Definition is_pa (pa : Z) : Prop := pa mod PGSIZE = 0 ∧ 0 ≤ pa < 2 ^ 56.

Lemma pa_shift pa : is_pa pa → ∃ k, pa = Z.shiftl k 12 ∧ 0 ≤ k < 2 ^ 44.
Proof.
  intros [Hm Hr]. exists (pa / 4096). rewrite Z.shiftl_mul_pow2 by lia. unfold PGSIZE in Hm. Z.div_mod_to_equations. lia.
Qed.

Definition new_pte (pa perm : Z) : Z := Z.lor (Z.lor (PA2PTE pa) perm) PTE_V.

Lemma new_pte_eq pa perm : is_pa pa → 0 ≤ perm < 1024 →
  ∃ k, pa = Z.shiftl k 12 ∧ 0 ≤ k < 2 ^ 44 ∧ new_pte pa perm = Z.lor (Z.shiftl k 10) (Z.lor perm 1).
Proof.
  intros (k & -> & Hk)%pa_shift Hp. exists k. split_and!; try done; try lia. unfold new_pte, PA2PTE, PTE_V.
  rewrite Z.shiftr_shiftl_l, Z.sub_diag, Z.shiftl_0_r by lia. by rewrite Z.lor_assoc.
Qed.

Lemma shiftr_small x n : 0 ≤ x < 2 ^ n → 0 ≤ n → Z.shiftr x n = 0.
Proof. intros Hx Hn. rewrite Z.shiftr_div_pow2 by done. by apply Z.div_small. Qed.

Lemma lor_lt x y n : 0 ≤ n → 0 ≤ x < 2 ^ n → 0 ≤ y < 2 ^ n → 0 ≤ Z.lor x y < 2 ^ n.
Proof.
  intros Hn Hx Hy. assert (H0 : 0 ≤ Z.lor x y) by (apply Z.lor_nonneg; lia). split; [done|].
  destruct (Z.eq_dec (Z.lor x y) 0) as [->|Hz]; [lia|]. apply Z.log2_lt_pow2; [lia|].
  rewrite Z.log2_lor by lia. assert (Hb : ∀ z, 0 ≤ z < 2 ^ n → z = 0 ∨ Z.log2 z < n).
  { intros z Hz'. destruct (Z.eq_dec z 0); [by left|right; apply Z.log2_lt_pow2; lia]. }
  assert (n ≠ 0) by (intros ->; apply Hz; replace x with 0 by lia; replace y with 0 by lia; done).
  destruct (Hb x Hx) as [->|], (Hb y Hy) as [->|]; change (Z.log2 0) with 0; lia.
Qed.

Lemma PTE2PA_new pa perm : is_pa pa → 0 ≤ perm < 1024 → PTE2PA (new_pte pa perm) = pa.
Proof.
  intros Hpa Hp. destruct (new_pte_eq pa perm Hpa Hp) as (k & -> & Hk & ->). unfold PTE2PA.
  rewrite Z.shiftr_lor, Z.shiftr_shiftl_l, Z.sub_diag, Z.shiftl_0_r by lia.
  rewrite (shiftr_small (Z.lor perm 1)), Z.lor_0_r by (try apply (lor_lt _ _ 10); lia).
  apply u64_id. unfold is_u64. rewrite Z.shiftl_mul_pow2 by lia. lia.
Qed.

Lemma new_pte_u64 pa perm : is_pa pa → 0 ≤ perm < 1024 → 0 ≤ new_pte pa perm < 2 ^ 64.
Proof.
  intros Hpa Hp. destruct (new_pte_eq pa perm Hpa Hp) as (k & -> & Hk & ->). apply lor_lt; [done| |].
  - rewrite Z.shiftl_mul_pow2 by lia. lia.
  - pose proof (lor_lt perm 1 10 ltac:(lia) ltac:(lia) ltac:(lia)). lia.
Qed.

Lemma land_high k f : 0 ≤ f < 1024 → Z.land (Z.shiftl k 10) f = 0.
Proof.
  intros Hf. apply Z.bits_inj'. intros n Hn. rewrite Z.land_spec, Z.bits_0.
  destruct (decide (n < 10)) as [Hlt|Hge]; [by rewrite Z.shiftl_spec_low|].
  replace (Z.testbit f n) with false; [by rewrite andb_false_r|]. symmetry.
  destruct (Z.eq_dec f 0) as [->|]; [by rewrite Z.bits_0|]. apply Z.bits_above_log2; [lia|].
  assert (Z.log2 f < 10) by (apply Z.log2_lt_pow2; lia). lia.
Qed.

(** The flags of an entry. *)
Lemma land_new f pa perm : is_pa pa → 0 ≤ perm < 1024 → 0 ≤ f < 1024 → Z.land (new_pte pa perm) f = Z.land (Z.lor perm 1) f.
Proof.
  intros Hpa Hp Hf. destruct (new_pte_eq pa perm Hpa Hp) as (k & -> & Hk & ->).
  by rewrite Z.land_lor_distr_l, land_high, Z.lor_0_l.
Qed.

Lemma has_new f pa perm : is_pa pa → 0 ≤ perm < 1024 → 0 ≤ f < 1024 → has f (new_pte pa perm) = has f (Z.lor perm 1).
Proof. intros Hpa Hp Hf. unfold has. by rewrite land_new. Qed.

Lemma new_pte_valid pa perm : is_pa pa → 0 ≤ perm < 1024 → has PTE_V (new_pte pa perm) = true.
Proof.
  intros Hpa Hp. rewrite has_new by (done || unfold PTE_V; lia). unfold has, PTE_V.
  rewrite Z.land_lor_distr_l. destruct (Z.eqb_spec (Z.lor (Z.land perm 1) (Z.land 1 1)) 0) as [He|]; [|done].
  apply Z.lor_eq_0_iff in He as [_ He]. done.
Qed.

(** ** Words in memory *)

Definition page_wf (l : list Z) : Prop := length l = PAGE ∧ Forall is_u8 l.
Definition aligned (p : Z) : Prop := p mod PGSIZE = 0.

Definition word (m : kmem) (a : Z) : Z := le_decode (sub (off_of a) 8 (default [] (pages m !! page_of a))).
Definition entry (m : kmem) (p i : Z) : Z := word m (pte_addr p i).
Definition idx (i : Z) : Prop := 0 ≤ i < 512.

Lemma pte_addr_page p i : aligned p → idx i → page_of (pte_addr p i) = p ∧ off_of (pte_addr p i) = (8 * Z.to_nat i)%nat.
Proof.
  unfold aligned, idx, page_of, off_of, pte_addr, PGSIZE. intros Hp Hi.
  assert ((p + 8 * i) mod 4096 = 8 * i) as -> by (Z.div_mod_to_equations; lia). lia.
Qed.

Lemma pte_addr_inj p q i j : aligned p → aligned q → idx i → idx j → pte_addr p i = pte_addr q j → p = q ∧ i = j.
Proof.
  intros Hp Hq Hi Hj He. destruct (pte_addr_page p i Hp Hi) as [Hp1 Hp2], (pte_addr_page q j Hq Hj) as [Hq1 Hq2].
  rewrite He in Hp1, Hp2. unfold idx in *. split; [congruence|lia].
Qed.

Lemma PX_idx level va : idx (PX level va).
Proof.
  unfold idx, PX. change 0x1FF with (Z.ones 9). rewrite Z.land_ones by lia. apply Z.mod_pos_bound. lia.
Qed.

Lemma get_page_run m p l : pages m !! p = Some l → get_page p m = Done (l, m).
Proof. intros Hp. unfold get_page, mbind, M_bind, gets. by rewrite Hp. Qed.

Lemma load64_run m p i l : aligned p → idx i → pages m !! p = Some l → load64 (pte_addr p i) m = Done (entry m p i, m).
Proof.
  intros Ha Hi Hp. destruct (pte_addr_page p i Ha Hi) as [H1 H2]. unfold load64, entry, word. rewrite H1, H2.
  rewrite (run_bind _ _ _ _ _ (get_page_run m p l Hp)). by rewrite Hp.
Qed.

Definition with_entry (p i v : Z) (m : kmem) : kmem :=
  set_page p (blit (default [] (pages m !! p)) (8 * Z.to_nat i) (le_encode 8 v)) m.

Lemma store64_run m p i l v : aligned p → idx i → pages m !! p = Some l →
  store64 (pte_addr p i) v m = Done ((), with_entry p i v m).
Proof.
  intros Ha Hi Hp. destruct (pte_addr_page p i Ha Hi) as [H1 H2]. unfold store64, with_entry. rewrite H1, H2.
  rewrite (run_bind _ _ _ _ _ (get_page_run m p l Hp)). by rewrite Hp.
Qed.

Lemma with_entry_wf p i v m l : idx i → pages m !! p = Some l → page_wf l →
  ∃ l', pages (with_entry p i v m) !! p = Some l' ∧ page_wf l'.
Proof.
  intros Hi Hp [Hl Hu]. unfold with_entry. cbn [pages set_page]. rewrite lookup_insert_eq, Hp. eexists. split; [done|].
  unfold idx, PAGE in *. change (default [] (Some l)) with l. split.
  - rewrite length_blit; [done|]. rewrite length_le_encode. lia.
  - apply Forall_blit; [done|apply le_encode_u8].
Qed.

Lemma with_entry_other p i v m q : q ≠ p → pages (with_entry p i v m) !! q = pages m !! q.
Proof. intros Hq. unfold with_entry. cbn [pages set_page]. by rewrite lookup_insert_ne. Qed.

Lemma entry_with p i v m l q j : aligned p → aligned q → idx i → idx j → pages m !! p = Some l → page_wf l → 0 ≤ v < 2 ^ 64 →
  entry (with_entry p i v m) q j = if decide (q = p ∧ j = i) then v else entry m q j.
Proof.
  intros Hap Haq Hi Hj Hp [Hl Hu] Hv. unfold entry, word. destruct (pte_addr_page q j Haq Hj) as [-> ->].
  destruct (decide (q = p)) as [->|Hq].
  - assert (default [] (pages (with_entry p i v m) !! p) = blit l (8 * Z.to_nat i) (le_encode 8 v)) as ->.
    { unfold with_entry. cbn [pages set_page]. by rewrite lookup_insert_eq, Hp. }
    rewrite Hp. change (default [] (Some l)) with l. unfold idx, PAGE in *.
    destruct (decide (p = p ∧ j = i)) as [[_ ->]|Hji].
    + rewrite (sub_blit_at _ _ _ 8); [by apply le_decode_encode|apply length_le_encode|lia].
    + assert (j ≠ i) by (intros ->; by apply Hji). f_equal. destruct (decide (j < i)).
      * apply sub_blit_lt; rewrite ?length_le_encode; lia.
      * apply sub_blit_ge; rewrite length_le_encode; lia.
  - rewrite with_entry_other by done. rewrite decide_False by tauto. done.
Qed.

Lemma entry_ext m m' p i : aligned p → idx i → pages m' !! p = pages m !! p → entry m' p i = entry m p i.
Proof. intros Hp Hi He. unfold entry, word. destruct (pte_addr_page p i Hp Hi) as [-> _]. by rewrite He. Qed.

Lemma entry_zero m p i : aligned p → idx i → pages m !! p = Some (replicate (Z.to_nat PGSIZE) 0) → entry m p i = 0.
Proof.
  intros Hp Hi He. unfold entry, word. destruct (pte_addr_page p i Hp Hi) as [-> ->]. rewrite He.
  unfold sub. cbn [from_option id]. rewrite drop_replicate, take_replicate.
  generalize (8 `min` (Z.to_nat PGSIZE - 8 * Z.to_nat i))%nat. intros n. induction n as [|n IH]; [done|].
  cbn [replicate le_decode]. rewrite IH. lia.
Qed.

(** ** The tree *)

(** [walk] without allocation from a table of level [n]. *)
Fixpoint find (m : kmem) (n : nat) (pt va : Z) : option Z :=
  match n with
  | O => Some (pte_addr pt (PX 0 va))
  | S n' =>
      let e := entry m pt (PX (Z.of_nat n) va) in
      if has PTE_V e then find m n' (PTE2PA e) va else None
  end.

(** The tables [walk] has to allocate on the way to a leaf. *)
Fixpoint missing (m : kmem) (n : nat) (pt va : Z) : nat :=
  match n with
  | O => O
  | S n' =>
      let e := entry m pt (PX (Z.of_nat n) va) in
      if has PTE_V e then missing m n' (PTE2PA e) va else n
  end.

Lemma missing_zero m n pt va : (∀ i, idx i → entry m pt i = 0) → missing m n pt va = n.
Proof. intros Hz. destruct n as [|n]; [done|]. cbn [missing]. by rewrite Hz by apply PX_idx. Qed.

Lemma missing_found m n va : ∀ pt a, find m n pt va = Some a → missing m n pt va = 0%nat.
Proof.
  induction n as [|n IH]; intros pt a; [done|]. cbn [find missing]. destruct (has PTE_V _); [|done]. apply IH.
Qed.

Lemma missing_le m n va : ∀ pt, (missing m n pt va ≤ n)%nat.
Proof. induction n as [|n IH]; intros pt; cbn [missing]; [lia|]. destruct (has PTE_V _); [|lia]. specialize (IH (PTE2PA (entry m pt (PX (Z.of_nat (S n)) va)))). lia. Qed.

Section pagetable.
Context (kend : Z).

(** [tbl] gives the level of each page of the table with root [root]. *)
Record tables (m : kmem) (root : Z) (tbl : gmap Z nat) : Prop := {
  tb_root : tbl !! root = Some 2%nat;
  tb_page : ∀ p n, tbl !! p = Some n → valid_page kend p ∧ ∃ l, pages m !! p = Some l ∧ page_wf l;
  tb_child : ∀ p n i, tbl !! p = Some (S n) → idx i → has PTE_V (entry m p i) = true →
    tbl !! PTE2PA (entry m p i) = Some n;
  tb_inj : ∀ p n i q k j, tbl !! p = Some (S n) → tbl !! q = Some (S k) → idx i → idx j →
    has PTE_V (entry m p i) = true → has PTE_V (entry m q j) = true →
    PTE2PA (entry m p i) = PTE2PA (entry m q j) → p = q ∧ i = j;
}.

Lemma tb_aligned m root tbl p n : tables m root tbl → tbl !! p = Some n → aligned p.
Proof. intros T Hp. by destruct (tb_page _ _ _ T p n Hp) as [(Ha & _) _]. Qed.

Lemma valid_pa p : valid_page kend p → is_pa p.
Proof. intros (Ha & Hr & Hp). split; [done|]. unfold PHYSTOP, KERNBASE in Hr. lia. Qed.

Lemma walk_levels_false m root tbl n : ∀ pt va, tables m root tbl → tbl !! pt = Some n →
  walk_levels n pt va false m = Done (find m n pt va, m).
Proof.
  induction n as [|n IH]; intros pt va T Hp; [done|]. cbn [walk_levels find].
  destruct (tb_page _ _ _ T pt _ Hp) as (_ & l & Hl & _). pose proof (tb_aligned _ _ _ _ _ T Hp) as Ha.
  rewrite (run_bind _ _ _ _ _ (load64_run m pt _ l Ha (PX_idx _ _) Hl)).
  destruct (has PTE_V _) eqn:Hv; [|done]. apply IH; [done|]. by apply (tb_child _ _ _ T pt n); [|apply PX_idx|].
Qed.

Lemma walk_false m root tbl va : tables m root tbl → va < MAXVA → walk root va false m = Done (find m 2 root va, m).
Proof.
  intros T Hva. unfold walk. rewrite (proj2 (Z.leb_gt _ _)) by done. apply (walk_levels_false m root tbl); [done|apply T].
Qed.

(** A walk ends at an entry of a table of level 0. *)
Lemma find_leaf m root tbl n : ∀ pt va a, tables m root tbl → tbl !! pt = Some n → find m n pt va = Some a →
  ∃ p, tbl !! p = Some 0%nat ∧ a = pte_addr p (PX 0 va).
Proof.
  induction n as [|n IH]; intros pt va a T Hp; cbn [find]; [intros [= <-]; by exists pt|].
  destruct (has PTE_V _) eqn:Hv; [|done]. apply IH; [done|]. by apply (tb_child _ _ _ T pt n); [|apply PX_idx|].
Qed.

(** Two walks that end at the same entry are for the same page. *)
Lemma find_inj m root tbl n : ∀ pt pt' va va' a, tables m root tbl → tbl !! pt = Some n → tbl !! pt' = Some n →
  find m n pt va = Some a → find m n pt' va' = Some a →
  pt = pt' ∧ ∀ k, 0 ≤ k ≤ Z.of_nat n → PX k va = PX k va'.
Proof.
  induction n as [|n IH]; intros pt pt' va va' a T Hp Hp'; cbn [find].
  - intros [= <-] [= He]. destruct (pte_addr_inj pt' pt (PX 0 va') (PX 0 va)) as [-> Hx];
      [by eapply tb_aligned|by eapply tb_aligned|apply PX_idx|apply PX_idx|done|].
    split; [done|]. intros k Hk. by replace k with 0 by lia.
  - destruct (has PTE_V (entry m pt _)) eqn:Hv; [|done]. destruct (has PTE_V (entry m pt' _)) eqn:Hv'; [|done].
    intros Hf Hf'. pose proof (PX_idx (Z.of_nat (S n)) va) as Hi. pose proof (PX_idx (Z.of_nat (S n)) va') as Hi'.
    destruct (IH _ _ va va' a T (tb_child _ _ _ T pt n _ Hp Hi Hv) (tb_child _ _ _ T pt' n _ Hp' Hi' Hv') Hf Hf') as [Hc Hk].
    destruct (tb_inj _ _ _ T pt n _ pt' n _ Hp Hp' Hi Hi' Hv Hv' Hc) as [-> Hx]. split; [done|].
    intros k Hkn. destruct (decide (k = Z.of_nat (S n))) as [->|]; [done|]. apply Hk. lia.
Qed.

Lemma PX_page va va' : 0 ≤ va < MAXVA → 0 ≤ va' < MAXVA → (∀ k, 0 ≤ k ≤ 2 → PX k va = PX k va') →
  va / PGSIZE = va' / PGSIZE.
Proof.
  unfold MAXVA, PGSIZE. intros Hv Hv' Hk.
  assert (Hpx : ∀ k v, 0 ≤ k → PX k v = v / 2 ^ (12 + 9 * k) mod 512).
  { intros k v H0. unfold PX. change 0x1FF with (Z.ones 9). rewrite Z.land_ones, Z.shiftr_div_pow2 by lia. done. }
  pose proof (Hk 0 ltac:(lia)) as H0. pose proof (Hk 1 ltac:(lia)) as H1. pose proof (Hk 2 ltac:(lia)) as H2.
  rewrite !Hpx in H0, H1, H2 by lia. cbn [Z.mul Z.add Z.pow Z.pow_pos Pos.iter] in *.
  clear -Hv Hv' H0 H1 H2. Z.div_mod_to_equations. lia.
Qed.

(** The page-table entry for an address, valid or not. *)
Definition upte (m : kmem) (root va : Z) : option Z := word m <$> find m 2 root va.

(** The entries that matter: those of the tree. *)
Definition same_tables (tbl : gmap Z nat) (m m' : kmem) : Prop := ∀ p n, tbl !! p = Some n → pages m' !! p = pages m !! p.

Lemma tables_same m m' root tbl : tables m root tbl → same_tables tbl m m' → tables m' root tbl.
Proof.
  intros T Hs. assert (He : ∀ p n i, tbl !! p = Some n → idx i → entry m' p i = entry m p i).
  { intros p n i Hp Hi. apply entry_ext; [by eapply tb_aligned|done|by eapply Hs]. }
  destruct T as [T1 T2 T3 T4]. split; [done| | |].
  - intros p n Hp. rewrite (Hs p n Hp). by apply (T2 p n).
  - intros p n i Hp Hi. rewrite (He p (S n)) by done. by apply (T3 p n).
  - intros p n i q k j Hp Hq Hi Hj. rewrite (He p (S n)), (He q (S k)) by done. by apply (T4 p n i q k j).
Qed.

(** Nothing changes above level 0. *)
Definition same_inner (tbl : gmap Z nat) (m m' : kmem) : Prop :=
  ∀ p n i, tbl !! p = Some (S n) → idx i → entry m' p i = entry m p i.

Lemma find_inner m m' root tbl n : ∀ pt va, tables m root tbl → tbl !! pt = Some n → same_inner tbl m m' →
  find m' n pt va = find m n pt va.
Proof.
  induction n as [|n IH]; intros pt va T Hp Hs; [done|]. cbn [find].
  rewrite (Hs pt n) by (done || apply PX_idx). destruct (has PTE_V _) eqn:Hv; [|done].
  apply IH; [done| |done]. by apply (tb_child _ _ _ T pt n); [|apply PX_idx|].
Qed.

Lemma upte_same m m' root tbl va : tables m root tbl → same_tables tbl m m' → upte m' root va = upte m root va.
Proof.
  intros T Hs. unfold upte. assert (Hin : same_inner tbl m m').
  { intros p n i Hp Hi. apply entry_ext; [by eapply tb_aligned|done|by eapply Hs]. }
  rewrite (find_inner m m' root tbl 2 root va T (tb_root _ _ _ T) Hin).
  destruct (find m 2 root va) as [a|] eqn:Hf; [|done]. cbn. f_equal.
  destruct (find_leaf m root tbl 2 root va a T (tb_root _ _ _ T) Hf) as (p & Hp & ->).
  apply entry_ext; [by eapply tb_aligned|apply PX_idx|by eapply Hs].
Qed.

(** A leaf entry is written. *)
Lemma tables_leaf m root tbl p i v : tables m root tbl → tbl !! p = Some 0%nat → idx i → 0 ≤ v < 2 ^ 64 →
  tables (with_entry p i v m) root tbl ∧ same_inner tbl m (with_entry p i v m).
Proof.
  intros T Hp Hi Hv. destruct (tb_page _ _ _ T p _ Hp) as (_ & l & Hl & Hwf). pose proof (tb_aligned _ _ _ _ _ T Hp) as Ha.
  assert (Hs : same_inner tbl m (with_entry p i v m)).
  { intros q n j Hq Hj. rewrite (entry_with p i v m l) by (done || by eapply tb_aligned).
    rewrite decide_False; [done|]. intros [-> _]. congruence. }
  split; [|done]. pose proof T as [T1 T2 T3 T4]. split; [done| | |].
  - intros q n Hq. destruct (T2 q n Hq) as [Hval Hpage]. split; [done|].
    destruct (decide (q = p)) as [->|Hne]; [by eapply with_entry_wf|by rewrite with_entry_other].
  - intros q n j Hq Hj. rewrite (Hs q n) by done. by apply T3.
  - intros q n j r k o Hq Hr Hj Ho. rewrite (Hs q n), (Hs r k) by done. by apply (T4 q n j r k o).
Qed.

(** ** Adding a table *)

(** A page table, the free list and the user pages, all apart. *)
Record space (m : kmem) (root : Z) (tbl : gmap Z nat) (l : list Z) : Prop := {
  sp_tables : tables m root tbl;
  sp_chain : chain kend m (freelist m) l;
  sp_nodup : NoDup l;
  sp_free : ∀ p, p ∈ l → tbl !! p = None;
  sp_user : ∀ p i, tbl !! p = Some 0%nat → idx i → has PTE_V (entry m p i) = true → has PTE_U (entry m p i) = true →
    tbl !! PTE2PA (entry m p i) = None ∧ PTE2PA (entry m p i) ∉ l ∧ valid_page kend (PTE2PA (entry m p i)) ∧
    ∃ b, pages m !! PTE2PA (entry m p i) = Some b ∧ page_wf b;
  sp_uinj : ∀ p i q j, tbl !! p = Some 0%nat → tbl !! q = Some 0%nat → idx i → idx j →
    has PTE_V (entry m p i) = true → has PTE_U (entry m p i) = true →
    has PTE_V (entry m q j) = true → has PTE_U (entry m q j) = true →
    PTE2PA (entry m p i) = PTE2PA (entry m q j) → p = q ∧ i = j;
}.

(** From [m] to [m']: tables were added, translations kept. *)
Record grown (root : Z) (m : kmem) (tbl : gmap Z nat) (l : list Z) (m' : kmem) (tbl' : gmap Z nat) (l' : list Z) : Prop := {
  gr_space : space m' root tbl' l';
  gr_tbl : ∀ p n, tbl !! p = Some n → tbl' !! p = Some n;
  gr_free : ∀ p, p ∈ l' → p ∈ l;
  gr_new : ∀ p n, tbl' !! p = Some n → tbl !! p = Some n ∨ p ∈ l;
  gr_frame : ∀ p, p ∉ l → tbl !! p = None ∨ tbl !! p = Some 0%nat → pages m' !! p = pages m !! p;
  gr_entry : ∀ p n i, tbl !! p = Some (S n) → idx i → has PTE_V (entry m p i) = true → entry m' p i = entry m p i;
  gr_empty : ∀ p i, tbl' !! p = Some 0%nat → idx i → has PTE_V (entry m' p i) = true → tbl !! p = Some 0%nat;
  gr_find : ∀ va a, find m 2 root va = Some a → find m' 2 root va = Some a;
  gr_zero : ∀ va a, find m 2 root va = None → find m' 2 root va = Some a → word m' a = 0;
  gr_kept : ∀ p, p ∈ l → p ∈ l' ∨ is_Some (tbl' !! p);
}.

Lemma zeros_wf : page_wf (replicate (Z.to_nat PGSIZE) 0).
Proof.
  split; [by rewrite length_replicate|]. apply Forall_replicate. unfold is_u8. lia.
Qed.

(** The state after page [a] from the free list became the table below entry [i] of [p]. *)
Definition add_table (p i a : Z) (m : kmem) : kmem :=
  with_entry p i (new_pte a 0) (set_page a (replicate (Z.to_nat PGSIZE) 0) m).

Section add.
Context (root : Z) (m m1 : kmem) (tbl : gmap Z nat) (l : list Z) (p i a : Z) (n : nat).
Context (Hs : space m root tbl (a :: l)) (Hp : tbl !! p = Some (S n)) (Hi : idx i).
Context (Hinv : has PTE_V (entry m p i) = false) (Hm1 : ∀ q, q ≠ a → pages m1 !! q = pages m !! q).
Context (Hc1 : chain kend m1 (freelist m1) l).
Local Notation m2 := (add_table p i a m1).

Lemma add_fresh : tbl !! a = None ∧ a ∉ l ∧ p ≠ a ∧ is_pa a ∧ aligned a ∧ valid_page kend a.
Proof.
  assert (Ha : tbl !! a = None) by (apply (sp_free _ _ _ _ Hs); left).
  pose proof (sp_chain _ _ _ _ Hs) as Hc. cbn [chain] in Hc. destruct Hc as (_ & Hv & _).
  pose proof (sp_nodup _ _ _ _ Hs) as [Hn _]%NoDup_cons. split_and!; try done; [congruence|by apply valid_pa|apply Hv].
Qed.

Lemma add_pages q : q ≠ p → q ≠ a → pages m2 !! q = pages m !! q.
Proof.
  intros Hqp Hqa. unfold add_table. rewrite with_entry_other by done. cbn [pages set_page].
  rewrite lookup_insert_ne by done. by apply Hm1.
Qed.

Lemma add_page_a : pages m2 !! a = Some (replicate (Z.to_nat PGSIZE) 0).
Proof.
  destruct add_fresh as (_ & _ & Hpa & _). unfold add_table. rewrite with_entry_other by done. cbn [pages set_page].
  by rewrite lookup_insert_eq.
Qed.

Lemma add_entry q j k : tbl !! q = Some k → idx j → entry m2 q j = if decide (q = p ∧ j = i) then new_pte a 0 else entry m q j.
Proof.
  intros Hq Hj. destruct add_fresh as (Ha & _ & Hpa & Hisa & _). pose proof (sp_tables _ _ _ _ Hs) as T.
  destruct (tb_page _ _ _ T p _ Hp) as (_ & b & Hb & Hwf).
  assert (Hqa : q ≠ a) by congruence. pose proof (tb_aligned _ _ _ _ _ T Hq). pose proof (tb_aligned _ _ _ _ _ T Hp).
  unfold add_table. rewrite (entry_with p i _ _ b); try done.
  - destruct (decide (q = p ∧ j = i)); [done|]. apply entry_ext; [done|done|]. cbn [pages set_page].
    rewrite lookup_insert_ne by done. by apply Hm1.
  - cbn [pages set_page]. rewrite lookup_insert_ne by done. by rewrite Hm1.
  - by apply new_pte_u64.
Qed.

Lemma add_entry_a j : idx j → entry m2 a j = 0.
Proof. intros Hj. apply entry_zero; [by apply add_fresh|done|apply add_page_a]. Qed.

Lemma add_tables : tables m2 root (<[a := n]> tbl).
Proof.
  destruct add_fresh as (Ha & _ & Hpa & Hisa & Hal & Hval). pose proof (sp_tables _ _ _ _ Hs) as T.
  assert (Hcase : ∀ q k, <[a := n]> tbl !! q = Some k → (q = a ∧ k = n) ∨ (q ≠ a ∧ tbl !! q = Some k)).
  { intros q k [[<- <-]|[Hq Hk]]%lookup_insert_Some; [by left|by right]. }
  assert (Hz : ∀ j, has PTE_V (entry m2 a j) = true → idx j → False) by (intros j Hv Hj; by rewrite add_entry_a in Hv).
  split.
  - rewrite lookup_insert_ne; [apply T|]. intros ->. by rewrite (tb_root _ _ _ T) in Ha.
  - intros q k [[-> ->]|[Hq Hk]]%Hcase; [split; [done|eexists; split; [apply add_page_a|apply zeros_wf]]|].
    destruct (tb_page _ _ _ T q k Hk) as (Hv & b & Hb & Hwf). split; [done|].
    destruct (decide (q = p)) as [->|Hqp]; [|exists b; by rewrite add_pages].
    apply (with_entry_wf p i _ _ b); [done| |done]. cbn [pages set_page]. rewrite lookup_insert_ne by done. by rewrite Hm1.
  - intros q k j [[-> _]|[Hq Hk]]%Hcase Hj Hv; [by destruct (Hz j)|]. rewrite (add_entry q j (S k)) in Hv |- * by done.
    destruct (decide (q = p ∧ j = i)) as [[-> ->]|Hne].
    + rewrite PTE2PA_new by (done || lia). rewrite lookup_insert_eq. congruence.
    + pose proof (tb_child _ _ _ T q k j Hk Hj Hv) as Hch. rewrite lookup_insert_ne; [done|]. congruence.
  - intros q k j r k' o [[-> _]|[Hq Hk]]%Hcase [[-> _]|[Hr Hk']]%Hcase Hj Ho Hv Hv';
      [by destruct (Hz j)|by destruct (Hz j)|by destruct (Hz o)|].
    rewrite (add_entry q j (S k)) in Hv |- * by done. rewrite (add_entry r o (S k')) in Hv' |- * by done.
    destruct (decide (q = p ∧ j = i)) as [[-> ->]|Hne], (decide (r = p ∧ o = i)) as [[-> ->]|Hne'];
      rewrite ?PTE2PA_new by (done || lia); intros He.
    + done.
    + pose proof (tb_child _ _ _ T r k' o Hk' Ho Hv') as Hch. congruence.
    + pose proof (tb_child _ _ _ T q k j Hk Hj Hv) as Hch. congruence.
    + by apply (tb_inj _ _ _ T q k j r k' o).
Qed.

Lemma add_chain : chain kend m2 (freelist m2) l.
Proof.
  destruct add_fresh as (_ & Hal & Hpa & _). apply (chain_frame kend m1); [done|]. intros q Hq.
  assert (q ≠ a) by (intros ->; done). assert (q ≠ p).
  { intros ->. pose proof (sp_free _ _ _ _ Hs p ltac:(by right)). congruence. }
  unfold add_table. rewrite with_entry_other by done. cbn [pages set_page]. by rewrite lookup_insert_ne.
Qed.

Lemma add_find k : ∀ pt va b, tbl !! pt = Some k → find m k pt va = Some b → find m2 k pt va = Some b.
Proof.
  pose proof (sp_tables _ _ _ _ Hs) as T. induction k as [|k IH]; intros pt va b Hpt; [done|]. cbn [find].
  destruct (has PTE_V (entry m pt _)) eqn:Hv; [|done]. rewrite (add_entry pt _ (S k)) by (done || apply PX_idx).
  rewrite decide_False by (intros [-> Hx]; rewrite Hx in Hv; congruence). rewrite Hv.
  apply IH. by apply (tb_child _ _ _ T pt k); [|apply PX_idx|].
Qed.

Lemma add_zero k : ∀ pt va b, tbl !! pt = Some k → find m k pt va = None → find m2 k pt va = Some b → word m2 b = 0.
Proof.
  pose proof (sp_tables _ _ _ _ Hs) as T. destruct add_fresh as (_ & _ & _ & Hisa & _).
  induction k as [|k IH]; intros pt va b Hpt; [done|]. cbn [find].
  rewrite (add_entry pt _ (S k)) by (done || apply PX_idx).
  destruct (decide (pt = p ∧ PX (Z.of_nat (S k)) va = i)) as [[-> Hx]|Hne].
  - intros _. rewrite new_pte_valid, PTE2PA_new by (done || lia). pose proof add_entry_a as Hz.
    assert (k = n) as -> by congruence. clear IH. destruct n as [|n']; cbn [find].
    + intros [= <-]. apply (Hz (PX 0 va)), PX_idx.
    + by rewrite Hz by apply PX_idx.
  - destruct (has PTE_V (entry m pt _)) eqn:Hv; [|done]. apply IH. by apply (tb_child _ _ _ T pt k); [|apply PX_idx|].
Qed.

Lemma add_grown : grown root m tbl (a :: l) m2 (<[a := n]> tbl) l.
Proof.
  destruct add_fresh as (Ha & Hal & Hpa & Hisa & _). pose proof (sp_tables _ _ _ _ Hs) as T.
  assert (Hle : ∀ q k, tbl !! q = Some k → <[a := n]> tbl !! q = Some k).
  { intros q k Hq. rewrite lookup_insert_ne; [done|]. congruence. }
  split.
  - split; [apply add_tables|apply add_chain|by destruct (proj1 (NoDup_cons _ _) (sp_nodup _ _ _ _ Hs))| | |].
    + intros q Hq. rewrite lookup_insert_ne by (by intros ->). apply (sp_free _ _ _ _ Hs). by right.
    + intros q j [[<- Hn]|[Hqa Hq]]%lookup_insert_Some Hj Hv Hu; [by rewrite add_entry_a in Hv|].
      rewrite (add_entry q j 0) in Hv, Hu |- * by done.
      rewrite decide_False in Hv, Hu |- * by (intros [-> _]; congruence).
      destruct (sp_user _ _ _ _ Hs q j Hq Hj Hv Hu) as (U1 & U2 & U3 & b & U4 & U5).
      apply not_elem_of_cons in U2 as [U2 U2']. split_and!; [by rewrite lookup_insert_ne|done|done|].
      exists b. rewrite add_pages; [done| |done]. congruence.
    + intros q j r o [[<- Hn]|[_ Hq]]%lookup_insert_Some [[<- Hn']|[_ Hr]]%lookup_insert_Some Hj Ho Hv Hu Hv' Hu';
        [by rewrite add_entry_a in Hv|by rewrite add_entry_a in Hv|by rewrite add_entry_a in Hv'|].
      rewrite (add_entry q j 0) in Hv, Hu |- * by done. rewrite (add_entry r o 0) in Hv', Hu' |- * by done.
      rewrite decide_False in Hv, Hu by (intros [-> _]; congruence).
      rewrite decide_False in Hv', Hu' by (intros [-> _]; congruence).
      rewrite !decide_False by (intros [-> _]; congruence). by apply (sp_uinj _ _ _ _ Hs q j r o).
  - exact Hle.
  - intros q Hq. by right.
  - intros q k [[<- _]|[_ Hq]]%lookup_insert_Some; [right; left|by left].
  - intros q Hq Hk. apply not_elem_of_cons in Hq as [Hqa _]. apply add_pages; [|done]. intros ->. destruct Hk; congruence.
  - intros q k j Hq Hj Hv. rewrite (add_entry q j (S k)), decide_False; [done| |done|done]. intros [-> ->]. congruence.
  - intros q j [[<- _]|[_ Hq]]%lookup_insert_Some Hj Hv; [by rewrite add_entry_a in Hv|done].
  - intros va b. apply add_find, T.
  - intros va b. apply add_zero, T.
  - intros q [->|Hq]%elem_of_cons; [right; by rewrite lookup_insert_eq|by left].
Qed.
End add.

Lemma grown_refl root m tbl l : space m root tbl l → grown root m tbl l m tbl l.
Proof. intros S. split; try done; [by left|by intros va a ->|by left]. Qed.

Lemma grown_trans root m tbl l m1 tbl1 l1 m2 tbl2 l2 :
  grown root m tbl l m1 tbl1 l1 → grown root m1 tbl1 l1 m2 tbl2 l2 → grown root m tbl l m2 tbl2 l2.
Proof.
  intros [A1 A2 A3 A4 A5 A0 AE A6 A7 A8] [B1 B2 B3 B4 B5 B0 BE B6 B7 B8]. split.
  - done.
  - intros p n Hp. by apply B2, A2.
  - intros p Hp. by apply A3, B3.
  - intros p n [Hp|Hp]%B4; [by apply A4|right; by apply A3].
  - intros p Hp Hk. rewrite B5, A5; [done|done|done|by intros Hp1; apply Hp, A3|].
    destruct Hk as [Hk|Hk]; [|right; by apply A2]. destruct (tbl1 !! p) as [n|] eqn:Hn; [|by left].
    destruct (A4 p n Hn); [congruence|done].
  - intros p n i Hp Hi Hv. pose proof (A0 p n i Hp Hi Hv) as He. rewrite (B0 p n i); [done|by apply A2|done|by rewrite He].
  - intros p i Hp Hi Hv. pose proof (BE p i Hp Hi Hv) as Hp1. apply (AE p i Hp1 Hi).
    rewrite <- (entry_ext m1 m2 p i); [done|by eapply tb_aligned; [apply A1|]|done|]. apply B5; [|by right].
    intros Hin. pose proof (sp_free _ _ _ _ A1 p Hin). congruence.
  - intros va a Hf. by apply B6, A6.
  - intros va a Hn Hf. destruct (find m1 2 root va) as [a1|] eqn:Hf1; [|by apply (B7 va)].
    pose proof (B6 va a1 Hf1) as Hf2. replace a1 with a in * by congruence.
    destruct (find_leaf m1 root tbl1 2 root va a (sp_tables _ _ _ _ A1) (tb_root _ _ _ (sp_tables _ _ _ _ A1)) Hf1) as (p & Hp & ->).
    transitivity (word m1 (pte_addr p (PX 0 va))); [|by apply (A7 va)]. apply entry_ext; [by eapply tb_aligned; [apply A1|]|apply PX_idx|].
    apply B5; [|by right]. intros Hin. pose proof (sp_free _ _ _ _ A1 p Hin). congruence.
  - intros p [Hp|[n Hp]]%A8; [by apply B8|right; exists n; by apply B2].
Qed.

(** [walk] with allocation: the entry, or nothing when memory runs out. *)
Lemma walk_levels_true root n : ∀ pt va m tbl l, space m root tbl l → tbl !! pt = Some n →
  ∃ o m' tbl' l', walk_levels n pt va true m = Done (o, m') ∧ grown root m tbl l m' tbl' l' ∧
    match o with
    | Some a => find m' n pt va = Some a ∧ length l = (length l' + missing m n pt va)%nat
    | None => (length l < missing m n pt va)%nat
    end.
Proof.
  induction n as [|n IH]; intros pt va m tbl l S Hpt.
  { exists (Some (pte_addr pt (PX 0 va))), m, tbl, l. split_and!; [done|by apply grown_refl|done|cbn; lia]. }
  pose proof (sp_tables _ _ _ _ S) as T. cbn [walk_levels find missing].
  destruct (tb_page _ _ _ T pt _ Hpt) as (_ & b & Hb & Hwf). pose proof (tb_aligned _ _ _ _ _ T Hpt) as Ha.
  rewrite (run_bind _ _ _ _ _ (load64_run m pt _ b Ha (PX_idx _ _) Hb)).
  destruct (has PTE_V (entry m pt _)) eqn:Hv.
  { pose proof (tb_child _ _ _ T pt n _ Hpt (PX_idx _ _) Hv) as Hch.
    destruct (IH _ va m tbl l S Hch) as (o & m' & tbl' & l' & E & G & Hf). exists o, m', tbl', l'.
    split_and!; [done|done|]. destruct o as [a|]; [|done].
    by rewrite (gr_entry _ _ _ _ _ _ _ G pt n _ Hpt (PX_idx _ va) Hv), Hv. }
  cbn [negb]. pose proof (kalloc_spec kend m l (sp_chain _ _ _ _ S) (sp_nodup _ _ _ _ S)) as Hk.
  destruct l as [|q l].
  - exists None, m, tbl, []. unfold palloc. rewrite (run_bind _ _ m 0 m) by (by rewrite Hk).
    split_and!; [done|by apply grown_refl|cbn; lia].
  - destruct Hk as (m1 & Hk & Hc1 & _ & Hm1).
    rewrite (run_bind palloc _ m q m1) by (unfold palloc; by rewrite Hk).
    pose proof (add_grown root m m1 tbl l pt _ q n S Hpt (PX_idx _ va) Hv Hm1 Hc1) as G1.
    destruct (add_fresh root m tbl l pt q n S Hpt) as (Hq & _ & Hptq & Hisq & _ & Hvq).
    rewrite (proj2 (Z.eqb_neq q 0)) by (destruct Hvq as (_ & _ & ?); lia).
    rewrite (run_bind (zero_page q) _ m1 () (set_page q (replicate (Z.to_nat PGSIZE) 0) m1)) by done.
    rewrite (run_bind _ _ _ () (add_table pt (PX (Z.of_nat (Datatypes.S n)) va) q m1)).
    2: { unfold add_table, new_pte. rewrite Z.lor_0_r. apply (store64_run _ _ _ b); [done|apply PX_idx|].
         cbn [pages set_page]. rewrite lookup_insert_ne by done. by rewrite Hm1. }
    destruct (IH q va _ _ l (gr_space _ _ _ _ _ _ _ G1)) as (o & m' & tbl' & l' & E & G & Hf); [by rewrite lookup_insert_eq|].
    exists o, m', tbl', l'. split_and!; [done|by apply (grown_trans root m tbl (q :: l) _ _ _ m' tbl' l' G1)|].
    rewrite (missing_zero _ n q) in Hf by (by eapply add_entry_a).
    destruct o as [a|]; [|cbn; lia]. destruct Hf as [Hf Hlen]. split; [|cbn; lia].
    assert (Hpt' : <[q := n]> tbl !! pt = Some (Datatypes.S n)) by (by rewrite lookup_insert_ne).
    assert (He : entry (add_table pt (PX (Z.of_nat (Datatypes.S n)) va) q m1) pt (PX (Z.of_nat (Datatypes.S n)) va) = new_pte q 0).
    { rewrite (add_entry root m m1 tbl l pt _ q n S Hpt (PX_idx _ va) Hm1 pt _ (Datatypes.S n)) by (done || apply PX_idx).
      by rewrite decide_True. }
    rewrite (gr_entry _ _ _ _ _ _ _ G pt n _ Hpt' (PX_idx _ va)), He; rewrite ?He, ?new_pte_valid; try (done || lia).
    by rewrite PTE2PA_new by (done || lia).
Qed.

(** ** Mapping a page *)

(** The valid entry for an address, and the valid user entry. *)
Definition kpte (m : kmem) (root va : Z) : option Z := e ← upte m root va; if has PTE_V e then Some e else None.
Definition vpte (m : kmem) (root va : Z) : option Z :=
  e ← upte m root va; if has PTE_V e && has PTE_U e then Some e else None.

Definition user (e : Z) : option Z := if has PTE_U e then Some e else None.
Lemma vpte_kpte m root va : vpte m root va = kpte m root va ≫= user.
Proof. unfold vpte, kpte, user. destruct (upte m root va) as [e|]; [|done]. cbn. by destruct (has PTE_V e). Qed.

Lemma vpte_Some m root va e : vpte m root va = Some e ↔
  ∃ a, find m 2 root va = Some a ∧ e = word m a ∧ has PTE_V e = true ∧ has PTE_U e = true.
Proof.
  unfold vpte, upte. destruct (find m 2 root va) as [a|]; cbn; [|split; [done|by intros (a & ? & _)]].
  destruct (has PTE_V (word m a)) eqn:Hv, (has PTE_U (word m a)) eqn:Hu; cbn;
    (split; [try done; intros [= <-]; by exists a|intros (a' & [= <-] & -> & ? & ?)]; congruence).
Qed.

(** [m'] maps what [m] maps, and perhaps pages that were free; pages of [P] may have been written. *)
Record extends (P : Z → Prop) (root : Z) (m : kmem) (tbl : gmap Z nat) (l : list Z) (m' : kmem) (tbl' : gmap Z nat)
    (l' : list Z) : Prop := {
  ex_space : space m' root tbl' l';
  ex_free : ∀ p, p ∈ l' → p ∈ l;
  ex_tbl : ∀ p n, tbl' !! p = Some n → tbl !! p = Some n ∨ p ∈ l;
  ex_old : ∀ va e, 0 ≤ va < MAXVA → vpte m root va = Some e → vpte m' root va = Some e;
  ex_new : ∀ va e, 0 ≤ va < MAXVA → vpte m' root va = Some e → vpte m root va = Some e ∨ PTE2PA e ∈ l;
  ex_frame : ∀ p, p ∉ l → tbl !! p = None → ¬ P p → pages m' !! p = pages m !! p;
}.

(** Pages the user can write. *)
Definition wpage (m : kmem) (root p : Z) : Prop :=
  ∃ va e, 0 ≤ va < MAXVA ∧ vpte m root va = Some e ∧ has PTE_W e = true ∧ PTE2PA e = p.
Definition nothing (p : Z) : Prop := False.

Lemma extends_refl P root m tbl l : space m root tbl l → extends P root m tbl l m tbl l.
Proof. intros S. split; try done; by left. Qed.

Lemma extends_weaken (P Q : Z → Prop) root m tbl l m' tbl' l' : (∀ p, P p → Q p) →
  extends P root m tbl l m' tbl' l' → extends Q root m tbl l m' tbl' l'.
Proof. intros HPQ [A1 A2 A3 A4 A5 A6]. split; try done. intros p Hp Ht HQ. apply A6; auto. Qed.

Lemma extends_trans_gen (P Q : Z → Prop) root m tbl l m1 tbl1 l1 m2 tbl2 l2 : (∀ p, Q p → P p ∨ p ∈ l) →
  extends P root m tbl l m1 tbl1 l1 → extends Q root m1 tbl1 l1 m2 tbl2 l2 → extends P root m tbl l m2 tbl2 l2.
Proof.
  intros HQ [A1 A2 A3 A4 A5 A6] [B1 B2 B3 B4 B5 B6]. split.
  - done.
  - intros p Hp. by apply A2, B2.
  - intros p n [Hp|Hp]%B3; [by apply A3|right; by apply A2].
  - intros va e Hva He. by apply B4, A4.
  - intros va e Hva [He|He]%B5; [by apply A5|right; by apply A2|done].
  - intros p Hp Ht HP. rewrite B6, A6; [done|done|done|done|by intros Hin; apply Hp, A2| |by intros [?|?]%HQ].
    destruct (tbl1 !! p) as [n|] eqn:Hn; [|done]. destruct (A3 p n Hn); [congruence|done].
Qed.

Lemma extends_trans root m tbl l m1 tbl1 l1 m2 tbl2 l2 :
  extends nothing root m tbl l m1 tbl1 l1 → extends nothing root m1 tbl1 l1 m2 tbl2 l2 →
  extends nothing root m tbl l m2 tbl2 l2.
Proof. apply extends_trans_gen. by intros p []. Qed.

Lemma extends_wtrans root m tbl l m1 tbl1 l1 m2 tbl2 l2 :
  extends (wpage m root) root m tbl l m1 tbl1 l1 → extends (wpage m1 root) root m1 tbl1 l1 m2 tbl2 l2 →
  extends (wpage m root) root m tbl l m2 tbl2 l2.
Proof.
  intros A. apply extends_trans_gen; [|done]. intros p (va & e & Hva & He & Hw & <-).
  destruct (ex_new _ _ _ _ _ _ _ _ A va e Hva He); [left; by exists va, e|by right].
Qed.

Lemma word_leaf m m' root tbl va a p : tables m root tbl → tbl !! p = Some 0%nat → a = pte_addr p (PX 0 va) →
  pages m' !! p = pages m !! p → word m' a = word m a.
Proof. intros T Hp -> He. apply entry_ext; [by eapply tb_aligned|apply PX_idx|done]. Qed.

(** The leaf a walk found, and that nothing frees or unmaps it while tables are added. *)
Lemma grown_word root m tbl l m' tbl' l' va a : tables m root tbl → (∀ p, p ∈ l → tbl !! p = None) →
  grown root m tbl l m' tbl' l' → find m 2 root va = Some a → word m' a = word m a.
Proof.
  intros T Hfree G Hf. destruct (find_leaf m root tbl 2 root va a T (tb_root _ _ _ T) Hf) as (p & Hp & Ha).
  apply (word_leaf m m' root tbl va a p T Hp Ha). apply (gr_frame _ _ _ _ _ _ _ G); [|by right].
  intros Hin. pose proof (Hfree p Hin). congruence.
Qed.

Lemma has_0 f : has f 0 = false.
Proof. done. Qed.

Lemma grown_kpte root m tbl l m' tbl' l' va : space m root tbl l → grown root m tbl l m' tbl' l' →
  kpte m' root va = kpte m root va.
Proof.
  intros S G. pose proof (sp_tables _ _ _ _ S) as T. unfold kpte, upte.
  destruct (find m 2 root va) as [a|] eqn:Hf.
  - rewrite (gr_find _ _ _ _ _ _ _ G va a Hf). cbn. by rewrite (grown_word root m tbl l m' tbl' l' va a T (sp_free _ _ _ _ S) G Hf).
  - destruct (find m' 2 root va) as [a|] eqn:Hf'; [|done]. cbn. by rewrite (gr_zero _ _ _ _ _ _ _ G va a Hf Hf').
Qed.

Lemma grown_vpte root m tbl l m' tbl' l' va : space m root tbl l → grown root m tbl l m' tbl' l' →
  vpte m' root va = vpte m root va.
Proof. intros S G. by rewrite !vpte_kpte, (grown_kpte root m tbl l m' tbl' l' va S G). Qed.

Lemma grown_extends root m tbl l m' tbl' l' : space m root tbl l → grown root m tbl l m' tbl' l' →
  extends nothing root m tbl l m' tbl' l'.
Proof.
  intros S G. pose proof G as [G1 G2 G3 G4 G5 G0 GE G6 G7 G8]. split; [done|done|done| | |].
  - intros va e _. by rewrite (grown_vpte root m tbl l m' tbl' l' va S G).
  - intros va e _. rewrite (grown_vpte root m tbl l m' tbl' l' va S G). by left.
  - intros p Hp Ht _. apply G5; [done|by left].
Qed.

(** The valid user entries of [m'] are those of [m]. *)
Lemma grown_user root m tbl l m' tbl' l' q j : space m root tbl l → grown root m tbl l m' tbl' l' →
  tbl' !! q = Some 0%nat → idx j → has PTE_V (entry m' q j) = true → tbl !! q = Some 0%nat ∧ entry m' q j = entry m q j.
Proof.
  intros S G Hq Hj Hv. pose proof (gr_empty _ _ _ _ _ _ _ G q j Hq Hj Hv) as Hq0. split; [done|].
  apply entry_ext; [by eapply tb_aligned; [apply S|]|done|]. apply (gr_frame _ _ _ _ _ _ _ G); [|by right].
  intros Hin. pose proof (sp_free _ _ _ _ S q Hin). congruence.
Qed.

(** One leaf entry that was not valid becomes a page taken from the free list. *)
Lemma space_map m root tbl l p i pa perm :
  space m root tbl l → tbl !! p = Some 0%nat → idx i → has PTE_V (entry m p i) = false → 0 ≤ perm < 1024 →
  valid_page kend pa → tbl !! pa = None → pa ∉ l → (∃ b, pages m !! pa = Some b ∧ page_wf b) →
  (∀ q j, tbl !! q = Some 0%nat → idx j → has PTE_V (entry m q j) = true → has PTE_U (entry m q j) = true →
    PTE2PA (entry m q j) ≠ pa) →
  space (with_entry p i (new_pte pa perm) m) root tbl l.
Proof.
  intros S Hp Hi Hinv Hperm Hpa Htpa Hlpa Hpage Hother. pose proof S as [T C N F U I].
  pose proof (valid_pa pa Hpa) as Hispa.
  destruct (tables_leaf m root tbl p i (new_pte pa perm) T Hp Hi (new_pte_u64 _ _ Hispa Hperm)) as [T' _].
  destruct (tb_page _ _ _ T p _ Hp) as (_ & b & Hb & Hwf).
  assert (He : ∀ q j, tbl !! q = Some 0%nat → idx j → entry (with_entry p i (new_pte pa perm) m) q j =
    if decide (q = p ∧ j = i) then new_pte pa perm else entry m q j).
  { intros q j Hq Hj. rewrite (entry_with p i _ m b) by (done || (by eapply tb_aligned) || by apply new_pte_u64). done. }
  assert (Hpg : ∀ q, q ≠ p → pages (with_entry p i (new_pte pa perm) m) !! q = pages m !! q) by (intros q Hq; by apply with_entry_other).
  split; [done| |done|done| |].
  - apply (chain_frame kend m); [done|]. intros q Hq. apply Hpg. intros ->. pose proof (F p Hq). congruence.
  - intros q j Hq Hj. rewrite He by done. destruct (decide (q = p ∧ j = i)) as [[-> ->]|Hne].
    + intros _ _. rewrite PTE2PA_new by done. split_and!; [done|done|done|]. rewrite Hpg; [done|congruence].
    + intros Hv Hu. destruct (U q j Hq Hj Hv Hu) as (U1 & U2 & U3 & c & U4 & U5). split_and!; [done|done|done|].
      exists c. rewrite Hpg; [done|]. congruence.
  - intros q j r o Hq Hr Hj Ho. rewrite !He by done.
    destruct (decide (q = p ∧ j = i)) as [[-> ->]|Hne], (decide (r = p ∧ o = i)) as [[-> ->]|Hne']; rewrite ?PTE2PA_new by done.
    + done.
    + intros _ _ Hv Hu Heq. by destruct (Hother r o Hr Ho Hv Hu).
    + intros Hv Hu _ _ Heq. by destruct (Hother q j Hq Hj Hv Hu).
    + by apply I.
Qed.

Lemma PX_div va va' : va / PGSIZE = va' / PGSIZE → ∀ k, 0 ≤ k → PX k va = PX k va'.
Proof.
  intros He k Hk. assert (Hpx : ∀ v, PX k v = Z.land (Z.shiftr (v / PGSIZE) (9 * k)) 0x1FF).
  { intros v. unfold PX, PGSIZE. f_equal. change 4096 with (2 ^ 12). rewrite <- Z.shiftr_div_pow2, Z.shiftr_shiftr by lia. done. }
  by rewrite !Hpx, He.
Qed.

Lemma find_div m n : ∀ pt va va', va / PGSIZE = va' / PGSIZE → find m n pt va = find m n pt va'.
Proof.
  induction n as [|n IH]; intros pt va va' He; cbn [find]; rewrite (PX_div va va' He) by lia; [done|].
  destruct (has PTE_V _); [|done]. by apply IH.
Qed.

(** The translations after the leaf of [va] is written. *)
Lemma kpte_write m root tbl va p v : tables m root tbl → tbl !! p = Some 0%nat → 0 ≤ v < 2 ^ 64 → 0 ≤ va < MAXVA →
  find m 2 root va = Some (pte_addr p (PX 0 va)) → ∀ va', 0 ≤ va' < MAXVA →
  kpte (with_entry p (PX 0 va) v m) root va' =
  if decide (va' / PGSIZE = va / PGSIZE) then (if has PTE_V v then Some v else None) else kpte m root va'.
Proof.
  intros T Hp Hv Hva Hf va' Hva'. destruct (tables_leaf m root tbl p (PX 0 va) v T Hp (PX_idx _ _) Hv) as [T' Hin].
  destruct (tb_page _ _ _ T p _ Hp) as (_ & b & Hb & Hwf). pose proof (tb_aligned _ _ _ _ _ T Hp) as Hal.
  unfold kpte, upte. rewrite (find_inner m _ root tbl 2 root va' T (tb_root _ _ _ T) Hin).
  destruct (decide (va' / PGSIZE = va / PGSIZE)) as [He|Hne].
  - rewrite (find_div m 2 root va' va He), Hf. cbn. fold (entry (with_entry p (PX 0 va) v m) p (PX 0 va)).
    rewrite (entry_with p _ v m b) by (done || apply PX_idx). by rewrite decide_True.
  - destruct (find m 2 root va') as [a|] eqn:Hf'; [|done]. cbn.
    destruct (find_leaf m root tbl 2 root va' a T (tb_root _ _ _ T) Hf') as (q & Hq & ->).
    fold (entry (with_entry p (PX 0 va) v m) q (PX 0 va')) (entry m q (PX 0 va')).
    rewrite (entry_with p _ v m b) by (done || apply PX_idx || by eapply tb_aligned).
    rewrite decide_False; [done|]. intros [-> Hx]. rewrite Hx in Hf'. destruct Hne.
    destruct (find_inj m root tbl 2 root root va' va _ T (tb_root _ _ _ T) (tb_root _ _ _ T) Hf' Hf) as [_ Hk].
    by apply PX_page.
Qed.

(** [mappages] of one page. *)
Record mapped (root : Z) (m : kmem) (tbl : gmap Z nat) (l : list Z) (va pte : Z) (m' : kmem) (tbl' : gmap Z nat) (l' : list Z) :
    Prop := {
  mp_space : space m' root tbl' l';
  mp_free : ∀ p, p ∈ l' → p ∈ l;
  mp_tbl : ∀ p n, tbl' !! p = Some n → tbl !! p = Some n ∨ p ∈ l;
  mp_kpte : ∀ va', 0 ≤ va' < MAXVA → kpte m' root va' = if decide (va' / PGSIZE = va / PGSIZE) then Some pte else kpte m root va';
  mp_frame : ∀ p, p ∉ l → tbl !! p = None → pages m' !! p = pages m !! p;
  mp_kept : ∀ p, p ∈ l → p ∈ l' ∨ is_Some (tbl' !! p);
  mp_old : ∀ p n, tbl !! p = Some n → tbl' !! p = Some n;
  mp_find : ∀ va' a, find m 2 root va' = Some a → find m' 2 root va' = Some a;
  mp_entry : ∀ q j, tbl' !! q = Some 0%nat → idx j → has PTE_V (entry m' q j) = true →
    find m' 2 root va = Some (pte_addr q j) ∨ tbl !! q = Some 0%nat ∧ entry m' q j = entry m q j;
  mp_length : (length l ≤ length l' + 2)%nat;
}.

Lemma mp_vpte root m tbl l va pte m' tbl' l' : mapped root m tbl l va pte m' tbl' l' → ∀ va', 0 ≤ va' < MAXVA →
  vpte m' root va' = if decide (va' / PGSIZE = va / PGSIZE) then (if has PTE_U pte then Some pte else None) else vpte m root va'.
Proof. intros M va' Hva'. rewrite !vpte_kpte, (mp_kpte _ _ _ _ _ _ _ _ _ M va' Hva'). by destruct (decide _). Qed.

Lemma mappages_page m root tbl l va pa perm :
  space m root tbl l → 0 ≤ va < MAXVA → va mod PGSIZE = 0 → 0 ≤ perm < 1024 →
  valid_page kend pa → tbl !! pa = None → pa ∉ l → (∃ b, pages m !! pa = Some b ∧ page_wf b) →
  (∀ q j, tbl !! q = Some 0%nat → idx j → has PTE_V (entry m q j) = true → has PTE_U (entry m q j) = true →
    PTE2PA (entry m q j) ≠ pa) →
  (∀ a, find m 2 root va = Some a → has PTE_V (word m a) = false) →
  ∃ r m' tbl' l', mappages root va PGSIZE pa perm m = Done (r, m') ∧
    (r = 0 ∧ mapped root m tbl l va (new_pte pa perm) m' tbl' l' ∨ r = -1 ∧ grown root m tbl l m' tbl' l' ∧ (length l < 2)%nat).
Proof.
  intros S Hva Hal Hperm Hpa Htpa Hlpa Hpage Hother Hinv. pose proof (sp_tables _ _ _ _ S) as T.
  unfold mappages. rewrite Hal, Z_mod_same_full. cbn [Z.eqb negb].
  change (Z.to_nat (PGSIZE / PGSIZE)) with 1%nat. change (PGSIZE =? 0) with false. cbn [map_loop].
  unfold walk. rewrite (proj2 (Z.leb_gt _ _)) by lia.
  destruct (walk_levels_true root 2 root va m tbl l S (tb_root _ _ _ T)) as (o & m1 & tbl1 & l1 & E & G & Hf).
  pose proof (missing_le m 2 va root) as Hmiss. rewrite (run_bind _ _ _ _ _ E).
  destruct o as [a|]; [|exists (-1), m1, tbl1, l1; split; [done|right; split_and!; [done|done|lia]]]. destruct Hf as [Hf Hlen]. pose proof (gr_space _ _ _ _ _ _ _ G) as S1. pose proof (sp_tables _ _ _ _ S1) as T1.
  destruct (find_leaf m1 root tbl1 2 root va a T1 (tb_root _ _ _ T1) Hf) as (p & Hp & ->).
  destruct (tb_page _ _ _ T1 p _ Hp) as (_ & b & Hb & Hwf). pose proof (tb_aligned _ _ _ _ _ T1 Hp) as Hap.
  assert (Hz : has PTE_V (entry m1 p (PX 0 va)) = false).
  { unfold entry. destruct (find m 2 root va) as [a|] eqn:Hfm.
    - pose proof (gr_find _ _ _ _ _ _ _ G va a Hfm) as Ha. replace a with (pte_addr p (PX 0 va)) in * by congruence.
      rewrite (grown_word root m tbl l m1 tbl1 l1 va _ T (sp_free _ _ _ _ S) G Hfm). by apply Hinv.
    - by rewrite (gr_zero _ _ _ _ _ _ _ G va _ Hfm Hf). }
  rewrite (run_bind _ _ _ _ _ (load64_run m1 p _ b Hap (PX_idx _ _) Hb)), Hz.
  rewrite (run_bind _ _ _ _ _ (store64_run m1 p _ b _ Hap (PX_idx _ _) Hb)).
  rewrite u64_id by (unfold is_u64, MAXVA, PGSIZE in *; lia).
  rewrite (proj2 (Z.eqb_eq va (va + PGSIZE - PGSIZE))) by lia. fold (new_pte pa perm).
  eexists 0, _, tbl1, l1. split; [done|]. left. split; [done|]. pose proof (valid_pa pa Hpa) as Hispa.
  assert (Htpa1 : tbl1 !! pa = None).
  { destruct (tbl1 !! pa) as [n|] eqn:Hn; [|done]. destruct (gr_new _ _ _ _ _ _ _ G pa n Hn); [congruence|done]. }
  assert (Hgpa : pages m1 !! pa = pages m !! pa) by (apply (gr_frame _ _ _ _ _ _ _ G); [done|by left]).
  assert (Hfind : ∀ va', find (with_entry p (PX 0 va) (new_pte pa perm) m1) 2 root va' = find m1 2 root va').
  { intros va'. apply (find_inner m1 _ root tbl1 2 root va' T1 (tb_root _ _ _ T1)).
    apply (tables_leaf m1 root tbl1); [done|done|apply PX_idx|by apply new_pte_u64]. }
  split.
  - apply (space_map m1 root tbl1 l1 p (PX 0 va) pa perm S1 Hp (PX_idx _ _) Hz Hperm Hpa Htpa1).
    + intros Hin. apply Hlpa. by apply (gr_free _ _ _ _ _ _ _ G).
    + by rewrite Hgpa.
    + intros q j Hq Hj Hv Hu Heq. destruct (grown_user root m tbl l m1 tbl1 l1 q j S G Hq Hj Hv) as [Hq0 Hqe].
      rewrite Hqe in Hv, Hu, Heq. by destruct (Hother q j Hq0 Hj Hv Hu).
  - apply G.
  - apply G.
  - intros va' Hva'. rewrite (kpte_write m1 root tbl1 va p (new_pte pa perm) T1 Hp (new_pte_u64 _ _ Hispa Hperm) Hva Hf va' Hva').
    rewrite new_pte_valid by done. destruct (decide _); [done|]. by rewrite (grown_kpte root m tbl l m1 tbl1 l1 va' S G).
  - intros q Hq Ht. rewrite with_entry_other; [apply (gr_frame _ _ _ _ _ _ _ G); [done|by left]|].
    intros ->. destruct (gr_new _ _ _ _ _ _ _ G p _ Hp); [congruence|done].
  - apply G.
  - apply G.
  - intros va' a Ha. rewrite Hfind. by apply (gr_find _ _ _ _ _ _ _ G).
  - intros q j Hq Hj Hv. rewrite Hfind, Hf. rewrite (entry_with p _ _ m1 b) in * by (done || (by eapply tb_aligned) || apply PX_idx || by apply new_pte_u64).
    destruct (decide (q = p ∧ j = PX 0 va)) as [[-> ->]|Hne]; [by left|right].
    by apply (grown_user root m tbl l m1 tbl1 l1 q j S G Hq Hj).
  - lia.
Qed.
End pagetable.
