(* ===== verification/Usermem.v ===== *)
(** * copyout and copyin of kernel/vm.c

    What the two do to a process's memory ([vbyte]: the byte a user address holds), and
    that they touch nothing else. *)

From S2P Require Import Prelude Effect Proc Kalloc Vm Pagetable.

Local Open Scope Z_scope.

Section usermem.
Context (kend : Z).

(** The byte at a user address. *)
Definition vbyte (m : kmem) (root va : Z) : option Z :=
  e ← vpte m root va; l ← pages m !! PTE2PA e; l !! off_of va.

(** ** The table's user entries *)

(** The leaf entry behind a translation. *)
Lemma vpte_leaf m root tbl l va e : space kend m root tbl l → vpte m root va = Some e →
  ∃ p, tbl !! p = Some 0%nat ∧ find m 2 root va = Some (pte_addr p (PX 0 va)) ∧ e = entry m p (PX 0 va) ∧
    has PTE_V e = true ∧ has PTE_U e = true.
Proof.
  intros S (a & Hf & -> & Hv & Hu)%vpte_Some. pose proof (sp_tables _ _ _ _ _ S) as T.
  destruct (find_leaf kend m root tbl 2 root va a T (tb_root _ _ _ _ T) Hf) as (p & Hp & ->). by exists p.
Qed.

Lemma vpte_page m root tbl l va e : space kend m root tbl l → vpte m root va = Some e →
  tbl !! PTE2PA e = None ∧ PTE2PA e ∉ l ∧ valid_page kend (PTE2PA e) ∧ ∃ b, pages m !! PTE2PA e = Some b ∧ page_wf b.
Proof.
  intros S He. destruct (vpte_leaf m root tbl l va e S He) as (p & Hp & _ & -> & Hv & Hu).
  by apply (sp_user _ _ _ _ _ S p (PX 0 va)); [|apply PX_idx|..].
Qed.

(** A page of user memory is at one virtual page. *)
Lemma vpte_inj m root tbl l va va' e e' : space kend m root tbl l → 0 ≤ va < MAXVA → 0 ≤ va' < MAXVA →
  vpte m root va = Some e → vpte m root va' = Some e' → PTE2PA e = PTE2PA e' → va / PGSIZE = va' / PGSIZE.
Proof.
  intros S Hva Hva' He He' Heq. pose proof (sp_tables _ _ _ _ _ S) as T.
  destruct (vpte_leaf m root tbl l va e S He) as (p & Hp & Hf & -> & Hv & Hu).
  destruct (vpte_leaf m root tbl l va' e' S He') as (q & Hq & Hf' & -> & Hv' & Hu').
  destruct (sp_uinj _ _ _ _ _ S p (PX 0 va) q (PX 0 va') Hp Hq (PX_idx _ _) (PX_idx _ _) Hv Hu Hv' Hu' Heq) as [-> Hx].
  rewrite Hx in Hf.
  destruct (find_inj kend m root tbl 2 root root va va' _ T (tb_root _ _ _ _ T) (tb_root _ _ _ _ T) Hf Hf') as [_ Hk].
  by apply PX_page.
Qed.

Lemma vpte_div m root va va' : va / PGSIZE = va' / PGSIZE → vpte m root va = vpte m root va'.
Proof. intros He. unfold vpte, upte. by rewrite (find_div m 2 root va va' He). Qed.

Lemma kpte_same m m' root tbl va : tables kend m root tbl → same_tables tbl m m' → kpte m' root va = kpte m root va.
Proof. intros T Hs. unfold kpte. by rewrite (upte_same kend m m' root tbl va T Hs). Qed.

Lemma vpte_same m m' root tbl va : tables kend m root tbl → same_tables tbl m m' → vpte m' root va = vpte m root va.
Proof. intros T Hs. unfold vpte. by rewrite (upte_same kend m m' root tbl va T Hs). Qed.

(** ** Pages taken from the free list, and given back *)

(** A change outside the tables and the user pages. *)
Lemma space_frame m m' root tbl l l' : space kend m root tbl l → same_tables tbl m m' →
  (∀ p i, tbl !! p = Some 0%nat → idx i → has PTE_V (entry m p i) = true → has PTE_U (entry m p i) = true →
    PTE2PA (entry m p i) ∉ l' ∧ ∃ b, pages m' !! PTE2PA (entry m p i) = Some b ∧ page_wf b) →
  chain kend m' (freelist m') l' → NoDup l' → (∀ p, p ∈ l' → tbl !! p = None) → space kend m' root tbl l'.
Proof.
  intros [T C N F U I] Hs Hu Hc Hn Hf.
  assert (He : ∀ p n i, tbl !! p = Some n → idx i → entry m' p i = entry m p i).
  { intros p n i Hp Hi. apply entry_ext; [by eapply tb_aligned|done|by eapply Hs]. }
  split; [by apply (tables_same kend m)|done|done|done| |].
  - intros p i Hp Hi. rewrite (He p 0%nat) by done. intros Hv Hus. destruct (U p i Hp Hi Hv Hus) as (U1 & _ & U3 & _).
    destruct (Hu p i Hp Hi Hv Hus) as [U2 U4]. by split_and!.
  - intros p i q j Hp Hq Hi Hj. rewrite (He p 0%nat), (He q 0%nat) by done. by apply I.
Qed.

(** [kalloc] and [memset]. *)
Lemma take_page m root tbl a l : space kend m root tbl (a :: l) →
  ∃ m1, Kalloc.kalloc m = (a, m1) ∧ valid_page kend a ∧ tbl !! a = None ∧ a ∉ l ∧
    space kend (set_page a (replicate (Z.to_nat PGSIZE) 0) m1) root tbl l ∧
    (∀ q, q ≠ a → pages (set_page a (replicate (Z.to_nat PGSIZE) 0) m1) !! q = pages m !! q).
Proof.
  intros S. destruct (kalloc_spec kend m (a :: l) (sp_chain _ _ _ _ _ S) (sp_nodup _ _ _ _ _ S)) as (m1 & Hk & Hc & _ & Hm1).
  pose proof (sp_nodup _ _ _ _ _ S) as [Hal Hn]%NoDup_cons.
  assert (Hta : tbl !! a = None) by (apply (sp_free _ _ _ _ _ S); left).
  assert (Hva : valid_page kend a) by (pose proof (sp_chain _ _ _ _ _ S) as Hch; cbn [chain] in Hch; tauto).
  assert (Hpg : ∀ q, q ≠ a → pages (set_page a (replicate (Z.to_nat PGSIZE) 0) m1) !! q = pages m !! q).
  { intros q Hq. cbn [pages set_page]. rewrite lookup_insert_ne by done. by apply Hm1. }
  exists m1. split_and!; try done. apply (space_frame m _ root tbl (a :: l) l S).
  - intros p n Hp. apply Hpg. congruence.
  - intros p i Hp Hi Hv Hu. destruct (sp_user _ _ _ _ _ S p i Hp Hi Hv Hu) as (_ & U2 & _ & b & U4 & U5).
    apply not_elem_of_cons in U2 as [U2 U2']. split; [done|]. exists b. by rewrite Hpg.
  - apply (chain_frame kend m1); [done|]. intros q Hq. cbn [pages set_page]. rewrite lookup_insert_ne; [done|]. by intros ->.
  - done.
  - intros p Hp. apply (sp_free _ _ _ _ _ S). by right.
Qed.

(** [kfree] of a page nobody uses. *)
Lemma give_page m root tbl a l : space kend m root tbl l → valid_page kend a → tbl !! a = None → a ∉ l →
  (∀ p i, tbl !! p = Some 0%nat → idx i → has PTE_V (entry m p i) = true → has PTE_U (entry m p i) = true →
    PTE2PA (entry m p i) ≠ a) →
  ∃ m', Kalloc.kfree kend a m = Ok m' ∧ space kend m' root tbl (a :: l) ∧ (∀ q, q ≠ a → pages m' !! q = pages m !! q).
Proof.
  intros S Hva Hta Hal Hno. destruct (kfree_spec kend m l a (sp_chain _ _ _ _ _ S) Hva Hal) as (m' & Hk & Hc & Hpg).
  exists m'. split_and!; [done| |done]. apply (space_frame m m' root tbl l (a :: l) S); [| |done| |].
  - intros p n Hp. apply Hpg. congruence.
  - intros p i Hp Hi Hv Hu. destruct (sp_user _ _ _ _ _ S p i Hp Hi Hv Hu) as (_ & U2 & _ & b & U4 & U5).
    pose proof (Hno p i Hp Hi Hv Hu) as Hne. split; [by apply not_elem_of_cons|]. exists b. by rewrite Hpg.
  - apply NoDup_cons. split; [done|apply S].
  - intros p [->|Hp]%elem_of_cons; [done|by apply (sp_free _ _ _ _ _ S)].
Qed.

(** ** Faults *)

Context (root cursz : Z) (Hcursz : cursz ≤ MAXVA).

Lemma walkaddr_run m tbl l va : space kend m root tbl l → 0 ≤ va < MAXVA →
  walkaddr root va m = Done (match vpte m root va with Some e => PTE2PA e | None => 0 end, m).
Proof.
  intros S Hva. pose proof (sp_tables _ _ _ _ _ S) as T. unfold walkaddr. rewrite (proj2 (Z.leb_gt _ _)) by lia.
  rewrite (run_bind _ _ _ _ _ (walk_false kend m root tbl va T ltac:(lia))). unfold vpte, upte.
  destruct (find m 2 root va) as [a|] eqn:Hf; [|done]. cbn.
  destruct (find_leaf kend m root tbl 2 root va a T (tb_root _ _ _ _ T) Hf) as (p & Hp & ->).
  destruct (tb_page _ _ _ _ T p _ Hp) as (_ & b & Hb & _).
  rewrite (run_bind _ _ _ _ _ (load64_run m p _ b ltac:(by eapply tb_aligned) (PX_idx _ _) Hb)).
  fold (entry m p (PX 0 va)). by destruct (has PTE_V (entry m p (PX 0 va))), (has PTE_U (entry m p (PX 0 va))).
Qed.

(** The result of a fault: 0, or a page that was free, zeroed and mapped for reading and writing. *)
Definition faulted (m : kmem) (l : list Z) (va r : Z) (m' : kmem) : Prop :=
  r = 0 ∨ (r ∈ l ∧ pages m' !! r = Some (replicate (Z.to_nat PGSIZE) 0) ∧
           ∃ e, vpte m' root va = Some e ∧ PTE2PA e = r ∧ has PTE_W e = true).

Lemma fault_map m tbl a l va : space kend m root tbl (a :: l) → 0 ≤ va < MAXVA → va mod PGSIZE = 0 →
  (∀ b, find m 2 root va = Some b → has PTE_V (word m b) = false) →
  ∃ r m' tbl' l',
    (mem ← palloc;
     if mem =? 0 then mret 0
     else
       zero_page mem;;
       r ← mappages root va PGSIZE mem (Z.lor (Z.lor PTE_W PTE_U) PTE_R);
       if negb (r =? 0) then pfree kend mem;; mret 0 else mret mem) m = Done (r, m') ∧
    extends kend nothing root m tbl (a :: l) m' tbl' l' ∧ faulted m (a :: l) va r m'.
Proof.
  intros S Hva Hal Hinv. destruct (take_page m root tbl a l S) as (m1 & Hk & Hvalid & Hta & Hanl & S2 & Hpg).
  set (m2 := set_page a (replicate (Z.to_nat PGSIZE) 0) m1) in *.
  rewrite (run_bind palloc _ m a m1) by (unfold palloc; by rewrite Hk).
  rewrite (proj2 (Z.eqb_neq a 0)) by (destruct Hvalid as (_ & _ & ?); lia).
  rewrite (run_bind (zero_page a) _ m1 () m2) by done.
  pose proof (sp_tables _ _ _ _ _ S) as T. pose proof (sp_tables _ _ _ _ _ S2) as T2.
  assert (Hsame : same_tables tbl m m2) by (intros p n Hp; apply Hpg; congruence).
  assert (Hent : ∀ p n i, tbl !! p = Some n → idx i → entry m2 p i = entry m p i).
  { intros p n i Hp Hi. apply entry_ext; [by eapply tb_aligned|done|by eapply Hsame]. }
  assert (Hinner : same_inner tbl m m2) by (intros p n i Hp Hi; by eapply Hent).
  assert (Hpagea : pages m2 !! a = Some (replicate (Z.to_nat PGSIZE) 0)) by (unfold m2; cbn [pages set_page]; by rewrite lookup_insert_eq).
  assert (Hno : ∀ p i, tbl !! p = Some 0%nat → idx i → has PTE_V (entry m2 p i) = true → has PTE_U (entry m2 p i) = true →
    PTE2PA (entry m2 p i) ≠ a).
  { intros p i Hp Hi. rewrite (Hent p 0%nat) by done. intros Hv Hu.
    destruct (sp_user _ _ _ _ _ S p i Hp Hi Hv Hu) as (_ & U2 & _). by apply not_elem_of_cons in U2 as [U2 _]. }
  destruct (mappages_page kend m2 root tbl l va a (Z.lor (Z.lor PTE_W PTE_U) PTE_R) S2 Hva Hal ltac:(by vm_compute) Hvalid Hta
    Hanl) as (r & m' & tbl' & l' & E & Hr).
  { eexists. split; [done|apply zeros_wf]. }
  { exact Hno. }
  { intros b. rewrite (find_inner kend m m2 root tbl 2 root va T (tb_root _ _ _ _ T) Hinner). intros Hb.
    destruct (find_leaf kend m root tbl 2 root va b T (tb_root _ _ _ _ T) Hb) as (p & Hp & ->).
    fold (entry m2 p (PX 0 va)). rewrite (Hent p 0%nat) by (done || apply PX_idx). by apply (Hinv _ Hb). }
  rewrite (run_bind _ _ _ _ _ E).
  assert (Hvm2 : ∀ x, vpte m2 root x = vpte m root x) by (intros x; by apply (vpte_same m m2 root tbl)).
  assert (Hpa : is_pa a) by by apply (valid_pa kend).
  destruct Hr as [[-> M]|(-> & G & _)].
  - cbn [Z.eqb negb]. exists a, m', tbl', l'. split; [done|].
    set (e := new_pte a (Z.lor (Z.lor PTE_W PTE_U) PTE_R)) in *.
    assert (HeU : has PTE_U e = true) by (unfold e; rewrite has_new; [by vm_compute|done|by vm_compute|by vm_compute]).
    assert (HeW : has PTE_W e = true) by (unfold e; rewrite has_new; [by vm_compute|done|by vm_compute|by vm_compute]).
    assert (HeP : PTE2PA e = a) by (unfold e; apply PTE2PA_new; [done|by vm_compute]).
    pose proof (mp_vpte _ _ _ _ _ _ _ _ _ _ M) as M4. pose proof M as [M1 M2 M3 _ M5 _ _ _ _ _].
    assert (Hva' : vpte m root va = None).
    { unfold vpte, upte. destruct (find m 2 root va) as [b|] eqn:Hb; [|done]. cbn. by rewrite (Hinv b eq_refl). }
    split.
    + split; [done|intros p Hp; right; by apply M2| | | |].
      * intros p n [Hp|Hp]%M3; [by left|right; by right].
      * intros x y Hx Hy. rewrite M4 by done. destruct (decide (x / PGSIZE = va / PGSIZE)) as [Hd|]; [|by rewrite Hvm2].
        rewrite (vpte_div m root x va Hd) in Hy. congruence.
      * intros x y Hx. rewrite M4 by done. destruct (decide (x / PGSIZE = va / PGSIZE)) as [Hd|]; [|rewrite Hvm2; by left].
        rewrite HeU. intros [= <-]. right. rewrite HeP. left.
      * intros p Hp Ht _. apply not_elem_of_cons in Hp as [Hpa' Hp]. rewrite M5 by done. by apply Hpg.
    + right. split; [left|]. split; [rewrite M5; done|]. exists e. split_and!; [|done|done].
      rewrite M4, decide_True, HeU by done. done.
  - cbn [Z.eqb negb]. pose proof (gr_space _ _ _ _ _ _ _ _ G) as S'.
    assert (Hta' : tbl' !! a = None).
    { destruct (tbl' !! a) as [n|] eqn:Hn; [|done]. destruct (gr_new _ _ _ _ _ _ _ _ G a n Hn); [congruence|done]. }
    destruct (give_page m' root tbl' a l' S' Hvalid Hta') as (m3 & Hk3 & S3 & Hpg3).
    { intros Hin. apply Hanl. by apply (gr_free _ _ _ _ _ _ _ _ G). }
    { intros p i Hp Hi Hv Hu. destruct (grown_user kend root m2 tbl l m' tbl' l' p i S2 G Hp Hi Hv) as [Hp0 He].
      rewrite He in Hv, Hu |- *. by apply Hno. }
    exists 0, m3, tbl', (a :: l'). rewrite (run_bind (pfree kend a) _ m' () m3) by (unfold pfree; by rewrite Hk3).
    split; [done|]. split; [|by left].
    assert (Hsame3 : same_tables tbl' m' m3) by (intros p n Hp; apply Hpg3; congruence).
    assert (Hv3 : ∀ x, vpte m3 root x = vpte m root x).
    { intros x. rewrite (vpte_same m' m3 root tbl' x (sp_tables _ _ _ _ _ S') Hsame3).
      by rewrite (grown_vpte kend root m2 tbl l m' tbl' l' x S2 G). }
    split; [done| | | | |].
    + intros p [->|Hp]%elem_of_cons; [left|right; by apply (gr_free _ _ _ _ _ _ _ _ G)].
    + intros p n Hp. destruct (gr_new _ _ _ _ _ _ _ _ G p n Hp); [by left|right; by right].
    + intros x y _. by rewrite Hv3.
    + intros x y _. rewrite Hv3. by left.
    + intros p Hp Ht _. apply not_elem_of_cons in Hp as [Hpa' Hp]. rewrite Hpg3 by done.
      rewrite (gr_frame _ _ _ _ _ _ _ _ G p Hp) by (by left). by apply Hpg.
Qed.

Lemma vmfault_run m tbl l va : space kend m root tbl l → 0 ≤ va → va mod PGSIZE = 0 → vpte m root va = None →
  ∃ r m' tbl' l', vmfault kend cursz root root va m = Done (r, m') ∧ extends kend nothing root m tbl l m' tbl' l' ∧
    faulted m l va r m'.
Proof.
  intros S H0 Hal Hnone. unfold vmfault. destruct (Z.leb_spec cursz va) as [Hsz|Hsz].
  { exists 0, m, tbl, l. split_and!; [done|by apply extends_refl|by left]. }
  assert (PGROUNDDOWN va = va) as ->.
  { unfold PGROUNDDOWN. change (PGSIZE - 1) with (Z.ones 12). rewrite Z.ldiff_ones_r by lia.
    rewrite Z.shiftl_mul_pow2, Z.shiftr_div_pow2 by lia. change (2 ^ 12) with PGSIZE. unfold PGSIZE in *. Z.div_mod_to_equations. lia. }
  assert (Hva : 0 ≤ va < MAXVA) by lia. pose proof (sp_tables _ _ _ _ _ S) as T. unfold ismapped.
  rewrite bind_assoc_M, (run_bind _ _ _ _ _ (walk_false kend m root tbl va T ltac:(lia))).
  assert (Hgo : (∀ b, find m 2 root va = Some b → has PTE_V (word m b) = false) →
    ∃ r m' tbl' l',
    (mem ← palloc;
     if mem =? 0 then mret 0
     else
       zero_page mem;;
       r ← mappages root va PGSIZE mem (Z.lor (Z.lor PTE_W PTE_U) PTE_R);
       if negb (r =? 0) then pfree kend mem;; mret 0 else mret mem) m = Done (r, m') ∧
    extends kend nothing root m tbl l m' tbl' l' ∧ faulted m l va r m').
  { intros Hinv. destruct l as [|a l]; [|by apply fault_map].
    exists 0, m, tbl, []. split_and!; [|by apply extends_refl|by left].
    pose proof (kalloc_spec kend m [] (sp_chain _ _ _ _ _ S) (sp_nodup _ _ _ _ _ S)) as Hk.
    by rewrite (run_bind palloc _ m 0 m) by (unfold palloc; by rewrite Hk). }
  destruct (find m 2 root va) as [a|] eqn:Hf.
  - destruct (find_leaf kend m root tbl 2 root va a T (tb_root _ _ _ _ T) Hf) as (p & Hp & ->).
    destruct (tb_page _ _ _ _ T p _ Hp) as (_ & b & Hb & _).
    rewrite bind_assoc_M.
    rewrite (run_bind _ _ _ _ _ (load64_run m p _ b (tb_aligned kend m root tbl p _ T Hp) (PX_idx _ _) Hb)).
    erewrite run_bind by reflexivity. destruct (has PTE_V (entry m p (PX 0 va))) eqn:Hv.
    + exists 0, m, tbl, l. split_and!; [done|by apply extends_refl|by left].
    + apply Hgo. by intros b' [= <-].
  - erewrite run_bind by reflexivity. by apply Hgo.
Qed.

(** The page for an address, present or faulted in; 0 when there is none. *)
Lemma user_page_run m tbl l va : space kend m root tbl l → 0 ≤ va < MAXVA → va mod PGSIZE = 0 →
  ∃ r m' tbl' l', user_page kend cursz root root va m = Done (r, m') ∧ extends kend nothing root m tbl l m' tbl' l' ∧
    (r = 0 ∧ vpte m root va = None ∨ 0 < r ∧ ∃ e, vpte m' root va = Some e ∧ PTE2PA e = r).
Proof.
  intros S Hva Hal. unfold user_page. rewrite (run_bind _ _ _ _ _ (walkaddr_run m tbl l va S Hva)).
  destruct (vpte m root va) as [e|] eqn:He.
  - destruct (vpte_page m root tbl l va e S He) as (_ & _ & (_ & _ & Hpos) & _). rewrite (proj2 (Z.eqb_neq _ 0)) by lia.
    exists (PTE2PA e), m, tbl, l. split_and!; [done|by apply extends_refl|]. right. split; [done|]. by exists e.
  - cbn [Z.eqb]. destruct (vmfault_run m tbl l va S ltac:(lia) Hal He) as (r & m' & tbl' & l' & E & X & F).
    exists r, m', tbl', l'. split_and!; [done|done|].
    destruct F as [->|(Hr & _ & e & He' & HeP & _)]; [by left|]. right. split; [|by exists e].
    destruct (vpte_page m' root tbl' l' va e (ex_space _ _ _ _ _ _ _ _ _ X) He') as (_ & _ & (_ & _ & Hpos) & _). lia.
Qed.

(** What the user sees is kept when nothing of his was written. *)
Lemma extends_vbyte m tbl l m' tbl' l' va b : space kend m root tbl l → extends kend nothing root m tbl l m' tbl' l' →
  0 ≤ va < MAXVA → vbyte m root va = Some b → vbyte m' root va = Some b.
Proof.
  intros S X Hva. unfold vbyte. destruct (vpte m root va) as [e|] eqn:He; [|done].
  rewrite (ex_old _ _ _ _ _ _ _ _ _ X va e Hva He). destruct (vpte_page m root tbl l va e S He) as (H1 & H2 & _). cbn [mbind option_bind].
  by rewrite (ex_frame _ _ _ _ _ _ _ _ _ X _ H2 H1 ltac:(by intros [])).
Qed.

(** ** Writing *)

(** Bytes [bs] from offset [o] of the user page of [e] at [va]. *)
Definition user_write (e : Z) (o : nat) (bs : list Z) (m : kmem) : kmem :=
  set_page (PTE2PA e) (blit (default [] (pages m !! PTE2PA e)) o bs) m.

Lemma user_write_space m tbl l va e o bs : space kend m root tbl l → vpte m root va = Some e →
  (o + length bs ≤ PAGE)%nat → Forall is_u8 bs →
  space kend (user_write e o bs m) root tbl l ∧ same_tables tbl m (user_write e o bs m).
Proof.
  intros S He Ho Hbs. destruct (vpte_page m root tbl l va e S He) as (H1 & H2 & _ & b & Hb & Hwf).
  assert (Hother : ∀ q, q ≠ PTE2PA e → pages (user_write e o bs m) !! q = pages m !! q).
  { intros q Hq. unfold user_write. cbn [pages set_page]. by rewrite lookup_insert_ne. }
  assert (Hsame : same_tables tbl m (user_write e o bs m)) by (intros p n Hp; apply Hother; congruence).
  split; [|done]. apply (space_frame m _ root tbl l l S Hsame); [| |apply S|apply S].
  - intros p i Hp Hi Hv Hu. destruct (sp_user _ _ _ _ _ S p i Hp Hi Hv Hu) as (_ & U2 & _ & c & U4 & U5).
    split; [done|]. destruct (decide (PTE2PA (entry m p i) = PTE2PA e)) as [Heq|Hne]; [|exists c; by rewrite Hother].
    rewrite Heq. unfold user_write. cbn [pages set_page]. rewrite lookup_insert_eq, Hb. eexists. split; [done|].
    destruct Hwf as [W1 W2]. change (default [] (Some b)) with b. split; [rewrite length_blit; [done|lia]|by apply Forall_blit].
  - apply (chain_frame kend m); [apply S|]. intros q Hq. apply Hother. by intros ->.
Qed.

Lemma lookup_blit (dst src : list Z) o k : (o + length src ≤ length dst)%nat →
  blit dst o src !! k = if decide (o ≤ k < o + length src)%nat then src !! (k - o)%nat else dst !! k.
Proof.
  intros Hl. unfold blit. destruct (decide (o ≤ k < o + length src)%nat) as [Hk|Hk].
  - rewrite lookup_app_r by (rewrite length_take; lia). rewrite length_take, Nat.min_l by lia. by rewrite lookup_app_l by lia.
  - destruct (decide (k < o)%nat).
    + rewrite lookup_app_l by (rewrite length_take; lia). by apply lookup_take_lt.
    + rewrite lookup_app_r by (rewrite length_take; lia). rewrite length_take, Nat.min_l by lia.
      rewrite lookup_app_r by lia. rewrite lookup_drop. f_equal. lia.
Qed.

(** The user's bytes after the write. *)
Lemma user_write_vbyte m tbl l va e o bs va' : space kend m root tbl l → vpte m root va = Some e → 0 ≤ va < MAXVA →
  (o + length bs ≤ PAGE)%nat → Forall is_u8 bs → 0 ≤ va' < MAXVA →
  vbyte (user_write e o bs m) root va' =
  if decide (va' / PGSIZE = va / PGSIZE ∧ (o ≤ off_of va' < o + length bs)%nat) then bs !! (off_of va' - o)%nat
  else vbyte m root va'.
Proof.
  intros S He Hva Ho Hbs Hva'. destruct (user_write_space m tbl l va e o bs S He Ho Hbs) as [S' Hsame].
  unfold vbyte. rewrite (vpte_same m _ root tbl va' (sp_tables _ _ _ _ _ S) Hsame).
  destruct (vpte_page m root tbl l va e S He) as (_ & _ & _ & b & Hb & [Hlb _]).
  destruct (decide (va' / PGSIZE = va / PGSIZE)) as [Hd|Hd].
  - rewrite (vpte_div m root va' va Hd), He. cbn. unfold user_write. cbn [pages set_page]. rewrite lookup_insert_eq, Hb. cbn.
    rewrite lookup_blit by lia. destruct (decide (o ≤ off_of va' < o + length bs)%nat) as [Hk|Hk].
    + by rewrite decide_True.
    + by rewrite decide_False by tauto.
  - rewrite decide_False by tauto. destruct (vpte m root va') as [e'|] eqn:He'; [|done]. cbn. unfold user_write. cbn [pages set_page].
    rewrite lookup_insert_ne; [done|]. intros Heq. destruct Hd. symmetry. by apply (vpte_inj m root tbl l va va' e e' S).
Qed.

Lemma PGROUNDDOWN_eq va : PGROUNDDOWN va = va - va mod PGSIZE.
Proof.
  unfold PGROUNDDOWN. change (PGSIZE - 1) with (Z.ones 12). rewrite Z.ldiff_ones_r by lia.
  rewrite Z.shiftl_mul_pow2, Z.shiftr_div_pow2 by lia. change (2 ^ 12) with PGSIZE. unfold PGSIZE. Z.div_mod_to_equations. lia.
Qed.

(** The first chunk of a range of [len] bytes from [va]: it ends with the page or with the range. *)
Lemma chunk_facts va len : 0 ≤ va → 0 < len →
  let va0 := PGROUNDDOWN va in let n := chunk_len va len in
  va0 mod PGSIZE = 0 ∧ 0 ≤ va0 ≤ va ∧ va - va0 = Z.of_nat (off_of va) ∧ va0 / PGSIZE = va / PGSIZE ∧ 0 < n ≤ len ∧
  (off_of va + Z.to_nat n ≤ PAGE)%nat ∧ (va + n = va0 + PGSIZE ∨ n = len ∧ va + n ≤ va0 + PGSIZE).
Proof.
  intros Hva Hlen. cbn zeta. unfold chunk_len. rewrite PGROUNDDOWN_eq. unfold off_of, PAGE, PGSIZE.
  split_and!; try (Z.div_mod_to_equations; lia).
Qed.

Lemma page_off pa o : aligned pa → (o < PAGE)%nat → page_of (pa + Z.of_nat o) = pa ∧ off_of (pa + Z.of_nat o) = o.
Proof. unfold aligned, page_of, off_of, PAGE, PGSIZE. intros Ha Ho. split; Z.div_mod_to_equations; lia. Qed.

Lemma user_write_run m tbl l va e o bs : space kend m root tbl l → vpte m root va = Some e → (o < PAGE)%nat →
  store_bytes (PTE2PA e + Z.of_nat o) bs m = Done ((), user_write e o bs m).
Proof.
  intros S He Ho. destruct (vpte_page m root tbl l va e S He) as (_ & _ & (Hal & _) & b & Hb & _).
  destruct (page_off (PTE2PA e) o Hal Ho) as [H1 H2]. unfold store_bytes. rewrite H1, H2.
  rewrite (run_bind _ _ _ _ _ (get_page_run m _ b Hb)). unfold user_write. by rewrite Hb.
Qed.

Lemma user_write_extends m tbl l va e o bs : space kend m root tbl l → vpte m root va = Some e → 0 ≤ va < MAXVA →
  has PTE_W e = true → (o + length bs ≤ PAGE)%nat → Forall is_u8 bs →
  extends kend (wpage m root) root m tbl l (user_write e o bs m) tbl l.
Proof.
  intros S He Hva Hw Ho Hbs. destruct (user_write_space m tbl l va e o bs S He Ho Hbs) as [S' Hsame].
  pose proof (λ x, vpte_same m _ root tbl x (sp_tables _ _ _ _ _ S) Hsame) as Hv.
  split; [done|done|by left|intros x y _; by rewrite Hv|intros x y _; rewrite Hv; by left|].
  intros p _ _ HP. unfold user_write. cbn [pages set_page]. apply lookup_insert_ne. intros <-. destruct HP. by exists va, e.
Qed.

(** The entry [copyout] tests. *)
Lemma entry_run {A} (k : Z → M kmem A) m tbl l va e : space kend m root tbl l → vpte m root va = Some e → va < MAXVA →
  (p ← walk root va false; p ← deref p; pte ← load64 p; k pte) m = k e m.
Proof.
  intros S He Hva. pose proof (sp_tables _ _ _ _ _ S) as T.
  destruct (vpte_leaf m root tbl l va e S He) as (p & Hp & Hf & -> & _).
  rewrite (run_bind _ _ _ _ _ (walk_false kend m root tbl va T Hva)), Hf. cbn [deref].
  erewrite run_bind by reflexivity. destruct (tb_page _ _ _ _ T p _ Hp) as (_ & b & Hb & _).
  by rewrite (run_bind _ _ _ _ _ (load64_run m p _ b (tb_aligned kend m root tbl p _ T Hp) (PX_idx _ _) Hb)).
Qed.

(** A run of [copyout] of [src] to [dst]: what it returns, what it writes, what it keeps. *)
Record copied (m : kmem) (tbl : gmap Z nat) (l : list Z) (dst : Z) (src : list Z) (r : Z) (m' : kmem) (tbl' : gmap Z nat)
    (l' : list Z) : Prop := {
  cp_result : r = 0 ∨ r = -1;
  cp_extends : extends kend (wpage m root) root m tbl l m' tbl' l';
  cp_keeps : ∀ va b, 0 ≤ va < MAXVA → va < dst ∨ dst + Z.of_nat (length src) ≤ va → vbyte m root va = Some b →
    vbyte m' root va = Some b;
  cp_writes : r = 0 → ∀ k b, src !! k = Some b → dst + Z.of_nat k < MAXVA ∧ vbyte m' root (dst + Z.of_nat k) = Some b;
  cp_succeeds : (∀ k, (k < length src)%nat → dst + Z.of_nat k < MAXVA ∧
    ∃ e, vpte m root (dst + Z.of_nat k) = Some e ∧ has PTE_W e = true) → r = 0;
}.

Lemma copied_fail m tbl l dst src m' tbl' l' : space kend m root tbl l → extends kend nothing root m tbl l m' tbl' l' →
  (∃ k, (k < length src)%nat ∧ (dst + Z.of_nat k < MAXVA → ∀ e, vpte m root (dst + Z.of_nat k) = Some e → has PTE_W e = false)) →
  copied m tbl l dst src (-1) m' tbl' l'.
Proof.
  intros S X (k & Hk & Hno). split; [by right| | |done|].
  - by apply (extends_weaken kend nothing).
  - intros va b Hva _. by apply (extends_vbyte m tbl l m' tbl' l').
  - intros Hall. destruct (Hall k Hk) as (H1 & e & H2 & H3). by rewrite (Hno H1 e H2) in H3.
Qed.

Section step.
Context (m : kmem) (tbl : gmap Z nat) (l : list Z) (dst : Z) (src : list Z).
Context (HS : space kend m root tbl l) (Hdst : 0 ≤ dst) (Hsrc : src ≠ []) (Hu8 : Forall is_u8 src).
Local Notation va0 := (PGROUNDDOWN dst).
Local Notation n := (Z.to_nat (chunk_len dst (Z.of_nat (length src)))).
Context (Hva0 : va0 < MAXVA) (m1 : kmem) (tbl1 : gmap Z nat) (l1 : list Z) (e : Z).
Context (X1 : extends kend nothing root m tbl l m1 tbl1 l1) (He : vpte m1 root va0 = Some e) (Hw : has PTE_W e = true).
Local Notation m2 := (user_write e (off_of dst) (take n src) m1).

Lemma step_facts : 0 ≤ va0 ≤ dst ∧ dst < MAXVA ∧ dst - va0 = Z.of_nat (off_of dst) ∧ va0 / PGSIZE = dst / PGSIZE ∧
  (0 < n ≤ length src)%nat ∧ (off_of dst + n ≤ PAGE)%nat ∧ length (take n src) = n ∧ va0 + PGSIZE ≤ MAXVA ∧
  (dst + Z.of_nat n = va0 + PGSIZE ∨ n = length src ∧ dst + Z.of_nat n ≤ va0 + PGSIZE).
Proof.
  assert (0 < Z.of_nat (length src)) by (destruct src; [done|cbn; lia]).
  destruct (chunk_facts dst (Z.of_nat (length src)) Hdst ltac:(lia)) as (C1 & C2 & C3 & C4 & C5 & C6 & C7).
  assert (va0 + PGSIZE ≤ MAXVA ∧ dst < va0 + PGSIZE) as [? ?].
  { clear -Hva0 C1 C3 C6 C5. unfold MAXVA, PGSIZE, PAGE in *. Z.div_mod_to_equations. lia. }
  rewrite length_take. split_and!; try done; lia.
Qed.

Lemma step_write : space kend m2 root tbl1 l1 ∧ extends kend (wpage m1 root) root m1 tbl1 l1 m2 tbl1 l1 ∧
  (∀ va, vpte m2 root va = vpte m1 root va) ∧
  ∀ va, 0 ≤ va < MAXVA → vbyte m2 root va =
    if decide (dst ≤ va < dst + Z.of_nat n) then src !! Z.to_nat (va - dst) else vbyte m1 root va.
Proof.
  destruct step_facts as (F1 & F2 & F3 & F4 & F5 & F6 & F7 & F8 & F9). pose proof (ex_space _ _ _ _ _ _ _ _ _ X1) as S1.
  assert (Ht : Forall is_u8 (take n src)) by by apply Forall_take.
  assert (Hlen : (off_of dst + length (take n src) ≤ PAGE)%nat) by lia.
  destruct (user_write_space m1 tbl1 l1 va0 e (off_of dst) (take n src) S1 He Hlen Ht) as [S2 Hsame].
  split_and!; [done|apply (user_write_extends m1 tbl1 l1 va0); (done || lia)| |].
  { intros va. by apply (vpte_same m1 m2 root tbl1 va (sp_tables _ _ _ _ _ S1)). }
  intros va Hva. rewrite (user_write_vbyte m1 tbl1 l1 va0 e (off_of dst) (take n src) va S1 He ltac:(lia) Hlen Ht Hva).
  rewrite F7, F4. assert (Hoff : dst ≤ va < dst + Z.of_nat n ↔ va / PGSIZE = dst / PGSIZE ∧ (off_of dst ≤ off_of va < off_of dst + n)%nat).
  { clear -Hdst Hva F6. unfold off_of, PAGE, PGSIZE in *. Z.div_mod_to_equations. lia. }
  destruct (decide (dst ≤ va < dst + Z.of_nat n)) as [Hin|Hin].
  - rewrite decide_True by tauto. rewrite lookup_take_lt by (destruct (proj1 Hoff Hin); lia). f_equal.
    clear -Hin Hva Hdst Hoff. destruct (proj1 Hoff Hin) as [H1 _]. unfold off_of, PGSIZE in *. Z.div_mod_to_equations. lia.
  - rewrite decide_False by tauto. done.
Qed.

(** The rest of the copy, done from the state after the first chunk, completes it. *)
Lemma copied_step r m' tbl' l' :
  copied m2 tbl1 l1 (va0 + PGSIZE) (drop n src) r m' tbl' l' → copied m tbl l dst src r m' tbl' l'.
Proof.
  destruct step_facts as (F1 & F2 & F3 & F4 & F5 & F6 & F7 & F8 & F9), step_write as (W1 & W2 & W3 & W4).
  intros [R E K W F]. rewrite length_drop in *. split; [done| | | |].
  - apply (extends_wtrans kend root m tbl l m1 tbl1 l1); [by apply (extends_weaken kend nothing)|].
    apply (extends_wtrans kend root m1 tbl1 l1 m2 tbl1 l1); [done|exact E].
  - intros va b Hva Hout Hb. apply K; [done|lia|]. rewrite W4, decide_False by (done || lia).
    by apply (extends_vbyte m tbl l m1 tbl1 l1).
  - intros Hr k b Hk. pose proof (lookup_lt_Some _ _ _ Hk) as Hlt. destruct (decide (k < n)%nat) as [Hkn|Hkn].
    + split; [lia|]. apply K; [lia|lia|]. rewrite W4, decide_True by lia. replace (Z.to_nat (dst + Z.of_nat k - dst)) with k by lia. done.
    + replace (dst + Z.of_nat k) with (va0 + PGSIZE + Z.of_nat (k - n)) by lia. apply W; [done|].
      rewrite lookup_drop. replace (n + (k - n))%nat with k by lia. done.
  - intros Hall. apply F. intros k Hk. destruct (Hall (n + k)%nat ltac:(lia)) as (A1 & e' & A2 & A3).
    replace (va0 + PGSIZE + Z.of_nat k) with (dst + Z.of_nat (n + k)) by lia. split; [done|]. exists e'. split; [|done].
    rewrite W3. by apply (ex_old _ _ _ _ _ _ _ _ _ X1); [lia|].
Qed.
End step.

Lemma copyout_loop_run fuel : ∀ m tbl l dst src, space kend m root tbl l → 0 ≤ dst → Forall is_u8 src → (length src < fuel)%nat →
  ∃ r m' tbl' l', copyout_loop kend cursz root fuel root dst src m = Done (r, m') ∧ copied m tbl l dst src r m' tbl' l'.
Proof.
  induction fuel as [|fuel IH]; intros m tbl l dst src S Hdst Hu Hf; [lia|]. cbn [copyout_loop].
  destruct src as [|c src0]; [|set (src := c :: src0) in *; assert (Hne : src ≠ []) by done].
  { exists 0, m, tbl, l. split; [done|]. split; [by left|by apply extends_refl|done|done|done]. }
  assert (Hhead : ∀ m' tbl' l', extends kend nothing root m tbl l m' tbl' l' →
    (dst < MAXVA → ∀ e, vpte m root dst = Some e → has PTE_W e = false) → copied m tbl l dst src (-1) m' tbl' l').
  { intros m' tbl' l' X Hno. apply copied_fail; [done|done|]. exists 0%nat. rewrite Z.add_0_r. split; [cbn; lia|done]. }
  destruct (Z.leb_spec MAXVA (PGROUNDDOWN dst)) as [Hmax|Hmax].
  { exists (-1), m, tbl, l. split; [done|]. apply Hhead; [by apply extends_refl|].
    intros Hd. rewrite PGROUNDDOWN_eq in Hmax. unfold PGSIZE in Hmax. Z.div_mod_to_equations. lia. }
  destruct (step_facts dst src Hdst Hne Hu Hmax) as (F1 & F2 & F3 & F4 & F5 & F6 & F7 & F8 & F9).
  assert (Hal : PGROUNDDOWN dst mod PGSIZE = 0) by (rewrite PGROUNDDOWN_eq; unfold PGSIZE; Z.div_mod_to_equations; lia).
  destruct (user_page_run m tbl l (PGROUNDDOWN dst) S ltac:(lia) Hal) as (r & m1 & tbl1 & l1 & E & X & Hr).
  rewrite (run_bind _ _ _ _ _ E). destruct Hr as [[-> Hno]|(Hr & e & He & <-)].
  { exists (-1), m1, tbl1, l1. split; [done|]. apply Hhead; [done|]. intros _ e He.
    rewrite (vpte_div m root dst (PGROUNDDOWN dst)) in He by done. congruence. }
  rewrite (proj2 (Z.eqb_neq _ 0)) by lia. pose proof (ex_space _ _ _ _ _ _ _ _ _ X) as S1.
  rewrite (entry_run _ m1 tbl1 l1 _ e S1 He) by lia. destruct (has PTE_W e) eqn:Hw; cbn [negb].
  2: { exists (-1), m1, tbl1, l1. split; [done|]. apply Hhead; [done|]. intros _ e' He'.
       rewrite (vpte_div m root dst (PGROUNDDOWN dst)) in He' by done.
       pose proof (ex_old _ _ _ _ _ _ _ _ _ X (PGROUNDDOWN dst) e' ltac:(lia) He') as He1. congruence. }
  cbn zeta. rewrite F3, (run_bind _ _ _ _ _ (user_write_run m1 tbl1 l1 _ e (off_of dst) _ S1 He ltac:(lia))).
  rewrite (u64_id (PGROUNDDOWN dst + PGSIZE)) by (unfold is_u64, MAXVA in *; lia).
  destruct (step_write m tbl l dst src Hdst Hne Hu Hmax m1 tbl1 l1 e X He Hw) as (W1 & _).
  destruct (IH _ tbl1 l1 (PGROUNDDOWN dst + PGSIZE) (drop (Z.to_nat (chunk_len dst (Z.of_nat (length src)))) src) W1)
    as (r & m' & tbl' & l' & E' & C); [lia|by apply Forall_drop|rewrite length_drop; lia|].
  exists r, m', tbl', l'. split; [exact E'|]. by apply (copied_step m tbl l dst src S Hdst Hne Hu Hmax m1 tbl1 l1 e X He Hw).
Qed.

(** ** Reading *)

Lemma vbyte_vpte m va b : vbyte m root va = Some b → ∃ e, vpte m root va = Some e.
Proof. unfold vbyte. destruct (vpte m root va) as [e|]; [by exists e|done]. Qed.

(** A run of [copyin] of [len] bytes from [src]. *)
Record readin (m : kmem) (tbl : gmap Z nat) (l : list Z) (src len : Z) (bs : list Z) (ok : bool) (m' : kmem)
    (tbl' : gmap Z nat) (l' : list Z) : Prop := {
  rd_extends : extends kend nothing root m tbl l m' tbl' l';
  rd_bytes : ∀ k b, bs !! k = Some b → src + Z.of_nat k < MAXVA ∧ vbyte m' root (src + Z.of_nat k) = Some b;
  rd_length : Z.of_nat (length bs) ≤ len ∧ (ok = true → Z.of_nat (length bs) = len);
  rd_succeeds : (∀ k, 0 ≤ k < len → src + k < MAXVA ∧ ∃ e, vpte m root (src + k) = Some e) → ok = true;
}.

Lemma readin_fail m tbl l src len m' tbl' l' : extends kend nothing root m tbl l m' tbl' l' → 0 < len →
  (src < MAXVA → vpte m root src = None) → readin m tbl l src len [] false m' tbl' l'.
Proof.
  intros X Hlen Hno. split; [done|done|cbn; split; [lia|done]|]. intros Hall. destruct (Hall 0 ltac:(lia)) as (H1 & e & H2).
  rewrite Z.add_0_r in *. by rewrite Hno in H2.
Qed.

(** The bytes of a user page. *)
Lemma load_bytes_run m tbl l va e o n : space kend m root tbl l → vpte m root va = Some e → (o < PAGE)%nat →
  (o + Z.to_nat n ≤ PAGE)%nat → ∃ bs, load_bytes (PTE2PA e + Z.of_nat o) n m = Done (bs, m) ∧ length bs = Z.to_nat n ∧
    ∀ k b va', bs !! k = Some b → va' / PGSIZE = va / PGSIZE → off_of va' = (o + k)%nat → vbyte m root va' = Some b.
Proof.
  intros S He Ho Hn. destruct (vpte_page m root tbl l va e S He) as (_ & _ & (Hal & _) & c & Hc & [Hlc _]).
  destruct (page_off (PTE2PA e) o Hal Ho) as [H1 H2]. unfold load_bytes. rewrite H1, H2.
  rewrite (run_bind _ _ _ _ _ (get_page_run m _ c Hc)). eexists. split; [done|]. split; [apply length_sub; lia|].
  intros k b va' Hk Hd Hoff. unfold vbyte. rewrite (vpte_div m root va' va Hd), He. cbn [mbind option_bind]. rewrite Hc.
  cbn [mbind option_bind]. rewrite Hoff. unfold sub in Hk. pose proof (lookup_lt_Some _ _ _ Hk) as Hlt.
  rewrite length_take in Hlt. rewrite lookup_take_lt, lookup_drop in Hk by lia. done.
Qed.

Lemma user_page_high m tbl l va : space kend m root tbl l → MAXVA ≤ va → user_page kend cursz root root va m = Done (0, m).
Proof.
  intros S Hva. unfold user_page, walkaddr. rewrite (proj2 (Z.leb_le _ _)) by lia. erewrite run_bind by reflexivity.
  cbn [Z.eqb]. unfold vmfault. by rewrite (proj2 (Z.leb_le _ _)) by lia.
Qed.

Lemma copyin_loop_run fuel : ∀ m tbl l src len, space kend m root tbl l → 0 ≤ src → 0 ≤ len → (Z.to_nat len < fuel)%nat →
  ∃ bs ok m' tbl' l', copyin_loop kend cursz root fuel root src len m = Done ((bs, ok), m') ∧
    readin m tbl l src len bs ok m' tbl' l'.
Proof.
  induction fuel as [|fuel IH]; intros m tbl l src len S Hsrc H0 Hf; [lia|]. cbn [copyin_loop].
  destruct (Z.ltb_spec 0 len) as [Hlen|Hlen].
  2: { assert (len = 0) as -> by lia. exists [], true, m, tbl, l. split; [done|]. split; [by apply extends_refl|done|done|done]. }
  destruct (chunk_facts src len Hsrc Hlen) as (C1 & C2 & C3 & C4 & C5 & C6 & C7). cbn zeta.
  destruct (Z.leb_spec MAXVA (PGROUNDDOWN src)) as [Hmax|Hmax].
  { rewrite (run_bind _ _ _ _ _ (user_page_high m tbl l _ S Hmax)). exists [], false, m, tbl, l. split; [done|].
    apply readin_fail; [by apply extends_refl|done|lia]. }
  destruct (user_page_run m tbl l (PGROUNDDOWN src) S ltac:(lia) C1) as (r & m1 & tbl1 & l1 & E & X & Hr).
  rewrite (run_bind _ _ _ _ _ E). destruct Hr as [[-> Hno]|(Hr & e & He & <-)].
  { exists [], false, m1, tbl1, l1. split; [done|]. apply readin_fail; [done|done|]. intros _.
    by rewrite (vpte_div m root src (PGROUNDDOWN src)). }
  rewrite (proj2 (Z.eqb_neq _ 0)) by lia. pose proof (ex_space _ _ _ _ _ _ _ _ _ X) as S1. rewrite C3.
  set (n := chunk_len src len) in *. assert (Hoff : (off_of src < PAGE)%nat) by lia.
  destruct (load_bytes_run m1 tbl1 l1 _ e (off_of src) n S1 He Hoff C6) as (bs1 & E1 & L1 & B1).
  rewrite (run_bind _ _ _ _ _ E1).
  assert (Htop : PGROUNDDOWN src + PGSIZE ≤ MAXVA).
  { clear -Hmax C1. unfold MAXVA, PGSIZE in *. change (2 ^ 38) with 274877906944 in *. Z.div_mod_to_equations. lia. }
  rewrite (u64_id (PGROUNDDOWN src + PGSIZE)) by (unfold is_u64, MAXVA, PGSIZE in *; lia).
  destruct (IH m1 tbl1 l1 (PGROUNDDOWN src + PGSIZE) (len - n) S1) as (bs2 & ok & m' & tbl' & l' & E2 & [R1 R2 R3 R4]);
    [unfold PGSIZE in *; lia|lia|lia|].
  rewrite (run_bind _ _ _ _ _ E2). exists (bs1 ++ bs2), ok, m', tbl', l'. split; [done|]. split.
  - by apply (extends_trans kend root m tbl l m1 tbl1 l1).
  - intros k b Hk. destruct (decide (k < Z.to_nat n)%nat) as [Hlt|Hge].
    + rewrite lookup_app_l in Hk by lia. split; [lia|]. apply (extends_vbyte m1 tbl1 l1 m' tbl' l'); [done|done|lia|].
      apply (B1 k b); [done| |].
      * rewrite C4. clear -Hlt C6 Hsrc. unfold off_of, PAGE, PGSIZE in *. Z.div_mod_to_equations. lia.
      * clear -Hlt C6 Hsrc. unfold off_of, PAGE, PGSIZE in *. Z.div_mod_to_equations. lia.
    + rewrite lookup_app_r in Hk by lia. destruct (R2 _ b Hk) as [R2a R2b]. pose proof (lookup_lt_Some _ _ _ Hk) as Hkl.
      replace (src + Z.of_nat k) with (PGROUNDDOWN src + PGSIZE + Z.of_nat (k - length bs1)) by lia. done.
  - rewrite length_app. split; [lia|]. intros Hok. destruct R3 as [_ R3]. specialize (R3 Hok). lia.
  - intros Hall. apply R4. intros k Hk. destruct (Hall (n + k) ltac:(lia)) as (H1 & e' & H2).
    replace (PGROUNDDOWN src + PGSIZE + k) with (src + (n + k)) by lia. split; [done|]. exists e'.
    by apply (ex_old _ _ _ _ _ _ _ _ _ X); [lia|].
Qed.

(** C26: [copyout] from any state of a page table: it returns 0 or -1 and never panics or
    accesses memory outside the pages; the table stays a tree with its pages apart from
    the free list and from user memory; every translation the process had is kept, a new
    one is to a page that was free; a page that was neither free, nor part of the table,
    nor user-writable at some address is not changed: no other process's memory, no
    kernel page, no read-only page. *)
Theorem copyout_safe m tbl l dst src : space kend m root tbl l → 0 ≤ dst → Forall is_u8 src →
  ∃ r m' tbl' l', copyout kend cursz root root dst src m = Done (r, m') ∧ (r = 0 ∨ r = -1) ∧
    space kend m' root tbl' l' ∧
    (∀ va e, 0 ≤ va < MAXVA → vpte m root va = Some e → vpte m' root va = Some e) ∧
    (∀ va e, 0 ≤ va < MAXVA → vpte m' root va = Some e → vpte m root va = Some e ∨ PTE2PA e ∈ l) ∧
    (∀ p, p ∉ l → tbl !! p = None →
      (∀ va e, 0 ≤ va < MAXVA → vpte m root va = Some e → PTE2PA e = p → has PTE_W e = false) →
      pages m' !! p = pages m !! p).
Proof.
  intros S Hdst Hu. destruct (copyout_loop_run (Datatypes.S (length src)) m tbl l dst src S Hdst Hu) as (r & m' & tbl' & l' & E & C); [lia|].
  destruct C as [C1 [X1 X2 X3 X4 X5 X6] _ _ _]. exists r, m', tbl', l'. split_and!; try done.
  intros p Hp Ht Hw. apply X6; [done|done|]. intros (va & e & Hva & He & HW & <-). by rewrite (Hw va e) in HW.
Qed.

(** C27: What [copyout] wrote, [copyin] reads back: after a [copyout] that returned 0,
    [copyin] of the same range succeeds with the same bytes, whatever page boundaries
    the range crosses; the bytes of the process outside the range are as before.  And
    [copyout] returns 0 when every page of the range is mapped user-writable. *)
Theorem copyout_copyin m tbl l dst src : space kend m root tbl l → 0 ≤ dst → Forall is_u8 src →
  ∃ r m', copyout kend cursz root root dst src m = Done (r, m') ∧
    ((∀ k, (k < length src)%nat → dst + Z.of_nat k < MAXVA ∧
       ∃ e, vpte m root (dst + Z.of_nat k) = Some e ∧ has PTE_W e = true) → r = 0) ∧
    (r = 0 →
      (∃ m2, copyin kend cursz root root dst (Z.of_nat (length src)) m' = Done ((src, true), m2)) ∧
      ∀ va b, 0 ≤ va < MAXVA → va < dst ∨ dst + Z.of_nat (length src) ≤ va → vbyte m root va = Some b →
        vbyte m' root va = Some b).
Proof.
  intros S Hdst Hu. destruct (copyout_loop_run (Datatypes.S (length src)) m tbl l dst src S Hdst Hu) as (r & m' & tbl' & l' & E & C); [lia|].
  exists r, m'. split; [exact E|]. split; [apply (cp_succeeds _ _ _ _ _ _ _ _ _ C)|]. intros Hr.
  split; [|apply (cp_keeps _ _ _ _ _ _ _ _ _ C)]. pose proof (ex_space _ _ _ _ _ _ _ _ _ (cp_extends _ _ _ _ _ _ _ _ _ C)) as S'.
  pose proof (cp_writes _ _ _ _ _ _ _ _ _ C Hr) as Hw.
  destruct (copyin_loop_run (Datatypes.S (Z.to_nat (Z.of_nat (length src)))) m' tbl' l' dst (Z.of_nat (length src)) S' Hdst)
    as (bs & ok & m2 & tbl2 & l2 & E2 & [R1 R2 R3 R4]); [lia|lia|].
  exists m2. unfold copyin. rewrite E2. assert (ok = true) as ->.
  { apply R4. intros k Hk. destruct (lookup_lt_is_Some_2 src (Z.to_nat k)) as [b Hb]; [lia|].
    pose proof (Hw _ _ Hb) as [Hm Hv]. rewrite Z2Nat.id in Hm, Hv by lia. split; [done|by apply (vbyte_vpte m' _ b)]. }
  do 3 f_equal. destruct R3 as [_ R3]. specialize (R3 eq_refl). apply list_eq_same_length with (length src); [done|lia|].
  intros k x y Hk Hx Hy. destruct (R2 k x Hx) as [Hb1 Hb2].
  pose proof (extends_vbyte m' tbl' l' m2 tbl2 l2 (dst + Z.of_nat k) y S' R1 ltac:(lia) (proj2 (Hw k y Hy))). congruence.
Qed.
End usermem.

(** ** A new table *)

Lemma uvmcreate_space kend m a l : chain kend m (freelist m) (a :: l) → NoDup (a :: l) →
  ∃ m', uvmcreate m = Done (a, m') ∧ space kend m' a {[a := 2%nat]} l.
Proof.
  intros Hc Hn. destruct (kalloc_spec kend m (a :: l) Hc Hn) as (m1 & Hk & Hc1 & _ & Hother). cbn [chain] in Hc.
  destruct Hc as (_ & Hv & _). apply NoDup_cons in Hn as [Ha Hn]. unfold uvmcreate.
  rewrite (run_bind palloc _ m a m1) by (unfold palloc; by rewrite Hk).
  rewrite (proj2 (Z.eqb_neq a 0)) by (destruct Hv as (_ & _ & ?); lia). eexists. split; [done|].
  set (m2 := set_page a _ m1). assert (Hpa : pages m2 !! a = Some (replicate (Z.to_nat PGSIZE) 0)).
  { unfold m2. cbn [pages set_page]. by rewrite lookup_insert_eq. }
  assert (Ht : ∀ p n, ({[a := 2%nat]} : gmap Z nat) !! p = Some n → p = a ∧ n = 2%nat).
  { intros p n [<- <-]%lookup_singleton_Some. done. }
  assert (He : ∀ i, idx i → entry m2 a i = 0) by (intros i Hi; apply entry_zero; [apply Hv|done|done]).
  split.
  - split; [by rewrite lookup_singleton_eq| | |].
    + intros p n [-> _]%Ht. split; [done|]. eexists. split; [exact Hpa|apply zeros_wf].
    + intros p n i [-> _]%Ht Hi. by rewrite He.
    + intros p n i q k j [-> _]%Ht [-> _]%Ht Hi Hj. by rewrite He.
  - apply (chain_frame kend m1); [done|]. intros q Hq. unfold m2. cbn [pages set_page]. apply lookup_insert_ne. by intros ->.
  - done.
  - intros p Hp. apply lookup_singleton_ne. by intros ->.
  - intros p i [_ ?]%Ht. done.
  - intros p i q j [_ ?]%Ht. done.
Qed.

(** Five pages of memory, the last of them an empty table. *)
Definition five_pages : Z := PHYSTOP - 5 * PGSIZE.
Definition demo_root : Z := PHYSTOP - PGSIZE.
Definition demo_free : list Z := [PHYSTOP - 2 * PGSIZE; PHYSTOP - 3 * PGSIZE; PHYSTOP - 4 * PGSIZE; PHYSTOP - 5 * PGSIZE].
Definition demo_mem : kmem :=
  match kinit five_pages ∅ with
  | Ok m => match uvmcreate m with Done (_, m) => m | _ => m end
  | Panic => mk_kmem ∅ 0
  end.

Lemma demo_space : space five_pages demo_mem demo_root {[demo_root := 2%nat]} demo_free.
Proof.
  destruct (kinit_spec five_pages ∅) as (m & Hm & Hc); [by vm_compute|].
  replace (range_pages (first_page five_pages) (num_pages five_pages)) with (demo_root :: demo_free) in Hc by (by vm_compute).
  assert (Hn : NoDup (demo_root :: demo_free)).
  { replace (demo_root :: demo_free) with (range_pages (first_page five_pages) (num_pages five_pages)) by (by vm_compute).
    apply NoDup_range_pages. }
  destruct (uvmcreate_space five_pages m demo_root demo_free Hc Hn) as (m' & E & S). unfold demo_mem. by rewrite Hm, E.
Qed.

(** Three bytes across a page boundary: both pages are faulted in. *)
Definition demo_copy : result (Z * kmem) :=
  copyout five_pages (2 * PGSIZE) demo_root demo_root (PGSIZE - 2) [7; 8; 9] demo_mem.

Lemma copyout_safe_witness : ∃ r m', demo_copy = Done (r, m') ∧ (r = 0 ∨ r = -1).
Proof.
  destruct (copyout_safe five_pages demo_root (2 * PGSIZE) ltac:(by vm_compute) demo_mem _ _ (PGSIZE - 2) [7; 8; 9] demo_space)
    as (r & m' & tbl' & l' & E & Hr & _); [by vm_compute|by repeat constructor|].
  exists r, m'. split; [exact E|exact Hr].
Defined.

Lemma copyout_copyin_witness : ∃ m' m2, demo_copy = Done (0, m') ∧
  copyin five_pages (2 * PGSIZE) demo_root demo_root (PGSIZE - 2) 3 m' = Done (([7; 8; 9], true), m2).
Proof.
  destruct (copyout_copyin five_pages demo_root (2 * PGSIZE) ltac:(by vm_compute) demo_mem _ _ (PGSIZE - 2) [7; 8; 9] demo_space)
    as (r & m' & E & _ & Hr); [by vm_compute|by repeat constructor|].
  assert (Hz : match demo_copy with Done (r, _) => r | _ => 1 end = 0) by (vm_compute; reflexivity).
  unfold demo_copy in *. rewrite E in Hz. subst r. destruct (Hr eq_refl) as [(m2 & E2) _]. exists m', m2. split; [exact E|exact E2].
Defined.
