(* ===== verification/Uvm.v ===== *)
(** * kernel/vm.c: user address spaces

    An address space ([uspace]) is a page table with the pages below a limit, each mapped
    once, as its own.  [uvmcopy] and what it calls are run on it: a page is taken,
    filled and mapped, or unmapped and given back. *)

From S2P Require Import Prelude Effect Proc Kalloc Vm Pagetable Usermem.

Local Open Scope Z_scope.

Section uvm.
Context (kend : Z).

(** [D] has the valid entry of each page number; the pages of those below [lim] are the space's own. *)
Record uspace (root lim : Z) (m : kmem) (tbl : gmap Z nat) (l : list Z) (D : gmap Z Z) : Prop := {
  us_space : space kend m root tbl l;
  us_lim : lim * PGSIZE ≤ MAXVA;
  us_map : ∀ va, 0 ≤ va < MAXVA → kpte m root va = D !! (va / PGSIZE);
  us_dom : ∀ k e, D !! k = Some e → 0 ≤ k * PGSIZE < MAXVA ∧ (has PTE_U e = true → k < lim);
  us_page : ∀ k e, D !! k = Some e → k < lim →
    valid_page kend (PTE2PA e) ∧ PTE2PA e ∉ l ∧ tbl !! PTE2PA e = None ∧ ∃ b, pages m !! PTE2PA e = Some b ∧ page_wf b;
  us_inj : ∀ k k' e e', D !! k = Some e → D !! k' = Some e' → k < lim → k' < lim → PTE2PA e = PTE2PA e' → k = k';
  us_reach : ∀ p i, tbl !! p = Some 0%nat → idx i → has PTE_V (entry m p i) = true →
    ∃ k, 0 ≤ k * PGSIZE < MAXVA ∧ find m 2 root (k * PGSIZE) = Some (pte_addr p i) ∧ D !! k = Some (entry m p i);
}.

(** A page of the space. *)
Definition owns (lim : Z) (D : gmap Z Z) (q : Z) : Prop := ∃ k e, D !! k = Some e ∧ k < lim ∧ PTE2PA e = q.

(** The pages that matter stay as they are. *)
Lemma uspace_frame root lim m m' tbl l l' D : uspace root lim m tbl l D → same_tables tbl m m' →
  (∀ q, owns lim D q → q ∉ l' ∧ pages m' !! q = pages m !! q) →
  chain kend m' (freelist m') l' → NoDup l' → (∀ p, p ∈ l' → tbl !! p = None) → uspace root lim m' tbl l' D.
Proof.
  intros [S L M O P I R] Hs Ho Hc Hn Hf. pose proof (sp_tables _ _ _ _ _ S) as T.
  assert (He : ∀ p n i, tbl !! p = Some n → idx i → entry m' p i = entry m p i).
  { intros p n i Hp Hi. apply entry_ext; [by eapply tb_aligned|done|by eapply Hs]. }
  assert (Hfind : ∀ va, find m' 2 root va = find m 2 root va).
  { intros va. apply (find_inner kend m m' root tbl); [done|apply T|]. intros p n i Hp Hi. by eapply He. }
  split; [|done| |done| |done|].
  - apply (space_frame kend m m' root tbl l l' S Hs); [|done|done|done]. intros p i Hp Hi Hv Hu.
    destruct (R p i Hp Hi Hv) as (k & Hk & _ & HD). destruct (O k _ HD) as [_ Hlim].
    destruct (P k _ HD (Hlim Hu)) as (_ & _ & _ & b & Hb & Hw). destruct (Ho (PTE2PA (entry m p i))) as [H1 H2]; [by exists k, (entry m p i); auto|].
    split; [done|]. exists b. by rewrite H2.
  - intros va Hva. rewrite <- M by done. by apply (kpte_same kend m m' root tbl).
  - intros k e HD Hk. destruct (P k e HD Hk) as (P1 & P2 & P3 & P4). destruct (Ho (PTE2PA e)) as [H1 H2]; [by exists k, e|]. by rewrite H2.
  - intros p i Hp Hi Hv. rewrite (He p 0%nat i Hp Hi) in Hv |- *. destruct (R p i Hp Hi Hv) as (k & Hk & Hfk & HD).
    exists k. by rewrite Hfind.
Qed.

Lemma owns_page root lim m tbl l D q : uspace root lim m tbl l D → owns lim D q →
  valid_page kend q ∧ q ∉ l ∧ tbl !! q = None ∧ ∃ b, pages m !! q = Some b ∧ page_wf b.
Proof. intros U (k & e & HD & Hk & <-). by apply (us_page _ _ _ _ _ _ U k e). Qed.

(** ** Taking and giving pages *)

(** A page nobody uses. *)
Record spare (root lim : Z) (m : kmem) (tbl : gmap Z nat) (l : list Z) (D : gmap Z Z) (q : Z) : Prop := {
  sr_valid : valid_page kend q;
  sr_free : q ∉ l;
  sr_tbl : tbl !! q = None;
  sr_owns : ¬ owns lim D q;
}.

Lemma take_spare root lim m tbl q l D b : uspace root lim m tbl (q :: l) D → page_wf b →
  ∃ m1, palloc m = Done (q, m1) ∧ q ≠ 0 ∧ uspace root lim (set_page q b m1) tbl l D ∧ spare root lim (set_page q b m1) tbl l D q ∧
    pages (set_page q b m1) !! q = Some b ∧ (∀ p, p ≠ q → pages m1 !! p = pages m !! p ∧ pages (set_page q b m1) !! p = pages m !! p).
Proof.
  intros U Hb. pose proof (us_space _ _ _ _ _ _ U) as S.
  destruct (kalloc_spec kend m (q :: l) (sp_chain _ _ _ _ _ S) (sp_nodup _ _ _ _ _ S)) as (m1 & Hk & Hc & _ & Hm1).
  pose proof (sp_nodup _ _ _ _ _ S) as [Hql Hn]%NoDup_cons.
  assert (Htq : tbl !! q = None) by (apply (sp_free _ _ _ _ _ S); left).
  assert (Hvq : valid_page kend q) by (pose proof (sp_chain _ _ _ _ _ S) as Hch; cbn [chain] in Hch; tauto).
  assert (Hpg : ∀ p, p ≠ q → pages (set_page q b m1) !! p = pages m !! p).
  { intros p Hp. cbn [pages set_page]. rewrite lookup_insert_ne by done. by apply Hm1. }
  assert (Hno : ¬ owns lim D q) by (intros Ho; destruct (owns_page _ _ _ _ _ _ _ U Ho) as (_ & Hni & _); apply Hni; left).
  exists m1. split_and!; [unfold palloc; by rewrite Hk|by destruct Hvq as (_ & _ & ?); lia| |done| |].
  - apply (uspace_frame root lim m _ tbl (q :: l) l D U); [| | |done|].
    + intros p n Hp. apply Hpg. congruence.
    + intros p Ho. destruct (owns_page _ _ _ _ _ _ _ U Ho) as (_ & Hni & _). apply not_elem_of_cons in Hni as [H1 H2].
      split; [done|by apply Hpg].
    + apply (chain_frame kend m1); [done|]. intros p Hp. cbn [pages set_page]. rewrite lookup_insert_ne; [done|]. by intros ->.
    + intros p Hp. apply (sp_free _ _ _ _ _ S). by right.
  - cbn [pages set_page]. by rewrite lookup_insert_eq.
  - intros p Hp. split; [by apply Hm1|by apply Hpg].
Qed.

Lemma no_page root lim m tbl D : uspace root lim m tbl [] D → palloc m = Done (0, m).
Proof.
  intros U. pose proof (us_space _ _ _ _ _ _ U) as S. unfold palloc.
  pose proof (kalloc_spec kend m [] (sp_chain _ _ _ _ _ S) (sp_nodup _ _ _ _ _ S)) as Hk. cbn in Hk. by rewrite Hk.
Qed.

Lemma give_spare root lim m tbl q l D : uspace root lim m tbl l D → spare root lim m tbl l D q →
  ∃ m', pfree kend q m = Done ((), m') ∧ uspace root lim m' tbl (q :: l) D ∧ (∀ p, p ≠ q → pages m' !! p = pages m !! p).
Proof.
  intros U [Hv Hl Ht Ho]. pose proof (us_space _ _ _ _ _ _ U) as S.
  destruct (kfree_spec kend m l q (sp_chain _ _ _ _ _ S) Hv Hl) as (m' & Hk & Hc & Hpg).
  exists m'. split_and!; [unfold pfree; by rewrite Hk| |done]. apply (uspace_frame root lim m m' tbl l (q :: l) D U); [| |done| |].
  - intros p n Hp. apply Hpg. congruence.
  - intros p Hop. destruct (owns_page _ _ _ _ _ _ _ U Hop) as (_ & Hni & _). assert (p ≠ q) by (by intros ->).
    split; [by apply not_elem_of_cons|by apply Hpg].
  - apply NoDup_cons. split; [done|apply S].
  - intros p [->|Hp]%elem_of_cons; [done|by apply (sp_free _ _ _ _ _ S)].
Qed.

(** ** Mapping a page *)

(** The table took pages from the free list; nothing else changed. *)
Record took (m : kmem) (tbl : gmap Z nat) (l : list Z) (m' : kmem) (tbl' : gmap Z nat) (l' : list Z) : Prop := {
  tk_free : ∀ p, p ∈ l' → p ∈ l;
  tk_new : ∀ p n, tbl' !! p = Some n → tbl !! p = Some n ∨ p ∈ l;
  tk_kept : ∀ p, p ∈ l → p ∈ l' ∨ is_Some (tbl' !! p);
  tk_old : ∀ p n, tbl !! p = Some n → tbl' !! p = Some n;
  tk_frame : ∀ p, p ∉ l → tbl !! p = None → pages m' !! p = pages m !! p;
}.

Lemma took_none m tbl l m' tbl' l' p : took m tbl l m' tbl' l' → p ∉ l → tbl !! p = None → p ∉ l' ∧ tbl' !! p = None.
Proof.
  intros K Hp Ht. split; [by intros ?%(tk_free _ _ _ _ _ _ K)|]. destruct (tbl' !! p) as [n|] eqn:Hn; [|done].
  destruct (tk_new _ _ _ _ _ _ K p n Hn); [congruence|done].
Qed.

Lemma took_page m tbl l m' tbl' l' p b : took m tbl l m' tbl' l' →
  valid_page kend p ∧ p ∉ l ∧ tbl !! p = None ∧ pages m !! p = b →
  valid_page kend p ∧ p ∉ l' ∧ tbl' !! p = None ∧ pages m' !! p = b.
Proof.
  intros K (H1 & H2 & H3 & <-). destruct (took_none _ _ _ _ _ _ p K H2 H3) as [H4 H5].
  split_and!; [done|done|done|]. by apply (tk_frame _ _ _ _ _ _ K).
Qed.

Lemma took_spare root lim m tbl l m' tbl' l' D q : took m tbl l m' tbl' l' → spare root lim m tbl l D q → spare root lim m' tbl' l' D q.
Proof. intros K [H1 H2 H3 H4]. destruct (took_none _ _ _ _ _ _ q K H2 H3). by split. Qed.

Lemma took_owned root lim m tbl l m' tbl' l' D k e : uspace root lim m tbl l D → took m tbl l m' tbl' l' → D !! k = Some e → k < lim →
  valid_page kend (PTE2PA e) ∧ PTE2PA e ∉ l' ∧ tbl' !! PTE2PA e = None ∧ ∃ b, pages m' !! PTE2PA e = Some b ∧ page_wf b.
Proof.
  intros U K HD Hk. destruct (us_page _ _ _ _ _ _ U k e HD Hk) as (H1 & H2 & H3 & b & H4 & H5).
  destruct (took_page _ _ _ _ _ _ _ _ K (conj H1 (conj H2 (conj H3 H4)))) as (H6 & H7 & H8 & H9). split_and!; try done. by exists b.
Qed.

Lemma grown_took root m tbl l m' tbl' l' : space kend m root tbl l → grown kend root m tbl l m' tbl' l' → took m tbl l m' tbl' l'.
Proof. intros S G. split; try apply G. intros p Hp Ht. apply (gr_frame _ _ _ _ _ _ _ _ G); [done|by left]. Qed.

Lemma grown_uspace root lim m tbl l m' tbl' l' D : uspace root lim m tbl l D → grown kend root m tbl l m' tbl' l' → uspace root lim m' tbl' l' D.
Proof.
  intros U G. pose proof U as [S L M O P I R]. pose proof (grown_took _ _ _ _ _ _ _ S G) as K. split; [apply G|done| |done| |done|].
  - intros va Hva. rewrite <- M by done. by apply (grown_kpte kend root m tbl l m' tbl' l').
  - intros k e. by apply (took_owned root lim m tbl l m' tbl' l').
  - intros p i Hp Hi Hv. destruct (grown_user kend root m tbl l m' tbl' l' p i S G Hp Hi Hv) as [Hp0 He]. rewrite He in Hv |- *.
    destruct (R p i Hp0 Hi Hv) as (k & Hk & Hf & HD). exists k. split_and!; [lia|lia| |done]. by apply (gr_find _ _ _ _ _ _ _ _ G).
Qed.

Lemma page_number k : (k * PGSIZE) / PGSIZE = k ∧ (k * PGSIZE) mod PGSIZE = 0.
Proof. split; [by apply Z.div_mul|apply Z_mod_mult]. Qed.

Lemma map_spare root lim m tbl l D k q perm b :
  uspace root lim m tbl l D → spare root lim m tbl l D q → pages m !! q = Some b → page_wf b →
  0 ≤ k < lim → D !! k = None → 0 ≤ perm < 1024 →
  ∃ r m' tbl' l', mappages root (k * PGSIZE) PGSIZE q perm m = Done (r, m') ∧ took m tbl l m' tbl' l' ∧
    (r = 0 ∧ uspace root lim m' tbl' l' (<[k := new_pte q perm]> D) ∧ (length l ≤ length l' + 2)%nat ∨
     r = -1 ∧ uspace root lim m' tbl' l' D ∧ spare root lim m' tbl' l' D q ∧ (length l < 2)%nat).
Proof.
  intros U Hq Hb Hwf Hk HD Hperm. pose proof U as [S L M O P I R]. pose proof Hq as [Q1 Q2 Q3 Q4].
  destruct (page_number k) as [Hk1 Hk2]. assert (HP : PGSIZE = 4096) by done. assert (Hva : 0 ≤ k * PGSIZE < MAXVA) by lia.
  pose proof (valid_pa kend q Q1) as Hpa.
  destruct (mappages_page kend m root tbl l (k * PGSIZE) q perm S Hva Hk2 Hperm Q1 Q3 Q2) as (r & m' & tbl' & l' & E & Hr).
  { by exists b. }
  { intros p i Hp Hi Hv Hu Heq. destruct (R p i Hp Hi Hv) as (k' & Hk' & _ & HD'). destruct (O k' _ HD') as [_ Hl].
    apply Q4. exists k', (entry m p i). auto. }
  { intros a Ha. pose proof (M _ Hva) as Hn. rewrite Hk1, HD in Hn. unfold kpte, upte in Hn. rewrite Ha in Hn. cbn in Hn.
    by destruct (has PTE_V (word m a)). }
  exists r, m', tbl', l'. split; [done|]. destruct Hr as [[-> G]|(-> & G & Hlen)].
  - assert (K : took m tbl l m' tbl' l') by (split; apply G). split; [done|]. left. split; [done|]. destruct G as [G1 G2 G3 G4 G5 G6 G7 G8 G9 G10]. split; [|done].
    split; [done|done| | | | |].
    + intros va Hva'. rewrite G4, M by done. rewrite Hk1. destruct (decide (va / PGSIZE = k)) as [->|Hne]; [by rewrite lookup_insert_eq|by rewrite lookup_insert_ne].
    + intros k' e [[<- <-]|[Hne HD']]%lookup_insert_Some; [split; [lia|intros; lia]|by apply O].
    + intros k' e [[<- <-]|[Hne HD']]%lookup_insert_Some Hk'; [|by eapply took_owned].
      rewrite PTE2PA_new by done. destruct (took_page _ _ _ _ _ _ q _ K (conj Q1 (conj Q2 (conj Q3 Hb)))) as (H1 & H2 & H3 & H4).
      split_and!; try done. by exists b.
    + assert (Hno : ∀ k' e, D !! k' = Some e → k' < lim → PTE2PA e ≠ q) by (intros k' e HD' Hk' He; apply Q4; by exists k', e).
      intros k1 k2 e1 e2 [[<- <-]|[N1 D1]]%lookup_insert_Some [[<- <-]|[N2 D2]]%lookup_insert_Some L1 L2; rewrite ?PTE2PA_new by done.
      * done.
      * intros He. by destruct (Hno k2 e2 D2 L2).
      * intros He. by destruct (Hno k1 e1 D1 L1).
      * by eapply I.
    + intros p i Hp Hi Hv. destruct (G9 p i Hp Hi Hv) as [Hf|[Hp0 He]].
      * exists k. split_and!; [lia|lia|done|]. pose proof (G4 _ Hva) as Hkp. rewrite decide_True in Hkp by done.
        unfold kpte, upte in Hkp. rewrite Hf in Hkp. cbn in Hkp. unfold entry in *. rewrite Hv in Hkp. injection Hkp as <-. apply lookup_insert_eq.
      * rewrite He in Hv |- *. destruct (R p i Hp0 Hi Hv) as (k' & Hk' & Hf & HD'). exists k'. split_and!; [lia|lia|by apply G8|].
        rewrite lookup_insert_ne; [done|]. intros ->. congruence.
  - pose proof (grown_took _ _ _ _ _ _ _ S G) as K. split; [done|]. right. split_and!; [done|by eapply grown_uspace|by eapply took_spare|done].
Qed.

(** ** Unmapping *)

Lemma space_clear root m tbl l p i : space kend m root tbl l → tbl !! p = Some 0%nat → idx i → space kend (with_entry p i 0 m) root tbl l.
Proof.
  intros S Hp Hi. pose proof S as [T C N F U I]. destruct (tables_leaf kend m root tbl p i 0 T Hp Hi ltac:(lia)) as [T' _].
  destruct (tb_page _ _ _ _ T p _ Hp) as (_ & b & Hb & Hwf).
  assert (He : ∀ q j, tbl !! q = Some 0%nat → idx j → has PTE_V (entry (with_entry p i 0 m) q j) = true →
    entry (with_entry p i 0 m) q j = entry m q j).
  { intros q j Hq Hj. rewrite (entry_with p i _ m b) by (done || by eapply tb_aligned). by destruct (decide (q = p ∧ j = i)). }
  assert (Hpg : ∀ q, q ≠ p → pages (with_entry p i 0 m) !! q = pages m !! q) by (intros q Hq; by apply with_entry_other).
  split; [done| |done|done| |].
  - apply (chain_frame kend m); [done|]. intros q Hq. apply Hpg. intros ->. pose proof (F p Hq). congruence.
  - intros q j Hq Hj Hv Hu. pose proof (He q j Hq Hj Hv) as E. rewrite E in Hv, Hu |- *. destruct (U q j Hq Hj Hv Hu) as (U1 & U2 & U3 & c & U4 & U5).
    split_and!; [done|done|done|]. exists c. rewrite Hpg; [done|]. congruence.
  - intros q j r o Hq Hr Hj Ho Hv Hu Hv' Hu'. pose proof (He q j Hq Hj Hv) as E. pose proof (He r o Hr Ho Hv') as E'.
    rewrite E in Hv, Hu |- *. rewrite E' in Hv', Hu' |- *. by apply I.
Qed.

Lemma clear_uspace root lim m tbl l D k p i e : uspace root lim m tbl l D → tbl !! p = Some 0%nat → i = PX 0 (k * PGSIZE) →
  find m 2 root (k * PGSIZE) = Some (pte_addr p i) → D !! k = Some e → k < lim →
  uspace root lim (with_entry p i 0 m) tbl l (delete k D) ∧ spare root lim (with_entry p i 0 m) tbl l (delete k D) (PTE2PA e).
Proof.
  intros U Hp -> Hf HD Hk. pose proof U as [S L M O P I R]. pose proof (sp_tables _ _ _ _ _ S) as T.
  destruct (O k e HD) as [Hva _]. destruct (page_number k) as [Hk1 _]. destruct (P k e HD Hk) as (P1 & P2 & P3 & _).
  destruct (tables_leaf kend m root tbl p (PX 0 (k * PGSIZE)) 0 T Hp (PX_idx _ _) ltac:(lia)) as [T' Hin].
  destruct (tb_page _ _ _ _ T p _ Hp) as (_ & b & Hb & Hwf).
  assert (Hfind : ∀ va, find (with_entry p (PX 0 (k * PGSIZE)) 0 m) 2 root va = find m 2 root va).
  { intros va. by apply (find_inner kend m _ root tbl 2 root va T (tb_root _ _ _ _ T)). }
  split.
  - split; [apply space_clear; [done|done|apply PX_idx]|done| | | | |].
    + intros va Hva'. rewrite (kpte_write kend m root tbl (k * PGSIZE) p 0 T Hp ltac:(lia) Hva Hf va Hva'), M, Hk1 by done.
      destruct (decide (va / PGSIZE = k)) as [->|Hne]; [by rewrite lookup_delete_eq|by rewrite lookup_delete_ne].
    + intros k' e' [Hne HD']%lookup_delete_Some. by apply O.
    + intros k' e' [Hne HD']%lookup_delete_Some Hk'. destruct (P k' e' HD' Hk') as (H1 & H2 & H3 & c & H4 & H5). split_and!; [done|done|done|].
      exists c. rewrite with_entry_other; [done|]. intros Hx. congruence.
    + intros k1 k2 e1 e2 [N1 D1]%lookup_delete_Some [N2 D2]%lookup_delete_Some. by apply I.
    + intros q j Hq Hj Hv. rewrite (entry_with p _ _ m b) in Hv |- * by (done || (by eapply tb_aligned) || apply PX_idx).
      destruct (decide (q = p ∧ j = PX 0 (k * PGSIZE))) as [|Hne]; [done|].
      destruct (R q j Hq Hj Hv) as (k' & Hk' & Hf' & HD'). exists k'. rewrite Hfind. split_and!; [lia|lia|done|].
      rewrite lookup_delete_ne; [done|]. intros <-. apply Hne. rewrite Hf in Hf'. injection Hf' as Hf'.
      destruct (pte_addr_inj p q (PX 0 (k * PGSIZE)) j) as [-> ->]; try done; [by eapply tb_aligned|by eapply tb_aligned|apply PX_idx].
  - split; [done|done|done|]. intros (k' & e' & [Hne HD']%lookup_delete_Some & Hk' & He). apply Hne. by eapply I.
Qed.

(** [kfree] and the write of the entry commute. *)
Lemma kfree_with_entry q p i m m2 : p ≠ q → Kalloc.kfree kend q (with_entry p i 0 m) = Ok m2 →
  ∃ m1, Kalloc.kfree kend q m = Ok m1 ∧ with_entry p i 0 m1 = m2.
Proof.
  intros Hne. unfold Kalloc.kfree. destruct (_ || _); [done|]. intros [= <-]. eexists. split; [reflexivity|].
  unfold with_entry, set_page. cbn [pages freelist]. rewrite lookup_insert_ne by done. f_equal. by apply insert_insert_ne.
Qed.

Lemma unmap_run root lim m tbl l D k : uspace root lim m tbl l D → 0 ≤ k < lim →
  match D !! k with
  | None => unmap_page kend root (k * PGSIZE) true m = Done ((), m)
  | Some e => ∃ m', unmap_page kend root (k * PGSIZE) true m = Done ((), m') ∧ uspace root lim m' tbl (PTE2PA e :: l) (delete k D) ∧
      ∀ p, p ≠ PTE2PA e → tbl !! p = None → pages m' !! p = pages m !! p
  end.
Proof.
  intros U Hk. pose proof U as [S L M O P I R]. pose proof (sp_tables _ _ _ _ _ S) as T. assert (HP : PGSIZE = 4096) by done.
  assert (Hva : 0 ≤ k * PGSIZE < MAXVA) by lia. destruct (page_number k) as [Hk1 _]. pose proof (M _ Hva) as Hkp. rewrite Hk1 in Hkp.
  unfold unmap_page. unfold kpte, upte in Hkp.
  rewrite (run_bind _ _ _ _ _ (walk_false kend m root tbl (k * PGSIZE) T ltac:(lia))).
  destruct (find m 2 root (k * PGSIZE)) as [a|] eqn:Hf; [|by rewrite <- Hkp].
  destruct (find_leaf kend m root tbl 2 root _ a T (tb_root _ _ _ _ T) Hf) as (p & Hp & ->).
  destruct (tb_page _ _ _ _ T p _ Hp) as (_ & b & Hb & Hwf). pose proof (tb_aligned _ _ _ _ _ _ T Hp) as Hap.
  rewrite (run_bind _ _ _ _ _ (load64_run m p _ b Hap (PX_idx _ _) Hb)). cbn in Hkp. fold (entry m p (PX 0 (k * PGSIZE))) in Hkp.
  destruct (has PTE_V (entry m p (PX 0 (k * PGSIZE)))) eqn:Hv; rewrite <- Hkp; [|done]. cbn [negb when].
  set (e := entry m p (PX 0 (k * PGSIZE))) in *. symmetry in Hkp.
  destruct (clear_uspace root lim m tbl l D k p _ e U Hp eq_refl Hf Hkp ltac:(lia)) as [U1 Q1].
  destruct (give_spare _ _ _ _ _ _ _ U1 Q1) as (m2 & E2 & U2 & F2). destruct (P k e Hkp ltac:(lia)) as (P1 & P2 & P3 & _).
  assert (Hpe : p ≠ PTE2PA e) by (intros Hx; rewrite <- Hx in P3; congruence).
  unfold pfree in E2. destruct (Kalloc.kfree kend (PTE2PA e) (with_entry _ _ _ m)) as [m2'|] eqn:Ek; [|done]. injection E2 as ->.
  destruct (kfree_with_entry _ _ _ _ _ Hpe Ek) as (m1 & E1 & Em2).
  assert (Hpf : pfree kend (PTE2PA e) m = Done ((), m1)) by (unfold pfree; by rewrite E1).
  exists m2. split_and!; [|done|].
  - rewrite (run_bind _ _ _ _ _ Hpf), <- Em2. assert (Hpg : pages m1 !! p = Some b).
    { unfold Kalloc.kfree in E1. destruct (_ || _); [done|]. injection E1 as <-. cbn [pages]. by rewrite lookup_insert_ne. }
    apply (store64_run m1 p _ b); [done|apply PX_idx|done].
  - intros q Hq Ht. rewrite F2 by done. apply with_entry_other. congruence.
Qed.

Record unmapped (lim : Z) (m : kmem) (tbl : gmap Z nat) (l : list Z) (D : gmap Z Z) (lo hi : Z) (m' : kmem) (l' : list Z) (D' : gmap Z Z) : Prop := {
  un_free : ∀ p, p ∈ l → p ∈ l';
  un_from : ∀ p, p ∈ l' → p ∈ l ∨ owns lim D p;
  un_freed : ∀ k e, D !! k = Some e → lo ≤ k < hi → PTE2PA e ∈ l';
  un_map : ∀ k, D' !! k = if decide (lo ≤ k < hi) then None else D !! k;
  un_frame : ∀ p, ¬ owns lim D p → tbl !! p = None → pages m' !! p = pages m !! p;
}.

Lemma unmap_range root lim tbl n : ∀ m l D k, uspace root lim m tbl l D → 0 ≤ k → k + Z.of_nat n ≤ lim →
  ∃ m' l' D', for_ n k (λ i, unmap_page kend root (0 + i * PGSIZE) true) m = Done ((), m') ∧ uspace root lim m' tbl l' D' ∧
    unmapped lim m tbl l D k (k + Z.of_nat n) m' l' D'.
Proof.
  induction n as [|n IH]; intros m l D k U Hk Hn.
  { exists m, l, D. split_and!; [done|done|]. split; try done; [by left|intros; lia|]. intros k'. rewrite decide_False; [done|lia]. }
  cbn [for_]. rewrite Z.add_0_l. pose proof (unmap_run root lim m tbl l D k U ltac:(lia)) as Hr.
  assert (HI : ∃ m1 l1 D1, unmap_page kend root (k * PGSIZE) true m = Done ((), m1) ∧ uspace root lim m1 tbl l1 D1 ∧ unmapped lim m tbl l D k (k + 1) m1 l1 D1).
  { destruct (D !! k) as [e|] eqn:HD.
    - destruct Hr as (m1 & E & U1 & F). exists m1, (PTE2PA e :: l), (delete k D). split_and!; [done|done|].
      assert (Ho : owns lim D (PTE2PA e)) by (exists k, e; split_and!; [done|lia|done]). split.
      + intros p Hp. by right.
      + intros p [->|Hp]%elem_of_cons; [by right|by left].
      + intros k' e' HD' Hk'. assert (k' = k) as -> by lia. replace e' with e by congruence. left.
      + intros k'. destruct (decide (k ≤ k' < k + 1)); [assert (k' = k) as -> by lia; apply lookup_delete_eq|apply lookup_delete_ne; lia].
      + intros p Hp. apply F. by intros ->.
    - exists m, l, D. split_and!; [done|done|]. split; try done; [by left| |].
      + intros k' e' HD' Hk'. assert (k' = k) as -> by lia. congruence.
      + intros k'. destruct (decide _); [|done]. by assert (k' = k) as -> by lia. }
  destruct HI as (m1 & l1 & D1 & E1 & U1 & [A1 A2 A3 A4 A5]). rewrite (run_bind _ _ _ _ _ E1).
  destruct (IH m1 l1 D1 (k + 1) U1 ltac:(lia) ltac:(lia)) as (m' & l' & D' & E & U' & [B1 B2 B3 B4 B5]).
  assert (Hsub : ∀ p, owns lim D1 p → owns lim D p).
  { intros p (k' & e & HD & Hk' & He). rewrite A4 in HD. destruct (decide _); [done|]. by exists k', e. }
  exists m', l', D'. split_and!; [done|done|]. split.
  - intros p Hp. by apply B1, A1.
  - intros p [Hp|Hp]%B2; [by apply A2|right; by apply Hsub].
  - intros k' e HD Hk'. destruct (decide (k' = k)) as [->|]; [apply B1, (A3 k e HD); lia|]. apply (B3 k'); [|lia].
    rewrite A4. rewrite decide_False; [done|lia].
  - intros k'. rewrite B4, A4. repeat destruct (decide _); try done; lia.
  - intros p Hp Ht. rewrite B5, A5; [done|done|done| |done]. intros Ho. by apply Hp, Hsub.
Qed.

Lemma uvmunmap_run root lim m tbl l D n : uspace root lim m tbl l D → 0 ≤ n ≤ lim →
  ∃ m' l' D', uvmunmap kend root 0 n true m = Done ((), m') ∧ uspace root lim m' tbl l' D' ∧ unmapped lim m tbl l D 0 n m' l' D'.
Proof.
  intros U Hn. pose proof (us_lim _ _ _ _ _ _ U) as HL. assert (HM : MAXVA = 2 ^ 38) by done. assert (HP : PGSIZE = 4096) by done.
  destruct (unmap_range root lim tbl (Z.to_nat n) m l D 0 U ltac:(lia) ltac:(lia)) as (m' & l' & D' & E & U' & H).
  exists m', l', D'. rewrite Z2Nat.id in H by lia. split_and!; [|done|done]. unfold uvmunmap. rewrite Z.mod_0_l by done. cbn [Z.eqb negb].
  rewrite u64_id by (unfold is_u64; lia). rewrite Z.sub_0_r, Z.add_0_l, (proj1 (page_number n)). exact E.
Qed.

(** ** [uvmcopy] *)

Section copy.
Context (old new lim sz : Z) (m0 : kmem) (tblO tbl0 : gmap Z nat) (l0 : list Z) (DO DN : gmap Z Z).
Context (UO : uspace old lim m0 tblO l0 DO) (UN : uspace new lim m0 tbl0 l0 DN).
Context (Hempty : ∀ k, k < lim → DN !! k = None) (Hsz : 0 ≤ sz ≤ lim * PGSIZE).
Context (Hapart : ∀ p, is_Some (tblO !! p) ∨ owns lim DO p → tbl0 !! p = None).

(** Page [k] of the new space is a fresh copy of the old one's. *)
Definition copied_page (m : kmem) (D : gmap Z Z) (k : Z) : Prop :=
  match DO !! k with
  | None => D !! k = None
  | Some e => ∃ q, q ∈ l0 ∧ D !! k = Some (new_pte q (PTE_FLAGS e)) ∧ pages m !! q = pages m0 !! PTE2PA e
  end.

(** The pages below [n] that are there. *)
Definition resident (n : Z) : gmap Z Z := filter (λ ke, ke.1 < n) DO.

(** After [i] pages. *)
Record copying (i : Z) (m : kmem) (tbl : gmap Z nat) (l : list Z) (D : gmap Z Z) : Prop := {
  cp_i : 0 ≤ i ≤ lim;
  cp_new : uspace new lim m tbl l D;
  cp_free : ∀ p, p ∈ l → p ∈ l0;
  cp_tbl : ∀ p n, tbl !! p = Some n → tbl0 !! p = Some n ∨ p ∈ l0;
  cp_frame : ∀ p, p ∉ l0 → tbl0 !! p = None → pages m !! p = pages m0 !! p;
  cp_kept : ∀ p, p ∈ l0 → p ∈ l ∨ is_Some (tbl !! p) ∨ owns lim D p;
  cp_done : ∀ k, 0 ≤ k < i → copied_page m D k;
  cp_rest : ∀ k, i ≤ k ∨ k < 0 → D !! k = DN !! k;
}.

Lemma resident_S i e : DO !! i = Some e → size (resident (i + 1)) = S (size (resident i)).
Proof.
  intros HDO. unfold resident. rewrite <- (map_size_insert_None i e).
  2: { apply map_lookup_filter_None. right. intros x _. cbn. lia. }
  f_equal. apply map_eq. intros k. destruct (decide (k = i)) as [->|Hne].
  { rewrite lookup_insert_eq. apply map_lookup_filter_Some. split; [done|cbn; lia]. }
  rewrite lookup_insert_ne by done. apply option_eq. intros x. rewrite !map_lookup_filter_Some. cbn. naive_solver lia.
Qed.

Lemma resident_le i n : i ≤ n → (size (resident i) ≤ size (resident n))%nat.
Proof.
  intros Hi. apply map_subseteq_size, map_subseteq_spec. intros k x. unfold resident. rewrite !map_lookup_filter_Some. cbn. intros [? ?]. split; [done|lia].
Qed.

Lemma PTE_FLAGS_range e : 0 ≤ PTE_FLAGS e < 1024.
Proof. unfold PTE_FLAGS. change 0x3FF with (Z.ones 10). rewrite Z.land_ones by lia. apply Z.mod_pos_bound. lia. Qed.

Lemma fresh_pa q e : q ∈ l0 → PTE2PA (new_pte q (PTE_FLAGS e)) = q.
Proof.
  intros Hq. apply PTE2PA_new; [|apply PTE_FLAGS_range]. apply (valid_pa kend).
  exact (chain_valid _ _ _ _ _ (sp_chain _ _ _ _ _ (us_space _ _ _ _ _ _ UN)) Hq).
Qed.

(** The old space is as it was. *)
Lemma old_same i m tbl l D p : copying i m tbl l D → is_Some (tblO !! p) ∨ owns lim DO p → p ∉ l0 ∧ pages m !! p = pages m0 !! p.
Proof.
  intros C Hp. assert (Hl : p ∉ l0).
  { intros Hin. destruct Hp as [[n Hn]|Ho]; [|by apply (owns_page _ _ _ _ _ _ _ UO Ho)].
    pose proof (sp_free _ _ _ _ _ (us_space _ _ _ _ _ _ UO) p Hin). congruence. }
  split; [done|]. apply (cp_frame _ _ _ _ _ C); [done|by apply Hapart].
Qed.

Lemma old_entry i m tbl l D : copying i m tbl l D → tables kend m old tblO ∧
  ∀ va, 0 ≤ va < MAXVA → kpte m old va = DO !! (va / PGSIZE).
Proof.
  intros C. assert (Hs : same_tables tblO m0 m) by (intros p n Hp; apply (old_same i m tbl l D p C); by eauto).
  pose proof (sp_tables _ _ _ _ _ (us_space _ _ _ _ _ _ UO)) as T. split; [by apply (tables_same kend m0)|].
  intros va Hva. rewrite (kpte_same kend m0 m old tblO va T Hs). by apply UO.
Qed.

(** Pages went from the free list to the table or to the space, and none was lost. *)
Record moved (m : kmem) (tbl : gmap Z nat) (l : list Z) (m' : kmem) (tbl' : gmap Z nat) (l' : list Z) (D' : gmap Z Z) : Prop := {
  mv_free : ∀ p, p ∈ l' → p ∈ l;
  mv_new : ∀ p n, tbl' !! p = Some n → tbl !! p = Some n ∨ p ∈ l;
  mv_old : ∀ p n, tbl !! p = Some n → tbl' !! p = Some n;
  mv_frame : ∀ p, p ∉ l → tbl !! p = None → pages m' !! p = pages m !! p;
  mv_kept : ∀ p, p ∈ l → p ∈ l' ∨ is_Some (tbl' !! p) ∨ owns lim D' p;
}.

Lemma copying_moved i i' m tbl l D m' tbl' l' D' : copying i m tbl l D → i ≤ i' ≤ lim → moved m tbl l m' tbl' l' D' →
  uspace new lim m' tbl' l' D' → (∀ k, k < i ∨ i' ≤ k → D' !! k = D !! k) → (∀ k, i ≤ k < i' → copied_page m' D' k) →
  copying i' m' tbl' l' D'.
Proof.
  intros [C0 C1 C2 C3 C4 C5 C6 C7] Hi [M1 M2 M3 M4 M5] U' H1 H2. split.
  - lia.
  - done.
  - intros p Hp. by apply C2, M1.
  - intros p n [Hp|Hp]%M2; [by apply C3|right; by apply C2].
  - intros p Hp Ht. rewrite M4, C4; [done|done|done|by intros ?%C2|].
    destruct (tbl !! p) as [n|] eqn:Hn; [|done]. destruct (C3 p n Hn); [congruence|done].
  - intros p [Hp|[[n Hp]|(k & e & HD & Hk & He)]]%C5; [by apply M5|right; left; exists n; by apply M3|].
    right. right. exists k, e. split_and!; [|done|done]. rewrite H1; [done|]. destruct (decide (i ≤ k < i')); [|lia].
    rewrite C7, Hempty in HD by lia. done.
  - intros k Hk. destruct (decide (i ≤ k)); [apply H2; lia|]. specialize (C6 k ltac:(lia)). unfold copied_page in *. rewrite H1 by lia.
    destruct (DO !! k) as [e|]; [|done]. destruct C6 as (q & Hq & HD & Hc). exists q. split_and!; [done|done|]. rewrite <- Hc.
    assert (Ho : owns lim D q) by (exists k, (new_pte q (PTE_FLAGS e)); split_and!; [done|lia|by apply fresh_pa]).
    destruct (owns_page _ _ _ _ _ _ _ C1 Ho) as (_ & Hl & Ht & _). by apply M4.
  - intros k Hk. rewrite <- C7 by lia. apply H1. lia.
Qed.

(** A page that is not in the old space is skipped. *)
Lemma copying_skip i m tbl l D : copying i m tbl l D → i < lim → DO !! i = None → copying (i + 1) m tbl l D.
Proof.
  intros C Hi HDO. pose proof (cp_i _ _ _ _ _ C) as Hi0. apply (copying_moved i (i + 1) m tbl l D); [done|lia| |apply C|done|].
  - split; try done; by left.
  - intros k Hk. assert (k = i) as -> by lia. unfold copied_page. rewrite HDO, (cp_rest _ _ _ _ _ C) by lia. apply Hempty. lia.
Qed.

(** A page is taken, filled and mapped; when there is no page for the table, it is given back. *)
Lemma copying_page i m tbl q l D e b : copying i m tbl (q :: l) D → i < lim → DO !! i = Some e →
  pages m !! PTE2PA e = Some b → page_wf b →
  ∃ m1, palloc m = Done (q, m1) ∧ q ≠ 0 ∧ pages m1 !! PTE2PA e = Some b ∧
  ∃ r m2 tbl2 l2, mappages new (i * PGSIZE) PGSIZE q (PTE_FLAGS e) (set_page q b m1) = Done (r, m2) ∧
    (r = 0 ∧ copying (i + 1) m2 tbl2 l2 (<[i := new_pte q (PTE_FLAGS e)]> D) ∧ (length l ≤ length l2 + 2)%nat ∨
     r = -1 ∧ (length l < 2)%nat ∧ ∃ m3, pfree kend q m2 = Done ((), m3) ∧ copying i m3 tbl2 (q :: l2) D).
Proof.
  intros C Hi HDO Hb Hwf. pose proof (cp_new _ _ _ _ _ C) as U. pose proof (cp_i _ _ _ _ _ C) as Hi0.
  assert (HDi : D !! i = None) by (rewrite (cp_rest _ _ _ _ _ C) by lia; by apply Hempty).
  assert (Hq0 : q ∈ l0) by (apply (cp_free _ _ _ _ _ C); left).
  assert (Hne : PTE2PA e ≠ q).
  { intros Heq. destruct (old_same i m tbl (q :: l) D (PTE2PA e) C) as [Hni _]; [right; by exists i, e|]. by rewrite Heq in Hni. }
  destruct (take_spare new lim m tbl q l D b U Hwf) as (m1 & E1 & Hq & U1 & Q1 & Hqb & F1).
  exists m1. split_and!; [done|done|by rewrite (proj1 (F1 _ Hne))|].
  destruct (map_spare new lim _ tbl l D i q (PTE_FLAGS e) b U1 Q1 Hqb Hwf ltac:(lia) HDi (PTE_FLAGS_range e)) as (r & m2 & tbl2 & l2 & E2 & K & Hr).
  exists r, m2, tbl2, l2. split; [done|].
  assert (Hfr : ∀ p, p ≠ q → p ∉ l → tbl !! p = None → pages m2 !! p = pages m !! p).
  { intros p Hpq Hp Ht. rewrite (tk_frame _ _ _ _ _ _ K) by done. by apply F1. }
  pose proof (sr_free _ _ _ _ _ _ _ Q1) as Hql. pose proof (sr_tbl _ _ _ _ _ _ _ Q1) as Hqt.
  destruct Hr as [(-> & U2 & Hlen)|(-> & U2 & Q2 & Hlen)]; [left|right]; (split; [done|]).
  - assert (Ho : owns lim (<[i := new_pte q (PTE_FLAGS e)]> D) q).
    { exists i, (new_pte q (PTE_FLAGS e)). split_and!; [apply lookup_insert_eq|done|by apply fresh_pa]. }
    split; [|done]. apply (copying_moved i (i + 1) m tbl (q :: l) D); [done|lia| |done| |].
    + split.
      * intros p Hp. right. by apply (tk_free _ _ _ _ _ _ K).
      * intros p n [Hp|Hp]%(tk_new _ _ _ _ _ _ K); [by left|right; by right].
      * apply K.
      * intros p [Hpq Hp]%not_elem_of_cons. by apply Hfr.
      * intros p [->|Hp]%elem_of_cons; [by right; right|]. destruct (tk_kept _ _ _ _ _ _ K p Hp); [by left|by right; left].
    + intros k Hk. apply lookup_insert_ne. lia.
    + intros k Hk. assert (k = i) as -> by lia. unfold copied_page. rewrite HDO. exists q. split_and!; [done|apply lookup_insert_eq|].
      rewrite (tk_frame _ _ _ _ _ _ K), Hqb by done. rewrite <- Hb. apply (old_same i m tbl (q :: l) D); [done|]. right. by exists i, e.
  - destruct (give_spare _ _ _ _ _ _ _ U2 Q2) as (m3 & E3 & U3 & F3). split; [done|]. exists m3. split; [done|].
    apply (copying_moved i i m tbl (q :: l) D); [done|lia| |done|done|lia]. split.
    + intros p [->|Hp]%elem_of_cons; [left|right; by apply (tk_free _ _ _ _ _ _ K)].
    + intros p n [Hp|Hp]%(tk_new _ _ _ _ _ _ K); [by left|right; by right].
    + apply K.
    + intros p [Hpq Hp]%not_elem_of_cons Ht. rewrite F3 by done. by apply Hfr.
    + intros p [->|Hp]%elem_of_cons; [left; left|]. destruct (tk_kept _ _ _ _ _ _ K p Hp); [left; by right|by right; left].
Qed.

Lemma copy_loop_S fuel i : copy_loop kend (S fuel) old new i sz =
  if i <? sz then
    p ← walk old i false;
    match p with
    | None => copy_loop kend fuel old new (u64 (i + PGSIZE)) sz
    | Some p =>
        pte ← load64 p;
        if negb (has PTE_V pte) then copy_loop kend fuel old new (u64 (i + PGSIZE)) sz
        else
          mem ← palloc;
          if mem =? 0 then uvmunmap kend new 0 (i / PGSIZE) true;; mret (-1)
          else
            l ← get_page (PTE2PA pte);
            modify (set_page mem l);;
            r ← mappages new i PGSIZE mem (PTE_FLAGS pte);
            if negb (r =? 0) then pfree kend mem;; uvmunmap kend new 0 (i / PGSIZE) true;; mret (-1)
            else copy_loop kend fuel old new (u64 (i + PGSIZE)) sz
    end
  else mret 0.
Proof. done. Qed.

(** The copy failed: the pages of the copy are free again. *)
Definition undone (m' : kmem) (tbl' : gmap Z nat) (l' : list Z) : Prop :=
  uspace new lim m' tbl' l' DN ∧ (∀ p, p ∈ l' → p ∈ l0) ∧ (∀ p n, tbl' !! p = Some n → tbl0 !! p = Some n ∨ p ∈ l0) ∧
  (∀ p, p ∉ l0 → tbl0 !! p = None → pages m' !! p = pages m0 !! p) ∧ ∀ p, p ∈ l0 → p ∈ l' ∨ is_Some (tbl' !! p).

Lemma undo_run i m tbl l D : copying i m tbl l D →
  ∃ m' l', (uvmunmap kend new 0 (i * PGSIZE / PGSIZE) true;; mret (-1)) m = Done (-1, m') ∧ undone m' tbl l'.
Proof.
  intros C. pose proof C as [C0 C1 C2 C3 C4 C5 C6 C7]. rewrite (proj1 (page_number i)).
  destruct (uvmunmap_run new lim m tbl l D i C1 C0) as (m' & l' & D' & E & U' & [A1 A2 A3 A4 A5]). rewrite (run_bind _ _ _ _ _ E).
  assert (HD : D' = DN).
  { apply map_eq. intros k. rewrite A4. destruct (decide (0 ≤ k < i)); [symmetry; apply Hempty; lia|apply C7; lia]. }
  assert (Hown : ∀ p, owns lim D p → p ∈ l0).
  { intros p (k & e & HDk & Hk & <-). destruct (decide (0 ≤ k < i)) as [Hki|Hki].
    - specialize (C6 k Hki). unfold copied_page in C6. destruct (DO !! k) as [e'|]; [|congruence].
      destruct C6 as (q & Hq & HDk' & _). replace e with (new_pte q (PTE_FLAGS e')) by congruence. by rewrite fresh_pa.
    - rewrite C7, Hempty in HDk by lia. done. }
  exists m', l'. split; [done|]. subst D'. split; [done|]. split_and!.
  - intros p [Hp|Hp]%A2; [by apply C2|by apply Hown].
  - done.
  - intros p Hp Ht. rewrite A5, C4; [done|done|done|by intros ?%Hown|].
    destruct (tbl !! p) as [n|] eqn:Hn; [|done]. destruct (C3 p n Hn); [congruence|done].
  - intros p [Hp|[Hp|(k & e & HDk & Hk & <-)]]%C5; [left; by apply A1|by right|left]. apply (A3 k e HDk).
    destruct (decide (0 ≤ k < i)) as [|Hki]; [done|]. rewrite C7, Hempty in HDk by lia. done.
Qed.

(** Copied, or out of memory: each page that is there takes at most three from the free list, two of them for tables. *)
Definition copy_done (r : Z) (m' : kmem) (tbl' : gmap Z nat) (l' : list Z) : Prop :=
  r = 0 ∧ (∃ D' n, sz ≤ n * PGSIZE ∧ ((n - 1) * PGSIZE < sz ∨ n = 0) ∧ copying n m' tbl' l' D') ∨
  r = -1 ∧ undone m' tbl' l' ∧ (length l0 < 3 * size (resident ((sz + PGSIZE - 1) / PGSIZE)))%nat.

Lemma copy_loop_run fuel : ∀ i m tbl l D, copying i m tbl l D → (Z.to_nat (sz / PGSIZE + 1 - i) < fuel)%nat → (i - 1) * PGSIZE < sz ∨ i = 0 →
  (length l0 ≤ length l + 3 * size (resident i))%nat →
  ∃ r m' tbl' l', copy_loop kend fuel old new (i * PGSIZE) sz m = Done (r, m') ∧ copy_done r m' tbl' l'.
Proof.
  assert (HP : PGSIZE = 4096) by done. assert (HM : MAXVA = 2 ^ 38) by done.
  induction fuel as [|fuel IH]; intros i m tbl l D C Hf Hlast Hlen; [lia|]. rewrite copy_loop_S.
  pose proof (cp_i _ _ _ _ _ C) as Hi0. pose proof (us_lim _ _ _ _ _ _ UN) as HL.
  destruct (Z.ltb_spec (i * PGSIZE) sz) as [Hlt|Hge].
  2: { exists 0, m, tbl, l. split; [done|]. left. split; [done|]. by exists D, i. }
  assert (Hi : i < lim) by lia. destruct (page_number i) as [Hi1 _]. destruct (old_entry i m tbl l D C) as [T HK].
  assert (Hnext : u64 (i * PGSIZE + PGSIZE) = (i + 1) * PGSIZE) by (rewrite u64_id; unfold is_u64; lia). rewrite Hnext.
  assert (Hdiv : i ≤ sz / PGSIZE) by (apply Z.div_le_lower_bound; lia).
  pose proof (resident_le i (i + 1) ltac:(lia)) as HR1. assert (HR2 : (size (resident (i + 1)) ≤ size (resident ((sz + PGSIZE - 1) / PGSIZE)))%nat) by (apply resident_le, Z.div_le_lower_bound; lia).
  rewrite (run_bind _ _ _ _ _ (walk_false kend m old tblO (i * PGSIZE) T ltac:(lia))).
  pose proof (HK (i * PGSIZE) ltac:(lia)) as Hk. rewrite Hi1 in Hk. unfold kpte, upte in Hk.
  assert (Hskip : DO !! i = None → ∃ r m' tbl' l', copy_loop kend fuel old new ((i + 1) * PGSIZE) sz m = Done (r, m') ∧ copy_done r m' tbl' l').
  { intros HDO. apply (IH (i + 1) m tbl l D); [by apply copying_skip|lia|lia|lia]. }
  destruct (find m 2 old (i * PGSIZE)) as [a|] eqn:Hfa; [|by apply Hskip].
  destruct (find_leaf kend m old tblO 2 old _ a T (tb_root _ _ _ _ T) Hfa) as (p & Hp & ->).
  destruct (tb_page _ _ _ _ T p _ Hp) as (_ & b & Hb & _).
  rewrite (run_bind _ _ _ _ _ (load64_run m p _ b ltac:(by eapply tb_aligned) (PX_idx _ _) Hb)).
  cbn in Hk. fold (entry m p (PX 0 (i * PGSIZE))) in Hk. set (e := entry m p (PX 0 (i * PGSIZE))) in *.
  destruct (has PTE_V e) eqn:Hv; [|by apply Hskip]. cbn [negb]. symmetry in Hk. pose proof (resident_S i e Hk) as HRS.
  destruct l as [|q l]; cbn [length] in Hlen.
  { rewrite (run_bind _ _ _ _ _ (no_page _ _ _ _ _ (cp_new _ _ _ _ _ C))). cbn [Z.eqb].
    destruct (undo_run i m tbl [] D C) as (m' & l' & E & H). exists (-1), m', tbl, l'. split; [done|]. right. split_and!; [done|done|lia]. }
  destruct (us_page _ _ _ _ _ _ UO i e Hk Hi) as (_ & _ & _ & c & Hc & Hwf).
  destruct (old_same i m tbl (q :: l) D (PTE2PA e) C) as [_ Hs]; [right; by exists i, e|]. rewrite Hc in Hs.
  destruct (copying_page i m tbl q l D e c C Hi Hk Hs Hwf) as (m1 & E1 & Hq & Hc1 & r & m2 & tbl2 & l2 & E2 & Hr).
  rewrite (run_bind _ _ _ _ _ E1), (proj2 (Z.eqb_neq q 0) Hq), (run_bind _ _ _ _ _ (get_page_run m1 _ c Hc1)).
  unfold modify at 1. erewrite run_bind by reflexivity. rewrite (run_bind _ _ _ _ _ E2).
  destruct Hr as [(-> & C2 & Hl2)|(-> & Hl2 & m3 & E3 & C3)]; cbn [Z.eqb negb].
  - apply (IH (i + 1) m2 tbl2 l2 _ C2); lia.
  - rewrite (run_bind _ _ _ _ _ E3). destruct (undo_run i m3 tbl2 (q :: l2) D C3) as (m' & l' & E & H).
    exists (-1), m', tbl2, l'. split; [done|]. right. split_and!; [done|done|lia].
Qed.

(** The old space is still there, next to what became of the new one. *)
Lemma old_kept m tbl l D : uspace new lim m tbl l D → (∀ p, p ∈ l → p ∈ l0) →
  (∀ p, p ∉ l0 → tbl0 !! p = None → pages m !! p = pages m0 !! p) →
  uspace old lim m tblO l DO ∧ ∀ va, 0 ≤ va < MAXVA → kpte m old va = kpte m0 old va ∧ vbyte m old va = vbyte m0 old va.
Proof.
  intros U Hl Hf. pose proof (us_space _ _ _ _ _ _ UO) as S. pose proof (us_space _ _ _ _ _ _ U) as S'.
  assert (Hno : ∀ p, is_Some (tblO !! p) ∨ owns lim DO p → p ∉ l0).
  { intros p [[n Hn]|Ho] Hin; [|by apply (owns_page _ _ _ _ _ _ _ UO Ho)]. pose proof (sp_free _ _ _ _ _ S p Hin). congruence. }
  assert (Hpg : ∀ p, is_Some (tblO !! p) ∨ owns lim DO p → pages m !! p = pages m0 !! p) by (intros p Hp; apply Hf; [by apply Hno|by apply Hapart]).
  assert (Hs : same_tables tblO m0 m) by (intros p n Hp; apply Hpg; by eauto). split.
  - apply (uspace_frame old lim m0 m tblO l0 l DO UO Hs); [|apply S'|apply S'|].
    + intros q Hq. split; [|apply Hpg; by right]. intros Hin%Hl. by destruct (Hno q (or_intror Hq)).
    + intros p Hp. by apply (sp_free _ _ _ _ _ S), Hl.
  - intros va Hva. pose proof (kpte_same kend m0 m old tblO va (sp_tables _ _ _ _ _ S) Hs) as HK. split; [done|].
    unfold vbyte. rewrite !vpte_kpte, HK. destruct (kpte m0 old va) as [e|] eqn:He; [|done]. cbn. unfold user.
    destruct (has PTE_U e) eqn:Hu; [|done]. cbn. rewrite Hpg; [done|]. right. rewrite (us_map _ _ _ _ _ _ UO) in He by done.
    exists (va / PGSIZE), e. split_and!; [done| |done]. by apply (us_dom _ _ _ _ _ _ UO _ _ He).
Qed.

Lemma flags_new q e : is_pa q → has PTE_V e = true → PTE_FLAGS (new_pte q (PTE_FLAGS e)) = PTE_FLAGS e.
Proof.
  intros Hq Hv. unfold PTE_FLAGS at 1. rewrite land_new by (done || apply PTE_FLAGS_range). unfold PTE_FLAGS.
  assert (Hb : Z.testbit e 0 = true).
  { unfold has, PTE_V in Hv. change 1 with (Z.ones 1) in Hv. rewrite Z.land_ones in Hv by lia. change (2 ^ 1) with 2 in Hv. rewrite Zmod_odd in Hv. rewrite Z.bit0_odd. by destruct (Z.odd e). }
  apply Z.bits_inj'. intros n Hn. rewrite !Z.land_spec, Z.lor_spec, Z.land_spec. destruct (decide (n = 0)) as [->|]; [by rewrite Hb|].
  replace (Z.testbit 1 n) with false; [|symmetry; change 1 with (2 ^ 0); apply Z.pow2_bits_false; lia].
  rewrite orb_false_r, <- andb_assoc. by rewrite andb_diag.
Qed.

(** What the new space shows after the copy. *)
Lemma copied_view n m tbl l D va : copying n m tbl l D → 0 ≤ va < n * PGSIZE →
  vbyte m new va = vbyte m0 old va ∧ PTE_FLAGS <$> kpte m new va = PTE_FLAGS <$> kpte m0 old va ∧
  ∀ e, kpte m new va = Some e → PTE2PA e ∈ l0.
Proof.
  intros C Hva. pose proof (cp_new _ _ _ _ _ C) as U. assert (HP : PGSIZE = 4096) by done.
  assert (Hk : 0 ≤ va / PGSIZE < n) by (split; [apply Z.div_pos; lia|apply Z.div_lt_upper_bound; lia]).
  pose proof (cp_i _ _ _ _ _ C) as Hn. pose proof (us_lim _ _ _ _ _ _ U) as HL. assert (Hm : 0 ≤ va < MAXVA) by lia.
  pose proof (cp_done _ _ _ _ _ C _ Hk) as Hc. unfold copied_page in Hc.
  pose proof (us_map _ _ _ _ _ _ U va Hm) as KN. pose proof (us_map _ _ _ _ _ _ UO va Hm) as KO.
  unfold vbyte. rewrite !vpte_kpte, KN, KO. destruct (DO !! (va / PGSIZE)) as [e|] eqn:He; [|by rewrite Hc].
  destruct Hc as (q & Hq & HD & Hpg). rewrite HD.
  assert (Hv : has PTE_V e = true).
  { unfold kpte in KO. destruct (upte m0 old va) as [x|]; [|done]. cbn in KO. destruct (has PTE_V x) eqn:Hx; [|done]. congruence. }
  assert (Hpa : is_pa q) by (apply (valid_pa kend); exact (chain_valid _ _ _ _ _ (sp_chain _ _ _ _ _ (us_space _ _ _ _ _ _ UN)) Hq)).
  pose proof (flags_new q e Hpa Hv) as Hf. split_and!.
  - cbn. unfold user. assert (HU : has PTE_U (new_pte q (PTE_FLAGS e)) = has PTE_U e).
    { revert Hf. generalize (new_pte q (PTE_FLAGS e)). intros x Hx. unfold has. f_equal. f_equal.
      assert (HU : ∀ y, Z.land y PTE_U = Z.land (PTE_FLAGS y) PTE_U) by (intros y; unfold PTE_FLAGS; by rewrite <- Z.land_assoc).
      by rewrite (HU x), (HU e), Hx. }
    rewrite HU. destruct (has PTE_U e); [|done]. cbn. by rewrite fresh_pa, Hpg.
  - cbn. by rewrite Hf.
  - intros x [= <-]. by rewrite fresh_pa.
Qed.
End copy.

(** C28: [uvmcopy] gives the child a copy of the parent's memory of its own.  It returns 0 and every address below
    [sz] holds in the new space what it holds in the old one, with the same permission bits, in a page
    the old space does not use; or it returns -1, only if there is less memory than three pages for each
    page to copy, and the new space maps what it did before.  In both cases the parent sees its memory as it was, nothing above [sz] is
    mapped, every page that was free is free or in the new space, and both address spaces stay well-formed. *)
Theorem uvmcopy_copies old new lim sz m tblO tblN l DO DN :
  uspace old lim m tblO l DO → uspace new lim m tblN l DN → (∀ k, k < lim → DN !! k = None) → 0 ≤ sz ≤ lim * PGSIZE →
  (∀ p, is_Some (tblO !! p) ∨ owns lim DO p → tblN !! p = None) →
  ∃ r m' tbl' l' D', uvmcopy kend old new sz m = Done (r, m') ∧ uspace old lim m' tblO l' DO ∧ uspace new lim m' tbl' l' D' ∧
    (∀ va, 0 ≤ va < MAXVA → kpte m' old va = kpte m old va ∧ vbyte m' old va = vbyte m old va) ∧
    (∀ va, (sz + PGSIZE - 1) / PGSIZE * PGSIZE ≤ va < MAXVA → kpte m' new va = kpte m new va) ∧
    (∀ p, p ∈ l → p ∈ l' ∨ is_Some (tbl' !! p) ∨ owns lim D' p) ∧
    (r = 0 ∧
       (∀ va, 0 ≤ va < sz → vbyte m' new va = vbyte m old va ∧ PTE_FLAGS <$> kpte m' new va = PTE_FLAGS <$> kpte m old va) ∧
       (∀ va va' e e', 0 ≤ va < sz → 0 ≤ va' < lim * PGSIZE → kpte m' new va = Some e → kpte m' old va' = Some e' → PTE2PA e ≠ PTE2PA e') ∨
     r = -1 ∧ D' = DN ∧
       (length l < 3 * size (resident DO ((sz + PGSIZE - 1) / PGSIZE)))%nat).
Proof.
  intros UO UN He Hsz Ha. assert (HP : PGSIZE = 4096) by done. pose proof (us_lim _ _ _ _ _ _ UO) as HL.
  assert (C : copying new lim m tblN l DO DN 0 m tblN l DN) by (split; try done; auto; lia).
  destruct (copy_loop_run old new lim sz m tblO tblN l DO DN UO UN He Hsz Ha (S (Z.to_nat (sz / PGSIZE + 1))) 0 m tblN l DN C)
    as (r & m' & tbl' & l' & E & Hd); [lia|by right|lia|]. exists r, m', tbl', l'.
  destruct Hd as [(-> & D' & n & Hn & Hn1 & C')|(-> & (U' & F1 & F2 & F3 & F4) & Hlen)].
  - pose proof (cp_new _ _ _ _ _ _ _ _ _ _ _ _ C') as U'.
    destruct (old_kept old new lim m tblO tblN l DO UO Ha m' tbl' l' D' U') as [UO' HO]; [apply C'|apply C'|].
    exists D'. split_and!; [exact E|done|done|done| |apply C'|].
    { intros va Hva. assert (Hd : n ≤ va / PGSIZE) by (Z.div_mod_to_equations; lia).
      assert (0 ≤ va) by (Z.div_mod_to_equations; lia).
      rewrite (us_map _ _ _ _ _ _ U'), (us_map _ _ _ _ _ _ UN) by lia. apply (cp_rest _ _ _ _ _ _ _ _ _ _ _ _ C'). by left. }
    left. split_and!; [done| |].
    + intros va Hva. destruct (copied_view old new lim m tblO tblN l DO DN UO UN n m' tbl' l' D' va C') as (V1 & V2 & _); [lia|done].
    + intros va va' e e' Hva Hva' K K' Heq.
      destruct (copied_view old new lim m tblO tblN l DO DN UO UN n m' tbl' l' D' va C') as (_ & _ & V3); [lia|]. specialize (V3 e K).
      rewrite Heq in V3. rewrite (proj1 (HO va' ltac:(lia))), (us_map _ _ _ _ _ _ UO) in K' by lia.
      destruct (us_page _ _ _ _ _ _ UO _ _ K') as (_ & Hni & _); [apply Z.div_lt_upper_bound; lia|done].
  - destruct (old_kept old new lim m tblO tblN l DO UO Ha m' tbl' l' DN U' F1 F3) as [UO' HO].
    exists DN. split_and!; [exact E|done|done|done| | |right; by split_and!].
    + intros va Hva. assert (0 ≤ va) by (Z.div_mod_to_equations; lia). by rewrite (us_map _ _ _ _ _ _ U'), (us_map _ _ _ _ _ _ UN) by lia.
    + intros p [Hp|Hp]%F4; auto.
Qed.

(** ** A fork *)

(** An empty table is an address space without pages. *)
Lemma uspace_empty a lim m l : space kend m a {[a := 2%nat]} l → lim * PGSIZE ≤ MAXVA → uspace a lim m {[a := 2%nat]} l ∅.
Proof.
  intros S HL. assert (Hv : ∀ i, idx i → has PTE_V (entry m a i) = false).
  { intros i Hi. destruct (has PTE_V (entry m a i)) eqn:Hv; [|done].
    pose proof (tb_child _ _ _ _ (sp_tables _ _ _ _ _ S) a 1%nat i (lookup_singleton_eq _ _) Hi Hv) as H.
    by apply lookup_singleton_Some in H as [_ ?]. }
  split; [done|done| |done|done|done|].
  - intros va _. rewrite lookup_empty. unfold kpte, upte. cbn [find]. by rewrite Hv by apply PX_idx.
  - intros p i Hp. by apply lookup_singleton_Some in Hp as [_ ?].
Qed.

Lemma uvmcreate_apart old lim m tbl q l D : uspace old lim m tbl (q :: l) D →
  ∃ m', uvmcreate m = Done (q, m') ∧ uspace old lim m' tbl l D ∧ uspace q lim m' {[q := 2%nat]} l ∅ ∧
    ∀ p, p ≠ q → pages m' !! p = pages m !! p.
Proof.
  intros U. pose proof (us_space _ _ _ _ _ _ U) as S.
  destruct (take_spare old lim m tbl q l D _ U zeros_wf) as (m1 & E1 & Hq & U1 & _ & _ & F1).
  destruct (uvmcreate_space kend m q l (sp_chain _ _ _ _ _ S) (sp_nodup _ _ _ _ _ S)) as (m' & E & S').
  assert (m' = set_page q (replicate (Z.to_nat PGSIZE) 0) m1) as ->.
  { unfold uvmcreate in E. rewrite (run_bind _ _ _ _ _ E1), (proj2 (Z.eqb_neq q 0) Hq) in E. by injection E as <-. }
  eexists. split_and!; [exact E|done| |intros p Hp; by apply F1]. apply uspace_empty; [done|apply U].
Qed.
End uvm.

Definition eight_pages : Z := PHYSTOP - 8 * PGSIZE.
Definition user_rw : Z := Z.lor PTE_R (Z.lor PTE_W PTE_U).

(** A parent with a page of sevens at PGSIZE, nothing at 0, and an empty table for the child. *)
Definition parent_child : M kmem (Z * Z) :=
  pt ← uvmcreate;
  q ← palloc;
  modify (set_page q (replicate PAGE 7));;
  mappages pt (1 * PGSIZE) PGSIZE q user_rw;;
  child ← uvmcreate;
  mret (pt, child).

Lemma parent_child_run m0 l0 : chain eight_pages m0 (freelist m0) l0 → NoDup l0 → length l0 = 8%nat →
  ∃ pt child m tblO tblN l D, parent_child m0 = Done ((pt, child), m) ∧
    uspace eight_pages pt 4 m tblO l D ∧ uspace eight_pages child 4 m tblN l ∅ ∧ (3 ≤ length l)%nat ∧ size D = 1%nat ∧
    (∀ p, is_Some (tblO !! p) ∨ owns 4 D p → tblN !! p = None) ∧ vbyte m pt (PGSIZE + 5) = Some 7.
Proof.
  intros Hc Hn Hlen. destruct l0 as [|pt [|q l0]]; [done..|]. cbn in Hlen. unfold parent_child.
  destruct (uvmcreate_space eight_pages m0 pt (q :: l0) Hc Hn) as (m1 & E1 & S1). rewrite (run_bind _ _ _ _ _ E1).
  pose proof (uspace_empty eight_pages pt 4 m1 (q :: l0) S1 ltac:(by vm_compute)) as U1.
  assert (Hwf : page_wf (replicate PAGE 7)) by (split; [apply length_replicate|apply Forall_replicate; by vm_compute]).
  destruct (take_spare eight_pages pt 4 m1 _ q l0 ∅ _ U1 Hwf) as (m2 & E2 & Hq & U2 & Q2 & Hqb & _).
  rewrite (run_bind _ _ _ _ _ E2). unfold modify at 1. erewrite run_bind by reflexivity.
  destruct (map_spare eight_pages pt 4 _ _ l0 ∅ 1 q user_rw _ U2 Q2 Hqb Hwf ltac:(lia) (lookup_empty _) ltac:(by vm_compute))
    as (r & m3 & tbl3 & l3 & E3 & K & [(-> & U3 & Hl3)|(-> & _ & _ & Hl)]); [|lia].
  rewrite (run_bind _ _ _ _ _ E3). destruct l3 as [|c l3]; [cbn in Hl3; lia|]. cbn in Hl3.
  destruct (uvmcreate_apart eight_pages pt 4 m3 tbl3 c l3 _ U3) as (m4 & E4 & U4 & UN & F4). rewrite (run_bind _ _ _ _ _ E4).
  set (e := new_pte q user_rw) in *. exists pt, c, m4, tbl3, {[c := 2%nat]}, l3, (<[1 := e]> ∅).
  assert (Hpa : is_pa q) by (apply (valid_pa eight_pages), Q2).
  assert (He : PTE2PA e = q) by (apply PTE2PA_new; [done|by vm_compute]).
  assert (Hsp : ∀ p, is_Some (tbl3 !! p) ∨ owns 4 (<[1 := e]> ∅) p → p ≠ c).
  { intros p Hp ->. pose proof (us_space _ _ _ _ _ _ _ U3) as S3. destruct Hp as [[n Hp]|Ho].
    - pose proof (sp_free _ _ _ _ _ S3 c ltac:(left)). congruence.
    - destruct (owns_page _ _ _ _ _ _ _ _ U3 Ho) as (_ & Hni & _). apply Hni. left. }
  split_and!; [done|done|done|lia|by vm_compute| |].
  - intros p Hp. apply lookup_singleton_ne. intros Hx. by apply (Hsp p Hp).
  - unfold vbyte. rewrite vpte_kpte, (us_map _ _ _ _ _ _ _ U4) by (by vm_compute).
    change ((PGSIZE + 5) / PGSIZE) with 1. rewrite lookup_insert_eq. cbn. unfold user.
    replace (has PTE_U e) with true by (unfold e; rewrite has_new; [by vm_compute|done|by vm_compute|by vm_compute]). cbn. rewrite He.
    rewrite F4; [|apply Hsp; right; exists 1, e; by rewrite lookup_insert_eq].
    rewrite (tk_frame _ _ _ _ _ _ K), Hqb; [|apply Q2|apply Q2]. by vm_compute.
Qed.

(** The child reads the parent's sevens in a page of its own. *)
Lemma uvmcopy_copies_witness : ∃ m0 pt child m m',
  kinit eight_pages ∅ = Ok m0 ∧ parent_child m0 = Done ((pt, child), m) ∧ uvmcopy eight_pages pt child (2 * PGSIZE) m = Done (0, m') ∧
  vbyte m' child (PGSIZE + 5) = Some 7 ∧ vbyte m' pt (PGSIZE + 5) = Some 7.
Proof.
  destruct (kinit_spec eight_pages ∅ ltac:(by vm_compute)) as (m0 & Hm0 & Hc).
  destruct (parent_child_run m0 _ Hc ltac:(apply NoDup_range_pages) ltac:(by vm_compute))
    as (pt & child & m & tblO & tblN & l & D & E & UO & UN & Hl & HD & Ha & Hb).
  destruct (uvmcopy_copies eight_pages pt child 4 (2 * PGSIZE) m tblO tblN l D ∅ UO UN ltac:(intros; apply lookup_empty) ltac:(by vm_compute) Ha)
    as (r & m' & tbl' & l' & D' & E' & _ & _ & HO & _ & _ & Hr).
  exists m0, pt, child, m, m'. destruct Hr as [(-> & Hn & _)|(_ & _ & Hlen)].
  - assert (HP : 0 ≤ PGSIZE + 5 < 2 * PGSIZE) by (by vm_compute). split_and!; [done|done|done| |].
    + by rewrite (proj1 (Hn _ HP)).
    + by rewrite (proj2 (HO (PGSIZE + 5) ltac:(by vm_compute))).
  - exfalso. pose proof (map_subseteq_size _ _ (map_filter_subseteq (λ ke, ke.1 < (2 * PGSIZE + PGSIZE - 1) / PGSIZE) D)) as Hs.
    unfold resident in Hlen. lia.
Defined.
