(* ===== verification/Kvm.v ===== *)
(** * kernel/vm.c: the kernel's own page table

    [kvmmake] and [proc_mapstacks] build it from the free list that [kinit] left: devices
    and memory are mapped at their own addresses, the trampoline and a stack for each
    process at the top.  A [region] is a range of addresses that is mapped to a range
    of physical memory; [kstate] says that a table maps a list of regions and nothing else. *)

From S2P Require Import Prelude Effect Proc Kalloc Vm Pagetable Usermem.

Local Open Scope Z_scope.

(** ** Translation of kernel addresses *)

(** Physical address and permissions. *)
Definition PTE_RWX (e : Z) : Z := Z.land e (Z.lor PTE_R (Z.lor PTE_W PTE_X)).
Definition translate (m : kmem) (root va : Z) : option (Z * Z) :=
  e ← kpte m root va; Some (PTE2PA e + va mod PGSIZE, PTE_RWX e).

Record region := mk_region { r_va : Z; r_pa : Z; r_size : Z; r_perm : Z }.

Definition within (r : region) (va : Z) : Prop := r_va r ≤ va < r_va r + r_size r.
#[global] Instance within_dec r va : Decision (within r va).
Proof. unfold within. apply _. Defined.

(** The entry of a region for an address. *)
Definition rpte (r : region) (va : Z) : Z := new_pte (r_pa r + (va - va mod PGSIZE - r_va r)) (r_perm r).

Definition kernel_perm (perm : Z) : Prop := 0 ≤ perm < 1024 ∧ has PTE_U (Z.lor perm 1) = false.

Record region_ok (r : region) : Prop := {
  ro_va : r_va r mod PGSIZE = 0 ∧ 0 ≤ r_va r;
  ro_size : r_size r mod PGSIZE = 0 ∧ 0 < r_size r ∧ r_va r + r_size r ≤ MAXVA;
  ro_pa : r_pa r mod PGSIZE = 0 ∧ 0 ≤ r_pa r ∧ r_pa r + r_size r ≤ 2 ^ 56;
  ro_perm : kernel_perm (r_perm r);
}.

Section kvm.
Context (kend : Z).

(** ** One entry *)

Lemma kpte_Some m root va e : kpte m root va = Some e ↔ ∃ a, find m 2 root va = Some a ∧ e = word m a ∧ has PTE_V e = true.
Proof.
  unfold kpte, upte. destruct (find m 2 root va) as [a|]; cbn; [|split; [done|by intros (a & ? & _)]].
  destruct (has PTE_V (word m a)) eqn:Hv; cbn; (split; [try done; intros [= <-]; by exists a|intros (a' & [= <-] & -> & ?)]; congruence).
Qed.

(** A leaf that the user has no access to. *)
Lemma space_kmap m root tbl l p i pa perm :
  space kend m root tbl l → tbl !! p = Some 0%nat → idx i → kernel_perm perm → is_pa pa →
  space kend (with_entry p i (new_pte pa perm) m) root tbl l.
Proof.
  intros S Hp Hi [Hperm Hnu] Hispa. pose proof S as [T C N F U I].
  destruct (tables_leaf kend m root tbl p i (new_pte pa perm) T Hp Hi (new_pte_u64 _ _ Hispa Hperm)) as [T' _].
  destruct (tb_page _ _ _ _ T p _ Hp) as (_ & b & Hb & Hwf).
  assert (Hu0 : has PTE_U (new_pte pa perm) = false) by (by rewrite has_new by (done || unfold PTE_U; lia)).
  assert (He : ∀ q j, tbl !! q = Some 0%nat → idx j → has PTE_U (entry (with_entry p i (new_pte pa perm) m) q j) = true →
    entry (with_entry p i (new_pte pa perm) m) q j = entry m q j).
  { intros q j Hq Hj. rewrite (entry_with p i _ m b) by (done || (by eapply tb_aligned) || by apply new_pte_u64).
    destruct (decide (q = p ∧ j = i)); [congruence|done]. }
  assert (Hpg : ∀ q, q ≠ p → pages (with_entry p i (new_pte pa perm) m) !! q = pages m !! q) by (intros q Hq; by apply with_entry_other).
  split; [done| |done|done| |].
  - apply (chain_frame kend m); [done|]. intros q Hq. apply Hpg. intros ->. pose proof (F p Hq). congruence.
  - intros q j Hq Hj Hv Hu. pose proof (He q j Hq Hj Hu) as E. rewrite E in Hv, Hu |- *. destruct (U q j Hq Hj Hv Hu) as (U1 & U2 & U3 & c & U4 & U5).
    split_and!; [done|done|done|]. exists c. rewrite Hpg; [done|]. congruence.
  - intros q j r o Hq Hr Hj Ho Hv Hu Hv' Hu'. pose proof (He q j Hq Hj Hu) as E. pose proof (He r o Hr Ho Hu') as E'.
    rewrite E in Hv, Hu |- *. rewrite E' in Hv', Hu' |- *. by apply I.
Qed.

(** ** A range *)

(** What mapping the pages of [a], [n] of them, from [pa] does. *)
Record kmapped (root : Z) (m : kmem) (tbl : gmap Z nat) (l : list Z) (r : region) (cost : nat) (m' : kmem)
    (tbl' : gmap Z nat) (l' : list Z) : Prop := {
  km_space : space kend m' root tbl' l';
  km_free : ∀ p, p ∈ l' → p ∈ l;
  km_tbl : ∀ p n, tbl' !! p = Some n → tbl !! p = Some n ∨ p ∈ l;
  km_len : (length l ≤ length l' + cost)%nat;
  km_find : ∀ va, is_Some (find m 2 root va) → is_Some (find m' 2 root va);
  km_kpte : ∀ va, 0 ≤ va < MAXVA → kpte m' root va = if decide (within r va) then Some (rpte r va) else kpte m root va;
}.

Definition page_at (va pa perm : Z) : region := mk_region va pa PGSIZE perm.

Lemma within_page va pa perm va' : va mod PGSIZE = 0 → within (page_at va pa perm) va' ↔ va' / PGSIZE = va / PGSIZE.
Proof. unfold within, page_at, PGSIZE. cbn. intros H. Z.div_mod_to_equations. lia. Qed.

Lemma rpte_page va pa perm va' : va mod PGSIZE = 0 → va' / PGSIZE = va / PGSIZE → rpte (page_at va pa perm) va' = new_pte pa perm.
Proof. unfold rpte, page_at, PGSIZE. cbn. intros H Hd. f_equal. Z.div_mod_to_equations. lia. Qed.

(** One pass of the loop of [mappages]. *)
Lemma map_pass {A} (z k : M kmem A) root m tbl l a pa perm :
  space kend m root tbl l → 0 ≤ a < MAXVA → a mod PGSIZE = 0 → kernel_perm perm → is_pa pa → kpte m root a = None →
  (missing m 2 root a ≤ length l)%nat →
  ∃ m' tbl' l', kmapped root m tbl l (page_at a pa perm) (missing m 2 root a) m' tbl' l' ∧ is_Some (find m' 2 root a) ∧
    (p ← walk root a true;
     match p with
     | None => z
     | Some p => pte ← load64 p; if has PTE_V pte then panics else store64 p (new_pte pa perm);; k
     end) m = k m'.
Proof.
  intros S Ha Hal Hperm Hpa Hn Hlen. pose proof (sp_tables _ _ _ _ _ S) as T.
  unfold walk. rewrite (proj2 (Z.leb_gt _ _)) by lia.
  destruct (walk_levels_true kend root 2 root a m tbl l S (tb_root _ _ _ _ T)) as (o & m1 & tbl1 & l1 & E & G & Hf).
  rewrite (run_bind _ _ _ _ _ E). destruct o as [b|]; [|lia]. destruct Hf as [Hf Hl].
  pose proof (gr_space _ _ _ _ _ _ _ _ G) as S1. pose proof (sp_tables _ _ _ _ _ S1) as T1.
  destruct (find_leaf kend m1 root tbl1 2 root a b T1 (tb_root _ _ _ _ T1) Hf) as (p & Hp & ->).
  destruct (tb_page _ _ _ _ T1 p _ Hp) as (_ & c & Hc & Hwf). pose proof (tb_aligned _ _ _ _ _ _ T1 Hp) as Hap.
  pose proof (grown_kpte kend root m tbl l m1 tbl1 l1 a S G) as Hk. rewrite Hn in Hk.
  assert (Hz : has PTE_V (entry m1 p (PX 0 a)) = false).
  { unfold kpte, upte in Hk. rewrite Hf in Hk. cbn in Hk. unfold entry. by destruct (has PTE_V (word m1 _)). }
  rewrite (run_bind _ _ _ _ _ (load64_run m1 p _ c Hap (PX_idx _ _) Hc)), Hz.
  rewrite (run_bind _ _ _ _ _ (store64_run m1 p _ c _ Hap (PX_idx _ _) Hc)).
  destruct Hperm as [Hperm Hnu]. pose proof (new_pte_u64 pa perm Hpa Hperm) as Hu.
  destruct (tables_leaf kend m1 root tbl1 p (PX 0 a) (new_pte pa perm) T1 Hp (PX_idx _ _) Hu) as [T2 Hin].
  assert (Hfind : ∀ va, find (with_entry p (PX 0 a) (new_pte pa perm) m1) 2 root va = find m1 2 root va).
  { intros va. by apply (find_inner kend m1 _ root tbl1 2 root va T1 (tb_root _ _ _ _ T1)). }
  eexists _, tbl1, l1. split; [|split; [rewrite Hfind; by exists (pte_addr p (PX 0 a))|reflexivity]]. split.
  - apply space_kmap; [done|done|apply PX_idx|by split|done].
  - apply G.
  - apply G.
  - lia.
  - intros va [x Hx]. rewrite Hfind. exists x. by apply (gr_find _ _ _ _ _ _ _ _ G).
  - intros va Hva. rewrite (kpte_write kend m1 root tbl1 a p _ T1 Hp Hu Ha Hf va Hva), new_pte_valid by done.
    rewrite (grown_kpte kend root m tbl l m1 tbl1 l1 va S G).
    destruct (decide (within _ va)) as [Hw|Hw]; rewrite within_page in Hw by done.
    + by rewrite decide_True, rpte_page by done.
    + by rewrite decide_False.
Qed.

Lemma kmapped_trans root m tbl l r r1 c1 m1 tbl1 l1 r2 c2 m2 tbl2 l2 :
  kmapped root m tbl l r1 c1 m1 tbl1 l1 → kmapped root m1 tbl1 l1 r2 c2 m2 tbl2 l2 →
  (∀ va, within r va ↔ within r1 va ∨ within r2 va) → (∀ va, rpte r1 va = rpte r va ∧ rpte r2 va = rpte r va) →
  kmapped root m tbl l r (c1 + c2) m2 tbl2 l2.
Proof.
  intros [A1 A2 A3 A4 A5 A6] [B1 B2 B3 B4 B5 B6] Hw Hr. split.
  - done.
  - intros p Hp. by apply A2, B2.
  - intros p n [Hp|Hp]%B3; [by apply A3|right; by apply A2].
  - lia.
  - intros va Hva. by apply B5, A5.
  - intros va Hva. rewrite B6, A6 by done. destruct (Hr va) as [-> ->].
    destruct (decide (within r va)) as [H|H]; rewrite Hw in H; repeat destruct (decide _); tauto.
Qed.

Lemma find_block m root a b : a / 2 ^ 21 = b / 2 ^ 21 → is_Some (find m 2 root a) → is_Some (find m 2 root b).
Proof.
  intros He. assert (Hpx : ∀ k, 1 ≤ k → PX k a = PX k b).
  { intros k Hk. assert (Hv : ∀ v, PX k v = Z.land (Z.shiftr (v / 2 ^ 21) (9 * (k - 1))) 0x1FF).
    { intros v. unfold PX. f_equal. rewrite <- Z.shiftr_div_pow2, Z.shiftr_shiftr by lia. f_equal. lia. }
    by rewrite !Hv, He. }
  cbn [find]. rewrite !Hpx by lia. destruct (has PTE_V _); [|done]. destruct (has PTE_V _); [|done]. done.
Qed.

(** The table pages a range needs at most: two for its first page, two for each 2 MB boundary. *)
Definition blocks (a size : Z) : nat := Z.to_nat ((a + size - PGSIZE) / 2 ^ 21 - a / 2 ^ 21).

Lemma map_loop_S fuel root a last pa perm : map_loop (S fuel) root a last pa perm =
  (p ← walk root a true;
   match p with
   | None => mret (-1)
   | Some p =>
       pte ← load64 p;
       if has PTE_V pte then panics
       else
         store64 p (new_pte pa perm);;
         (if a =? last then mret 0 else map_loop fuel root (u64 (a + PGSIZE)) last (u64 (pa + PGSIZE)) perm)
   end).
Proof. done. Qed.

(** What the pages after the first cost. *)
Lemma next_cost m root a n : 0 ≤ a → is_Some (find m 2 root a) →
  (missing m 2 root (a + PGSIZE) + 2 * blocks (a + PGSIZE) (Z.of_nat (S n) * PGSIZE) ≤ 2 * blocks a (Z.of_nat (S (S n)) * PGSIZE))%nat.
Proof.
  intros Ha Hf. unfold blocks. replace (a + PGSIZE + Z.of_nat (S n) * PGSIZE - PGSIZE) with (a + Z.of_nat (S (S n)) * PGSIZE - PGSIZE) by lia.
  assert (HP : PGSIZE = 4096) by done. set (z := a + Z.of_nat (S (S n)) * PGSIZE - PGSIZE).
  assert (Hz : (a + PGSIZE) / 2 ^ 21 ≤ z / 2 ^ 21) by (apply Z.div_le_mono; lia).
  destruct (decide (a / 2 ^ 21 = (a + PGSIZE) / 2 ^ 21)) as [He|Hne].
  - destruct (find_block m root a (a + PGSIZE) He Hf) as [b Hb]. rewrite (missing_found _ _ _ _ _ Hb), He. lia.
  - pose proof (missing_le m 2 (a + PGSIZE) root). assert (a / 2 ^ 21 ≤ (a + PGSIZE) / 2 ^ 21) by (apply Z.div_le_mono; lia). lia.
Qed.

Lemma map_loop_run root perm n : ∀ a pa m tbl l r,
  r = mk_region a pa (Z.of_nat (S n) * PGSIZE) perm → space kend m root tbl l → region_ok r →
  (∀ va, within r va → kpte m root va = None) →
  (missing m 2 root a + 2 * blocks a (r_size r) ≤ length l)%nat →
  ∃ m' tbl' l', map_loop (S n) root a (a + Z.of_nat n * PGSIZE) pa perm m = Done (0, m') ∧
    kmapped root m tbl l r (missing m 2 root a + 2 * blocks a (r_size r)) m' tbl' l'.
Proof.
  assert (HP : PGSIZE = 4096) by done. assert (HM : MAXVA = 2 ^ 38) by done.
  induction n as [|n IH]; intros a pa m tbl l r Er S Hr Hn Hlen; pose proof Hr as [[Hva1 Hva2] (Hs1 & Hs2 & Hs3) (Hp1 & Hp2 & Hp3) Hperm];
    subst r; cbn [r_va r_pa r_size r_perm] in *; rewrite HP in Hva1, Hs1, Hs2, Hs3, Hp1, Hp3;
    (assert (Hisp : is_pa pa) by (unfold is_pa; rewrite HP; lia));
    (assert (Ha : kpte m root a = None) by (apply Hn; unfold within; cbn [r_va r_size]; rewrite HP; lia));
    rewrite map_loop_S.
  - rewrite Z.add_0_r, Z.eqb_refl.
    destruct (map_pass (mret (-1)) (mret 0) root m tbl l a pa perm S) as (m' & tbl' & l' & K & _ & E); [lia|done|done|done|done|lia|].
    exists m', tbl', l'. split; [exact E|]. destruct K as [K1 K2 K3 K4 K5 K6]. split; try done. lia.
  - rewrite (proj2 (Z.eqb_neq a _)) by lia.
    destruct (map_pass (mret (-1)) (map_loop (Datatypes.S n) root (u64 (a + PGSIZE)) (a + Z.of_nat (Datatypes.S n) * PGSIZE) (u64 (pa + PGSIZE)) perm)
      root m tbl l a pa perm S) as (m1 & tbl1 & l1 & K & Hf & E); [lia|done|done|done|done|lia|]. rewrite E. clear E.
    rewrite !u64_id by (unfold is_u64; lia).
    set (r2 := mk_region (a + PGSIZE) (pa + PGSIZE) (Z.of_nat (Datatypes.S n) * PGSIZE) perm).
    destruct (IH (a + PGSIZE) (pa + PGSIZE) m1 tbl1 l1 r2 eq_refl) as (m' & tbl' & l' & E' & K').
    + apply K.
    + split; unfold r2; cbn [r_va r_pa r_size r_perm]; rewrite ?HP; split_and!; try done; try lia.
      * change (a + 4096) with (a + 1 * 4096). by rewrite Z_mod_plus_full.
      * apply Z_mod_mult.
      * change (pa + 4096) with (pa + 1 * 4096). by rewrite Z_mod_plus_full.
      * apply Hperm.
      * apply Hperm.
      * apply Hperm.
    + intros va Hw. unfold within, r2 in Hw. cbn [r_va r_size] in Hw. rewrite (km_kpte _ _ _ _ _ _ _ _ _ K) by lia.
      rewrite decide_False; [apply Hn; unfold within; cbn [r_va r_size]; lia|]. unfold within. cbn [page_at r_va r_size]. lia.
    + unfold r2. cbn [r_size]. pose proof (km_len _ _ _ _ _ _ _ _ _ K) as Hl. pose proof (next_cost m1 root a n Hva2 Hf). lia.
    + exists m', tbl', l'. split; [rewrite <- E'; f_equal; lia|].
      pose proof (kmapped_trans root m tbl l (mk_region a pa (Z.of_nat (Datatypes.S (Datatypes.S n)) * PGSIZE) perm) _ _ _ _ _ _ _ _ _ _ K K') as Ht.
      destruct Ht as [K1 K2 K3 K4 K5 K6].
      * intros va. unfold within, r2. cbn [page_at r_va r_size]. lia.
      * intros va. split; unfold rpte, r2; cbn [page_at r_va r_pa r_perm]; f_equal; lia.
      * split; try done. pose proof (next_cost m1 root a n Hva2 Hf). unfold r2 in K4. cbn [r_size] in K4. lia.
Qed.

(** ** Regions *)

Definition apart (r r' : region) : Prop := r_va r + r_size r ≤ r_va r' ∨ r_va r' + r_size r' ≤ r_va r.

(** The table maps the regions [rs] and nothing else; the pages [ps] were taken and are no tables. *)
Record kstate (root : Z) (rs : list region) (ps : list Z) (m : kmem) (tbl : gmap Z nat) (l : list Z) : Prop := {
  ks_space : space kend m root tbl l;
  ks_kpte : ∀ va e, 0 ≤ va < MAXVA → kpte m root va = Some e ↔ ∃ r, r ∈ rs ∧ within r va ∧ e = rpte r va;
  ks_nodup : NoDup ps;
  ks_taken : ∀ p, p ∈ ps → valid_page kend p ∧ p ∉ l ∧ tbl !! p = None;
}.

Lemma kvmmap_run root rs ps m tbl l r :
  kstate root rs ps m tbl l → region_ok r → (∀ r', r' ∈ rs → apart r r') → (2 + 2 * blocks (r_va r) (r_size r) ≤ length l)%nat →
  ∃ m' tbl' l', kvmmap root (r_va r) (r_pa r) (r_size r) (r_perm r) m = Done ((), m') ∧
    kstate root (r :: rs) ps m' tbl' l' ∧ (length l ≤ length l' + (2 + 2 * blocks (r_va r) (r_size r)))%nat.
Proof.
  intros K Hr Hap Hlen. pose proof Hr as [[Hva1 Hva2] (Hs1 & Hs2 & Hs3) (Hp1 & Hp2 & Hp3) Hperm].
  assert (HP : PGSIZE = 4096) by done. assert (HM : MAXVA = 2 ^ 38) by done.
  assert (Hq : r_size r = PGSIZE * (r_size r / PGSIZE)) by (apply Z.div_exact; [by rewrite HP|done]).
  destruct (Z_of_nat_complete (r_size r / PGSIZE - 1)) as [n Hn]; [lia|].
  assert (Hsz : r_size r = Z.of_nat (Datatypes.S n) * PGSIZE) by lia.
  assert (Hnone : ∀ va, within r va → kpte m root va = None).
  { intros va Hw. destruct (kpte m root va) as [e|] eqn:He; [|done]. unfold within in Hw.
    apply (ks_kpte _ _ _ _ _ _ K) in He as (r' & Hin & Hw' & _); [|lia]. unfold within in Hw'. destruct (Hap r' Hin); lia. }
  destruct (map_loop_run root (r_perm r) n (r_va r) (r_pa r) m tbl l r) as (m' & tbl' & l' & E & G).
  { rewrite <- Hsz. by destruct r. }
  { apply K. }
  { done. }
  { done. }
  { pose proof (missing_le m 2 (r_va r) root). lia. }
  exists m', tbl', l'. split.
  { unfold kvmmap, mappages. rewrite Hva1, Hs1, (proj2 (Z.eqb_neq (r_size r) 0)) by lia. cbn [Z.eqb negb].
    replace (Z.to_nat (r_size r / PGSIZE)) with (Datatypes.S n) by lia.
    replace (u64 (r_va r + r_size r - PGSIZE)) with (r_va r + Z.of_nat n * PGSIZE) by (rewrite u64_id; unfold is_u64; lia).
    by rewrite (run_bind _ _ _ _ _ E). }
  destruct G as [G1 G2 G3 G4 G5 G6]. split; [|pose proof (missing_le m 2 (r_va r) root); lia]. split.
  - done.
  - intros va e Hva. rewrite G6 by done. setoid_rewrite elem_of_cons. destruct (decide (within r va)) as [Hw|Hw].
    + split; [intros [= <-]; by exists r; auto|]. intros (r' & [->|Hin] & Hw' & ->); [done|].
      destruct (Hap r' Hin); unfold within in *; lia.
    + rewrite (ks_kpte _ _ _ _ _ _ K va e Hva). split; intros (r' & Hin & Hw' & ->).
      * exists r'. auto.
      * destruct Hin as [->|Hin]; [done|]. by exists r'.
  - apply K.
  - intros p Hp. destruct (ks_taken _ _ _ _ _ _ K p Hp) as (H1 & H2 & H3). split_and!; [done|by intros ?%G2|].
    destruct (tbl' !! p) as [k|] eqn:Hk; [|done]. destruct (G3 p k Hk); [congruence|done].
Qed.

(** [kalloc] in the middle of it. *)
Lemma kstate_take root rs ps m tbl a l :
  kstate root rs ps m tbl (a :: l) → ∃ m1, palloc m = Done (a, m1) ∧ kstate root rs (a :: ps) m1 tbl l ∧ a ≠ 0.
Proof.
  intros [S K N T]. destruct (kalloc_spec kend m (a :: l) (sp_chain _ _ _ _ _ S) (sp_nodup _ _ _ _ _ S)) as (m1 & Hk & Hc & _ & Hm1).
  pose proof (sp_nodup _ _ _ _ _ S) as [Hal Hn]%NoDup_cons.
  assert (Hta : tbl !! a = None) by (apply (sp_free _ _ _ _ _ S); left).
  assert (Hva : valid_page kend a) by (pose proof (sp_chain _ _ _ _ _ S) as Hch; cbn [chain] in Hch; tauto).
  assert (Hsame : same_tables tbl m m1) by (intros p n Hp; apply Hm1; congruence).
  exists m1. split; [unfold palloc; by rewrite Hk|]. split; [|by destruct Hva as (_ & _ & ?); lia]. split.
  - apply (space_frame kend m m1 root tbl (a :: l) l S Hsame); [|done|done|].
    + intros p i Hp Hi Hv Hu. destruct (sp_user _ _ _ _ _ S p i Hp Hi Hv Hu) as (_ & U2 & _ & b & U4 & U5).
      apply not_elem_of_cons in U2 as [U2 U2']. split; [done|]. exists b. by rewrite Hm1.
    + intros p Hp. apply (sp_free _ _ _ _ _ S). by right.
  - intros va e Hva'. rewrite <- K by done. by rewrite (kpte_same kend m m1 root tbl va (sp_tables _ _ _ _ _ S) Hsame).
  - constructor; [|done]. intros Ha. destruct (T a Ha) as (_ & Hn' & _). apply Hn'. left.
  - intros p [->|Hp]%elem_of_cons; [done|]. destruct (T p Hp) as (H1 & H2 & H3). split_and!; [done| |done]. intros ?. apply H2. by right.
Qed.

(** ** Stacks *)

Definition stack_page (p j pa : Z) : region := mk_region (KSTACK p + j * PGSIZE) pa PGSIZE (Z.lor PTE_R PTE_W).

(** The pages [qs] are the stack of [p] from its page [j] on; [qss] are those of the processes from [p] on. *)
Fixpoint stack_regions (p j : Z) (qs : list Z) : list region :=
  match qs with [] => [] | q :: qs' => stack_page p j q :: stack_regions p (j + 1) qs' end.
Fixpoint stacks_regions (p : Z) (qss : list (list Z)) : list region :=
  match qss with [] => [] | qs :: qss' => stack_regions p 0 qs ++ stacks_regions (p + 1) qss' end.

Lemma elem_rev {A} (x : A) l : x ∈ rev l ↔ x ∈ l.
Proof. by rewrite !list_elem_of_In, <- in_rev. Qed.

Lemma elem_stack_regions r p qs : ∀ j, r ∈ stack_regions p j qs ↔ ∃ i q, qs !! i = Some q ∧ r = stack_page p (j + Z.of_nat i) q.
Proof.
  induction qs as [|q qs IH]; intros j; cbn [stack_regions].
  - split; [by intros ?%elem_of_nil|by intros (i & q & ? & _)].
  - rewrite elem_of_cons, IH. split.
    + intros [->|(i & q' & Hi & ->)]; [exists 0%nat, q; split; [done|f_equal; lia]|]. exists (Datatypes.S i), q'. split; [done|f_equal; lia].
    + intros ([|i] & q' & Hi & ->); cbn in Hi; [left; injection Hi as ->; f_equal; lia|]. right. exists i, q'. split; [done|f_equal; lia].
Qed.

Lemma elem_stacks_regions r qss : ∀ p, r ∈ stacks_regions p qss ↔
  ∃ k qs i q, qss !! k = Some qs ∧ qs !! i = Some q ∧ r = stack_page (p + Z.of_nat k) (Z.of_nat i) q.
Proof.
  induction qss as [|qs qss IH]; intros p; cbn [stacks_regions].
  - split; [by intros ?%elem_of_nil|by intros (k & qs & i & q & ? & _)].
  - rewrite elem_of_app, IH, elem_stack_regions. split.
    + intros [(i & q & Hi & ->)|(k & qs' & i & q & Hk & Hi & ->)].
      * exists 0%nat, qs, i, q. split_and!; [done|done|f_equal; lia].
      * exists (Datatypes.S k), qs', i, q. split_and!; [done|done|f_equal; lia].
    + intros ([|k] & qs' & i & q & Hk & Hi & ->); cbn in Hk.
      * injection Hk as ->. left. exists i, q. split; [done|f_equal; lia].
      * right. exists k, qs', i, q. split_and!; [done|done|f_equal; lia].
Qed.

Lemma stack_page_ok p j pa : 0 ≤ p < Z.of_nat NPROC → 0 ≤ j < KSTACK_PAGES → valid_page kend pa → region_ok (stack_page p j pa).
Proof.
  intros Hp Hj Hpa. pose proof (valid_pa kend pa Hpa) as [Ha Hr]. unfold NPROC, KSTACK_PAGES in *.
  assert (He : KSTACK p + j * PGSIZE = (67108863 - 9 * (p + 1) + j) * PGSIZE).
  { unfold KSTACK, TRAMPOLINE, KSTACK_PAGES. change MAXVA with (67108864 * PGSIZE). lia. }
  destruct Hpa as (_ & Hpr & _). split; unfold stack_page; cbn [r_va r_pa r_size r_perm]; rewrite ?He.
  - split; [apply Z_mod_mult|unfold PGSIZE; lia].
  - split_and!; [done|done|]. change MAXVA with (67108864 * PGSIZE). unfold PGSIZE. lia.
  - split_and!; [done|lia|]. unfold PHYSTOP, KERNBASE, PGSIZE in *. lia.
  - by split.
Qed.

Lemma stack_pages_apart p j pa p' j' pa' : 0 ≤ j < KSTACK_PAGES → 0 ≤ j' < KSTACK_PAGES → p ≠ p' ∨ j ≠ j' →
  apart (stack_page p j pa) (stack_page p' j' pa').
Proof. unfold apart, stack_page, KSTACK, KSTACK_PAGES, PGSIZE. cbn. intros. lia. Qed.

Lemma stack_run root p n : ∀ rs ps m tbl l j, 0 ≤ p < Z.of_nat NPROC → 0 ≤ j → j + Z.of_nat n ≤ KSTACK_PAGES →
  kstate root rs ps m tbl l → (∀ j' q r, j ≤ j' < KSTACK_PAGES → r ∈ rs → apart (stack_page p j' q) r) → (3 * n ≤ length l)%nat →
  ∃ qs m' tbl' l', for_ n j (map_stack_page root p) m = Done ((), m') ∧ length qs = n ∧
    kstate root (rev (stack_regions p j qs) ++ rs) (rev qs ++ ps) m' tbl' l' ∧ (length l ≤ length l' + 3 * n)%nat.
Proof.
  induction n as [|n IH]; intros rs ps m tbl l j Hp Hj Hn K Hap Hl.
  { exists [], m, tbl, l. split_and!; [done|done|done|lia]. }
  destruct l as [|a l]; [cbn in Hl; lia|]. cbn [length] in Hl. cbn [for_].
  destruct (kstate_take root rs ps m tbl a l K) as (m1 & E1 & K1 & Ha).
  destruct (ks_taken _ _ _ _ _ _ K1 a) as (Hva & _ & _); [left|].
  destruct (kvmmap_run root rs (a :: ps) m1 tbl l (stack_page p j a) K1) as (m2 & tbl2 & l2 & E2 & K2 & L2).
  { apply stack_page_ok; [done|lia|done]. }
  { intros r Hr. apply Hap; [lia|done]. }
  { unfold blocks. cbn [stack_page r_va r_size]. rewrite Z.add_simpl_r, Z.sub_diag. lia. }
  assert (Hb : blocks (r_va (stack_page p j a)) (r_size (stack_page p j a)) = 0%nat).
  { unfold blocks. cbn [stack_page r_va r_size]. by rewrite Z.add_simpl_r, Z.sub_diag. }
  rewrite Hb in L2. rewrite (run_bind _ _ m () m2).
  2: { unfold map_stack_page. rewrite (run_bind _ _ _ _ _ E1), (proj2 (Z.eqb_neq a 0)) by done. exact E2. }
  destruct (IH (stack_page p j a :: rs) (a :: ps) m2 tbl2 l2 (j + 1)) as (qs & m' & tbl' & l' & E & Hq & K' & L); [done|lia|lia|done| |lia|].
  { intros j' q r Hj' [->|Hr]%elem_of_cons; [apply stack_pages_apart; lia|apply Hap; [lia|done]]. }
  exists (a :: qs), m', tbl', l'. split_and!; [exact E|cbn; lia| |cbn [length]; lia].
  cbn [stack_regions rev]. by rewrite <- !app_assoc.
Qed.

Lemma stacks_run root n : ∀ rs ps m tbl l p, 0 ≤ p → p + Z.of_nat n ≤ Z.of_nat NPROC →
  kstate root rs ps m tbl l → (∀ p' j q r, p ≤ p' < Z.of_nat NPROC → 0 ≤ j < KSTACK_PAGES → r ∈ rs → apart (stack_page p' j q) r) →
  (24 * n ≤ length l)%nat →
  ∃ qss m' tbl' l', for_ n p (λ p, for_ (Z.to_nat KSTACK_PAGES) 0 (map_stack_page root p)) m = Done ((), m') ∧ length qss = n ∧
    Forall (λ qs, length qs = Z.to_nat KSTACK_PAGES) qss ∧
    kstate root (rev (stacks_regions p qss) ++ rs) (rev (concat qss) ++ ps) m' tbl' l'.
Proof.
  induction n as [|n IH]; intros rs ps m tbl l p Hp Hn K Hap Hl.
  { exists [], m, tbl, l. split_and!; [done|done|constructor|done]. }
  cbn [for_]. destruct (stack_run root p (Z.to_nat KSTACK_PAGES) rs ps m tbl l 0) as (qs & m1 & tbl1 & l1 & E1 & Hq & K1 & L1);
    [lia|done|done|done|intros; apply Hap; [lia|done|done]|unfold KSTACK_PAGES; lia|].
  rewrite (run_bind _ _ _ _ _ E1).
  destruct (IH (rev (stack_regions p 0 qs) ++ rs) (rev qs ++ ps) m1 tbl1 l1 (p + 1)) as (qss & m' & tbl' & l' & E & Hqs & Hall & K');
    [lia|lia|done| |unfold KSTACK_PAGES in L1; lia|].
  { intros p' j q r Hp' Hj [Hr|Hr]%elem_of_app; [|apply Hap; [lia|done|done]].
    apply elem_rev, elem_stack_regions in Hr as (i & q' & Hi%lookup_lt_Some & ->). apply stack_pages_apart; [done| |lia].
    unfold KSTACK_PAGES in *. lia. }
  exists (qs :: qss), m', tbl', l'. split_and!; [exact E|cbn; lia|by constructor|].
  cbn [stacks_regions concat]. by rewrite !rev_app_distr, <- !app_assoc.
Qed.

(** ** The whole table *)

Definition RW : Z := Z.lor PTE_R PTE_W.
Definition RX : Z := Z.lor PTE_R PTE_X.

Definition direct_regions (etext trampoline : Z) : list region :=
  [mk_region TRAMPOLINE trampoline PGSIZE RX; mk_region etext etext (PHYSTOP - etext) RW;
   mk_region KERNBASE KERNBASE (etext - KERNBASE) RX; mk_region PLIC PLIC 0x4000000 RW;
   mk_region VIRTIO0 VIRTIO0 PGSIZE RW; mk_region UART0 UART0 PGSIZE RW].

(** An empty table in a fresh page. *)
Lemma new_table m a l : chain kend m (freelist m) (a :: l) → NoDup (a :: l) →
  ∃ m1, palloc m = Done (a, m1) ∧ kstate a [] [] (set_page a (replicate (Z.to_nat PGSIZE) 0) m1) {[a := 2%nat]} l.
Proof.
  intros Hc Hn. destruct (uvmcreate_space kend m a l Hc Hn) as (m' & E & S).
  destruct (kalloc_spec kend m (a :: l) Hc Hn) as (m1 & Hk & _). cbn [chain] in Hc. destruct Hc as (_ & (Ha & _ & Ha0) & _).
  exists m1. assert (Hp : palloc m = Done (a, m1)) by (unfold palloc; by rewrite Hk). split; [done|].
  unfold uvmcreate in E. rewrite (run_bind _ _ _ _ _ Hp), (proj2 (Z.eqb_neq a 0)) in E by lia. injection E as <-.
  split; [done| |constructor|by intros p ?%elem_of_nil].
  intros va e Hva. split; [|by intros (r & ?%elem_of_nil & _)]. unfold kpte, upte. cbn [find].
  rewrite entry_zero; [by intros ?|done|apply PX_idx|]. cbn [pages set_page]. by rewrite lookup_insert_eq.
Qed.

Context (etext trampoline : Z).
Context (Htext : KERNBASE < etext ≤ kend) (Htal : etext mod PGSIZE = 0).
Context (Htr : KERNBASE ≤ trampoline < etext) (Htral : trampoline mod PGSIZE = 0).
Context (Hkend : kend ≤ PHYSTOP - 2000 * PGSIZE).

Lemma direct_ok : Forall region_ok (direct_regions etext trampoline).
Proof.
  assert (Hpx : kernel_perm RX) by by split. assert (Hpw : kernel_perm RW) by by split.
  assert (HP : PGSIZE = 4096) by done. assert (HS : PHYSTOP = 0x88000000) by done. assert (HK : KERNBASE = 0x80000000) by done.
  assert (HM : MAXVA = 2 ^ 38) by done. assert (Hm1 : KERNBASE mod PGSIZE = 0) by done. assert (Hm2 : PHYSTOP mod PGSIZE = 0) by done.
  unfold direct_regions. rewrite !Forall_cons. split_and!; [..|done].
  - split; cbn [r_va r_pa r_size r_perm]; [done|done| |done]; split_and!; lia.
  - split; cbn [r_va r_pa r_size r_perm]; [| | |done]; split_and!; try done; try lia. by rewrite Zminus_mod, Htal, Hm2.
  - split; cbn [r_va r_pa r_size r_perm]; [done| | |done]; split_and!; try done; try lia. by rewrite Zminus_mod, Htal, Hm1.
  - by split.
  - by split.
  - by split.
Qed.

Ltac map_region K r :=
  let E := fresh "E" in let K' := fresh "K" in let L := fresh "L" in
  destruct (kvmmap_run _ _ _ _ _ _ r K) as (? & ? & ? & E & K' & L);
  [done
  |let r' := fresh in let Hr := fresh in intros r' Hr;
   repeat (apply elem_of_cons in Hr as [->|Hr]; [unfold apart; cbn [r_va r_size]; unfold UART0, VIRTIO0, PLIC, TRAMPOLINE in *; lia|]);
   by apply elem_of_nil in Hr
  |cbn [r_va r_size]; lia
  |cbn [r_va r_pa r_size r_perm] in *; rewrite (run_bind _ _ _ _ _ E); clear E].

Lemma kvmmake_run m l : chain kend m (freelist m) l → NoDup l → (1800 ≤ length l)%nat →
  ∃ root qss m' tbl' l', kvmmake etext trampoline m = Done (root, m') ∧
    length qss = NPROC ∧ Forall (λ qs, length qs = Z.to_nat KSTACK_PAGES) qss ∧
    kstate root (rev (stacks_regions 0 qss) ++ direct_regions etext trampoline) (rev (concat qss)) m' tbl' l'.
Proof.
  intros Hc Hn Hl. destruct l as [|root l]; [cbn in Hl; lia|]. cbn [length] in Hl.
  destruct (new_table m root l Hc Hn) as (m0 & E0 & K0).
  assert (HP : PGSIZE = 4096) by done. assert (HM : MAXVA = 2 ^ 38) by done. assert (HS : PHYSTOP = 0x88000000) by done.
  assert (HK : KERNBASE = 0x80000000) by done. 
  unfold kvmmake. rewrite (run_bind _ _ _ _ _ E0). rewrite (run_bind (zero_page root) _ m0 () _) by done.
  set (m1 := set_page root _ m0) in *. clearbody m1. unfold direct_regions.
  assert (Hb1 : blocks UART0 PGSIZE = 0%nat) by done. assert (Hb2 : blocks VIRTIO0 PGSIZE = 0%nat) by done.
  assert (Hb3 : blocks PLIC 0x4000000 = 31%nat) by done. assert (Hb6 : blocks TRAMPOLINE PGSIZE = 0%nat) by done.
  assert (Hb45 : (blocks KERNBASE (etext - KERNBASE) + blocks etext (PHYSTOP - etext) ≤ 63)%nat).
  { unfold blocks. replace (KERNBASE + (etext - KERNBASE) - PGSIZE) with (etext - PGSIZE) by lia.
    replace (etext + (PHYSTOP - etext) - PGSIZE) with (PHYSTOP - PGSIZE) by lia.
    change ((PHYSTOP - PGSIZE) / 2 ^ 21) with 1087. change (KERNBASE / 2 ^ 21) with 1024.
    assert ((etext - PGSIZE) / 2 ^ 21 ≤ etext / 2 ^ 21) by (apply Z.div_le_mono; lia).
    assert (1024 ≤ etext / 2 ^ 21) by (change 1024 with (KERNBASE / 2 ^ 21); apply Z.div_le_mono; lia).
    assert (etext / 2 ^ 21 ≤ 1087) by (change 1087 with ((PHYSTOP - PGSIZE) / 2 ^ 21); apply Z.div_le_mono; lia). lia. }
  pose proof direct_ok as Hro. unfold direct_regions in Hro. rewrite !Forall_cons in Hro. destruct Hro as (Hro6 & Hro5 & Hro4 & Hro3 & Hro2 & Hro1 & _).
  map_region K0 (mk_region UART0 UART0 PGSIZE RW). map_region K (mk_region VIRTIO0 VIRTIO0 PGSIZE RW).
  map_region K1 (mk_region PLIC PLIC 0x4000000 RW). map_region K2 (mk_region KERNBASE KERNBASE (etext - KERNBASE) RX).
  map_region K3 (mk_region etext etext (PHYSTOP - etext) RW). map_region K4 (mk_region TRAMPOLINE trampoline PGSIZE RX).
  assert (HN : Z.of_nat NPROC = 64) by done.
  destruct (stacks_run root NPROC _ _ _ _ _ 0 ltac:(lia) ltac:(lia) K5) as (qss & m' & tbl' & l' & E' & Hq & Hall & K').
  { intros p j q r Hp Hj Hr. unfold KSTACK_PAGES in Hj. rewrite HN in Hp.
    repeat (apply elem_of_cons in Hr as [->|Hr];
      [unfold apart, stack_page, KSTACK, KSTACK_PAGES, TRAMPOLINE, UART0, VIRTIO0, PLIC; cbn [r_va r_size]; lia|]).
    by apply elem_of_nil in Hr. }
  { unfold NPROC. lia. }
  exists root, qss, m', tbl', l'. split_and!; [|done|done|].
  - by rewrite (run_bind (proc_mapstacks root) _ _ _ _ E').
  - by rewrite app_nil_r in K'.
Qed.
End kvm.

(** ** From boot *)

Lemma length_range_pages p n : length (range_pages p n) = n.
Proof. unfold range_pages. by rewrite length_rev, length_map, length_seq. Qed.

(** A mapped address translates with the offset in its region. *)
Lemma translate_within kend root rs ps m tbl l r va :
  kstate kend root rs ps m tbl l → region_ok r → r ∈ rs → within r va → translate m root va = Some (r_pa r + (va - r_va r), PTE_RWX (Z.lor (r_perm r) 1)).
Proof.
  intros K Hro Hr Hw. pose proof Hw as [Hw1 Hw2]. pose proof Hro as [[Hva1 Hva2] (Hs1 & Hs2 & Hs3) (Hp1 & Hp2 & Hp3) [Hperm _]].
  assert (He : kpte m root va = Some (rpte r va)) by (apply (ks_kpte _ _ _ _ _ _ _ K va); [lia|by exists r]).
  unfold translate. rewrite He. cbn. unfold rpte.
  assert (Hpa : is_pa (r_pa r + (va - va mod PGSIZE - r_va r))).
  { pose proof (Z.mod_pos_bound va PGSIZE ltac:(done)) as Hb. pose proof (Z.mod_le va PGSIZE ltac:(lia) ltac:(done)).
    assert (Hd : va - va mod PGSIZE = PGSIZE * (va / PGSIZE)) by (pose proof (Z.div_mod va PGSIZE ltac:(done)); lia).
    assert (Hx : r_va r = PGSIZE * (r_va r / PGSIZE)) by (by apply Z.div_exact).
    assert (Hy : r_pa r = PGSIZE * (r_pa r / PGSIZE)) by (by apply Z.div_exact).
    assert (Hle : r_va r / PGSIZE ≤ va / PGSIZE) by (apply Z.div_le_mono; [done|lia]).
    split; [|unfold PGSIZE in *; lia]. replace (_ + _) with ((r_pa r / PGSIZE + va / PGSIZE - r_va r / PGSIZE) * PGSIZE) by lia. apply Z_mod_mult. }
  rewrite PTE2PA_new by done. unfold PTE_RWX. rewrite land_new by done. do 2 f_equal. lia.
Qed.

Lemma translate_Some kend root rs ps m tbl l va x :
  kstate kend root rs ps m tbl l → 0 ≤ va < MAXVA → translate m root va = Some x → ∃ r, r ∈ rs ∧ within r va.
Proof.
  intros K Hva. unfold translate. destruct (kpte m root va) as [e|] eqn:He; [|done]. intros _.
  apply (ks_kpte _ _ _ _ _ _ _ K va e Hva) in He as (r & Hr & Hw & _). by exists r.
Qed.

(** Where an address of the kernel is, with the page [stk p j] as page [j] of the stack of process [p]. *)
Definition kernel_address (etext trampoline : Z) (stk : Z → Z → Z) (va : Z) : option (Z * Z) :=
  if (UART0 <=? va) && (va <? UART0 + PGSIZE) || (VIRTIO0 <=? va) && (va <? VIRTIO0 + PGSIZE) || (PLIC <=? va) && (va <? PLIC + 0x4000000)
  then Some (va, RW)
  else if (KERNBASE <=? va) && (va <? etext) then Some (va, RX)
  else if (etext <=? va) && (va <? PHYSTOP) then Some (va, RW)
  else if TRAMPOLINE <=? va then Some (trampoline + (va - TRAMPOLINE), RX)
  else
    let p := (TRAMPOLINE - 1 - va) / ((KSTACK_PAGES + 1) * PGSIZE) in
    let j := (va - KSTACK p) / PGSIZE in
    if (p <? Z.of_nat NPROC) && (j <? KSTACK_PAGES) then Some (stk p j + va mod PGSIZE, RW) else None.

Definition stack_of (qss : list (list Z)) (p j : Z) : Z := nth (Z.to_nat j) (nth (Z.to_nat p) qss []) 0.

Lemma stack_at p j va : 0 ≤ p → 0 ≤ j < KSTACK_PAGES → KSTACK p + j * PGSIZE ≤ va < KSTACK p + j * PGSIZE + PGSIZE →
  (TRAMPOLINE - 1 - va) / ((KSTACK_PAGES + 1) * PGSIZE) = p ∧ (va - KSTACK p) / PGSIZE = j ∧ va mod PGSIZE = va - (KSTACK p + j * PGSIZE).
Proof.
  intros Hp Hj Hva. assert (Ht : TRAMPOLINE = 67108863 * PGSIZE) by done. unfold KSTACK in *. rewrite Ht in *.
  unfold KSTACK_PAGES, PGSIZE in *. split_and!.
  - symmetry. apply (Z.div_unique _ _ _ (67108863 * 4096 - 1 - va - 36864 * p)); lia.
  - symmetry. apply (Z.div_unique _ _ _ (va - (67108863 * 4096 - (p + 1) * 9 * 4096 + j * 4096))); lia.
  - symmetry. apply (Z.mod_unique _ _ (67108863 - (p + 1) * 9 + j)); lia.
Qed.

Section address.
Context (kend etext trampoline : Z) (qss : list (list Z)).
Context (Htext : KERNBASE < etext ≤ kend) (Hkend : kend < PHYSTOP).
Context (Hlen : length qss = NPROC) (Hall : Forall (λ qs, length qs = Z.to_nat KSTACK_PAGES) qss).
Notation rs := (rev (stacks_regions 0 qss) ++ direct_regions etext trampoline).

Lemma stack_member p j : 0 ≤ p < Z.of_nat NPROC → 0 ≤ j < KSTACK_PAGES → stack_page p j (stack_of qss p j) ∈ rs ∧ stack_of qss p j ∈ concat qss.
Proof.
  intros Hp Hj. destruct (lookup_lt_is_Some_2 qss (Z.to_nat p)) as [qs Hqs]; [lia|].
  assert (Hl : length qs = Z.to_nat KSTACK_PAGES) by (by eapply Forall_lookup in Hall).
  destruct (lookup_lt_is_Some_2 qs (Z.to_nat j)) as [q Hq']; [lia|].
  assert (Hs : stack_of qss p j = q) by (unfold stack_of; by rewrite (nth_lookup_Some _ _ _ _ Hqs), (nth_lookup_Some _ _ _ _ Hq')).
  rewrite Hs. split.
  - apply elem_of_app. left. apply elem_rev, elem_stacks_regions. exists (Z.to_nat p), qs, (Z.to_nat j), q. split_and!; [done|done|f_equal; lia].
  - apply list_elem_of_In, in_concat. exists qs. split; apply list_elem_of_In; by eapply list_elem_of_lookup_2.
Qed.

Ltac tests := repeat match goal with
  | |- context [?a <=? ?b] => destruct (Z.leb_spec a b); [|try lia]; try lia
  | |- context [?a <? ?b] => destruct (Z.ltb_spec a b); [|try lia]; try lia
  end; cbn [andb orb].

Lemma address_of_region r va : r ∈ rs → within r va →
  kernel_address etext trampoline (stack_of qss) va = Some (r_pa r + (va - r_va r), PTE_RWX (Z.lor (r_perm r) 1)).
Proof.
  assert (HT : TRAMPOLINE = 0x3FFFFFF000) by done. assert (HS : PHYSTOP = 0x88000000) by done. assert (HP : PGSIZE = 4096) by done.
  intros [Hr|Hr]%elem_of_app Hw; unfold within in Hw.
  - apply elem_rev, elem_stacks_regions in Hr as (k & qs & i & q & Hk & Hi & ->). cbn [stack_page r_va r_pa r_size r_perm] in *.
    pose proof (lookup_lt_Some _ _ _ Hk) as Hkl. pose proof (lookup_lt_Some _ _ _ Hi) as Hil.
    assert (Hlq : length qs = Z.to_nat KSTACK_PAGES) by (by eapply Forall_lookup in Hall).
    assert (HNP : Z.of_nat NPROC = 64) by done. assert (HKP : KSTACK_PAGES = 8) by done.
    destruct (stack_at (0 + Z.of_nat k) (Z.of_nat i) va) as (E1 & E2 & E3); [lia|lia|lia|].
    assert (Hva : 0x3F00000000 ≤ va < TRAMPOLINE) by (unfold KSTACK in Hw; lia).
    unfold kernel_address. rewrite E1, E2, E3. unfold UART0, VIRTIO0, PLIC, KERNBASE in *. tests.
    f_equal. f_equal. unfold stack_of. rewrite Z.add_0_l, !Nat2Z.id, (nth_lookup_Some _ _ _ _ Hk), (nth_lookup_Some _ _ _ _ Hi). lia.
  - unfold direct_regions in Hr. unfold kernel_address. clear Hall Hlen.
    repeat (apply elem_of_cons in Hr as [->|Hr];
      [cbn [r_va r_pa r_size r_perm] in *; unfold UART0, VIRTIO0, PLIC, KERNBASE in *; tests; do 2 f_equal; lia|]).
    by apply elem_of_nil in Hr.
Qed.

Lemma region_of_address va x : 0 ≤ va < MAXVA → kernel_address etext trampoline (stack_of qss) va = Some x → ∃ r, r ∈ rs ∧ within r va.
Proof.
  intros Hva. assert (Hd : ∀ r, r ∈ direct_regions etext trampoline → within r va → ∃ r, r ∈ rs ∧ within r va).
  { intros r Hr Hw. exists r. split; [apply elem_of_app; by right|done]. }
  unfold direct_regions in Hd at 1. repeat setoid_rewrite elem_of_cons in Hd. unfold kernel_address.
  destruct (_ || _) eqn:E1.
  { rewrite !orb_true_iff, !andb_true_iff, !Z.leb_le, !Z.ltb_lt in E1. intros _. destruct E1 as [[E1|E1]|E1].
    - apply (Hd (mk_region UART0 UART0 PGSIZE RW)); [auto 10|done].
    - apply (Hd (mk_region VIRTIO0 VIRTIO0 PGSIZE RW)); [auto 10|done].
    - apply (Hd (mk_region PLIC PLIC 0x4000000 RW)); [auto 10|done]. }
  destruct ((KERNBASE <=? va) && _) eqn:E2.
  { rewrite andb_true_iff, Z.leb_le, Z.ltb_lt in E2. intros _.
    apply (Hd (mk_region KERNBASE KERNBASE (etext - KERNBASE) RX)); [auto 10|unfold within; cbn [r_va r_size]; lia]. }
  destruct ((etext <=? va) && _) eqn:E3.
  { rewrite andb_true_iff, Z.leb_le, Z.ltb_lt in E3. intros _.
    apply (Hd (mk_region etext etext (PHYSTOP - etext) RW)); [auto 10|unfold within; cbn [r_va r_size]; lia]. }
  destruct (Z.leb_spec TRAMPOLINE va) as [E4|E4].
  { intros _. apply (Hd (mk_region TRAMPOLINE trampoline PGSIZE RX)); [auto 10|]. unfold within, TRAMPOLINE in *. cbn [r_va r_size]. lia. }
  cbv zeta. set (p := (TRAMPOLINE - 1 - va) / _). set (j := (va - KSTACK p) / PGSIZE).
  destruct ((p <? Z.of_nat NPROC) && (j <? KSTACK_PAGES)) eqn:E5; [|by intros ?]. rewrite andb_true_iff, !Z.ltb_lt in E5. intros _. destruct E5 as [E5 E6].
  assert (HP : PGSIZE = 4096) by done. assert (HKP : KSTACK_PAGES = 8) by done.
  assert (Hp : 0 ≤ p) by (apply Z.div_pos; [lia|done]).
  assert (Hpm : (KSTACK_PAGES + 1) * PGSIZE * p ≤ TRAMPOLINE - 1 - va < (KSTACK_PAGES + 1) * PGSIZE * p + (KSTACK_PAGES + 1) * PGSIZE).
  { pose proof (Z.mul_div_le (TRAMPOLINE - 1 - va) ((KSTACK_PAGES + 1) * PGSIZE) ltac:(done)).
    pose proof (Z.mul_succ_div_gt (TRAMPOLINE - 1 - va) ((KSTACK_PAGES + 1) * PGSIZE) ltac:(done)). fold p in H, H0. lia. }
  assert (Hk : 0 ≤ va - KSTACK p) by (unfold KSTACK; lia). assert (Hj : 0 ≤ j) by (apply Z.div_pos; [done|by rewrite HP]).
  assert (Hjm : PGSIZE * j ≤ va - KSTACK p < PGSIZE * j + PGSIZE).
  { pose proof (Z.mul_div_le (va - KSTACK p) PGSIZE ltac:(done)). pose proof (Z.mul_succ_div_gt (va - KSTACK p) PGSIZE ltac:(done)).
    fold j in H, H0. lia. }
  exists (stack_page p j (stack_of qss p j)). split; [by apply stack_member|]. unfold within. cbn [stack_page r_va r_size]. lia.
Qed.
End address.

Lemma concat_inj {A} (ls : list (list A)) : ∀ k i k' i' qs qs' x, NoDup (concat ls) →
  ls !! k = Some qs → qs !! i = Some x → ls !! k' = Some qs' → qs' !! i' = Some x → k = k' ∧ i = i'.
Proof.
  assert (Hin : ∀ ls k (qs : list A) i x, ls !! k = Some qs → qs !! i = Some x → x ∈ concat ls).
  { intros ks k qs i x Hk Hi. apply list_elem_of_In, in_concat. exists qs. split; apply list_elem_of_In; by eapply list_elem_of_lookup_2. }
  induction ls as [|l0 ls IH]; intros k i k' i' qs qs' x Hn Hk Hi Hk' Hi'; [done|].
  cbn [concat] in Hn. apply NoDup_app in Hn as (N1 & N2 & N3).
  destruct k as [|k], k' as [|k']; cbn in Hk, Hk'.
  - injection Hk as ->. injection Hk' as ->. split; [done|]. exact (NoDup_lookup _ _ _ x N1 Hi Hi').
  - injection Hk as ->. destruct (N2 x); [by eapply list_elem_of_lookup_2|by eapply Hin].
  - injection Hk' as ->. destruct (N2 x); [by eapply list_elem_of_lookup_2|by eapply Hin].
  - destruct (IH k i k' i' qs qs' x N3 Hk Hi Hk' Hi'). split; lia.
Qed.

Lemma stack_of_inj qss q i p j : length qss = NPROC → Forall (λ qs, length qs = Z.to_nat KSTACK_PAGES) qss → NoDup (concat qss) →
  0 ≤ p < Z.of_nat NPROC → 0 ≤ j < KSTACK_PAGES → 0 ≤ q < Z.of_nat NPROC → 0 ≤ i < KSTACK_PAGES →
  stack_of qss q i = stack_of qss p j → q = p ∧ i = j.
Proof.
  intros Hq Hall Hn Hp Hj Hq' Hi He.
  destruct (lookup_lt_is_Some_2 qss (Z.to_nat p)) as [qs Hqs]; [lia|]. destruct (lookup_lt_is_Some_2 qss (Z.to_nat q)) as [qs' Hqs']; [lia|].
  assert (Hl : length qs = Z.to_nat KSTACK_PAGES) by (by eapply Forall_lookup in Hall).
  assert (Hl' : length qs' = Z.to_nat KSTACK_PAGES) by (by eapply Forall_lookup in Hall).
  destruct (lookup_lt_is_Some_2 qs (Z.to_nat j)) as [x Hx]; [lia|]. destruct (lookup_lt_is_Some_2 qs' (Z.to_nat i)) as [x' Hx']; [lia|].
  unfold stack_of in He. rewrite (nth_lookup_Some _ _ _ _ Hqs), (nth_lookup_Some _ _ _ _ Hqs'), (nth_lookup_Some _ _ _ _ Hx), (nth_lookup_Some _ _ _ _ Hx') in He.
  subst x'. destruct (concat_inj qss _ _ _ _ _ _ _ Hn Hqs' Hx' Hqs Hx). split; lia.
Qed.

(** C25: the kernel's page table.  From boot, with 2000 pages of memory after the kernel, [kvmmake]
    succeeds, and the table it returns maps the addresses of [kernel_address] as it says and no
    others: text, read and execute, the rest of memory and the devices, read and write, at their
    own addresses; the trampoline at the top; and for each process a stack of [KSTACK_PAGES] pages,
    which no other process has and the allocator will not hand out, between two unmapped pages. *)
Theorem kvmmake_maps kend etext trampoline m0 :
  KERNBASE < etext ≤ kend → etext mod PGSIZE = 0 → KERNBASE ≤ trampoline < etext → trampoline mod PGSIZE = 0 →
  kend ≤ PHYSTOP - 2000 * PGSIZE →
  ∃ m root m' l stk, kinit kend m0 = Ok m ∧ kvmmake etext trampoline m = Done (root, m') ∧ chain kend m' (freelist m') l ∧
    (∀ va, 0 ≤ va < MAXVA → translate m' root va = kernel_address etext trampoline stk va) ∧
    (∀ p j, 0 ≤ p < Z.of_nat NPROC → 0 ≤ j < KSTACK_PAGES → valid_page kend (stk p j) ∧ stk p j ∉ l ∧
       ∀ q i, 0 ≤ q < Z.of_nat NPROC → 0 ≤ i < KSTACK_PAGES → stk q i = stk p j → q = p ∧ i = j).
Proof.
  intros Htext Htal Htr Htral Hk. assert (HP : PGSIZE = 4096) by done. assert (HK : KERNBASE = 0x80000000) by done.
  destruct (kinit_spec kend m0) as (m & Hm & Hc); [lia|].
  destruct (kvmmake_run kend etext trampoline Htext Htal Htr Htral Hk m _ Hc (NoDup_range_pages _ _)) as (root & qss & m' & tbl' & l' & E & Hq & Hall & K).
  { rewrite length_range_pages. unfold num_pages, first_page. destruct (PGROUNDUP_spec kend) as [_ Hr]; [lia|].
    assert (1900 ≤ (PHYSTOP - PGROUNDUP kend) / PGSIZE) by (apply Z.div_le_lower_bound; lia). lia. }
  assert (Hok : ∀ r, r ∈ rev (stacks_regions 0 qss) ++ direct_regions etext trampoline → region_ok r).
  { intros r [Hr|Hr]%elem_of_app; [|by eapply Forall_forall in Hr; [|by apply (direct_ok kend)]].
    apply elem_rev, elem_stacks_regions in Hr as (k & qs & i & q & Hk' & Hi & ->).
    assert (Hl : length qs = Z.to_nat KSTACK_PAGES) by (by eapply Forall_lookup in Hall).
    pose proof (lookup_lt_Some _ _ _ Hk'). pose proof (lookup_lt_Some _ _ _ Hi). apply (stack_page_ok kend); [lia|lia|].
    apply (ks_taken _ _ _ _ _ _ _ K), elem_rev, list_elem_of_In, in_concat. exists qs.
    split; apply list_elem_of_In; by eapply list_elem_of_lookup_2. }
  exists m, root, m', l', (stack_of qss). split_and!; [done|done|apply K| |].
  - intros va Hva. destruct (translate m' root va) as [x|] eqn:Ht.
    + destruct (translate_Some _ _ _ _ _ _ _ va x K Hva Ht) as (r & Hr & Hw). rewrite <- Ht.
      rewrite (translate_within _ _ _ _ _ _ _ r va K) by (done || by apply Hok). symmetry.
      by apply (address_of_region kend etext trampoline qss Htext ltac:(lia)).
    + destruct (kernel_address _ _ _ va) as [x|] eqn:Hx; [|done].
      destruct (region_of_address etext trampoline qss Hq Hall va x Hva Hx) as (r & Hr & Hw).
      rewrite (translate_within _ _ _ _ _ _ _ r va K) in Ht by (done || by apply Hok). done.
  - intros p j Hp Hj. destruct (stack_member etext trampoline qss Hq Hall p j Hp Hj) as [_ Hin].
    destruct (ks_taken _ _ _ _ _ _ _ K (stack_of qss p j)) as (H1 & H2 & _); [by apply elem_rev|]. split_and!; [done|done|].
    pose proof (ks_nodup _ _ _ _ _ _ _ K) as Hn. intros q i Hq' Hi' He. apply NoDup_ListNoDup, NoDup_rev in Hn. rewrite rev_involutive in Hn.
    apply NoDup_ListNoDup in Hn. by apply (stack_of_inj qss q i p j).
Qed.

(** A kernel of 1 MB. *)
Lemma kvmmake_maps_witness : ∃ m root m' l stk, kinit 0x80100000 ∅ = Ok m ∧ kvmmake 0x80010000 0x8000F000 m = Done (root, m') ∧
  chain 0x80100000 m' (freelist m') l ∧ translate m' root 0x80008123 = Some (0x80008123, RX) ∧ translate m' root (KSTACK 5 - 1) = None ∧
  translate m' root (KSTACK 5) = Some (stk 5 0 + 0, RW).
Proof.
  destruct (kvmmake_maps 0x80100000 0x80010000 0x8000F000 ∅) as (m & root & m' & l & stk & E1 & E2 & E3 & E4 & _);
    [done|done|done|done|by vm_compute|].
  exists m, root, m', l, stk. split; [exact E1|]. split; [exact E2|]. split; [exact E3|].
  split; [|split]; (rewrite E4 by (split; vm_compute; congruence)); vm_compute; reflexivity.
Defined.
