(* ===== verification/Bio.v ===== *)
(** * kernel/bio.c: the buffer cache

    [bcache] is the array of buffers with the list [border] of their indices,
    [head.next] (most recently used) first: the [prev]/[next] pointers.  A pointer
    to a buffer is its index.  [virtio_disk_rw] is what the driver promises: one
    block of the disk read or written as a whole; [bwrites] is history, every
    block written, in order.  Each function runs in the process with pid [me]. *)

From S2P Require Import Prelude Effect Proc Locks.

Local Open Scope Z_scope.

Definition BSIZE : nat := 1024.
#[global] Arguments BSIZE : simpl never.
Definition NBUF : nat := 30.
#[global] Arguments NBUF : simpl never.

Record buf := mk_buf {
  valid : Z; bdev : Z; blockno : Z; block : sleeplock; refcnt : Z; bdata : list Z;
}.

Definition zero_block : list Z := replicate BSIZE 0.
#[global] Arguments zero_block : simpl never.

(** The static storage before [binit]. *)
Definition buf0 : buf := mk_buf 0 0 0 (mk_sleeplock 0 0) 0 zero_block.

(** A disk: the block of each device and number; blocks never written are zero. *)
Notation disk := (gmap (Z * Z) (list Z)).
Definition dread (d : disk) (k : Z * Z) : list Z := default zero_block (d !! k).

Record bio := mk_bio {
  bufs : list buf; border : list nat; bdisk : disk; bwrites : list (Z * Z * list Z);
}.

Definition key (b : buf) : Z * Z := (bdev b, blockno b).
Definition buf_at (i : nat) (s : bio) : buf := default buf0 (bufs s !! i).
Definition upd_buf (i : nat) (f : buf → buf) (s : bio) : bio :=
  mk_bio (alter f i (bufs s)) (border s) (bdisk s) (bwrites s).
Definition set_border (l : list nat) (s : bio) : bio := mk_bio (bufs s) l (bdisk s) (bwrites s).

Definition set_valid (v : Z) (b : buf) : buf := mk_buf v (bdev b) (blockno b) (block b) (refcnt b) (bdata b).
Definition set_block (lk : sleeplock) (b : buf) : buf :=
  mk_buf (valid b) (bdev b) (blockno b) lk (refcnt b) (bdata b).
Definition set_refcnt (n : Z) (b : buf) : buf := mk_buf (valid b) (bdev b) (blockno b) (block b) n (bdata b).
Definition set_bdata (l : list Z) (b : buf) : buf :=
  mk_buf (valid b) (bdev b) (blockno b) (block b) (refcnt b) l.

(** [b->data]. *)
Definition data_of (i : nat) : M bio (list Z) := gets (λ s, bdata (buf_at i s)).
Definition set_data (i : nat) (l : list Z) : M bio () := modify (upd_buf i (set_bdata l)).

Definition binit (d : disk) : bio :=
  let bs := map (λ b, set_block initsleeplock b) (replicate NBUF buf0) in
  mk_bio bs (foldl (λ l i, i :: l) [] (seq 0 NBUF)) d [].

(** ** Operations *)

Definition virtio_disk_rw (i : nat) (write : bool) : M bio () := modify (λ s,
  let b := buf_at i s in
  if write
  then mk_bio (bufs s) (border s) (<[key b := bdata b]> (bdisk s)) (bwrites s ++ [(key b, bdata b)])
  else upd_buf i (set_bdata (dread (bdisk s) (key b))) s).

Section bio.
Context (me : Z).

Definition acquire_buf (i : nat) : M bio nat := λ s,
  match acquiresleep me (block (buf_at i s)) with
  | Some lk => Done (i, upd_buf i (set_block lk) s)
  | None => Blocks
  end.

Definition bget (dev bno : Z) : M bio nat := λ s,
  match List.find (λ i, (bdev (buf_at i s) =? dev) && (blockno (buf_at i s) =? bno)) (border s) with
  | Some i => acquire_buf i (upd_buf i (λ b, set_refcnt (u32 (refcnt b + 1)) b) s)
  | None =>
      match List.find (λ i, refcnt (buf_at i s) =? 0) (rev (border s)) with
      | Some i => acquire_buf i (upd_buf i (λ b, mk_buf 0 dev bno (block b) 1 (bdata b)) s)
      | None => Panics
      end
  end.

Definition bread (dev bno : Z) : M bio nat :=
  i ← bget dev bno;
  v ← gets (λ s, valid (buf_at i s));
  when (v =? 0) (virtio_disk_rw i false;; modify (upd_buf i (set_valid 1)));;
  mret i.

Definition bwrite (i : nat) : M bio () :=
  h ← gets (λ s, holdingsleep me (block (buf_at i s)));
  if negb h then panics else virtio_disk_rw i true.

(** The unlinking and relinking at the head of the list. *)
Definition to_front (i : nat) (l : list nat) : list nat := i :: filter (λ j, j ≠ i) l.

Definition brelse (i : nat) : M bio () :=
  h ← gets (λ s, holdingsleep me (block (buf_at i s)));
  if negb h then panics
  else
    modify (upd_buf i (λ b, set_block (releasesleep (block b)) b));;
    modify (upd_buf i (λ b, set_refcnt (u32 (refcnt b - 1)) b));;
    r ← gets (λ s, refcnt (buf_at i s));
    when (r =? 0) (modify (λ s, set_border (to_front i (border s)) s)).
End bio.

Definition bpin (i : nat) : M bio () := modify (upd_buf i (λ b, set_refcnt (u32 (refcnt b + 1)) b)).
Definition bunpin (i : nat) : M bio () := modify (upd_buf i (λ b, set_refcnt (u32 (refcnt b - 1)) b)).

(** ** The buffers in use *)

(** A buffer with references: where it is and what it holds. *)
Definition in_use (k : Z * Z) (b : buf) : bool := bool_decide (key b = k) && negb (refcnt b =? 0).

Definition used (s : bio) (k : Z * Z) : option (nat * buf) :=
  i ← find_index (in_use k) (bufs s); b ← bufs s !! i; Some (i, b).

(** What the file system sees of a block. *)
Definition view (s : bio) (k : Z * Z) : list Z :=
  match used s k with Some (_, b) => bdata b | None => dread (bdisk s) k end.

(** Buffers nobody refers to. *)
Definition nfree (s : bio) : nat := length (filter (λ b, refcnt b = 0) (bufs s)).

Definition keys_unique (bs : list buf) : Prop :=
  ∀ i j b c, bs !! i = Some b → bs !! j = Some c → key b = key c → bdev b ≠ 0 → i = j.

(** A buffer without references is unlocked and, if valid, clean; one with
    references is valid. *)
Definition buf_ok (d : disk) (b : buf) : Prop :=
  0 ≤ refcnt b < 2 ^ 32 ∧ length (bdata b) = BSIZE ∧
  (refcnt b = 0 → sl_locked (block b) = 0 ∧ (valid b ≠ 0 → bdata b = dread d (key b))) ∧
  (refcnt b ≠ 0 → valid b ≠ 0 ∧ bdev b ≠ 0).

Record bio_inv (s : bio) : Prop := {
  bi_order : border s ≡ₚ seq 0 NBUF;
  bi_len : length (bufs s) = NBUF;
  bi_uniq : keys_unique (bufs s);
  bi_buf : ∀ i b, bufs s !! i = Some b → buf_ok (bdisk s) b;
  bi_disk : ∀ k, length (dread (bdisk s) k) = BSIZE;
}.

Lemma used_Some s k i b :
  keys_unique (bufs s) → k.1 ≠ 0 →
  used s k = Some (i, b) ↔ bufs s !! i = Some b ∧ key b = k ∧ refcnt b ≠ 0.
Proof.
  intros Hu Hk. unfold used. split.
  - intros (j & Hj & (c & Hc & [= -> ->])%bind_Some)%bind_Some.
    apply find_index_Some in Hj as (c & Hc' & Hp & _). replace c with b in * by congruence.
    unfold in_use in Hp. bool_hyps. apply bool_decide_eq_true in H. done.
  - intros (Hb & Hkey & Hr). assert (Hin : in_use k b = true).
    { unfold in_use. rewrite bool_decide_eq_true_2 by done. by rewrite (proj2 (Z.eqb_neq _ _) Hr). }
    destruct (find_index_is_Some _ _ _ _ Hb Hin) as [j Hj]. rewrite Hj. cbn.
    apply find_index_Some in Hj as (c & Hc & Hp & _). rewrite Hc. cbn.
    unfold in_use in Hp. bool_hyps. apply bool_decide_eq_true in H.
    assert (j = i) as -> by (eapply Hu; [done|done|congruence|]; change (bdev c) with (key c).1; by rewrite H). congruence.
Qed.

Lemma used_None s k :
  (∀ i b, bufs s !! i = Some b → key b = k → refcnt b = 0) → used s k = None.
Proof.
  intros Hn. unfold used. destruct (find_index _ _) as [i|] eqn:Hf; [|done]. cbn.
  apply find_index_Some in Hf as (b & Hb & Hp & _). unfold in_use in Hp. bool_hyps.
  apply bool_decide_eq_true in H. by specialize (Hn i b Hb H).
Qed.

Lemma used_None_inv s k i b :
  keys_unique (bufs s) → k.1 ≠ 0 → used s k = None → bufs s !! i = Some b → key b = k → refcnt b = 0.
Proof.
  intros Hu Hk Hn Hb Hkey. destruct (decide (refcnt b = 0)) as [|Hr]; [done|].
  assert (used s k = Some (i, b)) by (by apply used_Some). congruence.
Qed.

Lemma used_at s k i b : used s k = Some (i, b) → bufs s !! i = Some b ∧ key b = k ∧ refcnt b ≠ 0.
Proof.
  unfold used. intros (j & Hj & (c & Hc & [= -> ->])%bind_Some)%bind_Some.
  apply find_index_Some in Hj as (c & Hc' & Hp & _). replace c with b in * by congruence.
  unfold in_use in Hp. bool_hyps. apply bool_decide_eq_true in H. done.
Qed.

Lemma used_ext s s' k : bufs s' = bufs s → used s' k = used s k.
Proof. intros He. unfold used. by rewrite He. Qed.

(** ** One buffer changes *)

Definition set_bufs (bs : list buf) (s : bio) : bio := mk_bio bs (border s) (bdisk s) (bwrites s).

Lemma upd_buf_insert i f s b : bufs s !! i = Some b → upd_buf i f s = set_bufs (<[i := f b]> (bufs s)) s.
Proof. intros Hb. unfold upd_buf, set_bufs. by erewrite alter_insert. Qed.

Lemma buf_at_Some i s b : bufs s !! i = Some b → buf_at i s = b.
Proof. intros Hb. unfold buf_at. by rewrite Hb. Qed.

(** A buffer keeps its key, or takes one no buffer has. *)
Definition rekey (bs : list buf) (b b' : buf) : Prop :=
  key b' = key b ∨ (refcnt b = 0 ∧ ∀ j c, bs !! j = Some c → key c ≠ key b').

Lemma keys_unique_insert bs i b b' :
  keys_unique bs → bs !! i = Some b → rekey bs b b' → keys_unique (<[i := b']> bs).
Proof.
  intros Hu Hb Hk j l c d [(<- & <- & _)|[Hj Hc]]%list_lookup_insert_Some
    [(<- & <- & _)|[Hl Hd]]%list_lookup_insert_Some He Hdev; try done.
  - destruct Hk as [Hk|[_ Hk]]; [|by destruct (Hk _ _ Hd)].
    eapply Hu; [exact Hb|exact Hd|congruence|]. change (bdev b) with (key b).1. by rewrite <- Hk.
  - destruct Hk as [Hk|[_ Hk]]; [|by destruct (Hk _ _ Hc)].
    eapply Hu; [exact Hc|exact Hb|congruence|done].
  - by eapply Hu.
Qed.

Lemma used_insert s i b b' k :
  keys_unique (bufs s) → bufs s !! i = Some b → rekey (bufs s) b b' → k.1 ≠ 0 →
  used (set_bufs (<[i := b']> (bufs s)) s) k =
    if decide (k = key b') then (if decide (refcnt b' = 0) then None else Some (i, b')) else used s k.
Proof.
  intros Hu Hb Hk Hk1. set (s' := set_bufs _ s).
  assert (Hu' : keys_unique (bufs s')) by (by eapply keys_unique_insert).
  assert (Hi : bufs s' !! i = Some b').
  { apply list_lookup_insert_eq. by eapply lookup_lt_Some. }
  assert (Hne : ∀ j, j ≠ i → bufs s' !! j = bufs s !! j).
  { intros j Hj. by apply list_lookup_insert_ne. }
  destruct (decide (k = key b')) as [->|Hkb].
  - destruct (decide (refcnt b' = 0)) as [Hr|Hr]; [|by apply used_Some].
    apply used_None. intros j c Hc He. destruct (decide (j = i)) as [->|Hj]; [congruence|].
    destruct Hj. symmetry. eapply (Hu' i j b' c); [done|done|done|exact Hk1].
  - destruct (used s k) as [[j c]|] eqn:Hs.
    + apply used_at in Hs as (Hc & He & Hr). apply used_Some; [done|done|].
      destruct (decide (j = i)) as [->|Hj]; [|by rewrite Hne].
      destruct Hk as [Hk|[Hk _]]; congruence.
    + apply used_None. intros j c Hc He. destruct (decide (j = i)) as [->|Hj]; [congruence|].
      rewrite Hne in Hc by done. by apply (used_None_inv s k j c).
Qed.

Definition free_one (b : buf) : nat := if decide (refcnt b = 0) then 1 else 0.

Lemma nfree_insert s i b b' :
  bufs s !! i = Some b →
  (nfree (set_bufs (<[i := b']> (bufs s)) s) + free_one b = nfree s + free_one b')%nat.
Proof.
  intros Hb. unfold nfree, free_one. cbn [bufs set_bufs].
  rewrite <- (take_drop_middle _ _ _ Hb) at 2.
  rewrite insert_take_drop by (by eapply lookup_lt_Some).
  rewrite !filter_app, !filter_cons, !length_app.
  destruct (decide (refcnt b = 0)), (decide (refcnt b' = 0)); cbn [length]; lia.
Qed.

Lemma bio_inv_insert s i b b' :
  bio_inv s → bufs s !! i = Some b → rekey (bufs s) b b' → buf_ok (bdisk s) b' →
  bio_inv (set_bufs (<[i := b']> (bufs s)) s).
Proof.
  intros [H1 H2 H3 H4 H5] Hb Hk Hok. split; cbn [border bufs bdisk set_bufs]; try done.
  - by rewrite length_insert.
  - by eapply keys_unique_insert.
  - intros j c [(_ & <- & _)|[_ Hc]]%list_lookup_insert_Some; [done|by eapply H4].
Qed.

(** ** The operations *)

(** A block is unlocked. *)
Definition unlocked (s : bio) (k : Z * Z) : Prop :=
  ∀ i b, used s k = Some (i, b) → sl_locked (block b) = 0.

(** Everything but block [k] is as it was. *)
Definition others (k : Z * Z) (s s' : bio) : Prop := ∀ k', k' ≠ k → k'.1 ≠ 0 → used s' k' = used s k'.

Definition locked_by (me : Z) : sleeplock := mk_sleeplock 1 me.

(** The references to a block. *)
Definition refs (s : bio) (k : Z * Z) : Z := match used s k with Some (_, b) => refcnt b | None => 0 end.

Lemma in_border s i b : bio_inv s → bufs s !! i = Some b → i ∈ border s.
Proof.
  intros Hi Hb. rewrite (bi_order _ Hi). apply elem_of_seq. apply lookup_lt_Some in Hb.
  rewrite (bi_len _ Hi) in Hb. lia.
Qed.

Lemma border_lookup s i : bio_inv s → i ∈ border s → ∃ b, bufs s !! i = Some b.
Proof.
  intros Hi Hin. rewrite (bi_order _ Hi) in Hin. apply elem_of_seq in Hin as [_ Hin].
  apply lookup_lt_is_Some. rewrite (bi_len _ Hi). lia.
Qed.

(** What [bget] followed by the read does to one buffer. *)
Definition got (me : Z) (k : Z * Z) (n : Z) (l : list Z) : buf := mk_buf 1 k.1 k.2 (locked_by me) n l.

Lemma nfree_pos s : (0 < nfree s)%nat → ∃ i b, bufs s !! i = Some b ∧ refcnt b = 0.
Proof.
  unfold nfree. intros Hn. destruct (filter _ (bufs s)) as [|b l] eqn:Hf; [cbn in Hn; lia|].
  assert (Hb : b ∈ filter (λ b, refcnt b = 0) (bufs s)) by (rewrite Hf; left).
  apply list_elem_of_filter in Hb as [Hr Hb]. apply list_elem_of_lookup_1 in Hb as [i Hi]. by exists i, b.
Qed.

Lemma find_border p s :
  bio_inv s →
  match List.find p (border s) with
  | Some i => ∃ b, bufs s !! i = Some b ∧ p i = true
  | None => ∀ i b, bufs s !! i = Some b → p i = false
  end.
Proof.
  intros Hi. destruct (List.find p (border s)) as [i|] eqn:Hf.
  - apply find_some in Hf as [Hin Hp]. apply list_elem_of_In in Hin.
    destruct (border_lookup s i Hi Hin) as [b Hb]. by exists b.
  - intros i b Hb. apply (find_none _ _ Hf). apply list_elem_of_In. by eapply in_border.
Qed.

Lemma find_border_rev p s :
  bio_inv s →
  match List.find p (rev (border s)) with
  | Some i => ∃ b, bufs s !! i = Some b ∧ p i = true
  | None => ∀ i b, bufs s !! i = Some b → p i = false
  end.
Proof.
  intros Hi. destruct (List.find p (rev (border s))) as [i|] eqn:Hf.
  - apply find_some in Hf as [Hin Hp]. apply in_rev, list_elem_of_In in Hin.
    destruct (border_lookup s i Hi Hin) as [b Hb]. by exists b.
  - intros i b Hb. apply (find_none _ _ Hf), in_rev. rewrite rev_involutive. apply list_elem_of_In. by eapply in_border.
Qed.

Section ops.
Context (me : Z).

Lemma acquire_buf_run i s b :
  bufs s !! i = Some b → sl_locked (block b) = 0 →
  acquire_buf me i s = Done (i, set_bufs (<[i := set_block (locked_by me) b]> (bufs s)) s).
Proof.
  intros Hb Hl. unfold acquire_buf. rewrite (buf_at_Some _ _ _ Hb). unfold acquiresleep.
  rewrite Hl. cbn [Z.eqb negb]. by rewrite (upd_buf_insert _ _ _ _ Hb).
Qed.

Lemma set_bufs_twice i b b' s :
  set_bufs (<[i := b']> (bufs (set_bufs (<[i := b]> (bufs s)) s))) (set_bufs (<[i := b]> (bufs s)) s) =
  set_bufs (<[i := b']> (bufs s)) s.
Proof. unfold set_bufs. cbn. by rewrite list_insert_insert_eq. Qed.

Lemma bufs_insert_eq i b b' s :
  bufs s !! i = Some b → bufs (set_bufs (<[i := b']> (bufs s)) s) !! i = Some b'.
Proof. intros Hb. apply list_lookup_insert_eq. by eapply lookup_lt_Some. Qed.

Lemma upd_buf_twice i f b b1 s :
  bufs s !! i = Some b →
  upd_buf i f (set_bufs (<[i := b1]> (bufs s)) s) = set_bufs (<[i := f b1]> (bufs s)) s.
Proof.
  intros Hb. rewrite (upd_buf_insert i f _ b1) by (by eapply bufs_insert_eq).
  unfold set_bufs. cbn [bufs border bdisk bwrites]. by rewrite list_insert_insert_eq.
Qed.

Lemma buf_at_insert i b b1 s :
  bufs s !! i = Some b → buf_at i (set_bufs (<[i := b1]> (bufs s)) s) = b1.
Proof. intros Hb. apply buf_at_Some. by eapply bufs_insert_eq. Qed.

(** A buffer filled, if it was not valid, and locked. *)
Definition filled (d : disk) (b : buf) : buf :=
  mk_buf (if valid b =? 0 then 1 else valid b) (bdev b) (blockno b) (locked_by me) (refcnt b)
    (if valid b =? 0 then dread d (key b) else bdata b).

(** [bread], once [bget] found or recycled buffer [i] as [b1]. *)
Lemma bread_via dev bno i s b b1 :
  bufs s !! i = Some b → sl_locked (block b1) = 0 →
  bget me dev bno s = acquire_buf me i (set_bufs (<[i := b1]> (bufs s)) s) →
  bread me dev bno s = Done (i, set_bufs (<[i := filled (bdisk s) b1]> (bufs s)) s).
Proof.
  intros Hb Hl Hg. unfold bread, mbind, M_bind. rewrite Hg. unfold acquire_buf, gets.
  rewrite (buf_at_insert _ _ _ _ Hb). unfold acquiresleep. rewrite Hl. cbn [Z.eqb negb].
  rewrite (upd_buf_twice _ _ _ _ _ Hb), (buf_at_insert _ _ _ _ Hb). cbn [valid set_block]. unfold filled.
  destruct (valid b1 =? 0) eqn:Hv; unfold when, virtio_disk_rw, modify, mret, M_ret; cbv beta zeta.
  - rewrite (buf_at_insert _ _ _ _ Hb), !(upd_buf_twice _ _ _ _ _ Hb). done.
  - done.
Qed.

(** A locked reference to block [k] in buffer [i], with [n] references and contents [l]. *)
Definition holds (s : bio) (k : Z * Z) (i : nat) (n : Z) (l : list Z) : Prop :=
  ∃ b, used s k = Some (i, b) ∧ block b = locked_by me ∧ refcnt b = n ∧ bdata b = l.

(** The disk and its history are the same. *)
Definition same_disk (s s' : bio) : Prop := bdisk s' = bdisk s ∧ bwrites s' = bwrites s.

Lemma set_bufs_frame i b b' s :
  bio_inv s → bufs s !! i = Some b → rekey (bufs s) b b' → buf_ok (bdisk s) b' →
  let s' := set_bufs (<[i := b']> (bufs s)) s in
  bio_inv s' ∧ others (key b') s s' ∧ same_disk s s' ∧
  (nfree s' + free_one b = nfree s + free_one b')%nat.
Proof.
  intros Hi Hb Hk Hok s'. split_and!.
  - by eapply bio_inv_insert.
  - intros k' Hne Hk'. unfold s'. rewrite (used_insert s i b b' k') by (done || apply (bi_uniq _ Hi)).
    by rewrite decide_False.
  - done.
  - by apply nfree_insert.
Qed.

(** A cached block, with references or without. *)
Lemma cached_facts s i b k :
  bio_inv s → k.1 ≠ 0 → bufs s !! i = Some b → key b = k →
  refs s k = refcnt b ∧ view s k = (if valid b =? 0 then dread (bdisk s) k else bdata b) ∧
  (unlocked s k → sl_locked (block b) = 0) ∧ (∀ j c, used s k = Some (j, c) → j = i).
Proof.
  intros Hi Hk1 Hb Hkey. pose proof (bi_uniq _ Hi) as Hu.
  destruct (bi_buf _ Hi i b Hb) as (Hr & Hlen & Hz & Hnz). unfold refs, view.
  destruct (decide (refcnt b = 0)) as [H0|H0].
  - rewrite used_None; [|intros j c Hc Hkc; assert (j = i) as -> by (eapply Hu; [done|done|congruence|];
      change (bdev c) with (key c).1; by rewrite Hkc); congruence].
    destruct (Hz H0) as [Hl Hd]. split_and!; [done| |done|done].
    destruct (Z.eqb_spec (valid b) 0); [done|]. rewrite Hd by done. by rewrite Hkey.
  - assert (Hus : used s k = Some (i, b)) by (by apply used_Some). rewrite Hus.
    rewrite (proj2 (Z.eqb_neq _ _)) by (by apply Hnz). split_and!; [done|done|by intros Hul; eapply Hul|congruence].
Qed.

Lemma not_cached_facts s k :
  (∀ i b, bufs s !! i = Some b → key b ≠ k) → used s k = None ∧ refs s k = 0 ∧ view s k = dread (bdisk s) k.
Proof.
  intros Hn. assert (used s k = None) as Hu by (apply used_None; intros i b Hb Hk; by destruct (Hn i b Hb)).
  unfold refs, view. by rewrite Hu.
Qed.

(** [bread] gives the block's contents, locked, with one more reference. *)
Definition bread_done (s : bio) (k : Z * Z) (i : nat) (s' : bio) : Prop :=
  bio_inv s' ∧ holds s' k i (refs s k + 1) (view s k) ∧ others k s s' ∧ same_disk s s' ∧
  (nfree s' + (if (refs s k =? 0)%Z then 1 else 0) = nfree s)%nat ∧
  ∀ j b, used s k = Some (j, b) → j = i.

Lemma bread_post s k i b b1 :
  bio_inv s → k.1 ≠ 0 → bufs s !! i = Some b → rekey (bufs s) b b1 → key b1 = k →
  refcnt b1 = refs s k + 1 → 0 < refcnt b1 < 2 ^ 32 → length (bdata b1) = BSIZE →
  view s k = (if valid b1 =? 0 then dread (bdisk s) k else bdata b1) →
  refcnt b = refs s k → (∀ j c, used s k = Some (j, c) → j = i) →
  bread_done s k i (set_bufs (<[i := filled (bdisk s) b1]> (bufs s)) s).
Proof.
  intros Hi Hk1 Hb Hre Hkey Hr1 Hlt Hlen Hv Hr Hj. set (b' := filled (bdisk s) b1).
  assert (Hok : buf_ok (bdisk s) b').
  { unfold b', buf_ok. cbn. split_and!; try lia.
    - destruct (valid b1 =? 0); [apply (bi_disk _ Hi)|done].
    - intros _. split; [destruct (Z.eqb_spec (valid b1) 0); lia|]. by rewrite <- Hkey in Hk1. }
  destruct (set_bufs_frame i b b' s Hi Hb Hre Hok) as (F1 & F2 & F3 & F4).
  change (key b') with (key b1) in F2. rewrite Hkey in F2. split_and!; try done.
  - exists b'. split_and!; [|done|exact Hr1|by rewrite Hv; subst k].
    apply used_Some; [apply (bi_uniq _ F1)|done|].
    split_and!; [by eapply bufs_insert_eq|done|change (refcnt b') with (refcnt b1); lia].
  - unfold free_one in F4. change (refcnt b') with (refcnt b1) in F4. rewrite Hr in F4.
    rewrite (decide_False (P := refcnt b1 = 0)) in F4 by lia.
    destruct (Z.eqb_spec (refs s k) 0), (decide (refs s k = 0)); lia.
Qed.

Lemma bread_run s k :
  bio_inv s → k.1 ≠ 0 → unlocked s k → refs s k + 1 < 2 ^ 32 → 0 < refs s k ∨ (0 < nfree s)%nat →
  ∃ i s', bread me k.1 k.2 s = Done (i, s') ∧ bread_done s k i s'.
Proof.
  intros Hi Hk1 Hul Hlt Hfree.
  pose proof (find_border (λ i, (bdev (buf_at i s) =? k.1) && (blockno (buf_at i s) =? k.2)) s Hi) as Hf.
  pose proof (find_border_rev (λ i, refcnt (buf_at i s) =? 0) s Hi) as Hg.
  destruct (List.find _ (border s)) as [i|] eqn:Hfind.
  - destruct Hf as (b & Hb & Hp). rewrite (buf_at_Some _ _ _ Hb) in Hp. bool_hyps.
    assert (Hkey : key b = k) by (destruct k; unfold key; cbn in *; congruence).
    destruct (cached_facts s i b k Hi Hk1 Hb Hkey) as (Hre & Hv & Hl & Hj). specialize (Hl Hul).
    destruct (bi_buf _ Hi i b Hb) as (Hr & Hlen & _). rewrite Hre in Hlt.
    assert (Hu : u32 (refcnt b + 1) = refcnt b + 1) by (apply u32_id; unfold is_u32; lia).
    exists i. eexists. split.
    { apply (bread_via _ _ i s b (set_refcnt (u32 (refcnt b + 1)) b)); [done|done|].
      unfold bget. by rewrite Hfind, (upd_buf_insert _ _ _ _ Hb). }
    apply (bread_post s k i b); try done; [by left|cbn; lia|cbn; lia].
  - destruct (not_cached_facts s k) as (Hu & Hre & Hv).
    { intros i b Hb Hkey. specialize (Hf i b Hb). cbn beta in Hf. rewrite (buf_at_Some _ _ _ Hb) in Hf.
      subst k. cbn in Hf. by rewrite !Z.eqb_refl in Hf. }
    destruct (List.find _ (rev (border s))) as [i|] eqn:Hrec.
    + destruct Hg as (b & Hb & Hp). rewrite (buf_at_Some _ _ _ Hb) in Hp. bool_hyps.
      destruct (bi_buf _ Hi i b Hb) as (_ & Hlen & Hz & _). destruct (Hz Hp) as [Hl _].
      exists i. eexists. split.
      { apply (bread_via _ _ i s b (mk_buf 0 k.1 k.2 (block b) 1 (bdata b))); [done|done|].
        unfold bget. by rewrite Hfind, Hrec, (upd_buf_insert _ _ _ _ Hb). }
      apply (bread_post s k i b); try done; [|by destruct k|cbn; lia|congruence|congruence].
      right. split; [done|]. intros j c Hc Hkey. specialize (Hf j c Hc). cbn beta in Hf.
      rewrite (buf_at_Some _ _ _ Hc) in Hf. injection Hkey as H1 H2. cbn in H1, H2. by rewrite H1, H2, !Z.eqb_refl in Hf.
    + exfalso. destruct Hfree as [|Hn]; [lia|]. destruct (nfree_pos s Hn) as (i & b & Hb & Hr).
      specialize (Hg i b Hb). cbn beta in Hg. rewrite (buf_at_Some _ _ _ Hb) in Hg. bool_hyps. lia.
Qed.

(** With every buffer referred to, a block that is not cached cannot be read. *)
Lemma bread_no_buffers s k :
  bio_inv s → k.1 ≠ 0 → nfree s = 0%nat → refs s k = 0 → bread me k.1 k.2 s = Panics.
Proof.
  intros Hi Hk Hn Hr. assert (Hall : ∀ i b, bufs s !! i = Some b → refcnt b ≠ 0).
  { intros i b Hb H0. unfold nfree in Hn. apply length_zero_iff_nil in Hn.
    assert (Hin : b ∈ filter (λ b, refcnt b = 0) (bufs s)).
    { apply list_elem_of_filter. split; [done|]. by eapply list_elem_of_lookup_2. }
    rewrite Hn in Hin. by apply elem_of_nil in Hin. }
  pose proof (find_border (λ i, (bdev (buf_at i s) =? k.1) && (blockno (buf_at i s) =? k.2)) s Hi) as Hf.
  pose proof (find_border_rev (λ i, refcnt (buf_at i s) =? 0) s Hi) as Hg.
  unfold bread, mbind, M_bind, bget. destruct (List.find _ (border s)) as [i|] eqn:Hfind.
  - destruct Hf as (b & Hb & Hp). rewrite (buf_at_Some _ _ _ Hb) in Hp. bool_hyps.
    assert (Hkey : key b = k) by (destruct k; unfold key; cbn in *; congruence).
    destruct (cached_facts s i b k Hi Hk Hb Hkey) as (Hre & _). destruct (Hall i b Hb). congruence.
  - destruct (List.find _ (rev (border s))) as [i|] eqn:Hrec; [|done].
    destruct Hg as (b & Hb & Hp). rewrite (buf_at_Some _ _ _ Hb) in Hp. bool_hyps. by destruct (Hall i b Hb).
Qed.

(** A buffer in use changes and stays in use. *)
Lemma touch s k i b b' :
  bio_inv s → k.1 ≠ 0 → used s k = Some (i, b) → key b' = key b → refcnt b' ≠ 0 → buf_ok (bdisk s) b' →
  let s' := set_bufs (<[i := b']> (bufs s)) s in
  bio_inv s' ∧ used s' k = Some (i, b') ∧ others k s s' ∧ same_disk s s' ∧ nfree s' = nfree s.
Proof.
  intros Hi Hk1 Hus Hkey Hr Hok s'. apply used_at in Hus as (Hb & <- & Hr0).
  destruct (set_bufs_frame i b b' s Hi Hb (or_introl Hkey) Hok) as (F1 & F2 & F3 & F4).
  fold s' in F1, F2, F3, F4. rewrite Hkey in F2. split_and!; try done.
  - apply used_Some; [apply (bi_uniq _ F1)|done|]. split_and!; [by eapply bufs_insert_eq|done|done].
  - unfold free_one in F4. rewrite !decide_False in F4 by done. lia.
Qed.

Lemma holds_ok s k i n l : bio_inv s → holds s k i n l → 0 < n < 2 ^ 32 ∧ length l = BSIZE.
Proof.
  intros Hi (b & Hus & _ & <- & <-). apply used_at in Hus as (Hb & _ & Hr).
  destruct (bi_buf _ Hi i b Hb) as (? & ? & _). split; [lia|done].
Qed.

Lemma data_of_run s k i n l : holds s k i n l → data_of i s = Done (l, s).
Proof.
  intros (b & Hus & _ & _ & <-). apply used_at in Hus as (Hb & _ & _).
  unfold data_of, gets. by rewrite (buf_at_Some _ _ _ Hb).
Qed.

Lemma set_data_run s k i n l l' :
  bio_inv s → k.1 ≠ 0 → holds s k i n l → length l' = BSIZE →
  ∃ s', set_data i l' s = Done ((), s') ∧
    bio_inv s' ∧ holds s' k i n l' ∧ others k s s' ∧ same_disk s s' ∧ nfree s' = nfree s.
Proof.
  intros Hi Hk1 (b & Hus & Hl & Hn & _) Hlen.
  pose proof (used_at _ _ _ _ Hus) as (Hb & _ & Hr). destruct (bi_buf _ Hi i b Hb) as (H1 & _ & _ & H4).
  destruct (touch s k i b (set_bdata l' b) Hi Hk1 Hus eq_refl Hr) as (T1 & T2 & T3 & T4 & T5).
  { split_and!; cbn; try done; lia. }
  eexists. split; [unfold set_data, modify; by rewrite (upd_buf_insert _ _ _ _ Hb)|].
  split_and!; try done. by exists (set_bdata l' b).
Qed.

Lemma dread_insert d k k' l : dread (<[k := l]> d) k' = if decide (k' = k) then l else dread d k'.
Proof.
  unfold dread. destruct (decide (k' = k)) as [->|Hne]; [by rewrite lookup_insert_eq|].
  by rewrite lookup_insert_ne by done.
Qed.

(** [bwrite] puts the contents on the disk. *)
Lemma bwrite_run s k i n l :
  bio_inv s → k.1 ≠ 0 → holds s k i n l →
  ∃ s', bwrite me i s = Done ((), s') ∧ bio_inv s' ∧ (∀ k', used s' k' = used s k') ∧
    bdisk s' = <[k := l]> (bdisk s) ∧ bwrites s' = bwrites s ++ [(k, l)] ∧ nfree s' = nfree s.
Proof.
  intros Hi Hk1 (b & Hus & Hl & Hn & Hd). pose proof (used_at _ _ _ _ Hus) as (Hb & Hkey & Hr).
  destruct (bi_buf _ Hi i b Hb) as (_ & Hlen & _ & _).
  unfold bwrite. erewrite run_bind by reflexivity. rewrite (buf_at_Some _ _ _ Hb), Hl.
  unfold locked_by, holdingsleep. cbn [sl_locked sl_pid Z.eqb negb andb]. rewrite Z.eqb_refl. cbn [negb].
  eexists. split; [unfold virtio_disk_rw, modify; by rewrite (buf_at_Some _ _ _ Hb)|].
  rewrite Hkey, Hd. destruct Hi as [I1 I2 I3 I4 I5]. split_and!; try done.
  split; cbn [bufs border bdisk]; try done.
  - intros j c Hc. destruct (I4 j c Hc) as (H1 & H2 & H3 & H4). split_and!; try done; try lia.
    intros H0. destruct (H3 H0) as [Hlc Hdc]. split; [done|]. intros Hv. rewrite dread_insert.
    destruct (decide (key c = k)) as [He|]; [|by apply Hdc].
    assert (j = i) as -> by (eapply I3; [done|done|congruence|]; change (bdev c) with (key c).1; by rewrite He).
    congruence.
  - intros k'. rewrite dread_insert. destruct (decide (k' = k)); [congruence|apply I5].
Qed.

Lemma to_front_perm i l : NoDup l → i ∈ l → to_front i l ≡ₚ l.
Proof.
  intros Hn Hi. unfold to_front. apply NoDup_Permutation.
  - constructor; [|by apply NoDup_filter]. intros Hf. by apply list_elem_of_filter in Hf as [? _].
  - done.
  - intros j. rewrite elem_of_cons, list_elem_of_filter. destruct (decide (j = i)) as [->|]; naive_solver.
Qed.

Lemma set_border_inv s l : bio_inv s → l ≡ₚ border s → bio_inv (set_border l s).
Proof. intros [H1 H2 H3 H4 H5] Hl. split; cbn; try done. by rewrite Hl. Qed.

(** Unlocked, with one reference less. *)
Definition released (b : buf) : buf := set_refcnt (u32 (refcnt b - 1)) (set_block (mk_sleeplock 0 0) b).

Lemma brelse_eval s i b :
  bufs s !! i = Some b → block b = locked_by me →
  brelse me i s = Done ((),
    let s1 := set_bufs (<[i := released b]> (bufs s)) s in
    if u32 (refcnt b - 1) =? 0 then set_border (to_front i (border s)) s1 else s1).
Proof.
  intros Hb Hl. unfold brelse. erewrite run_bind by reflexivity.
  rewrite (buf_at_Some _ _ _ Hb), Hl. unfold holdingsleep, locked_by. cbn [sl_locked sl_pid Z.eqb negb andb].
  rewrite Z.eqb_refl. cbn [negb]. unfold mbind, M_bind, modify, gets. cbv beta iota.
  rewrite (upd_buf_insert _ _ _ _ Hb), (upd_buf_twice _ _ _ _ _ Hb), (buf_at_insert _ _ _ _ Hb).
  cbn [refcnt set_refcnt set_block]. unfold when, modify. by destruct (u32 _ =? 0).
Qed.

(** [brelse] unlocks; the last reference may go only when the disk has the contents. *)
Lemma brelse_run s k i n l :
  bio_inv s → k.1 ≠ 0 → holds s k i n l → (n = 1 → l = dread (bdisk s) k) →
  ∃ s', brelse me i s = Done ((), s') ∧ bio_inv s' ∧ others k s s' ∧ same_disk s s' ∧
    (nfree s' = nfree s + (if (n =? 1)%Z then 1 else 0))%nat ∧
    if n =? 1 then used s' k = None
    else ∃ b, used s' k = Some (i, b) ∧ sl_locked (block b) = 0 ∧ refcnt b = n - 1 ∧ bdata b = l.
Proof.
  intros Hi Hk1 Hh Hlast. destruct (holds_ok _ _ _ _ _ Hi Hh) as [Hn0 _].
  destruct Hh as (b & Hus & Hl & Hn & Hd). pose proof (used_at _ _ _ _ Hus) as (Hb & Hkey & Hr).
  destruct (bi_buf _ Hi i b Hb) as (H1 & H2 & _ & H4).
  assert (Hu : u32 (refcnt b - 1) = n - 1) by (rewrite Hn; apply u32_id; unfold is_u32; lia).
  rewrite (brelse_eval _ _ _ Hb Hl), Hu. eexists. split; [done|].
  assert (Hok : buf_ok (bdisk s) (released b)).
  { unfold buf_ok. cbn. rewrite Hu. split; [lia|]. split; [done|]. split; [|by intros; apply H4].
    intros H0. split; [done|]. intros _. change (key (released b)) with (key b). rewrite Hkey, Hd. apply Hlast. lia. }
  destruct (set_bufs_frame i b (released b) s Hi Hb (or_introl eq_refl) Hok) as (F1 & F2 & F3 & F4).
  set (s1 := set_bufs _ s) in *. change (key (released b)) with (key b) in F2. rewrite Hkey in F2.
  assert (Hu1 : used s1 k = if decide (n - 1 = 0) then None else Some (i, released b)).
  { unfold s1. rewrite (used_insert s i b (released b) k) by (done || by left || apply (bi_uniq _ Hi)).
    change (key (released b)) with (key b). rewrite decide_True by done. cbn [released refcnt set_refcnt].
    by rewrite Hu. }
  unfold free_one in F4. cbn [released refcnt set_refcnt] in F4. rewrite Hu, (decide_False (P := refcnt b = 0)) in F4 by done.
  assert (Hrel : refcnt (released b) = n - 1) by exact Hu.
  destruct (Z.eqb_spec (n - 1) 0) as [H0|H0], (Z.eqb_spec n 1) as [Hn1|Hn1]; try lia; cbv zeta.
  - split_and!; [|done|done|rewrite decide_True in F4 by done; change (nfree (set_border _ s1)) with (nfree s1); lia
      |by rewrite (used_ext s1) by done; rewrite Hu1, decide_True].
    apply set_border_inv; [done|]. apply to_front_perm.
    + change (border s1) with (border s). rewrite (bi_order _ Hi). apply NoDup_seq.
    + by apply (in_border s i b).
  - split_and!; [done|done|done|rewrite decide_False in F4 by done; lia|].
    exists (released b). rewrite Hu1, decide_False by done. done.
Qed.

(** References added and dropped by the log while a block is held. *)
Lemma repin_run s k i n l m :
  bio_inv s → k.1 ≠ 0 → holds s k i n l → 0 < m < 2 ^ 32 →
  ∃ s', modify (upd_buf i (set_refcnt m)) s = Done ((), s') ∧
    bio_inv s' ∧ holds s' k i m l ∧ others k s s' ∧ same_disk s s' ∧ nfree s' = nfree s.
Proof.
  intros Hi Hk1 (b & Hus & Hl & Hn & Hd) Hm. pose proof (used_at _ _ _ _ Hus) as (Hb & _ & Hr).
  destruct (bi_buf _ Hi i b Hb) as (_ & Hlen & _ & H4).
  destruct (touch s k i b (set_refcnt m b) Hi Hk1 Hus eq_refl ltac:(cbn; lia)) as (T1 & T2 & T3 & T4 & T5).
  { split_and!; cbn; try done; lia. }
  eexists. split; [unfold modify; by rewrite (upd_buf_insert _ _ _ _ Hb)|].
  split_and!; try done. by exists (set_refcnt m b).
Qed.

Lemma repin_eval s k i n l f :
  holds s k i n l → modify (upd_buf i (λ b, set_refcnt (u32 (f (refcnt b))) b)) s =
  modify (upd_buf i (set_refcnt (u32 (f n)))) s.
Proof.
  intros (b & Hus & _ & Hn & _). pose proof (used_at _ _ _ _ Hus) as (Hb & _ & _).
  unfold modify. by rewrite !(upd_buf_insert _ _ _ _ Hb), Hn.
Qed.

Lemma bpin_run s k i n l :
  bio_inv s → k.1 ≠ 0 → holds s k i n l → n + 1 < 2 ^ 32 →
  ∃ s', bpin i s = Done ((), s') ∧
    bio_inv s' ∧ holds s' k i (n + 1) l ∧ others k s s' ∧ same_disk s s' ∧ nfree s' = nfree s.
Proof.
  intros Hi Hk1 Hh Hn. destruct (holds_ok _ _ _ _ _ Hi Hh) as [Hn0 _]. unfold bpin.
  rewrite (repin_eval _ _ _ _ _ (λ n, n + 1) Hh), u32_id by (unfold is_u32; lia). by eapply repin_run; eauto; lia.
Qed.

Lemma bunpin_run s k i n l :
  bio_inv s → k.1 ≠ 0 → holds s k i n l → 1 < n →
  ∃ s', bunpin i s = Done ((), s') ∧
    bio_inv s' ∧ holds s' k i (n - 1) l ∧ others k s s' ∧ same_disk s s' ∧ nfree s' = nfree s.
Proof.
  intros Hi Hk1 Hh Hn. destruct (holds_ok _ _ _ _ _ Hi Hh) as [Hn0 _]. unfold bunpin.
  rewrite (repin_eval _ _ _ _ _ (λ n, n - 1) Hh), u32_id by (unfold is_u32; lia). by eapply repin_run; eauto; lia.
Qed.
End ops.

(** ** Whole uses of a block *)

(** No block is locked. *)
Definition quiet (s : bio) : Prop := ∀ k, k.1 ≠ 0 → unlocked s k.

(** The references to a block and its contents are the same, and it is unlocked if it was. *)
Definition same_block (k : Z * Z) (s s' : bio) : Prop :=
  refs s' k = refs s k ∧ view s' k = view s k ∧ (unlocked s k → unlocked s' k).

Lemma same_block_trans k s1 s2 s3 : same_block k s1 s2 → same_block k s2 s3 → same_block k s1 s3.
Proof. unfold same_block. intros (-> & -> & H1) (-> & -> & H2). auto. Qed.

Lemma used_same s s' k :
  used s' k = used s k → dread (bdisk s') k = dread (bdisk s) k → same_block k s s'.
Proof. intros Hu Hd. unfold same_block, refs, view, unlocked. rewrite Hu. by destruct (used s k) as [[]|]. Qed.

Lemma others_same k s s' k' : others k s s' → same_disk s s' → k' ≠ k → k'.1 ≠ 0 → same_block k' s s'.
Proof. intros Ho [Hd _] Hne Hk. apply used_same; [by apply Ho|by rewrite Hd]. Qed.

Lemma holds_refs me s k i n l : holds me s k i n l → refs s k = n ∧ view s k = l.
Proof. intros (b & Hu & _ & Hn & Hl). unfold refs, view. by rewrite Hu. Qed.

Lemma holds_used me s s' k i n l : used s' k = used s k → holds me s k i n l → holds me s' k i n l.
Proof. intros Hu. unfold holds. by rewrite Hu. Qed.

Lemma view_unused s k : bio_inv s → refs s k = 0 → view s k = dread (bdisk s) k.
Proof.
  unfold refs, view. intros Hi. destruct (used s k) as [[i b]|] eqn:Hu; [|done].
  apply used_at in Hu as (_ & _ & Hr). intros. lia.
Qed.

Lemma length_view s k : bio_inv s → length (view s k) = BSIZE.
Proof.
  intros Hi. unfold view. destruct (used s k) as [[i b]|] eqn:Hu; [|by apply bi_disk].
  apply used_at in Hu as (Hb & _). by destruct (bi_buf _ Hi i b Hb) as (_ & ? & _).
Qed.

(** [memmove(dst->data, src->data, BSIZE)]. *)
Lemma blit_whole (d l : list Z) : length d = BSIZE → length l = BSIZE → blit d 0 (take BSIZE l) = l.
Proof.
  intros Hd Hl. rewrite blit_0, take_ge by lia. rewrite drop_ge by lia. by rewrite app_nil_r.
Qed.

(** What is left after a use of block [k] whose last step released it. *)
Record after_use (k : Z * Z) (s s' : bio) : Prop := {
  au_inv : bio_inv s';
  au_same : ∀ k', k' ≠ k → k'.1 ≠ 0 → same_block k' s s';
  au_unlocked : unlocked s' k;
}.

Section uses.
Context (me : Z).

Lemma brelse_after s k i n l :
  bio_inv s → k.1 ≠ 0 → holds me s k i n l → (n = 1 → l = dread (bdisk s) k) →
  ∃ s', brelse me i s = Done ((), s') ∧ bio_inv s' ∧ others k s s' ∧ same_disk s s' ∧ unlocked s' k ∧
    refs s' k = n - 1 ∧ view s' k = l ∧ (nfree s' = nfree s + (if (n =? 1)%Z then 1 else 0))%nat.
Proof.
  intros Hi Hk Hh Hl. destruct (brelse_run me s k i n l Hi Hk Hh Hl) as (s' & Hs & Hi' & Ho & [Hd Hw] & Hn & Hu).
  exists s'. split_and!; try done; unfold unlocked, refs, view; destruct (Z.eqb_spec n 1) as [->|Hn1].
  - by rewrite Hu.
  - destruct Hu as (b & Hu & Hlk & _). rewrite Hu. by intros ? ? [= <- <-].
  - by rewrite Hu.
  - destruct Hu as (b & Hu & _ & Hr & _). by rewrite Hu.
  - rewrite Hu, Hd. symmetry. by apply Hl.
  - destruct Hu as (b & Hu & _ & _ & Hb). by rewrite Hu.
Qed.

(** Reading a block and letting it go. *)
Lemma read_steps s k :
  bio_inv s → k.1 ≠ 0 → unlocked s k → refs s k + 1 < 2 ^ 32 → 0 < refs s k ∨ (0 < nfree s)%nat →
  ∃ i s1 s2, bread me k.1 k.2 s = Done (i, s1) ∧ data_of i s1 = Done (view s k, s1) ∧
    brelse me i s1 = Done ((), s2) ∧
    bio_inv s2 ∧ (∀ k', k'.1 ≠ 0 → same_block k' s s2) ∧ same_disk s s2 ∧ nfree s2 = nfree s.
Proof.
  intros Hi Hk Hul Hr Hf.
  destruct (bread_run me s k Hi Hk Hul Hr Hf) as (i & s1 & E1 & I1 & H1 & O1 & D1 & N1 & _).
  destruct (brelse_after s1 k i _ _ I1 Hk H1) as (s2 & E2 & I2 & O2 & D2 & U2 & R2 & V2 & N2).
  { intros Hn. rewrite (proj1 D1). apply view_unused; [done|lia]. }
  exists i, s1, s2. split_and!; [done|by apply (data_of_run me _ _ _ _ _ H1)|done|done| |destruct D1, D2; split; congruence|].
  - intros k' Hk'. destruct (decide (k' = k)) as [->|Hne].
    + split_and!; [rewrite R2; lia|done|done].
    + apply (same_block_trans k' s s1 s2); by eapply others_same.
  - destruct (Z.eqb_spec (refs s k) 0), (Z.eqb_spec (refs s k + 1) 1); lia.
Qed.

Lemma read_use {A} s k (f : list Z → A) :
  bio_inv s → k.1 ≠ 0 → unlocked s k → refs s k + 1 < 2 ^ 32 → 0 < refs s k ∨ (0 < nfree s)%nat →
  ∃ s', (i ← bread me k.1 k.2; l ← data_of i; brelse me i;; mret (f l)) s = Done (f (view s k), s') ∧
    bio_inv s' ∧ (∀ k', k'.1 ≠ 0 → same_block k' s s') ∧ same_disk s s' ∧ nfree s' = nfree s.
Proof.
  intros Hi Hk Hul Hr Hf. destruct (read_steps s k Hi Hk Hul Hr Hf) as (i & s1 & s2 & E1 & E2 & E3 & H).
  exists s2. split; [|done]. by rewrite (run_bind _ _ _ _ _ E1), (run_bind _ _ _ _ _ E2), (run_bind _ _ _ _ _ E3).
Qed.

(** Changing a block on the disk. *)
Lemma write_use s k (f : list Z → list Z) :
  bio_inv s → k.1 ≠ 0 → unlocked s k → refs s k + 1 < 2 ^ 32 → 0 < refs s k ∨ (0 < nfree s)%nat →
  length (f (view s k)) = BSIZE →
  ∃ s', (i ← bread me k.1 k.2; l ← data_of i; set_data i (f l);; bwrite me i;; brelse me i) s = Done ((), s') ∧
    bio_inv s' ∧ (∀ k', k' ≠ k → k'.1 ≠ 0 → same_block k' s s') ∧ unlocked s' k ∧ refs s' k = refs s k ∧
    view s' k = f (view s k) ∧ bdisk s' = <[k := f (view s k)]> (bdisk s) ∧
    bwrites s' = bwrites s ++ [(k, f (view s k))] ∧ nfree s' = nfree s.
Proof.
  intros Hi Hk Hul Hr Hf Hlen.
  destruct (bread_run me s k Hi Hk Hul Hr Hf) as (i & s1 & E1 & I1 & H1 & O1 & D1 & N1 & _).
  destruct (set_data_run me s1 k i _ _ _ I1 Hk H1 Hlen) as (s2 & E2 & I2 & H2 & O2 & D2 & N2).
  destruct (bwrite_run me s2 k i _ _ I2 Hk H2) as (s3 & E3 & I3 & U3 & D3 & W3 & N3).
  assert (H3 : holds me s3 k i (refs s k + 1) (f (view s k))) by exact (holds_used me s2 s3 k _ _ _ (U3 k) H2).
  destruct (brelse_after s3 k i _ _ I3 Hk H3) as (s4 & E4 & I4 & O4 & D4 & U4 & R4 & V4 & N4).
  { intros _. by rewrite D3, dread_insert, decide_True. }
  destruct D1 as [D1 W1], D2 as [D2 W2], D4 as [D4 W4]. exists s4. split.
  { rewrite (run_bind _ _ _ _ _ E1), (run_bind _ _ _ _ _ (data_of_run me _ _ _ _ _ H1)), (run_bind _ _ _ _ _ E2),
      (run_bind _ _ _ _ _ E3). done. }
  split_and!; [done| |done|lia|done|congruence|congruence|].
  - intros k' Hne Hk'. apply (same_block_trans k' s s1); [by apply (others_same k)|].
    apply (same_block_trans k' s1 s2); [by apply (others_same k)|].
    apply (same_block_trans k' s2 s3); [|by apply (others_same k)].
    apply used_same; [by rewrite U3|]. by rewrite D3, dread_insert, decide_False.
  - destruct (Z.eqb_spec (refs s k) 0), (Z.eqb_spec (refs s k + 1) 1); lia.
Qed.
(** *** Two blocks at once *)

Definition others2 (k1 k2 : Z * Z) (s s' : bio) : Prop :=
  ∀ k, k ≠ k1 → k ≠ k2 → k.1 ≠ 0 → same_block k s s'.

Lemma holds_others s s' k k' i n l :
  others k s s' → k' ≠ k → k'.1 ≠ 0 → holds me s k' i n l → holds me s' k' i n l.
Proof. intros Ho Hne Hk. apply holds_used. by apply Ho. Qed.

(** Buffers needed for a block. *)
Definition need (s : bio) (k : Z * Z) : nat := if (refs s k =? 0)%Z then 1 else 0.

Lemma two_breads s k1 k2 :
  bio_inv s → k1.1 ≠ 0 → k2.1 ≠ 0 → k1 ≠ k2 → unlocked s k1 → unlocked s k2 →
  0 ≤ refs s k1 < 2 ^ 32 - 1 → 0 ≤ refs s k2 < 2 ^ 32 - 1 → (need s k1 + need s k2 ≤ nfree s)%nat →
  ∃ i1 s1 i2 s2, bread me k1.1 k1.2 s = Done (i1, s1) ∧ bread me k2.1 k2.2 s1 = Done (i2, s2) ∧ bio_inv s2 ∧
    holds me s2 k1 i1 (refs s k1 + 1) (view s k1) ∧ holds me s2 k2 i2 (refs s k2 + 1) (view s k2) ∧
    others2 k1 k2 s s2 ∧ same_disk s s2 ∧ (nfree s2 + need s k1 + need s k2 = nfree s)%nat.
Proof.
  intros Hi Hk1 Hk2 Hne Hu1 Hu2 Hr1 Hr2 Hf. unfold need in *.
  destruct (bread_run me s k1 Hi Hk1 Hu1) as (i1 & s1 & E1 & I1 & H1 & O1 & D1 & N1 & _); [lia| |].
  { destruct (Z.eqb_spec (refs s k1) 0); [right|left]; lia. }
  destruct (others_same k1 s s1 k2 O1 D1 (not_eq_sym Hne) Hk2) as (R2 & V2 & U2).
  destruct (bread_run me s1 k2 I1 Hk2 (U2 Hu2)) as (i2 & s2 & E2 & I2 & H2 & O2 & D2 & N2 & _); [lia| |].
  { rewrite R2. destruct (Z.eqb_spec (refs s k2) 0); [right|left]; lia. }
  rewrite R2, V2 in *. exists i1, s1, i2, s2. split_and!; try done.
  - by apply (holds_others s1 s2 k2).
  - intros k Hn1 Hn2 Hk. apply (same_block_trans k s s1); [by apply (others_same k1)|by apply (others_same k2)].
  - destruct D1, D2. split; congruence.
  - lia.
Qed.

Lemma two_releases s k1 k2 i1 i2 n1 n2 l1 l2 :
  bio_inv s → k1.1 ≠ 0 → k2.1 ≠ 0 → k1 ≠ k2 →
  holds me s k1 i1 n1 l1 → holds me s k2 i2 n2 l2 →
  (n1 = 1 → l1 = dread (bdisk s) k1) → (n2 = 1 → l2 = dread (bdisk s) k2) →
  ∃ s1 s2, brelse me i1 s = Done ((), s1) ∧ brelse me i2 s1 = Done ((), s2) ∧ bio_inv s2 ∧
    unlocked s2 k1 ∧ unlocked s2 k2 ∧ refs s2 k1 = n1 - 1 ∧ refs s2 k2 = n2 - 1 ∧
    view s2 k1 = l1 ∧ view s2 k2 = l2 ∧ others2 k1 k2 s s2 ∧ same_disk s s2 ∧
    (nfree s2 = nfree s + (if (n1 =? 1)%Z then 1 else 0) + (if (n2 =? 1)%Z then 1 else 0))%nat.
Proof.
  intros Hi Hk1 Hk2 Hne H1 H2 L1 L2.
  destruct (brelse_after s k1 i1 n1 l1 Hi Hk1 H1 L1) as (s1 & E1 & I1 & O1 & D1 & U1 & R1 & V1 & N1).
  assert (H2' : holds me s1 k2 i2 n2 l2) by (by apply (holds_others s s1 k1)).
  destruct (brelse_after s1 k2 i2 n2 l2 I1 Hk2 H2') as (s2 & E2 & I2 & O2 & D2 & U2 & R2 & V2 & N2).
  { rewrite (proj1 D1). done. }
  destruct (others_same k2 s1 s2 k1 O2 D2 Hne Hk1) as (R3 & V3 & U3).
  exists s1, s2. split_and!; try done; try congruence; try by apply U3.
  - intros k Hn1 Hn2 Hk. apply (same_block_trans k s s1); [by apply (others_same k1)|by apply (others_same k2)].
  - destruct D1, D2. split; congruence.
Qed.

(** The contents of one held block written over another's, and to the disk. *)
Lemma copy_held s ks kd i j ns nd l d :
  bio_inv s → ks.1 ≠ 0 → kd.1 ≠ 0 → ks ≠ kd → holds me s ks i ns l → holds me s kd j nd d →
  ∃ s1 s2, set_data j (blit d 0 (take BSIZE l)) s = Done ((), s1) ∧ bwrite me j s1 = Done ((), s2) ∧
    bio_inv s2 ∧ holds me s2 ks i ns l ∧ holds me s2 kd j nd l ∧ others2 ks kd s s2 ∧
    bdisk s2 = <[kd := l]> (bdisk s) ∧ bwrites s2 = bwrites s ++ [(kd, l)] ∧ nfree s2 = nfree s.
Proof.
  intros Hi Hks Hkd Hne Hs Hd.
  destruct (holds_ok me _ _ _ _ _ Hi Hs) as [_ Ll]. destruct (holds_ok me _ _ _ _ _ Hi Hd) as [_ Ld].
  rewrite (blit_whole d l) by done.
  destruct (set_data_run me s kd j nd d l Hi Hkd Hd Ll) as (s1 & E1 & I1 & H1 & O1 & [D1 W1] & N1).
  destruct (bwrite_run me s1 kd j nd l I1 Hkd H1) as (s2 & E2 & I2 & U2 & D2 & W2 & N2).
  exists s1, s2. split_and!; try done; try congruence.
  - apply (holds_used me s1 s2); [by apply U2|]. by apply (holds_others s s1 kd).
  - by apply (holds_used me s1 s2).
  - intros k Hn1 Hn2 Hk. apply (same_block_trans k s s1); [by apply (others_same kd)|].
    apply used_same; [by apply U2|]. by rewrite D2, dread_insert, decide_False.
Qed.
End uses.

Lemma nfree_all s : bio_inv s → (∀ k, k.1 ≠ 0 → refs s k = 0) → nfree s = NBUF.
Proof.
  intros Hi Hr. rewrite <- (bi_len _ Hi). unfold nfree. f_equal.
  assert (Hall : Forall (λ b, refcnt b = 0) (bufs s)).
  { apply Forall_lookup. intros i b Hb. destruct (decide (refcnt b = 0)) as [|H0]; [done|].
    destruct (bi_buf _ Hi i b Hb) as (_ & _ & _ & H4). destruct (H4 H0) as [_ Hd].
    assert (Hu : used s (key b) = Some (i, b)) by (apply used_Some; [apply (bi_uniq _ Hi)|done|done]).
    specialize (Hr (key b) Hd). unfold refs in Hr. by rewrite Hu in Hr. }
  induction Hall as [|b bs Hb _ IH]; [done|]. rewrite filter_cons, decide_True by done. by rewrite IH.
Qed.

(** ** Boot *)

Lemma binit_inv d :
  (∀ k, length (dread d k) = BSIZE) →
  bio_inv (binit d) ∧ (∀ k, used (binit d) k = None) ∧ nfree (binit d) = NBUF.
Proof.
  intros Hd.
  assert (Hb : ∀ i b, bufs (binit d) !! i = Some b → b = set_block initsleeplock buf0).
  { intros i b Hi. cbn [binit bufs] in Hi. rewrite lookup_map in Hi.
    destruct (replicate NBUF buf0 !! i) as [c|] eqn:Hc; [|done]. apply lookup_replicate in Hc as [-> _].
    by injection Hi as <-. }
  split_and!.
  - split.
    + change (border (binit d)) with (rev (seq 0 NBUF)). symmetry. apply Permutation_rev.
    + by vm_compute.
    + intros i j b c Hbi _ _ Hdev. by apply Hb in Hbi as ->.
    + intros i b Hbi. apply Hb in Hbi as ->. split_and!; try done; cbn; try lia.
    + done.
  - intros k. apply used_None. intros i b Hbi _. by apply Hb in Hbi as ->.
  - by vm_compute.
Qed.
