(* ===== verification/Log.v ===== *)
(** * kernel/log.c: the write-ahead log

    [lsys] is the buffer cache, [struct log] and what log.c does to the outside: the
    messages of recovery and the wakeups of the channel [&log].  A function runs to
    its end or to where it sleeps; [committing] keeps other system calls out while
    [commit] runs.  A crash keeps the disk as some prefix of the block
    writes left it. *)

From S2P Require Import Prelude Effect Proc Locks Printf Bio.

Local Open Scope Z_scope.

Definition MAXOPBLOCKS : Z := 10.
Definition LOGBLOCKS : Z := MAXOPBLOCKS * 3.

Record logheader := mk_lh { lh_n : Z; lh_block : list Z }.

Record log := mk_log {
  log_start : Z; outstanding : Z; committing : Z; log_dev : Z; lh : logheader;
}.

Inductive levent := Message (l : list Z) | WakeLog.

Record lsys := mk_lsys { lbio : bio; llog : log; levents : list levent }.

Definition set_lbio (b : bio) (s : lsys) : lsys := mk_lsys b (llog s) (levents s).
Definition set_llog (l : log) (s : lsys) : lsys := mk_lsys (lbio s) l (levents s).
Definition emit (e : levent) : M lsys () := modify (λ s, mk_lsys (lbio s) (llog s) (levents s ++ [e])).
Definition on_bio {A} (m : M bio A) : M lsys A := zoom lbio set_lbio m.
Definition the_log : M lsys log := gets llog.
Definition upd_log (f : log → log) : M lsys () := modify (λ s, set_llog (f (llog s)) s).

Definition set_lh (h : logheader) (l : log) : log := mk_log (log_start l) (outstanding l) (committing l) (log_dev l) h.
Definition set_n (n : Z) (l : log) : log := set_lh (mk_lh n (lh_block (lh l))) l.
Definition set_slot (i : Z) (b : Z) (l : log) : log :=
  set_lh (mk_lh (lh_n (lh l)) (<[Z.to_nat i := b]> (lh_block (lh l)))) l.
Definition set_outstanding (n : Z) (l : log) : log := mk_log (log_start l) n (committing l) (log_dev l) (lh l).
Definition set_committing (n : Z) (l : log) : log := mk_log (log_start l) (outstanding l) n (log_dev l) (lh l).

(** [log.lh.block[i]]. *)
Definition slot (i : Z) : M lsys Z := l ← the_log; deref (lh_block (lh l) !! Z.to_nat i).

(** ** The header block: an [int] count and [int] block numbers *)

Definition get32 (off : nat) (l : list Z) : Z := s32 (le_decode (sub off 4 l)).
Definition put32 (off : nat) (v : Z) (l : list Z) : list Z := blit l off (le_encode 4 v).

Definition hdr_n (l : list Z) : Z := get32 0 l.
Definition hdr_block (l : list Z) (i : Z) : Z := get32 (4 + 4 * Z.to_nat i) l.

Section log.
Context (me : Z).

(** ** Installing *)

(** One round of [install_trans]: log block to home block. *)
Definition install_block (recovering : bool) (dev logno homeno : Z) : M bio () :=
  lbuf ← bread me dev logno;
  dbuf ← bread me dev homeno;
  l ← data_of lbuf;
  d ← data_of dbuf;
  set_data dbuf (blit d 0 (take BSIZE l));;
  bwrite me dbuf;;
  when (negb recovering) (bunpin dbuf);;
  brelse me lbuf;;
  brelse me dbuf.

Definition recovering_msg (tail dst : Z) : list Z :=
  printf (bytes "recovering tail %d dst %d
") [VInt tail; VInt dst].

Definition install_trans (recovering : bool) : M lsys () :=
  l ← the_log;
  for_ (Z.to_nat (lh_n (lh l))) 0 (λ tail,
    dst ← slot tail;
    when recovering (emit (Message (recovering_msg tail dst)));;
    on_bio (install_block recovering (u32 (log_dev l)) (u32 (log_start l + tail + 1)) (u32 dst))).

(** ** The header on disk *)

Definition read_head : M lsys () :=
  l ← the_log;
  h ← on_bio (i ← bread me (u32 (log_dev l)) (u32 (log_start l)); d ← data_of i; brelse me i;; mret d);
  upd_log (set_n (hdr_n h));;
  for_ (Z.to_nat (hdr_n h)) 0 (λ i,
    if i <? LOGBLOCKS then upd_log (set_slot i (hdr_block h i)) else undef).

(** The stores of [write_head] into the buffer; [Undef] past the end of [block]. *)
Fixpoint put_blocks (bs : list Z) (i : nat) (d : list Z) : list Z :=
  match bs with
  | [] => d
  | b :: bs' => put_blocks bs' (S i) (put32 (4 + 4 * i) b d)
  end.

Definition encode_head (h : logheader) (d : list Z) : list Z :=
  put_blocks (take (Z.to_nat (lh_n h)) (lh_block h)) 0 (put32 0 (lh_n h) d).

Definition write_head : M lsys () :=
  l ← the_log;
  if LOGBLOCKS <? lh_n (lh l) then undef
  else
    on_bio (
      i ← bread me (u32 (log_dev l)) (u32 (log_start l));
      d ← data_of i;
      set_data i (encode_head (lh l) d);;
      bwrite me i;;
      brelse me i).

Definition recover_from_log : M lsys () :=
  read_head;;
  install_trans true;;
  upd_log (set_n 0);;
  write_head.

Definition sizeof_logheader : Z := 4 + 4 * LOGBLOCKS.

Definition initlog (dev logstart : Z) : M lsys () :=
  if Z.of_nat BSIZE <=? sizeof_logheader then panics
  else
    upd_log (λ l, mk_log (s32 logstart) (outstanding l) (committing l) dev (lh l));;
    recover_from_log.

(** ** Committing *)

(** One round of [write_log]: cache block to log block. *)
Definition log_block (dev logno homeno : Z) : M bio () :=
  to ← bread me dev logno;
  from ← bread me dev homeno;
  d ← data_of to;
  l ← data_of from;
  set_data to (blit d 0 (take BSIZE l));;
  bwrite me to;;
  brelse me from;;
  brelse me to.

Definition write_log : M lsys () :=
  l ← the_log;
  for_ (Z.to_nat (lh_n (lh l))) 0 (λ tail,
    b ← slot tail;
    on_bio (log_block (u32 (log_dev l)) (u32 (log_start l + tail + 1)) (u32 b))).

Definition commit : M lsys () :=
  l ← the_log;
  when (0 <? lh_n (lh l)) (
    write_log;;
    write_head;;
    install_trans false;;
    upd_log (set_n 0);;
    write_head).

(** ** Transactions *)

(** One test of the loop; [Blocks] is the sleep on [&log]. *)
Definition begin_op : M lsys () :=
  l ← the_log;
  if negb (committing l =? 0) then blocks
  else if LOGBLOCKS <? lh_n (lh l) + (outstanding l + 1) * MAXOPBLOCKS then blocks
  else upd_log (set_outstanding (outstanding l + 1)).

Definition end_op : M lsys () :=
  upd_log (λ l, set_outstanding (outstanding l - 1) l);;
  l ← the_log;
  if negb (committing l =? 0) then panics
  else if outstanding l =? 0 then
    upd_log (set_committing 1);;
    commit;;
    upd_log (set_committing 0);;
    emit WakeLog
  else emit WakeLog.

Definition log_write (b : nat) : M lsys () :=
  l ← the_log;
  if LOGBLOCKS <=? lh_n (lh l) then panics
  else if outstanding l <? 1 then panics
  else
    bno ← on_bio (gets (λ s, blockno (buf_at b s)));
    let i := match find_index (λ x, u32 x =? bno) (take (Z.to_nat (lh_n (lh l))) (lh_block (lh l))) with
             | Some i => Z.of_nat i
             | None => lh_n (lh l)
             end in
    upd_log (set_slot i (s32 bno));;
    when (i =? lh_n (lh l)) (on_bio (bpin b);; upd_log (λ l, set_n (lh_n (lh l) + 1) l)).

(** ** Copying a block *)

(** Block [kd] now has the contents of [ks], also on the disk, and [pin] references less. *)
Record copied (ks kd : Z * Z) (pin : Z) (s s' : bio) : Prop := {
  cp_inv : bio_inv s';
  cp_same : ∀ k, k ≠ kd → k.1 ≠ 0 → same_block k s s';
  cp_unlocked : unlocked s' kd;
  cp_refs : refs s' kd = refs s kd - pin;
  cp_view : view s' kd = view s ks;
  cp_disk : bdisk s' = <[kd := view s ks]> (bdisk s);
  cp_writes : bwrites s' = bwrites s ++ [(kd, view s ks)];
  cp_free : (nfree s' = nfree s + (if ((refs s kd =? pin) && negb (pin =? 0))%Z then 1 else 0))%nat;
}.

Record copyable (ks kd : Z * Z) (pin : Z) (s : bio) : Prop := {
  ca_inv : bio_inv s;
  ca_src : ks.1 ≠ 0; ca_dst : kd.1 ≠ 0; ca_ne : ks ≠ kd;
  ca_usrc : unlocked s ks; ca_udst : unlocked s kd;
  ca_rsrc : 0 ≤ refs s ks < 2 ^ 32 - 1; ca_rdst : pin ≤ refs s kd < 2 ^ 32 - 1;
  ca_need : (need s ks + need s kd ≤ nfree s)%nat;
}.

(** The common end: both held, the destination written, then both released. *)
Lemma copied_intro ks kd pin s s1 s2 s3 ns nd l :
  copyable ks kd pin s → 0 ≤ pin ≤ 1 →
  others2 ks kd s s1 → same_disk s s1 → (nfree s1 + need s ks + need s kd = nfree s)%nat →
  others2 ks kd s1 s2 → bdisk s2 = <[kd := view s ks]> (bdisk s1) →
  bwrites s2 = bwrites s1 ++ [(kd, view s ks)] → nfree s2 = nfree s1 →
  others2 ks kd s2 s3 → same_disk s2 s3 → bio_inv s3 → unlocked s3 ks → unlocked s3 kd →
  ns = refs s ks + 1 → nd = refs s kd + 1 - pin → l = view s ks →
  refs s3 ks = ns - 1 → refs s3 kd = nd - 1 → view s3 ks = l → view s3 kd = l →
  (nfree s3 = nfree s2 + (if (ns =? 1)%Z then 1 else 0) + (if (nd =? 1)%Z then 1 else 0))%nat →
  copied ks kd pin s s3.
Proof.
  intros [C1 C2 C3 C4 C5 C6 C7 C8 C9] Hpin O1 [D1 W1] N1 O2 D2 W2 N2 O3 [D3 W3] I3 Us Ud -> -> -> Rs Rd Vs Vd N3.
  split; try done.
  - intros k Hne Hk. destruct (decide (k = ks)) as [->|Hns].
    + split_and!; [lia|done|done].
    + apply (same_block_trans k s s1); [by apply O1|]. apply (same_block_trans k s1 s2); [by apply O2|by apply O3].
  - lia.
  - congruence.
  - congruence.
  - unfold need in *. destruct (Z.eqb_spec (refs s ks) 0), (Z.eqb_spec (refs s kd) 0),
      (Z.eqb_spec (refs s ks + 1) 1), (Z.eqb_spec (refs s kd + 1 - pin) 1), (Z.eqb_spec (refs s kd) pin),
      (Z.eqb_spec pin 0); cbn [andb negb]; lia.
Qed.

Lemma install_block_run (recovering : bool) (ks kd : Z * Z) s :
  ks.1 = kd.1 → copyable ks kd (if recovering then 0 else 1) s →
  ∃ s', install_block recovering ks.1 ks.2 kd.2 s = Done ((), s') ∧
    copied ks kd (if recovering then 0 else 1) s s'.
Proof.
  intros Hdev C. pose proof C as [C1 C2 C3 C4 C5 C6 C7 C8 C9].
  destruct (two_breads me s ks kd) as (i & s0 & j & s1 & E0 & E1 & I1 & Hs1 & Hd1 & O1 & D1 & N1); try done.
  { destruct recovering; lia. }
  destruct (copy_held me s1 ks kd i j _ _ _ _ I1 C2 C3 C4 Hs1 Hd1)
    as (s2 & s3 & E2 & E3 & I3 & Hs3 & Hd3 & O3 & D3 & W3 & N3).
  assert (Hpin : ∃ s4, when (negb recovering) (bunpin j) s3 = Done ((), s4) ∧ bio_inv s4 ∧
    holds me s4 ks i (refs s ks + 1) (view s ks) ∧
    holds me s4 kd j (refs s kd + 1 - (if recovering then 0 else 1)) (view s ks) ∧
    others2 ks kd s3 s4 ∧ same_disk s3 s4 ∧ nfree s4 = nfree s3).
  { destruct recovering; cbn [negb when].
    - exists s3. rewrite Z.sub_0_r. done.
    - destruct (bunpin_run me s3 kd j _ _ I3 C3 Hd3) as (s4 & E4 & I4 & H4 & O4 & D4 & N4); [lia|].
      exists s4. split_and!; try done; [by apply (holds_others me s3 s4 kd)|].
      intros k Hn1 Hn2 Hk. by apply (others_same kd). }
  destruct Hpin as (s4 & E4 & I4 & Hs4 & Hd4 & O4 & [D4 W4] & N4).
  destruct (two_releases me s4 ks kd i j _ _ _ _ I4 C2 C3 C4 Hs4 Hd4)
    as (s5 & s6 & E5 & E6 & I6 & Us & Ud & Rs & Rd & Vs & Vd & O6 & D6 & N6).
  { intros Hn. rewrite D4, D3, dread_insert, decide_False, (proj1 D1) by done. apply view_unused; [done|lia]. }
  { intros _. by rewrite D4, D3, dread_insert, decide_True. }
  exists s6. split.
  { unfold install_block. rewrite (run_bind _ _ _ _ _ E0). rewrite Hdev, (run_bind _ _ _ _ _ E1).
    rewrite (run_bind _ _ _ _ _ (data_of_run me _ _ _ _ _ Hs1)), (run_bind _ _ _ _ _ (data_of_run me _ _ _ _ _ Hd1)).
    rewrite (run_bind _ _ _ _ _ E2), (run_bind _ _ _ _ _ E3), (run_bind _ _ _ _ _ E4), (run_bind _ _ _ _ _ E5). done. }
  eapply (copied_intro ks kd _ s s1 s4 s6); try done; try congruence; [by destruct recovering|].
  intros k Hn1 Hn2 Hk. apply (same_block_trans k s1 s3); [by apply O3|by apply O4].
Qed.

Lemma log_block_run (ks kd : Z * Z) s :
  ks.1 = kd.1 → copyable ks kd 0 s →
  ∃ s', log_block ks.1 kd.2 ks.2 s = Done ((), s') ∧ copied ks kd 0 s s'.
Proof.
  intros Hdev C. pose proof C as [C1 C2 C3 C4 C5 C6 C7 C8 C9].
  destruct (two_breads me s kd ks) as (j & s0 & i & s1 & E0 & E1 & I1 & Hd1 & Hs1 & O1 & D1 & N1); try done; [lia|].
  destruct (copy_held me s1 ks kd i j _ _ _ _ I1 C2 C3 C4 Hs1 Hd1)
    as (s2 & s3 & E2 & E3 & I3 & Hs3 & Hd3 & O3 & D3 & W3 & N3).
  destruct (two_releases me s3 ks kd i j _ _ _ _ I3 C2 C3 C4 Hs3 Hd3)
    as (s5 & s6 & E5 & E6 & I6 & Us & Ud & Rs & Rd & Vs & Vd & O6 & D6 & N6).
  { intros Hn. rewrite D3, dread_insert, decide_False, (proj1 D1) by done. apply view_unused; [done|lia]. }
  { intros _. by rewrite D3, dread_insert, decide_True. }
  exists s6. split.
  { unfold log_block. rewrite Hdev, (run_bind _ _ _ _ _ E0), <- Hdev, (run_bind _ _ _ _ _ E1).
    rewrite (run_bind _ _ _ _ _ (data_of_run me _ _ _ _ _ Hd1)), (run_bind _ _ _ _ _ (data_of_run me _ _ _ _ _ Hs1)).
    rewrite (run_bind _ _ _ _ _ E2), (run_bind _ _ _ _ _ E3), (run_bind _ _ _ _ _ E5). done. }
  eapply (copied_intro ks kd 0 s s1 s3 s6); try done; try lia; try congruence.
  - intros k Hn1 Hn2 Hk. by apply O1.
  - by rewrite Z.sub_0_r.
Qed.
End log.

(** ** The header round trip *)

Lemma length_put32 off v l : (off + 4 ≤ length l)%nat → length (put32 off v l) = length l.
Proof. intros H. unfold put32. apply length_blit. by rewrite length_le_encode. Qed.

Lemma le_encode_mod n x : le_encode n x = le_encode n (x mod 2 ^ (8 * Z.of_nat n)).
Proof.
  revert x. induction n as [|n IH]; intros x; [done|]. cbn [le_encode].
  replace (8 * Z.of_nat (S n)) with (8 + 8 * Z.of_nat n) by lia. rewrite Z.pow_add_r by lia. f_equal.
  - rewrite Z.rem_mul_r by lia. by rewrite Z.mul_comm, Z_mod_plus_full, Zmod_mod.
  - rewrite (IH (x / 2 ^ 8)), Z.rem_mul_r by lia. f_equal.
    rewrite (Z.mul_comm (2 ^ 8) (_ mod _)), Z.div_add by lia.
    rewrite (Z.div_small (_ mod 2 ^ 8)) by (apply Z.mod_pos_bound; lia). lia.
Qed.

Lemma get_put32 off v l : (off + 4 ≤ length l)%nat → - 2 ^ 31 ≤ v < 2 ^ 31 → get32 off (put32 off v l) = v.
Proof.
  intros Hl Hv. unfold get32, put32. rewrite (sub_blit_at _ _ _ 4); [|apply length_le_encode|done].
  rewrite le_encode_mod, le_decode_encode by (apply Z.mod_pos_bound; lia).
  unfold s32. rewrite Zmod_mod. by apply s32_id.
Qed.

Lemma get_put32_ne off off' v l :
  (off' + 4 ≤ length l)%nat → (off + 4 ≤ off' ∨ off' + 4 ≤ off)%nat → get32 off (put32 off' v l) = get32 off l.
Proof.
  intros Hl Ho. unfold get32, put32. do 2 f_equal. destruct Ho.
  - apply sub_blit_lt; rewrite ?length_le_encode; lia.
  - apply sub_blit_ge; rewrite length_le_encode; lia.
Qed.

Lemma length_put_blocks bs : ∀ i d, (4 + 4 * (i + length bs) ≤ length d)%nat → length (put_blocks bs i d) = length d.
Proof.
  induction bs as [|b bs IH]; intros i d Hl; cbn [put_blocks]; [done|]. cbn [length] in Hl.
  rewrite IH; rewrite length_put32; lia.
Qed.

Lemma get_put_blocks_lt bs : ∀ i d off,
  (4 + 4 * (i + length bs) ≤ length d)%nat → (off + 4 ≤ 4 + 4 * i)%nat → get32 off (put_blocks bs i d) = get32 off d.
Proof.
  induction bs as [|b bs IH]; intros i d off Hl Ho; cbn [put_blocks]; [done|]. cbn [length] in Hl.
  rewrite IH by (rewrite ?length_put32; lia). apply get_put32_ne; lia.
Qed.

Lemma get_put_blocks bs : ∀ i d j b,
  (4 + 4 * (i + length bs) ≤ length d)%nat → bs !! j = Some b → - 2 ^ 31 ≤ b < 2 ^ 31 →
  get32 (4 + 4 * (i + j)) (put_blocks bs i d) = b.
Proof.
  induction bs as [|a bs IH]; intros i d j b Hl Hj Hb; [done|]. cbn [put_blocks]. cbn [length] in Hl.
  destruct j as [|j]; cbn [lookup list_lookup] in Hj.
  - injection Hj as ->. rewrite Nat.add_0_r, get_put_blocks_lt by (rewrite ?length_put32; lia).
    apply get_put32; [lia|done].
  - replace (i + S j)%nat with (S i + j)%nat by lia. apply IH; [rewrite length_put32; lia|done|done].
Qed.

(** A header as [log_write] keeps it: a count in range and [int] block numbers. *)
Record head_ok (h : logheader) : Prop := {
  ho_n : 0 ≤ lh_n h ≤ LOGBLOCKS;
  ho_len : length (lh_block h) = Z.to_nat LOGBLOCKS;
  ho_int : Forall (λ b, - 2 ^ 31 ≤ b < 2 ^ 31) (lh_block h);
}.

(** The block numbers a header lists. *)
Definition listed (h : logheader) : list Z := take (Z.to_nat (lh_n h)) (lh_block h).

(** The same of a header block on disk. *)
Definition hdr_listed (l : list Z) : list Z := map (λ i, hdr_block l (Z.of_nat i)) (seq 0 (Z.to_nat (hdr_n l))).

Lemma length_listed h : head_ok h → length (listed h) = Z.to_nat (lh_n h).
Proof. intros [H1 H2 _]. unfold listed. rewrite length_take, H2. lia. Qed.

Lemma encode_head_roundtrip h d :
  head_ok h → length d = BSIZE →
  length (encode_head h d) = BSIZE ∧ hdr_n (encode_head h d) = lh_n h ∧
  hdr_listed (encode_head h d) = listed h.
Proof.
  intros Hh Hd. pose proof (length_listed h Hh) as Hl. destruct Hh as [H1 H2 H3].
  assert (HB : BSIZE = 1024%nat) by done. unfold LOGBLOCKS, MAXOPBLOCKS in *.
  assert (Hfit : (4 + 4 * (0 + length (listed h)) ≤ length (put32 0 (lh_n h) d))%nat)
    by (rewrite length_put32; lia).
  assert (Hn : hdr_n (encode_head h d) = lh_n h).
  { unfold hdr_n, encode_head. fold (listed h). rewrite get_put_blocks_lt by (done || lia). apply get_put32; lia. }
  split_and!; [|done|].
  - unfold encode_head. fold (listed h). rewrite length_put_blocks, length_put32 by (done || lia). done.
  - unfold hdr_listed. rewrite Hn. apply list_eq. intros j. rewrite lookup_map.
    destruct (decide (j < Z.to_nat (lh_n h))%nat) as [Hj|Hj].
    + rewrite lookup_seq_lt by done. cbn. destruct (lookup_lt_is_Some_2 (listed h) j) as [b Hb]; [lia|].
      rewrite Hb. f_equal. unfold hdr_block. rewrite Nat2Z.id. unfold encode_head. fold (listed h).
      apply (get_put_blocks (listed h) 0 _ j b); [done|done|].
      unfold listed in Hb. apply lookup_take_Some in Hb as [Hb _]. exact (Forall_lookup_1 _ _ _ _ H3 Hb).
    + rewrite lookup_seq_ge by lia. cbn. symmetry. apply lookup_ge_None_2. lia.
Qed.

(** ** The copying loops *)

Definition apply_writes (ws : list (Z * Z * list Z)) (d : disk) : disk := foldl (λ d w, <[w.1 := w.2]> d) d ws.

Lemma apply_writes_app ws ws' d : apply_writes (ws ++ ws') d = apply_writes ws' (apply_writes ws d).
Proof. apply foldl_app. Qed.

Lemma apply_writes_other ws d k : k ∉ ws.*1 → dread (apply_writes ws d) k = dread d k.
Proof.
  revert d. induction ws as [|w ws IH]; intros d Hk; [done|]. cbn [fmap list_fmap] in Hk.
  apply not_elem_of_cons in Hk as [Hw Hk]. cbn [apply_writes foldl]. fold (apply_writes ws (<[w.1 := w.2]> d)).
  rewrite IH by done. by rewrite dread_insert, decide_False.
Qed.

Lemma apply_writes_at ws d k l : NoDup ws.*1 → (k, l) ∈ ws → dread (apply_writes ws d) k = l.
Proof.
  revert d. induction ws as [|w ws IH]; intros d Hn Hin; [by apply elem_of_nil in Hin|].
  cbn [fmap list_fmap] in Hn. apply NoDup_cons in Hn as [Hw Hn].
  cbn [apply_writes foldl]. fold (apply_writes ws (<[w.1 := w.2]> d)).
  apply elem_of_cons in Hin as [<-|Hin]; [|by apply IH].
  rewrite apply_writes_other by done. cbn [fst snd]. by rewrite dread_insert, decide_True.
Qed.

(** Nothing locked, and no reference count near its limit. *)
Definition calm (s : bio) : Prop := bio_inv s ∧ ∀ k, k.1 ≠ 0 → unlocked s k ∧ refs s k < 2 ^ 31.

Lemma refs_nonneg s k : bio_inv s → 0 ≤ refs s k.
Proof.
  intros Hi. unfold refs. destruct (used s k) as [[i b]|] eqn:Hu; [|done].
  apply used_at in Hu as (Hb & _). destruct (bi_buf _ Hi i b Hb) as (? & _). lia.
Qed.

Lemma calm_copied ks kd pin s s' : copied ks kd pin s s' → 0 ≤ pin → kd.1 ≠ 0 → calm s → calm s'.
Proof.
  intros [C1 C2 C3 C4 C5 _ _ _] Hp Hkd [_ Hc]. split; [done|]. intros k Hk.
  destruct (decide (k = kd)) as [->|Hne].
  - split; [done|]. destruct (Hc kd Hk). lia.
  - destruct (C2 k Hne Hk) as (Hr & _ & Hu), (Hc k Hk) as [Hu0 Hr0]. split; [by apply Hu|lia].
Qed.

Lemma need_same k s s' : same_block k s s' → need s' k = need s k.
Proof. intros (Hr & _). unfold need. by rewrite Hr. Qed.

Section copy_loop.
Context (pin : Z) (body : Z → M lsys ()) (l : log).

(** A pair: source and destination of one round. *)
Record pairs_ok (ps : list ((Z * Z) * (Z * Z))) (s : bio) : Prop := {
  po_real : ∀ p, p ∈ ps → p.1.1 ≠ 0 ∧ p.2.1 ≠ 0;
  po_refs : ∀ p, p ∈ ps → pin ≤ refs s p.2;
  po_need : ∀ p, p ∈ ps → (need s p.1 + need s p.2 ≤ nfree s)%nat;
  po_nodup : NoDup ps.*2;
  po_apart : ∀ p q, p ∈ ps → q ∈ ps → p.1 ≠ q.2;
}.

Record loop_done (ps : list ((Z * Z) * (Z * Z))) (s s' : bio) : Prop := {
  ld_calm : calm s';
  ld_view : ∀ p, p ∈ ps → view s' p.2 = view s p.1;
  ld_refs : ∀ p, p ∈ ps → refs s' p.2 = refs s p.2 - pin;
  ld_same : ∀ k, k ∉ ps.*2 → k.1 ≠ 0 → same_block k s s';
  ld_disk : bdisk s' = apply_writes (map (λ p, (p.2, view s p.1)) ps) (bdisk s);
  ld_writes : bwrites s' = bwrites s ++ map (λ p, (p.2, view s p.1)) ps;
  ld_free : (nfree s ≤ nfree s')%nat;
}.

Lemma pairs_ok_step p ps s s' :
  copied p.1 p.2 pin s s' → pairs_ok (p :: ps) s → pairs_ok ps s'.
Proof.
  intros C [P1 P2 P3 P4 P5]. cbn [fmap list_fmap] in P4. apply NoDup_cons in P4 as [Hp P4].
  assert (Hne : ∀ q, q ∈ ps → q.1 ≠ p.2 ∧ q.2 ≠ p.2).
  { intros q Hq. split; [apply P5; [by right|left]|]. intros He. apply Hp. rewrite <- He.
    apply list_elem_of_fmap. by exists q. }
  split; try done.
  - intros q Hq. apply P1. by right.
  - intros q Hq. destruct (cp_same _ _ _ _ _ C q.2) as (-> & _).
    + by apply Hne. + apply P1. by right. + apply P2. by right.
  - intros q Hq. destruct (Hne q Hq) as [N1 N2]. destruct (P1 q) as [Q1 Q2]; [by right|].
    rewrite (need_same q.1 s s'), (need_same q.2 s s') by (by apply (cp_same _ _ _ _ _ C)).
    rewrite (cp_free _ _ _ _ _ C). pose proof (P3 q ltac:(by right)). lia.
  - intros q r Hq Hr. apply P5; by right.
Qed.

Lemma copy_loop ps : 0 ≤ pin → ∀ j s,
  (∀ i p s, ps !! i = Some p → llog s = l → copyable p.1 p.2 pin (lbio s) →
     ∃ s', body (j + Z.of_nat i) s = Done ((), s') ∧ copied p.1 p.2 pin (lbio s) (lbio s') ∧ llog s' = l) →
  llog s = l → calm (lbio s) → pairs_ok ps (lbio s) →
  ∃ s', for_ (length ps) j body s = Done ((), s') ∧ loop_done ps (lbio s) (lbio s') ∧ llog s' = l.
Proof.
  intros Hpin. induction ps as [|p ps IH]; intros j s Hbody Hl Hc Hp; cbn [length for_].
  { exists s. split_and!; try done. split; try done; [by intros p ?%elem_of_nil..|by rewrite app_nil_r]. }
  assert (Hcp : copyable p.1 p.2 pin (lbio s)).
  { pose proof Hp as [P1 P2 P3 P4 P5]. destruct Hc as [Hi Hc]. assert (Hin : p ∈ p :: ps) by left.
    destruct (P1 p Hin) as [R1 R2], (Hc p.1 R1) as [U1 C1], (Hc p.2 R2) as [U2 C2].
    pose proof (refs_nonneg (lbio s) p.1 Hi). pose proof (P2 p Hin).
    split; try done; try lia; [by apply P5|by apply P3]. }
  destruct (Hbody 0%nat p s eq_refl Hl Hcp) as (s1 & E1 & C1 & L1). rewrite Z.add_0_r in E1.
  assert (Hp1 : pairs_ok ps (lbio s1)) by (by eapply pairs_ok_step).
  destruct (IH (j + 1) s1) as (s2 & E2 & [D1 D2 D3 D4 D5 D6 D7] & L2); try done.
  { intros i q t Hq. replace (j + 1 + Z.of_nat i) with (j + Z.of_nat (S i)) by lia. by apply (Hbody (S i)). }
  { apply (calm_copied _ _ _ _ _ C1); [done|apply (ca_dst _ _ _ _ Hcp)|done]. }
  exists s2. split; [by rewrite (run_bind _ _ _ _ _ E1)|]. split; [|done].
  pose proof Hp as [P1 P2 P3 P4 P5]. cbn [fmap list_fmap] in P4. apply NoDup_cons in P4 as [Hpn P4].
  pose proof (ca_dst _ _ _ _ Hcp) as Hdst.
  assert (Hlast : same_block p.2 (lbio s1) (lbio s2)) by (by apply D4).
  assert (Hsrc : ∀ q, q ∈ ps → view (lbio s1) q.1 = view (lbio s) q.1 ∧ refs (lbio s1) q.2 = refs (lbio s) q.2).
  { intros q Hq. split.
    - apply (cp_same _ _ _ _ _ C1); [apply P5; [by right|left]|apply P1; by right].
    - apply (cp_same _ _ _ _ _ C1); [|apply P1; by right]. intros He. apply Hpn. rewrite <- He.
      apply list_elem_of_fmap. by exists q. }
  assert (Hws : map (λ q, (q.2, view (lbio s1) q.1)) ps = map (λ q, (q.2, view (lbio s) q.1)) ps).
  { apply map_ext_in. intros q Hq%list_elem_of_In. by destruct (Hsrc q Hq) as [-> _]. }
  split; try done.
  - intros q [->|Hq]%elem_of_cons; [|rewrite D2 by done; by apply Hsrc].
    destruct Hlast as (_ & -> & _). apply (cp_view _ _ _ _ _ C1).
  - intros q [->|Hq]%elem_of_cons; [|rewrite D3 by done; by destruct (Hsrc q Hq) as [_ ->]].
    destruct Hlast as (-> & _). apply (cp_refs _ _ _ _ _ C1).
  - intros k Hk Hk1. cbn [fmap list_fmap] in Hk. apply not_elem_of_cons in Hk as [Hkp Hk].
    apply (same_block_trans k (lbio s) (lbio s1)); [by apply (cp_same _ _ _ _ _ C1)|by apply D4].
  - rewrite D5, Hws, (cp_disk _ _ _ _ _ C1). done.
  - rewrite D6, Hws, (cp_writes _ _ _ _ _ C1), <- app_assoc. done.
  - rewrite (cp_free _ _ _ _ _ C1) in D7. lia.
Qed.
End copy_loop.

(** ** The four parts of a commit *)

Lemma run_on_bio {A} (m : M bio A) s a b : m (lbio s) = Done (a, b) → on_bio m s = Done (a, set_lbio b s).
Proof. apply run_zoom. Qed.

Lemma run_slot i s b : lh_block (lh (llog s)) !! Z.to_nat i = Some b → slot i s = Done (b, s).
Proof. intros Hb. unfold slot. erewrite run_bind by reflexivity. by rewrite Hb. Qed.

Section commit.
Context (me dev start : Z).
Hypothesis (Hdev : 0 < dev < 2 ^ 31).
Hypothesis (Hstart : 0 ≤ start < 2 ^ 30).

(** The header, the log blocks, the home blocks. *)
Definition hdr : Z * Z := (dev, start).
Definition lk (j : Z) : Z * Z := (dev, start + 1 + j).
Definition hk (b : Z) : Z * Z := (dev, b).
Definition in_log (k : Z * Z) : Prop := k.1 = dev ∧ start ≤ k.2 ≤ start + LOGBLOCKS.
Definition home (b : Z) : Prop := 0 ≤ b < 2 ^ 31 ∧ ¬ in_log (hk b).

(** [struct log] is that of this layout, and lists distinct home blocks. *)
Record log_ok (l : log) : Prop := {
  lo_dev : log_dev l = dev;
  lo_start : log_start l = start;
  lo_head : head_ok (lh l);
  lo_home : Forall home (listed (lh l));
  lo_nodup : NoDup (listed (lh l));
}.

(** Log block and home block of each entry. *)
Definition entries (bs : list Z) : list ((Z * Z) * (Z * Z)) := imap (λ i b, (lk (Z.of_nat i), hk b)) bs.
Definition swap (p : (Z * Z) * (Z * Z)) : (Z * Z) * (Z * Z) := (p.2, p.1).

Lemma entries_lookup bs i b : bs !! i = Some b → entries bs !! i = Some (lk (Z.of_nat i), hk b).
Proof. intros Hb. unfold entries. by rewrite list_lookup_imap, Hb. Qed.

Lemma elem_of_entries bs p :
  p ∈ entries bs ↔ ∃ i b, bs !! i = Some b ∧ p = (lk (Z.of_nat i), hk b).
Proof.
  split.
  - intros [i Hi]%list_elem_of_lookup_1. unfold entries in Hi. rewrite list_lookup_imap in Hi.
    apply fmap_Some in Hi as (b & Hb & ->). by exists i, b.
  - intros (i & b & Hb & ->). eapply list_elem_of_lookup_2. by apply entries_lookup.
Qed.

Lemma entries_homes bs : (entries bs).*2 = map hk bs.
Proof.
  apply list_eq. intros i. rewrite list_lookup_fmap. unfold entries. rewrite list_lookup_imap, lookup_map.
  by destruct (bs !! i).
Qed.

Lemma entries_logs bs : (entries bs).*1 = map (λ i, lk (Z.of_nat i)) (seq 0 (length bs)).
Proof.
  apply list_eq. intros i. rewrite list_lookup_fmap. unfold entries. rewrite list_lookup_imap, lookup_map.
  destruct (bs !! i) eqn:Hb; cbn.
  - rewrite lookup_seq_lt; [done|by eapply lookup_lt_Some].
  - rewrite lookup_seq_ge; [done|by apply lookup_ge_None_1].
Qed.

Lemma NoDup_homes bs : NoDup bs → NoDup (map hk bs).
Proof. intros Hn. apply NoDup_ListNoDup, Finite.Injective_map_NoDup; [|by apply NoDup_ListNoDup]. by intros x y [= ->]. Qed.

Lemma NoDup_logs n : NoDup (map (λ i, lk (Z.of_nat i)) (seq 0 n)).
Proof.
  apply NoDup_ListNoDup, Finite.Injective_map_NoDup; [|apply seq_NoDup]. intros i j [= He]. lia.
Qed.

Lemma length_entries bs : length (entries bs) = length bs.
Proof. apply length_imap. Qed.

Lemma lk_in_log j : 0 ≤ j < LOGBLOCKS → in_log (lk j).
Proof. intros Hj. split; [done|]. cbn [lk snd]. lia. Qed.

Lemma hdr_in_log : in_log hdr.
Proof. split; [done|]. cbn [hdr snd]. unfold LOGBLOCKS, MAXOPBLOCKS. lia. Qed.

Lemma lk_hdr j : 0 ≤ j → lk j ≠ hdr.
Proof. intros Hj [= He]. lia. Qed.

Lemma hk_not_log b j : home b → 0 ≤ j < LOGBLOCKS → lk j ≠ hk b.
Proof. intros [_ Hb] Hj He. apply Hb. rewrite <- He. by apply lk_in_log. Qed.

Lemma u32_dev : u32 dev = dev. Proof. apply u32_id. unfold is_u32. lia. Qed.
Lemma u32_start : u32 start = start. Proof. apply u32_id. unfold is_u32. lia. Qed.
Lemma u32_log j : 0 ≤ j < LOGBLOCKS → u32 (start + j + 1) = (lk j).2.
Proof. unfold LOGBLOCKS, MAXOPBLOCKS. intros Hj. cbn [lk snd]. rewrite u32_id; [lia|]. unfold is_u32. lia. Qed.
Lemma u32_home b : home b → u32 b = b. Proof. intros [Hb _]. apply u32_id. unfold is_u32. lia. Qed.

Lemma listed_lookup h i b :
  listed h !! i = Some b → head_ok h → lh_block h !! i = Some b ∧ (i < Z.to_nat LOGBLOCKS)%nat.
Proof.
  unfold listed. intros [Hb Hi]%lookup_take_Some [H1 _ _]. split; [done|]. lia.
Qed.

Lemma entries_apart bs : (length bs ≤ Z.to_nat LOGBLOCKS)%nat → Forall home bs →
  ∀ p q, p ∈ entries bs → q ∈ entries bs → p.1 ≠ q.2.
Proof.
  intros Hl Hh p q (i & b & Hb & ->)%elem_of_entries (j & c & Hc & ->)%elem_of_entries.
  cbn [fst snd]. apply hk_not_log; [exact (Forall_lookup_1 _ _ _ _ Hh Hc)|].
  apply lookup_lt_Some in Hb. lia.
Qed.

(** [write_log] copies every listed block to its log block. *)
Lemma write_log_run s :
  calm (lbio s) → log_ok (llog s) → (1 ≤ nfree (lbio s))%nat →
  (∀ b, b ∈ listed (lh (llog s)) → 1 ≤ refs (lbio s) (hk b)) →
  ∃ s', write_log me s = Done ((), s') ∧
    loop_done 0 (map swap (entries (listed (lh (llog s))))) (lbio s) (lbio s') ∧ llog s' = llog s.
Proof.
  intros Hc [L1 L2 L3 L4 L5] Hf Hr. set (l := llog s) in *. set (bs := listed (lh l)) in *.
  pose proof (length_listed _ L3) as Hlen. fold bs in Hlen.
  assert (Hle : (length bs ≤ Z.to_nat LOGBLOCKS)%nat) by (destruct L3; lia).
  unfold write_log. erewrite run_bind by reflexivity. fold l.
  rewrite <- Hlen, <- (length_entries bs), <- (length_map swap).
  apply (copy_loop 0 _ l); [done| |done|done|].
  - intros i p t Hp Ht Hcp. rewrite lookup_map in Hp. apply fmap_Some in Hp as (q & Hq & ->).
    unfold entries in Hq. rewrite list_lookup_imap in Hq. apply fmap_Some in Hq as (b & Hb & ->).
    cbn [swap fst snd] in *. destruct (listed_lookup _ _ _ Hb L3) as [Hs Hi].
    destruct (log_block_run me (hk b) (lk (Z.of_nat i)) (lbio t) eq_refl Hcp) as (t' & E & C).
    exists (set_lbio t' t). split; [|done]. rewrite Z.add_0_l.
    rewrite (run_bind _ _ _ _ _ (run_slot _ _ b ltac:(by rewrite Ht, Nat2Z.id))).
    rewrite L1, L2, u32_dev, u32_log, u32_home by (lia || exact (Forall_lookup_1 _ _ _ _ L4 Hb)).
    by apply run_on_bio.
  - assert (Hel : ∀ p, p ∈ map swap (entries bs) → ∃ q, q ∈ entries bs ∧ p = swap q).
    { intros p Hp. apply list_elem_of_In, in_map_iff in Hp as (q & <- & Hq%list_elem_of_In). by exists q. }
    split.
    + intros p (q & (i & b & Hb & ->)%elem_of_entries & ->)%Hel. cbn. lia.
    + intros p _. apply refs_nonneg, Hc.
    + intros p (q & (i & b & Hb & ->)%elem_of_entries & ->)%Hel. cbn [swap fst snd]. unfold need.
      specialize (Hr b ltac:(by eapply list_elem_of_lookup_2)). rewrite (proj2 (Z.eqb_neq (refs _ (hk b)) 0)) by lia.
      destruct (_ =? 0); lia.
    + replace ((map swap (entries bs)).*2) with ((entries bs).*1); [rewrite entries_logs; apply NoDup_logs|].
      rewrite <- list_fmap_compose. done.
    + intros p q (p' & Hp & ->)%Hel (q' & Hq & ->)%Hel. cbn [swap fst snd]. apply not_eq_sym. by apply (entries_apart bs).
Qed.

(** [install_trans] copies every log block to its home. *)
Lemma install_trans_run (recovering : bool) s :
  calm (lbio s) → log_ok (llog s) → (1 ≤ nfree (lbio s))%nat →
  (if recovering then 2 ≤ nfree (lbio s)
   else ∀ b, b ∈ listed (lh (llog s)) → (1 ≤ refs (lbio s) (hk b))%Z)%nat →
  ∃ s', install_trans me recovering s = Done ((), s') ∧
    loop_done (if recovering then 0 else 1) (entries (listed (lh (llog s)))) (lbio s) (lbio s') ∧ llog s' = llog s.
Proof.
  intros Hc [L1 L2 L3 L4 L5] Hf Hr. set (l := llog s) in *. set (bs := listed (lh l)) in *.
  pose proof (length_listed _ L3) as Hlen. fold bs in Hlen.
  assert (Hle : (length bs ≤ Z.to_nat LOGBLOCKS)%nat) by (destruct L3; lia).
  unfold install_trans. erewrite run_bind by reflexivity. fold l. rewrite <- Hlen, <- (length_entries bs).
  apply (copy_loop _ _ l); [by destruct recovering| |done|done|].
  - intros i p t Hp Ht Hcp. unfold entries in Hp. rewrite list_lookup_imap in Hp.
    apply fmap_Some in Hp as (b & Hb & ->). cbn [fst snd] in *.
    destruct (listed_lookup _ _ _ Hb L3) as [Hs Hi].
    destruct (install_block_run me recovering (lk (Z.of_nat i)) (hk b) (lbio t) eq_refl Hcp) as (t' & E & C).
    rewrite Z.add_0_l. rewrite (run_bind _ _ _ _ _ (run_slot _ _ b ltac:(by rewrite Ht, Nat2Z.id))).
    rewrite L1, L2, u32_dev, u32_log, u32_home by (lia || exact (Forall_lookup_1 _ _ _ _ L4 Hb)).
    destruct recovering; cbn [when].
    + eexists (set_lbio t' _). split; [erewrite run_bind by reflexivity; by apply run_on_bio|]. done.
    + exists (set_lbio t' t). split; [erewrite run_bind by reflexivity; by apply run_on_bio|]. done.
  - split.
    + intros p (i & b & Hb & ->)%elem_of_entries. cbn. lia.
    + intros p (i & b & Hb & ->)%elem_of_entries. destruct recovering; [apply refs_nonneg, Hc|].
      apply Hr. by eapply list_elem_of_lookup_2.
    + intros p (i & b & Hb & ->)%elem_of_entries. cbn [fst snd]. unfold need. destruct recovering.
      * destruct (_ =? 0), (_ =? 0); lia.
      * specialize (Hr b ltac:(by eapply list_elem_of_lookup_2)).
        rewrite (proj2 (Z.eqb_neq (refs _ (hk b)) 0)) by lia. destruct (_ =? 0); lia.
    + rewrite entries_homes. by apply NoDup_homes.
    + by apply entries_apart.
Qed.

(** [write_head] puts the in-memory header on the disk, and changes nothing else. *)
Lemma write_head_run s :
  calm (lbio s) → log_dev (llog s) = dev → log_start (llog s) = start → head_ok (lh (llog s)) →
  (1 ≤ nfree (lbio s))%nat →
  ∃ s', write_head me s = Done ((), s') ∧ calm (lbio s') ∧ llog s' = llog s ∧
    (∀ k, k ≠ hdr → k.1 ≠ 0 → same_block k (lbio s) (lbio s')) ∧ refs (lbio s') hdr = refs (lbio s) hdr ∧
    nfree (lbio s') = nfree (lbio s) ∧
    ∃ h, length h = BSIZE ∧ hdr_n h = lh_n (lh (llog s)) ∧ hdr_listed h = listed (lh (llog s)) ∧
      bdisk (lbio s') = <[hdr := h]> (bdisk (lbio s)) ∧ bwrites (lbio s') = bwrites (lbio s) ++ [(hdr, h)].
Proof.
  intros [Hi Hc] L1 L2 L3 Hf. destruct (Hc hdr) as [Hu Hr]; [cbn; lia|].
  assert (Hd : hdr.1 ≠ 0) by (cbn; lia).
  destruct (encode_head_roundtrip (lh (llog s)) (view (lbio s) hdr) L3 (length_view _ _ Hi)) as (R1 & R2 & R3).
  destruct (write_use me (lbio s) hdr (encode_head (lh (llog s))) Hi Hd Hu) as (b & E & I & S & U & R & V & D & W & N); try done.
  { lia. }
  { by right. }
  exists (set_lbio b s). split.
  { unfold write_head. erewrite run_bind by reflexivity.
    rewrite (proj2 (Z.ltb_ge LOGBLOCKS _)) by (destruct L3; lia). rewrite L1, L2, u32_dev, u32_start.
    by apply run_on_bio. }
  split_and!; try done.
  - change (calm b). split; [done|]. intros k Hk. destruct (decide (k = hdr)) as [->|Hne]; [split; [done|lia]|].
    destruct (S k Hne Hk) as (Hrk & _ & Huk), (Hc k Hk) as [Hu0 Hr0]. split; [by apply Huk|lia].
  - by exists (encode_head (lh (llog s)) (view (lbio s) hdr)).
Qed.
(** *** The disk after a crash *)

(** What recovery makes of a disk: the block of the log for the blocks its header lists. *)
Definition recovered (d : disk) (k : Z * Z) : list Z :=
  match find_index (λ b, bool_decide (hk b = k)) (hdr_listed (dread d hdr)) with
  | Some i => dread d (lk (Z.of_nat i))
  | None => dread d k
  end.

Record disk_ok (d : disk) : Prop := {
  do_len : ∀ k, length (dread d k) = BSIZE;
  do_n : 0 ≤ hdr_n (dread d hdr) ≤ LOGBLOCKS;
  do_home : Forall home (hdr_listed (dread d hdr));
  do_nodup : NoDup (hdr_listed (dread d hdr));
}.

Lemma hdr_listed_0 l : hdr_n l = 0 → hdr_listed l = [].
Proof. unfold hdr_listed. by intros ->. Qed.

Lemma length_hdr_listed l : length (hdr_listed l) = Z.to_nat (hdr_n l).
Proof. unfold hdr_listed. by rewrite length_map, length_seq. Qed.

Lemma recovered_listed d i b :
  NoDup (hdr_listed (dread d hdr)) → hdr_listed (dread d hdr) !! i = Some b →
  recovered d (hk b) = dread d (lk (Z.of_nat i)).
Proof.
  intros Hn Hb. unfold recovered.
  destruct (find_index_is_Some (λ c, bool_decide (hk c = hk b)) _ _ _ Hb) as [j Hj];
    [by apply bool_decide_eq_true_2|].
  rewrite Hj. apply find_index_Some in Hj as (c & Hc & He%bool_decide_eq_true & _). injection He as ->.
  do 3 f_equal. by eapply NoDup_lookup.
Qed.

Lemma recovered_other d k : k ∉ map hk (hdr_listed (dread d hdr)) → recovered d k = dread d k.
Proof.
  intros Hk. unfold recovered. destruct (find_index _ _) as [i|] eqn:Hf; [|done].
  apply find_index_Some in Hf as (b & Hb & He%bool_decide_eq_true & _). destruct Hk.
  apply list_elem_of_In, in_map_iff. exists b. split; [done|]. apply list_elem_of_In. by eapply list_elem_of_lookup_2.
Qed.

Lemma apply_writes_len ws d :
  (∀ k, length (dread d k) = BSIZE) → Forall (λ w, length w.2 = BSIZE) ws →
  ∀ k, length (dread (apply_writes ws d) k) = BSIZE.
Proof.
  intros Hd Hw. revert d Hd. induction Hw as [|w ws Hw _ IH]; intros d Hd k; [done|].
  cbn [apply_writes foldl]. apply (IH (<[w.1 := w.2]> d)). intros k'. rewrite dread_insert.
  by destruct (decide (k' = w.1)).
Qed.

(** The writes of an installation, then the cleared header [h0]. *)
Definition home_writes (v : Z * Z → list Z) (bs : list Z) : list (Z * Z * list Z) :=
  map (λ p, (p.2, v p.1)) (entries bs).

Lemma home_writes_keys v bs : (home_writes v bs).*1 = map hk bs.
Proof. unfold home_writes. rewrite <- list_fmap_compose. apply entries_homes. Qed.

Lemma elem_of_home_writes v bs i b : bs !! i = Some b → (hk b, v (lk (Z.of_nat i))) ∈ home_writes v bs.
Proof.
  intros Hb. apply list_elem_of_In, in_map_iff. exists (lk (Z.of_nat i), hk b). split; [done|].
  apply list_elem_of_In, elem_of_entries. by exists i, b.
Qed.

Lemma home_writes_lookup v bs w : w ∈ home_writes v bs →
  ∃ i b, bs !! i = Some b ∧ w = (hk b, v (lk (Z.of_nat i))).
Proof.
  intros Hw. apply list_elem_of_In, in_map_iff in Hw as (p & <- & Hp%list_elem_of_In).
  apply elem_of_entries in Hp as (i & b & Hb & ->). by exists i, b.
Qed.

Lemma elem_of_take_sub {A} (x : A) n l : x ∈ take n l → x ∈ l.
Proof. intros [i Hi]%list_elem_of_lookup_1. apply lookup_take_Some in Hi as [Hi _]. by eapply list_elem_of_lookup_2. Qed.

(** No prefix of an installation changes what recovery gives. *)
Lemma recovered_prefix d h0 j :
  disk_ok d → length h0 = BSIZE → hdr_n h0 = 0 →
  let bs := hdr_listed (dread d hdr) in
  let d' := apply_writes (take j (home_writes (dread d) bs ++ [(hdr, h0)])) d in
  disk_ok d' ∧ ∀ k, ¬ in_log k → recovered d' k = recovered d k.
Proof.
  intros [D1 D2 D3 D4] Hh0 Hn0 bs d'. set (hw := home_writes (dread d) bs) in *.
  assert (Hlen : ∀ k, length (dread d' k) = BSIZE).
  { apply apply_writes_len; [done|]. apply Forall_forall. intros w Hw%elem_of_take_sub.
    apply elem_of_app in Hw as [(i & b & _ & ->)%home_writes_lookup|Hw]; [apply D1|].
    apply list_elem_of_singleton in Hw as ->. done. }
  assert (Hbs : (length bs ≤ Z.to_nat LOGBLOCKS)%nat) by (unfold bs; rewrite length_hdr_listed; lia).
  assert (Hkeys : ∀ k, k ∈ hw.*1 → ∃ b, home b ∧ k = hk b).
  { intros k. unfold hw. rewrite home_writes_keys. intros (b & <- & Hb)%list_elem_of_In%in_map_iff.
    exists b. split; [|done]. apply list_elem_of_In in Hb. rewrite Forall_forall in D3. by apply D3. }
  assert (Hlog : ∀ k, in_log k → k ∉ hw.*1).
  { intros k Hk (b & [_ Hb] & ->)%Hkeys. done. }
  destruct (decide (j ≤ length hw)%nat) as [Hj|Hj].
  - assert (Hd' : d' = apply_writes (take j hw) d) by (unfold d'; by rewrite take_app_le).
    assert (Hnlog : ∀ k, in_log k → dread d' k = dread d k).
    { intros k Hk. rewrite Hd'. apply apply_writes_other. intros Hin. apply (Hlog k Hk).
      rewrite fmap_take in Hin. by apply elem_of_take_sub in Hin. }
    rewrite <- (Hnlog hdr hdr_in_log) in D2, D3, D4. split; [done|]. intros k Hk.
    assert (Hhdr : hdr_listed (dread d' hdr) = bs) by (by rewrite (Hnlog hdr hdr_in_log)).
    destruct (decide (k ∈ map hk bs)) as [(b & <- & Hb)%list_elem_of_In%in_map_iff|Hk'].
    + apply list_elem_of_In, list_elem_of_lookup_1 in Hb as [i Hb].
      assert (Hil := lookup_lt_Some _ _ _ Hb).
      rewrite (recovered_listed d' i b), (recovered_listed d i b) by (done || by rewrite ?Hhdr; rewrite (Hnlog hdr hdr_in_log) in D4).
      apply Hnlog. apply lk_in_log. lia.
    + rewrite !recovered_other by (by rewrite ?Hhdr). rewrite Hd'. apply apply_writes_other.
      intros Hin. apply Hk'. rewrite fmap_take in Hin. apply elem_of_take_sub in Hin.
      unfold hw in Hin. by rewrite home_writes_keys in Hin.
  - assert (Hd' : d' = <[hdr := h0]> (apply_writes hw d)).
    { unfold d'. rewrite take_ge by (rewrite length_app; cbn; lia). by rewrite apply_writes_app. }
    assert (Hhdr : dread d' hdr = h0) by (by rewrite Hd', dread_insert, decide_True).
    split.
    + split; rewrite ?Hhdr; [done|unfold LOGBLOCKS, MAXOPBLOCKS; lia|..]; rewrite hdr_listed_0 by done; constructor.
    + intros k Hk. rewrite recovered_other by (rewrite Hhdr, hdr_listed_0 by done; cbn; by intros ?%elem_of_nil).
      rewrite Hd', dread_insert, decide_False by (intros ->; by apply Hk, hdr_in_log).
      destruct (decide (k ∈ map hk bs)) as [(b & <- & Hb)%list_elem_of_In%in_map_iff|Hk'].
      * apply list_elem_of_In, list_elem_of_lookup_1 in Hb as [i Hb]. rewrite (recovered_listed d i b) by done.
        apply apply_writes_at; [unfold hw; rewrite home_writes_keys; by apply NoDup_homes|].
        by apply (elem_of_home_writes (dread d)).
      * rewrite recovered_other by done. apply apply_writes_other. unfold hw. by rewrite home_writes_keys.
Qed.
(** *** A whole commit *)

(** The log is ready to commit: what it lists is pinned and a buffer is left. *)
Record committable (s : lsys) : Prop := {
  cm_calm : calm (lbio s);
  cm_log : log_ok (llog s);
  cm_free : (1 ≤ nfree (lbio s))%nat;
  cm_pinned : ∀ b, b ∈ listed (lh (llog s)) → 1 ≤ refs (lbio s) (hk b);
}.

(** The blocks [write_log] writes. *)
Definition log_writes (v : Z * Z → list Z) (bs : list Z) : list (Z * Z * list Z) :=
  map (λ p, (p.1, v p.2)) (entries bs).

Lemma log_writes_keys v bs : (log_writes v bs).*1 = (entries bs).*1.
Proof. unfold log_writes. by rewrite <- list_fmap_compose. Qed.

Lemma log_writes_in_log v bs k :
  (length bs ≤ Z.to_nat LOGBLOCKS)%nat → k ∈ (log_writes v bs).*1 → in_log k ∧ k ≠ hdr.
Proof.
  intros Hl. rewrite log_writes_keys, entries_logs.
  intros (i & <- & Hi%in_seq)%list_elem_of_In%in_map_iff. split; [apply lk_in_log; lia|apply lk_hdr; lia].
Qed.

Lemma log_ok_set_n0 l : log_ok l → log_ok (set_n 0 l).
Proof.
  intros [L1 L2 [H1 H2 H3] L4 L5]. split; try done. constructor.
Qed.

Lemma home_same bs b s s' :
  (length bs ≤ Z.to_nat LOGBLOCKS)%nat → home b → loop_done 0 (map swap (entries bs)) s s' → same_block (hk b) s s'.
Proof.
  intros Hl Hb Hd. apply (ld_same _ _ _ _ Hd); [|cbn; lia]. intros Hin.
  replace ((map swap (entries bs)).*2) with ((entries bs).*1) in Hin by (rewrite <- list_fmap_compose; done).
  rewrite entries_logs in Hin. apply list_elem_of_In, in_map_iff in Hin as (i & He & Hi%in_seq).
  by apply (hk_not_log b (Z.of_nat i) Hb); [lia|].
Qed.

(** What the parts of a commit leave of the references to a block it does not list. *)
Lemma commit_refs_other s s1 s2 s3 s5 bs k :
  loop_done 0 (map swap (entries bs)) (lbio s) (lbio s1) →
  (∀ k, k ≠ hdr → k.1 ≠ 0 → same_block k (lbio s1) (lbio s2)) → refs (lbio s2) hdr = refs (lbio s1) hdr →
  loop_done 1 (entries bs) (lbio s2) (lbio s3) →
  (∀ k, k ≠ hdr → k.1 ≠ 0 → same_block k (lbio s3) (lbio s5)) → refs (lbio s5) hdr = refs (lbio s3) hdr →
  k ∉ map hk bs → k.1 ≠ 0 → refs (lbio s5) k = refs (lbio s) k.
Proof.
  intros D1 S2 R2 D3 S5 R5 Hk Hk1.
  assert (H53 : refs (lbio s5) k = refs (lbio s3) k).
  { destruct (decide (k = hdr)) as [->|Hne]; [done|]. by destruct (S5 k Hne Hk1). }
  assert (H21 : refs (lbio s2) k = refs (lbio s1) k).
  { destruct (decide (k = hdr)) as [->|Hne]; [done|]. by destruct (S2 k Hne Hk1). }
  rewrite H53. destruct (ld_same _ _ _ _ D3 k) as (-> & _); [by rewrite entries_homes|done|]. rewrite H21.
  destruct (decide (k ∈ (map swap (entries bs)).*2)) as [Hin|Hin].
  - apply list_elem_of_fmap in Hin as (p & -> & Hp). rewrite (ld_refs _ _ _ _ D1 p Hp). lia.
  - by destruct (ld_same _ _ _ _ D1 k Hin Hk1) as (-> & _).
Qed.

(** [commit] returns; the disk gets the log, the header, the homes and the cleared
    header, in that order. *)
Lemma commit_run s :
  committable s → 0 < lh_n (lh (llog s)) →
  let bs := listed (lh (llog s)) in
  let v := view (lbio s) in
  ∃ s' h1 h0, commit me s = Done ((), s') ∧ calm (lbio s') ∧ llog s' = set_n 0 (llog s) ∧
    length h1 = BSIZE ∧ hdr_n h1 = lh_n (lh (llog s)) ∧ hdr_listed h1 = bs ∧
    length h0 = BSIZE ∧ hdr_n h0 = 0 ∧
    (∀ k, ¬ in_log k → k.1 ≠ 0 → view (lbio s') k = v k) ∧
    (∀ b, b ∈ bs → refs (lbio s') (hk b) = refs (lbio s) (hk b) - 1) ∧
    (∀ k, k ∉ map hk bs → k.1 ≠ 0 → refs (lbio s') k = refs (lbio s) k) ∧
    let ws := log_writes v bs ++ (hdr, h1) :: map (λ b, (hk b, v (hk b))) bs ++ [(hdr, h0)] in
    bwrites (lbio s') = bwrites (lbio s) ++ ws ∧ bdisk (lbio s') = apply_writes ws (bdisk (lbio s)).
Proof.
  intros [Hc HL Hf Hp] Hn bs v. pose proof HL as [L1 L2 L3 L4 L5].
  assert (Hlen : (length bs ≤ Z.to_nat LOGBLOCKS)%nat) by (unfold bs; rewrite length_listed by done; destruct L3; lia).
  destruct (write_log_run s Hc HL Hf Hp) as (s1 & E1 & D1 & G1). fold bs in D1.
  assert (Hh1 : ∀ b, b ∈ bs → same_block (hk b) (lbio s) (lbio s1)).
  { intros b Hb. apply (home_same bs); [done| |done]. rewrite Forall_forall in L4. by apply L4. }
  pose proof (ld_free _ _ _ _ D1) as F1.
  destruct (write_head_run s1) as (s2 & E2 & C2 & G2 & S2 & Rh2 & F2 & h1 & Q1 & Q2 & Q3 & D2 & W2);
    rewrite ?G1; try done; [apply (ld_calm _ _ _ _ D1)|lia|].
  rewrite G1 in *. fold bs in Q3.
  assert (Hne : ∀ b, b ∈ bs → hk b ≠ hdr).
  { intros b Hb He. rewrite Forall_forall in L4. destruct (L4 b Hb) as [_ Hnl]. apply Hnl. rewrite He. by apply hdr_in_log. }
  assert (Hd0 : ∀ b, (hk b).1 ≠ 0) by (intros b; cbn; lia).
  destruct (install_trans_run false s2) as (s3 & E3 & D3 & G3); rewrite ?G2; try done; [lia| |].
  { intros b Hb. destruct (S2 (hk b)) as (-> & _); [by apply Hne|done|]. destruct (Hh1 b Hb) as (-> & _). by apply Hp. }
  rewrite G2 in *. fold bs in D3. set (s4 := set_llog (set_n 0 (llog s3)) s3).
  assert (Hl4 : log_ok (llog s4)) by (cbn; rewrite G3; by apply log_ok_set_n0).
  destruct (write_head_run s4) as (s5 & E5 & C5 & G5 & S5 & Rh5 & F5 & h0 & R1 & R2 & R3 & D5 & W5);
    [apply (ld_calm _ _ _ _ D3)|by destruct Hl4..|cbn; pose proof (ld_free _ _ _ _ D3); lia|].
  exists s5, h1, h0. split.
  { unfold commit. erewrite run_bind by reflexivity. rewrite (proj2 (Z.ltb_lt _ _) Hn). cbn [when].
    rewrite (run_bind _ _ _ _ _ E1), (run_bind _ _ _ _ _ E2), (run_bind _ _ _ _ _ E3).
    erewrite run_bind by reflexivity. done. }
  assert (Hv1 : ∀ i b, bs !! i = Some b → view (lbio s2) (lk (Z.of_nat i)) = v (hk b)).
  { intros i b Hb. pose proof (lookup_lt_Some _ _ _ Hb). destruct (S2 (lk (Z.of_nat i))) as (_ & -> & _); [apply lk_hdr; lia|cbn; lia|].
    apply (ld_view _ _ _ _ D1 (swap (lk (Z.of_nat i), hk b))).
    apply list_elem_of_In, in_map, list_elem_of_In, elem_of_entries. by exists i, b. }
  assert (Hws : map (λ p, (p.2, view (lbio s2) p.1)) (entries bs) = map (λ b, (hk b, v (hk b))) bs).
  { apply list_eq. intros i. rewrite !lookup_map. unfold entries. rewrite list_lookup_imap.
    destruct (bs !! i) as [b|] eqn:Hb; [|done]. cbn. by rewrite (Hv1 i b Hb). }
  assert (Hlw : map (λ p, (p.2, view (lbio s) p.1)) (map swap (entries bs)) = log_writes v bs)
    by (unfold log_writes; by rewrite map_map).
  cbv zeta. split_and!; try done.
  - rewrite G5. cbn. by rewrite G3.
  - intros k Hk Hk1. assert (Hkh : k ≠ hdr) by (intros ->; by apply Hk, hdr_in_log).
    destruct (S5 k Hkh Hk1) as (_ & -> & _). cbn [s4 lbio set_llog].
    assert (H12 : same_block k (lbio s) (lbio s2)).
    { apply (same_block_trans k _ (lbio s1)); [|by apply S2]. apply (ld_same _ _ _ _ D1); [|done].
      rewrite <- list_fmap_compose. intros Hin. apply Hk. change (k ∈ (entries bs).*1) in Hin.
      rewrite <- (log_writes_keys v) in Hin. by apply (log_writes_in_log v bs). }
    destruct (decide (k ∈ map hk bs)) as [(b & <- & Hb)%list_elem_of_In%in_map_iff|Hkb].
    + apply list_elem_of_In, list_elem_of_lookup_1 in Hb as [i Hb]. rewrite <- (Hv1 i b Hb).
      apply (ld_view _ _ _ _ D3 (lk (Z.of_nat i), hk b)). apply elem_of_entries. by exists i, b.
    + destruct (ld_same _ _ _ _ D3 k) as (_ & -> & _); [by rewrite entries_homes|done|]. apply H12.
  - intros b Hb. destruct (S5 (hk b)) as (-> & _); [by apply Hne|done|]. cbn [s4 lbio set_llog].
    apply list_elem_of_lookup_1 in Hb as [i Hb].
    pose proof (ld_refs _ _ _ _ D3 (lk (Z.of_nat i), hk b) ltac:(apply elem_of_entries; by exists i, b)) as Hr3.
    cbn [snd] in Hr3. rewrite Hr3.
    assert (Hbb : b ∈ bs) by (by eapply list_elem_of_lookup_2).
    destruct (S2 (hk b)) as (-> & _); [by apply Hne|done|]. by destruct (Hh1 b Hbb) as (-> & _).
  - intros k Hk Hk1. apply (commit_refs_other s s1 s2 s3 s5 bs k); try done.
  - cbn [s4 lbio set_llog] in W5. rewrite W5, (ld_writes _ _ _ _ D3), W2, (ld_writes _ _ _ _ D1), Hws, Hlw.
    by rewrite <- !app_assoc.
  - cbn [s4 lbio set_llog] in D5. rewrite D5, (ld_disk _ _ _ _ D3), D2, (ld_disk _ _ _ _ D1), Hws, Hlw.
    rewrite apply_writes_app. cbn [apply_writes foldl fst snd].
    fold (apply_writes (map (λ b, (hk b, v (hk b))) bs ++ [(hdr, h0)])
      (<[hdr := h1]> (apply_writes (log_writes v bs) (bdisk (lbio s))))).
    by rewrite apply_writes_app.
Qed.
(** *** Recovery *)

(** A reboot: the static storage of a fresh kernel over the disk [d]. *)
Definition lboot_sys (d : disk) : lsys :=
  mk_lsys (binit d) (mk_log 0 0 0 0 (mk_lh 0 (replicate (Z.to_nat LOGBLOCKS) 0))) [].

Lemma read_slots h n : ∀ i s,
  0 ≤ i → i + Z.of_nat n ≤ LOGBLOCKS → length (lh_block (lh (llog s))) = Z.to_nat LOGBLOCKS →
  ∃ bl, for_ n i (λ i, if i <? LOGBLOCKS then upd_log (set_slot i (hdr_block h i)) else undef) s =
      Done ((), set_llog (set_lh (mk_lh (lh_n (lh (llog s))) bl) (llog s)) s) ∧
    length bl = Z.to_nat LOGBLOCKS ∧
    ∀ j : nat, bl !! j = if decide (i ≤ Z.of_nat j < i + Z.of_nat n) then Some (hdr_block h (Z.of_nat j))
                   else lh_block (lh (llog s)) !! j.
Proof.
  induction n as [|n IH]; intros i s Hi Hn Hl; cbn [for_].
  - exists (lh_block (lh (llog s))). split_and!; [by destruct s as [? [? ? ? ? []] ?]|done|].
    intros j. rewrite decide_False by lia. done.
  - set (s1 := set_llog (set_slot i (hdr_block h i) (llog s)) s).
    destruct (IH (i + 1) s1) as (bl & E & L & H); [lia|lia|cbn; by rewrite length_insert|].
    exists bl. split_and!; [|done|].
    + rewrite (proj2 (Z.ltb_lt i LOGBLOCKS)) by lia. by rewrite (run_bind (upd_log (set_slot i (hdr_block h i))) _ s () s1 eq_refl), E.
    + intros j. rewrite H. cbn [s1 llog set_llog set_slot set_lh lh lh_block].
      destruct (decide (i + 1 ≤ Z.of_nat j < i + 1 + Z.of_nat n)) as [H1|H1].
      { rewrite decide_True by lia. done. }
      destruct (decide (Z.of_nat j = i)) as [Hj|Hj].
      * rewrite decide_True by lia. replace (Z.to_nat i) with j by lia.
        rewrite list_lookup_insert_eq by lia. by rewrite Hj.
      * rewrite decide_False by lia. apply list_lookup_insert_ne. lia.
Qed.

Lemma read_head_run s :
  calm (lbio s) → (1 ≤ nfree (lbio s))%nat → log_dev (llog s) = dev → log_start (llog s) = start →
  length (lh_block (lh (llog s))) = Z.to_nat LOGBLOCKS →
  Forall (λ b, - 2 ^ 31 ≤ b < 2 ^ 31) (lh_block (lh (llog s))) →
  refs (lbio s) hdr = 0 → disk_ok (bdisk (lbio s)) →
  ∃ s', read_head me s = Done ((), s') ∧ calm (lbio s') ∧ same_disk (lbio s) (lbio s') ∧
    (∀ k, k.1 ≠ 0 → same_block k (lbio s) (lbio s')) ∧ nfree (lbio s') = nfree (lbio s) ∧
    log_ok (llog s') ∧ listed (lh (llog s')) = hdr_listed (dread (bdisk (lbio s)) hdr) ∧
    outstanding (llog s') = outstanding (llog s) ∧ committing (llog s') = committing (llog s).
Proof.
  intros [Hi Hc] Hf L1 L2 L3 L4 Hr [D1 D2 D3 D4]. set (h := dread (bdisk (lbio s)) hdr) in *.
  destruct (Hc hdr ltac:(cbn; lia)) as [Hu _].
  destruct (read_use me (lbio s) hdr (λ l, l) Hi ltac:(cbn; lia) Hu ltac:(lia) ltac:(by right)) as (b & E & I & S & D & N).
  rewrite view_unused in E by done. fold h in E.
  set (s1 := set_llog (set_n (hdr_n h) (llog s)) (set_lbio b s)).
  destruct (read_slots h (Z.to_nat (hdr_n h)) 0 s1 ltac:(lia) ltac:(lia) ltac:(done)) as (bl & E2 & Lb & Hb).
  eexists. split.
  { unfold read_head. erewrite run_bind by reflexivity. rewrite L1, L2, u32_dev, u32_start.
    rewrite (run_bind _ _ _ _ _ (run_on_bio _ _ _ _ E)). erewrite run_bind by reflexivity. exact E2. }
  cbn [s1 lbio llog set_llog set_lbio set_n set_lh lh lh_n lh_block].
  assert (Hlist : listed (mk_lh (hdr_n h) bl) = hdr_listed h).
  { unfold listed, hdr_listed. cbn [lh_n lh_block]. apply list_eq. intros j. rewrite lookup_map.
    destruct (decide (j < Z.to_nat (hdr_n h))%nat) as [Hj|Hj].
    - rewrite lookup_take_lt, lookup_seq_lt, Hb, decide_True by lia. done.
    - rewrite lookup_take_ge, lookup_seq_ge by lia. done. }
  split_and!; try done.
  - split; [done|]. intros k Hk. destruct (S k Hk) as (-> & _ & Hku), (Hc k Hk) as [Hu0 Hr0]. split; [by apply Hku|done].
  - split; [done|done| |rewrite <- Hlist in D3; exact D3|rewrite <- Hlist in D4; exact D4]. split; cbn [lh_n lh_block]; try done.
    apply Forall_lookup. intros j x Hj. rewrite Hb in Hj. destruct (decide _).
    + injection Hj as <-. unfold hdr_block, get32. apply s32_range.
    + cbn [s1 lbio llog set_llog set_lbio set_n set_lh lh lh_n lh_block] in Hj.
      exact (Forall_lookup_1 _ _ _ _ L4 Hj).
Qed.

(** Recovery returns on every well-formed disk, with an empty log and the
    recovered blocks; no prefix of its own writes changes what a second recovery gives. *)
Lemma initlog_run d :
  disk_ok d →
  ∃ s', initlog me dev start (lboot_sys d) = Done ((), s') ∧ calm (lbio s') ∧ log_ok (llog s') ∧
    lh_n (lh (llog s')) = 0 ∧ hdr_n (dread (bdisk (lbio s')) hdr) = 0 ∧
    outstanding (llog s') = 0 ∧ committing (llog s') = 0 ∧ (∀ k, k.1 ≠ 0 → refs (lbio s') k = 0) ∧
    (∀ k, ¬ in_log k → dread (bdisk (lbio s')) k = recovered d k) ∧
    bdisk (lbio s') = apply_writes (bwrites (lbio s')) d ∧
    ∀ j, disk_ok (apply_writes (take j (bwrites (lbio s'))) d) ∧
      ∀ k, ¬ in_log k → recovered (apply_writes (take j (bwrites (lbio s'))) d) k = recovered d k.
Proof.
  intros Hd. destruct (binit_inv d (do_len _ Hd)) as (Bi & Bu & Bf).
  set (s0 := set_llog (mk_log start 0 0 dev (mk_lh 0 (replicate (Z.to_nat LOGBLOCKS) 0))) (lboot_sys d)).
  assert (Hr0 : ∀ k, refs (binit d) k = 0) by (intros k; unfold refs; by rewrite Bu).
  assert (Hc0 : calm (lbio s0)).
  { split; [done|]. intros k _. split; [intros i b; by rewrite Bu|by rewrite Hr0]. }
  destruct (read_head_run s0) as (s1 & E1 & C1 & D1 & S1 & F1 & L1 & B1 & Oo & Co); try done;
    [change (1 ≤ nfree (binit d))%nat; rewrite Bf; unfold NBUF; lia| |].
  { apply Forall_forall. intros x [-> _]%elem_of_replicate. lia. }
  change (nfree (lbio s0)) with (nfree (binit d)) in F1.
  set (bs := hdr_listed (dread d hdr)) in *. change (dread (bdisk (lbio s0)) hdr) with (dread d hdr) in B1.
  destruct (install_trans_run true s1 C1 L1) as (s2 & E2 & D2 & G2); [rewrite F1, Bf; unfold NBUF; lia..|].
  rewrite B1 in D2. fold bs in D2. set (s3 := set_llog (set_n 0 (llog s2)) s2).
  assert (L3 : log_ok (llog s3)) by (cbn; rewrite G2; by apply log_ok_set_n0).
  destruct (write_head_run s3) as (s4 & E4 & C4 & G4 & S4 & Rh4 & F4 & h0 & Q1 & Q2 & Q3 & D4 & W4);
    [apply (ld_calm _ _ _ _ D2)|by destruct L3..|cbn; pose proof (ld_free _ _ _ _ D2); rewrite F1, Bf in *; unfold NBUF in *; lia|].
  exists s4. split.
  { unfold initlog. cbn [Z.leb]. change (Z.of_nat BSIZE <=? sizeof_logheader) with false. cbv iota.
    rewrite (run_bind _ _ (lboot_sys d) () s0) by (unfold upd_log, modify; rewrite s32_id by lia; done).
    unfold recover_from_log.
    rewrite (run_bind _ _ _ _ _ E1), (run_bind _ _ _ _ _ E2). erewrite run_bind by reflexivity. exact E4. }
  assert (Hv : map (λ p, (p.2, view (lbio s1) p.1)) (entries bs) = home_writes (dread d) bs).
  { apply map_ext_in. intros p (i & b & _ & ->)%list_elem_of_In%elem_of_entries. cbn [fst snd].
    destruct (S1 (lk (Z.of_nat i))) as (_ & -> & _); [cbn; lia|]. f_equal. apply view_unused; [done|apply Hr0]. }
  assert (Hw : bwrites (lbio s4) = home_writes (dread d) bs ++ [(hdr, h0)]).
  { rewrite W4. cbn [s3 lbio set_llog]. by rewrite (ld_writes _ _ _ _ D2), Hv, (proj2 D1). }
  assert (Hdk : bdisk (lbio s4) = apply_writes (bwrites (lbio s4)) d).
  { rewrite D4, Hw, apply_writes_app. cbn [s3 lbio set_llog]. by rewrite (ld_disk _ _ _ _ D2), Hv, (proj1 D1). }
  assert (Hh : dread (bdisk (lbio s4)) hdr = h0) by (by rewrite D4, dread_insert, decide_True).
  assert (Hrefs : ∀ k, k.1 ≠ 0 → refs (lbio s4) k = 0).
  { intros k Hk. assert (H43 : refs (lbio s4) k = refs (lbio s3) k).
    { destruct (decide (k = hdr)) as [->|Hne]; [done|]. by destruct (S4 k Hne Hk). }
    rewrite H43. cbn [s3 lbio set_llog]. assert (H10 : ∀ k, k.1 ≠ 0 → refs (lbio s1) k = 0).
    { intros k' Hk'. destruct (S1 k' Hk') as (-> & _). apply Hr0. }
    destruct (decide (k ∈ (entries bs).*2)) as [Hin|Hin].
    - apply list_elem_of_fmap in Hin as (p & -> & Hp). rewrite (ld_refs _ _ _ _ D2 p Hp), H10; [done|done].
    - destruct (ld_same _ _ _ _ D2 k Hin Hk) as (-> & _). by apply H10. }
  split_and!; [done|by rewrite G4|by rewrite G4|by rewrite Hh, Q2|by rewrite G4; cbn; rewrite G2
    |by rewrite G4; cbn; rewrite G2|done| |done|].
  - intros k Hk. rewrite Hdk, Hw.
    destruct (recovered_prefix d h0 (length (home_writes (dread d) bs ++ [(hdr, h0)])) Hd Q1 Q2) as [P1 P2].
    rewrite take_ge in P1, P2 by done. rewrite <- P2 by done. symmetry. apply recovered_other.
    rewrite apply_writes_app. cbn [apply_writes foldl fst snd]. rewrite dread_insert, decide_True by done.
    rewrite hdr_listed_0 by done. cbn. by intros ?%elem_of_nil.
  - intros j. rewrite Hw. by apply recovered_prefix.
Qed.
(** The disk before the header is written: the old contents are what recovery gives. *)
Lemma recovered_before d v bs j :
  disk_ok d → hdr_n (dread d hdr) = 0 → (length bs ≤ Z.to_nat LOGBLOCKS)%nat →
  (∀ k, length (v k) = BSIZE) →
  let d' := apply_writes (take j (log_writes v bs)) d in
  disk_ok d' ∧ ∀ k, ¬ in_log k → recovered d' k = dread d k.
Proof.
  intros [D1 D2 D3 D4] Hn Hl Hv d'.
  assert (Hkeys : ∀ k, k ∈ (take j (log_writes v bs)).*1 → in_log k ∧ k ≠ hdr).
  { intros k Hk. rewrite fmap_take in Hk. apply elem_of_take_sub in Hk. by apply (log_writes_in_log v bs). }
  assert (Hh : dread d' hdr = dread d hdr).
  { apply apply_writes_other. intros Hk. by apply Hkeys in Hk as [_ ?]. }
  split.
  - split; rewrite ?Hh; try done. apply apply_writes_len; [done|]. apply Forall_forall.
    intros w Hw%elem_of_take_sub. apply list_elem_of_In, in_map_iff in Hw as (p & <- & _). apply Hv.
  - intros k Hk. rewrite recovered_other by (rewrite Hh, hdr_listed_0 by done; cbn; by intros ?%elem_of_nil).
    apply apply_writes_other. intros Hin. by apply Hkeys in Hin as [? _].
Qed.

(** The disk once the header is written: the new contents are. *)
Lemma recovered_after d v bs h1 :
  disk_ok d → Forall home bs → NoDup bs → (length bs ≤ Z.to_nat LOGBLOCKS)%nat → (∀ k, length (v k) = BSIZE) →
  length h1 = BSIZE → hdr_n h1 = Z.of_nat (length bs) → hdr_listed h1 = bs →
  let d' := apply_writes (log_writes v bs ++ [(hdr, h1)]) d in
  disk_ok d' ∧ dread d' hdr = h1 ∧
  (∀ i b, bs !! i = Some b → dread d' (lk (Z.of_nat i)) = v (hk b)) ∧
  ∀ k, ¬ in_log k → recovered d' k = if decide (k ∈ map hk bs) then v k else dread d k.
Proof.
  intros [D1 D2 D3 D4] Hh Hn Hl Hv Hlen Hn1 Hb1 d'. 
  assert (Hd' : d' = <[hdr := h1]> (apply_writes (log_writes v bs) d)) by (unfold d'; by rewrite apply_writes_app).
  assert (Hhdr : dread d' hdr = h1) by (rewrite Hd'; by rewrite dread_insert, decide_True).
  assert (Hlk : ∀ i b, bs !! i = Some b → dread d' (lk (Z.of_nat i)) = v (hk b)).
  { intros i b Hb. rewrite Hd', dread_insert, decide_False by (apply lk_hdr; lia).
    apply apply_writes_at; [rewrite log_writes_keys, entries_logs; apply NoDup_logs|].
    apply list_elem_of_In, in_map_iff. exists (lk (Z.of_nat i), hk b). split; [done|].
    apply list_elem_of_In, elem_of_entries. by exists i, b. }
  split_and!; [|done|done|].
  - split; rewrite ?Hhdr, ?Hb1; try done; [|lia]. intros k. rewrite Hd', dread_insert.
    destruct (decide (k = hdr)); [done|]. apply apply_writes_len; [done|]. apply Forall_forall.
    intros w Hw. apply list_elem_of_In, in_map_iff in Hw as (p & <- & _). apply Hv.
  - intros k Hk. destruct (decide _) as [Hin|Hin].
    + apply list_elem_of_In, in_map_iff in Hin as (b & <- & Hb%list_elem_of_In).
      apply list_elem_of_lookup_1 in Hb as [i Hb]. rewrite (recovered_listed d' i b) by by rewrite Hhdr, Hb1.
      by apply Hlk.
    + rewrite recovered_other by by rewrite Hhdr, Hb1. rewrite Hd'.
      rewrite dread_insert, decide_False by (intros ->; by apply Hk, hdr_in_log).
      apply apply_writes_other. intros Hw. apply (log_writes_in_log v bs) in Hw as [? _]; done.
Qed.

(** Every prefix of a commit's writes recovers to the old or to the new blocks. *)
Lemma commit_prefix d v bs h1 h0 j :
  disk_ok d → hdr_n (dread d hdr) = 0 → Forall home bs → NoDup bs → (length bs ≤ Z.to_nat LOGBLOCKS)%nat →
  (∀ k, length (v k) = BSIZE) → length h1 = BSIZE → hdr_n h1 = Z.of_nat (length bs) → hdr_listed h1 = bs →
  length h0 = BSIZE → hdr_n h0 = 0 →
  let d' := apply_writes (take j (log_writes v bs ++ (hdr, h1) :: map (λ b, (hk b, v (hk b))) bs ++ [(hdr, h0)])) d in
  disk_ok d' ∧ ∀ k, ¬ in_log k → recovered d' k =
    if decide (j ≤ length bs)%nat then dread d k else if decide (k ∈ map hk bs) then v k else dread d k.
Proof.
  intros Hd Hn Hh Hnd Hl Hv L1 N1 B1 L0 N0 d'.
  assert (Hll : length (log_writes v bs) = length bs) by (unfold log_writes; by rewrite length_map, length_entries).
  destruct (decide (j ≤ length bs)%nat) as [Hj|Hj].
  - unfold d'. rewrite take_app_le by lia. by apply recovered_before.
  - destruct (recovered_after d v bs h1) as (R1 & R2 & R3 & R4); try done.
    set (d1 := apply_writes (log_writes v bs ++ [(hdr, h1)]) d) in *.
    assert (Hhw : map (λ b, (hk b, v (hk b))) bs = home_writes (dread d1) (hdr_listed (dread d1 hdr))).
    { rewrite R2, B1. unfold home_writes. apply list_eq. intros i. rewrite !lookup_map. unfold entries.
      rewrite list_lookup_imap. destruct (bs !! i) as [b|] eqn:Hb; [|done]. cbn. by rewrite (R3 i b Hb). }
    assert (Hd' : d' = apply_writes (take (j - S (length bs)) (home_writes (dread d1) (hdr_listed (dread d1 hdr)) ++ [(hdr, h0)])) d1).
    { rewrite <- Hhw. unfold d', d1. rewrite <- apply_writes_app. f_equal.
      rewrite cons_middle, app_assoc, take_app_ge by (rewrite length_app; cbn; lia).
      do 2 f_equal. rewrite length_app. cbn. lia. }
    destruct (recovered_prefix d1 h0 (j - S (length bs)) R1 L0 N0) as [P1 P2]. rewrite <- Hd' in P1, P2.
    split; [done|]. intros k Hk. rewrite P2 by done. by apply R4.
Qed.
End commit.

(** ** System calls as transactions *)

Section txn.
Context (me dev start : Z).
Hypothesis (Hdev : 0 < dev < 2 ^ 31).
Hypothesis (Hstart : 0 ≤ start < 2 ^ 30).
Notation hk := (hk dev).
Notation in_log := (in_log dev start).
Notation home := (home dev start).
Notation hdr := (hdr dev start).

(** Between the writes of a transaction: what the log lists is pinned, nothing else is
    referred to, and the log on disk is empty. *)
Record txn_inv (s : lsys) : Prop := {
  tx_calm : calm (lbio s);
  tx_log : log_ok dev start (llog s);
  tx_pinned : ∀ b, b ∈ listed (lh (llog s)) → refs (lbio s) (hk b) = 1;
  tx_unused : ∀ k, k ∉ map hk (listed (lh (llog s))) → k.1 ≠ 0 → refs (lbio s) k = 0;
  tx_free : (nfree (lbio s) + length (listed (lh (llog s))))%nat = NBUF;
  tx_disk : disk_ok dev start (bdisk (lbio s));
  tx_clear : hdr_n (dread (bdisk (lbio s)) hdr) = 0;
}.

(** No transaction at all. *)
Record idle (s : lsys) : Prop := {
  id_inv : txn_inv s;
  id_n : lh_n (lh (llog s)) = 0;
  id_out : outstanding (llog s) = 0;
  id_committing : committing (llog s) = 0;
}.

(** The pattern of fs.c: read a block, change it, log it. *)
Definition update (b : Z) (f : list Z → list Z) : M lsys () :=
  i ← on_bio (bread me dev b);
  l ← on_bio (data_of i);
  on_bio (set_data i (f l));;
  log_write i;;
  on_bio (brelse me i).

Fixpoint updates (us : list (Z * (list Z → list Z))) : M lsys () :=
  match us with
  | [] => mret ()
  | (b, f) :: us' => update b f;; updates us'
  end.

(** What they mean on the blocks. *)
Fixpoint spec_updates (us : list (Z * (list Z → list Z))) (v : Z * Z → list Z) : Z * Z → list Z :=
  match us with
  | [] => v
  | (b, f) :: us' => spec_updates us' (λ k, if decide (k = hk b) then f (v k) else v k)
  end.

Definition keeps_size (f : list Z → list Z) : Prop := ∀ l, length l = BSIZE → length (f l) = BSIZE.

Lemma refs_used s k : bio_inv s → refs s k = 0 → used s k = None.
Proof.
  unfold refs. intros Hi. destruct (used s k) as [[i b]|] eqn:Hu; [|done].
  apply used_at in Hu as (_ & _ & Hr). intros. lia.
Qed.

Lemma find_listed (bs : list Z) b :
  Forall home bs → home b → NoDup bs →
  match find_index (λ x, u32 x =? b) bs with
  | Some i => bs !! i = Some b
  | None => b ∉ bs
  end.
Proof.
  intros Hh Hb Hn. assert (Hu : ∀ x, x ∈ bs → u32 x = x).
  { intros x Hx. rewrite Forall_forall in Hh. apply (u32_home dev start). by apply Hh. }
  destruct (find_index _ bs) as [i|] eqn:Hf.
  - apply find_index_Some in Hf as (x & Hx & He%Z.eqb_eq & _). rewrite Hu in He; [by subst|].
    by eapply list_elem_of_lookup_2.
  - intros [i Hi]%list_elem_of_lookup_1. pose proof (find_index_None _ _ Hf i b Hi) as He. cbn in He.
    rewrite Hu in He by (by eapply list_elem_of_lookup_2). by rewrite Z.eqb_refl in He.
Qed.

(** [log_write] of a block already listed: absorbed. *)
Lemma log_write_absorbed s i n l b j :
  log_ok dev start (llog s) → home b → holds me (lbio s) (hk b) i n l →
  lh_n (lh (llog s)) < LOGBLOCKS → 1 ≤ outstanding (llog s) → listed (lh (llog s)) !! j = Some b →
  log_write i s = Done ((), s).
Proof.
  intros HL Hb (c & Hu & _ & _ & _) Hn Ho Hj. pose proof HL as [L1 L2 L3 L4 L5].
  apply used_at in Hu as (Hc & Hkey & _). unfold log_write. erewrite run_bind by reflexivity.
  rewrite (proj2 (Z.leb_gt _ _)) by lia. rewrite (proj2 (Z.ltb_ge _ _)) by lia.
  erewrite run_bind by reflexivity. rewrite (buf_at_Some _ _ _ Hc). injection Hkey as _ ->.
  pose proof (find_listed _ b L4 Hb L5) as Hf. fold (listed (lh (llog s))).
  destruct (find_index _ (listed (lh (llog s)))) as [j'|]; [|by destruct Hf; eapply list_elem_of_lookup_2].
  destruct (listed_lookup _ _ _ Hf L3) as [Hs Hj']. pose proof (lookup_lt_Some _ _ _ Hf) as Hlt.
  rewrite length_listed in Hlt by done. rewrite (proj2 (Z.eqb_neq _ _)) by lia. unfold when.
  erewrite run_bind by reflexivity. unfold mret, M_ret, set_slot, set_lbio, set_llog. do 2 f_equal.
  rewrite s32_id by (destruct Hb; lia). rewrite Nat2Z.id. cbn [llog lbio levents lh lh_n].
  rewrite list_insert_id by done. by destruct s as [? [? ? ? ? []] ?].
Qed.

(** [log_write] of a new block: listed last and pinned. *)
Lemma log_write_new s i n l b :
  bio_inv (lbio s) → log_ok dev start (llog s) → home b → holds me (lbio s) (hk b) i n l → n + 1 < 2 ^ 32 →
  lh_n (lh (llog s)) < LOGBLOCKS → 1 ≤ outstanding (llog s) → b ∉ listed (lh (llog s)) →
  ∃ s', log_write i s = Done ((), s') ∧ bio_inv (lbio s') ∧ holds me (lbio s') (hk b) i (n + 1) l ∧
    others (hk b) (lbio s) (lbio s') ∧ same_disk (lbio s) (lbio s') ∧ nfree (lbio s') = nfree (lbio s) ∧
    log_ok dev start (llog s') ∧ listed (lh (llog s')) = listed (lh (llog s)) ++ [b] ∧
    outstanding (llog s') = outstanding (llog s) ∧ committing (llog s') = committing (llog s).
Proof.
  intros Hi HL Hb Hh Hn1 Hn Ho Hnew. pose proof HL as [L1 L2 L3 L4 L5]. pose proof L3 as [H1 H2 H3].
  destruct (bpin_run me (lbio s) (hk b) i n l Hi ltac:(cbn; lia) Hh Hn1) as (t & Et & It & Ht & Ot & Dt & Nt).
  destruct Hh as (c & Hu & _ & _ & _). apply used_at in Hu as (Hc & Hkey & _). injection Hkey as _ Hkey.
  set (m := Z.to_nat (lh_n (lh (llog s)))) in *. set (bl := <[m := b]> (lh_block (lh (llog s)))).
  assert (Hlist : listed (mk_lh (lh_n (lh (llog s)) + 1) bl) = listed (lh (llog s)) ++ [b]).
  { unfold listed, bl. cbn [lh_n lh_block]. replace (Z.to_nat _) with (S m) by lia.
    rewrite (take_S_r _ _ b) by (apply list_lookup_insert_eq; lia). by rewrite take_insert_ge. }
  exists (mk_lsys t (set_n (lh_n (lh (llog s)) + 1) (set_slot (lh_n (lh (llog s))) b (llog s))) (levents s)).
  split.
  { unfold log_write. erewrite run_bind by reflexivity.
    rewrite (proj2 (Z.leb_gt _ _)) by lia. rewrite (proj2 (Z.ltb_ge _ _)) by lia.
    erewrite run_bind by reflexivity. rewrite (buf_at_Some _ _ _ Hc), Hkey. fold (listed (lh (llog s))).
    pose proof (find_listed _ b L4 Hb L5) as Hf.
    destruct (find_index _ (listed (lh (llog s)))) as [j'|]; [destruct Hnew; by eapply list_elem_of_lookup_2|].
    cbv zeta. rewrite Z.eqb_refl, s32_id by (destruct Hb; lia). unfold when.
    replace (set_lbio (lbio s) s) with s by (by destruct s).
    set (s1 := set_llog (set_slot (lh_n (lh (llog s))) b (llog s)) s).
    rewrite (run_bind (upd_log (set_slot (lh_n (lh (llog s))) b)) _ s () s1 eq_refl).
    rewrite (run_bind _ _ _ _ _ (run_on_bio (bpin i) s1 () t Et)). done. }
  cbn [lbio llog]. set (l' := set_n _ _). assert (Hl' : lh l' = mk_lh (lh_n (lh (llog s)) + 1) bl) by done.
  split_and!; try done. split; rewrite ?Hl', ?Hlist; try done.
  - split; cbn [lh_n lh_block]; [lia|unfold bl; by rewrite length_insert|].
    apply Forall_insert; [done|destruct Hb; lia].
  - apply Forall_app_2; [done|by constructor].
  - apply NoDup_app. split_and!; [done| |by apply NoDup_singleton].
    intros x Hx ->%list_elem_of_singleton. done.
Qed.
(** The middle of [update]: the buffer is held with one reference more than before, and
    one more if the log did not list the block. *)
Lemma log_write_held s i l b r :
  bio_inv (lbio s) → log_ok dev start (llog s) → home b → holds me (lbio s) (hk b) i (r + 1) l → r < 2 ^ 31 →
  lh_n (lh (llog s)) < LOGBLOCKS → 1 ≤ outstanding (llog s) →
  (b ∈ listed (lh (llog s)) → r = 1) → (b ∉ listed (lh (llog s)) → r = 0) →
  ∃ s', log_write i s = Done ((), s') ∧ bio_inv (lbio s') ∧ holds me (lbio s') (hk b) i 2 l ∧
    others (hk b) (lbio s) (lbio s') ∧ same_disk (lbio s) (lbio s') ∧
    nfree (lbio s') = nfree (lbio s) ∧ log_ok dev start (llog s') ∧
    listed (lh (llog s')) = (if decide (b ∈ listed (lh (llog s))) then listed (lh (llog s)) else listed (lh (llog s)) ++ [b]) ∧
    outstanding (llog s') = outstanding (llog s) ∧ committing (llog s') = committing (llog s).
Proof.
  intros Hi HL Hb Hh Hr Hn Ho H1 H2. destruct (decide (b ∈ listed (lh (llog s)))) as [Hin|Hnew].
  - specialize (H1 Hin). apply list_elem_of_lookup_1 in Hin as [j Hj].
    subst r. exists s. split; [by eapply log_write_absorbed|]. split_and!; done.
  - destruct (log_write_new s i (r + 1) l b) as (s' & E & I & H & O & D & N & L & B & Ou & Co); try done; [lia|].
    rewrite (H2 Hnew) in *. exists s'. split_and!; done.
Qed.

(** The log lists a block once. *)
Definition list_block (l : list Z) (b : Z) : list Z := if decide (b ∈ l) then l else l ++ [b].

Lemma update_run s b f :
  txn_inv s → home b → keeps_size f → lh_n (lh (llog s)) < LOGBLOCKS → 1 ≤ outstanding (llog s) →
  ∃ s', update b f s = Done ((), s') ∧ txn_inv s' ∧
    (∀ k, k.1 ≠ 0 → view (lbio s') k = if decide (k = hk b) then f (view (lbio s) k) else view (lbio s) k) ∧
    listed (lh (llog s')) = list_block (listed (lh (llog s))) b ∧
    outstanding (llog s') = outstanding (llog s) ∧
    committing (llog s') = committing (llog s) ∧ same_disk (lbio s) (lbio s').
Proof.
  unfold list_block. intros [[Hi Hc] HL Hp Hun Hf Hd Hcl] Hb Hk Hn Ho. assert (Hb1 : (hk b).1 ≠ 0) by (cbn; lia).
  pose proof HL as [L1 L2 L3 L4 L5]. pose proof (length_listed _ L3) as Hlen. destruct L3 as [H1 _ _].
  destruct (Hc (hk b) Hb1) as [Hu Hr]. set (r := refs (lbio s) (hk b)) in *. set (v := view (lbio s) (hk b)).
  assert (Hbl : (b ∈ listed (lh (llog s)) → r = 1) ∧ (b ∉ listed (lh (llog s)) → r = 0)).
  { split; [by apply Hp|]. intros Hin. apply Hun; [|done].
    intros (b' & [= ->] & ?%list_elem_of_In)%list_elem_of_In%in_map_iff. done. }
  destruct (bread_run me (lbio s) (hk b) Hi Hb1 Hu) as (i & t1 & E1 & I1 & T1 & O1 & D1 & N1 & _);
    [fold r; lia|right; unfold NBUF, LOGBLOCKS, MAXOPBLOCKS in *; lia|]. fold r v in T1.
  destruct (set_data_run me t1 (hk b) i _ v (f v) I1 Hb1 T1) as (t2 & E2 & I2 & T2 & O2 & D2 & N2);
    [by apply Hk, length_view|].
  destruct (log_write_held (set_lbio t2 s) i (f v) b r) as
    (s3 & E3 & I3 & T3 & O3 & D3 & N3 & L3' & B3 & Ou & Co); try done;
    [apply Hbl..|].
  destruct (brelse_after me (lbio s3) (hk b) i _ _ I3 Hb1 T3) as (t4 & E4 & I4 & O4 & D4 & U4 & R4 & V4 & N4); [done|].
  destruct D1 as [D1 W1], D2 as [D2 W2], D3 as [D3 W3], D4 as [D4 W4]. cbn [lbio llog set_lbio] in *.
  assert (Hsame : ∀ k, k ≠ hk b → k.1 ≠ 0 → same_block k (lbio s) t4).
  { intros k Hne Hk1. apply (same_block_trans k _ t1); [by apply (others_same (hk b))|].
    apply (same_block_trans k _ t2); [by apply (others_same (hk b))|].
    apply (same_block_trans k _ (lbio s3)); by apply (others_same (hk b)). }
  fold r in N1. cbn [Z.eqb Pos.eqb] in N4.
  assert (Hl3 : length (listed (lh (llog s3))) = Z.to_nat (lh_n (lh (llog s3)))) by (apply length_listed; by destruct L3').
  assert (H3 : 0 ≤ lh_n (lh (llog s3))) by (destruct L3' as [_ _ [? _ _] _ _]; lia).
  exists (set_lbio t4 s3). split.
  { unfold update. rewrite (run_bind _ _ s i (set_lbio t1 s)).
    2:{ apply run_on_bio. exact E1. }
    rewrite (run_bind _ _ _ _ _ (run_on_bio (data_of i) (set_lbio t1 s) v t1 (data_of_run me _ _ _ _ _ T1))).
    rewrite (run_bind _ _ _ _ _ (run_on_bio _ (set_lbio t1 (set_lbio t1 s)) () t2 E2)).
    change (set_lbio t2 (set_lbio t1 (set_lbio t1 s))) with (set_lbio t2 s).
    rewrite (run_bind _ _ _ _ _ E3). by apply run_on_bio. }
  split_and!; cbn [lbio llog set_lbio]; try done; [|..|split; congruence].
  - split; cbn [lbio llog set_lbio]; try done.
    + split; [done|]. intros k Hk1. destruct (decide (k = hk b)) as [->|Hne]; [split; [done|lia]|].
      destruct (Hsame k Hne Hk1) as (-> & _ & Hku), (Hc k Hk1) as [Hu0 Hr0]. split; [by apply Hku|done].
    + intros b' Hb'. destruct (decide (b' = b)) as [->|Hne]; [lia|].
      destruct (Hsame (hk b')) as (-> & _); [by intros [= ?]|cbn; lia|]. apply Hp. rewrite B3 in Hb'.
      destruct (decide _); [done|]. apply elem_of_app in Hb' as [?|?%list_elem_of_singleton]; done.
    + intros k Hk1 Hk2. rewrite B3 in Hk1. destruct (Hsame k) as (-> & _); [|done|].
      * intros ->. apply Hk1. apply list_elem_of_In, in_map, list_elem_of_In.
        destruct (decide _); [done|]. apply elem_of_app. right. by left.
      * apply Hun; [|done]. intros Hin. apply Hk1. destruct (decide _); [done|]. rewrite map_app. apply elem_of_app. by left.
    + rewrite B3. destruct (Z.eqb_spec r 0), (decide (b ∈ listed (lh (llog s)))) as [Hin|Hin];
        try (apply Hbl in Hin; lia); rewrite ?length_app; cbn [length]; lia.
    + by rewrite D4, D3, D2, D1.
    + by rewrite D4, D3, D2, D1.
  - intros k Hk1. destruct (decide (k = hk b)) as [->|Hne]; [by rewrite V4|]. by destruct (Hsame k Hne Hk1) as (_ & -> & _).
Qed.

Lemma length_list_block l b : (length (list_block l b) ≤ S (length l))%nat.
Proof. unfold list_block. destruct (decide _); rewrite ?length_app; cbn; lia. Qed.

Lemma listed_n s : log_ok dev start (llog s) → lh_n (lh (llog s)) = Z.of_nat (length (listed (lh (llog s)))).
Proof. intros [_ _ H _ _]. rewrite length_listed by done. destruct H. lia. Qed.

Lemma updates_run us : ∀ s,
  txn_inv s → Forall (λ u, home u.1 ∧ keeps_size u.2) us →
  lh_n (lh (llog s)) + Z.of_nat (length us) ≤ LOGBLOCKS → 1 ≤ outstanding (llog s) →
  ∃ s', updates us s = Done ((), s') ∧ txn_inv s' ∧
    (∀ k, k.1 ≠ 0 → view (lbio s') k = spec_updates us (view (lbio s)) k) ∧
    listed (lh (llog s')) = foldl list_block (listed (lh (llog s))) us.*1 ∧
    lh_n (lh (llog s')) ≤ lh_n (lh (llog s)) + Z.of_nat (length us) ∧
    outstanding (llog s') = outstanding (llog s) ∧
    committing (llog s') = committing (llog s) ∧ same_disk (lbio s) (lbio s').
Proof.
  assert (Hext : ∀ us v w, (∀ k, k.1 ≠ 0 → v k = w k) → ∀ k, k.1 ≠ 0 → spec_updates us v k = spec_updates us w k).
  { clear us. induction us as [|[b f] us IH]; intros v w Hvw k Hk; cbn [spec_updates]; [by apply Hvw|].
    apply IH; [|done]. intros k' Hk'. by rewrite Hvw. }
  induction us as [|[b f] us IH]; intros s Hi Hus Hn Ho; cbn [updates spec_updates length] in *.
  { exists s. split_and!; try done. lia. }
  apply Forall_cons in Hus as [[Hb Hk] Hus]. cbn [fst snd] in *.
  destruct (update_run s b f Hi Hb Hk) as (s1 & E1 & T1 & V1 & B1 & O1 & C1 & D1); [lia|done|].
  assert (N1 : lh_n (lh (llog s1)) ≤ lh_n (lh (llog s)) + 1).
  { rewrite (listed_n s1), (listed_n s), B1 by (by apply tx_log).
    pose proof (length_list_block (listed (lh (llog s))) b). lia. }
  destruct (IH s1 T1 Hus) as (s2 & E2 & T2 & V2 & B2 & N2 & O2 & C2 & D2); [lia|lia|].
  exists s2. rewrite (run_bind _ _ _ _ _ E1). split; [done|]. split_and!; try done; try lia; try congruence.
  - intros k Hk1. rewrite V2 by done. by apply Hext.
  - by rewrite B2, B1.
  - destruct D1, D2. split; congruence.
Qed.

Lemma idle_view s k : idle s → k.1 ≠ 0 → view (lbio s) k = dread (bdisk (lbio s)) k.
Proof.
  intros [[[Hi _] _ _ Hu _ _ _] Hn _ _] Hk. apply view_unused; [done|]. apply Hu; [|done].
  unfold listed. rewrite Hn. cbn. by intros ?%elem_of_nil.
Qed.

(** Facts that make a state idle. *)
Lemma idle_intro s :
  calm (lbio s) → log_ok dev start (llog s) → lh_n (lh (llog s)) = 0 →
  (∀ k, k.1 ≠ 0 → refs (lbio s) k = 0) → disk_ok dev start (bdisk (lbio s)) →
  hdr_n (dread (bdisk (lbio s)) hdr) = 0 → outstanding (llog s) = 0 → committing (llog s) = 0 → idle s.
Proof.
  intros Hc HL Hn Hr Hd H0 Ho Hco. assert (Hl : listed (lh (llog s)) = []) by (unfold listed; by rewrite Hn).
  split; try done. split; rewrite ?Hl; try done.
  - by intros b ?%elem_of_nil.
  - intros k _ Hk. by apply Hr.
  - rewrite (nfree_all _ (proj1 Hc) Hr). apply Nat.add_0_r.
Qed.

(** A boot from any well-formed disk. *)
Lemma initlog_idle d :
  disk_ok dev start d →
  ∃ s, initlog me dev start (lboot_sys d) = Done ((), s) ∧ idle s ∧
    (∀ k, ¬ in_log k → k.1 ≠ 0 → view (lbio s) k = recovered dev start d k) ∧
    ∀ j, disk_ok dev start (apply_writes (take j (bwrites (lbio s))) d) ∧
      ∀ k, ¬ in_log k → recovered dev start (apply_writes (take j (bwrites (lbio s))) d) k = recovered dev start d k.
Proof.
  intros Hd. destruct (initlog_run me dev start Hdev Hstart d Hd)
    as (s & E & C & L & N & H0 & Ho & Hco & Hr & Hv & Hw & Hj).
  exists s. assert (Hid : idle s).
  { apply idle_intro; try done. rewrite Hw. destruct (Hj (length (bwrites (lbio s)))) as [Hd' _].
    by rewrite take_ge in Hd'. }
  split_and!; try done. intros k Hk Hk1. by rewrite idle_view, Hv.
Qed.

(** The end of the last system call: the commit, crashed or not. *)
Lemma end_op_run s :
  txn_inv s → lh_n (lh (llog s)) ≤ 29 → outstanding (llog s) = 1 → committing (llog s) = 0 →
  ∃ s' ws, end_op me s = Done ((), s') ∧ idle s' ∧
    (∀ k, ¬ in_log k → k.1 ≠ 0 → view (lbio s') k = view (lbio s) k) ∧
    bwrites (lbio s') = bwrites (lbio s) ++ ws ∧
    ∀ j, let d := apply_writes (take j ws) (bdisk (lbio s)) in
      disk_ok dev start d ∧
      ((∀ k, ¬ in_log k → recovered dev start d k = dread (bdisk (lbio s)) k) ∧ (j < length ws)%nat ∨
       (∀ k, ¬ in_log k → k.1 ≠ 0 → recovered dev start d k = view (lbio s) k)).
Proof.
  intros [Hc HL Hp Hun Hf Hd Hcl] Hn Ho Hco. set (s1 := set_llog (set_committing 1 (set_outstanding 0 (llog s))) s).
  pose proof HL as [_ _ Hho Hhome Hnd]. pose proof (length_listed _ Hho) as Hlen. set (bs := listed (lh (llog s))) in *.
  assert (Hunl : ∀ k, k ∉ map hk bs → k.1 ≠ 0 → view (lbio s) k = dread (bdisk (lbio s)) k).
  { intros k Hk Hk1. apply view_unused; [apply Hc|by apply Hun]. }
  assert (Hrun : ∀ t, commit me s1 = Done ((), t) → llog t = set_n 0 (llog s1) →
    ∃ s', end_op me s = Done ((), s') ∧ lbio s' = lbio t ∧ log_ok dev start (llog s') ∧
      lh_n (lh (llog s')) = 0 ∧ outstanding (llog s') = 0 ∧ committing (llog s') = 0).
  { intros t Et Gt. eexists. split.
    { unfold end_op. erewrite run_bind by reflexivity. erewrite run_bind by reflexivity.
      rewrite Ho. change (committing (llog (set_llog _ s))) with (committing (llog s)). rewrite Hco.
      change (outstanding (llog (set_llog _ s))) with (1 - 1).
      change (1 - 1 =? 0) with true. cbn [Z.eqb negb].
      rewrite (run_bind _ _ _ () s1) by done. rewrite (run_bind _ _ _ _ _ Et).
      erewrite run_bind by reflexivity. reflexivity. }
    cbn [lbio llog set_llog]. rewrite Gt. split_and!; try done.
    destruct (log_ok_set_n0 dev start (llog s) HL) as [Z1 Z2 Z3 Z4 Z5]. by split. }
  destruct (decide (0 < lh_n (lh (llog s)))) as [Hpos|Hz].
  - assert (Hcm : committable dev start s1).
    { split; [done|by destruct HL; split|cbn [s1 lbio set_llog]; unfold NBUF in Hf; lia|].
      intros b Hb. cbn [s1 lbio set_llog]. rewrite Hp by done. lia. }
    destruct (commit_run me dev start Hdev Hstart s1 Hcm Hpos)
      as (t & h1 & h0 & E & C & G & L1 & N1 & B1 & L0 & N0 & V & R & Ro & W & D).
    cbn [s1 lbio llog set_llog set_committing set_outstanding lh] in E, V, R, Ro, W, D, B1, N1. fold bs in R, Ro, W, D, B1.
    set (ws := log_writes _ _ _ _ ++ _) in W, D.
    destruct (Hrun t E G) as (s' & Ee & Hb & Hl' & Hn' & Ho' & Hco'). exists s', ws.
    assert (Hpre : ∀ j, let d := apply_writes (take j ws) (bdisk (lbio s)) in disk_ok dev start d ∧
      ∀ k, ¬ in_log k → recovered dev start d k = if decide (j ≤ length bs)%nat then dread (bdisk (lbio s)) k
        else if decide (k ∈ map hk bs) then view (lbio s) k else dread (bdisk (lbio s)) k).
    { intros j. apply (commit_prefix dev start (bdisk (lbio s)) (view (lbio s)) bs h1 h0 j); try done;
        [destruct Hho; lia|intros k; apply length_view, Hc|rewrite N1; destruct Hho; lia]. }
    split_and!; try (by rewrite Hb).
    + done.
    + apply idle_intro; rewrite ?Hb; try done.
      * intros k Hk1. destruct (decide (k ∈ map hk bs)) as [(b & <- & Hin)%list_elem_of_In%in_map_iff|Hk].
        -- apply list_elem_of_In in Hin. rewrite R, Hp by done. lia.
        -- rewrite Ro by done. by apply Hun.
      * destruct (Hpre (length ws)) as [Hd' _]. rewrite take_ge in Hd' by done. by rewrite D.
      * rewrite D. unfold ws. rewrite app_comm_cons, app_assoc, apply_writes_app. cbn [apply_writes foldl fst snd].
        by rewrite dread_insert, decide_True.
    + intros j. destruct (Hpre j) as [Hd' Hr]. split; [done|]. destruct (decide (j ≤ length bs)%nat) as [Hj|Hj].
      * left. split; [done|]. unfold ws. rewrite length_app. cbn [length]. unfold log_writes.
        rewrite length_map, length_entries. lia.
      * right. intros k Hk Hk1. rewrite Hr by done. destruct (decide _); [done|]. by rewrite Hunl.
  - assert (Hnil : bs = []) by (apply nil_length_inv; destruct Hho; lia).
    assert (Hz0 : lh_n (lh (llog s)) = 0) by (destruct Hho; lia).
    assert (E : commit me s1 = Done ((), s1)).
    { unfold commit. erewrite run_bind by reflexivity. cbn [s1 llog set_llog set_committing set_outstanding lh].
      by rewrite Hz0. }
    destruct (Hrun s1 E) as (s' & Ee & Hb & Hl' & Hn' & Ho' & Hco').
    { cbn [s1 llog set_llog]. rewrite <- Hz0. unfold set_n, set_lh. by destruct (llog s) as [? ? ? ? []]. }
    exists s', []. rewrite Hb. cbn [s1 lbio set_llog]. rewrite Hnil in *. split_and!; try done.
    + apply idle_intro; rewrite ?Hb; try done. intros k Hk. apply Hun; [cbn; by intros ?%elem_of_nil|done].
    + by rewrite app_nil_r.
    + intros j. rewrite take_nil. cbn [apply_writes foldl]. split; [done|]. right. intros k Hk Hk1.
      rewrite recovered_other by (rewrite hdr_listed_0 by done; cbn; by intros ?%elem_of_nil).
      symmetry. apply Hunl; [cbn; by intros ?%elem_of_nil|done].
Qed.
End txn.

Lemma foldl_list_block bs : ∀ l, NoDup (l ++ bs) → foldl list_block l bs = l ++ bs.
Proof.
  induction bs as [|b bs IH]; intros l Hn; cbn [foldl]; [by rewrite app_nil_r|].
  assert (Hb : b ∉ l).
  { apply NoDup_app in Hn as (_ & Hd & _). intros Hin. apply (Hd b Hin). left. }
  unfold list_block at 2. rewrite decide_False by done. rewrite cons_middle, app_assoc in Hn.
  rewrite IH by done. by rewrite <- app_assoc.
Qed.

Lemma begin_op_run s :
  committing (llog s) = 0 → lh_n (lh (llog s)) + (outstanding (llog s) + 1) * MAXOPBLOCKS ≤ LOGBLOCKS →
  begin_op s = Done ((), set_llog (set_outstanding (outstanding (llog s) + 1) (llog s)) s).
Proof.
  intros Hc Hn. unfold begin_op. erewrite run_bind by reflexivity. rewrite Hc. cbn [Z.eqb negb].
  by rewrite (proj2 (Z.ltb_ge _ _)) by done.
Qed.

(** [end_op] of a call that is not the last. *)
Lemma end_op_not_last me s :
  committing (llog s) = 0 → 1 < outstanding (llog s) →
  end_op me s = Done ((), mk_lsys (lbio s) (set_outstanding (outstanding (llog s) - 1) (llog s)) (levents s ++ [WakeLog])).
Proof.
  intros Hc Ho. unfold end_op. erewrite run_bind by reflexivity. erewrite run_bind by reflexivity.
  change (committing (llog (set_llog _ s))) with (committing (llog s)). rewrite Hc. cbn [Z.eqb negb].
  change (outstanding (llog (set_llog _ s))) with (outstanding (llog s) - 1).
  by rewrite (proj2 (Z.eqb_neq _ _)) by lia.
Qed.

(** A commit with every buffer pinned cannot read the log. *)
Lemma commit_no_buffers me dev start s :
  0 < dev < 2 ^ 31 → 0 ≤ start < 2 ^ 30 → bio_inv (lbio s) → log_ok dev start (llog s) → nfree (lbio s) = 0%nat →
  refs (lbio s) (lk dev start 0) = 0 → 0 < lh_n (lh (llog s)) → commit me s = Panics.
Proof.
  intros Hdev Hstart Hi [L1 L2 L3 L4 L5] Hf Hr Hn.
  destruct (lookup_lt_is_Some_2 (listed (lh (llog s))) 0) as [b Hb]; [rewrite length_listed by done; lia|].
  destruct (listed_lookup _ _ _ Hb L3) as [Hs _].
  unfold commit. erewrite run_bind by reflexivity. rewrite (proj2 (Z.ltb_lt _ _)) by done. cbn [when].
  apply run_bind_panics. unfold write_log. erewrite run_bind by reflexivity.
  destruct (Z.to_nat (lh_n (lh (llog s)))) as [|m] eqn:Hm; [lia|]. cbn [for_].
  apply run_bind_panics. rewrite (run_bind _ _ _ _ _ (run_slot 0 _ b Hs)). apply run_zoom_panics, run_bind_panics.
  rewrite L1, L2, (u32_dev dev), (u32_log dev start) by (unfold LOGBLOCKS, MAXOPBLOCKS; lia).
  apply (bread_no_buffers me (lbio s) (lk dev start 0)); try done. cbn. lia.
Qed.

(** ** The properties *)

(** C21: The write-ahead log makes a system call one atomic change of the disk.  From
    any state without transactions, a call that reads, changes and logs at most
    MAXOPBLOCKS blocks returns, with the blocks the file system sees changed as by a
    sequential run on an array of blocks, and leaves such a state again.  If the machine
    crashes after any number [j] of the block writes this made, the boot's recovery returns
    and the blocks are all as before the call, or all as after it; when every
    write was made they are as after it.  A crash during that recovery changes nothing. *)
Theorem log_atomic me me' dev start s us :
  0 < dev < 2 ^ 31 → 0 ≤ start < 2 ^ 30 →
  idle dev start s → Forall (λ u, home dev start u.1 ∧ keeps_size u.2) us →
  Z.of_nat (length us) ≤ MAXOPBLOCKS →
  let blk k := ¬ in_log dev start k ∧ k.1 ≠ 0 in
  ∃ s' ws, (begin_op;; updates me dev us;; end_op me) s = Done ((), s') ∧ idle dev start s' ∧
    (∀ k, blk k → view (lbio s') k = spec_updates dev us (view (lbio s)) k) ∧
    bwrites (lbio s') = bwrites (lbio s) ++ ws ∧
    ∀ j, let d := apply_writes (take j ws) (bdisk (lbio s)) in
      ∃ r, initlog me' dev start (lboot_sys d) = Done ((), r) ∧ idle dev start r ∧
        ((∀ k, blk k → view (lbio r) k = view (lbio s) k) ∧ (j < length ws)%nat ∨
         (∀ k, blk k → view (lbio r) k = view (lbio s') k)) ∧
        ∀ j', ∃ r', initlog me' dev start (lboot_sys (apply_writes (take j' (bwrites (lbio r))) d)) = Done ((), r') ∧
          idle dev start r' ∧ ∀ k, blk k → view (lbio r') k = view (lbio r) k.
Proof.
  intros Hdev Hstart Hid Hus Hlen blk. pose proof Hid as [Hi Hn Ho Hco].
  set (s1 := set_llog (set_outstanding 1 (llog s)) s).
  assert (Hi1 : txn_inv dev start s1).
  { destruct Hi as [T1 T2 T3 T4 T5 T6 T7]. split; try done. by destruct T2; split. }
  destruct (updates_run me dev start Hdev us s1 Hi1 Hus) as (s2 & E2 & T2 & V2 & _ & N2 & O2 & C2 & [D2 W2]);
    [cbn; unfold LOGBLOCKS, MAXOPBLOCKS in *; lia|done|].
  destruct (end_op_run me dev start Hdev Hstart s2 T2) as (s' & ws & E3 & I3 & V3 & W3 & J3);
    [cbn [s1 llog set_llog set_outstanding lh] in N2; unfold MAXOPBLOCKS in *; lia|done|by rewrite C2|].
  change (bdisk (lbio s1)) with (bdisk (lbio s)) in D2. change (bwrites (lbio s1)) with (bwrites (lbio s)) in W2.
  exists s', ws. split.
  { rewrite (run_bind begin_op _ s () s1).
    - by rewrite (run_bind _ _ _ _ _ E2).
    - unfold begin_op. erewrite run_bind by reflexivity. by rewrite Hco, Hn, Ho. }
  split; [done|]. split; [intros k [Hk Hk1]; by rewrite V3, V2|]. split; [by rewrite W3, W2|].
  intros j d. specialize (J3 j). rewrite D2 in J3. fold d in J3. destruct J3 as [Hd Hor].
  destruct (initlog_idle me' dev start Hdev Hstart d Hd) as (r & Er & Ir & Vr & Hj).
  exists r. split; [done|]. split; [done|]. split.
  { destruct Hor as [[Hor Hlt]|Hor].
    - left. split; [|done]. intros k [Hk Hk1]. by rewrite Vr, Hor, (idle_view dev start).
    - right. intros k [Hk Hk1]. by rewrite Vr, Hor, V3. }
  intros j'. destruct (Hj j') as [Hd' Hr'].
  destruct (initlog_idle me' dev start Hdev Hstart _ Hd') as (r' & Er' & Ir' & Vr' & _).
  exists r'. split; [done|]. split; [done|]. intros k [Hk Hk1]. by rewrite Vr', Hr', Vr.
Qed.

(** The reservation of [begin_op] lets three system calls fill the log with
    LOGBLOCKS = 30 distinct blocks, ten each as each is allowed; as the buffer cache has
    no more than NBUF = 30 buffers and the log pins a buffer per block, the commit
    at the last [end_op] then finds no buffer to read the log block into, and panics. *)
Theorem full_log_panics me dev start s us :
  0 < dev < 2 ^ 31 → 0 ≤ start < 2 ^ 30 →
  idle dev start s → Forall (λ u, home dev start u.1 ∧ keeps_size u.2) us →
  NoDup us.*1 → Z.of_nat (length us) = 3 * MAXOPBLOCKS →
  (begin_op;; begin_op;; begin_op;; updates me dev us;; end_op me;; end_op me;; end_op me) s = Panics.
Proof.
  intros Hdev Hstart [[T1 T2 T3 T4 T5 T6 T7] Hn Ho Hco] Hus Hnd Hlen.
  assert (Hout : ∀ n, txn_inv dev start (set_llog (set_outstanding n (llog s)) s))
    by (intros n; split; try done; by destruct T2; split).
  assert (Hbeg : ∀ n (f : () → M lsys ()), 0 ≤ n < 3 → (begin_op ≫= f) (set_llog (set_outstanding n (llog s)) s) =
    f () (set_llog (set_outstanding (n + 1) (llog s)) s)).
  { intros n f Hn3. apply run_bind. rewrite begin_op_run; [done|done|]. cbn [llog set_llog set_outstanding lh outstanding].
    rewrite Hn. unfold LOGBLOCKS, MAXOPBLOCKS. lia. }
  replace s with (set_llog (set_outstanding 0 (llog s)) s) at 1 by (rewrite <- Ho; by destruct s as [? [] ?]).
  rewrite !Hbeg by lia. cbn [Z.add Pos.add].
  destruct (updates_run me dev start Hdev us _ (Hout 3) Hus) as (s2 & E2 & I2 & _ & B2 & _ & O2 & C2 & _);
    [cbn [llog set_llog set_outstanding lh]; rewrite Hn, Hlen; unfold LOGBLOCKS, MAXOPBLOCKS; lia|cbn; lia|].
  cbn [llog set_llog set_outstanding lh outstanding committing] in B2, O2, C2.
  assert (Hl0 : listed (lh (llog s)) = []) by (unfold listed; by rewrite Hn).
  rewrite Hl0, foldl_list_block in B2 by done. cbn [app] in B2.
  rewrite (run_bind _ _ _ _ _ E2), (run_bind _ _ _ _ _ (end_op_not_last me s2 ltac:(by rewrite C2) ltac:(lia))).
  rewrite O2. set (s3 := mk_lsys _ _ _).
  rewrite (run_bind _ _ _ _ _ (end_op_not_last me s3 ltac:(cbn; by rewrite C2) ltac:(cbn; lia))).
  destruct I2 as [P1 P2 P3 P4 P5 P6 P7]. pose proof (listed_n dev start s2 P2) as N2. rewrite B2 in N2, P4, P5.
  rewrite length_fmap in N2, P5.
  unfold end_op. erewrite run_bind by reflexivity. erewrite run_bind by reflexivity.
  cbn [llog set_llog set_outstanding committing outstanding s3]. rewrite C2, Hco.
  change (3 - 1 - 1 - 1 =? 0) with true. cbn [Z.eqb negb].
  erewrite run_bind by reflexivity. apply run_bind_panics. apply (commit_no_buffers me dev start); try done.
  - apply P1.
  - by destruct P2; split.
  - cbn [lbio set_llog s3]. unfold NBUF, MAXOPBLOCKS in *. lia.
  - cbn [lbio set_llog s3]. apply P4; [|cbn; lia].
    intros (b & He & Hb)%list_elem_of_In%in_map_iff. apply list_elem_of_In, list_elem_of_fmap in Hb as ([b' f] & -> & Hb).
    rewrite Forall_forall in Hus. destruct (Hus _ Hb) as [Hh _].
    apply (hk_not_log dev start _ 0 Hh); [unfold LOGBLOCKS, MAXOPBLOCKS; lia|done].
  - cbn [llog set_llog set_outstanding set_committing lh s3]. rewrite N2, Hlen. unfold MAXOPBLOCKS. lia.
Qed.

(** A machine just booted on an empty disk of zeros, its log at block 2 of device 1. *)
Definition demo_boot : lsys :=
  match initlog 7 1 2 (lboot_sys ∅) with Done (_, s) => s | _ => lboot_sys ∅ end.

(** Blocks 40 and 41 filled with 5 and 6. *)
Definition demo_updates : list (Z * (list Z → list Z)) :=
  [(40, λ l, replicate (length l) 5); (41, λ l, replicate (length l) 6)].

Lemma demo_disk_ok : disk_ok 1 2 ∅.
Proof.
  assert (H0 : hdr_n (dread ∅ (hdr 1 2)) = 0) by (vm_compute; reflexivity).
  assert (Hl : ∀ k, dread ∅ k = zero_block) by (intros k; unfold dread; by rewrite lookup_empty).
  split.
  - intros k. rewrite Hl. unfold zero_block. by rewrite length_replicate.
  - rewrite H0. unfold LOGBLOCKS, MAXOPBLOCKS. lia.
  - rewrite hdr_listed_0 by done. constructor.
  - rewrite hdr_listed_0 by done. constructor.
Qed.

Lemma demo_idle : idle 1 2 demo_boot.
Proof.
  destruct (initlog_idle 7 1 2 ltac:(lia) ltac:(lia) ∅ demo_disk_ok) as (s & E & I & _).
  unfold demo_boot. by rewrite E.
Qed.

Lemma log_atomic_witness :
  ∃ s' ws, (begin_op;; updates 7 1 demo_updates;; end_op 7) demo_boot = Done ((), s') ∧
    idle 1 2 s' ∧ bwrites (lbio s') = bwrites (lbio demo_boot) ++ ws ∧
    view (lbio s') (1, 41) = spec_updates 1 demo_updates (view (lbio demo_boot)) (1, 41).
Proof.
  destruct (log_atomic 7 8 1 2 demo_boot demo_updates ltac:(lia) ltac:(lia) demo_idle) as (s' & ws & E & I & V & W & _).
  - repeat constructor; cbn [fst snd demo_updates]; try lia;
      try (intros [_ Hk]; cbn [hk snd] in Hk; unfold LOGBLOCKS, MAXOPBLOCKS in Hk; lia);
      try (intros l Hl; by rewrite length_replicate).
  - cbn. unfold MAXOPBLOCKS. lia.
  - exists s', ws. split; [exact E|]. split; [exact I|]. split; [exact W|]. apply V.
    split; [|done]. intros [_ Hk]. cbn [snd] in Hk. unfold LOGBLOCKS, MAXOPBLOCKS in Hk. lia.
Defined.

(** Blocks 100 to 129. *)
Definition thirty : list (Z * (list Z → list Z)) := map (λ i, (Z.of_nat i, λ l, l)) (seq 100 30).

Lemma full_log_panics_witness :
  length thirty = 30%nat ∧
  (begin_op;; begin_op;; begin_op;; updates 7 1 thirty;; end_op 7;; end_op 7;; end_op 7) demo_boot = Panics.
Proof.
  split; [by vm_compute|].
  apply (full_log_panics 7 1 2 demo_boot thirty ltac:(lia) ltac:(lia) demo_idle).
  - unfold thirty. apply Forall_forall. intros u (i & <- & Hi%in_seq)%list_elem_of_In%in_map_iff. cbn [fst snd].
    split; [|by intros l]. split; [lia|]. intros [_ Hk]. cbn [hk snd] in Hk. unfold LOGBLOCKS, MAXOPBLOCKS in Hk. lia.
  - unfold thirty. rewrite <- list_fmap_compose. apply NoDup_ListNoDup, Finite.Injective_map_NoDup; [|apply seq_NoDup].
    intros i j. cbn. lia.
  - by vm_compute.
Defined.
