(* ===== verification/Fs.v ===== *)
(** * kernel/fs.c: blocks, inodes, directories and path names

    [fsys] is the log and buffer cache ([flog]), the inode table and the super
    block.  A pointer to an in-memory inode is its index in [itable].  The
    C structures on disk are read and written byte for byte in the block buffers.
    [copyout] and [copyin] to where the caller says are arguments: a test whether the
    bytes can be stored at an address, and the bytes found at one with whether all were
    there: a copy that fails may have copied some.  Paths and names are
    the bytes from the pointer on; past the end of the list reads as NUL. *)

From S2P Require Import Prelude CString Effect Printf Proc Locks Bio Log.

Local Open Scope Z_scope.

Definition ROOTINO : Z := 1.
Definition ROOTDEV : Z := 1.
Definition FSMAGIC : Z := 0x10203040.
Definition NDIRECT : Z := 12.
Definition NINDIRECT : Z := Z.of_nat BSIZE / 4.
Definition MAXFILE : Z := NDIRECT + NINDIRECT.
Definition IPB : Z := Z.of_nat BSIZE / 64.
Definition BPB : Z := Z.of_nat BSIZE * 8.
Definition NINODE : nat := 50.
Definition DIRSIZ : nat := 14.
Definition T_DIR : Z := 1.
Definition T_FILE : Z := 2.
Definition T_DEVICE : Z := 3.

(** ** Data *)

Record superblock := mk_sb {
  magic : Z; size : Z; nblocks : Z; ninodes : Z; nlog : Z; logstart : Z; inodestart : Z; bmapstart : Z;
}.

Record inode := mk_inode {
  idev : Z; inum : Z; iref : Z; ilk : sleeplock; ivalid : Z;
  itype : Z; imajor : Z; iminor : Z; inlink : Z; isize : Z; iaddrs : list Z;
}.

Record fsys := mk_fsys { flog : lsys; itable : list inode; sb : superblock }.

Definition set_flog (l : lsys) (s : fsys) : fsys := mk_fsys l (itable s) (sb s).
Definition set_itable (t : list inode) (s : fsys) : fsys := mk_fsys (flog s) t (sb s).
Definition on_log {A} (m : M lsys A) : M fsys A := zoom flog set_flog m.
Definition fbio {A} (m : M bio A) : M fsys A := on_log (on_bio m).
Definition say (l : list Z) : M fsys () := on_log (emit (Message l)).
Definition the_sb : M fsys superblock := gets sb.

Definition inode0 : inode := mk_inode 0 0 0 initsleeplock 0 0 0 0 0 0 (replicate 13 0).

(** [*ip] *)
Definition iat (ip : nat) (s : fsys) : inode := default inode0 (itable s !! ip).
Definition get_inode (ip : nat) : M fsys inode := gets (iat ip).
Definition upd_inode (ip : nat) (f : inode → inode) : M fsys () := modify (λ s, set_itable (alter f ip (itable s)) s).

Definition set_iref (n : Z) (i : inode) : inode :=
  mk_inode (idev i) (inum i) n (ilk i) (ivalid i) (itype i) (imajor i) (iminor i) (inlink i) (isize i) (iaddrs i).
Definition set_ilk (lk : sleeplock) (i : inode) : inode :=
  mk_inode (idev i) (inum i) (iref i) lk (ivalid i) (itype i) (imajor i) (iminor i) (inlink i) (isize i) (iaddrs i).
Definition set_ivalid (v : Z) (i : inode) : inode :=
  mk_inode (idev i) (inum i) (iref i) (ilk i) v (itype i) (imajor i) (iminor i) (inlink i) (isize i) (iaddrs i).
Definition set_itype (t : Z) (i : inode) : inode :=
  mk_inode (idev i) (inum i) (iref i) (ilk i) (ivalid i) t (imajor i) (iminor i) (inlink i) (isize i) (iaddrs i).
Definition set_idevs (ma mi : Z) (i : inode) : inode :=
  mk_inode (idev i) (inum i) (iref i) (ilk i) (ivalid i) (itype i) ma mi (inlink i) (isize i) (iaddrs i).
Definition set_inlink (n : Z) (i : inode) : inode :=
  mk_inode (idev i) (inum i) (iref i) (ilk i) (ivalid i) (itype i) (imajor i) (iminor i) n (isize i) (iaddrs i).
Definition set_isize (n : Z) (i : inode) : inode :=
  mk_inode (idev i) (inum i) (iref i) (ilk i) (ivalid i) (itype i) (imajor i) (iminor i) (inlink i) n (iaddrs i).
Definition set_addr (k : nat) (a : Z) (i : inode) : inode :=
  mk_inode (idev i) (inum i) (iref i) (ilk i) (ivalid i) (itype i) (imajor i) (iminor i) (inlink i) (isize i)
    (<[k := a]> (iaddrs i)).

(** *** On-disk words *)

Definition get_u16 (off : nat) (l : list Z) : Z := le_decode (sub off 2 l).
Definition get_u32 (off : nat) (l : list Z) : Z := le_decode (sub off 4 l).
Definition put_u16 (off : nat) (v : Z) (l : list Z) : list Z := blit l off (le_encode 2 v).

(** [struct dinode]: where the inode with number [n] is in its block, and its fields. *)
Definition dinode_off (n : Z) : nat := 64 * Z.to_nat (n mod IPB).

Record dinode := mk_dinode {
  di_type : Z; di_major : Z; di_minor : Z; di_nlink : Z; di_size : Z; di_addrs : list Z;
}.

Definition dinode_of (n : Z) (l : list Z) : dinode :=
  let o := dinode_off n in
  mk_dinode (s16 (get_u16 o l)) (s16 (get_u16 (o + 2) l)) (s16 (get_u16 (o + 4) l)) (s16 (get_u16 (o + 6) l))
    (get_u32 (o + 8) l) (map (λ i, get_u32 (o + 12 + 4 * i) l) (seq 0 13)).

Fixpoint put_u32s (off : nat) (vs : list Z) (l : list Z) : list Z :=
  match vs with
  | [] => l
  | v :: vs' => put_u32s (off + 4) vs' (put32 off v l)
  end.

Definition put_dinode (n : Z) (d : dinode) (l : list Z) : list Z :=
  let o := dinode_off n in
  put_u32s (o + 12) (di_addrs d)
    (put32 (o + 8) (di_size d)
      (put_u16 (o + 6) (di_nlink d) (put_u16 (o + 4) (di_minor d)
        (put_u16 (o + 2) (di_major d) (put_u16 o (di_type d) l))))).

Definition IBLOCK (i : Z) (b : superblock) : Z := u32 (i / IPB + inodestart b).
Definition BBLOCK (b : Z) (s : superblock) : Z := u32 (b / BPB + bmapstart s).

Section fs.
Context (me : Z).

(** [bread] and [brelse] from here on. *)
Definition rd_block (dev bno : Z) : M fsys nat := fbio (bread me dev bno).
Definition rel_block (b : nat) : M fsys () := fbio (brelse me b).
Definition block_data (b : nat) : M fsys (list Z) := fbio (data_of b).
Definition set_block_data (b : nat) (l : list Z) : M fsys () := fbio (set_data b l).
Definition log_block_write (b : nat) : M fsys () := on_log (log_write b).

(** ** Blocks *)

Definition parse_sb (l : list Z) : superblock :=
  mk_sb (get_u32 0 l) (get_u32 4 l) (get_u32 8 l) (get_u32 12 l) (get_u32 16 l) (get_u32 20 l) (get_u32 24 l) (get_u32 28 l).

Definition readsb (dev : Z) : M fsys () :=
  b ← rd_block dev 1;
  l ← block_data b;
  modify (λ s, mk_fsys (flog s) (itable s) (parse_sb l));;
  rel_block b.

Definition bzero (dev bno : Z) : M fsys () :=
  b ← rd_block dev bno;
  l ← block_data b;
  set_block_data b (replicate BSIZE 0);;
  log_block_write b;;
  rel_block b.

(** Bit [bi] of the bitmap block. *)
Definition bit_mask (bi : Z) : Z := Z.shiftl 1 (bi mod 8).
Definition bit_free (bi : Z) (l : list Z) : bool := Z.land (nth (Z.to_nat (bi / 8)) l 0) (bit_mask bi) =? 0.
Definition set_bit (bi : Z) (l : list Z) : list Z :=
  let i := Z.to_nat (bi / 8) in <[i := Z.lor (nth i l 0) (bit_mask bi)]> l.
Definition clear_bit (bi : Z) (l : list Z) : list Z :=
  let i := Z.to_nat (bi / 8) in <[i := Z.land (nth i l 0) (Z.lnot (bit_mask bi))]> l.

(** The inner loop of [balloc]: the first free bit from [bi], below BPB and the end of the disk. *)
Fixpoint find_bit (fuel : nat) (b bi sz : Z) (l : list Z) : option Z :=
  match fuel with
  | O => None
  | S fuel' =>
      if (bi <? BPB) && (b + bi <? sz) then
        if bit_free bi l then Some bi else find_bit fuel' b (bi + 1) sz l
      else None
  end.

(** The outer loop, from block [b]; [None] when it runs off the end. *)
Fixpoint balloc_loop (fuel : nat) (dev b : Z) : M fsys (option Z) :=
  match fuel with
  | O => mret None
  | S fuel' =>
      s ← the_sb;
      if b <? size s then
        bp ← rd_block dev (BBLOCK b s);
        l ← block_data bp;
        match find_bit (Z.to_nat BPB) b 0 (size s) l with
        | Some bi =>
            set_block_data bp (set_bit bi l);;
            log_block_write bp;;
            rel_block bp;;
            bzero dev (b + bi);;
            mret (Some (b + bi))
        | None => rel_block bp;; balloc_loop fuel' dev (b + BPB)
        end
      else mret None
  end.

Definition balloc (dev : Z) : M fsys Z :=
  s ← the_sb;
  r ← balloc_loop (S (Z.to_nat (size s / BPB + 1))) dev 0;
  match r with
  | Some b => mret b
  | None => say (printf (bytes "balloc: out of blocks
") []);; mret 0
  end.

Definition bfree (dev b : Z) : M fsys () :=
  s ← the_sb;
  bp ← rd_block dev (BBLOCK b s);
  l ← block_data bp;
  let bi := b mod BPB in
  if bit_free bi l then panics
  else
    set_block_data bp (clear_bit bi l);;
    log_block_write bp;;
    rel_block bp.

(** ** The inode table *)

Definition iinit (t : list inode) : list inode := map (set_ilk initsleeplock) t.

Definition iget (dev n : Z) : M fsys nat := λ s,
  match find_index (λ i, (0 <? iref i) && (idev i =? dev) && (inum i =? n)) (itable s) with
  | Some ip => Done (ip, set_itable (alter (λ i, set_iref (s32 (iref i + 1)) i) ip (itable s)) s)
  | None =>
      match find_index (λ i, iref i =? 0) (itable s) with
      | Some ip =>
          Done (ip, set_itable (alter (λ i, mk_inode dev n 1 (ilk i) 0 (itype i) (imajor i) (iminor i) (inlink i)
            (isize i) (iaddrs i)) ip (itable s)) s)
      | None => Panics
      end
  end.

Definition idup (ip : nat) : M fsys nat :=
  upd_inode ip (λ i, set_iref (s32 (iref i + 1)) i);; mret ip.

(** [acquiresleep(&ip->lock)] *)
Definition lock_inode (ip : nat) : M fsys () := λ s,
  match acquiresleep me (ilk (iat ip s)) with
  | Some lk => Done ((), set_itable (alter (set_ilk lk) ip (itable s)) s)
  | None => Blocks
  end.

Definition load (d : dinode) (i : inode) : inode :=
  mk_inode (idev i) (inum i) (iref i) (ilk i) (ivalid i) (di_type d) (di_major d) (di_minor d) (di_nlink d)
    (di_size d) (di_addrs d).

Definition ilock (ip : nat) : M fsys () :=
  i ← get_inode ip;
  if iref i <? 1 then panics
  else
    lock_inode ip;;
    i ← get_inode ip;
    when (ivalid i =? 0) (
      s ← the_sb;
      b ← rd_block (idev i) (IBLOCK (inum i) s);
      l ← block_data b;
      upd_inode ip (load (dinode_of (inum i) l));;
      rel_block b;;
      upd_inode ip (set_ivalid 1);;
      i ← get_inode ip;
      when (itype i =? 0) panics).

Definition iunlock (ip : nat) : M fsys () :=
  i ← get_inode ip;
  if negb (holdingsleep me (ilk i)) || (iref i <? 1) then panics
  else upd_inode ip (λ i, set_ilk (releasesleep (ilk i)) i).

Definition unload (i : inode) : dinode :=
  mk_dinode (itype i) (imajor i) (iminor i) (inlink i) (isize i) (iaddrs i).

Definition iupdate (ip : nat) : M fsys () :=
  s ← the_sb;
  i ← get_inode ip;
  b ← rd_block (idev i) (IBLOCK (inum i) s);
  l ← block_data b;
  set_block_data b (put_dinode (inum i) (unload i) l);;
  log_block_write b;;
  rel_block b.

(** The search of [ialloc] from inode [n]; [memset(dip, 0, 64)] and the type. *)
Definition fresh_dinode (type : Z) : dinode := mk_dinode type 0 0 0 0 (replicate 13 0).

Fixpoint ialloc_loop (fuel : nat) (dev type n : Z) : M fsys (option nat) :=
  match fuel with
  | O => mret None
  | S fuel' =>
      s ← the_sb;
      if n <? ninodes s then
        b ← rd_block dev (IBLOCK n s);
        l ← block_data b;
        if di_type (dinode_of n l) =? 0 then
          set_block_data b (put_dinode n (fresh_dinode type) l);;
          log_block_write b;;
          rel_block b;;
          ip ← iget dev n;
          mret (Some ip)
        else rel_block b;; ialloc_loop fuel' dev type (n + 1)
      else mret None
  end.

Definition ialloc (dev type : Z) : M fsys (option nat) :=
  s ← the_sb;
  r ← ialloc_loop (Z.to_nat (ninodes s)) dev type 1;
  match r with
  | Some ip => mret (Some ip)
  | None => say (printf (bytes "ialloc: no inodes
") []);; mret None
  end.
(** ** The contents of an inode *)

(** The direct block [bn], or the indirect one for [bn = NDIRECT], allocated if need be. *)
Definition addr_or_alloc (ip bn : nat) : M fsys Z :=
  i ← get_inode ip;
  a ← deref (iaddrs i !! bn);
  if a =? 0 then
    a ← balloc (idev i);
    when (negb (a =? 0)) (upd_inode ip (set_addr bn a));;
    mret a
  else mret a.

Definition bmap (ip : nat) (bn : Z) : M fsys Z :=
  if bn <? NDIRECT then addr_or_alloc ip (Z.to_nat bn)
  else
    let bn := bn - NDIRECT in
    if bn <? NINDIRECT then
      addr ← addr_or_alloc ip (Z.to_nat NDIRECT);
      if addr =? 0 then mret 0
      else
        i ← get_inode ip;
        bp ← rd_block (idev i) addr;
        l ← block_data bp;
        let a := get_u32 (4 * Z.to_nat bn) l in
        addr ← (if a =? 0 then
                  addr ← balloc (idev i);
                  when (negb (addr =? 0)) (
                    l ← block_data bp;
                    set_block_data bp (put32 (4 * Z.to_nat bn) addr l);;
                    log_block_write bp);;
                  mret addr
                else mret a);
        rel_block bp;;
        mret addr
    else panics.

Definition itrunc (ip : nat) : M fsys () :=
  i ← get_inode ip;
  for_ (Z.to_nat NDIRECT) 0 (λ k,
    j ← get_inode ip;
    a ← deref (iaddrs j !! Z.to_nat k);
    when (negb (a =? 0)) (bfree (idev i) a;; upd_inode ip (set_addr (Z.to_nat k) 0)));;
  j ← get_inode ip;
  a ← deref (iaddrs j !! Z.to_nat NDIRECT);
  when (negb (a =? 0)) (
    bp ← rd_block (idev i) a;
    for_ (Z.to_nat NINDIRECT) 0 (λ k,
      l ← block_data bp;
      let b := get_u32 (4 * Z.to_nat k) l in
      when (negb (b =? 0)) (bfree (idev i) b));;
    rel_block bp;;
    bfree (idev i) a;;
    upd_inode ip (set_addr (Z.to_nat NDIRECT) 0));;
  upd_inode ip (set_isize 0);;
  iupdate ip.

Definition iput (ip : nat) : M fsys () :=
  i ← get_inode ip;
  when ((iref i =? 1) && negb (ivalid i =? 0) && (inlink i =? 0)) (
    lock_inode ip;;
    itrunc ip;;
    upd_inode ip (set_itype 0);;
    iupdate ip;;
    upd_inode ip (set_ivalid 0);;
    upd_inode ip (λ i, set_ilk (releasesleep (ilk i)) i));;
  upd_inode ip (λ i, set_iref (s32 (iref i - 1)) i).

Definition iunlockput (ip : nat) : M fsys () := iunlock ip;; iput ip.

(** One round of [ireclaim]. *)
Definition reclaim_one (dev n : Z) : M fsys () :=
  s ← the_sb;
  bp ← rd_block dev (IBLOCK n s);
  l ← block_data bp;
  let d := dinode_of n l in
  ip ← (if negb (di_type d =? 0) && (di_nlink d =? 0)
        then say (printf (bytes "ireclaim: orphaned inode %d
") [VInt n]);; ip ← iget dev n; mret (Some ip)
        else mret None);
  rel_block bp;;
  match ip with
  | Some ip =>
      on_log begin_op;;
      ilock ip;;
      iunlock ip;;
      iput ip;;
      on_log (end_op me)
  | None => mret ()
  end.

Definition ireclaim (dev : Z) : M fsys () :=
  s ← the_sb;
  for_ (Z.to_nat (ninodes s - 1)) 1 (reclaim_one dev).

Definition fsinit (dev : Z) : M fsys () :=
  readsb dev;;
  s ← the_sb;
  if negb (magic s =? FSMAGIC) then panics
  else
    on_log (initlog me dev (logstart s));;
    ireclaim dev.

Record stat := mk_stat { st_dev : Z; st_ino : Z; st_type : Z; st_nlink : Z; st_size : Z }.

Definition stati (ip : nat) : M fsys stat :=
  i ← get_inode ip;
  mret (mk_stat (s32 (idev i)) (inum i) (itype i) (inlink i) (isize i)).

(** The copying loop of [readi]: [tot] bytes done of [n], at [off] of the file and
    [dst] of the destination; the bytes copied out are returned too. *)
Fixpoint read_chunks (fuel : nat) (ok : Z → list Z → bool) (ip : nat) (dst off tot n : Z) : M fsys (Z * list Z) :=
  match fuel with
  | O => mret (tot, [])
  | S fuel' =>
      if tot <? n then
        addr ← bmap ip (off / Z.of_nat BSIZE);
        if addr =? 0 then mret (tot, [])
        else
          i ← get_inode ip;
          bp ← rd_block (idev i) addr;
          l ← block_data bp;
          let m := Z.min (n - tot) (Z.of_nat BSIZE - off mod Z.of_nat BSIZE) in
          let chunk := sub (Z.to_nat (off mod Z.of_nat BSIZE)) (Z.to_nat m) l in
          if negb (ok dst chunk) then rel_block bp;; mret (-1, [])
          else
            rel_block bp;;
            '(t, rest) ← read_chunks fuel' ok ip (u64 (dst + m)) (u32 (off + m)) (tot + m) n;
            mret (t, chunk ++ rest)
      else mret (tot, [])
  end.

(** With the value returned (an [int]), the bytes stored at [dst] and up. *)
Definition readi (ok : Z → list Z → bool) (ip : nat) (dst off n : Z) : M fsys (Z * list Z) :=
  i ← get_inode ip;
  if (isize i <? off) || (u32 (off + n) <? off) then mret (0, [])
  else
    let n := if isize i <? u32 (off + n) then isize i - off else n in
    '(t, l) ← read_chunks (Z.to_nat n) ok ip dst off 0 n;
    mret (s32 t, l).

(** The copying loop of [writei]; what is left of [off] is returned too. *)
Fixpoint write_chunks (fuel : nat) (src_at : Z → Z → list Z * bool) (ip : nat) (src off tot n : Z) : M fsys (Z * Z) :=
  match fuel with
  | O => mret (tot, off)
  | S fuel' =>
      if tot <? n then
        addr ← bmap ip (off / Z.of_nat BSIZE);
        if addr =? 0 then mret (tot, off)
        else
          i ← get_inode ip;
          bp ← rd_block (idev i) addr;
          l ← block_data bp;
          let m := Z.min (n - tot) (Z.of_nat BSIZE - off mod Z.of_nat BSIZE) in
          let '(chunk, ok) := src_at src m in
          set_block_data bp (blit l (Z.to_nat (off mod Z.of_nat BSIZE)) chunk);;
          if negb ok then rel_block bp;; mret (tot, off)
          else
            log_block_write bp;;
            rel_block bp;;
            write_chunks fuel' src_at ip (u64 (src + m)) (u32 (off + m)) (tot + m) n
      else mret (tot, off)
  end.

Definition writei (src_at : Z → Z → list Z * bool) (ip : nat) (src off n : Z) : M fsys Z :=
  i ← get_inode ip;
  if (isize i <? off) || (u32 (off + n) <? off) then mret (-1)
  else if MAXFILE * Z.of_nat BSIZE <? u32 (off + n) then mret (-1)
  else
    '(t, off) ← write_chunks (Z.to_nat n) src_at ip src off 0 n;
    i ← get_inode ip;
    when (isize i <? off) (upd_inode ip (set_isize off));;
    iupdate ip;;
    mret (s32 t).

(** ** Directories: 16-byte entries, an inode number and a name *)

Definition sizeof_dirent : Z := 16.
Definition de_inum (l : list Z) : Z := get_u16 0 l.
Definition de_name (l : list Z) : list Z := sub 2 DIRSIZ l.

Definition namecmp (s t : list Z) : Z := strncmp s t DIRSIZ.

(** [readi] of one entry into kernel memory. *)
Definition read_dirent (dp : nat) (off : Z) : M fsys (list Z) :=
  '(r, l) ← readi (λ _ _, true) dp 0 off sizeof_dirent;
  if negb (r =? sizeof_dirent) then panics else mret l.

(** The inode and the offset of the entry. *)
Fixpoint dirlookup_loop (fuel : nat) (dp : nat) (name : list Z) (off : Z) : M fsys (option (nat * Z)) :=
  match fuel with
  | O => mret None
  | S fuel' =>
      i ← get_inode dp;
      if off <? isize i then
        de ← read_dirent dp off;
        if de_inum de =? 0 then dirlookup_loop fuel' dp name (off + sizeof_dirent)
        else if namecmp name (de_name de) =? 0 then
          ip ← iget (idev i) (de_inum de);
          mret (Some (ip, off))
        else dirlookup_loop fuel' dp name (off + sizeof_dirent)
      else mret None
  end.

Definition dirlookup (dp : nat) (name : list Z) : M fsys (option (nat * Z)) :=
  i ← get_inode dp;
  if negb (itype i =? T_DIR) then panics
  else dirlookup_loop (S (Z.to_nat (isize i / sizeof_dirent))) dp name 0.

(** The offset of the first empty entry, or of the end. *)
Fixpoint empty_dirent (fuel : nat) (dp : nat) (off : Z) : M fsys Z :=
  match fuel with
  | O => mret off
  | S fuel' =>
      i ← get_inode dp;
      if off <? isize i then
        de ← read_dirent dp off;
        if de_inum de =? 0 then mret off else empty_dirent fuel' dp (off + sizeof_dirent)
      else mret off
  end.

(** The entry [dirlink] writes. *)
Definition dirent (n : Z) (name : list Z) : list Z := le_encode 2 n ++ strncpy (replicate DIRSIZ 0) name DIRSIZ.

Definition dirlink (dp : nat) (name : list Z) (n : Z) : M fsys Z :=
  r ← dirlookup dp name;
  match r with
  | Some (ip, _) => iput ip;; mret (-1)
  | None =>
      i ← get_inode dp;
      off ← empty_dirent (S (Z.to_nat (isize i / sizeof_dirent))) dp 0;
      w ← writei (λ _ _, (dirent n name, true)) dp 0 off sizeof_dirent;
      mret (if w =? sizeof_dirent then 0 else -1)
  end.

(** ** Paths *)

Definition slash : Z := 47.
Definition dot : Z := 46.

Fixpoint skip_slashes (path : list Z) : list Z :=
  match path with c :: path' => if c =? slash then skip_slashes path' else path | [] => [] end.

(** The bytes up to a slash or NUL, and the rest. *)
Fixpoint elem_span (path : list Z) : list Z * list Z :=
  match path with
  | c :: path' =>
      if (c =? slash) || (c =? 0) then ([], path)
      else let '(e, r) := elem_span path' in (c :: e, r)
  | [] => ([], [])
  end.

(** The rest of the path and the name buffer. *)
Definition skipelem (path name : list Z) : option (list Z * list Z) :=
  let path := skip_slashes path in
  if hd 0 path =? 0 then None
  else
    let '(s, path) := elem_span path in
    let name := if (DIRSIZ <=? length s)%nat then blit name 0 (take DIRSIZ s)
                else <[length s := 0]> (blit name 0 s) in
    Some (skip_slashes path, name).

(** What [namex] reads of the process: [None] before there is one. *)
Record pctx := mk_pctx { px_agent : Z; px_jail : option nat; px_cwd : nat }.

Definition is_dotdot (name : list Z) : bool :=
  (nth 0 name 0 =? dot) && (nth 1 name 0 =? dot) && (nth 2 name 0 =? 0).

Definition jail_of (pr : option pctx) : option nat :=
  match pr with
  | Some p => if negb (px_agent p =? 0) then px_jail p else None
  | None => None
  end.

Fixpoint namex_loop (fuel : nat) (jail : option nat) (parent : bool) (ip : nat) (path name : list Z) :
    M fsys (option nat * list Z) :=
  match fuel with
  | O => undef
  | S fuel' =>
      match skipelem path name with
      | None => if parent then iput ip;; mret (None, name) else mret (Some ip, name)
      | Some (path, name) =>
          ilock ip;;
          i ← get_inode ip;
          if negb (itype i =? T_DIR) then iunlockput ip;; mret (None, name)
          else if parent && (hd 0 path =? 0) then iunlock ip;; mret (Some ip, name)
          else
            pinned ← match jail with
                     | Some jr => j ← get_inode jr; mret (is_dotdot name && (idev i =? idev j) && (inum i =? inum j))
                     | None => mret false
                     end;
            if (pinned : bool) then iunlock ip;; namex_loop fuel' jail parent ip path name
            else
              r ← dirlookup ip name;
              match r with
              | None => iunlockput ip;; mret (None, name)
              | Some (next, _) => iunlockput ip;; namex_loop fuel' jail parent next path name
              end
      end
  end.

Definition namex (pr : option pctx) (parent : bool) (path name : list Z) : M fsys (option nat * list Z) :=
  let jail := jail_of pr in
  ip ← (if hd 0 path =? slash
        then match jail with Some jr => idup jr | None => iget ROOTDEV ROOTINO end
        else match pr with Some p => idup (px_cwd p) | None => undef end);
  namex_loop (S (length path)) jail parent ip path name.

Definition namei (pr : option pctx) (path : list Z) : M fsys (option nat) :=
  '(ip, _) ← namex pr false path (replicate DIRSIZ 0); mret ip.

Definition nameiparent (pr : option pctx) (path name : list Z) : M fsys (option nat * list Z) :=
  namex pr true path name.
End fs.
