(* ===== verification/Dinode.v ===== *)
(** * struct dinode in its block

    [put_dinode] of Fs.v stores the fields one by one; here it is a [blit] of 64 bytes, so reading
    back, other inodes of the block and writing back unchanged follow from lemmas on [sub] and [blit]. *)

From S2P Require Import Prelude CString Effect Printf Proc Locks Bio Log Fs.

Local Open Scope Z_scope.

(** ** Inodes in their block *)

Lemma blit_sub {A} (l : list A) off n : (off + n ≤ length l)%nat → blit l off (sub off n l) = l.
Proof.
  intros H. unfold blit. rewrite (length_sub l off n) by done. unfold sub.
  rewrite <- (drop_drop l n off), take_drop. apply take_drop.
Qed.

Lemma sub_sub {A} (l : list A) o n o' n' : (o' + n' ≤ n)%nat → sub o' n' (sub o n l) = sub (o + o') n' l.
Proof.
  intros H. unfold sub. rewrite (take_drop_commute (take n (drop o l)) n' o'), take_take, Nat.min_l by lia.
  by rewrite <- take_drop_commute, drop_drop.
Qed.

Lemma blit_adjacent {A} (l a b : list A) o :
  (o + length a ≤ length l)%nat → blit (blit l o a) (o + length a) b = blit l o (a ++ b).
Proof.
  intros H. unfold blit. assert (Ht : length (take o l) = o) by (rewrite length_take; lia).
  rewrite (app_assoc (take o l) a), length_app, take_app_length' by (rewrite length_app; lia).
  rewrite drop_app_ge by (rewrite length_app; lia). rewrite length_app, Ht, drop_drop, <- !app_assoc.
  by replace (o + length a + (o + length a + length b - (o + length a)))%nat with (o + (length a + length b))%nat by lia.
Qed.

Lemma le_encode_decode l : Forall is_u8 l → le_encode (length l) (le_decode l) = l.
Proof.
  induction 1 as [|b l Hb Hl IH]; [done|]. unfold is_u8 in Hb. cbn [length le_decode le_encode]. f_equal.
  - rewrite Z.mul_comm, Z_mod_plus_full. by apply Z.mod_small.
  - replace ((b + 2 ^ 8 * le_decode l) / 2 ^ 8) with (le_decode l); [done|].
    rewrite Z.mul_comm, Z.div_add, Z.div_small by lia. lia.
Qed.

(** [struct dinode] as 64 bytes. *)
Definition dinode_bytes (d : dinode) : list Z :=
  le_encode 2 (di_type d) ++ le_encode 2 (di_major d) ++ le_encode 2 (di_minor d) ++ le_encode 2 (di_nlink d) ++
  le_encode 4 (di_size d) ++ concat (map (le_encode 4) (di_addrs d)).

Lemma length_words (vs : list Z) : length (concat (map (le_encode 4) vs)) = (4 * length vs)%nat.
Proof. induction vs as [|x vs IH]; [done|]. cbn [map concat length]. rewrite length_app, IH, length_le_encode. lia. Qed.

Lemma length_dinode_bytes d : length (di_addrs d) = 13%nat → length (dinode_bytes d) = 64%nat.
Proof. intros H. unfold dinode_bytes. rewrite !length_app, !length_le_encode, length_words. lia. Qed.

Lemma put_u32s_blit vs : ∀ off l, (off + 4 * length vs ≤ length l)%nat → put_u32s off vs l = blit l off (concat (map (le_encode 4) vs)).
Proof.
  induction vs as [|x vs IH]; intros off l H; cbn [put_u32s map concat length] in *.
  { unfold blit. cbn. rewrite Nat.add_0_r. by rewrite take_drop. }
  rewrite IH by (unfold put32; rewrite length_blit, ?length_le_encode; rewrite ?length_le_encode; lia).
  unfold put32. rewrite <- (length_le_encode 4 x) at 2. by apply blit_adjacent; rewrite length_le_encode; lia.
Qed.

Lemma dinode_off_fits n : (dinode_off n + 64 ≤ BSIZE)%nat.
Proof.
  unfold dinode_off. pose proof (Z.mod_pos_bound n IPB ltac:(done)). change IPB with 16 in *. unfold BSIZE. lia.
Qed.

Lemma put_dinode_blit n d l :
  length l = BSIZE → length (di_addrs d) = 13%nat → put_dinode n d l = blit l (dinode_off n) (dinode_bytes d).
Proof.
  intros Hl Ha. pose proof (dinode_off_fits n) as Hf. set (o := dinode_off n) in *. unfold put_dinode, put32, put_u16. fold o.
  assert (Hadj : ∀ a k b, length a = k → (k ≤ 64)%nat → blit (blit l o a) (o + k) b = blit l o (a ++ b)).
  { intros a k b <- Hk. apply blit_adjacent. lia. }
  rewrite !(Hadj _ _ (le_encode _ _)) by (rewrite ?length_app, ?length_le_encode; lia).
  rewrite put_u32s_blit by (rewrite length_blit; rewrite ?length_app, ?length_le_encode, ?Ha; lia).
  rewrite Hadj by (rewrite ?length_app, ?length_le_encode; lia). unfold dinode_bytes. by rewrite <- !app_assoc.
Qed.

Lemma length_put_dinode n d l : length l = BSIZE → length (di_addrs d) = 13%nat → length (put_dinode n d l) = BSIZE.
Proof.
  intros Hl Ha. rewrite put_dinode_blit by done. pose proof (dinode_off_fits n).
  rewrite length_blit; rewrite ?length_dinode_bytes by done; lia.
Qed.

(** A [struct dinode] depends on its 64 bytes only. *)
Lemma dinode_of_sub n l : dinode_of n l = dinode_of 0 (sub (dinode_off n) 64 l).
Proof.
  unfold dinode_of, get_u16, get_u32. change (dinode_off 0) with 0%nat. rewrite !sub_sub by lia.
  f_equal; [by rewrite Nat.add_0_r|].
  apply map_ext_in. intros i Hi%in_seq. rewrite sub_sub by lia. do 2 f_equal. lia.
Qed.

(** What a block says of an inode whose bytes it does not change. *)
Lemma dinode_of_other n n' d l :
  length l = BSIZE → length (di_addrs d) = 13%nat → n mod IPB ≠ n' mod IPB → dinode_of n' (put_dinode n d l) = dinode_of n' l.
Proof.
  intros Hl Ha Hn. rewrite !(dinode_of_sub n'). f_equal. rewrite put_dinode_blit by done.
  pose proof (dinode_off_fits n). pose proof (dinode_off_fits n'). pose proof (length_dinode_bytes d Ha) as Hd.
  pose proof (Z.mod_pos_bound n IPB ltac:(done)). pose proof (Z.mod_pos_bound n' IPB ltac:(done)).
  destruct (Z.lt_ge_cases (n' mod IPB) (n mod IPB)).
  - apply sub_blit_lt; unfold dinode_off in *; lia.
  - apply sub_blit_ge; unfold dinode_off in *; lia.
Qed.

Lemma sub_skip {A} k (a b : list A) o n : length a = k → (k ≤ o)%nat → sub o n (a ++ b) = sub (o - k) n b.
Proof. intros <- Ho. unfold sub. by rewrite drop_app_ge. Qed.

Lemma sub_here {A} (a b : list A) n : length a = n → sub 0 n (a ++ b) = a.
Proof. intros <-. apply take_app_length. Qed.

Lemma sub_word i (vs : list Z) : ∀ x, vs !! i = Some x → sub (4 * i) 4 (concat (map (le_encode 4) vs)) = le_encode 4 x.
Proof.
  revert i. induction vs as [|y vs IH]; intros [|i] x Hx; try done; cbn [map concat].
  - injection Hx as ->. by apply sub_here.
  - rewrite (sub_skip 4) by (done || lia). replace (4 * S i - 4)%nat with (4 * i)%nat by lia. by apply IH.
Qed.

(** What fits the fields. *)
Record dinode_ok (d : dinode) : Prop := {
  do_type : - 2 ^ 15 ≤ di_type d < 2 ^ 15;
  do_major : - 2 ^ 15 ≤ di_major d < 2 ^ 15;
  do_minor : - 2 ^ 15 ≤ di_minor d < 2 ^ 15;
  do_nlink : - 2 ^ 15 ≤ di_nlink d < 2 ^ 15;
  do_size : is_u32 (di_size d);
  do_len : length (di_addrs d) = 13%nat;
  do_addrs : Forall is_u32 (di_addrs d);
}.

Lemma s16_word x : - 2 ^ 15 ≤ x < 2 ^ 15 → s16 (le_decode (le_encode 2 x)) = x.
Proof.
  intros Hx. rewrite le_encode_mod, le_decode_encode by (apply Z.mod_pos_bound; lia).
  change (8 * Z.of_nat 2) with 16. unfold s16. rewrite Z.mod_mod by done. cbv zeta.
  destruct (Z.ltb_spec (x mod 2 ^ 16) (2 ^ 15)); Z.div_mod_to_equations; lia.
Qed.

Lemma dinode_of_bytes d : dinode_ok d → dinode_of 0 (dinode_bytes d) = d.
Proof.
  intros [H1 H2 H3 H4 H5 H6 H7]. unfold dinode_of, get_u16, get_u32, dinode_bytes. change (dinode_off 0) with 0%nat.
  destruct d as [ty ma mi nl sz ad]. cbn [di_type di_major di_minor di_nlink di_size di_addrs] in *. f_equal.
  - by rewrite sub_here, s16_word.
  - rewrite !(sub_skip 2) by (done || lia). by rewrite sub_here, s16_word.
  - rewrite !(sub_skip 2) by (done || lia). by rewrite sub_here, s16_word.
  - rewrite !(sub_skip 2) by (done || lia). by rewrite sub_here, s16_word.
  - rewrite !(sub_skip 2) by (done || lia). by rewrite sub_here, le_decode_encode.
  - apply list_eq. intros i. rewrite lookup_map. destruct (ad !! i) as [x|] eqn:Hx.
    + pose proof (lookup_lt_Some _ _ _ Hx). rewrite lookup_seq_lt by lia. cbn [fmap option_map option_fmap].
      rewrite !(sub_skip 2) by (done || lia). rewrite (sub_skip 4) by (done || lia).
      replace (0 + 12 + 4 * (0 + i) - 2 - 2 - 2 - 2 - 4)%nat with (4 * i)%nat by lia.
      rewrite (sub_word i ad x Hx), le_decode_encode; [done|]. by eapply Forall_lookup_1 in H7.
    + apply lookup_ge_None_1 in Hx. by rewrite lookup_seq_ge by lia.
Qed.

Lemma dinode_of_put n d l : length l = BSIZE → dinode_ok d → dinode_of n (put_dinode n d l) = d.
Proof.
  intros Hl Hd. pose proof (do_len _ Hd) as Ha. rewrite dinode_of_sub, put_dinode_blit by done.
  pose proof (dinode_off_fits n). rewrite (sub_blit_at _ _ _ 64); [by apply dinode_of_bytes|by apply length_dinode_bytes|lia].
Qed.

Lemma sub_join {A} (l : list A) o n m : sub o n l ++ sub (o + n) m l = sub o (n + m) l.
Proof. unfold sub. rewrite <- drop_drop. apply take_take_drop. Qed.

Lemma le_encode_sub o n l : Forall is_u8 l → (o + n ≤ length l)%nat → le_encode n (le_decode (sub o n l)) = sub o n l.
Proof. intros Hl Hn. rewrite <- (length_sub l o n Hn) at 1. by apply le_encode_decode, Forall_sub. Qed.

Lemma le_encode_s16 x : le_encode 2 (s16 x) = le_encode 2 x.
Proof.
  rewrite (le_encode_mod 2 (s16 x)), (le_encode_mod 2 x). f_equal. change (8 * Z.of_nat 2) with 16.
  unfold s16. cbv zeta. destruct (_ <? _); [by rewrite Z.mod_mod|].
  rewrite <- (Z_mod_plus_full (x mod 2 ^ 16 - 2 ^ 16) 1 (2 ^ 16)).
  replace (x mod 2 ^ 16 - 2 ^ 16 + 1 * 2 ^ 16) with (x mod 2 ^ 16) by lia. by apply Z.mod_mod.
Qed.

Lemma words_sub l : Forall is_u8 l → ∀ n o, (o + 4 * n ≤ length l)%nat →
  ∀ a, concat (map (le_encode 4) (map (λ i, get_u32 (o + 4 * i - 4 * a) l) (seq a n))) = sub o (4 * n) l.
Proof.
  intros Hu. induction n as [|n IH]; intros o Ho a; [by rewrite Nat.mul_0_r|]. cbn [seq map concat].
  replace (o + 4 * a - 4 * a)%nat with o by lia. unfold get_u32 at 1. rewrite le_encode_sub by (done || lia).
  replace (4 * S n)%nat with (4 + 4 * n)%nat by lia. rewrite <- sub_join. f_equal.
  rewrite <- (IH (o + 4)%nat ltac:(lia) (S a)). do 2 f_equal. apply map_ext. intros i. f_equal. lia.
Qed.

(** Writing an inode back as it is changes nothing. *)
Lemma put_dinode_same n l : length l = BSIZE → Forall is_u8 l → put_dinode n (dinode_of n l) l = l.
Proof.
  intros Hl Hu. pose proof (dinode_off_fits n) as Hf. rewrite put_dinode_blit by (done || by apply length_map).
  rewrite dinode_of_sub. set (x := sub (dinode_off n) 64 l). assert (Hx : length x = 64%nat) by (apply length_sub; lia).
  assert (Hxu : Forall is_u8 x) by (by apply Forall_sub).
  replace (dinode_bytes (dinode_of 0 x)) with x; [apply blit_sub; lia|].
  unfold dinode_bytes, dinode_of, get_u16, get_u32. change (dinode_off 0) with 0%nat. cbn [di_type di_major di_minor di_nlink di_size di_addrs].
  rewrite !le_encode_s16, !le_encode_sub by (done || lia).
  rewrite <- (map_ext (λ i, get_u32 (12 + 4 * i - 4 * 0) x)) by (intros i; unfold get_u32; do 2 f_equal; lia).
  rewrite words_sub by (done || lia). 
  rewrite (sub_join x 8 4 52 : sub (0 + 8) 4 x ++ sub 12 (4 * 13) x = sub 8 56 x), (sub_join x 6 2 56 : sub (0 + 6) 2 x ++ sub 8 56 x = sub 6 58 x),
    (sub_join x 4 2 58 : sub (0 + 4) 2 x ++ sub 6 58 x = sub 4 60 x), (sub_join x 2 2 60 : sub (0 + 2) 2 x ++ sub 4 60 x = sub 2 62 x),
    (sub_join x 0 2 62 : sub 0 2 x ++ sub 2 62 x = sub 0 64 x).
  symmetry. apply take_ge. lia.
Qed.
