(* ===== verification/Path.v ===== *)
(** * Inodes and directory search of kernel/fs.c

    The invariant [it_inv] of the inode table and what [iget], [ilock], [iunlock] and
    [iput] do when nothing else runs; [dlookup] is a directory search on the blocks of
    the disk, pure, and [dirlookup] computes it. *)

From S2P Require Import Prelude CString Effect Printf Proc Locks Bio Log Fs.

Local Open Scope Z_scope.

(** ** Reading a block *)

Definition vw (s : fsys) (k : Z * Z) : list Z := view (lbio (flog s)) k.
Definition set_fbio (b : bio) (s : fsys) : fsys := set_flog (set_lbio b (flog s)) s.

Lemma run_fbio {A} (m : M bio A) s a b : m (lbio (flog s)) = Done (a, b) → fbio m s = Done (a, set_fbio b s).
Proof. intros Hm. unfold fbio, on_log. apply (run_zoom flog). by apply run_on_bio. Qed.

(** Nothing is locked and a buffer is left. *)
Definition ready (b : bio) : Prop := calm b ∧ (1 ≤ nfree b)%nat.

(** No difference that can be seen through [bread]. *)
Record bio_same (b b' : bio) : Prop := {
  bs_inv : bio_inv b';
  bs_block : ∀ k, k.1 ≠ 0 → same_block k b b';
  bs_disk : same_disk b b';
  bs_free : nfree b' = nfree b;
}.

Lemma bio_same_trans b1 b2 b3 : bio_same b1 b2 → bio_same b2 b3 → bio_same b1 b3.
Proof.
  intros [A1 A2 [A3 A3'] A4] [B1 B2 [B3 B3'] B4]. split; [done| |split; congruence|congruence].
  intros k Hk. by apply (same_block_trans k b1 b2); auto.
Qed.

Lemma bio_same_ready b b' : bio_same b b' → ready b → ready b'.
Proof.
  intros [A1 A2 A3 A4] [[Hi Hc] Hf]. split; [|lia]. split; [done|]. intros k Hk.
  destruct (A2 k Hk) as (-> & _ & Hu), (Hc k Hk). split; [by apply Hu|done].
Qed.

Lemma bio_same_view b b' k : bio_same b b' → k.1 ≠ 0 → view b' k = view b k.
Proof. intros [_ H _ _] Hk. by destruct (H k Hk) as (_ & -> & _). Qed.

Lemma bio_same_refl b : ready b → bio_same b b.
Proof. intros [[Hi _] _]. split; [done|by intros|done|done]. Qed.

Section path.
Context (me : Z).

Lemma fs_read s dev bno :
  ready (lbio (flog s)) → dev ≠ 0 →
  ∃ i b1 b2, rd_block me dev bno s = Done (i, set_fbio b1 s) ∧
    block_data i (set_fbio b1 s) = Done (vw s (dev, bno), set_fbio b1 s) ∧
    (∀ t, rel_block me i (set_itable t (set_fbio b1 s)) = Done ((), set_itable t (set_fbio b2 s))) ∧
    bio_same (lbio (flog s)) b2.
Proof.
  intros [[Hi Hc] Hf] Hdev. destruct (Hc (dev, bno) Hdev) as [Hu Hr].
  destruct (read_steps me (lbio (flog s)) (dev, bno) Hi Hdev Hu) as (i & b1 & b2 & E1 & E2 & E3 & I & S & D & N);
    [lia|by right|].
  exists i, b1, b2. split_and!; [by apply run_fbio|by apply (run_fbio (data_of i) (set_fbio b1 s))| |by split].
  intros t. by apply (run_fbio (brelse me i) (set_itable t (set_fbio b1 s))).
Qed.

(** ** The inode table *)

Definition ikey (i : inode) : Z * Z := (idev i, inum i).
Definition iuse (k : Z * Z) (i : inode) : bool := (0 <? iref i) && (idev i =? k.1) && (inum i =? k.2).

(** The entry with references for an inode. *)
Definition iused (s : fsys) (k : Z * Z) : option (nat * inode) :=
  j ← find_index (iuse k) (itable s); i ← itable s !! j; Some (j, i).

Definition irefs (s : fsys) (k : Z * Z) : Z := match iused s k with Some (_, i) => iref i | None => 0 end.
Definition nifree (t : list inode) : nat := length (filter (λ i, iref i = 0) t).

(** The inode as the blocks have it. *)
Definition dnode_at (v : Z * Z → list Z) (b : superblock) (k : Z * Z) : dinode :=
  dinode_of k.2 (v (k.1, IBLOCK k.2 b)).

Definition iuniq (t : list inode) : Prop :=
  ∀ j l a b, t !! j = Some a → t !! l = Some b → 0 < iref a → 0 < iref b → ikey a = ikey b → j = l.

(** [lk] is the entry the process has locked. *)
Record it_inv (lk : option nat) (s : fsys) : Prop := {
  ii_uniq : iuniq (itable s);
  ii_ref : ∀ j i, itable s !! j = Some i → 0 ≤ iref i;
  ii_lock : ∀ j i, itable s !! j = Some i → lk ≠ Some j → sl_locked (ilk i) = 0;
  ii_valid : ∀ j i, itable s !! j = Some i → 0 < iref i → ivalid i ≠ 0 → unload i = dnode_at (vw s) (sb s) (ikey i);
  ii_dev : ∀ j i, itable s !! j = Some i → 0 < iref i → idev i ≠ 0;
  ii_mine : ∀ j, lk = Some j → ∃ i, itable s !! j = Some i ∧ ilk i = locked_by me ∧ ivalid i ≠ 0;
}.

Lemma iuse_true k i : iuse k i = true ↔ 0 < iref i ∧ ikey i = k.
Proof.
  unfold iuse, ikey. destruct k as [d n]. cbn [fst snd]. rewrite !andb_true_iff, Z.ltb_lt, !Z.eqb_eq.
  split; [by intros [[? ->] ->]|by intros [? [= -> ->]]].
Qed.

Lemma iused_Some s k j i :
  iuniq (itable s) → iused s k = Some (j, i) ↔ itable s !! j = Some i ∧ 0 < iref i ∧ ikey i = k.
Proof.
  intros Hu. unfold iused. split.
  - intros (j' & Hj & (c & Hc & [= -> ->])%bind_Some)%bind_Some.
    apply find_index_Some in Hj as (c & Hc' & Hp & _). replace c with i in * by congruence.
    by apply iuse_true in Hp.
  - intros (Hi & Hr & Hk). assert (Hp : iuse k i = true) by by apply iuse_true.
    destruct (find_index_is_Some _ _ _ _ Hi Hp) as [j' Hj']. rewrite Hj'. cbn.
    apply find_index_Some in Hj' as (c & Hc & Hp' & _). rewrite Hc. cbn. apply iuse_true in Hp' as [Hr' Hk'].
    assert (j' = j) as -> by (eapply Hu; [done|done|done|done|congruence]). congruence.
Qed.

Lemma iused_None s k : iused s k = None ↔ ∀ j i, itable s !! j = Some i → 0 < iref i → ikey i ≠ k.
Proof.
  unfold iused. split.
  - intros Hn j i Hi Hr Hk. assert (Hp : iuse k i = true) by by apply iuse_true.
    destruct (find_index_is_Some _ _ _ _ Hi Hp) as [j' Hj']. rewrite Hj' in Hn. cbn in Hn.
    apply find_index_Some in Hj' as (c & Hc & _). by rewrite Hc in Hn.
  - intros Hn. destruct (find_index _ _) as [j|] eqn:Hf; [|done]. cbn.
    apply find_index_Some in Hf as (c & Hc & Hp & _). apply iuse_true in Hp as [Hr Hk]. by destruct (Hn j c Hc Hr).
Qed.

(** One entry changes: one in use keeps its key, a free one may take a key nobody has. *)
Definition set_entry (j : nat) (i : inode) (s : fsys) : fsys := set_itable (<[j := i]> (itable s)) s.

Definition ichange (t : list inode) (i i' : inode) : Prop :=
  (0 < iref i ∧ ikey i' = ikey i) ∨ (iref i = 0 ∧ ∀ l c, t !! l = Some c → 0 < iref c → ikey c ≠ ikey i').

Lemma upd_inode_run j f s i : itable s !! j = Some i → upd_inode j f s = Done ((), set_entry j (f i) s).
Proof. intros Hi. unfold upd_inode, modify, set_entry. by erewrite alter_insert. Qed.

Lemma iat_Some j s i : itable s !! j = Some i → iat j s = i.
Proof. intros Hi. unfold iat. by rewrite Hi. Qed.

Lemma get_inode_run j s i : itable s !! j = Some i → get_inode j s = Done (i, s).
Proof. intros Hi. unfold get_inode, gets. by rewrite (iat_Some _ _ _ Hi). Qed.

Lemma set_entry_lookup j i i' s : itable s !! j = Some i → itable (set_entry j i' s) !! j = Some i'.
Proof. intros Hi. apply list_lookup_insert_eq. by eapply lookup_lt_Some. Qed.

Lemma set_entry_twice j i i' s : set_entry j i' (set_entry j i s) = set_entry j i' s.
Proof. unfold set_entry, set_itable. cbn. by rewrite list_insert_insert_eq. Qed.

Lemma iuniq_insert t j i i' : iuniq t → t !! j = Some i → ichange t i i' → iuniq (<[j := i']> t).
Proof.
  intros Hu Hi Hk a b c d [(<- & <- & _)|[Ha Hc]]%list_lookup_insert_Some
    [(<- & <- & _)|[Hb Hd]]%list_lookup_insert_Some Rc Rd He; try done.
  - destruct Hk as [[Hr Hk]|[_ Hk]]; [|by destruct (Hk _ _ Hd Rd)].
    eapply Hu; [exact Hi|exact Hd|done|done|congruence].
  - destruct Hk as [[Hr Hk]|[_ Hk]]; [|by destruct (Hk _ _ Hc Rc)].
    eapply Hu; [exact Hc|exact Hi|done|done|congruence].
  - by eapply Hu.
Qed.

Lemma iused_insert s j i i' k :
  iuniq (itable s) → itable s !! j = Some i → ichange (itable s) i i' →
  iused (set_entry j i' s) k = if decide (k = ikey i') then (if decide (0 < iref i') then Some (j, i') else None)
                               else iused s k.
Proof.
  intros Hu Hi Hk. set (s' := set_entry j i' s).
  assert (Hu' : iuniq (itable s')) by (by apply (iuniq_insert _ _ i)).
  assert (Hj : itable s' !! j = Some i') by (by apply (set_entry_lookup j i)).
  assert (Hne : ∀ l, l ≠ j → itable s' !! l = itable s !! l) by (intros l Hl; by apply list_lookup_insert_ne).
  destruct (decide (k = ikey i')) as [->|Hkn].
  - destruct (decide (0 < iref i')) as [Hr|Hr]; [by apply iused_Some|]. apply iused_None.
    intros l c Hc Rc He. destruct (decide (l = j)) as [->|Hl]; [congruence|]. rewrite Hne in Hc by done.
    destruct Hk as [[Hr0 Hk]|[_ Hk]]; [|by destruct (Hk l c Hc Rc)]. destruct Hl.
    eapply (Hu l j c i); [done|done|done|done|congruence].
  - destruct (iused s k) as [[l c]|] eqn:Hs.
    + apply iused_Some in Hs as (Hc & Rc & Kc); [|done]. apply iused_Some; [done|].
      destruct (decide (l = j)) as [->|Hl]; [|by rewrite Hne].
      destruct Hk as [[Hr0 Hk]|[Hr0 _]]; [congruence|]. replace c with i in * by congruence. lia.
    + apply iused_None. intros l c Hc Rc He. rewrite iused_None in Hs.
      destruct (decide (l = j)) as [->|Hl]; [|rewrite Hne in Hc by done; by destruct (Hs l c Hc Rc)]. congruence.
Qed.

Definition ifree_one (i : inode) : nat := if decide (iref i = 0) then 1 else 0.

Lemma nifree_insert t j i i' :
  t !! j = Some i → (nifree (<[j := i']> t) + ifree_one i = nifree t + ifree_one i')%nat.
Proof.
  intros Hi. unfold nifree, ifree_one. rewrite <- (take_drop_middle _ _ _ Hi) at 2.
  rewrite insert_take_drop by (by eapply lookup_lt_Some).
  rewrite !filter_app, !filter_cons, !length_app.
  destruct (decide (iref i = 0)), (decide (iref i' = 0)); cbn [length]; lia.
Qed.

(** The rest of the state, and the invariant, when one entry changes. *)
Lemma it_inv_insert lk lk' s j i i' :
  it_inv lk s → itable s !! j = Some i → ichange (itable s) i i' → 0 ≤ iref i' →
  (lk' ≠ Some j → sl_locked (ilk i') = 0) → (lk' = Some j → ilk i' = locked_by me ∧ ivalid i' ≠ 0) →
  (0 < iref i' → ivalid i' ≠ 0 → unload i' = dnode_at (vw s) (sb s) (ikey i')) →
  (0 < iref i' → idev i' ≠ 0) →
  (∀ l, l ≠ j → lk = Some l ↔ lk' = Some l) →
  it_inv lk' (set_entry j i' s).
Proof.
  intros [I1 I2 I3 I4 I6 I5] Hi Hk Hr Hl Hm Hv Hd Ho. split; cbn [itable set_entry set_itable].
  - by eapply iuniq_insert.
  - intros l c [(_ & <- & _)|[_ Hc]]%list_lookup_insert_Some; [done|by eapply I2].
  - intros l c [(<- & <- & _)|[Hlj Hc]]%list_lookup_insert_Some Hlk; [by apply Hl|].
    apply (I3 l c Hc). intros He. apply Hlk. by apply Ho.
  - intros l c [(_ & <- & _)|[_ Hc]]%list_lookup_insert_Some; [done|by eapply I4].
  - intros l c [(_ & <- & _)|[_ Hc]]%list_lookup_insert_Some; [done|by eapply I6].
  - intros l He. destruct (decide (l = j)) as [->|Hlj].
    + exists i'. split; [apply list_lookup_insert_eq; by eapply lookup_lt_Some|]. by apply Hm.
    + rewrite list_lookup_insert_ne by done. apply I5. by apply Ho.
Qed.

(** A change of the blocks nobody can see. *)
Lemma it_inv_bio lk s b :
  it_inv lk s → bio_same (lbio (flog s)) b → it_inv lk (set_fbio b s).
Proof.
  intros [I1 I2 I3 I4 Hd I5] Hb. split; try done. intros j i Hi Hr Hv. rewrite (I4 j i Hi Hr Hv).
  unfold dnode_at, vw. cbn [flog set_fbio set_flog lbio set_lbio sb]. by rewrite (bio_same_view _ _ _ Hb) by (by eapply Hd).
Qed.

Lemma iused_bio s b k : iused (set_fbio b s) k = iused s k.
Proof. done. Qed.

(** Entries in use stay where they are, with the contents they had. *)
Definition kept (k : Z * Z) (s s' : fsys) : Prop :=
  ∀ j i, iused s k = Some (j, i) → ∃ n, iused s' k = Some (j, set_iref n i).

(** Another reference to inode [k]. *)
Lemma iget_run lk s k :
  it_inv lk s → k.1 ≠ 0 → irefs s k < 2 ^ 31 - 1 → 0 < irefs s k ∨ (0 < nifree (itable s))%nat →
  (∀ j i, lk = Some j → itable s !! j = Some i → 0 < iref i) →
  ∃ j i s', iget k.1 k.2 s = Done (j, s') ∧ it_inv lk s' ∧ iused s' k = Some (j, i) ∧
    iref i = irefs s k + 1 ∧ kept k s s' ∧ (∀ k', k' ≠ k → iused s' k' = iused s k') ∧
    flog s' = flog s ∧ sb s' = sb s ∧
    (nifree (itable s') + (if (irefs s k =? 0)%Z then 1 else 0) = nifree (itable s))%nat.
Proof.
  intros Hi Hk1 Hlt Hfree Hlk. pose proof (ii_uniq _ _ Hi) as Hu. unfold iget.
  change (find_index _ (itable s)) with (find_index (iuse k) (itable s)) at 1.
  destruct (find_index (iuse k) (itable s)) as [j|] eqn:Hf.
  - apply find_index_Some in Hf as (i & Hj & Hp & _). apply iuse_true in Hp as [Hr Hk].
    assert (Hus : iused s k = Some (j, i)) by (by apply iused_Some).
    assert (Hre : irefs s k = iref i) by (unfold irefs; by rewrite Hus). rewrite Hre in *.
    set (i' := set_iref (iref i + 1) i). exists j, i', (set_entry j i' s).
    assert (Hc : ichange (itable s) i i') by (left; by split).
    split_and!.
    + erewrite alter_insert by done. by rewrite s32_id by lia.
    + apply (it_inv_insert lk lk s j i i'); try done; cbn; try lia.
      * by apply (ii_lock _ _ Hi j i Hj).
      * intros He. destruct (ii_mine _ _ Hi j He) as (c & Hjc & ?). by replace c with i in * by congruence.
      * intros _ Hv. by apply (ii_valid _ _ Hi j i Hj).
      * intros _. by apply (ii_dev _ _ Hi j i Hj).
    + rewrite (iused_insert s j i i') by done. change (ikey i') with (ikey i).
      rewrite decide_True by done. rewrite decide_True by (cbn; lia). done.
    + done.
    + intros l c Hc'. exists (iref i + 1). rewrite (iused_insert s j i i') by done. change (ikey i') with (ikey i).
      rewrite decide_True by done. rewrite decide_True by (cbn; lia). rewrite Hus in Hc'. by injection Hc' as <- <-.
    + intros k' Hne. rewrite (iused_insert s j i i') by done. change (ikey i') with (ikey i).
      rewrite decide_False; [done|by rewrite Hk].
    + done.
    + done.
    + pose proof (nifree_insert (itable s) j i i' Hj) as Hn. unfold ifree_one in Hn. cbn [i' set_iref iref] in Hn.
      rewrite !decide_False in Hn by lia. rewrite (proj2 (Z.eqb_neq _ _)) by lia. cbn [itable set_entry set_itable]. fold i' in Hn. lia.
  - assert (Hnone : ∀ j i, itable s !! j = Some i → 0 < iref i → ikey i ≠ k).
    { intros j i Hj Hr Hk. pose proof (find_index_None _ _ Hf j i Hj) as Hp.
      assert (iuse k i = true) by by apply iuse_true. congruence. }
    assert (Hre : irefs s k = 0) by (unfold irefs; by rewrite (proj2 (iused_None s k) Hnone)).
    destruct (find_index (λ i, iref i =? 0) (itable s)) as [j|] eqn:Hg.
    + apply find_index_Some in Hg as (i & Hj & Hz%Z.eqb_eq & _).
      set (i' := mk_inode k.1 k.2 1 (ilk i) 0 (itype i) (imajor i) (iminor i) (inlink i) (isize i) (iaddrs i)).
      assert (Hk : ikey i' = k) by by destruct k.
      assert (Hc : ichange (itable s) i i') by (right; split; [done|by rewrite Hk]).
      exists j, i', (set_entry j i' s). split_and!.
      * by erewrite alter_insert by done.
      * apply (it_inv_insert lk lk s j i i'); try done; [by apply (ii_lock _ _ Hi j i Hj)|].
        intros He. specialize (Hlk j i He Hj). lia.
      * rewrite (iused_insert s j i i'), Hk by done. rewrite decide_True by done. by rewrite decide_True by done.
      * cbn. lia.
      * intros l c Hus. unfold irefs in Hre. rewrite Hus in Hre. apply iused_Some in Hus as (_ & Hr & _); [lia|done].
      * intros k' Hne. rewrite (iused_insert s j i i'), Hk by done. by rewrite decide_False.
      * done.
      * done.
      * pose proof (nifree_insert (itable s) j i i' Hj) as Hn. unfold ifree_one in Hn. rewrite Hz in Hn.
        rewrite Hre. cbn [itable set_entry set_itable]. change (iref i') with 1 in Hn.
        rewrite decide_True, decide_False in Hn by done. cbn [Z.eqb]. lia.
    + exfalso. destruct Hfree as [|Hn]; [lia|]. unfold nifree in Hn.
      destruct (filter _ (itable s)) as [|i l] eqn:Hfl; [cbn in Hn; lia|].
      assert (Hin : i ∈ filter (λ i, iref i = 0) (itable s)) by (rewrite Hfl; left).
      apply list_elem_of_filter in Hin as [Hz Hin]. apply list_elem_of_lookup_1 in Hin as [j Hj].
      pose proof (find_index_None _ _ Hg j i Hj) as Hp. cbn in Hp. rewrite Hz in Hp. done.
Qed.

(** Locking an inode in use, read from the disk if need be. *)
Lemma ilock_run s k j i :
  it_inv None s → ready (lbio (flog s)) → k.1 ≠ 0 → iused s k = Some (j, i) →
  di_type (dnode_at (vw s) (sb s) k) ≠ 0 →
  ∃ i' b s', ilock me j s = Done ((), s') ∧ it_inv (Some j) s' ∧ iused s' k = Some (j, i') ∧
    iref i' = iref i ∧ unload i' = dnode_at (vw s) (sb s) k ∧ ivalid i' ≠ 0 ∧
    s' = set_entry j i' (set_fbio b s) ∧ bio_same (lbio (flog s)) b.
Proof.
  intros Hi Hrd Hk1 Hus Ht. pose proof (ii_uniq _ _ Hi) as Hu.
  apply iused_Some in Hus as (Hj & Hr & Hk); [|done].
  pose proof (ii_lock _ _ Hi j i Hj ltac:(done)) as Hl.
  set (i1 := set_ilk (locked_by me) i). set (s1 := set_entry j i1 s).
  assert (Hj1 : itable s1 !! j = Some i1) by (by apply (set_entry_lookup j i)).
  assert (Hstart : ilock me j s = (i ← get_inode j;
    when (ivalid i =? 0) (
      s ← the_sb;
      b ← rd_block me (idev i) (IBLOCK (inum i) s);
      l ← block_data b;
      upd_inode j (load (dinode_of (inum i) l));;
      rel_block me b;;
      upd_inode j (set_ivalid 1);;
      i ← get_inode j;
      when (itype i =? 0) panics)) s1).
  { unfold ilock. rewrite (run_bind _ _ _ _ _ (get_inode_run j s i Hj)). rewrite (proj2 (Z.ltb_ge _ _)) by lia.
    rewrite (run_bind (lock_inode me j) _ s () s1); [done|]. unfold lock_inode. rewrite (iat_Some _ _ _ Hj). unfold acquiresleep. rewrite Hl. cbn [Z.eqb negb].
    by erewrite alter_insert by done. }
  rewrite Hstart, (run_bind _ _ _ _ _ (get_inode_run j s1 i1 Hj1)). change (ivalid i1) with (ivalid i).
  assert (Hinv : ∀ i' b, bio_same (lbio (flog s)) b → ikey i' = k → iref i' = iref i → ilk i' = locked_by me →
    ivalid i' ≠ 0 → unload i' = dnode_at (vw s) (sb s) k → it_inv (Some j) (set_entry j i' (set_fbio b s)) ∧
      iused (set_entry j i' (set_fbio b s)) k = Some (j, i')).
  { intros i' b Hb Hk' Hr' Hl' Hv' Hun'. assert (Hc : ichange (itable s) i i') by (left; split; congruence).
    pose proof (it_inv_bio None s b Hi Hb) as Hib. split.
    - apply (it_inv_insert None (Some j) (set_fbio b s) j i i'); try done; try lia; [|..].
      + intros _ _. rewrite Hun', Hk'. unfold dnode_at, vw. cbn [flog set_fbio set_flog lbio set_lbio sb].
        by rewrite (bio_same_view _ _ _ Hb).
      + intros _. change (idev i') with (ikey i').1. by rewrite Hk'.
      + intros l Hlj. split; [done|congruence].
    - rewrite (iused_insert (set_fbio b s) j i i') by done. rewrite decide_True by done. by rewrite decide_True by lia. }
  destruct (Z.eqb_spec (ivalid i) 0) as [Hv|Hv]; cbn [when].
  - change (idev i1) with (ikey i).1. rewrite Hk.
    destruct (fs_read s1 k.1 (IBLOCK (inum i) (sb s)) Hrd Hk1) as (b & b1 & b2 & E1 & E2 & E3 & Hb).
    change (lbio (flog s1)) with (lbio (flog s)) in Hb.
    set (dn := dnode_at (vw s) (sb s) k) in *.
    assert (Hdn : dinode_of (inum i) (vw s1 (k.1, IBLOCK (inum i) (sb s))) = dn) by (unfold dn, dnode_at; by rewrite <- Hk).
    set (i2 := load dn i1). set (i3 := set_ivalid 1 i2).
    exists i3, b2, (set_entry j i3 (set_fbio b2 s)). split.
    + erewrite run_bind by reflexivity. change (sb s1) with (sb s). change (inum i1) with (inum i).
      rewrite (run_bind _ _ _ _ _ E1), (run_bind _ _ _ _ _ E2), Hdn.
      rewrite (run_bind _ _ _ _ _ (upd_inode_run j (load dn) (set_fbio b1 s1) i1 Hj1)). fold i2.
      change (set_entry j i2 (set_fbio b1 s1)) with (set_itable (<[j := i2]> (itable s1)) (set_fbio b1 s1)).
      rewrite (run_bind _ _ _ _ _ (E3 (<[j := i2]> (itable s1)))).
      change (set_itable (<[j := i2]> (itable s1)) (set_fbio b2 s1)) with (set_entry j i2 (set_entry j i1 (set_fbio b2 s))).
      rewrite set_entry_twice.
      assert (Hj2 : itable (set_entry j i2 (set_fbio b2 s)) !! j = Some i2) by (by apply (set_entry_lookup j i)).
      rewrite (run_bind _ _ _ _ _ (upd_inode_run j (set_ivalid 1) _ i2 Hj2)), set_entry_twice. fold i3.
      assert (Hj3 : itable (set_entry j i3 (set_fbio b2 s)) !! j = Some i3) by (by apply (set_entry_lookup j i)).
      rewrite (run_bind _ _ _ _ _ (get_inode_run j _ i3 Hj3)). change (itype i3) with (di_type dn).
      by rewrite (proj2 (Z.eqb_neq _ _)) by done.
    + assert (Hun : unload i3 = dn) by (by destruct dn). by destruct (Hinv i3 b2 Hb) as [H1 H2].
  - exists i1, (lbio (flog s)), s1. pose proof (bio_same_refl _ Hrd) as Hb.
    assert (Hs1 : s1 = set_entry j i1 (set_fbio (lbio (flog s)) s)) by (unfold s1; by destruct s as [[] ? ?]).
    assert (Hun : unload i1 = dnode_at (vw s) (sb s) k) by (rewrite <- Hk; by apply (ii_valid _ _ Hi j i Hj)).
    destruct (Hinv i1 (lbio (flog s)) Hb) as [H1 H2]; try done. rewrite <- Hs1 in H1, H2. by split_and!.
Qed.

Lemma iunlock_run s k j i :
  it_inv (Some j) s → iused s k = Some (j, i) →
  ∃ s', iunlock me j s = Done ((), s') ∧ it_inv None s' ∧
    s' = set_entry j (set_ilk (mk_sleeplock 0 0) i) s ∧ iused s' k = Some (j, set_ilk (mk_sleeplock 0 0) i) ∧
    ∀ k', k' ≠ k → iused s' k' = iused s k'.
Proof.
  intros Hi Hus. pose proof (ii_uniq _ _ Hi) as Hu. apply iused_Some in Hus as (Hj & Hr & Hk); [|done].
  destruct (ii_mine _ _ Hi j eq_refl) as (i0 & Hj0 & Hl & _). replace i0 with i in * by congruence. clear i0 Hj0.
  set (i' := set_ilk (mk_sleeplock 0 0) i). assert (Hc : ichange (itable s) i i') by (left; by split).
  exists (set_entry j i' s). split_and!; try done.
  - unfold iunlock. rewrite (run_bind _ _ _ _ _ (get_inode_run j s i Hj)).
    unfold holdingsleep. rewrite Hl. cbn [sl_locked sl_pid locked_by Z.eqb negb andb]. rewrite Z.eqb_refl.
    rewrite (proj2 (Z.ltb_ge _ _)) by lia. cbn [negb orb]. by rewrite (upd_inode_run j _ s i Hj).
  - apply (it_inv_insert (Some j) None s j i i'); try done; cbn; try lia.
    + intros _ Hv. by apply (ii_valid _ _ Hi j i Hj).
    + intros _. by apply (ii_dev _ _ Hi j i Hj).
    + intros l Hlj. split; congruence.
  - rewrite (iused_insert s j i i') by done. change (ikey i') with (ikey i). rewrite Hk, decide_True by done.
    by rewrite decide_True.
  - intros k' Hne. rewrite (iused_insert s j i i') by done. change (ikey i') with (ikey i).
    by rewrite Hk, decide_False.
Qed.

(** Dropping a reference to an inode that is linked. *)
Lemma iput_run s k j i :
  it_inv None s → iused s k = Some (j, i) → iref i < 2 ^ 31 → (ivalid i ≠ 0 → inlink i ≠ 0) →
  ∃ s', iput me j s = Done ((), s') ∧ it_inv None s' ∧ flog s' = flog s ∧ sb s' = sb s ∧
    (if iref i =? 1 then iused s' k = None else iused s' k = Some (j, set_iref (iref i - 1) i)) ∧
    (∀ k', k' ≠ k → iused s' k' = iused s k') ∧
    (nifree (itable s') = nifree (itable s) + (if (iref i =? 1)%Z then 1 else 0))%nat.
Proof.
  intros Hi Hus Hlt Hn. pose proof (ii_uniq _ _ Hi) as Hu. apply iused_Some in Hus as (Hj & Hr & Hk); [|done].
  set (i' := set_iref (iref i - 1) i). assert (Hc : ichange (itable s) i i') by (left; by split).
  exists (set_entry j i' s). split_and!; try done.
  - unfold iput. rewrite (run_bind _ _ _ _ _ (get_inode_run j s i Hj)).
    replace ((iref i =? 1) && negb (ivalid i =? 0) && (inlink i =? 0)) with false.
    + cbn [when]. erewrite run_bind by reflexivity. rewrite (upd_inode_run j _ s i Hj). by rewrite s32_id by lia.
    + destruct (Z.eqb_spec (ivalid i) 0); [by rewrite andb_false_r|].
      rewrite (proj2 (Z.eqb_neq (inlink i) 0)) by auto. by rewrite andb_false_r.
  - apply (it_inv_insert None None s j i i'); try done; cbn; try lia.
    + intros _. by apply (ii_lock _ _ Hi j i Hj).
    + intros _ Hv. by apply (ii_valid _ _ Hi j i Hj).
    + intros _. by apply (ii_dev _ _ Hi j i Hj).
  - destruct (Z.eqb_spec (iref i) 1) as [H1|H1]; rewrite (iused_insert s j i i') by done;
      change (ikey i') with (ikey i); rewrite Hk, decide_True by done.
    + rewrite decide_False; [done|cbn; lia].
    + rewrite decide_True; [done|cbn; lia].
  - intros k' Hne. rewrite (iused_insert s j i i') by done. change (ikey i') with (ikey i).
    by rewrite Hk, decide_False.
  - pose proof (nifree_insert (itable s) j i i' Hj) as Hf. unfold ifree_one in Hf. change (iref i') with (iref i - 1) in Hf.
    cbn [itable set_entry set_itable]. rewrite (decide_False (P := iref i = 0)) in Hf by lia.
    destruct (decide (iref i - 1 = 0)), (Z.eqb_spec (iref i) 1); lia.
Qed.

(** ** Directories on the disk *)

Definition BS : Z := Z.of_nat BSIZE.

(** The block that holds byte [off] of an inode. *)
Definition file_block (v : Z * Z → list Z) (dev : Z) (d : dinode) (off : Z) : Z :=
  let bn := off / BS in
  if bn <? NDIRECT then nth (Z.to_nat bn) (di_addrs d) 0
  else get_u32 (4 * Z.to_nat (bn - NDIRECT)) (v (dev, nth (Z.to_nat NDIRECT) (di_addrs d) 0)).

Definition entry_at (v : Z * Z → list Z) (dev : Z) (d : dinode) (off : Z) : list Z :=
  sub (Z.to_nat (off mod BS)) 16 (v (dev, file_block v dev d off)).

(** A file without holes. *)
Record no_holes (v : Z * Z → list Z) (dev : Z) (d : dinode) : Prop := {
  nh_len : length (di_addrs d) = 13%nat;
  nh_size : 0 ≤ di_size d ≤ MAXFILE * BS;
  nh_block : ∀ off, 0 ≤ off < di_size d → file_block v dev d off ≠ 0;
  nh_ind : NDIRECT * BS < di_size d → nth (Z.to_nat NDIRECT) (di_addrs d) 0 ≠ 0;
}.

Definition dir_entries (v : Z * Z → list Z) (dev : Z) (d : dinode) : list (list Z) :=
  map (λ n, entry_at v dev d (Z.of_nat n * sizeof_dirent)) (seq 0 (Z.to_nat (di_size d / sizeof_dirent))).

Definition entry_matches (name de : list Z) : bool := negb (de_inum de =? 0) && (namecmp name (de_name de) =? 0).

(** The inode number a directory has for a name. *)
Definition search (name : list Z) (des : list (list Z)) : option Z := de_inum <$> List.find (entry_matches name) des.

Definition dlookup (v : Z * Z → list Z) (dev : Z) (d : dinode) (name : list Z) : option Z :=
  search name (dir_entries v dev d).

Lemma bmap_run s k j i bn :
  it_inv (Some j) s → ready (lbio (flog s)) → iused s k = Some (j, i) → k.1 ≠ 0 → no_holes (vw s) k.1 (unload i) →
  0 ≤ bn * BS < isize i →
  ∃ b, bmap me j bn s = Done (file_block (vw s) k.1 (unload i) (bn * BS), set_fbio b s) ∧ bio_same (lbio (flog s)) b.
Proof.
  intros Hi Hrd Hus Hk1 [N1 N2 N3 N4] Hoff. apply iused_Some in Hus as (Hj & Hr & Hk); [|by apply (ii_uniq _ _ Hi)].
  specialize (N3 (bn * BS) Hoff). cbn [unload di_size di_addrs] in *. assert (HBS : BS = 1024) by done.
  assert (Hdiv : bn * BS / BS = bn) by (apply Z.div_mul; lia).
  assert (Hmax : MAXFILE = 268) by done. assert (Hnd : NDIRECT = 12) by done. assert (Hni : NINDIRECT = 256) by done.
  assert (Haddr : ∀ n, (n < 13)%nat → nth n (iaddrs i) 0 ≠ 0 →
    addr_or_alloc me j n s = Done (nth n (iaddrs i) 0, s)).
  { intros n Hn Ha. unfold addr_or_alloc. rewrite (run_bind _ _ _ _ _ (get_inode_run j s i Hj)).
    destruct (iaddrs i !! n) as [a|] eqn:Hl; [|apply lookup_ge_None_1 in Hl; cbn in N1; lia].
    cbn [deref]. erewrite run_bind by reflexivity. rewrite (nth_lookup_Some _ _ 0 _ Hl) in *.
    by rewrite (proj2 (Z.eqb_neq _ _)) by done. }
  unfold bmap, file_block in *. cbn [unload di_addrs] in *. rewrite Hdiv in *.
  destruct (Z.ltb_spec bn NDIRECT) as [Hd|Hd].
  - exists (lbio (flog s)). rewrite Haddr by lia. split; [|by apply bio_same_refl].
    do 2 f_equal. by destruct s as [[] ? ?].
  - rewrite (proj2 (Z.ltb_lt _ NINDIRECT)) by nia.
    rewrite (run_bind _ _ _ _ _ (Haddr (Z.to_nat NDIRECT) ltac:(lia) ltac:(apply N4; nia))).
    rewrite (proj2 (Z.eqb_neq _ _)) by (apply N4; nia).
    rewrite (run_bind _ _ _ _ _ (get_inode_run j s i Hj)). change (idev i) with (ikey i).1. rewrite Hk.
    destruct (fs_read s k.1 (nth (Z.to_nat NDIRECT) (iaddrs i) 0) Hrd Hk1) as (x & b1 & b2 & E1 & E2 & E3 & Hb).
    exists b2. split; [|done]. rewrite (run_bind _ _ _ _ _ E1), (run_bind _ _ _ _ _ E2).
    rewrite (proj2 (Z.eqb_neq _ _)) by done. erewrite run_bind by reflexivity.
    rewrite (run_bind _ _ (set_fbio b1 s) () (set_fbio b2 s)); [done|exact (E3 (itable s))].
Qed.

(** Reading one entry. *)
Lemma read_dirent_run s k j i off :
  it_inv (Some j) s → ready (lbio (flog s)) → iused s k = Some (j, i) → k.1 ≠ 0 → no_holes (vw s) k.1 (unload i) →
  isize i mod sizeof_dirent = 0 → 0 ≤ off < isize i → off mod sizeof_dirent = 0 →
  ∃ b, read_dirent me j off s = Done (entry_at (vw s) k.1 (unload i) off, set_fbio b s) ∧ bio_same (lbio (flog s)) b.
Proof.
  intros Hi Hrd Hus Hk1 Hnh Hsz Hoff Hmod. pose proof Hus as Hus0.
  apply iused_Some in Hus as (Hj & Hr & Hk); [|by apply (ii_uniq _ _ Hi)].
  pose proof (nh_size _ _ _ Hnh) as Hmax. cbn [unload di_size] in Hmax.
  assert (HBS : BS = 1024) by done. change (MAXFILE * BS) with 274432 in Hmax. unfold sizeof_dirent in *.
  assert (Hfit : off + 16 ≤ isize i) by (clear -Hsz Hoff Hmod; Z.div_mod_to_equations; lia).
  assert (Hin : off mod BS + 16 ≤ BS) by (rewrite HBS; clear -Hmod; Z.div_mod_to_equations; lia).
  destruct (bmap_run s k j i (off / BS) Hi Hrd Hus0 Hk1 Hnh) as (b & Eb & Hb).
  { rewrite HBS. clear -Hoff. Z.div_mod_to_equations. lia. }
  assert (Hsame : file_block (vw s) k.1 (unload i) (off / BS * BS) = file_block (vw s) k.1 (unload i) off).
  { unfold file_block. by rewrite Z.div_mul. }
  rewrite Hsame in Eb. set (a := file_block _ _ _ off) in *.
  assert (Ha : a ≠ 0) by (by apply (nh_block _ _ _ Hnh)).
  destruct (fs_read (set_fbio b s) k.1 a) as (x & b1 & b2 & E1 & E2 & E3 & Hb2);
    [by apply (bio_same_ready _ _ Hb)|done|].
  assert (Hview : vw (set_fbio b s) (k.1, a) = vw s (k.1, a)) by (by apply (bio_same_view _ _ _ Hb)).
  exists b2. split; [|by apply (bio_same_trans _ b)].
  unfold read_dirent, readi, sizeof_dirent. rewrite bind_assoc_M.
  rewrite (run_bind _ _ _ _ _ (get_inode_run j s i Hj)).
  rewrite (proj2 (Z.ltb_ge _ _)), u32_id by (unfold is_u32; lia). rewrite (proj2 (Z.ltb_ge _ _)) by lia.
  rewrite (proj2 (Z.ltb_ge _ _)) by lia. cbn [orb]. rewrite bind_assoc_M.
  destruct (Z.to_nat 16) as [|[|f]] eqn:Hf; [lia|lia|]. cbn [read_chunks].
  rewrite (run_bind _ _ s (16, entry_at (vw s) k.1 (unload i) off) (set_fbio b2 s)); [done|].
  change (0 <? 16) with true. cbv iota. fold BS.
  rewrite (run_bind _ _ _ _ _ Eb), (proj2 (Z.eqb_neq _ _)) by done.
  rewrite (run_bind _ _ _ _ _ (get_inode_run j (set_fbio b s) i Hj)). change (idev i) with (ikey i).1. rewrite Hk.
  rewrite (run_bind _ _ _ _ _ E1), (run_bind _ _ _ _ _ E2), Hview.
  rewrite (Z.min_l (16 - 0)) by lia. cbn [negb].
  rewrite (run_bind _ _ (set_fbio b1 (set_fbio b s)) () (set_fbio b2 (set_fbio b s))); [|exact (E3 (itable s))].
  change (0 + (16 - 0) <? 16) with false. cbv iota. erewrite run_bind by reflexivity. cbv beta iota.
  change (0 + (16 - 0)) with 16. rewrite app_nil_r. done.
Qed.

(** What a directory says depends on its device's blocks only. *)
Lemma file_block_ext v w dev d off : (∀ n, v (dev, n) = w (dev, n)) → file_block v dev d off = file_block w dev d off.
Proof. intros He. unfold file_block. by rewrite He. Qed.

Lemma no_holes_ext v w dev d : (∀ n, v (dev, n) = w (dev, n)) → no_holes v dev d → no_holes w dev d.
Proof.
  intros He [N1 N2 N3 N4]. split; try done. intros off Ho. rewrite <- (file_block_ext v w) by done. by apply N3.
Qed.

Lemma entry_at_ext v w dev d off : (∀ n, v (dev, n) = w (dev, n)) → entry_at v dev d off = entry_at w dev d off.
Proof. intros He. unfold entry_at. by rewrite (file_block_ext v w), He. Qed.

Lemma bio_same_vw s b k : bio_same (lbio (flog s)) b → k.1 ≠ 0 → vw (set_fbio b s) k = vw s k.
Proof. intros Hb Hk. by apply bio_same_view. Qed.

Lemma set_fbio_twice b b' s : set_fbio b' (set_fbio b s) = set_fbio b' s.
Proof. done. Qed.

Lemma dirlookup_loop_run name k j i len : ∀ n fuel s,
  it_inv (Some j) s → ready (lbio (flog s)) → iused s k = Some (j, i) → k.1 ≠ 0 →
  no_holes (vw s) k.1 (unload i) → isize i mod sizeof_dirent = 0 →
  Z.of_nat n + Z.of_nat len = isize i / sizeof_dirent → (len < fuel)%nat →
  ∃ b o, bio_same (lbio (flog s)) b ∧
    dirlookup_loop me fuel j name (Z.of_nat n * sizeof_dirent) s =
    match search name (map (λ n, entry_at (vw s) k.1 (unload i) (Z.of_nat n * sizeof_dirent)) (seq n len)) with
    | None => Done (None, set_fbio b s)
    | Some m => (ip ← iget k.1 m; mret (Some (ip, o))) (set_fbio b s)
    end.
Proof.
  induction len as [|len IH]; intros n fuel s Hi Hrd Hus Hk1 Hnh Hsz Hn Hfuel;
    (destruct fuel as [|fuel]; [lia|]); cbn [dirlookup_loop];
    pose proof Hus as Hus0; (apply iused_Some in Hus as (Hj & Hr & Hk); [|by apply (ii_uniq _ _ Hi)]);
    rewrite (run_bind _ _ _ _ _ (get_inode_run j s i Hj)); unfold sizeof_dirent in *.
  - rewrite (proj2 (Z.ltb_ge _ _)) by (clear -Hn Hsz; Z.div_mod_to_equations; lia).
    exists (lbio (flog s)), 0. split; [by apply bio_same_refl|]. cbn. by destruct s as [[] ? ?].
  - assert (Hlt : Z.of_nat n * 16 < isize i) by (clear -Hn Hsz; Z.div_mod_to_equations; lia).
    rewrite (proj2 (Z.ltb_lt _ _)) by done.
    destruct (read_dirent_run s k j i (Z.of_nat n * 16) Hi Hrd Hus0 Hk1 Hnh Hsz) as (b & Eb & Hb);
      [lia|apply Z_mod_mult|].
    rewrite (run_bind _ _ _ _ _ Eb). cbn [seq map]. set (de := entry_at _ _ _ (Z.of_nat n * 16)).
    assert (Hv : ∀ x, vw (set_fbio b s) (k.1, x) = vw s (k.1, x)) by (intros x; by apply bio_same_vw).
    unfold search. cbn [List.find]. unfold entry_matches at 1.
    assert (Hrec : (∃ b' o, bio_same (lbio (flog s)) b' ∧
      dirlookup_loop me fuel j name (Z.of_nat n * 16 + 16) (set_fbio b s) =
      match de_inum <$> List.find (entry_matches name) (map (λ n, entry_at (vw s) k.1 (unload i) (Z.of_nat n * 16)) (seq (S n) len)) with
      | None => Done (None, set_fbio b' s)
      | Some m => (ip ← iget k.1 m; mret (Some (ip, o))) (set_fbio b' s)
      end)).
    { destruct (IH (S n) fuel (set_fbio b s)) as (b' & o & Hb' & E'); try done; try lia.
      - by apply it_inv_bio.
      - by apply (bio_same_ready _ _ Hb).
      - by apply (no_holes_ext (vw s)).
      - exists b', o. split; [by apply (bio_same_trans _ b)|].
        replace (Z.of_nat n * 16 + 16) with (Z.of_nat (S n) * 16) by lia. rewrite E'. unfold search.
        by rewrite (map_ext _ (λ n, entry_at (vw s) k.1 (unload i) (Z.of_nat n * 16)))
          by (intros x; by apply entry_at_ext). }
    destruct (de_inum de =? 0) eqn:Hz; cbn [negb andb]; [exact Hrec|].
    destruct (namecmp name (de_name de) =? 0) eqn:Hc; [|exact Hrec].
    exists b, (Z.of_nat n * 16). split; [done|]. change (idev i) with (ikey i).1. by rewrite Hk.
Qed.

(** A well-formed directory. *)
Record dir_ok (v : Z * Z → list Z) (dev : Z) (d : dinode) : Prop := {
  dk_type : di_type d = T_DIR;
  dk_holes : no_holes v dev d;
  dk_size : di_size d mod sizeof_dirent = 0;
}.

Lemma dirlookup_run name k j i s :
  it_inv (Some j) s → ready (lbio (flog s)) → iused s k = Some (j, i) → k.1 ≠ 0 → dir_ok (vw s) k.1 (unload i) →
  ∃ b o, bio_same (lbio (flog s)) b ∧
    dirlookup me j name s =
    match dlookup (vw s) k.1 (unload i) name with
    | None => Done (None, set_fbio b s)
    | Some m => (ip ← iget k.1 m; mret (Some (ip, o))) (set_fbio b s)
    end.
Proof.
  intros Hi Hrd Hus Hk1 [D1 D2 D3]. pose proof Hus as Hus0.
  apply iused_Some in Hus as (Hj & Hr & Hk); [|by apply (ii_uniq _ _ Hi)].
  unfold dirlookup. rewrite (run_bind _ _ _ _ _ (get_inode_run j s i Hj)).
  change (itype i) with (di_type (unload i)). rewrite D1. cbn [Z.eqb negb T_DIR Pos.eqb].
  pose proof (nh_size _ _ _ D2) as Hs. cbn [unload di_size] in *.
  assert (0 ≤ isize i / sizeof_dirent) by (unfold sizeof_dirent; apply Z.div_pos; lia).
  apply (dirlookup_loop_run name k j i (Z.to_nat (isize i / sizeof_dirent)) 0 _ s); try done; lia.
Qed.
End path.
