(* ===== verification/Walk.v ===== *)
(** * Path walks and the jail of kernel/fs.c

    [walk] is [namex] on the tree of directories the disk has: pure, by inode
    numbers.  [namex_run] says that [namex] computes it and what it leaves of the inode
    table; [jail_confines] that a jailed agent's walk stays inside its jail. *)

From S2P Require Import Prelude CString Effect Printf Proc Locks Bio Log Fs Path.

Local Open Scope Z_scope.

(** ** References *)

(** The references a walk holds, per inode. *)
Definition held (k : Z * Z) (l : list (Z * Z)) : Z := Z.of_nat (length (filter (λ x, x = k) l)).

Lemma held_cons k x l : held k (x :: l) = (if decide (x = k) then 1 else 0) + held k l.
Proof. unfold held. rewrite filter_cons. destruct (decide (x = k)); cbn [length]; lia. Qed.

Lemma held_nil k : held k [] = 0.
Proof. done. Qed.

Lemma held_nonneg k l : 0 ≤ held k l.
Proof. unfold held. lia. Qed.

Lemma held_zero k l : held k l = 0 ↔ k ∉ l.
Proof.
  induction l as [|x l IH]; [split; [set_solver|done]|]. rewrite held_cons, not_elem_of_cons.
  pose proof (held_nonneg k l). destruct (decide (x = k)) as [->|Hx]; [split; [lia|tauto]|].
  rewrite Z.add_0_l, IH. split; [by split|by intros [_ ?]].
Qed.

(** How many of the entries held are new to the table. *)
Definition newly (s0 : fsys) (l : list (Z * Z)) : nat := length (filter (λ k, irefs s0 k = 0) (remove_dups l)).

Lemma iused_pos s k j i : iused s k = Some (j, i) → itable s !! j = Some i ∧ 0 < iref i ∧ ikey i = k.
Proof.
  unfold iused. intros (j' & Hj & (c & Hc & [= -> ->])%bind_Some)%bind_Some.
  apply find_index_Some in Hj as (c & Hc' & Hp & _). replace c with i in * by congruence. by apply iuse_true in Hp.
Qed.

Lemma irefs_nonneg s k : 0 ≤ irefs s k.
Proof. unfold irefs. destruct (iused s k) as [[j i]|] eqn:Hu; [|done]. apply iused_pos in Hu. lia. Qed.

Lemma irefs_pos s k : 0 < irefs s k → ∃ j i, iused s k = Some (j, i) ∧ irefs s k = iref i.
Proof. unfold irefs. destruct (iused s k) as [[j i]|]; [by eauto|lia]. Qed.

Lemma irefs_used s k j i : iused s k = Some (j, i) → irefs s k = iref i.
Proof. unfold irefs. by intros ->. Qed.

Lemma newly_cons s0 k l :
  newly s0 (k :: l) = ((if (irefs s0 k + held k l =? 0)%Z then 1 else 0) + newly s0 l)%nat.
Proof.
  pose proof (held_nonneg k l) as Hn. pose proof (held_zero k l) as Hz. pose proof (irefs_nonneg s0 k).
  unfold newly. cbn [remove_dups]. destruct (decide_rel elem_of k l) as [Hin|Hin].
  - assert (held k l ≠ 0) by tauto. by rewrite (proj2 (Z.eqb_neq _ _)) by lia.
  - apply Hz in Hin. rewrite Hin, filter_cons, Z.add_0_r.
    destruct (decide (irefs s0 k = 0)) as [He|He];
      [by rewrite (proj2 (Z.eqb_eq _ _))|by rewrite (proj2 (Z.eqb_neq _ _))].
Qed.

(** ** Path elements *)

Lemma skip_slashes_length p : (length (skip_slashes p) ≤ length p)%nat.
Proof. induction p as [|c p IH]; cbn; [done|]. destruct (c =? slash); cbn; lia. Qed.

Lemma elem_span_app p e r : elem_span p = (e, r) → p = e ++ r.
Proof.
  revert e r. induction p as [|c p IH]; intros e r; cbn; [by intros [= <- <-]|].
  destruct ((c =? slash) || (c =? 0)); [by intros [= <- <-]|].
  destruct (elem_span p) as [e' r'] eqn:He. intros [= <- <-]. by rewrite (IH _ _ eq_refl).
Qed.

Lemma skip_slashes_hd p : hd 0 (skip_slashes p) ≠ slash.
Proof. induction p as [|c p IH]; cbn; [done|]. destruct (Z.eqb_spec c slash); done. Qed.

Lemma skip_slashes_suffix p : ∃ q, p = q ++ skip_slashes p.
Proof.
  induction p as [|c p [q IH]]; cbn; [by exists []|]. destruct (c =? slash); [|by exists []].
  exists (c :: q). cbn. congruence.
Qed.

Lemma Forall_skip_slashes p : Forall is_u8 p → Forall is_u8 (skip_slashes p).
Proof. destruct (skip_slashes_suffix p) as [q Hq]. rewrite Hq at 1. by intros [_ ?]%Forall_app. Qed.

(** An element is taken off the path, which gets shorter. *)
Lemma skipelem_shorter path name path' name' :
  skipelem path name = Some (path', name') → (length path' < length path)%nat.
Proof.
  unfold skipelem. pose proof (skip_slashes_length path) as H1. pose proof (skip_slashes_hd path) as Hs.
  destruct (Z.eqb_spec (hd 0 (skip_slashes path)) 0) as [|Hz]; [done|].
  destruct (elem_span (skip_slashes path)) as [e r] eqn:He. intros [= <- _]. apply elem_span_app in He as Ha.
  pose proof (skip_slashes_length r). destruct e as [|c e]; [|rewrite Ha, length_app in H1; cbn in H1; lia].
  destruct (skip_slashes path) as [|c p]; [done|]. cbn in He, Hs, Hz.
  rewrite (proj2 (Z.eqb_neq _ _) Hs), (proj2 (Z.eqb_neq _ _) Hz) in He. cbn in He.
  by destruct (elem_span p).
Qed.

Lemma skipelem_u8 path name path' name' :
  skipelem path name = Some (path', name') → Forall is_u8 path → Forall is_u8 name →
  Forall is_u8 path' ∧ Forall is_u8 name'.
Proof.
  unfold skipelem. intros Hs Hp Hn. apply Forall_skip_slashes in Hp. destruct (hd 0 _ =? 0); [done|].
  destruct (elem_span (skip_slashes path)) as [e r] eqn:He. apply elem_span_app in He. rewrite He in Hp.
  apply Forall_app in Hp as [He' Hr]. revert Hs.
  destruct (DIRSIZ <=? length e)%nat; intros [= <- <-]; (split; [by apply Forall_skip_slashes|]).
  - by apply Forall_blit, Forall_take.
  - apply Forall_insert; [by apply Forall_blit|done].
Qed.

Lemma strncmp_step p q n :
  strncmp p q (S n) = 0 → Forall is_u8 p → is_u8 (hd 0 q) →
  hd 0 p = hd 0 q ∧ (hd 0 q ≠ 0 → strncmp (tl p) (tl q) n = 0).
Proof.
  cbn [strncmp]. intros Hs Hp Hq. assert (Hhd : is_u8 (hd 0 p)) by (destruct Hp; [unfold is_u8; cbn; lia|done]).
  destruct (Z.eqb_spec (hd 0 p) 0) as [H0|H0], (Z.eqb_spec (hd 0 p) (hd 0 q)) as [He|He];
    cbn [negb andb] in Hs; try done; rewrite ?u8_id in Hs by done; (split; [lia|intros; first [done|lia]]).
Qed.

(** Only ".." matches an entry named "..". *)
Lemma namecmp_dotdot name de :
  Forall is_u8 name → namecmp name de = 0 → is_dotdot de = true → is_dotdot name = true.
Proof.
  assert (Hnth : ∀ l : list Z, nth 0 l 0 = hd 0 l ∧ nth 1 l 0 = hd 0 (tl l) ∧ nth 2 l 0 = hd 0 (tl (tl l)))
    by (by intros [|? [|? []]]).
  assert (Htl : ∀ l, Forall is_u8 l → Forall is_u8 (tl l)) by (intros l []; done).
  unfold is_dotdot, namecmp. destruct (Hnth name) as (-> & -> & ->), (Hnth de) as (-> & -> & ->).
  intros Hn Hc [[H0%Z.eqb_eq H1%Z.eqb_eq]%andb_prop H2%Z.eqb_eq]%andb_prop.
  assert (Hb : is_u8 dot ∧ is_u8 0 ∧ dot ≠ 0) by (unfold is_u8, dot; lia). destruct Hb as (Hd & Hz & Hdz).
  apply (strncmp_step name de) in Hc as [E0 Hc]; [|done|by rewrite H0]. rewrite H0 in E0, Hc.
  specialize (Hc Hdz). apply strncmp_step in Hc as [E1 Hc]; [|auto|by rewrite H1]. rewrite H1 in E1, Hc.
  specialize (Hc Hdz). apply strncmp_step in Hc as [E2 _]; [|auto|by rewrite H2].
  by rewrite E0, E1, E2, H2, !Z.eqb_refl.
Qed.

(** ** The walk on the directories of the disk *)

Section tree.
Context (v : Z * Z → list Z) (b : superblock).

(** The inode [namex] arrives at from [k]. *)
Fixpoint walk (fuel : nat) (root : option (Z * Z)) (parent : bool) (k : Z * Z) (path name : list Z) : option (Z * Z) :=
  match fuel with
  | O => None
  | S fuel' =>
      match skipelem path name with
      | None => if parent then None else Some k
      | Some (path, name) =>
          let d := dnode_at v b k in
          if negb (di_type d =? T_DIR) then None
          else if parent && (hd 0 path =? 0) then Some k
          else if is_dotdot name && bool_decide (root = Some k) then walk fuel' root parent k path name
          else match dlookup v k.1 d name with
               | Some m => walk fuel' root parent (k.1, m) path name
               | None => None
               end
      end
  end.

(** A set of inodes closed under the entries of its directories, other than ".." of the root. *)
Record subtree (root : option (Z * Z)) (T : Z * Z → Prop) : Prop := {
  st_dev : ∀ k, T k → k.1 ≠ 0;
  st_type : ∀ k, T k → di_type (dnode_at v b k) ≠ 0;
  st_link : ∀ k, T k → di_nlink (dnode_at v b k) ≠ 0;
  st_dir : ∀ k, T k → di_type (dnode_at v b k) = T_DIR → dir_ok v k.1 (dnode_at v b k);
  st_closed : ∀ k de, T k → di_type (dnode_at v b k) = T_DIR → de ∈ dir_entries v k.1 (dnode_at v b k) →
    de_inum de ≠ 0 → (root = Some k → is_dotdot (de_name de) = false) → T (k.1, de_inum de);
}.

Lemma subtree_lookup root T k name m :
  subtree root T → T k → di_type (dnode_at v b k) = T_DIR → Forall is_u8 name →
  is_dotdot name && bool_decide (root = Some k) = false → dlookup v k.1 (dnode_at v b k) name = Some m →
  T (k.1, m).
Proof.
  intros HT Hk Hd Hn Hroot. unfold dlookup, search.
  destruct (List.find _ _) as [de|] eqn:Hf; [|done]. intros [= <-].
  apply List.find_some in Hf as [Hin [Hz Hc%Z.eqb_eq]%andb_prop].
  apply (st_closed _ _ HT); [done|done|by apply list_elem_of_In|by destruct (Z.eqb_spec (de_inum de) 0)|].
  intros ->. rewrite bool_decide_true, andb_true_r in Hroot by done.
  destruct (is_dotdot (de_name de)) eqn:Hdd; [|done]. by rewrite (namecmp_dotdot _ _ Hn Hc Hdd) in Hroot.
Qed.

Lemma walk_confined root T parent fuel : ∀ k path name k',
  subtree root T → T k → Forall is_u8 path → Forall is_u8 name →
  walk fuel root parent k path name = Some k' → T k'.
Proof.
  induction fuel as [|fuel IH]; intros k path name k' HT Hk Hp Hn; cbn [walk]; [done|].
  destruct (skipelem path name) as [[path' name']|] eqn:Hs; [|by destruct parent; [|intros [= <-]]].
  destruct (skipelem_u8 _ _ _ _ Hs Hp Hn) as [Hp' Hn'].
  destruct (Z.eqb_spec (di_type (dnode_at v b k)) T_DIR) as [Hd|]; cbn [negb]; [|done].
  destruct (parent && _); [by intros [= <-]|].
  destruct (is_dotdot name' && bool_decide (root = Some k)) eqn:Hroot; [by apply IH|].
  destruct (dlookup _ _ _ _) as [m|] eqn:Hl; [|done]. apply IH; [done| |done|done].
  by apply (subtree_lookup root T k name').
Qed.
End tree.

Section walk.
Context (me : Z).

(** The state inside a walk that started in [s0] and holds the references [l]. *)
Record walking (s0 : fsys) (lk : option nat) (l : list (Z * Z)) (s : fsys) : Prop := {
  wk_inv : it_inv me lk s;
  wk_bio : bio_same (lbio (flog s0)) (lbio (flog s));
  wk_sb : sb s = sb s0;
  wk_refs : ∀ k, irefs s k = irefs s0 k + held k l;
  wk_stay : ∀ k j i, iused s0 k = Some (j, i) → ∃ i', iused s k = Some (j, i');
  wk_free : (nifree (itable s) + newly s0 l = nifree (itable s0))%nat;
}.

Lemma walking_start s : it_inv me None s → ready (lbio (flog s)) → walking s None [] s.
Proof.
  intros Hi Hr. split;
    [done|by apply bio_same_refl|done|intros k; rewrite held_nil; lia|by eauto|unfold newly; cbn; lia].
Qed.

Lemma walking_swap s0 lk a b s : walking s0 lk [a; b] s → walking s0 lk [b; a] s.
Proof.
  intros [W1 W2 W3 W4 W5 W6]. split; try done.
  - intros k. rewrite W4, !held_cons. lia.
  - rewrite <- W6, !newly_cons, !held_cons, !held_nil.
    destruct (decide (a = b)) as [->|Hab]; [by rewrite decide_True|]. rewrite !decide_False by congruence.
    rewrite !Z.add_0_r. lia.
Qed.

Lemma walking_used s0 lk l s k : walking s0 lk l s → k ∈ l →
  ∃ j i, iused s k = Some (j, i) ∧ iref i = irefs s0 k + held k l.
Proof.
  intros W Hk. destruct (irefs_pos s k) as (j & i & Hu & Hr).
  - rewrite (wk_refs _ _ _ _ W). pose proof (irefs_nonneg s0 k). pose proof (held_nonneg k l).
    pose proof (proj1 (held_zero k l)). assert (held k l ≠ 0) by tauto. lia.
  - exists j, i. split; [done|]. by rewrite <- Hr, (wk_refs _ _ _ _ W).
Qed.

(** What a walk reads of the disk is what was there at its start. *)
Lemma walking_vw s0 lk l s k : walking s0 lk l s → k.1 ≠ 0 → vw s k = vw s0 k.
Proof. intros W Hk. by apply (bio_same_view _ _ _ (wk_bio _ _ _ _ W)). Qed.

Lemma walking_dnode s0 lk l s k :
  walking s0 lk l s → k.1 ≠ 0 → dnode_at (vw s) (sb s) k = dnode_at (vw s0) (sb s0) k.
Proof. intros W Hk. unfold dnode_at. by rewrite (wk_sb _ _ _ _ W), (walking_vw _ _ _ _ (k.1, _) W). Qed.

Lemma walking_ready s0 lk l s : walking s0 lk l s → ready (lbio (flog s0)) → ready (lbio (flog s)).
Proof. intros W. by apply bio_same_ready, (wk_bio _ _ _ _ W). Qed.

(** The inodes of [P] stay in their slots of the table. *)
Definition stays (P : Z * Z → Prop) (s s' : fsys) : Prop :=
  ∀ k j i, P k → iused s k = Some (j, i) → ∃ i', iused s' k = Some (j, i').

(** One more reference. *)
Lemma walking_iget s0 lk l s k :
  walking s0 lk l s → k.1 ≠ 0 → irefs s0 k + held k l < 2 ^ 31 - 1 →
  (newly s0 l < nifree (itable s0))%nat →
  (∀ j i, lk = Some j → itable s !! j = Some i → 0 < iref i) →
  ∃ j i s', iget k.1 k.2 s = Done (j, s') ∧ walking s0 lk (k :: l) s' ∧ iused s' k = Some (j, i) ∧
    stays (λ _, True) s s'.
Proof.
  intros W Hk Hlt Hf Hlk. pose proof W as [W1 W2 W3 W4 W5 W6].
  destruct (iget_run me lk s k W1 Hk) as (j & i & s' & E & I & U & R & K & O & L & B & N); [by rewrite W4|lia|done|].
  assert (HS : stays (λ _, True) s s').
  { intros k' j' i' _ Hu. destruct (decide (k' = k)) as [->|Hne]; [|rewrite O by done; by eauto].
    destruct (K _ _ Hu) as [n Hn]. by eauto. }
  exists j, i, s'. split_and!; [done| |done|done].
  split; [done|by rewrite L|congruence| | |].
  - intros k'. rewrite held_cons. destruct (decide (k = k')) as [<-|Hne].
    + rewrite (irefs_used _ _ _ _ U), R, W4. lia.
    + unfold irefs at 1. rewrite O by done. apply W4.
  - intros k' j' i0 Hu. destruct (W5 k' j' i0 Hu) as [i1 Hu1]. by apply (HS k' j' i1).
  - rewrite newly_cons, <- W4. lia.
Qed.

Lemma idup_iget s k j i : iused s k = Some (j, i) → idup j s = iget k.1 k.2 s.
Proof.
  unfold iused, iget. intros (j' & Hj & (c & Hc & [= -> ->])%bind_Some)%bind_Some.
  change (find_index (λ i, (0 <? iref i) && (idev i =? k.1) && (inum i =? k.2)) (itable s))
    with (find_index (iuse k) (itable s)). by rewrite Hj.
Qed.

(** An entry changes but for its reference count and its key. *)
Lemma irefs_entry s j i i' : iuniq (itable s) → itable s !! j = Some i → 0 < iref i → ikey i' = ikey i →
  iref i' = iref i → ∀ k, irefs (set_entry j i' s) k = irefs s k ∧
    (∀ l c, iused s k = Some (l, c) → ∃ c', iused (set_entry j i' s) k = Some (l, c')).
Proof.
  intros Hu Hj Hr Hk Hr' k. assert (Hc : ichange (itable s) i i') by (left; by split).
  unfold irefs. rewrite (iused_insert s j i i') by done. destruct (decide (k = ikey i')) as [->|Hne]; [|by eauto].
  assert (Hi : iused s (ikey i') = Some (j, i)) by (by apply iused_Some). rewrite Hi, decide_True by lia.
  split; [done|]. intros l c [= <- <-]. eauto.
Qed.

Lemma walking_entry s0 lk lk' l s j i i' :
  walking s0 lk l s → itable s !! j = Some i → 0 < iref i → ikey i' = ikey i → iref i' = iref i →
  it_inv me lk' (set_entry j i' s) → walking s0 lk' l (set_entry j i' s).
Proof.
  intros [W1 W2 W3 W4 W5 W6] Hj Hr Hk Hr' Hi. pose proof (irefs_entry s j i i' (ii_uniq _ _ _ W1) Hj Hr Hk Hr') as He.
  split; try done.
  - intros k. rewrite (proj1 (He k)). apply W4.
  - intros k j' i0 Hu. destruct (W5 _ _ _ Hu) as [i1 Hu1]. by eapply He.
  - rewrite <- W6. f_equal. pose proof (nifree_insert (itable s) j i i' Hj) as Hn. unfold ifree_one in Hn.
    rewrite Hr' in Hn. cbn [itable set_entry set_itable]. lia.
Qed.

Lemma walking_fbio s0 lk l s b :
  walking s0 lk l s → bio_same (lbio (flog s)) b → walking s0 lk l (set_fbio b s).
Proof.
  intros [W1 W2 W3 W4 W5 W6] Hb. split; try done; [by apply it_inv_bio|by apply (bio_same_trans _ (lbio (flog s)))].
Qed.

Lemma walking_ilock s0 l s k j i :
  walking s0 None l s → ready (lbio (flog s0)) → k.1 ≠ 0 → iused s k = Some (j, i) →
  di_type (dnode_at (vw s0) (sb s0) k) ≠ 0 →
  ∃ i' s', ilock me j s = Done ((), s') ∧ walking s0 (Some j) l s' ∧ iused s' k = Some (j, i') ∧
    unload i' = dnode_at (vw s0) (sb s0) k ∧ ivalid i' ≠ 0.
Proof.
  intros W Hr Hk Hu Ht. pose proof (walking_dnode _ _ _ _ _ W Hk) as Hd.
  destruct (ilock_run me s k j i (wk_inv _ _ _ _ W) (walking_ready _ _ _ _ W Hr) Hk Hu)
    as (i' & b & s' & E & I & U & R & D & V & -> & B); [congruence|].
  exists i', (set_entry j i' (set_fbio b s)). split_and!; [done| |done|congruence|done].
  apply iused_pos in Hu as (Hj & Hp & Hki). apply iused_pos in U as (_ & _ & Hki').
  apply (walking_entry s0 None (Some j) l (set_fbio b s) j i i'); [by apply walking_fbio|done|done|congruence|done|done].
Qed.

Lemma walking_iunlock s0 l s k j i :
  walking s0 (Some j) l s → iused s k = Some (j, i) →
  ∃ i' s', iunlock me j s = Done ((), s') ∧ walking s0 None l s' ∧ iused s' k = Some (j, i') ∧
    unload i' = unload i ∧ stays (λ _, True) s s'.
Proof.
  intros W Hu. destruct (iunlock_run me s k j i (wk_inv _ _ _ _ W) Hu) as (s' & E & I & -> & U & O).
  set (i' := set_ilk (mk_sleeplock 0 0) i) in *. exists i', (set_entry j i' s).
  pose proof (iused_pos _ _ _ _ Hu) as (Hj & Hp & Hki). split_and!; try done; last first.
  { intros k' j' i0 _ Hu0. by eapply (irefs_entry s j i i'); [by apply (ii_uniq _ _ _ (wk_inv _ _ _ _ W))|..]. }
  by apply (walking_entry s0 (Some j) None l s j i i').
Qed.

(** A reference dropped: the inode is linked, so nothing is freed. *)
Lemma walking_iput s0 l s k j i :
  walking s0 None (k :: l) s → iused s k = Some (j, i) → k.1 ≠ 0 →
  di_nlink (dnode_at (vw s0) (sb s0) k) ≠ 0 → irefs s0 k + held k (k :: l) < 2 ^ 31 →
  ∃ s', iput me j s = Done ((), s') ∧ walking s0 None l s' ∧ stays (λ k, k ∈ l) s s'.
Proof.
  intros W Hu Hk Hn Hlt. pose proof W as [W1 W2 W3 W4 W5 W6]. pose proof (W4 k) as Hr.
  rewrite (irefs_used _ _ _ _ Hu) in Hr. pose proof (iused_pos _ _ _ _ Hu) as (Hj & Hp & Hki).
  destruct (iput_run me s k j i W1 Hu) as (s' & E & I & L & B & U & O & N); [lia| |].
  { intros Hv. pose proof (ii_valid _ _ _ W1 j i Hj Hp Hv) as Hd. rewrite Hki in Hd.
    rewrite (walking_dnode _ _ _ _ _ W Hk) in Hd. by rewrite <- Hd in Hn. }
  rewrite held_cons, decide_True in Hr by done.
  exists s'. split; [done|]. split; last first.
  { intros k' j' i0 Hin Hu0. destruct (decide (k' = k)) as [->|Hne]; [|rewrite O by done; by eauto].
    pose proof (irefs_nonneg s0 k). pose proof (held_nonneg k l). assert (held k l ≠ 0) by (rewrite held_zero; tauto).
    rewrite (proj2 (Z.eqb_neq _ _)) in U by lia. rewrite Hu in Hu0. injection Hu0 as <- <-. by eauto. }
  assert (Hk' : irefs s' k = iref i - 1).
  { destruct (Z.eqb_spec (iref i) 1) as [H1|H1]; unfold irefs; rewrite U; [lia|done]. }
  split; [done|by rewrite L|congruence| | |].
  - intros k'. destruct (decide (k' = k)) as [->|Hne]; [lia|]. pose proof (W4 k') as Hr'.
    rewrite held_cons, decide_False in Hr' by done. unfold irefs at 1. rewrite O by done. exact Hr'.
  - intros k' j' i0 Hu0. destruct (decide (k' = k)) as [->|Hne]; [|rewrite O by done; by eapply W5].
    destruct (W5 _ _ _ Hu0) as [i1 Hu1]. rewrite Hu in Hu1. injection Hu1 as -> <-.
    rewrite (irefs_used _ _ _ _ Hu0) in Hr. apply iused_pos in Hu0 as (_ & Hp0 & _). pose proof (held_nonneg k l).
    destruct (Z.eqb_spec (iref i) 1); [lia|]. by eauto.
  - rewrite newly_cons in W6. replace (irefs s0 k + held k l) with (iref i - 1) in W6 by lia.
    destruct (Z.eqb_spec (iref i) 1), (Z.eqb_spec (iref i - 1) 0); lia.
Qed.

Lemma walking_iunlockput s0 l s k j i :
  walking s0 (Some j) (k :: l) s → iused s k = Some (j, i) → k.1 ≠ 0 →
  di_nlink (dnode_at (vw s0) (sb s0) k) ≠ 0 → irefs s0 k + held k (k :: l) < 2 ^ 31 →
  ∃ s', iunlockput me j s = Done ((), s') ∧ walking s0 None l s' ∧ stays (λ k, k ∈ l) s s'.
Proof.
  intros W Hu Hk Hn Hlt. destruct (walking_iunlock s0 _ s k j i W Hu) as (i' & s1 & E1 & W1 & U1 & _ & S1).
  destruct (walking_iput s0 l s1 k j i' W1 U1 Hk Hn Hlt) as (s2 & E2 & W2 & S2).
  exists s2. split_and!; [|done|].
  - unfold iunlockput. by rewrite (run_bind _ _ _ _ _ E1).
  - intros k' j' i0 Hin Hu0. destruct (S1 k' j' i0 I Hu0) as [i1 Hu1]. by apply (S2 k' j' i1).
Qed.

(** ** [namex] walks *)

Section from.
Context (s0 : fsys) (root : option (Z * Z)) (jail : option nat) (T : Z * Z → Prop) (parent : bool).
Context (Hready : ready (lbio (flog s0))).
Context (Hjail : match root, jail with
                 | Some k, Some j => ∃ i, iused s0 k = Some (j, i)
                 | None, None => True
                 | _, _ => False
                 end).
Context (HT : subtree (vw s0) (sb s0) root T).
Context (Hrefs : ∀ k, T k → irefs s0 k < 2 ^ 31 - 3).
Context (Hfree : (2 ≤ nifree (itable s0))%nat).

(** The test for ".." at the root of the jail. *)
Lemma pinned_run lk l s j i k name :
  walking s0 lk l s → iused s k = Some (j, i) →
  match jail with
  | Some jr => j ← get_inode jr; mret (is_dotdot name && (idev i =? idev j) && (inum i =? inum j))
  | None => mret false
  end s = Done (is_dotdot name && bool_decide (root = Some k), s).
Proof.
  intros W Hu. apply iused_pos in Hu as (_ & _ & Hk).
  destruct root as [r|], jail as [jr|]; try done; [|by rewrite bool_decide_false, andb_false_r].
  destruct Hjail as [i0 Hi0]. destruct (wk_stay _ _ _ _ W _ _ _ Hi0) as [ir Hir].
  apply iused_pos in Hir as (Hjr & _ & Hkr). rewrite (run_bind _ _ _ _ _ (get_inode_run jr s ir Hjr)).
  unfold mret, M_ret. do 2 f_equal. rewrite <- andb_assoc. f_equal. subst r k. unfold ikey.
  destruct (Z.eqb_spec (idev i) (idev ir)), (Z.eqb_spec (inum i) (inum ir)); cbn [andb]; symmetry;
    (apply bool_decide_eq_true || apply bool_decide_eq_false); congruence.
Qed.

(** One lookup: the directory is given up for the inode found. *)
Lemma lookup_step s k j i name :
  walking s0 (Some j) [k] s → iused s k = Some (j, i) → T k → unload i = dnode_at (vw s0) (sb s0) k →
  di_type (unload i) = T_DIR → (∀ m, dlookup (vw s0) k.1 (unload i) name = Some m → T (k.1, m)) →
  match dlookup (vw s0) k.1 (unload i) name with
  | None => ∃ s1 s2, dirlookup me j name s = Done (None, s1) ∧
      iunlockput me j s1 = Done ((), s2) ∧ walking s0 None [] s2
  | Some m => ∃ s1 s2 j' i' o, dirlookup me j name s = Done (Some (j', o), s1) ∧
      iunlockput me j s1 = Done ((), s2) ∧ walking s0 None [(k.1, m)] s2 ∧ iused s2 (k.1, m) = Some (j', i')
  end.
Proof.
  intros W Hu Hk Hd Ht Hin. pose proof (st_dev _ _ _ _ HT _ Hk) as Hk1. pose proof (st_link _ _ _ _ HT _ Hk) as Hl.
  pose proof (Hrefs _ Hk) as Hr.
  assert (Hv : ∀ n, vw s (k.1, n) = vw s0 (k.1, n)) by (intros n; by apply (walking_vw s0 _ _ _ _ W)).
  assert (Hok : dir_ok (vw s) k.1 (unload i)).
  { rewrite Hd in Ht |- *. destruct (st_dir _ _ _ _ HT _ Hk Ht) as [D1 D2 D3]. split; [done| |done].
    by apply (no_holes_ext (vw s0)). }
  destruct (dirlookup_run me name k j i s (wk_inv _ _ _ _ W) (walking_ready _ _ _ _ W Hready) Hu Hk1 Hok)
    as (b & o & Hb & E).
  assert (Hdl : dlookup (vw s) k.1 (unload i) name = dlookup (vw s0) k.1 (unload i) name).
  { unfold dlookup, dir_entries. f_equal. apply map_ext. intros n. by apply entry_at_ext. }
  rewrite Hdl in E. pose proof (walking_fbio s0 _ _ s b W Hb) as Wb.
  destruct (dlookup (vw s0) k.1 (unload i) name) as [m|].
  - specialize (Hin m eq_refl). pose proof (Hrefs _ Hin) as Hr'.
    pose proof (held_nonneg (k.1, m) []) as Hh.
    assert (Hh1 : held (k.1, m) [k] ≤ 1) by (rewrite held_cons, held_nil; destruct (decide _); lia).
    destruct (walking_iget s0 (Some j) [k] (set_fbio b s) (k.1, m) Wb Hk1) as (j' & i' & s1 & E1 & W1 & U1 & O1).
    + lia.
    + rewrite newly_cons. change (newly s0 []) with 0%nat. destruct (_ =? 0); lia.
    + intros j1 i1 [= <-] Hj1. apply iused_pos in Hu as (Hj2 & Hp & _). change (itable (set_fbio b s)) with (itable s) in Hj1. congruence.
    + change (iget (k.1, m).1 (k.1, m).2) with (iget k.1 m) in E1. rewrite (run_bind _ _ _ _ _ E1) in E.
      destruct (O1 k j i I Hu) as [ik Uk]. apply walking_swap in W1.
      destruct (walking_iunlockput s0 [(k.1, m)] s1 k j ik W1 Uk Hk1 Hl) as (s2 & E2 & W2 & S2).
      { rewrite !held_cons, held_nil. destruct (decide _), (decide _); lia. }
      destruct (S2 (k.1, m) j' i' ltac:(left) U1) as [i2 U2]. by exists s1, s2, j', i2, o.
  - destruct (walking_iunlockput s0 [] (set_fbio b s) k j i Wb Hu Hk1 Hl) as (s2 & E2 & W2 & _).
    { rewrite held_cons, held_nil. destruct (decide _); lia. }
    by exists (set_fbio b s), s2.
Qed.

(** Where the walk ended: what [namex] returns, and the reference it leaves. *)
Definition arrived (k : option (Z * Z)) (o : option nat) (s : fsys) : Prop :=
  match k with
  | Some k => ∃ j i, o = Some j ∧ walking s0 None [k] s ∧ iused s k = Some (j, i)
  | None => o = None ∧ walking s0 None [] s
  end.

Lemma namex_loop_run fuel : ∀ k j i s path name,
  (length path < fuel)%nat → walking s0 None [k] s → iused s k = Some (j, i) → T k →
  Forall is_u8 path → Forall is_u8 name →
  ∃ o name' s', namex_loop me fuel jail parent j path name s = Done ((o, name'), s') ∧
    arrived (walk (vw s0) (sb s0) fuel root parent k path name) o s'.
Proof.
  induction fuel as [|fuel IH]; intros k j i s path name Hf W Hu Hk Hp Hn; [lia|]. cbn [namex_loop walk].
  pose proof (st_dev _ _ _ _ HT _ Hk) as Hk1. pose proof (st_link _ _ _ _ HT _ Hk) as Hl.
  pose proof (Hrefs _ Hk) as Hr.
  assert (Hh : irefs s0 k + held k [k] < 2 ^ 31) by (rewrite held_cons, held_nil; destruct (decide _); lia).
  destruct (skipelem path name) as [[path' name']|] eqn:Hs.
  - destruct (skipelem_u8 _ _ _ _ Hs Hp Hn) as [Hp' Hn']. apply skipelem_shorter in Hs.
    destruct (walking_ilock s0 [k] s k j i W Hready Hk1 Hu (st_type _ _ _ _ HT _ Hk)) as (i1 & s1 & E1 & W1 & U1 & D1 & V1).
    rewrite (run_bind _ _ _ _ _ E1). pose proof (iused_pos _ _ _ _ U1) as (Hj1 & _ & _).
    rewrite (run_bind _ _ _ _ _ (get_inode_run j s1 i1 Hj1)). change (itype i1) with (di_type (unload i1)).
    rewrite <- D1. destruct (Z.eqb_spec (di_type (unload i1)) T_DIR) as [Hd|Hd]; cbn [negb].
    + destruct (walking_iunlock s0 [k] s1 k j i1 W1 U1) as (i2 & s2 & E2 & W2 & U2 & _ & _).
      destruct (parent && _) eqn:Hpar.
      { exists (Some j), name', s2. rewrite (run_bind _ _ _ _ _ E2). split; [done|]. by exists j, i2. }
      rewrite (run_bind _ _ _ _ _ (pinned_run _ _ s1 j i1 k name' W1 U1)).
      destruct (is_dotdot name' && bool_decide (root = Some k)) eqn:Hroot.
      { rewrite (run_bind _ _ _ _ _ E2). by apply (IH k j i2); [lia|..]. }
      assert (Hin : ∀ m, dlookup (vw s0) k.1 (unload i1) name' = Some m → T (k.1, m)).
      { intros m Hm. rewrite D1 in Hd, Hm. by apply (subtree_lookup _ _ root T k name' m HT Hk Hd Hn' Hroot). }
      pose proof (lookup_step s1 k j i1 name' W1 U1 Hk D1 Hd Hin) as Hlk.
      destruct (dlookup (vw s0) k.1 (unload i1) name') as [m|].
      * destruct Hlk as (s3 & s4 & j' & i' & o & E3 & E4 & W4 & U4). rewrite (run_bind _ _ _ _ _ E3).
        rewrite (run_bind _ _ _ _ _ E4). by apply (IH (k.1, m) j' i'); [lia|done|done|apply Hin|..].
      * destruct Hlk as (s3 & s4 & E3 & E4 & W4). rewrite (run_bind _ _ _ _ _ E3), (run_bind _ _ _ _ _ E4).
        by exists None, name', s4.
    + destruct (walking_iunlockput s0 [] s1 k j i1 W1 U1 Hk1 Hl Hh) as (s2 & E2 & W2 & _).
      rewrite (run_bind _ _ _ _ _ E2). by exists None, name', s2.
  - destruct parent; [|by exists (Some j), name, s; split; [done|]; exists j, i].
    destruct (walking_iput s0 [] s k j i W Hu Hk1 Hl Hh) as (s2 & E2 & W2 & _).
    rewrite (run_bind _ _ _ _ _ E2). by exists None, name, s2.
Qed.
End from.

(** The inode a path starts from. *)
Definition start_of (root : option (Z * Z)) (cwd : Z * Z) (path : list Z) : Z * Z :=
  if hd 0 path =? slash then default (ROOTDEV, ROOTINO) root else cwd.

(** The process: where its jail and its directory are. *)
Record walker (s : fsys) (p : pctx) (root : option (Z * Z)) (cwd : Z * Z) : Prop := {
  wr_jail : match root, jail_of (Some p) with
            | Some k, Some j => ∃ i, iused s k = Some (j, i)
            | None, None => True
            | _, _ => False
            end;
  wr_cwd : ∃ i, iused s cwd = Some (px_cwd p, i);
}.

Lemma namex_run s p root cwd T parent path name :
  it_inv me None s → ready (lbio (flog s)) → walker s p root cwd → subtree (vw s) (sb s) root T →
  (∀ k, T k → irefs s k < 2 ^ 31 - 3) → (2 ≤ nifree (itable s))%nat →
  T (start_of root cwd path) → Forall is_u8 path → Forall is_u8 name →
  ∃ o name' s', namex me (Some p) parent path name s = Done ((o, name'), s') ∧
    arrived s (walk (vw s) (sb s) (S (length path)) root parent (start_of root cwd path) path name) o s'.
Proof.
  intros Hi Hr [Wj [ic Wc]] HT Hrefs Hf Hst Hp Hn. set (k := start_of root cwd path) in *.
  assert (Hstart : (if hd 0 path =? slash
      then match jail_of (Some p) with Some jr => idup jr | None => iget ROOTDEV ROOTINO end
      else idup (px_cwd p)) s = iget k.1 k.2 s).
  { unfold k, start_of. destruct (hd 0 path =? slash); [|by apply (idup_iget s cwd _ ic)].
    destruct root as [r|], (jail_of (Some p)) as [jr|]; try done. destruct Wj as [ir Wj]. by apply (idup_iget s r _ ir). }
  pose proof (Hrefs _ Hst) as Hk. pose proof (st_dev _ _ _ _ HT _ Hst) as Hk1.
  destruct (walking_iget s None [] s k (walking_start s Hi Hr) Hk1) as (j & i & s1 & E & W & U & _);
    [rewrite held_nil; lia|change (newly s []) with 0%nat; lia|done|].
  unfold namex. cbv zeta. rewrite (run_bind _ _ s j s1); [|by rewrite Hstart].
  by apply (namex_loop_run s root (jail_of (Some p)) T parent Hr Wj HT Hrefs Hf (S (length path)) k j i); [lia|..].
Qed.
End walk.

(** ** The jail *)

(** C22: whatever the path, [namex] in a jailed agent returns; the inode it hands out lies in the
    jail's subtree (any set of inodes closed under directory entries other than ".." of the jail
    root), is the one the pure walk finds, and is the only one whose reference count changed;
    the disk is untouched. *)
Theorem jail_confines me s p jail cwd T parent path name :
  it_inv me None s → ready (lbio (flog s)) → walker s p (Some jail) cwd →
  subtree (vw s) (sb s) (Some jail) T → T jail → T cwd →
  (∀ k, T k → irefs s k < 2 ^ 31 - 3) → (2 ≤ nifree (itable s))%nat →
  Forall is_u8 path → Forall is_u8 name →
  ∃ o name' s', namex me (Some p) parent path name s = Done ((o, name'), s') ∧
    it_inv me None s' ∧ bio_same (lbio (flog s)) (lbio (flog s')) ∧
    match o with
    | None => ∀ k, irefs s' k = irefs s k
    | Some ip => ∃ k i, T k ∧
        walk (vw s) (sb s) (S (length path)) (Some jail) parent (start_of (Some jail) cwd path) path name = Some k ∧
        iused s' k = Some (ip, i) ∧ ∀ k', irefs s' k' = irefs s k' + if decide (k' = k) then 1 else 0
    end.
Proof.
  intros Hi Hr Hw HT Hj Hc Hrefs Hf Hp Hn.
  assert (Hst : T (start_of (Some jail) cwd path)) by (unfold start_of; by destruct (hd 0 path =? slash)).
  destruct (namex_run me s p (Some jail) cwd T parent path name Hi Hr Hw HT Hrefs Hf Hst Hp Hn)
    as (o & name' & s' & E & A).
  exists o, name', s'. split; [done|].
  destruct (walk _ _ _ _ _ _ _ _) as [k|] eqn:Hk; cbn [arrived] in A.
  - destruct A as (j & i & -> & W & U). split_and!; [by apply W|by apply W|]. exists k, i.
    split_and!; [exact (walk_confined _ _ _ _ _ _ _ _ _ _ HT Hst Hp Hn Hk)|done|done|]. intros k'.
    rewrite (wk_refs _ _ _ _ _ W), held_cons, held_nil. destruct (decide (k = k')), (decide (k' = k)); (congruence || lia).
  - destruct A as (-> & W). split_and!; [by apply W|by apply W|]. intros k.
    rewrite (wk_refs _ _ _ _ _ W), held_nil. lia.
Qed.

(** A disk with a root directory (inode 1), the jail /jail (inode 2) with a file (inode 3), and
    a file outside (inode 4). *)
Definition demo_sb : superblock := mk_sb FSMAGIC 1000 900 64 30 2 33 45.
Definition demo_dir (n block bytes : Z) : list Z → list Z :=
  put_dinode n (mk_dinode T_DIR 0 0 1 bytes (block :: replicate 12 0)).
Definition demo_file (n block bytes : Z) : list Z → list Z :=
  put_dinode n (mk_dinode T_FILE 0 0 1 bytes (block :: replicate 12 0)).
Definition demo_entries (l : list (Z * String.string)) : list Z :=
  blit zero_block 0 (concat (map (λ '(n, name), dirent n (bytes name)) l)).
Definition demo_disk : disk :=
  <[(1, 33) := demo_dir 1 50 64 (demo_dir 2 51 48 (demo_file 3 52 5 (demo_file 4 53 5 zero_block)))]>
  (<[(1, 50) := demo_entries [(1, "."%string); (1, ".."%string); (2, "jail"%string); (4, "secret"%string)]]>
  (<[(1, 51) := demo_entries [(2, "."%string); (1, ".."%string); (3, "notes"%string)]]> ∅)).

Definition demo_fs : fsys :=
  mk_fsys (mk_lsys (binit demo_disk) (mk_log 2 0 0 1 (mk_lh 0 (replicate 30 0))) [])
    (mk_inode 1 2 2 initsleeplock 0 0 0 0 0 0 [] :: replicate 49 inode0) demo_sb.
Definition demo_agent : pctx := mk_pctx 1 (Some 0%nat) 0.
Definition demo_tree (k : Z * Z) : Prop := k = (1, 2) ∨ k = (1, 3).

Lemma demo_disk_blocks k : length (dread demo_disk k) = BSIZE.
Proof.
  unfold dread, demo_disk. rewrite !lookup_insert, lookup_empty. repeat case_decide; by vm_compute.
Qed.

Lemma demo_jail : dnode_at (vw demo_fs) (sb demo_fs) (1, 2) = mk_dinode T_DIR 0 0 1 48 (51 :: replicate 12 0).
Proof. by vm_compute. Qed.

Lemma demo_notes : dnode_at (vw demo_fs) (sb demo_fs) (1, 3) = mk_dinode T_FILE 0 0 1 5 (52 :: replicate 12 0).
Proof. by vm_compute. Qed.

Lemma demo_subtree : subtree (vw demo_fs) (sb demo_fs) (Some (1, 2)) demo_tree.
Proof.
  split; try (intros k [-> | ->]; rewrite ?demo_jail, ?demo_notes; done).
  - intros k [-> | ->]; rewrite ?demo_jail, ?demo_notes; [|done]. intros _. split; [done| |done].
    assert (Hoff : ∀ off, 0 ≤ off < 48 → off / BS = 0) by (intros off Ho; apply Z.div_small; unfold BS, BSIZE; lia).
    split; cbn [di_size di_addrs]; [done|split; by vm_compute| |].
    + intros off Ho. unfold file_block. by rewrite Hoff.
    + intros H. by vm_compute in H.
  - intros k de [-> | ->]; rewrite ?demo_jail, ?demo_notes; [|done]. intros _ Hin Hz Hdd. specialize (Hdd).
    assert (He : dir_entries (vw demo_fs) 1 (mk_dinode T_DIR 0 0 1 48 (51 :: replicate 12 0)) =
      [dirent 2 (bytes "."); dirent 1 (bytes ".."); dirent 3 (bytes "notes")]) by (by vm_compute).
    cbn [fst] in Hin |- *. rewrite He in Hin. rewrite !elem_of_cons, elem_of_nil in Hin.
    destruct Hin as [-> | [-> | [-> | []]]]; [by left|by specialize (Hdd eq_refl)|by right].
Qed.

Lemma jail_confines_witness :
  ∃ o name' s', namex 7 (Some demo_agent) false (bytes "/../../secret") (replicate DIRSIZ 0) demo_fs = Done ((o, name'), s') ∧
    match o with
    | None => ∀ k, irefs s' k = irefs demo_fs k
    | Some ip => ∃ k i, demo_tree k ∧ iused s' k = Some (ip, i)
    end.
Proof.
  destruct (binit_inv demo_disk demo_disk_blocks) as (Hb & Hu & Hf).
  assert (Hlk : ∀ j i, itable demo_fs !! j = Some i → j = 0%nat ∧ i = mk_inode 1 2 2 initsleeplock 0 0 0 0 0 0 [] ∨ i = inode0).
  { intros [|j] i; cbn [itable demo_fs lookup list_lookup]; [intros [= <-]; by left|].
    intros [-> _]%lookup_replicate. by right. }
  destruct (jail_confines 7 demo_fs demo_agent (1, 2) (1, 2) demo_tree false (bytes "/../../secret") (replicate DIRSIZ 0))
    as (o & name' & s' & E & _ & _ & H).
  - split.
    + intros j l a b Ha Hb' Hra Hrb _. apply Hlk in Ha as [[-> ->] | ->]; [|done]. by apply Hlk in Hb' as [[-> _] | ->].
    + intros j i [[_ ->] | ->]%Hlk; done.
    + intros j i [[_ ->] | ->]%Hlk; done.
    + intros j i [[_ ->] | ->]%Hlk; done.
    + intros j i [[_ ->] | ->]%Hlk; done.
    + done.
  - split; [split; [done|]|unfold NBUF in Hf; cbn [flog demo_fs lbio]; rewrite Hf; lia].
    intros k _. cbn [flog demo_fs lbio]. split; [intros i b; by rewrite (Hu k)|unfold refs; by rewrite (Hu k)].
  - split; [|by exists (mk_inode 1 2 2 initsleeplock 0 0 0 0 0 0 [])].
    by exists (mk_inode 1 2 2 initsleeplock 0 0 0 0 0 0 []).
  - exact demo_subtree.
  - by left.
  - by left.
  - intros k [-> | ->]; by vm_compute.
  - vm_compute. lia.
  - apply Forall_bytes_u8.
  - unfold DIRSIZ. repeat constructor; unfold is_u8; lia.
  - exists o, name', s'. split; [exact E|]. clear E. revert H. generalize (walk (vw demo_fs) (sb demo_fs)). intros w H.
    destruct o as [ip|]; [|exact H]. destruct H as (k & i & Hk & _ & Hi & _). exists k, i. exact (conj Hk Hi).
Defined.
