(* ===== verification/Content.v ===== *)
(** * The contents of files

    [content] is what the blocks of a device say an inode contains; [readi] of kernel/fs.c
    returns it, and [writei] over bytes the file has replaces them and nothing else. *)

From S2P Require Import Prelude CString Effect Printf Proc Locks Bio Log Fs Dinode Path Walk.

Local Open Scope Z_scope.

(** ** What an inode contains *)

Section content.
Context (v : Z * Z → list Z) (dev : Z) (d : dinode).

Definition byte_at (off : Z) : Z := nth (Z.to_nat (off mod BS)) (v (dev, file_block v dev d off)) 0.

(** The [n] bytes from [off] on. *)
Definition content (off : Z) (n : nat) : list Z := map (λ i, byte_at (off + Z.of_nat i)) (seq 0 n).

Lemma length_content off n : length (content off n) = n.
Proof. unfold content. by rewrite length_map, length_seq. Qed.

Lemma content_app off n m : content off (n + m) = content off n ++ content (off + Z.of_nat n) m.
Proof.
  unfold content. rewrite seq_app, map_app. f_equal. rewrite <- (Nat.add_0_r (0 + n)), <- fmap_add_seq.
  unfold fmap. rewrite map_map. apply map_ext. intros i. f_equal. lia.
Qed.

Lemma same_block_off off i : 0 ≤ off → 0 ≤ i → off mod BS + i < BS → (off + i) / BS = off / BS ∧ (off + i) mod BS = off mod BS + i.
Proof. unfold BS, BSIZE. intros. split; Z.div_mod_to_equations; lia. Qed.

Lemma file_block_same off i : 0 ≤ off → 0 ≤ i → off mod BS + i < BS → file_block v dev d (off + i) = file_block v dev d off.
Proof. intros. unfold file_block. by rewrite (proj1 (same_block_off off i ltac:(done) ltac:(done) ltac:(done))). Qed.

(** Inside a block the contents are the block's bytes. *)
Lemma content_chunk off m :
  0 ≤ off → off mod BS + Z.of_nat m ≤ BS → length (v (dev, file_block v dev d off)) = BSIZE →
  content off m = sub (Z.to_nat (off mod BS)) m (v (dev, file_block v dev d off)).
Proof.
  intros Ho Hm Hl. pose proof (Z.mod_pos_bound off BS ltac:(done)) as Hb.
  apply list_eq. intros i. unfold content, sub. rewrite lookup_map.
  destruct (decide (i < m)%nat) as [Hi|Hi].
  - rewrite lookup_take_lt, lookup_drop, lookup_seq_lt by lia. cbn [fmap option_map option_fmap].
    unfold byte_at. rewrite file_block_same by lia. rewrite (proj2 (same_block_off off (Z.of_nat (0 + i)) ltac:(lia) ltac:(lia) ltac:(lia))).
    replace (Z.to_nat (off mod BS + Z.of_nat (0 + i))) with (Z.to_nat (off mod BS) + i)%nat by lia.
    destruct (v _ !! _) as [x|] eqn:Hx; [by rewrite (nth_lookup_Some _ _ 0 _ Hx)|].
    apply lookup_ge_None_1 in Hx. unfold BS in *. lia.
  - rewrite lookup_take_ge, lookup_seq_ge by lia. done.
Qed.
End content.

Lemma byte_at_ext v w dev d off : (∀ n, v (dev, n) = w (dev, n)) → byte_at v dev d off = byte_at w dev d off.
Proof. intros He. unfold byte_at. by rewrite (file_block_ext v w), He. Qed.

Lemma content_ext v w dev d off n : (∀ n, v (dev, n) = w (dev, n)) → content v dev d off n = content w dev d off n.
Proof. intros He. apply map_ext. intros i. by apply byte_at_ext. Qed.

(** ** [readi] *)

Section read.
Context (me : Z).

Lemma read_chunks_run ok k j i n :
  (∀ a l, ok a l = true) → k.1 ≠ 0 → ∀ fuel s dst off tot,
  it_inv me (Some j) s → ready (lbio (flog s)) → iused s k = Some (j, i) → no_holes (vw s) k.1 (unload i) →
  0 ≤ off → 0 ≤ tot ≤ n → off + (n - tot) ≤ isize i → n - tot ≤ Z.of_nat fuel →
  ∃ b, bio_same (lbio (flog s)) b ∧ read_chunks me fuel ok j dst off tot n s =
    Done ((n, content (vw s) k.1 (unload i) off (Z.to_nat (n - tot))), set_fbio b s).
Proof.
  intros Hok Hk1. induction fuel as [|fuel IH]; intros s dst' off tot Hi Hrd Hus Hnh Ho Ht Hs Hf; cbn [read_chunks].
  { exists (lbio (flog s)). split; [by apply bio_same_refl|]. replace tot with n by lia. rewrite Z.sub_diag.
    by destruct s as [[] ? ?]. }
  destruct (Z.ltb_spec tot n) as [Hlt|Hge]; cycle 1.
  { exists (lbio (flog s)). split; [by apply bio_same_refl|]. replace tot with n by lia. rewrite Z.sub_diag.
    by destruct s as [[] ? ?]. }
  assert (HBS : BS = 1024) by done.
  pose proof (nh_size _ _ _ Hnh) as Hmax. cbn [unload di_size] in Hmax. change (MAXFILE * BS) with 274432 in Hmax.
  pose proof (Z.mod_pos_bound off BS ltac:(done)) as Hmod. fold BS.
  destruct (bmap_run me s k j i (off / BS) Hi Hrd Hus Hk1 Hnh) as (b & Eb & Hb).
  { rewrite HBS. clear -Ho Hs Hlt. Z.div_mod_to_equations. lia. }
  assert (Hsame : file_block (vw s) k.1 (unload i) (off / BS * BS) = file_block (vw s) k.1 (unload i) off).
  { unfold file_block. by rewrite Z.div_mul. }
  rewrite Hsame in Eb. set (a := file_block _ _ _ off) in *.
  assert (Ha : a ≠ 0) by (apply (nh_block _ _ _ Hnh); cbn; lia).
  destruct (fs_read me (set_fbio b s) k.1 a) as (x & b1 & b2 & E1 & E2 & E3 & Hb2);
    [by apply (bio_same_ready _ _ Hb)|done|].
  assert (Hview : vw (set_fbio b s) (k.1, a) = vw s (k.1, a)) by (by apply (bio_same_view _ _ _ Hb)).
  assert (Hb' : bio_same (lbio (flog s)) b2) by (by apply (bio_same_trans _ b)).
  set (m := Z.min (n - tot) (BS - off mod BS)).
  pose proof Hus as (Hj & Hr & Hk)%iused_Some; [|by apply (ii_uniq _ _ _ Hi)].
  destruct (IH (set_fbio b2 s) (u64 (dst' + m)) (off + m) (tot + m)) as (b3 & Hb3 & E4); try done; try lia.
  { by apply it_inv_bio. }
  { by apply (bio_same_ready _ _ Hb'). }
  { apply (no_holes_ext (vw s)); [|done]. intros y. symmetry. by apply (bio_same_vw s b2 (k.1, y)). }
  exists b3. split; [by apply (bio_same_trans _ b2)|].
  rewrite (run_bind _ _ _ _ _ Eb), (proj2 (Z.eqb_neq _ _)) by done.
  rewrite (run_bind _ _ _ _ _ (get_inode_run j (set_fbio b s) i Hj)). change (idev i) with (ikey i).1. rewrite Hk.
  rewrite (run_bind _ _ _ _ _ E1), (run_bind _ _ _ _ _ E2), Hview. fold m. rewrite Hok. cbn [negb].
  rewrite (run_bind _ _ (set_fbio b1 (set_fbio b s)) () (set_fbio b2 (set_fbio b s))) by exact (E3 (itable s)).
  rewrite u32_id by (unfold is_u32; lia). rewrite !set_fbio_twice in *. rewrite (run_bind _ _ _ _ _ E4).
  pose proof (content_chunk (vw s) k.1 (unload i) off (Z.to_nat m) Ho ltac:(lia) ltac:(apply length_view, Hrd)) as Hc.
  fold a in Hc. rewrite <- Hc.
  rewrite (content_ext (vw (set_fbio b2 s)) (vw s)) by (intros y; by apply (bio_same_vw s b2 (k.1, y))).
  replace (Z.to_nat (n - tot)) with (Z.to_nat m + Z.to_nat (n - (tot + m)))%nat by lia.
  rewrite content_app. by replace (off + Z.of_nat (Z.to_nat m)) with (off + m) by lia.
Qed.

(** [readi] returns the bytes of the file that it asks for, up to its end. *)
Lemma readi_run ok k j i dst off n s :
  (∀ a l, ok a l = true) → k.1 ≠ 0 → it_inv me (Some j) s → ready (lbio (flog s)) → iused s k = Some (j, i) →
  no_holes (vw s) k.1 (unload i) → 0 ≤ off → 0 ≤ n → off + n < 2 ^ 32 →
  let m := Z.max 0 (Z.min n (isize i - off)) in
  ∃ b, bio_same (lbio (flog s)) b ∧
    readi me ok j dst off n s = Done ((m, content (vw s) k.1 (unload i) off (Z.to_nat m)), set_fbio b s).
Proof.
  intros Hok Hk1 Hi Hrd Hus Hnh Ho Hn Hon m.
  pose proof Hus as (Hj & Hr & Hk)%iused_Some; [|by apply (ii_uniq _ _ _ Hi)].
  pose proof (nh_size _ _ _ Hnh) as Hmax. cbn [unload di_size] in Hmax. change (MAXFILE * BS) with 274432 in Hmax.
  unfold readi. rewrite (run_bind _ _ _ _ _ (get_inode_run j s i Hj)). rewrite u32_id by (unfold is_u32; lia).
  rewrite (proj2 (Z.ltb_ge (off + n) off)) by lia. rewrite orb_false_r.
  destruct (Z.ltb_spec (isize i) off) as [Hlt|Hge].
  { exists (lbio (flog s)). split; [by apply bio_same_refl|]. replace m with 0 by lia. by destruct s as [[] ? ?]. }
  cbv zeta. replace (if isize i <? off + n then isize i - off else n) with m by (destruct (Z.ltb_spec (isize i) (off + n)); lia).
  destruct (read_chunks_run ok k j i m Hok Hk1 (Z.to_nat m) s dst off 0) as (b & Hb & E); try done; try lia.
  exists b. split; [done|]. rewrite (run_bind _ _ _ _ _ E), Z.sub_0_r, s32_id by lia. done.
Qed.
End read.

(** ** [writei] inside the file *)

Section write.
Context (me dev start : Z).
Hypothesis (Hdev : 0 < dev < 2 ^ 31).

(** Reads are part of a transaction that leave it as it is. *)
Lemma txn_inv_bio s b :
  txn_inv dev start (flog s) → bio_same (lbio (flog s)) b → txn_inv dev start (flog (set_fbio b s)).
Proof.
  intros [[T1 T1'] T2 T3 T4 T5 T6 T7] [B1 B2 [B3 B3'] B4].
  split; cbn [flog set_fbio set_flog lbio set_lbio llog]; rewrite ?B3, ?B4; try done.
  - split; [done|]. intros k Hk. destruct (B2 k Hk) as (-> & _ & Hu), (T1' k Hk). split; [by apply Hu|done].
  - intros x Hx. destruct (B2 (hk dev x)) as (-> & _); [cbn; lia|]. by apply T3.
  - intros k Hk Hk1. destruct (B2 k Hk1) as (-> & _). by apply T4.
Qed.

Lemma txn_inv_ready s : txn_inv dev start s → lh_n (lh (llog s)) < LOGBLOCKS → ready (lbio s).
Proof.
  intros [T1 T2 T3 T4 T5 T6 T7] Hlt. split; [done|]. pose proof (lo_head _ _ _ T2) as Hh. rewrite (length_listed _ Hh) in T5.
  destruct Hh as [Hn _ _]. unfold NBUF, LOGBLOCKS, MAXOPBLOCKS in *. lia.
Qed.

(** The pattern of fs.c is [update] of the log. *)
Lemma fs_update s b f l :
  update me dev b f (flog s) = Done ((), l) →
  (bp ← rd_block me dev b; x ← block_data bp; set_block_data bp (f x);; log_block_write bp;; rel_block me bp) s =
  Done ((), set_flog l s).
Proof.
  unfold update, rd_block, block_data, set_block_data, log_block_write, rel_block, fbio, on_log. intros Hu.
  apply run_bind_inv in Hu as (i & s1 & E1 & Hu). rewrite (run_bind _ _ _ _ _ (run_zoom flog set_flog _ s _ _ E1)).
  apply run_bind_inv in Hu as (x & s2 & E2 & Hu). rewrite (run_bind _ _ _ _ _ (run_zoom flog set_flog _ (set_flog s1 s) _ _ E2)).
  apply run_bind_inv in Hu as (? & s3 & E3 & Hu). rewrite (run_bind _ _ _ _ _ (run_zoom flog set_flog _ (set_flog s2 s) _ _ E3)).
  apply run_bind_inv in Hu as (? & s4 & E4 & Hu). rewrite (run_bind _ _ _ _ _ (run_zoom flog set_flog _ (set_flog s3 s) _ _ E4)).
  exact (run_zoom flog set_flog _ (set_flog s4 s) _ _ Hu).
Qed.

Lemma fs_update_then {A} (m : M fsys A) s b f l :
  update me dev b f (flog s) = Done ((), l) →
  (bp ← rd_block me dev b; x ← block_data bp; set_block_data bp (f x);; log_block_write bp;; rel_block me bp;; m) s =
  m (set_flog l s).
Proof.
  intros Hu. rewrite <- (run_bind _ (λ _, m) _ _ _ (fs_update s b f l Hu)). unfold mbind, M_bind.
  destruct (rd_block me dev b s) as [[bp s1]| | |]; [|done..]. destruct (block_data bp s1) as [[x s2]| | |]; [|done..].
  destruct (set_block_data bp (f x) s2) as [[? s3]| | |]; [|done..].
  by destruct (log_block_write bp s3) as [[? s4]| | |].
Qed.

(** A file whose blocks are its own: no two of its blocks are the same, none is its indirect
    block, holds inodes or is in the log. *)
Record own_blocks (v : Z * Z → list Z) (b : superblock) (d : dinode) : Prop := {
  ob_holes : no_holes v dev d;
  ob_home : ∀ off, 0 ≤ off < di_size d → home dev start (file_block v dev d off);
  ob_inj : ∀ o o', 0 ≤ o < di_size d → 0 ≤ o' < di_size d → file_block v dev d o = file_block v dev d o' → o / BS = o' / BS;
  ob_ind : ∀ off, 0 ≤ off < di_size d → NDIRECT * BS < di_size d → file_block v dev d off ≠ nth (Z.to_nat NDIRECT) (di_addrs d) 0;
  ob_inodes : ∀ off n, 0 ≤ off < di_size d → 0 ≤ n < ninodes b → file_block v dev d off ≠ IBLOCK n b;
}.

(** [w] is [v] with [data] in the file at [off], and no other block changed. *)
Record overwritten (d : dinode) (off : Z) (data : list Z) (v w : Z * Z → list Z) : Prop := {
  ow_block : ∀ x, 0 ≤ x < di_size d → file_block w dev d x = file_block v dev d x;
  ow_byte : ∀ x, 0 ≤ x < di_size d → byte_at w dev d x =
    if decide (off ≤ x < off + Z.of_nat (length data)) then nth (Z.to_nat (x - off)) data 0 else byte_at v dev d x;
  ow_frame : ∀ k, k.1 ≠ 0 → (∀ x, off ≤ x < off + Z.of_nat (length data) → k ≠ (dev, file_block v dev d x)) → w k = v k;
}.

Lemma overwritten_nil d off v w : (∀ k, k.1 ≠ 0 → w k = v k) → overwritten d off [] v w.
Proof.
  intros He. split; [|intros x Hx|by auto].
  - intros x Hx. apply file_block_ext. intros n. apply He. cbn. lia.
  - rewrite decide_False by (cbn; lia). apply byte_at_ext. intros n. apply He. cbn. lia.
Qed.

Lemma overwritten_app d off a b v w z :
  0 ≤ off → off + Z.of_nat (length a) + Z.of_nat (length b) ≤ di_size d →
  overwritten d off a v w → overwritten d (off + Z.of_nat (length a)) b w z → overwritten d off (a ++ b) v z.
Proof.
  intros Ho Hs [A1 A2 A3] [B1 B2 B3]. split.
  - intros x Hx. by rewrite B1, A1.
  - intros x Hx. rewrite B2, A2, length_app by done.
    destruct (decide (off + Z.of_nat (length a) ≤ x < _)).
    + rewrite decide_True by lia. rewrite app_nth2 by lia. f_equal. lia.
    + destruct (decide (off ≤ x < off + Z.of_nat (length a))).
      * rewrite decide_True by lia. rewrite app_nth1 by lia. done.
      * by rewrite decide_False by lia.
  - intros k Hk Hn. rewrite length_app in Hn. rewrite B3, A3; try done.
    + intros x Hx. apply Hn. lia.
    + intros x Hx. rewrite A1 by lia. apply Hn. lia.
Qed.

Lemma nth_blit (l a : list Z) o i :
  (o + length a ≤ length l)%nat → nth i (blit l o a) 0 = if decide (o ≤ i < o + length a)%nat then nth (i - o) a 0 else nth i l 0.
Proof.
  intros H. unfold blit. assert (Ht : length (take o l) = o) by (rewrite length_take; lia).
  destruct (decide (i < o)%nat) as [Hi|Hi].
  - rewrite decide_False by lia. rewrite app_nth1 by lia. rewrite <- (take_drop o l) at 2. by rewrite app_nth1 by lia.
  - rewrite app_nth2 by lia. rewrite Ht. destruct (decide _).
    + by rewrite app_nth1 by lia.
    + rewrite app_nth2 by lia. rewrite nth_skipn. f_equal. lia.
Qed.

Lemma overwritten_chunk v w b d off chunk :
  own_blocks v b d → chunk ≠ [] → 0 ≤ off → off + Z.of_nat (length chunk) ≤ di_size d →
  off mod BS + Z.of_nat (length chunk) ≤ BS → length (v (dev, file_block v dev d off)) = BSIZE →
  (∀ k, k.1 ≠ 0 → w k = if decide (k = (dev, file_block v dev d off)) then blit (v k) (Z.to_nat (off mod BS)) chunk else v k) →
  overwritten d off chunk v w.
Proof.
  intros [O1 O2 O3 O4 O5] Hne Ho Hs Hm Hl Hw. set (a := file_block v dev d off) in *.
  assert (Hc : (0 < length chunk)%nat) by (destruct chunk; [done|cbn; lia]).
  assert (HBS : BS = Z.of_nat BSIZE) by done. assert (Hb : 0 < BS) by done. pose proof (Z.mod_pos_bound off BS Hb).
  assert (Hfb : ∀ x, 0 ≤ x < di_size d → file_block w dev d x = file_block v dev d x).
  { intros x Hx. unfold file_block. destruct (Z.ltb_spec (x / BS) NDIRECT) as [|Hn]; [done|]. rewrite Hw by (cbn; lia).
    assert (NDIRECT * BS < di_size d) by (pose proof (Z.mul_div_le x BS Hb); nia).
    rewrite decide_False; [done|]. intros [= He]. by apply (O4 off); [lia|lia|]. }
  assert (Hin : ∀ x, off ≤ x < off + Z.of_nat (length chunk) → x / BS = off / BS ∧ x mod BS = off mod BS + (x - off)).
  { intros x Hx. replace x with (off + (x - off)) at 1 2 by lia. apply same_block_off; lia. }
  split; [done| |].
  - intros x Hx. unfold byte_at. rewrite Hfb, Hw by (done || cbn; lia). pose proof (Z.mod_pos_bound x BS Hb).
    destruct (decide ((dev, _) = _)) as [[= He]|Hn].
    + rewrite He. apply O3 in He; [|done|lia]. rewrite nth_blit by lia.
      pose proof (Z.div_mod x BS ltac:(lia)). pose proof (Z.div_mod off BS ltac:(lia)). rewrite He in *.
      destruct (decide (off ≤ x < _)).
      * rewrite decide_True by lia. f_equal. lia.
      * by rewrite decide_False by lia.
    + rewrite decide_False; [done|]. intros Hx'. apply Hn. unfold a, file_block. by rewrite (proj1 (Hin x Hx')).
  - intros k Hk Hn. rewrite Hw, decide_False; [done| |done]. apply Hn. lia.
Qed.

Lemma content_overwritten d off data v w :
  overwritten d off data v w → 0 ≤ off → off + Z.of_nat (length data) ≤ di_size d → content w dev d off (length data) = data.
Proof.
  intros [_ W _] Ho Hs. apply list_eq. intros x. unfold content. rewrite lookup_map.
  destruct (data !! x) as [y|] eqn:Hx.
  - pose proof (lookup_lt_Some _ _ _ Hx). rewrite lookup_seq_lt by lia. cbn [fmap option_map option_fmap Nat.add].
    rewrite W, decide_True by lia. replace (Z.to_nat (off + Z.of_nat x - off)) with x by lia. by rewrite (nth_lookup_Some _ _ 0 _ Hx).
  - apply lookup_ge_None_1 in Hx. by rewrite lookup_seq_ge by lia.
Qed.

Lemma own_blocks_ow v w b d off data : own_blocks v b d → overwritten d off data v w → own_blocks w b d.
Proof.
  intros [[N1 N2 N3 N4] O2 O3 O4 O5] [W1 W2 W3].
  split; [split; try done; intros o Hx; rewrite W1 by done; by apply N3|..].
  - intros o Hx. rewrite W1 by done. by apply O2.
  - intros o o' Hx Hx'. rewrite !W1 by done. by apply O3.
  - intros o Hx. rewrite W1 by done. by apply O4.
  - intros o n Hx Hn. rewrite W1 by done. by apply O5.
Qed.

(** The inode table goes with the inode blocks. *)
Lemma it_inv_blocks lk s l :
  it_inv me lk s → 
  (∀ j i, itable s !! j = Some i → 0 < iref i → view (lbio l) (idev i, IBLOCK (inum i) (sb s)) = vw s (idev i, IBLOCK (inum i) (sb s))) →
  it_inv me lk (set_flog l s).
Proof.
  intros [I1 I2 I3 I4 Hd I5] Hv. split; try done. intros j i Hi Hr Hva. rewrite (I4 j i Hi Hr Hva).
  unfold dnode_at, vw. cbn [flog set_flog sb]. cbn [ikey fst snd]. by rewrite (Hv j i Hi Hr).
Qed.

(** In the middle of a transaction, with inode [n] locked as entry [j]. *)
Record writing (j : nat) (i : inode) (n : Z) (s : fsys) : Prop := {
  wg_it : it_inv me (Some j) s;
  wg_txn : txn_inv dev start (flog s);
  wg_out : 1 ≤ outstanding (llog (flog s));
  wg_used : iused s (dev, n) = Some (j, i);
  wg_nums : ∀ l c, itable s !! l = Some c → 0 < iref c → 0 ≤ inum c < ninodes (sb s);
  wg_own : own_blocks (vw s) (sb s) (unload i);
}.

Definition logged (s : fsys) : Z := lh_n (lh (llog (flog s))).

Lemma update_logged s b l :
  txn_inv dev start (flog s) → txn_inv dev start l →
  listed (lh (llog l)) = list_block (listed (lh (llog (flog s)))) b → lh_n (lh (llog l)) ≤ logged s + 1.
Proof.
  intros T T' Hl. unfold logged. rewrite !(listed_n dev start) by (by apply tx_log). rewrite Hl.
  pose proof (length_list_block (listed (lh (llog (flog s)))) b). lia.
Qed.

Lemma write_step j i n s off chunk :
  writing j i n s → logged s < LOGBLOCKS → chunk ≠ [] → 0 ≤ off → off + Z.of_nat (length chunk) ≤ isize i →
  off mod BS + Z.of_nat (length chunk) ≤ BS →
  ∃ l, update me dev (file_block (vw s) dev (unload i) off) (λ x, blit x (Z.to_nat (off mod BS)) chunk) (flog s) = Done ((), l) ∧
    writing j i n (set_flog l s) ∧ overwritten (unload i) off chunk (vw s) (vw (set_flog l s)) ∧
    logged (set_flog l s) ≤ logged s + 1.
Proof.
  intros [G1 G2 G3 G4 G6 G5] Hlog Hne Ho Hs Hm. set (a := file_block _ _ _ off).
  assert (Hc : (0 < length chunk)%nat) by (destruct chunk; [done|cbn; lia]).
  pose proof (Z.mod_pos_bound off BS ltac:(done)). assert (HBS : BS = Z.of_nat BSIZE) by done.
  destruct (update_run me dev start Hdev (flog s) a (λ x, blit x (Z.to_nat (off mod BS)) chunk)) as
    (l & E & T & V & L & O & _ & _); try done.
  { apply (ob_home _ _ _ G5). cbn. lia. }
  { intros x Hx. rewrite length_blit; lia. }
  assert (How : overwritten (unload i) off chunk (vw s) (vw (set_flog l s))).
  { apply (overwritten_chunk _ _ (sb s)); try done. apply length_view. by apply (tx_calm _ _ _ G2). }
  exists l. split_and!; [done| |done|by apply (update_logged s a l)]. split; try done.
  - apply it_inv_blocks; [done|]. intros l' c Hl Hr. apply (ow_frame _ _ _ _ _ How); [by apply (ii_dev _ _ _ G1 l' c)|].
    intros x Hx [= _ He]. eapply (ob_inodes _ _ _ G5); [|by apply (G6 l' c)|by symmetry]. cbn. lia.
  - cbn [flog set_flog]. lia.
  - by apply (own_blocks_ow (vw s) _ _ _ off chunk).
Qed.

Lemma writing_bio j i n s b : writing j i n s → bio_same (lbio (flog s)) b → writing j i n (set_fbio b s).
Proof.
  intros [G1 G2 G3 G4 G6 G5] Hb. split; try done; [by apply it_inv_bio|by apply txn_inv_bio|].
  assert (He : ∀ k, k.1 ≠ 0 → vw (set_fbio b s) k = vw s k) by (intros k Hk; by apply bio_same_vw).
  apply (own_blocks_ow (vw s) _ _ _ 0 []); [done|]. by apply overwritten_nil.
Qed.

(** Updating an inode that has not changed. *)
Lemma iupdate_run j i n s :
  writing j i n s → logged s < LOGBLOCKS → home dev start (IBLOCK n (sb s)) → Forall is_u8 (vw s (dev, IBLOCK n (sb s))) →
  ∃ l, iupdate me j s = Done ((), set_flog l s) ∧ writing j i n (set_flog l s) ∧
    logged (set_flog l s) ≤ logged s + 1 ∧ ∀ k, k.1 ≠ 0 → vw (set_flog l s) k = vw s k.
Proof.
  intros [G1 G2 G3 G4 G6 G5] Hlog Hh Hu. pose proof (nh_len _ _ _ (ob_holes _ _ _ G5)) as Hlen.
  pose proof (tx_calm _ _ _ G2) as [Hinv _].
  pose proof G4 as (Hj & Hr & Hk)%iused_Some; [|by apply (ii_uniq _ _ _ G1)].
  destruct (ii_mine _ _ _ G1 j eq_refl) as (i0 & Hj0 & _ & Hval). replace i0 with i in * by congruence. clear i0 Hj0.
  pose proof (ii_valid _ _ _ G1 j i Hj Hr Hval) as Hun. rewrite Hk in Hun. unfold dnode_at in Hun. cbn [fst snd] in Hun.
  injection Hk as Hidev Hinum.
  destruct (update_run me dev start Hdev (flog s) (IBLOCK n (sb s)) (put_dinode n (unload i))) as
    (l & E & T & V & L & O & _ & _); try done.
  { intros x Hx. by apply length_put_dinode. }
  assert (Hv : ∀ k, k.1 ≠ 0 → vw (set_flog l s) k = vw s k).
  { intros k Hk. unfold vw. cbn [flog set_flog]. rewrite V by done. destruct (decide (k = _)) as [->|]; [|done].
    rewrite Hun. apply put_dinode_same; [by apply length_view|done]. }
  exists l. split_and!; [| |by apply (update_logged s (IBLOCK n (sb s)) l)|done].
  - unfold iupdate. erewrite run_bind by reflexivity. rewrite (run_bind _ _ _ _ _ (get_inode_run j s i Hj)).
    rewrite Hidev, Hinum. by apply (fs_update s _ (put_dinode n (unload i))).
  - split; try done.
    + apply it_inv_blocks; [done|]. intros l' c Hl Hr'. apply Hv. by apply (ii_dev _ _ _ G1 l' c).
    + cbn [flog set_flog]. lia.
    + apply (own_blocks_ow (vw s) _ _ _ 0 []); [done|]. by apply overwritten_nil.
Qed.

Section data.
Context (src_at : Z → Z → list Z * bool) (src : Z) (data : list Z).
Notation len := (Z.of_nat (length data)).
Hypothesis (Hrange : 0 ≤ src ∧ src + len < 2 ^ 64).
Hypothesis (Hsrc : ∀ o m, 0 ≤ o → 0 ≤ m → o + m ≤ len → src_at (src + o) m = (sub (Z.to_nat o) (Z.to_nat m) data, true)).

(** The blocks that [n] bytes at [off] touch. *)
Definition touched (off n : Z) : Z := if n =? 0 then 0 else (off + n - 1) / BS - off / BS + 1.

Lemma touched_step off n :
  0 ≤ off → 0 < n → let m := Z.min n (BS - off mod BS) in touched (off + m) (n - m) + 1 ≤ touched off n.
Proof.
  intros Ho Hn m. unfold touched. rewrite (proj2 (Z.eqb_neq n 0)) by lia. assert (HBS : BS = 1024) by done.
  destruct (Z.eqb_spec (n - m) 0) as [He|He]; rewrite HBS in *; unfold m in *; clear m; Z.div_mod_to_equations; lia.
Qed.

Lemma write_done j i n s off tot :
  writing j i n s → logged s + touched off (len - tot) < LOGBLOCKS → tot = len →
  ∃ l, Done ((tot, off), s) = Done ((len, off + (len - tot)), set_flog l s) ∧
    writing j i n (set_flog l s) ∧ logged (set_flog l s) ≤ logged s + touched off (len - tot) ∧
    overwritten (unload i) off (drop (Z.to_nat tot) data) (vw s) (vw (set_flog l s)).
Proof.
  intros G Hlog ->. exists (flog s). replace (set_flog (flog s) s) with s by (by destruct s).
  rewrite Z.sub_diag, Z.add_0_r in *. change (touched off 0) with 0 in *. split_and!; try done; try lia.
  rewrite drop_ge by lia. by apply overwritten_nil.
Qed.

Lemma write_chunks_run j i n : ∀ fuel s off tot,
  writing j i n s → 0 ≤ off → 0 ≤ tot ≤ len → off + (len - tot) ≤ isize i → len - tot ≤ Z.of_nat fuel →
  logged s + touched off (len - tot) < LOGBLOCKS →
  ∃ l, write_chunks me fuel src_at j (src + tot) off tot len s = Done ((len, off + (len - tot)), set_flog l s) ∧
    writing j i n (set_flog l s) ∧ logged (set_flog l s) ≤ logged s + touched off (len - tot) ∧
    overwritten (unload i) off (drop (Z.to_nat tot) data) (vw s) (vw (set_flog l s)).
Proof.
  induction fuel as [|fuel IH]; intros s off tot G Ho Ht Hs Hf Hlog; cbn [write_chunks];
    [apply write_done; [done|done|lia]|].
  destruct (Z.ltb_spec tot len) as [Hlt|Hge]; [|apply write_done; [done|done|lia]].
  assert (HBS : BS = 1024) by done. pose proof (wg_own _ _ _ _ G) as [Hnh _ _ _ _].
  pose proof (nh_size _ _ _ Hnh) as Hmax. cbn [unload di_size] in Hmax. change (MAXFILE * BS) with 274432 in Hmax.
  pose proof (Z.mod_pos_bound off BS ltac:(done)) as Hmod. fold BS. set (m := Z.min (len - tot) (BS - off mod BS)).
  pose proof (touched_step off (len - tot) Ho ltac:(lia)) as Htc. cbv zeta in Htc. fold m in Htc.
  assert (Htc0 : 0 ≤ touched (off + m) (len - tot - m)).
  { unfold touched. destruct (Z.eqb_spec (len - tot - m) 0); [done|]. pose proof (Z.div_le_mono (off + m) (off + m + (len - tot - m) - 1) BS ltac:(done) ltac:(lia)). lia. }
  assert (Hl1 : logged s < LOGBLOCKS) by lia.
  assert (Hrd : ready (lbio (flog s))) by (apply txn_inv_ready; [by apply G|exact Hl1]).
  destruct (bmap_run me s (dev, n) j i (off / BS) (wg_it _ _ _ _ G) Hrd (wg_used _ _ _ _ G)) as (b & Eb & Hb); [cbn; lia|done| |].
  { rewrite HBS. clear -Ho Hs Hlt. Z.div_mod_to_equations. lia. }
  assert (Hsame : file_block (vw s) dev (unload i) (off / BS * BS) = file_block (vw s) dev (unload i) off).
  { unfold file_block. by rewrite Z.div_mul. }
  cbn [fst] in Eb. rewrite Hsame in Eb. pose proof (writing_bio _ _ _ _ _ G Hb) as G1. set (s1 := set_fbio b s) in *.
  assert (Hv1 : ∀ k, k.1 ≠ 0 → vw s1 k = vw s k) by (intros k Hk; by apply bio_same_vw).
  assert (Hfb : file_block (vw s1) dev (unload i) off = file_block (vw s) dev (unload i) off) by (apply file_block_ext; intros x; apply Hv1; cbn; lia).
  set (chunk := sub (Z.to_nat tot) (Z.to_nat m) data). assert (Hch : length chunk = Z.to_nat m) by (apply length_sub; lia).
  destruct (write_step j i n s1 off chunk G1) as (l & E & G2 & W & L); [change (logged s1) with (logged s); lia| |done|lia|lia|].
  { intros He. rewrite He in Hch. cbn in Hch. lia. }
  change (logged s1) with (logged s) in L. rewrite Hfb in E.
  destruct (IH (set_flog l s1) (off + m) (tot + m) G2) as (l2 & E2 & G3 & L3 & W3); try lia.
  { replace (len - (tot + m)) with (len - tot - m) by lia. lia. }
  exists l2. change (set_flog l2 (set_flog l s1)) with (set_flog l2 s) in *.
  replace (len - (tot + m)) with (len - tot - m) in L3 by lia. split_and!; [|done|lia|].
  - rewrite (run_bind _ _ _ _ _ Eb), (proj2 (Z.eqb_neq _ _)) by (apply (nh_block _ _ _ Hnh); cbn; lia).
    pose proof (wg_used _ _ _ _ G1) as (Hj & Hr & Hk)%iused_Some; [|by apply (ii_uniq _ _ _ (wg_it _ _ _ _ G1))].
    rewrite (run_bind _ _ _ _ _ (get_inode_run j s1 i Hj)). injection Hk as -> _. cbv zeta. fold m.
    rewrite Hsrc by lia. fold chunk. cbn [negb].
    rewrite (fs_update_then _ s1 _ (λ x, blit x (Z.to_nat (off mod BS)) chunk) l E).
    replace (u64 (src + tot + m)) with (src + (tot + m)) by (unfold u64; rewrite Z.mod_small; lia).
    rewrite u32_id by (unfold is_u32; lia). rewrite E2. do 3 f_equal. lia.
  - replace (drop (Z.to_nat tot) data) with (chunk ++ drop (Z.to_nat (tot + m)) data).
    + apply (overwritten_app _ _ _ _ _ (vw (set_flog l s1))); [done| | |].
      * rewrite Hch, length_drop. cbn [unload di_size]. lia.
      * destruct W as [W1 W2 W3']. split.
        -- intros x Hx. rewrite W1 by done. apply file_block_ext. intros y. apply Hv1. cbn. lia.
        -- intros x Hx. rewrite W2 by done. destruct (decide _); [done|]. apply byte_at_ext. intros y. apply Hv1. cbn. lia.
        -- intros k Hk Hn. rewrite W3' by (done || (intros x Hx; rewrite (file_block_ext _ (vw s)); [by apply Hn|intros y; apply Hv1; cbn; lia])). by apply Hv1.
      * by replace (off + Z.of_nat (length chunk)) with (off + m) by lia.
    + unfold chunk, sub. rewrite Z2Nat.inj_add, <- drop_drop by lia. apply take_drop.
Qed.

Lemma writei_run j i n s off :
  writing j i n s → 0 ≤ off → off + len ≤ isize i → logged s + touched off len < LOGBLOCKS →
  home dev start (IBLOCK n (sb s)) → Forall is_u8 (vw s (dev, IBLOCK n (sb s))) →
  ∃ l, writei me src_at j src off len s = Done (len, set_flog l s) ∧ writing j i n (set_flog l s) ∧
    logged (set_flog l s) ≤ logged s + touched off len + 1 ∧ overwritten (unload i) off data (vw s) (vw (set_flog l s)).
Proof.
  intros G Ho Hs Hlog Hh Hu. pose proof (wg_used _ _ _ _ G) as (Hj & Hr & Hk)%iused_Some; [|by apply (ii_uniq _ _ _ (wg_it _ _ _ _ G))].
  pose proof (wg_own _ _ _ _ G) as [Hnh _ _ _ Hin].
  pose proof (nh_size _ _ _ Hnh) as Hmax. cbn [unload di_size] in Hmax. change (MAXFILE * BS) with 274432 in Hmax.
  destruct (write_chunks_run j i n (Z.to_nat len) s off 0 G Ho) as (l & E & G1 & L1 & W); try lia.
  { by rewrite Z.sub_0_r. }
  rewrite Z.sub_0_r, drop_0, Z.add_0_r in *.
  destruct (iupdate_run j i n (set_flog l s) G1) as (l2 & E2 & G2 & L2 & V2); [lia|done| |].
  { rewrite (ow_frame _ _ _ _ _ W); [done|cbn; lia|]. intros x Hx [= He]. eapply (Hin x n); [cbn; lia| |done].
    injection Hk as _ <-. by apply (wg_nums _ _ _ _ G j). }
  exists l2. change (set_flog l2 (set_flog l s)) with (set_flog l2 s) in *. split_and!; [|done|lia|].
  - unfold writei. rewrite (run_bind _ _ _ _ _ (get_inode_run j s i Hj)). rewrite u32_id by (unfold is_u32; lia).
    rewrite !(proj2 (Z.ltb_ge _ _)) by (rewrite ?Zeq_bool_refl; change (MAXFILE * Z.of_nat BSIZE) with 274432; lia). cbn [orb].
    rewrite (run_bind _ _ _ _ _ E). cbv iota. rewrite (run_bind _ _ _ _ _ (get_inode_run j (set_flog l s) i Hj)).
    rewrite (proj2 (Z.ltb_ge _ _)) by lia. cbn [when]. erewrite run_bind by reflexivity. rewrite (run_bind _ _ _ _ _ E2).
    by rewrite s32_id by lia.
  - rewrite <- (app_nil_r data). apply (overwritten_app _ _ _ _ _ (vw (set_flog l s))); cbn; [lia|cbn; lia|done|by apply overwritten_nil].
Qed.
End data.
End write.

(** C23: a write inside a file, in a transaction with room in the log, succeeds whole; a read of the same
    range then returns the bytes written, and neither the other bytes of the file nor any other
    block of any disk is changed (the blocks of the inodes included). *)
Theorem writei_readi me dev start src_at src data ok dst j i n s off :
  let len := Z.of_nat (length data) in
  0 < dev < 2 ^ 31 → 0 ≤ src ∧ src + len < 2 ^ 64 →
  (∀ o m, 0 ≤ o → 0 ≤ m → o + m ≤ len → src_at (src + o) m = (sub (Z.to_nat o) (Z.to_nat m) data, true)) →
  (∀ a l, ok a l = true) →
  writing me dev start j i n s → 0 ≤ off → off + len ≤ isize i → logged s + touched off len + 1 < LOGBLOCKS →
  home dev start (IBLOCK n (sb s)) → Forall is_u8 (vw s (dev, IBLOCK n (sb s))) →
  ∃ l b, writei me src_at j src off len s = Done (len, set_flog l s) ∧
    readi me ok j dst off len (set_flog l s) = Done ((len, data), set_fbio b (set_flog l s)) ∧
    (∀ x, 0 ≤ x < isize i → ¬ off ≤ x < off + len →
      byte_at (vw (set_flog l s)) dev (unload i) x = byte_at (vw s) dev (unload i) x) ∧
    ∀ k, k.1 ≠ 0 → (∀ x, off ≤ x < off + len → k ≠ (dev, file_block (vw s) dev (unload i) x)) →
      vw (set_flog l s) k = vw s k.
Proof.
  cbv zeta. intros Hdev Hsrc Hat Hok G Ho Hs Hlog Hh Hu.
  destruct (writei_run me dev start Hdev src_at src data Hsrc Hat j i n s off G Ho Hs ltac:(lia) Hh Hu) as (l & E & G1 & L1 & W).
  pose proof (ob_holes _ _ _ _ _ (wg_own _ _ _ _ _ _ _ G1)) as Hnh. pose proof (nh_size _ _ _ Hnh) as Hmax.
  cbn [unload di_size] in *. change (MAXFILE * BS) with 274432 in Hmax.
  assert (Hl : logged (set_flog l s) < LOGBLOCKS) by lia. set (s1 := set_flog l s) in *.
  destruct (readi_run me ok (dev, n) j i dst off (Z.of_nat (length data)) s1) as (b & _ & Eb); try done; try apply G1; try lia.
  { cbn. lia. }
  { apply (txn_inv_ready dev start); [apply G1|exact Hl]. }
  exists l, b. replace (Z.max 0 (Z.min (Z.of_nat (length data)) (isize i - off))) with (Z.of_nat (length data)) in Eb by lia.
  rewrite Nat2Z.id in Eb. cbn [fst] in Eb.
  rewrite (content_overwritten _ _ _ _ (vw s) _ W) in Eb by done. split_and!; [done|done| |].
  - intros x Hx Hn. rewrite (ow_byte _ _ _ _ _ _ W) by done. by rewrite decide_False.
  - intros k Hk Hn. by apply (ow_frame _ _ _ _ _ _ W).
Qed.

(** The file of inode 3 on the disk of Walk.v, locked as entry 0 inside a transaction. *)
Definition demo_open : inode := mk_inode 1 3 1 (locked_by 7) 1 T_FILE 0 0 1 5 (52 :: replicate 12 0).
Definition demo_txn : fsys :=
  mk_fsys (mk_lsys (binit demo_disk) (mk_log 2 1 0 1 (mk_lh 0 (replicate 30 0))) [])
    (demo_open :: replicate 49 inode0) demo_sb.
Definition src_abc (a m : Z) : list Z * bool := (sub (Z.to_nat a) (Z.to_nat m) (bytes "abc"), true).

Lemma demo_log_ok : log_ok 1 2 (llog (flog demo_txn)).
Proof.
  split; [done|done| |by apply Forall_nil|by apply NoDup_nil_2]. split; [done|done|]. apply Forall_replicate. lia.
Qed.

Lemma demo_txn_inv : txn_inv 1 2 (flog demo_txn).
Proof.
  destruct (binit_inv demo_disk demo_disk_blocks) as (Hb & Hu & Hf). split; cbn [flog demo_txn lbio]; try done.
  - split; [done|]. intros k _. split; [intros i b; by rewrite (Hu k)|unfold refs; by rewrite (Hu k)].
  - exact demo_log_ok.
  - by intros b ?%elem_of_nil.
  - intros k _ _. unfold refs. by rewrite (Hu k).
  - assert (Hh : hdr_listed (dread demo_disk (1, 2)) = []) by (by vm_compute).
    split; [exact demo_disk_blocks|by vm_compute| |]; change (bdisk (binit demo_disk)) with demo_disk; unfold hdr; rewrite Hh; [by apply Forall_nil|by apply NoDup_nil_2].
Qed.

Lemma demo_writing : writing 7 1 2 0 demo_open 3 demo_txn.
Proof.
  assert (Hlk : ∀ j i, itable demo_txn !! j = Some i → j = 0%nat ∧ i = demo_open ∨ i = inode0).
  { intros [|j] i; cbn [itable demo_txn lookup list_lookup]; [intros [= <-]; by left|].
    intros [-> _]%lookup_replicate. by right. }
  assert (Hoff : ∀ off, 0 ≤ off < 5 → off / BS = 0) by (intros off Ho; apply Z.div_small; unfold BS, BSIZE; lia).
  split.
  - split; try (intros j i [[-> ->] | ->]%Hlk; done || (intros _; by vm_compute)); [|by intros j [= <-]; exists demo_open].
    intros j l a b Ha Hb' Hra Hrb _. apply Hlk in Ha as [[-> ->] | ->]; [|done]. by apply Hlk in Hb' as [[-> _] | ->].
  - exact demo_txn_inv.
  - done.
  - done.
  - by intros l c [[_ ->] | ->]%Hlk.
  - assert (Hfb : ∀ off, 0 ≤ off < 5 → file_block (vw demo_txn) 1 (unload demo_open) off = 52)
      by (intros off Ho; unfold file_block; by rewrite Hoff).
    split; cbn [unload di_size di_addrs demo_open isize iaddrs].
    + split; cbn [unload di_size di_addrs demo_open isize iaddrs]; [done|split; by vm_compute| |by intros H; vm_compute in H].
      intros off Ho. by rewrite (Hfb off Ho).
    + intros off Ho. rewrite (Hfb off Ho). split; [lia|]. intros [_ H]. vm_compute in H. by destruct H.
    + intros o o' Ho Ho' _. by rewrite !Hoff.
    + intros off _ H. by vm_compute in H.
    + intros off n Ho Hn. rewrite (Hfb off Ho). change (0 ≤ n < 64) in Hn. unfold IBLOCK. change IPB with 16. cbn [inodestart sb demo_txn demo_sb].
      unfold u32. rewrite Z.mod_small; Z.div_mod_to_equations; lia.
Qed.

Lemma writei_readi_witness :
  ∃ l b, writei 7 src_abc 0 0 1 3 demo_txn = Done (3, set_flog l demo_txn) ∧
    readi 7 (λ _ _, true) 0 0 1 3 (set_flog l demo_txn) = Done ((3, bytes "abc"), set_fbio b (set_flog l demo_txn)).
Proof.
  destruct (writei_readi 7 1 2 src_abc 0 (bytes "abc") (λ _ _, true) 0 0 demo_open 3 demo_txn 1) as (l & b & E & E2 & _).
  - lia.
  - cbn. lia.
  - intros o m Ho Hm _. unfold src_abc. done.
  - done.
  - exact demo_writing.
  - lia.
  - cbn. lia.
  - by vm_compute.
  - split; [by vm_compute|]. intros [_ H]. vm_compute in H. by destruct H.
  - assert (Hd : Is_true (bool_decide (Forall is_u8 (vw demo_txn (1, IBLOCK 3 (sb demo_txn)))))) by (by vm_compute).
    by apply bool_decide_unpack in Hd.
  - exists l, b. split; [exact E|exact E2].
Defined.
