(* ===== verification/Mkfs.v ===== *)
(** * mkfs/mkfs.c: the first disk image

    The program that builds the disk the kernel boots from.  The state is the image file, a map
    from sectors to blocks, and the two counters; [panics] is a failed [assert] or [die].  The host
    is little-endian; what it has under a path is an argument: the pieces its [read] gives, one
    after the other, or [None] when [open] fails. *)

From S2P Require Import Prelude CString Effect Printf Proc Locks Bio Log Fs Dinode Path Walk Content.

Local Open Scope Z_scope.

Definition NINODES : Z := 200.
Definition FSSIZE : Z := 2000.

Definition nbitmap : Z := FSSIZE / BPB + 1.
Definition ninodeblocks : Z := NINODES / IPB + 1.
Definition nlogblocks : Z := LOGBLOCKS + 1.
Definition nmeta : Z := 2 + nlogblocks + ninodeblocks + nbitmap.

(** Conversion to RISC-V byte order: the bytes of the result, low byte first, are those of [x]. *)
Definition xshort (x : Z) : Z := le_decode (le_encode 2 x).
Definition xint (x : Z) : Z := le_decode (le_encode 4 x).

Definition mkfs_sb : superblock :=
  mk_sb FSMAGIC (xint FSSIZE) (xint (FSSIZE - nmeta)) (xint NINODES) (xint nlogblocks) (xint 2)
    (xint (2 + nlogblocks)) (xint (2 + nlogblocks + ninodeblocks)).

Record mkfs := mk_mkfs { img : gmap Z (list Z); freeinode : Z; freeblock : Z }.

Definition set_img (m : gmap Z (list Z)) (s : mkfs) : mkfs := mk_mkfs m (freeinode s) (freeblock s).

(** A read past the end of the image is short, and kills the program. *)
Definition rsect (sec : Z) : M mkfs (list Z) := m ← gets img; match m !! sec with Some b => mret b | None => panics end.
Definition wsect (sec : Z) (b : list Z) : M mkfs () := modify (λ s, set_img (<[sec := b]> (img s)) s).

Definition winode (inum : Z) (d : dinode) : M mkfs () :=
  buf ← rsect (IBLOCK inum mkfs_sb);
  wsect (IBLOCK inum mkfs_sb) (put_dinode inum d buf).

Definition rinode (inum : Z) : M mkfs dinode :=
  buf ← rsect (IBLOCK inum mkfs_sb);
  mret (dinode_of inum buf).

Definition mkfs_ialloc (type : Z) : M mkfs Z :=
  inum ← gets freeinode;
  modify (λ s, mk_mkfs (img s) (u32 (inum + 1)) (freeblock s));;
  winode inum (mk_dinode (xshort type) 0 0 (xshort 1) (xint 0) (replicate 13 0));;
  mret inum.

(** [freeblock++] *)
Definition next_block : M mkfs Z :=
  b ← gets freeblock;
  modify (λ s, mk_mkfs (img s) (freeinode s) (u32 (b + 1)));;
  mret b.

Fixpoint set_bits (n : nat) (i : Z) (buf : list Z) : list Z :=
  match n with
  | O => buf
  | S n' => set_bits n' (i + 1) (set_bit i buf)
  end.

Definition mkfs_balloc (used : Z) : M mkfs () :=
  if negb (used <? BPB) then panics
  else wsect (bmapstart mkfs_sb) (set_bits (Z.to_nat used) 0 zero_block).

Definition daddr (k : Z) (d : dinode) : Z := nth (Z.to_nat k) (di_addrs d) 0.
Definition set_daddr (k a : Z) (d : dinode) : dinode :=
  mk_dinode (di_type d) (di_major d) (di_minor d) (di_nlink d) (di_size d) (<[Z.to_nat k := a]> (di_addrs d)).
Definition set_dsize (n : Z) (d : dinode) : dinode :=
  mk_dinode (di_type d) (di_major d) (di_minor d) (di_nlink d) n (di_addrs d).

(** [if(xint(din.addrs[k]) == 0) din.addrs[k] = xint(freeblock++);] *)
Definition need_addr (k : Z) (d : dinode) : M mkfs dinode :=
  if xint (daddr k d) =? 0 then b ← next_block; mret (set_daddr k (xint b) d) else mret d.

(** The block for [fbn], and the inode. *)
Definition file_sector (fbn : Z) (d : dinode) : M mkfs (dinode * Z) :=
  if fbn <? NDIRECT then
    d ← need_addr fbn d;
    mret (d, xint (daddr fbn d))
  else
    d ← need_addr NDIRECT d;
    indirect ← rsect (xint (daddr NDIRECT d));
    let k := (4 * Z.to_nat (fbn - NDIRECT))%nat in
    indirect ← (if get_u32 k indirect =? 0 then
                  b ← next_block;
                  wsect (xint (daddr NDIRECT d)) (put32 k (xint b) indirect);;
                  mret (put32 k (xint b) indirect)
                else mret indirect);
    mret (d, xint (get_u32 k indirect)).

(** [while(n > 0)] *)
Fixpoint iappend_loop (fuel : nat) (d : dinode) (off n : Z) (p : list Z) : M mkfs (dinode * Z) :=
  match fuel with
  | O => mret (d, off)
  | S fuel' =>
      if 0 <? n then
        let fbn := off / Z.of_nat BSIZE in
        if negb (fbn <? MAXFILE) then panics
        else
          '(d, x) ← file_sector fbn d;
          let n1 := Z.min n ((fbn + 1) * Z.of_nat BSIZE - off) in
          buf ← rsect x;
          wsect x (blit buf (Z.to_nat (off - fbn * Z.of_nat BSIZE)) (take (Z.to_nat n1) p));;
          iappend_loop fuel' d (u32 (off + n1)) (n - n1) (drop (Z.to_nat n1) p)
      else mret (d, off)
  end.

Definition iappend (inum : Z) (p : list Z) (n : Z) : M mkfs () :=
  d ← rinode inum;
  '(d, off) ← iappend_loop (Z.to_nat n) d (xint (di_size d)) n p;
  winode inum (set_dsize (xint off) d).

(** [while((cc = read(fd, buf, sizeof(buf))) > 0) iappend(inum, buf, cc);] *)
Fixpoint append_pieces (inum : Z) (pieces : list (list Z)) : M mkfs () :=
  match pieces with
  | [] => mret ()
  | p :: pieces' => iappend inum p (Z.of_nat (length p));; append_pieces inum pieces'
  end.

Definition shortname (path : list Z) : list Z := if strncmp path (bytes "user/") 5 =? 0 then drop 5 path else path.
Definition skip_underscore (name : list Z) : list Z := if hd 0 name =? 95 then tl name else name.

Section main.
Context (host_open : list Z → option (list (list Z))).

Definition add_file (path : list Z) : M mkfs () :=
  let short := shortname path in
  if existsb (λ c, c =? 47) (cstring short) then panics
  else
    match host_open path with
    | None => panics
    | Some pieces =>
        let short := skip_underscore short in
        if (DIRSIZ <? strlen short)%nat then panics
        else
          inum ← mkfs_ialloc T_FILE;
          iappend ROOTINO (dirent (xshort inum) short) sizeof_dirent;;
          append_pieces inum pieces
    end.

Fixpoint add_files (paths : list (list Z)) : M mkfs () :=
  match paths with
  | [] => mret ()
  | p :: paths' => add_file p;; add_files paths'
  end.

Definition sb_words (b : superblock) : list Z :=
  [magic b; size b; nblocks b; ninodes b; nlog b; logstart b; inodestart b; bmapstart b].

(** From the opened image on; [paths] is [argv + 2]. *)
Definition mkfs_main (paths : list (list Z)) : M mkfs () :=
  modify (λ s, mk_mkfs (img s) (freeinode s) nmeta);;
  for_ (Z.to_nat FSSIZE) 0 (λ i, wsect i zero_block);;
  wsect 1 (put_u32s 0 (sb_words mkfs_sb) zero_block);;
  rootino ← mkfs_ialloc T_DIR;
  if negb (rootino =? ROOTINO) then panics
  else
    iappend rootino (dirent (xshort rootino) (bytes ".")) sizeof_dirent;;
    iappend rootino (dirent (xshort rootino) (bytes "..")) sizeof_dirent;;
    add_files paths;;
    d ← rinode rootino;
    let off := xint (di_size d) in
    let off := u32 ((off / Z.of_nat BSIZE + 1) * Z.of_nat BSIZE) in
    winode rootino (set_dsize (xint off) d);;
    fb ← gets freeblock;
    mkfs_balloc fb.
End main.

(** An empty file, [freeinode = 1], [freeblock = 0]. *)
Definition mkfs0 : mkfs := mk_mkfs ∅ 1 0.

(** What the kernel reads from the disk. *)
Definition image (s : mkfs) : Z * Z → list Z := λ k, default zero_block (img s !! k.2).

(** ** Helpers *)

Lemma xint_id x : is_u32 x → xint x = x.
Proof. intros Hx. by apply le_decode_encode. Qed.

Lemma xshort_id x : is_u16 x → xshort x = x.
Proof. intros Hx. by apply le_decode_encode. Qed.

Definition words (l : list Z) : list Z := concat (map (le_encode 4) l).

Lemma get_words l k x : l !! k = Some x → is_u32 x → get_u32 (4 * k) (words l) = x.
Proof. intros Hk Hx. unfold get_u32, words. by rewrite (sub_word _ _ _ Hk), le_decode_encode. Qed.

Lemma words_app a b : words (a ++ b) = words a ++ words b.
Proof. unfold words. by rewrite map_app, concat_app. Qed.

Lemma blit_app {A} (a b p : list A) o n : length a = n → blit (a ++ b) (n + o) p = a ++ blit b o p.
Proof.
  intros <-. unfold blit. rewrite take_app_add, <- app_assoc, <- Nat.add_assoc. by rewrite drop_app_add.
Qed.

Lemma put_words l k x : (k < length l)%nat → put32 (4 * k) x (words l) = words (<[k := x]> l).
Proof.
  intros Hk. destruct (lookup_lt_is_Some_2 l k Hk) as [y Hy]. rewrite insert_take_drop by done.
  rewrite <- (take_drop_middle _ _ _ Hy) at 1. change (x :: drop (S k) l) with ([x] ++ drop (S k) l).
  change (y :: drop (S k) l) with ([y] ++ drop (S k) l). rewrite !words_app. unfold put32.
  rewrite <- (Nat.add_0_r (4 * k)). rewrite blit_app; [|unfold words; rewrite length_words, length_take; lia].
  done.
Qed.

(** A list with zeros up to length [n]. *)
Definition zpad (n : nat) (l : list Z) : list Z := l ++ replicate (n - length l) 0.

Lemma length_zpad n l : (length l ≤ n)%nat → length (zpad n l) = n.
Proof. intros H. unfold zpad. rewrite length_app, length_replicate. lia. Qed.

Lemma zpad_lookup n l k : (length l ≤ n)%nat → (k < n)%nat → zpad n l !! k = Some (nth k l 0).
Proof.
  intros Hl Hk. unfold zpad. destruct (decide (k < length l)%nat) as [H|H].
  - rewrite lookup_app_l by done. destruct (l !! k) as [x|] eqn:Hx; [by rewrite (nth_lookup_Some _ _ 0 _ Hx)|].
    apply lookup_ge_None_1 in Hx. lia.
  - rewrite lookup_app_r, lookup_replicate_2 by lia. by rewrite nth_overflow by lia.
Qed.

Lemma zpad_snoc n l x : (length l < n)%nat → <[length l := x]> (zpad n l) = zpad n (l ++ [x]).
Proof.
  intros H. unfold zpad. rewrite insert_app_r_alt, Nat.sub_diag by lia. rewrite length_app. cbn [length].
  replace (n - length l)%nat with (S (n - (length l + 1))) by lia. cbn [replicate]. by rewrite <- app_assoc.
Qed.

Lemma blit_end {A} (g p : list A) z n :
  (length p ≤ n)%nat → blit (g ++ replicate n z) (length g) p = (g ++ p) ++ replicate (n - length p) z.
Proof.
  intros H. rewrite <- (Nat.add_0_r (length g)), blit_app by done. unfold blit. cbn [take]. rewrite app_nil_l, Nat.add_0_l.
  by rewrite drop_replicate, <- app_assoc.
Qed.




(** ** The image while it grows *)

Definition V (s : mkfs) (n : Z) : list Z := default zero_block (img s !! n).

(** Every sector is there, those not handed out are zero. *)
Record image_ok (s : mkfs) : Prop := {
  io_dom : ∀ n, 0 ≤ n < FSSIZE → is_Some (img s !! n);
  io_len : ∀ n, length (V s n) = BSIZE;
  io_fresh : ∀ n, freeblock s ≤ n → V s n = zero_block;
  io_free : nmeta ≤ freeblock s ≤ FSSIZE;
}.

Lemma rsect_run s n : image_ok s → 0 ≤ n < FSSIZE → rsect n s = Done (V s n, s).
Proof.
  intros H Hn. destruct (io_dom _ H n Hn) as [b Hb]. unfold rsect. erewrite run_bind by reflexivity. unfold V. by rewrite Hb.
Qed.

(** A sector below the free ones is written. *)
Definition put (n : Z) (b : list Z) (s : mkfs) : mkfs := set_img (<[n := b]> (img s)) s.

Lemma V_put s n b m : V (put n b s) m = if decide (m = n) then b else V s m.
Proof. unfold V, put. cbn [img set_img]. rewrite lookup_insert. by destruct (decide (n = m)), (decide (m = n)); subst. Qed.

Lemma image_ok_put s n b : image_ok s → 0 ≤ n < freeblock s → length b = BSIZE → image_ok (put n b s).
Proof.
  intros [H1 H2 H3 H4] Hn Hb. split; try done.
  - intros m Hm. cbn [img put set_img]. rewrite lookup_insert. destruct (decide _); [done|by apply H1].
  - intros m. rewrite V_put. by destruct (decide _).
  - intros m Hm. cbn [freeblock put set_img] in Hm. rewrite V_put, decide_False by lia. by apply H3.
Qed.

Definition take_block (s : mkfs) : mkfs := mk_mkfs (img s) (freeinode s) (freeblock s + 1).

Lemma next_block_run s : image_ok s → freeblock s < FSSIZE → next_block s = Done (freeblock s, take_block s) ∧ image_ok (take_block s).
Proof.
  intros [H1 H2 H3 H4] Hf. change FSSIZE with 2000 in *. change nmeta with 47 in *. split.
  - unfold next_block. do 2 (erewrite run_bind by reflexivity). unfold take_block. by rewrite u32_id by (unfold is_u32; lia).
  - split; try done; cbn [take_block freeblock]; [|change nmeta with 47; change FSSIZE with 2000; lia]. intros n Hn. apply H3. lia.
Qed.

(** ** A file in the image *)

(** Its bytes, its blocks in order, and its indirect block if it has one. *)
Record gfile := mk_g { gdata : list Z; gblocks : list Z; gind : list Z }.

Definition own (g : gfile) : list Z := gblocks g ++ gind g.
Definition gaddrs (g : gfile) : list Z := zpad 12 (take 12 (gblocks g)) ++ [hd 0 (gind g)].

Record laid (s : mkfs) (g : gfile) : Prop := {
  la_ind : gind g = [] ∧ (length (gblocks g) ≤ 12)%nat ∨
    ∃ a, gind g = [a] ∧ (12 ≤ length (gblocks g) ≤ 268)%nat ∧ V s a = words (zpad 256 (drop 12 (gblocks g)));
  la_data : concat (map (V s) (gblocks g)) = gdata g ++ replicate (BSIZE * length (gblocks g) - length (gdata g)) 0;
  la_fit : (length (gdata g) ≤ BSIZE * length (gblocks g))%nat;
  la_own : NoDup (own g);
  la_range : Forall (λ b, nmeta ≤ b < freeblock s) (own g);
}.

(** No block more than the bytes need. *)
Record tight (g : gfile) : Prop := {
  ti_count : (BSIZE * length (gblocks g) < length (gdata g) + BSIZE)%nat;
  ti_ind : gind g = [] ↔ (length (gblocks g) ≤ 12)%nat;
}.

Lemma own_range s g b : laid s g → b ∈ own g → nmeta ≤ b < freeblock s.
Proof. intros H Hb. pose proof (la_range _ _ H) as Hr. rewrite Forall_forall in Hr. by apply Hr. Qed.

Lemma length_gaddrs g : length (gaddrs g) = 13%nat.
Proof. unfold gaddrs. rewrite length_app, length_zpad; [done|rewrite length_take; lia]. Qed.

(** Blocks are only added. *)
Record enlarged (s : mkfs) (g : gfile) (s' : mkfs) (g' : gfile) : Prop := {
  gr_inode : freeinode s' = freeinode s;
  gr_sub : ∀ b, b ∈ own g → b ∈ own g';
  gr_new : ∀ b, b ∈ own g' → b ∈ own g ∨ freeblock s ≤ b < freeblock s';
  gr_frame : ∀ n, n ∉ own g' → V s' n = V s n;
  gr_free : freeblock s' + Z.of_nat (length (own g)) = freeblock s + Z.of_nat (length (own g'));
  gr_le : freeblock s ≤ freeblock s';
}.

Lemma enlarged_refl s g : enlarged s g s g.
Proof. split; auto; lia. Qed.

Lemma enlarged_trans s1 g1 s2 g2 s3 g3 : enlarged s1 g1 s2 g2 → enlarged s2 g2 s3 g3 → enlarged s1 g1 s3 g3.
Proof.
  intros [A1 A2 A3 A4 A5 A6] [B1 B2 B3 B4 B5 B6]. split; try lia; auto.
  - intros b Hb. destruct (B3 b Hb) as [Hb'|?]; [destruct (A3 b Hb'); [by left|]|]; right; lia.
  - intros n Hn. rewrite B4 by done. apply A4. auto.
Qed.

Definition push (b : Z) (g : gfile) : gfile := mk_g (gdata g) (gblocks g ++ [b]) (gind g).
Definition set_gind (a : Z) (g : gfile) : gfile := mk_g (gdata g) (gblocks g) [a].

Lemma own_push b g : own (push b g) ≡ₚ b :: own g.
Proof. unfold own, push. cbn [gblocks gind]. rewrite <- app_assoc. symmetry. apply Permutation_middle. Qed.

Lemma own_set_gind a g : gind g = [] → own (set_gind a g) ≡ₚ a :: own g.
Proof. unfold own, set_gind. cbn [gblocks gind]. intros ->. by rewrite app_nil_r, Permutation_app_comm. Qed.

Lemma fresh_own s g g' :
  image_ok s → laid s g → own g' ≡ₚ freeblock s :: own g →
  NoDup (own g') ∧ Forall (λ b, nmeta ≤ b < freeblock (take_block s)) (own g').
Proof.
  intros Hi Hl Hp. pose proof (io_free _ Hi). rewrite Hp. cbn [freeblock take_block]. split.
  - apply NoDup_cons. split; [|apply Hl]. intros Hin%(own_range s); [lia|done].
  - apply Forall_cons. split; [lia|]. eapply Forall_impl; [apply Hl|]. cbn. lia.
Qed.

Lemma fresh_enlarged s g g' : own g' ≡ₚ freeblock s :: own g → enlarged s g (take_block s) g'.
Proof.
  intros Hp. split; cbn [take_block freeinode freeblock]; try done; [| |rewrite (Permutation_length Hp); cbn [length]; lia|lia].
  - intros b Hb. rewrite Hp. by right.
  - intros b Hb. rewrite Hp in Hb. apply elem_of_cons in Hb as [->|Hb]; [right; lia|by left].
Qed.

Lemma zeros_block : zero_block = replicate BSIZE 0.
Proof. done. Qed.

Lemma laid_data_push s g b :
  concat (map (V s) (gblocks g)) = gdata g ++ replicate (BSIZE * length (gblocks g) - length (gdata g)) 0 →
  (length (gdata g) ≤ BSIZE * length (gblocks g))%nat → V s b = zero_block →
  concat (map (V s) (gblocks g ++ [b])) = gdata g ++ replicate (BSIZE * length (gblocks g ++ [b]) - length (gdata g)) 0.
Proof.
  intros Hd Hf Hb. rewrite map_app, concat_app, Hd. cbn [map concat]. rewrite Hb, app_nil_r, <- app_assoc, zeros_block, <- replicate_add.
  do 2 f_equal. rewrite length_app. cbn [length]. lia.
Qed.

Lemma laid_push_direct s g :
  image_ok s → laid s g → gind g = [] → (length (gblocks g) < 12)%nat → laid (take_block s) (push (freeblock s) g).
Proof.
  intros Hi Hl Hg Hn. destruct (fresh_own s g _ Hi Hl (own_push _ g)) as [Ho Hr]. destruct Hl as [_ L2 L3 L4 L5].
  split; try done; cbn [push gind gblocks gdata].
  - left. rewrite length_app. cbn [length]. split; [done|lia].
  - apply (laid_data_push s); [done|done|]. by apply (io_fresh _ Hi).
  - rewrite length_app. cbn [length]. lia.
Qed.

Lemma laid_ind s g :
  image_ok s → laid s g → gind g = [] → length (gblocks g) = 12%nat → laid (take_block s) (set_gind (freeblock s) g).
Proof.
  intros Hi Hl Hg Hn. destruct (fresh_own s g _ Hi Hl (own_set_gind _ g Hg)) as [Ho Hr]. destruct Hl as [_ L2 L3 L4 L5].
  split; try done; cbn [set_gind gind gblocks gdata]. right. exists (freeblock s). split_and!; [done|lia|lia|].
  rewrite drop_ge by lia. change (V (take_block s) (freeblock s)) with (V s (freeblock s)). by rewrite (io_fresh _ Hi).
Qed.

Lemma map_V_put s a b l : a ∉ l → map (V (put a b s)) l = map (V s) l.
Proof. intros Ha. apply map_ext_in. intros x Hx%list_elem_of_In. rewrite V_put, decide_False; [done|]. by intros ->. Qed.

Lemma laid_push_ind s g a :
  image_ok s → laid s g → gind g = [a] → (12 ≤ length (gblocks g) < 268)%nat →
  laid (put a (words (zpad 256 (drop 12 (gblocks g ++ [freeblock s])))) (take_block s)) (push (freeblock s) g).
Proof.
  intros Hi Hl Hg Hn. destruct (fresh_own s g _ Hi Hl (own_push _ g)) as [Ho Hr]. destruct Hl as [_ L2 L3 L4 L5].
  split; try done; cbn [push gind gblocks gdata].
  - right. exists a. rewrite V_put, decide_True by done. rewrite length_app. cbn [length]. split_and!; [done|lia|lia|done].
  - rewrite map_V_put.
    + apply (laid_data_push s); [done|done|]. by apply (io_fresh _ Hi).
    + unfold own, push in Ho. cbn [gblocks gind] in Ho. rewrite Hg in Ho. apply NoDup_app in Ho as (_ & Hd & _).
      intros Hin. apply (Hd a Hin). by left.
  - rewrite length_app. cbn [length]. lia.
Qed.

Lemma nth_zeros n : ∀ k, nth k (replicate n 0) 0 = 0.
Proof. induction n as [|n IH]; intros [|k]; cbn [replicate nth]; try done. Qed.

Lemma nth_gaddrs g k : (k < 12)%nat → nth k (gaddrs g) 0 = nth k (gblocks g) 0.
Proof.
  intros Hk. unfold gaddrs. assert (Ht : (length (take 12 (gblocks g)) ≤ 12)%nat) by (rewrite length_take; lia).
  rewrite app_nth1 by by rewrite length_zpad. unfold zpad. destruct (decide (k < length (gblocks g))%nat).
  - rewrite app_nth1 by (rewrite length_take; lia). rewrite <- (take_drop 12 (gblocks g)) at 2. by rewrite app_nth1 by (rewrite length_take; lia).
  - rewrite app_nth2 by (rewrite length_take; lia). by rewrite nth_zeros, nth_overflow by lia.
Qed.

Lemma nth_gaddrs_ind g : nth 12 (gaddrs g) 0 = hd 0 (gind g).
Proof.
  unfold gaddrs. assert (Hl : length (zpad 12 (take 12 (gblocks g))) = 12%nat) by (apply length_zpad; rewrite length_take; lia).
  rewrite app_nth2 by lia. by rewrite Hl.
Qed.

Lemma gaddrs_push b g : (length (gblocks g) < 12)%nat → <[length (gblocks g) := b]> (gaddrs g) = gaddrs (push b g).
Proof.
  intros H. unfold gaddrs, push. cbn [gblocks gind]. rewrite !take_ge by (rewrite ?length_app; cbn; lia).
  rewrite insert_app_l by (rewrite length_zpad; lia). by rewrite zpad_snoc.
Qed.

Lemma gaddrs_push_ind b g : (12 ≤ length (gblocks g))%nat → gaddrs (push b g) = gaddrs g.
Proof. intros H. unfold gaddrs, push. cbn [gblocks gind]. by rewrite take_app_le. Qed.

Lemma gaddrs_set_gind a g : <[12%nat := a]> (gaddrs g) = gaddrs (set_gind a g).
Proof.
  unfold gaddrs, set_gind. cbn [gblocks gind].
  assert (Hl : length (zpad 12 (take 12 (gblocks g))) = 12%nat) by (apply length_zpad; rewrite length_take; lia).
  rewrite insert_app_r_alt by lia. by rewrite Hl.
Qed.

Definition set_daddrs (l : list Z) (d : dinode) : dinode :=
  mk_dinode (di_type d) (di_major d) (di_minor d) (di_nlink d) (di_size d) l.

Lemma block_word s g b : image_ok s → laid s g → b ∈ own g → is_u32 b ∧ b ≠ 0 ∧ 0 ≤ b < FSSIZE ∧ b < freeblock s.
Proof.
  intros Hi Hl Hb%(own_range s); [|done]. pose proof (io_free _ Hi). change nmeta with 47 in *. change FSSIZE with 2000 in *.
  unfold is_u32. lia.
Qed.

(** An address that is there already. *)
Lemma need_addr_old s d k : is_u32 (daddr k d) → daddr k d ≠ 0 → need_addr k d s = Done (d, s).
Proof. intros Hu Hn. unfold need_addr. rewrite xint_id by done. by rewrite (proj2 (Z.eqb_neq _ _)). Qed.

Lemma need_addr_new s d k :
  image_ok s → freeblock s < FSSIZE → daddr k d = 0 →
  need_addr k d s = Done (set_daddr k (freeblock s) d, take_block s) ∧ image_ok (take_block s).
Proof.
  intros Hi Hf Hd. destruct (next_block_run s Hi Hf) as [E Hi']. split; [|done]. unfold need_addr. rewrite Hd.
  change (xint 0 =? 0) with true. cbv iota. rewrite (run_bind _ _ _ _ _ E). rewrite xint_id; [done|].
  pose proof (io_free _ Hi). change nmeta with 47 in *. change FSSIZE with 2000 in *. unfold is_u32. lia.
Qed.

Definition sectors (n : Z) : Z := let b := (n + BS - 1) / BS in b + (if 12 <? b then 1 else 0).

Lemma nth_own g k : (k < length (gblocks g))%nat → nth k (gblocks g) 0 ∈ own g.
Proof.
  intros Hk. apply elem_of_app. left. destruct (lookup_lt_is_Some_2 _ _ Hk) as [x Hx]. rewrite (nth_lookup_Some _ _ 0 _ Hx).
  by eapply list_elem_of_lookup_2.
Qed.

Lemma lookup_nth (l : list Z) k : (k < length l)%nat → l !! k = Some (nth k l 0).
Proof. intros Hk. destruct (lookup_lt_is_Some_2 _ _ Hk) as [x Hx]. by rewrite (nth_lookup_Some _ _ 0 _ Hx). Qed.

(** The block that holds the last bytes of a file, or comes next. *)
Definition sector_got (s : mkfs) (d : dinode) (g : gfile) (fbn : nat) (m : M mkfs (dinode * Z)) : Prop :=
  ∃ s' g' x, m s = Done ((set_daddrs (gaddrs g') d, x), s') ∧ image_ok s' ∧ laid s' g' ∧ enlarged s g s' g' ∧
    gdata g' = gdata g ∧ gblocks g' !! fbn = Some x ∧ length (gblocks g') = S fbn ∧
    (gind g' = [] ↔ (length (gblocks g') ≤ 12)%nat).

Lemma sector_direct s d g fbn :
  image_ok s → laid s g → di_addrs d = gaddrs g → (fbn < 12)%nat → gind g = [] →
  length (gblocks g) = S fbn ∨ length (gblocks g) = fbn ∧ freeblock s < FSSIZE →
  sector_got s d g fbn (file_sector (Z.of_nat fbn) d).
Proof.
  intros Hi Hl Hd Hf Hg Hn. unfold sector_got, file_sector. rewrite (proj2 (Z.ltb_lt _ NDIRECT)) by (change NDIRECT with 12; lia).
  assert (Ha : daddr (Z.of_nat fbn) d = nth fbn (gblocks g) 0) by (unfold daddr; by rewrite Hd, Nat2Z.id, nth_gaddrs).
  destruct Hn as [Hn|[Hn Hfree]].
  - destruct (block_word s g (nth fbn (gblocks g) 0) Hi Hl) as (B1 & B2 & B3 & B4); [apply nth_own; lia|].
    exists s, g, (nth fbn (gblocks g) 0). rewrite (run_bind _ _ _ _ _ (need_addr_old s d (Z.of_nat fbn) ltac:(by rewrite Ha) ltac:(by rewrite Ha))).
    rewrite Ha, xint_id by done. split_and!; try done; [by destruct d; cbn in *; subst|apply enlarged_refl|apply lookup_nth; lia|by split; [lia|]].
  - assert (Hz : daddr (Z.of_nat fbn) d = 0) by (by rewrite Ha, nth_overflow by lia).
    destruct (need_addr_new s d (Z.of_nat fbn) Hi Hfree Hz) as [E Hi'].
    exists (take_block s), (push (freeblock s) g), (freeblock s). rewrite (run_bind _ _ _ _ _ E).
    assert (Hs : set_daddr (Z.of_nat fbn) (freeblock s) d = set_daddrs (gaddrs (push (freeblock s) g)) d).
    { unfold set_daddr. rewrite Hd, Nat2Z.id, <- Hn, gaddrs_push by lia. done. }
    rewrite Hs. assert (Hdn : daddr (Z.of_nat fbn) (set_daddrs (gaddrs (push (freeblock s) g)) d) = freeblock s).
    { unfold daddr. cbn [di_addrs set_daddrs]. rewrite Nat2Z.id, nth_gaddrs by done. cbn [gblocks push]. rewrite app_nth2, Hn, Nat.sub_diag by lia. done. }
    pose proof (io_free _ Hi). rewrite Hdn, xint_id by (unfold is_u32; change nmeta with 47 in *; change FSSIZE with 2000 in *; lia).
    split_and!; try done; [apply laid_push_direct; (done || lia)|apply fresh_enlarged, own_push| |cbn; rewrite length_app; cbn; lia|].
    + cbn [gblocks push]. rewrite lookup_app_r, Hn, Nat.sub_diag by lia. done.
    + cbn [gind gblocks push]. rewrite length_app. cbn [length]. split; [lia|done].
Qed.

Lemma drop12_nth (l : list Z) k : nth k (drop 12 l) 0 = nth (12 + k) l 0.
Proof. apply nth_skipn. Qed.

Lemma laid_a s g a : laid s g → gind g = [a] → (length (gblocks g) ≤ 268)%nat ∧ V s a = words (zpad 256 (drop 12 (gblocks g))) ∧ a ∈ own g.
Proof.
  intros [[[Hn _]|(a' & Hn & Hb & Hv)] _ _ _ _] Ha; [congruence|]. rewrite Ha in Hn. injection Hn as <-.
  split_and!; [lia|done|]. apply elem_of_app. right. rewrite Ha. by left.
Qed.

Lemma sector_indirect s d g a fbn :
  image_ok s → laid s g → di_addrs d = gaddrs g → (12 ≤ fbn < 268)%nat → gind g = [a] →
  length (gblocks g) = S fbn ∨ length (gblocks g) = fbn ∧ freeblock s < FSSIZE →
  sector_got s d g fbn (file_sector (Z.of_nat fbn) d).
Proof.
  intros Hi Hl Hd Hf Hg Hn. unfold sector_got, file_sector. rewrite (proj2 (Z.ltb_ge _ NDIRECT)) by (change NDIRECT with 12; lia).
  assert (Hk : (4 * Z.to_nat (Z.of_nat fbn - NDIRECT) = 4 * (fbn - 12))%nat) by (change NDIRECT with 12; lia). rewrite Hk. clear Hk.
  assert (Ha : daddr NDIRECT d = a) by (unfold daddr; rewrite Hd; change (Z.to_nat NDIRECT) with 12%nat; by rewrite nth_gaddrs_ind, Hg).
  destruct (laid_a s g a Hl Hg) as (Hmax & Hva & Hin). destruct (block_word s g a Hi Hl Hin) as (B1 & B2 & B3 & B4).
  rewrite (run_bind _ _ _ _ _ (need_addr_old s d NDIRECT ltac:(by rewrite Ha) ltac:(by rewrite Ha))). rewrite Ha, xint_id by done.
  rewrite (run_bind _ _ _ _ _ (rsect_run s a Hi B3)), Hva. set (l := zpad 256 (drop 12 (gblocks g))).
  assert (Hdl : (length (drop 12 (gblocks g)) ≤ 256)%nat) by (rewrite length_drop; lia).
  assert (Hlk : l !! (fbn - 12)%nat = Some (nth fbn (gblocks g) 0)).
  { unfold l. rewrite zpad_lookup by lia. rewrite drop12_nth. do 2 f_equal. lia. }
  destruct Hn as [Hn|[Hn Hfree]].
  - destruct (block_word s g (nth fbn (gblocks g) 0) Hi Hl) as (C1 & C2 & C3 & C4); [apply nth_own; lia|].
    rewrite (get_words l _ _ Hlk C1), (proj2 (Z.eqb_neq _ _)) by done. erewrite run_bind by reflexivity.
    rewrite (get_words l _ _ Hlk C1), xint_id by done. exists s, g, (nth fbn (gblocks g) 0).
    split_and!; try done; [by destruct d; cbn in *; subst|apply enlarged_refl|apply lookup_nth; lia|split; [by rewrite Hg|lia]].
  - rewrite nth_overflow in Hlk by lia. rewrite (get_words l _ _ Hlk) by (unfold is_u32; lia). change (0 =? 0) with true. cbv iota.
    destruct (next_block_run s Hi Hfree) as [E Hi']. rewrite bind_assoc_M, (run_bind _ _ _ _ _ E).
    pose proof (io_free _ Hi) as Hfb. assert (Hu : is_u32 (freeblock s)) by (unfold is_u32; change nmeta with 47 in *; change FSSIZE with 2000 in *; lia).
    rewrite xint_id by done. assert (Hll : (fbn - 12 < length l)%nat) by (unfold l; rewrite length_zpad by done; lia).
    rewrite put_words by done. assert (Hl' : <[(fbn - 12)%nat := freeblock s]> l = zpad 256 (drop 12 (gblocks g ++ [freeblock s]))).
    { unfold l. replace (fbn - 12)%nat with (length (drop 12 (gblocks g))) by (rewrite length_drop; lia).
      rewrite zpad_snoc by (rewrite length_drop; lia). by rewrite drop_app_le by lia. }
    rewrite Hl'. erewrite run_bind by reflexivity.
    pose proof (laid_push_ind s g a Hi Hl Hg ltac:(lia)) as Hl2.
    set (s2 := put a _ (take_block s)) in *. change (set_img _ (take_block s)) with s2.
    assert (Hi2 : image_ok s2).
    { apply image_ok_put; [done|cbn; lia|]. unfold words. rewrite length_words, length_zpad; [done|]. rewrite length_drop, length_app. cbn [length]. lia. }
    rewrite (get_words _ (fbn - 12) (freeblock s)); [|by rewrite <- Hl', list_lookup_insert_eq|done].
    rewrite xint_id by done. exists s2, (push (freeblock s) g), (freeblock s).
    split_and!; try done.
    + rewrite gaddrs_push_ind, <- Hd by lia. by destruct d.
    + destruct (fresh_enlarged s g _ (own_push (freeblock s) g)) as [G1 G2 G3 G4 G5 G6]. split; try done.
      intros n Hn'. unfold s2. rewrite V_put, decide_False; [by apply G4|]. intros ->. by apply Hn', G2.
    + cbn [gblocks push]. rewrite lookup_app_r, Hn, Nat.sub_diag by lia. done.
    + cbn [gblocks push]. rewrite length_app. cbn [length]. lia.
    + cbn [gind gblocks push]. rewrite length_app, Hg. cbn [length]. split; [done|lia].
Qed.

Lemma sector_first s d g :
  image_ok s → laid s g → di_addrs d = gaddrs g → gind g = [] → length (gblocks g) = 12%nat → freeblock s + 1 < FSSIZE →
  sector_got s d g 12 (file_sector 12 d).
Proof.
  intros Hi Hl Hd Hg Hn Hfree.
  assert (Hz : daddr NDIRECT d = 0) by (unfold daddr; rewrite Hd; change (Z.to_nat NDIRECT) with 12%nat; by rewrite nth_gaddrs_ind, Hg).
  destruct (need_addr_new s d NDIRECT Hi ltac:(lia) Hz) as [E Hi1].
  set (a := freeblock s) in *. set (g1 := set_gind a g). set (s1 := take_block s) in *.
  pose proof (laid_ind s g Hi Hl Hg Hn) as Hl1. change (laid s1 g1) in Hl1.
  set (d1 := set_daddr NDIRECT a d) in *.
  assert (Hd1 : di_addrs d1 = gaddrs g1).
  { unfold d1, set_daddr. cbn [di_addrs]. rewrite Hd. apply gaddrs_set_gind. }
  destruct (block_word s1 g1 a Hi1 Hl1) as (B1 & B2 & _); [by apply elem_of_app; right; left|].
  assert (Ha : daddr NDIRECT d1 = a) by (unfold daddr; rewrite Hd1; apply nth_gaddrs_ind).
  assert (Heq : file_sector 12 d s = file_sector 12 d1 s1).
  { unfold file_sector. change (12 <? NDIRECT) with false. cbv iota. rewrite (run_bind _ _ _ _ _ E).
    by rewrite (run_bind _ _ _ _ _ (need_addr_old s1 d1 NDIRECT ltac:(by rewrite Ha) ltac:(by rewrite Ha))). }
  destruct (sector_indirect s1 d1 g1 a 12 Hi1 Hl1 Hd1 ltac:(lia) eq_refl) as (s' & g' & x & E' & I & L & G & D & B & N & F).
  { right. split; [done|]. cbn. lia. }
  exists s', g', x. split_and!; try done; [by rewrite Heq|].
  apply (enlarged_trans s g s1 g1); [|done]. by apply fresh_enlarged, own_set_gind.
Qed.

Lemma sectors_mono a b : a ≤ b → sectors a ≤ sectors b.
Proof.
  intros H. unfold sectors. assert (He : (a + BS - 1) / BS ≤ (b + BS - 1) / BS) by (apply Z.div_le_mono; [done|lia]).
  destruct (Z.ltb_spec 12 ((a + BS - 1) / BS)), (Z.ltb_spec 12 ((b + BS - 1) / BS)); lia.
Qed.

Lemma own_sectors s g : laid s g → tight g → Z.of_nat (length (own g)) = sectors (Z.of_nat (length (gdata g))).
Proof.
  intros Hl [T1 T2]. pose proof (la_fit _ _ Hl) as Hf. unfold own. rewrite length_app. unfold sectors.
  replace ((Z.of_nat (length (gdata g)) + BS - 1) / BS) with (Z.of_nat (length (gblocks g)))
    by (unfold BSIZE in *; change BS with 1024; Z.div_mod_to_equations; lia).
  destruct (la_ind _ _ Hl) as [[Hg Hn]|(a & Hg & Hn & _)].
  - rewrite Hg. cbn [length]. rewrite (proj2 (Z.ltb_ge _ _)) by lia. lia.
  - rewrite Hg in *. cbn [length]. destruct (Z.ltb_spec 12 (Z.of_nat (length (gblocks g)))); [lia|].
    assert ([a] = []) by (apply T2; lia). done.
Qed.

(** The file's next position, as the code computes it. *)
Definition last_block (g : gfile) : nat := length (gdata g) / BSIZE.

Lemma last_block_spec g : (BSIZE * last_block g ≤ length (gdata g) < BSIZE * last_block g + BSIZE)%nat.
Proof.
  unfold last_block. pose proof (Nat.div_mod (length (gdata g)) BSIZE ltac:(done)).
  pose proof (Nat.mod_upper_bound (length (gdata g)) BSIZE ltac:(done)). lia.
Qed.

Lemma sector_run s d g :
  image_ok s → laid s g → tight g → di_addrs d = gaddrs g → Z.of_nat (length (gdata g)) < MAXFILE * BS →
  freeblock s + sectors (Z.of_nat (length (gdata g)) + 1) - sectors (Z.of_nat (length (gdata g))) ≤ FSSIZE →
  sector_got s d g (last_block g) (file_sector (Z.of_nat (last_block g)) d).
Proof.
  intros Hi Hl [T1 T2] Hd Hmax Hroom. pose proof (la_fit _ _ Hl) as Hf. pose proof (last_block_spec g) as Hb.
  set (fbn := last_block g) in *. set (n := length (gdata g)) in *. change (MAXFILE * BS) with 274432 in Hmax.
  unfold BSIZE in *. assert (Hnb : length (gblocks g) = fbn ∨ length (gblocks g) = S fbn) by lia.
  assert (Hsec : length (gblocks g) = fbn → freeblock s + (if (fbn =? 12)%nat then 2 else 1) ≤ FSSIZE).
  { intros Hn. assert (Hnn : Z.of_nat n = 1024 * Z.of_nat fbn) by lia. unfold sectors in Hroom. change BS with 1024 in Hroom.
    rewrite Hnn in Hroom. replace ((1024 * Z.of_nat fbn + 1 + 1024 - 1) / 1024) with (Z.of_nat fbn + 1) in Hroom by (Z.div_mod_to_equations; lia).
    replace ((1024 * Z.of_nat fbn + 1024 - 1) / 1024) with (Z.of_nat fbn) in Hroom by (Z.div_mod_to_equations; lia).
    destruct (Nat.eqb_spec fbn 12), (Z.ltb_spec 12 (Z.of_nat fbn + 1)), (Z.ltb_spec 12 (Z.of_nat fbn)); lia. }
  destruct (decide (fbn < 12)%nat) as [H12|H12].
  - apply sector_direct; try done; [apply T2; lia|]. destruct Hnb as [Hn|Hn]; [right; split; [done|]|by left].
    specialize (Hsec Hn). destruct (Nat.eqb_spec fbn 12); lia.
  - destruct (la_ind _ _ Hl) as [[Hg Hn]|(a & Hg & Hn & _)].
    + assert (Hfn : length (gblocks g) = 12%nat ∧ fbn = 12%nat) by lia. destruct Hfn as [Hn12 ->].
      apply sector_first; try done. specialize (Hsec Hn12). cbn in Hsec. lia.
    + apply (sector_indirect s d g a); try done; [lia|]. destruct Hnb as [Hn'|Hn']; [right; split; [done|]|by left].
      specialize (Hsec Hn'). destruct (Nat.eqb_spec fbn 12); lia.
Qed.

Definition append_data (p : list Z) (g : gfile) : gfile := mk_g (gdata g ++ p) (gblocks g) (gind g).

Lemma concat_snoc_split (f : Z → list Z) l x :
  (∀ y, length (f y) = BSIZE) → length (concat (map f l)) = (BSIZE * length l)%nat ∧ concat (map f (l ++ [x])) = concat (map f l) ++ f x.
Proof.
  intros Hf. split; [|by rewrite map_app, concat_app; cbn; rewrite app_nil_r].
  induction l as [|y l IH]; [done|]. cbn [map concat length]. rewrite length_app, IH, Hf. lia.
Qed.

Lemma data_put s g x fbn p :
  image_ok s → laid s g → gblocks g !! fbn = Some x → length (gblocks g) = S fbn →
  (BSIZE * fbn ≤ length (gdata g))%nat → (length (gdata g) + length p ≤ BSIZE * S fbn)%nat →
  let s' := put x (blit (V s x) (length (gdata g) - BSIZE * fbn) p) s in
  image_ok s' ∧ laid s' (append_data p g) ∧ enlarged s g s' (append_data p g).
Proof.
  intros Hi Hl Hx Hn Hlo Hhi s'.
  assert (Hin : x ∈ own g) by (apply elem_of_app; left; by eapply list_elem_of_lookup_2).
  destruct (block_word s g x Hi Hl Hin) as (_ & _ & B3 & B4).
  assert (Hsplit : gblocks g = take fbn (gblocks g) ++ [x]).
  { rewrite <- (take_drop_middle _ _ _ Hx) at 1. rewrite drop_ge by lia. done. }
  set (l := take fbn (gblocks g)) in *. assert (Hll : length l = fbn) by (unfold l; rewrite length_take; lia).
  assert (Hxl : x ∉ l). { pose proof (la_own _ _ Hl) as Ho. unfold own in Ho. rewrite Hsplit in Ho. apply NoDup_app in Ho as (Ho & _ & _).
    apply NoDup_app in Ho as (_ & Ho & _). intros Hxl. apply (Ho x Hxl). by left. }
  split_and!.
  - apply image_ok_put; [done|lia|]. rewrite length_blit; rewrite (io_len _ Hi); unfold BSIZE in *; lia.
  - destruct (concat_snoc_split (V s) l x (io_len _ Hi)) as [C1 C2]. rewrite Hll in C1.
    pose proof (la_data _ _ Hl) as Hd. rewrite Hsplit, C2 in Hd. destruct Hl as [L1 L2 L3 L4 L5]. split; try done; cbn [append_data gdata gblocks gind].
    + destruct L1 as [?|(a & Ha & Hb & Hv)]; [by left|]. right. exists a. split_and!; try done; try lia.
      unfold s'. rewrite V_put, decide_False; [done|]. intros ->. unfold own in L4. apply NoDup_app in L4 as (_ & L4 & _).
      apply (L4 x); [by eapply list_elem_of_lookup_2|]. rewrite Ha. by left.
    + rewrite Hsplit at 1. rewrite map_app, concat_app. unfold s' at 1. rewrite map_V_put by done. cbn [map concat].
      unfold s'. rewrite V_put, decide_True, app_nil_r by done. rewrite <- (blit_app _ _ _ _ (BSIZE * fbn)) by done.
      rewrite Hd. replace (BSIZE * fbn + (length (gdata g) - BSIZE * fbn))%nat with (length (gdata g)) by lia.
      rewrite blit_end; [|rewrite length_app, Hll; cbn [length]; lia]. do 2 f_equal. rewrite !length_app, Hll. cbn [length]. lia.
    + rewrite length_app. lia.
  - split; try done; [by left|]. intros n Hno. unfold s'. rewrite V_put, decide_False; [done|]. by intros ->.
Qed.

(** ** [iappend] *)

Definition dlen (g : gfile) : Z := Z.of_nat (length (gdata g)).

Lemma iappend_loop_run : ∀ fuel s d g p,
  image_ok s → laid s g → tight g → di_addrs d = gaddrs g → dlen g + Z.of_nat (length p) ≤ MAXFILE * BS →
  (length p ≤ fuel)%nat → freeblock s + sectors (dlen g + Z.of_nat (length p)) - sectors (dlen g) ≤ FSSIZE →
  ∃ s' g', iappend_loop fuel d (dlen g) (Z.of_nat (length p)) p s =
      Done ((set_daddrs (gaddrs g') d, dlen g + Z.of_nat (length p)), s') ∧
    image_ok s' ∧ laid s' g' ∧ tight g' ∧ gdata g' = gdata g ++ p ∧ enlarged s g s' g'.
Proof.
  induction fuel as [|fuel IH]; intros s d g p Hi Hl Ht Hd Hmax Hf Hroom; cbn [iappend_loop].
  { destruct p; [|cbn in Hf; lia]. exists s, g. cbn [length]. rewrite Z.add_0_r, app_nil_r.
    split_and!; try done; [by destruct d; cbn in *; subst|apply enlarged_refl]. }
  destruct (Z.ltb_spec 0 (Z.of_nat (length p))) as [Hp|Hp]; cycle 1.
  { destruct p; [|cbn in Hp; lia]. exists s, g. cbn [length]. rewrite Z.add_0_r, app_nil_r.
    split_and!; try done; [by destruct d; cbn in *; subst|apply enlarged_refl]. }
  pose proof (last_block_spec g) as Hb. set (fbn := last_block g) in *.
  assert (HBS : Z.of_nat BSIZE = 1024) by done. change (MAXFILE * BS) with 274432 in Hmax.
  assert (Hdiv : dlen g / Z.of_nat BSIZE = Z.of_nat fbn).
  { unfold dlen. rewrite HBS. unfold BSIZE in Hb. Z.div_mod_to_equations. lia. }
  rewrite Hdiv. cbv zeta. rewrite (proj2 (Z.ltb_lt _ _)) by (change MAXFILE with 268; unfold BSIZE, dlen in *; lia). cbn [negb].
  assert (Hm : sectors (dlen g + 1) ≤ sectors (dlen g + Z.of_nat (length p))) by (apply sectors_mono; lia).
  destruct (sector_run s d g Hi Hl Ht Hd) as (s1 & g1 & x & E1 & I1 & L1 & G1 & D1 & X1 & N1 & F1);
    [unfold dlen in *; change (MAXFILE * BS) with 274432; lia|fold (dlen g); lia|]. fold fbn in E1, X1, N1.
  rewrite (run_bind _ _ _ _ _ E1). cbv beta iota.
  assert (Hin : x ∈ own g1) by (apply elem_of_app; left; by eapply list_elem_of_lookup_2).
  destruct (block_word s1 g1 x I1 L1 Hin) as (_ & _ & B3 & _). rewrite (run_bind _ _ _ _ _ (rsect_run s1 x I1 B3)).
  set (n1 := Z.min (Z.of_nat (length p)) ((Z.of_nat fbn + 1) * Z.of_nat BSIZE - dlen g)).
  assert (Hn1 : 0 < n1 ≤ Z.of_nat (length p)) by (unfold n1, dlen, BSIZE in *; lia).
  set (p1 := take (Z.to_nat n1) p). set (p2 := drop (Z.to_nat n1) p).
  assert (Hp1 : length p1 = Z.to_nat n1) by (unfold p1; rewrite length_take; lia).
  assert (Hp2 : Z.of_nat (length p2) = Z.of_nat (length p) - n1) by (unfold p2; rewrite length_drop; lia).
  destruct (data_put s1 g1 x fbn p1 I1 L1 X1 N1) as (I2 & L2 & G2); [rewrite D1; lia|rewrite D1, Hp1; unfold n1, dlen, BSIZE in *; lia|].
  rewrite D1 in I2, L2, G2. erewrite run_bind by reflexivity.
  replace (Z.to_nat (dlen g - Z.of_nat fbn * Z.of_nat BSIZE)) with (length (gdata g) - BSIZE * fbn)%nat by (unfold dlen; lia).
  set (s2 := put x _ s1) in *. change (set_img _ s1) with s2. set (g2 := append_data p1 g1) in *.
  assert (T2 : tight g2).
  { split; cbn [g2 append_data gdata gblocks gind]; [|done]. rewrite length_app, D1, N1, Hp1. unfold n1, dlen, BSIZE in *. lia. }
  assert (Hd2 : dlen g2 = dlen g + n1) by (unfold dlen, g2, append_data; cbn [gdata]; rewrite length_app, D1, Hp1; lia).
  pose proof (enlarged_trans _ _ _ _ _ _ G1 G2) as G.
  pose proof (own_sectors _ _ Hl Ht) as O1. pose proof (own_sectors _ _ L2 T2) as O2. fold (dlen g) in O1. fold (dlen g2) in O2.
  pose proof (gr_free _ _ _ _ G) as Hfr.
  destruct (IH s2 (set_daddrs (gaddrs g1) d) g2 p2 I2 L2 T2) as (s3 & g3 & E3 & I3 & L3 & T3 & D3 & G3).
  - done.
  - change (MAXFILE * BS) with 274432. lia.
  - lia.
  - replace (dlen g2 + Z.of_nat (length p2)) with (dlen g + Z.of_nat (length p)) by lia. lia.
  - exists s3, g3. split_and!; try done; [|..].
    + rewrite u32_id by (unfold is_u32, dlen in *; lia). rewrite <- Hd2, <- Hp2. change (drop (Z.to_nat n1) p) with p2. rewrite E3.
      unfold set_daddrs. cbn. do 3 f_equal. lia.
    + rewrite D3. unfold g2, append_data. cbn [gdata]. rewrite D1, <- app_assoc. f_equal. apply take_drop.
    + by apply (enlarged_trans _ _ s2 g2).
Qed.

(** ** The file system while it grows *)

Definition super_block : list Z := put_u32s 0 (sb_words mkfs_sb) zero_block.

(** The files by inode number, from 1 on; the sectors before the inodes. *)
Record mkfs_inv (fs : list (Z * gfile)) (s : mkfs) : Prop := {
  mi_ok : image_ok s;
  mi_next : freeinode s = 1 + Z.of_nat (length fs);
  mi_room : (length fs < 200)%nat;
  mi_node : ∀ i ty g, fs !! i = Some (ty, g) → dinode_of (Z.of_nat i + 1) (V s (IBLOCK (Z.of_nat i + 1) mkfs_sb)) =
    mk_dinode ty 0 0 1 (dlen g) (gaddrs g);
  mi_type : ∀ i ty g, fs !! i = Some (ty, g) → - 2 ^ 15 ≤ ty < 2 ^ 15;
  mi_laid : ∀ i ty g, fs !! i = Some (ty, g) → laid s g ∧ tight g ∧ dlen g ≤ MAXFILE * BS;
  mi_low : ∀ n, 0 ≤ n < 33 → V s n = if decide (n = 1) then super_block else zero_block;
  mi_own : ∀ i j x y b, fs !! i = Some x → fs !! j = Some y → b ∈ own x.2 → b ∈ own y.2 → i = j;
}.

Lemma inode_block n : 0 ≤ n < 208 → 33 ≤ IBLOCK n mkfs_sb < 46 ∧ IBLOCK n mkfs_sb = n / 16 + 33.
Proof.
  intros Hn. unfold IBLOCK. change (inodestart mkfs_sb) with 33. change IPB with 16.
  rewrite u32_id by (unfold is_u32; Z.div_mod_to_equations; lia). Z.div_mod_to_equations. lia.
Qed.

Lemma dinode_ok_of s ty g : image_ok s → laid s g → - 2 ^ 15 ≤ ty < 2 ^ 15 → dlen g ≤ MAXFILE * BS → dinode_ok (mk_dinode ty 0 0 1 (dlen g) (gaddrs g)).
Proof.
  intros Hi Hl Hty Hsz. change (MAXFILE * BS) with 274432 in Hsz.
  split; cbn [di_type di_major di_minor di_nlink di_size di_addrs]; try lia; [unfold is_u32, dlen in *; lia|apply length_gaddrs|].
  assert (Hz : is_u32 0) by (unfold is_u32; lia). unfold gaddrs, zpad. repeat apply Forall_app_2.
  - apply Forall_take, Forall_forall. intros b Hb. apply (block_word s g); [done|done|]. apply elem_of_app. by left.
  - by apply Forall_replicate.
  - apply Forall_singleton. destruct (gind g) as [|a l] eqn:Hg; [done|]. apply (block_word s g); [done|done|].
    apply elem_of_app. right. rewrite Hg. by left.
Qed.

Lemma laid_frame s s' g : laid s g → (∀ b, b ∈ own g → V s' b = V s b) → freeblock s ≤ freeblock s' → laid s' g.
Proof.
  intros [L1 L2 L3 L4 L5] Hv Hf. split; try done.
  - destruct L1 as [?|(a & Ha & Hb & Hva)]; [by left|]. right. exists a. split_and!; try done; try lia. rewrite Hv; [done|].
    apply elem_of_app. right. rewrite Ha. by left.
  - rewrite <- L2. f_equal. apply map_ext_in. intros b Hb%list_elem_of_In. apply Hv. apply elem_of_app. by left.
  - eapply Forall_impl; [exact L5|]. cbn. lia.
Qed.

Lemma winode_run s n d :
  image_ok s → 0 ≤ n < 208 → length (di_addrs d) = 13%nat →
  let s' := put (IBLOCK n mkfs_sb) (put_dinode n d (V s (IBLOCK n mkfs_sb))) s in winode n d s = Done ((), s') ∧ image_ok s'.
Proof.
  intros Hi Hn Hd s'. destruct (inode_block n Hn) as [Hb _]. pose proof (io_free _ Hi) as Hf.
  change nmeta with 47 in Hf. change FSSIZE with 2000 in Hf. split.
  - unfold winode. rewrite (run_bind _ _ _ _ _ (rsect_run s (IBLOCK n mkfs_sb) Hi ltac:(change FSSIZE with 2000; lia))). done.
  - apply image_ok_put; [done|lia|]. apply length_put_dinode; [by apply io_len|done].
Qed.

Lemma rinode_run s n : image_ok s → 0 ≤ n < 208 → rinode n s = Done (dinode_of n (V s (IBLOCK n mkfs_sb)), s).
Proof.
  intros Hi Hn. destruct (inode_block n Hn) as [Hb _].
  unfold rinode. by rewrite (run_bind _ _ _ _ _ (rsect_run s (IBLOCK n mkfs_sb) Hi ltac:(change FSSIZE with 2000; lia))).
Qed.

(** What the inode blocks say after one inode is written. *)
Lemma dinode_winode s n d m :
  image_ok s → 0 ≤ n < 208 → 0 ≤ m < 208 → dinode_ok d →
  let s' := put (IBLOCK n mkfs_sb) (put_dinode n d (V s (IBLOCK n mkfs_sb))) s in
  dinode_of m (V s' (IBLOCK m mkfs_sb)) = if decide (m = n) then d else dinode_of m (V s (IBLOCK m mkfs_sb)).
Proof.
  intros Hi Hn Hm Hd s'. unfold s'. rewrite V_put. destruct (inode_block n Hn) as [_ Bn], (inode_block m Hm) as [_ Bm].
  destruct (decide (m = n)) as [->|Hne].
  - rewrite decide_True by done. apply dinode_of_put; [apply (io_len _ Hi)|done].
  - destruct (decide (_ = _)) as [He|]; [|done]. rewrite He. apply dinode_of_other; [apply (io_len _ Hi)|by apply do_len|].
    change IPB with 16. rewrite Bn, Bm in He. clear - He Hne. Z.div_mod_to_equations. lia.
Qed.

(** Writing inode [i] of a state that agrees with the old one on the inode blocks. *)
Lemma mkfs_inv_set fs s s1 i ty g g' :
  mkfs_inv fs s → fs !! i = Some (ty, g) → image_ok s1 → laid s1 g' → tight g' → dlen g' ≤ MAXFILE * BS →
  enlarged s g s1 g' →
  let n := Z.of_nat i + 1 in
  let s' := put (IBLOCK n mkfs_sb) (put_dinode n (mk_dinode ty 0 0 1 (dlen g') (gaddrs g')) (V s1 (IBLOCK n mkfs_sb))) s1 in
  mkfs_inv (<[i := (ty, g')]> fs) s'.
Proof.
  intros [M1 M2 M3 M4 M5 M6 M8 M7] Hi Ok1 L1 T1 Hsz G n s'. pose proof (lookup_lt_Some _ _ _ Hi) as Hil.
  pose proof (M5 i ty g Hi) as Hty. assert (Hn : 0 ≤ n < 208) by (unfold n; lia).
  assert (Hdok : dinode_ok (mk_dinode ty 0 0 1 (dlen g') (gaddrs g'))) by (by apply (dinode_ok_of s1)).
  assert (Hown : ∀ b, b ∈ own g' → 47 ≤ b).
  { intros b Hb%(own_range s1); [|done]. change nmeta with 47 in Hb. lia. }
  assert (Hcases : ∀ j x, <[i := (ty, g')]> fs !! j = Some x → j = i ∧ x = (ty, g') ∨ j ≠ i ∧ fs !! j = Some x).
  { intros j x [(-> & <- & _)|[Hne Hj]]%list_lookup_insert_Some; [by left|by right]. }
  assert (Hother : ∀ j x b, j ≠ i → fs !! j = Some x → b ∈ own x.2 → b ∉ own g').
  { intros j [tx gx] b Hne Hj Hb Hb'. destruct (gr_new _ _ _ _ G b Hb') as [Hg|Hr]; [by destruct Hne; eapply M7|].
    destruct (M6 j tx gx Hj) as [Hl _]. pose proof (own_range s gx b Hl Hb). lia. }
  assert (Hblk : ∀ m, 0 ≤ m < 208 → V s1 (IBLOCK m mkfs_sb) = V s (IBLOCK m mkfs_sb)).
  { intros m Hm. apply (gr_frame _ _ _ _ G). intros Hb%Hown. destruct (inode_block m Hm). lia. }
  destruct (inode_block n Hn) as [Hbn _].
  split.
  - apply image_ok_put; [done|pose proof (io_free _ Ok1); change nmeta with 47 in *; lia|]. apply length_put_dinode; [by apply io_len|apply length_gaddrs].
  - rewrite length_insert. unfold s', put. cbn [freeinode set_img]. by rewrite (gr_inode _ _ _ _ G).
  - by rewrite length_insert.
  - intros j tj gj [[-> [= -> ->]]|[Hne Hj]]%Hcases.
    + unfold s'. rewrite dinode_winode by done. by rewrite decide_True.
    + pose proof (lookup_lt_Some _ _ _ Hj). unfold s'. rewrite dinode_winode by (done || lia). rewrite decide_False by (unfold n; lia).
      rewrite Hblk by lia. by apply M4.
  - intros j tj gj [[-> [= -> ->]]|[Hne Hj]]%Hcases; [done|by eapply M5].
  - intros j tj gj [[-> [= -> ->]]|[Hne Hj]]%Hcases.
    + split_and!; [|done|done]. apply (laid_frame s1); [done| |done]. intros b Hb. unfold s'. rewrite V_put, decide_False; [done|].
      intros ->. apply Hown in Hb. lia.
    + destruct (M6 j tj gj Hj) as (Lj & Tj & Sj). split_and!; [|done|done]. apply (laid_frame s); [done| |apply G].
      intros b Hb. unfold s'. rewrite V_put, decide_False.
      * apply (gr_frame _ _ _ _ G). by apply (Hother j (tj, gj)).
      * intros ->. apply (own_range s) in Hb; [|done]. change nmeta with 47 in Hb. lia.
  - intros m Hm. unfold s'. rewrite V_put, decide_False by lia. rewrite <- M8 by done. apply (gr_frame _ _ _ _ G). intros Hb%Hown. lia.
  - intros j l x y b [[-> ->]|[Hne Hj]]%Hcases [[-> ->]|[Hne' Hl]]%Hcases Hx Hy; try done.
    + by destruct (Hother l y b Hne' Hl Hy).
    + by destruct (Hother j x b Hne Hj Hx).
    + by eapply M7.
Qed.

Lemma iappend_run fs s i ty g p :
  mkfs_inv fs s → fs !! i = Some (ty, g) → dlen g + Z.of_nat (length p) ≤ MAXFILE * BS →
  freeblock s + sectors (dlen g + Z.of_nat (length p)) - sectors (dlen g) ≤ FSSIZE →
  ∃ s' g', iappend (Z.of_nat i + 1) p (Z.of_nat (length p)) s = Done ((), s') ∧ mkfs_inv (<[i := (ty, g')]> fs) s' ∧
    gdata g' = gdata g ++ p ∧ freeblock s' = freeblock s + sectors (dlen g + Z.of_nat (length p)) - sectors (dlen g).
Proof.
  intros H Hi Hmax Hroom. pose proof H as [M1 M2 M3 M4 M5 M6 _ _]. pose proof (lookup_lt_Some _ _ _ Hi) as Hil.
  destruct (M6 i ty g Hi) as (L & T & S). assert (Hn : 0 ≤ Z.of_nat i + 1 < 208) by lia.
  unfold iappend. rewrite (run_bind _ _ _ _ _ (rinode_run s _ M1 Hn)), (M4 i ty g Hi). set (d := mk_dinode ty 0 0 1 (dlen g) (gaddrs g)).
  assert (Hx : xint (dlen g) = dlen g) by (apply xint_id; change (MAXFILE * BS) with 274432 in *; unfold is_u32, dlen in *; lia).
  change (di_size d) with (dlen g). rewrite Hx.
  destruct (iappend_loop_run (Z.to_nat (Z.of_nat (length p))) s d g p M1 L T eq_refl Hmax ltac:(lia) Hroom) as (s1 & g1 & E & I1 & L1 & T1 & D1 & G).
  assert (Hd1 : dlen g1 = dlen g + Z.of_nat (length p)) by (unfold dlen; rewrite D1, length_app; lia).
  rewrite (run_bind _ _ _ _ _ E). cbv beta iota. rewrite xint_id by (change (MAXFILE * BS) with 274432 in *; unfold is_u32, dlen in *; lia).
  rewrite <- Hd1. change (set_dsize (dlen g1) (set_daddrs (gaddrs g1) d)) with (mk_dinode ty 0 0 1 (dlen g1) (gaddrs g1)).
  destruct (winode_run s1 (Z.of_nat i + 1) (mk_dinode ty 0 0 1 (dlen g1) (gaddrs g1)) I1 Hn (length_gaddrs g1)) as [E2 I2].
  eexists _, g1. split_and!; [exact E2| |done|].
  - apply (mkfs_inv_set fs s s1 i ty g g1); try done. lia.
  - cbn [freeblock put set_img]. pose proof (gr_free _ _ _ _ G). pose proof (own_sectors _ _ L T). pose proof (own_sectors _ _ L1 T1).
    unfold dlen in *. lia.
Qed.
