(* ===== verification/Image.v ===== *)
(** * The image of mkfs, as the kernel sees it

    The main program of mkfs.c run on a list of host files, and what kernel/fs.c reads from the
    disk it leaves: directory search, inodes, contents, bitmap. *)

From S2P Require Import Prelude CString Effect Printf Proc Locks Bio Log Fs Dinode Path Walk Content Mkfs.

Local Open Scope Z_scope.

(** ** The rest of the program *)

Definition empty_file : gfile := mk_g [] [] [].

Lemma laid_empty s : laid s empty_file.
Proof. split; [left; cbn; split; [done|lia]|done|cbn; lia|by apply NoDup_nil_2|by apply Forall_nil]. Qed.

Lemma mkfs_ialloc_run fs s ty :
  mkfs_inv fs s → (length fs < 199)%nat → 0 ≤ ty < 2 ^ 15 →
  ∃ s', mkfs_ialloc ty s = Done (1 + Z.of_nat (length fs), s') ∧ mkfs_inv (fs ++ [(ty, empty_file)]) s' ∧ freeblock s' = freeblock s.
Proof.
  intros [M1 M2 M3 M4 M5 M6 M8 M7] Hlen Hty. set (n := 1 + Z.of_nat (length fs)).
  assert (Hn : 0 ≤ n < 208) by (unfold n; lia). destruct (inode_block n Hn) as [Hbn _].
  set (s1 := mk_mkfs (img s) (n + 1) (freeblock s)). assert (I1 : image_ok s1) by (by destruct M1; split).
  set (d := mk_dinode ty 0 0 1 0 (replicate 13 0)).
  destruct (winode_run s1 n d I1 Hn eq_refl) as [E2 I2]. set (s2 := put _ _ s1) in *.
  exists s2. split_and!; [|split|done].
  - unfold mkfs_ialloc. erewrite run_bind by reflexivity. rewrite M2. fold n. erewrite run_bind by reflexivity.
    rewrite u32_id by (unfold is_u32; lia). rewrite xshort_id by (unfold is_u16; lia).
    change (xshort 1) with 1. change (xint 0) with 0. fold d s1. by rewrite (run_bind _ _ _ _ _ E2).
  - done.
  - rewrite length_app. cbn [length s2 put set_img freeinode s1]. unfold n. lia.
  - rewrite length_app. cbn [length]. lia.
  - assert (Hd : dinode_ok d) by (split; cbn; try lia; [unfold is_u32; lia|repeat constructor; unfold is_u32; lia]).
    intros i tx g [Hi|[Hi Hx]]%lookup_app_Some.
    + pose proof (lookup_lt_Some _ _ _ Hi). unfold s2. rewrite dinode_winode by (done || lia). rewrite decide_False by (unfold n; lia).
      by apply (M4 i).
    + apply list_lookup_singleton_Some in Hx as [Hx [= <- <-]]. unfold s2. rewrite dinode_winode by (done || lia).
      rewrite decide_True by (unfold n; lia). done.
  - intros i tx g [Hi|[Hi Hx]]%lookup_app_Some; [by eapply M5|]. apply list_lookup_singleton_Some in Hx as [Hx [= <- <-]]. lia.
  - intros i tx g [Hi|[Hi Hx]]%lookup_app_Some.
    + destruct (M6 i tx g Hi) as (L & T & S). split_and!; [|done|done]. apply (laid_frame s); [done| |cbn; lia].
      intros b Hb. unfold s2. rewrite V_put, decide_False; [done|]. intros ->. apply (own_range s) in Hb; [|done]. change nmeta with 47 in Hb. lia.
    + apply list_lookup_singleton_Some in Hx as [Hx [= <- <-]]. split_and!; [apply laid_empty|split; cbn; [unfold BSIZE; lia|split; [lia|done]]|by vm_compute].
  - intros m Hm. unfold s2. rewrite V_put, decide_False by lia. by apply M8.
  - assert (Hx : ∀ i x b, (fs ++ [(ty, empty_file)]) !! i = Some x → b ∈ own x.2 → fs !! i = Some x).
    { intros i x b [Hi|[Hi Hx]]%lookup_app_Some Hb; [done|]. apply list_lookup_singleton_Some in Hx as [_ <-]. by apply elem_of_nil in Hb. }
    intros i j x y b Hi Hj Hb Hb'. by eapply M7; [eapply Hx|eapply Hx| |].
Qed.

Lemma append_pieces_run ps : ∀ fs s i ty g,
  mkfs_inv fs s → fs !! i = Some (ty, g) → dlen g + Z.of_nat (length (concat ps)) ≤ MAXFILE * BS →
  freeblock s + sectors (dlen g + Z.of_nat (length (concat ps))) - sectors (dlen g) ≤ FSSIZE →
  ∃ s' g', append_pieces (Z.of_nat i + 1) ps s = Done ((), s') ∧ mkfs_inv (<[i := (ty, g')]> fs) s' ∧
    gdata g' = gdata g ++ concat ps ∧
    freeblock s' = freeblock s + sectors (dlen g + Z.of_nat (length (concat ps))) - sectors (dlen g).
Proof.
  induction ps as [|p ps IH]; intros fs s i ty g H Hi Hmax Hroom; cbn [append_pieces concat] in *.
  { exists s, g. cbn [length] in *. rewrite Z.add_0_r, app_nil_r, list_insert_id by done. split_and!; try done. lia. }
  rewrite length_app in *. pose proof (sectors_mono (dlen g + Z.of_nat (length p)) (dlen g + Z.of_nat (length p + length (concat ps))) ltac:(lia)).
  destruct (iappend_run fs s i ty g p H Hi) as (s1 & g1 & E1 & H1 & D1 & F1); [lia|lia|].
  assert (Hd1 : dlen g1 = dlen g + Z.of_nat (length p)) by (unfold dlen; rewrite D1, length_app; lia).
  rewrite (run_bind _ _ _ _ _ E1). rewrite <- Hd1 in F1.
  destruct (IH (<[i := (ty, g1)]> fs) s1 i ty g1 H1) as (s2 & g2 & E2 & H2 & D2 & F2).
  - apply list_lookup_insert_eq. by eapply lookup_lt_Some.
  - lia.
  - replace (dlen g1 + Z.of_nat (length (concat ps))) with (dlen g + Z.of_nat (length p + length (concat ps))) by lia. lia.
  - exists s2, g2. rewrite list_insert_insert_eq in H2. split_and!; try done; [by rewrite D2, D1, <- app_assoc|].
    rewrite F2, F1. replace (dlen g1 + Z.of_nat (length (concat ps))) with (dlen g + Z.of_nat (length p + length (concat ps))) by lia. lia.
Qed.

(** A file of the host: its path and the pieces in which it is read. *)
Definition hfile : Type := list Z * list (list Z).
Definition fname (f : hfile) : list Z := skip_underscore (shortname f.1).
Definition fcontent (f : hfile) : list Z := concat f.2.
Definition flen (f : hfile) : Z := Z.of_nat (length (fcontent f)).

(** The directory entries, for the inodes from [n] on. *)
Fixpoint entry_list (n : Z) (fs : list hfile) : list (list Z) :=
  match fs with
  | [] => []
  | f :: fs' => dirent n (fname f) :: entry_list (n + 1) fs'
  end.

(** The sectors of their contents. *)
Fixpoint all_sectors (fs : list hfile) : Z :=
  match fs with
  | [] => 0
  | f :: fs' => sectors (flen f) + all_sectors fs'
  end.

Lemma sectors_nonneg n : 0 ≤ n → 0 ≤ sectors n.
Proof. intros H. change 0 with (sectors 0). by apply sectors_mono. Qed.

Lemma all_sectors_nonneg fs : 0 ≤ all_sectors fs.
Proof. induction fs as [|f fs IH]; cbn [all_sectors]; [done|]. pose proof (sectors_nonneg (flen f) ltac:(unfold flen; lia)). lia. Qed.

Lemma length_zero_fill n : ∀ s, (n ≤ length s)%nat → length (zero_fill s n) = length s.
Proof. induction n as [|n IH]; intros [|c s] H; cbn in *; try done; [lia|]. rewrite IH; lia. Qed.

Lemma length_strncpy' n : ∀ s t, (n ≤ length s)%nat → length (strncpy s t n) = length s.
Proof.
  induction n as [|n IH]; intros [|c s] t H; cbn [strncpy length tl] in *; try done; [lia|].
  cbv zeta. cbn [length tl]. f_equal. destruct (_ =? 0); [apply length_zero_fill|apply IH]; lia.
Qed.

Lemma length_dirent n name : length (dirent n name) = 16%nat.
Proof. unfold dirent. rewrite length_app, length_le_encode, length_strncpy'; [done|]. by rewrite length_replicate. Qed.

Section host.
Context (host_open : list Z → option (list (list Z))).

(** What [main] accepts. *)
Record fine (f : hfile) : Prop := {
  fi_open : host_open f.1 = Some f.2;
  fi_slash : existsb (λ c, c =? 47) (cstring (shortname f.1)) = false;
  fi_name : (strlen (fname f) ≤ DIRSIZ)%nat;
  fi_size : flen f ≤ MAXFILE * BS;
}.

Lemma add_file_run f r fs s :
  mkfs_inv ((T_DIR, r) :: fs) s → fine f → (length fs < 198)%nat → dlen r + 16 ≤ MAXFILE * BS →
  freeblock s + sectors (dlen r + 16) - sectors (dlen r) + sectors (flen f) ≤ FSSIZE →
  ∃ s' r' g, add_file host_open f.1 s = Done ((), s') ∧ mkfs_inv ((T_DIR, r') :: fs ++ [(T_FILE, g)]) s' ∧
    gdata r' = gdata r ++ dirent (2 + Z.of_nat (length fs)) (fname f) ∧ gdata g = fcontent f ∧
    freeblock s' = freeblock s + sectors (dlen r + 16) - sectors (dlen r) + sectors (flen f).
Proof.
  intros H [Fo Fs Fn Fz] Hlen Hmax Hroom. unfold add_file. rewrite Fs, Fo. fold (fname f).
  rewrite (proj2 (Nat.ltb_ge _ _)) by done. pose proof (sectors_nonneg (flen f) ltac:(unfold flen; lia)) as Hs0.
  destruct (mkfs_ialloc_run _ s T_FILE H) as (s1 & E1 & H1 & F1); [cbn [length]; lia|by vm_compute|].
  rewrite (run_bind _ _ _ _ _ E1). cbn [length] in *. set (n := 1 + Z.of_nat (S (length fs))).
  rewrite xshort_id by (unfold is_u16, n; lia). change sizeof_dirent with (Z.of_nat 16).
  destruct (iappend_run _ s1 0 T_DIR r (dirent n (fname f)) H1 eq_refl) as (s2 & r2 & E2 & H2 & D2 & F2);
    rewrite ?length_dirent; [done|rewrite F1; change (Z.of_nat 16) with 16; lia|].
  change (Z.of_nat 0 + 1) with ROOTINO in E2. rewrite length_dirent in E2, F2. rewrite (run_bind _ _ _ _ _ E2).
  cbn [app insert list_insert] in H2.
  destruct (append_pieces_run f.2 _ s2 (S (length fs)) T_FILE empty_file H2) as (s3 & g3 & E3 & H3 & D3 & F3).
  - cbn [lookup list_lookup]. by apply list_lookup_middle.
  - exact Fz.
  - change (dlen empty_file + _) with (flen f). change (sectors (dlen empty_file)) with 0. change (Z.of_nat 16) with 16 in F2. lia.
  - exists s3, r2, g3. replace n with (Z.of_nat (S (length fs)) + 1) by (unfold n; lia). split_and!; [done| | |done|].
    + change ((T_DIR, r2) :: fs ++ [(T_FILE, empty_file)]) with (((T_DIR, r2) :: fs) ++ [(T_FILE, empty_file)]) in H3.
      rewrite insert_app_r_alt in H3 by (cbn; lia). cbn [length] in H3. rewrite Nat.sub_diag in H3. exact H3.
    + rewrite D2. do 2 f_equal. unfold n. lia.
    + change (dlen empty_file + _) with (flen f) in F3. change (sectors (dlen empty_file)) with 0 in F3. change (Z.of_nat 16) with 16 in F2. lia.
Qed.

Lemma add_files_run files : ∀ r fs s,
  mkfs_inv ((T_DIR, r) :: fs) s → Forall fine files → (length fs + length files ≤ 198)%nat →
  let n := 16 * Z.of_nat (length files) in
  dlen r + n ≤ MAXFILE * BS → freeblock s + sectors (dlen r + n) - sectors (dlen r) + all_sectors files ≤ FSSIZE →
  ∃ s' r' gs, add_files host_open files.*1 s = Done ((), s') ∧ mkfs_inv ((T_DIR, r') :: fs ++ gs) s' ∧
    gdata r' = gdata r ++ concat (entry_list (2 + Z.of_nat (length fs)) files) ∧
    Forall2 (λ f x, x.1 = T_FILE ∧ gdata x.2 = fcontent f) files gs.
Proof.
  induction files as [|f files IH]; intros r fs s H Hf Hlen n Hmax Hroom; cbn [add_files fmap list_fmap entry_list all_sectors concat].
  { exists s, r, []. rewrite !app_nil_r. by split_and!. }
  apply Forall_cons in Hf as [Ff Hf]. cbn [length all_sectors] in *. subst n. pose proof (all_sectors_nonneg files).
  pose proof (sectors_mono (dlen r + 16) (dlen r + 16 * Z.of_nat (S (length files))) ltac:(lia)) as Hm.
  destruct (add_file_run f r fs s H Ff) as (s1 & r1 & g & E1 & H1 & D1 & G1 & F1); [lia|lia|lia|].
  rewrite (run_bind _ _ _ _ _ E1).
  assert (Hd1 : dlen r1 = dlen r + 16) by (unfold dlen; rewrite D1, length_app, length_dirent; lia).
  destruct (IH r1 (fs ++ [(T_FILE, g)]) s1 H1 Hf) as (s2 & r2 & gs & E2 & H2 & D2 & G2).
  - rewrite length_app. cbn [length]. lia.
  - lia.
  - rewrite Hd1. replace (dlen r + 16 + 16 * Z.of_nat (length files)) with (dlen r + 16 * Z.of_nat (S (length files))) by lia. lia.
  - exists s2, r2, ((T_FILE, g) :: gs). rewrite <- app_assoc in H2. split_and!; [done|done| |by constructor].
    rewrite D2, D1, <- app_assoc, length_app. cbn [length].
    by replace (2 + Z.of_nat (length fs + 1)) with (2 + Z.of_nat (length fs) + 1) by lia.
Qed.
End host.

(** ** The bitmap *)

Lemma land_bit x k : 0 ≤ k → Z.land x (Z.shiftl 1 k) =? 0 = negb (Z.testbit x k).
Proof.
  intros Hk. apply eq_true_iff_eq. rewrite Z.eqb_eq, negb_true_iff. split.
  - intros H. assert (Hb : Z.testbit (Z.land x (Z.shiftl 1 k)) k = false) by (rewrite H; apply Z.bits_0).
    rewrite Z.land_spec, Z.shiftl_spec, Z.sub_diag, andb_true_r in Hb by lia. done.
  - intros H. apply Z.bits_inj'. intros m Hm. rewrite Z.land_spec, Z.shiftl_spec, Z.bits_0 by lia.
    destruct (decide (m = k)) as [->|Hne]; [by rewrite H|]. destruct (decide (m < k)) as [Hlt|Hge].
    + rewrite (Z.testbit_neg_r 1) by lia. by rewrite andb_false_r.
    + rewrite (Z.bits_above_log2 1) by (cbn; lia). by rewrite andb_false_r.
Qed.

Lemma length_set_bit b l : length (set_bit b l) = length l.
Proof. unfold set_bit. by rewrite length_insert. Qed.

Lemma bit_free_set a b l :
  0 ≤ a → 0 ≤ b → (Z.to_nat (a / 8) < length l)%nat → bit_free b (set_bit a l) = bit_free b l && negb (b =? a).
Proof.
  intros Ha Hb Hl. unfold bit_free, set_bit, bit_mask. pose proof (Z.mod_pos_bound b 8 ltac:(done)). pose proof (Z.mod_pos_bound a 8 ltac:(done)).
  rewrite !land_bit by lia. destruct (decide (a / 8 = b / 8)) as [He|Hne].
  - rewrite He in *. rewrite (nth_lookup (<[_ := _]> l)), list_lookup_insert_eq by done. cbn [default from_option id].
    rewrite Z.lor_spec, Z.shiftl_spec, negb_orb by lia. f_equal. f_equal.
    destruct (Z.eqb_spec b a) as [->|Hab]; [by rewrite Z.sub_diag|].
    destruct (decide (b mod 8 < a mod 8)) as [Hlt|Hge]; [apply Z.testbit_neg_r; lia|].
    apply Z.bits_above_log2; [done|]. cbn. Z.div_mod_to_equations. lia.
  - rewrite !nth_lookup, list_lookup_insert_ne by (intros He; apply Hne; apply Z2Nat.inj in He; [done|apply Z.div_pos; lia..]).
    destruct (Z.eqb_spec b a) as [->|_]; [done|]. by rewrite andb_true_r.
Qed.

Lemma set_bits_run n : ∀ i b l,
  0 ≤ i → 0 ≤ b → i + Z.of_nat n ≤ 8 * Z.of_nat (length l) →
  bit_free b (set_bits n i l) = bit_free b l && negb ((i <=? b) && (b <? i + Z.of_nat n)) ∧ length (set_bits n i l) = length l.
Proof.
  induction n as [|n IH]; intros i b l Hi Hb Hl; cbn [set_bits].
  { split; [|done]. destruct (Z.leb_spec i b), (Z.ltb_spec b (i + Z.of_nat 0)); try lia; by rewrite andb_true_r. }
  destruct (IH (i + 1) b (set_bit i l)) as [H1 H2]; [lia|done|rewrite length_set_bit; lia|]. rewrite length_set_bit in H2. split; [|done].
  rewrite H1, bit_free_set by (try lia; Z.div_mod_to_equations; lia). rewrite <- andb_assoc. f_equal.
  destruct (Z.eqb_spec b i), (Z.leb_spec (i + 1) b), (Z.leb_spec i b), (Z.ltb_spec b (i + 1 + Z.of_nat n)), (Z.ltb_spec b (i + Z.of_nat (S n))); done || lia.
Qed.

Lemma bit_free_zero b : bit_free b zero_block = true.
Proof. unfold bit_free. change zero_block with (replicate BSIZE 0). by rewrite nth_zeros. Qed.

(** ** [main] *)

Lemma zero_sectors_run n : ∀ i s,
  (∀ m, V s m = zero_block) →
  ∃ s', for_ n i (λ i, wsect i zero_block) s = Done ((), s') ∧ freeinode s' = freeinode s ∧ freeblock s' = freeblock s ∧
    (∀ m, V s' m = zero_block) ∧ (∀ m, is_Some (img s !! m) ∨ i ≤ m < i + Z.of_nat n → is_Some (img s' !! m)).
Proof.
  induction n as [|n IH]; intros i s Hz; cbn [for_].
  { exists s. split_and!; try done. intros m [?|?]; [done|lia]. }
  destruct (IH (i + 1) (put i zero_block s)) as (s' & E & F1 & F2 & Hz' & Hs).
  { intros m. rewrite V_put. by destruct (decide _). }
  exists s'. erewrite run_bind by reflexivity. split_and!; try done. intros m Hm. apply Hs. cbn [img put set_img].
  rewrite lookup_insert. destruct (decide (i = m)) as [->|Hne]; [by left; eexists|]. destruct Hm as [Hm|Hm]; [by left|right; lia].
Qed.

Lemma mkfs_start_run :
  ∃ s, (modify (λ s, mk_mkfs (img s) (freeinode s) nmeta);; for_ (Z.to_nat FSSIZE) 0 (λ i, wsect i zero_block);;
    wsect 1 super_block) mkfs0 = Done ((), s) ∧ mkfs_inv [] s ∧ freeblock s = nmeta.
Proof.
  set (s0 := mk_mkfs (img mkfs0) (freeinode mkfs0) nmeta).
  destruct (zero_sectors_run (Z.to_nat FSSIZE) 0 s0) as (s & E & F1 & F2 & Hz & Hs).
  { intros m. unfold V, s0. cbn [img mkfs0]. by rewrite lookup_empty. }
  assert (Hi : image_ok s).
  { split; [|intros n; by rewrite Hz|by intros; rewrite Hz|rewrite F2; by vm_compute].
    intros n Hn. apply Hs. right. change (Z.to_nat FSSIZE) with 2000%nat. change FSSIZE with 2000 in Hn. lia. }
  exists (put 1 super_block s). split_and!.
  - erewrite run_bind by reflexivity. by rewrite (run_bind _ _ _ _ _ E).
  - split; try by intros.
    + apply image_ok_put; [done|rewrite F2; by vm_compute|by vm_compute].
    + cbn. lia.
    + intros n Hn. rewrite V_put. by destruct (decide (n = 1)).
  - exact F2.
Qed.

(** Sectors between the inodes and the data: the bitmap. *)
Lemma mkfs_inv_bitmap fs s b : mkfs_inv fs s → length b = BSIZE → mkfs_inv fs (put 46 b s).
Proof.
  intros [M1 M2 M3 M4 M5 M6 M8 M7] Hb. pose proof (io_free _ M1) as Hf. change nmeta with 47 in Hf.
  split; try done.
  - apply image_ok_put; [done|lia|done].
  - intros i ty g Hi. pose proof (lookup_lt_Some _ _ _ Hi). destruct (inode_block (Z.of_nat i + 1) ltac:(lia)) as [Hbn _].
    rewrite V_put, decide_False by lia. by apply (M4 i).
  - intros i ty g Hi. destruct (M6 i ty g Hi) as (L & T & S). split_and!; [|done|done]. apply (laid_frame s); [done| |cbn; lia].
    intros x Hx%(own_range s); [|done]. change nmeta with 47 in Hx. rewrite V_put, decide_False by lia. done.
  - intros n Hn. rewrite V_put, decide_False by lia. by apply M8.
Qed.

Lemma mkfs_balloc_run fs s :
  mkfs_inv fs s →
  ∃ s', mkfs_balloc (freeblock s) s = Done ((), s') ∧ mkfs_inv fs s' ∧ freeblock s' = freeblock s ∧
    ∀ b, 0 ≤ b → bit_free b (V s' 46) = (freeblock s <=? b).
Proof.
  intros H. pose proof (io_free _ (mi_ok _ _ H)) as Hf. change nmeta with 47 in Hf. change FSSIZE with 2000 in Hf.
  unfold mkfs_balloc. rewrite (proj2 (Z.ltb_lt _ BPB)) by (change BPB with 8192; lia). cbn [negb].
  set (l := set_bits _ 0 zero_block). exists (put 46 l s).
  assert (Hl : ∀ b, 0 ≤ b → bit_free b l = (freeblock s <=? b) ∧ length l = BSIZE).
  { intros b Hb. destruct (set_bits_run (Z.to_nat (freeblock s)) 0 b zero_block) as [H1 H2]; [lia|done|change (length zero_block) with 1024%nat; lia|].
    split; [|done]. unfold l. rewrite H1, bit_free_zero. rewrite Z2Nat.id by lia.
    destruct (Z.leb_spec 0 b), (Z.ltb_spec b (0 + freeblock s)), (Z.leb_spec (freeblock s) b); done || lia. }
  split_and!; [done|apply mkfs_inv_bitmap; [done|by destruct (Hl 0)]|done|].
  intros b Hb. rewrite V_put, decide_True by done. by apply Hl.
Qed.

(** The root directory, with its size rounded up to whole blocks. *)
Definition whole_blocks (g : gfile) : gfile :=
  mk_g (gdata g ++ replicate (BSIZE * length (gblocks g) - length (gdata g)) 0) (gblocks g) (gind g).

Lemma whole_blocks_len s g : laid s g → dlen (whole_blocks g) = 1024 * Z.of_nat (length (gblocks g)).
Proof. intros L. pose proof (la_fit _ _ L). unfold dlen, whole_blocks, BSIZE in *. cbn [gdata]. rewrite length_app, length_replicate. lia. Qed.

Lemma round_root_run gs s r :
  mkfs_inv ((T_DIR, r) :: gs) s → dlen r mod 1024 ≠ 0 → dlen r < MAXFILE * BS →
  ∃ s', (d ← rinode ROOTINO;
    winode ROOTINO (set_dsize (xint (u32 ((xint (di_size d) / Z.of_nat BSIZE + 1) * Z.of_nat BSIZE))) d)) s = Done ((), s') ∧
    mkfs_inv ((T_DIR, whole_blocks r) :: gs) s' ∧ freeblock s' = freeblock s.
Proof.
  intros H Hmod Hmax. change (MAXFILE * BS) with 274432 in Hmax. destruct (mi_laid _ _ H 0 T_DIR r eq_refl) as (L & [T1 T2] & _).
  pose proof (la_fit _ _ L) as Hf. pose proof (whole_blocks_len s r L) as Hw. pose proof (mi_ok _ _ H) as Hi.
  assert (Hd : 0 ≤ dlen r) by (unfold dlen; lia).
  assert (Hr : (dlen r / Z.of_nat BSIZE + 1) * Z.of_nat BSIZE = dlen (whole_blocks r)).
  { rewrite Hw. change (Z.of_nat BSIZE) with 1024. unfold dlen, BSIZE in *. Z.div_mod_to_equations. lia. }
  assert (Hwm : dlen (whole_blocks r) ≤ 274432).
  { rewrite <- Hr. change (Z.of_nat BSIZE) with 1024. Z.div_mod_to_equations. lia. }
  destruct (winode_run s ROOTINO (mk_dinode T_DIR 0 0 1 (dlen (whole_blocks r)) (gaddrs (whole_blocks r))) Hi ltac:(done) (length_gaddrs _)) as [E _].
  eexists. split_and!.
  - rewrite (run_bind _ _ _ _ _ (rinode_run s ROOTINO Hi ltac:(done))). pose proof (mi_node _ _ H 0 T_DIR r eq_refl) as Hn.
    change (Z.of_nat 0 + 1) with ROOTINO in Hn. rewrite Hn. cbn [di_size].
    rewrite (xint_id (dlen r)) by (unfold is_u32; lia). rewrite Hr, u32_id, xint_id by (unfold is_u32; lia). exact E.
  - apply (mkfs_inv_set ((T_DIR, r) :: gs) s s 0 T_DIR r (whole_blocks r) H eq_refl Hi); [| |exact Hwm|].
    + destruct L as [L1 L2 L3 L4 L5]. split; try done; cbn [whole_blocks gdata gblocks].
      * rewrite length_app, length_replicate, L2. 
        replace (BSIZE * length (gblocks r) - (length (gdata r) + (BSIZE * length (gblocks r) - length (gdata r))))%nat with 0%nat by lia.
        by rewrite app_nil_r.
      * rewrite length_app, length_replicate. lia.
    + split; [|done]. cbn [whole_blocks gdata gblocks]. rewrite length_app, length_replicate. unfold BSIZE in *. lia.
    + split; try done; (by left) || lia.
  - done.
Qed.

Definition root_entries (files : list hfile) : list (list Z) :=
  dirent 1 (bytes ".") :: dirent 1 (bytes "..") :: entry_list 2 files.

Lemma mkfs_main_run host_open files :
  let n := Z.of_nat (length files) in
  Forall (fine host_open) files → (length files ≤ 198)%nat → (n + 2) mod 64 ≠ 0 →
  nmeta + sectors (16 * (n + 2)) + all_sectors files ≤ FSSIZE →
  ∃ s r gs z, mkfs_main host_open files.*1 mkfs0 = Done ((), s) ∧ mkfs_inv ((T_DIR, r) :: gs) s ∧
    gdata r = concat (root_entries files) ++ replicate z 0 ∧ dlen r mod 1024 = 0 ∧
    Forall2 (λ f x, x.1 = T_FILE ∧ gdata x.2 = fcontent f) files gs ∧
    ∀ b, 0 ≤ b → bit_free b (V s 46) = (freeblock s <=? b).
Proof.
  intros n Hf Hlen Hmod Hroom. destruct mkfs_start_run as (s1 & E1 & H1 & F1). pose proof (all_sectors_nonneg files) as Ha.
  pose proof (sectors_mono 32 (16 * (n + 2)) ltac:(unfold n; lia)) as Hm2. change nmeta with 47 in *. change FSSIZE with 2000 in *.
  change (sectors 32) with 1 in Hm2.
  destruct (mkfs_ialloc_run [] s1 T_DIR H1) as (s2 & E2 & H2 & F2); [cbn; lia|by vm_compute|].
  destruct (iappend_run _ s2 0 T_DIR empty_file (dirent 1 (bytes ".")) H2 eq_refl) as (s3 & r3 & E3 & H3 & D3 & F3);
    [by vm_compute|rewrite F2, F1; by vm_compute|].
  assert (Hd3 : dlen r3 = 16) by (unfold dlen; by rewrite D3).
  destruct (iappend_run _ s3 0 T_DIR r3 (dirent 1 (bytes "..")) H3 eq_refl) as (s4 & r4 & E4 & H4 & D4 & F4);
    [rewrite Hd3; by vm_compute|rewrite Hd3, F3, F2, F1; by vm_compute|].
  assert (Hd4 : dlen r4 = 32) by (unfold dlen; by rewrite D4, D3).
  assert (Hfree : freeblock s4 = 48) by (rewrite F4, Hd3, F3, F2, F1; by vm_compute). cbn [app insert list_insert] in H4.
  destruct (add_files_run host_open files r4 [] s4 H4 Hf) as (s5 & r5 & gs & E5 & H5 & D5 & G5).
  - cbn [length]. lia.
  - rewrite Hd4. change (MAXFILE * BS) with 274432. unfold n in *. lia.
  - rewrite Hd4, Hfree. change (sectors 32) with 1. replace (32 + 16 * Z.of_nat (length files)) with (16 * (n + 2)) by (unfold n; lia).
    change FSSIZE with 2000. lia.
  - cbn [app length] in H5, D5.
    assert (Hent : ∀ fs m, length (concat (entry_list m fs)) = (16 * length fs)%nat).
    { induction fs as [|f fs IH]; intros m; [done|]. cbn [entry_list concat length]. rewrite length_app, length_dirent, IH. lia. }
    assert (Hd5 : dlen r5 = 16 * (n + 2)).
    { unfold dlen in *. rewrite D5, length_app, Hent. unfold n. lia. }
    destruct (round_root_run gs s5 r5 H5) as (s6 & E6 & H6 & F6).
    { rewrite Hd5. intros Hz. apply Hmod. unfold n in *. clear -Hz. Z.div_mod_to_equations. lia. }
    { rewrite Hd5. change (MAXFILE * BS) with 274432. unfold n. lia. }
    destruct (mkfs_balloc_run _ s6 H6) as (s7 & E7 & H7 & F7 & B7).
    exists s7, (whole_blocks r5), gs. eexists. split_and!; [|done| | |done|by rewrite F7].
    + unfold mkfs_main. 
      apply run_bind_inv in E1 as ([] & t1 & A1 & E1). rewrite (run_bind _ _ _ _ _ A1).
      apply run_bind_inv in E1 as ([] & t2 & A2 & E1). rewrite (run_bind _ _ _ _ _ A2).
      change (put_u32s 0 (sb_words mkfs_sb) zero_block) with super_block. rewrite (run_bind _ _ _ _ _ E1).
      rewrite (run_bind _ _ _ _ _ E2). change (1 + Z.of_nat (length (@nil (Z * gfile)))) with ROOTINO. cbn [negb Z.eqb ROOTINO Pos.eqb].
      change (xshort 1) with 1. change (Z.of_nat 0 + 1) with 1 in E3, E4.
      change (Z.of_nat (length (dirent 1 (bytes ".")))) with sizeof_dirent in E3. change (Z.of_nat (length (dirent 1 (bytes "..")))) with sizeof_dirent in E4.
      rewrite (run_bind _ _ _ _ _ E3), (run_bind _ _ _ _ _ E4), (run_bind _ _ _ _ _ E5).
      apply run_bind_inv in E6 as (d & t6 & A6 & E6). rewrite (run_bind _ _ _ _ _ A6), (run_bind _ _ _ _ _ E6).
      by erewrite run_bind by reflexivity.
    + cbn [whole_blocks gdata]. rewrite D5, D4, D3. unfold root_entries. cbn [concat]. by rewrite <- !app_assoc.
    + destruct (mi_laid _ _ H5 0 T_DIR r5 eq_refl) as (L & _ & _). rewrite (whole_blocks_len s5 r5 L). rewrite Z.mul_comm. apply Z_mod_mult.
Qed.

(** ** What the kernel finds *)

Section kernel.
Context (s : mkfs) (g : gfile) (ty : Z) (dev : Z).
Hypothesis (Hi : image_ok s) (Hl : laid s g) (Hsz : dlen g ≤ MAXFILE * BS).
Notation d := (mk_dinode ty 0 0 1 (dlen g) (gaddrs g)).
Notation blk off := (nth (Z.to_nat (off / BS)) (gblocks g) 0).

Lemma blk_in off : 0 ≤ off < dlen g → (Z.to_nat (off / BS) < length (gblocks g))%nat.
Proof. intros Ho. pose proof (la_fit _ _ Hl). unfold dlen, BSIZE in *. change BS with 1024. Z.div_mod_to_equations. lia. Qed.

Lemma file_block_image off : 0 ≤ off < dlen g → file_block (image s) dev d off = blk off.
Proof.
  intros Ho. pose proof (blk_in off Ho) as Hb. unfold file_block. cbn [di_addrs].
  assert (H0 : 0 ≤ off / BS) by (apply Z.div_pos; [lia|done]).
  destruct (Z.ltb_spec (off / BS) NDIRECT) as [Hn|Hn]; change NDIRECT with 12 in *; [apply nth_gaddrs; lia|].
  change (Z.to_nat 12) with 12%nat. rewrite nth_gaddrs_ind.
  destruct (la_ind _ _ Hl) as [[_ Hc]|(a & Ha & Hc & Hv)]; [lia|]. rewrite Ha. cbn [hd]. unfold image. cbn [snd]. fold (V s a). rewrite Hv.
  destruct (block_word s g (blk off) Hi Hl (nth_own g _ Hb)) as (Hu & _).
  rewrite (get_words _ _ (blk off)); [done| |done]. rewrite zpad_lookup; [|rewrite length_drop; lia|lia].
  f_equal. rewrite nth_skipn. f_equal. lia.
Qed.

Lemma blk_own off : 0 ≤ off < dlen g → blk off ∈ own g.
Proof. intros Ho. by apply nth_own, blk_in. Qed.

Lemma nth_concat_blocks (f : Z → list Z) l : (∀ y, length (f y) = BSIZE) → ∀ q r,
  (q < length l)%nat → (r < BSIZE)%nat → nth (BSIZE * q + r) (concat (map f l)) 0 = nth r (f (nth q l 0)) 0.
Proof.
  intros Hf. induction l as [|y l IH]; intros q r Hq Hr; [cbn in Hq; lia|]. cbn [map concat]. destruct q as [|q]; cbn [nth].
  - rewrite Nat.mul_0_r, Nat.add_0_l. by rewrite app_nth1 by (rewrite Hf; lia).
  - rewrite app_nth2 by (rewrite Hf; lia). rewrite Hf. replace (BSIZE * S q + r - BSIZE)%nat with (BSIZE * q + r)%nat by lia.
    apply IH; [cbn in Hq; lia|done].
Qed.

Lemma byte_at_image off : 0 ≤ off < dlen g → byte_at (image s) dev d off = nth (Z.to_nat off) (gdata g) 0.
Proof.
  intros Ho. pose proof (blk_in off Ho) as Hb. unfold byte_at. rewrite file_block_image by done.
  unfold image. cbn [snd]. fold (V s (blk off)). pose proof (Z.mod_pos_bound off BS ltac:(done)).
  rewrite <- (nth_concat_blocks (V s) (gblocks g) (io_len _ Hi)) by (done || (change BS with (Z.of_nat BSIZE) in *; lia)).
  rewrite (la_data _ _ Hl). replace (BSIZE * Z.to_nat (off / BS) + Z.to_nat (off mod BS))%nat with (Z.to_nat off)
    by (unfold BSIZE; change BS with 1024; Z.div_mod_to_equations; lia).
  rewrite app_nth1; [done|]. unfold dlen in Ho. lia.
Qed.

Lemma content_image off n : 0 ≤ off → off + Z.of_nat n ≤ dlen g → content (image s) dev d off n = sub (Z.to_nat off) n (gdata g).
Proof.
  intros Ho Hn. apply list_eq. intros x. unfold content, sub. rewrite lookup_map. destruct (decide (x < n)%nat) as [Hx|Hx].
  - rewrite lookup_seq_lt, lookup_take_lt, lookup_drop by done. cbn [fmap option_map option_fmap].
    rewrite byte_at_image by lia. rewrite (lookup_nth (gdata g)) by (unfold dlen in *; lia). do 2 f_equal. lia.
  - rewrite lookup_seq_ge, lookup_take_ge by lia. done.
Qed.

Lemma no_holes_image : no_holes (image s) dev d.
Proof.
  split; cbn [di_size di_addrs].
  - apply length_gaddrs.
  - unfold dlen in *. lia.
  - intros off Ho. rewrite file_block_image by done. by apply (block_word s g), blk_own.
  - intros Hn. change (NDIRECT * BS) with 12288 in Hn. change (Z.to_nat NDIRECT) with 12%nat. rewrite nth_gaddrs_ind.
    pose proof (la_fit _ _ Hl). destruct (la_ind _ _ Hl) as [[_ Hc]|(a & Ha & Hc & Hv)]; [unfold dlen, BSIZE in *; lia|].
    rewrite Ha. apply (block_word s g); [done|done|]. apply elem_of_app. right. rewrite Ha. by left.
Qed.
End kernel.

(** The blocks of a file are its own. *)
Lemma own_blocks_image s g ty :
  image_ok s → laid s g → dlen g ≤ MAXFILE * BS → own_blocks 1 2 (image s) mkfs_sb (mk_dinode ty 0 0 1 (dlen g) (gaddrs g)).
Proof.
  intros Hi Hl Hsz. pose proof (no_holes_image s g ty 1 Hi Hl Hsz) as Hnh.
  assert (Hr : ∀ off, 0 ≤ off < dlen g → 47 ≤ nth (Z.to_nat (off / BS)) (gblocks g) 0 < 2000).
  { intros off Ho. pose proof (own_range s g _ Hl (blk_own s g Hl off Ho)) as Hr. pose proof (io_free _ Hi).
    change nmeta with 47 in *. change FSSIZE with 2000 in *. lia. }
  split; cbn [di_size di_addrs]; [done|..].
  - intros off Ho. rewrite file_block_image by done. specialize (Hr off Ho). split; [lia|]. unfold in_log. cbn [fst snd hk].
    change LOGBLOCKS with 30. lia.
  - intros o o' Ho Ho'. rewrite !file_block_image by done. intros He. pose proof (la_own _ _ Hl) as Hn.
    unfold own in Hn. apply NoDup_app in Hn as (Hn & _). pose proof (blk_in s g Hl o Ho). pose proof (blk_in s g Hl o' Ho').
    pose proof (Z.div_pos o BS ltac:(lia) ltac:(done)). pose proof (Z.div_pos o' BS ltac:(lia) ltac:(done)).
    apply Z2Nat.inj; [done|done|]. eapply (NoDup_lookup _ _ _ _ Hn); [by apply lookup_nth|]. rewrite He. by apply lookup_nth.
  - intros off Ho Hn. change (Z.to_nat NDIRECT) with 12%nat. rewrite file_block_image, nth_gaddrs_ind by done.
    change (NDIRECT * BS) with 12288 in Hn. pose proof (la_fit _ _ Hl).
    destruct (la_ind _ _ Hl) as [[_ Hc]|(a & Ha & Hc & Hv)]; [unfold dlen, BSIZE in *; lia|]. rewrite Ha. cbn [hd].
    pose proof (la_own _ _ Hl) as Ho'. unfold own in Ho'. apply NoDup_app in Ho' as (_ & Hd & _).
    intros He. apply (Hd a); [|rewrite Ha; by left]. rewrite <- He. eapply list_elem_of_lookup_2, lookup_nth. by apply (blk_in s).
  - intros off n Ho Hn. rewrite file_block_image by done. specialize (Hr off Ho). change (ninodes mkfs_sb) with 200 in Hn.
    destruct (inode_block n ltac:(lia)). lia.
Qed.

(** ** The root directory *)

Lemma zero_fill_u8 n : ∀ s, Forall is_u8 s → Forall is_u8 (zero_fill s n).
Proof.
  induction n as [|n IH]; intros s Hs; [done|]. cbn [zero_fill]. constructor; [unfold is_u8; lia|]. apply IH. by destruct Hs.
Qed.

Lemma strncpy_u8 n : ∀ s t, Forall is_u8 s → Forall is_u8 t → Forall is_u8 (strncpy s t n).
Proof.
  induction n as [|n IH]; intros s t Hs Ht; [done|]. cbn [strncpy]. cbv zeta.
  assert (Htl : ∀ l, Forall is_u8 l → Forall is_u8 (tl l)) by (intros l Hl; by destruct Hl).
  constructor; [destruct Ht; [unfold is_u8; cbn; lia|done]|]. destruct (_ =? 0); [apply zero_fill_u8|apply IH]; auto.
Qed.

Lemma cstring_strncpy n : ∀ s t, take n (cstring (strncpy s t n)) = take n (cstring t).
Proof.
  induction n as [|n IH]; intros s t; [done|]. cbn [strncpy]. cbv zeta. destruct t as [|c t]; [done|]. cbn [hd tl cstring].
  destruct (Z.eqb_spec c 0) as [->|Hc]; [done|]. cbn [take]. by rewrite IH.
Qed.

Lemma dirent_inum n name : 0 ≤ n < 2 ^ 16 → de_inum (dirent n name) = n.
Proof. intros Hn. unfold de_inum, get_u16, dirent. by rewrite sub_here, le_decode_encode. Qed.

Lemma dirent_name n name : de_name (dirent n name) = strncpy (replicate DIRSIZ 0) name DIRSIZ.
Proof.
  unfold de_name, dirent. rewrite (sub_skip 2) by (done || lia). apply take_ge. rewrite length_strncpy'; by rewrite length_replicate.
Qed.

Definition same_name (p q : list Z) : Prop := take DIRSIZ (cstring p) = take DIRSIZ (cstring q).

Lemma dirent_matches n name p :
  0 < n < 2 ^ 16 → Forall is_u8 name → Forall is_u8 p → entry_matches p (dirent n name) = true ↔ same_name p name.
Proof.
  intros Hn Hu Hp. unfold entry_matches. rewrite dirent_inum, dirent_name by lia. rewrite (proj2 (Z.eqb_neq n 0)) by lia. cbn [negb andb].
  assert (Hz : Forall is_u8 (replicate DIRSIZ 0)) by (unfold DIRSIZ; repeat constructor; unfold is_u8; lia).
  rewrite Z.eqb_eq. unfold namecmp. rewrite strncmp_eq by (done || by apply strncpy_u8). by rewrite cstring_strncpy.
Qed.

(** The entries as numbers and names. *)
Fixpoint numbered (n : Z) (fs : list hfile) : list (Z * list Z) :=
  match fs with
  | [] => []
  | f :: fs' => (n, fname f) :: numbered (n + 1) fs'
  end.
Definition root_names (files : list hfile) : list (Z * list Z) := (1, bytes ".") :: (1, bytes "..") :: numbered 2 files.

Lemma root_entries_names files : root_entries files = map (λ p, dirent p.1 p.2) (root_names files).
Proof.
  unfold root_entries, root_names. cbn [map fst snd]. do 2 f_equal. generalize 2.
  induction files as [|f fs IH]; intros n; [done|]. cbn [entry_list numbered map]. by rewrite IH.
Qed.

Lemma numbered_lookup files : ∀ n i f, files !! i = Some f → numbered n files !! i = Some (n + Z.of_nat i, fname f).
Proof.
  induction files as [|g fs IH]; intros n [|i] f Hf; try done.
  - injection Hf as ->. cbn. do 2 f_equal. lia.
  - change (numbered (n + 1) fs !! i = Some (n + Z.of_nat (S i), fname f)). rewrite (IH (n + 1) i f Hf). do 2 f_equal. lia.
Qed.

Lemma length_numbered n files : length (numbered n files) = length files.
Proof. revert n. induction files as [|f fs IH]; intros n; cbn; [done|]. by rewrite IH. Qed.

Lemma numbered_names n files : map snd (numbered n files) = map fname files.
Proof. revert n. induction files as [|f fs IH]; intros n; cbn; [done|]. f_equal. apply IH. Qed.

Lemma numbered_bounds n files x : x ∈ numbered n files → n ≤ x.1 < n + Z.of_nat (length files).
Proof.
  revert n. induction files as [|f fs IH]; intros n; cbn [numbered length]; [by intros ?%elem_of_nil|].
  intros [->|Hx]%elem_of_cons; [cbn; lia|]. specialize (IH _ Hx). lia.
Qed.

(** A search among entries with different names, followed by unused ones. *)
Lemma search_names ps i n name p l :
  ps !! i = Some (n, name) → (∀ x, x ∈ ps → 0 < x.1 < 2 ^ 16 ∧ Forall is_u8 x.2) → Forall is_u8 p →
  (∀ j x, (j < i)%nat → ps !! j = Some x → ¬ same_name p x.2) → same_name p name →
  search p (map (λ x, dirent x.1 x.2) ps ++ l) = Some n.
Proof.
  intros Hi Hps Hp Hne Hs. unfold search. revert i Hi Hne. induction ps as [|[n' nm] ps IH]; intros i Hi Hne; [done|].
  destruct (Hps (n', nm) ltac:(left)) as [Hn' Hu']. cbn [fst snd] in *. cbn [map app List.find fst snd].
  pose proof (dirent_matches n' nm p Hn' Hu' Hp) as Hm. destruct i as [|i]; cbn [lookup list_lookup] in Hi.
  - injection Hi as -> ->. rewrite (proj2 Hm Hs). change (Some (de_inum (dirent n name)) = Some n). by rewrite dirent_inum by lia.
  - destruct (entry_matches p (dirent n' nm)) eqn:He; [destruct (Hne 0%nat (n', nm) ltac:(lia) eq_refl); by apply Hm|].
    apply (IH ltac:(intros x Hx; apply Hps; by right) i Hi). intros j x Hj Hx. apply (Hne (S j) x); [lia|done].
Qed.

Lemma concat_entries_sub (es : list (list Z)) : (∀ e, e ∈ es → length e = 16%nat) → ∀ k e z,
  es !! k = Some e → sub (16 * k) 16 (concat es ++ z) = e.
Proof.
  intros Hes k e z. revert k. induction es as [|x es IH]; intros [|k] Hk; try done; cbn [concat].
  - injection Hk as ->. rewrite Nat.mul_0_r, <- app_assoc. apply sub_here. apply Hes. by left.
  - assert (Hx : length x = 16%nat) by (apply Hes; by left). rewrite <- app_assoc, (sub_skip 16) by (done || lia).
    replace (16 * S k - 16)%nat with (16 * k)%nat by lia. apply IH; [|done]. intros y Hy. apply Hes. by right.
Qed.

(** The entries of a directory of the image are those appended, then unused ones. *)
Lemma dir_entries_image s g ty dev es z :
  image_ok s → laid s g → dlen g ≤ MAXFILE * BS → dlen g mod 1024 = 0 → (∀ e, e ∈ es → length e = 16%nat) →
  gdata g = concat es ++ z → ∃ l, dir_entries (image s) dev (mk_dinode ty 0 0 1 (dlen g) (gaddrs g)) = es ++ l.
Proof.
  intros Hi Hl Hsz Hmod Hes Hg. set (d := mk_dinode ty 0 0 1 (dlen g) (gaddrs g)).
  assert (Hlen : length (concat es) = (16 * length es)%nat).
  { clear Hg. induction es as [|e es IH]; [done|]. cbn [concat length]. rewrite length_app, IH by (intros y Hy; apply Hes; by right).
    rewrite (Hes e) by by left. lia. }
  assert (Hd : dlen g = 16 * Z.of_nat (length es) + Z.of_nat (length z)) by (unfold dlen; rewrite Hg, length_app, Hlen; lia).
  assert (Hn : Z.to_nat (dlen g / sizeof_dirent) = (length es + Z.to_nat (Z.of_nat (length z) / 16))%nat).
  { unfold sizeof_dirent. rewrite Hd. replace (16 * Z.of_nat (length es) + Z.of_nat (length z)) with (Z.of_nat (length z) + Z.of_nat (length es) * 16) by lia.
    rewrite Z.div_add by done. pose proof (Z.div_pos (Z.of_nat (length z)) 16 ltac:(lia) ltac:(lia)). lia. }
  unfold dir_entries. change (di_size d) with (dlen g). rewrite Hn, seq_app, map_app. eexists. f_equal.
  apply list_eq. intros k. rewrite lookup_map. destruct (es !! k) as [e|] eqn:Hk.
  - pose proof (lookup_lt_Some _ _ _ Hk) as Hkl. rewrite lookup_seq_lt by done. cbn [fmap option_map option_fmap Nat.add]. f_equal.
    unfold entry_at. set (off := Z.of_nat k * sizeof_dirent). assert (Hoff : off = 16 * Z.of_nat k) by (unfold off, sizeof_dirent; lia).
    rewrite <- (content_chunk (image s) dev d off 16); [|lia| |apply (io_len _ Hi)].
    + rewrite (content_image s g ty dev Hi Hl) by lia. rewrite Hg. replace (Z.to_nat off) with (16 * k)%nat by lia. by apply concat_entries_sub.
    + change BS with 1024. rewrite Hoff. clear. Z.div_mod_to_equations. lia.
  - apply lookup_ge_None_1 in Hk. by rewrite lookup_seq_ge by lia.
Qed.

Lemma NoDup_map_ne {A B} (f : A → B) l i j x y : NoDup (map f l) → l !! i = Some x → l !! j = Some y → i ≠ j → f x ≠ f y.
Proof.
  intros Hn Hx Hy Hij He. apply Hij. eapply (NoDup_lookup _ i j (f x) Hn); rewrite lookup_map; [by rewrite Hx|by rewrite Hy, He].
Qed.

Lemma fname_u8 f : Forall is_u8 f.1 → Forall is_u8 (fname f).
Proof.
  intros Hu. unfold fname, skip_underscore, shortname. assert (Hs : Forall is_u8 (if strncmp f.1 (bytes "user/") 5 =? 0 then drop 5 f.1 else f.1)).
  { destruct (_ =? 0); [by apply Forall_drop|done]. }
  destruct (hd 0 _ =? 95); [by destruct Hs|done].
Qed.

Lemma mkfs_dnode fs s i ty g : mkfs_inv fs s → fs !! i = Some (ty, g) →
  dnode_at (image s) mkfs_sb (ROOTDEV, Z.of_nat i + 1) = mk_dinode ty 0 0 1 (dlen g) (gaddrs g).
Proof. intros H Hi. exact (mi_node _ _ H i ty g Hi). Qed.

Lemma root_lookup (files : list hfile) k n name l :
  Forall (λ f, Forall is_u8 f.1) files → (length files ≤ 198)%nat →
  Forall (λ f, strlen (fname f) ≤ DIRSIZ)%nat files →
  NoDup (map cstring (bytes "." :: bytes ".." :: map fname files)) →
  root_names files !! k = Some (n, name) → search name (root_entries files ++ l) = Some n.
Proof.
  intros Hu Hlen Hs Hn Hk. rewrite root_entries_names.
  assert (Hnames : map cstring (bytes "." :: bytes ".." :: map fname files) = map (λ x, cstring x.2) (root_names files)).
  { unfold root_names. cbn [map snd]. do 2 f_equal. by rewrite <- (numbered_names 2), map_map. }
  assert (Hall : ∀ x, x ∈ root_names files → (0 < x.1 < 2 ^ 16 ∧ Forall is_u8 x.2) ∧ (length (cstring x.2) ≤ DIRSIZ)%nat).
  { intros x [->|[->|Hx]%elem_of_cons]%elem_of_cons; [split; [split; [done|apply Forall_bytes_u8]|apply Nat.leb_le; by vm_compute]..|].
    pose proof (numbered_bounds 2 files x Hx). assert (Hin : x.2 ∈ map fname files) by (rewrite <- (numbered_names 2); by apply list_elem_of_In, in_map, list_elem_of_In).
    apply list_elem_of_In, in_map_iff in Hin as (f & <- & Hf%list_elem_of_In). rewrite Forall_forall in Hu, Hs.
    split; [split; [lia|by apply fname_u8, Hu]|]. rewrite <- strlen_cstring. by apply Hs. }
  apply (search_names (root_names files) k n name name l Hk); [intros x Hx; by apply Hall| | |done].
  - by apply (Hall (n, name)), list_elem_of_lookup_2 with k.
  - intros j x Hj Hx Hsame. rewrite Hnames in Hn. eapply (NoDup_map_ne (λ x, cstring x.2) _ j k x (n, name) Hn Hx Hk); [lia|].
    unfold same_name in Hsame. assert (Hx2 : x ∈ root_names files) by by eapply list_elem_of_lookup_2.
    assert (Hk2 : (n, name) ∈ root_names files) by by eapply list_elem_of_lookup_2.
    rewrite !take_ge in Hsame; [done|by apply Hall|]. by apply (Hall (n, name)).
Qed.

(** C40: on a list of at most 198 host files with different names that fit on the disk, such that
    with "." and ".." the entries of the root do not fill its blocks exactly (their number is no
    multiple of 64; else the root has a hole at its end, [root_hole]), mkfs succeeds, and the kernel
    finds on the image: the super block, an empty log, a well-formed root directory, and under each
    file's name an inode with the file's bytes in blocks of its own, marked in the bitmap and shared
    with no other inode. *)
Theorem mkfs_image host_open (files : list hfile) :
  let n := Z.of_nat (length files) in
  Forall (fine host_open) files → Forall (λ f, Forall is_u8 f.1) files →
  NoDup (map cstring (bytes "." :: bytes ".." :: map fname files)) →
  (length files ≤ 198)%nat → (n + 2) mod 64 ≠ 0 → nmeta + sectors (16 * (n + 2)) + all_sectors files ≤ FSSIZE →
  ∃ s, mkfs_main host_open files.*1 mkfs0 = Done ((), s) ∧
    let v := image s in let node m := dnode_at v mkfs_sb (ROOTDEV, m) in
    parse_sb (v (ROOTDEV, 1)) = mkfs_sb ∧ hdr_n (v (ROOTDEV, logstart mkfs_sb)) = 0 ∧ dir_ok v ROOTDEV (node ROOTINO) ∧
    dlookup v ROOTDEV (node ROOTINO) (bytes ".") = Some ROOTINO ∧ dlookup v ROOTDEV (node ROOTINO) (bytes "..") = Some ROOTINO ∧
    (∀ i f, files !! i = Some f → let m := 2 + Z.of_nat i in
      dlookup v ROOTDEV (node ROOTINO) (fname f) = Some m ∧
      di_type (node m) = T_FILE ∧ di_nlink (node m) = 1 ∧ di_size (node m) = flen f ∧
      own_blocks ROOTDEV (logstart mkfs_sb) v mkfs_sb (node m) ∧
      content v ROOTDEV (node m) 0 (length (fcontent f)) = fcontent f) ∧
    ∀ m off, 1 ≤ m ≤ n + 1 → 0 ≤ off < di_size (node m) → let b := file_block v ROOTDEV (node m) off in
      bit_free b (v (ROOTDEV, BBLOCK b mkfs_sb)) = false ∧
      ∀ m' off', 1 ≤ m' ≤ n + 1 → 0 ≤ off' < di_size (node m') → file_block v ROOTDEV (node m') off' = b → m' = m.
Proof.
  intros n Hf Hu Hn Hlen Hmod Hroom.
  destruct (mkfs_main_run host_open files Hf Hlen Hmod Hroom) as (s & r & gs & z & E & H & Dr & Mr & G & B).
  exists s. split; [exact E|]. intros v node. pose proof (mi_ok _ _ H) as Hi.
  destruct (mi_laid _ _ H 0 T_DIR r eq_refl) as (Lr & Tr & Sr).
  assert (Hroot : node ROOTINO = mk_dinode T_DIR 0 0 1 (dlen r) (gaddrs r)) by exact (mkfs_dnode _ s 0 T_DIR r H eq_refl).
  assert (Hes : ∀ e, e ∈ root_entries files → length e = 16%nat).
  { rewrite root_entries_names. intros e He. apply list_elem_of_In, in_map_iff in He as (x & <- & _). apply length_dirent. }
  destruct (dir_entries_image s r T_DIR ROOTDEV (root_entries files) _ Hi Lr Sr Mr Hes Dr) as [l Hl]. change (image s) with v in Hl.
  assert (Hname : Forall (λ f, strlen (fname f) ≤ DIRSIZ)%nat files) by (eapply Forall_impl; [exact Hf|by intros f []]).
  assert (Hlook : ∀ k m name, root_names files !! k = Some (m, name) → dlookup v ROOTDEV (node ROOTINO) name = Some m).
  { intros k m name Hk. unfold dlookup. rewrite Hroot, Hl. by apply (root_lookup files k). }
  pose proof (Forall2_length _ _ _ G) as Hgl.
  split_and!.
  - change (v (ROOTDEV, 1)) with (V s 1). rewrite (mi_low _ _ H) by lia. by vm_compute.
  - change (v (ROOTDEV, logstart mkfs_sb)) with (V s 2). rewrite (mi_low _ _ H) by lia. by vm_compute.
  - rewrite Hroot. split; [done|by apply no_holes_image|]. cbn [di_size]. unfold sizeof_dirent. clear -Mr. Z.div_mod_to_equations. lia.
  - by apply (Hlook 0%nat).
  - by apply (Hlook 1%nat).
  - intros i f Hif m. destruct (Forall2_lookup_l _ _ _ _ _ G Hif) as ([ty g] & Hg & Hty & Hd). cbn [fst snd] in Hty, Hd. subst ty.
    destruct (mi_laid _ _ H (S i) T_FILE g Hg) as (L & T & S).
    assert (Hm : node m = mk_dinode T_FILE 0 0 1 (dlen g) (gaddrs g)).
    { pose proof (mkfs_dnode _ s (Datatypes.S i) T_FILE g H Hg) as Hx. unfold node, m. rewrite <- Hx. do 2 f_equal. lia. }
    assert (Hfl : dlen g = flen f) by (unfold dlen, flen; by rewrite Hd). rewrite Hm. cbn [di_type di_nlink di_size].
    split_and!; [|reflexivity|reflexivity|exact Hfl| |].
    + apply (Hlook (Datatypes.S (Datatypes.S i))). change (numbered 2 files !! i = Some (m, fname f)). by apply numbered_lookup.
    + by apply own_blocks_image.
    + rewrite (content_image s g T_FILE ROOTDEV Hi L) by (unfold flen in Hfl; lia). rewrite Hd. by apply take_ge.
  - assert (Hnodes : ∀ m, 1 ≤ m ≤ n + 1 → ∃ ty g, ((T_DIR, r) :: gs) !! Z.to_nat (m - 1) = Some (ty, g) ∧
      node m = mk_dinode ty 0 0 1 (dlen g) (gaddrs g)).
    { intros m Hm. destruct (lookup_lt_is_Some_2 ((T_DIR, r) :: gs) (Z.to_nat (m - 1))) as [[ty g] Hg]; [cbn [length]; unfold n in *; lia|].
      exists ty, g. split; [done|]. rewrite <- (mkfs_dnode _ s _ ty g H Hg). unfold node. do 2 f_equal. lia. }
    intros m off Hm Ho b. destruct (Hnodes m Hm) as (ty & g & Hg & Hd). destruct (mi_laid _ _ H _ _ _ Hg) as (L & T & S).
    rewrite Hd in Ho. cbn [di_size] in Ho. assert (Hb : b = nth (Z.to_nat (off / BS)) (gblocks g) 0) by (unfold b; rewrite Hd; by apply file_block_image).
    assert (Hbo : b ∈ own g) by (rewrite Hb; by apply (blk_own s)). pose proof (own_range s g b L Hbo) as Hr.
    pose proof (io_free _ Hi) as Hfr. change nmeta with 47 in *. change FSSIZE with 2000 in *. split.
    + assert (Hbb : BBLOCK b mkfs_sb = 46).
      { unfold BBLOCK. change (bmapstart mkfs_sb) with 46. rewrite Z.div_small by (change BPB with 8192; lia). done. }
      rewrite Hbb. change (v (ROOTDEV, 46)) with (V s 46). rewrite B by lia. apply Z.leb_gt. lia.
    + intros m' off' Hm' Ho' He. destruct (Hnodes m' Hm') as (ty' & g' & Hg' & Hd'). destruct (mi_laid _ _ H _ _ _ Hg') as (L' & T' & S').
      rewrite Hd' in Ho', He. cbn [di_size] in Ho'. unfold v in He. rewrite (file_block_image s g' ty' ROOTDEV Hi L') in He by done.
      assert (Hx : Z.to_nat (m' - 1) = Z.to_nat (m - 1)); [|lia].
      eapply (mi_own _ _ H _ _ _ _ b Hg' Hg); [|done]. rewrite <- He. by apply (blk_own s).
Qed.

Definition demo_host (path : list Z) : option (list (list Z)) := Some [path; bytes "hello"].
Definition demo_files : list hfile :=
  [(bytes "README", [bytes "README"; bytes "hello"]); (bytes "user/_cat", [bytes "user/_cat"; bytes "hello"])].

Lemma mkfs_image_witness :
  ∃ s, mkfs_main demo_host [bytes "README"; bytes "user/_cat"] mkfs0 = Done ((), s) ∧
    let node m := dnode_at (image s) mkfs_sb (ROOTDEV, m) in
    dlookup (image s) ROOTDEV (node 1) (bytes "cat") = Some 3 ∧
    content (image s) ROOTDEV (node 3) 0 14 = bytes "user/_cathello".
Proof.
  destruct (mkfs_image demo_host demo_files) as (s & E & _ & _ & _ & _ & _ & H & _).
  - repeat constructor; try (by vm_compute); by apply Nat.leb_le.
  - by repeat (apply Forall_cons_2; [apply Forall_bytes_u8|]).
  - by apply (bool_decide_unpack (NoDup _)); vm_compute.
  - cbn. lia.
  - by vm_compute.
  - by vm_compute.
  - exists s. split; [exact E|]. destruct (H 1%nat _ eq_refl) as (H1 & _ & _ & _ & _ & H2). split; [exact H1|exact H2].
Defined.

(** With 62 files (or 126, 190) the root directory fills its blocks exactly, and the rounding adds a
    block's worth of bytes without the block: the size of the root covers a hole.  A read of the
    directory allocates the block in [bmap], outside any transaction. *)
Definition letters_file (i : nat) : hfile := ([97 + Z.of_nat (i / 26); 97 + Z.of_nat (i mod 26)], []).

Example root_hole :
  match mkfs_main (λ _, Some []) (map fst (map letters_file (seq 0 62))) mkfs0 with
  | Done (_, s) => let root := dnode_at (image s) mkfs_sb (ROOTDEV, ROOTINO) in
      di_size root = 2048 ∧ file_block (image s) ROOTDEV root 1024 = 0
  | _ => False
  end.
Proof. vm_compute. by split. Qed.
