(* ===== verification/File.v ===== *)
(** * kernel/file.c and pipealloc of kernel/pipe.c: open files

    [fstate] is the file system, the table of open files, the pipes (by the
    address of their page), the page allocator and the devices.  A [struct file]
    pointer is its index in [ftable].  The process's memory is a [umem]: which
    ranges [copyout] can store to, and what [copyin] finds.  A read or write
    that goes to sleep in a pipe or a device says how far it got ([pres]); a
    sleep on an inode or on the log is [Blocks].  [woken] is history: the channels
    of pipes that were woken, in order. *)

From S2P Require Import Prelude CString Effect Printf Proc Locks Kalloc Pipe Bio Log Fs.

Local Open Scope Z_scope.

Definition NFILE : nat := 100.
Definition NDEV : Z := 10.
#[global] Arguments NFILE : simpl never.

Inductive fdtype := FD_NONE | FD_PIPE | FD_INODE | FD_DEVICE.

#[export] Instance fdtype_eq_dec : EqDecision fdtype.
Proof. solve_decision. Defined.

(** [fpipe] is 0 and [fip] [None] for a null pointer. *)
Record file := mk_file {
  ftype : fdtype; fref : Z; readable : Z; writable : Z; fpipe : Z; fip : option nat; foff : Z; fmajor : Z;
}.

Definition file0 : file := mk_file FD_NONE 0 0 0 0 None 0 0.

(** User memory as the copying functions see it: whether [n] bytes can be stored at
    [a], and the bytes found at [a] with whether all [n] were there. *)
Record umem := mk_umem { um_out : Z → Z → bool; um_in : Z → Z → list Z * bool }.

(** [copyin] of one byte. *)
Definition um_byte (u : umem) (a : Z) : option Z :=
  match um_in u a 1 with
  | (c :: _, true) => Some c
  | _ => None
  end.

(** The device switch: what [read] and [write] of a major number do with an address and a
    count, if they are there; a read gives the bytes it stores. *)
Class Devices (D : Type) := {
  dev_read : Z → option (umem → Z → Z → D → pres * list Z * D);
  dev_write : Z → option (umem → Z → Z → D → pres * D);
}.

Record fstate (D : Type) := mk_fst {
  ffs : fsys; ftable : list file; pipes : gmap Z pipe; fmem : kmem; fdev : D; woken : list (Z * pwake);
}.
Arguments mk_fst {D}.
Arguments ffs {D}.
Arguments ftable {D}.
Arguments pipes {D}.
Arguments fmem {D}.
Arguments fdev {D}.
Arguments woken {D}.

Section file.
Context `{Devices D} (kend me : Z).
Implicit Types s : fstate D.

Definition set_ffs (x : fsys) s : fstate D := mk_fst x (ftable s) (pipes s) (fmem s) (fdev s) (woken s).
Definition set_ftable (t : list file) s : fstate D := mk_fst (ffs s) t (pipes s) (fmem s) (fdev s) (woken s).
Definition set_pipes (p : gmap Z pipe) s : fstate D := mk_fst (ffs s) (ftable s) p (fmem s) (fdev s) (woken s).
Definition set_fmem (m : kmem) s : fstate D := mk_fst (ffs s) (ftable s) (pipes s) m (fdev s) (woken s).
Definition set_fdev (d : D) s : fstate D := mk_fst (ffs s) (ftable s) (pipes s) (fmem s) d (woken s).
Definition wake (pa : Z) (w : pwake) s : fstate D :=
  mk_fst (ffs s) (ftable s) (pipes s) (fmem s) (fdev s) (woken s ++ [(pa, w)]).

Definition on_fs {A} (m : M fsys A) : M (fstate D) A := zoom ffs set_ffs m.

Definition f_ref (n : Z) (f : file) : file :=
  mk_file (ftype f) n (readable f) (writable f) (fpipe f) (fip f) (foff f) (fmajor f).
Definition f_none (f : file) : file :=
  mk_file FD_NONE 0 (readable f) (writable f) (fpipe f) (fip f) (foff f) (fmajor f).
Definition f_off (n : Z) (f : file) : file :=
  mk_file (ftype f) (fref f) (readable f) (writable f) (fpipe f) (fip f) n (fmajor f).
Definition f_end (r w pa : Z) (f : file) : file := mk_file FD_PIPE (fref f) r w pa (fip f) (foff f) (fmajor f).

Definition get_file (i : nat) : M (fstate D) file := f ← gets (λ s, ftable s !! i); deref f.
Definition upd_file (i : nat) (g : file → file) : M (fstate D) () := modify (λ s, set_ftable (alter g i (ftable s)) s).

Definition filealloc : M (fstate D) (option nat) := λ s,
  match find_index (λ f, fref f =? 0) (ftable s) with
  | Some i => Done (Some i, set_ftable (alter (f_ref 1) i (ftable s)) s)
  | None => Done (None, s)
  end.

Definition filedup (i : nat) : M (fstate D) nat :=
  f ← get_file i;
  if fref f <? 1 then panics
  else upd_file i (f_ref (s32 (fref f + 1)));; mret i.

(** [kalloc] and [kfree] *)
Definition page_alloc : M (fstate D) Z := λ s, let '(pa, m) := Kalloc.kalloc (fmem s) in Done (pa, set_fmem m s).
Definition page_free (pa : Z) : M (fstate D) () := λ s,
  match Kalloc.kfree kend pa (fmem s) with
  | Ok m => Done ((), set_fmem m s)
  | Panic => Panics
  end.

Definition get_pipe (pa : Z) : M (fstate D) pipe := p ← gets (λ s, pipes s !! pa); deref p.

Definition close_pipe (pa writable : Z) : M (fstate D) () :=
  pi ← get_pipe pa;
  let '(pi, w, dead) := pipeclose (negb (writable =? 0)) pi in
  modify (wake pa w);;
  if (dead : bool) then modify (λ s, set_pipes (delete pa (pipes s)) s);; page_free pa
  else modify (λ s, set_pipes (<[pa := pi]> (pipes s)) s).

Definition fileclose (i : nat) : M (fstate D) () :=
  f ← get_file i;
  if fref f <? 1 then panics
  else
    upd_file i (f_ref (fref f - 1));;
    if 0 <? fref f - 1 then mret ()
    else
      upd_file i f_none;;
      match ftype f with
      | FD_PIPE => close_pipe (fpipe f) (writable f)
      | FD_INODE | FD_DEVICE =>
          ip ← deref (fip f);
          on_fs (on_log begin_op);;
          on_fs (iput me ip);;
          on_fs (on_log (end_op me))
      | FD_NONE => mret ()
      end.

(** The [struct stat] for [copyout]: 24 bytes with the padding after the third field. *)
Definition stat_bytes (st : stat) : list Z :=
  le_encode 4 (u32 (st_dev st)) ++ le_encode 4 (st_ino st) ++ le_encode 2 (u16 (st_type st)) ++
  le_encode 2 (u16 (st_nlink st)) ++ replicate 4 0 ++ le_encode 8 (st_size st).

(** The value returned and the bytes stored at [addr]. *)
Definition filestat (u : umem) (i : nat) (addr : Z) : M (fstate D) (Z * list Z) :=
  f ← get_file i;
  match ftype f with
  | FD_INODE | FD_DEVICE =>
      ip ← deref (fip f);
      on_fs (ilock me ip);;
      st ← on_fs (stati ip);
      on_fs (iunlock me ip);;
      if um_out u addr 24 then mret (0, stat_bytes st) else mret (-1, [])
  | _ => mret (-1, [])
  end.

(** The value and the bytes stored at [addr] and up. *)
Definition fileread (u : umem) (killed : bool) (i : nat) (addr n : Z) : M (fstate D) (pres * list Z) :=
  f ← get_file i;
  if readable f =? 0 then mret (PRet (-1), [])
  else
    match ftype f with
    | FD_PIPE =>
        pi ← get_pipe (fpipe f);
        let '(r, l, w, pi) := piperead killed (λ k, um_out u (u64 (addr + k)) 1) n pi in
        modify (wake (fpipe f) w);;
        modify (λ s, set_pipes (<[fpipe f := pi]> (pipes s)) s);;
        mret (r, l)
    | FD_DEVICE =>
        if (fmajor f <? 0) || (NDEV <=? fmajor f) then mret (PRet (-1), [])
        else
          match dev_read (fmajor f) with
          | None => mret (PRet (-1), [])
          | Some rd => λ s, let '(r, l, d) := rd u addr n (fdev s) in Done ((r, l), set_fdev d s)
          end
    | FD_INODE =>
        ip ← deref (fip f);
        on_fs (ilock me ip);;
        '(r, l) ← on_fs (readi me (λ a c, um_out u a (Z.of_nat (length c))) ip addr (foff f) (u32 n));
        when (0 <? r) (upd_file i (f_off (u32 (foff f + r))));;
        on_fs (iunlock me ip);;
        mret (PRet r, l)
    | FD_NONE => panics
    end.

(** [max]: what one transaction has room for. *)
Definition write_max : Z := (MAXOPBLOCKS - 1 - 1 - 2) / 2 * Z.of_nat BSIZE.

(** The loop of [filewrite], [k] bytes done. *)
Fixpoint write_txns (fuel : nat) (u : umem) (i : nat) (addr k n : Z) : M (fstate D) Z :=
  match fuel with
  | O => mret k
  | S fuel' =>
      if k <? n then
        let n1 := if write_max <? n - k then write_max else n - k in
        f ← get_file i;
        ip ← deref (fip f);
        on_fs (on_log begin_op);;
        on_fs (ilock me ip);;
        r ← on_fs (writei me (um_in u) ip (u64 (addr + k)) (foff f) n1);
        when (0 <? r) (upd_file i (f_off (u32 (foff f + r))));;
        on_fs (iunlock me ip);;
        on_fs (on_log (end_op me));;
        if negb (r =? n1) then mret k else write_txns fuel' u i addr (k + r) n
      else mret k
  end.

Definition filewrite (u : umem) (killed : bool) (i : nat) (addr n : Z) : M (fstate D) pres :=
  f ← get_file i;
  if writable f =? 0 then mret (PRet (-1))
  else
    match ftype f with
    | FD_PIPE =>
        pi ← get_pipe (fpipe f);
        let '(r, w, pi) := pipewrite killed (λ k, um_byte u (u64 (addr + k))) n pi in
        modify (wake (fpipe f) w);;
        modify (λ s, set_pipes (<[fpipe f := pi]> (pipes s)) s);;
        mret r
    | FD_DEVICE =>
        if (fmajor f <? 0) || (NDEV <=? fmajor f) then mret (PRet (-1))
        else
          match dev_write (fmajor f) with
          | None => mret (PRet (-1))
          | Some wr => λ s, let '(r, d) := wr u addr n (fdev s) in Done (r, set_fdev d s)
          end
    | FD_INODE =>
        k ← write_txns (Z.to_nat n) u i addr 0 n;
        mret (PRet (if k =? n then n else -1))
    | FD_NONE => panics
    end.

(** The read and the write end. *)
Definition pipealloc : M (fstate D) (option (nat * nat)) :=
  f0 ← filealloc;
  match f0 with
  | None => mret None
  | Some f0 =>
      f1 ← filealloc;
      match f1 with
      | None => fileclose f0;; mret None
      | Some f1 =>
          pa ← page_alloc;
          if pa =? 0 then fileclose f0;; fileclose f1;; mret None
          else
            page ← gets (λ s, default [] (pages (fmem s) !! pa));
            modify (λ s, set_pipes (<[pa := pipe_init (take 512 (drop 24 page))]> (pipes s)) s);;
            upd_file f0 (f_end 1 0 pa);;
            upd_file f1 (f_end 0 1 pa);;
            mret (Some (f0, f1))
      end
  end.
End file.
