(* ===== verification/Sysfile.v ===== *)
(** * kernel/sysfile.c: the file system calls

    A handler runs in a process [fproc] on the state of file.c.  The arguments are
    what [argint] and [argaddr] give; a path is what [argstr] gives: its bytes, or
    [None] when it cannot be read.  The result is the value for a0 as an [int]; reads
    and writes may leave the process asleep ([pres]). *)

From S2P Require Import Prelude CString Effect Printf Proc Locks Kalloc Pipe Bio Log Fs File.

Local Open Scope Z_scope.

Definition O_RDONLY : Z := 0x000.
Definition O_WRONLY : Z := 0x001.
Definition O_RDWR : Z := 0x002.
Definition O_CREATE : Z := 0x200.
Definition O_TRUNC : Z := 0x400.
Definition NOFILE : Z := 16.

(** What the handlers use of [struct proc]. *)
Record fproc := mk_fproc { pofile : list (option nat); pcwd : nat; pjail : option nat; pagent : Z }.

Record sysf (D : Type) := mk_sysf { sfs : fstate D; sproc : fproc }.
Arguments mk_sysf {D}.
Arguments sfs {D}.
Arguments sproc {D}.

Definition pctx_of (p : fproc) : option pctx := Some (mk_pctx (pagent p) (pjail p) (pcwd p)).

Section fs_level.
Context (me : Z) (pr : option pctx).

(** [create] returns with the inode locked. *)
Definition create_fail (ip dp : nat) : M fsys (option nat) :=
  upd_inode ip (set_inlink 0);;
  iupdate me ip;;
  iunlockput me ip;;
  iunlockput me dp;;
  mret None.

(** [dirlink(ip, ".", ...) < 0 || dirlink(ip, "..", ...) < 0]; the second only if the first works. *)
Definition link_dots (ip : nat) (n parent : Z) : M fsys bool :=
  r ← dirlink me ip (bytes ".") n;
  if r <? 0 then mret false
  else r ← dirlink me ip (bytes "..") parent; mret (negb (r <? 0)).

Definition create (path : list Z) (type major minor : Z) : M fsys (option nat) :=
  '(dp, name) ← nameiparent me pr path (replicate DIRSIZ 0);
  match dp with
  | None => mret None
  | Some dp =>
      ilock me dp;;
      found ← dirlookup me dp name;
      match found with
      | Some (ip, _) =>
          iunlockput me dp;;
          ilock me ip;;
          i ← get_inode ip;
          if (type =? T_FILE) && ((itype i =? T_FILE) || (itype i =? T_DEVICE)) then mret (Some ip)
          else iunlockput me ip;; mret None
      | None =>
          d ← get_inode dp;
          new ← ialloc me (idev d) type;
          match new with
          | None => iunlockput me dp;; mret None
          | Some ip =>
              ilock me ip;;
              upd_inode ip (λ i, set_inlink 1 (set_idevs (s16 major) (s16 minor) i));;
              iupdate me ip;;
              i ← get_inode ip;
              d ← get_inode dp;
              ok ← (if type =? T_DIR then link_dots ip (inum i) (inum d) else mret true);
              if negb ok then create_fail ip dp
              else
                r ← dirlink me dp name (inum i);
                if r <? 0 then create_fail ip dp
                else
                  when (type =? T_DIR) (
                    upd_inode dp (λ d, set_inlink (s16 (inlink d + 1)) d);;
                    iupdate me dp);;
                  iunlockput me dp;;
                  mret (Some ip)
          end
      end
  end.

(** The [bad] label of [sys_link]. *)
Definition unlink_back (ip : nat) : M fsys Z :=
  ilock me ip;;
  upd_inode ip (λ i, set_inlink (s16 (inlink i - 1)) i);;
  iupdate me ip;;
  iunlockput me ip;;
  on_log (end_op me);;
  mret (-1).

Definition sys_link (old new : option (list Z)) : M fsys Z :=
  match old, new with
  | Some old, Some new =>
      on_log begin_op;;
      ip ← namei me pr old;
      match ip with
      | None => on_log (end_op me);; mret (-1)
      | Some ip =>
          ilock me ip;;
          i ← get_inode ip;
          if itype i =? T_DIR then iunlockput me ip;; on_log (end_op me);; mret (-1)
          else
            upd_inode ip (λ i, set_inlink (s16 (inlink i + 1)) i);;
            iupdate me ip;;
            iunlock me ip;;
            '(dp, name) ← nameiparent me pr new (replicate DIRSIZ 0);
            match dp with
            | None => unlink_back ip
            | Some dp =>
                ilock me dp;;
                d ← get_inode dp;
                i ← get_inode ip;
                r ← (if negb (idev d =? idev i) then mret (-1) else dirlink me dp name (inum i));
                if r <? 0 then iunlockput me dp;; unlink_back ip
                else
                  iunlockput me dp;;
                  iput me ip;;
                  on_log (end_op me);;
                  mret 0
            end
      end
  | _, _ => mret (-1)
  end.

(** [isdirempty] from offset [off]. *)
Fixpoint isdirempty_loop (fuel : nat) (dp : nat) (off : Z) : M fsys bool :=
  match fuel with
  | O => mret true
  | S fuel' =>
      i ← get_inode dp;
      if off <? isize i then
        de ← read_dirent me dp off;
        if negb (de_inum de =? 0) then mret false else isdirempty_loop fuel' dp (off + sizeof_dirent)
      else mret true
  end.

Definition isdirempty (dp : nat) : M fsys bool :=
  i ← get_inode dp; isdirempty_loop (S (Z.to_nat (isize i / sizeof_dirent))) dp (2 * sizeof_dirent).

(** The [bad] label of [sys_unlink]. *)
Definition unlink_bad (dp : nat) : M fsys Z := iunlockput me dp;; on_log (end_op me);; mret (-1).

(** The entry at [off] erased and the link dropped. *)
Definition unlink_entry (dp ip : nat) (off : Z) : M fsys Z :=
  w ← writei me (λ _ _, (replicate 16 0, true)) dp 0 off sizeof_dirent;
  if negb (w =? sizeof_dirent) then panics
  else
    i ← get_inode ip;
    when (itype i =? T_DIR) (
      upd_inode dp (λ d, set_inlink (s16 (inlink d - 1)) d);;
      iupdate me dp);;
    iunlockput me dp;;
    upd_inode ip (λ i, set_inlink (s16 (inlink i - 1)) i);;
    iupdate me ip;;
    iunlockput me ip;;
    on_log (end_op me);;
    mret 0.

Definition sys_unlink (path : option (list Z)) : M fsys Z :=
  match path with
  | None => mret (-1)
  | Some path =>
      on_log begin_op;;
      '(dp, name) ← nameiparent me pr path (replicate DIRSIZ 0);
      match dp with
      | None => on_log (end_op me);; mret (-1)
      | Some dp =>
          ilock me dp;;
          if (namecmp name (bytes ".") =? 0) || (namecmp name (bytes "..") =? 0) then unlink_bad dp
          else
            found ← dirlookup me dp name;
            match found with
            | None => unlink_bad dp
            | Some (ip, off) =>
                ilock me ip;;
                i ← get_inode ip;
                if inlink i <? 1 then panics
                else
                  empty ← (if itype i =? T_DIR then isdirempty ip else mret true);
                  if negb empty then iunlockput me ip;; unlink_bad dp
                  else unlink_entry dp ip off
            end
      end
  end.

(** [sys_mkdir] and [sys_mknod] *)
Definition make (path : option (list Z)) (type major minor : Z) : M fsys Z :=
  on_log begin_op;;
  ip ← match path with
       | Some path => create path type major minor
       | None => mret None
       end;
  match ip with
  | None => on_log (end_op me);; mret (-1)
  | Some ip => iunlockput me ip;; on_log (end_op me);; mret 0
  end.

Definition sys_mkdir (path : option (list Z)) : M fsys Z := make path T_DIR 0 0.
Definition sys_mknod (path : option (list Z)) (major minor : Z) : M fsys Z := make path T_DEVICE major minor.

(** The directory [sys_chdir] and [sys_jail] move to, unlocked and with a reference; [None]
    after the transaction is over. *)
Definition dir_of (path : option (list Z)) : M fsys (option nat) :=
  on_log begin_op;;
  ip ← match path with
       | Some path => namei me pr path
       | None => mret None
       end;
  match ip with
  | None => on_log (end_op me);; mret None
  | Some ip =>
      ilock me ip;;
      i ← get_inode ip;
      if negb (itype i =? T_DIR) then iunlockput me ip;; on_log (end_op me);; mret None
      else iunlock me ip;; mret (Some ip)
  end.

(** [sys_open] up to the file: the inode, locked; the transaction is still open then. *)
Definition open_inode (path : list Z) (omode : Z) : M fsys (option nat) :=
  ip ← (if negb (Z.land omode O_CREATE =? 0) then create path T_FILE 0 0
        else
          ip ← namei me pr path;
          match ip with
          | None => mret None
          | Some ip =>
              ilock me ip;;
              i ← get_inode ip;
              if (itype i =? T_DIR) && negb (omode =? O_RDONLY) then iunlockput me ip;; mret None
              else mret (Some ip)
          end);
  match ip with
  | None => on_log (end_op me);; mret None
  | Some ip =>
      i ← get_inode ip;
      if (itype i =? T_DEVICE) && ((imajor i <? 0) || (NDEV <=? imajor i))
      then iunlockput me ip;; on_log (end_op me);; mret None
      else mret (Some ip)
  end.
End fs_level.

Section sysfile.
Context `{Devices D} (kend me : Z).
Implicit Types s : sysf D.

Definition set_sfs (x : fstate D) s : sysf D := mk_sysf x (sproc s).
Definition set_sproc (p : fproc) s : sysf D := mk_sysf (sfs s) p.
Definition onf {A} (m : M (fstate D) A) : M (sysf D) A := zoom sfs set_sfs m.

(** A computation on the file system in this process. *)
Definition infs {A} (m : option pctx → M fsys A) : M (sysf D) A :=
  p ← gets sproc; onf (on_fs (m (pctx_of p))).

Definition set_fd (fd : nat) (f : option nat) : M (sysf D) () := modify (λ s,
  set_sproc (mk_fproc (<[fd := f]> (pofile (sproc s))) (pcwd (sproc s)) (pjail (sproc s)) (pagent (sproc s))) s).

Definition argfd (fd : Z) : M (sysf D) (option nat) := gets (λ s,
  if (fd <? 0) || (NOFILE <=? fd) then None else default None (pofile (sproc s) !! Z.to_nat fd)).

Definition fdalloc (f : nat) : M (sysf D) Z := λ s,
  match find_index (λ o, match o with None => true | Some _ => false end) (pofile (sproc s)) with
  | Some fd => (set_fd fd (Some f);; mret (Z.of_nat fd)) s
  | None => Done (-1, s)
  end.

Definition sys_dup (fd : Z) : M (sysf D) Z :=
  f ← argfd fd;
  match f with
  | None => mret (-1)
  | Some f =>
      fd ← fdalloc f;
      if fd <? 0 then mret (-1) else onf (filedup f);; mret fd
  end.

Definition sys_read (u : umem) (killed : bool) (fd p n : Z) : M (sysf D) (pres * list Z) :=
  f ← argfd fd;
  match f with
  | None => mret (PRet (-1), [])
  | Some f => onf (fileread me u killed f p n)
  end.

Definition sys_write (u : umem) (killed : bool) (fd p n : Z) : M (sysf D) pres :=
  f ← argfd fd;
  match f with
  | None => mret (PRet (-1))
  | Some f => onf (filewrite me u killed f p n)
  end.

Definition sys_close (fd : Z) : M (sysf D) Z :=
  f ← argfd fd;
  match f with
  | None => mret (-1)
  | Some f => set_fd (Z.to_nat fd) None;; onf (fileclose kend me f);; mret 0
  end.

Definition sys_fstat (u : umem) (fd st : Z) : M (sysf D) (Z * list Z) :=
  f ← argfd fd;
  match f with
  | None => mret (-1, [])
  | Some f => onf (filestat me u f st)
  end.

(** The fields [sys_open] sets; the offset of a device's file stays what it was. *)
Definition f_open (i : inode) (ip : nat) (omode : Z) (f : file) : file :=
  let r := if Z.land omode O_WRONLY =? 0 then 1 else 0 in
  let w := if negb (Z.land omode O_WRONLY =? 0) || negb (Z.land omode O_RDWR =? 0) then 1 else 0 in
  if itype i =? T_DEVICE
  then mk_file FD_DEVICE (fref f) r w (fpipe f) (Some ip) (foff f) (imajor i)
  else mk_file FD_INODE (fref f) r w (fpipe f) (Some ip) 0 (fmajor f).

(** No file or no descriptor: the inode is given back. *)
Definition open_fail (f : option nat) (ip : nat) : M (sysf D) Z :=
  match f with Some f => onf (fileclose kend me f) | None => mret () end;;
  infs (λ _, iunlockput me ip);;
  infs (λ _, on_log (end_op me));;
  mret (-1).

Definition sys_open (path : option (list Z)) (omode : Z) : M (sysf D) Z :=
  match path with
  | None => mret (-1)
  | Some path =>
      infs (λ _, on_log begin_op);;
      ip ← infs (λ pr, open_inode me pr path omode);
      match ip with
      | None => mret (-1)
      | Some ip =>
          f ← onf filealloc;
          match f with
          | None => open_fail None ip
          | Some f =>
              fd ← fdalloc f;
              if fd <? 0 then open_fail (Some f) ip
              else
                i ← infs (λ _, get_inode ip);
                onf (upd_file f (f_open i ip omode));;
                infs (λ _, when (negb (Z.land omode O_TRUNC =? 0) && (itype i =? T_FILE)) (itrunc me ip));;
                infs (λ _, iunlock me ip);;
                infs (λ _, on_log (end_op me));;
                mret fd
          end
      end
  end.

Definition sys_chdir (path : option (list Z)) : M (sysf D) Z :=
  ip ← infs (λ pr, dir_of me pr path);
  match ip with
  | None => mret (-1)
  | Some ip =>
      p ← gets sproc;
      infs (λ _, iput me (pcwd p));;
      infs (λ _, on_log (end_op me));;
      modify (λ s, set_sproc (mk_fproc (pofile (sproc s)) ip (pjail (sproc s)) (pagent (sproc s))) s);;
      mret 0
  end.

Definition sys_jail (path : option (list Z)) : M (sysf D) Z :=
  ip ← infs (λ pr, dir_of me pr path);
  match ip with
  | None => mret (-1)
  | Some ip =>
      p ← gets sproc;
      infs (λ _, iput me (pcwd p));;
      infs (λ _, on_log (end_op me));;
      jr ← infs (λ _, idup ip);
      modify (λ s, set_sproc (mk_fproc (pofile (sproc s)) ip (Some jr) 1) s);;
      mret 0
  end.

(** The two files of [sys_pipe] are dropped. *)
Definition pipe_fail (rf wf : nat) : M (sysf D) Z :=
  onf (fileclose kend me rf);; onf (fileclose kend me wf);; mret (-1).

(** The value and the bytes stored at [fdarray]. *)
Definition sys_pipe (u : umem) (fdarray : Z) : M (sysf D) (Z * list Z) :=
  fs ← onf (pipealloc kend me);
  match fs with
  | None => mret (-1, [])
  | Some (rf, wf) =>
      fd0 ← fdalloc rf;
      if fd0 <? 0 then r ← pipe_fail rf wf; mret (r, [])
      else
        fd1 ← fdalloc wf;
        if fd1 <? 0 then set_fd (Z.to_nat fd0) None;; r ← pipe_fail rf wf; mret (r, [])
        else
          let ok0 := um_out u fdarray 4 in
          let ok1 := um_out u (u64 (fdarray + 4)) 4 in
          if negb (ok0 && ok1) then
            set_fd (Z.to_nat fd0) None;; set_fd (Z.to_nat fd1) None;;
            r ← pipe_fail rf wf; mret (r, if ok0 then le_encode 4 fd0 else [])
          else mret (0, le_encode 4 fd0 ++ le_encode 4 fd1)
  end.
End sysfile.
