(* ===== verification/Ftable.v ===== *)
(** * Open files: reference counts and pipe ends

    The invariant of the file table and the pipes that file.c and sysfile.c keep, and
    that every file system call preserves it: a file is counted once for each
    descriptor that refers to it, it is of a kind that can be read, written and closed,
    a pipe exists exactly as long as one of its ends is open. *)

From S2P Require Import Prelude CString Effect Printf Proc Locks Kalloc Pipe Bio Log Fs File Sysfile.

Local Open Scope Z_scope.

(** ** What matters of a file and of a pipe *)

Record shape := mk_shape { sh_type : fdtype; sh_ref : Z; sh_w : bool; sh_pipe : Z; sh_ip : bool }.

Definition shape_of (f : file) : shape :=
  mk_shape (ftype f) (fref f) (negb (writable f =? 0)) (fpipe f) (bool_decide (is_Some (fip f))).
Definition flags_of (pi : pipe) : bool * bool := (negb (readopen pi =? 0), negb (writeopen pi =? 0)).
(** The flag of the end a file is. *)
Definition flag (w : bool) (fl : bool * bool) : bool := if w then fl.2 else fl.1.

Section ftable.
Context `{Devices D} (kend me : Z).
Implicit Types s : fstate D.

Definition shapes s (i : nat) : option shape := shape_of <$> ftable s !! i.
Definition flags s (pa : Z) : option (bool * bool) := flags_of <$> pipes s !! pa.

(** [own i] references to file [i] are held. *)
Record ft_ok (own : nat → Z) s : Prop := {
  fo_ref : ∀ i f, shapes s i = Some f → sh_ref f = own i ∧ 0 ≤ own i;
  fo_none : ∀ i f, shapes s i = Some f → own i = 0 → sh_type f = FD_NONE;
  fo_ip : ∀ i f, shapes s i = Some f → sh_type f = FD_INODE ∨ sh_type f = FD_DEVICE → sh_ip f = true;
  fo_pipe : ∀ i f, shapes s i = Some f → sh_type f = FD_PIPE →
    ∃ fl, flags s (sh_pipe f) = Some fl ∧ flag (sh_w f) fl = true;
  fo_ends : ∀ i j f g, shapes s i = Some f → shapes s j = Some g → sh_type f = FD_PIPE → sh_type g = FD_PIPE →
    sh_pipe f = sh_pipe g → sh_w f = sh_w g → i = j;
  fo_live : ∀ pa fl, flags s pa = Some fl → valid_page kend pa ∧ (flag true fl = true ∨ flag false fl = true) ∧
    ∀ w, flag w fl = true → ∃ i f, shapes s i = Some f ∧ sh_type f = FD_PIPE ∧ sh_pipe f = pa ∧ sh_w f = w;
  fo_mem : ∃ l, chain kend (fmem s) (freelist (fmem s)) l ∧ NoDup l ∧ ∀ pa, pa ∈ l → flags s pa = None;
}.

(** States with the same files and pipe ends. *)
Definition ft_sim s s' : Prop :=
  (∀ i, shapes s' i = shapes s i) ∧ (∀ pa, flags s' pa = flags s pa) ∧ fmem s' = fmem s.

Lemma ft_sim_refl s : ft_sim s s.
Proof. done. Qed.

Lemma ft_sim_trans s1 s2 s3 : ft_sim s1 s2 → ft_sim s2 s3 → ft_sim s1 s3.
Proof. intros (A1 & A2 & A3) (B1 & B2 & B3). split_and!; congruence. Qed.

Lemma ft_ok_sim own own' s s' : ft_sim s s' → (∀ i, own' i = own i) → ft_ok own s → ft_ok own' s'.
Proof.
  intros (S1 & S2 & S3) Ho [F1 F2 F3 F4 F5 F6 F7]. split.
  - intros i f. rewrite S1, Ho. apply F1.
  - intros i f. rewrite S1, Ho. apply F2.
  - intros i f. rewrite S1. apply F3.
  - intros i f. rewrite S1, S2. apply F4.
  - intros i j f g. rewrite !S1. apply F5.
  - intros pa fl. rewrite S2. intros Hf. destruct (F6 pa fl Hf) as (P1 & P2 & P3). split_and!; [done|done|].
    intros w Hw. destruct (P3 w Hw) as (i & f & Hi & Hr). exists i, f. by rewrite S1.
  - destruct F7 as (l & L1 & L2 & L3). exists l. rewrite S3. split_and!; [done|done|]. intros pa. rewrite S2. apply L3.
Qed.

(** ** Computations that leave the files alone *)

Definition quiet {A} (m : M (fstate D) A) : Prop := ∀ s a s', m s = Done (a, s') → ft_sim s s'.

Lemma quiet_ret {A} (a : A) : quiet (mret a).
Proof. by intros s a' s' [= _ <-]. Qed.

Lemma quiet_bind {A B} (m : M (fstate D) A) (f : A → M (fstate D) B) : quiet m → (∀ a, quiet (f a)) → quiet (m ≫= f).
Proof.
  intros Hm Hf s b s'' (a & s' & Hs & Hr)%run_bind_inv. eapply ft_sim_trans; [by eapply Hm|by eapply Hf].
Qed.

Lemma quiet_fs {A} (m : M fsys A) : quiet (on_fs m).
Proof. intros s a s' (x & _ & ->)%run_zoom_inv. done. Qed.

Lemma quiet_when c m : quiet m → quiet (when c m).
Proof. destruct c; [done|intros _; apply quiet_ret]. Qed.

Lemma quiet_gets {A} (f : fstate D → A) : quiet (gets f).
Proof. by intros s a' s' [= _ <-]. Qed.

Lemma quiet_deref {A} (o : option A) : quiet (deref o).
Proof. destruct o; [apply quiet_ret|done]. Qed.

Lemma quiet_panics {A} : quiet (panics (A := A)).
Proof. done. Qed.

Lemma deref_gets_inv {A} (g : fstate D → option A) s a s' : (o ← gets g; deref o) s = Done (a, s') → s' = s ∧ g s = Some a.
Proof. intros (o & s1 & [= <- <-] & Hr)%run_bind_inv. destruct (g s); [by injection Hr as -> ->|done]. Qed.

Lemma get_file_inv i s f s' : get_file i s = Done (f, s') → s' = s ∧ ftable s !! i = Some f.
Proof. apply (deref_gets_inv (λ s, ftable s !! i)). Qed.

Lemma get_pipe_inv pa s pi s' : get_pipe pa s = Done (pi, s') → s' = s ∧ pipes s !! pa = Some pi.
Proof. apply (deref_gets_inv (λ s, pipes s !! pa)). Qed.

Lemma quiet_get_file i : quiet (get_file i).
Proof. apply quiet_bind; [apply quiet_gets|intros; apply quiet_deref]. Qed.

Lemma quiet_get_pipe pa : quiet (get_pipe pa).
Proof. apply quiet_bind; [apply quiet_gets|intros; apply quiet_deref]. Qed.

Lemma shapes_alter s i g j :
  shapes (set_ftable (alter g i (ftable s)) s) j =
  (if decide (j = i) then (λ f, shape_of (g f)) <$> ftable s !! j else shapes s j).
Proof.
  unfold shapes. cbn [ftable set_ftable]. destruct (decide (j = i)) as [->|Hj].
  - rewrite list_lookup_alter_eq. by destruct (ftable s !! i).
  - by rewrite list_lookup_alter_ne.
Qed.

Lemma quiet_upd_file i g : (∀ f, shape_of (g f) = shape_of f) → quiet (upd_file i g).
Proof.
  intros Hg s a s' [= _ <-]. split_and!; [|done|done]. intros j. rewrite shapes_alter.
  destruct (decide (j = i)) as [->|]; [|done]. unfold shapes. destruct (ftable s !! i); cbn; [by rewrite Hg|done].
Qed.

Lemma quiet_wake pa w : quiet (modify (wake pa w)).
Proof. by intros s a s' [= _ <-]. Qed.

(** A pipe's contents change. *)
Lemma sim_pipe s pa pi pi' :
  pipes s !! pa = Some pi → flags_of pi' = flags_of pi → ft_sim s (set_pipes (<[pa := pi']> (pipes s)) s).
Proof.
  intros Hp Hf. split_and!; [done| |done]. intros a. unfold flags. cbn [pipes set_pipes].
  destruct (decide (a = pa)) as [->|]; [|by rewrite lookup_insert_ne by done]. rewrite lookup_insert_eq, Hp. cbn. by rewrite Hf.
Qed.

Lemma read_loop_flags fuel ok : ∀ i n pi r l pi', read_loop fuel ok i n pi = (r, l, pi') → flags_of pi' = flags_of pi.
Proof.
  induction fuel as [|fuel IH]; intros i n pi r l pi'; cbn [read_loop]; [by intros [= _ _ <-]|].
  destruct (i <? n); [|by intros [= _ _ <-]]. destruct (nread pi =? nwrite pi); [by intros [= _ _ <-]|].
  destruct (negb (ok i)); [by intros [= _ _ <-]|].
  destruct (read_loop fuel ok (i + 1) n _) as [[r1 l1] pi1] eqn:Hr. intros [= _ _ <-]. by apply IH in Hr.
Qed.

Lemma piperead_flags killed ok n pi r l w pi' : piperead killed ok n pi = (r, l, w, pi') → flags_of pi' = flags_of pi.
Proof.
  unfold piperead. destruct (_ && _); [destruct killed; by intros [= _ _ _ <-]|].
  destruct (read_loop _ _ _ _ _) as [[r1 l1] pi1] eqn:Hr. intros [= _ _ _ <-]. by apply read_loop_flags in Hr.
Qed.

Lemma write_loop_flags fuel killed get : ∀ i n pi r w pi',
  write_loop fuel killed get i n pi = (r, w, pi') → flags_of pi' = flags_of pi.
Proof.
  induction fuel as [|fuel IH]; intros i n pi r w pi'; cbn [write_loop]; [by intros [= _ _ <-]|].
  destruct (i <? n); [|by intros [= _ _ <-]]. destruct (_ || killed); [by intros [= _ _ <-]|].
  destruct (nwrite pi =? _); [by intros [= _ _ <-]|]. destruct (get i); [|by intros [= _ _ <-]].
  intros Hr. by apply IH in Hr.
Qed.

Lemma quiet_filestat u i addr : quiet (filestat me u i addr).
Proof.
  apply quiet_bind; [apply quiet_get_file|]. intros f.
  assert (Hq : quiet (ip ← deref (fip f); on_fs (ilock me ip);; st ← on_fs (stati ip); on_fs (iunlock me ip);;
    if um_out u addr 24 then mret (0, stat_bytes st) else mret (-1, []))).
  { repeat (apply quiet_bind; [first [apply quiet_deref|apply quiet_fs]|intros ?]).
    destruct (um_out u addr 24); apply quiet_ret. }
  destruct (ftype f); (exact Hq || apply quiet_ret).
Qed.

Lemma quiet_set_off i n : quiet (upd_file i (f_off n)).
Proof. by apply quiet_upd_file. Qed.

Lemma quiet_fileread u killed i addr n : quiet (fileread me u killed i addr n).
Proof.
  apply quiet_bind; [apply quiet_get_file|]. intros f. destruct (readable f =? 0); [apply quiet_ret|].
  destruct (ftype f).
  - apply quiet_panics.
  - intros s a s' (pi & s1 & [-> Hpi]%get_pipe_inv & Hr)%run_bind_inv. destruct (piperead _ _ _ _) as [[[r l] w] pi'] eqn:Hrd. apply piperead_flags in Hrd.
    injection Hr as _ <-. by apply (sim_pipe (wake (fpipe f) w s) (fpipe f) pi).
  - apply quiet_bind; [apply quiet_deref|]. intros ip. apply quiet_bind; [apply quiet_fs|]. intros _.
    apply quiet_bind; [apply quiet_fs|]. intros [r l].
    apply quiet_bind; [apply quiet_when, quiet_set_off|]. intros _.
    apply quiet_bind; [apply quiet_fs|]. intros _. apply quiet_ret.
  - destruct (_ || _); [apply quiet_ret|]. destruct (dev_read (fmajor f)) as [rd|]; [|apply quiet_ret].
    intros s a s'. destruct (rd u addr n (fdev s)) as [[r l] d]. by intros [= _ <-].
Qed.

Lemma quiet_write_txns u i addr n fuel : ∀ k, quiet (write_txns me fuel u i addr k n).
Proof.
  induction fuel as [|fuel IH]; intros k; cbn [write_txns]; [apply quiet_ret|].
  destruct (k <? n); [|apply quiet_ret]. cbv zeta.
  apply quiet_bind; [apply quiet_get_file|]. intros f. apply quiet_bind; [apply quiet_deref|]. intros ip.
  apply quiet_bind; [apply quiet_fs|]. intros _. apply quiet_bind; [apply quiet_fs|]. intros _.
  apply quiet_bind; [apply quiet_fs|]. intros r. apply quiet_bind; [apply quiet_when, quiet_set_off|]. intros _.
  apply quiet_bind; [apply quiet_fs|]. intros _. apply quiet_bind; [apply quiet_fs|]. intros _.
  destruct (negb _); [apply quiet_ret|apply IH].
Qed.

Lemma quiet_filewrite u killed i addr n : quiet (filewrite me u killed i addr n).
Proof.
  apply quiet_bind; [apply quiet_get_file|]. intros f. destruct (writable f =? 0); [apply quiet_ret|].
  destruct (ftype f).
  - apply quiet_panics.
  - intros s a s' (pi & s1 & [-> Hpi]%get_pipe_inv & Hr)%run_bind_inv. destruct (pipewrite _ _ _ _) as [[r w] pi'] eqn:Hrd. apply write_loop_flags in Hrd.
    injection Hr as _ <-. by apply (sim_pipe (wake (fpipe f) w s) (fpipe f) pi).
  - apply quiet_bind; [apply quiet_write_txns|]. intros k. apply quiet_ret.
  - destruct (_ || _); [apply quiet_ret|]. destruct (dev_write (fmajor f)) as [wr|]; [|apply quiet_ret].
    intros s a s'. destruct (wr u addr n (fdev s)) as [r d]. by intros [= _ <-].
Qed.

(** ** Operations on the table *)

(** [own] with [d] more references to [i]. *)
Definition more (i : nat) (d : Z) (own : nat → Z) : nat → Z := λ j, own j + if decide (j = i) then d else 0.

Lemma more_eq i d own : more i d own i = own i + d.
Proof. unfold more. by rewrite decide_True. Qed.

Lemma more_ne i d own j : j ≠ i → more i d own j = own j.
Proof. intros Hj. unfold more. rewrite decide_False by done. lia. Qed.

(** The table with entry [i] of shape [f]. *)
Definition with_shape (i : nat) (f : shape) s s' : Prop :=
  (∀ j, shapes s' j = if decide (j = i) then Some f else shapes s j).

Lemma with_shape_upd i g s f :
  ftable s !! i = Some f → with_shape i (shape_of (g f)) s (set_ftable (alter g i (ftable s)) s).
Proof. intros Hf j. rewrite shapes_alter. destruct (decide (j = i)) as [->|]; [by rewrite Hf|done]. Qed.

Lemma shapes_Some s i f : ftable s !! i = Some f → shapes s i = Some (shape_of f).
Proof. intros Hf. unfold shapes. by rewrite Hf. Qed.

(** An entry that is no pipe changes to one that is no pipe. *)
Lemma ft_ok_plain own own' s s' i f f' :
  ft_ok own s → shapes s i = Some f → with_shape i f' s s' → (∀ pa, flags s' pa = flags s pa) → fmem s' = fmem s →
  sh_type f ≠ FD_PIPE → sh_type f' ≠ FD_PIPE → sh_ref f' = own' i → 0 ≤ own' i →
  (own' i = 0 → sh_type f' = FD_NONE) → (sh_type f' = FD_INODE ∨ sh_type f' = FD_DEVICE → sh_ip f' = true) →
  (∀ j, j ≠ i → own' j = own j) → ft_ok own' s'.
Proof.
  intros [F1 F2 F3 F4 F5 F6 F7] Hi Hs Hfl Hm Hp Hp' Hr H0 Hn Hip Ho. split.
  - intros j g. rewrite Hs. destruct (decide (j = i)) as [->|Hj]; [by intros [= <-]|]. rewrite Ho by done. apply F1.
  - intros j g. rewrite Hs. destruct (decide (j = i)) as [->|Hj]; [by intros [= <-]|]. rewrite Ho by done. apply F2.
  - intros j g. rewrite Hs. destruct (decide (j = i)) as [->|Hj]; [by intros [= <-]|]. apply F3.
  - intros j g. rewrite Hs, Hfl. destruct (decide (j = i)) as [->|Hj]; [by intros [= <-]|]. apply F4.
  - intros j k g h. rewrite !Hs. destruct (decide (j = i)) as [->|Hj]; [by intros [= <-]|].
    destruct (decide (k = i)) as [->|Hk]; [by intros _ [= <-]|]. apply F5.
  - intros pa fl. rewrite Hfl. intros Hf. destruct (F6 pa fl Hf) as (P1 & P2 & P3). split_and!; [done|done|].
    intros w Hw. destruct (P3 w Hw) as (j & g & Hj & Ht & Hr'). exists j, g. rewrite Hs.
    destruct (decide (j = i)) as [->|Hne]; [congruence|done].
  - destruct F7 as (l & L1 & L2 & L3). exists l. rewrite Hm. split_and!; [done|done|]. intros pa. rewrite Hfl. apply L3.
Qed.

(** Only a reference count changes, and not to or from 0. *)
Lemma ft_ok_count own own' s s' i f n :
  ft_ok own s → shapes s i = Some f → with_shape i (mk_shape (sh_type f) n (sh_w f) (sh_pipe f) (sh_ip f)) s s' →
  (∀ pa, flags s' pa = flags s pa) → fmem s' = fmem s → own' i = n → 0 < n → (∀ j, j ≠ i → own' j = own j) →
  ft_ok own' s'.
Proof.
  intros [F1 F2 F3 F4 F5 F6 F7] Hi Hs Hfl Hm Hr H0 Ho.
  assert (Hback : ∀ j g, shapes s' j = Some g → ∃ g0, shapes s j = Some g0 ∧ sh_type g = sh_type g0 ∧ sh_w g = sh_w g0 ∧
    sh_pipe g = sh_pipe g0 ∧ sh_ip g = sh_ip g0).
  { intros j g. rewrite Hs. destruct (decide (j = i)) as [->|Hj]; [intros [= <-]; by exists f|by exists g]. }
  split.
  - intros j g. rewrite Hs. destruct (decide (j = i)) as [->|Hj]; [intros [= <-]; cbn; lia|]. rewrite Ho by done. apply F1.
  - intros j g. rewrite Hs. destruct (decide (j = i)) as [->|Hj]; [lia|]. rewrite Ho by done. apply F2.
  - intros j g (g0 & Hg & -> & _ & _ & ->)%Hback. by apply (F3 j).
  - intros j g (g0 & Hg & -> & -> & -> & _)%Hback. rewrite Hfl. by apply (F4 j).
  - intros j k g h (g0 & Hg & -> & -> & -> & _)%Hback (h0 & Hh & -> & -> & -> & _)%Hback. by apply F5.
  - intros pa fl. rewrite Hfl. intros Hf. destruct (F6 pa fl Hf) as (P1 & P2 & P3). split_and!; [done|done|].
    intros w Hw. destruct (P3 w Hw) as (j & g & Hj & Ht & Hr'). destruct (decide (j = i)) as [->|Hne].
    + eexists i, _. rewrite Hs, decide_True by done. split; [done|]. replace g with f in * by congruence. done.
    + exists j, g. by rewrite Hs, decide_False.
  - destruct F7 as (l & L1 & L2 & L3). exists l. rewrite Hm. split_and!; [done|done|]. intros pa. rewrite Hfl. apply L3.
Qed.

Lemma filealloc_ok own s o s' :
  ft_ok own s → filealloc s = Done (o, s') →
  match o with
  | None => s' = s
  | Some i => ft_ok (more i 1 own) s' ∧ own i = 0 ∧
      s' = set_ftable (alter (f_ref 1) i (ftable s)) s ∧
      ∃ f, ftable s !! i = Some f ∧ ftype f = FD_NONE ∧ fref f = 0
  end.
Proof.
  intros F. unfold filealloc. destruct (find_index _ (ftable s)) as [i|] eqn:Hf; intros [= <- <-]; [|done].
  apply find_index_Some in Hf as (f & Hi & Hz%Z.eqb_eq & _). pose proof (shapes_Some s i f Hi) as Hs.
  destruct (fo_ref _ _ F i _ Hs) as [Hr _]. cbn in Hr. pose proof (fo_none _ _ F i _ Hs ltac:(lia)) as Hn. cbn in Hn.
  split_and!; [|lia|done|by exists f].
  eapply (ft_ok_plain own _ s _ i _ _ F Hs (with_shape_upd i (f_ref 1) s f Hi)); try done; cbn; rewrite ?more_eq, ?Hn; try lia.
  - done.
  - done.
  - by intros [|].
  - intros j Hj. by apply more_ne.
Qed.

Lemma filedup_ok own s i :
  ft_ok own s → 0 < own i < 2 ^ 31 - 1 → (is_Some (ftable s !! i)) →
  ∃ s', filedup i s = Done (i, s') ∧ ft_ok (more i 1 own) s' ∧ ∀ j, sh_type <$> shapes s' j = sh_type <$> shapes s j.
Proof.
  intros F Ho [f Hi]. pose proof (shapes_Some s i f Hi) as Hs. destruct (fo_ref _ _ F i _ Hs) as [Hr _]. cbn in Hr.
  exists (set_ftable (alter (f_ref (fref f + 1)) i (ftable s)) s).
  pose proof (with_shape_upd i (f_ref (fref f + 1)) s f Hi) as Hw. split_and!.
  - unfold filedup, get_file. rewrite (run_bind _ _ s f s); [|unfold mbind, M_bind, gets; by rewrite Hi].
    rewrite (proj2 (Z.ltb_ge _ _)) by lia. by rewrite s32_id by lia.
  - apply (ft_ok_count own _ s _ i _ (fref f + 1) F Hs Hw); try done; [rewrite more_eq; lia|lia|].
    intros j Hj. by apply more_ne.
  - intros j. rewrite Hw. destruct (decide (j = i)) as [->|]; [|done]. by rewrite Hs.
Qed.

(** The flags of a pipe with one end closed. *)
Definition clear (w : bool) (fl : bool * bool) : bool * bool := if w then (fl.1, false) else (false, fl.2).

Lemma flag_clear w w' fl : flag w' (clear w fl) = true ↔ w' ≠ w ∧ flag w' fl = true.
Proof. destruct w, w', fl as [[] []]; cbn; naive_solver. Qed.

(** The end that file [i] was is closed. *)
Lemma ft_ok_unpipe own s s' i f pa fl :
  ft_ok own s → shapes s i = Some f → sh_type f = FD_PIPE → sh_pipe f = pa → own i = 1 → flags s pa = Some fl →
  with_shape i (mk_shape FD_NONE 0 (sh_w f) pa (sh_ip f)) s s' →
  (∀ a, flags s' a = if decide (a = pa) then (if flag (negb (sh_w f)) fl then Some (clear (sh_w f) fl) else None) else flags s a) →
  (∃ l, chain kend (fmem s') (freelist (fmem s')) l ∧ NoDup l ∧ ∀ a, a ∈ l → flags s' a = None) →
  ft_ok (more i (-1) own) s'.
Proof.
  intros [F1 F2 F3 F4 F5 F6 F7] Hi Ht Hpa Ho Hfl Hs Hf' Hm.
  assert (Hother : ∀ j g, j ≠ i → shapes s j = Some g → sh_type g = FD_PIPE → sh_pipe g = pa → sh_w g ≠ sh_w f).
  { intros j g Hj Hg Htg Hpg Hw. apply Hj. by apply (F5 j i g f); try congruence. }
  split.
  - intros j g. rewrite Hs. destruct (decide (j = i)) as [->|Hj]; [intros [= <-]; rewrite more_eq, Ho; cbn; lia|].
    rewrite more_ne by done. apply F1.
  - intros j g. rewrite Hs. destruct (decide (j = i)) as [->|Hj]; [by intros [= <-]|]. rewrite more_ne by done. apply F2.
  - intros j g. rewrite Hs. destruct (decide (j = i)) as [->|Hj]; [by intros [= <-] [|]|]. apply F3.
  - intros j g. rewrite Hs. destruct (decide (j = i)) as [->|Hj]; [by intros [= <-]|]. intros Hg Htg.
    destruct (F4 j g Hg Htg) as (fl' & Hfl' & Hfg). rewrite Hf'. destruct (decide (sh_pipe g = pa)) as [Hpg|]; [|by eauto].
    rewrite Hpg, Hfl in Hfl'. injection Hfl' as <-. pose proof (Hother j g Hj Hg Htg Hpg) as Hw.
    replace (negb (sh_w f)) with (sh_w g) by (by destruct (sh_w f), (sh_w g)). rewrite Hfg.
    eexists. split; [done|]. by apply flag_clear.
  - intros j k g h. rewrite !Hs. destruct (decide (j = i)) as [->|Hj]; [by intros [= <-]|].
    destruct (decide (k = i)) as [->|Hk]; [by intros _ [= <-]|]. apply F5.
  - intros a fl'. rewrite Hf'. destruct (decide (a = pa)) as [->|Ha].
    + destruct (flag (negb (sh_w f)) fl) eqn:Hn; [|done]. intros [= <-]. destruct (F6 pa fl Hfl) as (P1 & _ & P3).
      split; [done|]. split.
      * destruct (sh_w f); [right|left]; by apply flag_clear.
      * intros w [Hw Hwf]%flag_clear. destruct (P3 w Hwf) as (j & g & Hj & Htg & Hpg & Hwg). exists j, g.
        rewrite Hs, decide_False; [done|]. intros ->. congruence.
    + intros Hfa. destruct (F6 a fl' Hfa) as (P1 & P2 & P3). split_and!; [done|done|]. intros w Hw.
      destruct (P3 w Hw) as (j & g & Hj & Htg & Hpg & Hwg). exists j, g. rewrite Hs, decide_False; [done|].
      intros ->. congruence.
  - exact Hm.
Qed.

Lemma pipeclose_flags w pi pi' wk dead : pipeclose w pi = (pi', wk, dead) →
  flags_of pi' = clear w (flags_of pi) ∧ dead = negb (flag (negb w) (flags_of pi)).
Proof.
  unfold pipeclose, flags_of, clear, flag. destruct w; intros [= <- _ <-]; cbn; (split; [done|]);
    destruct (readopen pi =? 0), (writeopen pi =? 0); done.
Qed.

Lemma close_pipe_ok own s s1 i f wr s2 :
  ft_ok own s → shapes s i = Some f → sh_type f = FD_PIPE → own i = 1 → negb (wr =? 0) = sh_w f →
  with_shape i (mk_shape FD_NONE 0 (sh_w f) (sh_pipe f) (sh_ip f)) s s1 → pipes s1 = pipes s → fmem s1 = fmem s →
  close_pipe kend (sh_pipe f) wr s1 = Done ((), s2) →
  ft_ok (more i (-1) own) s2 ∧ ∀ j, shapes s2 j = shapes s1 j.
Proof.
  intros F Hi Ht Ho Hw Hs Hp1 Hm1 (pi & s0 & [-> Hpi]%get_pipe_inv & Hr)%run_bind_inv. rewrite Hw in Hr.
  destruct (pipeclose (sh_w f) pi) as [[pi' wk] dead] eqn:Hpc. apply pipeclose_flags in Hpc as [Hfl Hdead].
  assert (Hfs : flags s (sh_pipe f) = Some (flags_of pi)) by (unfold flags; by rewrite <- Hp1, Hpi).
  apply run_bind_inv in Hr as ([] & s3 & [= <-] & Hr).
  destruct (fo_mem _ _ F) as (l & L1 & L2 & L3).
  destruct dead; symmetry in Hdead; [apply negb_true_iff in Hdead|apply negb_false_iff in Hdead].
  - apply run_bind_inv in Hr as ([] & s4 & [= <-] & Hr). unfold page_free in Hr. cbn [fmem set_pipes wake] in Hr.
    destruct (fo_live _ _ F _ _ Hfs) as (Hv & _ & _).
    assert (Hnl : sh_pipe f ∉ l) by (intros Hl; rewrite (L3 _ Hl) in Hfs; done).
    rewrite Hm1 in Hr. destruct (kfree_spec kend (fmem s) l (sh_pipe f) L1 Hv Hnl) as (m' & Hk & Hc & _).
    rewrite Hk in Hr. injection Hr as <-. split; [|done].
    assert (Hflags : ∀ a, flags (set_fmem m' (set_pipes (delete (sh_pipe f) (pipes s1)) (wake (sh_pipe f) wk s1))) a =
      if decide (a = sh_pipe f) then None else flags s a).
    { intros a. unfold flags. cbn [pipes set_fmem set_pipes]. rewrite Hp1. destruct (decide (a = sh_pipe f)) as [->|Ha].
      - by rewrite lookup_delete_eq.
      - by rewrite lookup_delete_ne by done. }
    apply (ft_ok_unpipe own s _ i f (sh_pipe f) (flags_of pi)); try done.
    + intros a. rewrite Hflags, Hdead. done.
    + exists (sh_pipe f :: l). cbn [fmem set_fmem]. split_and!; [done|by apply NoDup_cons|].
      intros a [->|Ha]%elem_of_cons; rewrite Hflags; [by rewrite decide_True|].
      destruct (decide (a = sh_pipe f)); [done|by apply L3].
  - injection Hr as <-. split; [|done].
    assert (Hflags : ∀ a, flags (set_pipes (<[sh_pipe f := pi']> (pipes s1)) (wake (sh_pipe f) wk s1)) a =
      if decide (a = sh_pipe f) then Some (clear (sh_w f) (flags_of pi)) else flags s a).
    { intros a. unfold flags. cbn [pipes set_pipes]. rewrite Hp1. destruct (decide (a = sh_pipe f)) as [->|Ha].
      - rewrite lookup_insert_eq. cbn. by rewrite Hfl.
      - by rewrite lookup_insert_ne by done. }
    apply (ft_ok_unpipe own s _ i f (sh_pipe f) (flags_of pi)); try done.
    + intros a. rewrite Hflags, Hdead. done.
    + exists l. cbn [fmem set_pipes wake]. rewrite Hm1. split_and!; [done|done|].
      intros a Ha. rewrite Hflags, decide_False; [by apply L3|]. intros ->. by rewrite (L3 _ Ha) in Hfs.
Qed.

Lemma quiet_close_inode (o : option nat) : quiet (
  ip ← deref o; on_fs (on_log begin_op);; on_fs (iput me ip);; on_fs (on_log (end_op me))).
Proof.
  apply quiet_bind; [apply quiet_deref|]. intros ip.
  repeat (apply quiet_bind; [apply quiet_fs|intros ?]). apply quiet_fs.
Qed.

Lemma fileclose_ok own s i s' :
  ft_ok own s → 0 < own i → fileclose kend me i s = Done ((), s') →
  ft_ok (more i (-1) own) s' ∧ (∀ j, j ≠ i → shapes s' j = shapes s j) ∧
  (own i ≠ 1 → ∀ g, shapes s i = Some g → ∃ g', shapes s' i = Some g' ∧ sh_type g' = sh_type g).
Proof.
  intros F Ho (f & s0 & [-> Hi]%get_file_inv & Hr)%run_bind_inv. pose proof (shapes_Some s i f Hi) as Hs.
  destruct (fo_ref _ _ F i _ Hs) as [Href _]. cbn in Href. rewrite (proj2 (Z.ltb_ge _ _)) in Hr by lia.
  apply run_bind_inv in Hr as ([] & s1 & [= <-] & Hr).
  pose proof (with_shape_upd i (f_ref (fref f - 1)) s f Hi) as Hw1.
  destruct (Z.ltb_spec 0 (fref f - 1)) as [Hlast|Hlast].
  - injection Hr as <-. split_and!.
    + apply (ft_ok_count own _ s _ i _ (fref f - 1) F Hs Hw1); try done; [rewrite more_eq; lia|].
      intros j Hj. by apply more_ne.
    + intros j Hj. by rewrite Hw1, decide_False.
    + intros _ g Hg. rewrite Hw1, decide_True by done. eexists. split; [done|]. by replace g with (shape_of f) by congruence.
  - assert (H1 : own i = 1) by lia. apply run_bind_inv in Hr as ([] & s2 & [= <-] & Hr).
    set (s1 := set_ftable (alter (f_ref (fref f - 1)) i (ftable s)) s) in *.
    set (s2 := set_ftable (alter f_none i (ftable s1)) s1).
    change (set_ftable (alter f_none i (alter (f_ref (fref f - 1)) i (ftable s))) s1) with s2 in Hr.
    assert (Hw : with_shape i (mk_shape FD_NONE 0 (negb (writable f =? 0)) (fpipe f) (bool_decide (is_Some (fip f)))) s s2).
    { intros j. unfold s2. rewrite shapes_alter. unfold s1 at 1. cbn [ftable set_ftable].
      destruct (decide (j = i)) as [->|Hj]; [by rewrite list_lookup_alter_eq, Hi|].
      rewrite Hw1, decide_False by done. done. }
    assert (Hplain : ftype f ≠ FD_PIPE → ft_ok (more i (-1) own) s2).
    { intros Ht. eapply (ft_ok_plain own _ s s2 i _ _ F Hs Hw); try done; cbn; rewrite ?more_eq; try lia; try (by intros [|]).
      intros j Hj. by apply more_ne. }
    assert (Hother : ∀ j, j ≠ i → shapes s2 j = shapes s j) by (intros j Hj; by rewrite Hw, decide_False).
    assert (Hq : ft_sim s2 s' → ftype f ≠ FD_PIPE → ft_ok (more i (-1) own) s' ∧ (∀ j, j ≠ i → shapes s' j = shapes s j)).
    { intros Hq Ht. split; [exact (ft_ok_sim _ _ s2 s' Hq (λ _, eq_refl) (Hplain Ht))|].
      intros j Hj. rewrite (proj1 Hq). by apply Hother. }
    rewrite H1. destruct (ftype f) eqn:Ht.
    + injection Hr as <-. destruct Hq; [done|done|]. split_and!; [done|done|by intros []].
    + destruct (close_pipe_ok own s s2 i (shape_of f) (writable f) s' F Hs Ht H1 eq_refl Hw eq_refl eq_refl Hr) as [C1 C2].
      split_and!; [done| |by intros []]. intros j Hj. rewrite C2. by apply Hother.
    + destruct Hq; [exact (quiet_close_inode _ s2 () s' Hr)|done|]. split_and!; [done|done|by intros []].
    + destruct Hq; [exact (quiet_close_inode _ s2 () s' Hr)|done|]. split_and!; [done|done|by intros []].
Qed.

Lemma ft_ok_ext own own' s : (∀ i, own' i = own i) → ft_ok own s → ft_ok own' s.
Proof. intros Ho. exact (ft_ok_sim own own' s s (ft_sim_refl s) Ho). Qed.

(** Two files become the ends of a new pipe. *)
Lemma ft_ok_newpipe own s s' r w fr fw pa :
  ft_ok own s → r ≠ w → 0 < own r → 0 < own w → shapes s r = Some fr → shapes s w = Some fw →
  sh_type fr = FD_NONE → sh_type fw = FD_NONE → flags s pa = None → valid_page kend pa →
  (∀ j, shapes s' j = if decide (j = w) then Some (mk_shape FD_PIPE (sh_ref fw) true pa (sh_ip fw))
                      else if decide (j = r) then Some (mk_shape FD_PIPE (sh_ref fr) false pa (sh_ip fr)) else shapes s j) →
  (∀ a, flags s' a = if decide (a = pa) then Some (true, true) else flags s a) →
  (∃ l, chain kend (fmem s') (freelist (fmem s')) l ∧ NoDup l ∧ ∀ a, a ∈ l → flags s' a = None) →
  ft_ok own s'.
Proof.
  intros [F1 F2 F3 F4 F5 F6 F7] Hrw Hor How Hr Hw Htr Htw Hpa Hv Hs Hf Hm.
  assert (Hcase : ∀ j g, shapes s' j = Some g →
    (j = w ∧ g = mk_shape FD_PIPE (sh_ref fw) true pa (sh_ip fw)) ∨
    (j = r ∧ g = mk_shape FD_PIPE (sh_ref fr) false pa (sh_ip fr)) ∨ (j ≠ w ∧ j ≠ r ∧ shapes s j = Some g)).
  { intros j g. rewrite Hs. destruct (decide (j = w)); [intros [= <-]; by left|].
    destruct (decide (j = r)); [intros [= <-]; right; by left|]. intros ?. right. by right. }
  assert (Hold : ∀ j g, shapes s j = Some g → sh_type g = FD_PIPE → sh_pipe g ≠ pa).
  { intros j g Hg Ht He. destruct (F4 j g Hg Ht) as (fl & Hfl & _). congruence. }
  split.
  - intros j g [[-> ->]|[[-> ->]|(_ & _ & Hg)]]%Hcase; cbn; [by apply (F1 w fw)|by apply (F1 r fr)|by apply F1].
  - intros j g [[-> ->]|[[-> ->]|(_ & _ & Hg)]]%Hcase; cbn; [lia|lia|by apply F2].
  - intros j g [[-> ->]|[[-> ->]|(_ & _ & Hg)]]%Hcase; cbn; [by intros [|]|by intros [|]|by apply (F3 j)].
  - intros j g [[-> ->]|[[-> ->]|(_ & _ & Hg)]]%Hcase; cbn.
    + intros _. exists (true, true). by rewrite Hf, decide_True.
    + intros _. exists (true, true). by rewrite Hf, decide_True.
    + intros Ht. rewrite Hf, decide_False by by apply (Hold j). by apply (F4 j).
  - intros j k g h Hg Hh Htg Hth Hp Hwg. apply Hcase in Hg, Hh.
    destruct Hg as [[-> ->]|[[-> ->]|(_ & _ & Hg)]], Hh as [[-> ->]|[[-> ->]|(_ & _ & Hh)]]; cbn in *; try done.
    + symmetry in Hp. by destruct (Hold k h Hh Hth).
    + symmetry in Hp. by destruct (Hold k h Hh Hth).
    + by destruct (Hold j g Hg Htg).
    + by destruct (Hold j g Hg Htg).
    + by apply (F5 j k g h).
  - intros a fl. rewrite Hf. destruct (decide (a = pa)) as [->|Ha].
    + intros [= <-]. split_and!; [done|by left|]. intros [|] _.
      * eexists w, _. rewrite Hs, decide_True by done. by split_and!.
      * eexists r, _. rewrite Hs, decide_False, decide_True by done. by split_and!.
    + intros Hfa. destruct (F6 a fl Hfa) as (P1 & P2 & P3). split_and!; [done|done|]. intros b Hb.
      destruct (P3 b Hb) as (j & g & Hj & Ht & Hr'). exists j, g. rewrite Hs.
      destruct (decide (j = w)) as [->|]; [congruence|]. destruct (decide (j = r)) as [->|]; [congruence|done].
  - exact Hm.
Qed.

(** What [pipealloc] does to the table: nothing, or two files that were free become the ends of a pipe. *)
Definition piped own s s' (o : option (nat * nat)) : Prop :=
  (∀ j, 0 < own j → shapes s' j = shapes s j) ∧
  match o with
  | None => ft_ok own s'
  | Some (r, w) => r ≠ w ∧ own r = 0 ∧ own w = 0 ∧ ft_ok (more w 1 (more r 1 own)) s' ∧
      ∃ fr fw, shapes s' r = Some fr ∧ shapes s' w = Some fw ∧ sh_type fr = FD_PIPE ∧ sh_type fw = FD_PIPE
  end.

Lemma shapes_filealloc i s j : j ≠ i → shapes (set_ftable (alter (f_ref 1) i (ftable s)) s) j = shapes s j.
Proof. intros Hj. by rewrite shapes_alter, decide_False. Qed.

Lemma pipealloc_ok own s o s' : ft_ok own s → pipealloc kend me s = Done (o, s') → piped own s s' o.
Proof.
  intros F (o1 & s1 & H1 & Hr)%run_bind_inv. apply (filealloc_ok own) in H1; [|done].
  destruct o1 as [r|]; [|injection Hr as <- <-; by subst s1].
  destruct H1 as (F1 & Or & Es1 & fr & Hfr & Htr & _).
  assert (S1 : ∀ j, j ≠ r → shapes s1 j = shapes s j) by (intros j Hj; subst s1; by apply shapes_filealloc).
  apply run_bind_inv in Hr as (o2 & s2 & H2 & Hr). apply (filealloc_ok (more r 1 own)) in H2; [|done].
  destruct o2 as [w|].
  2: { subst s2. apply run_bind_inv in Hr as ([] & s3 & H3 & Hr). injection Hr as <- <-.
       apply (fileclose_ok (more r 1 own)) in H3 as (F3 & S3 & _); [|done|rewrite more_eq; lia]. split.
       - intros j Hj. assert (j ≠ r) by (intros ->; lia). by rewrite S3, S1.
       - revert F3. apply ft_ok_ext. intros j. unfold more. destruct (decide (j = r)); lia. }
  destruct H2 as (F2 & Ow & Es2 & fw & Hfw & Htw & _).
  assert (Hrw : r ≠ w) by (intros ->; rewrite more_eq in Ow; lia). rewrite more_ne in Ow by done.
  assert (S2 : ∀ j, j ≠ w → shapes s2 j = shapes s1 j) by (intros j Hj; subst s2; by apply shapes_filealloc).
  apply run_bind_inv in Hr as (pa & s3 & H3 & Hr). unfold page_alloc in H3.
  destruct (fo_mem _ _ F2) as (l & L1 & L2 & L3). pose proof (kalloc_spec kend (fmem s2) l L1 L2) as Hk.
  destruct l as [|a l].
  - rewrite Hk in H3. injection H3 as <- <-. cbn [Z.eqb] in Hr.
    apply run_bind_inv in Hr as ([] & s4 & H4 & Hr). apply run_bind_inv in Hr as ([] & s5 & H5 & Hr). injection Hr as <- <-.
    assert (F3 : ft_ok (more w 1 (more r 1 own)) (set_fmem (fmem s2) s2)) by (by destruct s2).
    apply (fileclose_ok _ _ _ _ F3) in H4 as (F4 & S4 & _); [|rewrite more_ne, more_eq by done; lia].
    apply (fileclose_ok _ _ _ _ F4) in H5 as (F5 & S5 & _); [|rewrite more_ne, more_eq, more_ne by done; lia]. split.
    + intros j Hj. assert (j ≠ r ∧ j ≠ w) as [Hjr Hjw] by (split; intros ->; lia).
      rewrite S5, S4 by done. change (shapes (set_fmem (fmem s2) s2) j) with (shapes s2 j). by rewrite S2, S1.
    + revert F5. apply ft_ok_ext. intros j. unfold more. destruct (decide (j = w)), (decide (j = r)); lia.
  - destruct Hk as (m & Hk & Hc & _ & _). rewrite Hk in H3. injection H3 as <- <-.
    assert (Hva : valid_page kend a) by (cbn [chain] in L1; tauto).
    rewrite (proj2 (Z.eqb_neq a 0)) in Hr by (destruct Hva as (_ & _ & ?); lia).
    apply run_bind_inv in Hr as (page & s4 & [= _ <-] & Hr). apply run_bind_inv in Hr as ([] & s5 & [= <-] & Hr).
    apply run_bind_inv in Hr as ([] & s6 & [= <-] & Hr). apply run_bind_inv in Hr as ([] & s7 & [= <-] & Hr).
    injection Hr as <- <-. apply NoDup_cons in L2 as [Hal Hl].
    assert (Hr2 : ftable s2 !! r = Some (f_ref 1 fr)).
    { rewrite Es2. cbn [ftable set_ftable]. rewrite list_lookup_alter_ne by done. rewrite Es1. cbn [ftable set_ftable].
      by rewrite list_lookup_alter_eq, Hfr. }
    assert (Hw2 : ftable s2 !! w = Some (f_ref 1 fw)).
    { rewrite Es2. cbn [ftable set_ftable]. by rewrite list_lookup_alter_eq, Hfw. }
    match goal with |- piped _ _ ?x _ => set (s' := x) end.
    assert (Hsh : ∀ j, shapes s' j = if decide (j = w) then Some (mk_shape FD_PIPE 1 true a (bool_decide (is_Some (fip fw))))
        else if decide (j = r) then Some (mk_shape FD_PIPE 1 false a (bool_decide (is_Some (fip fr)))) else shapes s2 j).
    { intros j. unfold s', shapes. cbn [ftable set_ftable set_pipes set_fmem].
      destruct (decide (j = w)) as [->|Hjw]; [rewrite list_lookup_alter_eq, list_lookup_alter_ne, Hw2 by done; done|].
      rewrite list_lookup_alter_ne by done.
      destruct (decide (j = r)) as [->|Hjr]; [by rewrite list_lookup_alter_eq, Hr2|by rewrite list_lookup_alter_ne]. }
    assert (Hfl : ∀ b, flags s' b = if decide (b = a) then Some (true, true) else flags s2 b).
    { intros b. unfold s', flags. cbn [pipes set_ftable set_pipes set_fmem].
      destruct (decide (b = a)) as [->|Hb]; [by rewrite lookup_insert_eq|by rewrite lookup_insert_ne]. }
    split.
    + intros j Hj. assert (j ≠ r ∧ j ≠ w) as [Hjr Hjw] by (split; intros ->; lia).
      rewrite Hsh, !decide_False by done. by rewrite S2, S1.
    + split_and!; [done|done|done| |].
      * apply (ft_ok_newpipe _ s2 s' r w (shape_of (f_ref 1 fr)) (shape_of (f_ref 1 fw)) a F2 Hrw); try done.
        -- rewrite more_ne, more_eq by done. lia.
        -- rewrite more_eq, more_ne by done. lia.
        -- by apply shapes_Some.
        -- by apply shapes_Some.
        -- apply L3. left.
        -- exists l. unfold s' at 1 2. cbn [fmem set_ftable set_pipes set_fmem]. split_and!; [done|done|].
           intros b Hb. rewrite Hfl, decide_False by (by intros ->). apply L3. by right.
      * eexists _, _. rewrite !Hsh. rewrite (decide_False (P := r = w)), !decide_True by done. by split_and!.
Qed.
End ftable.
