(* ===== verification/Sysfd.v ===== *)
(** * File descriptors: the file system calls keep the file table

    The invariant of Ftable.v, with the references that the descriptors of the process
    hold, is kept by every call of sysfile.c, whatever it returns. *)

From S2P Require Import Prelude CString Effect Printf Proc Locks Kalloc Pipe Bio Log Fs File Sysfile Ftable.

Local Open Scope Z_scope.

(** The descriptors of a process that refer to file [i]. *)
Definition fd_count (i : nat) (l : list (option nat)) : Z := Z.of_nat (length (filter (λ o, o = Some i) l)).

Lemma fd_count_cons i o l : fd_count i (o :: l) = (if decide (o = Some i) then 1 else 0) + fd_count i l.
Proof. unfold fd_count. rewrite filter_cons. destruct (decide (o = Some i)); cbn [length]; lia. Qed.

Lemma fd_count_insert i l fd old new : l !! fd = Some old →
  fd_count i (<[fd := new]> l) = fd_count i l - (if decide (old = Some i) then 1 else 0) + if decide (new = Some i) then 1 else 0.
Proof.
  revert fd. induction l as [|o l IH]; intros [|fd] Hl; [done..| |].
  - injection Hl as ->. change (<[0%nat := new]> (old :: l)) with (new :: l). rewrite !fd_count_cons. lia.
  - change (<[S fd := new]> (o :: l)) with (o :: <[fd := new]> l). rewrite !fd_count_cons, (IH fd Hl). lia.
Qed.

Lemma fd_count_bound i l : 0 ≤ fd_count i l ≤ Z.of_nat (length l).
Proof. unfold fd_count. pose proof (length_filter (λ o, o = Some i) l). lia. Qed.

Lemma fd_count_pos i l fd : l !! fd = Some (Some i) → 0 < fd_count i l.
Proof.
  intros Hl. unfold fd_count. assert (Hin : Some i ∈ filter (λ o, o = Some i) l).
  { apply list_elem_of_filter. split; [done|by eapply list_elem_of_lookup_2]. }
  destruct (filter _ l); [by apply elem_of_nil in Hin|cbn; lia].
Qed.

Section sysfd.
Context `{Devices D} (kend me : Z) (ext : nat → Z).
Context (Hext : ∀ i, 0 ≤ ext i < 2 ^ 31 - 32).
Implicit Types s : sysf D.

(** The references to file [i]: those of other processes and of this one's descriptors. *)
Definition owned (l : list (option nat)) (i : nat) : Z := ext i + fd_count i l.

Record sys_ok s : Prop := {
  so_ft : ft_ok kend (owned (pofile (sproc s))) (sfs s);
  so_fd : ∀ fd i, pofile (sproc s) !! fd = Some (Some i) → is_Some (ftable (sfs s) !! i);
  so_len : length (pofile (sproc s)) = 16%nat;
  so_used : ∀ i f, shapes (sfs s) i = Some f → 0 < owned (pofile (sproc s)) i → sh_type f ≠ FD_NONE;
}.

Lemma owned_insert l fd old new i : l !! fd = Some old →
  owned (<[fd := new]> l) i = owned l i - (if decide (old = Some i) then 1 else 0) + if decide (new = Some i) then 1 else 0.
Proof. intros Hl. unfold owned. rewrite (fd_count_insert i l fd old new Hl). lia. Qed.

Lemma owned_bound l i : length l = 16%nat → 0 ≤ owned l i < 2 ^ 31 - 16.
Proof. intros Hl. unfold owned. pose proof (Hext i). pose proof (fd_count_bound i l). lia. Qed.

Lemma types_is_Some (s s' : fstate D) i :
  sh_type <$> shapes s' i = sh_type <$> shapes s i → is_Some (ftable s !! i) → is_Some (ftable s' !! i).
Proof. unfold shapes. intros He [f Hf]. rewrite Hf in He. destruct (ftable s' !! i); [by eexists|done]. Qed.

Lemma shapes_is_Some (s s' : fstate D) i : shapes s' i = shapes s i → is_Some (ftable s !! i) → is_Some (ftable s' !! i).
Proof. intros He. apply types_is_Some. by rewrite He. Qed.

(** ** Calls that leave the descriptors and the files alone *)

Definition squiet {A} (m : M (sysf D) A) : Prop := ∀ s a s',
  m s = Done (a, s') → pofile (sproc s') = pofile (sproc s) ∧ ft_sim (sfs s) (sfs s').

Lemma squiet_ret {A} (a : A) : squiet (mret a).
Proof. by intros s a' s' [= _ <-]. Qed.

Lemma squiet_bind {A B} (m : M (sysf D) A) (f : A → M (sysf D) B) : squiet m → (∀ a, squiet (f a)) → squiet (m ≫= f).
Proof.
  intros Hm Hf s b s'' (a & s' & Hs & Hr)%run_bind_inv. destruct (Hm _ _ _ Hs) as [M1 M2], (Hf _ _ _ _ Hr) as [F1 F2].
  split; [congruence|by eapply ft_sim_trans].
Qed.

Lemma squiet_onf {A} (m : M (fstate D) A) : quiet m → squiet (onf m).
Proof. intros Hm s a s' (x & Hx & ->)%run_zoom_inv. split; [done|by apply (Hm _ _ _ Hx)]. Qed.

Lemma squiet_gets {A} (f : sysf D → A) : squiet (gets f).
Proof. by intros s a s' [= _ <-]. Qed.

Lemma squiet_infs {A} (m : option pctx → M fsys A) : squiet (infs m).
Proof. apply squiet_bind; [apply squiet_gets|]. intros p. apply squiet_onf, quiet_fs. Qed.

Lemma squiet_proc (f : sysf D → sysf D) :
  (∀ s, pofile (sproc (f s)) = pofile (sproc s) ∧ sfs (f s) = sfs s) → squiet (modify f).
Proof. intros Hf s a s' [= _ <-]. destruct (Hf s) as [-> ->]. done. Qed.

Lemma squiet_argfd fd : squiet (argfd fd).
Proof. apply squiet_gets. Qed.

Lemma sys_ok_sim s s' : pofile (sproc s') = pofile (sproc s) → ft_sim (sfs s) (sfs s') → sys_ok s → sys_ok s'.
Proof.
  intros Hp Hs [O1 O2 O3 O4]. split; rewrite ?Hp.
  - exact (ft_ok_sim kend _ _ _ _ Hs (λ _, eq_refl) O1).
  - intros fd i Hfd. apply (shapes_is_Some (sfs s)); [apply Hs|by eapply O2].
  - done.
  - intros i f. rewrite (proj1 Hs). apply O4.
Qed.

Lemma squiet_ok {A} (m : M (sysf D) A) s a s' : squiet m → m s = Done (a, s') → sys_ok s → sys_ok s'.
Proof. intros Hm Hs. destruct (Hm _ _ _ Hs). by apply sys_ok_sim. Qed.

Lemma squiet_read u killed fd p n : squiet (sys_read me u killed fd p n).
Proof. apply squiet_bind; [apply squiet_argfd|]. intros [f|]; [apply squiet_onf, quiet_fileread|apply squiet_ret]. Qed.

Lemma squiet_write u killed fd p n : squiet (sys_write me u killed fd p n).
Proof. apply squiet_bind; [apply squiet_argfd|]. intros [f|]; [apply squiet_onf, quiet_filewrite|apply squiet_ret]. Qed.

Lemma squiet_fstat u fd st : squiet (sys_fstat me u fd st).
Proof. apply squiet_bind; [apply squiet_argfd|]. intros [f|]; [apply squiet_onf, quiet_filestat|apply squiet_ret]. Qed.

Lemma squiet_chdir path : squiet (sys_chdir me path).
Proof.
  apply squiet_bind; [apply squiet_infs|]. intros [ip|]; [|apply squiet_ret].
  apply squiet_bind; [apply squiet_gets|]. intros p.
  repeat (apply squiet_bind; [apply squiet_infs|intros ?]). apply squiet_bind; [by apply squiet_proc|]. intros _. apply squiet_ret.
Qed.

Lemma squiet_jail path : squiet (sys_jail me path).
Proof.
  apply squiet_bind; [apply squiet_infs|]. intros [ip|]; [|apply squiet_ret].
  apply squiet_bind; [apply squiet_gets|]. intros p.
  repeat (apply squiet_bind; [apply squiet_infs|intros ?]). apply squiet_bind; [by apply squiet_proc|]. intros _. apply squiet_ret.
Qed.

(** ** Descriptors *)

Lemma argfd_inv fd s f s' : argfd fd s = Done (Some f, s') → s' = s ∧ 0 ≤ fd ∧ pofile (sproc s) !! Z.to_nat fd = Some (Some f).
Proof.
  unfold argfd, gets. intros [= Hf <-]. destruct (Z.ltb_spec fd 0); [done|]. destruct (NOFILE <=? fd); [done|].
  cbn [orb] in Hf. destruct (pofile (sproc s) !! Z.to_nat fd) as [[f0|]|] eqn:Hl; cbn in Hf; [|done..].
  injection Hf as ->. by split_and!.
Qed.

Lemma fdalloc_inv f s fd s' : fdalloc f s = Done (fd, s') →
  (fd = -1 ∧ s' = s) ∨
  ∃ n, fd = Z.of_nat n ∧ pofile (sproc s) !! n = Some None ∧ pofile (sproc s') = <[n := Some f]> (pofile (sproc s)) ∧
    sfs s' = sfs s.
Proof.
  unfold fdalloc. destruct (find_index _ _) as [n|] eqn:Hf; [|intros [= <- <-]; by left].
  apply find_index_Some in Hf as (o & Hl & Ho & _). destruct o; [done|]. intros [= <- <-]. right. by exists n.
Qed.

(** The invariant when one descriptor of a file is added or taken away. *)
Lemma sys_ok_fd s s' fd old new :
  sys_ok s → pofile (sproc s) !! fd = Some old → pofile (sproc s') = <[fd := new]> (pofile (sproc s)) →
  ft_ok kend (owned (pofile (sproc s'))) (sfs s') →
  (∀ i, (is_Some (ftable (sfs s) !! i) ∨ new = Some i) → is_Some (ftable (sfs s') !! i)) →
  (∀ i f, shapes (sfs s') i = Some f → 0 < owned (pofile (sproc s')) i → sh_type f ≠ FD_NONE) → sys_ok s'.
Proof.
  intros [O1 O2 O3 O4] Hold Hp F Hin Hu. split; [done| | |done]; rewrite Hp.
  - intros n i [(<- & -> & _)|[_ Hn]]%list_lookup_insert_Some; apply Hin; [by right|left; by eapply O2].
  - by rewrite length_insert.
Qed.

Lemma set_fd_inv fd f s s' : set_fd fd f s = Done ((), s') → pofile (sproc s') = <[fd := f]> (pofile (sproc s)) ∧ sfs s' = sfs s.
Proof. by intros [= <-]. Qed.

Lemma sys_dup_ok fd s : sys_ok s → ∃ r s', sys_dup fd s = Done (r, s') ∧ sys_ok s'.
Proof.
  intros O. unfold sys_dup. destruct (argfd fd s) as [[[f|] s0]| | |] eqn:Ha; [| |done..].
  2: { rewrite (run_bind _ _ _ _ _ Ha). injection Ha as _ <-. by exists (-1), s. }
  apply argfd_inv in Ha as Hi. destruct Hi as (-> & _ & Hfd). rewrite (run_bind _ _ _ _ _ Ha).
  destruct (fdalloc f s) as [[n s1]| | |] eqn:Hal; [|unfold fdalloc in Hal; by destruct (find_index _ _)..].
  rewrite (run_bind _ _ _ _ _ Hal). apply fdalloc_inv in Hal as [[-> ->]|(m & -> & Hm & Hp & Hs)].
  { exists (-1), s. by split. }
  rewrite (proj2 (Z.ltb_ge _ _)) by lia. pose proof (so_ft _ O) as F.
  pose proof (owned_bound (pofile (sproc s)) f (so_len _ O)) as Hb.
  assert (Hpos : 0 < owned (pofile (sproc s)) f).
  { unfold owned. pose proof (Hext f). pose proof (fd_count_pos f _ _ Hfd). lia. }
  destruct (filedup_ok kend _ (sfs s) f F) as (x & Hx & Fx & Kx); [lia|by eapply so_fd|].
  exists (Z.of_nat m), (set_sfs x s1). rewrite (run_bind _ _ s1 f (set_sfs x s1)).
  2: { apply (run_zoom sfs set_sfs). by rewrite Hs. }
  split; [done|]. apply (sys_ok_fd s (set_sfs x s1) m None (Some f) O Hm Hp).
  - cbn [sproc sfs set_sfs]. rewrite Hp. revert Fx. apply ft_ok_ext. intros i. rewrite (owned_insert _ _ _ _ _ Hm).
    unfold more. destruct (decide (None = Some i)); [done|]. destruct (decide (i = f)), (decide (Some f = Some i)); (congruence || lia).
  - cbn [sfs set_sfs]. assert (Hin : ∀ i, is_Some (ftable (sfs s) !! i) → is_Some (ftable x !! i)).
    { intros i. by apply types_is_Some. }
    intros i [Hi|[= <-]]; [by apply Hin|]. apply Hin. by eapply so_fd.
  - cbn [sfs sproc set_sfs]. intros i g Hg Ho. specialize (Kx i). rewrite Hg in Kx.
    destruct (shapes (sfs s) i) as [g0|] eqn:Hg0; [|done]. injection Kx as ->. apply (so_used _ O i g0 Hg0).
    rewrite Hp, (owned_insert _ _ _ _ _ Hm) in Ho.
    destruct (decide (None = Some i)); [done|]. destruct (decide (Some f = Some i)) as [[= <-]|]; lia.
Qed.

Lemma owned_fd l fd i : l !! fd = Some (Some i) → 0 < owned l i.
Proof. intros Hl. unfold owned. pose proof (Hext i). pose proof (fd_count_pos i l fd Hl). lia. Qed.

(** The same descriptors, and the files referred to are as they were. *)
Lemma sys_ok_back s s' :
  sys_ok s → pofile (sproc s') = pofile (sproc s) → ft_ok kend (owned (pofile (sproc s))) (sfs s') →
  (∀ i, 0 < owned (pofile (sproc s)) i → shapes (sfs s') i = shapes (sfs s) i) → sys_ok s'.
Proof.
  intros [O1 O2 O3 O4] Hp F Hs. split; rewrite ?Hp; [done| |done|].
  - intros fd i Hfd. apply (shapes_is_Some (sfs s)); [|by eapply O2]. apply Hs. by eapply owned_fd.
  - intros i f Hf Ho. rewrite Hs in Hf by done. by apply (O4 i).
Qed.

Lemma sys_close_ok fd s r s' : sys_ok s → sys_close kend me fd s = Done (r, s') → sys_ok s'.
Proof.
  intros O (o & s0 & Ha & Hr)%run_bind_inv. destruct o as [f|]; [|by injection Ha as _ <-; injection Hr as _ <-].
  apply argfd_inv in Ha as (-> & _ & Hfd).
  apply run_bind_inv in Hr as ([] & s1 & [Hp1 Hs1]%set_fd_inv & Hr).
  apply run_bind_inv in Hr as ([] & s2 & (x & Hx & ->)%run_zoom_inv & Hr). injection Hr as _ <-. rewrite Hs1 in Hx.
  pose proof (owned_fd _ _ _ Hfd) as Hpos.
  destruct (fileclose_ok kend me _ (sfs s) f x (so_ft _ O) Hpos Hx) as (F & Hother & Hkept).
  assert (Hown : ∀ i, owned (<[Z.to_nat fd := None]> (pofile (sproc s))) i = more f (-1) (owned (pofile (sproc s))) i).
  { intros i. rewrite (owned_insert _ _ _ _ _ Hfd). unfold more.
    destruct (decide (Some f = Some i)), (decide (i = f)), (decide (None = Some i)); (congruence || lia). }
  assert (Htypes : ∀ i, 0 < owned (<[Z.to_nat fd := None]> (pofile (sproc s))) i →
    sh_type <$> shapes x i = sh_type <$> shapes (sfs s) i).
  { intros i Ho. destruct (decide (i = f)) as [->|Hi]; [|by rewrite Hother].
    rewrite Hown, more_eq in Ho. destruct (so_fd _ O _ _ Hfd) as [g Hg]. pose proof (shapes_Some _ _ _ Hg) as Hsg.
    destruct (Hkept ltac:(lia) _ Hsg) as (g' & Hg' & Ht). rewrite Hg', Hsg. cbn. by rewrite Ht. }
  split; cbn [sproc sfs set_sfs]; rewrite Hp1.
  - revert F. by apply ft_ok_ext.
  - intros n i Hn. apply (types_is_Some (sfs s)); [by apply Htypes; eapply owned_fd|].
    apply list_lookup_insert_Some in Hn as [(_ & ? & _)|[_ Hn]]; [done|by eapply so_fd].
  - rewrite length_insert. apply (so_len _ O).
  - intros i g Hg Ho. specialize (Htypes i Ho). rewrite Hg in Htypes.
    destruct (shapes (sfs s) i) as [g0|] eqn:Hg0; [|done]. injection Htypes as ->. apply (so_used _ O i g0 Hg0).
    rewrite Hown in Ho. unfold more in Ho. destruct (decide (i = f)); lia.
Qed.

Lemma open_fail_ok s s1 o ip v s' :
  sys_ok s → pofile (sproc s1) = pofile (sproc s) →
  match o with
  | None => ft_sim (sfs s) (sfs s1)
  | Some f => owned (pofile (sproc s)) f = 0 ∧ ft_ok kend (more f 1 (owned (pofile (sproc s)))) (sfs s1) ∧
      ∀ j, j ≠ f → shapes (sfs s1) j = shapes (sfs s) j
  end →
  open_fail kend me o ip s1 = Done (v, s') → sys_ok s'.
Proof.
  intros O Hp Ho ([] & s2 & Hc & Hr)%run_bind_inv.
  assert (O2 : sys_ok s2).
  { destruct o as [f|]; [|injection Hc as <-; by apply (sys_ok_sim s)].
    destruct Ho as (Ho & F & Hother). apply run_zoom_inv in Hc as (x & Hx & ->).
    destruct (fileclose_ok kend me _ (sfs s1) f x F ltac:(rewrite more_eq; lia) Hx) as (Fx & Hx' & _).
    apply (sys_ok_back s); [done|done| |]; cbn [sproc sfs set_sfs].
    - revert Fx. apply ft_ok_ext. intros i. unfold more. destruct (decide (i = f)); lia.
    - intros i Hi. assert (i ≠ f) by (intros ->; lia). by rewrite Hx', Hother. }
  revert O2. eapply squiet_ok; [|exact Hr]. repeat (apply squiet_bind; [apply squiet_infs|intros ?]). apply squiet_ret.
Qed.

(** The tail of [sys_open], once the file has its descriptor. *)
Lemma sys_open_tail s s1 f fd n ip omode v s' :
  sys_ok s → owned (pofile (sproc s)) f = 0 → ft_ok kend (more f 1 (owned (pofile (sproc s)))) (sfs s1) →
  (∀ j, j ≠ f → shapes (sfs s1) j = shapes (sfs s) j) →
  (∃ g, ftable (sfs s1) !! f = Some g ∧ ftype g = FD_NONE ∧ fref g = 1) →
  pofile (sproc s) !! n = Some None → pofile (sproc s1) = <[n := Some f]> (pofile (sproc s)) →
  (i ← infs (λ _, get_inode ip);
   onf (upd_file f (f_open i ip omode));;
   infs (λ _, when (negb (Z.land omode O_TRUNC =? 0) && (itype i =? T_FILE)) (itrunc me ip));;
   infs (λ _, iunlock me ip);;
   infs (λ _, on_log (end_op me));;
   mret (fd : Z)) s1 = Done (v, s') → sys_ok s'.
Proof.
  intros O Ho F Hother (g & Hg & Hgt & Hgr) Hn Hp (i & s2 & Hs2 & Hr)%run_bind_inv.
  destruct (squiet_infs _ _ _ _ Hs2) as [Q1 Q2]. apply run_bind_inv in Hr as ([] & s3 & (x & [= <-] & ->)%run_zoom_inv & Hr).
  assert (Hg2 : shapes (sfs s2) f = Some (shape_of g)) by (rewrite (proj1 Q2); by apply shapes_Some).
  unfold shapes in Hg2. destruct (ftable (sfs s2) !! f) as [g2|] eqn:Hg2'; [|done]. injection Hg2 as Hg2t Hg2r Hg2w Hg2p Hg2i.
  set (x := set_ftable (alter (f_open i ip omode) f (ftable (sfs s2))) (sfs s2)) in *.
  pose proof (with_shape_upd f (f_open i ip omode) (sfs s2) g2 Hg2') as Hw. fold x in Hw.
  assert (Hsh : sh_ref (shape_of (f_open i ip omode g2)) = 1 ∧ sh_type (shape_of (f_open i ip omode g2)) ≠ FD_PIPE ∧
    sh_type (shape_of (f_open i ip omode g2)) ≠ FD_NONE ∧ sh_ip (shape_of (f_open i ip omode g2)) = true).
  { unfold f_open. destruct (itype i =? T_DEVICE); cbn; split_and!; try done; congruence. }
  destruct Hsh as (Hr1 & Ht1 & Ht2 & Hip).
  assert (O3 : sys_ok (set_sfs x s2)).
  { apply (sys_ok_fd s _ n None (Some f) O Hn).
    - cbn [sproc set_sfs]. by rewrite Q1.
    - cbn [sproc sfs set_sfs]. rewrite Q1, Hp.
      apply (ft_ok_ext kend (more f 1 (owned (pofile (sproc s))))).
      { intros j. rewrite (owned_insert _ _ _ _ _ Hn). unfold more.
        destruct (decide (None = Some j)), (decide (Some f = Some j)), (decide (j = f)); (congruence || lia). }
      apply (ft_ok_plain kend (more f 1 (owned (pofile (sproc s)))) _ (sfs s2) x f (shape_of g2) (shape_of (f_open i ip omode g2)));
        try done.
      + exact (ft_ok_sim kend _ _ _ _ Q2 (λ _, eq_refl) F).
      + unfold shapes. by rewrite Hg2'.
      + cbn. congruence.
      + rewrite more_eq. lia.
      + rewrite more_eq. lia.
      + rewrite more_eq. lia.
    - cbn [sfs set_sfs]. intros j Hj. unfold x. cbn [ftable set_ftable]. apply lookup_lt_is_Some. rewrite length_alter.
      apply lookup_lt_is_Some. destruct (decide (j = f)) as [->|Hjf]; [by rewrite Hg2'|]. destruct Hj as [Hj|[= <-]]; [|done].
      apply (shapes_is_Some (sfs s)); [by rewrite (proj1 Q2), Hother|done].
    - cbn [sproc sfs set_sfs]. rewrite Q1, Hp. intros j h. rewrite Hw. destruct (decide (j = f)) as [->|Hjf]; [by intros [= <-]|].
      rewrite (proj1 Q2), Hother by done. intros Hh Hoj. apply (so_used _ O j h Hh).
      rewrite (owned_insert _ _ _ _ _ Hn) in Hoj.
      destruct (decide (None = Some j)), (decide (Some f = Some j)); (congruence || lia). }
  revert O3. eapply squiet_ok; [|exact Hr]. repeat (apply squiet_bind; [apply squiet_infs|intros ?]). apply squiet_ret.
Qed.

Lemma sys_open_ok path omode s v s' : sys_ok s → sys_open kend me path omode s = Done (v, s') → sys_ok s'.
Proof.
  intros O. unfold sys_open. destruct path as [path|]; [|by intros [= _ <-]].
  intros ([] & s1 & H1 & Hr)%run_bind_inv. apply (squiet_ok _ _ _ _ (squiet_infs _) H1) in O. clear s H1.
  apply run_bind_inv in Hr as (o & s2 & H2 & Hr). apply (squiet_ok _ _ _ _ (squiet_infs _) H2) in O. clear s1 H2.
  destruct o as [ip|]; [|by injection Hr as _ <-].
  apply run_bind_inv in Hr as (o & s3 & (x & Hx & ->)%run_zoom_inv & Hr).
  apply (filealloc_ok kend (owned (pofile (sproc s2)))) in Hx; [|by apply O].
  destruct o as [f|]; [|subst x; by apply (open_fail_ok s2 (set_sfs (sfs s2) s2) None ip v s' O)].
  destruct Hx as (F & Ho & -> & g & Hg & Hgt & _). set (x := set_ftable _ _) in *.
  assert (Hother : ∀ j, j ≠ f → shapes x j = shapes (sfs s2) j) by (intros j Hj; by apply shapes_filealloc).
  apply run_bind_inv in Hr as (fd & s3 & Hfd & Hr).
  apply fdalloc_inv in Hfd as [[-> ->]|(n & -> & Hn & Hp & Hs)].
  - cbn [Z.ltb Z.compare] in Hr. by apply (open_fail_ok s2 (set_sfs x s2) (Some f) ip v s' O).
  - rewrite (proj2 (Z.ltb_ge _ _)) in Hr by lia. cbn [sproc sfs set_sfs] in Hn, Hp, Hs.
    apply (sys_open_tail s2 s3 f (Z.of_nat n) n ip omode v s' O Ho); rewrite ?Hs; try done.
    exists (f_ref 1 g). split_and!; [|done|done]. unfold x. cbn [ftable set_ftable]. by rewrite list_lookup_alter_eq, Hg.
Qed.

(** The new pipe's files are given up again. *)
Lemma pipe_fail_ok s s1 r w v s' :
  sys_ok s → pofile (sproc s1) = pofile (sproc s) →
  piped kend (owned (pofile (sproc s))) (sfs s) (sfs s1) (Some (r, w)) →
  pipe_fail kend me r w s1 = Done (v, s') → sys_ok s'.
Proof.
  intros O Hp (Hkeep & Hrw & Hr0 & Hw0 & F & _) ([] & s2 & (x & Hx & ->)%run_zoom_inv & Hr)%run_bind_inv.
  apply run_bind_inv in Hr as ([] & s3 & (y & Hy & ->)%run_zoom_inv & Hr). injection Hr as _ <-.
  destruct (fileclose_ok kend me _ (sfs s1) r x F ltac:(rewrite more_ne, more_eq by done; lia) Hx) as (Fx & Sx & _).
  cbn [sfs set_sfs] in Hy.
  destruct (fileclose_ok kend me _ x w y Fx ltac:(rewrite more_ne, more_eq, more_ne by done; lia) Hy) as (Fy & Sy & _).
  apply (sys_ok_back s); [done|done| |]; cbn [sproc sfs set_sfs].
  - revert Fy. apply ft_ok_ext. intros i. unfold more. destruct (decide (i = r)), (decide (i = w)); lia.
  - intros i Hi. assert (i ≠ r ∧ i ≠ w) as [Hir Hiw] by (split; intros ->; lia). by rewrite Sy, Sx, Hkeep.
Qed.

Lemma insert_None_back (l : list (option nat)) n o : l !! n = Some None → <[n := None]> (<[n := o]> l) = l.
Proof. intros Hl. by rewrite list_insert_insert_eq, list_insert_id. Qed.

(** Both ends get a descriptor. *)
Lemma sys_pipe_done s s1 r w n m s' :
  sys_ok s → piped kend (owned (pofile (sproc s))) (sfs s) (sfs s1) (Some (r, w)) →
  pofile (sproc s) !! n = Some None → <[n := Some r]> (pofile (sproc s)) !! m = Some None →
  pofile (sproc s') = <[m := Some w]> (<[n := Some r]> (pofile (sproc s))) → sfs s' = sfs s1 → sys_ok s'.
Proof.
  intros O (Hkeep & Hrw & Hr0 & Hw0 & F & fr & fw & Hfr & Hfw & Htr & Htw) Hn Hm Hp Hs.
  set (l := pofile (sproc s)) in *.
  assert (Hown : ∀ i, owned (<[m := Some w]> (<[n := Some r]> l)) i = more w 1 (more r 1 (owned l)) i).
  { intros i. rewrite (owned_insert _ _ _ _ _ Hm), (owned_insert _ _ _ _ _ Hn). unfold more.
    destruct (decide (None = Some i)); [done|].
    destruct (decide (Some r = Some i)), (decide (i = r)), (decide (Some w = Some i)), (decide (i = w)); (congruence || lia). }
  split; rewrite ?Hp, ?Hs.
  - revert F. by apply ft_ok_ext.
  - intros fd i Hfd. assert (Ho : 0 < owned (<[m := Some w]> (<[n := Some r]> l)) i) by (by eapply owned_fd).
    assert (Hsome : is_Some (shapes (sfs s1) i) → is_Some (ftable (sfs s1) !! i)).
    { unfold shapes. intros [f Hf]. destruct (ftable (sfs s1) !! i); [by eexists|done]. }
    rewrite Hown in Ho. unfold more in Ho. apply Hsome.
    destruct (decide (i = w)) as [->|Hiw]; [by rewrite Hfw|]. destruct (decide (i = r)) as [->|Hir]; [by rewrite Hfr|].
    rewrite Hkeep by lia. apply list_lookup_insert_Some in Hfd as [(_ & ? & _)|[_ Hfd]]; [congruence|].
    apply list_lookup_insert_Some in Hfd as [(_ & ? & _)|[_ Hfd]]; [congruence|].
    destruct (so_fd _ O _ _ Hfd) as [g Hg]. by rewrite (shapes_Some _ _ _ Hg).
  - rewrite !length_insert. apply (so_len _ O).
  - intros i f Hf Ho. rewrite Hown in Ho. unfold more in Ho.
    destruct (decide (i = w)) as [->|Hiw]; [replace f with fw by congruence; by rewrite Htw|].
    destruct (decide (i = r)) as [->|Hir]; [replace f with fr by congruence; by rewrite Htr|].
    rewrite Hkeep in Hf by lia. apply (so_used _ O i f Hf). fold l. lia.
Qed.

Lemma sys_pipe_ok u a s v s' : sys_ok s → sys_pipe kend me u a s = Done (v, s') → sys_ok s'.
Proof.
  intros O (o & s1 & (x & Hx & ->)%run_zoom_inv & Hr)%run_bind_inv.
  apply (pipealloc_ok kend me (owned (pofile (sproc s)))) in Hx; [|by apply O].
  destruct o as [[r w]|]; [|destruct Hx as [Hk F]; injection Hr as _ <-; by apply (sys_ok_back s)].
  assert (Hpipe : piped kend (owned (pofile (sproc s))) (sfs s) (sfs (set_sfs x s)) (Some (r, w))) by exact Hx.
  set (s1 := set_sfs x s) in *. assert (Hp1 : pofile (sproc s1) = pofile (sproc s)) by done.
  apply run_bind_inv in Hr as (fd0 & s2 & H2 & Hr). apply fdalloc_inv in H2 as [[-> ->]|(n & -> & Hn & Hp2 & Hs2)].
  { cbn [Z.ltb Z.compare] in Hr. apply run_bind_inv in Hr as (z & s3 & H3 & Hr). injection Hr as _ <-.
    by apply (pipe_fail_ok s s1 r w z s3). }
  rewrite (proj2 (Z.ltb_ge _ _)) in Hr by lia. rewrite Hp1 in Hn, Hp2.
  apply run_bind_inv in Hr as (fd1 & s3 & H3 & Hr). apply fdalloc_inv in H3 as [[-> ->]|(m & -> & Hm & Hp3 & Hs3)].
  { cbn [Z.ltb Z.compare] in Hr. apply run_bind_inv in Hr as ([] & s4 & [H4 H4']%set_fd_inv & Hr).
    apply run_bind_inv in Hr as (z & s5 & H5 & Hr). injection Hr as _ <-.
    apply (pipe_fail_ok s s4 r w z s5 O); [|by rewrite H4', Hs2|done].
    by rewrite H4, Hp2, Nat2Z.id, insert_None_back. }
  rewrite (proj2 (Z.ltb_ge _ _)) in Hr by lia. rewrite Hp2 in Hm, Hp3. cbv zeta in Hr.
  destruct (negb _).
  - apply run_bind_inv in Hr as ([] & s4 & [H4 H4']%set_fd_inv & Hr).
    apply run_bind_inv in Hr as ([] & s5 & [H5 H5']%set_fd_inv & Hr).
    apply run_bind_inv in Hr as (z & s6 & H6 & Hr). injection Hr as _ <-.
    apply (pipe_fail_ok s s5 r w z s6 O); [|by rewrite H5', H4', Hs3, Hs2|done].
    rewrite H5, H4, Hp3, !Nat2Z.id.
    assert (Hnm : n ≠ m) by (intros ->; rewrite list_lookup_insert_eq in Hm by (by eapply lookup_lt_Some); done).
    rewrite list_lookup_insert_ne in Hm by done.
    rewrite (list_insert_insert_ne _ n m), (insert_None_back _ n) by done. by rewrite insert_None_back.
  - injection Hr as _ <-. apply (sys_pipe_done s s1 r w n m s3 O Hpipe Hn Hm Hp3). by rewrite Hs3, Hs2.
Qed.

(** ** Any call *)

Inductive fcall :=
  | FDup (fd : Z)
  | FRead (u : umem) (killed : bool) (fd p n : Z)
  | FWrite (u : umem) (killed : bool) (fd p n : Z)
  | FClose (fd : Z)
  | FStat (u : umem) (fd st : Z)
  | FOpen (path : option (list Z)) (omode : Z)
  | FChdir (path : option (list Z))
  | FJail (path : option (list Z))
  | FPipe (u : umem) (fdarray : Z)
  | FLink (old new : option (list Z))
  | FUnlink (path : option (list Z))
  | FMkdir (path : option (list Z))
  | FMknod (path : option (list Z)) (major minor : Z).

Definition do_call (c : fcall) : M (sysf D) () :=
  match c with
  | FDup fd => _ ← sys_dup fd; mret ()
  | FRead u killed fd p n => _ ← sys_read me u killed fd p n; mret ()
  | FWrite u killed fd p n => _ ← sys_write me u killed fd p n; mret ()
  | FClose fd => _ ← sys_close kend me fd; mret ()
  | FStat u fd st => _ ← sys_fstat me u fd st; mret ()
  | FOpen path omode => _ ← sys_open kend me path omode; mret ()
  | FChdir path => _ ← sys_chdir me path; mret ()
  | FJail path => _ ← sys_jail me path; mret ()
  | FPipe u a => _ ← sys_pipe kend me u a; mret ()
  | FLink old new => _ ← infs (λ pr, sys_link me pr old new); mret ()
  | FUnlink path => _ ← infs (λ pr, sys_unlink me pr path); mret ()
  | FMkdir path => _ ← infs (λ pr, sys_mkdir me pr path); mret ()
  | FMknod path ma mi => _ ← infs (λ pr, sys_mknod me pr path ma mi); mret ()
  end.

Fixpoint do_calls (cs : list fcall) : M (sysf D) () :=
  match cs with
  | [] => mret ()
  | c :: cs' => do_call c;; do_calls cs'
  end.

Lemma run_unit_inv {A} (m : M (sysf D) A) s s' : (_ ← m; mret ()) s = Done ((), s') → ∃ a, m s = Done (a, s').
Proof. intros (a & s1 & Hm & Hr)%run_bind_inv. injection Hr as <-. eauto. Qed.

Lemma do_call_ok c s s' : sys_ok s → do_call c s = Done ((), s') → sys_ok s'.
Proof.
  intros O. destruct c; cbn [do_call]; intros [a Ha]%run_unit_inv.
  - destruct (sys_dup_ok fd s O) as (r & s1 & E & O1). congruence.
  - by apply (squiet_ok _ _ _ _ (squiet_read _ _ _ _ _) Ha).
  - by apply (squiet_ok _ _ _ _ (squiet_write _ _ _ _ _) Ha).
  - by apply (sys_close_ok _ _ _ _ O Ha).
  - by apply (squiet_ok _ _ _ _ (squiet_fstat _ _ _) Ha).
  - by apply (sys_open_ok _ _ _ _ _ O Ha).
  - by apply (squiet_ok _ _ _ _ (squiet_chdir _) Ha).
  - by apply (squiet_ok _ _ _ _ (squiet_jail _) Ha).
  - by apply (sys_pipe_ok _ _ _ _ _ O Ha).
  - by apply (squiet_ok _ _ _ _ (squiet_infs _) Ha).
  - by apply (squiet_ok _ _ _ _ (squiet_infs _) Ha).
  - by apply (squiet_ok _ _ _ _ (squiet_infs _) Ha).
  - by apply (squiet_ok _ _ _ _ (squiet_infs _) Ha).
Qed.

Lemma do_calls_ok cs : ∀ s s', sys_ok s → do_calls cs s = Done ((), s') → sys_ok s'.
Proof.
  induction cs as [|c cs IH]; intros s s' O; cbn [do_calls]; [by intros [= <-]|].
  intros ([] & s1 & Hc & Hr)%run_bind_inv. eapply IH; [|done]. by eapply do_call_ok.
Qed.

(** Nothing is open. *)
Definition all_closed s : Prop :=
  ftable (sfs s) = replicate NFILE file0 ∧ pipes (sfs s) = ∅ ∧ pofile (sproc s) = replicate 16 None ∧
  ∃ l, chain kend (fmem (sfs s)) (freelist (fmem (sfs s))) l ∧ NoDup l.

Lemma all_closed_ok s : (∀ i, ext i = 0) → all_closed s → sys_ok s.
Proof.
  intros He (Ht & Hp & Hfd & l & L1 & L2).
  assert (Hsh : ∀ i f, shapes (sfs s) i = Some f → f = shape_of file0).
  { intros i f. unfold shapes. rewrite Ht. destruct (replicate NFILE file0 !! i) as [g|] eqn:Hg; [|done].
    apply lookup_replicate in Hg as [-> _]. by intros [= <-]. }
  assert (Hfl : ∀ pa, flags (sfs s) pa = None) by (intros pa; unfold flags; by rewrite Hp, lookup_empty).
  assert (Ho : ∀ i, owned (pofile (sproc s)) i = 0) by (intros i; unfold owned; by rewrite Hfd, He).
  split.
  - split.
    + intros i f ->%Hsh. by rewrite Ho.
    + by intros i f ->%Hsh.
    + intros i f ->%Hsh. by intros [|].
    + by intros i f ->%Hsh.
    + by intros i j f g ->%Hsh.
    + intros pa fl. by rewrite Hfl.
    + exists l. split_and!; done.
  - intros fd i. rewrite Hfd. by intros [? _]%lookup_replicate.
  - by rewrite Hfd.
  - intros i f _. rewrite Ho. lia.
Qed.

(** C24: after any sequence of file system calls, whatever each returned, from a process with
    no open file: the count of an open file is exactly the descriptors that refer to it (and
    what other processes hold); the free files are the ones nobody refers to; the file behind a
    descriptor is in the table and is a pipe, an inode or a device, so that reading, writing,
    duplicating or closing it never hits file.c's panics; a pipe has its flag for an end set
    exactly while some file is that end, and it is gone once both ends are. *)
Theorem fd_refcounts cs s s' :
  (∀ i, ext i = 0) → all_closed s → do_calls cs s = Done ((), s') →
  (∀ i f, ftable (sfs s') !! i = Some f → fref f = fd_count i (pofile (sproc s')) ∧ (fref f = 0 ↔ ftype f = FD_NONE)) ∧
  (∀ fd i, pofile (sproc s') !! fd = Some (Some i) → ∃ f, ftable (sfs s') !! i = Some f ∧ 1 ≤ fref f ∧ ftype f ≠ FD_NONE ∧
    (ftype f = FD_PIPE → is_Some (pipes (sfs s') !! fpipe f))) ∧
  (∀ pa pi, pipes (sfs s') !! pa = Some pi →
    (readopen pi ≠ 0 ∨ writeopen pi ≠ 0) ∧
    (readopen pi ≠ 0 ↔ ∃ i f, ftable (sfs s') !! i = Some f ∧ ftype f = FD_PIPE ∧ fpipe f = pa ∧ writable f = 0) ∧
    (writeopen pi ≠ 0 ↔ ∃ i f, ftable (sfs s') !! i = Some f ∧ ftype f = FD_PIPE ∧ fpipe f = pa ∧ writable f ≠ 0)) ∧
  ∀ fd, ∃ r s'', sys_dup fd s' = Done (r, s'').
Proof.
  intros He Hc Hr. pose proof (do_calls_ok cs s s' (all_closed_ok s He Hc) Hr) as O.
  pose proof (so_ft _ O) as F.
  assert (Href : ∀ i f, ftable (sfs s') !! i = Some f → fref f = fd_count i (pofile (sproc s')) ∧ (fref f = 0 ↔ ftype f = FD_NONE)).
  { intros i f Hf. pose proof (shapes_Some _ _ _ Hf) as Hs. destruct (fo_ref _ _ _ F i _ Hs) as [Hfr _]. cbn in Hfr.
    pose proof (fo_none _ _ _ F i _ Hs) as Hn. pose proof (so_used _ O i _ Hs) as Hu. cbn in Hn, Hu.
    unfold owned in *. rewrite He in *. split; [lia|]. split; [intros H0; apply Hn; lia|]. intros Ht.
    pose proof (fd_count_bound i (pofile (sproc s'))). destruct (decide (fref f = 0)); [done|]. destruct Hu; [lia|done]. }
  split; [done|]. split; [|split].
  - intros fd i Hfd. destruct (so_fd _ O fd i Hfd) as [f Hf]. exists f. destruct (Href i f Hf) as [Hn Hz].
    pose proof (fd_count_pos i _ _ Hfd). split_and!; [done|lia|intros Ht; apply Hz in Ht; lia|]. intros Ht.
    destruct (fo_pipe _ _ _ F i _ (shapes_Some _ _ _ Hf) Ht) as (fl & Hfl & _). unfold flags in Hfl.
    cbn in Hfl. destruct (pipes (sfs s') !! fpipe f); [by eexists|done].
  - intros pa pi Hpi. assert (Hfl : flags (sfs s') pa = Some (flags_of pi)) by (unfold flags; by rewrite Hpi).
    destruct (fo_live _ _ _ F pa _ Hfl) as (_ & P2 & P3).
    assert (Hend : ∀ w, flag w (flags_of pi) = true ↔ ∃ i f, ftable (sfs s') !! i = Some f ∧ ftype f = FD_PIPE ∧
      fpipe f = pa ∧ negb (writable f =? 0) = w).
    { intros w. split.
      - intros Hw. destruct (P3 w Hw) as (i & f & Hf & Ht & Hp & Hwf). unfold shapes in Hf.
        destruct (ftable (sfs s') !! i) as [g|] eqn:Hg; [|done]. injection Hf as <-. by exists i, g.
      - intros (i & f & Hf & Ht & Hp & <-). destruct (fo_pipe _ _ _ F i _ (shapes_Some _ _ _ Hf) Ht) as (fl & Hfl' & Hw).
        cbn in Hfl', Hw. rewrite Hp, Hfl in Hfl'. by injection Hfl' as <-. }
    pose proof (Hend true) as Ht. pose proof (Hend false) as Hf. cbn [flag flags_of fst snd] in P2, Ht, Hf.
    setoid_rewrite negb_true_iff in P2. setoid_rewrite negb_true_iff in Ht. setoid_rewrite negb_true_iff in Hf.
    setoid_rewrite negb_false_iff in Hf. setoid_rewrite Z.eqb_neq in P2. setoid_rewrite Z.eqb_neq in Ht.
    setoid_rewrite Z.eqb_eq in Hf. setoid_rewrite Z.eqb_neq in Hf. tauto.
  - intros fd. destruct (sys_dup_ok fd s' O) as (r & s'' & E & _). eauto.
Qed.
End sysfd.

(** A machine with three pages, no device and nothing open. *)
#[export] Instance no_devices : Devices () := { dev_read := λ _, None; dev_write := λ _, None }.

Definition demo_fst : fstate () :=
  mk_fst (mk_fsys (mk_lsys (binit ∅) (mk_log 2 0 0 1 (mk_lh 0 (replicate 30 0))) []) (replicate 50 inode0) (mk_sb FSMAGIC 0 0 0 0 0 0 0))
    (replicate NFILE file0) ∅ (match kinit three_pages ∅ with Ok m => m | Panic => mk_kmem ∅ 0 end) () [].
Definition demo_proc : fproc := mk_fproc (replicate 16 None) 0 None 0.
Definition demo_umem : umem := mk_umem (λ _ _, true) (λ _ n, (replicate (Z.to_nat n) 7, true)).

(** A pipe; its write end closed; the read end twice; a write through a closed descriptor. *)
Definition demo_calls : list fcall := [FPipe demo_umem 0; FClose 1; FDup 0; FWrite demo_umem false 1 0 5; FClose 0].

Lemma fd_refcounts_witness :
  ∃ s', do_calls three_pages 7 demo_calls (mk_sysf demo_fst demo_proc) = Done ((), s') ∧
    ∀ i f, ftable (sfs s') !! i = Some f → fref f = fd_count i (pofile (sproc s')).
Proof.
  assert (Hrun : ∃ s', do_calls three_pages 7 demo_calls (mk_sysf demo_fst demo_proc) = Done ((), s')).
  { assert (Hb : match do_calls three_pages 7 demo_calls (mk_sysf demo_fst demo_proc) with Done _ => true | _ => false end = true)
      by (vm_compute; reflexivity).
    destruct (do_calls _ _ _ _) as [[[] s']| | |]; [by exists s'|discriminate Hb..]. }
  destruct Hrun as [s' Hs]. exists s'. split; [exact Hs|].
  destruct (fd_refcounts three_pages 7 (λ _, 0) ltac:(intros; lia) demo_calls (mk_sysf demo_fst demo_proc) s' ltac:(done)) as (H & _); [|exact Hs|].
  - split_and!; [reflexivity|reflexivity|reflexivity|].
    destruct (kinit_spec three_pages ∅ ltac:(by vm_compute)) as (m & Hm & Hc).
    exists (range_pages (first_page three_pages) (num_pages three_pages)). split; [|apply NoDup_range_pages].
    cbn [sfs demo_fst fmem]. rewrite Hm. exact Hc.
  - intros i f Hf. apply (H i f Hf).
Defined.
