(* ===== verification/Exec.v ===== *)
(** * kernel/exec.c, and sys_exec of kernel/sysfile.c

    [kexec] runs on the file system and the physical memory; of the process it uses the
    page table, the size, the trapframe page and the name ([image]).  A page table under
    construction and the current one are in the same memory.  The argument strings of
    [kexec] are values: they are in pages [sys_exec] allocated, which nothing else refers
    to.  The stack is set up by [exec_args]; [args_layout] says where the strings go, and
    [exec_args_run] that they get there. *)

From S2P Require Import Prelude CString Effect Printf Proc Locks Kalloc Vm Pagetable Usermem Bio Log Fs Path Walk.

Local Open Scope Z_scope.

Definition MAXARG : nat := 32.
Definition MAXPATH : Z := 128.
Definition USERSTACK : Z := 1.

(** ** The ELF headers *)

Definition ELF_MAGIC : Z := 0x464C457F.
Definition ELF_PROG_LOAD : Z := 1.

(** The fields [kexec] uses. *)
Record elfhdr := mk_elf { magic : Z; entry_pc : Z; phoff : Z; phnum : Z }.
Record proghdr := mk_ph { ph_type : Z; ph_flags : Z; ph_off : Z; ph_vaddr : Z; ph_filesz : Z; ph_memsz : Z }.

Definition get_u64 (off : nat) (l : list Z) : Z := le_decode (sub off 8 l).
Definition sizeof_elfhdr : Z := 64.
Definition sizeof_proghdr : Z := 56.
Definition elfhdr_of (l : list Z) : elfhdr := mk_elf (get_u32 0 l) (get_u64 24 l) (get_u64 32 l) (get_u16 56 l).
Definition proghdr_of (l : list Z) : proghdr :=
  mk_ph (get_u32 0 l) (get_u32 4 l) (get_u64 8 l) (get_u64 16 l) (get_u64 32 l) (get_u64 40 l).

Definition flags2perm (flags : Z) : Z :=
  let perm := if negb (Z.land flags 1 =? 0) then PTE_X else 0 in
  if negb (Z.land flags 2 =? 0) then Z.lor perm PTE_W else perm.

(** ** The state *)

Record image := mk_image { im_pagetable : Z; im_sz : Z; im_trapframe : Z; im_name : list Z }.
Record xstate := mk_xstate { x_fs : fsys; x_mem : kmem; x_image : image }.

Definition set_xfs (f : fsys) (x : xstate) : xstate := mk_xstate f (x_mem x) (x_image x).
Definition set_xmem (m : kmem) (x : xstate) : xstate := mk_xstate (x_fs x) m (x_image x).
Definition in_fs {A} (m : M fsys A) : M xstate A := zoom x_fs set_xfs m.
Definition in_mem {A} (m : M kmem A) : M xstate A := zoom x_mem set_xmem m.

(** [p->trapframe->epc], [->sp], [->a0] and [->a1]. *)
Definition tf_epc (tf : Z) : Z := tf + 24.
Definition tf_sp (tf : Z) : Z := tf + 48.
Definition tf_a0 (tf : Z) : Z := tf + 112.
Definition tf_a1 (tf : Z) : Z := tf + 120.

Section exec.
Context (kend me trampoline : Z) (pr : option pctx).

Definition proc_pagetable (tf : Z) : M kmem Z :=
  pt ← uvmcreate;
  if pt =? 0 then mret 0
  else
    r ← mappages pt TRAMPOLINE PGSIZE trampoline (Z.lor PTE_R PTE_X);
    if r <? 0 then uvmfree kend pt 0;; mret 0
    else
      r ← mappages pt TRAPFRAME PGSIZE tf (Z.lor PTE_R PTE_W);
      if r <? 0 then uvmunmap kend pt TRAMPOLINE 1 false;; uvmfree kend pt 0;; mret 0
      else mret pt.

Definition proc_freepagetable (pt sz : Z) : M kmem () :=
  uvmunmap kend pt TRAMPOLINE 1 false;;
  uvmunmap kend pt TRAPFRAME 1 false;;
  uvmfree kend pt sz.

(** ** Loading *)

(** [readi] to kernel memory: the count and the bytes. *)
Definition read_kernel (ip : nat) (off n : Z) : M xstate (Z * list Z) := in_fs (readi me (λ _ _, true) ip 0 off n).

(** From byte [i] of the segment on; true is the result 0. *)
Fixpoint loadseg_loop (fuel : nat) (pt va : Z) (ip : nat) (offset sz i : Z) : M xstate bool :=
  match fuel with
  | O => undef
  | S fuel' =>
      if i <? sz then
        pa ← in_mem (walkaddr pt (u64 (va + i)));
        if pa =? 0 then panics
        else
          let n := if sz - i <? PGSIZE then sz - i else PGSIZE in
          '(r, l) ← read_kernel ip (u32 (offset + i)) n;
          in_mem (store_bytes pa l);;
          if negb (r =? n) then mret false else loadseg_loop fuel' pt va ip offset sz (u32 (i + PGSIZE))
      else mret true
  end.
(** [offset] and [sz] are [uint]s. *)
Definition loadseg (pt va : Z) (ip : nat) (offset sz : Z) : M xstate bool :=
  loadseg_loop (S (Z.to_nat (u32 sz / PGSIZE + 1))) pt va ip (u32 offset) (u32 sz) 0.

(** The program headers left, from [off] on; whether all were loaded, and [sz]. *)
Fixpoint load_loop (n : nat) (ip : nat) (pt off sz : Z) : M xstate (bool * Z) :=
  match n with
  | O => mret (true, sz)
  | S n' =>
      '(r, l) ← read_kernel ip (u32 off) sizeof_proghdr;
      if negb (r =? sizeof_proghdr) then mret (false, sz)
      else
        let ph := proghdr_of l in
        let next := s32 (off + sizeof_proghdr) in
        if negb (ph_type ph =? ELF_PROG_LOAD) then load_loop n' ip pt next sz
        else if ph_memsz ph <? ph_filesz ph then mret (false, sz)
        else if u64 (ph_vaddr ph + ph_memsz ph) <? ph_vaddr ph then mret (false, sz)
        else if negb (ph_vaddr ph mod PGSIZE =? 0) then mret (false, sz)
        else
          sz1 ← in_mem (uvmalloc kend pt sz (u64 (ph_vaddr ph + ph_memsz ph)) (flags2perm (ph_flags ph)));
          if sz1 =? 0 then mret (false, sz)
          else
            ok ← loadseg pt (ph_vaddr ph) ip (ph_off ph) (ph_filesz ph);
            if negb ok then mret (false, sz1) else load_loop n' ip pt next sz1
  end.

(** ** The stack *)

Section stack.
Context (cursz curpt pt : Z).

(** The strings, from the top down; [ustack] so far.  [None] is [goto bad]. *)
Fixpoint push_args (argv : list (list Z)) (sp stackbase : Z) (ustack : list Z) : M kmem (option (Z * list Z)) :=
  match argv with
  | [] => mret (Some (sp, ustack))
  | s :: argv' =>
      if (MAXARG <=? length ustack)%nat then mret None
      else
        let sp := u64 (sp - (Z.of_nat (length s) + 1)) in
        let sp := sp - sp mod 16 in
        if sp <? stackbase then mret None
        else
          r ← copyout kend cursz curpt pt sp (s ++ [0]);
          if r <? 0 then mret None else push_args argv' sp stackbase (ustack ++ [sp])
  end.

(** The bytes of [ustack[0..argc]].  [ustack[argc] = 0] is past the end of the array when all [MAXARG]
    elements are in use. *)
Definition ustack_bytes (us : list Z) : list Z := concat (map (le_encode 8) us).

Definition exec_args (argv : list (list Z)) (sp stackbase : Z) : M kmem (option Z) :=
  r ← push_args argv sp stackbase [];
  match r with
  | None => mret None
  | Some (sp, us) =>
      if (MAXARG <=? length us)%nat then undef
      else
        let us := us ++ [0] in
        let sp := u64 (sp - Z.of_nat (length us) * 8) in
        let sp := sp - sp mod 16 in
        if sp <? stackbase then mret None
        else
          r ← copyout kend cursz curpt pt sp (ustack_bytes us);
          if r <? 0 then mret None else mret (Some sp)
  end.

(** The stack above an image of size [sz]: the new size, and [sp] unless something failed. *)
Definition exec_stack (argv : list (list Z)) (sz : Z) : M kmem (Z * option Z) :=
  let sz := PGROUNDUP64 sz in
  sz1 ← uvmalloc kend pt sz (u64 (sz + (USERSTACK + 1) * PGSIZE)) PTE_W;
  if sz1 =? 0 then mret (sz, None)
  else
    uvmclear pt (u64 (sz1 - (USERSTACK + 1) * PGSIZE));;
    o ← exec_args argv sz1 (u64 (sz1 - USERSTACK * PGSIZE));
    mret (sz1, o).
End stack.

(** What follows the last slash. *)
Fixpoint last_elem (last s : list Z) : list Z :=
  match s with
  | [] => last
  | c :: s' => last_elem (if c =? 47 then s' else last) s'
  end.

(** ** kexec *)

(** [bad:], with the inode if it is still open. *)
Definition exec_bad (pt sz : Z) (ip : option nat) : M xstate Z :=
  when (negb (pt =? 0)) (in_mem (proc_freepagetable pt sz));;
  match ip with
  | Some ip => in_fs (iunlockput me ip);; in_fs (on_log (end_op me))
  | None => mret ()
  end;;
  mret (-1).

Definition kexec (path : list Z) (argv : list (list Z)) : M xstate Z :=
  in_fs (on_log (begin_op));;
  ip ← in_fs (namei me pr path);
  match ip with
  | None => in_fs (on_log (end_op me));; mret (-1)
  | Some ip =>
      in_fs (ilock me ip);;
      '(r, l) ← read_kernel ip 0 sizeof_elfhdr;
      let elf := elfhdr_of l in
      if negb (r =? sizeof_elfhdr) || negb (magic elf =? ELF_MAGIC) then exec_bad 0 0 (Some ip)
      else
        p ← gets x_image;
        pt ← in_mem (proc_pagetable (im_trapframe p));
        if pt =? 0 then exec_bad 0 0 (Some ip)
        else
          '(ok, sz) ← load_loop (Z.to_nat (phnum elf)) ip pt (s32 (phoff elf)) 0;
          if negb ok then exec_bad pt sz (Some ip)
          else
            in_fs (iunlockput me ip);;
            in_fs (on_log (end_op me));;
            '(sz, o) ← in_mem (exec_stack (im_sz p) (im_pagetable p) pt argv sz);
            match o with
            | None => exec_bad pt sz None
            | Some sp =>
                let tf := im_trapframe p in
                in_mem (store64 (tf_a1 tf) sp);;
                modify (λ x, mk_xstate (x_fs x) (x_mem x) (mk_image pt sz tf (safestrcpy (im_name p) (last_elem path path ++ [0]) 16)));;
                in_mem (store64 (tf_epc tf) (entry_pc elf));;
                in_mem (store64 (tf_sp tf) sp);;
                in_mem (proc_freepagetable (im_pagetable p) (im_sz p));;
                mret (Z.of_nat (length argv))
            end
  end.

(** [forkret] after its release of the lock, up to [prepare_return]; [first] is its static variable. *)
Definition init_path : list Z := bytes "/init".
Definition forkret (first : bool) : M xstate bool :=
  if first then
    in_fs (fsinit me ROOTDEV);;
    a0 ← kexec init_path [init_path];
    p ← gets x_image;
    in_mem (store64 (tf_a0 (im_trapframe p)) (u64 a0));;
    if a0 =? -1 then panics else mret false
  else mret first.

(** ** sys_exec *)

(** [fetchaddr] and [fetchstr] of syscall.c on the page table of the process. *)
Definition fetchaddr (p : image) (addr : Z) : M kmem (option Z) :=
  if (im_sz p <=? addr) || (im_sz p <? u64 (addr + 8)) then mret None
  else
    '(l, ok) ← copyin kend (im_sz p) (im_pagetable p) (im_pagetable p) addr 8;
    mret (if ok : bool then Some (le_decode l) else None).

Definition fetchstr (p : image) (addr max : Z) : M kmem (option (list Z)) := copyinstr (im_pagetable p) addr max.

(** The pages of [argv], with their strings, and whether the end was reached; [n] is what is left of [NELEM(argv)]. *)
Fixpoint fetch_args (n : nat) (p : image) (uargv i : Z) : M kmem (list (Z * list Z) * bool) :=
  match n with
  | O => mret ([], false)
  | S n' =>
      uarg ← fetchaddr p (u64 (uargv + 8 * i));
      match uarg with
      | None => mret ([], false)
      | Some uarg =>
          if uarg =? 0 then mret ([], true)
          else
            pa ← palloc;
            if pa =? 0 then mret ([], false)
            else
              s ← fetchstr p uarg PGSIZE;
              match s with
              | None => mret ([(pa, [])], false)
              | Some s =>
                  store_bytes pa (s ++ [0]);;
                  '(rest, ok) ← fetch_args n' p uargv (i + 1);
                  mret ((pa, s) :: rest, ok)
              end
      end
  end.

Fixpoint free_args (pas : list Z) : M kmem () :=
  match pas with
  | [] => mret ()
  | pa :: pas' => pfree kend pa;; free_args pas'
  end.

(** [upath] and [uargv] are the arguments of the call. *)
Definition sys_exec (upath uargv : Z) : M xstate Z :=
  p ← gets x_image;
  path ← in_mem (fetchstr p upath MAXPATH);
  match path with
  | None => mret (-1)
  | Some path =>
      '(args, ok) ← in_mem (fetch_args MAXARG p uargv 0);
      if negb ok then in_mem (free_args (map fst args));; mret (-1)
      else
        ret ← kexec path (map snd args);
        in_mem (free_args (map fst args));;
        mret ret
  end.
End exec.

(** ** The stack of the new image *)

(** [bs] is in memory at the user address [a]. *)
Definition bytes_at (m : kmem) (root a : Z) (bs : list Z) : Prop := ∀ k b, bs !! k = Some b → vbyte m root (a + Z.of_nat k) = Some b.

(** Where the strings go, from [sp] down; [n] of [ustack] are used. *)
Fixpoint strings_layout (argv : list (list Z)) (sp stackbase : Z) (n : nat) : option (list Z * Z) :=
  match argv with
  | [] => Some ([], sp)
  | s :: argv' =>
      let a := sp - (Z.of_nat (length s) + 1) in
      let a := a - a mod 16 in
      if (MAXARG <=? n)%nat || (a <? stackbase) then None
      else match strings_layout argv' a stackbase (S n) with Some (us, sp') => Some (a :: us, sp') | None => None end
  end.

Definition args_layout (argv : list (list Z)) (sp stackbase : Z) : option (list Z * Z) :=
  match strings_layout argv sp stackbase 0 with
  | Some (us, sp) =>
      let sp := sp - (Z.of_nat (length us) + 1) * 8 in
      let sp := sp - sp mod 16 in
      if sp <? stackbase then None else Some (us, sp)
  | None => None
  end.

Section args.
Context (kend root cursz curpt stackbase top : Z).
Context (Hbase : PGSIZE ≤ stackbase) (Htop : top ≤ MAXVA).

(** The user can write the stack. *)
Definition writable (m : kmem) : Prop := ∀ va, stackbase ≤ va < top → ∃ e, vpte m root va = Some e ∧ has PTE_W e = true.

(** From [m] to [m']: translations are kept, and so is memory outside the stack below [hi]. *)
Record wrote (m m' : kmem) (tbl' : gmap Z nat) (l' : list Z) (hi : Z) : Prop := {
  wr_space : space kend m' root tbl' l';
  wr_vpte : ∀ va e, 0 ≤ va < MAXVA → vpte m root va = Some e → vpte m' root va = Some e;
  wr_keeps : ∀ va b, 0 ≤ va < MAXVA → va < stackbase ∨ hi ≤ va → vbyte m root va = Some b → vbyte m' root va = Some b;
}.

Lemma wrote_refl m tbl l hi : space kend m root tbl l → wrote m m tbl l hi.
Proof. by split. Qed.

Lemma wrote_trans m m1 tbl1 l1 m2 tbl2 l2 hi hi' : wrote m m1 tbl1 l1 hi → wrote m1 m2 tbl2 l2 hi' → hi' ≤ hi → wrote m m2 tbl2 l2 hi.
Proof.
  intros [S1 V1 K1] [S2 V2 K2] Hh. split; [done|auto|]. intros va b Hva Hout Hb. apply K2; [done|lia|]. by apply K1.
Qed.

Lemma wrote_writable m m' tbl' l' hi : wrote m m' tbl' l' hi → writable m → writable m'.
Proof.
  intros W Hw va Hva. destruct (Hw va Hva) as (e & He & Hwe). exists e. split; [|done]. apply W; [unfold PGSIZE in *; lia|done].
Qed.

Lemma wrote_bytes m m' tbl' l' hi a bs : wrote m m' tbl' l' hi → hi ≤ a → 0 ≤ a → a + Z.of_nat (length bs) ≤ MAXVA →
  bytes_at m root a bs → bytes_at m' root a bs.
Proof. intros W Ha H0 Hl Hb k b Hk. pose proof (lookup_lt_Some _ _ _ Hk). apply W; [lia|lia|by apply Hb]. Qed.

(** Where the pages are mapped [copyout] does not look at the current process. *)
Lemma copyout_mapped fuel : ∀ m tbl l dst src, space kend m root tbl l → 0 ≤ dst → Forall is_u8 src →
  (∀ k, (k < length src)%nat → dst + Z.of_nat k < MAXVA ∧ ∃ e, vpte m root (dst + Z.of_nat k) = Some e ∧ has PTE_W e = true) →
  copyout_loop kend cursz curpt fuel root dst src m = copyout_loop kend 0 root fuel root dst src m.
Proof.
  induction fuel as [|fuel IH]; intros m tbl l dst src S Hdst Hu Hall; [done|]. cbn [copyout_loop].
  destruct src as [|c src0]; [done|]. set (src := c :: src0) in *. assert (Hne : src ≠ []) by done.
  destruct (Z.leb_spec MAXVA (PGROUNDDOWN dst)) as [Hmax|Hmax]; [done|].
  destruct (step_facts dst src Hdst Hne Hu Hmax) as (F1 & F2 & F3 & F4 & F5 & F6 & F7 & F8 & F9).
  destruct (Hall 0%nat) as (_ & e & He & Hw); [cbn; lia|]. rewrite Z.add_0_r in He.
  rewrite <- (vpte_div m root (PGROUNDDOWN dst) dst) in He by done.
  destruct (vpte_page kend m root tbl l _ e S He) as (_ & _ & (_ & _ & Hpos) & _).
  assert (Hup : ∀ cs cp, user_page kend cs cp root (PGROUNDDOWN dst) m = Done (PTE2PA e, m)).
  { intros cs cp. unfold user_page. rewrite (run_bind _ _ _ _ _ (walkaddr_run kend root m tbl l (PGROUNDDOWN dst) S ltac:(lia))), He.
    by rewrite (proj2 (Z.eqb_neq _ 0)) by lia. }
  rewrite (run_bind _ _ _ _ _ (Hup cursz curpt)), (run_bind _ _ _ _ _ (Hup 0 root)).
  rewrite (proj2 (Z.eqb_neq _ 0)) by lia. rewrite !(entry_run kend root _ m tbl l _ e S He) by lia. rewrite Hw. cbn [negb].
  cbn zeta. rewrite F3, !(run_bind _ _ _ _ _ (user_write_run kend root m tbl l _ e (off_of dst) _ S He ltac:(lia))).
  rewrite (u64_id (PGROUNDDOWN dst + PGSIZE)) by (unfold is_u64, MAXVA in *; lia).
  destruct (step_write kend root m tbl l dst src Hdst Hne Hu Hmax m tbl l e (extends_refl kend nothing root m tbl l S) He Hw) as (W1 & _ & W3 & _).
  apply (IH _ tbl l); [done|lia|by apply Forall_drop|]. rewrite length_drop. intros k Hk.
  destruct (Hall (Z.to_nat (chunk_len dst (Z.of_nat (length src))) + k)%nat) as (H1 & e' & H2 & H3); [lia|].
  replace (PGROUNDDOWN dst + PGSIZE + Z.of_nat k) with (dst + Z.of_nat (Z.to_nat (chunk_len dst (Z.of_nat (length src))) + k)) by lia.
  split; [done|]. exists e'. by rewrite W3.
Qed.

Lemma copyout_stack m tbl l dst src hi : space kend m root tbl l → writable m → Forall is_u8 src →
  stackbase ≤ dst → dst + Z.of_nat (length src) ≤ hi → hi ≤ top →
  ∃ m' tbl' l', copyout kend cursz curpt root dst src m = Done (0, m') ∧ wrote m m' tbl' l' hi ∧ bytes_at m' root dst src.
Proof.
  intros S Hw Hu Hdst Hhi Ht. assert (Hall : ∀ k, (k < length src)%nat → dst + Z.of_nat k < MAXVA ∧
    ∃ e, vpte m root (dst + Z.of_nat k) = Some e ∧ has PTE_W e = true) by (intros k Hk; split; [lia|apply Hw; lia]).
  assert (Hd0 : 0 ≤ dst) by (unfold PGSIZE in *; lia).
  unfold copyout. rewrite (copyout_mapped _ m tbl l dst src S Hd0 Hu Hall).
  destruct (copyout_loop_run kend root 0 ltac:(unfold MAXVA; lia) (Datatypes.S (length src)) m tbl l dst src S Hd0 Hu ltac:(lia))
    as (r & m' & tbl' & l' & E & [_ X K W F]).
  specialize (F Hall). subst r. exists m', tbl', l'. split; [exact E|]. split.
  - split; [apply X|apply X|]. intros va b Hva Hout Hb. apply K; [done|lia|done].
  - intros k b Hk. by apply (W eq_refl).
Qed.

Lemma align16 a : 0 ≤ a mod 16 < 16 ∧ (a - a mod 16) mod 16 = 0.
Proof. Z.div_mod_to_equations. lia. Qed.

(** A string of an argument fits in a page with its NUL. *)
Definition arg_ok (s : list Z) : Prop := Forall is_u8 s ∧ Z.of_nat (length s) < PGSIZE.

Lemma push_args_run argv : ∀ m tbl l sp us, space kend m root tbl l → writable m → Forall arg_ok argv →
  stackbase ≤ sp ≤ top →
  ∃ m' tbl' l', wrote m m' tbl' l' sp ∧
    match strings_layout argv sp stackbase (length us) with
    | None => push_args kend cursz curpt root argv sp stackbase us m = Done (None, m')
    | Some (us', sp') =>
        push_args kend cursz curpt root argv sp stackbase us m = Done (Some (sp', us ++ us'), m') ∧
        stackbase ≤ sp' ≤ sp ∧ length us' = length argv ∧
        ∀ i s a, argv !! i = Some s → us' !! i = Some a →
          a mod 16 = 0 ∧ sp' ≤ a ∧ a + Z.of_nat (length s) < sp ∧ bytes_at m' root a (s ++ [0])
    end.
Proof.
  induction argv as [|s argv IH]; intros m tbl l sp us S Hw Hok Hsp.
  { exists m, tbl, l. split; [by apply wrote_refl|]. cbn. rewrite app_nil_r. split_and!; [done|lia|lia|done|]. intros i s a Hi. by destruct i. }
  apply Forall_cons in Hok as [[Hu Hl] Hok]. cbn [push_args strings_layout]. destruct (Nat.leb_spec MAXARG (length us)) as [Hmax|Hmax].
  { exists m, tbl, l. split; [by apply wrote_refl|done]. }
  cbn [orb]. set (a0 := sp - (Z.of_nat (length s) + 1)). rewrite (u64_id a0) by (unfold is_u64, a0, MAXVA, PGSIZE in *; lia).
  destruct (align16 a0) as [Ha1 Ha2]. assert (Ea0 : a0 = sp - (Z.of_nat (length s) + 1)) by done. clearbody a0.
  set (a := a0 - a0 mod 16) in *. assert (Ea : a = a0 - a0 mod 16) by done. clearbody a. destruct (Z.ltb_spec a stackbase) as [Hlow|Hlow].
  { exists m, tbl, l. split; [by apply wrote_refl|done]. }
  assert (Hlen : a + Z.of_nat (length (s ++ [0])) ≤ sp) by (rewrite length_app; cbn [length]; lia).
  destruct (copyout_stack m tbl l a (s ++ [0]) sp S Hw) as (m1 & tbl1 & l1 & E1 & W1 & B1); [|done|done|lia|].
  { apply Forall_app. split; [done|]. constructor; [by unfold is_u8|constructor]. }
  pose proof (wrote_writable _ _ _ _ _ W1 Hw) as Hw1. pose proof (wr_space _ _ _ _ _ W1) as S1.
  destruct (IH m1 tbl1 l1 a (us ++ [a]) S1 Hw1 Hok ltac:(lia)) as (m2 & tbl2 & l2 & W2 & H2).
  exists m2, tbl2, l2. split; [apply (wrote_trans m m1 tbl1 l1 m2 tbl2 l2 sp a); [done|done|lia]|].
  rewrite (run_bind _ _ _ _ _ E1). change (0 <? 0) with false. cbv iota.
  rewrite length_app in H2. cbn [length] in H2. rewrite Nat.add_1_r in H2.
  destruct (strings_layout argv a stackbase (Datatypes.S (length us))) as [[us' sp']|]; [|done].
  destruct H2 as (E2 & Hsp' & Hus' & Hall). rewrite <- app_assoc in E2. split_and!; [exact E2|lia|lia|cbn; lia|].
  intros [|i] t b Hi Hb; cbn in Hi, Hb.
  - injection Hi as <-. injection Hb as <-. split_and!; [done|lia|rewrite length_app in Hlen; cbn in Hlen; lia|].
    apply (wrote_bytes m1 m2 tbl2 l2 a); [done|lia|unfold PGSIZE in *; lia|lia|done].
  - destruct (Hall i t b Hi Hb) as (A1 & A2 & A3 & A4). split_and!; [done|lia|lia|done].
Qed.

Lemma length_ustack_bytes us : length (ustack_bytes us) = (8 * length us)%nat.
Proof. unfold ustack_bytes. induction us as [|u us IH]; [done|]. cbn [map concat length]. rewrite length_app, length_le_encode, IH. lia. Qed.

Lemma ustack_bytes_u8 us : Forall is_u8 (ustack_bytes us).
Proof. apply Forall_concat, Forall_map, Forall_true. intros. apply le_encode_u8. Qed.

Lemma strings_layout_short argv : ∀ sp n us sp', (n ≤ MAXARG)%nat →
  strings_layout argv sp stackbase n = Some (us, sp') → (length argv + n ≤ MAXARG)%nat.
Proof.
  induction argv as [|s argv IH]; intros sp n us sp' Hn; cbn [strings_layout length]; [lia|].
  destruct (Nat.leb_spec MAXARG n); [done|]. cbn [orb]. case_match; [done|].
  destruct (strings_layout argv _ stackbase (S n)) as [[us' sp'']|] eqn:E; [|done]. intros _. apply IH in E; lia.
Qed.

(** C34: The stack a program starts with.  [exec_args] fails exactly when [args_layout] says that
    the strings and the pointers do not fit in the stack, or are more than [MAXARG], and never
    panics or leaves the pages of the new image; otherwise [sp] is a multiple of 16 in the stack, at
    [sp] there are the pointers, the last one null, each pointer is a multiple of 16 and points to
    its string, with its NUL, and everything outside the stack is as it was.  The exception is
    exactly [MAXARG] strings that fit: the null pointer is then stored past the end of [ustack]. *)
Theorem exec_args_stack argv m tbl l : space kend m root tbl l → writable m → Forall arg_ok argv → stackbase ≤ top →
  if decide (length argv = MAXARG ∧ is_Some (strings_layout argv top stackbase 0))
  then exec_args kend cursz curpt root argv top stackbase m = Undef
  else ∃ m' tbl' l', wrote m m' tbl' l' top ∧
    match args_layout argv top stackbase with
    | None => exec_args kend cursz curpt root argv top stackbase m = Done (None, m')
    | Some (us, sp) =>
        exec_args kend cursz curpt root argv top stackbase m = Done (Some sp, m') ∧
        sp mod 16 = 0 ∧ stackbase ≤ sp ∧ length us = length argv ∧ bytes_at m' root sp (ustack_bytes (us ++ [0])) ∧
        ∀ i s a, argv !! i = Some s → us !! i = Some a →
          a mod 16 = 0 ∧ sp < a ∧ a + Z.of_nat (length s) < top ∧ bytes_at m' root a (s ++ [0])
    end.
Proof.
  intros S Hw Hok Hst. destruct (push_args_run argv m tbl l top [] S Hw Hok ltac:(lia)) as (m1 & tbl1 & l1 & W1 & H1).
  unfold args_layout. cbn [length] in H1. destruct (strings_layout argv top stackbase 0) as [[us sp0]|] eqn:El.
  2: { rewrite decide_False by (intros [_ [? ?]]; done). exists m1, tbl1, l1. split; [done|]. unfold exec_args. by rewrite (run_bind _ _ _ _ _ H1). }
  destruct H1 as (E1 & Hsp0 & Hus & Hall). cbn [app] in E1. pose proof (strings_layout_short argv top 0 us sp0 ltac:(unfold MAXARG; lia) El) as Hn.
  destruct (decide _) as [[Hfull _]|Hfull].
  { unfold exec_args. rewrite (run_bind _ _ _ _ _ E1), (proj2 (Nat.leb_le MAXARG (length us))) by lia. done. }
  assert (Hlt : (length us < MAXARG)%nat).
  { destruct (decide (length argv = MAXARG)); [|lia]. destruct Hfull. split; [done|by eexists]. }
  assert (Hn8 : Z.of_nat (length us + 1) * 8 ≤ 256) by (unfold MAXARG in Hlt; lia).
  set (a0 := sp0 - (Z.of_nat (length us) + 1) * 8).
  destruct (align16 a0) as [Ha1 Ha2]. assert (Ea0 : a0 = sp0 - (Z.of_nat (length us) + 1) * 8) by done. clearbody a0.
  set (a := a0 - a0 mod 16) in *. assert (Ea : a = a0 - a0 mod 16) by done.
  assert (Hu : u64 a0 = a0) by (apply u64_id; unfold is_u64, MAXVA, PGSIZE in *; lia).
  assert (Hex : exec_args kend cursz curpt root argv top stackbase m =
    (if a <? stackbase then mret None
     else r ← copyout kend cursz curpt root a (ustack_bytes (us ++ [0])); if r <? 0 then mret None else mret (Some a)) m1).
  { unfold exec_args. rewrite (run_bind _ _ _ _ _ E1), (proj2 (Nat.leb_gt MAXARG (length us))) by done. cbn beta iota zeta.
    rewrite length_app. cbn [length].
    replace (sp0 - Z.of_nat (length us + 1) * 8) with a0 by lia. by rewrite Hu. }
  rewrite Hex. destruct (Z.ltb_spec a stackbase) as [Hlow|Hlow]; [by exists m1, tbl1, l1|].
  pose proof (wrote_writable _ _ _ _ _ W1 Hw) as Hw1. pose proof (wr_space _ _ _ _ _ W1) as S1.
  destruct (copyout_stack m1 tbl1 l1 a (ustack_bytes (us ++ [0])) sp0 S1 Hw1 (ustack_bytes_u8 _) Hlow) as (m2 & tbl2 & l2 & E2 & W2 & B2); [|lia|].
  { rewrite length_ustack_bytes, length_app. cbn [length]. lia. }
  exists m2, tbl2, l2. split; [apply (wrote_trans m m1 tbl1 l1 m2 tbl2 l2 top sp0); [done|done|lia]|].
  rewrite (run_bind _ _ _ _ _ E2). change (0 <? 0) with false. cbv iota.
  split_and!; [done|done|done|done|done|]. intros i s b Hi Hb. destruct (Hall i s b Hi Hb) as (A1 & A2 & A3 & A4).
  pose proof (Forall_lookup_1 _ _ _ _ Hok Hi) as [_ Hls].
  split_and!; [done|lia|lia|]. apply (wrote_bytes m1 m2 tbl2 l2 sp0); [done|lia|unfold PGSIZE in *; lia| |done].
  rewrite length_app. cbn [length]. lia.
Qed.
End args.

(** One page of stack, and the arguments of [echo hi]. *)
Definition stack_mem : kmem := match copyout five_pages (3 * PGSIZE) demo_root demo_root (2 * PGSIZE) [0] demo_mem with Done (_, m) => m | _ => demo_mem end.

Lemma exec_args_stack_witness :
  args_layout [bytes "echo"; bytes "hi"] (3 * PGSIZE) (2 * PGSIZE) = Some ([3 * PGSIZE - 16; 3 * PGSIZE - 32], 3 * PGSIZE - 64) ∧
  ∃ m', exec_args five_pages 0 0 demo_root [bytes "echo"; bytes "hi"] (3 * PGSIZE) (2 * PGSIZE) stack_mem = Done (Some (3 * PGSIZE - 64), m') ∧
    bytes_at m' demo_root (3 * PGSIZE - 16) (bytes "echo" ++ [0]).
Proof.
  assert (Hl : args_layout [bytes "echo"; bytes "hi"] (3 * PGSIZE) (2 * PGSIZE) = Some ([3 * PGSIZE - 16; 3 * PGSIZE - 32], 3 * PGSIZE - 64)) by (vm_compute; reflexivity).
  split; [exact Hl|].
  destruct (copyout_loop_run five_pages demo_root (3 * PGSIZE) ltac:(by vm_compute) 2 demo_mem _ _ (2 * PGSIZE) [0] demo_space)
    as (r & m1 & tbl1 & l1 & E & C); [by vm_compute|by repeat constructor|cbn; lia|].
  assert (Em : stack_mem = m1) by (unfold stack_mem, copyout; cbn [length]; by rewrite E).
  assert (Hv : match vpte stack_mem demo_root (2 * PGSIZE) with Some e => has PTE_W e | None => false end = true) by (vm_compute; reflexivity).
  assert (Hw : writable demo_root (2 * PGSIZE) (3 * PGSIZE) stack_mem).
  { intros va Hva. rewrite (vpte_div stack_mem demo_root va (2 * PGSIZE)) by (unfold PGSIZE in *; Z.div_mod_to_equations; lia).
    revert Hv. generalize (vpte stack_mem demo_root (2 * PGSIZE)). intros [e|] Hv; [exists e; split; [reflexivity|exact Hv]|discriminate Hv]. }
  assert (Hu : space five_pages stack_mem demo_root tbl1 l1) by (rewrite Em; apply C).
  pose proof (exec_args_stack five_pages demo_root 0 0 (2 * PGSIZE) (3 * PGSIZE) ltac:(by vm_compute) ltac:(by vm_compute)
    [bytes "echo"; bytes "hi"] stack_mem tbl1 l1 Hu Hw ltac:(repeat constructor; by vm_compute) ltac:(by vm_compute)) as H.
  rewrite decide_False in H by (intros [? _]; discriminate). destruct H as (m' & tbl' & l' & _ & H). rewrite Hl in H.
  destruct H as (E2 & _ & _ & _ & _ & Hall). exists m'. split; [exact E2|]. by destruct (Hall 0%nat _ _ eq_refl eq_refl) as (_ & _ & _ & ?).
Defined.

(** As many empty strings as [ustack] has elements fit in the stack: the store of the null pointer is
    past its end. *)
Example exec_args_full : exec_args five_pages 0 0 demo_root (replicate 32 []) (3 * PGSIZE) (2 * PGSIZE) stack_mem = Undef.
Proof. vm_compute. reflexivity. Qed.

(** ** A program *)

(** An ELF file with one segment: 8 bytes of code at address 0, entry point 4. *)
Definition tiny_elf : list Z :=
  le_encode 4 ELF_MAGIC ++ replicate 20 0 ++ le_encode 8 4 ++ le_encode 8 64 ++ replicate 16 0 ++ le_encode 2 1 ++ replicate 6 0 ++
  le_encode 4 ELF_PROG_LOAD ++ le_encode 4 5 ++ le_encode 8 120 ++ le_encode 8 0 ++ le_encode 8 0 ++ le_encode 8 8 ++ le_encode 8 8 ++ le_encode 8 4096 ++
  [1; 2; 3; 4; 5; 6; 7; 8].

(** The disk of Walk.v with that file as [notes]. *)
Definition elf_disk : disk :=
  <[(1, 33) := demo_dir 1 50 64 (demo_dir 2 51 48 (demo_file 3 52 128 zero_block))]>
  (<[(1, 52) := blit zero_block 0 tiny_elf]> demo_disk).
Definition elf_fs : fsys :=
  mk_fsys (mk_lsys (binit elf_disk) (mk_log 2 0 0 1 (mk_lh 0 (replicate 30 0))) [])
    (mk_inode 1 2 2 initsleeplock 0 0 0 0 0 0 [] :: replicate 49 inode0) demo_sb.

(** A process with twenty pages of memory, the path at 2 * PGSIZE and [argv] after it. *)
Definition twenty_pages : Z := PHYSTOP - 20 * PGSIZE.
Definition caller_bytes : list Z := bytes "/notes" ++ replicate 10 0 ++ le_encode 8 (2 * PGSIZE) ++ le_encode 8 0.
Definition caller (f : fsys) : xstate :=
  match kinit twenty_pages ∅ with
  | Ok m =>
      match (tf ← palloc; pt ← proc_pagetable twenty_pages KERNBASE tf;
             copyout twenty_pages (3 * PGSIZE) pt pt (2 * PGSIZE) caller_bytes;; mret (tf, pt)) m with
      | Done (tf, pt, m) => mk_xstate f m (mk_image pt (3 * PGSIZE) tf (replicate 16 0))
      | _ => mk_xstate f m (mk_image 0 0 0 [])
      end
  | Panic => mk_xstate f (mk_kmem ∅ 0) (mk_image 0 0 0 [])
  end.
Definition run_exec (f : fsys) : result (Z * xstate) :=
  sys_exec twenty_pages 7 KERNBASE (Some demo_agent) (2 * PGSIZE) (2 * PGSIZE + 16) (caller f).

(** The code is at 0, its page is zero from there on, the page below the stack is out of
    reach, argv[0] is at the top of the stack, and the registers are set. *)
Example exec_tiny :
  match run_exec elf_fs with
  | Done (r, x) =>
      (r, map (vbyte (x_mem x) (im_pagetable (x_image x))) [0; 7; 8; PGSIZE; 2 * PGSIZE; 3 * PGSIZE - 16; 3 * PGSIZE - 15],
       (tf ← gets (λ _, im_trapframe (x_image x)); pc ← load64 (tf_epc tf); sp ← load64 (tf_sp tf); a1 ← load64 (tf_a1 tf); mret (pc, sp, a1)) (x_mem x))
        = (1, [Some 1; Some 8; Some 0; None; Some 0; Some 47; Some 110], Done (4, 3 * PGSIZE - 32, 3 * PGSIZE - 32, x_mem x))
  | _ => False
  end.
Proof. vm_compute. reflexivity. Qed.

(** A file that is no program is not run: the image and the bytes of the process are there as before. *)
Example exec_text :
  match run_exec demo_fs with
  | Done (r, x) =>
      let seen m := map (vbyte m (im_pagetable (x_image (caller demo_fs)))) [0; 2 * PGSIZE; 2 * PGSIZE + 1; 2 * PGSIZE + 6; 3 * PGSIZE - 1] in
      (r, x_image x, seen (x_mem x)) = (-1, x_image (caller demo_fs), seen (x_mem (caller demo_fs)))
  | _ => False
  end.
Proof. vm_compute. reflexivity. Qed.
