(* ===== verification/Cache.v ===== *)
(** * kernel/cache.c: the LLM response cache (F9)

    A 16-slot RAM table with LRU eviction over an append-only record file
    [/cache.bin], looked up by FNV-1a hash, with a MinHash/Jaccard fallback on
    the RAM slots.

    The file system below the cache is the interface [CacheFile]: what
    [namei]/[create]/[readi]/[writei] do on the one path [/cache.bin].  Every
    definition is parametrised by it, and the theorems that need more than its
    shape assume the laws [CacheFileLaws].  [RamFile] is an implementation with
    a size limit (the file system's MAXFILE*BSIZE) that satisfies them.

    Critical sections are executed whole, one after the other; [ticks] is the
    value of the tick counter during the call. *)

From S2P Require Import Prelude CString.

Local Open Scope Z_scope.

Definition CACHE_SLOTS : nat := 16.
Definition CACHE_VAL : Z := 1024.
Definition DISK_MAX_BYTES : Z := 4 * 1024 * 1024.
Definition SIG_K : nat := 64.
Definition WORD_MAX : nat := 32.
Definition SEMANTIC_MATCH_NUM : Z := 2.
Definition SEMANTIC_MATCH_DEN : Z := 5.
Definition MIN_WORDS_FOR_SEMANTIC : Z := 3.
#[global] Arguments CACHE_SLOTS : simpl never.
#[global] Arguments SIG_K : simpl never.
#[global] Arguments WORD_MAX : simpl never.

(** ** Data *)

(** [struct cache_entry]. *)
Record cache_entry := mk_entry {
  hash : Z;          (* 0 = free slot *)
  last_access : Z;   (* ticks *)
  vlen : Z;
  has_sig : Z;
  sig : list Z;      (* SIG_K words *)
  val : list Z;      (* CACHE_VAL bytes *)
}.

(** [struct disk_record] as the compiler lays it out: the hash at offset 0,
    [vlen] at 8, [val] at 10, six bytes of padding at the end. *)
Definition sizeof_rec : nat := 1040.
#[global] Arguments sizeof_rec : simpl never.
Definition rec_hash (r : list Z) : Z := le_decode (sub 0 8 r).
Definition rec_vlen (r : list Z) : Z := le_decode (sub 8 2 r).
Definition rec_val (r : list Z) : list Z := sub 10 (Z.to_nat CACHE_VAL) r.

(** What the file system does on [/cache.bin]. [cf_size] is [None] when [namei]
    fails; [cf_readi f off n] are the bytes [readi] copies; [cf_writei] returns
    the number of bytes written, -1 on error. *)
Class CacheFile (F : Type) := {
  cf_size : F → option Z;
  cf_readi : F → Z → Z → list Z;
  cf_create : F → option F;
  cf_writei : F → Z → list Z → F * Z;
}.

(** The static data of cache.c. *)
Record state (F : Type) := mk_state {
  cache_ram : list cache_entry;
  tmp_val_buf : list Z;
  rec_buf : list Z;
  cache_file : F;
}.
Arguments mk_state {F}.
Arguments cache_ram {F}.
Arguments tmp_val_buf {F}.
Arguments rec_buf {F}.
Arguments cache_file {F}.

(** The state at boot: zeroed static memory. *)
Definition empty_entry : cache_entry :=
  mk_entry 0 0 0 0 (replicate SIG_K 0) (replicate (Z.to_nat CACHE_VAL) 0).

Definition cacheinit {F} (f : F) : state F :=
  mk_state (replicate CACHE_SLOTS empty_entry) (replicate (Z.to_nat CACHE_VAL) 0)
           (replicate sizeof_rec 0) f.

(** ** Hashing *)

Definition fnv_prime : Z := 0x100000001b3.

Definition fnv_step (h c : Z) : Z := u64 (Z.lxor h (u8 c) * fnv_prime).

Definition fnv1a_64 (data : list Z) (len : nat) : Z :=
  let h := fold_left fnv_step (take len data) 0xcbf29ce484222325 in
  if h =? 0 then 1 else h.

Definition fnv1a_64_pair (s : list Z) (n : nat) : Z * Z :=
  let a := fold_left fnv_step (take n s) 0xcbf29ce484222325 in
  let b := fold_left fnv_step (take n s) 0x84222325cbf29ce4 in
  (if a =? 0 then 1 else a, if b =? 0 then 1 else b).

Definition is_wordbyte (c : Z) : bool :=
  ((48 <=? c) && (c <=? 57)) || ((65 <=? c) && (c <=? 90)) ||
  ((97 <=? c) && (c <=? 122)) || (128 <=? c).

Definition stopwords : list (list Z) :=
  map bytes [ "the"; "a"; "an"; "is"; "are"; "was"; "of"; "to"; "in"; "on"; "at";
    "for"; "and"; "or"; "what"; "how"; "why"; "do"; "does"; "did";
    "i"; "you"; "it"; "this"; "that"; "me"; "my"; "please"; "can" ]%string.

(** [while(j < wl && s[j] && s[j] == w[j]) j++;] and the test after it. *)
Fixpoint stop_match (s w : list Z) : bool :=
  match w with
  | [] => hd 0 s =? 0
  | c :: w' => if negb (hd 0 s =? 0) && (hd 0 s =? c) then stop_match (tl s) w' else false
  end.

Definition is_stopword (w : list Z) : bool := existsb (λ s, stop_match s w) stopwords.

(** ** MinHash signatures *)

Definition to_lower (c : Z) : Z := if (65 <=? c) && (c <=? 90) then c + 32 else c.

(** [while(i < klen && !is_wordbyte(key[i])) i++;] *)
Fixpoint skip_sep (key : list Z) : list Z :=
  match key with
  | [] => []
  | c :: key' => if is_wordbyte c then key else skip_sep key'
  end.

(** The inner loop that collects one word into [w]; returns [w[0..wl)] and the
    rest of the key. *)
Fixpoint collect_word (key w : list Z) : list Z * list Z :=
  match key with
  | [] => (w, [])
  | c :: key' =>
      if is_wordbyte c
      then collect_word key' (if (length w <? WORD_MAX)%nat then w ++ [to_lower c] else w)
      else (w, key)
  end.

(** [g = h1 + (uint64)k * h2; if(g == 0) g = 1;] *)
Definition sig_hash (w : list Z) (k : nat) : Z :=
  let '(h1, h2) := fnv1a_64_pair w (length w) in
  let g := u64 (h1 + u64 (Z.of_nat k * h2)) in
  if g =? 0 then 1 else g.

Definition sig_update (w : list Z) (out : list Z) : list Z :=
  imap (λ k o, let g := sig_hash w k in if g <? o then g else o) out.

(** The outer loop of [build_signature] on the rest of the key. Every round
    consumes at least one byte, so [fuel] = the length of the key is enough
    ([sig_loop_words] below). *)
Fixpoint sig_loop (fuel : nat) (key : list Z) (n_word : Z) (out : list Z) : Z * list Z :=
  match fuel with
  | O => (n_word, out)
  | S fuel' =>
      match skip_sep key with
      | [] => (n_word, out)
      | key1 =>
          let '(w, key2) := collect_word key1 [] in
          if is_stopword w then sig_loop fuel' key2 n_word out
          else sig_loop fuel' key2 (n_word + 1) (sig_update w out)
      end
  end.

(** Returns the number of content words (0 when too few) and [out_sig]. *)
Definition build_signature (key : list Z) (klen : Z) : Z * list Z :=
  let k := take (Z.to_nat klen) key in
  let '(n_word, out) := sig_loop (length k) k 0 (replicate SIG_K (2 ^ 64 - 1)) in
  if n_word <? MIN_WORDS_FOR_SEMANTIC then (0, out) else (n_word, out).

Definition jaccard_match_count (a b : list Z) : Z :=
  Z.of_nat (length (List.filter (λ ab, ab.1 =? ab.2) (zip a b))).

(** ** The record file *)

Section cache.
  Context `{CacheFile F}.
  Implicit Types s : state F.

  (** [off] runs over the record offsets; [fuel] bounds the number of records. *)
Fixpoint scan_loop (fuel : nat) (f : F) (sz off hash : Z) (rec : list Z) :
    option (list Z) * list Z :=
  match fuel with
  | O => (None, rec)
  | S fuel' =>
      if off + Z.of_nat sizeof_rec <=? sz then
        let data := cf_readi f off (Z.of_nat sizeof_rec) in
        let rec := blit rec 0 data in
        if negb (length data =? sizeof_rec)%nat then (None, rec)
        else if rec_hash rec =? hash then (Some rec, rec)
        else scan_loop fuel' f sz (u32 (off + Z.of_nat sizeof_rec)) hash rec
      else (None, rec)
  end.

  (** Returns [found] and the value buffer. *)
Definition disk_scan (hash : Z) (valbuf : list Z) (vbuflen : Z) (s : state F) :
    Z * list Z * state F :=
  match cf_size (cache_file s) with
  | None => (-1, valbuf, s)
  | Some sz =>
      let '(r, rec) := scan_loop (Z.to_nat (sz / Z.of_nat sizeof_rec)) (cache_file s)
                         sz 0 hash (rec_buf s) in
      let s' := mk_state (cache_ram s) (tmp_val_buf s) rec (cache_file s) in
      match r with
      | None => (-1, valbuf, s')
      | Some rb =>
          let vlen := if CACHE_VAL <? rec_vlen rb then CACHE_VAL else rec_vlen rb in
          let n := if vlen <? vbuflen then vlen else vbuflen in
          (vlen, blit valbuf 0 (take (Z.to_nat n) (rec_val rb)), s')
      end
  end.

  (** The stores into [rec_buf]: hash, vlen, val and the zeroed tail of val. *)
Definition fill_rec (rec : list Z) (hash : Z) (val : list Z) (vlen : Z) : list Z :=
  let rec := blit rec 0 (le_encode 8 hash) in
  let rec := blit rec 8 (le_encode 2 (u16 vlen)) in
  let rec := blit rec 10 (take (Z.to_nat vlen) val) in
  if vlen <? CACHE_VAL
  then blit rec (10 + Z.to_nat vlen) (replicate (Z.to_nat (CACHE_VAL - vlen)) 0)
  else rec.

Definition disk_append (hash : Z) (val : list Z) (vlen : Z) (s : state F) : Z * state F :=
  if (vlen <? 0) || (CACHE_VAL <? vlen) then (-1, s) else
  let rec := fill_rec (rec_buf s) hash val vlen in
  let upd f := mk_state (cache_ram s) (tmp_val_buf s) rec f in
  let ip := match cf_size (cache_file s) with
            | Some _ => Some (cache_file s)
            | None => cf_create (cache_file s)
            end in
  match ip with
  | None => (-1, upd (cache_file s))
  | Some f =>
      let size := default 0 (cf_size f) in
      if DISK_MAX_BYTES <? size + Z.of_nat sizeof_rec then (-1, upd f)
      else
        let '(f', n) := cf_writei f size rec in
        (if n =? Z.of_nat sizeof_rec then 0 else -1, upd f')
  end.

  (** ** The RAM table *)

Definition ram_find (hash0 : Z) (ram : list cache_entry) : option nat :=
  find_index (λ e, hash e =? hash0) ram.

  (** The LRU scan: the first slot of minimal [last_access]. *)
Fixpoint lru_loop (l : list cache_entry) (j lru : nat) (lru_tick : Z) : nat :=
  match l with
  | [] => lru
  | e :: l' =>
      if last_access e <? lru_tick then lru_loop l' (S j) j (last_access e)
      else lru_loop l' (S j) lru lru_tick
  end.

Definition lru_slot (ram : list cache_entry) : nat :=
  lru_loop (tail ram) 1 0 (last_access (hd empty_entry ram)).

  (** The slot [cache_set] writes, and what it evicts. *)
Definition choose_slot (hash0 : Z) (ram : list cache_entry) : nat * (Z * list Z * Z) :=
  match ram_find hash0 ram with
  | Some i => (i, (0, [], 0))
  | None =>
      match ram_find 0 ram with
      | Some j => (j, (0, [], 0))
      | None =>
          let lru := lru_slot ram in
          let e := nth lru ram empty_entry in
          (lru, (hash e, take (Z.to_nat (vlen e)) (val e), vlen e))
      end
  end.

Definition write_slot (hash0 : Z) (key : list Z) (klen : Z) (val0 : list Z) (vlen0 ticks : Z)
    (e : cache_entry) : cache_entry :=
  let '(ns, sig0) := build_signature key klen in
  mk_entry hash0 ticks (u16 vlen0) (if 0 <? ns then 1 else 0) sig0
    (blit (val e) 0 (take (Z.to_nat vlen0) val0)).

Definition cache_set (key : list Z) (klen : Z) (val0 : list Z) (vlen0 ticks : Z) (s : state F) :
    Z * state F :=
  if (klen <=? 0) || (vlen0 <? 0) || (CACHE_VAL <? vlen0) then (-1, s) else
  let hash0 := fnv1a_64 key (Z.to_nat klen) in
  let '(i, (evict_hash, evict_val, evict_vlen)) := choose_slot hash0 (cache_ram s) in
  let ram := alter (write_slot hash0 key klen val0 vlen0 ticks) i (cache_ram s) in
  let s := mk_state ram (tmp_val_buf s) (rec_buf s) (cache_file s) in
  if negb (evict_hash =? 0)
  then (0, (disk_append evict_hash evict_val evict_vlen s).2)
  else (0, s).

Definition touch (ticks : Z) (e : cache_entry) : cache_entry :=
  mk_entry (hash e) ticks (vlen e) (has_sig e) (sig e) (val e).

  (** The promotion of a disk hit into a free slot; the signature is not rebuilt. *)
Definition promote_slot (hash0 vlen0 ticks : Z) (buf : list Z) (e : cache_entry) : cache_entry :=
  mk_entry hash0 ticks (u16 vlen0) 0 (sig e) (blit (val e) 0 (take (Z.to_nat vlen0) buf)).

Definition promote (hash0 vlen0 ticks : Z) (s : state F) : state F :=
  match ram_find hash0 (cache_ram s) with
  | Some _ => s
  | None =>
      match ram_find 0 (cache_ram s) with
      | None => s
      | Some j =>
          mk_state (alter (promote_slot hash0 vlen0 ticks (tmp_val_buf s)) j (cache_ram s))
            (tmp_val_buf s) (rec_buf s) (cache_file s)
      end
  end.

  (** Returns the length of the value (-1 on a miss) and the caller's buffer. *)
Definition cache_get_exact (key : list Z) (klen : Z) (valbuf : list Z) (vbuflen ticks : Z)
    (s : state F) : Z * list Z * state F :=
  if (klen <=? 0) || (vbuflen <=? 0) then (-1, valbuf, s) else
  let hash0 := fnv1a_64 key (Z.to_nat klen) in
  match ram_find hash0 (cache_ram s) with
  | Some i =>
      let e := nth i (cache_ram s) empty_entry in
      let n := if vlen e <? vbuflen then vlen e else vbuflen in
      (vlen e, blit valbuf 0 (take (Z.to_nat n) (val e)),
       mk_state (alter (touch ticks) i (cache_ram s)) (tmp_val_buf s) (rec_buf s) (cache_file s))
  | None =>
      let '(vlen0, tmp, s) := disk_scan hash0 (tmp_val_buf s) CACHE_VAL s in
      let s := mk_state (cache_ram s) tmp (rec_buf s) (cache_file s) in
      if vlen0 <? 0 then (-1, valbuf, s) else
      let n := if vlen0 <? vbuflen then vlen0 else vbuflen in
      let copy_vlen := if CACHE_VAL <? vlen0 then CACHE_VAL else vlen0 in
      (vlen0, blit valbuf 0 (take (Z.to_nat n) tmp), promote hash0 copy_vlen ticks s)
  end.

  (** The scan for the best match: [(best, best_match, best_tick)], [best] = -1
      for none. *)
Fixpoint semantic_loop (qsig : list Z) (l : list cache_entry) (j best best_match best_tick : Z) :
    Z * Z * Z :=
  match l with
  | [] => (best, best_match, best_tick)
  | e :: l' =>
      if (hash e =? 0) || (has_sig e =? 0)
      then semantic_loop qsig l' (j + 1) best best_match best_tick
      else
        let m := jaccard_match_count qsig (sig e) in
        if (best_match <? m) || ((m =? best_match) && (best_tick <? last_access e))
        then semantic_loop qsig l' (j + 1) j m (last_access e)
        else semantic_loop qsig l' (j + 1) best best_match best_tick
  end.

  (** Returns the value length, the buffer and [*out_score]. *)
Definition cache_get_semantic (key : list Z) (klen : Z) (valbuf : list Z) (vbuflen ticks : Z)
    (s : state F) : Z * list Z * Z * state F :=
  if (klen <=? 0) || (vbuflen <=? 0) then (-1, valbuf, 0, s) else
  let '(n_shingle, qsig) := build_signature key klen in
  if n_shingle =? 0 then (-1, valbuf, 0, s) else
  let '(best, best_match, _) := semantic_loop qsig (cache_ram s) 0 (-1) (-1) 0 in
  if (best <? 0) || (best_match * SEMANTIC_MATCH_DEN <? SEMANTIC_MATCH_NUM * Z.of_nat SIG_K)
  then (-1, valbuf, 0, s)
  else
    let e := nth (Z.to_nat best) (cache_ram s) empty_entry in
    let n := if vlen e <? vbuflen then vlen e else vbuflen in
    (vlen e, blit valbuf 0 (take (Z.to_nat n) (val e)), best_match,
     mk_state (alter (touch ticks) (Z.to_nat best) (cache_ram s))
       (tmp_val_buf s) (rec_buf s) (cache_file s)).

Definition cache_get (key : list Z) (klen : Z) (valbuf : list Z) (vbuflen ticks : Z) (s : state F) :
    Z * list Z * state F :=
  let '(v, valbuf, s) := cache_get_exact key klen valbuf vbuflen ticks s in
  if 0 <=? v then (v, valbuf, s)
  else let '(v, valbuf, _, s) := cache_get_semantic key klen valbuf vbuflen ticks s in
       (v, valbuf, s).
End cache.

(** ** The file system interface: laws and an implementation *)

(** [cf_data] is the content of the file; the laws are the behaviour cache.c
    relies on: [readi] inside the file is exact, [create] makes an empty file,
    and a [writei] at the end that reports every byte has appended them. *)
Class CacheFileLaws (F : Type) `{CacheFile F} := {
  cf_data : F → option (list Z);
  cf_data_u8 f d : cf_data f = Some d → Forall is_u8 d;
  cf_data_small f d : cf_data f = Some d → Z.of_nat (length d) < 2 ^ 31;
  cf_size_data f : cf_size f = (λ d, Z.of_nat (length d)) <$> cf_data f;
  cf_readi_data f d off n :
    cf_data f = Some d → (off + n ≤ length d)%nat →
    cf_readi f (Z.of_nat off) (Z.of_nat n) = sub off n d;
  cf_create_data f f' :
    cf_data f = None → cf_create f = Some f' → cf_data f' = Some [];
  cf_writei_data f d bs f' :
    cf_data f = Some d → Forall is_u8 bs →
    cf_writei f (Z.of_nat (length d)) bs = (f', Z.of_nat (length bs)) →
    cf_data f' = Some (d ++ bs);
}.

(** A file in memory with the size limit of the file system,
    [MAXFILE * BSIZE] bytes. *)
Definition RAM_LIMIT : nat := 268 * 1024.
Record ram_file := mk_ram_file { rf_data : option (list Z) }.

Definition rf_bytes (f : ram_file) : option (list Z) :=
  (λ d, take RAM_LIMIT (map u8 d)) <$> rf_data f.

#[export] Instance ram_cache_file : CacheFile ram_file := {
  cf_size f := (λ d, Z.of_nat (length d)) <$> rf_bytes f;
  cf_readi f off n := sub (Z.to_nat off) (Z.to_nat n) (default [] (rf_bytes f));
  cf_create f := Some (mk_ram_file (Some []));
  cf_writei f off bs :=
    let d := default [] (rf_bytes f) in
    if (Z.of_nat (length d) <? off) || (Z.of_nat RAM_LIMIT <? off + Z.of_nat (length bs))
    then (f, -1)
    else (mk_ram_file (Some (blit d (Z.to_nat off) bs)), Z.of_nat (length bs));
}.

(** ** Specifications *)

(** The words of a key: its maximal runs of word bytes. *)
Fixpoint tokens (key cur : list Z) : list (list Z) :=
  match key with
  | [] => match cur with [] => [] | _ => [cur] end
  | c :: key' =>
      if is_wordbyte c then tokens key' (cur ++ [c])
      else match cur with [] => tokens key' [] | _ => cur :: tokens key' [] end
  end.

(** Truncated, lower-cased, without the stopwords. *)
Definition content_words (key : list Z) : list (list Z) :=
  List.filter (λ w, negb (is_stopword w))
    (map (λ t, map to_lower (take WORD_MAX t)) (tokens key [])).

(** The MinHash of a bag of words in dimension [k]. *)
Definition minhash (ws : list (list Z)) (k : nat) : Z :=
  foldr Z.min (2 ^ 64 - 1) (map (λ w, sig_hash w k) ws).

Record entry_wf (e : cache_entry) : Prop := {
  ewf_hash : is_u64 (hash e);
  ewf_vlen : 0 ≤ vlen e ≤ CACHE_VAL;
  ewf_val : length (val e) = Z.to_nat CACHE_VAL;
  ewf_val_u8 : Forall is_u8 (val e);
  ewf_sig : length (sig e) = SIG_K;
}.

(** No two used slots hold the same hash. *)
Definition hashes_unique (ram : list cache_entry) : Prop :=
  ∀ i j e1 e2, ram !! i = Some e1 → ram !! j = Some e2 →
    hash e1 = hash e2 → hash e1 ≠ 0 → i = j.

(** The invariant of the cache's static state. *)
Record wf {F} (s : state F) : Prop := {
  wf_slots : length (cache_ram s) = CACHE_SLOTS;
  wf_entries : Forall entry_wf (cache_ram s);
  wf_unique : hashes_unique (cache_ram s);
  wf_tmp : length (tmp_val_buf s) = Z.to_nat CACHE_VAL;
  wf_tmp_u8 : Forall is_u8 (tmp_val_buf s);
  wf_rec : length (rec_buf s) = sizeof_rec;
  wf_rec_u8 : Forall is_u8 (rec_buf s);
}.

(** The records of a file: its whole 1040-byte slices. *)
Definition record (d : list Z) (i : nat) : list Z := sub (i * sizeof_rec) sizeof_rec d.
Definition num_records (d : list Z) : nat := length d / sizeof_rec.

(** The calls that change the cache, for the invariant. *)
Inductive cache_op :=
  | OpSet (key : list Z) (klen : Z) (v : list Z) (n ticks : Z)
  | OpGetExact (key : list Z) (klen : Z) (buf : list Z) (n ticks : Z)
  | OpGetSemantic (key : list Z) (klen : Z) (buf : list Z) (n ticks : Z)
  | OpGet (key : list Z) (klen : Z) (buf : list Z) (n ticks : Z).

Definition run_op {F} `{CacheFile F} (s : state F) (o : cache_op) : state F :=
  match o with
  | OpSet key klen v n ticks => (cache_set key klen v n ticks s).2
  | OpGetExact key klen buf n ticks => (cache_get_exact key klen buf n ticks s).2
  | OpGetSemantic key klen buf n ticks => (cache_get_semantic key klen buf n ticks s).2
  | OpGet key klen buf n ticks => (cache_get key klen buf n ticks s).2
  end.

(** The values given to [cache_set] are byte buffers at least as long as the
    length they are passed with. *)
Definition op_ok (o : cache_op) : Prop :=
  match o with
  | OpSet _ _ v n _ => n ≤ Z.of_nat (length v) ∧ Forall is_u8 v
  | _ => True
  end.

(** ** Lemmas: hashes *)

Lemma fnv_fold_range l h : is_u64 h → is_u64 (fold_left fnv_step l h).
Proof.
  revert h. induction l as [|c l IH]; intros h Hh; simpl; [done|].
  apply IH, u64_range.
Qed.

Lemma fnv1a_64_range data len : 0 < fnv1a_64 data len < 2 ^ 64.
Proof.
  unfold fnv1a_64.
  pose proof (fnv_fold_range (take len data) 0xcbf29ce484222325 ltac:(done)) as [? ?].
  cbv zeta. bcase; lia.
Qed.

Lemma sig_hash_range w k : 0 < sig_hash w k < 2 ^ 64.
Proof.
  unfold sig_hash, fnv1a_64_pair. cbv zeta.
  match goal with |- context [u64 ?x] => pose proof (u64_range x) as [? ?] end.
  bcase; lia.
Qed.

(** ** Lemmas: tokens and signatures *)

Fixpoint word_prefix (key : list Z) : list Z :=
  match key with
  | [] => []
  | c :: key' => if is_wordbyte c then c :: word_prefix key' else []
  end.

Fixpoint word_rest (key : list Z) : list Z :=
  match key with
  | [] => []
  | c :: key' => if is_wordbyte c then word_rest key' else key
  end.

Lemma tokens_run key cur :
  cur ≠ [] → tokens key cur = (cur ++ word_prefix key) :: tokens (word_rest key) [].
Proof.
  revert cur. induction key as [|c key IH]; intros cur Hcur; simpl.
  { rewrite app_nil_r. by destruct cur. }
  destruct (is_wordbyte c) eqn:Hc.
  - rewrite IH by (by destruct cur). by rewrite <- app_assoc.
  - rewrite app_nil_r. simpl. rewrite Hc. by destruct cur.
Qed.

Lemma tokens_skip key :
  tokens key [] = match skip_sep key with
                  | [] => []
                  | k => word_prefix k :: tokens (word_rest k) []
                  end.
Proof.
  induction key as [|c key IH]; simpl; [done|].
  destruct (is_wordbyte c) eqn:Hc; [|done].
  simpl. rewrite Hc. by rewrite tokens_run.
Qed.

Lemma collect_word_spec key w :
  collect_word key (take WORD_MAX w) =
  (take WORD_MAX (w ++ map to_lower (word_prefix key)), word_rest key).
Proof.
  revert w. induction key as [|c key IH]; intros w; simpl.
  { by rewrite app_nil_r. }
  destruct (is_wordbyte c) eqn:Hc; simpl; [|by rewrite app_nil_r].
  assert (Hw : (if (length (take WORD_MAX w) <? WORD_MAX)%nat
                then take WORD_MAX w ++ [to_lower c] else take WORD_MAX w) =
               take WORD_MAX (w ++ [to_lower c])).
  { rewrite length_take. bcase.
    - rewrite !take_ge; [done|rewrite length_app; simpl; lia|lia].
    - by rewrite take_app_le by lia. }
  rewrite Hw, IH. by rewrite <- app_assoc.
Qed.

Lemma word_rest_length c key :
  is_wordbyte c = true → (length (word_rest (c :: key)) ≤ length key)%nat.
Proof.
  intros Hc. simpl. rewrite Hc. clear.
  induction key as [|c key IH]; simpl; [lia|]. case_match; simpl; lia.
Qed.

Lemma skip_sep_head key c rest : skip_sep key = c :: rest → is_wordbyte c = true.
Proof.
  induction key as [|c' key IH]; simpl; [done|]. case_match; [|done]. by intros [= -> ->].
Qed.

Lemma skip_sep_length key : (length (skip_sep key) ≤ length key)%nat.
Proof. induction key as [|c key IH]; simpl; [done|]. case_match; simpl; lia. Qed.

Lemma sig_loop_words fuel key n out :
  (length key ≤ fuel)%nat →
  sig_loop fuel key n out =
  (n + Z.of_nat (length (content_words key)),
   fold_left (λ o w, sig_update w o) (content_words key) out).
Proof.
  revert key n out. induction fuel as [|fuel IH]; intros key n out Hf.
  { destruct key; simpl in *; [|lia]. by rewrite Z.add_0_r. }
  unfold content_words. rewrite tokens_skip. cbn [sig_loop].
  pose proof (skip_sep_length key) as Hl.
  destruct (skip_sep key) as [|c rest] eqn:Hs; [by rewrite Z.add_0_r|].
  pose proof (word_rest_length c rest (skip_sep_head _ _ _ Hs)) as Hr.
  change (collect_word (c :: rest) []) with (collect_word (c :: rest) (take WORD_MAX [])).
  rewrite collect_word_spec.
  cbn [map List.filter app]. rewrite firstn_map. simpl in Hl.
  destruct (is_stopword _) eqn:Hstop; cbn [negb]; rewrite IH by lia; [done|].
  cbn [length fold_left]. unfold content_words. f_equal. lia.
Qed.

Lemma lookup_sig_update w out k :
  sig_update w out !! k = (λ o, Z.min (sig_hash w k) o) <$> out !! k.
Proof.
  unfold sig_update. rewrite list_lookup_imap.
  destruct (out !! k) as [o|]; simpl; [|done]. f_equal. bcase; lia.
Qed.

Lemma lookup_fold_sig ws out k o :
  out !! k = Some o →
  fold_left (λ o w, sig_update w o) ws out !! k =
  Some (foldr Z.min o (map (λ w, sig_hash w k) ws)).
Proof.
  revert out o. induction ws as [|w ws IH]; intros out o Ho; simpl; [done|].
  rewrite (IH _ (Z.min (sig_hash w k) o)).
  - f_equal. generalize (sig_hash w k) as x. clear.
    intros x. induction (map _ ws) as [|y l IH]; simpl; [done|]. rewrite IH. lia.
  - by rewrite lookup_sig_update, Ho.
Qed.

Lemma length_fold_sig ws out :
  length (fold_left (λ o w, sig_update w o) ws out) = length out.
Proof.
  revert out. induction ws as [|w ws IH]; intros out; simpl; [done|].
  rewrite IH. unfold sig_update. by rewrite length_imap.
Qed.

Lemma length_build_signature key klen : length (build_signature key klen).2 = SIG_K.
Proof.
  unfold build_signature. rewrite sig_loop_words by done.
  case_match; cbn [fst snd]; by rewrite length_fold_sig, length_replicate.
Qed.

Lemma lookup_build_signature key klen k :
  (k < SIG_K)%nat →
  (build_signature key klen).2 !! k =
  Some (minhash (content_words (take (Z.to_nat klen) key)) k).
Proof.
  intros Hk. unfold build_signature, minhash. rewrite sig_loop_words by done.
  case_match; cbn [fst snd]; apply lookup_fold_sig, lookup_replicate_2; done.
Qed.

Lemma build_signature_count key klen :
  (build_signature key klen).1 =
  let n := Z.of_nat (length (content_words (take (Z.to_nat klen) key))) in
  if n <? MIN_WORDS_FOR_SEMANTIC then 0 else n.
Proof.
  unfold build_signature. rewrite sig_loop_words by done.
  rewrite Z.add_0_l. cbv zeta. by case_match.
Qed.

(** MinHash only depends on the set of the words. *)
Lemma foldr_min_le l m x : x ∈ l → foldr Z.min m l ≤ x.
Proof. induction 1; simpl; lia. Qed.

Lemma foldr_min_glb l m b : b ≤ m → (∀ x, x ∈ l → b ≤ x) → b ≤ foldr Z.min m l.
Proof.
  intros Hm. induction l as [|y l IH]; intros Hl; simpl; [done|].
  pose proof (Hl y ltac:(by left)).
  assert (b ≤ foldr Z.min m l) by (apply IH; intros; apply Hl; by right). lia.
Qed.

Lemma foldr_min_incl l1 l2 m :
  (∀ x, x ∈ l2 → x ∈ l1) → foldr Z.min m l1 ≤ foldr Z.min m l2.
Proof.
  intros H. apply foldr_min_glb.
  - clear. induction l1; simpl; lia.
  - intros x Hx. by apply foldr_min_le, H.
Qed.

Lemma minhash_set ws1 ws2 k :
  (∀ w, w ∈ ws1 ↔ w ∈ ws2) → minhash ws1 k = minhash ws2 k.
Proof.
  intros H. unfold minhash. apply Z.le_antisymm; apply foldr_min_incl; intros x;
    rewrite !list_elem_of_fmap; intros (w & -> & Hw); exists w; split; try done;
    by apply H.
Qed.

Lemma build_signature_set key1 klen1 key2 klen2 :
  (∀ w, w ∈ content_words (take (Z.to_nat klen1) key1) ↔
        w ∈ content_words (take (Z.to_nat klen2) key2)) →
  (build_signature key1 klen1).2 = (build_signature key2 klen2).2.
Proof.
  intros H. apply list_eq. intros k. destruct (decide (k < SIG_K)%nat).
  - rewrite !lookup_build_signature by done. f_equal. by apply minhash_set.
  - rewrite !lookup_ge_None_2; [done|rewrite length_build_signature; lia..].
Qed.

Lemma jaccard_refl a : jaccard_match_count a a = Z.of_nat (length a).
Proof.
  unfold jaccard_match_count. f_equal.
  induction a as [|x a IH]; simpl; [done|]. rewrite Z.eqb_refl. simpl. by rewrite IH.
Qed.

Lemma jaccard_range a b : 0 ≤ jaccard_match_count a b ≤ Z.of_nat (length a).
Proof.
  unfold jaccard_match_count. split; [lia|]. apply Nat2Z.inj_le.
  etrans; [apply List.filter_length_le|]. rewrite length_zip_with. lia.
Qed.

(** ** Lemmas: the RAM table *)

Lemma ram_find_Some h ram i :
  ram_find h ram = Some i → ∃ e, ram !! i = Some e ∧ hash e = h.
Proof.
  intros (e & He & Hh & _)%find_index_Some. exists e. split; [done|]. by bool_hyps.
Qed.

Lemma ram_find_None h ram i e :
  ram_find h ram = None → ram !! i = Some e → hash e ≠ h.
Proof. intros Hn Hi. pose proof (find_index_None _ _ Hn _ _ Hi). by bool_hyps. Qed.

Lemma ram_find_is h ram i e :
  hashes_unique ram → h ≠ 0 → ram !! i = Some e → hash e = h → ram_find h ram = Some i.
Proof.
  intros Hu Hh Hi He. destruct (ram_find h ram) as [j|] eqn:Hf.
  - apply ram_find_Some in Hf as (e' & Hj & He'). f_equal. eapply Hu; eauto; congruence.
  - by destruct (ram_find_None _ _ _ _ Hf Hi).
Qed.

Lemma hashes_unique_alter ram i g h :
  hashes_unique ram →
  (∀ e, hash (g e) = h) →
  (∀ j e, j ≠ i → ram !! j = Some e → hash e ≠ h) →
  hashes_unique (alter g i ram).
Proof.
  intros Hu Hg Hn j k e1 e2 Hj Hk Heq Hnz.
  destruct (decide (j = i)) as [->|Hji], (decide (k = i)) as [->|Hki]; try done.
  - rewrite list_lookup_alter_ne in Hk by done.
    rewrite list_lookup_alter_eq in Hj. destruct (ram !! i) as [e|]; simplify_eq/=.
    rewrite Hg in Heq. by destruct (Hn k e2 Hki Hk).
  - rewrite list_lookup_alter_ne in Hj by done.
    rewrite list_lookup_alter_eq in Hk. destruct (ram !! i) as [e|]; simplify_eq/=.
    rewrite Hg in Heq. by destruct (Hn j e1 Hji Hj).
  - rewrite list_lookup_alter_ne in Hj by done.
    rewrite list_lookup_alter_ne in Hk by done. eauto.
Qed.

Lemma alter_same_hash (ram : list cache_entry) i g k e :
  (∀ e, hash (g e) = hash e) → alter g i ram !! k = Some e →
  ∃ e0, ram !! k = Some e0 ∧ hash e0 = hash e.
Proof.
  intros Hg Hk. destruct (decide (k = i)) as [->|Hki].
  - rewrite list_lookup_alter_eq in Hk. destruct (ram !! i) as [e0|]; simplify_eq/=. eauto.
  - rewrite list_lookup_alter_ne in Hk by done. eauto.
Qed.

Lemma hashes_unique_same ram i g :
  hashes_unique ram → (∀ e, hash (g e) = hash e) → hashes_unique (alter g i ram).
Proof.
  intros Hu Hg j k e1 e2 Hj Hk Heq Hnz.
  destruct (alter_same_hash _ _ _ _ _ Hg Hj) as (a & Ha & Hha).
  destruct (alter_same_hash _ _ _ _ _ Hg Hk) as (b & Hb & Hhb).
  apply (Hu j k a b); congruence.
Qed.

Lemma Forall_alter_entry ram i g :
  Forall entry_wf ram → (∀ e, entry_wf e → entry_wf (g e)) → Forall entry_wf (alter g i ram).
Proof.
  intros Hw Hg. apply Forall_lookup. intros j e Hj.
  destruct (decide (j = i)) as [->|Hji].
  - rewrite list_lookup_alter_eq in Hj. destruct (ram !! i) eqn:Hi; simplify_eq/=.
    apply Hg. by eapply Forall_lookup_1.
  - rewrite list_lookup_alter_ne in Hj by done. by eapply Forall_lookup_1.
Qed.

Lemma lru_loop_spec ram pre l lru tick e :
  ram = pre ++ l → pre !! lru = Some e → last_access e = tick →
  (∀ j e', pre !! j = Some e' → tick ≤ last_access e') →
  ∃ e1, ram !! lru_loop l (length pre) lru tick = Some e1 ∧
    ∀ j e', ram !! j = Some e' → last_access e1 ≤ last_access e'.
Proof.
  revert pre lru tick e. induction l as [|a l IH]; intros pre lru tick e -> Hl He Hmin; simpl.
  { rewrite app_nil_r. exists e. subst tick. eauto. }
  assert (Happ : pre ++ a :: l = (pre ++ [a]) ++ l) by by rewrite <- app_assoc.
  replace (S (length pre)) with (length (pre ++ [a])) by (rewrite length_app; simpl; lia).
  bcase.
  - apply (IH _ _ _ a); [done| |done|].
    + by rewrite lookup_app_r, Nat.sub_diag.
    + intros j e' [Hj|[Hlen Hj]]%lookup_app_Some; [apply Hmin in Hj; lia|].
      apply list_lookup_singleton_Some in Hj as [_ <-]. lia.
  - apply (IH _ _ _ e); [done| |done|].
    + apply lookup_app_l_Some. done.
    + intros j e' [Hj|[Hlen Hj]]%lookup_app_Some; [by apply Hmin in Hj|].
      apply list_lookup_singleton_Some in Hj as [_ <-]. lia.
Qed.

(** The LRU slot holds an entry of least [last_access]. *)
Lemma lru_slot_spec ram :
  ram ≠ [] →
  ∃ e, ram !! lru_slot ram = Some e ∧
    ∀ j e', ram !! j = Some e' → last_access e ≤ last_access e'.
Proof.
  destruct ram as [|e0 ram]; [done|]. intros _. unfold lru_slot. simpl.
  apply (lru_loop_spec (e0 :: ram) [e0] ram 0 _ e0); try done.
  intros j e' Hj. apply list_lookup_singleton_Some in Hj as [_ <-]. lia.
Qed.

Lemma choose_slot_spec h ram :
  ram ≠ [] → hashes_unique ram → h ≠ 0 →
  let i := (choose_slot h ram).1 in
  (i < length ram)%nat ∧ ∀ j e, j ≠ i → ram !! j = Some e → hash e ≠ h.
Proof.
  intros Hne Hu Hh. unfold choose_slot.
  destruct (ram_find h ram) as [i|] eqn:Hf.
  { split; [by eapply find_index_lt|]. simpl. intros j e Hji Hj Heq.
    rewrite (ram_find_is h ram j e Hu Hh Hj Heq) in Hf. congruence. }
  destruct (ram_find 0 ram) as [i|] eqn:Hf0; simpl.
  - split; [by eapply find_index_lt|]. intros j e _ Hj. by eapply ram_find_None.
  - destruct (lru_slot_spec ram Hne) as (e & He & _).
    split; [by eapply lookup_lt_Some|]. intros j e' _ Hj. by eapply ram_find_None.
Qed.

(** ** Lemmas: the record file *)

Section laws.
  Context {F : Type} `{!CacheFile F, !CacheFileLaws F}.
  Implicit Types s : state F.

Lemma length_record d i : (i < num_records d)%nat → length (record d i) = sizeof_rec.
Proof.
  unfold num_records, record. intros Hi. apply length_sub.
  pose proof (Nat.Div0.mul_div_le (length d) sizeof_rec). unfold sizeof_rec in *. nia.
Qed.

Lemma record_u8 d i : Forall is_u8 d → Forall is_u8 (record d i).
Proof. apply Forall_sub. Qed.

Lemma scan_loop_spec f d h rec i n :
  cf_data f = Some d → length rec = sizeof_rec → (i + n = num_records d)%nat →
  (scan_loop n f (Z.of_nat (length d)) (Z.of_nat (i * sizeof_rec)) h rec).1 =
  List.find (λ r, rec_hash r =? h) (map (record d) (seq i n)).
Proof.
  intros Hd. revert rec i. induction n as [|n IH]; intros rec i Hrec Hin; simpl; [done|].
  assert (Hle : (i * sizeof_rec + sizeof_rec ≤ length d)%nat).
  { pose proof (Nat.Div0.mul_div_le (length d) sizeof_rec).
    unfold num_records, sizeof_rec in *. nia. }
  rewrite (proj2 (Z.leb_le _ _)) by lia. rewrite (cf_readi_data f d) by done.
  assert (Hl : length (sub (i * sizeof_rec) sizeof_rec d) = sizeof_rec) by by apply length_sub.
  rewrite Hl, Nat.eqb_refl. cbn [negb].
  rewrite blit_0, Hl, drop_ge, app_nil_r by lia.
  fold (record d i). destruct (rec_hash (record d i) =? h); [done|].
  pose proof (cf_data_small _ _ Hd).
  replace (u32 (Z.of_nat (i * sizeof_rec) + Z.of_nat sizeof_rec))
    with (Z.of_nat (S i * sizeof_rec)).
  - apply IH; [done|lia].
  - rewrite u32_id; unfold is_u32; lia.
Qed.

Lemma scan_loop_rec f d h rec off n :
  cf_data f = Some d → length rec = sizeof_rec → Forall is_u8 rec → 0 ≤ off →
  let r := scan_loop n f (Z.of_nat (length d)) off h rec in
  length r.2 = sizeof_rec ∧ Forall is_u8 r.2.
Proof.
  intros Hd. revert rec off. induction n as [|n IH]; intros rec off Hl Hu Hoff; simpl; [done|].
  destruct (Z.leb_spec (off + Z.of_nat sizeof_rec) (Z.of_nat (length d))); [|done].
  replace off with (Z.of_nat (Z.to_nat off)) by lia.
  rewrite (cf_readi_data f d) by (done || lia).
  set (data := sub _ _ d).
  assert (Hld : length data = sizeof_rec) by (apply length_sub; lia).
  assert (Hud : Forall is_u8 data) by (eapply Forall_sub, cf_data_u8; done).
  rewrite Hld, Nat.eqb_refl. cbn [negb].
  rewrite blit_0, Hld, drop_ge, app_nil_r by lia.
  destruct (rec_hash data =? h); [done|].
  apply IH; try done. apply u32_range.
Qed.

Lemma rec_vlen_nonneg r : Forall is_u8 r → 0 ≤ rec_vlen r.
Proof. intros. apply le_decode_range. by apply Forall_sub. Qed.

(** What a lookup in the record file answers: the first record of that hash. *)
Definition disk_lookup (h : Z) (f : F) : option (list Z) :=
  d ← cf_data f; List.find (λ r, rec_hash r =? h) (map (record d) (seq 0 (num_records d))).

Definition clamped_vlen (rb : list Z) : Z := Z.min CACHE_VAL (rec_vlen rb).

Lemma disk_scan_spec h valbuf vbuflen s :
  wf s →
  ∃ rec, length rec = sizeof_rec ∧ Forall is_u8 rec ∧
    disk_scan h valbuf vbuflen s =
    (match disk_lookup h (cache_file s) with
     | None => (-1, valbuf)
     | Some rb => (clamped_vlen rb,
                   blit valbuf 0 (take (Z.to_nat (Z.min (clamped_vlen rb) vbuflen)) (rec_val rb)))
     end, mk_state (cache_ram s) (tmp_val_buf s) rec (cache_file s)).
Proof.
  intros Hwf. unfold disk_scan, disk_lookup. rewrite cf_size_data.
  destruct (cf_data (cache_file s)) as [d|] eqn:Hd; simpl.
  2:{ exists (rec_buf s). split; [apply Hwf|]. split; [apply Hwf|]. by destruct s. }
  set (n := Z.to_nat _).
  assert (Hn : n = num_records d).
  { subst n. unfold num_records. by rewrite <- Nat2Z.inj_div, Nat2Z.id. }
  clearbody n. subst n.
  pose proof (scan_loop_spec (cache_file s) d h (rec_buf s) 0 (num_records d) Hd
                (wf_rec _ Hwf) eq_refl) as Hs.
  pose proof (scan_loop_rec (cache_file s) d h (rec_buf s) 0 (num_records d) Hd
                (wf_rec _ Hwf) (wf_rec_u8 _ Hwf) ltac:(lia)) as [Hl Hu].
  change (Z.of_nat (0 * sizeof_rec)) with 0 in Hs.
  destruct (scan_loop _ _ _ _ _ _) as [r rec]. simpl in *. rewrite <- Hs.
  exists rec. split; [done|]. split; [done|].
  destruct r as [rb|]; [|done].
  unfold clamped_vlen.
  replace (if CACHE_VAL <? rec_vlen rb then CACHE_VAL else rec_vlen rb)
    with (Z.min CACHE_VAL (rec_vlen rb)) by (bcase; lia).
  replace (if Z.min CACHE_VAL (rec_vlen rb) <? vbuflen then _ else _)
    with (Z.min (Z.min CACHE_VAL (rec_vlen rb)) vbuflen) by (bcase; lia).
  done.
Qed.

Lemma disk_lookup_Some h f rb :
  disk_lookup h f = Some rb →
  length rb = sizeof_rec ∧ Forall is_u8 rb ∧ rec_hash rb = h ∧ 0 ≤ clamped_vlen rb ≤ CACHE_VAL.
Proof.
  unfold disk_lookup. destruct (cf_data f) as [d|] eqn:Hd; [|done]. simpl.
  intros Hf. apply List.find_some in Hf as [Hin Hh].
  apply List.in_map_iff in Hin as (i & <- & Hi%List.in_seq).
  pose proof (record_u8 d i (cf_data_u8 _ _ Hd)) as Hu.
  split; [apply length_record; lia|]. split; [done|]. split; [by bool_hyps|].
  unfold clamped_vlen, CACHE_VAL. pose proof (rec_vlen_nonneg _ Hu). lia.
Qed.

(** The record [fill_rec] lays out holds its arguments. *)
Lemma fill_rec_spec rec h v n :
  length rec = sizeof_rec → Forall is_u8 rec → is_u64 h → 0 ≤ n ≤ CACHE_VAL →
  n ≤ Z.of_nat (length v) → Forall is_u8 v →
  let r := fill_rec rec h v n in
  length r = sizeof_rec ∧ Forall is_u8 r ∧ rec_hash r = h ∧ rec_vlen r = n ∧
  take (Z.to_nat n) (rec_val r) = take (Z.to_nat n) v.
Proof.
  intros Hl Hu Hh Hn Hv Huv. unfold fill_rec.
  assert (Hlv : length (take (Z.to_nat n) v) = Z.to_nat n) by (rewrite length_take; lia).
  set (r1 := blit rec 0 (le_encode 8 h)).
  assert (H1 : length r1 = sizeof_rec).
  { subst r1. rewrite length_blit; [done|]. rewrite length_le_encode. unfold sizeof_rec in *. lia. }
  set (r2 := blit r1 8 (le_encode 2 (u16 n))).
  assert (H2 : length r2 = sizeof_rec).
  { subst r2. rewrite length_blit; [done|]. rewrite length_le_encode. unfold sizeof_rec in *. lia. }
  set (r3 := blit r2 10 (take (Z.to_nat n) v)).
  assert (Hfit : (10 + length (take (Z.to_nat n) v) ≤ length r2)%nat).
  { unfold CACHE_VAL, sizeof_rec in *. lia. }
  assert (H3 : length r3 = sizeof_rec) by (subst r3; rewrite length_blit; done).
  assert (Hu3 : Forall is_u8 r3) by (repeat (apply Forall_blit || apply le_encode_u8 || apply Forall_take); done).
  assert (Hr3 : sub 0 8 r3 = le_encode 8 h ∧ sub 8 2 r3 = le_encode 2 (u16 n) ∧
                sub 10 (Z.to_nat n) r3 = take (Z.to_nat n) v).
  { split; [|split].
    - subst r3. rewrite sub_blit_lt by lia. subst r2.
      rewrite sub_blit_lt by (rewrite ?length_le_encode; unfold sizeof_rec in *; lia).
      subst r1. apply sub_blit_at; [apply length_le_encode|]. unfold sizeof_rec in *. lia.
    - subst r3. rewrite sub_blit_lt by lia. subst r2.
      apply sub_blit_at; [apply length_le_encode|]. unfold sizeof_rec in *. lia.
    - subst r3. apply sub_blit_at; [done|]. lia. }
  set (r4 := if n <? CACHE_VAL then _ else _). cbv zeta.
  assert (H4 : length r4 = sizeof_rec ∧ Forall is_u8 r4 ∧
               ∀ o m, (o + m ≤ 10 + Z.to_nat n)%nat → sub o m r4 = sub o m r3).
  { subst r4. bcase; [|done]. repeat split.
    - rewrite length_blit; [done|]. rewrite length_replicate. unfold CACHE_VAL, sizeof_rec in *. lia.
    - apply Forall_blit; [done|]. apply Forall_replicate. by unfold is_u8.
    - intros o m Hom. apply sub_blit_lt; [|done]. rewrite length_replicate.
      unfold CACHE_VAL, sizeof_rec in *. lia. }
  destruct H4 as (H4 & Hu4 & Hs4), Hr3 as (Ha & Hb & Hc).
  repeat split; [done|done|..].
  - unfold rec_hash. rewrite Hs4, Ha by lia. by apply le_decode_encode.
  - unfold rec_vlen. rewrite Hs4, Hb by lia. rewrite u16_id by (unfold is_u16, CACHE_VAL in *; lia).
    apply le_decode_encode. unfold CACHE_VAL in *. simpl. lia.
  - unfold rec_val. unfold sub. rewrite take_take, Nat.min_l by (unfold CACHE_VAL in *; lia).
    fold (sub 10 (Z.to_nat n) r4). rewrite Hs4 by lia. done.
Qed.

(** What [disk_append] does to the file when it reports success. *)
Definition appended (h : Z) (v : list Z) (n : Z) (f f' : F) : Prop :=
  ∃ rec, cf_data f' = Some (default [] (cf_data f) ++ rec) ∧ length rec = sizeof_rec ∧
    rec_hash rec = h ∧ rec_vlen rec = n ∧ take (Z.to_nat n) (rec_val rec) = take (Z.to_nat n) v.

Lemma disk_append_frame h v n s :
  wf s → is_u64 h → 0 ≤ n ≤ CACHE_VAL → n ≤ Z.of_nat (length v) → Forall is_u8 v →
  ∃ rec f, (disk_append h v n s).2 = mk_state (cache_ram s) (tmp_val_buf s) rec f ∧
    length rec = sizeof_rec ∧ Forall is_u8 rec.
Proof.
  intros Hwf Hh Hn Hv Hu. unfold disk_append.
  destruct (fill_rec_spec (rec_buf s) h v n (wf_rec _ Hwf) (wf_rec_u8 _ Hwf) Hh Hn Hv Hu)
    as (Hl & Hur & _).
  rewrite (proj2 (Z.ltb_ge n 0)), (proj2 (Z.ltb_ge CACHE_VAL n)) by lia. cbn [orb].
  repeat case_match; simpl; eauto.
Qed.

Lemma disk_append_success h v n s :
  wf s → is_u64 h → 0 ≤ n ≤ CACHE_VAL → n ≤ Z.of_nat (length v) → Forall is_u8 v →
  (disk_append h v n s).1 = 0 →
  appended h v n (cache_file s) (cache_file (disk_append h v n s).2).
Proof.
  intros Hwf Hh Hn Hv Hu. unfold disk_append.
  destruct (fill_rec_spec (rec_buf s) h v n (wf_rec _ Hwf) (wf_rec_u8 _ Hwf) Hh Hn Hv Hu)
    as (Hl & Hur & Hrh & Hrv & Hrt).
  rewrite (proj2 (Z.ltb_ge n 0)), (proj2 (Z.ltb_ge CACHE_VAL n)) by lia. cbn [orb].
  set (rec := fill_rec _ _ _ _) in *. cbv zeta.
  assert (Hip : ∀ f, match cf_size (cache_file s) with
                     | Some _ => Some (cache_file s) | None => cf_create (cache_file s) end = Some f →
                ∃ d, cf_data f = Some d ∧ d = default [] (cf_data (cache_file s))).
  { intros f. rewrite cf_size_data. destruct (cf_data (cache_file s)) as [d|] eqn:Hd; simpl.
    - intros [= <-]. eauto.
    - intros Hc. exists []. split; [by eapply cf_create_data|done]. }
  destruct (match cf_size _ with Some _ => _ | None => _ end) as [f|] eqn:Hf; [|done].
  destruct (Hip f eq_refl) as (d & Hd & ->).
  rewrite cf_size_data, Hd. simpl. destruct (DISK_MAX_BYTES <? _); [by simpl|].
  destruct (cf_writei f _ rec) as [f' n'] eqn:Hw. simpl.
  destruct (Z.eqb_spec n' (Z.of_nat sizeof_rec)) as [->|]; [|done]. intros _.
  exists rec. split; [|done]. rewrite <- Hl in Hw. by eapply cf_writei_data.
Qed.

(** A file of whole records: what appending one record does to a lookup. *)
Definition aligned (f : F) : Prop :=
  (length (default [] (cf_data f)) mod sizeof_rec = 0)%nat.

Lemma disk_lookup_append h v n f f' h' :
  aligned f → appended h v n f f' →
  ∃ rec, rec_hash rec = h ∧ rec_vlen rec = n ∧
    take (Z.to_nat n) (rec_val rec) = take (Z.to_nat n) v ∧
    disk_lookup h' f' = match disk_lookup h' f with
                        | Some r => Some r
                        | None => if h =? h' then Some rec else None
                        end.
Proof.
  unfold aligned. intros Hal (rec & Hd' & Hl & Hh & Hn & Ht).
  exists rec. split; [done|]. split; [done|]. split; [done|].
  unfold disk_lookup. rewrite Hd'. set (d := default [] (cf_data f)) in *.
  assert (Hdl : (length d = num_records d * sizeof_rec)%nat).
  { unfold num_records. pose proof (Nat.div_mod_eq (length d) sizeof_rec). lia. }
  assert (Hnum : num_records (d ++ rec) = S (num_records d)).
  { unfold num_records at 1. rewrite length_app, Hl, Hdl.
    replace (num_records d * sizeof_rec + sizeof_rec)%nat
      with (S (num_records d) * sizeof_rec)%nat by lia.
    by apply Nat.div_mul. }
  assert (Hrec : map (record (d ++ rec)) (seq 0 (num_records d)) =
                 map (record d) (seq 0 (num_records d))).
  { apply List.map_ext_in. intros i Hi%List.in_seq. unfold record, sub.
    rewrite drop_app_le, take_app_le; rewrite ?length_drop; try nia. done. }
  assert (Hlast : record (d ++ rec) (num_records d) = rec).
  { unfold record, sub. rewrite <- Hdl, drop_app_length. apply take_ge. lia. }
  simpl. rewrite Hnum, seq_S, List.map_app, Hrec. simpl. rewrite Hlast.
  rewrite <- Hh.
  assert (Hfind : List.find (λ r, rec_hash r =? h') (map (record d) (seq 0 (num_records d))) =
                  d0 ← cf_data f; List.find (λ r, rec_hash r =? h')
                                   (map (record d0) (seq 0 (num_records d0)))).
  { subst d. by destruct (cf_data f). }
  rewrite <- Hfind. generalize (map (record d) (seq 0 (num_records d))) as l. clear.
  induction l as [|r l IH]; simpl; [done|]. by destruct (rec_hash r =? h').
Qed.

(** ** Lemmas: the invariant *)

Lemma write_slot_wf h key klen v n t e :
  is_u64 h → 0 ≤ n ≤ CACHE_VAL → Forall is_u8 v →
  entry_wf e → entry_wf (write_slot h key klen v n t e).
Proof.
  intros Hh Hn Hv [? ? Hval Hvu ?]. unfold write_slot.
  pose proof (length_build_signature key klen) as Hs.
  destruct (build_signature key klen) as [ns sg]. simpl in Hs.
  split; simpl; try done.
  - rewrite u16_id; [done|unfold is_u16, CACHE_VAL in *; lia].
  - rewrite length_blit; [done|]. rewrite length_take. unfold CACHE_VAL in *. lia.
  - apply Forall_blit; [done|]. by apply Forall_take.
Qed.

Lemma promote_slot_wf h n t buf e :
  is_u64 h → 0 ≤ n ≤ CACHE_VAL → Forall is_u8 buf →
  entry_wf e → entry_wf (promote_slot h n t buf e).
Proof.
  intros Hh Hn Hv [? ? Hval Hvu ?]. split; simpl; try done.
  - rewrite u16_id; [done|unfold is_u16, CACHE_VAL in *; lia].
  - rewrite length_blit; [done|]. rewrite length_take. unfold CACHE_VAL in *. lia.
  - apply Forall_blit; [done|]. by apply Forall_take.
Qed.

Lemma touch_wf t e : entry_wf e → entry_wf (touch t e).
Proof. by intros []. Qed.

Lemma wf_ram_ne s : wf s → cache_ram s ≠ [].
Proof. intros Hw He. pose proof (wf_slots _ Hw) as Hl. by rewrite He in Hl. Qed.

Lemma fnv_u64 key len : is_u64 (fnv1a_64 key len).
Proof. pose proof (fnv1a_64_range key len). unfold is_u64. lia. Qed.

Lemma fnv_nz key len : fnv1a_64 key len ≠ 0.
Proof. pose proof (fnv1a_64_range key len). lia. Qed.

(** The RAM table after a [cache_set]. *)
Lemma wf_write_slot s i h key klen v n t tmp rec (f : F) :
  wf s → is_u64 h → 0 ≤ n ≤ CACHE_VAL → Forall is_u8 v →
  (∀ j e, j ≠ i → cache_ram s !! j = Some e → hash e ≠ h) →
  length tmp = Z.to_nat CACHE_VAL → Forall is_u8 tmp →
  length rec = sizeof_rec → Forall is_u8 rec →
  wf (mk_state (alter (write_slot h key klen v n t) i (cache_ram s)) tmp rec f).
Proof.
  intros Hwf Hh Hn Hv Hi Ht1 Ht2 Hr1 Hr2. split; simpl; try done.
  - rewrite length_alter. apply Hwf.
  - apply Forall_alter_entry; [apply Hwf|]. intros e. by apply write_slot_wf.
  - apply hashes_unique_alter with h; [apply Hwf| |done].
    intros e. unfold write_slot. by destruct (build_signature key klen).
Qed.

Lemma evicted_ok s h :
  wf s →
  let '(h', v', n') := (choose_slot h (cache_ram s)).2 in
  is_u64 h' ∧ 0 ≤ n' ≤ CACHE_VAL ∧ n' ≤ Z.of_nat (length v') ∧ Forall is_u8 v'.
Proof.
  intros Hwf. unfold choose_slot. repeat case_match; simplify_eq/=;
    try (repeat split; simpl; try done; unfold CACHE_VAL; lia).
  destruct (lru_slot_spec (cache_ram s) (wf_ram_ne _ Hwf)) as (e & He & _).
  rewrite (nth_lookup_Some _ _ _ _ He).
  pose proof (Forall_lookup_1 _ _ _ _ (wf_entries _ Hwf) He) as [Hh Hv Hl Hu _].
  split; [done|]. split; [done|]. split; [|by apply Forall_take].
  rewrite length_take. unfold CACHE_VAL in *. lia.
Qed.

Lemma cache_set_wf key klen v n t s :
  wf s → n ≤ Z.of_nat (length v) → Forall is_u8 v → wf (cache_set key klen v n t s).2.
Proof.
  intros Hwf Hlen Hu. unfold cache_set. case_match; [done|]. bool_hyps.
  pose proof (choose_slot_spec _ _ (wf_ram_ne _ Hwf) (wf_unique _ Hwf)
                (fnv_nz key (Z.to_nat klen))) as [Hi Hother].
  pose proof (evicted_ok s (fnv1a_64 key (Z.to_nat klen)) Hwf) as Hev.
  destruct (choose_slot _ _) as [i [[h' v'] n']]. simpl in *.
  destruct Hev as (Hh' & Hn' & Hv' & Hu').
  assert (Hw' : wf (mk_state (alter (write_slot (fnv1a_64 key (Z.to_nat klen)) key klen v n t) i
                     (cache_ram s)) (tmp_val_buf s) (rec_buf s) (cache_file s))).
  { apply wf_write_slot; first [done | apply Hwf | apply fnv_u64 | lia]. }
  case_match; [|done].
  destruct (disk_append_frame h' v' n' _ Hw' Hh' Hn' Hv' Hu') as (rec & f & Heq & ? & ?).
  simpl in *. rewrite Heq. apply wf_write_slot; first [done | apply Hwf | apply fnv_u64 | lia].
Qed.

Lemma wf_alter_same s i g tmp rec (f : F) :
  wf s → (∀ e, hash (g e) = hash e) → (∀ e, entry_wf e → entry_wf (g e)) →
  tmp = tmp_val_buf s → rec = rec_buf s →
  wf (mk_state (alter g i (cache_ram s)) tmp rec f).
Proof.
  intros Hwf Hg Hw -> ->. split; simpl; try apply Hwf.
  - rewrite length_alter. apply Hwf.
  - apply Forall_alter_entry; [apply Hwf|done].
  - apply hashes_unique_same; [apply Hwf|done].
Qed.

Lemma wf_buffers s tmp rec (f : F) :
  wf s → length tmp = Z.to_nat CACHE_VAL → Forall is_u8 tmp →
  length rec = sizeof_rec → Forall is_u8 rec → wf (mk_state (cache_ram s) tmp rec f).
Proof. intros []. by split. Qed.

Lemma promote_wf h n t s : wf s → is_u64 h → h ≠ 0 → 0 ≤ n ≤ CACHE_VAL → wf (promote h n t s).
Proof.
  intros Hwf Hh Hnz Hn. unfold promote.
  destruct (ram_find h (cache_ram s)) eqn:Hf; [done|].
  destruct (ram_find 0 (cache_ram s)) as [j|] eqn:Hf0; [|done].
  split; simpl; try apply Hwf.
  - rewrite length_alter. apply Hwf.
  - apply Forall_alter_entry; [apply Hwf|]. intros e. apply promote_slot_wf; try done. apply Hwf.
  - apply hashes_unique_alter with h; [apply Hwf|done|].
    intros k e _ Hk. by eapply ram_find_None.
Qed.

(** The buffer a lookup fills, and the tmp buffer after a disk hit. *)
Lemma disk_hit_buf h f rb buf m :
  disk_lookup h f = Some rb →
  length buf = Z.to_nat CACHE_VAL → Forall is_u8 buf →
  let b := blit buf 0 (take m (rec_val rb)) in
  length b = Z.to_nat CACHE_VAL ∧ Forall is_u8 b.
Proof.
  intros (Hl & Hu & _)%disk_lookup_Some Hb Hbu. cbv zeta. split.
  - rewrite length_blit; [done|]. rewrite length_take. unfold rec_val.
    rewrite length_sub by (rewrite Hl; unfold CACHE_VAL, sizeof_rec; lia). lia.
  - apply Forall_blit; [done|]. by apply Forall_take, Forall_sub.
Qed.

Lemma cache_get_exact_wf key klen buf n t s : wf s → wf (cache_get_exact key klen buf n t s).2.
Proof.
  intros Hwf. unfold cache_get_exact. case_match; [done|].
  destruct (ram_find _ _) as [i|]; simpl.
  { apply wf_alter_same; try done. intros e. apply touch_wf. }
  destruct (disk_scan_spec (fnv1a_64 key (Z.to_nat klen)) (tmp_val_buf s) CACHE_VAL s Hwf)
    as (rec & Hl & Hu & ->).
  destruct (disk_lookup _ _) as [rb|] eqn:Hd; simpl.
  2:{ apply wf_buffers; try done; apply Hwf. }
  destruct (disk_lookup_Some _ _ _ Hd) as (_ & _ & _ & Hc).
  destruct (Z.ltb_spec (clamped_vlen rb) 0); [lia|]. simpl.
  destruct (disk_hit_buf _ _ _ (tmp_val_buf s)
              (Z.to_nat (Z.min (clamped_vlen rb) CACHE_VAL)) Hd (wf_tmp _ Hwf) (wf_tmp_u8 _ Hwf)).
  destruct (Z.ltb_spec CACHE_VAL (clamped_vlen rb)); [lia|].
  apply promote_wf; [|apply fnv_u64|apply fnv_nz|done].
  by apply wf_buffers.
Qed.

Lemma cache_get_semantic_wf key klen buf n t s : wf s → wf (cache_get_semantic key klen buf n t s).2.
Proof.
  intros Hwf. unfold cache_get_semantic. repeat case_match; try done; simplify_eq/=.
  all: apply wf_alter_same; try done; intros e; apply touch_wf.
Qed.

Lemma cache_get_wf key klen buf n t s : wf s → wf (cache_get key klen buf n t s).2.
Proof.
  intros Hwf. unfold cache_get.
  pose proof (cache_get_exact_wf key klen buf n t s Hwf) as He.
  destruct (cache_get_exact key klen buf n t s) as [[v b] s1]. simpl in *.
  case_match; [done|].
  pose proof (cache_get_semantic_wf key klen b n t s1 He) as Hs.
  by destruct (cache_get_semantic key klen b n t s1) as [[[? ?] ?] ?].
Qed.

(** ** Lemmas: the semantic scan *)

Definition usable (e : cache_entry) : bool := negb ((hash e =? 0) || (has_sig e =? 0)).

(** The state of the scan after the slots [pre]. *)
Definition best_of (qsig : list Z) (pre : list cache_entry) (best m tick : Z) : Prop :=
  (best = -1 ∧ m = -1 ∧ ∀ e, e ∈ pre → usable e = false) ∨
  (0 ≤ best ∧ ∃ e, pre !! Z.to_nat best = Some e ∧ usable e = true ∧
     jaccard_match_count qsig (sig e) = m ∧ last_access e = tick ∧
     ∀ e', e' ∈ pre → usable e' = true → jaccard_match_count qsig (sig e') ≤ m).

Lemma semantic_loop_spec qsig l pre best m tick :
  best_of qsig pre best m tick →
  let '(b, m', t') := semantic_loop qsig l (Z.of_nat (length pre)) best m tick in
  best_of qsig (pre ++ l) b m' t'.
Proof.
  revert pre best m tick. induction l as [|e l IH]; intros pre best m tick Hb; simpl.
  { by rewrite app_nil_r. }
  replace (pre ++ e :: l) with ((pre ++ [e]) ++ l) by by rewrite <- app_assoc.
  replace (Z.of_nat (length pre) + 1) with (Z.of_nat (length (pre ++ [e])))
    by (rewrite length_app; simpl; lia).
  destruct ((hash e =? 0) || (has_sig e =? 0)) eqn:Hus.
  - apply IH. destruct Hb as [(-> & -> & Hn)|(Hb & e0 & He0 & Hu & Hm & Ht & Hmax)].
    + left. split_and!; [done..|]. intros e' [He'| ->%list_elem_of_singleton]%elem_of_app.
      * by apply Hn.
      * unfold usable. by rewrite Hus.
    + right. split; [done|]. exists e0. split_and!; try done.
      * by apply lookup_app_l_Some.
      * intros e' [He'| ->%list_elem_of_singleton]%elem_of_app Hu'; [by apply Hmax|].
        unfold usable in Hu'. by rewrite Hus in Hu'.
  - assert (Hue : usable e = true) by (unfold usable; by rewrite Hus).
    destruct ((m <? _) || _) eqn:Hbetter; apply IH.
    + right. split; [lia|]. exists e. rewrite Nat2Z.id. split_and!; try done.
      * by rewrite lookup_app_r, Nat.sub_diag.
      * intros e' [He'| ->%list_elem_of_singleton]%elem_of_app Hu'; [|done].
        assert (m ≤ jaccard_match_count qsig (sig e)).
        { apply orb_true_iff in Hbetter as [?%Z.ltb_lt|[?%Z.eqb_eq _]%andb_true_iff]; lia. }
        destruct Hb as [(_ & _ & Hn)|(_ & e0 & _ & _ & _ & _ & Hmax)].
        -- by rewrite (Hn _ He') in Hu'.
        -- specialize (Hmax _ He' Hu'). lia.
    + apply orb_false_iff in Hbetter as [Hlt%Z.ltb_ge _].
      destruct Hb as [(-> & -> & Hn)|(Hb & e0 & He0 & Hu & Hm & Ht & Hmax)].
      * pose proof (jaccard_range qsig (sig e)). lia.
      * right. split; [done|]. exists e0. split_and!; try done.
        -- by apply lookup_app_l_Some.
        -- intros e' [He'| ->%list_elem_of_singleton]%elem_of_app Hu'; [by apply Hmax|done].
Qed.

Lemma semantic_scan qsig ram :
  let '(b, m, t) := semantic_loop qsig ram 0 (-1) (-1) 0 in best_of qsig ram b m t.
Proof.
  apply (semantic_loop_spec qsig ram [] (-1) (-1) 0). left. split_and!; try done.
  intros e He. by apply not_elem_of_nil in He.
Qed.

(** ** Lemmas: lookups in the RAM table *)

Lemma get_exact_ram key klen buf m t s i e :
  wf s → 0 < klen → 0 < m → cache_ram s !! i = Some e →
  hash e = fnv1a_64 key (Z.to_nat klen) →
  ∃ s', cache_get_exact key klen buf m t s =
    (vlen e, blit buf 0 (take (Z.to_nat (Z.min (vlen e) m)) (val e)), s').
Proof.
  intros Hwf Hk Hm Hi Hh. unfold cache_get_exact.
  rewrite (proj2 (Z.leb_gt klen 0)), (proj2 (Z.leb_gt m 0)) by lia. cbn [orb].
  rewrite (ram_find_is _ _ _ _ (wf_unique _ Hwf) (fnv_nz key (Z.to_nat klen)) Hi Hh).
  rewrite (nth_lookup_Some _ _ _ _ Hi). eexists. cbv zeta. do 4 f_equal. bcase; lia.
Qed.

Lemma get_exact_disk key klen buf m t s rb :
  wf s → 0 < klen → 0 < m →
  ram_find (fnv1a_64 key (Z.to_nat klen)) (cache_ram s) = None →
  disk_lookup (fnv1a_64 key (Z.to_nat klen)) (cache_file s) = Some rb →
  ∃ s', cache_get_exact key klen buf m t s =
    (clamped_vlen rb,
     blit buf 0 (take (Z.to_nat (Z.min (clamped_vlen rb) m)) (rec_val rb)), s').
Proof.
  intros Hwf Hk Hm Hram Hd. unfold cache_get_exact.
  rewrite (proj2 (Z.leb_gt klen 0)), (proj2 (Z.leb_gt m 0)) by lia. cbn [orb].
  rewrite Hram.
  destruct (disk_scan_spec (fnv1a_64 key (Z.to_nat klen)) (tmp_val_buf s) CACHE_VAL s Hwf)
    as (rec & Hl & Hu & ->). rewrite Hd.
  destruct (disk_lookup_Some _ _ _ Hd) as (Hlr & _ & _ & Hc).
  destruct (Z.ltb_spec (clamped_vlen rb) 0); [lia|].
  eexists. do 3 f_equal.
  rewrite (Z.min_l (clamped_vlen rb) CACHE_VAL) by lia.
  replace (if clamped_vlen rb <? m then clamped_vlen rb else m) with (Z.min (clamped_vlen rb) m)
    by (bcase; lia).
  rewrite blit_0, take_app_le.
  - rewrite take_take. f_equal. lia.
  - rewrite length_take. unfold rec_val. rewrite length_sub by (rewrite Hlr; unfold CACHE_VAL, sizeof_rec; lia). lia.
Qed.

Lemma cache_set_unfold key klen v n t s :
  0 < klen → 0 ≤ n ≤ CACHE_VAL →
  let h := fnv1a_64 key (Z.to_nat klen) in
  let i := (choose_slot h (cache_ram s)).1 in
  let ev := (choose_slot h (cache_ram s)).2 in
  let s1 := mk_state (alter (write_slot h key klen v n t) i (cache_ram s))
              (tmp_val_buf s) (rec_buf s) (cache_file s) in
  cache_set key klen v n t s =
    (0, if negb (ev.1.1 =? 0) then (disk_append ev.1.1 ev.1.2 ev.2 s1).2 else s1).
Proof.
  intros Hk Hn. unfold cache_set.
  rewrite (proj2 (Z.leb_gt klen 0)), (proj2 (Z.ltb_ge n 0)), (proj2 (Z.ltb_ge CACHE_VAL n)) by lia.
  cbn [orb]. destruct (choose_slot _ _) as [i [[h' v'] n']]. simpl. by case_match.
Qed.

(** The RAM table [cache_set] leaves behind. *)
Lemma cache_set_ram key klen v n t s :
  wf s → 0 < klen → 0 ≤ n ≤ CACHE_VAL →
  let h := fnv1a_64 key (Z.to_nat klen) in
  let i := (choose_slot h (cache_ram s)).1 in
  cache_ram (cache_set key klen v n t s).2 = alter (write_slot h key klen v n t) i (cache_ram s) ∧
  ∃ e, cache_ram s !! i = Some e.
Proof.
  intros Hwf Hk Hn h i.
  pose proof (choose_slot_spec h _ (wf_ram_ne _ Hwf) (wf_unique _ Hwf)
                (fnv_nz key (Z.to_nat klen))) as [Hi Hother].
  split; [|apply lookup_lt_is_Some_2, Hi].
  rewrite cache_set_unfold by done. fold h. cbn [snd].
  case_match; [|done]. simpl.
  assert (Hram : ∀ h' v' n' s0, cache_ram (disk_append h' v' n' s0).2 = cache_ram s0).
  { intros. unfold disk_append. repeat case_match; done. }
  by rewrite Hram.
Qed.

Lemma write_slot_fields h key klen v n t e :
  hash (write_slot h key klen v n t e) = h ∧
  vlen (write_slot h key klen v n t e) = u16 n ∧
  last_access (write_slot h key klen v n t e) = t ∧
  val (write_slot h key klen v n t e) = blit (val e) 0 (take (Z.to_nat n) v) ∧
  sig (write_slot h key klen v n t e) = (build_signature key klen).2 ∧
  has_sig (write_slot h key klen v n t e) = if 0 <? (build_signature key klen).1 then 1 else 0.
Proof. unfold write_slot. by destruct (build_signature key klen). Qed.

(** The entry [cache_set] writes; the other slots are untouched. *)
Lemma cache_set_entry key klen v n t s :
  wf s → 0 < klen → 0 ≤ n ≤ CACHE_VAL → n ≤ Z.of_nat (length v) →
  ∃ i e, cache_ram (cache_set key klen v n t s).2 !! i = Some e ∧
    (∀ j, j ≠ i → cache_ram (cache_set key klen v n t s).2 !! j = cache_ram s !! j) ∧
    hash e = fnv1a_64 key (Z.to_nat klen) ∧ vlen e = n ∧
    (∀ k, (k ≤ Z.to_nat n)%nat → take k (val e) = take k v) ∧
    sig e = (build_signature key klen).2 ∧
    has_sig e = if 0 <? (build_signature key klen).1 then 1 else 0.
Proof.
  intros Hwf Hk Hn Hv.
  destruct (cache_set_ram key klen v n t s Hwf Hk Hn) as [Hram [e0 He0]].
  set (h := fnv1a_64 key (Z.to_nat klen)) in *. set (i := (choose_slot h (cache_ram s)).1) in *.
  destruct (write_slot_fields h key klen v n t e0) as (Hh & Hvl & _ & Hval & Hsig & Hhs).
  exists i, (write_slot h key klen v n t e0). rewrite Hram.
  split_and!; try done.
  - by rewrite list_lookup_alter_eq, He0.
  - intros j Hj. by apply list_lookup_alter_ne.
  - rewrite Hvl, u16_id by (unfold is_u16, CACHE_VAL in *; lia). done.
  - intros k Hk'. rewrite Hval, blit_0, take_app_le by (rewrite length_take; lia).
    rewrite take_take. f_equal. lia.
Qed.

(** The lookup may pass the key in another buffer: only its first [klen] bytes count. *)
Lemma set_get_exact key klen key' v n t s :
  wf s → 0 < klen → 0 ≤ n ≤ CACHE_VAL → n ≤ Z.of_nat (length v) → Forall is_u8 v →
  take (Z.to_nat klen) key' = take (Z.to_nat klen) key →
  ∀ buf m t', 0 < m →
    (cache_get_exact key' klen buf m t' (cache_set key klen v n t s).2).1 =
    (n, blit buf 0 (take (Z.to_nat (Z.min n m)) v)).
Proof.
  intros Hwf Hk Hn Hv Hu Hkey buf m t' Hm.
  pose proof (cache_set_wf key klen v n t s Hwf Hv Hu) as Hwf'.
  destruct (cache_set_entry key klen v n t s Hwf Hk Hn Hv)
    as (i & e & Hi & _ & Hh & Hvl & Hval & _).
  assert (Hh' : hash e = fnv1a_64 key' (Z.to_nat klen)).
  { rewrite Hh. unfold fnv1a_64. by rewrite Hkey. }
  destruct (get_exact_ram key' klen buf m t' _ _ _ Hwf' Hk Hm Hi Hh') as [s' ->].
  cbn [fst]. rewrite Hvl, Hval by lia. done.
Qed.

(** ** Theorems *)

(** C1: what [cache_set] stores is what [cache_get_exact] returns: after a
    successful set of a value of at most CACHE_VAL bytes under a non-empty key,
    an exact lookup of that key answers the value's length and copies the value,
    cut to the caller's buffer. *)
Theorem cache_set_get key klen v n t s :
  wf s → 0 < klen → 0 ≤ n ≤ CACHE_VAL → n ≤ Z.of_nat (length v) → Forall is_u8 v →
  (cache_set key klen v n t s).1 = 0 ∧
  ∀ buf m t', 0 < m →
    (cache_get_exact key klen buf m t' (cache_set key klen v n t s).2).1 =
    (n, blit buf 0 (take (Z.to_nat (Z.min n m)) v)).
Proof.
  intros Hwf Hk Hn Hv Hu. split; [by rewrite cache_set_unfold|].
  by apply set_get_exact.
Qed.

(** C2: every call of the cache preserves its invariant: 16 slots, lengths
    within the buffers, no hash held by two slots, intact static buffers;
    whatever the record file contains. *)
Theorem cache_invariant s o : wf s → op_ok o → wf (run_op s o).
Proof.
  intros Hwf Hok. destruct o as [key klen v n t|key klen buf n t|key klen buf n t|key klen buf n t].
  - destruct Hok. by apply cache_set_wf.
  - by apply cache_get_exact_wf.
  - by apply cache_get_semantic_wf.
  - by apply cache_get_wf.
Qed.

(** The slot a set of a new key takes in a full table, and what it evicts. *)
Lemma choose_slot_full h ram e :
  ram_find h ram = None → ram_find 0 ram = None → ram !! lru_slot ram = Some e →
  choose_slot h ram = (lru_slot ram, (hash e, take (Z.to_nat (vlen e)) (val e), vlen e)).
Proof. intros Hf Hf0 He. unfold choose_slot. by rewrite Hf, Hf0, (nth_lookup_Some _ _ _ _ He). Qed.

Lemma cache_set_evict_file key klen v n t s e :
  let h := fnv1a_64 key (Z.to_nat klen) in
  0 < klen → 0 ≤ n ≤ CACHE_VAL →
  ram_find h (cache_ram s) = None → ram_find 0 (cache_ram s) = None →
  cache_ram s !! lru_slot (cache_ram s) = Some e →
  cache_file (cache_set key klen v n t s).2 =
  cache_file (disk_append (hash e) (take (Z.to_nat (vlen e)) (val e)) (vlen e) s).2.
Proof.
  intros h Hk Hn Hf Hf0 He. rewrite cache_set_unfold by done. fold h.
  rewrite (choose_slot_full _ _ _ Hf Hf0 He). cbn [fst snd].
  destruct (Z.eqb_spec (hash e) 0) as [H0|_]; [by destruct (ram_find_None _ _ _ _ Hf0 He)|].
  cbn [negb].
  unfold disk_append. simpl. repeat case_match; simplify_eq/=; done.
Qed.

Lemma evicted_not_in_ram key klen v n t s e :
  let h := fnv1a_64 key (Z.to_nat klen) in
  wf s → 0 < klen → 0 ≤ n ≤ CACHE_VAL →
  ram_find h (cache_ram s) = None → ram_find 0 (cache_ram s) = None →
  cache_ram s !! lru_slot (cache_ram s) = Some e →
  ram_find (hash e) (cache_ram (cache_set key klen v n t s).2) = None.
Proof.
  intros h Hwf Hk Hn Hf Hf0 He.
  destruct (cache_set_ram key klen v n t s Hwf Hk Hn) as [Hram _].
  fold h in Hram. rewrite (choose_slot_full _ _ _ Hf Hf0 He) in Hram. cbn [fst] in Hram.
  destruct (ram_find (hash e) (cache_ram (cache_set key klen v n t s).2)) as [j|] eqn:Hj; [|done].
  exfalso. apply ram_find_Some in Hj as (e' & Hj & He'). rewrite Hram in Hj.
  destruct (decide (j = lru_slot (cache_ram s))) as [->|Hne].
  - rewrite list_lookup_alter_eq, He in Hj. simplify_eq/=.
    destruct (write_slot_fields h key klen v n t e) as (Hw & _). rewrite Hw in He'.
    by eapply (ram_find_None h); [exact Hf|exact He|].
  - rewrite list_lookup_alter_ne in Hj by done.
    apply Hne. eapply (wf_unique _ Hwf); [exact Hj|exact He|done|].
    rewrite He'. by eapply ram_find_None.
Qed.

(** a set of a new key into a full table evicts a least recently used
    entry to the record file, and nothing is lost: if the append succeeds on a
    file of whole records that has no older record of that hash, the evicted
    key is still answered, with its value, from the file. *)
Theorem cache_evict_readable key klen v n t s :
  wf s → 0 < klen → 0 ≤ n ≤ CACHE_VAL → n ≤ Z.of_nat (length v) → Forall is_u8 v →
  ram_find (fnv1a_64 key (Z.to_nat klen)) (cache_ram s) = None →
  ram_find 0 (cache_ram s) = None →
  ∃ e, cache_ram s !! lru_slot (cache_ram s) = Some e ∧
    (∀ j e', cache_ram s !! j = Some e' → last_access e ≤ last_access e') ∧
    ∀ key' klen' buf m t',
      0 < klen' → 0 < m → fnv1a_64 key' (Z.to_nat klen') = hash e →
      aligned (cache_file s) → disk_lookup (hash e) (cache_file s) = None →
      (disk_append (hash e) (take (Z.to_nat (vlen e)) (val e)) (vlen e) s).1 = 0 →
      (cache_get_exact key' klen' buf m t' (cache_set key klen v n t s).2).1 =
      (vlen e, blit buf 0 (take (Z.to_nat (Z.min (vlen e) m)) (val e))).
Proof.
  intros Hwf Hk Hn Hv Hu Hf Hf0.
  destruct (lru_slot_spec _ (wf_ram_ne _ Hwf)) as (e & He & Hmin).
  exists e. split; [done|]. split; [done|].
  intros key' klen' buf m t' Hk' Hm Hh Hal Hdl Happ.
  pose proof (cache_set_wf key klen v n t s Hwf Hv Hu) as Hwf'.
  pose proof (Forall_lookup_1 _ _ _ _ (wf_entries _ Hwf) He) as [Hhe Hve Hle Hue _].
  assert (Hlv : length (take (Z.to_nat (vlen e)) (val e)) = Z.to_nat (vlen e))
    by (rewrite length_take; unfold CACHE_VAL in *; lia).
  pose proof (disk_append_success (hash e) (take (Z.to_nat (vlen e)) (val e)) (vlen e) s
                Hwf Hhe Hve ltac:(lia) (Forall_take _ _ _ Hue) Happ) as Hok.
  destruct (disk_lookup_append _ _ _ _ _ (hash e) Hal Hok) as (rec & Hrh & Hrv & Hrt & Hlook).
  rewrite Hdl, Z.eqb_refl in Hlook.
  rewrite <- (cache_set_evict_file key klen v n t s e) in Hlook by done.
  pose proof (evicted_not_in_ram key klen v n t s e Hwf Hk Hn Hf Hf0 He) as Hnone.
  rewrite <- Hh in Hnone, Hlook.
  destruct (get_exact_disk key' klen' buf m t' _ rec Hwf' Hk' Hm Hnone Hlook) as [s' ->].
  cbn [fst]. unfold clamped_vlen. rewrite Hrv, Z.min_r by lia. do 2 f_equal.
  apply (f_equal (take (Z.to_nat (Z.min (vlen e) m)))) in Hrt.
  rewrite !take_take in Hrt. rewrite !Nat.min_l in Hrt by lia. done.
Qed.

(** What a lookup may do to the caller's buffer and answer. *)
Definition lookup_ok (buf : list Z) (m : Z) (r : Z) (buf' : list Z) : Prop :=
  -1 ≤ r ≤ CACHE_VAL ∧ length buf' = length buf ∧
  drop (Z.to_nat m) buf' = drop (Z.to_nat m) buf.

Lemma lookup_ok_miss buf m : lookup_ok buf m (-1) buf.
Proof. unfold lookup_ok, CACHE_VAL. split; [lia|done]. Qed.

Lemma lookup_ok_hit buf m r k l :
  0 ≤ r ≤ CACHE_VAL → (k ≤ Z.to_nat m)%nat → m ≤ Z.of_nat (length buf) →
  lookup_ok buf m r (blit buf 0 (take k l)).
Proof.
  intros Hr Hk Hm. split; [lia|]. split.
  - rewrite length_blit; rewrite ?length_take; lia.
  - rewrite blit_0, drop_app_ge, drop_drop; rewrite !length_take; [f_equal; lia|lia].
Qed.

Lemma get_exact_bounded key klen buf m t s :
  wf s → m ≤ Z.of_nat (length buf) →
  lookup_ok buf m (cache_get_exact key klen buf m t s).1.1 (cache_get_exact key klen buf m t s).1.2.
Proof.
  intros Hwf Hm. unfold cache_get_exact. case_match; [apply lookup_ok_miss|].
  destruct (ram_find _ _) as [i|] eqn:Hi.
  - apply ram_find_Some in Hi as (e & He & _). rewrite (nth_lookup_Some _ _ _ _ He).
    pose proof (Forall_lookup_1 _ _ _ _ (wf_entries _ Hwf) He) as [_ Hve _ _ _].
    apply lookup_ok_hit; [done|bcase; lia|done].
  - destruct (disk_scan_spec (fnv1a_64 key (Z.to_nat klen)) (tmp_val_buf s) CACHE_VAL s Hwf)
      as (rec & _ & _ & ->).
    destruct (disk_lookup _ _) as [rb|] eqn:Hd; simpl; [|apply lookup_ok_miss].
    destruct (disk_lookup_Some _ _ _ Hd) as (_ & _ & _ & Hcl).
    destruct (Z.ltb_spec (clamped_vlen rb) 0); [lia|].
    apply lookup_ok_hit; [done|bcase; lia|done].
Qed.

Lemma get_semantic_bounded key klen buf m t s :
  wf s → m ≤ Z.of_nat (length buf) →
  let r := (cache_get_semantic key klen buf m t s).1.1 in lookup_ok buf m r.1 r.2.
Proof.
  intros Hwf Hm. unfold cache_get_semantic. case_match; [apply lookup_ok_miss|].
  destruct (build_signature key klen) as [ns qs]. case_match; [apply lookup_ok_miss|].
  pose proof (semantic_scan qs (cache_ram s)) as Hs.
  destruct (semantic_loop _ _ _ _ _ _) as [[best bm] bt].
  case_match; [apply lookup_ok_miss|]. bool_hyps.
  destruct Hs as [(-> & _)|(_ & e & He & _)]; [lia|].
  rewrite (nth_lookup_Some _ _ _ _ He).
  pose proof (Forall_lookup_1 _ _ _ _ (wf_entries _ Hwf) He) as [_ Hve _ _ _].
  apply lookup_ok_hit; [done|bcase; lia|done].
Qed.

(** C3: a lookup never overruns the caller's buffer, whatever bytes an agent
    planted in /cache.bin: the length it returns is at most CACHE_VAL, and only
    the first [vbuflen] bytes of the buffer change. *)
Theorem cache_get_bounded key klen buf m t s :
  wf s → m ≤ Z.of_nat (length buf) →
  let '(r, buf', _) := cache_get key klen buf m t s in
  -1 ≤ r ≤ CACHE_VAL ∧ length buf' = length buf ∧
  drop (Z.to_nat m) buf' = drop (Z.to_nat m) buf.
Proof.
  intros Hwf Hm. unfold cache_get.
  pose proof (get_exact_bounded key klen buf m t s Hwf Hm) as Hex.
  pose proof (cache_get_exact_wf key klen buf m t s Hwf) as Hwf1.
  destruct (cache_get_exact key klen buf m t s) as [[r b1] s1]. simpl in *.
  destruct (0 <=? r); [done|]. destruct Hex as (_ & Hb1 & Hd1).
  pose proof (get_semantic_bounded key klen b1 m t s1 Hwf1 ltac:(lia)) as Hse.
  destruct (cache_get_semantic key klen b1 m t s1) as [[[r2 b2] sc] s2]. simpl in *.
  destruct Hse as (? & ? & ?). split; [done|]. split; congruence.
Qed.

Lemma build_signature_eq key klen :
  build_signature key klen =
  (let n := Z.of_nat (length (content_words (take (Z.to_nat klen) key))) in
   if n <? MIN_WORDS_FOR_SEMANTIC then 0 else n,
   map (minhash (content_words (take (Z.to_nat klen) key))) (seq 0 SIG_K)).
Proof.
  rewrite <- build_signature_count. destruct (build_signature key klen) as [c sg] eqn:He.
  cbn [fst]. f_equal. apply list_eq. intros k.
  pose proof (length_build_signature key klen) as Hl. rewrite He in Hl. cbn [snd] in Hl.
  destruct (decide (k < SIG_K)%nat).
  - pose proof (lookup_build_signature key klen k ltac:(done)) as Hk. rewrite He in Hk.
    cbn [snd] in Hk. rewrite Hk. symmetry.
    by rewrite lookup_map, lookup_seq_lt.
  - rewrite !lookup_ge_None_2; [done|rewrite length_map, length_seq; lia|lia].
Qed.

(** The outcome of a semantic lookup that gets past the argument checks. *)
Lemma get_semantic_cases key klen buf m t s :
  0 < klen → 0 < m →
  3 ≤ Z.of_nat (length (content_words (take (Z.to_nat klen) key))) →
  let qsig := (build_signature key klen).2 in
  let score e := jaccard_match_count qsig (sig e) in
  let '(r, buf', sc, _) := cache_get_semantic key klen buf m t s in
  (r = -1 ∧ buf' = buf ∧ sc = 0 ∧
   ∀ e, e ∈ cache_ram s → usable e = true → score e * 5 < 2 * 64) ∨
  (∃ e, e ∈ cache_ram s ∧ usable e = true ∧ sc = score e ∧ 2 * 64 ≤ sc * 5 ∧
     (∀ e', e' ∈ cache_ram s → usable e' = true → score e' ≤ sc) ∧
     r = vlen e ∧ buf' = blit buf 0 (take (Z.to_nat (Z.min (vlen e) m)) (val e))).
Proof.
  intros Hk Hm Hw. unfold cache_get_semantic.
  rewrite (proj2 (Z.leb_gt klen 0)), (proj2 (Z.leb_gt m 0)) by lia. cbn [orb].
  pose proof (build_signature_count key klen) as Hc.
  destruct (build_signature key klen) as [c qsig]. simpl in Hc.
  rewrite (proj2 (Z.ltb_ge _ _)) in Hc by (unfold MIN_WORDS_FOR_SEMANTIC; lia).
  rewrite (proj2 (Z.eqb_neq c 0)) by lia. cbn [snd].
  pose proof (semantic_scan qsig (cache_ram s)) as Hs.
  destruct (semantic_loop _ _ _ _ _ _) as [[best bm] bt].
  change (SEMANTIC_MATCH_NUM * Z.of_nat SIG_K) with (2 * 64). unfold SEMANTIC_MATCH_DEN.
  destruct ((best <? 0) || (bm * 5 <? 2 * 64)) eqn:Hlow.
  - left. split_and!; try done. intros e He Hu.
    destruct Hs as [(_ & _ & Hn)|(Hb & e0 & _ & _ & Hm0 & _ & Hmax)].
    + by rewrite (Hn _ He) in Hu.
    + specialize (Hmax _ He Hu). apply orb_true_iff in Hlow as [?%Z.ltb_lt|?%Z.ltb_lt]; lia.
  - bool_hyps. right. destruct Hs as [(-> & _)|(Hb & e & He & Hu & Hm0 & _ & Hmax)]; [lia|].
    rewrite (nth_lookup_Some _ _ _ _ He). exists e. split_and!; try done.
    + by eapply list_elem_of_lookup_2.
    + do 3 f_equal. bcase; lia.
Qed.

Lemma jaccard_le_64 key klen b : jaccard_match_count (build_signature key klen).2 b ≤ 64.
Proof. etrans; [apply jaccard_range|]. by rewrite length_build_signature. Qed.

(** [build_signature] is MinHash on the content words of the key (maximal
    runs of word bytes, truncated, lower-cased, stopwords dropped): the word
    count, 0 when below three, and for each dimension the least hash over the
    words. The scanning loop always reaches the end of the key. *)
Theorem build_signature_spec key klen :
  build_signature key klen =
  (let n := Z.of_nat (length (content_words (take (Z.to_nat klen) key))) in
   if n <? 3 then 0 else n,
   map (minhash (content_words (take (Z.to_nat klen) key))) (seq 0 SIG_K)).
Proof. apply build_signature_eq. Qed.

(** a semantic lookup answers the usable slot of highest estimated
    similarity, and only from 2/5 of the 64 signature positions on; otherwise
    it misses and leaves the buffer alone. *)
Theorem cache_get_semantic_best key klen buf m t s :
  wf s → 0 < klen → 0 < m →
  3 ≤ Z.of_nat (length (content_words (take (Z.to_nat klen) key))) →
  let score e := jaccard_match_count (build_signature key klen).2 (sig e) in
  let '(r, buf', sc, _) := cache_get_semantic key klen buf m t s in
  (r = -1 ∧ buf' = buf ∧ ∀ e, e ∈ cache_ram s → usable e = true → score e * 5 < 2 * 64) ∨
  (∃ e, e ∈ cache_ram s ∧ usable e = true ∧ sc = score e ∧ 2 * 64 ≤ sc * 5 ∧ sc ≤ 64 ∧
     (∀ e', e' ∈ cache_ram s → usable e' = true → score e' ≤ sc) ∧
     0 ≤ r ∧ r = vlen e ∧ buf' = blit buf 0 (take (Z.to_nat (Z.min r m)) (val e))).
Proof.
  intros Hwf Hk Hm Hw. pose proof (get_semantic_cases key klen buf m t s Hk Hm Hw) as Hc.
  cbv zeta in *. destruct (cache_get_semantic key klen buf m t s) as [[[r b] sc] s'].
  destruct Hc as [(-> & -> & _ & Hn)|(e & He & Hu & Hsc & Hge & Hmax & -> & Hb)]; [by left|].
  right. exists e. split_and!; try done.
  - rewrite Hsc. apply jaccard_le_64.
  - apply list_elem_of_lookup in He as [i Hi].
    pose proof (Forall_lookup_1 _ _ _ _ (wf_entries _ Hwf) Hi) as [_ ? _ _ _]. lia.
Qed.

(** a paraphrase hits: after a prompt of at least three content words is
    cached, a prompt with the same set of content words (other order, case,
    punctuation, stopwords, repetitions) scores 64/64, and it is answered with
    the cached value unless another slot scores 64 as well. *)
Theorem cache_paraphrase_hit key klen key' klen' v n t buf m t' s :
  wf s → 0 < klen → 0 < klen' → 0 < m → 0 ≤ n ≤ CACHE_VAL →
  n ≤ Z.of_nat (length v) → Forall is_u8 v →
  3 ≤ Z.of_nat (length (content_words (take (Z.to_nat klen) key))) →
  3 ≤ Z.of_nat (length (content_words (take (Z.to_nat klen') key'))) →
  (∀ w, w ∈ content_words (take (Z.to_nat klen) key) ↔
        w ∈ content_words (take (Z.to_nat klen') key')) →
  let '(r, buf', sc, _) := cache_get_semantic key' klen' buf m t' (cache_set key klen v n t s).2 in
  sc = 64 ∧ 0 ≤ r ∧
  ((∀ e, e ∈ cache_ram s → usable e = true →
      jaccard_match_count (build_signature key' klen').2 (sig e) < 64) →
   r = n ∧ buf' = blit buf 0 (take (Z.to_nat (Z.min n m)) v)).
Proof.
  intros Hwf Hk Hk' Hm Hn Hv Hu Hw Hw' Hset.
  pose proof (cache_set_wf key klen v n t s Hwf Hv Hu) as Hwf'.
  destruct (cache_set_entry key klen v n t s Hwf Hk Hn Hv)
    as (i & e & Hi & Hoth & Hh & Hvl & Hval & Hsig & Hhs).
  assert (Hue : usable e = true).
  { unfold usable. rewrite Hh, Hhs, build_signature_count. cbv zeta.
    rewrite (proj2 (Z.eqb_neq _ 0)) by apply fnv_nz.
    rewrite (proj2 (Z.ltb_ge _ MIN_WORDS_FOR_SEMANTIC)) by (unfold MIN_WORDS_FOR_SEMANTIC; lia).
    by rewrite (proj2 (Z.ltb_lt 0 _)) by lia. }
  assert (Hscore : jaccard_match_count (build_signature key' klen').2 (sig e) = 64).
  { rewrite Hsig, (build_signature_set _ _ _ _ Hset), jaccard_refl. by rewrite length_build_signature. }
  pose proof (get_semantic_cases key' klen' buf m t' (cache_set key klen v n t s).2 Hk' Hm Hw') as Hc.
  cbv zeta in Hc. destruct (cache_get_semantic _ _ _ _ _ _) as [[[r b] sc] s'].
  assert (Hel : e ∈ cache_ram (cache_set key klen v n t s).2) by by eapply list_elem_of_lookup_2.
  destruct Hc as [(_ & _ & _ & Hno)|(e1 & He1 & Hu1 & Hsc & _ & Hmax & -> & ->)].
  { specialize (Hno e Hel Hue). lia. }
  specialize (Hmax e Hel Hue). pose proof (jaccard_le_64 key' klen' (sig e1)).
  apply list_elem_of_lookup in He1 as [j Hj].
  split; [lia|]. split.
  { pose proof (Forall_lookup_1 _ _ _ _ (wf_entries _ Hwf') Hj) as [_ ? _ _ _]. lia. }
  intros Hothers. assert (Hje : e1 = e); [|by subst e1; rewrite Hvl, Hval by lia].
  destruct (decide (j = i)) as [->|Hne]; [congruence|].
  rewrite Hoth in Hj by done.
  specialize (Hothers e1 ltac:(by eapply list_elem_of_lookup_2) Hu1). lia.
Qed.
End laws.

(** ** The in-memory file implements the interface; the boot state *)

#[export] Instance ram_cache_file_laws : CacheFileLaws ram_file.
Proof.
  refine {| cf_data := rf_bytes |}.
  - intros [[d|]] d' [= <-]. apply Forall_take. apply List.Forall_forall.
    intros x (y & <- & _)%List.in_map_iff. apply u8_range.
  - intros [[d|]] d' [= <-]. rewrite length_take.
    enough (Z.of_nat RAM_LIMIT < 2 ^ 31) by lia. done.
  - done.
  - intros f d off n Hd Hle. simpl. rewrite Hd, !Nat2Z.id. done.
  - intros f f' _ [= <-]. done.
  - intros f d bs f' Hd Hu. simpl. rewrite Hd. simpl.
    destruct (_ || _) eqn:Hfull; intros Heq.
    { apply (f_equal snd) in Heq. cbn [snd] in Heq. by pose proof (Zle_0_nat (length bs)) as Hp; rewrite <- Heq in Hp. }
    apply (f_equal fst) in Heq. cbn [fst] in Heq. subst f'. bool_hyps.
    unfold rf_bytes. simpl. rewrite Nat2Z.id.
    unfold blit. rewrite (take_ge d), (drop_ge d), app_nil_r by lia.
    unfold rf_bytes in Hd. destruct (rf_data f) as [d0|]; [|done]. injection Hd as <-.
    simpl. f_equal.
    assert (H8 : ∀ l, Forall is_u8 l → map u8 l = l).
    { intros l Hl. rewrite <- (map_id l) at 2. apply map_ext_Forall. eapply Forall_impl; [done|].
      intros x Hx. by apply u8_id. }
    rewrite H8; [apply take_ge; rewrite length_app; lia|].
    apply Forall_app; split; [|done]. apply Forall_take, List.Forall_forall.
    intros x (y & <- & _)%List.in_map_iff. apply u8_range.
Defined.

Lemma cacheinit_wf {F} (f : F) : wf (cacheinit f).
Proof.
  assert (H0 : ∀ n, Forall is_u8 (replicate n 0)) by (intros; by apply Forall_replicate).
  unfold cacheinit. split; cbn [cache_ram tmp_val_buf rec_buf];
    rewrite ?length_replicate; try done.
  - apply Forall_replicate. split; cbn [hash vlen val sig empty_entry].
    + split; [lia|done].
    + unfold CACHE_VAL. lia.
    + apply length_replicate.
    + apply H0.
    + apply length_replicate.
  - intros i j e1 e2 [-> _]%lookup_replicate [-> _]%lookup_replicate. done.
Qed.

Definition boot : state ram_file := cacheinit (mk_ram_file None).

(** The sets of a trace of (key, value, ticks). *)
Definition set_all (l : list (list Z * list Z * Z)) (s : state ram_file) : state ram_file :=
  fold_left (λ s '(k, v, t),
    (cache_set k (Z.of_nat (length k)) v (Z.of_nat (length v)) t s).2) l s.

Lemma set_all_wf l s :
  wf s → Forall (λ p, Forall is_u8 p.1.2) l → wf (set_all l s).
Proof.
  revert s. induction l as [|[[k v] t] l IH]; intros s Hs Hl; [done|].
  apply Forall_cons in Hl as [Hv Hl]. apply IH; [|done].
  apply cache_set_wf; [done| |done]. simpl. lia.
Qed.

(** Sixteen one-letter keys from [c] on, at ticks [t], [t + 1], ... *)
Definition fill16 (c t : Z) (v : list Z) : list (list Z * list Z * Z) :=
  map (λ i, ([c + Z.of_nat i], v, t + Z.of_nat i)) (seq 0 16).

(** The disk overlay serves the first record of a hash: after a key is set,
    evicted, set to a new value and evicted again, its lookup returns the value
    of the first set. *)
Theorem cache_stale_after_update :
  let s1 := set_all (([90], bytes "old", 1) :: fill16 97 2 (bytes "x")) boot in
  let s2 := set_all (([90], bytes "new", 20) :: fill16 48 21 (bytes "y")) s1 in
  (cache_get_exact [90] 1 (replicate 8 0) 8 50 s2).1 = (3, bytes "old" ++ replicate 5 0).
Proof. vm_compute. reflexivity. Qed.

(** ** Witnesses *)

Lemma cache_set_get_witness :
  (cache_get_exact (bytes "key") 3 (replicate 8 0) 8 9
     (cache_set (bytes "key") 3 (bytes "hello") 5 7 boot).2).1
  = (5, bytes "hello" ++ replicate 3 0).
Proof.
  destruct (cache_set_get (bytes "key") 3 (bytes "hello") 5 7 boot) as [_ Hget];
    [apply cacheinit_wf|lia|vm_compute; split; discriminate|vm_compute; discriminate
    |apply Forall_bytes_u8|].
  rewrite Hget by lia. reflexivity.
Defined.

Lemma cache_invariant_witness :
  wf (run_op boot (OpSet (bytes "key") 3 (bytes "hello") 5 7)).
Proof.
  apply cache_invariant; [apply cacheinit_wf|].
  split; [vm_compute; discriminate|apply Forall_bytes_u8].
Defined.

Definition full : state ram_file := set_all (fill16 97 1 (bytes "val")) boot.

Lemma full_wf : wf full.
Proof.
  apply set_all_wf; [apply cacheinit_wf|].
  apply Forall_forall. intros p (i & -> & _)%list_elem_of_fmap. apply Forall_bytes_u8.
Qed.

Lemma cache_evict_readable_witness :
  (cache_get_exact [97] 1 (replicate 4 0) 4 60
     (cache_set (bytes "new") 3 (bytes "w") 1 50 full).2).1 = (3, bytes "val" ++ [0]).
Proof.
  destruct (cache_evict_readable (bytes "new") 3 (bytes "w") 1 50 full)
    as (e & He & _ & Hget);
    [apply full_wf|lia|vm_compute; split; discriminate|vm_compute; discriminate|apply Forall_bytes_u8
    |vm_compute; reflexivity|vm_compute; reflexivity|].
  assert (Hf : (λ e, (hash e, vlen e, take 3 (val e))) <$>
      (cache_ram full !! lru_slot (cache_ram full))
    = Some (fnv1a_64 [97] 1, 3, bytes "val")) by (vm_compute; reflexivity).
  rewrite He in Hf. injection Hf as Hh Hv Hval. rewrite Hh, Hv in Hget.
  rewrite (Hget [97] 1 (replicate 4 0) 4 60); try (vm_compute; reflexivity).
  - change (Z.to_nat (Z.min 3 4)) with 3%nat. rewrite Hval. reflexivity.
  - change (Z.to_nat 3) with 3%nat. rewrite Hval. vm_compute. reflexivity.
Defined.

Lemma cache_get_bounded_witness :
  let '(r, buf, _) := cache_get (bytes "nokey") 5 (replicate 8 1) 8 3 full in
  -1 ≤ r ≤ CACHE_VAL ∧ length buf = 8%nat.
Proof.
  pose proof (cache_get_bounded (bytes "nokey") 5 (replicate 8 1) 8 3 full full_wf) as H.
  destruct (cache_get _ _ _ _ _ _) as [[r buf] s].
  destruct H as (Hr & Hl & _); [vm_compute; discriminate|].
  split; [apply Hr|apply Hl].
Defined.

(** The two prompts of the paraphrase tests. *)
Definition prompt1 : list Z := bytes "what is the capital of France today".
Definition prompt2 : list Z := bytes "please, CAPITAL france: today?".
Definition asked : state ram_file := (cache_set prompt1 35 (bytes "Paris") 5 4 full).2.

Lemma asked_wf : wf asked.
Proof. apply cache_set_wf; [apply full_wf|vm_compute; discriminate|apply Forall_bytes_u8]. Qed.

Lemma cache_get_semantic_best_witness :
  let '(r, buf', sc, _) := cache_get_semantic prompt2 30 (replicate 8 0) 8 9 asked in
  sc = 64 ∧ 0 ≤ r.
Proof.
  pose proof (cache_get_semantic_best prompt2 30 (replicate 8 0) 8 9 asked asked_wf
    ltac:(lia) ltac:(lia) ltac:(vm_compute; discriminate)) as H. cbv zeta in H.
  assert (Hsc : (cache_get_semantic prompt2 30 (replicate 8 0) 8 9 asked).1.2 = 64)
    by (vm_compute; reflexivity).
  assert (Hr : (cache_get_semantic prompt2 30 (replicate 8 0) 8 9 asked).1.1.1 = 5)
    by (vm_compute; reflexivity).
  destruct (cache_get_semantic _ _ _ _ _ _) as [[[r b] sc] s']. simpl in Hsc, Hr.
  destruct H as [(-> & _)|(e & _ & _ & _ & _ & _ & _ & Hr' & _)]; [discriminate|].
  split; [exact Hsc|exact Hr'].
Defined.

Lemma cache_paraphrase_hit_witness :
  let '(r, buf', sc, _) := cache_get_semantic prompt2 30 (replicate 8 0) 8 9
    (cache_set prompt1 35 (bytes "Paris") 5 4 full).2 in
  sc = 64 ∧ r = 5 ∧ buf' = bytes "Paris" ++ replicate 3 0.
Proof.
  pose proof (cache_paraphrase_hit prompt1 35 prompt2 30 (bytes "Paris") 5 4 (replicate 8 0) 8 9
    full full_wf ltac:(lia) ltac:(lia) ltac:(lia) ltac:(vm_compute; split; discriminate)
    ltac:(vm_compute; discriminate) (Forall_bytes_u8 _)
    ltac:(vm_compute; discriminate) ltac:(vm_compute; discriminate)) as H.
  destruct (cache_get_semantic _ _ _ _ _ _) as [[[r b] sc] s'].
  destruct H as (Hsc & _ & Hother).
  { intros w. vm_compute content_words. rewrite !list_elem_of_In. simpl. tauto. }
  destruct Hother as [Hr Hb].
  { assert (HF : forallb (λ e, negb (usable e)) (cache_ram full) = true)
      by (vm_compute; reflexivity).
    intros e He Hu. rewrite list_elem_of_In in He.
    pose proof (proj1 (List.forallb_forall _ _) HF e He) as Hf. cbv beta in Hf.
    rewrite Hu in Hf. discriminate. }
  split; [exact Hsc|split; [exact Hr|rewrite Hb; reflexivity]].
Defined.
