(* ===== verification/Confirm.v ===== *)
(** * kernel/confirm.c: confirm-escape

    A jailed process that makes a dangerous system call waits here for the host
    user.  There is one pending slot.  [state] holds the two static variables
    and, for every process inside [confirm_request], the point of that function
    it has reached; a [label] is one critical section or one event:

    - [Enter pid call]: the first critical section (and the [CONFIRM_REQ] line);
    - [Begin pid]: reading [t0];
    - [Test pid]: one pass through the loop head, holding [confirm_lock] since
      the start of the loop or the wakeup;
    - [Sleep pid]: [sleep], which releases [confirm_lock] atomically;
    - [Tick]: [clockintr]'s increment of [ticks] and [confirm_tick];
    - [Resolve pid allow]: [confirm_resolve], which needs [confirm_lock]; both
      callers in agentcmd.c drop a pid that is not positive;
    - [Wake pid]: a wakeup from elsewhere ([kkill]);
    - [Return pid]: the return to [syscall].

    [confirm_tick] takes no lock, so a [Tick] can fall between a [Test] and its
    [Sleep]; a [Resolve] cannot. *)

From S2P Require Import Prelude CString Printf.

Local Open Scope Z_scope.

Definition CONFIRM_TIMEOUT_TICKS : Z := 150.

(** Where a process is in [confirm_request]. *)
Inductive phase :=
  | Posted                (* after the first critical section *)
  | Looping (t0 : Z)      (* at the head of the loop *)
  | ToSleep (t0 : Z)      (* tests done, about to [sleep], lock held *)
  | Sleeping (t0 : Z)     (* asleep on [confirm_wait_chan] *)
  | Done (rc : Z).        (* returning [rc] *)

Record state := mk_state {
  confirm_pending_pid : Z;
  confirm_result : Z;
  ticks : Z;
  threads : gmap Z phase;
  console : list Z;
}.

Definition confirminit (t : Z) : state := mk_state 0 (-1) t ∅ [].

Definition set_thread (pid : Z) (ph : phase) (s : state) : state :=
  mk_state (confirm_pending_pid s) (confirm_result s) (ticks s)
    (<[pid := ph]> (threads s)) (console s).

(** [wakeup(&confirm_wait_chan)]. *)
Definition wake1 (ph : phase) : phase :=
  match ph with Sleeping t0 => Looping t0 | _ => ph end.

Definition wakeup (s : state) : state :=
  mk_state (confirm_pending_pid s) (confirm_result s) (ticks s) (wake1 <$> threads s) (console s).

(** The first critical section of [confirm_request] and its message. *)
Definition confirm_post (pid call_num : Z) (summary : list Z) (s : state) : state :=
  if negb (confirm_pending_pid s =? 0) then set_thread pid (Done 0) s
  else
    mk_state pid (-1) (ticks s) (<[pid := Posted]> (threads s))
      (console s ++ printf (bytes "CONFIRM_REQ|%d|%d|%s
") [VInt pid; VInt call_num; VStr (Some summary)]).

(** One pass through the loop. *)
Definition confirm_test (pid t0 : Z) (s : state) : state :=
  if negb (confirm_result s =? -1)
  then mk_state 0 (-1) (ticks s)
         (<[pid := Done (if confirm_result s =? 1 then 1 else 0)]> (threads s)) (console s)
  else
    let elapsed := u32 (ticks s - t0) in
    if CONFIRM_TIMEOUT_TICKS <=? elapsed
    then mk_state 0 (-1) (ticks s) (<[pid := Done 0]> (threads s)) (console s)
    else set_thread pid (ToSleep t0) s.

Definition confirm_tick (s : state) : state :=
  if negb (confirm_pending_pid s =? 0) then wakeup s else s.

Definition confirm_resolve (pid allow : Z) (s : state) : state :=
  let s := if (confirm_pending_pid s =? pid) && (confirm_result s =? -1)
           then mk_state (confirm_pending_pid s) (if negb (allow =? 0) then 1 else 0)
                  (ticks s) (threads s) (console s)
           else s in
  wakeup s.

(** [clockintr]: one more tick. *)
Definition clock_tick (s : state) : state :=
  confirm_tick (mk_state (confirm_pending_pid s) (confirm_result s) (u32 (ticks s + 1))
                  (threads s) (console s)).

Inductive label :=
  | Enter (pid call_num : Z) (summary : list Z)
  | Begin (pid : Z)
  | Test (pid : Z)
  | Sleep (pid : Z)
  | Tick
  | Resolve (pid allow : Z)
  | Wake (pid : Z)
  | Return (pid : Z).

(** [confirm_lock] is free unless a process is between its test and [sleep]. *)
Definition holds_lock (ph : phase) : bool :=
  match ph with ToSleep _ => true | _ => false end.

Definition lock_free (s : state) : bool :=
  forallb (λ p, negb (holds_lock p.2)) (map_to_list (threads s)).

Definition step (s : state) (l : label) : option state :=
  match l with
  | Enter pid call summary =>
      match threads s !! pid with
      | None => if (0 <? pid) && lock_free s then Some (confirm_post pid call summary s) else None
      | Some _ => None
      end
  | Begin pid =>
      match threads s !! pid with
      | Some Posted => Some (set_thread pid (Looping (ticks s)) s)
      | _ => None
      end
  | Test pid =>
      match threads s !! pid with
      | Some (Looping t0) => if lock_free s then Some (confirm_test pid t0 s) else None
      | _ => None
      end
  | Sleep pid =>
      match threads s !! pid with
      | Some (ToSleep t0) => Some (set_thread pid (Sleeping t0) s)
      | _ => None
      end
  | Tick => Some (clock_tick s)
  | Resolve pid allow => if (0 <? pid) && lock_free s then Some (confirm_resolve pid allow s) else None
  | Wake pid =>
      match threads s !! pid with
      | Some (Sleeping t0) => Some (set_thread pid (Looping t0) s)
      | _ => None
      end
  | Return pid =>
      match threads s !! pid with
      | Some (Done _) =>
          Some (mk_state (confirm_pending_pid s) (confirm_result s) (ticks s)
                  (delete pid (threads s)) (console s))
      | _ => None
      end
  end.

(** Executions. *)
Inductive steps : state → list label → state → Prop :=
  | steps_nil s : steps s [] s
  | steps_snoc s tr s1 l s2 : steps s tr s1 → step s1 l = Some s2 → steps s (tr ++ [l]) s2.

Fixpoint run (s : state) (tr : list label) : option state :=
  match tr with
  | [] => Some s
  | l :: tr' => s' ← step s l; run s' tr'
  end.

(** ** The invariant *)

(** A process inside [confirm_request] that has not decided yet. *)
Definition undecided (ph : phase) : bool :=
  match ph with Done _ => false | _ => true end.

Record inv (s : state) : Prop := {
  inv_pids : ∀ pid ph, threads s !! pid = Some ph → 0 < pid;
  inv_owner : ∀ pid ph, threads s !! pid = Some ph → undecided ph = true →
    confirm_pending_pid s = pid;
  inv_pending : confirm_pending_pid s ≠ 0 →
    ∃ ph, threads s !! confirm_pending_pid s = Some ph ∧ undecided ph = true;
  inv_idle : confirm_pending_pid s = 0 → confirm_result s = -1;
  inv_result : confirm_result s = -1 ∨ confirm_result s = 0 ∨ confirm_result s = 1;
  inv_asleep : ∀ pid t0,
    threads s !! pid = Some (Sleeping t0) ∨ threads s !! pid = Some (ToSleep t0) →
    confirm_result s = -1;
}.

Lemma inv_init t : inv (confirminit t).
Proof.
  split; simpl; try (intros *; rewrite !lookup_empty); naive_solver.
Qed.

Lemma lock_free_spec s pid t0 :
  lock_free s = true → threads s !! pid = Some (ToSleep t0) → False.
Proof.
  unfold lock_free. intros Hf Hl. rewrite List.forallb_forall in Hf.
  assert (Hin : In (pid, ToSleep t0) (map_to_list (threads s))).
  { apply list_elem_of_In, elem_of_map_to_list. done. }
  specialize (Hf _ Hin). done.
Qed.

(** Changing the phase of the owner of the slot within the undecided ones. *)
Lemma inv_set_thread s pid ph ph' :
  inv s → threads s !! pid = Some ph → undecided ph = true → undecided ph' = true →
  (∀ t0, ph' = Sleeping t0 ∨ ph' = ToSleep t0 → confirm_result s = -1) →
  inv (set_thread pid ph' s).
Proof.
  intros [Hp Ho Hpe Hid Hr Ha] Hl Hu Hu' Hs.
  pose proof (Ho _ _ Hl Hu) as Hpid. pose proof (Hp _ _ Hl).
  split; cbn [set_thread threads confirm_pending_pid confirm_result]; try done.
  - intros p q. rewrite lookup_insert_Some. naive_solver.
  - intros p q. rewrite lookup_insert_Some. naive_solver.
  - intros _. exists ph'. by rewrite Hpid, lookup_insert_eq.
  - intros p t0. rewrite !lookup_insert_Some. naive_solver.
Qed.

(** Deciding: the slot is released with the phase [Done]. *)
Lemma inv_decide s pid ph rc t :
  inv s → threads s !! pid = Some ph → undecided ph = true →
  inv (mk_state 0 (-1) t (<[pid := Done rc]> (threads s)) (console s)).
Proof.
  intros [Hp Ho Hpe Hid Hr Ha] Hl Hu. pose proof (Ho _ _ Hl Hu) as Hpid.
  pose proof (Hp _ _ Hl).
  split; cbn [threads confirm_pending_pid confirm_result]; try done.
  - intros p q. rewrite lookup_insert_Some. naive_solver.
  - intros p q. rewrite lookup_insert_Some. intros [[<- <-]|[Hne Hq]] Hq'; [done|].
    by rewrite <- (Ho _ _ Hq Hq') in Hne.
  - by left.
Qed.

Lemma undecided_wake1 ph : undecided (wake1 ph) = undecided ph.
Proof. by destruct ph. Qed.

Lemma lookup_wakeup s pid : threads (wakeup s) !! pid = wake1 <$> threads s !! pid.
Proof. apply lookup_fmap. Qed.

Lemma inv_wakeup s r :
  inv s → (confirm_result s ≠ -1 → r = confirm_result s) →
  (confirm_pending_pid s = 0 → r = -1) → (r = -1 ∨ r = 0 ∨ r = 1) →
  lock_free s = true ∨ r = confirm_result s →
  ∀ t, inv (wakeup (mk_state (confirm_pending_pid s) r t (threads s) (console s))).
Proof.
  intros [Hp Ho Hpe Hid Hr Ha] H1 H2 H3 H4 t.
  split; try done; cbn [wakeup confirm_pending_pid confirm_result threads]; try done.
  - intros p q. rewrite lookup_fmap. intros (q' & Hq & ->)%fmap_Some. eauto.
  - intros p q. rewrite lookup_fmap. intros (q' & Hq & ->)%fmap_Some.
    rewrite undecided_wake1. eauto.
  - intros Hn. destruct (Hpe Hn) as (ph & Hph & Hu). exists (wake1 ph).
    rewrite lookup_fmap, Hph, undecided_wake1. done.
  - intros p t0. rewrite !lookup_fmap. intros [(q & Hq & Hw)%fmap_Some|(q & Hq & Hw)%fmap_Some].
    + by destruct q.
    + destruct q; try done. injection Hw as ->.
      destruct H4 as [Hf | ->]; [by destruct (lock_free_spec _ _ _ Hf Hq)|].
      eapply Ha. right. exact Hq.
Qed.

Lemma step_inv s l s' : inv s → step s l = Some s' → inv s'.
Proof.
  intros Hi Hs. pose proof Hi as [Hp Ho Hpe Hid Hr Ha].
  destruct l as [pid call sm|pid|pid|pid| |pid al|pid|pid]; simpl in Hs.
  - destruct (threads s !! pid) eqn:Hl; [done|].
    destruct (_ && _) eqn:Hg in Hs; [|done]. bool_hyps. injection Hs as <-.
    unfold confirm_post. destruct (Z.eqb_spec (confirm_pending_pid s) 0) as [Hz|Hz]; cbn [negb].
    + split; cbn [threads confirm_pending_pid confirm_result]; try done.
      * intros p q. rewrite lookup_insert_Some. naive_solver.
      * intros p q. rewrite lookup_insert_Some. intros [[<- <-]|[Hne Hq]] Hq'; [done|].
        pose proof (Hp _ _ Hq). rewrite (Ho _ _ Hq Hq') in Hz. lia.
      * intros _. exists Posted. by rewrite lookup_insert_eq.
      * by left.
    + split; cbn [set_thread threads confirm_pending_pid confirm_result]; try done.
      * intros p q. rewrite lookup_insert_Some. naive_solver.
      * intros p q. rewrite lookup_insert_Some. naive_solver.
      * intros _. destruct (Hpe Hz) as (ph & Hph & Hu). exists ph.
        rewrite lookup_insert_ne; [done|]. intros ->. congruence.
      * intros p t0. rewrite !lookup_insert_Some. naive_solver.
  - destruct (threads s !! pid) as [[]|] eqn:Hl; try done. injection Hs as <-.
    eapply inv_set_thread; try done; naive_solver.
  - destruct (threads s !! pid) as [[]|] eqn:Hl; try done.
    destruct (lock_free s) eqn:Hf; [|done]. injection Hs as <-. unfold confirm_test.
    destruct (Z.eqb_spec (confirm_result s) (-1)); cbn [negb]; [|by eapply inv_decide].
    destruct (_ <=? _); [by eapply inv_decide|].
    eapply inv_set_thread; try done; naive_solver.
  - destruct (threads s !! pid) as [[]|] eqn:Hl; try done. injection Hs as <-.
    eapply inv_set_thread; try done. intros. eapply Ha. right. exact Hl.
  - injection Hs as <-. unfold clock_tick, confirm_tick. cbn [confirm_pending_pid].
    destruct (negb _); [by apply inv_wakeup; auto|]. split; done.
  - destruct (_ && _) eqn:Hg in Hs; [|done]. bool_hyps. injection Hs as <-. unfold confirm_resolve.
    destruct (_ && _) eqn:Hm.
    + bool_hyps. apply inv_wakeup; try done; try (by destruct (negb _); auto); lia.
    + apply (inv_wakeup s (confirm_result s)); auto.
  - destruct (threads s !! pid) as [[]|] eqn:Hl; try done. injection Hs as <-.
    eapply inv_set_thread; try done; naive_solver.
  - destruct (threads s !! pid) as [[| | | |rc]|] eqn:Hl; try done. injection Hs as <-.
    split; cbn [threads confirm_pending_pid confirm_result]; try done.
    + intros p q. rewrite lookup_delete_Some. naive_solver.
    + intros p q. rewrite lookup_delete_Some. naive_solver.
    + intros Hn. destruct (Hpe Hn) as (ph & Hph & Hu). exists ph.
      rewrite lookup_delete_ne; [done|]. intros ->. rewrite Hph in Hl. by injection Hl as ->.
    + intros p t0. rewrite !lookup_delete_Some. naive_solver.
Qed.

Lemma steps_inv t tr s : steps (confirminit t) tr s → inv s.
Proof.
  intros H. remember (confirminit t) as s0. induction H; subst; [apply inv_init|].
  eapply step_inv; eauto.
Qed.

(** ** Answers *)

Definition is_enter (pid : Z) (l : label) : bool :=
  match l with Enter p _ _ => p =? pid | _ => false end.

(** The first answer for [pid] in a trace. *)
Fixpoint first_answer (pid : Z) (tr : list label) : option Z :=
  match tr with
  | [] => None
  | Resolve p al :: tr' => if p =? pid then Some al else first_answer pid tr'
  | _ :: tr' => first_answer pid tr'
  end.

(** What the host has said about the current request of [pid] after a trace. *)
Definition asked (pid : Z) (tr : list label) (a : option Z) : Prop :=
  ∃ tr1 call sm tr2, tr = tr1 ++ Enter pid call sm :: tr2 ∧
    Forall (λ l, is_enter pid l = false) tr2 ∧ first_answer pid tr2 = a.

Lemma first_answer_snoc pid tr l :
  first_answer pid (tr ++ [l]) =
  match first_answer pid tr with Some a => Some a | None => first_answer pid [l] end.
Proof. induction tr as [|l' tr IH]; [by destruct l|]. destruct l'; simpl; auto. by bcase. Qed.

Lemma asked_snoc pid tr a l :
  asked pid tr a → is_enter pid l = false →
  asked pid (tr ++ [l]) (match a with Some _ => a | None => first_answer pid [l] end).
Proof.
  intros (tr1 & call & sm & tr2 & -> & Hf & <-) Hl.
  exists tr1, call, sm, (tr2 ++ [l]). split_and!.
  - by rewrite <- app_assoc.
  - apply Forall_app. auto.
  - rewrite first_answer_snoc. by destruct (first_answer pid tr2).
Qed.

Lemma asked_enter pid call sm tr : asked pid (tr ++ [Enter pid call sm]) None.
Proof. by exists tr, call, sm, []. Qed.

(** What the state knows about the answer to the request of [pid]. *)
Definition knows (tr : list label) (s : state) (pid : Z) (ph : phase) : Prop :=
  match ph with
  | Done rc => rc = 0 ∨ (rc = 1 ∧ ∃ al, asked pid tr (Some al) ∧ al ≠ 0)
  | _ => (confirm_result s = -1 ∧ asked pid tr None) ∨
         ∃ al, asked pid tr (Some al) ∧ confirm_result s = (if negb (al =? 0) then 1 else 0)
  end.

(** A step that is not about [pid] and keeps the result. *)
Lemma knows_frame tr s s' pid ph l :
  knows tr s pid ph → is_enter pid l = false → first_answer pid [l] = None →
  confirm_result s' = confirm_result s ∨ undecided ph = false → knows (tr ++ [l]) s' pid ph.
Proof.
  intros Hk Hl Hn Hr.
  assert (Has : ∀ a, asked pid tr a → asked pid (tr ++ [l]) a).
  { intros a Ha. pose proof (asked_snoc _ _ _ _ Ha Hl) as H. rewrite Hn in H. by destruct a. }
  destruct ph; simpl in *; destruct Hr as [Hr|Hr]; try done; try rewrite Hr; naive_solver.
Qed.

Lemma knows_undecided tr s pid ph ph' :
  undecided ph = true → undecided ph' = true → knows tr s pid ph → knows tr s pid ph'.
Proof. by destruct ph, ph'. Qed.

Lemma knows_wake1 tr s pid ph : knows tr s pid ph → knows tr s pid (wake1 ph).
Proof. by destruct ph. Qed.

Lemma knows_result tr s s' pid ph :
  confirm_result s' = confirm_result s → knows tr s pid ph → knows tr s' pid ph.
Proof. intros H. destruct ph; simpl; by rewrite ?H. Qed.

Lemma knows_done tr s s' pid ph l :
  knows tr s pid ph → undecided ph = false → is_enter pid l = false → knows (tr ++ [l]) s' pid ph.
Proof.
  destruct ph as [| | | |rc]; try done. simpl. intros [->|(-> & al & Ha & Hal)] _ Hl; [by left|].
  right. split; [done|]. exists al. split; [|done]. by apply (asked_snoc _ _ _ _ Ha).
Qed.

(** The process whose request is in the slot is the only undecided one. *)
Lemma other_decided s p q ph ph' :
  inv s → threads s !! p = Some ph → undecided ph = true →
  threads s !! q = Some ph' → p ≠ q → undecided ph' = false.
Proof.
  intros Hi Hp Hu Hq Hne. destruct (undecided ph') eqn:Hu'; [|done].
  pose proof (inv_owner _ Hi _ _ Hp Hu). pose proof (inv_owner _ Hi _ _ Hq Hu'). congruence.
Qed.

Lemma knows_enter tr s p call sm pid ph :
  inv s → (∀ q ph, threads s !! q = Some ph → knows tr s q ph) → threads s !! p = None →
  threads (confirm_post p call sm s) !! pid = Some ph →
  knows (tr ++ [Enter p call sm]) (confirm_post p call sm s) pid ph.
Proof.
  intros Hi Hk Hp. unfold confirm_post.
  destruct (Z.eqb_spec (confirm_pending_pid s) 0) as [Hz|Hz]; cbn [negb set_thread threads].
  - intros [[<- <-]|[Hne Hq]]%lookup_insert_Some.
    + left. split; [done|]. apply asked_enter.
    + eapply knows_done; [by apply Hk| |simpl; by apply Z.eqb_neq].
      destruct (undecided ph) eqn:Hu; [|done].
      pose proof (inv_owner _ Hi _ _ Hq Hu). pose proof (inv_pids _ Hi _ _ Hq). lia.
  - intros [[<- <-]|[Hne Hq]]%lookup_insert_Some; [by left|].
    eapply knows_frame; [by apply Hk|simpl; by apply Z.eqb_neq|done|by left].
Qed.

(** Steps that move one process between undecided phases. *)
Lemma knows_move tr s p ph0 ph1 l pid ph :
  (∀ q ph, threads s !! q = Some ph → knows tr s q ph) → threads s !! p = Some ph0 →
  undecided ph0 = true → undecided ph1 = true → is_enter pid l = false → first_answer pid [l] = None →
  threads (set_thread p ph1 s) !! pid = Some ph → knows (tr ++ [l]) (set_thread p ph1 s) pid ph.
Proof.
  cbn [set_thread threads]. intros Hk Hp Hu0 Hu1 Hl Hn [[<- <-]|[Hne Hq]]%lookup_insert_Some.
  - eapply knows_frame; [|done..|by left]. eapply knows_undecided; [..|by apply Hk]; done.
  - eapply knows_frame; [by apply Hk|done..|by left].
Qed.

Lemma knows_test tr s p t0 pid ph :
  inv s → (∀ q ph, threads s !! q = Some ph → knows tr s q ph) → threads s !! p = Some (Looping t0) →
  threads (confirm_test p t0 s) !! pid = Some ph → knows (tr ++ [Test p]) (confirm_test p t0 s) pid ph.
Proof.
  intros Hi Hk Hp.
  assert (Hdone : ∀ rc, (rc = 0 ∨ (rc = 1 ∧ confirm_result s = 1)) →
    <[p:=Done rc]> (threads s) !! pid = Some ph →
    knows (tr ++ [Test p]) (mk_state 0 (-1) (ticks s) (<[p:=Done rc]> (threads s)) (console s)) pid ph).
  { intros rc Hrc [[<- <-]|[Hne Hq]]%lookup_insert_Some.
    - pose proof (Hk _ _ Hp) as Hkp. eapply (knows_done tr s); [|done..].
      destruct Hrc as [->|[-> Hr]]; [by left|right; split; [done|]].
      destruct Hkp as [[Hr' _]|(al & Ha & Hr')]; [lia|]. exists al. split; [done|].
      destruct (Z.eqb_spec al 0); cbn [negb] in Hr'; lia.
    - eapply knows_done; [by apply Hk| |done]. by eapply (other_decided s p pid (Looping t0)). }
  unfold confirm_test. destruct (Z.eqb_spec (confirm_result s) (-1)) as [He|He]; cbn [negb].
  - destruct (_ <=? _); [apply Hdone; by left|]. by eapply knows_move.
  - apply Hdone. destruct (Z.eqb_spec (confirm_result s) 1); auto.
Qed.

Lemma knows_resolve tr s p al pid ph :
  inv s → (∀ q ph, threads s !! q = Some ph → knows tr s q ph) → 0 < p →
  threads (confirm_resolve p al s) !! pid = Some ph →
  knows (tr ++ [Resolve p al]) (confirm_resolve p al s) pid ph.
Proof.
  intros Hi Hk Hpos.
  assert (Hth : threads (confirm_resolve p al s) = wake1 <$> threads s).
  { unfold confirm_resolve. by destruct (_ && _). }
  rewrite Hth, lookup_fmap. intros (q & Hq & ->)%fmap_Some. apply knows_wake1.
  pose proof (Hk _ _ Hq) as Hkq.
  destruct (undecided q) eqn:Hu; [|by eapply knows_done].
  pose proof (inv_owner _ Hi _ _ Hq Hu) as Hown.
  unfold confirm_resolve. rewrite Hown. destruct (Z.eqb_spec pid p) as [->|Hne]; cbn [andb].
  - assert (Hkq' : (confirm_result s = -1 ∧ asked p tr None) ∨
       ∃ al, asked p tr (Some al) ∧ confirm_result s = (if negb (al =? 0) then 1 else 0))
      by by destruct q.
    destruct Hkq' as [[Hr Ha]|(al' & Ha & Hr)].
    + rewrite Hr, Z.eqb_refl. apply (asked_snoc _ _ _ (Resolve p al)) in Ha; [|done].
      simpl in Ha. rewrite Z.eqb_refl in Ha. destruct q; try done; right; by exists al.
    + assert (Hr' : (confirm_result s =? -1) = false)
        by (apply Z.eqb_neq; destruct (negb _) in Hr; lia).
      rewrite Hr'. apply (asked_snoc _ _ _ (Resolve p al)) in Ha; [|done].
      destruct q; try done; right; by exists al'.
  - eapply knows_frame; [done|done| |by left]. simpl. by destruct (Z.eqb_spec p pid); [congruence|].
Qed.

Lemma steps_knows t tr s pid ph :
  steps (confirminit t) tr s → threads s !! pid = Some ph → knows tr s pid ph.
Proof.
  intros H. revert pid ph. remember (confirminit t) as s0 eqn:Hs0.
  induction H as [|s0 tr s1 l s2 H1 IH Hst]; subst.
  { intros pid ph. simpl. by rewrite lookup_empty. }
  specialize (IH eq_refl). pose proof (steps_inv _ _ _ H1) as Hi. intros pid ph.
  destruct l as [p call sm|p|p|p| |p al|p|p]; simpl in Hst.
  - destruct (threads s1 !! p) eqn:Hl; [done|]. destruct (_ && _) in Hst; [|done].
    injection Hst as <-. by apply knows_enter.
  - destruct (threads s1 !! p) as [[]|] eqn:Hl; try done. injection Hst as <-. by eapply knows_move.
  - destruct (threads s1 !! p) as [[]|] eqn:Hl; try done. destruct (lock_free s1); [|done].
    injection Hst as <-. by eapply knows_test.
  - destruct (threads s1 !! p) as [[]|] eqn:Hl; try done. injection Hst as <-. by eapply knows_move.
  - injection Hst as <-. unfold clock_tick, confirm_tick. destruct (negb _); cbn [wakeup threads].
    + rewrite lookup_fmap. intros (q & Hq & ->)%fmap_Some. apply knows_wake1.
      eapply knows_frame; [by apply IH|done|done|by left].
    + intros Hq. eapply knows_frame; [by apply IH|done|done|by left].
  - destruct (_ && _) eqn:Hg in Hst; [|done]. bool_hyps. injection Hst as <-. by apply knows_resolve.
  - destruct (threads s1 !! p) as [[]|] eqn:Hl; try done. injection Hst as <-. by eapply knows_move.
  - destruct (threads s1 !! p) as [[]|] eqn:Hl; try done. injection Hst as <-. simpl.
    intros [Hne Hq]%lookup_delete_Some. eapply knows_frame; [by apply IH|done|done|by left].
Qed.

(** C4: No allow without consent: when a request of [pid] is granted, the host
    answered it, and the first answer given for [pid] after the process entered
    this very request was yes. *)
Theorem confirm_allow_needs_answer t tr s pid :
  steps (confirminit t) tr s → threads s !! pid = Some (Done 1) →
  ∃ tr1 call sm tr2 al, tr = tr1 ++ Enter pid call sm :: tr2 ∧
    Forall (λ l, is_enter pid l = false) tr2 ∧ first_answer pid tr2 = Some al ∧ al ≠ 0.
Proof.
  intros Hs Hd. destruct (steps_knows _ _ _ _ _ Hs Hd) as [?|(_ & al & Ha & Hal)]; [done|].
  destruct Ha as (tr1 & call & sm & tr2 & -> & Hf & Hfirst).
  by exists tr1, call, sm, tr2, al.
Qed.

(** The single slot: at most one request is undecided, it is the one the slot
    names, a request that finds the slot taken is denied on the spot, and a
    process whose request has been answered is never left asleep. *)
Theorem confirm_single_slot t tr s :
  steps (confirminit t) tr s →
  (∀ p q php phq, threads s !! p = Some php → threads s !! q = Some phq →
     undecided php = true → undecided phq = true → p = q) ∧
  (confirm_pending_pid s = 0 ↔ ∀ p php, threads s !! p = Some php → undecided php = false) ∧
  (∀ p call sm, confirm_pending_pid s ≠ 0 →
     confirm_post p call sm s = set_thread p (Done 0) s) ∧
  (confirm_result s ≠ -1 → ∀ p t0, threads s !! p ≠ Some (Sleeping t0)).
Proof.
  intros Hs. pose proof (steps_inv _ _ _ Hs) as Hi. split_and!.
  - intros p q php phq Hp Hq Hup Huq.
    pose proof (inv_owner _ Hi _ _ Hp Hup). pose proof (inv_owner _ Hi _ _ Hq Huq). congruence.
  - split.
    + intros Hz p php Hp. destruct (undecided php) eqn:Hu; [|done].
      pose proof (inv_owner _ Hi _ _ Hp Hu). pose proof (inv_pids _ Hi _ _ Hp). lia.
    + intros Hall. destruct (decide (confirm_pending_pid s = 0)) as [|Hz]; [done|].
      destruct (inv_pending _ Hi Hz) as (ph & Hph & Hu). by rewrite (Hall _ _ Hph) in Hu.
  - intros p call sm Hz. unfold confirm_post. by rewrite (proj2 (Z.eqb_neq _ _) Hz).
  - intros Hr p t0 Hp. apply Hr. eapply (inv_asleep _ Hi). left. exact Hp.
Qed.

(** ** Timeout *)

Lemma run_app s tr1 tr2 : run s (tr1 ++ tr2) = run s tr1 ≫= λ s', run s' tr2.
Proof. revert s. induction tr1 as [|l tr IH]; intros s; simpl; [done|]. destruct (step s l); [apply IH|done]. Qed.

Lemma run_inv s tr s' : inv s → run s tr = Some s' → inv s'.
Proof.
  revert s. induction tr as [|l tr IH]; intros s Hi; simpl; [by intros [= <-]|].
  destruct (step s l) eqn:Hs; [|done]. simpl. apply IH. by eapply step_inv.
Qed.

Lemma run_steps t tr s : run (confirminit t) tr = Some s → steps (confirminit t) tr s.
Proof.
  enough (∀ tr0 s0, steps (confirminit t) tr0 s0 → run s0 tr = Some s →
    steps (confirminit t) (tr0 ++ tr) s) as H.
  { intros Hr. by apply (H [] _ (steps_nil _)). }
  induction tr as [|l tr IH]; intros tr0 s0 H0; simpl.
  { intros [= <-]. by rewrite app_nil_r. }
  destruct (step s0 l) as [s1|] eqn:Hs; [|done]. simpl. intros Hr.
  rewrite (app_assoc tr0 [l] tr : tr0 ++ l :: tr = _). eapply IH; [|done]. by eapply steps_snoc.
Qed.

Lemma lock_free_owner s pid ph :
  inv s → threads s !! pid = Some ph → undecided ph = true → holds_lock ph = false → lock_free s = true.
Proof.
  intros Hi Hp Hu Hh. unfold lock_free. apply List.forallb_forall. intros [q phq] Hin.
  apply list_elem_of_In, elem_of_map_to_list in Hin. simpl.
  destruct (decide (pid = q)) as [->|Hne]; [by replace phq with ph by congruence; rewrite Hh|].
  pose proof (other_decided _ _ _ _ _ Hi Hp Hu Hin Hne). by destruct phq.
Qed.

Lemma u32_succ t t0 : u32 (t - t0) < 2 ^ 32 - 1 → u32 (u32 (t + 1) - t0) = u32 (t - t0) + 1.
Proof.
  intros H. unfold u32 in *. rewrite Zminus_mod_idemp_l.
  replace (t + 1 - t0) with (t - t0 + 1) by lia.
  rewrite <- Zplus_mod_idemp_l. apply Z.mod_small.
  pose proof (Z.mod_pos_bound (t - t0) (2 ^ 32) ltac:(lia)). lia.
Qed.

Definition quiet_round (pid : Z) : list label := [Tick; Test pid; Sleep pid].

(** A tick and the test after it, for a process asleep without an answer. *)
Lemma tick_test s pid t0 :
  inv s → threads s !! pid = Some (Sleeping t0) → u32 (ticks s - t0) < CONFIRM_TIMEOUT_TICKS →
  ∃ s1, run s [Tick; Test pid] = Some s1 ∧ u32 (ticks s1 - t0) = u32 (ticks s - t0) + 1 ∧
    (if u32 (ticks s - t0) + 1 <? CONFIRM_TIMEOUT_TICKS
     then threads s1 !! pid = Some (ToSleep t0)
     else threads s1 !! pid = Some (Done 0) ∧ confirm_pending_pid s1 = 0).
Proof.
  intros Hi Hp He. unfold CONFIRM_TIMEOUT_TICKS in *.
  pose proof (inv_owner _ Hi _ _ Hp eq_refl) as Hown. pose proof (inv_pids _ Hi _ _ Hp) as Hpos.
  set (s1 := clock_tick s).
  assert (Hs1 : threads s1 !! pid = Some (Looping t0) ∧ confirm_result s1 = -1 ∧
      ticks s1 = u32 (ticks s + 1) ∧ inv s1).
  { split_and!; [..|by eapply (step_inv s Tick)]; unfold s1, clock_tick, confirm_tick;
      cbn [confirm_pending_pid]; rewrite (proj2 (Z.eqb_neq _ 0)) by lia;
      cbn [negb wakeup threads confirm_result ticks]; try done.
    - rewrite lookup_fmap. by rewrite Hp.
    - eapply (inv_asleep _ Hi). left. exact Hp. }
  destruct Hs1 as (Hp1 & Hr1 & Ht1 & Hi1).
  exists (confirm_test pid t0 s1). split; [|split].
  - change (run s [Tick; Test pid]) with (step s1 (Test pid) ≫= λ s', Some s').
    cbn [step]. rewrite Hp1. rewrite (lock_free_owner s1 pid _ Hi1 Hp1) by done. done.
  - assert (Ht : ticks (confirm_test pid t0 s1) = ticks s1).
    { unfold confirm_test. destruct (negb _); [done|]. by destruct (_ <=? _). }
    rewrite Ht, Ht1. apply u32_succ. lia.
  - unfold confirm_test. rewrite Hr1. cbn [negb Z.eqb]. rewrite Ht1, u32_succ by lia.
    unfold CONFIRM_TIMEOUT_TICKS. destruct (Z.ltb_spec (u32 (ticks s - t0) + 1) 150) as [Hl|Hl];
      destruct (Z.leb_spec 150 (u32 (ticks s - t0) + 1)) as [Hg|Hg]; try lia;
      cbn [negb Z.eqb Pos.eqb set_thread threads confirm_pending_pid]; by rewrite lookup_insert_eq.
Qed.

(** Termination: a request that gets no answer is denied at the latest 150 ticks
    after it began: from a sleeping request with [e] ticks gone, after [150 - e]
    more ticks, each followed by the process taking its turn, [confirm_request]
    returns 0 and the slot is free again. *)
Theorem confirm_timeout s pid t0 n :
  inv s → threads s !! pid = Some (Sleeping t0) →
  u32 (ticks s - t0) + Z.of_nat (S n) = CONFIRM_TIMEOUT_TICKS →
  ∃ s', run s (concat (replicate n (quiet_round pid)) ++ [Tick; Test pid]) = Some s' ∧
    threads s' !! pid = Some (Done 0) ∧ confirm_pending_pid s' = 0.
Proof.
  revert s. induction n as [|n IH]; intros s Hi Hp He.
  - destruct (tick_test s pid t0 Hi Hp ltac:(lia)) as (s1 & Hrun & _ & Hcase).
    destruct (Z.ltb_spec (u32 (ticks s - t0) + 1) CONFIRM_TIMEOUT_TICKS); [lia|].
    by exists s1.
  - destruct (tick_test s pid t0 Hi Hp ltac:(lia)) as (s1 & Hrun & Ht & Hcase).
    destruct (Z.ltb_spec (u32 (ticks s - t0) + 1) CONFIRM_TIMEOUT_TICKS); [|lia].
    pose proof (run_inv _ _ _ Hi Hrun) as Hi1.
    assert (Hsl : run s (quiet_round pid) = Some (set_thread pid (Sleeping t0) s1)).
    { change (quiet_round pid) with ([Tick; Test pid] ++ [Sleep pid]).
      rewrite run_app, Hrun. simpl. by rewrite Hcase. }
    destruct (IH (set_thread pid (Sleeping t0) s1)) as (s' & Hs' & Hfin).
    + eapply (run_inv s); [done|exact Hsl].
    + apply lookup_insert_eq.
    + cbn [set_thread ticks]. lia.
    + exists s'. split; [|done]. cbn [replicate concat].
      rewrite <- app_assoc, run_app, Hsl. exact Hs'.
Qed.

(** An answer is matched by process id only: a yes that arrives after its
    request timed out grants the next request of the same process, whatever
    system call that one is about. *)
Theorem confirm_late_answer :
  let tr := [Enter 3 7 (bytes "exec"); Begin 3; Test 3; Sleep 3] ++
            concat (replicate 149 (quiet_round 3)) ++ [Tick; Test 3; Return 3] ++
            [Enter 3 6 (bytes "kill"); Begin 3; Resolve 3 1; Test 3] in
  (λ s, threads s !! 3) <$> run (confirminit 0) tr = Some (Some (Done 1)).
Proof. vm_compute. reflexivity. Qed.

(** ** Witnesses *)

Definition tr_yes : list label :=
  [Enter 3 7 (bytes "exec"); Begin 3; Test 3; Sleep 3; Tick; Resolve 3 1; Test 3].

Lemma confirm_allow_needs_answer_witness :
  ∃ s, run (confirminit 0) tr_yes = Some s ∧ threads s !! 3 = Some (Done 1) ∧
  ∃ tr1 call sm tr2 al, tr_yes = tr1 ++ Enter 3 call sm :: tr2 ∧
    Forall (λ l, is_enter 3 l = false) tr2 ∧ first_answer 3 tr2 = Some al ∧ al ≠ 0.
Proof.
  destruct (run (confirminit 0) tr_yes) as [s|] eqn:Hr; [|vm_compute in Hr; discriminate].
  assert (Hd : (λ s, threads s !! 3) <$> run (confirminit 0) tr_yes = Some (Some (Done 1)))
    by (vm_compute; reflexivity).
  rewrite Hr in Hd. simpl in Hd. injection Hd as Hd.
  exists s. split; [reflexivity|]. split; [exact Hd|].
  apply (confirm_allow_needs_answer 0 tr_yes s 3); [apply run_steps, Hr|exact Hd].
Defined.

Lemma confirm_single_slot_witness :
  ∃ s, run (confirminit 0) [Enter 3 7 (bytes "exec"); Begin 3] = Some s ∧
    confirm_post 4 6 [] s = set_thread 4 (Done 0) s.
Proof.
  destruct (run (confirminit 0) [Enter 3 7 (bytes "exec"); Begin 3]) as [s|] eqn:Hr;
    [|vm_compute in Hr; discriminate].
  exists s. split; [reflexivity|].
  destruct (confirm_single_slot 0 _ s (run_steps _ _ _ Hr)) as (_ & _ & Hbusy & _).
  apply Hbusy. assert (Hp : confirm_pending_pid <$> run (confirminit 0)
      [Enter 3 7 (bytes "exec"); Begin 3] = Some 3) by (vm_compute; reflexivity).
  rewrite Hr in Hp. injection Hp as Hp. rewrite Hp. discriminate.
Defined.

Lemma confirm_timeout_witness :
  ∃ s s', run (confirminit 5) [Enter 3 7 (bytes "exec"); Begin 3; Test 3; Sleep 3] = Some s ∧
    run s (concat (replicate 149 (quiet_round 3)) ++ [Tick; Test 3]) = Some s' ∧
    threads s' !! 3 = Some (Done 0) ∧ confirm_pending_pid s' = 0.
Proof.
  destruct (run (confirminit 5) [Enter 3 7 (bytes "exec"); Begin 3; Test 3; Sleep 3]) as [s|] eqn:Hr;
    [|vm_compute in Hr; discriminate].
  assert (Hp : (λ s, (threads s !! 3, ticks s)) <$>
      run (confirminit 5) [Enter 3 7 (bytes "exec"); Begin 3; Test 3; Sleep 3]
    = Some (Some (Sleeping 5), 5)) by (vm_compute; reflexivity).
  rewrite Hr in Hp. simpl in Hp. injection Hp as Hp Ht. exists s.
  destruct (confirm_timeout s 3 5 149) as (s' & H); [|exact Hp|rewrite Ht; reflexivity|].
  - exact (run_inv _ _ _ (inv_init 5) Hr).
  - exists s'. split; [reflexivity|exact H].
Defined.
