(* ===== verification/AgentCmd.v ===== *)
(** * kernel/agentcmd.c: the kernel side of the agent command path

    The state has one record per group of static variables: the intake ring
    ([agent_q], lines from the serial port), the wire ring ([agentq], lines for
    the jailed agentd), the deny list and the pending LLM prompt, next to the
    response cache, the confirm state and the console output.  The cache is the
    interface [LLMCache]; [Cache] implements it.

    Every critical section runs whole; locals of the C functions that are
    filled before they are read start as zeroes. *)

From S2P Require Import Prelude CString Ring Printf Cache Confirm.

Local Open Scope Z_scope.

Definition AGENT_LINE_MAX : Z := 1280.
Definition AGENT_Q_LEN : Z := 8.
Definition AGENTQ_N : Z := 16.
Definition AGENTQ_LEN : Z := 256.
Definition DENY_MAX : Z := 16.
Definition DENY_NAMELEN : Z := 24.
#[global] Arguments AGENT_LINE_MAX : simpl never.
#[global] Arguments AGENT_Q_LEN : simpl never.
#[global] Arguments AGENTQ_N : simpl never.
#[global] Arguments AGENTQ_LEN : simpl never.
#[global] Arguments DENY_MAX : simpl never.
#[global] Arguments DENY_NAMELEN : simpl never.

(** ** Data *)

(** [agent_q], [agent_q_head], [agent_q_tail]. *)
Record intake := mk_intake { aq_lines : list (list Z); aq_head : Z; aq_tail : Z }.

(** [struct agentq]. *)
Record wireq := mk_wireq { wq_buf : list (list Z); wq_r : Z; wq_w : Z; wq_count : Z }.

(** [struct denylist]. *)
Record denylist := mk_denylist { dn_names : list (list Z); dn_count : Z }.

(** What agentcmd.c calls in cache.c; the argument before the state is [ticks]. *)
Class LLMCache (C : Type) := {
  c_set : list Z → Z → list Z → Z → Z → C → Z * C;
  c_get_exact : list Z → Z → list Z → Z → Z → C → Z * list Z * C;
  c_get_semantic : list Z → Z → list Z → Z → Z → C → Z * list Z * Z * C;
  c_get : list Z → Z → list Z → Z → Z → C → Z * list Z * C;
}.

#[export] Instance kernel_cache `{CacheFile F} : LLMCache (Cache.state F) := {
  c_set := cache_set;
  c_get_exact := cache_get_exact;
  c_get_semantic := cache_get_semantic;
  c_get := cache_get;
}.

Record state (C : Type) := mk_state {
  agent_q : intake;
  agentq : wireq;
  deny : denylist;
  pending_prompt : list Z;
  pending_len : Z;
  llm_cache : C;
  confirm : Confirm.state;
  out : list Z;
}.
Arguments mk_state {C}.
Arguments agent_q {C}.
Arguments agentq {C}.
Arguments deny {C}.
Arguments pending_prompt {C}.
Arguments pending_len {C}.
Arguments llm_cache {C}.
Arguments confirm {C}.
Arguments out {C}.

(** ** The deny list *)

Definition deny_default : list (list Z) := [bytes "KILL"; bytes "EXEC"].

(** [safestrcpy(names[i], src, DENY_NAMELEN)]. *)
Definition set_name (i : Z) (src : list Z) (names : list (list Z)) : list (list Z) :=
  alter (λ old, safestrcpy old src DENY_NAMELEN) (Z.to_nat i) names.

Definition deny_push (d : denylist) (cmd : list Z) : denylist :=
  mk_denylist (set_name (dn_count d) cmd (dn_names d)) (dn_count d + 1).

Definition deny_reset (d : denylist) : denylist :=
  fold_left deny_push deny_default (mk_denylist (dn_names d) 0).

Definition deny_clear (d : denylist) : denylist := mk_denylist (dn_names d) 0.

(** The scan [for(i = 0; i < denylist.count; i++) if(strncmp(...) == 0)]. *)
Definition deny_find (cmd : list Z) (d : denylist) : option nat :=
  find_index (λ n, strncmp n cmd (Z.to_nat DENY_NAMELEN) =? 0)
    (take (Z.to_nat (dn_count d)) (dn_names d)).

Definition deny_add (cmd : list Z) (d : denylist) : Z * denylist :=
  match deny_find cmd d with
  | Some _ => (0, d)
  | None => if DENY_MAX <=? dn_count d then (-1, d) else (0, deny_push d cmd)
  end.

(** [for(int j = i; j < denylist.count - 1; j++) safestrcpy(names[j], names[j + 1])]. *)
Definition deny_shift (i count : Z) (names : list (list Z)) : list (list Z) :=
  fold_left (λ ns j, set_name (Z.of_nat j) (nth (S j) ns []) ns)
    (seq (Z.to_nat i) (Z.to_nat (count - 1 - i))) names.

Definition deny_remove (cmd : list Z) (d : denylist) : Z * denylist :=
  match deny_find cmd d with
  | Some i => (0, mk_denylist (deny_shift (Z.of_nat i) (dn_count d) (dn_names d)) (dn_count d - 1))
  | None => (-1, d)
  end.

(** [while( *s && n < max - 2) buf[n++] = *s++;] *)
Fixpoint snap_name (s : list Z) (n max : Z) (buf : list Z) : Z * list Z :=
  match s with
  | [] => (n, buf)
  | c :: s' =>
      if negb (c =? 0) && (n <? max - 2)
      then snap_name s' (n + 1) max (<[Z.to_nat n := c]> buf)
      else (n, buf)
  end.

Definition snap_entry (max : Z) (nb : Z * list Z) (s : list Z) : Z * list Z :=
  let '(n, buf) := snap_name s nb.1 max nb.2 in
  if n <? max - 1 then (n + 1, <[Z.to_nat n := 10]> buf) else (n, buf).

Definition deny_snapshot (buf : list Z) (max : Z) (d : denylist) : Z * list Z :=
  let '(n, buf) := fold_left (snap_entry max)
                     (take (Z.to_nat (dn_count d)) (dn_names d)) (0, buf) in
  (n, if n <? max then <[Z.to_nat n := 0]> buf else buf).

Definition deny_listed (cmd : list Z) (d : denylist) : bool :=
  match deny_find cmd d with Some _ => true | None => false end.

(** ** Small utilities *)

Fixpoint str_eq (a b : list Z) : bool :=
  match a, b with
  | x :: a', y :: b' =>
      if negb (x =? 0) && negb (y =? 0)
      then if negb (x =? y) then false else str_eq a' b'
      else x =? y
  | _, _ => hd 0 a =? hd 0 b
  end.

Fixpoint str_starts (s prefix : list Z) : bool :=
  match prefix with
  | [] => true
  | c :: prefix' =>
      if c =? 0 then true
      else if negb (hd 0 s =? c) then false else str_starts (tl s) prefix'
  end.

(** ** The wire ring: kernel to agentd *)

(** [while(line[i] && i < AGENTQ_LEN - 1) buf[i] = line[i]; buf[i] = 0;] *)
Definition copy_line (dst line : list Z) : list Z :=
  blit dst 0 (take (Z.to_nat (AGENTQ_LEN - 1)) (cstring line) ++ [0]).

Definition queue_full_msg : list Z :=
  printf (bytes "[agent] queue full, dropping line
") [].

(** Returns the console output. *)
Definition forward_to_agentd (line : list Z) (q : wireq) : wireq * list Z :=
  if wq_count q =? AGENTQ_N then (q, queue_full_msg)
  else
    (mk_wireq (alter (λ slot, copy_line slot line) (Z.to_nat (wq_w q)) (wq_buf q))
       (wq_r q) ((wq_w q + 1) mod AGENTQ_N) (wq_count q + 1), []).

Definition forward_wire_to_agentd (wire : list Z) (q : wireq) : wireq * list Z :=
  forward_to_agentd (bytes "REQ|" ++ take (Z.to_nat (AGENTQ_LEN - 1 - 4)) (cstring wire) ++ [0]) q.

(** [agentq_get] with [out] of AGENTQ_LEN bytes: [None] when the caller goes to
    sleep on [agentq], otherwise the result, [out] and the queue. *)
Definition agentq_get (killed : bool) (out : list Z) (q : wireq) : option (Z * list Z * wireq) :=
  if wq_count q =? 0 then
    if killed then Some (-1, out, q) else None
  else
    let src := nth (Z.to_nat (wq_r q)) (wq_buf q) [] in
    let s := take (Z.to_nat (AGENTQ_LEN - 1)) (cstring src) in
    Some (Z.of_nat (length s), blit out 0 (s ++ [0]),
          mk_wireq (wq_buf q) ((wq_r q + 1) mod AGENTQ_N) (wq_w q) (wq_count q - 1)).

(** ** Handlers *)

Section handlers.
Context `{LLMCache C}.
Implicit Types s : state C.

Definition set_cache (c : C) s : state C :=
  mk_state (agent_q s) (agentq s) (deny s) (pending_prompt s) (pending_len s) c (confirm s) (out s).
Definition set_pending (p : list Z) (n : Z) s : state C :=
  mk_state (agent_q s) (agentq s) (deny s) p n (llm_cache s) (confirm s) (out s).
Definition set_confirm (cf : Confirm.state) s : state C :=
  mk_state (agent_q s) (agentq s) (deny s) (pending_prompt s) (pending_len s) (llm_cache s) cf (out s).
Definition set_intake (q : intake) s : state C :=
  mk_state q (agentq s) (deny s) (pending_prompt s) (pending_len s) (llm_cache s) (confirm s) (out s).
Definition set_deny (d : denylist) s : state C :=
  mk_state (agent_q s) (agentq s) d (pending_prompt s) (pending_len s) (llm_cache s) (confirm s) (out s).
Definition print (msg : list Z) s : state C :=
  mk_state (agent_q s) (agentq s) (deny s) (pending_prompt s) (pending_len s) (llm_cache s)
    (confirm s) (out s ++ msg).

(** [forward_wire_to_agentd] on the whole state. *)
Definition forward_wire (wire : list Z) s : state C :=
  let '(q, msg) := forward_wire_to_agentd wire (agentq s) in
  mk_state (agent_q s) q (deny s) (pending_prompt s) (pending_len s) (llm_cache s)
    (confirm s) (out s ++ msg).

Definition now s : Z := Confirm.ticks (confirm s).

(** [if(clen >= (int)sizeof(cached)) clen = sizeof(cached) - 1; cached[clen] = 0;] *)
Definition terminate (buf : list Z) (clen sizeof : Z) : list Z :=
  <[Z.to_nat (if sizeof <=? clen then sizeof - 1 else clen) := 0]> buf.

(** The miss path of [handle_ask]. *)
Definition ask_miss (arg : list Z) (plen : Z) s : state C :=
  let s := set_pending (safestrcpy (pending_prompt s) arg AGENT_LINE_MAX) plen s in
  print (printf (bytes "LLM_REQ|%s
") [VStr (Some arg)]) s.

Definition handle_ask (arg : list Z) s : state C :=
  let plen := Z.of_nat (strlen arg) in
  if plen =? 0 then s else
  let '(clen, cached, c) := c_get_exact arg plen (replicate 1025 0) 1024 (now s) (llm_cache s) in
  let s := set_cache c s in
  if 0 <=? clen then
    forward_wire (terminate cached clen 1025) (print (printf (bytes "[cache] HIT
") []) s)
  else
    let '(clen, cached, score, c) := c_get_semantic arg plen cached 1024 (now s) (llm_cache s) in
    let s := set_cache c s in
    let cached := if 0 <=? clen then terminate cached clen 1025 else cached in
    if (0 <=? clen) && (str_starts cached (bytes "CHAT|") || str_starts cached (bytes "PRINT|"))
    then
      forward_wire cached
        (print (printf (bytes "[cache] SEMANTIC HIT score=%d/64
") [VInt score]) s)
    else ask_miss arg plen s.

Definition handle_llm_resp (arg : list Z) s : state C :=
  let alen := Z.of_nat (strlen arg) in
  let klen := pending_len s in
  let fits := (0 <? klen) && (klen <? 256) in
  let key := if fits then safestrcpy (replicate 256 0) (pending_prompt s) 256 else replicate 256 0 in
  let klen := if fits then klen else 0 in
  let s := set_pending (pending_prompt s) 0 s in
  let s :=
    if 0 <? klen then
      let '(rc, c) := c_set key klen arg alen (now s) (llm_cache s) in
      let s := set_cache c s in
      if rc <? 0
      then print (printf (bytes "[cache] DROP (oversized %d B)
") [VInt alen]) s
      else s
    else s in
  forward_wire arg s.

Definition handle_cache_get (arg : list Z) s : state C :=
  let klen := Z.of_nat (strlen arg) in
  if klen =? 0 then print (printf (bytes "RESP|MISS
") []) s else
  let '(vlen, valbuf, c) := c_get arg klen (replicate 1024 0) 1024 (now s) (llm_cache s) in
  let s := set_cache c s in
  if vlen <? 0 then print (printf (bytes "RESP|MISS
") []) s
  else print (printf (bytes "RESP|HIT|%s
") [VStr (Some (terminate valbuf vlen 1024))]) s.

(** [while( *p >= '0' && *p <= '9'){ n = n*10 + ( *p - '0'); p++; }] *)
Fixpoint parse_num (p : list Z) (n : Z) : Z * list Z :=
  match p with
  | c :: p' =>
      if (48 <=? c) && (c <=? 57) then parse_num p' (s32 (n * 10 + (c - 48))) else (n, p)
  | [] => (n, p)
  end.

Definition handle_cache_set (arg : list Z) s : state C :=
  let '(klen, p) := parse_num arg 0 in
  if negb (hd 0 p =? 58) || (klen <=? 0) then print (printf (bytes "RESP|ERR
") []) s else
  let p := tl p in
  let rem := Z.of_nat (strlen p) in
  if rem <? klen then print (printf (bytes "RESP|ERR
") []) s else
  let '(rc, c) := c_set p klen (drop (Z.to_nat klen) p) (rem - klen) (now s) (llm_cache s) in
  print (printf (bytes "%s
") [VStr (Some (if rc =? 0 then bytes "RESP|OK" else bytes "RESP|ERR"))])
    (set_cache c s).

(** [*p == 'y' || *p == 'Y'] *)
Definition is_yes (p : list Z) : Z :=
  if (hd 0 p =? 121) || (hd 0 p =? 89) then 1 else 0.

Definition handle_confirm_res (arg : list Z) s : state C :=
  let '(pid, p) := parse_num arg 0 in
  if negb (hd 0 p =? 124) || (pid <=? 0) then s
  else set_confirm (confirm_resolve pid (is_yes (tl p)) (confirm s)) s.

Definition is_req (line : list Z) : bool :=
  (nth 0 line 0 =? 82) && (nth 1 line 0 =? 69) && (nth 2 line 0 =? 81) && (nth 3 line 0 =? 124).

(** [while( *bar && *bar != '|') bar++;]: the offset of [bar]. *)
Fixpoint find_bar (p : list Z) : nat :=
  match p with
  | [] => 0
  | c :: p' => if negb (c =? 0) && negb (c =? 124) then S (find_bar p') else 0
  end.

(** After "REQ|": what follows an optional "agent:<role>|" prefix, [None] for a
    malformed prefix. *)
Definition skip_role (cmd : list Z) : option (list Z) :=
  if str_starts cmd (bytes "agent:") then
    let bar := drop (6 + find_bar (drop 6 cmd)) cmd in
    if negb (hd 0 bar =? 124) then None else Some (tl bar)
  else Some cmd.

(** Returns the state and 1 when the line was consumed. *)
Definition try_inline_confirm_res (line : list Z) s : state C * Z :=
  if negb (is_req line) then (s, 0) else
  match skip_role (drop 4 line) with
  | None => (s, 0)
  | Some cmd =>
      if negb (str_starts cmd (bytes "CONFIRM_RES|")) then (s, 0) else
      let '(pid, p) := parse_num (drop 12 cmd) 0 in
      if negb (hd 0 p =? 124) || (pid <=? 0) then (s, 1)
      else (set_confirm (confirm_resolve pid (is_yes (tl p)) (confirm s)) s, 1)
  end.

Definition agent_enqueue (line : list Z) (q : intake) : intake :=
  let next := (aq_tail q + 1) mod AGENT_Q_LEN in
  if negb (next =? aq_head q)
  then mk_intake (alter (λ slot, safestrcpy slot line AGENT_LINE_MAX)
                    (Z.to_nat (aq_tail q)) (aq_lines q)) (aq_head q) next
  else q.

Definition agent_dispatch (line : list Z) s : state C :=
  let '(s, consumed) := try_inline_confirm_res line s in
  if negb (consumed =? 0) then s else set_intake (agent_enqueue line (agent_q s)) s.

Definition deny_msg (cmd : list Z) : list Z :=
  printf (bytes "[agent] DENY '%s' (sandboxed: never reaches the agent)
") [VStr (Some cmd)].

Definition agent_dispatch_now (line : list Z) s : state C :=
  if negb (is_req line) then s else
  match skip_role (drop 4 line) with
  | None => print (printf (bytes "[agent] malformed role prefix
") []) s
  | Some cmd_start =>
      let bar := find_bar cmd_start in
      let had_bar := nth bar cmd_start 0 =? 124 in
      let cmd := if had_bar then <[bar := 0]> cmd_start else cmd_start in
      let arg := if had_bar then drop (S bar) cmd_start else drop bar cmd_start in
      if str_eq cmd (bytes "ASK") then handle_ask arg s
      else if str_eq cmd (bytes "LLM_RESP") then handle_llm_resp arg s
      else if str_eq cmd (bytes "CACHE_GET") then handle_cache_get arg s
      else if str_eq cmd (bytes "CACHE_SET") then handle_cache_set arg s
      else if str_eq cmd (bytes "CONFIRM_RES") then handle_confirm_res arg s
      else if deny_listed cmd (deny s) then print (deny_msg cmd) s
      else forward_wire (if had_bar then <[bar := 124]> cmd else cmd) s
  end.

(** [fuel] bounds the lines in the ring. *)
Fixpoint agent_drain_locked (fuel : nat) s : state C :=
  match fuel with
  | O => s
  | S fuel' =>
      if aq_head (agent_q s) =? aq_tail (agent_q s) then s
      else
        let local := safestrcpy (replicate (Z.to_nat AGENT_LINE_MAX) 0)
                       (nth (Z.to_nat (aq_head (agent_q s))) (aq_lines (agent_q s)) [])
                       AGENT_LINE_MAX in
        let q := mk_intake (aq_lines (agent_q s))
                   ((aq_head (agent_q s) + 1) mod AGENT_Q_LEN) (aq_tail (agent_q s)) in
        agent_drain_locked fuel' (agent_dispatch_now local (set_intake q s))
  end.

Definition agent_drain s : state C :=
  if aq_head (agent_q s) =? aq_tail (agent_q s) then s
  else agent_drain_locked (Z.to_nat AGENT_Q_LEN) s.

(** Boot: zeroed static memory, then [agentcmd_init]. *)
Definition agentcmd_init (c : C) (cf : Confirm.state) : state C :=
  mk_state
    (mk_intake (replicate (Z.to_nat AGENT_Q_LEN) (replicate (Z.to_nat AGENT_LINE_MAX) 0)) 0 0)
    (mk_wireq (replicate (Z.to_nat AGENTQ_N) (replicate (Z.to_nat AGENTQ_LEN) 0)) 0 0 0)
    (deny_reset (mk_denylist (replicate (Z.to_nat DENY_MAX) (replicate (Z.to_nat DENY_NAMELEN) 0)) 0))
    (replicate (Z.to_nat AGENT_LINE_MAX) 0) 0 c cf [].
End handlers.

(** ** What agentcmd.c relies on in the cache *)

Class LLMCacheLaws (C : Type) `{LLMCache C} := {
  c_wf : C → Prop;
  c_set_wf key klen v n t c :
    c_wf c → n ≤ Z.of_nat (length v) → Forall is_u8 v → c_wf (c_set key klen v n t c).2;
  c_get_exact_wf key klen buf n t c : c_wf c → c_wf (c_get_exact key klen buf n t c).2;
  c_get_semantic_wf key klen buf n t c : c_wf c → c_wf (c_get_semantic key klen buf n t c).2;
  c_get_wf key klen buf n t c : c_wf c → c_wf (c_get key klen buf n t c).2;
  c_set_ok key klen v n t c :
    c_wf c → 0 < klen → 0 ≤ n ≤ 1024 → (c_set key klen v n t c).1 = 0;
  c_set_get key klen key' v n t c :
    c_wf c → 0 < klen → 0 ≤ n ≤ 1024 → n ≤ Z.of_nat (length v) → Forall is_u8 v →
    take (Z.to_nat klen) key' = take (Z.to_nat klen) key →
    ∀ buf m t', 0 < m →
      (c_get_exact key' klen buf m t' (c_set key klen v n t c).2).1 =
      (n, blit buf 0 (take (Z.to_nat (Z.min n m)) v));
  c_get_of_exact key klen buf m t c :
    0 ≤ (c_get_exact key klen buf m t c).1.1 →
    c_get key klen buf m t c = c_get_exact key klen buf m t c;
}.

#[export] Instance kernel_cache_laws `{CacheFileLaws F} : LLMCacheLaws (Cache.state F).
Proof.
  refine {| c_wf := Cache.wf |}; cbn [c_set c_get_exact c_get_semantic c_get kernel_cache].
  - intros. by apply cache_set_wf.
  - intros. by apply cache_get_exact_wf.
  - intros. by apply cache_get_semantic_wf.
  - intros. by apply cache_get_wf.
  - intros * Hwf Hk Hn. by rewrite cache_set_unfold.
  - intros. by apply set_get_exact.
  - intros * Hr. unfold cache_get.
    destruct (cache_get_exact key klen buf m t c) as [[r b] s]. simpl in Hr.
    by rewrite (proj2 (Z.leb_le _ _) Hr).
Defined.

(** ** String utilities *)

Lemma str_eq_spec a b : str_eq a b = bool_decide (cstring a = cstring b).
Proof.
  revert b. induction a as [|x a IH]; intros [|y b]; cbn [str_eq cstring hd]; [done|..].
  all: rewrite ?IH; repeat bcase; subst; cbn [negb andb]; repeat case_bool_decide; simplify_eq/=;
    try done; try lia; congruence.
Qed.

Lemma str_starts_spec s p : str_starts s p = true ↔ cstring p `prefix_of` cstring s.
Proof.
  revert s. induction p as [|c p IH]; intros s; simpl.
  { split; [intros _; apply prefix_nil|done]. }
  bcase; subst; [split; [intros _; apply prefix_nil|done]|].
  destruct (Z.eqb_spec (hd 0 s) c) as [Hc|Hc]; cbn [negb].
  - rewrite IH, (cstring_tl s) by congruence. rewrite Hc. split.
    + intros Hp. by apply prefix_cons.
    + intros Hp. by apply prefix_cons_inv_2 in Hp.
  - split; [done|]. intros [k Hk]. destruct (decide (hd 0 s = 0)) as [H0|H0].
    + by rewrite (cstring_hd0 s) in Hk.
    + rewrite (cstring_tl s) in Hk by done. simpl in Hk. congruence.
Qed.

(** ** The wire ring is a bounded FIFO *)

Record wq_wf (q : wireq) : Prop := {
  wq_slots : length (wq_buf q) = 16%nat;
  wq_lens : Forall (λ b, length b = 256%nat ∧ (length (cstring b) ≤ 255)%nat) (wq_buf q);
  wq_counts : 0 ≤ wq_count q ≤ AGENTQ_N;
  wq_read : 0 ≤ wq_r q < AGENTQ_N;
  wq_write : wq_w q = (wq_r q + wq_count q) mod AGENTQ_N;
}.

(** The commands waiting in the ring, oldest first. *)
Definition wq_list (q : wireq) : list (list Z) :=
  map cstring (ring_seq AGENTQ_N (wq_buf q) (wq_r q) (Z.to_nat (wq_count q))).

(** What a ring slot keeps of a line. *)
Definition cut_line (line : list Z) : list Z := take 255 (cstring line).

Lemma length_wq_list q : length (wq_list q) = Z.to_nat (wq_count q).
Proof. unfold wq_list. by rewrite length_map, length_ring_seq. Qed.

Lemma cut_line_nz line : Forall (λ c, c ≠ 0) (cut_line line).
Proof. apply Forall_take, cstring_nz. Qed.

Lemma copy_line_spec dst line :
  length dst = 256%nat → length (copy_line dst line) = 256%nat ∧ cstring (copy_line dst line) = cut_line line.
Proof.
  intros Hl. unfold copy_line. change (Z.to_nat (AGENTQ_LEN - 1)) with 255%nat. fold (cut_line line).
  assert (Hc : (length (cut_line line) ≤ 255)%nat) by (unfold cut_line; rewrite length_take; lia).
  split; [rewrite length_blit; [done|]; rewrite length_app; cbn [length]; lia|].
  rewrite blit_0, <- app_assoc. apply cstring_app_nul, cut_line_nz.
Qed.

Lemma forward_full line q :
  wq_count q = AGENTQ_N → forward_to_agentd line q = (q, queue_full_msg).
Proof. intros H. unfold forward_to_agentd. by rewrite H, Z.eqb_refl. Qed.

Lemma forward_room line q :
  wq_wf q → wq_count q < AGENTQ_N →
  wq_wf (forward_to_agentd line q).1 ∧ (forward_to_agentd line q).2 = [] ∧
  wq_list (forward_to_agentd line q).1 = wq_list q ++ [cut_line line].
Proof.
  intros [Hsl Hln Hc Hr Hw] Hlt. unfold AGENTQ_N in *. unfold forward_to_agentd, AGENTQ_N.
  rewrite (proj2 (Z.eqb_neq _ _)) by lia. cbn [fst snd].
  pose proof (Z.mod_pos_bound (wq_r q + wq_count q) 16 ltac:(lia)).
  destruct (lookup_lt_is_Some_2 (wq_buf q) (Z.to_nat (wq_w q)) ltac:(lia)) as [old Hold].
  pose proof (Forall_lookup_1 _ _ _ _ Hln Hold) as [Hlold _].
  destruct (copy_line_spec old line Hlold) as [Hl' Hs'].
  rewrite (alter_insert _ _ _ _ Hold). split_and!; [split|done|]; cbn [wq_buf wq_r wq_w wq_count].
  - by rewrite length_insert.
  - apply Forall_insert; [done|]. rewrite Hs'. unfold cut_line. rewrite length_take. split; [done|lia].
  - unfold AGENTQ_N. lia.
  - done.
  - unfold AGENTQ_N. rewrite Hw, Zplus_mod_idemp_l. f_equal. lia.
  - unfold wq_list, AGENTQ_N. cbn [wq_buf wq_r wq_w wq_count].
    replace (Z.to_nat (wq_count q + 1)) with (S (Z.to_nat (wq_count q))) by lia.
    pose proof (ring_seq_push 16 (wq_buf q) (wq_r q) (Z.to_nat (wq_count q)) (copy_line old line)
                  ltac:(lia) ltac:(lia)) as Hp.
    unfold ring_put in Hp. rewrite Z2Nat.id in Hp by lia. rewrite Hw, Hp, map_app. simpl. by rewrite Hs'.
Qed.

Lemma agentq_get_spec killed out0 q :
  wq_wf q → length out0 = 256%nat → 0 < wq_count q →
  ∃ s q' out', agentq_get killed out0 q = Some (Z.of_nat (length s), out', q') ∧
    wq_wf q' ∧ wq_list q = s :: wq_list q' ∧ take (length s) out' = s ∧
    cstring out' = s ∧ length out' = 256%nat.
Proof.
  intros [Hsl Hln Hc Hr Hw] Hlo Hlt. unfold AGENTQ_N in *. unfold agentq_get, AGENTQ_N.
  rewrite (proj2 (Z.eqb_neq _ _)) by lia.
  destruct (lookup_lt_is_Some_2 (wq_buf q) (Z.to_nat (wq_r q)) ltac:(lia)) as [src Hsrc].
  rewrite (nth_lookup_Some _ _ _ _ Hsrc). change (Z.to_nat (AGENTQ_LEN - 1)) with 255%nat.
  eexists _, _, _. split; [reflexivity|].
  assert (Hcs : (length (take 255 (cstring src)) ≤ 255)%nat) by (rewrite length_take; lia).
  split_and!.
  - split; cbn [wq_buf wq_r wq_w wq_count]; unfold AGENTQ_N; try done.
    + lia.
    + apply Z.mod_pos_bound. lia.
    + rewrite Hw, Zplus_mod_idemp_l. f_equal. lia.
  - unfold wq_list, AGENTQ_N. cbn [wq_buf wq_r wq_w wq_count].
    replace (Z.to_nat (wq_count q)) with (S (Z.to_nat (wq_count q - 1))) by lia.
    rewrite ring_seq_S, ring_seq_mod by lia. cbn [map]. f_equal.
    unfold ring_get. rewrite Z.mod_small by lia. rewrite (nth_lookup_Some _ _ _ _ Hsrc).
    symmetry. apply take_ge. by destruct (Forall_lookup_1 _ _ _ _ Hln Hsrc).
  - rewrite blit_0, <- app_assoc. apply take_app_length.
  - rewrite blit_0, <- app_assoc. apply cstring_app_nul, (cut_line_nz src).
  - rewrite length_blit; [done|]. rewrite length_app. cbn [length]. lia.
Qed.

(** A client-visible operation on the wire ring. *)
Inductive wq_op := WForward (line : list Z) | WReceive.

(** What it returns: [None] for a dropped line or an empty queue. *)
Definition wq_step (q : wireq) (o : wq_op) : wireq * option (list Z) :=
  match o with
  | WForward line => ((forward_to_agentd line q).1, None)
  | WReceive =>
      match agentq_get false (replicate 256 0) q with
      | Some (_, out', q') => (q', Some (cstring out'))
      | None => (q, None)
      end
  end.

(** The specification: a FIFO of at most AGENTQ_N lines that drops what does not fit. *)
Definition fifo_step (l : list (list Z)) (o : wq_op) : list (list Z) * option (list Z) :=
  match o with
  | WForward line =>
      (if (length l <? Z.to_nat AGENTQ_N)%nat then l ++ [cut_line line] else l, None)
  | WReceive => match l with x :: l' => (l', Some x) | [] => ([], None) end
  end.

Fixpoint outputs {S} (f : S → wq_op → S * option (list Z)) (s : S) (ops : list wq_op) :
    list (option (list Z)) :=
  match ops with
  | [] => []
  | o :: ops' => (f s o).2 :: outputs f (f s o).1 ops'
  end.

Lemma wq_step_sim q o :
  wq_wf q → wq_wf (wq_step q o).1 ∧ wq_list (wq_step q o).1 = (fifo_step (wq_list q) o).1 ∧
  (wq_step q o).2 = (fifo_step (wq_list q) o).2.
Proof.
  intros Hwf. pose proof (length_wq_list q) as Hlen. pose proof (wq_counts _ Hwf) as Hc.
  unfold AGENTQ_N in *. destruct o as [line|]; cbn [wq_step fifo_step fst snd].
  - unfold AGENTQ_N. destruct (decide (wq_count q = 16)) as [He|He].
    + rewrite forward_full by done. cbn [fst].
      destruct (Nat.ltb_spec (length (wq_list q)) (Z.to_nat 16)); [lia|done].
    + destruct (forward_room line q Hwf) as (Hwf' & _ & Hl); [unfold AGENTQ_N; lia|].
      destruct (Nat.ltb_spec (length (wq_list q)) (Z.to_nat 16)); [done|lia].
  - destruct (decide (wq_count q = 0)) as [He|He].
    + unfold agentq_get. rewrite He. simpl. rewrite He in Hlen.
      by destruct (wq_list q).
    + destruct (agentq_get_spec false (replicate 256 0) q Hwf eq_refl) as (s & q' & o' & -> & Hwf' & -> & _ & Ho & _);
        [lia|]. cbn [fst snd]. by rewrite Ho.
Qed.

(** C6: Refinement: agentd sees the lines the kernel forwarded in order, each cut to
    255 bytes, a line that finds 16 waiting is dropped, and nothing else is lost,
    duplicated or reordered: the ring buffer and a bounded FIFO give the same
    results on every sequence of forwards and receives. *)
Theorem agentq_refines_fifo q ops :
  wq_wf q → outputs wq_step q ops = outputs fifo_step (wq_list q) ops.
Proof.
  revert q. induction ops as [|o ops IH]; intros q Hwf; [done|].
  destruct (wq_step_sim q o Hwf) as (Hwf' & Hl & Ho). simpl. by rewrite Ho, <- Hl, <- (IH _ Hwf').
Qed.

(** ** The intake ring *)

Record aq_wf (q : intake) : Prop := {
  aq_slots : length (aq_lines q) = 8%nat;
  aq_lens : Forall (λ b, length b = 1280%nat ∧ Forall is_u8 b ∧ (length (cstring b) ≤ 1279)%nat)
    (aq_lines q);
  aq_head_range : 0 ≤ aq_head q < AGENT_Q_LEN;
  aq_tail_range : 0 ≤ aq_tail q < AGENT_Q_LEN;
}.

Definition aq_count (q : intake) : Z := (aq_tail q - aq_head q) mod AGENT_Q_LEN.

Definition aq_list (q : intake) : list (list Z) :=
  map cstring (ring_seq AGENT_Q_LEN (aq_lines q) (aq_head q) (Z.to_nat (aq_count q))).

Lemma aq_tail_count q :
  aq_wf q → 0 ≤ aq_count q < 8 ∧ aq_tail q = (aq_head q + aq_count q) mod AGENT_Q_LEN ∧
  (aq_count q = 0 ↔ aq_head q = aq_tail q) ∧
  (aq_count q = 7 ↔ (aq_tail q + 1) mod AGENT_Q_LEN = aq_head q).
Proof.
  intros [_ _ Hh Ht]. unfold aq_count, AGENT_Q_LEN in *.
  pose proof (Z.mod_pos_bound (aq_tail q - aq_head q) 8 ltac:(lia)).
  assert (Hcases : aq_tail q - aq_head q = (aq_tail q - aq_head q) mod 8 ∨
          aq_tail q - aq_head q + 8 = (aq_tail q - aq_head q) mod 8).
  { destruct (Z.ltb_spec (aq_tail q) (aq_head q)).
    - right. rewrite <- (Z_mod_plus_full _ 1), Z.mod_small; lia.
    - left. rewrite Z.mod_small; lia. }
  split; [done|]. rewrite Zplus_mod_idemp_r.
  split; [rewrite Z.mod_small; lia|]. split; [lia|].
  destruct (decide (aq_tail q = 7)) as [He|Hne]; [rewrite He in *; change ((7 + 1) mod 8) with 0; lia|].
  rewrite (Z.mod_small (aq_tail q + 1)) by lia. lia.
Qed.

Lemma agent_enqueue_spec line q :
  aq_wf q → Forall is_u8 line → aq_wf (agent_enqueue line q) ∧
  aq_list (agent_enqueue line q) =
  if aq_count q =? 7 then aq_list q else aq_list q ++ [take 1279 (cstring line)].
Proof.
  intros Hwf Hu. destruct (aq_tail_count q Hwf) as (Hc & Ht & _ & Hfull). pose proof Hwf as [Hsl Hln Hh Htr].
  unfold agent_enqueue.
  destruct (Z.eqb_spec (aq_count q) 7) as [H7|H7].
  { apply Hfull in H7. by rewrite H7, Z.eqb_refl. }
  rewrite (proj2 (Z.eqb_neq _ _)) by (by rewrite <- Hfull). cbn [negb].
  unfold AGENT_Q_LEN in *.
  destruct (lookup_lt_is_Some_2 (aq_lines q) (Z.to_nat (aq_tail q)) ltac:(lia)) as [old Hold].
  destruct (Forall_lookup_1 _ _ _ _ Hln Hold) as (Hlo & Hou & _).
  rewrite (alter_insert _ _ _ _ Hold).
  pose proof (cstring_safestrcpy old line AGENT_LINE_MAX ltac:(done)) as Hcs.
  change (Z.to_nat (AGENT_LINE_MAX - 1)) with 1279%nat in Hcs.
  assert (Hnew : aq_wf (mk_intake (<[Z.to_nat (aq_tail q):=safestrcpy old line AGENT_LINE_MAX]> (aq_lines q))
                          (aq_head q) ((aq_tail q + 1) mod 8))).
  { split; cbn [aq_lines aq_head aq_tail]; [by rewrite length_insert| |done|apply Z.mod_pos_bound; done].
    apply Forall_insert; [done|]. split_and!.
    - by rewrite length_safestrcpy by (rewrite Hlo; done).
    - by apply safestrcpy_u8.
    - rewrite Hcs, length_take. lia. }
  split; [exact Hnew|].
  assert (Hcnt : aq_count (mk_intake (<[Z.to_nat (aq_tail q):=safestrcpy old line AGENT_LINE_MAX]> (aq_lines q))
                          (aq_head q) ((aq_tail q + 1) mod 8)) = aq_count q + 1).
  { unfold aq_count, AGENT_Q_LEN in *. cbn [aq_head aq_tail]. rewrite Zminus_mod_idemp_l.
    replace (aq_tail q + 1 - aq_head q) with (aq_tail q - aq_head q + 1) by lia.
    rewrite <- Zplus_mod_idemp_l, Z.mod_small; lia. }
  unfold aq_list. rewrite Hcnt. cbn [aq_lines aq_head]. unfold AGENT_Q_LEN.
  replace (Z.to_nat (aq_count q + 1)) with (S (Z.to_nat (aq_count q))) by lia.
  pose proof (ring_seq_push 8 (aq_lines q) (aq_head q) (Z.to_nat (aq_count q))
                (safestrcpy old line AGENT_LINE_MAX) ltac:(lia) ltac:(lia)) as Hp.
  unfold ring_put in Hp. rewrite Z2Nat.id, <- Ht in Hp by lia.
  rewrite Hp, map_app. cbn [map]. by rewrite Hcs.
Qed.

(** Taking the line at [head] off. *)
Definition aq_pop (q : intake) : intake :=
  mk_intake (aq_lines q) ((aq_head q + 1) mod AGENT_Q_LEN) (aq_tail q).

Lemma aq_pop_spec q :
  aq_wf q → aq_count q ≠ 0 →
  aq_wf (aq_pop q) ∧ aq_count (aq_pop q) = aq_count q - 1 ∧
  aq_list q = cstring (nth (Z.to_nat (aq_head q)) (aq_lines q) []) :: aq_list (aq_pop q) ∧
  (length (cstring (nth (Z.to_nat (aq_head q)) (aq_lines q) [])) ≤ 1279)%nat ∧
  Forall is_u8 (nth (Z.to_nat (aq_head q)) (aq_lines q) []).
Proof.
  intros Hwf Hne. destruct (aq_tail_count q Hwf) as (Hc & Ht & _). pose proof Hwf as [Hsl Hln Hh Htr].
  unfold AGENT_Q_LEN in *.
  assert (Hcnt : aq_count (aq_pop q) = aq_count q - 1).
  { unfold aq_count, aq_pop, AGENT_Q_LEN in *. cbn [aq_head aq_tail]. rewrite Zminus_mod_idemp_r.
    replace (aq_tail q - (aq_head q + 1)) with (aq_tail q - aq_head q - 1) by lia.
    rewrite <- Zminus_mod_idemp_l, Z.mod_small; lia. }
  destruct (lookup_lt_is_Some_2 (aq_lines q) (Z.to_nat (aq_head q)) ltac:(lia)) as [x Hx].
  split_and!.
  - split; cbn [aq_pop aq_lines aq_head aq_tail]; try done. apply Z.mod_pos_bound. done.
  - done.
  - unfold aq_list. rewrite Hcnt. cbn [aq_pop aq_lines aq_head]. unfold AGENT_Q_LEN.
    replace (Z.to_nat (aq_count q)) with (S (Z.to_nat (aq_count q - 1))) by lia.
    rewrite ring_seq_S, ring_seq_mod by lia. cbn [map]. f_equal. unfold ring_get.
    rewrite Z.mod_small by lia. done.
  - rewrite (nth_lookup_Some _ _ _ _ Hx). by destruct (Forall_lookup_1 _ _ _ _ Hln Hx) as (_ & _ & ?).
  - rewrite (nth_lookup_Some _ _ _ _ Hx). by destruct (Forall_lookup_1 _ _ _ _ Hln Hx) as (_ & ? & _).
Qed.

(** ** The deny list *)

Record dn_wf (d : denylist) : Prop := {
  dn_slots : length (dn_names d) = 16%nat;
  dn_lens : Forall (λ b, length b = 24%nat ∧ Forall is_u8 b ∧ (length (cstring b) ≤ 23)%nat) (dn_names d);
  dn_counts : 0 ≤ dn_count d ≤ DENY_MAX;
}.

(** The denied names, in order. *)
Definition deny_list (d : denylist) : list (list Z) :=
  map cstring (take (Z.to_nat (dn_count d)) (dn_names d)).

Lemma length_deny_list d : dn_wf d → length (deny_list d) = Z.to_nat (dn_count d).
Proof.
  intros [Hs _ Hc]. unfold deny_list, DENY_MAX in *. rewrite length_map, length_take. lia.
Qed.

Lemma deny_find_spec cmd d :
  dn_wf d → Forall is_u8 cmd →
  match deny_find cmd d with
  | Some i => deny_list d !! i = Some (cstring cmd) ∧
              ∀ j, (j < i)%nat → deny_list d !! j ≠ Some (cstring cmd)
  | None => cstring cmd ∉ deny_list d
  end.
Proof.
  intros [Hs Hln Hc] Hu. unfold deny_find. change (Z.to_nat DENY_NAMELEN) with 24%nat.
  assert (Hcmp : ∀ n, n ∈ dn_names d → (strncmp n cmd 24 =? 0) = true ↔ cstring n = cstring cmd).
  { intros n Hn. rewrite Forall_forall in Hln. destruct (Hln _ Hn) as (_ & Hnu & Hnl).
    rewrite Z.eqb_eq, strncmp_eq by done. rewrite (take_ge (cstring n)) by lia. split; [|by intros <-; rewrite take_ge by lia].
    intros Heq. rewrite Heq in *. rewrite length_take in Hnl. apply take_ge. lia. }
  assert (Hin : ∀ n, n ∈ take (Z.to_nat (dn_count d)) (dn_names d) → n ∈ dn_names d).
  { intros n Hn. by eapply elem_of_take in Hn as (i & Hn & _); eapply list_elem_of_lookup_2. }
  destruct (find_index _ _) as [i|] eqn:Hf.
  - apply find_index_Some in Hf as (x & Hx & Hpx & Hmin). unfold deny_list.
    apply Hcmp in Hpx; [|by eapply Hin, list_elem_of_lookup_2].
    rewrite lookup_map, Hx. split; [by simpl; rewrite Hpx|].
    intros j Hj. rewrite lookup_map. intros (y & Hy & He)%fmap_Some.
    specialize (Hmin j y Hj Hy). symmetry in He. apply Hcmp in He; [congruence|].
    by eapply Hin, list_elem_of_lookup_2.
  - intros Hel. unfold deny_list in Hel. apply list_elem_of_fmap in Hel as (n & He & Hn).
    symmetry in He. apply Hcmp in He; [|by apply Hin].
    apply list_elem_of_lookup in Hn as [i Hi]. pose proof (find_index_None _ _ Hf _ _ Hi). congruence.
Qed.

Lemma deny_listed_spec cmd d :
  dn_wf d → Forall is_u8 cmd → deny_listed cmd d = true ↔ cstring cmd ∈ deny_list d.
Proof.
  intros Hwf Hu. unfold deny_listed. pose proof (deny_find_spec cmd d Hwf Hu) as Hf.
  destruct (deny_find cmd d); [|by split].
  split; [intros _|done]. destruct Hf as [Hf _]. by eapply list_elem_of_lookup_2.
Qed.

(** Writing one name. *)
Lemma set_name_spec i src names :
  Forall (λ b, length b = 24%nat ∧ Forall is_u8 b ∧ (length (cstring b) ≤ 23)%nat) names →
  Forall is_u8 src → (Z.to_nat i < length names)%nat →
  Forall (λ b, length b = 24%nat ∧ Forall is_u8 b ∧ (length (cstring b) ≤ 23)%nat) (set_name i src names) ∧
  map cstring (set_name i src names) = <[Z.to_nat i := take 23 (cstring src)]> (map cstring names).
Proof.
  intros Hln Hu Hi. unfold set_name. destruct (lookup_lt_is_Some_2 _ _ Hi) as [old Hold].
  rewrite (alter_insert _ _ _ _ Hold). destruct (Forall_lookup_1 _ _ _ _ Hln Hold) as (Hl & Hou & _).
  pose proof (cstring_safestrcpy old src DENY_NAMELEN ltac:(done)) as Hcs.
  change (Z.to_nat (DENY_NAMELEN - 1)) with 23%nat in Hcs. split.
  - apply Forall_insert; [done|]. split_and!.
    + by rewrite length_safestrcpy by (by rewrite Hl).
    + by apply safestrcpy_u8.
    + rewrite Hcs, length_take. lia.
  - etransitivity; [apply list_fmap_insert|]. by rewrite Hcs.
Qed.

Lemma length_set_name i src names : length (set_name i src names) = length names.
Proof. apply length_alter. Qed.

Lemma deny_push_spec cmd d :
  dn_wf d → Forall is_u8 cmd → dn_count d < DENY_MAX →
  dn_wf (deny_push d cmd) ∧ deny_list (deny_push d cmd) = deny_list d ++ [take 23 (cstring cmd)].
Proof.
  intros [Hs Hln Hc] Hu Hlt. unfold DENY_MAX in *.
  destruct (set_name_spec (dn_count d) cmd (dn_names d) Hln Hu ltac:(lia)) as [Hln' Hm].
  unfold deny_push. split.
  - split; cbn [dn_names dn_count]; [by rewrite length_set_name|done|unfold DENY_MAX; lia].
  - unfold deny_list. cbn [dn_names dn_count]. rewrite <- !firstn_map, Hm.
    replace (Z.to_nat (dn_count d + 1)) with (S (Z.to_nat (dn_count d))) by lia.
    erewrite take_S_r; [|apply list_lookup_insert_eq; rewrite length_map; lia].
    by rewrite take_insert_ge by lia.
Qed.

(** The shift moves the names from [i + 1] on down by one. *)
Lemma deny_shift_lookup k i names :
  Forall (λ b, length b = 24%nat ∧ Forall is_u8 b ∧ (length (cstring b) ≤ 23)%nat) names →
  (i + k < length names)%nat →
  let names' := fold_left (λ ns j, set_name (Z.of_nat j) (nth (S j) ns []) ns) (seq i k) names in
  length names' = length names ∧
  Forall (λ b, length b = 24%nat ∧ Forall is_u8 b ∧ (length (cstring b) ≤ 23)%nat) names' ∧
  ∀ j, map cstring names' !! j =
       map cstring names !! (if (i <=? j)%nat && (j <? i + k)%nat then S j else j).
Proof.
  cbv zeta. revert i names. induction k as [|k IH]; intros i names Hln Hi; cbn [seq fold_left].
  { split_and!; [done..|]. intros j. repeat bcase; simpl; try done; lia. }
  destruct (lookup_lt_is_Some_2 names (S i) ltac:(lia)) as [x Hx].
  rewrite (nth_lookup_Some _ _ _ _ Hx). destruct (Forall_lookup_1 _ _ _ _ Hln Hx) as (_ & Hxu & Hxl).
  destruct (set_name_spec (Z.of_nat i) x names Hln Hxu ltac:(lia)) as [Hln' Hm].
  destruct (IH (S i) (set_name (Z.of_nat i) x names) Hln') as (Hl2 & Hln2 & Ht);
    [rewrite length_set_name; lia|].
  split_and!; [by rewrite Hl2, length_set_name|done|].
  intros j. rewrite Ht, Hm, Nat2Z.id, (take_ge (cstring x)) by lia.
  destruct (decide (j = i)) as [->|Hne].
  - rewrite (proj2 (Nat.leb_gt (S i) i)), Nat.leb_refl, (proj2 (Nat.ltb_lt i (i + S k))) by lia. cbn [andb].
    rewrite list_lookup_insert_eq by (rewrite length_map; lia). by rewrite lookup_map, Hx.
  - rewrite list_lookup_insert_ne by (repeat bcase; simpl; lia).
    repeat bcase; simpl; try done; lia.
Qed.

Lemma deny_shift_spec i count names :
  Forall (λ b, length b = 24%nat ∧ Forall is_u8 b ∧ (length (cstring b) ≤ 23)%nat) names →
  Z.of_nat i < count ≤ Z.of_nat (length names) →
  let names' := deny_shift (Z.of_nat i) count names in
  length names' = length names ∧
  Forall (λ b, length b = 24%nat ∧ Forall is_u8 b ∧ (length (cstring b) ≤ 23)%nat) names' ∧
  take (Z.to_nat (count - 1)) (map cstring names') =
  delete i (take (Z.to_nat count) (map cstring names)).
Proof.
  intros Hln Hi. unfold deny_shift. rewrite Nat2Z.id.
  destruct (deny_shift_lookup (Z.to_nat (count - 1 - Z.of_nat i)) i names Hln ltac:(lia))
    as (Hl & Hln' & Ht). split_and!; [done..|].
  apply list_eq. intros j. rewrite lookup_take, Ht. case_decide as Hj.
  - destruct (Nat.leb_spec i j); cbn [andb].
    + rewrite list_lookup_delete_ge, lookup_take_lt by lia.
      destruct (Nat.ltb_spec j (i + Z.to_nat (count - 1 - Z.of_nat i))); [done|lia].
    + by rewrite list_lookup_delete_lt, lookup_take_lt by lia.
  - symmetry. rewrite list_lookup_delete_ge, lookup_take_ge by lia. done.
Qed.

Lemma deny_add_spec cmd d :
  dn_wf d → Forall is_u8 cmd →
  let '(rc, d') := deny_add cmd d in
  dn_wf d' ∧
  (if decide (cstring cmd ∈ deny_list d) then rc = 0 ∧ d' = d
   else if decide (length (deny_list d) = 16%nat) then rc = -1 ∧ d' = d
   else rc = 0 ∧ deny_list d' = deny_list d ++ [take 23 (cstring cmd)]).
Proof.
  intros Hwf Hu. unfold deny_add. pose proof (deny_find_spec cmd d Hwf Hu) as Hf.
  pose proof (length_deny_list d Hwf) as Hlen. pose proof (dn_counts _ Hwf) as Hc.
  destruct (deny_find cmd d) as [i|].
  - rewrite decide_True by (destruct Hf as [Hf _]; by eapply list_elem_of_lookup_2). done.
  - unfold DENY_MAX in *. destruct (Z.leb_spec 16 (dn_count d)); rewrite decide_False by done.
    + split; [done|]. by rewrite decide_True by lia.
    + rewrite decide_False by lia. destruct (deny_push_spec cmd d Hwf Hu) as [Hwf' Hl]; [done|]. done.
Qed.

Lemma deny_remove_spec cmd d :
  dn_wf d → Forall is_u8 cmd →
  let '(rc, d') := deny_remove cmd d in
  dn_wf d' ∧
  (if decide (cstring cmd ∈ deny_list d)
   then rc = 0 ∧ ∃ i, deny_list d !! i = Some (cstring cmd) ∧ deny_list d' = delete i (deny_list d)
   else rc = -1 ∧ d' = d).
Proof.
  intros Hwf Hu. unfold deny_remove. pose proof (deny_find_spec cmd d Hwf Hu) as Hf.
  pose proof (length_deny_list d Hwf) as Hlen. pose proof Hwf as [Hs Hln Hc]. unfold DENY_MAX in *.
  destruct (deny_find cmd d) as [i|].
  - destruct Hf as [Hf _]. rewrite decide_True by (by eapply list_elem_of_lookup_2).
    pose proof (lookup_lt_Some _ _ _ Hf) as Hlt.
    destruct (deny_shift_spec i (dn_count d) (dn_names d) Hln ltac:(lia)) as (Hl & Hln' & Ht).
    split; [split; cbn [dn_names dn_count]; [by rewrite Hl|done|unfold DENY_MAX; lia]|].
    split; [done|]. exists i. split; [done|].
    unfold deny_list. cbn [dn_names dn_count]. rewrite <- !firstn_map. exact Ht.
  - by rewrite decide_False.
Qed.

(** The deny list as a set of names. *)
Definition deny_set (d : denylist) : gset (list Z) := list_to_set (deny_list d).

Lemma deny_set_delete (l : list (list Z)) i x :
  NoDup l → l !! i = Some x →
  (list_to_set (delete i l) : gset (list Z)) = list_to_set l ∖ {[x]} ∧ NoDup (delete i l).
Proof.
  intros Hnd Hi. rewrite (delete_take_drop l i).
  pose proof (take_drop_middle _ _ _ Hi) as Hl. rewrite <- Hl in Hnd at 1.
  apply NoDup_app in Hnd as (H1 & H2 & H3). apply NoDup_cons in H3 as [H3 H4].
  split.
  - rewrite <- Hl at 3. rewrite !list_to_set_app_L. cbn [list_to_set].
    assert (Hx : x ∉ (list_to_set (take i l) : gset (list Z))).
    { rewrite elem_of_list_to_set. intros Hx. apply (H2 _ Hx). by left. }
    assert (Hx' : x ∉ (list_to_set (drop (S i) l) : gset (list Z))) by by rewrite elem_of_list_to_set.
    set_solver.
  - apply NoDup_app. split_and!; [done| |done]. intros y Hy Hy'. apply (H2 y Hy). by right.
Qed.

Lemma deny_reset_spec d : dn_wf d → dn_wf (deny_reset d) ∧ deny_list (deny_reset d) = deny_default.
Proof.
  intros [Hs Hln Hc]. unfold deny_reset, deny_default. cbn [fold_left].
  set (d0 := mk_denylist (dn_names d) 0).
  assert (H0 : dn_wf d0) by (split; [done|done|unfold DENY_MAX; simpl; lia]).
  destruct (deny_push_spec (bytes "KILL") d0 H0 (Forall_bytes_u8 _) ltac:(done)) as [H1 L1].
  destruct (deny_push_spec (bytes "EXEC") _ H1 (Forall_bytes_u8 _) ltac:(done)) as [H2 L2].
  split; [done|]. rewrite L2, L1. reflexivity.
Qed.

Lemma deny_clear_spec d : dn_wf d → dn_wf (deny_clear d) ∧ deny_list (deny_clear d) = [].
Proof.
  intros [Hs Hln Hc]. split; [split; [done|done|unfold DENY_MAX; simpl; lia]|]. done.
Qed.

(** Refinement: the deny list implements a set of at most 16 names. Adding,
    removing, resetting and clearing are the set operations, the result codes say
    when the set is full or the name is absent, and [deny_listed] is membership. *)
Theorem deny_refines_set cmd d :
  dn_wf d → NoDup (deny_list d) → Forall is_u8 cmd → (length (cstring cmd) < 24)%nat →
  (let '(rc, d') := deny_add cmd d in
   dn_wf d' ∧ NoDup (deny_list d') ∧
   (rc = 0 ∧ deny_set d' = {[cstring cmd]} ∪ deny_set d ∨
    rc = -1 ∧ d' = d ∧ size (deny_set d) = 16%nat ∧ cstring cmd ∉ deny_set d)) ∧
  (let '(rc, d') := deny_remove cmd d in
   dn_wf d' ∧ NoDup (deny_list d') ∧
   deny_set d' = deny_set d ∖ {[cstring cmd]} ∧
   rc = (if decide (cstring cmd ∈ deny_set d) then 0 else -1)) ∧
  deny_set (deny_reset d) = {[bytes "KILL"; bytes "EXEC"]} ∧
  deny_set (deny_clear d) = ∅ ∧
  deny_listed cmd d = bool_decide (cstring cmd ∈ deny_set d).
Proof.
  intros Hwf Hnd Hu Hlen. split_and!.
  - pose proof (deny_add_spec cmd d Hwf Hu) as Ha. destruct (deny_add cmd d) as [rc d'].
    destruct Ha as [Hwf' Ha]. unfold deny_set. case_decide as Hin.
    { destruct Ha as [-> ->]. split_and!; [done..|]. left. split; [done|].
      apply (elem_of_list_to_set (C:=gset (list Z))) in Hin. set_solver. }
    case_decide as Hfull.
    { destruct Ha as [-> ->]. split_and!; [done..|]. right. split_and!; [done|done| |].
      - by rewrite size_list_to_set.
      - by rewrite elem_of_list_to_set. }
    destruct Ha as [-> Hl]. rewrite take_ge in Hl by lia. split; [done|]. rewrite Hl.
    split; [apply NoDup_app; split_and!; [done| |apply NoDup_singleton]|].
    + intros x Hx Hx'%list_elem_of_singleton. by subst.
    + left. split; [done|]. rewrite list_to_set_app_L. simpl. set_solver.
  - pose proof (deny_remove_spec cmd d Hwf Hu) as Ha. destruct (deny_remove cmd d) as [rc d'].
    destruct Ha as [Hwf' Ha]. unfold deny_set. case_decide as Hin.
    + destruct Ha as (-> & i & Hi & ->).
      destruct (deny_set_delete _ _ _ Hnd Hi) as [Hs Hnd']. split_and!; [done..|].
      by rewrite decide_True by (by rewrite elem_of_list_to_set).
    + destruct Ha as [-> ->].
      assert (Hin' : cstring cmd ∉ (list_to_set (deny_list d) : gset (list Z)))
        by by rewrite elem_of_list_to_set.
      split_and!; [done|done|set_solver|]. by rewrite decide_False.
  - unfold deny_set. rewrite (proj2 (deny_reset_spec d Hwf)). set_solver.
  - done.
  - unfold deny_set. destruct (deny_listed cmd d) eqn:Hd; symmetry.
    + apply bool_decide_eq_true_2, elem_of_list_to_set. by apply deny_listed_spec.
    + apply bool_decide_eq_false_2. rewrite elem_of_list_to_set, <- deny_listed_spec by done.
      by rewrite Hd.
Qed.

(** ** Wire lines *)

(** [REQ|], an optional [agent:<role>|], the command and an optional argument. *)
Definition wire (role : option (list Z)) (cmd : list Z) (arg : option (list Z)) : list Z :=
  bytes "REQ|" ++
  match role with Some r => bytes "agent:" ++ r ++ [124] | None => [] end ++
  cmd ++ match arg with Some a => 124 :: a | None => [] end.

Definition plain (s : list Z) : Prop := Forall (λ c, c ≠ 0 ∧ c ≠ 124) s.

(** The lines the kernel parses as this role, command and argument. *)
Record wire_ok (role : option (list Z)) (cmd : list Z) (arg : option (list Z)) : Prop := {
  ok_role : ∀ r, role = Some r → plain r;
  ok_norole : role = None → ¬ bytes "agent:" `prefix_of` cmd;
  ok_cmd : plain cmd;
  ok_cmd_u8 : Forall is_u8 cmd;
  ok_arg : ∀ a, arg = Some a → Forall (λ c, c ≠ 0) a;
}.

Lemma plain_nz s : plain s → Forall (λ c, c ≠ 0) s.
Proof. intros H. eapply Forall_impl; [done|]. by intros ? []. Qed.

Lemma find_bar_app s c t : plain s → c = 0 ∨ c = 124 → find_bar (s ++ c :: t) = length s.
Proof.
  intros Hs Hc. induction Hs as [|x s [H0 H1] Hs IH]; simpl.
  - by destruct Hc as [-> | ->].
  - rewrite (proj2 (Z.eqb_neq _ _) H0), (proj2 (Z.eqb_neq _ _) H1). simpl. by rewrite IH.
Qed.

Lemma skip_role_some r rest :
  plain r → skip_role (bytes "agent:" ++ r ++ 124 :: rest) = Some rest.
Proof.
  intros Hr. unfold skip_role.
  assert (Hs : str_starts (bytes "agent:" ++ r ++ 124 :: rest) (bytes "agent:") = true) by done.
  rewrite Hs. change (drop 6 (bytes "agent:" ++ r ++ 124 :: rest)) with (r ++ 124 :: rest).
  rewrite find_bar_app by auto. cbv zeta.
  assert (Hd : drop (6 + length r) (bytes "agent:" ++ r ++ 124 :: rest) = 124 :: rest).
  { rewrite <- drop_drop. change (drop 6 (bytes "agent:" ++ r ++ 124 :: rest)) with (r ++ 124 :: rest).
    apply drop_app_length. }
  by rewrite Hd.
Qed.

Lemma skip_role_none cmd c t :
  plain cmd → c = 0 ∨ c = 124 → ¬ bytes "agent:" `prefix_of` cmd →
  skip_role (cmd ++ c :: t) = Some (cmd ++ c :: t).
Proof.
  intros Hc Hx Hn. unfold skip_role. destruct (str_starts _ _) eqn:Hs; [|done].
  exfalso. apply Hn. apply str_starts_spec in Hs.
  change (cstring (bytes "agent:")) with (bytes "agent:") in Hs.
  rewrite cstring_app in Hs by by apply plain_nz.
  destruct Hx as [-> | ->]; [by rewrite app_nil_r in Hs|].
  rewrite cstring_tl in Hs by done. cbn [hd tl] in Hs.
  destruct (decide (6 ≤ length cmd)%nat) as [Hl|Hl].
  - destruct Hs as [k Hk]. exists (drop 6 cmd).
    rewrite <- (take_drop 6 cmd) in Hk at 1. rewrite <- (take_drop 6 cmd) at 1. f_equal.
    rewrite <- app_assoc in Hk. apply app_inj_1 in Hk as [Hk _]; [done|].
    rewrite length_take. change (length (bytes "agent:")) with 6%nat. lia.
  - exfalso. destruct Hs as [k Hk].
    assert (Hlk : (cmd ++ 124 :: cstring t) !! length cmd = Some 124).
    { rewrite lookup_app_r, Nat.sub_diag by lia. done. }
    rewrite Hk, lookup_app_l in Hlk by (change (length (bytes "agent:")) with 6%nat; lia).
    apply list_elem_of_lookup_2, list_elem_of_In in Hlk. vm_compute in Hlk. intuition discriminate.
Qed.

(** The argument string that follows the command in the buffer. *)
Definition arg_rest (arg : option (list Z)) (junk : list Z) : list Z :=
  match arg with Some a => a ++ 0 :: junk | None => 0 :: junk end.

Definition after_cmd (arg : option (list Z)) (junk : list Z) : list Z :=
  match arg with Some a => 124 :: a ++ 0 :: junk | None => 0 :: junk end.

(** The kernel's split of a well-formed line. *)
Lemma skip_role_wire role cmd arg junk :
  wire_ok role cmd arg →
  skip_role (drop 4 (wire role cmd arg ++ 0 :: junk)) = Some (cmd ++ after_cmd arg junk).
Proof.
  intros [Hr Hnr Hc _ _]. unfold wire. rewrite <- !app_assoc.
  change (drop 4 (bytes "REQ|" ++ ?l)) with l.
  assert (Htail : cmd ++ match arg with Some a => 124 :: a | None => [] end ++ 0 :: junk =
                  cmd ++ after_cmd arg junk) by (f_equal; by destruct arg).
  rewrite Htail. destruct role as [r|].
  - rewrite <- !app_assoc. apply skip_role_some. by apply Hr.
  - destruct arg; apply skip_role_none; auto.
Qed.

Lemma is_req_wire role cmd arg l : is_req (wire role cmd arg ++ l) = true.
Proof. done. Qed.

Section dispatch.
Context `{LLMCache C}.
Implicit Types s : state C.

(** What [agent_dispatch_now] does on a well-formed line. *)
Lemma dispatch_wire role cmd arg junk s :
  wire_ok role cmd arg →
  agent_dispatch_now (wire role cmd arg ++ 0 :: junk) s =
  let rest := arg_rest arg junk in
  if decide (cmd = bytes "ASK") then handle_ask rest s
  else if decide (cmd = bytes "LLM_RESP") then handle_llm_resp rest s
  else if decide (cmd = bytes "CACHE_GET") then handle_cache_get rest s
  else if decide (cmd = bytes "CACHE_SET") then handle_cache_set rest s
  else if decide (cmd = bytes "CONFIRM_RES") then handle_confirm_res rest s
  else if deny_listed (cmd ++ 0 :: tl (after_cmd arg junk)) (deny s)
       then print (deny_msg (cmd ++ 0 :: tl (after_cmd arg junk))) s
       else forward_wire (cmd ++ after_cmd arg junk) s.
Proof.
  intros Hok. pose proof (ok_cmd _ _ _ Hok) as Hc.
  unfold agent_dispatch_now. rewrite is_req_wire, skip_role_wire by done. cbn [negb]. cbv zeta.
  assert (Hfb : find_bar (cmd ++ after_cmd arg junk) = length cmd).
  { destruct arg; apply find_bar_app; auto. }
  assert (Hins : ∀ x y (l : list Z), <[length cmd := y]> (cmd ++ x :: l) = cmd ++ y :: l).
  { intros. by rewrite insert_app_r_alt, Nat.sub_diag by lia. }
  assert (Hnth : ∀ x l, nth (length cmd) (cmd ++ x :: l) 0 = x).
  { intros. by rewrite app_nth2, Nat.sub_diag by lia. }
  assert (Hdr : ∀ x (l : list Z), drop (S (length cmd)) (cmd ++ x :: l) = l).
  { intros. rewrite cons_middle, app_assoc. apply drop_app_length'. rewrite length_app. simpl. lia. }
  assert (Heq : ∀ l w, cstring w = w → str_eq (cmd ++ 0 :: l) w =
    if decide (cmd = w) then true else false).
  { intros l w Hw. rewrite str_eq_spec, Hw, cstring_app_nul by by apply plain_nz.
    case_bool_decide; case_decide; done. }
  rewrite Hfb. unfold arg_rest. destruct arg as [a|]; cbn [after_cmd tl].
  - rewrite Hnth. cbn [Z.eqb Pos.eqb]. rewrite !Hins, Hdr, !Heq by done.
    repeat (case_decide; [done|]). done.
  - rewrite Hnth. cbn [Z.eqb]. rewrite drop_app_length, !Heq by done.
    repeat (case_decide; [done|]). done.
Qed.
End dispatch.

(** ** Forwarding *)

Lemma forward_wire_wq wire q :
  wq_wf q →
  wq_wf (forward_wire_to_agentd wire q).1 ∧
  (if wq_count q =? AGENTQ_N
   then forward_wire_to_agentd wire q = (q, queue_full_msg)
   else (forward_wire_to_agentd wire q).2 = [] ∧
        wq_list (forward_wire_to_agentd wire q).1 =
        wq_list q ++ [take 255 (bytes "REQ|" ++ cstring wire)]).
Proof.
  intros Hwf. unfold forward_wire_to_agentd.
  change (Z.to_nat (AGENTQ_LEN - 1 - 4)) with 251%nat.
  set (line := bytes "REQ|" ++ take 251 (cstring wire) ++ [0]).
  assert (Hcut : cut_line line = take 255 (bytes "REQ|" ++ cstring wire)).
  { unfold cut_line, line. rewrite app_assoc, cstring_app_nul.
    - rewrite (take_app_ge (bytes "REQ|") (cstring wire) 255) by (simpl; lia).
      rewrite take_ge; [done|]. rewrite length_app, length_take. change (length (bytes "REQ|")) with 4%nat. lia.
    - apply Forall_app. split; [|by apply Forall_take, cstring_nz]. repeat constructor; discriminate. }
  destruct (Z.eqb_spec (wq_count q) AGENTQ_N) as [He|He].
  - rewrite forward_full by done. done.
  - destruct (forward_room line q Hwf) as (Hwf' & Hm & Hl); [pose proof (wq_counts _ Hwf); lia|].
    by rewrite Hl, Hcut.
Qed.

Section theorems.
Context {C : Type} `{!LLMCache C, !LLMCacheLaws C}.
Implicit Types s : state C.

Record agent_wf s : Prop := {
  awf_intake : aq_wf (agent_q s);
  awf_wire : wq_wf (agentq s);
  awf_deny : dn_wf (deny s);
  awf_prompt : length (pending_prompt s) = 1280%nat;
  awf_prompt_u8 : Forall is_u8 (pending_prompt s);
  awf_cache : c_wf (llm_cache s);
}.

Lemma forward_wire_wf wire s : agent_wf s → agent_wf (forward_wire wire s).
Proof.
  intros [H1 H2 H3 H4 H5 H6]. unfold forward_wire. pose proof (forward_wire_wq wire (agentq s) H2) as [Hq _].
  destruct (forward_wire_to_agentd wire (agentq s)). by split.
Qed.

Lemma print_wf msg s : agent_wf s → agent_wf (print msg s).
Proof. by intros []; split. Qed.

Lemma set_cache_wf c s : c_wf c → agent_wf s → agent_wf (set_cache c s).
Proof. by intros ? []; split. Qed.

Lemma set_confirm_wf cf s : agent_wf s → agent_wf (set_confirm cf s).
Proof. by intros []; split. Qed.

Lemma set_pending_wf p n s :
  length p = 1280%nat → Forall is_u8 p → agent_wf s → agent_wf (set_pending p n s).
Proof. by intros ?? []; split. Qed.

Hint Resolve forward_wire_wf print_wf set_cache_wf set_confirm_wf : agent.

Lemma ask_miss_wf arg plen s : Forall is_u8 arg → agent_wf s → agent_wf (ask_miss arg plen s).
Proof.
  intros Hu Hwf. apply print_wf, set_pending_wf; [|apply safestrcpy_u8; [apply Hwf|done]|done].
  rewrite length_safestrcpy; [apply Hwf|]. by rewrite (awf_prompt _ Hwf).
Qed.

Lemma handle_ask_wf arg s : Forall is_u8 arg → agent_wf s → agent_wf (handle_ask arg s).
Proof.
  intros Hu Hwf. unfold handle_ask. case_match; [done|].
  pose proof (c_get_exact_wf arg (Z.of_nat (strlen arg)) (replicate 1025 0) 1024 (now s) _
                (awf_cache _ Hwf)) as Hc.
  destruct (c_get_exact _ _ _ _ _ _) as [[clen cached] c]. simpl in Hc.
  case_match; [auto with agent|].
  pose proof (c_get_semantic_wf arg (Z.of_nat (strlen arg)) cached 1024 (now (set_cache c s)) c Hc) as Hc'.
  cbn [set_cache llm_cache].
  destruct (c_get_semantic _ _ _ _ _ _) as [[[clen' cached'] score] c']. simpl in Hc'.
  destruct (_ && _); [auto with agent|apply ask_miss_wf; auto with agent].
Qed.

Lemma strlen_le p : (strlen p ≤ length p)%nat.
Proof. rewrite strlen_cstring. apply length_cstring. Qed.

Lemma handle_llm_resp_wf arg s : Forall is_u8 arg → agent_wf s → agent_wf (handle_llm_resp arg s).
Proof.
  intros Hu Hwf. unfold handle_llm_resp. apply forward_wire_wf.
  assert (Hp : agent_wf (set_pending (pending_prompt s) 0 s)) by (apply set_pending_wf; [apply Hwf..|done]).
  destruct (0 <? _); [|done].
  match goal with |- context [c_set ?k ?kl arg ?n ?t ?c] =>
    pose proof (c_set_wf k kl arg n t c (awf_cache _ Hwf)) as Hc;
    destruct (c_set k kl arg n t c) as [rc c'] end.
  simpl in Hc. pose proof (strlen_le arg). destruct (rc <? 0); auto with agent lia.
Qed.

Lemma handle_cache_get_wf arg s : agent_wf s → agent_wf (handle_cache_get arg s).
Proof.
  intros Hwf. unfold handle_cache_get. case_match; [auto with agent|].
  pose proof (c_get_wf arg (Z.of_nat (strlen arg)) (replicate 1024 0) 1024 (now s) _ (awf_cache _ Hwf)) as Hc.
  destruct (c_get _ _ _ _ _ _) as [[v b] c]. case_match; auto with agent.
Qed.

Lemma parse_num_suffix p n : Forall is_u8 p → Forall is_u8 (parse_num p n).2.
Proof.
  intros H. revert n. induction H as [|c p Hc Hp IH]; intros n; simpl; [constructor|].
  case_match; [apply IH|by constructor].
Qed.

Lemma handle_cache_set_wf arg s : Forall is_u8 arg → agent_wf s → agent_wf (handle_cache_set arg s).
Proof.
  intros Hu Hwf. unfold handle_cache_set. pose proof (parse_num_suffix arg 0 Hu) as Hp.
  destruct (parse_num arg 0) as [klen p]. simpl in Hp.
  destruct (_ || _) eqn:Hb; [auto with agent|]. destruct (Z.ltb_spec (Z.of_nat (strlen (tl p))) klen); [auto with agent|].
  bool_hyps. pose proof (strlen_le (tl p)).
  pose proof (c_set_wf (tl p) klen (drop (Z.to_nat klen) (tl p)) (Z.of_nat (strlen (tl p)) - klen) (now s)
                _ (awf_cache _ Hwf)) as Hc.
  destruct (c_set _ _ _ _ _ _) as [rc c]. apply print_wf, set_cache_wf; [|done].
  apply Hc; [rewrite length_drop; lia|]. by apply Forall_drop, Forall_tl.
Qed.

Lemma handle_confirm_res_wf arg s : agent_wf s → agent_wf (handle_confirm_res arg s).
Proof.
  intros. unfold handle_confirm_res. destruct (parse_num arg 0). case_match; auto with agent.
Qed.

Lemma skip_role_u8 p q : Forall is_u8 p → skip_role p = Some q → Forall is_u8 q.
Proof.
  intros Hu. unfold skip_role. destruct (str_starts p _); [|by intros [= <-]].
  destruct (negb _); [done|]. intros [= <-]. by apply Forall_tl, Forall_drop.
Qed.

Lemma agent_dispatch_now_wf line s :
  Forall is_u8 line → agent_wf s → agent_wf (agent_dispatch_now line s).
Proof.
  intros Hu Hwf. unfold agent_dispatch_now. case_match; [done|].
  destruct (skip_role (drop 4 line)) as [cmd|] eqn:Hs; [|auto with agent].
  apply skip_role_u8 in Hs; [|by apply Forall_drop].
  assert (Ha : Forall is_u8 (if nth (find_bar cmd) cmd 0 =? 124
                             then drop (S (find_bar cmd)) cmd else drop (find_bar cmd) cmd))
    by (case_match; by apply Forall_drop).
  cbv zeta. repeat case_match; auto using handle_ask_wf, handle_llm_resp_wf, handle_cache_get_wf,
    handle_cache_set_wf, handle_confirm_res_wf, forward_wire_wf, print_wf.
Qed.

Lemma set_intake_wf q s : aq_wf q → agent_wf s → agent_wf (set_intake q s).
Proof. by intros ? []; split. Qed.

Lemma agent_dispatch_wf line s : Forall is_u8 line → agent_wf s → agent_wf (agent_dispatch line s).
Proof.
  intros Hu Hwf. unfold agent_dispatch.
  assert (H1 : agent_wf (try_inline_confirm_res line s).1).
  { unfold try_inline_confirm_res. repeat case_match; simplify_eq/=; auto with agent. }
  destruct (try_inline_confirm_res line s) as [s' b]. case_match; [done|].
  apply set_intake_wf; [|done]. apply agent_enqueue_spec; [apply H1|done].
Qed.

(** ** The drain is in order *)

(** The local copy of a queued line. *)
Definition pad (l : list Z) : list Z := l ++ replicate (1280 - length l) 0.

Lemma safestrcpy_zeros_loop m k t :
  (m < k)%nat →
  safestrcpy_loop (replicate k 0) t m = take m (cstring t) ++ replicate (k - length (take m (cstring t))) 0.
Proof.
  revert k t. induction m as [|m IH]; intros [|k] t Hm; cbn [safestrcpy_loop replicate tl]; try lia; [done|].
  destruct (Z.eqb_spec (hd 0 t) 0) as [H0|H0].
  - rewrite (cstring_hd0 t) by done. rewrite H0. cbn [take app length Nat.sub].
    destruct k as [|k]; [lia|]. done.
  - rewrite (cstring_tl t) by done. cbn [take app length Nat.sub]. f_equal. rewrite IH by lia. done.
Qed.

Lemma safestrcpy_zeros t :
  (length (cstring t) ≤ 1279)%nat →
  safestrcpy (replicate (Z.to_nat AGENT_LINE_MAX) 0) t AGENT_LINE_MAX = pad (cstring t).
Proof.
  intros Hl. unfold safestrcpy. rewrite (proj2 (Z.leb_gt AGENT_LINE_MAX 0)) by done.
  change (Z.to_nat AGENT_LINE_MAX) with 1280%nat. change (Z.to_nat (AGENT_LINE_MAX - 1)) with 1279%nat.
  rewrite safestrcpy_zeros_loop by lia. unfold pad. by rewrite take_ge by lia.
Qed.

Lemma forward_wire_intake q w s : forward_wire w (set_intake q s) = set_intake q (forward_wire w s).
Proof. unfold forward_wire. cbn [set_intake agentq]. by destruct (forward_wire_to_agentd w (agentq s)). Qed.

Lemma handle_ask_intake q arg s : handle_ask arg (set_intake q s) = set_intake q (handle_ask arg s).
Proof.
  unfold handle_ask, ask_miss. cbn [set_intake set_cache llm_cache pending_prompt now confirm].
  case_match; [done|]. change (now (set_intake q s)) with (now s).
  destruct (c_get_exact _ _ _ _ _ _) as [[clen cached] c].
  case_match; [by rewrite <- forward_wire_intake|].
  change (now (set_cache c (set_intake q s))) with (now (set_cache c s)).
  destruct (c_get_semantic _ _ _ _ _ _) as [[[clen' cached'] score] c'].
  case_match; [by rewrite <- forward_wire_intake|done].
Qed.

Lemma handle_llm_resp_intake q arg s : handle_llm_resp arg (set_intake q s) = set_intake q (handle_llm_resp arg s).
Proof.
  unfold handle_llm_resp. rewrite <- forward_wire_intake. f_equal.
  cbn [set_intake set_pending llm_cache pending_prompt pending_len].
  case_match; [|done].
  unfold now. cbn [confirm set_pending]. destruct (c_set _ _ _ _ _ _) as [rc c].
  by destruct (rc <? 0).
Qed.

Lemma dispatch_now_intake q l s :
  agent_dispatch_now l (set_intake q s) = set_intake q (agent_dispatch_now l s).
Proof.
  unfold agent_dispatch_now. destruct (negb (is_req l)); [done|].
  destruct (skip_role (drop 4 l)) as [cmd|]; [|done]. cbv zeta.
  destruct (str_eq _ (bytes "ASK")); [apply handle_ask_intake|].
  destruct (str_eq _ (bytes "LLM_RESP")); [apply handle_llm_resp_intake|].
  destruct (str_eq _ (bytes "CACHE_GET")).
  { unfold handle_cache_get. case_match; [done|].
    change (now (set_intake q s)) with (now s). cbn [set_intake llm_cache].
    destruct (c_get _ _ _ _ _ _) as [[v b] c]. by destruct (v <? 0). }
  destruct (str_eq _ (bytes "CACHE_SET")).
  { unfold handle_cache_set. destruct (parse_num _ 0) as [klen p]. case_match; [done|].
    case_match; [done|]. change (now (set_intake q s)) with (now s). cbn [set_intake llm_cache].
    by destruct (c_set _ _ _ _ _ _) as [rc c]. }
  destruct (str_eq _ (bytes "CONFIRM_RES")).
  { unfold handle_confirm_res. destruct (parse_num _ 0) as [pid p]. by case_match. }
  cbn [set_intake deny]. destruct (deny_listed _ _); [done|]. apply forward_wire_intake.
Qed.

Lemma agent_q_intake q s : agent_q (set_intake q s) = q.
Proof. done. Qed.

Lemma dispatch_now_agent_q l s : agent_q (agent_dispatch_now l s) = agent_q s.
Proof.
  assert (Hs : s = set_intake (agent_q s) s) by by destruct s.
  rewrite Hs at 1. by rewrite dispatch_now_intake.
Qed.

Lemma pad_u8 t : Forall is_u8 t → Forall is_u8 (pad (cstring t)).
Proof.
  intros. apply Forall_app. split; [by apply Forall_cstring|].
  apply Forall_replicate. unfold is_u8. lia.
Qed.

Lemma agent_drain_locked_spec fuel s :
  agent_wf s → (Z.to_nat (aq_count (agent_q s)) ≤ fuel)%nat →
  ∃ q', aq_wf q' ∧ aq_count q' = 0 ∧
    agent_drain_locked fuel s =
    set_intake q' (fold_left (λ s l, agent_dispatch_now (pad l) s) (aq_list (agent_q s)) s) ∧
    agent_wf (agent_drain_locked fuel s).
Proof.
  revert s. induction fuel as [|fuel IH]; intros s Hwf Hf;
    destruct (aq_tail_count (agent_q s) (awf_intake _ Hwf)) as (Hc & _ & Hz & _).
  { exists (agent_q s). assert (H0 : aq_count (agent_q s) = 0) by lia.
    split_and!; [apply Hwf|done| |done]. unfold aq_list. rewrite H0. by destruct s. }
  cbn [agent_drain_locked]. destruct (Z.eqb_spec (aq_head (agent_q s)) (aq_tail (agent_q s))) as [He|He].
  { apply Hz in He. exists (agent_q s). split_and!; [apply Hwf|done| |done].
    unfold aq_list. rewrite He. by destruct s. }
  destruct (aq_pop_spec (agent_q s) (awf_intake _ Hwf) ltac:(lia)) as (Hwq & Hcnt & Hlist & Hlen & Hu).
  rewrite safestrcpy_zeros by done. fold (aq_pop (agent_q s)).
  set (l := cstring (nth (Z.to_nat (aq_head (agent_q s))) (aq_lines (agent_q s)) [])) in *.
  assert (Hwf' : agent_wf (agent_dispatch_now (pad l) (set_intake (aq_pop (agent_q s)) s))).
  { apply agent_dispatch_now_wf; [by apply pad_u8|by apply set_intake_wf]. }
  destruct (IH _ Hwf') as (q' & Hq' & Hq0 & Heq & Hwf2).
  { rewrite dispatch_now_agent_q, agent_q_intake, Hcnt. lia. }
  exists q'. split_and!; [done|done| |done]. rewrite Heq, dispatch_now_agent_q, agent_q_intake, Hlist.
  cbn [fold_left]. rewrite dispatch_now_intake.
  generalize (aq_list (aq_pop (agent_q s))) as ls. intros ls.
  generalize (agent_dispatch_now (pad l) s) as s1. clear. revert s.
  enough (∀ (ls : list (list Z)) q s1, ∃ q2, fold_left (λ s l, agent_dispatch_now (pad l) s) ls (set_intake q s1) =
     set_intake q2 (fold_left (λ s l, agent_dispatch_now (pad l) s) ls s1)) as H.
  { intros s s1. destruct (H ls (aq_pop (agent_q s)) s1) as [q2 ->]. done. }
  induction ls0 as [|l ls' IH]; intros q s1; [by exists q|]. cbn [fold_left].
  rewrite dispatch_now_intake. apply IH.
Qed.

(** The intake queue hands the lines over in the order they arrived: a drain
    runs [agent_dispatch_now] on every queued line, oldest first, and leaves the
    queue empty. *)
Theorem agent_drain_in_order s :
  agent_wf s →
  ∃ q', aq_wf q' ∧ aq_list q' = [] ∧
    agent_drain s =
    set_intake q' (fold_left (λ s l, agent_dispatch_now (pad l) s) (aq_list (agent_q s)) s).
Proof.
  intros Hwf. destruct (aq_tail_count (agent_q s) (awf_intake _ Hwf)) as (Hc & _ & Hz & _).
  unfold agent_drain. destruct (Z.eqb_spec (aq_head (agent_q s)) (aq_tail (agent_q s))) as [He|He].
  - apply Hz in He. exists (agent_q s). split; [apply Hwf|]. unfold aq_list. rewrite He. by destruct s.
  - destruct (agent_drain_locked_spec (Z.to_nat AGENT_Q_LEN) s Hwf) as (q' & H1 & H2 & H3 & _).
    { unfold AGENT_Q_LEN. lia. }
    exists q'. split_and!; [done| |done]. unfold aq_list. by rewrite H2.
Qed.

(** ** The commands that can reach agentd *)

Definition meta_commands : list (list Z) :=
  [bytes "ASK"; bytes "LLM_RESP"; bytes "CACHE_GET"; bytes "CACHE_SET"; bytes "CONFIRM_RES"].

Lemma dispatch_plain role cmd arg junk s :
  wire_ok role cmd arg → cmd ∉ meta_commands → dn_wf (deny s) → Forall is_u8 junk →
  (∀ a, arg = Some a → Forall is_u8 a) →
  agent_dispatch_now (wire role cmd arg ++ 0 :: junk) s =
  if decide (cmd ∈ deny_list (deny s))
  then print (deny_msg (cmd ++ 0 :: tl (after_cmd arg junk))) s
  else forward_wire (cmd ++ after_cmd arg junk) s.
Proof.
  intros Hok Hm Hd Hj Ha. rewrite dispatch_wire by done. cbv zeta.
  unfold meta_commands in Hm. rewrite !not_elem_of_cons in Hm. destruct Hm as (? & ? & ? & ? & ? & _).
  rewrite !decide_False by done.
  assert (Hu : Forall is_u8 (cmd ++ 0 :: tl (after_cmd arg junk))).
  { apply Forall_app. split; [apply Hok|]. constructor; [unfold is_u8; lia|].
    destruct arg as [a|]; [|done]. cbn [after_cmd tl].
    apply Forall_app. split; [by apply Ha|]. constructor; [unfold is_u8; lia|done]. }
  pose proof (deny_listed_spec _ _ Hd Hu) as Hl.
  rewrite cstring_app_nul in Hl by (apply plain_nz, (ok_cmd _ _ _ Hok)).
  case_decide as Hin; [apply Hl in Hin; by rewrite Hin|].
  destruct (deny_listed _ _); [|done]. exfalso. by apply Hin, Hl.
Qed.

Lemma deny_msg_eq cmd x :
  deny_msg (cmd ++ 0 :: x) =
  bytes "[agent] DENY '" ++ print_str (Some (cmd ++ 0 :: x)) ++
  bytes "' (sandboxed: never reaches the agent)
".
Proof. reflexivity. Qed.

Lemma print_str_eq cmd x :
  Forall is_u8 cmd → Forall (λ c, c ≠ 0) cmd → print_str (Some (cmd ++ 0 :: x)) = cmd.
Proof.
  intros Hu Hn. unfold print_str. cbn [from_option id]. unfold id. rewrite cstring_app_nul by done.
  apply concat_consputc. eapply Forall_impl; [exact Hu|]. intros c Hc. unfold is_u8 in Hc. lia.
Qed.

(** The commands of the cache and of confirmations put nothing into the ring. *)
Lemma cache_get_agentq arg s : agentq (handle_cache_get arg s) = agentq s.
Proof. unfold handle_cache_get. cbv zeta. repeat case_match; done. Qed.

Lemma cache_set_agentq arg s : agentq (handle_cache_set arg s) = agentq s.
Proof. unfold handle_cache_set. cbv zeta. repeat case_match; done. Qed.

Lemma confirm_res_agentq arg s : agentq (handle_confirm_res arg s) = agentq s.
Proof. unfold handle_confirm_res. cbv zeta. repeat case_match; done. Qed.

(** C5: The sandbox boundary.  A command on the deny list, other than the five meta commands the
    kernel tests before the list, changes nothing but the console, whatever role prefix and
    argument it comes with: not the ring to agentd, not the cache, not a pending confirmation.  No
    command on the deny list reaches the ring at all, but for the two that forward something else,
    ASK its cached answer and LLM_RESP its payload; what these forward is not checked against the
    list ([llm_resp_bypasses_deny]). *)
Theorem deny_boundary role cmd arg junk s :
  agent_wf s → wire_ok role cmd arg → Forall is_u8 junk → (∀ a, arg = Some a → Forall is_u8 a) →
  cmd ∈ deny_list (deny s) →
  let s' := agent_dispatch_now (wire role cmd arg ++ 0 :: junk) s in
  (cmd ∉ meta_commands →
    s' = print (bytes "[agent] DENY '" ++ cmd ++ bytes "' (sandboxed: never reaches the agent)
") s) ∧
  (cmd ≠ bytes "ASK" → cmd ≠ bytes "LLM_RESP" → agentq s' = agentq s).
Proof.
  intros Hwf Hok Hj Ha Hd. cbv zeta.
  assert (Hp : cmd ∉ meta_commands → agent_dispatch_now (wire role cmd arg ++ 0 :: junk) s =
    print (bytes "[agent] DENY '" ++ cmd ++ bytes "' (sandboxed: never reaches the agent)
") s).
  { intros Hm. rewrite dispatch_plain by (try done; apply Hwf). rewrite decide_True, deny_msg_eq by done.
    by rewrite print_str_eq by first [apply (ok_cmd_u8 _ _ _ Hok) | apply plain_nz, (ok_cmd _ _ _ Hok)]. }
  split; [done|]. intros H1 H2. destruct (decide (cmd ∈ meta_commands)) as [Hm|Hm]; [|by rewrite Hp].
  rewrite dispatch_wire by done. cbv zeta. rewrite !decide_False by done.
  unfold meta_commands in Hm. rewrite !elem_of_cons in Hm.
  destruct Hm as [?|[?|[->|[->|[->|Hm]]]]]; [done|done| | | |by apply not_elem_of_nil in Hm].
  - rewrite decide_True by done. apply cache_get_agentq.
  - rewrite decide_False, decide_True by done. apply cache_set_agentq.
  - rewrite !decide_False, decide_True by done. apply confirm_res_agentq.
Qed.

(** A command that is neither a meta command nor denied is forwarded to agentd
    with its role prefix stripped, cut to 255 bytes, or dropped with a message
    when 16 commands are waiting; the rest of the state stays as it was. *)
Theorem forward_allowed role cmd arg junk s :
  agent_wf s → wire_ok role cmd arg → Forall is_u8 junk → (∀ a, arg = Some a → Forall is_u8 a) →
  cmd ∉ meta_commands → cmd ∉ deny_list (deny s) →
  let s' := agent_dispatch_now (wire role cmd arg ++ 0 :: junk) s in
  agent_wf s' ∧ llm_cache s' = llm_cache s ∧ confirm s' = confirm s ∧ deny s' = deny s ∧
  (if wq_count (agentq s) =? AGENTQ_N
   then agentq s' = agentq s ∧ out s' = out s ++ bytes "[agent] queue full, dropping line
"
   else wq_list (agentq s') = wq_list (agentq s) ++ [take 255 (wire None cmd arg)] ∧ out s' = out s).
Proof.
  intros Hwf Hok Hj Ha Hm Hd. cbv zeta. rewrite dispatch_plain by (try done; apply Hwf).
  rewrite decide_False by done. split; [by apply forward_wire_wf|].
  pose proof (forward_wire_wq (cmd ++ after_cmd arg junk) (agentq s) (awf_wire _ Hwf)) as [_ Hq].
  unfold forward_wire. destruct (forward_wire_to_agentd _ _) as [q msg]. cbn [fst snd] in Hq.
  split_and!; [done..|]. cbn [agentq out]. destruct (wq_count (agentq s) =? AGENTQ_N).
  - injection Hq as -> ->. done.
  - destruct Hq as [-> ->]. rewrite app_nil_r. split; [|done]. do 3 f_equal.
    unfold wire. cbn [app]. do 2 f_equal.
    rewrite cstring_app by (apply plain_nz, (ok_cmd _ _ _ Hok)). f_equal.
    destruct arg as [a|]; [|done]. cbn [after_cmd].
    rewrite cstring_tl by done. cbn [hd tl]. by rewrite cstring_app_nul by (by apply (ok_arg _ _ _ Hok)).
Qed.

Lemma llm_resp_agentq arg s :
  agentq (handle_llm_resp arg s) = (forward_wire_to_agentd arg (agentq s)).1.
Proof.
  unfold handle_llm_resp, forward_wire.
  assert (Hq : ∀ s', agentq s' = agentq s → ∀ (p : wireq * list Z),
     p = forward_wire_to_agentd arg (agentq s') →
     agentq (let '(q, msg) := p in
             mk_state (agent_q s') q (deny s') (pending_prompt s') (pending_len s') (llm_cache s')
               (confirm s') (out s' ++ msg)) = (forward_wire_to_agentd arg (agentq s)).1).
  { intros s' Hs' [q msg] Hp. cbn [agentq]. by rewrite <- Hs', <- Hp. }
  cbv zeta. generalize (if (0 <? pending_len s) && (pending_len s <? 256) then pending_len s else 0) as kl.
  intros kl. destruct (0 <? kl); [|by apply Hq].
  destruct (c_set _ _ _ _ _ _) as [rc c]. destruct (rc <? 0); by apply Hq.
Qed.

(** The other way to agentd: the payload of LLM_RESP is forwarded as a command
    whatever the deny list holds.  With KILL denied, [REQ|LLM_RESP|KILL|3] puts
    [REQ|KILL|3] into agentd's ring. *)
Theorem llm_resp_bypasses_deny role payload junk s :
  agent_wf s → wire_ok role (bytes "LLM_RESP") (Some payload) → wq_count (agentq s) < AGENTQ_N →
  wq_list (agentq (agent_dispatch_now (wire role (bytes "LLM_RESP") (Some payload) ++ 0 :: junk) s)) =
  wq_list (agentq s) ++ [take 255 (bytes "REQ|" ++ payload)].
Proof.
  intros Hwf Hok Hlt. rewrite dispatch_wire by done. cbv zeta.
  rewrite decide_False, decide_True by done. rewrite llm_resp_agentq.
  pose proof (forward_wire_wq (arg_rest (Some payload) junk) (agentq s) (awf_wire _ Hwf)) as [_ Hq].
  rewrite (proj2 (Z.eqb_neq _ _)) in Hq by lia. destruct Hq as [_ ->].
  unfold arg_rest. by rewrite cstring_app_nul by (by apply (ok_arg _ _ _ Hok)).
Qed.

(** ** Confirm answers *)

Lemma parse_num_digits ds rest n v :
  fold_left (digit_step 10) ds (Some n) = Some v →
  0 ≤ n → v < 2 ^ 31 → (hd 0 rest < 48 ∨ 57 < hd 0 rest) → parse_num (ds ++ rest) n = (v, rest).
Proof.
  revert n. induction ds as [|c ds IH]; intros n Hf Hn Hv Hr.
  - injection Hf as ->. simpl. destruct rest as [|c rest]; [done|]. cbn [hd parse_num] in *.
    destruct (Z.leb_spec 48 c), (Z.leb_spec c 57); simpl; try done; lia.
  - apply digits_val_cons in Hf as (d & Hd & Hlt & Hf).
    destruct (digit_val_dec _ _ Hd Hlt) as [Hc ->]. cbn [app parse_num].
    rewrite (proj2 (Z.leb_le 48 c)), (proj2 (Z.leb_le c 57)) by lia. cbn [andb].
    pose proof (digits_val_mono ds (n * 10 + (c - 48)) v ltac:(lia) Hf).
    rewrite s32_id by lia. apply IH; [done|lia|done|done].
Qed.

(** A host answer takes effect at once: the line is consumed in the interrupt
    handler, it resolves the confirm request of exactly the process it names,
    with yes exactly when the answer starts with y or Y, and it is not queued. *)
Theorem confirm_res_inline role ds pid ans junk s :
  wire_ok role (bytes "CONFIRM_RES") (Some (ds ++ 124 :: ans)) →
  digits_val 10 ds = Some pid → 0 < pid < 2 ^ 31 →
  agent_dispatch (wire role (bytes "CONFIRM_RES") (Some (ds ++ 124 :: ans)) ++ 0 :: junk) s =
  set_confirm (confirm_resolve pid (is_yes (ans ++ 0 :: junk)) (confirm s)) s.
Proof.
  intros Hok Hds Hpid. unfold agent_dispatch, try_inline_confirm_res.
  rewrite is_req_wire, skip_role_wire by done. cbn [negb].
  assert (Hst : str_starts (bytes "CONFIRM_RES" ++ after_cmd (Some (ds ++ 124 :: ans)) junk)
                  (bytes "CONFIRM_RES|") = true) by done.
  rewrite Hst. cbn [negb].
  change (drop 12 (bytes "CONFIRM_RES" ++ after_cmd (Some (ds ++ 124 :: ans)) junk))
    with ((ds ++ 124 :: ans) ++ 0 :: junk). rewrite <- app_assoc. cbn [app].
  rewrite (parse_num_digits ds _ 0 pid); [|exact Hds|lia|lia|cbn [hd]; lia].
  cbn [hd tl]. rewrite (proj2 (Z.leb_gt pid 0)) by lia. done.
Qed.

(** The handlers that do not touch the confirm state. *)
Lemma handler_confirm arg s :
  confirm (handle_ask arg s) = confirm s ∧ confirm (handle_llm_resp arg s) = confirm s ∧
  confirm (handle_cache_get arg s) = confirm s ∧ confirm (handle_cache_set arg s) = confirm s ∧
  ∀ w, confirm (forward_wire w s) = confirm s.
Proof.
  assert (Hf : ∀ w s', confirm (forward_wire w s') = confirm s').
  { intros w s'. unfold forward_wire. by destruct (forward_wire_to_agentd _ _). }
  split_and!; [| | | |by intros].
  - unfold handle_ask. case_match; [done|].
    destruct (c_get_exact _ _ _ _ _ _) as [[a b] c]. case_match; [by rewrite Hf|].
    destruct (c_get_semantic _ _ _ _ _ _) as [[[? ?] ?] ?]. case_match; [by rewrite Hf|done].
  - unfold handle_llm_resp. rewrite Hf. cbv zeta.
    generalize (if (0 <? pending_len s) && (pending_len s <? 256) then pending_len s else 0) as kl.
    intros kl. destruct (0 <? kl); [|done]. destruct (c_set _ _ _ _ _ _) as [rc c]. by destruct (rc <? 0).
  - unfold handle_cache_get. case_match; [done|]. destruct (c_get _ _ _ _ _ _) as [[? ?] ?]. by case_match.
  - unfold handle_cache_set. destruct (parse_num _ _). case_match; [done|]. case_match; [done|].
    by destruct (c_set _ _ _ _ _ _).
Qed.

Lemma prefix_bar w cmd t :
  plain w → plain cmd → t = [] ∨ hd 0 t = 124 → (w ++ [124]) `prefix_of` (cmd ++ t) → cmd = w.
Proof.
  intros Hw. revert cmd. induction Hw as [|x w [Hx0 Hx1] Hw IH]; intros cmd Hc Ht [k Hk].
  - destruct Hc as [|y cmd [Hy0 Hy1] Hc]; [done|]. simpl in Hk. congruence.
  - destruct Hc as [|y cmd [Hy0 Hy1] Hc].
    + destruct Ht as [-> |Ht]; [done|]. simpl in Hk. subst t. by simpl in Ht.
    + injection Hk as -> Hk. f_equal. apply IH; [done|done|by exists k].
Qed.

(** No other line can grant a confirm request, neither in the interrupt handler
    nor when it is routed. *)
Theorem confirm_only_by_confirm_res role cmd arg junk s :
  wire_ok role cmd arg → cmd ≠ bytes "CONFIRM_RES" →
  confirm (agent_dispatch (wire role cmd arg ++ 0 :: junk) s) = confirm s ∧
  confirm (agent_dispatch_now (wire role cmd arg ++ 0 :: junk) s) = confirm s.
Proof.
  intros Hok Hne. split.
  - unfold agent_dispatch, try_inline_confirm_res. rewrite is_req_wire, skip_role_wire by done.
    cbn [negb]. destruct (str_starts _ _) eqn:Hst; [|done]. exfalso. apply Hne.
    apply str_starts_spec in Hst.
    change (cstring (bytes "CONFIRM_RES|")) with (bytes "CONFIRM_RES" ++ [124]) in Hst.
    rewrite cstring_app in Hst by (apply plain_nz, (ok_cmd _ _ _ Hok)).
    eapply prefix_bar; [|apply (ok_cmd _ _ _ Hok)| |exact Hst].
    + repeat constructor; discriminate.
    + destruct arg; [right; cbn [after_cmd]; by rewrite cstring_tl|by left].
  - rewrite dispatch_wire by done. cbv zeta.
    destruct (handler_confirm (arg_rest arg junk) s) as (H1 & H2 & H3 & H4 & H5).
    rewrite (decide_False (P := cmd = bytes "CONFIRM_RES")) by done.
    repeat case_decide; try done. by case_match.
Qed.

(** ** The response cache on the wire *)

Lemma take_cstring l : take (length (cstring l)) l = cstring l.
Proof. induction l as [|c l IH]; simpl; [done|]. bcase; simpl; [done|]. by rewrite IH. Qed.

Lemma cstring_terminate buf v n :
  Forall (λ c, c ≠ 0) v → (length v ≤ n)%nat →
  cstring (<[length v := 0]> (blit buf 0 (take n v))) = v.
Proof.
  intros Hv Hn. rewrite take_ge by done. rewrite blit_0.
  destruct (drop (length v) buf) as [|x t] eqn:Hd.
  - rewrite app_nil_r, list_insert_ge by lia. by apply cstring_id.
  - rewrite insert_app_r_alt, Nat.sub_diag by lia. cbn. by apply cstring_app_nul.
Qed.

(** The state between a prompt and its answer: [prompt] is the pending key. *)
Definition pending_is (prompt : list Z) s : Prop :=
  cstring (pending_prompt s) = prompt ∧ pending_len s = Z.of_nat (length prompt).

Lemma ask_miss_pending prompt junk s :
  agent_wf s → Forall (λ c, c ≠ 0) prompt → (length prompt < 1280)%nat →
  pending_is prompt (ask_miss (prompt ++ 0 :: junk) (Z.of_nat (length prompt)) s).
Proof.
  intros Hwf Hn Hl. split; [|done]. cbn [ask_miss print set_pending pending_prompt].
  rewrite cstring_safestrcpy by done. rewrite cstring_app_nul by done.
  apply take_ge. change (Z.to_nat (AGENT_LINE_MAX - 1)) with 1279%nat. lia.
Qed.

(** What LLM_RESP leaves in the cache: the answer, under the pending prompt. *)
Lemma llm_resp_cached prompt resp junk s :
  agent_wf s → pending_is prompt s → Forall is_u8 resp → Forall is_u8 junk →
  Forall (λ c, c ≠ 0) resp → (0 < length prompt < 256)%nat → (length resp ≤ 1024)%nat →
  let s1 := handle_llm_resp (resp ++ 0 :: junk) s in
  ∀ key' m t' buf, take (length prompt) key' = prompt → 0 < m →
    (c_get_exact key' (Z.of_nat (length prompt)) buf m t' (llm_cache s1)).1 =
    (Z.of_nat (length resp), blit buf 0 (take (Z.to_nat (Z.min (Z.of_nat (length resp)) m)) (resp ++ 0 :: junk))).
Proof.
  intros Hwf [Hp Hpl] Hru Hju Hrn Hlp Hlr. cbv zeta. intros key' m t' buf Hk Hm. unfold handle_llm_resp.
  rewrite Hpl. assert (Hfit : (0 <? Z.of_nat (length prompt)) && (Z.of_nat (length prompt) <? 256) = true).
  { apply andb_true_iff. rewrite !Z.ltb_lt. lia. }
  rewrite Hfit. rewrite (proj2 (Z.ltb_lt 0 (Z.of_nat (length prompt)))) by lia.
  assert (Hal : strlen (resp ++ 0 :: junk) = length resp) by (by rewrite strlen_cstring, cstring_app_nul).
  rewrite Hal. set (key := safestrcpy (replicate 256 0) (pending_prompt s) 256).
  assert (Hkey : take (length prompt) key = prompt).
  { assert (Hck : cstring key = prompt).
    { unfold key. rewrite cstring_safestrcpy, Hp by done. apply take_ge.
      change (Z.to_nat (256 - 1)) with 255%nat. lia. }
    rewrite <- Hck. apply take_cstring. }
  cbn [set_pending llm_cache].
  pose proof (c_set_ok key (Z.of_nat (length prompt)) (resp ++ 0 :: junk) (Z.of_nat (length resp))
    (now (set_pending (pending_prompt s) 0 s)) (llm_cache s) (awf_cache _ Hwf) ltac:(lia) ltac:(lia)) as Hrc.
  pose proof (c_set_get key (Z.of_nat (length prompt)) key' (resp ++ 0 :: junk) (Z.of_nat (length resp))
    (now (set_pending (pending_prompt s) 0 s)) (llm_cache s) (awf_cache _ Hwf) ltac:(lia) ltac:(lia)) as Hget.
  destruct (c_set _ _ _ _ _ _) as [rc c]. cbn [fst snd] in *. subst rc. cbn [Z.ltb Z.compare].
  assert (Hcache : ∀ w s', llm_cache (forward_wire w s') = llm_cache s').
  { intros w s'. unfold forward_wire. by destruct (forward_wire_to_agentd _ _). }
  rewrite Hcache. cbn [set_cache llm_cache]. rewrite Nat2Z.id in Hget. apply Hget; [|  |congruence|done].
  - rewrite length_app. lia.
  - apply Forall_app. split; [done|]. constructor; [unfold is_u8; lia|done].
Qed.

(** The cache saves the round trip: once the host has answered a prompt of less
    than 256 bytes with at most 1024 bytes, asking the same prompt again prints
    a hit, forwards the same command to agentd and never emits LLM_REQ. *)
Theorem ask_served_from_cache role role' prompt resp junk junk' s :
  agent_wf s → pending_is prompt s →
  wire_ok role (bytes "LLM_RESP") (Some resp) → wire_ok role' (bytes "ASK") (Some prompt) →
  Forall is_u8 resp → Forall is_u8 junk → (0 < length prompt < 256)%nat → (length resp ≤ 1024)%nat →
  let s1 := agent_dispatch_now (wire role (bytes "LLM_RESP") (Some resp) ++ 0 :: junk) s in
  let s2 := agent_dispatch_now (wire role' (bytes "ASK") (Some prompt) ++ 0 :: junk') s1 in
  out s2 = out s1 ++ bytes "[cache] HIT
" ++ (if wq_count (agentq s1) =? AGENTQ_N then queue_full_msg else []) ∧
  (wq_count (agentq s1) < AGENTQ_N →
   wq_list (agentq s2) = wq_list (agentq s1) ++ [take 255 (bytes "REQ|" ++ resp)]).
Proof.
  intros Hwf Hpend Hok Hok' Hru Hju Hlp Hlr. cbv zeta.
  assert (Hd1 : agent_dispatch_now (wire role (bytes "LLM_RESP") (Some resp) ++ 0 :: junk) s =
                handle_llm_resp (resp ++ 0 :: junk) s).
  { rewrite dispatch_wire by done. cbv zeta. by rewrite decide_False, decide_True by done. }
  rewrite Hd1, dispatch_wire by done. cbv zeta. rewrite decide_True by done.
  pose proof (ok_arg _ _ _ Hok _ eq_refl) as Hrn. pose proof (ok_arg _ _ _ Hok' _ eq_refl) as Hpn.
  pose proof (llm_resp_cached prompt resp junk s Hwf Hpend Hru Hju Hrn Hlp Hlr) as Hget. cbv zeta in Hget.
  assert (Hwf1 : agent_wf (handle_llm_resp (resp ++ 0 :: junk) s)).
  { apply handle_llm_resp_wf; [|done]. apply Forall_app. split; [done|]. constructor; [unfold is_u8; lia|done]. }
  revert Hget Hwf1. generalize (handle_llm_resp (resp ++ 0 :: junk) s) as s1. intros s1 Hget Hwf1.
  unfold handle_ask. cbn [arg_rest].
  assert (Hpl : strlen (prompt ++ 0 :: junk') = length prompt) by (by rewrite strlen_cstring, cstring_app_nul).
  rewrite Hpl, (proj2 (Z.eqb_neq _ 0)) by lia.
  specialize (Hget (prompt ++ 0 :: junk') 1024 (now s1) (replicate 1025 0) ltac:(apply take_app_length) ltac:(lia)).
  destruct (c_get_exact _ _ _ _ _ _) as [[clen cached] c]. cbn [fst] in Hget. injection Hget as -> ->.
  rewrite (proj2 (Z.leb_le 0 _)) by lia.
  unfold terminate. rewrite (proj2 (Z.leb_gt 1025 _)) by lia. rewrite Nat2Z.id.
  set (w := <[length resp := 0]> _).
  assert (Hw : cstring w = resp).
  { unfold w. rewrite take_app_le by lia. apply cstring_terminate; [done|lia]. }
  pose proof (forward_wire_wq w (agentq s1) (awf_wire _ Hwf1)) as [_ Hq].
  unfold forward_wire. cbn [print set_cache agentq].
  destruct (forward_wire_to_agentd w (agentq s1)) as [q msg]. cbn [fst snd] in Hq.
  cbn [agentq out print set_cache]. rewrite <- app_assoc. split.
  - do 2 f_equal. destruct (wq_count (agentq s1) =? AGENTQ_N); [by injection Hq as -> ->|by destruct Hq].
  - intros Hlt. rewrite (proj2 (Z.eqb_neq _ _)) in Hq by lia. destruct Hq as [_ ->]. by rewrite Hw.
Qed.

(** A value stored with CACHE_SET is what CACHE_GET answers: the wire format
    [<decimal key length>:<key><value>] round-trips through the parser and the
    cache for values of at most 1023 bytes. *)
Theorem cache_wire_roundtrip role role' ds key v junk junk' s :
  agent_wf s →
  wire_ok role (bytes "CACHE_SET") (Some (ds ++ 58 :: key ++ v)) →
  wire_ok role' (bytes "CACHE_GET") (Some key) →
  digits_val 10 ds = Some (Z.of_nat (length key)) →
  Forall is_u8 (key ++ v) → Forall is_u8 junk → key ≠ [] →
  Z.of_nat (length key) < 2 ^ 31 → (length v ≤ 1023)%nat →
  let s1 := agent_dispatch_now (wire role (bytes "CACHE_SET") (Some (ds ++ 58 :: key ++ v)) ++ 0 :: junk) s in
  let s2 := agent_dispatch_now (wire role' (bytes "CACHE_GET") (Some key) ++ 0 :: junk') s1 in
  out s1 = out s ++ bytes "RESP|OK
" ∧
  out s2 = out s1 ++ bytes "RESP|HIT|" ++ v ++ bytes "
".
Proof.
  intros Hwf Hok Hok' Hds Hu Hju Hne Hlk Hlv. cbv zeta.
  pose proof (ok_arg _ _ _ Hok _ eq_refl) as Han. pose proof (ok_arg _ _ _ Hok' _ eq_refl) as Hkn.
  apply Forall_app in Han as [_ Han]. apply Forall_cons in Han as [_ Han].
  apply Forall_app in Han as [_ Hvn]. apply Forall_app in Hu as [Hku Hvu].
  rewrite (dispatch_wire role), (dispatch_wire role') by done. cbv zeta.
  rewrite !decide_False, !decide_True by done. cbn [arg_rest].
  assert (Hkl : 0 < Z.of_nat (length key)) by (destruct key; [done|simpl; lia]).
  set (p := (key ++ v) ++ 0 :: junk).
  assert (Hset : handle_cache_set ((ds ++ 58 :: key ++ v) ++ 0 :: junk) s =
    let '(rc, c) := c_set p (Z.of_nat (length key)) (v ++ 0 :: junk) (Z.of_nat (length v)) (now s) (llm_cache s) in
    print (printf (bytes "%s
") [VStr (Some (if rc =? 0 then bytes "RESP|OK" else bytes "RESP|ERR"))]) (set_cache c s)).
  { unfold handle_cache_set. rewrite <- app_assoc. cbn [app].
    rewrite (parse_num_digits ds _ 0 (Z.of_nat (length key))); [|exact Hds|lia|done|cbn [hd]; lia].
    cbn [hd tl]. rewrite (proj2 (Z.leb_gt _ 0)) by lia. cbn [negb orb Z.eqb Pos.eqb]. fold p.
    assert (Hrem : strlen p = (length key + length v)%nat).
    { unfold p. rewrite strlen_cstring, cstring_app_nul by (by apply Forall_app). by rewrite length_app. }
    rewrite Hrem. rewrite (proj2 (Z.ltb_ge _ _)) by lia.
    rewrite Nat2Z.id. unfold p at 2. rewrite <- app_assoc, drop_app_length.
    replace (Z.of_nat (length key + length v) - Z.of_nat (length key)) with (Z.of_nat (length v)) by lia.
    done. }
  rewrite Hset.
  assert (Hvj : Forall is_u8 (v ++ 0 :: junk)).
  { apply Forall_app. split; [done|]. constructor; [unfold is_u8; lia|done]. }
  pose proof (c_set_ok p (Z.of_nat (length key)) (v ++ 0 :: junk) (Z.of_nat (length v)) (now s) (llm_cache s)
    (awf_cache _ Hwf) Hkl ltac:(lia)) as Hrc.
  pose proof (c_set_get p (Z.of_nat (length key)) (key ++ 0 :: junk') (v ++ 0 :: junk) (Z.of_nat (length v))
    (now s) (llm_cache s) (awf_cache _ Hwf) Hkl ltac:(lia) ltac:(rewrite length_app; lia) Hvj) as Hget.
  destruct (c_set _ _ _ _ _ _) as [rc c]. cbn [fst snd] in Hrc, Hget. subst rc. cbn [Z.eqb].
  split; [reflexivity|].
  rewrite Nat2Z.id in Hget. unfold p in Hget. rewrite <- app_assoc, !take_app_length in Hget.
  specialize (Hget eq_refl (replicate 1024 0) 1024 (now s) ltac:(lia)).
  unfold handle_cache_get. rewrite strlen_cstring, cstring_app_nul by done.
  rewrite (proj2 (Z.eqb_neq _ 0)) by lia.
  cbn [print set_cache llm_cache]. set (s1 := print _ _). change (now s1) with (now s).
  rewrite c_get_of_exact by (rewrite Hget; simpl; lia).
  destruct (c_get_exact _ _ _ _ _ _) as [[vlen valbuf] c2]. cbn [fst] in Hget. injection Hget as -> ->.
  rewrite (proj2 (Z.ltb_ge _ 0)) by lia. unfold terminate. rewrite (proj2 (Z.leb_gt 1024 _)) by lia.
  rewrite Nat2Z.id, take_app_le by lia. set (w := <[length v := 0]> _).
  assert (Hw : cstring w = v) by (apply cstring_terminate; [done|lia]).
  change (printf (bytes "RESP|HIT|%s
") [VStr (Some w)]) with (bytes "RESP|HIT|" ++ print_str (Some w) ++ bytes "
").
  assert (Hps : print_str (Some w) = v).
  { unfold print_str. cbn [from_option]. unfold id. rewrite Hw. apply concat_consputc.
    eapply Forall_impl; [exact Hvu|]. intros x Hx. unfold is_u8 in Hx. lia. }
  rewrite Hps. reflexivity.
Qed.

(** ** The invariant over every entry point *)

Inductive agent_op :=
  | OpLine (line : list Z)        (* agent_dispatch, from the console interrupt *)
  | OpRoute (line : list Z)       (* agent_dispatch_now, from sys_dispatch *)
  | OpDrain
  | OpRecv (killed : bool)        (* agentq_get, from sys_agent_recv *)
  | OpDenyAdd (cmd : list Z)
  | OpDenyRemove (cmd : list Z)
  | OpDenyReset
  | OpDenyClear.

Definition set_agentq (q : wireq) s : state C :=
  mk_state (agent_q s) q (deny s) (pending_prompt s) (pending_len s) (llm_cache s) (confirm s) (out s).

Definition agent_step s (o : agent_op) : state C :=
  match o with
  | OpLine line => agent_dispatch line s
  | OpRoute line => agent_dispatch_now line s
  | OpDrain => agent_drain s
  | OpRecv killed =>
      match agentq_get killed (replicate 256 0) (agentq s) with
      | Some (_, _, q) => set_agentq q s
      | None => s
      end
  | OpDenyAdd cmd => set_deny (deny_add cmd (deny s)).2 s
  | OpDenyRemove cmd => set_deny (deny_remove cmd (deny s)).2 s
  | OpDenyReset => set_deny (deny_reset (deny s)) s
  | OpDenyClear => set_deny (deny_clear (deny s)) s
  end.

Definition agent_op_ok (o : agent_op) : Prop :=
  match o with
  | OpLine l | OpRoute l | OpDenyAdd l | OpDenyRemove l => Forall is_u8 l
  | _ => True
  end.

Lemma set_deny_wf d s : dn_wf d → agent_wf s → agent_wf (set_deny d s).
Proof. by intros ? []; split. Qed.

Lemma agent_drain_wf s : agent_wf s → agent_wf (agent_drain s).
Proof.
  intros Hwf. unfold agent_drain. case_match; [done|].
  destruct (agent_drain_locked_spec (Z.to_nat AGENT_Q_LEN) s Hwf) as (q' & _ & _ & _ & H'); [|done].
  destruct (aq_tail_count (agent_q s) (awf_intake _ Hwf)) as (Hc & _). unfold AGENT_Q_LEN. lia.
Qed.

Lemma agent_step_wf s o : agent_op_ok o → agent_wf s → agent_wf (agent_step s o).
Proof.
  intros Hok Hwf. destruct o as [l|l| |k|cmd|cmd| |]; cbn [agent_step agent_op_ok] in *.
  - by apply agent_dispatch_wf.
  - by apply agent_dispatch_now_wf.
  - by apply agent_drain_wf.
  - destruct (decide (wq_count (agentq s) = 0)) as [H0|H0].
    { unfold agentq_get. rewrite H0. cbn [Z.eqb]. destruct k; [|done]. by destruct Hwf; split. }
    destruct (agentq_get_spec k (replicate 256 0) (agentq s) (awf_wire _ Hwf) eq_refl)
      as (x & q' & o' & -> & Hq & _); [pose proof (wq_counts _ (awf_wire _ Hwf)); lia|].
    by destruct Hwf; split.
  - apply set_deny_wf; [|done]. pose proof (deny_add_spec cmd (deny s) (awf_deny _ Hwf) Hok).
    by destruct (deny_add cmd (deny s)) as [? ?]; destruct H.
  - apply set_deny_wf; [|done]. pose proof (deny_remove_spec cmd (deny s) (awf_deny _ Hwf) Hok).
    by destruct (deny_remove cmd (deny s)) as [? ?]; destruct H.
  - apply set_deny_wf; [|done]. apply deny_reset_spec, Hwf.
  - apply set_deny_wf; [|done]. apply deny_clear_spec, Hwf.
Qed.

(** Every sequence of serial lines, dispatches, drains, receives and deny-list
    calls keeps the static data of agentcmd.c well-formed: ring indices and
    counts in range, every queued line and denied name terminated inside its
    slot, the cache's invariant intact. *)
Theorem agentcmd_invariant ops s :
  agent_wf s → Forall agent_op_ok ops → agent_wf (fold_left agent_step ops s).
Proof.
  intros Hwf Hops. revert s Hwf. induction Hops as [|o ops Ho Hops IH]; intros s Hwf; [done|].
  apply IH. by apply agent_step_wf.
Qed.

Lemma agentcmd_init_wf c cf : c_wf c → agent_wf (agentcmd_init c cf).
Proof.
  assert (H0 : ∀ n, Forall is_u8 (replicate n 0)) by (intros; apply Forall_replicate; unfold is_u8; lia).
  intros Hc. unfold agentcmd_init. split; cbn [agent_q agentq deny pending_prompt llm_cache]; try done.
  - split; cbn [aq_lines aq_head aq_tail]; [by rewrite length_replicate| |done|done].
    apply Forall_replicate. split_and!; [by rewrite length_replicate|done|].
    replace (cstring (replicate (Z.to_nat AGENT_LINE_MAX) 0)) with (@nil Z) by done. simpl. lia.
  - split; cbn [wq_buf wq_r wq_w wq_count]; [by rewrite length_replicate| |done|done|done].
    apply Forall_replicate. split; [by rewrite length_replicate|].
    replace (cstring (replicate (Z.to_nat AGENTQ_LEN) 0)) with (@nil Z) by done. simpl. lia.
  - apply deny_reset_spec. split; cbn [dn_names dn_count]; [by rewrite length_replicate| |done].
    apply Forall_replicate. split_and!; [by rewrite length_replicate|done|].
    replace (cstring (replicate (Z.to_nat DENY_NAMELEN) 0)) with (@nil Z) by done. simpl. lia.
Qed.
End theorems.

(** ** Witnesses *)

Definition agent_boot : state (Cache.state ram_file) := agentcmd_init Cache.boot (confirminit 0).

Lemma agent_boot_wf : agent_wf agent_boot.
Proof. apply agentcmd_init_wf. apply cacheinit_wf. Qed.

(** Lines of decided shape. *)
Lemma wire_ok_intro role cmd arg :
  match role with Some r => forallb (λ c, negb (c =? 0) && negb (c =? 124)) r | None => true end = true →
  (if role is None then negb (str_starts cmd (bytes "agent:")) else true) = true →
  forallb (λ c, negb (c =? 0) && negb (c =? 124) && (0 <=? c) && (c <? 256)) cmd = true →
  match arg with Some a => forallb (λ c, negb (c =? 0)) a | None => true end = true →
  wire_ok role cmd arg.
Proof.
  intros Hr Hp Hc Ha.
  assert (Hcf : Forall (λ c, c ≠ 0 ∧ c ≠ 124 ∧ is_u8 c) cmd).
  { apply List.Forall_forall. intros x Hx. rewrite List.forallb_forall in Hc. specialize (Hc x Hx).
    bool_hyps. unfold is_u8. lia. }
  split.
  - intros r ->. apply List.Forall_forall. intros x Hx. rewrite List.forallb_forall in Hr.
    specialize (Hr x Hx). bool_hyps. done.
  - intros -> Hpre. apply negb_true_iff in Hp. apply not_true_iff_false in Hp. apply Hp.
    apply str_starts_spec. rewrite (cstring_id cmd); [done|].
    eapply Forall_impl; [exact Hcf|]. by intros ? (? & _).
  - eapply Forall_impl; [exact Hcf|]. by intros ? (? & ? & _).
  - eapply Forall_impl; [exact Hcf|]. by intros ? (_ & _ & ?).
  - intros a ->. apply List.Forall_forall. intros x Hx. rewrite List.forallb_forall in Ha.
    specialize (Ha x Hx). by bool_hyps.
Qed.

Ltac wire_tac := apply wire_ok_intro; reflexivity.
Ltac some_u8 := let a := fresh in let H := fresh in
  intros a H; first [discriminate H | injection H as <-; apply Forall_bytes_u8].

Lemma deny_refines_set_witness :
  let d := deny agent_boot in
  (deny_add (bytes "WRITE") d).1 = 0 ∧
  deny_set (deny_remove (bytes "KILL") d).2 = deny_set d ∖ {[bytes "KILL"]}.
Proof.
  assert (Hnd : NoDup (deny_list (deny agent_boot))).
  { replace (deny_list (deny agent_boot)) with deny_default by (vm_compute; reflexivity).
    apply NoDup_cons; split; [|apply NoDup_singleton]. rewrite list_elem_of_singleton. discriminate. }
  destruct (deny_refines_set (bytes "KILL") (deny agent_boot) (awf_deny _ agent_boot_wf) Hnd
    (Forall_bytes_u8 _) ltac:(simpl; lia)) as (_ & Hrem & _).
  split; [vm_compute; reflexivity|]. destruct (deny_remove _ _) as [rc d'].
  destruct Hrem as (_ & _ & Hset & _). exact Hset.
Defined.

Lemma agentq_refines_fifo_witness :
  outputs wq_step (agentq agent_boot) [WForward (bytes "REQ|PS"); WReceive; WReceive] =
  [None; Some (bytes "REQ|PS"); None].
Proof.
  rewrite (agentq_refines_fifo (agentq agent_boot) _ (awf_wire _ agent_boot_wf)).
  vm_compute. reflexivity.
Defined.

Definition two_lines : state (Cache.state ram_file) :=
  agent_dispatch (bytes "REQ|KILL|3") (agent_dispatch (bytes "REQ|PS") agent_boot).

Lemma two_lines_wf : agent_wf two_lines.
Proof. do 2 (apply agent_dispatch_wf; [apply Forall_bytes_u8|]). apply agent_boot_wf. Qed.

Lemma agent_drain_in_order_witness :
  aq_list (agent_q two_lines) = [bytes "REQ|PS"; bytes "REQ|KILL|3"] ∧
  ∃ q', aq_list q' = [] ∧ agent_drain two_lines =
    set_intake q' (agent_dispatch_now (pad (bytes "REQ|KILL|3"))
                     (agent_dispatch_now (pad (bytes "REQ|PS")) two_lines)).
Proof.
  assert (Hl : aq_list (agent_q two_lines) = [bytes "REQ|PS"; bytes "REQ|KILL|3"])
    by (vm_compute; reflexivity).
  split; [exact Hl|].
  destruct (agent_drain_in_order two_lines two_lines_wf) as (q' & _ & Hq & Hd).
  exists q'. split; [exact Hq|]. rewrite Hl in Hd. exact Hd.
Defined.

Lemma deny_boundary_witness :
  agentq (agent_dispatch_now (wire (Some (bytes "root")) (bytes "KILL") (Some (bytes "3")) ++ [0])
            agent_boot) = agentq agent_boot.
Proof.
  apply (deny_boundary (Some (bytes "root")) (bytes "KILL") (Some (bytes "3")) [] agent_boot);
    [apply agent_boot_wf|wire_tac|constructor|some_u8| |discriminate..].
  replace (deny_list (deny agent_boot)) with deny_default by (vm_compute; reflexivity). by left.
Defined.

Lemma forward_allowed_witness :
  wq_list (agentq (agent_dispatch_now (wire (Some (bytes "root")) (bytes "PRINT") (Some (bytes "hi")) ++ [0])
                     agent_boot)) = [bytes "REQ|PRINT|hi"].
Proof.
  destruct (forward_allowed (Some (bytes "root")) (bytes "PRINT") (Some (bytes "hi")) [] agent_boot)
    as (_ & _ & _ & _ & Hq); [apply agent_boot_wf|wire_tac|constructor|some_u8| | |].
  - rewrite list_elem_of_In. intros H. vm_compute in H. intuition discriminate.
  - replace (deny_list (deny agent_boot)) with deny_default by (vm_compute; reflexivity).
    rewrite list_elem_of_In. intros H. vm_compute in H. intuition discriminate.
  - destruct Hq as [Hq _]. rewrite Hq. reflexivity.
Defined.

Lemma llm_resp_bypasses_deny_witness :
  deny_listed (bytes "KILL") (deny agent_boot) = true ∧
  wq_list (agentq (agent_dispatch_now (wire None (bytes "LLM_RESP") (Some (bytes "KILL|3")) ++ [0])
                     agent_boot)) = [bytes "REQ|KILL|3"].
Proof.
  split; [vm_compute; reflexivity|].
  rewrite (llm_resp_bypasses_deny None (bytes "KILL|3") [] agent_boot);
    [reflexivity|apply agent_boot_wf|wire_tac|reflexivity].
Defined.

Definition asking : Confirm.state :=
  confirm_post 3 7 (bytes "exec") (confirminit 0).

Lemma confirm_res_inline_witness :
  confirm_result (confirm (agent_dispatch (wire (Some (bytes "host")) (bytes "CONFIRM_RES") (Some (bytes "3|y")) ++ [0])
    (set_confirm asking agent_boot))) = 1.
Proof.
  pose proof (confirm_res_inline (Some (bytes "host")) (bytes "3") 3 (bytes "y") [] (set_confirm asking agent_boot)) as H.
  change (bytes "3" ++ 124 :: bytes "y") with (bytes "3|y") in H. rewrite H; [reflexivity|wire_tac|reflexivity|lia].
Defined.

Lemma confirm_only_by_confirm_res_witness :
  confirm (agent_dispatch (wire None (bytes "ASK") (Some (bytes "3|y")) ++ [0])
    (set_confirm asking agent_boot)) = asking.
Proof.
  destruct (confirm_only_by_confirm_res None (bytes "ASK") (Some (bytes "3|y")) [] (set_confirm asking agent_boot))
    as [H _]; [wire_tac|discriminate|exact H].
Defined.

Definition pending_boot : state (Cache.state ram_file) :=
  agent_dispatch_now (wire None (bytes "ASK") (Some (bytes "say hi")) ++ [0]) agent_boot.

Lemma pending_boot_wf : agent_wf pending_boot.
Proof.
  apply agent_dispatch_now_wf; [|apply agent_boot_wf].
  change (wire None (bytes "ASK") (Some (bytes "say hi"))) with (bytes "REQ|ASK|say hi").
  apply Forall_app. split; [apply Forall_bytes_u8|]. repeat constructor; discriminate.
Qed.

Lemma ask_served_from_cache_witness :
  let s1 := agent_dispatch_now (wire None (bytes "LLM_RESP") (Some (bytes "PRINT|hi")) ++ [0]) pending_boot in
  let s2 := agent_dispatch_now (wire None (bytes "ASK") (Some (bytes "say hi")) ++ [0]) s1 in
  wq_list (agentq s2) = wq_list (agentq s1) ++ [bytes "REQ|PRINT|hi"].
Proof.
  destruct (ask_served_from_cache None None (bytes "say hi") (bytes "PRINT|hi") [] [] pending_boot) as [_ H];
    [apply pending_boot_wf|split; vm_compute; reflexivity|wire_tac|wire_tac|apply Forall_bytes_u8|constructor
    |simpl; lia|simpl; lia|].
  apply H. vm_compute. reflexivity.
Defined.

Lemma cache_wire_roundtrip_witness :
  let s1 := agent_dispatch_now (wire None (bytes "CACHE_SET") (Some (bytes "3:keyval")) ++ [0]) agent_boot in
  out (agent_dispatch_now (wire None (bytes "CACHE_GET") (Some (bytes "key")) ++ [0]) s1) =
  out s1 ++ bytes "RESP|HIT|val
".
Proof.
  destruct (cache_wire_roundtrip None None (bytes "3") (bytes "key") (bytes "val") [] [] agent_boot) as [_ H];
    [apply agent_boot_wf|wire_tac|wire_tac|reflexivity
    |change (bytes "key" ++ bytes "val") with (bytes "keyval"); apply Forall_bytes_u8
    |constructor|discriminate|reflexivity|simpl; lia|exact H].
Defined.

Lemma agentcmd_invariant_witness :
  agent_wf (fold_left agent_step [OpLine (bytes "REQ|ASK|hello"); OpDrain; OpRecv false; OpDenyAdd (bytes "PS")]
              agent_boot).
Proof.
  apply agentcmd_invariant; [apply agent_boot_wf|].
  repeat (constructor; [first [exact I | apply Forall_bytes_u8]|]). constructor.
Defined.
