(* ===== verification/Console.v ===== *)
(** * kernel/console.c: line editing, the agent sniffer and console reads

    [consoleintr] is the interrupt handler: its result is the new [cons] and
    [agent_buf] and the list of calls it makes, in order ([effect]).
    [consoleread] reads what has arrived and says when it goes to sleep;
    [consolewrite] sends a buffer to the UART in batches.  The abstract console
    ([screen]) is the bytes a reader can take and the line being edited. *)

From S2P Require Import Prelude CString Ring Printf.

Local Open Scope Z_scope.

Definition INPUT_BUF_SIZE : Z := 2048.
Definition AGENT_BUF_SIZE : Z := 2048.
#[global] Arguments INPUT_BUF_SIZE : simpl never.
#[global] Arguments AGENT_BUF_SIZE : simpl never.

(** [C(x)]: Control-x. *)
Definition Ctrl (x : Z) : Z := x - 64.

(** [cons] and the sniffer's [agent_buf], [agent_len]. *)
Record cons := mk_cons {
  cons_buf : list Z;
  cons_r : Z;
  cons_w : Z;
  cons_e : Z;
  agent_buf : list Z;
  agent_len : Z;
}.

Inductive effect :=
  | Putc (c : Z)            (* [consputc(c)] *)
  | Procdump                (* [procdump()] *)
  | Dispatch (line : list Z) (* [agent_dispatch(agent_buf)] *)
  | WakeReader.             (* [wakeup(&cons.r)] *)

Definition consoleinit : cons :=
  mk_cons (replicate (Z.to_nat INPUT_BUF_SIZE) 0) 0 0 0 (replicate (Z.to_nat AGENT_BUF_SIZE) 0) 0.

Definition set_e (x : Z) (s : cons) : cons := mk_cons (cons_buf s) (cons_r s) (cons_w s) x (agent_buf s) (agent_len s).
Definition set_r (x : Z) (s : cons) : cons := mk_cons (cons_buf s) x (cons_w s) (cons_e s) (agent_buf s) (agent_len s).
Definition set_agent_len (x : Z) (s : cons) : cons := mk_cons (cons_buf s) (cons_r s) (cons_w s) (cons_e s) (agent_buf s) x.

(** [while(cons.e != cons.w && cons.buf[(cons.e-1) % N] != '\n')]; the fuel is
    the length of the line. *)
Fixpoint kill_line (fuel : nat) (s : cons) : cons * list effect :=
  match fuel with
  | O => (s, [])
  | S fuel' =>
      if negb (cons_e s =? cons_w s) && negb (ring_get INPUT_BUF_SIZE (cons_buf s) (u32 (cons_e s - 1)) =? 10)
      then let '(s', ev) := kill_line fuel' (set_e (u32 (cons_e s - 1)) s) in (s', Putc BACKSPACE :: ev)
      else (s, [])
  end.

(** [agent_buf] starts with "REQ|". *)
Definition sniff_req (s : cons) : bool :=
  (nth 0 (agent_buf s) 0 =? 82) && (nth 1 (agent_buf s) 0 =? 69) &&
  (nth 2 (agent_buf s) 0 =? 81) && (nth 3 (agent_buf s) 0 =? 124).

(** Store a character in both buffers. *)
Definition store (c : Z) (s : cons) : cons :=
  let s := mk_cons (ring_put INPUT_BUF_SIZE (cons_buf s) (cons_e s) (u8 c)) (cons_r s) (cons_w s) (u32 (cons_e s + 1))
             (agent_buf s) (agent_len s) in
  if agent_len s <? AGENT_BUF_SIZE - 1
  then mk_cons (cons_buf s) (cons_r s) (cons_w s) (cons_e s) (<[Z.to_nat (agent_len s) := u8 c]> (agent_buf s)) (agent_len s + 1)
  else s.

(** The echo policy. *)
Definition echo (c : Z) (s : cons) : list effect :=
  let is_req := (4 <=? agent_len s) && sniff_req s in
  if negb is_req then [Putc c]
  else if (agent_len s <=? 4) || (c =? 10) then [Putc c] else [].

(** End of line: dispatch a REQ line, or hand the line to the readers. *)
Definition end_line (s : cons) : cons * list effect :=
  if (4 <? agent_len s) && sniff_req s then
    let n := if nth (Z.to_nat (agent_len s - 1)) (agent_buf s) 0 =? 10 then agent_len s - 1 else agent_len s in
    let ab := <[Z.to_nat n := 0]> (agent_buf s) in
    (mk_cons (cons_buf s) (cons_r s) (cons_w s) (cons_w s) ab 0, [Dispatch ab; WakeReader])
  else (mk_cons (cons_buf s) (cons_r s) (cons_e s) (cons_e s) (agent_buf s) 0, [WakeReader]).

Definition consoleintr (c : Z) (s : cons) : cons * list effect :=
  if c =? Ctrl 80 then (s, [Procdump])
  else if c =? Ctrl 85 then
    let '(s, ev) := kill_line (Z.to_nat (u32 (cons_e s - cons_w s))) s in (set_agent_len 0 s, ev)
  else if (c =? Ctrl 72) || (c =? 127) then
    if negb (cons_e s =? cons_w s) then
      let s := set_e (u32 (cons_e s - 1)) s in
      (if 0 <? agent_len s then set_agent_len (agent_len s - 1) s else s, [Putc BACKSPACE])
    else (s, [])
  else if negb (c =? 0) && (u32 (cons_e s - cons_r s) <? INPUT_BUF_SIZE) then
    let c := if c =? 13 then 10 else c in
    let s := store c s in
    let ev := echo c s in
    if (c =? 10) || (c =? Ctrl 68) || (u32 (cons_e s - cons_r s) =? INPUT_BUF_SIZE)
    then let '(s, ev') := end_line s in (s, ev ++ ev')
    else (s, ev)
  else (s, []).

(** ** Reads *)

(** [Blocked n dst]: the loop waits for input ([agent_drain], then [sleep])
    with [n] bytes to go to [dst]. *)
Inductive read_result := Returned (v : Z) | Blocked (n dst : Z).

(** The body of [consoleread]'s outer loop until it returns or waits. [copy_ok
    dst] says whether [either_copyout] of one byte to [dst] succeeds; the bytes
    copied are returned. The fuel is the number of bytes asked for. *)
Fixpoint read_loop (fuel : nat) (killed : bool) (copy_ok : Z → bool) (target n dst : Z) (s : cons) :
    read_result * list Z * cons :=
  match fuel with
  | O => (Returned (s32 (target - n)), [], s)
  | S fuel' =>
      if n <=? 0 then (Returned (s32 (target - n)), [], s)
      else if cons_r s =? cons_w s then
        if killed then (Returned (-1), [], s) else (Blocked n dst, [], s)
      else
        let c := ring_get INPUT_BUF_SIZE (cons_buf s) (cons_r s) in
        let s := set_r (u32 (cons_r s + 1)) s in
        if c =? Ctrl 68 then
          (Returned (s32 (target - n)), [], if u32 n <? target then set_r (u32 (cons_r s - 1)) s else s)
        else if negb (copy_ok dst) then (Returned (s32 (target - n)), [], s)
        else if c =? 10 then (Returned (s32 (target - (n - 1))), [c], s)
        else
          let '(res, l, s) := read_loop fuel' killed copy_ok target (n - 1) (u64 (dst + 1)) s in
          (res, c :: l, s)
  end.

Definition consoleread (killed : bool) (copy_ok : Z → bool) (dst n : Z) (s : cons) :
    read_result * list Z * cons :=
  read_loop (S (Z.to_nat n)) killed copy_ok (u32 n) n dst s.

(** ** Writes *)

(** [copy_in off len]: the bytes [either_copyin] gets from [src + off], or its
    failure. The result is what [consolewrite] returns and the bytes sent to
    [uartwrite], 32 at a time; the fuel is at least the number of batches. *)
Fixpoint write_loop (fuel : nat) (copy_in : Z → Z → option (list Z)) (i n : Z) : Z * list Z :=
  match fuel with
  | O => (i, [])
  | S fuel' =>
      if i <? n then
        let nn := if n - i <? 32 then n - i else 32 in
        match copy_in i nn with
        | None => (i, [])
        | Some l => let '(i', out) := write_loop fuel' copy_in (i + nn) n in (i', l ++ out)
        end
      else (i, [])
  end.

Definition consolewrite (copy_in : Z → Z → option (list Z)) (n : Z) : Z * list Z :=
  write_loop (S (Z.to_nat n)) copy_in 0 n.

(** ** The abstract console *)

(** What a reader can take, and the line being edited. *)
Record screen := mk_screen { avail : list Z; line : list Z }.

(** What the lines are for a list of bytes from a REQ line: without its newline. *)
Definition strip_nl (l : list Z) : list Z :=
  if default 0 (last l) =? 10 then removelast l else l.

Definition is_req_line (l : list Z) : bool := bool_decide (bytes "REQ|" `prefix_of` l).

(** What a character leads to besides its echo. *)
Inductive outcome_of_intr := Nothing | Listing | LineReady | ToAgent (l : list Z).

(** The handler on the abstract console: editing keys edit, NUL and input
    beyond 2048 bytes are ignored, the rest of a REQ line is not echoed, and the
    end of a line makes it readable unless it is a REQ line, which
    goes to the agent, cut at 2047 bytes and without its newline. The result has
    the characters echoed. *)
Definition screen_intr (c : Z) (a : screen) : screen * list Z * outcome_of_intr :=
  if c =? Ctrl 80 then (a, [], Listing)
  else if c =? Ctrl 85 then (mk_screen (avail a) [], replicate (length (line a)) BACKSPACE, Nothing)
  else if (c =? Ctrl 72) || (c =? 127) then
    match line a with
    | [] => (a, [], Nothing)
    | _ => (mk_screen (avail a) (removelast (line a)), [BACKSPACE], Nothing)
    end
  else if (c =? 0) || bool_decide (2048 ≤ length (avail a) + length (line a))%nat then (a, [], Nothing)
  else
    let c := if c =? 13 then 10 else c in
    let l := line a ++ [c] in
    let req := is_req_line (take 2047 l) in
    let echo := if req && bool_decide (4 < length l)%nat && negb (c =? 10) then [] else [c] in
    if (c =? 10) || (c =? Ctrl 68) || bool_decide (length (avail a) + length l = 2048)%nat then
      if req && bool_decide (4 < length l)%nat
      then (mk_screen (avail a) [], echo, ToAgent (strip_nl (take 2047 l)))
      else (mk_screen (avail a ++ l) [], echo, LineReady)
    else (mk_screen (avail a) l, echo, Nothing).

(** The calls [consoleintr] makes: the echo, then what the outcome needs. *)
Definition effects_match (ev : list effect) (echo : list Z) (o : outcome_of_intr) : Prop :=
  match o with
  | Nothing => ev = map Putc echo
  | Listing => ev = [Procdump]
  | LineReady => ev = map Putc echo ++ [WakeReader]
  | ToAgent l => ∃ b, ev = map Putc echo ++ [Dispatch b; WakeReader] ∧ cstring b = l
  end.

(** ** The invariant *)

Definition n_avail (s : cons) : nat := Z.to_nat (u32 (cons_w s - cons_r s)).
Definition n_line (s : cons) : nat := Z.to_nat (u32 (cons_e s - cons_w s)).

Definition cons_avail (s : cons) : list Z := ring_seq INPUT_BUF_SIZE (cons_buf s) (cons_r s) (n_avail s).
Definition cons_line (s : cons) : list Z := ring_seq INPUT_BUF_SIZE (cons_buf s) (cons_w s) (n_line s).
Definition view (s : cons) : screen := mk_screen (cons_avail s) (cons_line s).

Record cons_inv (s : cons) : Prop := {
  ci_buf : length (cons_buf s) = 2048%nat;
  ci_agent : length (agent_buf s) = 2048%nat;
  ci_r : is_u32 (cons_r s);
  ci_w : is_u32 (cons_w s);
  ci_e : is_u32 (cons_e s);
  ci_bound : (n_avail s + n_line s ≤ 2048)%nat;
  ci_room : (0 < n_line s)%nat → (n_avail s + n_line s < 2048)%nat;
  ci_mirror : agent_len s = Z.of_nat (n_line s);
  ci_line : take (n_line s) (agent_buf s) = cons_line s;
  ci_no_nl : Forall (λ c, c ≠ 10 ∧ c ≠ 0) (cons_line s);
}.

(** ** Index arithmetic *)

Ltac u32_lia :=
  unfold n_avail, n_line, u32, is_u32 in *; cbn [cons_r cons_w cons_e] in *;
  Z.div_mod_to_equations; lia.

Lemma u32_n (x : Z) : 0 ≤ x < 2 ^ 32 → Z.of_nat (Z.to_nat (u32 x)) = x.
Proof. intros. rewrite u32_id by done. lia. Qed.

Lemma mod_2048 x : u32 x mod 2048 = x mod 2048.
Proof. apply u32_mod; [lia|]. exists (2 ^ 21). lia. Qed.

Lemma e_mod s : is_u32 (cons_e s) → is_u32 (cons_w s) →
  cons_e s mod 2048 = (cons_w s + Z.of_nat (n_line s)) mod 2048.
Proof.
  intros He Hw. unfold n_line. rewrite Z2Nat.id by apply u32_range.
  rewrite <- (Zplus_mod_idemp_r (u32 _)), mod_2048, Zplus_mod_idemp_r. f_equal. lia.
Qed.

Lemma w_mod s : cons_w s mod 2048 = (cons_r s + Z.of_nat (n_avail s)) mod 2048.
Proof.
  unfold n_avail. rewrite Z2Nat.id by apply u32_range.
  rewrite <- (Zplus_mod_idemp_r (u32 _)), mod_2048, Zplus_mod_idemp_r. f_equal. lia.
Qed.

Lemma e_sub_r s : cons_inv s → u32 (cons_e s - cons_r s) = Z.of_nat (n_avail s + n_line s).
Proof.
  intros [_ _ Hr Hw He Hb _ _ _ _]. u32_lia.
Qed.

Lemma length_cons_line s : length (cons_line s) = n_line s.
Proof. apply length_ring_seq. Qed.

Lemma length_cons_avail s : length (cons_avail s) = n_avail s.
Proof. apply length_ring_seq. Qed.

(** ** Erasing *)

Lemma cons_inv_erase s :
  cons_inv s → (0 < n_line s)%nat →
  let s' := set_agent_len (agent_len s - 1) (set_e (u32 (cons_e s - 1)) s) in
  cons_inv s' ∧ n_line s = S (n_line s') ∧ cons_avail s' = cons_avail s ∧
  cons_line s = cons_line s' ++ [ring_get INPUT_BUF_SIZE (cons_buf s) (u32 (cons_e s - 1))].
Proof.
  intros [H1 H2 H3 H4 H5 H6 H7 H8 H9 H10] Hn s'.
  assert (Hn' : n_line s = S (n_line s')).
  { unfold s', set_agent_len, set_e. clear -H3 H4 H5 Hn. u32_lia. }
  assert (Hl : cons_line s = cons_line s' ++ [ring_get INPUT_BUF_SIZE (cons_buf s) (u32 (cons_e s - 1))]).
  { unfold cons_line. rewrite Hn', ring_seq_snoc. f_equal. f_equal. apply ring_get_congr.
    unfold INPUT_BUF_SIZE. rewrite mod_2048. rewrite <- (Zminus_mod_idemp_l (cons_e s)), (e_mod s) by done.
    rewrite Zminus_mod_idemp_l. f_equal. rewrite Hn'. unfold s'. cbn [set_agent_len set_e cons_w]. lia. }
  split_and!; [|done|done|done]. split; try done; unfold s'; cbn [set_agent_len set_e cons_e agent_len agent_buf].
  - apply u32_range.
  - fold s'. change (n_avail s') with (n_avail s). lia.
  - fold s'. change (n_avail s') with (n_avail s). lia.
  - fold s'. lia.
  - fold s'. assert (Ht : take (n_line s) (agent_buf s) = cons_line s) by done.
    rewrite Hn', (take_S_r _ _ (nth (n_line s') (agent_buf s) 0)) in Ht.
    + rewrite Hl in Ht. by apply app_inj_tail in Ht as [? _].
    + rewrite nth_lookup. destruct (lookup_lt_is_Some_2 (agent_buf s) (n_line s')) as [x Hx]; [lia|].
      by rewrite Hx.
  - fold s'. rewrite Hl in H10. by apply Forall_app in H10 as [? _].
Qed.

Lemma removelast_snoc {A} (l : list A) x : removelast (l ++ [x]) = l.
Proof. apply removelast_last. Qed.

Lemma intr_backspace s :
  cons_inv s → (0 < n_line s)%nat →
  let s' := set_agent_len (agent_len s - 1) (set_e (u32 (cons_e s - 1)) s) in
  cons_inv s' ∧ view s' = mk_screen (cons_avail s) (removelast (cons_line s)).
Proof.
  intros Hi Hn. destruct (cons_inv_erase s Hi Hn) as (Hi' & _ & Ha & Hl). split; [done|].
  unfold view. rewrite Ha, Hl, removelast_snoc. done.
Qed.

Lemma n_line_0 s : cons_inv s → n_line s = 0%nat ↔ cons_e s = cons_w s.
Proof. intros [_ _ _ Hw He _ _ _ _ _]. u32_lia. Qed.

(** A killed line: as many erasures as characters. *)
Lemma kill_line_spec s :
  cons_inv s →
  let '(s', ev) := kill_line (n_line s) s in
  cons_inv (set_agent_len 0 s') ∧ view (set_agent_len 0 s') = mk_screen (cons_avail s) [] ∧
  ev = replicate (n_line s) (Putc BACKSPACE).
Proof.
  remember (n_line s) as n eqn:Hn. revert s Hn. induction n as [|n IH]; intros s Hn Hi.
  - cbn [kill_line]. assert (Hs : set_agent_len 0 s = s).
    { pose proof (ci_mirror _ Hi) as Hm. rewrite <- Hn in Hm. destruct s. cbn in *. by rewrite Hm. }
    rewrite Hs. split_and!; [done| |done]. unfold view. f_equal. apply length_zero_iff_nil.
    by rewrite length_cons_line.
  - cbn [kill_line]. assert (Hne : cons_e s ≠ cons_w s) by (intros He; apply n_line_0 in He; [lia|done]).
    rewrite (proj2 (Z.eqb_neq _ _) Hne).
    destruct (cons_inv_erase s Hi ltac:(lia)) as (Hi' & Hn' & Ha & Hl).
    set (s1 := set_agent_len _ _) in *.
    assert (Hc : ring_get INPUT_BUF_SIZE (cons_buf s) (u32 (cons_e s - 1)) ≠ 10).
    { pose proof (ci_no_nl _ Hi) as Hf. rewrite Hl in Hf. apply Forall_app in Hf as [_ Hf].
      by apply Forall_inv in Hf as [? _]. }
    rewrite (proj2 (Z.eqb_neq _ _) Hc). cbn [negb andb].
    specialize (IH s1 ltac:(lia) Hi').
    assert (Hk : ∀ k x a, kill_line k (set_agent_len a x) =
      (let '(y, ev) := kill_line k x in (set_agent_len a y, ev))).
    { clear. induction k as [|k IHk]; intros x a; [done|]. cbn [kill_line].
      cbn [set_agent_len cons_e cons_w cons_buf]. destruct (_ && _); [|done].
      change (set_e (u32 (cons_e x - 1)) (set_agent_len a x)) with (set_agent_len a (set_e (u32 (cons_e x - 1)) x)).
      rewrite IHk. by destruct (kill_line k _). }
    unfold s1 in IH at 1. rewrite Hk in IH. destruct (kill_line n (set_e _ s)) as [s2 ev].
    destruct IH as (IH1 & IH2 & IH3). rewrite Ha in IH2. split_and!; [exact IH1|exact IH2|]. cbn [replicate]. by rewrite IH3.
Qed.

(** ** Storing a character *)

(** The state between [store] and the end-of-line test. *)
Lemma store_spec c s :
  cons_inv s → (n_avail s + n_line s < 2048)%nat → is_u8 c →
  let s' := store c s in
  length (cons_buf s') = 2048%nat ∧ length (agent_buf s') = 2048%nat ∧
  cons_r s' = cons_r s ∧ cons_w s' = cons_w s ∧ is_u32 (cons_e s') ∧
  n_line s' = S (n_line s) ∧ cons_avail s' = cons_avail s ∧ cons_line s' = cons_line s ++ [c] ∧
  agent_len s' = Z.min 2047 (Z.of_nat (S (n_line s))) ∧
  take (Z.to_nat (agent_len s')) (agent_buf s') = take 2047 (cons_line s ++ [c]).
Proof.
  intros [H1 H2 H3 H4 H5 H6 H7 H8 H9 H10] Hn Hc s'.
  set (s0 := mk_cons (ring_put INPUT_BUF_SIZE (cons_buf s) (cons_e s) (u8 c)) (cons_r s) (cons_w s)
               (u32 (cons_e s + 1)) (agent_buf s) (agent_len s)).
  assert (Hput : ring_put INPUT_BUF_SIZE (cons_buf s) (cons_e s) (u8 c) =
                 ring_put 2048 (cons_buf s) (cons_w s + Z.of_nat (n_line s)) c).
  { rewrite u8_id by done. apply ring_put_congr. by apply e_mod. }
  assert (Hput' : ring_put INPUT_BUF_SIZE (cons_buf s) (cons_e s) (u8 c) =
                  ring_put 2048 (cons_buf s) (cons_r s + Z.of_nat (n_avail s + n_line s)) c).
  { rewrite Hput. apply ring_put_congr. rewrite <- (Zplus_mod_idemp_l (cons_w s)), w_mod, Zplus_mod_idemp_l.
    f_equal. lia. }
  assert (Hn0 : n_line s0 = S (n_line s)) by (unfold s0; clear -H3 H4 H5 H6 Hn; u32_lia).
  assert (Hl0 : cons_line s0 = cons_line s ++ [c]).
  { unfold cons_line. rewrite Hn0. unfold s0. cbn [cons_buf cons_w]. rewrite Hput.
    change INPUT_BUF_SIZE with 2048. apply ring_seq_push; lia. }
  assert (Ha0 : cons_avail s0 = cons_avail s).
  { unfold cons_avail. change (n_avail s0) with (n_avail s). unfold s0. cbn [cons_buf cons_r].
    rewrite Hput'. change INPUT_BUF_SIZE with 2048. apply ring_seq_put_ge; lia. }
  assert (Hlb : length (cons_buf s0) = 2048%nat) by (unfold s0; cbn [cons_buf]; by rewrite length_ring_put).
  assert (He0 : is_u32 (cons_e s0)) by apply u32_range.
  unfold s', store. fold s0. change (agent_len s0) with (agent_len s).
  change (AGENT_BUF_SIZE - 1) with 2047. destruct (Z.ltb_spec (agent_len s) 2047) as [Hlt|Hge].
  - set (s1 := mk_cons _ _ _ _ _ _). assert (Hl1 : cons_line s1 = cons_line s0) by done.
    split_and!; try done.
    + unfold s1. cbn [agent_buf]. by rewrite length_insert.
    + unfold s1. cbn [agent_len]. lia.
    + unfold s1. cbn [agent_len agent_buf]. rewrite u8_id by done. change (agent_buf s0) with (agent_buf s).
      rewrite H8. replace (Z.to_nat (Z.of_nat (n_line s) + 1)) with (S (n_line s)) by lia. rewrite Nat2Z.id.
      rewrite (take_S_r _ _ c) by (apply list_lookup_insert_eq; lia).
      rewrite take_insert_ge by lia. rewrite H9, (take_ge (_ ++ _)); [done|].
      rewrite length_app, length_cons_line. cbn [length]. lia.
  - split_and!; try done; [change (agent_len s0) with (agent_len s); lia|].
    change (agent_len s0) with (agent_len s). change (agent_buf s0) with (agent_buf s).
    rewrite H8, Nat2Z.id, H9. rewrite take_app_le by (rewrite length_cons_line; lia).
    rewrite take_ge; [done|]. rewrite length_cons_line. lia.
Qed.

Lemma sniff_req_spec s :
  4 ≤ agent_len s → sniff_req s = is_req_line (take (Z.to_nat (agent_len s)) (agent_buf s)).
Proof.
  intros Hn. unfold sniff_req, is_req_line. remember (Z.to_nat (agent_len s)) as n eqn:Hnn.
  destruct n as [|[|[|[|n]]]]; [lia|lia|lia|lia|]. clear.
  destruct (agent_buf s) as [|a [|b [|c [|d l]]]]; cbn [nth take].
  1-4: rewrite bool_decide_eq_false_2; [repeat bcase; done|]; intros [k Hk]; done.
  change (bytes "REQ|") with [82; 69; 81; 124].
  destruct (Z.eqb_spec a 82), (Z.eqb_spec b 69), (Z.eqb_spec c 81), (Z.eqb_spec d 124); cbn [andb]; subst.
  1: rewrite bool_decide_eq_true_2; [done|by eexists].
  all: rewrite bool_decide_eq_false_2; [done|]; intros [k Hk]; cbn [app] in Hk; congruence.
Qed.

(** An empty line at the end of what is readable. *)
Lemma cons_inv_flush s w' ab :
  length (cons_buf s) = 2048%nat → length ab = 2048%nat → is_u32 (cons_r s) → is_u32 w' →
  (Z.to_nat (u32 (w' - cons_r s)) ≤ 2048)%nat →
  cons_inv (mk_cons (cons_buf s) (cons_r s) w' w' ab 0).
Proof.
  intros Hb Ha Hr Hw Hn. assert (H0 : n_line (mk_cons (cons_buf s) (cons_r s) w' w' ab 0) = 0%nat).
  { unfold n_line. cbn [cons_e cons_w]. by rewrite Z.sub_diag. }
  split; cbn [cons_buf agent_buf cons_r cons_w cons_e agent_len]; rewrite ?H0; try done; try lia.
  - unfold n_avail. cbn [cons_w cons_r]. lia.
  - unfold cons_line. by rewrite H0.
  - unfold cons_line. rewrite H0. constructor.
Qed.

Lemma view_flush b r' w' ab :
  view (mk_cons b r' w' w' ab 0) = mk_screen (ring_seq INPUT_BUF_SIZE b r' (Z.to_nat (u32 (w' - r')))) [].
Proof.
  unfold view, cons_line, n_line. cbn [cons_e cons_w]. rewrite Z.sub_diag. done.
Qed.

Lemma strip_nl_spec l c :
  Forall (λ c, c ≠ 10 ∧ c ≠ 0) l → c ≠ 0 → Forall (λ c, c ≠ 0) (strip_nl (take 2047 (l ++ [c]))).
Proof.
  intros Hl Hc. assert (Hf : Forall (λ c, c ≠ 0) (take 2047 (l ++ [c]))).
  { apply Forall_take, Forall_app_2; [|by repeat constructor]. eapply Forall_impl; [exact Hl|]. intros x [_ Hx]. exact Hx. }
  unfold strip_nl. case_match; [|done]. rewrite removelast_firstn_len. by apply Forall_take.
Qed.

(** What [end_line] dispatches. *)
Lemma dispatch_string ab n l :
  length ab = 2048%nat → (n ≤ 2047)%nat → (0 < n)%nat → take n ab = l → Forall (λ c, c ≠ 0) (strip_nl l) →
  cstring (<[Z.to_nat (if nth (Z.to_nat (Z.of_nat n - 1)) ab 0 =? 10 then Z.of_nat n - 1 else Z.of_nat n) := 0]> ab)
    = strip_nl l.
Proof.
  intros Hab Hn Hn0 Ht Hnz.
  assert (Hk : ∀ k, (k ≤ 2047)%nat → <[k := 0]> ab = take k ab ++ [0] ++ drop (S k) ab).
  { intros k Hk. rewrite insert_take_drop by lia. done. }
  destruct n as [|n]; [lia|]. replace (Z.to_nat (Z.of_nat (S n) - 1)) with n by lia.
  destruct (lookup_lt_is_Some_2 ab n) as [x Hx]; [lia|].
  rewrite (take_S_r _ _ _ Hx) in Ht. rewrite (nth_lookup_Some _ _ _ _ Hx). subst l.
  assert (Hid : default 0 (last (take n ab ++ [x])) = x) by (by rewrite last_snoc).
  unfold strip_nl in *. rewrite Hid in *.
  destruct (Z.eqb_spec x 10).
  - rewrite removelast_snoc in *. cbv iota in *. replace (Z.to_nat (Z.of_nat (S n) - 1)) with n by lia.
    rewrite Hk by lia. by apply cstring_app_nul.
  - rewrite Nat2Z.id, Hk by lia. rewrite (take_S_r _ _ _ Hx). by apply cstring_app_nul.
Qed.

(** ** The handler refines the abstract console *)

Lemma dispatched_line s l c :
  Forall (λ c, c ≠ 10 ∧ c ≠ 0) l → c ≠ 0 → length (agent_buf s) = 2048%nat →
  agent_len s = Z.min 2047 (Z.of_nat (length (l ++ [c]))) →
  take (Z.to_nat (agent_len s)) (agent_buf s) = take 2047 (l ++ [c]) →
  cstring (<[Z.to_nat (if nth (Z.to_nat (agent_len s - 1)) (agent_buf s) 0 =? 10
                       then agent_len s - 1 else agent_len s) := 0]> (agent_buf s))
    = strip_nl (take 2047 (l ++ [c])).
Proof.
  intros Hl Hc Hab Hlen Ht. rewrite length_app in Hlen. cbn [length] in Hlen.
  pose proof (dispatch_string (agent_buf s) (Z.to_nat (agent_len s)) _ Hab ltac:(lia) ltac:(lia) Ht
    (strip_nl_spec l c Hl Hc)) as Hd.
  rewrite Z2Nat.id in Hd by lia. exact Hd.
Qed.

(** An ordinary character. *)
Lemma intr_store c s :
  cons_inv s → (n_avail s + n_line s < 2048)%nat → is_u8 c → c ≠ 0 →
  let s1 := store c s in
  let l := cons_line s ++ [c] in
  let req := is_req_line (take 2047 l) in
  echo c s1 = map Putc (if req && bool_decide (4 < length l)%nat && negb (c =? 10) then [] else [c]) ∧
  (if (c =? 10) || (c =? Ctrl 68) || (u32 (cons_e s1 - cons_r s1) =? INPUT_BUF_SIZE) then
     let '(s2, ev) := end_line s1 in
     cons_inv s2 ∧
     if req && bool_decide (4 < length l)%nat
     then view s2 = mk_screen (cons_avail s) [] ∧
          ∃ b, ev = [Dispatch b; WakeReader] ∧ cstring b = strip_nl (take 2047 l)
     else view s2 = mk_screen (cons_avail s ++ l) [] ∧ ev = [WakeReader]
   else cons_inv s1 ∧ view s1 = mk_screen (cons_avail s) l) ∧
  (u32 (cons_e s1 - cons_r s1) =? INPUT_BUF_SIZE) =
    bool_decide (length (cons_avail s) + length l = 2048)%nat.
Proof.
  intros Hi Hn Hc Hc0 s1 l req. destruct (store_spec c s Hi Hn Hc) as (H1 & H2 & H3 & H4 & H5 & H6 & H7 & H8 & H9 & H10).
  fold s1 in H1, H2, H3, H4, H5, H6, H7, H8, H9, H10. fold l in H8, H10.
  pose proof (ci_r _ Hi) as Hr. pose proof (ci_w _ Hi) as Hw. pose proof (ci_no_nl _ Hi) as Hnl.
  assert (Hll : length l = S (n_line s)) by (unfold l; rewrite length_app, length_cons_line; cbn; lia).
  assert (Her : u32 (cons_e s1 - cons_r s1) = Z.of_nat (n_avail s + S (n_line s))).
  { assert (Hna : n_avail s1 = n_avail s) by (unfold n_avail; by rewrite H3, H4).
    rewrite <- H6, <- Hna. rewrite <- H3 in Hr. rewrite <- H4 in Hw. clear -Hr Hw H5 H6 Hn Hna. u32_lia. }
  assert (Hsn : 4 ≤ agent_len s1 → sniff_req s1 = req).
  { intros H4'. rewrite sniff_req_spec by done. unfold req. by rewrite H10. }
  assert (Hfull : (u32 (cons_e s1 - cons_r s1) =? INPUT_BUF_SIZE) =
    bool_decide (length (cons_avail s) + length l = 2048)%nat).
  { rewrite Her, length_cons_avail, Hll. change INPUT_BUF_SIZE with 2048.
    destruct (Z.eqb_spec (Z.of_nat (n_avail s + S (n_line s))) 2048);
      [rewrite bool_decide_eq_true_2|rewrite bool_decide_eq_false_2]; lia. }
  assert (Hreq4 : req = true → (4 ≤ length l)%nat).
  { unfold req, is_req_line. intros [k Hk]%bool_decide_eq_true.
    apply (f_equal length) in Hk. rewrite length_take, length_app in Hk. change (length (bytes "REQ|")) with 4%nat in Hk. lia. }
  split_and!; [| |exact Hfull].
  - unfold echo. destruct (Z.leb_spec 4 (agent_len s1)) as [H4'|H4']; cbn [andb].
    + rewrite (Hsn H4'). destruct req; cbn [negb andb]; [|done].
      destruct (Z.leb_spec (agent_len s1) 4).
      * rewrite bool_decide_eq_false_2 by lia. done.
      * rewrite bool_decide_eq_true_2 by lia. cbn [orb andb]. by destruct (c =? 10).
    + cbn [negb]. destruct req; [|done]. specialize (Hreq4 eq_refl). lia.
  - destruct (_ || _) eqn:Hend.
    + unfold end_line. destruct (Z.ltb_spec 4 (agent_len s1)) as [H4'|H4']; cbn [andb].
      * rewrite Hsn by lia. rewrite (bool_decide_eq_true_2 (4 < length l)%nat) by lia.
        assert (Hnw : u32 (cons_w s1 - cons_r s1) = Z.of_nat (n_avail s)).
        { unfold n_avail. rewrite H3, H4, Z2Nat.id; [done|apply u32_range]. }
        destruct req; cbn [andb].
        -- split; [apply cons_inv_flush; try done; [by rewrite length_insert|by rewrite H3|by rewrite H4|rewrite Hnw; lia]|].
           split.
           ++ rewrite view_flush, Hnw, Nat2Z.id, <- H7. f_equal. unfold cons_avail, n_avail. by rewrite H3, H4.
           ++ eexists. split; [reflexivity|]. apply dispatched_line; try done.
              fold l. rewrite Hll. exact H9.
        -- split; [apply cons_inv_flush; try done; [by rewrite H3|rewrite Her; lia]|]. split; [|done].
           rewrite view_flush, Her, Nat2Z.id, ring_seq_app. f_equal. f_equal.
           ++ rewrite <- H7. unfold cons_avail, n_avail. by rewrite H3, H4.
           ++ rewrite <- H8. unfold cons_line. rewrite H6, H3. apply ring_seq_congr; [done|].
              rewrite H4. change INPUT_BUF_SIZE with 2048. by rewrite w_mod.
      * rewrite (bool_decide_eq_false_2 (4 < length l)%nat) by lia. rewrite andb_false_r.
        split; [apply cons_inv_flush; try done; [by rewrite H3|rewrite Her; lia]|]. split; [|done].
        rewrite view_flush, Her, Nat2Z.id, ring_seq_app. f_equal. f_equal.
        -- rewrite <- H7. unfold cons_avail, n_avail. by rewrite H3, H4.
        -- rewrite <- H8. unfold cons_line. rewrite H6, H3. apply ring_seq_congr; [done|].
           rewrite H4. change INPUT_BUF_SIZE with 2048. by rewrite w_mod.
    + apply orb_false_iff in Hend as [[Hc10 _]%orb_false_iff Hf]. apply Z.eqb_neq in Hc10, Hf.
      change INPUT_BUF_SIZE with 2048 in Hf.
      assert (Hna : n_avail s1 = n_avail s) by (unfold n_avail; by rewrite H3, H4).
      split; [|unfold view; by rewrite H7, H8]. split; try done; rewrite ?Hna, ?H6.
      * by rewrite H3. * by rewrite H4. * lia. * lia. * lia.
      * rewrite <- H6, H8. rewrite H9 in H10. replace (Z.to_nat (Z.min 2047 (Z.of_nat (S (n_line s))))) with (n_line s1) in H10 by lia.
        rewrite H10. apply take_ge. lia.
      * rewrite H8. apply Forall_app_2; [done|]. repeat constructor; done.
Qed.

Lemma intr_refines c s :
  cons_inv s → is_u8 c →
  let '(s', ev) := consoleintr c s in
  let '(a', ec, o) := screen_intr c (view s) in
  cons_inv s' ∧ view s' = a' ∧ effects_match ev ec o.
Proof.
  intros Hi Hc. unfold consoleintr, screen_intr. cbn [view avail line].
  destruct (c =? Ctrl 80); [done|]. destruct (c =? Ctrl 85).
  { pose proof (kill_line_spec s Hi) as Hk. fold (n_line s).
    destruct (kill_line (n_line s) s) as [s' ev]. destruct Hk as (Hk1 & Hk2 & ->).
    split_and!; [done|done|]. cbn. rewrite length_cons_line. symmetry. apply fmap_replicate. }
  destruct ((c =? Ctrl 72) || (c =? 127)).
  { destruct (Z.eqb_spec (cons_e s) (cons_w s)) as [He|He]; cbn [negb].
    - apply n_line_0 in He; [|done]. pose proof (length_cons_line s) as Hl. rewrite He in Hl.
      apply nil_length_inv in Hl. rewrite Hl. split_and!; [done|unfold view; by rewrite Hl|done].
    - assert (Hn : (0 < n_line s)%nat) by (pose proof (n_line_0 s Hi); lia).
      destruct (intr_backspace s Hi Hn) as [Hi' Hv]. pose proof (ci_mirror _ Hi) as Hm.
      cbn [set_e agent_len]. rewrite (proj2 (Z.ltb_lt 0 (agent_len s))) by lia.
      pose proof (length_cons_line s) as Hl. destruct (cons_line s) as [|x l] eqn:Hcl; [cbn in Hl; lia|].
      split_and!; [exact Hi'|exact Hv|done]. }
  rewrite length_cons_avail, length_cons_line, (e_sub_r s Hi). change INPUT_BUF_SIZE with 2048.
  destruct (Z.eqb_spec c 0) as [->|Hc0]; cbn [negb andb orb]; [done|].
  destruct (Z.ltb_spec (Z.of_nat (n_avail s + n_line s)) 2048) as [Hn|Hn].
  2:{ rewrite bool_decide_eq_true_2 by lia. done. }
  rewrite bool_decide_eq_false_2 by lia. set (c' := if c =? 13 then 10 else c).
  assert (Hc' : is_u8 c' ∧ c' ≠ 0) by (unfold c', is_u8 in *; bcase; lia). destruct Hc' as [Hc' Hc0'].
  destruct (intr_store c' s Hi ltac:(lia) Hc' Hc0') as (He & Hs & Hf). change INPUT_BUF_SIZE with 2048 in *.
  rewrite He. rewrite <- (length_cons_avail s). rewrite <- Hf. destruct (_ || _).
  - destruct (end_line (store c' s)) as [s2 ev2]. destruct Hs as [Hi2 Hs]. destruct (_ && bool_decide _).
    + destruct Hs as [Hv (b & -> & Hb)]. split_and!; [done|done|]. exists b. by split.
    + destruct Hs as [Hv ->]. done.
  - destruct Hs as [Hi2 Hv]. done.
Qed.

(** C14: The interrupt handler implements the abstract console: whatever is typed,
    the ring, the three wrapping indices and the sniffer's mirror buffer stay
    consistent, and readable bytes, edited line, echo and dispatched agent
    line are those of [screen_intr]. *)
Theorem console_refines c s :
  cons_inv s → is_u8 c →
  let '(s', ev) := consoleintr c s in
  let '(a', ec, o) := screen_intr c (view s) in
  cons_inv s' ∧ view s' = a' ∧ effects_match ev ec o.
Proof. apply intr_refines. Qed.

(** ** Whole lines *)

Fixpoint type_chars (l : list Z) (s : cons) : cons * list effect :=
  match l with
  | [] => (s, [])
  | c :: l' =>
      let '(s, ev) := consoleintr c s in
      let '(s, ev') := type_chars l' s in (s, ev ++ ev')
  end.

(** Neither an editing key nor the end of a line. *)
Definition ordinary (c : Z) : Prop :=
  is_u8 c ∧ c ∉ [0; Ctrl 80; Ctrl 85; Ctrl 72; 127; Ctrl 68; 10; 13].

(** What is echoed of [l] typed after [pre]. *)
Fixpoint echo_of (pre l : list Z) : list Z :=
  match l with
  | [] => []
  | c :: l' =>
      (if is_req_line (pre ++ [c]) && bool_decide (4 < length (pre ++ [c]))%nat then [] else [c])
      ++ echo_of (pre ++ [c]) l'
  end.

Lemma screen_intr_ordinary c a :
  ordinary c → (length (avail a) + length (line a) < 2047)%nat →
  screen_intr c a =
    (mk_screen (avail a) (line a ++ [c]),
     if is_req_line (line a ++ [c]) && bool_decide (4 < length (line a ++ [c]))%nat then [] else [c], Nothing).
Proof.
  intros [Hc Hn] Hlen. unfold screen_intr.
  assert (Hl : length (line a ++ [c]) = S (length (line a))) by (rewrite length_app; cbn; lia).
  destruct (Z.eqb_spec c (Ctrl 80)) as [->|_]; [by destruct Hn; repeat constructor|].
  destruct (Z.eqb_spec c (Ctrl 85)) as [->|_]; [by destruct Hn; repeat constructor|].
  destruct (Z.eqb_spec c (Ctrl 72)) as [->|_]; [by destruct Hn; repeat constructor|].
  destruct (Z.eqb_spec c 127) as [->|_]; [by destruct Hn; repeat constructor|].
  destruct (Z.eqb_spec c 0) as [->|_]; [by destruct Hn; repeat constructor|]. cbn [orb].
  rewrite bool_decide_eq_false_2 by lia.
  destruct (Z.eqb_spec c 13) as [->|_]; [by destruct Hn; repeat constructor|].
  destruct (Z.eqb_spec c 10) as [->|_]; [by destruct Hn; repeat constructor|].
  destruct (Z.eqb_spec c (Ctrl 68)) as [->|_]; [by destruct Hn; repeat constructor|]. cbn [orb negb].
  rewrite take_ge by lia.
  rewrite (bool_decide_eq_false_2 (_ + _ = 2048)%nat) by lia. rewrite andb_true_r. done.
Qed.

Lemma type_ordinary l s :
  cons_inv s → Forall ordinary l →
  (length (cons_avail s) + length (cons_line s) + length l < 2048)%nat →
  let '(s', ev) := type_chars l s in
  cons_inv s' ∧ view s' = mk_screen (cons_avail s) (cons_line s ++ l) ∧
  ev = map Putc (echo_of (cons_line s) l).
Proof.
  revert s. induction l as [|c l IH]; intros s Hi Hl Hlen; cbn [type_chars].
  { split_and!; [done| |done]. unfold view. by rewrite app_nil_r. }
  apply Forall_cons in Hl as [Hc Hl]. cbn [length] in Hlen.
  pose proof (intr_refines c s Hi (proj1 Hc)) as Hr.
  rewrite screen_intr_ordinary in Hr by (done || (cbn [view avail line]; lia)).
  destruct (consoleintr c s) as [s1 ev1]. destruct Hr as (Hi1 & Hv1 & Hev1). cbn [view avail line] in *.
  assert (Ha1 : cons_avail s1 = cons_avail s) by (by apply (f_equal avail) in Hv1).
  assert (Hl1 : cons_line s1 = cons_line s ++ [c]) by (by apply (f_equal line) in Hv1).
  specialize (IH s1 Hi1 Hl). rewrite Ha1, Hl1, length_app in IH. cbn [length] in IH. specialize (IH ltac:(lia)).
  destruct (type_chars l s1) as [s2 ev2]. destruct IH as (Hi2 & Hv2 & ->).
  split_and!; [done|by rewrite Hv2, <- app_assoc|]. cbn [echo_of]. rewrite map_app. f_equal. exact Hev1.
Qed.

Lemma is_req_line_app l k : is_req_line l = true → is_req_line (l ++ k) = true.
Proof.
  unfold is_req_line. intros [m Hm]%bool_decide_eq_true. apply bool_decide_eq_true. exists (m ++ k).
  by rewrite Hm, app_assoc.
Qed.

Lemma is_req_line_snoc_nl l : is_req_line (l ++ [10]) = is_req_line l.
Proof.
  destruct (is_req_line l) eqn:Hl; [by apply is_req_line_app|].
  unfold is_req_line in *. apply bool_decide_eq_false in Hl. apply bool_decide_eq_false.
  intros [k Hk]. destruct k as [|x k _] using rev_ind.
  - rewrite app_nil_r in Hk. change (bytes "REQ|") with ([82; 69; 81] ++ [124]) in Hk.
    apply app_inj_tail in Hk as [_ ?]. done.
  - rewrite app_assoc in Hk. apply app_inj_tail in Hk as [-> _]. apply Hl. by eexists.
Qed.

Lemma echo_plain pre l : is_req_line (pre ++ l) = false → echo_of pre l = l.
Proof.
  revert pre. induction l as [|c l IH]; intros pre Hp; [done|]. cbn [echo_of].
  assert (Hpc : is_req_line (pre ++ [c]) = false).
  { destruct (is_req_line (pre ++ [c])) eqn:Hr; [|done].
    apply (is_req_line_app _ l) in Hr. rewrite <- app_assoc in Hr. cbn [app] in Hr. congruence. }
  rewrite Hpc. cbn [andb app]. f_equal. apply IH. by rewrite <- app_assoc.
Qed.


Lemma type_chars_app l k s :
  type_chars (l ++ k) s =
  let '(s1, ev1) := type_chars l s in let '(s2, ev2) := type_chars k s1 in (s2, ev1 ++ ev2).
Proof.
  revert s. induction l as [|c l IH]; intros s; cbn [app type_chars].
  { by destruct (type_chars k s). }
  destruct (consoleintr c s) as [s1 ev1]. rewrite IH. destruct (type_chars l s1) as [s2 ev2].
  destruct (type_chars k s2) as [s3 ev3]. by rewrite app_assoc.
Qed.

Lemma screen_intr_nl av l :
  (length av + length l < 2047)%nat →
  screen_intr 10 (mk_screen av l) =
    if is_req_line (l ++ [10]) && bool_decide (4 < length (l ++ [10%Z]))%nat
    then (mk_screen av [], [10], ToAgent (strip_nl (l ++ [10])))
    else (mk_screen (av ++ l ++ [10]) [], [10], LineReady).
Proof.
  intros Hlen. unfold screen_intr. cbn [avail line].
  change (10 =? Ctrl 80) with false. change (10 =? Ctrl 85) with false.
  change ((10 =? Ctrl 72) || (10 =? 127)) with false. change (10 =? 0) with false. cbn [orb].
  rewrite bool_decide_eq_false_2 by lia. change (10 =? 13) with false. change (10 =? 10) with true.
  cbn [orb negb]. rewrite andb_false_r, take_ge by (rewrite length_app; cbn [length]; lia).
  by destruct (_ && _).
Qed.


(** ** Reading a line *)

Lemma read_char s c l :
  cons_inv s → cons_avail s = c :: l →
  cons_r s ≠ cons_w s ∧ ring_get INPUT_BUF_SIZE (cons_buf s) (cons_r s) = c ∧
  cons_inv (set_r (u32 (cons_r s + 1)) s) ∧
  view (set_r (u32 (cons_r s + 1)) s) = mk_screen l (cons_line s).
Proof.
  intros Hi Hc. pose proof (length_cons_avail s) as Hn. rewrite Hc in Hn. cbn [length] in Hn.
  destruct Hi as [H1 H2 H3 H4 H5 H6 H7 H8 H9 H10].
  set (s' := set_r (u32 (cons_r s + 1)) s).
  assert (Hn' : n_avail s = S (n_avail s')) by (unfold s', set_r; clear -Hn H3 H4; u32_lia).
  assert (Ha : cons_avail s' = l).
  { unfold cons_avail in Hc. rewrite Hn', ring_seq_S in Hc. injection Hc as _ <-.
    unfold cons_avail. apply ring_seq_congr; [done|]. unfold s'. cbn [set_r cons_r].
    change INPUT_BUF_SIZE with 2048. apply mod_2048. }
  split_and!.
  - intros Heq. unfold n_avail in Hn. by rewrite Heq, Z.sub_diag in Hn.
  - unfold cons_avail in Hc. rewrite Hn', ring_seq_S in Hc. by injection Hc.
  - assert (Hl' : n_line s' = n_line s) by done.
    split; rewrite ?Hl'; try done; [apply u32_range|lia|lia].
  - unfold view. by rewrite Ha.
Qed.

(** A reader with room for a whole line gets it, newline included. *)
Lemma read_loop_line l : ∀ fuel killed target n dst s rest,
  cons_inv s → cons_avail s = l ++ 10 :: rest → Forall (λ c, c ≠ 10 ∧ c ≠ Ctrl 68) l →
  Z.of_nat (length l) < n → (length l < fuel)%nat →
  ∃ s', read_loop fuel killed (λ _, true) target n dst s =
      (Returned (s32 (target - (n - Z.of_nat (length l) - 1))), l ++ [10], s') ∧
    cons_inv s' ∧ view s' = mk_screen rest (cons_line s).
Proof.
  induction l as [|c l IH]; intros fuel killed target n dst s rest Hi Ha Hl Hn Hf;
    (destruct fuel as [|fuel]; [cbn in Hf; lia|]); cbn [app length] in *.
  - destruct (read_char s 10 rest Hi Ha) as (Hne & Hg & Hi' & Hv'). cbn [read_loop].
    rewrite (proj2 (Z.leb_gt n 0)) by lia. rewrite (proj2 (Z.eqb_neq _ _) Hne), Hg.
    change (10 =? Ctrl 68) with false. change (10 =? 10) with true. cbn [negb].
    eexists. split_and!; [|exact Hi'|exact Hv'].
    by replace (n - Z.of_nat 0 - 1) with (n - 1) by lia.
  - apply Forall_cons in Hl as [[Hc1 Hc2] Hl].
    destruct (read_char s c _ Hi Ha) as (Hne & Hg & Hi' & Hv'). cbn [read_loop].
    rewrite (proj2 (Z.leb_gt n 0)) by lia. rewrite (proj2 (Z.eqb_neq _ _) Hne), Hg.
    rewrite (proj2 (Z.eqb_neq _ _) Hc1), (proj2 (Z.eqb_neq _ _) Hc2). cbn [negb].
    destruct (IH fuel killed target (n - 1) (u64 (dst + 1)) (set_r (u32 (cons_r s + 1)) s) rest) as (s' & Hs' & Hi2 & Hv2);
      [done|by apply (f_equal avail) in Hv'|done|lia|lia|].
    rewrite Hs'. exists s'. split_and!; [|done|by rewrite Hv2].
    by replace (n - 1 - Z.of_nat (length l) - 1) with (n - Z.of_nat (S (length l)) - 1) by lia.
Qed.

(** Any other line reaches the shell: it is echoed as typed, a reader is woken,
    and a console read with room for it returns exactly the line and its newline, in
    order, and leaves the console empty. *)
Theorem plain_line_delivered s l n dst killed :
  cons_inv s → view s = mk_screen [] [] → Forall ordinary l → is_req_line l = false →
  (length l < 2047)%nat → Z.of_nat (length l) < n < 2 ^ 31 →
  let '(s1, ev) := type_chars (l ++ [10]) s in
  ev = map Putc (l ++ [10]) ++ [WakeReader] ∧
  ∃ s2, consoleread killed (λ _, true) dst n s1 =
      (Returned (Z.of_nat (length l) + 1), l ++ [10], s2) ∧
    cons_inv s2 ∧ view s2 = mk_screen [] [].
Proof.
  intros Hi Hv Hl Hreq Hlen Hn. rewrite (type_chars_app l [10] s).
  assert (Ha0 : cons_avail s = []) by (by apply (f_equal avail) in Hv).
  assert (Hl0 : cons_line s = []) by (by apply (f_equal line) in Hv).
  pose proof (type_ordinary l s Hi Hl ltac:(rewrite Ha0, Hl0; cbn; lia)) as Ht. rewrite Ha0, Hl0 in Ht.
  destruct (type_chars l s) as [s1 ev1]. destruct Ht as (Hi1 & Hv1 & ->). cbn [app] in Hv1.
  pose proof (intr_refines 10 s1 Hi1 ltac:(split; lia)) as Hr. rewrite Hv1 in Hr.
  rewrite screen_intr_nl, is_req_line_snoc_nl, Hreq in Hr by (cbn; lia). cbn [andb app] in Hr.
  cbn [type_chars]. destruct (consoleintr 10 s1) as [s2 ev2]. destruct Hr as (Hi2 & Hv2 & ->).
  rewrite (echo_plain [] l) by done. split; [rewrite app_nil_r, map_app, <- app_assoc; done|].
  assert (Ha2 : cons_avail s2 = l ++ [10]) by (by apply (f_equal avail) in Hv2).
  assert (Hl2 : cons_line s2 = []) by (by apply (f_equal line) in Hv2).
  assert (Hnl : Forall (λ c, c ≠ 10 ∧ c ≠ Ctrl 68) l).
  { eapply Forall_impl; [exact Hl|]. intros x [_ Hx]. split; intros ->; apply Hx; repeat constructor. }
  destruct (read_loop_line l (S (Z.to_nat n)) killed (u32 n) n dst s2 [] Hi2 Ha2 Hnl ltac:(lia) ltac:(lia))
    as (s3 & Hs3 & Hi3 & Hv3).
  exists s3. unfold consoleread. rewrite Hs3, u32_id by (split; lia). rewrite Hl2 in Hv3.
  split_and!; [|done|done]. repeat f_equal. rewrite s32_id by lia. lia.
Qed.

(** With nothing to read a live reader waits and a killed one returns -1. *)
Lemma read_empty killed ok dst n s :
  cons_inv s → cons_avail s = [] → 0 < n →
  consoleread killed ok dst n s = (if killed then Returned (-1) else Blocked n dst, [], s).
Proof.
  intros Hi Ha Hn. unfold consoleread. cbn [read_loop]. rewrite (proj2 (Z.leb_gt n 0)) by lia.
  assert (Hrw : cons_r s = cons_w s).
  { pose proof (length_cons_avail s) as Hl. rewrite Ha in Hl. cbn [length] in Hl.
    destruct Hi as [_ _ Hr Hw _ _ _ _ _ _]. clear -Hl Hr Hw. u32_lia. }
  rewrite Hrw, Z.eqb_refl. by destruct killed.
Qed.

(** ** Console writes *)

Lemma write_loop_all (src : list Z) k : ∀ i,
  0 ≤ i → Z.of_nat (length src) ≤ i + 32 * Z.of_nat k →
  write_loop (S k) (λ off len, Some (sub (Z.to_nat off) (Z.to_nat len) src)) i (Z.of_nat (length src)) =
    (Z.max i (Z.of_nat (length src)), drop (Z.to_nat i) src).
Proof.
  induction k as [|k IH]; intros i Hi Hk; cbn [write_loop].
  { destruct (Z.ltb_spec i (Z.of_nat (length src))); [lia|]. rewrite drop_ge by lia.
    rewrite Z.max_l by lia. done. }
  destruct (Z.ltb_spec i (Z.of_nat (length src))) as [Hlt|Hge].
  2:{ rewrite drop_ge, Z.max_l by lia. done. }
  set (nn := if _ <? 32 then _ else 32).
  assert (Hnn : nn = Z.min 32 (Z.of_nat (length src) - i)) by (unfold nn; bcase; lia).
  fold (write_loop (S k)). specialize (IH (i + nn) ltac:(lia) ltac:(lia)). cbn [write_loop] in IH |- *.
  rewrite IH. f_equal; [lia|]. unfold sub. replace (Z.to_nat (i + nn)) with (Z.to_nat i + Z.to_nat nn)%nat by lia.
  rewrite <- drop_drop. apply take_drop.
Qed.

(** A console write whose source is readable sends all of it, in order. *)
Lemma consolewrite_all src :
  consolewrite (λ off len, Some (sub (Z.to_nat off) (Z.to_nat len) src)) (Z.of_nat (length src)) =
    (Z.of_nat (length src), src).
Proof.
  unfold consolewrite. rewrite Nat2Z.id, write_loop_all by lia. f_equal. lia.
Qed.

(** ** Concrete lines *)

Lemma consoleinit_inv : cons_inv consoleinit.
Proof. apply (cons_inv_flush consoleinit 0); [done|done|done|done|vm_compute; lia]. Qed.

Lemma console_refines_witness : cons_inv (consoleintr 65 consoleinit).1.
Proof.
  pose proof (console_refines 65 consoleinit consoleinit_inv ltac:(split; lia)) as H.
  assert (Hs : screen_intr 65 (view consoleinit) = (mk_screen [] [65], [65], Nothing)) by by vm_compute.
  rewrite Hs in H. destruct (consoleintr 65 consoleinit) as [s ev]. exact (proj1 H).
Defined.


Lemma plain_line_delivered_witness :
  ∃ s1 ev s2, type_chars (bytes "ls" ++ [10]) consoleinit = (s1, ev) ∧
    consoleread false (λ _, true) 0 128 s1 = (Returned 3, bytes "ls" ++ [10], s2).
Proof.
  assert (Ho : Forall ordinary (bytes "ls")).
  { repeat constructor; try (cbn; lia); apply (bool_decide_unpack _); by vm_compute. }
  pose proof (plain_line_delivered consoleinit (bytes "ls") 128 0 false consoleinit_inv eq_refl Ho eq_refl) as H.
  specialize (H ltac:(apply Nat.ltb_lt; by vm_compute) ltac:(split; [reflexivity|lia])).
  destruct (type_chars (bytes "ls" ++ [10]) consoleinit) as [s1 ev].
  destruct H as (_ & s2 & H2 & _). exists s1, ev, s2. split; [reflexivity|exact H2].
Defined.
