(* ===== verification/Kernel.v ===== *)
(** * The kernel state: how the components are put together

    [kernel] holds the state of proc.c, of agentcmd.c (with the cache, the
    confirm slot and the console output in it) and of console.c.  The wakeups that
    agentcmd.c makes on the processes are here, as are the effects of
    console.c's interrupt handler. *)

From S2P Require Import Prelude CString Ring Printf Proc Cache Confirm AgentCmd Console.

Local Open Scope Z_scope.

(** The registers of a trapframe the kernel code names. *)
Inductive tfreg :=
  | Arg (n : Z) | A7 | EPC | KernelSatp | KernelSp | KernelTrap | KernelHartid.

#[export] Instance tfreg_eq_dec : EqDecision tfreg.
Proof. solve_decision. Defined.

(** What the system call and trap code uses beyond [ProcEnv]: the trapframe
    pages, vm.c's [copyinstr] and [vmfault], and the addresses of two channels. *)
Class SysEnv (E : Type) `{ProcEnv E} := {
  tf_get : Z → tfreg → E → Z;
  tf_put : Z → tfreg → Z → E → E;
  copyinstr : Z → Z → Z → E → option (list Z);
  vmfault : Z → Z → Z → Z → E → Z * E;
  agentq_addr : Z;
  cons_r_addr : Z;
}.

(** A register keeps what is stored in it. *)
Class SysEnvLaws (E : Type) `{SysEnv E} := {
  tf_get_put tf reg v e : tf_get tf reg (tf_put tf reg v e) = v;
  tf_get_put_ne tf reg reg' v e : reg ≠ reg' → tf_get tf reg' (tf_put tf reg v e) = tf_get tf reg' e;
}.

Record kernel (E C : Type) := mk_kernel {
  kproc : Proc.state E;
  kagent : AgentCmd.state C;
  kcons : cons;
}.
Arguments mk_kernel {E C}.
Arguments kproc {E C}.
Arguments kagent {E C}.
Arguments kcons {E C}.

(** How a system call leaves: with a value for a0, asleep, or never. *)
Inductive sysret := Ret (v : Z) | Sleeps | Exited.

Section kernel.
Context `{SysEnv E} `{LLMCache C}.
Implicit Types k : kernel E C.

Definition set_kproc (s : Proc.state E) k : kernel E C := mk_kernel s (kagent k) (kcons k).
Definition set_kagent (a : AgentCmd.state C) k : kernel E C := mk_kernel (kproc k) a (kcons k).
Definition set_kcons (c : cons) k : kernel E C := mk_kernel (kproc k) (kagent k) c.

(** Console output: [uartputc_sync] of each byte. *)
Definition kprint (l : list Z) k : kernel E C := set_kagent (print l (kagent k)) k.

(** The current process, its trapframe registers and memory. *)
Definition cur (me : nat) k : procrec := pget me (kproc k).
Definition reg (me : nat) (x : tfreg) k : Z := tf_get (trapframe (cur me k)) x (Proc.env (kproc k)).
Definition set_reg (me : nat) (x : tfreg) (v : Z) k : kernel E C :=
  set_kproc (set_env (tf_put (trapframe (cur me k)) x v (Proc.env (kproc k))) (kproc k)) k.

Definition kcopyin (me : nat) (addr len : Z) k : option (list Z) :=
  copyin (pagetable (cur me k)) addr len (Proc.env (kproc k)).
Definition kcopyout (me : nat) (addr : Z) (l : list Z) k : Z * kernel E C :=
  let '(r, e) := copyout (pagetable (cur me k)) addr l (Proc.env (kproc k)) in
  (r, set_kproc (set_env e (kproc k)) k).

(** A call into agentcmd.c: [forward_to_agentd] ends with [wakeup(&agentq)], and
    no call queues as many as 16 lines, so the write index tells. *)
Definition agent_call (me : option nat) (f : AgentCmd.state C → AgentCmd.state C) k : kernel E C :=
  let a := f (kagent k) in
  let s := if wq_w (agentq a) =? wq_w (agentq (kagent k)) then kproc k
           else Proc.wakeup (ChanObj agentq_addr) me (kproc k) in
  mk_kernel s a (kcons k).

(** One effect of [consoleintr]. *)
Definition run_effect (me : option nat) k (x : effect) : kernel E C :=
  match x with
  | Putc c => kprint (consputc c) k
  | Procdump => kprint (procdump (kproc k)) k
  | Dispatch line => agent_call me (agent_dispatch line) k
  | WakeReader => set_kproc (Proc.wakeup (ChanObj cons_r_addr) me (kproc k)) k
  end.

(** A character from the UART, on a CPU where [me] runs. *)
Definition kconsoleintr (me : option nat) (c : Z) k : kernel E C :=
  let '(s, ev) := consoleintr c (kcons k) in
  fold_left (run_effect me) ev (set_kcons s k).

(** [consoleread] in process [me]: when it must wait it drains the agent queue
    and, with still nothing to read, sleeps. *)
Definition kconsoleread (me : nat) (copy_ok : Z → bool) (dst n : Z) k : sysret * list Z * kernel E C :=
  let '(res, l, c) := consoleread (is_killed me (kproc k)) copy_ok dst n (kcons k) in
  let k := set_kcons c k in
  match res with
  | Returned v => (Ret v, l, k)
  | Blocked _ _ =>
      let k := agent_call (Some me) agent_drain k in
      (Sleeps, l, set_kproc (Proc.sleep (ChanObj cons_r_addr) me (kproc k)) k)
  end.

(** ** What these do *)

(** A REQ line other than a confirm answer waits for a process to drain it: the
    interrupt handler itself touches neither the process table nor agentd's queue. *)
Lemma agent_call_quiet me f k :
  wq_w (agentq (f (kagent k))) = wq_w (agentq (kagent k)) → kproc (agent_call me f k) = kproc k.
Proof. intros Hq. unfold agent_call. by rewrite Hq, Z.eqb_refl. Qed.

Lemma dispatch_agentq line (a : AgentCmd.state C) : agentq (agent_dispatch line a) = agentq a.
Proof.
  unfold agent_dispatch. assert (Hc : agentq (try_inline_confirm_res line a).1 = agentq a).
  { unfold try_inline_confirm_res. destruct (is_req line); [|done]. cbn [negb].
    destruct (skip_role _) as [cmd|]; [|done]. destruct (str_starts cmd _); [|done]. cbn [negb].
    destruct (parse_num _ _) as [pid p]. by destruct (_ || _). }
  destruct (try_inline_confirm_res line a) as [a' r]. cbn [fst] in Hc. by destruct (negb (r =? 0)).
Qed.

Lemma run_effect_table me k x :
  procs (kproc (run_effect me k x)) =
  match x with
  | WakeReader => procs (Proc.wakeup (ChanObj cons_r_addr) me (kproc k))
  | _ => procs (kproc k)
  end.
Proof.
  destruct x as [c| |line|]; try done. cbn [run_effect].
  by rewrite agent_call_quiet by by rewrite dispatch_agentq.
Qed.
End kernel.

(** ** A concrete environment: the pages of [simple_env] and trapframe registers *)

Record mem_env := mk_mem { me_next : Z; me_regs : Z → tfreg → Z }.

Definition me_lift (f : Z → Z) (e : mem_env) : mem_env := mk_mem (f (me_next e)) (me_regs e).
Definition me_lift2 (f : Z → Z * Z) (e : mem_env) : Z * mem_env :=
  ((f (me_next e)).1, mk_mem (f (me_next e)).2 (me_regs e)).

Definition me_put (tf : Z) (x : tfreg) (v : Z) (e : mem_env) : mem_env :=
  mk_mem (me_next e)
    (λ tf' x', if decide (tf' = tf ∧ x' = x) then v else me_regs e tf' x').

#[export] Instance mem_proc_env : ProcEnv mem_env := {|
  kalloc := me_lift2 (λ e, kalloc e);
  kfree a := me_lift (kfree a);
  uvmcreate := me_lift2 (λ e, uvmcreate e);
  mappages pt va n pa perm := me_lift2 (mappages pt va n pa perm);
  uvmunmap pt va n f := me_lift (uvmunmap pt va n f);
  uvmfree pt n := me_lift (uvmfree pt n);
  uvmcopy old new n := me_lift2 (uvmcopy old new n);
  uvmalloc pt o n x := me_lift2 (uvmalloc pt o n x);
  uvmdealloc pt o n := me_lift2 (uvmdealloc pt o n);
  copyout pt va l := me_lift2 (copyout pt va l);
  copyin pt va n e := copyin pt va n (me_next e);
  kmemmove d l := me_lift (kmemmove d l);
  kmemread a n e := kmemread a n (me_next e);
  tf_copy dst src e := mk_mem (me_next e)
    (λ tf x, if decide (tf = dst) then me_regs e src x else me_regs e tf x);
  tf_set_a0 tf v e := me_put tf (Arg 0) v e;
  filedup f := me_lift2 (filedup f);
  fileclose f := me_lift (fileclose f);
  idup x := me_lift2 (idup x);
  iput x := me_lift (iput x);
  begin_op := me_lift begin_op;
  end_op := me_lift end_op;
  namei_root := me_lift2 (λ e, namei_root e);
  Proc.trampoline := PGSIZE;
  Proc.forkret := 2 * PGSIZE;
|}.

#[export] Instance mem_sys_env : SysEnv mem_env := {|
  tf_get tf x e := me_regs e tf x;
  tf_put := me_put;
  copyinstr _ _ _ _ := Some [0];
  vmfault _ _ va _ e := (if va <? PGSIZE then 0 else va, e);
  agentq_addr := 3 * PGSIZE;
  cons_r_addr := 4 * PGSIZE;
|}.

#[export] Instance mem_sys_env_laws : SysEnvLaws mem_env.
Proof.
  split; intros; cbn [tf_get tf_put mem_sys_env me_put me_regs].
  - by rewrite decide_True.
  - rewrite decide_False; [done|]. intros [_ Hx]. by subst.
Qed.

(** After boot: init runs, with the registers [regs] of its trapframe. *)
Definition boot_kernel (regs : tfreg → Z) : kernel mem_env (Cache.state ram_file) :=
  let s := match userinit (procinit (mk_mem 0 (λ _, regs))) with Ok s => s | Prelude.Panic => procinit (mk_mem 0 (λ _, regs)) end in
  mk_kernel (upd (set_st RUNNING) 0 s) agent_boot consoleinit.

(** The same with init made a jailed user-class agent. *)
Definition agent_kernel (regs : tfreg → Z) : kernel mem_env (Cache.state ram_file) :=
  set_kproc (upd (λ p, set_priority 10 (set_jail 1 77 p)) 0 (kproc (boot_kernel regs))) (boot_kernel regs).
