(* ===== verification/Sysproc.v ===== *)
(** * kernel/sysproc.c: the process, agent and cache system calls

    Each handler takes the index of the current process and the kernel state and
    gives how it leaves and the new state; [Panic] is a kernel panic.  A handler
    that sleeps is resumed at the loop around [sleep], which is its own
    definition.  The buffers on the kernel stack start as zeroes. *)

From S2P Require Import Prelude CString Ring Printf Proc Cache Confirm AgentCmd Console Kernel.

Local Open Scope Z_scope.

Definition SBRK_EAGER : Z := 1.
Definition DENY_ADD : Z := 0.
Definition DENY_REMOVE : Z := 1.
Definition DENY_RESET : Z := 2.
Definition DENY_CLEAR : Z := 3.
Definition MAX_KEY_LEN : Z := 1024.
Definition MAX_VAL_LEN : Z := 256.
Definition MAX_DISPATCH_LEN : Z := 1024.
#[global] Arguments MAX_KEY_LEN : simpl never.
#[global] Arguments MAX_DISPATCH_LEN : simpl never.

(** [enum procstate] as an [int]. *)
Definition state_num (x : procstate) : Z :=
  match x with
  | UNUSED => 0 | USED => 1 | SLEEPING => 2 | RUNNABLE => 3 | RUNNING => 4 | ZOMBIE => 5
  end.

(** [struct procinfo] of one entry, as bytes. *)
Definition procinfo_bytes (p : procrec) : list Z :=
  le_encode 4 (u32 (pid p)) ++ le_encode 4 (u32 (state_num (st p))) ++ le_encode 4 (u32 (priority p)) ++
  le_encode 4 (u32 (is_agent p)) ++ safestrcpy (replicate 16 0) (name p) 16.

Definition sizeof_procinfo : Z := 32.

Section sysproc.
Context `{SysEnv E} `{LLMCache C}.
Implicit Types k : kernel E C.

(** ** Arguments (syscall.c) *)

Definition argraw (me : nat) (n : Z) k : Prelude.outcome Z :=
  if (0 <=? n) && (n <=? 5) then Ok (reg me (Arg n) k) else Panic.

Definition argint (me : nat) (n : Z) k : Prelude.outcome Z := x ← argraw me n k; Ok (s32 x).

Definition argaddr (me : nat) (n : Z) k : Prelude.outcome Z := argraw me n k.

(** [fetchaddr]: -1 or 0 with the word. *)
Definition fetchaddr (me : nat) (addr : Z) k : option Z :=
  let p := cur me k in
  if (sz p <=? addr) || (sz p <? u64 (addr + 8)) then None
  else le_decode <$> kcopyin me addr 8 k.

(** [fetchstr] and [argstr]: [None] is the result -1. *)
Definition fetchstr (me : nat) (addr max : Z) k : option (list Z) :=
  copyinstr (pagetable (cur me k)) addr max (Proc.env (kproc k)).

Definition argstr (me : nat) (n max : Z) k : Prelude.outcome (option (list Z)) :=
  addr ← argaddr me n k; Ok (fetchstr me addr max k).

(** ** Processes *)

Notation handler := (kernel E C → Prelude.outcome (sysret * kernel E C)).

Definition sys_exit (me : nat) : handler := λ k,
  n ← argint me 0 k; s ← kexit me n (kproc k); Ok (Exited, set_kproc s k).

Definition sys_getpid (me : nat) : handler := λ k, Ok (Ret (pid (cur me k)), k).

Definition sys_fork (me : nat) : handler := λ k,
  let '(r, s) := kfork me (kproc k) in Ok (Ret r, set_kproc s k).

Definition sys_wait (me : nat) : handler := λ k,
  p ← argaddr me 0 k;
  match kwait me p (kproc k) with
  | (Some r, s) => Ok (Ret r, set_kproc s k)
  | (None, s) => Ok (Sleeps, set_kproc s k)
  end.

Definition sys_sbrk (me : nat) : handler := λ k,
  n ← argint me 0 k; t ← argint me 1 k;
  let addr := sz (cur me k) in
  if (t =? SBRK_EAGER) || (n <? 0) then
    let '(r, s) := growproc me n (kproc k) in
    Ok (Ret (if r <? 0 then -1 else addr), set_kproc s k)
  else if u64 (addr + n) <? addr then Ok (Ret (-1), k)
  else if TRAPFRAME <? u64 (addr + n) then Ok (Ret (-1), k)
  else
    Ok (Ret addr, set_kproc (upd (λ p, set_mem (u64 (sz p + n)) (pagetable p) (trapframe p) p) me (kproc k)) k).

(** The loop of [sys_pause]; [ticks - ticks0 < n] is an unsigned comparison. *)
Definition pause_test (me : nat) (ticks0 n : Z) : handler := λ k,
  if u32 (Proc.ticks (kproc k) - ticks0) <? u32 n then
    if is_killed me (kproc k) then Ok (Ret (-1), k)
    else Ok (Sleeps, set_kproc (Proc.sleep ChanTicks me (kproc k)) k)
  else Ok (Ret 0, k).

Definition sys_pause (me : nat) : handler := λ k,
  n ← argint me 0 k;
  pause_test me (Proc.ticks (kproc k)) (if n <? 0 then 0 else n) k.

Definition sys_kill (me : nat) : handler := λ k,
  pid ← argint me 0 k;
  let '(r, s) := kkill pid (kproc k) in Ok (Ret r, set_kproc s k).

Definition sys_uptime : handler := λ k, Ok (Ret (Proc.ticks (kproc k)), k).

(** The scan is [find_pid]: the first entry with the pid, whatever its state. *)
Definition sys_setpriority (me : nat) : handler := λ k,
  target ← argint me 0 k; prio ← argint me 1 k;
  let p := cur me k in
  if (prio <? -20) || (20 <? prio) then Ok (Ret (-1), k)
  else if (prio <? 0) && (0 <=? priority p) then Ok (Ret (-1), k)
  else if negb (is_agent p =? 0) && negb (target =? pid p) then Ok (Ret (-1), k)
  else
    let caller_kernel := priority p <? 0 in
    match find_pid target (kproc k) with
    | None => Ok (Ret (-1), k)
    | Some i =>
        if (priority (pget i (kproc k)) <? 0) && negb caller_kernel then Ok (Ret (-1), k)
        else Ok (Ret 0, set_kproc (upd (set_priority prio) i (kproc k)) k)
    end.

Definition sys_getpriority (me : nat) : handler := λ k,
  target ← argint me 0 k;
  match find_pid target (kproc k) with
  | None => Ok (Ret (-1), k)
  | Some i => Ok (Ret (priority (pget i (kproc k))), k)
  end.

(** [copyout] of [n] entries, one at a time; the count so far. *)
Fixpoint procinfo_loop (me : nat) (l : list procrec) (uaddr n max : Z) k : sysret * kernel E C :=
  match l with
  | [] => (Ret n, k)
  | p :: l' =>
      if n <? max then
        if decide (st p = UNUSED) then procinfo_loop me l' uaddr n max k
        else
          let '(r, k) := kcopyout me (u64 (uaddr + n * sizeof_procinfo)) (procinfo_bytes p) k in
          if r <? 0 then (Ret (-1), k) else procinfo_loop me l' uaddr (n + 1) max k
      else (Ret n, k)
  end.

Definition sys_procinfo (me : nat) : handler := λ k,
  uaddr ← argaddr me 0 k; max ← argint me 1 k;
  if max <=? 0 then Ok (Ret (-1), k)
  else Ok (procinfo_loop me (procs (kproc k)) uaddr 0 max k).

(** ** The agent *)

(** After the [is_agent] test; also where a sleeping call resumes. *)
Definition agent_recv_loop (me : nat) (uaddr : Z) : handler := λ k,
  match agentq_get (is_killed me (kproc k)) (replicate (Z.to_nat AGENTQ_LEN) 0) (agentq (kagent k)) with
  | None => Ok (Sleeps, set_kproc (Proc.sleep (ChanObj agentq_addr) me (kproc k)) k)
  | Some (n, kbuf, q) =>
      let a := kagent k in
      let k := set_kagent (AgentCmd.mk_state (agent_q a) q (deny a) (pending_prompt a) (pending_len a)
                             (llm_cache a) (confirm a) (out a)) k in
      if n <? 0 then Ok (Ret (-1), k)
      else
        let '(r, k) := kcopyout me uaddr (take (Z.to_nat (n + 1)) kbuf) k in
        Ok (Ret (if r <? 0 then -1 else n), k)
  end.

Definition sys_agent_recv (me : nat) : handler := λ k,
  uaddr ← argaddr me 0 k;
  if is_agent (cur me k) =? 0 then Ok (Ret (-1), k) else agent_recv_loop me uaddr k.

Definition set_kdeny (d : denylist) k : kernel E C := set_kagent (set_deny d (kagent k)) k.

Definition sys_set_deny (me : nat) : handler := λ k,
  if negb (is_agent (cur me k) =? 0) then Ok (Ret (-1), k) else
  op ← argint me 0 k;
  let d := deny (kagent k) in
  if op =? DENY_RESET then Ok (Ret 0, set_kdeny (deny_reset d) k)
  else if op =? DENY_CLEAR then Ok (Ret 0, set_kdeny (deny_clear d) k)
  else
    cmd ← argstr me 1 DENY_NAMELEN k;
    match cmd with
    | None => Ok (Ret (-1), k)
    | Some cmd =>
        if op =? DENY_ADD then let '(r, d) := deny_add cmd d in Ok (Ret r, set_kdeny d k)
        else if op =? DENY_REMOVE then let '(r, d) := deny_remove cmd d in Ok (Ret r, set_kdeny d k)
        else Ok (Ret (-1), k)
    end.

Definition sys_get_deny (me : nat) : handler := λ k,
  uaddr ← argaddr me 0 k; max ← argint me 1 k;
  if max <=? 0 then Ok (Ret (-1), k) else
  let max := if DENY_MAX * DENY_NAMELEN <? max then DENY_MAX * DENY_NAMELEN else max in
  let '(n, kbuf) := deny_snapshot (replicate (Z.to_nat (DENY_MAX * DENY_NAMELEN)) 0) max (deny (kagent k)) in
  let '(r, k) := kcopyout me uaddr (take (Z.to_nat (n + 1)) kbuf) k in
  Ok (Ret (if r <? 0 then -1 else n), k).

Definition sys_dispatch (me : nat) : handler := λ k,
  addr ← argaddr me 0 k;
  if negb (is_agent (cur me k) =? 0) then Ok (Ret (-1), k) else
  match fetchstr me addr MAX_DISPATCH_LEN k with
  | None => Ok (Ret (-1), k)
  | Some buf => Ok (Ret 0, agent_call (Some me) (agent_dispatch_now buf) k)
  end.

(** ** The cache *)

Definition sys_set_cache (me : nat) : handler := λ k,
  key_addr ← argaddr me 0 k; klen ← argint me 1 k; val_addr ← argaddr me 2 k; vlen ← argint me 3 k;
  if (klen <=? 0) || (MAX_KEY_LEN <? klen) then Ok (Ret (-1), k) else
  if (vlen <? 0) || (MAX_VAL_LEN <? vlen) then Ok (Ret (-1), k) else
  match kcopyin me key_addr klen k with
  | None => Ok (Ret (-1), k)
  | Some key =>
      match (if 0 <? vlen then kcopyin me val_addr vlen k else Some []) with
      | None => Ok (Ret (-1), k)
      | Some val =>
          let key_buf := blit (replicate (Z.to_nat MAX_KEY_LEN) 0) 0 key in
          let val_buf := blit (replicate (Z.to_nat MAX_VAL_LEN) 0) 0 val in
          let '(r, c) := c_set key_buf klen val_buf vlen (Proc.ticks (kproc k)) (llm_cache (kagent k)) in
          Ok (Ret r, set_kagent (set_cache c (kagent k)) k)
      end
  end.

Definition sys_get_cache (me : nat) : handler := λ k,
  key_addr ← argaddr me 0 k; klen ← argint me 1 k; vbuf_addr ← argaddr me 2 k; vbuflen ← argint me 3 k;
  if (klen <=? 0) || (MAX_KEY_LEN <? klen) then Ok (Ret (-1), k) else
  if vbuflen <=? 0 then Ok (Ret (-1), k) else
  match kcopyin me key_addr klen k with
  | None => Ok (Ret (-1), k)
  | Some key =>
      let key_buf := blit (replicate (Z.to_nat MAX_KEY_LEN) 0) 0 key in
      let '(vlen, val_buf, c) := c_get key_buf klen (replicate (Z.to_nat MAX_VAL_LEN) 0) MAX_VAL_LEN
                                   (Proc.ticks (kproc k)) (llm_cache (kagent k)) in
      let k := set_kagent (set_cache c (kagent k)) k in
      if vlen <? 0 then Ok (Ret (-1), k) else
      let avail := if vlen <? MAX_VAL_LEN then vlen else MAX_VAL_LEN in
      let n := if avail <? vbuflen then avail else vbuflen in
      if 0 <? n then
        let '(r, k) := kcopyout me vbuf_addr (take (Z.to_nat n) val_buf) k in
        Ok (Ret (if r <? 0 then -1 else vlen), k)
      else Ok (Ret vlen, k)
  end.
End sysproc.

Section theorems.
Context `{SysEnv E} `{LLMCache C}.
Implicit Types k : kernel E C.

Lemma argint_inv me n k x : argint me n k = Ok x → x = s32 (reg me (Arg n) k).
Proof. unfold argint, argraw. by destruct (_ && _); intros [= <-]. Qed.

Lemma argint_Ok me n k : 0 ≤ n ≤ 5 → argint me n k = Ok (s32 (reg me (Arg n) k)).
Proof.
  intros Hn. unfold argint, argraw. rewrite (proj2 (Z.leb_le _ _)), (proj2 (Z.leb_le _ _)) by lia. done.
Qed.

Lemma argaddr_Ok me n k : 0 ≤ n ≤ 5 → argaddr me n k = Ok (reg me (Arg n) k).
Proof.
  intros Hn. unfold argaddr, argraw. rewrite (proj2 (Z.leb_le _ _)), (proj2 (Z.leb_le _ _)) by lia. done.
Qed.

Lemma argstr_Ok me n max k : 0 ≤ n ≤ 5 → argstr me n max k = Ok (fetchstr me (reg me (Arg n) k) max k).
Proof. intros Hn. unfold argstr. by rewrite argaddr_Ok. Qed.

Lemma find_pid_lookup x (s : Proc.state E) i :
  find_pid x s = Some i → ∃ q, procs s !! i = Some q ∧ pid q = x ∧ pget i s = q.
Proof.
  intros Hf. apply find_index_Some in Hf as (q & Hq & Hx & _). exists q.
  split_and!; [done|by apply Z.eqb_eq|by apply nth_lookup_Some].
Qed.

(** [setpriority] fails with -1 and changes nothing, or sets the priority of one
    entry, nothing else, to a value in -20..20; only a kernel-class
    caller sets a kernel-class priority or touches a kernel-class process, and a
    jailed agent touches only itself. *)
Theorem setpriority_policy me k r k' :
  sys_setpriority me k = Ok (r, k') →
  (r = Ret (-1) ∧ k' = k) ∨
  (r = Ret 0 ∧ ∃ i q prio, procs (kproc k) !! i = Some q ∧ -20 ≤ prio ≤ 20 ∧
     k' = set_kproc (upd (set_priority prio) i (kproc k)) k ∧
     (prio < 0 ∨ priority q < 0 → priority (cur me k) < 0) ∧
     (is_agent (cur me k) ≠ 0 → pid q = pid (cur me k))).
Proof.
  unfold sys_setpriority. rewrite !argint_Ok by lia. cbn [mbind outcome_bind].
  set (target := s32 (reg me (Arg 0) k)). set (prio := s32 (reg me (Arg 1) k)). intros Hs.
  destruct ((prio <? -20) || (20 <? prio)) eqn:Hr; [left; by injection Hs as <- <-|].
  destruct ((prio <? 0) && _) eqn:Hneg; [left; by injection Hs as <- <-|].
  destruct (negb (is_agent _ =? 0) && _) eqn:Hag; [left; by injection Hs as <- <-|].
  destruct (find_pid target (kproc k)) as [i|] eqn:Hf; [|left; by injection Hs as <- <-].
  destruct (find_pid_lookup _ _ _ Hf) as (q & Hq & Hpid & Hget). rewrite Hget in Hs.
  destruct ((priority q <? 0) && _) eqn:Hk; [left; by injection Hs as <- <-|].
  injection Hs as <- <-. right. split; [done|]. exists i, q, prio. bool_hyps.
  split_and!; [done|lia|lia|done| |].
  - intros Hlt. destruct (Z.ltb_spec (priority (cur me k)) 0); [done|]. exfalso.
    destruct (Z.ltb_spec prio 0), (Z.ltb_spec (priority q) 0); cbn [andb negb] in *; try done; try lia.
  - intros Ha. rewrite (proj2 (Z.eqb_neq _ _) Ha) in Hag. cbn [negb andb] in Hag. bool_hyps. lia.
Qed.

(** ** What a jailed process cannot do *)

(** The handlers of sysproc.c. *)
Definition sysproc_handlers (me : nat) : list (kernel E C → Prelude.outcome (sysret * kernel E C)) :=
  [sys_exit me; sys_getpid me; sys_fork me; sys_wait me; sys_sbrk me; sys_pause me; sys_kill me;
   sys_uptime; sys_setpriority me; sys_getpriority me; sys_procinfo me; sys_agent_recv me;
   sys_set_deny me; sys_get_deny me; sys_dispatch me; sys_set_cache me; sys_get_cache me].

(** The policy state: the deny list and the confirm slot. *)
Definition policy k : denylist * Confirm.state := (deny (kagent k), confirm (kagent k)).

Lemma kcopyout_policy me a l k r k' : kcopyout me a l k = (r, k') → policy k' = policy k.
Proof. unfold kcopyout. destruct (copyout _ _ _ _). by intros [= <- <-]. Qed.

Lemma procinfo_loop_policy me l a n max k : policy (procinfo_loop me l a n max k).2 = policy k.
Proof.
  revert n k. induction l as [|p l IH]; intros n k; cbn [procinfo_loop]; [done|].
  destruct (n <? max); [|done]. destruct (decide _); [done|].
  destruct (kcopyout _ _ _ _) as [r k1] eqn:Hc. apply kcopyout_policy in Hc.
  destruct (r <? 0); [done|]. by rewrite IH.
Qed.

Lemma agent_recv_policy me a k r k' : agent_recv_loop me a k = Ok (r, k') → policy k' = policy k.
Proof.
  unfold agent_recv_loop. destruct (agentq_get _ _ _) as [[[n b] q]|]; [|by intros [= <- <-]].
  destruct (n <? 0); [by intros [= <- <-]|].
  destruct (kcopyout _ _ _ _) as [x k1] eqn:Hc. apply kcopyout_policy in Hc. by intros [= <- <-].
Qed.

(** Case analysis on everything a handler tests. *)
Ltac handler_cases H :=
  repeat match type of H with
  | context [argint ?me ?n ?k] => rewrite (argint_Ok me n k) in H by lia; cbn [mbind outcome_bind] in H
  | context [argaddr ?me ?n ?k] => rewrite (argaddr_Ok me n k) in H by lia; cbn [mbind outcome_bind] in H
  | context [argstr ?me ?n ?m ?k] => rewrite (argstr_Ok me n m k) in H by lia; cbn [mbind outcome_bind] in H
  | context [kcopyout ?me ?a ?l ?k] =>
      let Hc := fresh "Hc" in destruct (kcopyout me a l k) as [? ?] eqn:Hc; apply kcopyout_policy in Hc
  | ?m ≫= _ = _ => destruct m; cbn [mbind outcome_bind] in H
  | (match ?e with _ => _ end) = _ => destruct e
  | (if ?e then _ else _) = _ => destruct e
  end.

Ltac handler_done H := first [discriminate H | injection H as <- <-; done].

(** Whatever a jailed process passes to the system calls of sysproc.c, in any
    state, the deny list does not change and no confirm request is posted,
    answered or timed out. *)
Theorem agent_cannot_change_policy me k h r k' :
  is_agent (cur me k) ≠ 0 → h ∈ sysproc_handlers me → h k = Ok (r, k') →
  policy k' = policy k.
Proof.
  intros Ha Hh Hr. unfold sysproc_handlers in Hh.
  repeat (apply elem_of_cons in Hh as [-> |Hh]). 18: by apply not_elem_of_nil in Hh.
  - unfold sys_exit in Hr. handler_cases Hr; handler_done Hr.
  - by injection Hr as <- <-.
  - unfold sys_fork in Hr. destruct (kfork _ _). by injection Hr as <- <-.
  - unfold sys_wait in Hr. handler_cases Hr; handler_done Hr.
  - unfold sys_sbrk in Hr. handler_cases Hr; handler_done Hr.
  - unfold sys_pause, pause_test in Hr. handler_cases Hr; handler_done Hr.
  - unfold sys_kill in Hr. handler_cases Hr; handler_done Hr.
  - by injection Hr as <- <-.
  - unfold sys_setpriority in Hr. handler_cases Hr; handler_done Hr.
  - unfold sys_getpriority in Hr. handler_cases Hr; handler_done Hr.
  - unfold sys_procinfo in Hr. handler_cases Hr; [by injection Hr as <- <-|].
    injection Hr as Hr. pose proof (procinfo_loop_policy me (procs (kproc k)) (reg me (Arg 0) k) 0
      (s32 (reg me (Arg 1) k)) k) as Hp. by rewrite Hr in Hp.
  - unfold sys_agent_recv in Hr. handler_cases Hr; [by injection Hr as <- <-|]. by apply agent_recv_policy in Hr.
  - unfold sys_set_deny in Hr. rewrite (proj2 (Z.eqb_neq _ _) Ha) in Hr. by injection Hr as <- <-.
  - unfold sys_get_deny in Hr. handler_cases Hr; handler_done Hr.
  - unfold sys_dispatch in Hr. rewrite (proj2 (Z.eqb_neq _ _) Ha) in Hr. cbn [negb] in Hr. handler_cases Hr; handler_done Hr.
  - unfold sys_set_cache in Hr. handler_cases Hr; handler_done Hr.
  - unfold sys_get_cache in Hr. handler_cases Hr; handler_done Hr.
Qed.
End theorems.

(** ** Concrete calls *)

(** setpriority(1, 5) by init, and by an agent for init's pid. *)
Definition nice_regs (x : tfreg) : Z := if decide (x = Arg 0) then 1 else if decide (x = Arg 1) then 5 else 0.

Lemma setpriority_policy_witness :
  ∃ k', sys_setpriority 0 (boot_kernel nice_regs) = Ok (Ret 0, k') ∧ priority (cur 0 k') = 5.
Proof.
  destruct (sys_setpriority 0 (boot_kernel nice_regs)) as [[r k']|] eqn:Hs; [|by vm_compute in Hs].
  destruct (setpriority_policy 0 (boot_kernel nice_regs) r k' Hs) as [[Hr _]|(Hr & _)].
  - exfalso. assert (Hx : (λ y, match y with Ok (Ret v, _) => v | _ => 7 end)
      (sys_setpriority 0 (boot_kernel nice_regs)) = 0) by by vm_compute.
    rewrite Hs, Hr in Hx. discriminate Hx.
  - exists k'. split; [by rewrite Hr|].
    assert (Hx : (λ y, match y with Ok (_, k) => priority (cur 0 k) | _ => 7 end)
      (sys_setpriority 0 (boot_kernel nice_regs)) = 5) by by vm_compute.
    rewrite Hs in Hx. exact Hx.
Defined.

(** set_deny(DENY_CLEAR) by an agent. *)
Definition clear_regs (x : tfreg) : Z := if decide (x = Arg 0) then DENY_CLEAR else 0.

Lemma agent_cannot_change_policy_witness :
  ∃ k', sys_set_deny 0 (agent_kernel clear_regs) = Ok (Ret (-1), k') ∧
    policy k' = policy (agent_kernel clear_regs).
Proof.
  assert (Ha : (is_agent (cur 0 (agent_kernel clear_regs)) =? 0) = false) by by vm_compute.
  assert (Hs : sys_set_deny 0 (agent_kernel clear_regs) = Ok (Ret (-1), agent_kernel clear_regs)).
  { unfold sys_set_deny. rewrite Ha. reflexivity. }
  exists (agent_kernel clear_regs). split; [exact Hs|].
  apply (agent_cannot_change_policy 0 (agent_kernel clear_regs) (sys_set_deny 0) (Ret (-1)));
    [by apply Z.eqb_neq|unfold sysproc_handlers; repeat constructor|exact Hs].
Defined.
