(* ===== verification/Syscall.v ===== *)
(** * kernel/syscall.c: the system call table and the agent gate

    [syscall] decodes a7, stops a jailed process at the dangerous calls, and runs
    the handler.  At the gate it posts a confirm request ([Confirming]); the
    protocol of Confirm.v runs, and [syscall_confirmed] continues with the result
    of [confirm_request].  The handlers of sysfile.c are the parameter [sysfile]. *)

From S2P Require Import Prelude CString Ring Printf Proc Cache Confirm AgentCmd Console Kernel Sysproc.

Local Open Scope Z_scope.

Definition SYS_fork : Z := 1.
Definition SYS_exit : Z := 2.
Definition SYS_wait : Z := 3.
Definition SYS_pipe : Z := 4.
Definition SYS_read : Z := 5.
Definition SYS_kill : Z := 6.
Definition SYS_exec : Z := 7.
Definition SYS_fstat : Z := 8.
Definition SYS_chdir : Z := 9.
Definition SYS_dup : Z := 10.
Definition SYS_getpid : Z := 11.
Definition SYS_sbrk : Z := 12.
Definition SYS_pause : Z := 13.
Definition SYS_uptime : Z := 14.
Definition SYS_open : Z := 15.
Definition SYS_write : Z := 16.
Definition SYS_mknod : Z := 17.
Definition SYS_unlink : Z := 18.
Definition SYS_link : Z := 19.
Definition SYS_mkdir : Z := 20.
Definition SYS_close : Z := 21.
Definition SYS_setpriority : Z := 22.
Definition SYS_getpriority : Z := 23.
Definition SYS_jail : Z := 24.
Definition SYS_agent_recv : Z := 25.
Definition SYS_set_deny : Z := 26.
Definition SYS_get_deny : Z := 27.
Definition SYS_procinfo : Z := 28.
Definition SYS_set_cache : Z := 29.
Definition SYS_get_cache : Z := 30.
Definition SYS_dispatch : Z := 31.

Definition agent_blocked (num : Z) : bool := (num =? SYS_exec) || (num =? SYS_kill) || (num =? SYS_mknod).

(** The C string left in [buf]. *)
Definition agent_call_summary (num : Z) (buf : list Z) (buflen : Z) : list Z :=
  let name := if num =? SYS_exec then bytes "exec"
              else if num =? SYS_kill then bytes "kill"
              else if num =? SYS_mknod then bytes "mknod" else bytes "unknown" in
  blit buf 0 (take (Z.to_nat (buflen - 1)) name ++ [0]).

(** Where a system call stands: left, or inside [confirm_request]. *)
Inductive sysflow := Finished (r : sysret) | Confirming (num : Z).

Section syscall.
Context `{SysEnv E} `{LLMCache C}.
Context (sysfile : Z → nat → kernel E C → Prelude.outcome (sysret * kernel E C)).
Implicit Types k : kernel E C.

Definition syscalls (me : nat) : list (Z * (kernel E C → Prelude.outcome (sysret * kernel E C))) :=
  [(SYS_fork, sys_fork me); (SYS_exit, sys_exit me); (SYS_wait, sys_wait me);
   (SYS_pipe, sysfile SYS_pipe me); (SYS_read, sysfile SYS_read me); (SYS_kill, sys_kill me);
   (SYS_exec, sysfile SYS_exec me); (SYS_fstat, sysfile SYS_fstat me); (SYS_chdir, sysfile SYS_chdir me);
   (SYS_dup, sysfile SYS_dup me); (SYS_getpid, sys_getpid me); (SYS_sbrk, sys_sbrk me);
   (SYS_pause, sys_pause me); (SYS_uptime, sys_uptime); (SYS_open, sysfile SYS_open me);
   (SYS_write, sysfile SYS_write me); (SYS_mknod, sysfile SYS_mknod me); (SYS_unlink, sysfile SYS_unlink me);
   (SYS_link, sysfile SYS_link me); (SYS_mkdir, sysfile SYS_mkdir me); (SYS_close, sysfile SYS_close me);
   (SYS_setpriority, sys_setpriority me); (SYS_getpriority, sys_getpriority me);
   (SYS_jail, sysfile SYS_jail me); (SYS_agent_recv, sys_agent_recv me); (SYS_set_deny, sys_set_deny me);
   (SYS_get_deny, sys_get_deny me); (SYS_procinfo, sys_procinfo me); (SYS_set_cache, sys_set_cache me);
   (SYS_get_cache, sys_get_cache me); (SYS_dispatch, sys_dispatch me)].

(** [syscalls[num]], with the test of the range. *)
Definition handler_of (me : nat) (num : Z) : option (kernel E C → Prelude.outcome (sysret * kernel E C)) :=
  snd <$> List.find (λ x, x.1 =? num) (syscalls me).

(** [p->trapframe->a0 = syscalls[num]()]. *)
Definition run_handler (me : nat) (h : kernel E C → Prelude.outcome (sysret * kernel E C)) k :
    Prelude.outcome (sysflow * kernel E C) :=
  x ← h k;
  match x with
  | (Ret v, k) => Ok (Finished (Ret v), set_reg me (Arg 0) (u64 v) k)
  | (r, k) => Ok (Finished r, k)
  end.

Definition fail_call (me : nat) (msg : list Z) k : Prelude.outcome (sysflow * kernel E C) :=
  Ok (Finished (Ret (-1)), set_reg me (Arg 0) (u64 (-1)) (kprint msg k)).

Definition unknown_msg (p : procrec) (num : Z) : list Z :=
  printf (bytes "%d %s: unknown sys call %d
") [VInt (pid p); VStr (Some (name p)); VInt num].

Definition denied_msg (p : procrec) (num : Z) : list Z :=
  printf (bytes "[sandbox] pid %d (%s): syscall %d denied (confirm-escape)
") [VInt (pid p); VStr (Some (name p)); VInt num].

Definition syscall (me : nat) k : Prelude.outcome (sysflow * kernel E C) :=
  let p := cur me k in
  let num := s32 (reg me A7 k) in
  match handler_of me num with
  | Some h =>
      if negb (is_agent p =? 0) && agent_blocked num then
        let summary := agent_call_summary num (replicate 32 0) 32 in
        let a := kagent k in
        Ok (Confirming num, set_kagent (set_confirm (confirm_post (pid p) num summary (confirm a)) a) k)
      else run_handler me h k
  | None => fail_call me (unknown_msg p num) k
  end.

(** After [int allowed = confirm_request(num, summary)]. *)
Definition syscall_confirmed (me : nat) (num allowed : Z) k : Prelude.outcome (sysflow * kernel E C) :=
  if allowed =? 0 then fail_call me (denied_msg (cur me k) num) k
  else match handler_of me num with
       | Some h => run_handler me h k
       | None => fail_call me (unknown_msg (cur me k) num) k
       end.

(** The table has a handler for exactly the numbers 1 to 31. *)
Lemma handler_of_range me num : is_Some (handler_of me num) ↔ 1 ≤ num ≤ 31.
Proof.
  unfold handler_of. rewrite fmap_is_Some. split.
  - intros [x Hx]. apply find_some in Hx as [Hin Heq]. apply Z.eqb_eq in Heq. subst num.
    unfold syscalls in Hin. cbn [In] in Hin.
    repeat destruct Hin as [<-|Hin]; [..|done]; cbn [fst]; split; vm_compute; done.
  - intros Hn. destruct (List.find _ _) as [x|] eqn:Hf; [by eexists|exfalso].
    pose proof (find_none _ _ Hf) as Hnone. cbv beta in Hnone.
    assert (Hall : ∀ y, In y (map fst (syscalls me)) → y ≠ num).
    { intros y (x & <- & Hx)%in_map_iff. apply Z.eqb_neq. by apply Hnone. }
    assert (Hin : In num (map fst (syscalls me))); [|by apply (Hall num)].
    clear -Hn. cbn [syscalls map fst In].
    unfold SYS_fork, SYS_exit, SYS_wait, SYS_pipe, SYS_read, SYS_kill, SYS_exec, SYS_fstat, SYS_chdir, SYS_dup,
      SYS_getpid, SYS_sbrk, SYS_pause, SYS_uptime, SYS_open, SYS_write, SYS_mknod, SYS_unlink, SYS_link, SYS_mkdir,
      SYS_close, SYS_setpriority, SYS_getpriority, SYS_jail, SYS_agent_recv, SYS_set_deny, SYS_get_deny,
      SYS_procinfo, SYS_set_cache, SYS_get_cache, SYS_dispatch. lia.
Qed.

(** The calls that are refused to a jailed process, and the names a person is asked about. *)
Definition refused : list (Z * list Z) :=
  [(SYS_exec, bytes "exec"); (SYS_kill, bytes "kill"); (SYS_mknod, bytes "mknod")].

Lemma refused_blocked num nm :
  (num, nm) ∈ refused →
  1 ≤ num ≤ 31 ∧ agent_blocked num = true ∧ cstring (agent_call_summary num (replicate 32 0) 32) = nm.
Proof.
  intros Hin. assert (Hall : Forall (λ x, 1 ≤ x.1 ≤ 31 ∧ agent_blocked x.1 = true ∧
    cstring (agent_call_summary x.1 (replicate 32 0) 32) = x.2) refused).
  { repeat constructor; (done || by vm_compute). }
  rewrite Forall_forall in Hall. exact (Hall _ Hin).
Qed.

(** C16: The sandbox gate: a jailed process that calls exec, kill or mknod never reaches the
    handler directly; it posts a confirm request, which shows the name of the call, and nothing
    else changes.  And whatever happens in the confirm protocol, if its request is over and the
    host did not answer yes for it, the call fails with -1, a message and no other effect. *)
Theorem agent_gate me k num nm :
  is_agent (cur me k) ≠ 0 → s32 (reg me A7 k) = num →
  (num, nm) ∈ [(SYS_exec, bytes "exec"); (SYS_kill, bytes "kill"); (SYS_mknod, bytes "mknod")] →
  (∃ sm, cstring sm = nm ∧ syscall me k = Ok (Confirming num,
     set_kagent (set_confirm (confirm_post (pid (cur me k)) num sm (confirm (kagent k))) (kagent k)) k)) ∧
  ∀ t tr cf rc k1, Confirm.steps (confirminit t) tr cf → threads cf !! pid (cur me k) = Some (Done rc) →
    ¬ (∃ al, asked (pid (cur me k)) tr (Some al) ∧ al ≠ 0) →
    syscall_confirmed me num rc k1 =
      Ok (Finished (Ret (-1)), set_reg me (Arg 0) (2 ^ 64 - 1) (kprint (denied_msg (cur me k1) num) k1)).
Proof.
  intros Ha Hnum (Hr & Hb & Hn)%refused_blocked. split.
  - unfold syscall. rewrite Hnum. destruct (proj2 (handler_of_range me num) Hr) as [h Hh].
    rewrite Hh, (proj2 (Z.eqb_neq _ _) Ha), Hb. cbn [negb andb]. eexists. split; [exact Hn|reflexivity].
  - intros t tr cf rc k1 Hs Hd Hno. pose proof (steps_knows _ _ _ _ _ Hs Hd) as Hk. cbn [knows] in Hk.
    destruct Hk as [->|(_ & al & Ha' & Hal)]; [|destruct Hno; by exists al].
    unfold syscall_confirmed. cbn [Z.eqb]. reflexivity.
Qed.

(** Every other call goes straight to its handler, whose value ends in a0; an
    unknown number fails with -1 and a message. *)
Theorem syscall_dispatches me k :
  let num := s32 (reg me A7 k) in
  is_agent (cur me k) = 0 ∨ agent_blocked num = false →
  if bool_decide (1 ≤ num ≤ 31)
  then ∃ h, (num, h) ∈ syscalls me ∧ syscall me k = run_handler me h k
  else syscall me k = Ok (Finished (Ret (-1)), set_reg me (Arg 0) (2 ^ 64 - 1) (kprint (unknown_msg (cur me k) num) k)).
Proof.
  intros num Hb. unfold syscall. fold num. case_bool_decide as Hr.
  - apply (handler_of_range me) in Hr as [h Hh]. exists h. rewrite Hh. split.
    + unfold handler_of in Hh. apply fmap_Some in Hh as ([n' h'] & Hf & ->).
      apply find_some in Hf as [Hin Heq]. apply Z.eqb_eq in Heq. cbn [fst snd] in *. subst n'.
      by apply list_elem_of_In.
    + destruct Hb as [-> | ->]; [done|]. by rewrite andb_false_r.
  - destruct (handler_of me num) as [h|] eqn:Hh; [|done]. exfalso. apply Hr.
    apply (handler_of_range me). by exists h.
Qed.
End syscall.

(** ** Concrete calls *)

(** kill(1): the registers of an agent that makes it. *)
Definition kill_regs (x : tfreg) : Z := if decide (x = A7) then SYS_kill else 1.

Lemma agent_gate_witness :
  ∃ sm, cstring sm = bytes "kill" ∧ syscall (λ _ _ k, Ok (Ret 0, k)) 0 (agent_kernel kill_regs) =
    Ok (Confirming SYS_kill, set_kagent (set_confirm
      (confirm_post 1 SYS_kill sm (confirm (kagent (agent_kernel kill_regs))))
      (kagent (agent_kernel kill_regs))) (agent_kernel kill_regs)).
Proof.
  assert (Ha : (is_agent (cur 0 (agent_kernel kill_regs)) =? 0) = false) by by vm_compute.
  assert (Hn : s32 (reg 0 A7 (agent_kernel kill_regs)) = SYS_kill) by by vm_compute.
  assert (Hp : pid (cur 0 (agent_kernel kill_regs)) = 1) by by vm_compute.
  destruct (agent_gate (λ _ _ k, Ok (Ret 0, k)) 0 (agent_kernel kill_regs) SYS_kill (bytes "kill")) as [(sm & Hm & Hs) _];
    [by apply Z.eqb_neq|exact Hn|right; left|].
  rewrite Hp in Hs. exists sm. split; [exact Hm|exact Hs].
Defined.

(** getpid by an agent. *)
Definition getpid_regs (x : tfreg) : Z := if decide (x = A7) then SYS_getpid else 0.

Lemma syscall_dispatches_witness :
  ∃ h, syscall (λ _ _ k, Ok (Ret 0, k)) 0 (agent_kernel getpid_regs) =
    run_handler 0 h (agent_kernel getpid_regs).
Proof.
  pose proof (syscall_dispatches (λ _ _ k, Ok (Ret 0, k)) 0 (agent_kernel getpid_regs)) as Hs.
  cbv zeta in Hs.
  assert (Hb : agent_blocked (s32 (reg 0 A7 (agent_kernel getpid_regs))) = false) by by vm_compute.
  specialize (Hs (or_intror Hb)).
  assert (Hd : bool_decide (1 ≤ s32 (reg 0 A7 (agent_kernel getpid_regs)) ≤ 31) = true) by by vm_compute.
  rewrite Hd in Hs. destruct Hs as (h & _ & Hs). exists h. exact Hs.
Defined.
