(* ===== verification/Trap.v ===== *)
(** * kernel/trap.c and uart.c: traps, interrupts and the way back to user space

    [usertrap] handles one trap of the process [me]; its result says where the
    process is then ([trapflow]): back in user space, descheduled by the timer
    ([usertrap_finish] is what it does when it runs again), waiting inside a
    system call ([usertrap_tail] follows it), or gone.  The interrupt state of
    the devices is an argument: the PLIC's claim, whether the UART can
    send, and the characters it received. *)

From S2P Require Import Prelude CString Ring Printf Proc Cache Confirm AgentCmd Console Kernel Sysproc Syscall.

Local Open Scope Z_scope.

Definition SSTATUS_SPP : Z := Z.shiftl 1 8.
Definition SSTATUS_SPIE : Z := Z.shiftl 1 5.
Definition SSTATUS_SIE : Z := Z.shiftl 1 1.
Definition SATP_SV39 : Z := Z.shiftl 8 60.
Definition MAKE_SATP (pagetable : Z) : Z := Z.lor SATP_SV39 (Z.shiftr pagetable 12).
Definition UART0_IRQ : Z := 10.
Definition VIRTIO0_IRQ : Z := 1.

(** The supervisor registers of a hart that trap.c reads or writes. *)
Record hart := mk_hart {
  sstatus : Z; scause : Z; sepc : Z; stval : Z; stvec : Z; satp : Z; tp : Z;
}.

Record devices := mk_devices { irq : Z; tx_idle : bool; rx : list Z }.

Record machine (E C : Type) := mk_machine { mk : kernel E C; hw : hart; tx_busy : Z }.
Arguments mk_machine {E C}.
Arguments mk {E C}.
Arguments hw {E C}.
Arguments tx_busy {E C}.

Inductive trapflow := ToUser (satp : Z) | Yielded | Waiting | Gone.

Section trap.
Context `{SysEnv E} `{LLMCache C}.
Context (sysfile : Z → nat → kernel E C → Prelude.outcome (sysret * kernel E C)).
(** virtio_disk.c, and the addresses of code and of [tx_chan]. *)
Context (virtio_disk_intr : kernel E C → kernel E C).
Context (kernelvec uservec usertrap_addr tx_chan : Z).
Implicit Types (m : machine E C) (k : kernel E C).

Definition with_k (k : kernel E C) m : machine E C := mk_machine k (hw m) (tx_busy m).
Definition with_hw (h : hart) m : machine E C := mk_machine (mk m) h (tx_busy m).

Definition w_stvec (v : Z) (h : hart) : hart :=
  mk_hart (sstatus h) (scause h) (sepc h) (stval h) v (satp h) (tp h).
Definition w_sepc (v : Z) (h : hart) : hart :=
  mk_hart (sstatus h) (scause h) v (stval h) (stvec h) (satp h) (tp h).
Definition w_sstatus (v : Z) (h : hart) : hart :=
  mk_hart v (scause h) (sepc h) (stval h) (stvec h) (satp h) (tp h).
Definition intr_on (h : hart) : hart := w_sstatus (Z.lor (sstatus h) SSTATUS_SIE) h.
Definition intr_off (h : hart) : hart := w_sstatus (Z.ldiff (sstatus h) SSTATUS_SIE) h.
Definition intr_get (h : hart) : bool := negb (Z.land (sstatus h) SSTATUS_SIE =? 0).

(** ** Interrupts *)

(** [uartintr]; the loop reads until [uartgetc] gives -1. *)
Definition uartintr (me : option nat) (d : devices) m : machine E C :=
  let m := if tx_idle d
           then mk_machine (set_kproc (Proc.wakeup (ChanObj tx_chan) me (kproc (mk m))) (mk m)) (hw m) 0
           else m in
  with_k (fold_left (λ k c, kconsoleintr me c k) (rx d) (mk m)) m.

Definition set_ticks (t : Z) (s : Proc.state E) : Proc.state E :=
  Proc.mk_state (procs s) (nextpid s) (cfs_min_vruntime s) (initproc s) t (Proc.env s).

Definition clockintr (me : option nat) m : machine E C :=
  if tp (hw m) =? 0 then
    let k := mk m in
    let s := Proc.wakeup ChanTicks me (set_ticks (u32 (Proc.ticks (kproc k) + 1)) (kproc k)) in
    with_k (set_kagent (set_confirm (clock_tick (confirm (kagent k))) (kagent k)) (set_kproc s k)) m
  else m.

Definition unexpected_irq (irq : Z) : list Z := printf (bytes "unexpected interrupt irq=%d
") [VInt irq].

Definition devintr (me : option nat) (d : devices) m : Z * machine E C :=
  let sc := scause (hw m) in
  if sc =? 0x8000000000000009 then
    (1, if irq d =? UART0_IRQ then uartintr me d m
        else if irq d =? VIRTIO0_IRQ then with_k (virtio_disk_intr (mk m)) m
        else if negb (irq d =? 0) then with_k (kprint (unexpected_irq (irq d)) (mk m)) m
        else m)
  else if sc =? 0x8000000000000005 then (2, clockintr me m)
  else (0, m).

(** ** Traps from user space *)

Definition prepare_return (me : nat) m : machine E C :=
  let h := w_stvec (TRAMPOLINE + (uservec - Proc.trampoline)) (intr_off (hw m)) in
  let k := set_reg me KernelSatp (satp h) (mk m) in
  let k := set_reg me KernelSp (u64 (kstack (cur me k) + PGSIZE)) k in
  let k := set_reg me KernelTrap usertrap_addr k in
  let k := set_reg me KernelHartid (tp h) k in
  let x := Z.lor (Z.ldiff (sstatus h) SSTATUS_SPP) SSTATUS_SPIE in
  with_hw (w_sepc (reg me EPC k) (w_sstatus x h)) (with_k k m).

Definition usertrap_finish (me : nat) m : trapflow * machine E C :=
  let m := prepare_return me (with_k (agent_call (Some me) agent_drain (mk m)) m) in
  (ToUser (MAKE_SATP (pagetable (cur me (mk m)))), m).

(** The end of [forkret]. *)
Definition forkret_return (me : nat) m : trapflow * machine E C :=
  let m := prepare_return me m in
  (ToUser (MAKE_SATP (pagetable (cur me (mk m)))), m).

(** [kexit(-1)]. *)
Definition exit_trap (me : nat) m : Prelude.outcome (trapflow * machine E C) :=
  s ← kexit me (-1) (kproc (mk m)); Ok (Gone, with_k (set_kproc s (mk m)) m).

(** From the second [killed] test on. *)
Definition usertrap_tail (me : nat) (which_dev : Z) m : Prelude.outcome (trapflow * machine E C) :=
  if is_killed me (kproc (mk m)) then exit_trap me m
  else if which_dev =? 2 then
    Ok (Yielded, with_k (set_kproc (timer_tick me (kproc (mk m))) (mk m)) m)
  else Ok (usertrap_finish me m).

Definition unexpected_msg (p : procrec) (h : hart) : list Z :=
  printf (bytes "usertrap(): unexpected scause 0x%lx pid=%d
") [VInt (scause h); VInt (pid p)] ++
  printf (bytes "            sepc=0x%lx stval=0x%lx
") [VInt (sepc h); VInt (stval h)].

Definition usertrap (me : nat) (d : devices) m : Prelude.outcome (trapflow * machine E C) :=
  if negb (Z.land (sstatus (hw m)) SSTATUS_SPP =? 0) then Panic else
  let m := with_hw (w_stvec kernelvec (hw m)) m in
  let m := with_k (set_reg me EPC (sepc (hw m)) (mk m)) m in
  if scause (hw m) =? 8 then
    if is_killed me (kproc (mk m)) then exit_trap me m else
    let m := with_k (set_reg me EPC (u64 (reg me EPC (mk m) + 4)) (mk m)) m in
    let m := with_hw (intr_on (hw m)) m in
    x ← syscall sysfile me (mk m);
    match x with
    | (Finished (Ret _), k) => usertrap_tail me 0 (with_k k m)
    | (Finished Exited, k) => Ok (Gone, with_k k m)
    | (Finished Sleeps, k) | (Confirming _, k) => Ok (Waiting, with_k k m)
    end
  else
    let '(which_dev, m) := devintr (Some me) d m in
    if negb (which_dev =? 0) then usertrap_tail me which_dev m else
    let sc := scause (hw m) in
    let p := cur me (mk m) in
    let '(r, e) := if (sc =? 15) || (sc =? 13)
                   then vmfault (pagetable p) (sz p) (stval (hw m)) (if sc =? 13 then 1 else 0)
                          (Proc.env (kproc (mk m)))
                   else (0, Proc.env (kproc (mk m))) in
    let m := with_k (set_kproc (set_env e (kproc (mk m))) (mk m)) m in
    if negb (r =? 0) then usertrap_tail me 0 m
    else
      let k := kprint (unexpected_msg p (hw m)) (mk m) in
      usertrap_tail me 0 (with_k (set_kproc (setkilled me (kproc k)) k) m).

(** ** Traps from the kernel *)

Definition kerneltrap_msg (h : hart) : list Z :=
  printf (bytes "scause=0x%lx sepc=0x%lx stval=0x%lx
") [VInt (scause h); VInt (sepc h); VInt (stval h)].

(** With the process that was running, if any; [true] when it yields, and [w_sepc],
    [w_sstatus] restore the registers after that. *)
Definition kerneltrap (me : option nat) (d : devices) m : Prelude.outcome (bool * machine E C) :=
  let h := hw m in
  if Z.land (sstatus h) SSTATUS_SPP =? 0 then Panic
  else if intr_get h then Panic
  else
    let '(which_dev, m) := devintr me d m in
    if which_dev =? 0 then Panic else
    let restore m := with_hw (w_sstatus (sstatus h) (w_sepc (sepc h) (hw m))) m in
    match me with
    | Some i =>
        if which_dev =? 2
        then Ok (true, restore (with_k (set_kproc (timer_tick i (kproc (mk m))) (mk m)) m))
        else Ok (false, restore m)
    | None => Ok (false, restore m)
    end.

(** ** What interrupt handling leaves alone *)

(** The entry of the running process and the memory. *)
Definition same_me (me : nat) (k k' : kernel E C) : Prop :=
  Proc.env (kproc k') = Proc.env (kproc k) ∧ pget me (kproc k') = pget me (kproc k).

#[local] Instance same_me_refl me : Reflexive (same_me me).
Proof. by intros k. Qed.

#[local] Instance same_me_trans me : Transitive (same_me me).
Proof. intros k1 k2 k3 [H2 H3] [H4 H5]. split; congruence. Qed.

Lemma wakeup_pget ch me (s : Proc.state E) : pget me (Proc.wakeup ch (Some me) s) = pget me s.
Proof.
  unfold pget. rewrite !nth_lookup, wakeup_lookup. destruct (procs s !! me) as [p|]; [|done].
  cbn [fmap option_fmap option_map default]. unfold wakes. by rewrite (bool_decide_eq_true_2 (Some me = Some me)).
Qed.

Lemma agent_call_same me f k : same_me me k (agent_call (Some me) f k).
Proof.
  unfold agent_call, same_me. cbn [kproc]. destruct (_ =? _); [done|]. split; [done|apply wakeup_pget].
Qed.

Lemma run_effect_same me k x : same_me me k (run_effect (Some me) k x).
Proof.
  destruct x as [c| |line|]; [done|done|apply agent_call_same|]. split; [done|apply wakeup_pget].
Qed.

Lemma fold_same {A} (f : kernel E C → A → kernel E C) me l k :
  (∀ k x, same_me me k (f k x)) → same_me me k (fold_left f l k).
Proof.
  intros Hf. revert k. induction l as [|x l IH]; intros k; cbn [fold_left]; [done|].
  etransitivity; [apply (Hf k x)|apply IH].
Qed.

Lemma kconsoleintr_same me c k : same_me me k (kconsoleintr (Some me) c k).
Proof.
  unfold kconsoleintr. destruct (consoleintr c (kcons k)) as [s ev].
  transitivity (set_kcons s k); [done|]. apply fold_same. intros. apply run_effect_same.
Qed.

Lemma uartintr_same me d m :
  same_me me (mk m) (mk (uartintr (Some me) d m)) ∧ hw (uartintr (Some me) d m) = hw m.
Proof.
  unfold uartintr. destruct (tx_idle d); cbn [with_k mk hw].
  - split; [|done]. transitivity (set_kproc (Proc.wakeup (ChanObj tx_chan) (Some me) (kproc (mk m))) (mk m)).
    + split; [done|apply wakeup_pget].
    + apply fold_same. intros. apply kconsoleintr_same.
  - split; [|done]. apply fold_same. intros. apply kconsoleintr_same.
Qed.

Lemma same_me_reg me k k' x : same_me me k k' → reg me x k' = reg me x k.
Proof. intros [He Hp]. unfold reg, cur. by rewrite He, Hp. Qed.

Lemma same_me_killed me k k' : same_me me k k' → is_killed me (kproc k') = is_killed me (kproc k).
Proof. intros [_ Hp]. unfold is_killed. by rewrite Hp. Qed.

(** ** The return path *)

Lemma exit_trap_ToUser me m x m' : exit_trap me m ≠ Ok (ToUser x, m').
Proof.
  unfold exit_trap. destruct (kexit me (-1) (kproc (mk m))) as [s|]; cbn [mbind outcome_bind];
    intros Hx; discriminate Hx.
Qed.

Lemma usertrap_tail_ToUser me w m x m' :
  usertrap_tail me w m = Ok (ToUser x, m') →
  is_killed me (kproc (mk m)) = false ∧ (w =? 2) = false ∧ (ToUser x, m') = usertrap_finish me m.
Proof.
  unfold usertrap_tail. destruct (is_killed me (kproc (mk m))).
  { intros Hx. by apply exit_trap_ToUser in Hx. }
  destruct (w =? 2); [done|]. intros Hf%Ok_inj. done.
Qed.

Lemma usertrap_finish_pget me m : pget me (kproc (mk (usertrap_finish me m).2)) = pget me (kproc (mk m)).
Proof.
  unfold usertrap_finish, prepare_return. cbn [snd].
  pose proof (agent_call_same me agent_drain (mk m)) as [_ Hp]. exact Hp.
Qed.

(** A killed process never goes back to user space through [usertrap]: whatever
    the trap was, if its result is a return to user mode the process is not
    marked killed then. *)
Theorem killed_never_returns me d m x m' :
  usertrap me d m = Ok (ToUser x, m') → is_killed me (kproc (mk m')) = false.
Proof.
  assert (Htail : ∀ w m1, usertrap_tail me w m1 = Ok (ToUser x, m') → is_killed me (kproc (mk m')) = false).
  { intros w m1 Ht. destruct (usertrap_tail_ToUser me w m1 x m' Ht) as (Hk & _ & Hf).
    apply (f_equal snd) in Hf. cbn [snd] in Hf. rewrite Hf. unfold is_killed. rewrite usertrap_finish_pget. exact Hk. }
  unfold usertrap. destruct (negb _); [done|]. cbv zeta. destruct (_ =? 8).
  - match goal with |- (if ?b then _ else _) = _ → _ => destruct b end; [intros Hx; by apply exit_trap_ToUser in Hx|].
    destruct (syscall _ _ _) as [[[[v| |]|n] k]|]; cbn [mbind outcome_bind]; try done. apply Htail.
  - destruct (devintr _ _ _) as [w m1]. destruct (negb (w =? 0)); [apply Htail|].
    destruct (if _ || _ then _ else _) as [r e]. destruct (negb (r =? 0)); apply Htail.
Qed.

Context `{!SysEnvLaws E}.

Lemma reg_set_reg me x v k : reg me x (set_reg me x v k) = v.
Proof. unfold reg, set_reg. cbn [kproc set_kproc set_env Proc.env]. apply tf_get_put. Qed.

Lemma reg_set_reg_ne me x y v k : x ≠ y → reg me y (set_reg me x v k) = reg me y k.
Proof. intros Hn. unfold reg, set_reg. cbn [kproc set_kproc set_env Proc.env]. by apply tf_get_put_ne. Qed.

Lemma land_disjoint s : Z.land (Z.lor (Z.ldiff (Z.ldiff s SSTATUS_SIE) SSTATUS_SPP) SSTATUS_SPIE) SSTATUS_SPP = 0
  ∧ Z.land (Z.lor (Z.ldiff (Z.ldiff s SSTATUS_SIE) SSTATUS_SPP) SSTATUS_SPIE) SSTATUS_SPIE = SSTATUS_SPIE
  ∧ Z.land (Z.lor (Z.ldiff (Z.ldiff s SSTATUS_SIE) SSTATUS_SPP) SSTATUS_SPIE) SSTATUS_SIE = 0.
Proof.
  assert (Hd : ∀ a b, Z.land a b = 0 → ∀ n, Z.testbit a n && Z.testbit b n = false).
  { intros a b Hab n. by rewrite <- Z.land_spec, Hab, Z.bits_0. }
  pose proof (Hd SSTATUS_SPIE SSTATUS_SPP eq_refl) as Hpp. pose proof (Hd SSTATUS_SPIE SSTATUS_SIE eq_refl) as Hie.
  split_and!; apply Z.bits_inj'; intros n _; rewrite ?Z.bits_0, !Z.land_spec, !Z.lor_spec, !Z.ldiff_spec;
    specialize (Hpp n); specialize (Hie n);
    destruct (Z.testbit s n), (Z.testbit SSTATUS_SPIE n), (Z.testbit SSTATUS_SPP n), (Z.testbit SSTATUS_SIE n); done.
Qed.

(** What [prepare_return] leaves in the registers and the trapframe; for [kernel_sp] see
    [trap_stack_one_page]. *)
Record user_ready (me : nat) (satp0 tp0 : Z) m : Prop := {
  ur_user_mode : Z.land (sstatus (hw m)) SSTATUS_SPP = 0;
  ur_interrupts : Z.land (sstatus (hw m)) SSTATUS_SPIE = SSTATUS_SPIE;
  ur_off : intr_get (hw m) = false;
  ur_stvec : stvec (hw m) = TRAMPOLINE + (uservec - Proc.trampoline);
  ur_sepc : sepc (hw m) = reg me EPC (mk m);
  ur_satp : reg me KernelSatp (mk m) = satp0;
  ur_trap : reg me KernelTrap (mk m) = usertrap_addr;
  ur_hartid : reg me KernelHartid (mk m) = tp0;
}.

Lemma prepare_return_ready me m : user_ready me (satp (hw m)) (tp (hw m)) (prepare_return me m).
Proof.
  pose proof (land_disjoint (sstatus (hw m))) as (Hb1 & Hb2 & Hb3).
  split; unfold prepare_return; cbn [hw mk with_hw with_k w_sepc w_sstatus w_stvec intr_off sstatus sepc stvec satp tp].
  - exact Hb1.
  - exact Hb2.
  - unfold intr_get. apply negb_false_iff, Z.eqb_eq. exact Hb3.
  - done.
  - done.
  - by rewrite !reg_set_reg_ne, reg_set_reg by done.
  - by rewrite reg_set_reg_ne, reg_set_reg by done.
  - by rewrite reg_set_reg.
Qed.

Lemma prepare_return_epc me m : sepc (hw (prepare_return me m)) = reg me EPC (mk m).
Proof.
  unfold prepare_return. cbn [hw with_hw w_sepc sepc]. by rewrite !reg_set_reg_ne by done.
Qed.

(** The ways back to user space: at the end of the trap, when the process runs again after the
    timer's [yield], at the end of a system call that had to wait, and from [forkret]. *)
Inductive resumes (me : nat) m : Z → machine E C → Prop :=
  | from_yield x m' : usertrap_finish me m = (ToUser x, m') → resumes me m x m'
  | from_wait x m' : usertrap_tail me 0 m = Ok (ToUser x, m') → resumes me m x m'
  | from_fork x m' : forkret_return me m = (ToUser x, m') → resumes me m x m'.
Inductive returns (me : nat) m : Z → machine E C → Prop :=
  | from_trap d x m' : usertrap me d m = Ok (ToUser x, m') → returns me m x m'
  | from_resumed x m' : resumes me m x m' → returns me m x m'.

Lemma finish_ready me m x m' :
  usertrap_finish me m = (ToUser x, m') →
  user_ready me (satp (hw m)) (tp (hw m)) m' ∧ x = MAKE_SATP (pagetable (cur me (mk m'))) ∧
  sepc (hw m') = reg me EPC (mk m).
Proof.
  unfold usertrap_finish. set (m1 := with_k (agent_call (Some me) agent_drain (mk m)) m).
  intros [= <- <-]. split_and!; [apply (prepare_return_ready me m1)|done|].
  rewrite prepare_return_epc. apply same_me_reg. apply agent_call_same.
Qed.

Lemma tail_ready me w m x m' :
  usertrap_tail me w m = Ok (ToUser x, m') →
  user_ready me (satp (hw m)) (tp (hw m)) m' ∧ x = MAKE_SATP (pagetable (cur me (mk m'))) ∧
  sepc (hw m') = reg me EPC (mk m).
Proof. intros Ht. destruct (usertrap_tail_ToUser me w m x m' Ht) as (_ & _ & Hf). by apply finish_ready. Qed.

Lemma resumes_ready me m x m' :
  resumes me m x m' →
  user_ready me (satp (hw m)) (tp (hw m)) m' ∧ x = MAKE_SATP (pagetable (cur me (mk m'))) ∧
  sepc (hw m') = reg me EPC (mk m).
Proof.
  intros [x1 m1 Hr|x1 m1 Hr|x1 m1 Hr]; [by apply finish_ready|by eapply tail_ready|].
  injection Hr as <- <-. split_and!; [apply prepare_return_ready|done|apply prepare_return_epc].
Qed.

Lemma devintr_hw me d m : hw (devintr me d m).2 = hw m.
Proof.
  unfold devintr. destruct (_ =? _); cbn [snd].
  - destruct (irq d =? UART0_IRQ); [|destruct (irq d =? VIRTIO0_IRQ), (negb (irq d =? 0)); done].
    unfold uartintr. by destruct (tx_idle d).
  - destruct (_ =? _); cbn [snd]; [|done]. unfold clockintr. by destruct (_ =? 0).
Qed.

Lemma clockintr_same me m : same_me me (mk m) (mk (clockintr (Some me) m)).
Proof.
  unfold clockintr. destruct (_ =? 0); [|done]. split; [done|].
  apply (wakeup_pget ChanTicks me (set_ticks (u32 (Proc.ticks (kproc (mk m)) + 1)) (kproc (mk m)))).
Qed.

(** A device interrupt other than the disk's, and the timer's, leave the running process alone. *)
Lemma devintr_same me d m :
  scause (hw m) = 0x8000000000000009 ∧ irq d ≠ VIRTIO0_IRQ ∨ scause (hw m) = 0x8000000000000005 →
  (devintr (Some me) d m).1 = (if scause (hw m) =? 0x8000000000000009 then 1 else 2) ∧
  same_me me (mk m) (mk (devintr (Some me) d m).2).
Proof.
  intros Hc. unfold devintr. destruct Hc as [[Hx Hv]|Hx]; rewrite Hx; cbn [Z.eqb Pos.eqb fst snd]; split; try done.
  - rewrite (proj2 (Z.eqb_neq _ _) Hv). destruct (irq d =? UART0_IRQ); [apply uartintr_same|]. by destruct (negb _).
  - apply clockintr_same.
Qed.

Lemma timer_tick_reg me x k : reg me x (set_kproc (timer_tick me (kproc k)) k) = reg me x k.
Proof.
  unfold reg, cur, timer_tick, yield, charge_tick. cbn [kproc set_kproc Proc.upd Proc.env]. f_equal.
  unfold pget. cbn [procs Proc.upd]. rewrite !nth_lookup, !list_lookup_alter_eq. by destruct (procs (kproc k) !! me).
Qed.

(** The kernel [syscall] runs on: the pc saved in the trapframe is past the ecall. *)
Definition after_ecall (me : nat) m : kernel E C :=
  set_reg me EPC (u64 (sepc (hw m) + 4)) (set_reg me EPC (sepc (hw m)) (mk m)).

(** Where a trap goes on: a system call after its ecall, an interrupt where it came in. *)
Lemma usertrap_pc me d m f m' :
  usertrap me d m = Ok (f, m') →
  match f with ToUser x => user_ready me (satp (hw m)) (tp (hw m)) m' ∧ x = MAKE_SATP (pagetable (cur me (mk m'))) | _ => True end ∧
  (scause (hw m) = 8 →
    match f with
    | ToUser _ => ∃ v k, syscall sysfile me (after_ecall me m) = Ok (Finished (Ret v), k) ∧ sepc (hw m') = reg me EPC k
    | Waiting => ∃ r, syscall sysfile me (after_ecall me m) = Ok (r, mk m')
    | Yielded => False
    | Gone => True
    end) ∧
  (scause (hw m) = 0x8000000000000009 → irq d ≠ VIRTIO0_IRQ →
    match f with ToUser _ => sepc (hw m') = sepc (hw m) | _ => f = Gone end) ∧
  (scause (hw m) = 0x8000000000000005 →
    match f with Yielded => reg me EPC (mk m') = sepc (hw m) | _ => f = Gone end).
Proof.
  unfold usertrap. destruct (negb _); [done|]. cbv zeta. set (m1 := with_k (set_reg me EPC _ _) _).
  assert (Hm1 : hw m1 = w_stvec kernelvec (hw m)) by done. assert (He1 : reg me EPC (mk m1) = sepc (hw m)).
  { unfold m1. cbn [mk with_k]. by rewrite reg_set_reg. }
  assert (Hexit : ∀ m2, exit_trap me m2 = Ok (f, m') → f = Gone).
  { intros m2. unfold exit_trap. destruct (kexit me (-1) (kproc (mk m2))); cbn [mbind outcome_bind]; [by intros [= <- _]|done]. }
  assert (Htail : ∀ w m2, usertrap_tail me w m2 = Ok (f, m') → satp (hw m2) = satp (hw m) → tp (hw m2) = tp (hw m) →
    match f with
    | ToUser x => user_ready me (satp (hw m)) (tp (hw m)) m' ∧ x = MAKE_SATP (pagetable (cur me (mk m'))) ∧
        sepc (hw m') = reg me EPC (mk m2) ∧ w ≠ 2
    | Yielded => w = 2 ∧ mk m' = set_kproc (timer_tick me (kproc (mk m2))) (mk m2)
    | Waiting => False
    | Gone => True
    end).
  { intros w m2 Ht Hs2 Ht2. destruct f as [x| | |].
    - pose proof (tail_ready me w m2 x m' Ht) as (Hr & Hx & Hp). destruct (usertrap_tail_ToUser me w m2 x m' Ht) as (_ & Hw & _).
      rewrite Hs2, Ht2 in Hr. apply Z.eqb_neq in Hw. done.
    - unfold usertrap_tail in Ht. destruct (is_killed _ _); [by apply Hexit in Ht|].
      destruct (Z.eqb_spec w 2); [injection Ht as <-; done|]. unfold usertrap_finish in Ht. discriminate Ht.
    - unfold usertrap_tail in Ht. destruct (is_killed _ _); [by apply Hexit in Ht|].
      destruct (w =? 2); [discriminate Ht|]. unfold usertrap_finish in Ht. discriminate Ht.
    - done. }
  replace (scause (hw m1)) with (scause (hw m)) by (by rewrite Hm1).
  destruct (Z.eqb_spec (scause (hw m)) 8) as [Hsc|Hsc].
  - match goal with |- (if ?b then _ else _) = _ → _ => destruct b end.
    { intros ->%Hexit. split_and!; (done || congruence). }
    rewrite He1. cbn [mk with_k with_hw]. unfold m1. cbn [mk with_k].
    change (set_reg me EPC (u64 (sepc (hw m) + 4)) (set_reg me EPC (sepc (hw (with_hw (w_stvec kernelvec (hw m)) m))) (mk (with_hw (w_stvec kernelvec (hw m)) m)))) with (after_ecall me m).
    destruct (syscall sysfile me (after_ecall me m)) as [[[[v| |]|n] k]|] eqn:Hsys; cbn [mbind outcome_bind]; try done.
    + intros Ht. pose proof (Htail _ _ Ht eq_refl eq_refl) as Hf. split_and!; [destruct f; naive_solver| |congruence|congruence].
      intros _. destruct f as [x| | |]; [|by destruct Hf|done|done]. exists v, k. split; [done|]. by destruct Hf as (_ & _ & ? & _).
    + intros [= <- <-]. split_and!; [done|by eexists|congruence|congruence].
    + intros [= <- <-]. split_and!; [done|done|congruence|congruence].
    + intros [= <- <-]. split_and!; [done|by eexists|congruence|congruence].
  - pose proof (devintr_hw (Some me) d m1) as Hd. pose proof (devintr_same me d m1) as Hsame.
    replace (scause (hw m1)) with (scause (hw m)) in Hsame by (by rewrite Hm1).
    destruct (devintr (Some me) d m1) as [w m2]. cbn [fst snd] in *.
    assert (Hpc : ∀ x, same_me me (mk m1) (mk m2) → reg me x (mk m2) = reg me x (mk m1)) by (intros; by apply same_me_reg).
    destruct (negb (w =? 0)) eqn:Hw.
    + intros Ht. pose proof (Htail _ _ Ht ltac:(by rewrite Hd) ltac:(by rewrite Hd)) as Hf. split_and!; [destruct f; naive_solver|done| |].
      * intros Hx Hv. destruct Hsame as [Hw1 Hs]; [by left|]. rewrite Hx in Hw1. cbn in Hw1. subst w.
        destruct f; [destruct Hf as (_ & _ & -> & _); rewrite Hpc by done; exact He1|by destruct Hf|done|done].
      * intros Hx. destruct Hsame as [Hw1 Hs]; [by right|]. rewrite Hx in Hw1. cbn in Hw1. subst w.
        destruct f; [by destruct Hf as (_ & _ & _ & ?)| |done|done]. destruct Hf as [_ ->].
        rewrite timer_tick_reg, Hpc by done. exact He1.
    + assert (Hno : scause (hw m) = 0x8000000000000009 ∧ irq d ≠ VIRTIO0_IRQ ∨ scause (hw m) = 0x8000000000000005 → False).
      { intros Hx. destruct (Hsame Hx) as [-> _]. by destruct (_ =? _). }
      destruct (if _ || _ then _ else _) as [r e].
      destruct (negb (r =? 0)); intros Ht; (pose proof (Htail _ _ Ht ltac:(cbn; by rewrite Hd) ltac:(cbn; by rewrite Hd)) as Hf;
        split_and!; [destruct f; naive_solver|done|intros ? ?; destruct Hno; by left|intros ?; destruct Hno; by right]).
Qed.

(** C17: Every return to user space, whether at the end of a trap, after the timer's yield, at the
    end of a system call that waited, or from [forkret], leaves the machine ready for it: user mode
    with interrupts on after sret and off until then, the next trap going to uservec and from there
    to [usertrap] with the kernel page table and this hart's id, the address space the process's
    own, pc the one in its trapframe.  That pc is past the ecall when [syscall] runs, also when the
    call waits, and where the interrupt came in for a timer interrupt, which yields, and for a
    device's (the disk's apart).  The stack pointer of the next trap is left out: it is not the top
    of the kernel stack ([trap_stack_one_page]). *)
Theorem return_to_user me m :
  (∀ x m', returns me m x m' →
    user_ready me (satp (hw m)) (tp (hw m)) m' ∧ x = MAKE_SATP (pagetable (cur me (mk m')))) ∧
  (∀ x m', resumes me m x m' → sepc (hw m') = reg me EPC (mk m)) ∧
  (∀ d f m', usertrap me d m = Ok (f, m') →
    (scause (hw m) = 8 →
      match f with
      | ToUser _ => ∃ v k, syscall sysfile me (after_ecall me m) = Ok (Finished (Ret v), k) ∧ sepc (hw m') = reg me EPC k
      | Waiting => ∃ r, syscall sysfile me (after_ecall me m) = Ok (r, mk m')
      | Yielded => False
      | Gone => True
      end) ∧
    (scause (hw m) = 0x8000000000000009 → irq d ≠ VIRTIO0_IRQ →
      match f with ToUser _ => sepc (hw m') = sepc (hw m) | _ => f = Gone end) ∧
    (scause (hw m) = 0x8000000000000005 →
      match f with Yielded => reg me EPC (mk m') = sepc (hw m) | _ => f = Gone end)).
Proof.
  split_and!.
  - intros x m' [d x1 m1 Ht|x1 m1 Hr]; [by apply (usertrap_pc me d m (ToUser x1) m1) in Ht as [? _]|].
    destruct (resumes_ready me m x1 m1 Hr) as (? & ? & _). done.
  - intros x m' Hr. by apply (resumes_ready me m x m').
  - intros d f m' Ht. by apply usertrap_pc in Ht as [_ ?].
Qed.

(** The kernel stack: the trapframe's kernel_sp is one page above its bottom,
    while the first entry ([allocproc]'s context) starts eight pages above:
    after its first return to user space a process runs its system calls and
    traps on the lowest of its eight stack pages. *)
Lemma trap_stack_one_page me m :
  is_u64 (kstack (cur me (mk m)) + PGSIZE) →
  reg me KernelSp (mk (prepare_return me m)) - kstack (cur me (mk (prepare_return me m))) = PGSIZE.
Proof.
  intros Hu. change (cur me (mk (prepare_return me m))) with (cur me (mk m)).
  unfold prepare_return. cbn [mk with_hw with_k]. rewrite !reg_set_reg_ne, reg_set_reg by done.
  cut (u64 (kstack (cur me (mk m)) + PGSIZE) - kstack (cur me (mk m)) = PGSIZE); [done|]. rewrite u64_id by done. lia.
Qed.
End trap.

(** ** A UART interrupt while init runs *)

Definition demo_machine : machine mem_env (Cache.state ram_file) :=
  mk_machine (boot_kernel nice_regs) (mk_hart 0 0x8000000000000009 100 0 0 5 0) 0.

#[local] Notation demo_trap :=
  (usertrap (λ _ _ k, Ok (Ret 0, k)) (λ k, k) 4096 8192 12288 0 0 (mk_devices UART0_IRQ true [65]) demo_machine).

Lemma demo_trap_returns : ∃ x m', demo_trap = Ok (ToUser x, m').
Proof.
  assert (Hc : (λ y, match y with Ok (ToUser _, _) => true | _ => false end) demo_trap = true) by by vm_compute.
  destruct demo_trap as [[[x| | |] m']|]; try discriminate Hc. by exists x, m'.
Qed.

Lemma killed_never_returns_witness :
  ∃ x m', demo_trap = Ok (ToUser x, m') ∧ is_killed 0 (kproc (mk m')) = false.
Proof.
  destruct demo_trap_returns as (x & m' & Hm). exists x, m'. split; [exact Hm|].
  exact (killed_never_returns (λ _ _ k, Ok (Ret 0, k)) (λ k, k) 4096 8192 12288 0 0 (mk_devices UART0_IRQ true [65]) demo_machine x m' Hm).
Defined.

(** The interrupt comes back where it came in, with the process's own page table; so does [forkret]. *)
Lemma return_to_user_witness :
  (∃ x m', demo_trap = Ok (ToUser x, m') ∧ sepc (hw m') = 100 ∧ x = MAKE_SATP (pagetable (cur 0 (mk m')))) ∧
  ∃ x m', forkret_return 8192 12288 0 demo_machine = (ToUser x, m') ∧ sepc (hw m') = reg 0 EPC (mk demo_machine).
Proof.
  pose proof (return_to_user (λ _ _ k, Ok (Ret 0, k)) (λ k, k) 4096 8192 12288 0 0 demo_machine) as (H1 & H2 & H3). split.
  - destruct demo_trap_returns as (x & m' & Hm). exists x, m'. split; [exact Hm|].
    destruct (H3 _ _ _ Hm) as (_ & Hs & _). split; [apply Hs; [reflexivity|discriminate]|].
    by apply (H1 x m'), (from_trap _ _ _ _ _ _ _ _ (mk_devices UART0_IRQ true [65])).
  - eexists _, _. split; [reflexivity|]. by eapply H2, from_fork.
Defined.
