(* ===== verification/Boot.v ===== *)
(** * kernel/start.c, main.c, plic.c and the registers of riscv.h: boot

    A hart is its control registers, [tp], its pc and its privilege mode; a [csrr] or
    [csrw] of riscv.h reads or writes one register.  [sie] is what the delegated
    interrupts of [mie] are, and [mret] does what the privileged architecture says.  The
    registers of the PLIC are 32-bit words at physical addresses.  [main] is the order of
    the calls of each hart; what the calls do is in the files of the components. *)

From S2P Require Import Prelude Effect Printf Kalloc Vm Trap.

Local Open Scope Z_scope.

(** ** Registers *)

Inductive csr :=
  | MSTATUS | MEPC | MEDELEG | MIDELEG | MIE | MENVCFG | MCOUNTEREN | PMPADDR0 | PMPCFG0 | MHARTID
  | STVEC | STIMECMP | SATP | TIME.
#[global] Instance csr_eq_dec : EqDecision csr.
Proof. solve_decision. Defined.

Inductive mode := Machine | Supervisor | User.

Record cpu := mk_cpu { csrs : csr → Z; tp_reg : Z; at_pc : Z; at_mode : mode }.

Definition csrr (r : csr) (h : cpu) : Z := csrs h r.
Definition set_csr (r : csr) (x : Z) (f : csr → Z) : csr → Z := λ r', if decide (r' = r) then x else f r'.
Definition csrw (r : csr) (x : Z) (h : cpu) : cpu := mk_cpu (set_csr r x (csrs h)) (tp_reg h) (at_pc h) (at_mode h).

Definition r_tp (h : cpu) : Z := tp_reg h.
Definition r_mhartid : cpu → Z := csrr MHARTID.
Definition r_mstatus : cpu → Z := csrr MSTATUS.
Definition w_mstatus : Z → cpu → cpu := csrw MSTATUS.
Definition w_mepc : Z → cpu → cpu := csrw MEPC.
Definition r_mie : cpu → Z := csrr MIE.
Definition w_mie : Z → cpu → cpu := csrw MIE.
Definition w_medeleg : Z → cpu → cpu := csrw MEDELEG.
Definition w_mideleg : Z → cpu → cpu := csrw MIDELEG.
Definition r_sie (h : cpu) : Z := Z.land (csrr MIE h) (csrr MIDELEG h).
Definition w_sie (x : Z) (h : cpu) : cpu :=
  csrw MIE (Z.lor (Z.ldiff (csrr MIE h) (csrr MIDELEG h)) (Z.land x (csrr MIDELEG h))) h.
Definition w_stvec : Z → cpu → cpu := csrw STVEC.
Definition w_stimecmp : Z → cpu → cpu := csrw STIMECMP.
Definition r_menvcfg : cpu → Z := csrr MENVCFG.
Definition w_menvcfg : Z → cpu → cpu := csrw MENVCFG.
Definition w_pmpcfg0 : Z → cpu → cpu := csrw PMPCFG0.
Definition w_pmpaddr0 : Z → cpu → cpu := csrw PMPADDR0.
Definition r_satp : cpu → Z := csrr SATP.
Definition w_satp : Z → cpu → cpu := csrw SATP.
Definition w_mcounteren : Z → cpu → cpu := csrw MCOUNTEREN.
Definition r_mcounteren : cpu → Z := csrr MCOUNTEREN.
Definition r_time : cpu → Z := csrr TIME.
Definition w_tp (x : Z) (h : cpu) : cpu := mk_cpu (csrs h) x (at_pc h) (at_mode h).

Definition MSTATUS_MPP_MASK : Z := Z.shiftl 3 11.
Definition MSTATUS_MPP_S : Z := Z.shiftl 1 11.
Definition SIE_SEIE : Z := Z.shiftl 1 9.
Definition SIE_STIE : Z := Z.shiftl 1 5.
Definition MIE_STIE : Z := Z.shiftl 1 5.

(** [mret]: to the mode in MPP at [mepc]; MIE becomes MPIE, MPIE 1, MPP user. *)
Definition mpp (h : cpu) : mode :=
  match Z.land (Z.shiftr (r_mstatus h) 11) 3 with 0 => User | 1 => Supervisor | _ => Machine end.
Definition mret_mstatus (x : Z) : Z :=
  let x' := Z.ldiff x (Z.lor MSTATUS_MPP_MASK (Z.shiftl 1 3)) in
  Z.lor x' (Z.lor (Z.shiftl 1 7) (if Z.testbit x 7 then Z.shiftl 1 3 else 0)).
Definition do_mret (h : cpu) : cpu :=
  mk_cpu (set_csr MSTATUS (mret_mstatus (r_mstatus h)) (csrs h)) (tp_reg h) (csrr MEPC h) (mpp h).

(** ** start.c *)

Definition timerinit (h : cpu) : cpu :=
  let h := w_mie (Z.lor (r_mie h) MIE_STIE) h in
  let h := w_menvcfg (Z.lor (r_menvcfg h) (Z.shiftl 1 63)) h in
  let h := w_mcounteren (Z.lor (r_mcounteren h) 2) h in
  w_stimecmp (u64 (r_time h + 1000000)) h.

(** [main] is the address of [main]; [int id = r_mhartid()]. *)
Definition start (main : Z) (h : cpu) : cpu :=
  let x := r_mstatus h in
  let x := Z.ldiff x MSTATUS_MPP_MASK in
  let x := Z.lor x MSTATUS_MPP_S in
  let h := w_mstatus x h in
  let h := w_mepc main h in
  let h := w_satp 0 h in
  let h := w_medeleg 0xffff h in
  let h := w_mideleg 0xffff h in
  let h := w_sie (Z.lor (r_sie h) (Z.lor SIE_SEIE SIE_STIE)) h in
  let h := w_pmpaddr0 0x3fffffffffffff h in
  let h := w_pmpcfg0 0xf h in
  let h := timerinit h in
  let id := s32 (r_mhartid h) in
  let h := w_tp (u64 id) h in
  do_mret h.

(** ** proc.c, vm.c and trap.c: what each hart does with its registers *)

Definition cpuid (h : cpu) : Z := s32 (r_tp h).
(** The index in [cpus]. *)
Definition mycpu (h : cpu) : Z := cpuid h.
(** The new [kernel_pagetable]. *)
Definition kvminit (etext trampoline : Z) : M kmem Z := kvmmake etext trampoline.
(** [kernel_pagetable] is the page table of [kvminit]; the fences order memory. *)
Definition kvminithart (kernel_pagetable : Z) (h : cpu) : cpu := w_satp (MAKE_SATP kernel_pagetable) h.
Definition trapinithart (kernelvec : Z) (h : cpu) : cpu := w_stvec kernelvec h.

(** ** plic.c *)

Definition PLIC_SENABLE (hart : Z) : Z := PLIC + 0x2080 + hart * 0x100.
Definition PLIC_SPRIORITY (hart : Z) : Z := PLIC + 0x201000 + hart * 0x2000.
Definition PLIC_SCLAIM (hart : Z) : Z := PLIC + 0x201004 + hart * 0x2000.

Local Notation words := (gmap Z Z).

Definition plicinit (d : words) : words :=
  <[PLIC + VIRTIO0_IRQ * 4 := 1]> (<[PLIC + UART0_IRQ * 4 := 1]> d).

Definition plicinithart (h : cpu) (d : words) : words :=
  let hart := cpuid h in
  <[PLIC_SPRIORITY hart := 0]> (<[PLIC_SENABLE hart := Z.lor (Z.shiftl 1 UART0_IRQ) (Z.shiftl 1 VIRTIO0_IRQ)]> d).

(** The device answers the read of the claim register. *)
Definition plic_claim (claim : Z → Z) (h : cpu) : Z := s32 (claim (PLIC_SCLAIM (cpuid h))).
Definition plic_complete (irq : Z) (h : cpu) (d : words) : words := <[PLIC_SCLAIM (cpuid h) := u32 irq]> d.

(** ** main.c *)

Inductive bcall :=
  | Consoleinit | Printfinit | Printf (s : list Z) | Kinit | Kvminit | Kvminithart | Procinit | Agentcmd_init | Trapinit
  | Trapinithart | Plicinit | Plicinithart | Binit | Iinit | Fileinit | Virtio_disk_init | Cacheinit | Confirminit | Userinit
  | Scheduler.

(** A call, [started = 1], and [while(started == 0)]. *)
Inductive instr := Do (f : bcall) | Start | Wait.

Definition newline : list Z := [10].
Definition hart0_calls : list bcall :=
  [Consoleinit; Printfinit; Printf newline; Printf (bytes "xv6 kernel is booting" ++ newline); Printf newline; Kinit; Kvminit;
   Kvminithart; Procinit; Agentcmd_init; Trapinit; Trapinithart; Plicinit; Plicinithart; Binit; Iinit; Fileinit;
   Virtio_disk_init; Cacheinit; Confirminit; Userinit].
Definition starting (hart : Z) : list Z := Printf.printf (bytes "hart %d starting" ++ newline) [Printf.VInt hart].
Definition main (hart : Z) : list instr :=
  (if hart =? 0 then map Do hart0_calls ++ [Start]
   else [Wait; Do (Printf (starting hart)); Do Kvminithart; Do Trapinithart; Do Plicinithart]) ++ [Do Scheduler].

(** [started], and what each hart has to do yet. *)
Record harts := mk_harts { started : bool; todo : list (list instr) }.

(** One instruction of hart [c], and the call it makes. *)
Definition bstep (s : harts) (c : nat) : option (harts * option bcall) :=
  l ← todo s !! c;
  match l with
  | Do f :: l' => Some (mk_harts (started s) (<[c := l']> (todo s)), Some f)
  | Start :: l' => Some (mk_harts true (<[c := l']> (todo s)), None)
  | Wait :: l' => Some (if started s then mk_harts true (<[c := l']> (todo s)) else s, None)
  | [] => None
  end.

(** The calls made, in order, with their harts. *)
Inductive bsteps : harts → list (nat * bcall) → harts → Prop :=
  | bsteps_nil s : bsteps s [] s
  | bsteps_call s tr s1 c f s2 : bsteps s tr s1 → bstep s1 c = Some (s2, Some f) → bsteps s (tr ++ [(c, f)]) s2
  | bsteps_tau s tr s1 c s2 : bsteps s tr s1 → bstep s1 c = Some (s2, None) → bsteps s tr s2.

Definition power_on (n : nat) : harts := mk_harts false (map (λ c, main (Z.of_nat c)) (seq 0 n)).

(** ** What [start] leaves *)

(** Entry 0 of the physical memory protection, a top-of-range entry, lets the supervisor read,
    write and execute at [a]. *)
Definition pmp_allows (h : cpu) (a : Z) : bool :=
  let cfg := csrr PMPCFG0 h in
  (Z.land (Z.shiftr cfg 3) 3 =? 1) && (Z.land cfg 7 =? 7) && (a <? Z.shiftl (csrr PMPADDR0 h) 2).

Lemma mpp_supervisor x : Z.land (Z.shiftr (Z.lor (Z.ldiff x MSTATUS_MPP_MASK) MSTATUS_MPP_S) 11) 3 = 1.
Proof.
  apply Z.bits_inj'. intros n Hn. rewrite Z.land_spec, Z.shiftr_spec, Z.lor_spec, Z.ldiff_spec by lia.
  destruct (decide (n = 0)) as [->|H0]; [by rewrite andb_false_r|]. destruct (decide (n = 1)) as [->|H1]; [by rewrite andb_false_r|].
  replace (Z.testbit 3 n) with false; [rewrite andb_false_r|]; symmetry; apply Z.bits_above_log2; cbn; lia.
Qed.

Lemma sie_bits main h n : n = 5 ∨ n = 9 → Z.testbit (r_sie (start main h)) n = true.
Proof.
  intros Hn. change (r_sie (start main h)) with
    (Z.land (Z.lor (Z.lor (Z.ldiff (r_mie h) 0xffff) (Z.land (Z.lor (Z.land (r_mie h) 0xffff) (Z.lor SIE_SEIE SIE_STIE)) 0xffff)) MIE_STIE) 0xffff).
  rewrite Z.land_spec, !Z.lor_spec, Z.land_spec, !Z.lor_spec, Z.ldiff_spec, Z.land_spec. destruct Hn as [-> | ->]; generalize (Z.testbit (r_mie h)); intros f; by destruct (f 5), (f 9).
Qed.

(** The state in which [main] starts.  Whatever the registers hold at reset, [start] enters
    [main] in supervisor mode with paging off, [cpuid] the number of the hart, all interrupts and
    exceptions delegated, timer and device interrupts enabled in [sie] (but SIE as it was), the
    timer due and supervisor access to every address of RAM and devices. *)
Theorem start_ready main h :
  0 ≤ r_mhartid h < 2 ^ 31 →
  let h' := start main h in
  at_mode h' = Supervisor ∧ at_pc h' = main ∧ r_satp h' = 0 ∧ cpuid h' = r_mhartid h ∧
  csrr MEDELEG h' = 0xffff ∧ csrr MIDELEG h' = 0xffff ∧ Z.testbit (r_sie h') 9 = true ∧ Z.testbit (r_sie h') 5 = true ∧
  Z.testbit (r_mstatus h') 1 = Z.testbit (r_mstatus h) 1 ∧ csrr STIMECMP h' = u64 (r_time h + 1000000) ∧
  Z.testbit (r_menvcfg h') 63 = true ∧ Z.testbit (r_mcounteren h') 1 = true ∧ ∀ a, 0 ≤ a < PHYSTOP → pmp_allows h' a = true.
Proof.
  intros Hid h'. split_and!.
  - unfold h', start, do_mret, mpp. cbn [at_mode]. pose proof (mpp_supervisor (r_mstatus h)) as Hm.
    change (r_mstatus (w_tp _ _)) with (Z.lor (Z.ldiff (r_mstatus h) MSTATUS_MPP_MASK) MSTATUS_MPP_S). by rewrite Hm.
  - done.
  - done.
  - unfold h', cpuid. change (r_tp (start main h)) with (u64 (s32 (r_mhartid h))). rewrite (s32_id (r_mhartid h)) by lia.
    rewrite u64_id by (unfold is_u64; lia). apply s32_id. lia.
  - done.
  - done.
  - apply sie_bits. by right.
  - apply sie_bits. by left.
  - unfold h'. change (r_mstatus (start main h)) with (mret_mstatus (Z.lor (Z.ldiff (r_mstatus h) MSTATUS_MPP_MASK) MSTATUS_MPP_S)).
    unfold mret_mstatus. destruct (Z.testbit _ 7); rewrite !Z.lor_spec, !Z.ldiff_spec, !Z.lor_spec, !Z.ldiff_spec; 
      generalize (Z.testbit (r_mstatus h) 1); by intros [].
  - done.
  - change (r_menvcfg h') with (Z.lor (r_menvcfg h) (Z.shiftl 1 63)). rewrite Z.lor_spec. apply orb_true_r.
  - change (r_mcounteren h') with (Z.lor (r_mcounteren h) 2). rewrite Z.lor_spec. apply orb_true_r.
  - intros a Ha. change (pmp_allows h' a) with (a <? 0xfffffffffffffc). apply Z.ltb_lt. assert (PHYSTOP = 0x88000000) by done. lia.
Qed.

Lemma start_ready_witness : let h' := start 0x80001000 (mk_cpu (λ _, 5) 77 0x80000000 Machine) in
  at_mode h' = Supervisor ∧ cpuid h' = 5 ∧ Z.testbit (r_sie h') 9 = true.
Proof.
  destruct (start_ready 0x80001000 (mk_cpu (λ _, 5) 77 0x80000000 Machine)) as (H1 & _ & _ & H4 & _ & _ & H7 & _);
    [by vm_compute|]. split; [exact H1|]. split; [exact H4|exact H7].
Defined.

(** ** The interrupt controller *)

Definition NCPU : nat := 8.

(** Hart 0 initialises the sources, and each hart, in any order, itself. *)
Definition plic_boot (order : list cpu) (d : words) : words := fold_left (λ d h, plicinithart h d) order (plicinit d).

(** An interrupt of source [irq] reaches hart [hart]: a priority above the threshold, and enabled there. *)
Definition reaches (d : words) (irq hart : Z) : Prop :=
  ∃ p t e, d !! (PLIC + irq * 4) = Some p ∧ d !! PLIC_SPRIORITY hart = Some t ∧ d !! PLIC_SENABLE hart = Some e ∧
    t < p ∧ Z.testbit e irq = true.

Lemma plic_other order d a : (∀ h, h ∈ order → a ≠ PLIC_SPRIORITY (cpuid h) ∧ a ≠ PLIC_SENABLE (cpuid h)) →
  fold_left (λ d h, plicinithart h d) order d !! a = d !! a.
Proof.
  revert d. induction order as [|h order IH]; intros d Ha; [done|]. cbn [fold_left]. rewrite IH by (intros; apply Ha; by right).
  destruct (Ha h); [left|]. unfold plicinithart. cbv zeta. by rewrite !lookup_insert_ne.
Qed.

Lemma plic_hart order : ∀ d h, h ∈ order → (∀ g, g ∈ order → 0 ≤ cpuid g < Z.of_nat NCPU) →
  let d' := fold_left (λ d h, plicinithart h d) order d in
  d' !! PLIC_SPRIORITY (cpuid h) = Some 0 ∧ d' !! PLIC_SENABLE (cpuid h) = Some 0x402.
Proof.
  induction order as [|g order IH]; intros d h Hh Hr; [by apply elem_of_nil in Hh|]. cbn [fold_left].
  assert (Hm : ∀ k, k ∈ order → cpuid k ∈ map cpuid order) by (intros k Hk; apply list_elem_of_In, in_map; by apply list_elem_of_In).
  destruct (decide (cpuid h ∈ map cpuid order)) as [(k & <- & Hk%list_elem_of_In)%list_elem_of_In%in_map_iff|Hno].
  { apply IH; [done|]. intros; apply Hr; by right. }
  apply elem_of_cons in Hh as [<-|Hh]; [|by destruct Hno; apply Hm].
  pose proof (Hr h ltac:(left)) as Hh'. unfold NCPU in *.
  split; rewrite plic_other; unfold plicinithart; cbv zeta.
  - by rewrite lookup_insert_eq.
  - intros g Hg. pose proof (Hr g ltac:(by right)). split; unfold PLIC_SENABLE, PLIC_SPRIORITY; [|lia].
    intros He. apply Hno. replace (cpuid h) with (cpuid g) by lia. by apply Hm.
  - rewrite lookup_insert_ne by (unfold PLIC_SENABLE, PLIC_SPRIORITY; lia). by rewrite lookup_insert_eq.
  - intros g Hg. pose proof (Hr g ltac:(by right)). split; unfold PLIC_SENABLE, PLIC_SPRIORITY; [lia|].
    intros He. apply Hno. replace (cpuid h) with (cpuid g) by lia. by apply Hm.
Qed.

(** Once every hart is through [plicinithart], in any order, the interrupts of the uart and of
    the disk reach each of them, and no other source is enabled there. *)
Theorem plic_ready order d h irq :
  (∀ g, g ∈ order → 0 ≤ cpuid g < Z.of_nat NCPU) → h ∈ order → irq = UART0_IRQ ∨ irq = VIRTIO0_IRQ →
  reaches (plic_boot order d) irq (cpuid h) ∧ plic_boot order d !! PLIC_SENABLE (cpuid h) = Some (Z.shiftl 1 UART0_IRQ + Z.shiftl 1 VIRTIO0_IRQ).
Proof.
  intros Hr Hh Hirq. unfold plic_boot. destruct (plic_hart order (plicinit d) h Hh Hr) as [H1 H2]. split; [|exact H2].
  assert (Hp : fold_left (λ d h, plicinithart h d) order (plicinit d) !! (PLIC + irq * 4) = Some 1).
  { rewrite plic_other.
    - unfold plicinit. destruct Hirq as [-> | ->]; [|by rewrite lookup_insert_eq]. rewrite lookup_insert_ne by done. by rewrite lookup_insert_eq.
    - intros g Hg. pose proof (Hr g Hg). unfold PLIC_SPRIORITY, PLIC_SENABLE, UART0_IRQ, VIRTIO0_IRQ in *. lia. }
  exists 1, 0, 0x402. split_and!; [done|done|done|done|]. by destruct Hirq as [-> | ->].
Qed.

(** ** The order of boot *)

Definition calls_of (c : nat) (tr : list (nat * bcall)) : list bcall := map snd (filter (λ x, x.1 = c) tr).
Definition calls (l : list instr) : list bcall := omap (λ i, match i with Do f => Some f | _ => None end) l.

Lemma calls_of_snoc c tr d f : calls_of c (tr ++ [(d, f)]) = calls_of c tr ++ (if decide (d = c) then [f] else []).
Proof. unfold calls_of. rewrite filter_app, map_app. f_equal. rewrite filter_cons. cbn. by destruct (decide (d = c)). Qed.

Record binv (s : harts) (tr : list (nat * bcall)) : Prop := {
  bi_zero : ∃ k, todo s !! 0%nat = Some (drop k (main 0)) ∧ calls_of 0 tr = calls (take k (main 0)) ∧ (started s = true → 22 ≤ k)%nat;
  bi_other : ∀ c l, c ≠ 0%nat → todo s !! c = Some l → started s = false → l = main (Z.of_nat c);
  bi_past : ∀ i c f, tr !! i = Some (c, f) → c ≠ 0%nat → hart0_calls `prefix_of` calls_of 0 (take i tr);
}.

(** A call of another hart. *)
Lemma binv_past s tr c f : binv s tr → (c ≠ 0%nat → hart0_calls `prefix_of` calls_of 0 tr) →
  ∀ i d g, (tr ++ [(c, f)]) !! i = Some (d, g) → d ≠ 0%nat → hart0_calls `prefix_of` calls_of 0 (take i (tr ++ [(c, f)])).
Proof.
  intros [_ _ B] Hc i d g Hi Hd. apply lookup_app_Some in Hi as [Hi|[Hi1 Hi2]].
  - rewrite take_app_le by (apply lookup_lt_Some in Hi; lia). by eapply B.
  - destruct (i - length tr)%nat as [|j] eqn:Hj; [|done]. injection Hi2 as <- <-.
    replace i with (length tr) by lia. rewrite take_app_length. by apply Hc.
Qed.

Lemma started_prefix s tr : binv s tr → started s = true → hart0_calls `prefix_of` calls_of 0 tr.
Proof.
  intros [(k & _ & -> & Hk) _ _] Hs. specialize (Hk Hs). replace (take k (main 0)) with (take 22 (main 0) ++ take (k - 22) (drop 22 (main 0))).
  - unfold calls. rewrite omap_app. by exists (calls (take (k - 22) (drop 22 (main 0)))).
  - rewrite take_take_drop. f_equal. lia.
Qed.

Lemma binv_step s tr c s' o : binv s tr → bstep s c = Some (s', o) →
  binv s' (match o with Some f => tr ++ [(c, f)] | None => tr end).
Proof.
  intros B (l & Hl & Hs)%bind_Some. pose proof B as [(k & Hz & Hc & Hk) Ho Hp].
  destruct (decide (c = 0%nat)) as [->|Hc0].
  - replace l with (drop k (main 0)) in * by congruence. destruct (drop k (main 0)) as [|x l'] eqn:Hd; [done|].
    assert (Hx : main 0 !! k = Some x) by (rewrite <- (Nat.add_0_r k), <- lookup_drop, Hd; done).
    assert (Hd' : l' = drop (S k) (main 0)) by (rewrite <- Nat.add_1_r, <- drop_drop, Hd; done).
    assert (Hlen : (0 < length (todo s))%nat) by (by eapply lookup_lt_Some).
    assert (Htake : calls (take (S k) (main 0)) = calls (take k (main 0)) ++ (match x with Do f => [f] | _ => [] end)).
    { rewrite (take_S_r _ _ x Hx). unfold calls. rewrite omap_app. by destruct x. }
    destruct x as [f| |]; injection Hs as <- <-.
    + split; cbn [todo started].
      * exists (S k). rewrite list_lookup_insert_eq, Htake, calls_of_snoc, Hc by done. split_and!; [by rewrite Hd'|done|]. intros H. specialize (Hk H). lia.
      * intros d l0 Hd0. rewrite list_lookup_insert_ne by done. by apply Ho.
      * apply (binv_past s); [done|]. done.
    + split; cbn [todo started].
      * exists (S k). rewrite list_lookup_insert_eq, Htake, app_nil_r by done. split_and!; [by rewrite Hd'|done|]. intros _.
        destruct (decide (k < 21)%nat) as [Hlt|]; [|lia]. do 21 (destruct k as [|k]; [done|]). lia.
      * done.
      * done.
    + exfalso. do 23 (destruct k as [|k]; [done|]). done.
  - destruct (started s) eqn:Hst.
    + assert (Hkeep : ∀ l', binv (mk_harts true (<[c := l']> (todo s))) tr).
      { intros l'. split; cbn [todo started]; [|done|done]. exists k. rewrite list_lookup_insert_ne by done. by split_and!. }
      destruct l as [|[f| |] l']; [done|..]; injection Hs as <- <-; [|by apply Hkeep..].
      destruct (Hkeep l') as [K1 K2 K3]. split; [|done|].
      * rewrite calls_of_snoc, decide_False, app_nil_r by done. exact K1.
      * apply (binv_past s); [done|]. intros _. by apply (started_prefix s).
    + rewrite (Ho c l Hc0 Hl eq_refl) in Hs. unfold main in Hs. rewrite (proj2 (Z.eqb_neq (Z.of_nat c) 0)) in Hs by lia.
      by injection Hs as <- <-.
Qed.

(** The other harts turn paging on, take traps and schedule only after hart 0 has initialised
    everything, whatever the interleaving of the harts. *)
Theorem boot_order n tr s i c f :
  bsteps (power_on (S n)) tr s → tr !! i = Some (c, f) → c ≠ 0%nat → hart0_calls `prefix_of` calls_of 0 (take i tr).
Proof.
  intros Hs. assert (B : binv s tr); [|by apply B].
  assert (B0 : binv (power_on (S n)) []).
  { split; [by exists 0%nat| |by intros i' ? ? ?]. intros d l _ Hd _. cbn [power_on todo] in Hd.
    rewrite list_lookup_fmap in Hd. destruct (seq 0 (S n) !! d) as [d'|] eqn:Hd'; [|done]. injection Hd as <-.
    apply lookup_seq in Hd' as [-> _]. done. }
  remember (power_on (S n)) as s0. clear Heqs0. induction Hs as [s|s tr s1 d g s2 Hs IH Hb|s tr s1 d s2 Hs IH Hb]; [done|..].
  - apply (binv_step _ _ _ _ _ (IH B0) Hb).
  - apply (binv_step _ _ _ _ _ (IH B0) Hb).
Qed.
