(* ===== verification/User.v ===== *)
(** * User programs: system calls, user/ulib.c and user/printf.c

    A user program is a tree of system calls: [Call c k] makes the call [c] and goes on
    with what the kernel answers, [Exit] ends the process, [More] is a loop cut off by its
    fuel.  The answer ([reply]) is the value in a0 and the bytes the kernel stored in
    the caller's buffer; [fork] goes on in the child with 0 and in the parent with a
    pid.  [trace] runs a program against any kernel.  A C string is the list of its bytes
    without the NUL.  The output buffer of printf.c is explicit in [putc]; a call of
    [printf] starts and ends with it empty ([vprintf_empty]). *)

From S2P Require Import Prelude CString Printf.

Local Open Scope Z_scope.

Inductive ucall :=
  | U_fork | U_wait | U_pipe | U_write (fd : Z) (l : list Z) | U_read (fd n : Z) | U_close (fd : Z) | U_kill (pid : Z)
  | U_exec (path : list Z) (argv : list (list Z)) | U_open (path : list Z) (mode : Z) | U_mknod (path : list Z) (major minor : Z)
  | U_unlink (path : list Z) | U_fstat (fd : Z) | U_link (old new : list Z) | U_mkdir (path : list Z) | U_chdir (path : list Z)
  | U_dup (fd : Z) | U_getpid | U_sbrk (n mode : Z) | U_pause (n : Z) | U_uptime | U_setpriority (pid prio : Z)
  | U_getpriority (pid : Z) | U_jail (path : list Z) | U_agent_recv | U_set_deny (op : Z) (cmd : option (list Z))
  | U_get_deny (max : Z) | U_procinfo (max : Z) | U_set_cache (key val : list Z) | U_get_cache (key : list Z) (max : Z)
  | U_dispatch (line : list Z).

Record reply := mk_reply { rv : Z; rbytes : list Z }.

Inductive prog (A : Type) : Type :=
  | Return (a : A)
  | Call (c : ucall) (k : reply → prog A)
  | Exit (status : Z)
  | More.
Arguments Return {A} a.
Arguments Call {A} c k.
Arguments Exit {A} status.
Arguments More {A}.

#[export] Instance prog_ret : MRet prog := @Return.
#[export] Instance prog_bind : MBind prog := λ A B f,
  fix go (p : prog A) : prog B :=
    match p with
    | Return a => f a
    | Call c k => Call c (λ r, go (k r))
    | Exit n => Exit n
    | More => More
    end.

Definition call (c : ucall) : prog reply := Call c Return.
(** The value alone. *)
Definition callv (c : ucall) : prog Z := Call c (λ r, Return (rv r)).
Definition exit {A} (status : Z) : prog A := Exit status.

(** How a run ends. *)
Inductive ending (A : Type) : Type := Returned (a : A) | Exited_with (status : Z) | Cut.
Arguments Returned {A} a.
Arguments Exited_with {A} status.
Arguments Cut {A}.

(** The calls of a run with their answers; the kernel may look at all that happened before. *)
Definition kernel_answers : Type := list (ucall * reply) → ucall → reply.

Fixpoint trace {A} (ka : kernel_answers) (h : list (ucall * reply)) (p : prog A) : list (ucall * reply) * ending A :=
  match p with
  | Return a => (h, Returned a)
  | Call c k => let r := ka h c in trace ka (h ++ [(c, r)]) (k r)
  | Exit n => (h, Exited_with n)
  | More => (h, Cut)
  end.

(** A program on a kernel with a state. *)
Fixpoint run_on {S A} (kernel : ucall → S → reply * S) (p : prog A) (s : S) : ending A * S :=
  match p with
  | Return a => (Returned a, s)
  | Call c k => let '(r, s) := kernel c s in run_on kernel (k r) s
  | Exit n => (Exited_with n, s)
  | More => (Cut, s)
  end.

Lemma run_on_bind {S A B} kernel (p : prog A) (f : A → prog B) (s : S) a s' :
  run_on kernel p s = (Returned a, s') → run_on kernel (p ≫= f) s = run_on kernel (f a) s'.
Proof.
  revert s. induction p as [b|c k IH| |]; intros s; cbn; [by intros [= -> ->]| |done|done].
  destruct (kernel c s) as [r s1]. apply IH.
Qed.

Lemma run_call {S A} kernel c (f : reply → prog A) (s : S) r s' :
  kernel c s = (r, s') → run_on kernel (call c ≫= f) s = run_on kernel (f r) s'.
Proof. intros Hk. cbn. by rewrite Hk. Qed.

Lemma run_callv {S A} kernel c (f : Z → prog A) (s : S) r s' :
  kernel c s = (r, s') → run_on kernel (callv c ≫= f) s = run_on kernel (f (rv r)) s'.
Proof. intros Hk. cbn. by rewrite Hk. Qed.

(** In every run every call satisfies [P], which may depend on what happened before, and
    a result satisfies [Q]. *)
Fixpoint wlp {A} (P : list (ucall * reply) → ucall → Prop) (Q : list (ucall * reply) → A → Prop)
    (h : list (ucall * reply)) (p : prog A) : Prop :=
  match p with
  | Return a => Q h a
  | Call c k => P h c ∧ ∀ r, wlp P Q (h ++ [(c, r)]) (k r)
  | Exit _ | More => True
  end.

Lemma wlp_bind {A B} P (Q : _ → A → Prop) (R : _ → B → Prop) (f : A → prog B) p : ∀ h,
  wlp P Q h p → (∀ h' a, Q h' a → wlp P R h' (f a)) → wlp P R h (p ≫= f).
Proof.
  induction p as [a|c k IH| |]; intros h; cbn; [by auto| |done|done].
  intros [Hc Hk] Hf. split; [done|]. intros r. by apply IH.
Qed.

Lemma wlp_call {B} P (R : _ → B → Prop) c (f : reply → prog B) h :
  P h c → (∀ r, wlp P R (h ++ [(c, r)]) (f r)) → wlp P R h (call c ≫= f).
Proof. done. Qed.

Lemma wlp_callv {B} P (R : _ → B → Prop) c (f : Z → prog B) h :
  P h c → (∀ r, wlp P R (h ++ [(c, r)]) (f (rv r))) → wlp P R h (callv c ≫= f).
Proof. done. Qed.

Lemma wlp_mono {A} P (Q R : _ → A → Prop) p : ∀ h, (∀ h' a, Q h' a → R h' a) → wlp P Q h p → wlp P R h p.
Proof. induction p as [a|c k IH| |]; intros h HQR; cbn; [by auto| |done|done]. intros [Hc Hk]. split; [done|]. intros r. by apply IH. Qed.

(** What [wlp] says of the runs. *)
Lemma wlp_trace {A} P (Q : _ → A → Prop) ka p : ∀ h h' e, wlp P Q h p → trace ka h p = (h', e) →
  (∃ l, h' = h ++ l) ∧ (∀ i c r, (length h ≤ i)%nat → h' !! i = Some (c, r) → P (take i h') c) ∧
  ∀ a, e = Returned a → Q h' a.
Proof.
  induction p as [a|c k IH|n|]; intros h h' e; cbn.
  2: { intros [Hc Hk] Ht. destruct (IH _ _ _ _ (Hk (ka h c)) Ht) as ((l & Hl) & Hp & Hq). rewrite <- app_assoc in Hl. split_and!.
       - by eexists.
       - intros i c' r Hi Hr. destruct (decide (i = length h)) as [->|].
         + rewrite Hl in Hr |- *. rewrite take_app_length. rewrite lookup_app_r, Nat.sub_diag in Hr by lia. by injection Hr as <- <-.
         + apply (Hp i c' r); [rewrite length_app; cbn; lia|done].
       - done. }
  all: intros HQ [= <- <-]; split_and!; [exists []; by rewrite app_nil_r| |by intros b [= <-] || done].
  all: intros i c r Hi Hr; apply lookup_lt_Some in Hr; lia.
Qed.

(** ** user/ulib.c *)

Fixpoint strcmp (p q : list Z) : Z :=
  match p, q with
  | a :: p', b :: q' => if a =? b then strcmp p' q' else u8 a - u8 b
  | a :: _, [] => u8 a
  | [], b :: _ => - u8 b
  | [], [] => 0
  end.

(** From the first [c] on; the NUL is not looked for. *)
Fixpoint strchr (s : list Z) (c : Z) : option (list Z) :=
  match s with
  | [] => None
  | x :: s' => if x =? c then Some s else strchr s' c
  end.

Definition is_digit (c : Z) : bool := (48 <=? c) && (c <=? 57).

Fixpoint atoi_loop (s : list Z) (n : Z) : Z :=
  match s with
  | c :: s' => if is_digit c then atoi_loop s' (s32 (n * 10 + c - 48)) else n
  | [] => n
  end.
Definition atoi (s : list Z) : Z := atoi_loop s 0.

(** [gets]: [i] bytes read. *)
Fixpoint gets_loop (fuel : nat) (max i : Z) : prog (list Z) :=
  match fuel with
  | O => mret []
  | S fuel' =>
      if i + 1 <? max then
        r ← call (U_read 0 1);
        if rv r <? 1 then mret []
        else
          let c := nth 0 (rbytes r) 0 in
          if (c =? 10) || (c =? 13) then mret [c]
          else l ← gets_loop fuel' max (i + 1); mret (c :: l)
      else mret []
  end.
Definition gets (max : Z) : prog (list Z) := gets_loop (Z.to_nat max) max 0.

(** The value and the bytes of the [struct stat]. *)
Definition stat (n : list Z) : prog (Z * list Z) :=
  fd ← callv (U_open n 0);
  if fd <? 0 then mret (-1, [])
  else r ← call (U_fstat fd); _ ← call (U_close fd); mret (rv r, rbytes r).

(** ** user/printf.c *)

Definition PRINTF_BUFSZ : Z := 256.
Definition udigits : list Z := bytes "0123456789ABCDEF".

(** [pbuf] up to [pbuf_len], and [pbuf_fd]. *)
Record pstate := mk_pstate { pbuf : list Z; pbuf_fd : Z }.

(** The [write] that [pflush] makes. *)
Definition pflush (s : pstate) : list (Z * list Z) * pstate :=
  if (0 <? Z.of_nat (length (pbuf s))) && (0 <=? pbuf_fd s)
  then ([(pbuf_fd s, pbuf s)], mk_pstate [] (pbuf_fd s))
  else ([], s).

Definition putc (fd c : Z) (s : pstate) : list (Z * list Z) * pstate :=
  let '(w1, s) :=
    if negb (fd =? pbuf_fd s) || (PRINTF_BUFSZ <=? Z.of_nat (length (pbuf s)))
    then let '(w, s) := pflush s in (w, mk_pstate (pbuf s) fd)
    else ([], s) in
  let s := mk_pstate (pbuf s ++ [c]) (pbuf_fd s) in
  let '(w2, s) := if c =? 10 then pflush s else ([], s) in
  (w1 ++ w2, s).

Fixpoint putcs (fd : Z) (l : list Z) (s : pstate) : list (Z * list Z) * pstate :=
  match l with
  | [] => ([], s)
  | c :: l' => let '(w, s) := putc fd c s in let '(w', s) := putcs fd l' s in (w ++ w', s)
  end.

(** The characters [printint] and [printptr] give to [putc], in order. *)
Definition uprintint (xx base : Z) (sgn : bool) : list Z :=
  let neg := sgn && (xx <? 0) in
  let x := if neg then u64 (- xx) else u64 xx in
  let buf := digit_loop 64 udigits x base [] in
  if neg then 45 :: buf else buf.

Fixpoint uprintptr_loop (n : nat) (x : Z) : list Z :=
  match n with
  | O => []
  | S n' => nth (Z.to_nat (Z.shiftr x 60)) udigits 0 :: uprintptr_loop n' (u64 (Z.shiftl x 4))
  end.
Definition uprintptr (x : Z) : list Z := 48 :: 120 :: uprintptr_loop 16 (u64 x).

(** One conversion after a [%], on the next three bytes of the format. *)
Definition uconv (c0 c1 c2 : Z) (args : list varg) : nat * list Z * list varg :=
  let '(w, rest) := va_word args in
  if c0 =? 100 (* d *) then (0%nat, uprintint (s32 w) 10 true, rest)
  else if (c0 =? 108) && (c1 =? 100) then (1%nat, uprintint (s64 w) 10 true, rest)
  else if (c0 =? 108) && (c1 =? 108) && (c2 =? 100) then (2%nat, uprintint (s64 w) 10 true, rest)
  else if c0 =? 117 (* u *) then (0%nat, uprintint (u32 w) 10 false, rest)
  else if (c0 =? 108) && (c1 =? 117) then (1%nat, uprintint (s64 w) 10 false, rest)
  else if (c0 =? 108) && (c1 =? 108) && (c2 =? 117) then (2%nat, uprintint (s64 w) 10 false, rest)
  else if c0 =? 120 (* x *) then (0%nat, uprintint (u32 w) 16 false, rest)
  else if (c0 =? 108) && (c1 =? 120) then (1%nat, uprintint (s64 w) 16 false, rest)
  else if (c0 =? 108) && (c1 =? 108) && (c2 =? 120) then (2%nat, uprintint (s64 w) 16 false, rest)
  else if c0 =? 112 (* p *) then (0%nat, uprintptr w, rest)
  else if c0 =? 99 (* c *) then (0%nat, [u8 w], rest)
  else if c0 =? 115 (* s *) then let '(s, rest) := va_str args in (0%nat, default (bytes "(null)") s, rest)
  else if c0 =? 37 (* % *) then (0%nat, [37], args)
  else (0%nat, [37; c0], args).

(** The characters a format gives to [putc], in order. *)
Fixpoint vformat (fmt : list Z) (args : list varg) : list Z :=
  match fmt with
  | [] => []
  | cx :: f1 =>
      if negb (u8 cx =? 37) then u8 cx :: vformat f1 args
      else
        match f1 with
        | [] => []
        | c0 :: f2 =>
            let c1 := u8 (hd 0 f2) in
            let c2 := if c1 =? 0 then 0 else u8 (hd 0 (tl f2)) in
            let '(k, out, args) := uconv (u8 c0) c1 c2 args in
            out ++ match k with
                   | O => vformat f2 args
                   | S O => match f2 with _ :: f3 => vformat f3 args | _ => [] end
                   | _ => match f2 with _ :: _ :: f4 => vformat f4 args | _ => [] end
                   end
        end
  end.

(** The [write] calls of a [vprintf], and the buffer after it. *)
Definition vprintf (fd : Z) (fmt : list Z) (args : list varg) (s : pstate) : list (Z * list Z) * pstate :=
  let '(w, s) := putcs fd (vformat fmt args) s in
  let '(w', s) := pflush s in (w ++ w', s).

Fixpoint writes (l : list (Z * list Z)) : prog () :=
  match l with
  | [] => mret ()
  | (fd, b) :: l' => _ ← call (U_write fd b); writes l'
  end.

Definition fprintf (fd : Z) (fmt : list Z) (args : list varg) : prog () :=
  writes (vprintf fd fmt args (mk_pstate [] fd)).1.
Definition printf (fmt : list Z) (args : list varg) : prog () := fprintf 1 fmt args.

(** ** What printf writes *)

(** One [write] of a line, or of a full buffer. *)
Definition is_chunk (l : list Z) : Prop :=
  (∃ l', l = l' ++ [10] ∧ 10 ∉ l' ∧ Z.of_nat (length l') < PRINTF_BUFSZ) ∨ (10 ∉ l ∧ Z.of_nat (length l) = PRINTF_BUFSZ).

(** What is in the buffer between two characters. *)
Record is_rest (l : list Z) : Prop := { rest_line : 10 ∉ l; rest_length : Z.of_nat (length l) ≤ PRINTF_BUFSZ }.

Lemma is_rest_nil : is_rest [].
Proof. split; [by apply not_elem_of_nil|done]. Qed.
#[local] Hint Resolve is_rest_nil : core.

Lemma putc_spec fd c s : 0 ≤ fd → is_rest (pbuf s) → pbuf_fd s = fd →
  ∃ w l, putc fd c s = (map (pair fd) w, mk_pstate l fd) ∧ Forall is_chunk w ∧ is_rest l ∧ concat w ++ l = pbuf s ++ [c].
Proof.
  intros Hfd [Hr1 Hr2] Hs. destruct s as [b f]. cbn [pbuf pbuf_fd] in *. subst f. unfold putc, pflush. cbn [pbuf pbuf_fd].
  rewrite Z.eqb_refl. cbn [negb orb]. rewrite (proj2 (Z.leb_le 0 fd)) by done.
  destruct (Z.leb_spec PRINTF_BUFSZ (Z.of_nat (length b))) as [Hfull|Hfull].
  - assert (Hlen : Z.of_nat (length b) = PRINTF_BUFSZ) by lia. rewrite Hlen. cbn [andb].
    change (0 <? PRINTF_BUFSZ) with true. cbn [andb pbuf pbuf_fd app length]. destruct (Z.eqb_spec c 10) as [->|Hc].
    + rewrite (proj2 (Z.leb_le 0 fd)) by done. exists [b; [10]], []. split_and!; [done| |done|by cbn; rewrite app_nil_r].
      constructor; [by right|]. constructor; [|constructor]. left. exists []. split_and!; [done|by apply not_elem_of_nil|done].
    + exists [b], [c]. split_and!; [done| | |by cbn; rewrite app_nil_r].
      * constructor; [by right|constructor].
      * split; [|done]. intros Hx%list_elem_of_singleton. congruence.
  - cbn [pbuf pbuf_fd app]. rewrite length_app. cbn [length]. destruct (Z.eqb_spec c 10) as [->|Hc].
    + rewrite (proj2 (Z.ltb_lt 0 _)), (proj2 (Z.leb_le 0 fd)) by lia. cbn [andb]. exists [b ++ [10]], [].
      split_and!; [done| |done|by cbn; rewrite !app_nil_r]. constructor; [|constructor]. left. exists b. split_and!; [done|done|lia].
    + exists [], (b ++ [c]). split_and!; [done|constructor| |done]. split; [|rewrite length_app; cbn [length]; lia].
      intros [?|Hx]%elem_of_app; [done|]. apply list_elem_of_singleton in Hx. congruence.
Qed.

Lemma putcs_spec fd l : ∀ s, 0 ≤ fd → is_rest (pbuf s) → pbuf_fd s = fd →
  ∃ w r, putcs fd l s = (map (pair fd) w, mk_pstate r fd) ∧ Forall is_chunk w ∧ is_rest r ∧ concat w ++ r = pbuf s ++ l.
Proof.
  induction l as [|c l IH]; intros s Hfd Hr Hs.
  - exists [], (pbuf s). split_and!; [|done|done|by rewrite app_nil_r]. destruct s. cbn in *. by subst.
  - destruct (putc_spec fd c s Hfd Hr Hs) as (w1 & l1 & E1 & C1 & R1 & A1).
    destruct (IH (mk_pstate l1 fd) Hfd R1 eq_refl) as (w2 & l2 & E2 & C2 & R2 & A2).
    exists (w1 ++ w2), l2. cbn [putcs]. rewrite E1, E2, map_app. split_and!; [done|by apply Forall_app|done|].
    rewrite concat_app, <- app_assoc, A2. cbn [pbuf]. rewrite app_assoc, A1, <- app_assoc. done.
Qed.

Lemma putcs_first fd l f0 : l ≠ [] → putcs fd l (mk_pstate [] f0) = putcs fd l (mk_pstate [] fd).
Proof.
  destruct l as [|c l]; [done|]. intros _. cbn [putcs].
  assert (putc fd c (mk_pstate [] f0) = putc fd c (mk_pstate [] fd)) as ->; [|done].
  unfold putc, pflush. cbn [pbuf pbuf_fd]. rewrite Z.eqb_refl. by destruct (Z.eqb_spec fd f0) as [->|].
Qed.

Lemma vprintf_run fd fmt args f0 : 0 ≤ fd →
  ∃ w r f, vprintf fd fmt args (mk_pstate [] f0) = (map (pair fd) (w ++ r), mk_pstate [] f) ∧
    concat (w ++ r) = vformat fmt args ∧ Forall is_chunk w ∧ (r = [] ∨ ∃ l, r = [l] ∧ is_rest l).
Proof.
  intros Hfd. unfold vprintf. destruct (decide (vformat fmt args = [])) as [->|Hne].
  { exists [], [], f0. split_and!; [done|done|done|by left]. }
  rewrite putcs_first by done.
  destruct (putcs_spec fd (vformat fmt args) (mk_pstate [] fd) Hfd is_rest_nil eq_refl) as (w & r & -> & C & R & A).
  unfold pflush. cbn [pbuf pbuf_fd]. rewrite (proj2 (Z.leb_le 0 fd)) by done. destruct r as [|c r].
  - change (0 <? Z.of_nat (length (@nil Z))) with false. cbn [andb]. cbn [pbuf app] in A. rewrite app_nil_r in A. exists w, [], fd. rewrite !app_nil_r.
    split_and!; [done|exact A|done|by left].
  - exists w, [c :: r], fd. rewrite map_app. split_and!; [done| |done|right; by exists (c :: r)].
    rewrite concat_app. cbn [concat]. by rewrite app_nil_r.
Qed.

(** What a [printf] of a user program writes: its [write] calls carry the formatted
    characters in order; each call is one line of at most 256 characters with its newline,
    or 256 characters of a longer line; only the last may be an unfinished line.  The
    buffer is empty afterwards: nothing is left for a later call or lost at exit. *)
Theorem vprintf_writes fd fmt args f0 : 0 ≤ fd →
  ∃ w r f, vprintf fd fmt args (mk_pstate [] f0) = (map (pair fd) (w ++ r), mk_pstate [] f) ∧
    concat (w ++ r) = vformat fmt args ∧ Forall is_chunk w ∧ (r = [] ∨ ∃ l, r = [l] ∧ is_rest l).
Proof. apply vprintf_run. Qed.

Lemma vprintf_all fd fmt args f0 : 0 ≤ fd → ∃ w, (vprintf fd fmt args (mk_pstate [] f0)).1 = map (pair fd) w.
Proof. intros Hfd. destruct (vprintf_run fd fmt args f0 Hfd) as (w & r & f & -> & _). by exists (w ++ r). Qed.

(** A line of output is one [write]. *)
Lemma vprintf_writes_witness :
  vprintf 1 (bytes "[agentd] WROTE %d bytes to %s
") [VInt 12; VStr (Some (bytes "a"))] (mk_pstate [] (-1)) =
    ([(1, bytes "[agentd] WROTE 12 bytes to a
")], mk_pstate [] 1) ∧
  ∃ w r f, vprintf 2 (bytes "x") [] (mk_pstate [] 1) = (map (pair 2) (w ++ r), mk_pstate [] f).
Proof.
  split; [vm_compute; reflexivity|]. destruct (vprintf_writes 2 (bytes "x") [] 1 ltac:(lia)) as (w & r & f & E & _).
  exists w, r, f. exact E.
Defined.

(** A [printf] makes writes to descriptor 1, and nothing else. *)
Lemma wlp_printf P (Q : _ → () → Prop) fmt args : (∀ h b, P h (U_write 1 b)) → (∀ h, Q h ()) →
  ∀ h, wlp P Q h (printf fmt args).
Proof.
  intros HP HQ. unfold printf, fprintf. destruct (vprintf_all 1 fmt args 1 ltac:(lia)) as (w & ->).
  induction w as [|b w IH]; intros h; [apply HQ|]. split; [apply HP|]. intros r. apply IH.
Qed.

(** ** A kernel with one file to read and one to write *)

(** What is left of the file, how many bytes the next reads give at most, the output. *)
Record fkernel := mk_fk { fk_rest : list Z; fk_sched : list nat; fk_out : list Z }.

Definition file_kernel (c : ucall) (k : fkernel) : reply * fkernel :=
  match c with
  | U_read _ n =>
      let m := Nat.min (S (hd 0%nat (fk_sched k))) (Nat.min (Z.to_nat n) (length (fk_rest k))) in
      (mk_reply (Z.of_nat m) (take m (fk_rest k)), mk_fk (drop m (fk_rest k)) (tl (fk_sched k)) (fk_out k))
  | U_write _ l => (mk_reply (Z.of_nat (length l)) [], mk_fk (fk_rest k) (fk_sched k) (fk_out k ++ l))
  | _ => (mk_reply 0 [], k)
  end.

Lemma writes_run w k : run_on file_kernel (writes (map (pair 1) w)) k = (Returned (), mk_fk (fk_rest k) (fk_sched k) (fk_out k ++ concat w)).
Proof.
  revert k. induction w as [|b w IH]; intros [r s o]; cbn [map writes concat]; [cbn; by rewrite app_nil_r|].
  erewrite run_call by reflexivity. rewrite IH. cbn [fk_rest fk_sched fk_out]. by rewrite app_assoc.
Qed.

Lemma printf_run fmt args k : run_on file_kernel (printf fmt args) k = (Returned (), mk_fk (fk_rest k) (fk_sched k) (fk_out k ++ vformat fmt args)).
Proof.
  unfold printf, fprintf. destruct (vprintf_run 1 fmt args 1 ltac:(lia)) as (w & r & f & -> & E & _). cbn [fst]. by rewrite writes_run, E.
Qed.

(** One read: some bytes of what is left, or none at the end. *)
Lemma read_file fd n k : ∃ a b s', fk_rest k = a ++ b ∧ (length a ≤ Z.to_nat n)%nat ∧ (fk_rest k ≠ [] → 0 < n → a ≠ []) ∧
  file_kernel (U_read fd n) k = (mk_reply (Z.of_nat (length a)) a, mk_fk b s' (fk_out k)).
Proof.
  set (m := Nat.min (S (hd 0%nat (fk_sched k))) (Nat.min (Z.to_nat n) (length (fk_rest k)))).
  exists (take m (fk_rest k)), (drop m (fk_rest k)), (tl (fk_sched k)). rewrite take_drop, length_take_le by lia. split_and!; [done|lia| |done].
  intros Hne Hn. destruct (fk_rest k); [done|]. unfold m. cbn [length]. destruct (Z.to_nat n) eqn:E; [lia|]. by cbn.
Qed.
