(* ===== verification/Ulib.v ===== *)
(** * user/ulib.c: memory routines and the entry of a program

    As in CString.v, pointers are indices into one flat memory.  [char] is unsigned on
    RISC-V.  The string functions of ulib.c that the programs use are in User.v. *)

From S2P Require Import Prelude CString User.

Local Open Scope Z_scope.

(** [start]: [main], then [exit] with its result. *)
Definition start (main : list (list Z) → prog Z) (argv : list (list Z)) : prog () :=
  r ← main argv; exit r.

Definition ulib_memset (mem : list Z) (dst : nat) (c : Z) (n : nat) : list Z := memset_loop dst c n mem.

(** [n] is an [int]. *)
Definition ulib_memmove (mem : list Z) (dst src : nat) (n : Z) : list Z :=
  let k := Z.to_nat n in
  if (dst <? src)%nat then move_forward mem dst src k
  else move_backward mem (dst + k) (src + k) k.

(** [n] is a [uint]; [memmove] takes it as an [int]. *)
Definition ulib_memcpy (mem : list Z) (dst src : nat) (n : Z) : list Z := ulib_memmove mem dst src (s32 n).

Fixpoint ulib_memcmp (mem : list Z) (p1 p2 n : nat) : Z :=
  match n with
  | O => 0
  | S n' => if negb (rd mem p1 =? rd mem p2) then rd mem p1 - rd mem p2 else ulib_memcmp mem (S p1) (S p2) n'
  end.

(** The bytes up to the end of memory are the fuel. *)
Fixpoint strcpy_loop (fuel : nat) (mem : list Z) (s t : nat) : list Z :=
  match fuel with
  | O => mem
  | S fuel' =>
      let c := rd mem t in
      let mem' := <[s := c]> mem in
      if c =? 0 then mem' else strcpy_loop fuel' mem' (S s) (S t)
  end.
Definition strcpy (mem : list Z) (s t : nat) : list Z := strcpy_loop (length mem - t) mem s t.

Fixpoint strlen_loop (fuel : nat) (mem : list Z) (s n : nat) : nat :=
  match fuel with
  | O => n
  | S fuel' => if rd mem (s + n) =? 0 then n else strlen_loop fuel' mem s (S n)
  end.
Definition ulib_strlen (mem : list Z) (s : nat) : nat := strlen_loop (length mem - s) mem s 0.

(** ** What they do *)

Lemma list_rd_eq (l l' : list Z) : length l = length l' → (∀ i, (i < length l)%nat → rd l i = rd l' i) → l = l'.
Proof.
  intros Hl Hr. apply list_eq_same_length with (length l); [done|done|]. intros i x y Hi Hx Hy.
  specialize (Hr i Hi). unfold rd in Hr. by rewrite (nth_lookup_Some _ _ _ _ Hx), (nth_lookup_Some _ _ _ _ Hy) in Hr.
Qed.

Lemma move_backward_same n : ∀ mem d, (d + n ≤ length mem)%nat → move_backward mem (d + n) (d + n) n = mem.
Proof.
  induction n as [|n IH]; intros mem d Hd; [done|]. cbn [move_backward]. replace (d + S n - 1)%nat with (d + n)%nat by lia.
  destruct (lookup_lt_is_Some_2 mem (d + n)) as [x Hx]; [lia|]. rewrite (nth_lookup_Some _ _ _ _ Hx), list_insert_id by done. apply IH. lia.
Qed.

Lemma ulib_memcmp_kernel mem n : ∀ s1 s2, ulib_memcmp mem s1 s2 n = memcmp mem s1 s2 n.
Proof. induction n as [|n IH]; intros s1 s2; cbn; [done|]. by rewrite IH. Qed.

Lemma strlen_loop_spec mem s fuel : ∀ n, (s + n + fuel = length mem)%nat →
  strlen_loop fuel mem s n = (n + strlen (drop (s + n) mem))%nat.
Proof.
  induction fuel as [|fuel IH]; intros n Hl; cbn [strlen_loop].
  - rewrite drop_ge by lia. cbn. lia.
  - destruct (lookup_lt_is_Some_2 mem (s + n)) as [x Hx]; [lia|]. rewrite (drop_S _ x) by done. cbn [strlen].
    rewrite (nth_lookup_Some _ _ _ _ Hx). destruct (x =? 0); [lia|]. rewrite IH by lia.
    replace (s + S n)%nat with (S (s + n)) by lia. lia.
Qed.

(** [strlen] counts the bytes before the NUL. *)
Lemma ulib_strlen_spec mem s : (s ≤ length mem)%nat → ulib_strlen mem s = length (cstring (drop s mem)).
Proof. intros Hs. unfold ulib_strlen. rewrite strlen_loop_spec by lia. by rewrite Nat.add_0_r, strlen_cstring. Qed.

(** The memory routines of user programs do what those of the kernel do. *)
Theorem ulib_memmove_kernel mem dst src n :
  0 ≤ n → (dst + Z.to_nat n ≤ length mem)%nat → (src + Z.to_nat n ≤ length mem)%nat →
  ulib_memmove mem dst src n = memmove mem dst src (Z.to_nat n).
Proof.
  intros Hn Hd Hs. assert (Hc : copied mem (ulib_memmove mem dst src n) dst src (Z.to_nat n)).
  { unfold ulib_memmove. destruct (Nat.ltb_spec dst src); [by apply move_forward_spec; [..|lia]|].
    destruct (decide (src = dst)) as [->|]; [|apply move_backward_spec; [done|done|lia]].
    rewrite move_backward_same by done. split; [done|]. intros i _. destruct (_ && _) eqn:E; [|done].
    apply andb_true_iff in E as [E%Nat.leb_le _]. f_equal. lia. }
  destruct Hc as [H1 H2], (memmove_copied mem dst src (Z.to_nat n) Hd Hs) as [H3 H4].
  apply list_rd_eq; [congruence|]. intros i Hi. rewrite H1 in Hi. by rewrite H2, H4.
Qed.
