(* ===== verification/Agentd.v ===== *)
(** * user/agentd.c: the jailed agent

    The process that runs the commands the kernel lets through.  A handler is a
    user program ([prog]) on its argument, the bytes after the second bar; only
    [do_setprio] changes the function table, which [execute] threads through.  Where the C
    code cuts a string in place with a NUL, the model has the two parts. *)

From S2P Require Import Prelude CString Printf User.

Local Open Scope Z_scope.

Definition JAIL : list Z := bytes "/agentbox".

Record fn := mk_fn { fname : list Z; allowed : bool; fprio : Z; usage : list Z }.

Definition table : list fn :=
  [mk_fn (bytes "PRINT") true 10 (bytes "PRINT|<msg>");
   mk_fn (bytes "CHAT") true 10 (bytes "CHAT|<msg>");
   mk_fn (bytes "READ") true 8 (bytes "READ|<file>");
   mk_fn (bytes "WRITE") true 12 (bytes "WRITE|<file>:<text>");
   mk_fn (bytes "LS") true 8 (bytes "LS|");
   mk_fn (bytes "NICE") true 5 (bytes "NICE|<pid>:<prio 0..20>");
   mk_fn (bytes "LIST") true 0 (bytes "LIST|");
   mk_fn (bytes "SETPRIO") true 5 (bytes "SETPRIO|<FN>:<prio 0..20>");
   mk_fn (bytes "PS") true 8 (bytes "PS|");
   mk_fn (bytes "HELP") true 0 (bytes "HELP|");
   mk_fn (bytes "SPAWN") true 10 (bytes "SPAWN|<bin>|<argv space-separated>")].

Fixpoint streq (a b : list Z) : bool :=
  match a, b with
  | x :: a', y :: b' => if x =? y then streq a' b' else false
  | [], [] => true
  | _, _ => false
  end.

(** The digits read, whether there were any, and what follows. *)
Fixpoint parse_digits (s : list Z) (v : Z) (any : bool) : Z * bool * list Z :=
  match s with
  | c :: s' => if is_digit c then parse_digits s' (s32 (v * 10 + (c - 48))) true else (v, any, s)
  | [] => (v, any, [])
  end.

Definition parsei (s : list Z) : option Z :=
  let neg := hd 0 s =? 45 in
  let '(v, any, rest) := parse_digits (if neg then tl s else s) 0 false in
  if negb any || negb (hd 0 rest =? 0) then None else Some (if neg then s32 (- v) else v).

Fixpoint unescape_inplace (s : list Z) : list Z :=
  match s with
  | [] => []
  | c :: s' =>
      if c =? 92 then
        match s' with
        | d :: s'' => if d =? 110 then 10 :: unescape_inplace s'' else c :: unescape_inplace s'
        | [] => [c]
        end
      else c :: unescape_inplace s'
  end.

(** [while( *c && *c != ch) c++;]: the parts before and after, if [ch] is there. *)
Fixpoint split_at (ch : Z) (s : list Z) : option (list Z * list Z) :=
  match s with
  | [] => None
  | c :: s' => if c =? ch then Some ([], s') else '(a, b) ← split_at ch s'; Some (c :: a, b)
  end.

(** ** Command handlers *)

Definition do_print (arg : list Z) : prog () :=
  printf (bytes "[agentd] %s
") [VStr (Some (unescape_inplace arg))].

Definition do_chat (arg : list Z) : prog () :=
  printf (bytes "[chat] %s
") [VStr (Some (unescape_inplace arg))].

Section fuel.
Context (fuel : nat).

Fixpoint read_loop (n : nat) (fd : Z) : prog () :=
  match n with
  | O => More
  | S n' =>
      r ← call (U_read fd 128);
      if 0 <? rv r then _ ← call (U_write 1 (take (Z.to_nat (rv r)) (rbytes r))); read_loop n' fd else mret ()
  end.

Definition do_read (arg : list Z) : prog () :=
  fd ← callv (U_open arg 0);
  if fd <? 0 then printf (bytes "[agentd] READ: '%s' not reachable inside jail
") [VStr (Some arg)]
  else
    _ ← printf (bytes "[agentd] READ %s:
") [VStr (Some arg)];
    _ ← read_loop fuel fd;
    _ ← call (U_close fd);
    mret ().

(** [O_CREATE | O_TRUNC | O_RDWR] *)
Definition do_write (arg : list Z) : prog () :=
  match split_at 58 arg with
  | None => printf (bytes "[agentd] WRITE: expected <file>:<data>
") []
  | Some (file, data) =>
      let data := unescape_inplace data in
      fd ← callv (U_open file (Z.lor (Z.lor 0x200 0x400) 0x002));
      if fd <? 0 then printf (bytes "[agentd] WRITE: '%s' not writable inside jail
") [VStr (Some file)]
      else
        let len := Z.of_nat (length data) in
        wn ← callv (U_write fd data);
        _ ← call (U_close fd);
        if negb (wn =? len) then printf (bytes "[agentd] WRITE: short/failed write to %s (%d/%d bytes)
") [VStr (Some file); VInt wn; VInt len]
        else printf (bytes "[agentd] WROTE %d bytes to %s
") [VInt wn; VStr (Some file)]
  end.

(** The entries printed. *)
Fixpoint ls_loop (n : nat) (fd count : Z) : prog Z :=
  match n with
  | O => More
  | S n' =>
      r ← call (U_read fd 16);
      if negb (rv r =? 16) then mret count
      else if le_decode (sub 0 2 (rbytes r)) =? 0 then ls_loop n' fd count
      else
        let name := cstring (sub 2 14 (rbytes r)) in
        if streq name (bytes ".") || streq name (bytes "..") then ls_loop n' fd count
        else
          '(e, st) ← User.stat name;
          _ ← (if e <? 0 then printf (bytes "[agentd]   %s
") [VStr (Some name)]
               else printf (bytes "[agentd]   %s (%d bytes)
") [VStr (Some name); VInt (le_decode (sub 16 8 st))]);
          ls_loop n' fd (count + 1)
  end.

Definition do_ls : prog () :=
  fd ← callv (U_open (bytes ".") 0);
  if fd <? 0 then printf (bytes "[agentd] LS: cannot open sandbox directory
") []
  else
    _ ← printf (bytes "[agentd] sandbox file list:
") [];
    count ← ls_loop fuel fd 0;
    _ ← call (U_close fd);
    if count =? 0 then printf (bytes "[agentd]   (sandbox is empty)
") [] else mret ().
End fuel.

Definition do_nice (arg : list Z) : prog () :=
  match split_at 58 arg with
  | None => printf (bytes "[agentd] NICE: expected <pid>:<prio>
") []
  | Some (a, b) =>
      match parsei a, parsei b with
      | Some pid, Some prio =>
          r ← callv (U_setpriority pid prio);
          if r <? 0 then printf (bytes "[agentd] NICE: denied (pid=%d prio=%d)
") [VInt pid; VInt prio]
          else printf (bytes "[agentd] pid=%d prio=%d
") [VInt pid; VInt prio]
      | _, _ => printf (bytes "[agentd] NICE: bad numbers
") []
      end
  end.

(** The test of [in_snapshot] at the start of a line. *)
Fixpoint at_line (name t : list Z) : bool :=
  match name, t with
  | [], [] => true
  | [], c :: _ => c =? 10
  | a :: name', c :: t' => if negb (c =? 10) && (a =? c) then at_line name' t' else false
  | _ :: _, [] => false
  end.

Fixpoint next_line (s : list Z) : list Z :=
  match s with
  | [] => []
  | c :: s' => if c =? 10 then s' else next_line s'
  end.

Fixpoint in_snapshot_loop (n : nat) (s name : list Z) : bool :=
  match n, s with
  | S n', _ :: _ => if at_line name s then true else in_snapshot_loop n' (next_line s) name
  | _, _ => false
  end.
Definition in_snapshot (snap name : list Z) : bool := in_snapshot_loop (length snap) snap name.

Fixpoint list_lines (snap : list Z) (t : list fn) : prog () :=
  match t with
  | [] => mret ()
  | f :: t' =>
      let acc := if in_snapshot snap (fname f) then bytes "DENY(kernel)"
                 else if allowed f then bytes "ALLOW" else bytes "DENY" in
      _ ← printf (bytes "[agentd]   %s	%s	prio=%d
") [VStr (Some (fname f)); VStr (Some acc); VInt (fprio f)];
      list_lines snap t'
  end.

Definition DENY_SNAP : Z := 16 * 24.

Definition do_list (t : list fn) : prog () :=
  r ← call (U_get_deny DENY_SNAP);
  let n := if rv r <? 0 then 0 else rv r in
  let snap := cstring (take (Z.to_nat n) (rbytes r)) in
  _ ← printf (bytes "[agentd] agent functions (name | access | priority):
") [];
  list_lines snap t.

(** [table[i].priority = prio] *)
Definition set_fprio (prio : Z) (f : fn) : fn := mk_fn (fname f) (allowed f) prio (usage f).

Definition do_setprio (arg : list Z) (t : list fn) : prog (list fn) :=
  match split_at 58 arg with
  | None => _ ← printf (bytes "[agentd] SETPRIO: expected <FN>:<prio>
") []; mret t
  | Some (name, b) =>
      match parsei b with
      | Some prio =>
          if (prio <? 0) || (20 <? prio) then _ ← printf (bytes "[agentd] SETPRIO: priority must be 0..20
") []; mret t
          else
            match find_index (λ f, streq (fname f) name) t with
            | Some i =>
                _ ← printf (bytes "[agentd] %s priority set to %d
") [VStr (Some name); VInt prio];
                mret (alter (set_fprio prio) i t)
            | None => _ ← printf (bytes "[agentd] SETPRIO: no such function '%s'
") [VStr (Some name)]; mret t
            end
      | None => _ ← printf (bytes "[agentd] SETPRIO: priority must be 0..20
") []; mret t
      end
  end.

Definition state_names : list (list Z) :=
  [bytes "unused"; bytes "used"; bytes "sleep"; bytes "runble"; bytes "run"; bytes "zombie"].

(** An [int] field of entry [i] of the [struct procinfo] array. *)
Definition pi_int (l : list Z) (i off : nat) : Z := s32 (le_decode (sub (32 * i + off) 4 l)).

Fixpoint ps_lines (n i : nat) (l : list Z) : prog () :=
  match n with
  | O => mret ()
  | S n' =>
      let st := pi_int l i 4 in
      let s := if (0 <=? st) && (st <? 6) then nth (Z.to_nat st) state_names [] else bytes "?" in
      _ ← printf (bytes "[agentd]   %d	%s	%d	%s%s%s
")
            [VInt (pi_int l i 0); VStr (Some s); VInt (pi_int l i 8); VStr (Some (cstring (sub (32 * i + 16) 16 l)));
             VStr (Some (if pi_int l i 8 <? 0 then bytes " [K]" else []));
             VStr (Some (if negb (pi_int l i 12 =? 0) then bytes " [A]" else []))];
      ps_lines n' (S i) l
  end.

Definition do_ps : prog () :=
  r ← call (U_procinfo 64);
  if rv r <? 0 then printf (bytes "[agentd] PS: procinfo failed
") []
  else
    _ ← printf (bytes "[agentd] processes (pid | state | prio | name):
") [];
    ps_lines (Z.to_nat (rv r)) 0 (rbytes r).

Fixpoint help_lines (t : list fn) : prog () :=
  match t with
  | [] => mret ()
  | f :: t' =>
      _ ← printf (bytes "[agentd]   %s	%s	prio=%d
")
            [VStr (Some (usage f)); VStr (Some (if allowed f then bytes "ALLOW" else bytes "DENY")); VInt (fprio f)];
      help_lines t'
  end.

Definition do_help (t : list fn) : prog () :=
  _ ← printf (bytes "[agentd] commands (usage | access | priority):
") [];
  help_lines t.

Fixpoint skip_spaces (t : list Z) : list Z :=
  match t with
  | c :: t' => if c =? 32 then skip_spaces t' else t
  | [] => []
  end.

(** The bytes up to a space, and what follows the space. *)
Fixpoint take_word (t : list Z) : list Z * list Z :=
  match t with
  | c :: t' => if c =? 32 then ([], t') else let '(w, r) := take_word t' in (c :: w, r)
  | [] => ([], [])
  end.

(** The loop that fills [argv], [room] entries before [argc] is 8. *)
Fixpoint argv_loop (room : nat) (t : list Z) : list (list Z) :=
  match room, t with
  | S room', _ :: _ =>
      match skip_spaces t with
      | [] => []
      | t1 => let '(w, r) := take_word t1 in w :: argv_loop room' r
      end
  | _, _ => []
  end.

(** [fork], [exec] in the child, [wait] in the parent. *)
Definition spawn (bin : list Z) (argv : list (list Z)) : prog () :=
  pid ← callv U_fork;
  if pid <? 0 then printf (bytes "[agentd] SPAWN: fork failed
") []
  else if pid =? 0 then
    _ ← call (U_exec bin argv);
    _ ← printf (bytes "[agentd] SPAWN: exec %s failed
") [VStr (Some bin)];
    exit 1
  else
    r ← call U_wait;
    let st := match rbytes r with [] => 0 | l => s32 (le_decode (take 4 l)) end in
    printf (bytes "[agentd] SPAWN %s done (status=%d)
") [VStr (Some bin); VInt st].

Definition do_spawn (arg : list Z) : prog () :=
  match split_at 124 arg with
  | None => spawn arg [arg]
  | Some (bin, args) => spawn bin (bin :: argv_loop 7 args)
  end.

(** ** Dispatch *)

Section main.
Context (fuel : nat).

(** The calls of [execute] on a function of the table. *)
Definition run_fn (cmd arg : list Z) (t : list fn) : prog (list fn) :=
  if streq cmd (bytes "PRINT") then _ ← do_print arg; mret t
  else if streq cmd (bytes "CHAT") then _ ← do_chat arg; mret t
  else if streq cmd (bytes "READ") then _ ← do_read fuel arg; mret t
  else if streq cmd (bytes "WRITE") then _ ← do_write arg; mret t
  else if streq cmd (bytes "LS") then _ ← do_ls fuel; mret t
  else if streq cmd (bytes "NICE") then _ ← do_nice arg; mret t
  else if streq cmd (bytes "LIST") then _ ← do_list t; mret t
  else if streq cmd (bytes "SETPRIO") then do_setprio arg t
  else if streq cmd (bytes "PS") then _ ← do_ps; mret t
  else if streq cmd (bytes "HELP") then _ ← do_help t; mret t
  else if streq cmd (bytes "SPAWN") then _ ← do_spawn arg; mret t
  else mret t.

Definition execute (line : list Z) (t : list fn) : prog (list fn) :=
  if negb (streq (take 4 line) (bytes "REQ|")) then mret t
  else
    match split_at 124 (drop 4 line) with
    | None => _ ← printf (bytes "[agentd] malformed: %s
") [VStr (Some line)]; mret t
    | Some (cmd, arg) =>
        match find_index (λ f, streq cmd (fname f)) t with
        | Some i =>
            let f := nth i t (mk_fn [] false 0 []) in
            if negb (allowed f) then _ ← printf (bytes "[agentd] DENY '%s' (not whitelisted)
") [VStr (Some cmd)]; mret t
            else
              pid ← callv U_getpid;
              _ ← call (U_setpriority pid (fprio f));
              run_fn cmd arg t
        | None => _ ← printf (bytes "[agentd] unknown cmd '%s'
") [VStr (Some cmd)]; mret t
        end
    end.

Definition jail_bins : list (list Z) :=
  [bytes "echo"; bytes "cat"; bytes "ls"; bytes "wc"; bytes "grep"; bytes "mkdir"; bytes "rm"; bytes "ln"; bytes "kill"; bytes "sh"].

Fixpoint populate_loop (bins : list (list Z)) : prog () :=
  match bins with
  | [] => mret ()
  | b :: bins' => _ ← call (U_link (47 :: b) (JAIL ++ 47 :: b)); populate_loop bins'
  end.
Definition populate_jail : prog () := populate_loop jail_bins.

(** [while(agent_recv(line) >= 0) execute(line);] *)
Fixpoint recv_loop (n : nat) (t : list fn) : prog () :=
  match n with
  | O => More
  | S n' =>
      r ← call U_agent_recv;
      if 0 <=? rv r then t ← execute (cstring (rbytes r)) t; recv_loop n' t else mret ()
  end.

Definition main : prog () :=
  _ ← call (U_mkdir JAIL);
  _ ← populate_jail;
  r ← callv (U_jail JAIL);
  if r <? 0 then
    _ ← printf (bytes "[agentd] FATAL: jail(%s) failed
") [VStr (Some JAIL)];
    exit 1
  else
    _ ← printf (bytes "[agentd] jailed LLM agent runtime ready (root=%s)
") [VStr (Some JAIL)];
    _ ← recv_loop fuel table;
    exit 0.
End main.

(** ** Which system calls the agent makes, and when *)

(** Before [jail] succeeded; in the jail; in a child it forked. *)
Inductive umode := Setup | Jailed | Child.

Definition mode_step (m : umode) (x : ucall * reply) : umode :=
  match m, x.1 with
  | Setup, U_jail _ => if 0 <=? rv x.2 then Jailed else Setup
  | Jailed, U_fork => if rv x.2 =? 0 then Child else Jailed
  | _, _ => m
  end.
Definition mode (h : list (ucall * reply)) : umode := fold_left mode_step h Setup.

Definition just_forked (h : list (ucall * reply)) : bool :=
  match last h with Some (U_fork, _) => true | _ => false end.

Definition agent_may (h : list (ucall * reply)) (c : ucall) : bool :=
  match mode h, c with
  | Setup, U_mkdir p | Setup, U_jail p => bool_decide (p = JAIL)
  | Setup, U_link a b => bool_decide ((a, b) ∈ map (λ x, (47 :: x, JAIL ++ 47 :: x)) jail_bins)
  | Setup, U_write fd _ => fd =? 1
  | Jailed, (U_agent_recv | U_getpid | U_setpriority _ _ | U_open _ _ | U_read _ _ | U_write _ _ | U_close _ | U_fstat _
      | U_get_deny _ | U_procinfo _ | U_fork | U_wait) => true
  | Child, U_exec _ _ => just_forked h
  | Child, U_write fd _ => fd =? 1
  | _, _ => false
  end.

Definition Pol (h : list (ucall * reply)) (c : ucall) : Prop := agent_may h c = true.

Lemma mode_snoc h x : mode (h ++ [x]) = mode_step (mode h) x.
Proof. unfold mode. by rewrite fold_left_app. Qed.

(** A part of the program that starts and ends in mode [m] and keeps the policy. *)
Definition keeps (m : umode) {A} (p : prog A) : Prop := ∀ h, mode h = m → wlp Pol (λ h' _, mode h' = m) h p.

Lemma keeps_at m {A} (p : prog A) h : keeps m p → mode h = m → wlp Pol (λ h' _, mode h' = m) h p.
Proof. auto. Qed.
Lemma keeps_ret m {A} (a : A) : keeps m (mret a).
Proof. by intros h Hh. Qed.
Lemma keeps_more m {A} : keeps m (@More A).
Proof. done. Qed.
Lemma keeps_exit m {A} n : keeps m (@exit A n).
Proof. done. Qed.
Lemma keeps_bind m {A B} (p : prog A) (f : A → prog B) : keeps m p → (∀ a, keeps m (f a)) → keeps m (p ≫= f).
Proof. intros Hp Hf h Hh. apply (wlp_bind Pol (λ h' _, mode h' = m)); [by apply Hp|]. intros h' a. apply Hf. Qed.

(** A call that is allowed in [m] and does not change the mode. *)
Lemma keeps_call m c : (∀ h, mode h = m → agent_may h c = true) → (∀ r, mode_step m (c, r) = m) → keeps m (call c).
Proof. intros Hc Hm h Hh. split; [by apply Hc|]. intros r. cbn. by rewrite mode_snoc, Hh. Qed.
Lemma keeps_callv m c : (∀ h, mode h = m → agent_may h c = true) → (∀ r, mode_step m (c, r) = m) → keeps m (callv c).
Proof. intros Hc Hm h Hh. split; [by apply Hc|]. intros r. cbn. by rewrite mode_snoc, Hh. Qed.

Lemma keeps_writes m l : Forall (λ x, x.1 = 1) l → keeps m (writes l).
Proof.
  induction 1 as [|[fd b] l Hfd Hl IH]; [apply keeps_ret|]. cbn in Hfd. subst fd. apply keeps_bind; [|done].
  apply keeps_call; [intros h Hh; unfold agent_may; by rewrite Hh; destruct m|by intros r; destruct m].
Qed.

Lemma keeps_printf m fmt args : keeps m (printf fmt args).
Proof.
  apply keeps_writes. destruct (vprintf_all 1 fmt args 1 ltac:(lia)) as (w & ->). by apply Forall_map, Forall_true.
Qed.

#[local] Opaque printf.

Ltac mode_facts := first [let Hm := fresh in intros ? Hm; unfold agent_may; by rewrite Hm | by intros ?].

(** Go through a program that stays in its mode. *)
Ltac keep :=
  repeat (cbv zeta; match goal with
    | |- keeps _ (mret _) => apply keeps_ret
    | |- keeps _ More => apply keeps_more
    | |- keeps _ (exit _) => apply keeps_exit
    | |- keeps _ (printf _ _) => apply keeps_printf
    | |- keeps _ (call _) => apply keeps_call; mode_facts
    | |- keeps _ (callv _) => apply keeps_callv; mode_facts
    | |- keeps _ (_ ≫= _) => apply keeps_bind; [|intros ?]
    | |- keeps _ (match ?e with _ => _ end) => destruct e
    | IH : ∀ _, keeps _ _ |- _ => apply IH
    | H : keeps _ _ |- _ => exact H
    end).

Lemma read_loop_keeps n fd : keeps Jailed (read_loop n fd).
Proof. induction n; cbn [read_loop]; keep. Qed.

Lemma ls_loop_keeps n fd : ∀ count, keeps Jailed (ls_loop n fd count).
Proof. induction n as [|n IH]; intros count; cbn [ls_loop]; unfold User.stat; keep. Qed.

Lemma list_lines_keeps snap t : keeps Jailed (list_lines snap t).
Proof. induction t; cbn [list_lines]; keep. Qed.

Lemma help_lines_keeps t : keeps Jailed (help_lines t).
Proof. induction t; cbn [help_lines]; keep. Qed.

Lemma ps_lines_keeps n l : ∀ i, keeps Jailed (ps_lines n i l).
Proof. induction n as [|n IH]; intros i; cbn [ps_lines]; keep. Qed.

(** After a spawn the parent is where it was; the child is gone. *)
Lemma spawn_keeps bin argv : keeps Jailed (spawn bin argv).
Proof.
  intros h Hh. unfold spawn. apply wlp_callv; [unfold Pol, agent_may; by rewrite Hh|]. intros r.
  pose proof (mode_snoc h (U_fork, r)) as Hm. rewrite Hh in Hm. unfold mode_step in Hm. cbn [fst snd] in Hm.
  destruct (Z.ltb_spec (rv r) 0) as [Hneg|Hpos].
  { apply (keeps_at Jailed); [apply keeps_printf|]. by rewrite Hm, (proj2 (Z.eqb_neq _ 0)) by lia. }
  destruct (rv r =? 0).
  - apply wlp_call; [unfold Pol, agent_may; rewrite Hm; unfold just_forked; by rewrite last_snoc|]. intros r'.
    apply (wlp_bind Pol (λ h' _, mode h' = Child)); [|done].
    apply (keeps_at Child); [apply keeps_printf|]. by rewrite mode_snoc, Hm.
  - apply (keeps_at Jailed); [keep|done].
Qed.

Lemma do_print_keeps arg : keeps Jailed (do_print arg).
Proof. apply keeps_printf. Qed.
Lemma do_chat_keeps arg : keeps Jailed (do_chat arg).
Proof. apply keeps_printf. Qed.
Lemma do_read_keeps fuel arg : keeps Jailed (do_read fuel arg).
Proof. unfold do_read. keep. apply read_loop_keeps. Qed.
Lemma do_write_keeps arg : keeps Jailed (do_write arg).
Proof. unfold do_write. keep. Qed.
Lemma do_ls_keeps fuel : keeps Jailed (do_ls fuel).
Proof. unfold do_ls. keep. apply ls_loop_keeps. Qed.
Lemma do_nice_keeps arg : keeps Jailed (do_nice arg).
Proof. unfold do_nice. keep. Qed.
Lemma do_list_keeps t : keeps Jailed (do_list t).
Proof. unfold do_list. keep. apply list_lines_keeps. Qed.
Lemma do_setprio_keeps arg t : keeps Jailed (do_setprio arg t).
Proof. unfold do_setprio. keep. Qed.
Lemma do_ps_keeps : keeps Jailed do_ps.
Proof. unfold do_ps. keep. apply ps_lines_keeps. Qed.
Lemma do_help_keeps t : keeps Jailed (do_help t).
Proof. unfold do_help. keep. apply help_lines_keeps. Qed.
Lemma do_spawn_keeps arg : keeps Jailed (do_spawn arg).
Proof. unfold do_spawn. destruct (split_at 124 arg) as [[bin args]|]; apply spawn_keeps. Qed.

Create HintDb agentd.
#[local] Hint Resolve do_print_keeps do_chat_keeps do_read_keeps do_write_keeps do_ls_keeps do_nice_keeps do_list_keeps
  do_setprio_keeps do_ps_keeps do_help_keeps do_spawn_keeps keeps_ret : agentd.

Lemma run_fn_keeps fuel cmd arg t : keeps Jailed (run_fn fuel cmd arg t).
Proof.
  unfold run_fn. repeat match goal with |- keeps _ (if ?b then _ else _) => destruct b end; auto with agentd.
  all: apply keeps_bind; auto with agentd.
Qed.

Lemma execute_keeps fuel line t : keeps Jailed (execute fuel line t).
Proof. unfold execute. keep. apply run_fn_keeps. Qed.

Lemma recv_loop_keeps fuel n : ∀ t, keeps Jailed (recv_loop fuel n t).
Proof. induction n as [|n IH]; intros t; cbn [recv_loop]; keep. apply execute_keeps. Qed.

Lemma populate_keeps bins : incl bins jail_bins → keeps Setup (populate_loop bins).
Proof.
  induction bins as [|b bins IH]; intros Hin; cbn [populate_loop]; [apply keeps_ret|]. apply keeps_bind.
  - apply keeps_call; [|by intros r]. intros h Hh. unfold agent_may. rewrite Hh. apply bool_decide_eq_true.
    apply list_elem_of_In, (List.in_map (λ x, (47 :: x, JAIL ++ 47 :: x))), Hin. by left.
  - intros _. apply IH. intros x Hx. apply Hin. by right.
Qed.

Lemma main_policy fuel : wlp Pol (λ _ _, False) [] (main fuel).
Proof.
  unfold main. apply wlp_call; [done|]. intros r0.
  apply (wlp_bind Pol (λ h' _, mode h' = Setup)); [apply (keeps_at Setup); [apply populate_keeps, List.incl_refl|done]|]. intros h _ Hh.
  apply wlp_callv; [unfold Pol, agent_may; rewrite Hh; by apply bool_decide_eq_true|]. intros r.
  pose proof (mode_snoc h (U_jail JAIL, r)) as Hm. rewrite Hh in Hm. unfold mode_step in Hm. cbn [fst snd] in Hm.
  revert Hm. generalize (h ++ [(U_jail JAIL, r)]). intros h' Hm. destruct (Z.ltb_spec (rv r) 0) as [Hneg|Hpos].
  - rewrite (proj2 (Z.leb_gt 0 _)) in Hm by lia. apply (wlp_bind Pol (λ h' _, mode h' = Setup)); [by apply (keeps_at Setup); [apply keeps_printf|]|done].
  - rewrite (proj2 (Z.leb_le 0 _)) in Hm by lia.
    apply (wlp_bind Pol (λ h' _, mode h' = Jailed)); [by apply (keeps_at Jailed); [apply keeps_printf|]|]. intros h2 _ H2.
    apply (wlp_bind Pol (λ h' _, mode h' = Jailed)); [by apply (keeps_at Jailed); [apply recv_loop_keeps|]|done].
Qed.

(** C29: Whatever the kernel answers, the agent makes these calls and no others: before it
    is jailed it makes its directory, links the listed binaries into it and asks for the
    jail (and says so when that fails); once jailed it receives commands and works
    with files, priorities and its children, but never calls exec, kill, mknod, link,
    unlink, jail, or a call that changes the deny list or the cache; exec is called only by a child,
    as its first call, and that child goes on to nothing but an error message. *)
Theorem agentd_policy fuel ka h e : trace ka [] (main fuel) = (h, e) →
  (∀ i c r, h !! i = Some (c, r) → agent_may (take i h) c = true) ∧ e ≠ Returned ().
Proof.
  intros Ht. destruct (wlp_trace Pol (λ _ _, False) ka (main fuel) [] h e (main_policy fuel) Ht) as (_ & Hp & Hq). split.
  - intros i c r Hi. apply (Hp i c r); [cbn; lia|done].
  - intros ->. by apply (Hq ()).
Qed.

(** A kernel with one command, whose fork answers 0. *)
Definition demo_kernel : kernel_answers := λ h c,
  match c with
  | U_agent_recv => mk_reply 0 (bytes "REQ|SPAWN|ls|-l x")
  | U_exec _ _ => mk_reply (-1) []
  | _ => mk_reply 0 []
  end.

Lemma agentd_policy_witness :
  let '(h, e) := trace demo_kernel [] (main 5) in
  map fst (drop 17 h) = [U_exec (bytes "ls") [bytes "ls"; bytes "-l"; bytes "x"]; U_write 1 (bytes "[agentd] SPAWN: exec ls failed
")] ∧ e = Exited_with 1 ∧ (∀ i c r, h !! i = Some (c, r) → agent_may (take i h) c = true).
Proof.
  pose proof (agentd_policy 5 demo_kernel) as Hp. destruct (trace demo_kernel [] (main 5)) as [h e] eqn:Ht.
  assert (Hv : (map fst (drop 17 h), e) = ([U_exec (bytes "ls") [bytes "ls"; bytes "-l"; bytes "x"]; U_write 1 (bytes "[agentd] SPAWN: exec ls failed
")], Exited_with 1)).
  { transitivity (let '(h, e) := trace demo_kernel [] (main 5) in (map fst (drop 17 h), e)); [by rewrite Ht|vm_compute; reflexivity]. }
  injection Hv as H1 H2. split; [exact H1|]. split; [exact H2|]. exact (proj1 (Hp h e eq_refl)).
Defined.

(** ** The wire format of texts *)

(** [_wire_escape] of agent.py. *)
Fixpoint wire_escape (s : list Z) : list Z :=
  match s with
  | [] => []
  | c :: s' => if c =? 13 then wire_escape s' else if c =? 10 then 92 :: 110 :: wire_escape s' else c :: wire_escape s'
  end.

(** A backslash with an n after it. *)
Definition has_bn (s : list Z) : Prop := ∃ a b, s = a ++ 92 :: 110 :: b.

Lemma unescape_other c s : c ≠ 92 → unescape_inplace (c :: s) = c :: unescape_inplace s.
Proof. intros Hc. cbn [unescape_inplace]. by rewrite (proj2 (Z.eqb_neq c 92)). Qed.

Lemma unescape_bs d s : d ≠ 110 → unescape_inplace (92 :: d :: s) = 92 :: unescape_inplace (d :: s).
Proof. intros Hd. cbn [unescape_inplace]. change (92 =? 92) with true. by rewrite (proj2 (Z.eqb_neq d 110)). Qed.

Lemma wire_escape_hd s c t : wire_escape s = c :: t → c = 110 → ∃ u, s = 110 :: u ∨ ∃ n, s = replicate n 13 ++ 110 :: u.
Proof.
  revert c t. induction s as [|x s IH]; intros c t; cbn; [done|]. destruct (Z.eqb_spec x 13) as [->|].
  - intros H1 H2. destruct (IH c t H1 H2) as (u & [->|[n ->]]); exists u; right; [by exists 1%nat|by exists (S n)].
  - destruct (Z.eqb_spec x 10); [by intros [= <- _]|]. intros [= -> _] ->. exists s. by left.
Qed.

(** The escape of a text, read back. *)
Lemma unescape_escape n : ∀ s, (length s ≤ n)%nat → 13 ∉ s → ¬ has_bn s → unescape_inplace (wire_escape s) = s.
Proof.
  induction n as [|n IH]; intros [|c s] Hl Hcr Hbn; [done|cbn in Hl; lia|done|]. apply not_elem_of_cons in Hcr as [Hc Hcr].
  cbn in Hl. assert (Hbn' : ¬ has_bn s) by (intros (a & b & ->); apply Hbn; by exists (c :: a), b).
  assert (IHs : unescape_inplace (wire_escape s) = s) by (apply IH; [lia|done|done]).
  cbn [wire_escape]. rewrite (proj2 (Z.eqb_neq c 13)) by done. destruct (Z.eqb_spec c 10) as [->|Hc10].
  { cbn [unescape_inplace]. change (92 =? 92) with true. change (110 =? 110) with true. by rewrite IHs. }
  destruct (decide (c = 92)) as [->|]; [|rewrite unescape_other by done; by rewrite IHs].
  destruct (wire_escape s) as [|d t] eqn:He; [by rewrite <- IHs|].
  rewrite unescape_bs, IHs; [done|]. intros Hd. destruct (wire_escape_hd s d t He Hd) as (u & [->|[k ->]]).
  - apply Hbn. by exists [], u.
  - destruct k as [|k]; [apply Hbn; by exists [], u|]. apply Hcr. cbn. left.
Qed.

Lemma unescape_hd s c t : unescape_inplace s = c :: t → c = 110 → ∃ u, s = 110 :: u.
Proof.
  destruct s as [|x s]; [done|]. destruct (decide (x = 92)) as [->|].
  - destruct s as [|d s]; [by intros [= <- _]|]. destruct (decide (d = 110)) as [->|Hd].
    + cbn. by intros [= <- _].
    + rewrite unescape_bs by done. by intros [= <- _].
  - rewrite unescape_other by done. intros [= -> _] ->. by exists s.
Qed.

Lemma unescape_no_bn n : ∀ s, (length s ≤ n)%nat → ¬ has_bn (unescape_inplace s).
Proof.
  assert (Hcons : ∀ x l, ¬ has_bn l → (x = 92 → hd 0 l ≠ 110) → ¬ has_bn (x :: l)).
  { intros x l Hl Hx ([|a0 a] & b & He); injection He as -> He; [apply Hx; by rewrite ?He|apply Hl; by exists a, b]. }
  induction n as [|n IH]; intros [|c s] Hl; cbn in Hl; try lia.
  1,2: intros ([|? ?] & b & He); discriminate He.
  assert (IHs : ¬ has_bn (unescape_inplace s)) by (apply IH; lia).
  destruct (decide (c = 92)) as [->|]; [|rewrite unescape_other by done; by apply Hcons].
  destruct s as [|d s]; [by apply Hcons|]. destruct (decide (d = 110)) as [->|Hd].
  - cbn [unescape_inplace]. change (92 =? 92) with true. change (110 =? 110) with true. cbn in Hl.
    apply Hcons; [apply IH; lia|done].
  - rewrite unescape_bs by done. apply Hcons; [done|]. intros _ Hhd.
    destruct (unescape_inplace (d :: s)) as [|x l] eqn:He; [done|]. cbn in Hhd. subst x.
    destruct (unescape_hd (d :: s) 110 l He eq_refl) as (u & Hu). congruence.
Qed.

(** C30: Texts on the wire: the escape that the host applies is one line without a
    carriage return, and what agentd makes of it is the text itself, when that has neither a
    carriage return nor a backslash followed by n; and no payload at all yields a
    backslash followed by n, so a text that has one cannot be sent. *)
Theorem wire_roundtrip s :
  10 ∉ wire_escape s ∧ 13 ∉ wire_escape s ∧
  (13 ∉ s → ¬ has_bn s → unescape_inplace (wire_escape s) = s) ∧ ¬ has_bn (unescape_inplace s).
Proof.
  assert (H : 10 ∉ wire_escape s ∧ 13 ∉ wire_escape s).
  { induction s as [|c s [IH1 IH2]]; cbn [wire_escape]; [split; by apply not_elem_of_nil|].
    destruct (Z.eqb_spec c 13); [done|]. destruct (Z.eqb_spec c 10); rewrite !not_elem_of_cons; auto with lia. }
  destruct H as [H1 H2]. split_and!; [done|done|by apply (unescape_escape (length s))|by apply (unescape_no_bn (length s))].
Qed.

Lemma wire_roundtrip_witness : unescape_inplace (wire_escape (bytes "a\b
c")) = bytes "a\b
c".
Proof.
  apply (wire_roundtrip (bytes "a\b
c")).
  - apply (bool_decide_unpack _). by vm_compute.
  - intros (a & b & He). change ([97; 92; 98; 10; 99] = a ++ 92 :: 110 :: b) in He.
    do 6 (destruct a as [|? a]; [discriminate He|]; cbn [app] in He; injection He as _ He || discriminate He).
Defined.

(** The host sends [bin|argv0 argv1 ...]; the agent puts [bin] before it. *)
Example spawn_argv_shifted h :
  wlp (λ _ c, match c with U_exec p argv => p = bytes "echo" ∧ argv = [bytes "echo"; bytes "echo"; bytes "hi"] | _ => True end)
    (λ _ _, True) h (do_spawn (bytes "echo|echo hi")).
Proof.
  set (P := λ (_ : list (ucall * reply)) c, match c with U_exec p argv => _ | _ => True end).
  assert (Hw : ∀ h fmt args, wlp P (λ _ _, True) h (printf fmt args)) by (intros; by apply wlp_printf).
  unfold do_spawn. change (split_at 124 (bytes "echo|echo hi")) with (Some (bytes "echo", bytes "echo hi")). cbn iota.
  change (argv_loop 7 (bytes "echo hi")) with [bytes "echo"; bytes "hi"]. unfold spawn. apply wlp_callv; [done|]. intros r.
  destruct (rv r <? 0); [apply Hw|]. destruct (rv r =? 0).
  - apply wlp_call; [done|]. intros r'. eapply wlp_bind; [apply Hw|done].
  - apply wlp_call; [done|]. intros r'. apply Hw.
Qed.

(** ** The function table *)

Record fn_ok (f : fn) : Prop := { fn_prio : 0 ≤ fprio f ≤ 20; fn_name : Forall (λ c, c ≠ 0 ∧ c ≠ 124 ∧ c ≠ 58) (fname f) }.

(** The names, rights and usages of a table. *)
Definition fn_key (f : fn) : list Z * bool * list Z := (fname f, allowed f, usage f).

Lemma wlp_true {A} (p : prog A) : ∀ h, wlp (λ _ _, True) (λ _ _, True) h p.
Proof. induction p as [a|c k IH| |]; intros h; cbn; auto. Qed.

Lemma wlp_then {A B} (p : prog A) (b : B) (Q : B → Prop) h : Q b → wlp (λ _ _, True) (λ _ x, Q x) h (_ ← p; mret b).
Proof. intros HQ. eapply wlp_bind; [apply wlp_true|]. by intros h' a _. Qed.

Lemma do_setprio_table arg t h : Forall fn_ok t →
  wlp (λ _ _, True) (λ _ t', Forall fn_ok t' ∧ map fn_key t' = map fn_key t) h (do_setprio arg t).
Proof.
  intros Ht. unfold do_setprio. destruct (split_at 58 arg) as [[name b]|]; [|by apply wlp_then].
  destruct (parsei b) as [prio|]; [|by apply wlp_then].
  destruct ((prio <? 0) || (20 <? prio)) eqn:Hp; [by apply wlp_then|].
  destruct (find_index _ t) as [i|] eqn:Hi; [|by apply wlp_then]. apply wlp_then. bool_hyps.
  apply find_index_Some in Hi as (f & Hf & _). rewrite (alter_insert _ _ _ _ Hf). split.
  - apply Forall_insert; [done|]. pose proof (Forall_lookup_1 _ _ _ _ Ht Hf) as [F1 F2]. split; [cbn; lia|done].
  - change (map fn_key) with (fmap (M := list) fn_key). rewrite list_fmap_insert. apply list_insert_id. by rewrite list_lookup_fmap, Hf.
Qed.

(** The function table keeps its type: whatever line the agent executes and whatever
    the kernel answers, the table afterwards has the same functions, rights and usages, and every
    priority is between 0 and 20, the range an agent may set. *)
Theorem table_type fuel line t h : Forall fn_ok t →
  wlp (λ _ _, True) (λ _ t', Forall fn_ok t' ∧ map fn_key t' = map fn_key t) h (execute fuel line t).
Proof.
  intros Ht. unfold execute. destruct (negb _); [done|].
  destruct (split_at 124 (drop 4 line)) as [[cmd arg]|]; [|by apply wlp_then].
  destruct (find_index _ t) as [i|]; [|by apply wlp_then]. cbv zeta. destruct (negb (allowed _)); [by apply wlp_then|].
  apply wlp_callv; [done|]. intros r. apply wlp_call; [done|]. intros r'. unfold run_fn.
  repeat match goal with
    | |- wlp _ _ _ (if ?b then _ else _) => destruct b
    | |- wlp _ _ _ (do_setprio _ _) => by apply do_setprio_table
    | |- wlp _ _ _ (_ ≫= _) => by apply wlp_then
    | |- wlp _ _ _ (mret _) => done
    end.
Qed.

Lemma table_type_witness : Forall fn_ok table ∧
  wlp (λ _ _, True) (λ _ t', Forall fn_ok t' ∧ map fn_key t' = map fn_key table) [] (execute 1 (bytes "REQ|SETPRIO|LS:21") table).
Proof.
  assert (H : Forall fn_ok table).
  { repeat (apply Forall_cons; split; [split; [cbn; lia|apply (bool_decide_unpack _); by vm_compute]|]). constructor. }
  split; [exact H|]. by apply (table_type 1 (bytes "REQ|SETPRIO|LS:21") table []).
Defined.
