(* ===== verification/Denyctl.v ===== *)
(** * user/denyctl.c, and the deny list as user programs see it

    [denyctl] manages the deny list of the kernel and keeps it in /denylist.conf.  The
    theorems compose it with the deny list of AgentCmd.v: [deny_kernel] answers the two
    deny calls as Sysproc.v does for a process that is no agent, and keeps one file.
    [list_shows_deny] is about the LIST command of agentd, which reads the same text. *)

From S2P Require Import Prelude CString Printf AgentCmd Sysproc User Agentd.

Local Open Scope Z_scope.

Definition CONF : list Z := bytes "/denylist.conf".
Definition BUFSZ : Z := DENY_MAX * DENY_NAMELEN.

Definition usage : prog () := printf (bytes "usage: denyctl list | add <CMD> | rm <CMD> | reset | save | load
") [].

(** [while( *e && *e != '\n') e++; if( *e) *e++ = 0;]: the line and the rest. *)
Fixpoint line_span (s : list Z) : list Z * list Z :=
  match s with
  | [] => ([], [])
  | c :: s' => if c =? 10 then ([], s') else let '(l, r) := line_span s' in (c :: l, r)
  end.

(** The loop [while( *s)] over the lines. *)
Fixpoint print_lines (n : nat) (s : list Z) : prog () :=
  match n, s with
  | S n', _ :: _ =>
      let '(l, r) := line_span s in
      _ ← printf (bytes "  %s
") [VStr (Some l)];
      print_lines n' r
  | _, _ => mret ()
  end.

Definition do_list : prog () :=
  r ← call (U_get_deny BUFSZ);
  if rv r <? 0 then _ ← printf (bytes "denyctl: get_deny failed
") []; exit 1
  else
    let buf := cstring (take (Z.to_nat (rv r)) (rbytes r)) in
    _ ← printf (bytes "deny list (kernel hard boundary):
") [];
    if rv r =? 0 then printf (bytes "  (empty — nothing blocked)
") []
    else print_lines (length buf) buf.

(** [O_CREATE | O_TRUNC | O_WRONLY] *)
Definition do_save : prog () :=
  r ← call (U_get_deny BUFSZ);
  let n := rv r in
  if n <? 0 then _ ← printf (bytes "denyctl: get_deny failed
") []; exit 1
  else
    fd ← callv (U_open CONF (Z.lor (Z.lor 0x200 0x400) 0x001));
    if fd <? 0 then _ ← printf (bytes "denyctl: cannot open %s for writing
") [VStr (Some CONF)]; exit 1
    else
      w ← (if 0 <? n then callv (U_write fd (take (Z.to_nat n) (rbytes r))) else mret n);
      if negb (w =? n) then
        _ ← printf (bytes "denyctl: write to %s failed
") [VStr (Some CONF)];
        _ ← call (U_close fd); exit 1
      else
        _ ← call (U_close fd);
        printf (bytes "denyctl: saved deny list to %s (survives reboot)
") [VStr (Some CONF)].

(** The bytes read; each read gives at least one, so [BUFSZ] rounds are enough. *)
Fixpoint load_loop (m : nat) (fd n : Z) : prog (list Z) :=
  match m with
  | O => mret []
  | S m' =>
      if n <? BUFSZ - 1 then
        r ← call (U_read fd (BUFSZ - 1 - n));
        if 0 <? rv r then l ← load_loop m' fd (n + rv r); mret (take (Z.to_nat (rv r)) (rbytes r) ++ l)
        else mret []
      else mret []
  end.

(** The lines of the file are added; the result counts those that could be. *)
Fixpoint add_lines (n : nat) (s : list Z) (added : Z) : prog Z :=
  match n, s with
  | S n', _ :: _ =>
      let '(l, r) := line_span s in
      match l with
      | [] => add_lines n' r added
      | _ => x ← callv (U_set_deny DENY_ADD (Some l)); add_lines n' r (if x =? 0 then added + 1 else added)
      end
  | _, _ => mret added
  end.

Definition do_load : prog () :=
  fd ← callv (U_open CONF 0);
  if fd <? 0 then mret ()
  else
    buf ← load_loop (Z.to_nat BUFSZ) fd 0;
    _ ← call (U_close fd);
    let buf := cstring buf in
    _ ← call (U_set_deny DENY_CLEAR None);
    added ← add_lines (length buf) buf 0;
    printf (bytes "denyctl: loaded %d entries from %s
") [VInt added; VStr (Some CONF)].

Definition do_mutate (op : Z) (cmd verb : list Z) : prog () :=
  r ← callv (U_set_deny op (Some cmd));
  if r <? 0 then
    _ ← printf (bytes "denyctl: %s '%s' failed (list full, not present, or not permitted)
") [VStr (Some verb); VStr (Some cmd)];
    exit 1
  else printf (bytes "denyctl: %s '%s' (one-time — run 'denyctl save' to persist)
") [VStr (Some verb); VStr (Some cmd)].

(** The sub-command and what follows it. *)
Definition main (argv : list (list Z)) : prog () :=
  match argv with
  | _ :: sub :: rest =>
      _ ← (if strcmp sub (bytes "list") =? 0 then do_list
           else if strcmp sub (bytes "reset") =? 0 then
             r ← callv (U_set_deny DENY_RESET None);
             if r <? 0 then _ ← printf (bytes "denyctl: reset not permitted
") []; exit 1
             else printf (bytes "denyctl: reset to default {KILL, EXEC} (run 'denyctl save' to persist)
") []
           else if strcmp sub (bytes "save") =? 0 then do_save
           else if strcmp sub (bytes "load") =? 0 then do_load
           else if strcmp sub (bytes "add") =? 0 then
             match rest with
             | [] => _ ← usage; exit 1
             | cmd :: _ => do_mutate DENY_ADD cmd (bytes "denied")
             end
           else if strcmp sub (bytes "rm") =? 0 then
             match rest with
             | [] => _ ← usage; exit 1
             | cmd :: _ => do_mutate DENY_REMOVE cmd (bytes "allowed")
             end
           else _ ← usage; exit 1);
      exit 0
  | _ => _ ← usage; exit 1
  end.

(** ** The text of the deny list *)

(** One line for each name. *)
Definition deny_text (names : list (list Z)) : list Z := concat (map (λ n, n ++ [10]) names).

Lemma snap_name_spec name : ∀ rest n max buf, Forall (λ c, c ≠ 0) name → hd 0 rest = 0 →
  0 ≤ n → n + Z.of_nat (length name) ≤ max - 2 → max ≤ Z.of_nat (length buf) →
  ∃ buf', snap_name (name ++ rest) n max buf = (n + Z.of_nat (length name), buf') ∧ length buf' = length buf ∧
    take (Z.to_nat n + length name) buf' = take (Z.to_nat n) buf ++ name.
Proof.
  induction name as [|c name IH]; intros rest n max buf Hnz Hrest Hn Hle Hb; cbn [app length].
  - exists buf. rewrite Z.add_0_r, Nat.add_0_r, app_nil_r. split_and!; [|done|done].
    destruct rest as [|x rest]; [done|]. cbn in Hrest. subst x. done.
  - apply Forall_cons in Hnz as [Hc Hnz]. cbn [snap_name]. cbn [length] in Hle.
    rewrite (proj2 (Z.eqb_neq c 0)), (proj2 (Z.ltb_lt _ _)) by (done || lia). cbn [negb andb].
    destruct (IH rest (n + 1) max (<[Z.to_nat n := c]> buf) Hnz Hrest) as (buf' & E & L & T); [lia|lia|by rewrite length_insert|].
    exists buf'. rewrite E, L, length_insert. split_and!; [f_equal; lia|done|].
    replace (Z.to_nat n + S (length name))%nat with (Z.to_nat (n + 1) + length name)%nat by lia. rewrite T.
    replace (Z.to_nat (n + 1)) with (S (Z.to_nat n)) by lia.
    rewrite (take_S_r _ _ c) by (apply list_lookup_insert_eq; lia). rewrite take_insert_ge by lia. by rewrite <- app_assoc.
Qed.

Lemma snap_fold max names : ∀ n buf, 0 ≤ n → n + Z.of_nat (length (deny_text (map cstring names))) ≤ max - 1 → max ≤ Z.of_nat (length buf) →
  ∃ buf', fold_left (snap_entry max) names (n, buf) = (n + Z.of_nat (length (deny_text (map cstring names))), buf') ∧
    length buf' = length buf ∧
    take (Z.to_nat n + length (deny_text (map cstring names))) buf' = take (Z.to_nat n) buf ++ deny_text (map cstring names).
Proof.
  induction names as [|b names IH]; intros n buf Hn Hle Hb.
  { exists buf. cbn. rewrite Z.add_0_r, Nat.add_0_r, app_nil_r. done. }
  unfold deny_text in Hle |- *. cbn [map concat fold_left] in Hle |- *.
  fold (deny_text (map cstring names)) in Hle |- *. rewrite !length_app in Hle |- *. cbn [length] in Hle |- *.
  destruct (cstring_split b) as (rest & Hsplit & Hrest).
  destruct (snap_name_spec (cstring b) rest n max buf (cstring_nz b) Hrest Hn) as (b1 & E1 & L1 & T1); [lia|lia|].
  unfold snap_entry at 2. cbn [fst snd].
  replace (snap_name b n max buf) with (snap_name (cstring b ++ rest) n max buf) by (by rewrite <- Hsplit). rewrite E1. rewrite (proj2 (Z.ltb_lt _ _)) by lia.
  set (n1 := n + Z.of_nat (length (cstring b))) in *.
  destruct (IH (n1 + 1) (<[Z.to_nat n1 := 10]> b1)) as (b2 & E2 & L2 & T2); [lia|lia|rewrite length_insert; lia|].
  exists b2. rewrite E2, L2, length_insert, L1. split_and!; [f_equal; lia|done|].
  replace (Z.to_nat n + (length (cstring b) + 1 + length (deny_text (map cstring names))))%nat
    with (Z.to_nat (n1 + 1) + length (deny_text (map cstring names)))%nat by lia.
  rewrite T2, app_assoc. f_equal. replace (Z.to_nat (n1 + 1)) with (S (Z.to_nat n1)) by lia.
  rewrite (take_S_r _ _ 10) by (apply list_lookup_insert_eq; lia). rewrite take_insert_ge by lia.
  replace (Z.to_nat n1) with (Z.to_nat n + length (cstring b))%nat by lia. by rewrite T1, app_assoc.
Qed.

(** What [get_deny] gives when the names fit: the text and a NUL. *)
Lemma deny_snapshot_text d buf max : dn_wf d → max ≤ Z.of_nat (length buf) →
  Z.of_nat (length (deny_text (deny_list d))) ≤ max - 1 →
  ∃ buf', deny_snapshot buf max d = (Z.of_nat (length (deny_text (deny_list d))), buf') ∧
    take (length (deny_text (deny_list d))) buf' = deny_text (deny_list d).
Proof.
  intros [Hs Hl Hc] Hb Hmax. unfold deny_snapshot.
  destruct (snap_fold max (take (Z.to_nat (dn_count d)) (dn_names d)) 0 buf) as (b1 & E & L & T); [lia|exact Hmax|done|].
  rewrite E. fold (deny_list d) in *. cbn [Z.add Z.to_nat Nat.add] in *. rewrite (proj2 (Z.ltb_lt _ _)) by lia. eexists. split; [done|].
  rewrite take_insert_ge by lia. exact T.
Qed.

(** ** denyctl on the kernel *)

(** The deny list, and /denylist.conf with the offset of the descriptor open on it. *)
Record dkernel := mk_dkernel { dk_deny : denylist; dk_file : option (list Z); dk_off : nat }.

Definition with_deny (x : Z * denylist) (k : dkernel) : reply * dkernel :=
  (mk_reply x.1 [], mk_dkernel x.2 (dk_file k) (dk_off k)).

(** [sys_get_deny] and [sys_set_deny] of Sysproc.v, and a file system with one file. *)
Definition deny_kernel (c : ucall) (k : dkernel) : reply * dkernel :=
  match c with
  | U_get_deny max =>
      if max <=? 0 then (mk_reply (-1) [], k)
      else
        let max := if BUFSZ <? max then BUFSZ else max in
        let '(n, kbuf) := deny_snapshot (replicate (Z.to_nat BUFSZ) 0) max (dk_deny k) in
        (mk_reply n (take (Z.to_nat (n + 1)) kbuf), k)
  | U_set_deny op cmd =>
      if op =? DENY_RESET then with_deny (0, deny_reset (dk_deny k)) k
      else if op =? DENY_CLEAR then with_deny (0, deny_clear (dk_deny k)) k
      else
        match cmd with
        | Some cmd =>
            if DENY_NAMELEN <=? Z.of_nat (length cmd) then (mk_reply (-1) [], k)
            else if op =? DENY_ADD then with_deny (deny_add cmd (dk_deny k)) k
            else if op =? DENY_REMOVE then with_deny (deny_remove cmd (dk_deny k)) k
            else (mk_reply (-1) [], k)
        | None => (mk_reply (-1) [], k)
        end
  | U_open p mode =>
      if negb (bool_decide (p = CONF)) then (mk_reply (-1) [], k)
      else
        let create := negb (Z.land mode 0x200 =? 0) in
        match (if create then Some (default [] (dk_file k)) else dk_file k) with
        | Some f => (mk_reply 3 [], mk_dkernel (dk_deny k) (Some (if Z.land mode 0x400 =? 0 then f else [])) 0)
        | None => (mk_reply (-1) [], k)
        end
  | U_write fd l =>
      (mk_reply (Z.of_nat (length l)) [],
       if fd =? 3 then mk_dkernel (dk_deny k) (Some (blit (default [] (dk_file k)) (dk_off k) l)) (dk_off k + length l) else k)
  | U_read fd n =>
      let l := sub (dk_off k) (Z.to_nat n) (default [] (dk_file k)) in
      (mk_reply (Z.of_nat (length l)) l, mk_dkernel (dk_deny k) (dk_file k) (dk_off k + length l))
  | _ => (mk_reply 0 [], k)
  end.

Lemma run_printf fmt args k : run_on deny_kernel (printf fmt args) k = (Returned (), k).
Proof.
  unfold printf, fprintf. destruct (vprintf_all 1 fmt args 1 ltac:(lia)) as (w & ->).
  induction w as [|b w IH]; [done|]. exact IH.
Qed.

#[local] Opaque printf.

Lemma deny_list_names d : dn_wf d →
  Forall (λ x, Forall (λ c, c ≠ 0) x ∧ Forall is_u8 x ∧ (length x ≤ 23)%nat) (deny_list d).
Proof.
  intros [_ Hl _]. apply Forall_map, Forall_take. eapply Forall_impl; [exact Hl|]. intros b (H1 & H2 & H3).
  split_and!; [apply cstring_nz|by apply Forall_cstring|done].
Qed.

Lemma line_span_line l r : 10 ∉ l → line_span (l ++ 10 :: r) = (l, r).
Proof.
  induction l as [|c l IH]; intros Hl; [done|]. apply not_elem_of_cons in Hl as [Hc Hl]. cbn [app line_span].
  rewrite (proj2 (Z.eqb_neq c 10)) by done. by rewrite IH.
Qed.

(** Adding the lines of a text adds the names. *)
Lemma add_lines_run names : ∀ n added k, dn_wf (dk_deny k) →
  Forall (λ x, Forall (λ c, c ≠ 0) x ∧ Forall is_u8 x ∧ (length x ≤ 23)%nat) names →
  Forall (λ x, x ≠ [] ∧ 10 ∉ x) names → NoDup (deny_list (dk_deny k) ++ names) →
  (length (deny_list (dk_deny k) ++ names) ≤ 16)%nat → (length (deny_text names) ≤ n)%nat →
  ∃ k', run_on deny_kernel (add_lines n (deny_text names) added) k = (Returned (added + Z.of_nat (length names)), k') ∧
    deny_list (dk_deny k') = deny_list (dk_deny k) ++ names.
Proof.
  induction names as [|x names IH]; intros n added k Hwf Hn Hl Hnd Hlen Hfuel.
  { exists k. rewrite app_nil_r. split; [|done]. cbn. destruct n; cbn; repeat f_equal; lia. }
  apply Forall_cons in Hn as [(N1 & N2 & N3) Hn]. apply Forall_cons in Hl as [[Hx Hx10] Hl].
  unfold deny_text in Hfuel |- *. cbn [map concat] in Hfuel |- *. fold (deny_text names) in Hfuel |- *.
  rewrite !length_app in Hfuel. rewrite length_app in Hlen. cbn [length] in Hfuel, Hlen. destruct n as [|n]; [lia|].
  rewrite <- app_assoc. cbn [app]. destruct x as [|c x]; [done|]. set (y := c :: x) in *. cbn [add_lines].
  assert (Hcons : ∃ z zs, y ++ 10 :: deny_text names = z :: zs) by (by exists c, (x ++ 10 :: deny_text names)).
  destruct Hcons as (z & zs & Hz). rewrite Hz, <- Hz. rewrite line_span_line by done. unfold y at 1. fold y.
  cbn [run_on callv mbind prog_bind deny_kernel].
  change (DENY_ADD =? DENY_RESET) with false. change (DENY_ADD =? DENY_CLEAR) with false. change (DENY_ADD =? DENY_ADD) with true.
  assert (DENY_NAMELEN <=? Z.of_nat (length y) = false) as -> by (apply Z.leb_gt; unfold DENY_NAMELEN; lia).
  pose proof (deny_add_spec y (dk_deny k) Hwf N2) as Ha. destruct (deny_add y (dk_deny k)) as [rc d'].
  rewrite (cstring_id y N1), (take_ge y) in Ha by lia. destruct Ha as [Hwf' Ha].
  apply NoDup_app in Hnd as (Hnd1 & Hnd2 & Hnd3). rewrite decide_False in Ha by (intros Hin; apply (Hnd2 y Hin); left).
  rewrite decide_False in Ha by lia. destruct Ha as [-> Hd'].
  destruct (IH n (added + 1) (mk_dkernel d' (dk_file k) (dk_off k)) Hwf' Hn Hl) as (k' & E & D).
  - cbn [dk_deny]. rewrite Hd', <- app_assoc. by apply NoDup_app.
  - cbn [dk_deny]. rewrite Hd', !length_app. cbn [length]. lia.
  - lia.
  - exists k'. cbn [with_deny fst snd rv Z.eqb]. rewrite E. cbn [dk_deny] in D. rewrite D, Hd', <- app_assoc. split; [|done].
    do 2 f_equal. cbn [length]. lia.
Qed.

(** Reading a file of fewer than [BUFSZ] bytes. *)
Lemma load_loop_run m : ∀ n k, Z.of_nat (length (default [] (dk_file k))) ≤ BUFSZ - 1 → n = Z.of_nat (dk_off k) →
  (dk_off k ≤ length (default [] (dk_file k)))%nat → BUFSZ ≤ Z.of_nat m + n →
  ∃ o, run_on deny_kernel (load_loop m 3 n) k =
    (Returned (drop (dk_off k) (default [] (dk_file k))), mk_dkernel (dk_deny k) (dk_file k) o).
Proof.
  induction m as [|m IH]; intros n k Hlen -> Hoff Hm; [unfold BUFSZ, DENY_MAX, DENY_NAMELEN in *; lia|]. cbn [load_loop].
  destruct k as [d f o]. cbn [dk_deny dk_file dk_off] in *. set (l := default [] f) in *.
  destruct (Z.ltb_spec (Z.of_nat o) (BUFSZ - 1)) as [Hlt|Hge].
  2: { exists o. cbn. rewrite drop_ge by lia. done. }
  unfold call. cbn [mbind prog_bind run_on deny_kernel dk_off dk_file dk_deny rv rbytes]. fold l.
  assert (Hsub : sub o (Z.to_nat (BUFSZ - 1 - Z.of_nat o)) l = drop o l) by (unfold sub; apply take_ge; rewrite length_drop; lia).
  rewrite Hsub, length_drop. destruct (Z.ltb_spec 0 (Z.of_nat (length l - o))) as [Hpos|Hz].
  2: { exists (o + (length l - o))%nat. cbn [run_on]. rewrite drop_ge by lia. done. }
  destruct (IH (Z.of_nat o + Z.of_nat (length l - o)) (mk_dkernel d f (o + (length l - o)))) as (o' & E);
    cbn [dk_deny dk_file dk_off]; fold l; [lia|lia|lia|lia|].
  exists o'. rewrite (run_on_bind _ _ _ _ _ _ E). cbn [dk_deny dk_file dk_off run_on mret prog_ret]. fold l.
  rewrite Nat2Z.id, (take_ge (drop o l)) by (rewrite length_drop; lia). rewrite (drop_ge l (_ + _)%nat) by lia. by rewrite app_nil_r.
Qed.

(** The names are lines of text, and their text fits in the buffer of [get_deny]. *)
Record savable (d : denylist) : Prop := {
  sv_wf : dn_wf d;
  sv_nodup : NoDup (deny_list d);
  sv_lines : Forall (λ x, x ≠ [] ∧ 10 ∉ x) (deny_list d);
  sv_fits : Z.of_nat (length (deny_text (deny_list d))) ≤ BUFSZ - 1;
}.

Lemma get_deny_run k : savable (dk_deny k) →
  let t := deny_text (deny_list (dk_deny k)) in
  ∃ r, deny_kernel (U_get_deny BUFSZ) k = (r, k) ∧ rv r = Z.of_nat (length t) ∧ take (length t) (rbytes r) = t.
Proof.
  intros [H1 _ _ H4]. cbn zeta. cbn [deny_kernel]. rewrite Z.ltb_irrefl. change (BUFSZ <=? 0) with false. cbn iota.
  destruct (deny_snapshot_text (dk_deny k) (replicate (Z.to_nat BUFSZ) 0) BUFSZ H1) as (b & -> & Hb); [|done|].
  { rewrite length_replicate. unfold BUFSZ, DENY_MAX, DENY_NAMELEN. lia. }
  eexists. split_and!; [done|done|]. cbn [rbytes]. rewrite take_take, Nat.min_l by lia. exact Hb.
Qed.

Lemma open_conf k mode f :
  (if negb (Z.land mode 0x200 =? 0) then Some (default [] (dk_file k)) else dk_file k) = Some f →
  deny_kernel (U_open CONF mode) k =
    (mk_reply 3 [], mk_dkernel (dk_deny k) (Some (if Z.land mode 0x400 =? 0 then f else [])) 0).
Proof. intros Hf. cbn [deny_kernel]. rewrite bool_decide_eq_true_2 by done. cbn [negb]. by rewrite Hf. Qed.

(** After [denyctl save] the file has the text. *)
Lemma do_save_run k : savable (dk_deny k) →
  ∃ o, run_on deny_kernel do_save k = (Returned (), mk_dkernel (dk_deny k) (Some (deny_text (deny_list (dk_deny k)))) o).
Proof.
  intros S. destruct (get_deny_run k S) as (r & E & Hrv & Hb). set (t := deny_text (deny_list (dk_deny k))) in *.
  unfold do_save. rewrite (run_call _ _ _ _ _ _ E). cbn zeta. rewrite Hrv, (proj2 (Z.ltb_ge (Z.of_nat (length t)) 0)) by lia.
  rewrite (run_callv _ _ _ _ _ _ (open_conf k (Z.lor (Z.lor 0x200 0x400) 0x001) (default [] (dk_file k)) eq_refl)).
  change (rv (mk_reply 3 []) <? 0) with false. cbn iota.
  change (if Z.land (Z.lor (Z.lor 0x200 0x400) 0x001) 0x400 =? 0 then default [] (dk_file k) else []) with (@nil Z).
  rewrite Nat2Z.id, Hb. destruct (Z.ltb_spec 0 (Z.of_nat (length t))) as [Hpos|Hz].
  - erewrite run_on_bind by reflexivity. cbn [rv]. rewrite Z.eqb_refl. cbn [negb].
    erewrite run_call by reflexivity. rewrite run_printf. exists (length t).
    cbn [rv]. change (3 =? 3) with true. cbn [dk_deny dk_file dk_off Nat.add from_option id]. unfold blit.
    rewrite take_nil, drop_nil, app_nil_r. done.
  - assert (Ht : t = []) by (destruct t; [done|cbn in Hz; lia]). rewrite Ht. erewrite run_on_bind by reflexivity.
    rewrite Z.eqb_refl. cbn [negb]. erewrite run_call by reflexivity. rewrite run_printf. by exists 0%nat.
Qed.

(** [denyctl load] makes the list what the file says. *)
Lemma do_load_run k names : dn_wf (dk_deny k) → dk_file k = Some (deny_text names) →
  Forall (λ x, Forall (λ c, c ≠ 0) x ∧ Forall is_u8 x ∧ (length x ≤ 23)%nat) names →
  Forall (λ x, x ≠ [] ∧ 10 ∉ x) names → NoDup names → (length names ≤ 16)%nat →
  Z.of_nat (length (deny_text names)) ≤ BUFSZ - 1 →
  ∃ k', run_on deny_kernel do_load k = (Returned (), k') ∧ deny_list (dk_deny k') = names.
Proof.
  intros Hwf Hf Hn Hl Hnd Hlen Hfit. unfold do_load.
  rewrite (run_callv _ _ _ _ _ _ (open_conf k 0 (deny_text names) Hf)).
  change (rv (mk_reply 3 []) <? 0) with false. cbn iota. change (Z.land 0 0x400 =? 0) with true. cbn iota. cbn [rv].
  destruct (load_loop_run (Z.to_nat BUFSZ) 0 (mk_dkernel (dk_deny k) (Some (deny_text names)) 0)) as (o & E);
    cbn [dk_off dk_file from_option id]; [done|done|lia|unfold BUFSZ, DENY_MAX, DENY_NAMELEN; lia|].
  cbn [dk_off dk_file dk_deny from_option id] in E. rewrite drop_0 in E. rewrite (run_on_bind _ _ _ _ _ _ E).
  erewrite run_call by reflexivity. cbn zeta. erewrite run_call by reflexivity. cbn [dk_deny dk_file dk_off fst snd].
  destruct (deny_clear_spec (dk_deny k) Hwf) as [Hc1 Hc2].
  assert (Hstr : cstring (deny_text names) = deny_text names).
  { apply cstring_id. apply Forall_concat, Forall_map. eapply Forall_impl; [exact Hn|]. intros x (Hx & _). apply Forall_app. by repeat constructor. }
  rewrite Hstr.
  destruct (add_lines_run names (length (deny_text names)) 0 (mk_dkernel (deny_clear (dk_deny k)) (Some (deny_text names)) o) Hc1 Hn Hl)
    as (k' & E' & D); [cbn [dk_deny]; by rewrite Hc2|cbn [dk_deny]; by rewrite Hc2|done|].
  rewrite (run_on_bind _ _ _ _ _ _ E'), run_printf. exists k'. cbn [dk_deny] in D. by rewrite D, Hc2.
Qed.

(** A deny list survives a reboot: after [denyctl save], whatever the kernel's list is
    later, [denyctl load] makes it the list that was saved, in the same order, as long as
    the names are lines of text that fit in the 384 bytes of the buffers. *)
Theorem denyctl_save_load k d : savable (dk_deny k) → dn_wf d →
  ∃ k1 k2, run_on deny_kernel do_save k = (Returned (), k1) ∧ dk_deny k1 = dk_deny k ∧
    run_on deny_kernel do_load (mk_dkernel d (dk_file k1) 0) = (Returned (), k2) ∧
    deny_list (dk_deny k2) = deny_list (dk_deny k).
Proof.
  intros S Hd. destruct (do_save_run k S) as (o & E1). pose proof S as [S1 S2 S3 S4].
  destruct (do_load_run (mk_dkernel d (Some (deny_text (deny_list (dk_deny k)))) 0) (deny_list (dk_deny k)) Hd eq_refl
    (deny_list_names _ S1) S3 S2) as (k2 & E2 & D); [|done|].
  { rewrite length_deny_list by done. pose proof (dn_counts _ S1). unfold DENY_MAX in *. lia. }
  eexists _, k2. split_and!; [exact E1|done|exact E2|exact D].
Qed.

(** ** LIST of agentd *)

Lemma at_line_spec name l r : 10 ∉ name → 10 ∉ l → at_line name (l ++ 10 :: r) = bool_decide (name = l).
Proof.
  revert l. induction name as [|a name IH]; intros [|c l] Hn Hl; cbn [at_line app].
  - done.
  - apply not_elem_of_cons in Hl as [Hc _]. rewrite (proj2 (Z.eqb_neq c 10)) by done. by rewrite bool_decide_eq_false_2.
  - by rewrite bool_decide_eq_false_2.
  - apply not_elem_of_cons in Hn as [Ha Hn]. apply not_elem_of_cons in Hl as [Hc Hl].
    rewrite (proj2 (Z.eqb_neq c 10)) by done. cbn [negb andb]. destruct (Z.eqb_spec a c) as [->|Hac].
    + rewrite IH by done. apply bool_decide_ext. split; [by intros ->|by intros [= ->]].
    + rewrite bool_decide_eq_false_2; [done|]. intros [= ? _]. done.
Qed.

Lemma next_line_spec l r : 10 ∉ l → next_line (l ++ 10 :: r) = r.
Proof.
  induction l as [|c l IH]; intros Hl; [done|]. apply not_elem_of_cons in Hl as [Hc Hl]. cbn [app next_line].
  rewrite (proj2 (Z.eqb_neq c 10)) by done. by apply IH.
Qed.

Lemma in_snapshot_text names name n : 10 ∉ name → Forall (λ x, 10 ∉ x) names → (length (deny_text names) ≤ n)%nat →
  in_snapshot_loop n (deny_text names) name = bool_decide (name ∈ names).
Proof.
  intros Hname. revert n. induction names as [|x names IH]; intros n Hx Hn.
  { rewrite bool_decide_eq_false_2 by apply not_elem_of_nil. by destruct n. }
  apply Forall_cons in Hx as [Hx Hxs]. unfold deny_text in Hn |- *. cbn [map concat] in Hn |- *. fold (deny_text names) in Hn |- *.
  rewrite !length_app in Hn. cbn [length] in Hn. rewrite <- app_assoc. cbn [app]. destruct n as [|n]; [lia|].
  assert (Hcons : ∃ z zs, x ++ 10 :: deny_text names = z :: zs) by (destruct x as [|c x]; [by exists 10, (deny_text names)|by exists c, (x ++ 10 :: deny_text names)]).
  destruct Hcons as (z & zs & Hz). cbn [in_snapshot_loop]. rewrite Hz, <- Hz, at_line_spec, next_line_spec by done.
  destruct (decide (name = x)) as [->|Hne].
  - rewrite !bool_decide_eq_true_2; [done|left|done].
  - rewrite bool_decide_eq_false_2, IH by (done || lia). apply bool_decide_ext. rewrite elem_of_cons. tauto.
Qed.

(** The LIST command of the agent shows a function as denied by the kernel exactly
    when the kernel's deny list has its name: the text [get_deny] makes of the list, read
    line by line by agentd, decides membership. *)
Theorem list_shows_deny k r name : savable (dk_deny k) → deny_kernel (U_get_deny DENY_SNAP) k = (r, k) →
  10 ∉ name → Forall is_u8 name → (length name < 24)%nat → Forall (λ c, c ≠ 0) name →
  in_snapshot (cstring (take (Z.to_nat (rv r)) (rbytes r))) name = deny_listed name (dk_deny k).
Proof.
  intros S E Hname Hu Hlen Hnz. destruct (get_deny_run k S) as (r' & E' & Hrv & Hb). change DENY_SNAP with BUFSZ in E.
  rewrite E in E'. injection E' as <-. pose proof S as [S1 _ S3 _]. rewrite Hrv, Nat2Z.id, Hb.
  pose proof (deny_list_names _ S1) as Hn. unfold in_snapshot.
  rewrite cstring_id by (apply Forall_concat, Forall_map; eapply Forall_impl; [exact Hn|]; intros x (Hx & _); apply Forall_app; by repeat constructor).
  rewrite in_snapshot_text; [|done|by eapply Forall_impl; [exact S3|]; intros x (_ & Hx)|done].
  pose proof (deny_listed_spec name _ S1 Hu) as Hd. rewrite cstring_id in Hd by done.
  destruct (deny_listed name (dk_deny k)); [by apply bool_decide_eq_true_2, Hd|apply bool_decide_eq_false_2].
  intros Hin. by apply Hd in Hin.
Qed.

(** The deny list at boot. *)
Definition demo_deny : denylist :=
  deny_reset (mk_denylist (replicate (Z.to_nat DENY_MAX) (replicate (Z.to_nat DENY_NAMELEN) 0)) 0).

Lemma demo_savable : savable demo_deny.
Proof.
  assert (Hwf : dn_wf demo_deny).
  { apply deny_reset_spec. split; [by vm_compute| |by vm_compute]. cbn [dn_names]. apply Forall_replicate.
    split_and!; [by vm_compute|apply Forall_replicate; by vm_compute|vm_compute; lia]. }
  assert (Hl : deny_list demo_deny = deny_default) by (vm_compute; reflexivity).
  split; [done| | |by vm_compute]; rewrite Hl.
  - apply (bool_decide_unpack _). by vm_compute.
  - repeat constructor; try done; apply (bool_decide_unpack _); by vm_compute.
Qed.

Lemma denyctl_save_load_witness :
  ∃ k1 k2, run_on deny_kernel do_save (mk_dkernel demo_deny None 0) = (Returned (), k1) ∧
    run_on deny_kernel do_load (mk_dkernel (deny_clear demo_deny) (dk_file k1) 0) = (Returned (), k2) ∧
    deny_list (dk_deny k2) = [bytes "KILL"; bytes "EXEC"].
Proof.
  destruct (denyctl_save_load (mk_dkernel demo_deny None 0) (deny_clear demo_deny) demo_savable) as (k1 & k2 & E1 & _ & E2 & D).
  { apply (deny_clear_spec demo_deny), demo_savable. }
  exists k1, k2. split; [exact E1|]. split; [exact E2|]. rewrite D. vm_compute. reflexivity.
Defined.

Lemma list_shows_deny_witness :
  let '(r, _) := deny_kernel (U_get_deny DENY_SNAP) (mk_dkernel demo_deny None 0) in
  in_snapshot (cstring (take (Z.to_nat (rv r)) (rbytes r))) (bytes "KILL") = true.
Proof.
  destruct (deny_kernel (U_get_deny DENY_SNAP) (mk_dkernel demo_deny None 0)) as [r k'] eqn:E.
  destruct (get_deny_run (mk_dkernel demo_deny None 0) demo_savable) as (r' & E' & _). change DENY_SNAP with BUFSZ in E.
  assert (Hk : k' = mk_dkernel demo_deny None 0) by congruence. rewrite Hk in E.
  transitivity (deny_listed (bytes "KILL") demo_deny); [|vm_compute; reflexivity].
  apply (list_shows_deny (mk_dkernel demo_deny None 0) r (bytes "KILL") demo_savable E); [|apply Forall_bytes_u8|vm_compute; lia|].
  - apply (bool_decide_unpack _). by vm_compute.
  - apply (bool_decide_unpack _). by vm_compute.
Defined.

(** A full list of the longest names does not fit: its last name loses its last character. *)
Definition full_deny : denylist :=
  fold_left (λ d c, (deny_add (replicate 22 65 ++ [c]) d).2) (seqZ 65 16) (deny_clear demo_deny).

Example full_deny_list_not_saved :
  length (deny_list full_deny) = 16%nat ∧
  last (deny_list full_deny) = Some (replicate 22 65 ++ [80]) ∧
  let '(_, k1) := run_on deny_kernel do_save (mk_dkernel full_deny None 0) in
  let '(_, k2) := run_on deny_kernel do_load (mk_dkernel (deny_clear demo_deny) (dk_file k1) 0) in
  last (deny_list (dk_deny k2)) = Some (replicate 22 65).
Proof. split_and!; vm_compute; reflexivity. Qed.
