(* ===== verification/Grep.v ===== *)
(** * user/grep.c

    The matcher ([match_], [matchhere], [matchstar]) on C strings, and the loop of
    [grep], which keeps the unfinished line at the front of its buffer.  [language] is what a
    pattern means; [match_language] says that the matcher decides it, and [grep_filters]
    that grep prints the lines that match, however the file is cut into reads. *)

From S2P Require Import Prelude CString Printf User.

Local Open Scope Z_scope.

(** [matchstar(c, re, text)]; [mh] is [matchhere(re, _)]. *)
Fixpoint matchstar (mh : list Z → bool) (c : Z) (text : list Z) : bool :=
  if mh text then true
  else
    match text with
    | t :: text' => if (t =? c) || (c =? 46) then matchstar mh c text' else false
    | [] => false
    end.

Fixpoint matchhere (re text : list Z) : bool :=
  match re with
  | [] => true
  | c :: re1 =>
      match re1 with
      | s :: re2 =>
          if s =? 42 then matchstar (matchhere re2) c text
          else
            match text with
            | t :: text' => if (c =? 46) || (c =? t) then matchhere re1 text' else false
            | [] => false
            end
      | [] =>
          if c =? 36 then match text with [] => true | _ => false end
          else
            match text with
            | t :: text' => if (c =? 46) || (c =? t) then matchhere re1 text' else false
            | [] => false
            end
      end
  end.

(** The search from each position, the empty rest included. *)
Fixpoint match_from (re text : list Z) : bool :=
  if matchhere re text then true else match text with [] => false | _ :: text' => match_from re text' end.

Definition match_ (re text : list Z) : bool :=
  match re with
  | c :: re' => if c =? 94 then matchhere re' text else match_from re text
  | [] => match_from re text
  end.

(** The loop over the lines of the buffer from [p]; what is left of the buffer. *)
Fixpoint grep_lines (n : nat) (pattern p : list Z) : prog (list Z) :=
  match n with
  | O => mret p
  | S n' =>
      match strchr (cstring p) 10 with
      | None => mret p
      | Some q =>
          let k := (length (cstring p) - length q)%nat in
          _ ← (if match_ pattern (take k p) then _ ← call (U_write 1 (take (S k) p)); mret () else mret ());
          grep_lines n' pattern (drop (S k) p)
      end
  end.

Definition GREP_BUF : Z := 1024.

(** [buf] holds the unfinished line. *)
Fixpoint grep_loop (n : nat) (pattern : list Z) (fd : Z) (buf : list Z) : prog () :=
  match n with
  | O => More
  | S n' =>
      r ← call (U_read fd (GREP_BUF - Z.of_nat (length buf) - 1));
      if 0 <? rv r then
        let buf := buf ++ take (Z.to_nat (rv r)) (rbytes r) in
        rest ← grep_lines (length buf) pattern buf;
        grep_loop n' pattern fd rest
      else mret ()
  end.

Definition grep (n : nat) (pattern : list Z) (fd : Z) : prog () := grep_loop n pattern fd [].

Fixpoint grep_files (n : nat) (pattern : list Z) (files : list (list Z)) : prog () :=
  match files with
  | [] => mret ()
  | f :: files' =>
      fd ← callv (U_open f 0);
      if fd <? 0 then
        _ ← printf (bytes "grep: cannot open %s
") [VStr (Some f)];
        exit 1
      else _ ← grep n pattern fd; _ ← call (U_close fd); grep_files n pattern files'
  end.

Definition main (n : nat) (argv : list (list Z)) : prog () :=
  match argv with
  | _ :: pattern :: files =>
      match files with
      | [] => _ ← grep n pattern 0; exit 0
      | _ => _ ← grep_files n pattern files; exit 0
      end
  | _ => _ ← fprintf 2 (bytes "usage: grep pattern [file ...]
") []; exit 1
  end.

(** ** What a pattern means *)

(** A character, or [.]. *)
Inductive atom := AChar (c : Z) | AAny.
Inductive item := One (a : atom) | Many (a : atom) | EndOfLine.

Definition atom_of (c : Z) : atom := if c =? 46 then AAny else AChar c.
Definition atom_is (a : atom) (t : Z) : Prop := match a with AChar c => t = c | AAny => True end.

(** A character before [*] may be repeated; [$] at the end is the end of the line. *)
Fixpoint items (re : list Z) : list item :=
  match re with
  | [] => []
  | c :: re1 =>
      match re1 with
      | s :: re2 => if s =? 42 then Many (atom_of c) :: items re2 else One (atom_of c) :: items re1
      | [] => if c =? 36 then [EndOfLine] else [One (atom_of c)]
      end
  end.

(** The texts that begin with a match. *)
Inductive begins : list item → list Z → Prop :=
  | begins_nil t : begins [] t
  | begins_end : begins [EndOfLine] []
  | begins_one a l c t : atom_is a c → begins l t → begins (One a :: l) (c :: t)
  | begins_many a l s t : Forall (atom_is a) s → begins l t → begins (Many a :: l) (s ++ t).

Definition language (re text : list Z) : Prop :=
  match re with
  | 94 :: re' => begins (items re') text
  | _ => ∃ a b, text = a ++ b ∧ begins (items re) b
  end.

Lemma atom_of_spec c t : atom_is (atom_of c) t ↔ (t =? c) || (c =? 46) = true.
Proof. unfold atom_of. destruct (Z.eqb_spec c 46) as [->|]; cbn; [by rewrite orb_true_r|]. rewrite orb_false_r. by rewrite Z.eqb_eq. Qed.

Lemma matchstar_spec mh c text :
  matchstar mh c text = true ↔ ∃ s t, text = s ++ t ∧ Forall (atom_is (atom_of c)) s ∧ mh t = true.
Proof.
  induction text as [|x text IH]; cbn [matchstar].
  - destruct (mh []) eqn:Hm; split; try done; [by exists [], []|]. intros (s & t & He & _ & Ht).
    symmetry in He. apply app_eq_nil in He as [-> ->]. congruence.
  - destruct (mh (x :: text)) eqn:Hm; [by split; [exists [], (x :: text)|]|].
    destruct ((x =? c) || (c =? 46)) eqn:Hx.
    + rewrite IH. split.
      * intros (s & t & -> & Hs & Ht). exists (x :: s), t. split_and!; [done|constructor; [by apply atom_of_spec|done]|done].
      * intros ([|y s] & t & He & Hs & Ht); [cbn in He; congruence|]. injection He as -> ->. exists s, t. by inversion Hs.
    + split; [done|]. intros ([|y s] & t & He & Hs & Ht); [cbn in He; congruence|]. injection He as -> ->.
      apply Forall_cons in Hs as [Hy _]. apply atom_of_spec in Hy. congruence.
Qed.

Lemma begins_many_inv a l text : begins (Many a :: l) text ↔ ∃ s t, text = s ++ t ∧ Forall (atom_is a) s ∧ begins l t.
Proof. split; [intros H; inversion H; subst; eauto|]. intros (s & t & -> & Hs & Ht). by constructor. Qed.

Lemma begins_one_inv c l text :
  begins (One (atom_of c) :: l) text ↔ match text with t :: text' => (c =? 46) || (c =? t) = true ∧ begins l text' | [] => False end.
Proof.
  assert (Ha : ∀ t, atom_is (atom_of c) t ↔ (c =? 46) || (c =? t) = true) by (intros t; rewrite atom_of_spec, orb_comm, (Z.eqb_sym t c); done).
  split.
  - intros H; inversion H; subst. by rewrite <- Ha.
  - destruct text as [|t text']; [done|]. intros [H1 H2]. constructor; [by apply Ha|done].
Qed.

(** [matchhere] by recursion on the length of the pattern. *)
Lemma matchhere_spec n : ∀ re text, (length re ≤ n)%nat → matchhere re text = true ↔ begins (items re) text.
Proof.
  induction n as [|n IH]; intros re text Hn; (destruct re as [|c re1]; [by split; [constructor|]|cbn in Hn; try lia]).
  assert (Hone : ∀ l, (length l ≤ n)%nat →
    match text with t :: text' => if (c =? 46) || (c =? t) then matchhere l text' else false | [] => false end = true ↔
    begins (One (atom_of c) :: items l) text).
  { intros l Hl. rewrite begins_one_inv. destruct text as [|t text']; [done|].
    destruct ((c =? 46) || (c =? t)); [rewrite IH by done; tauto|split; [done|by intros [? _]]]. }
  destruct re1 as [|s re2].
  - cbn [matchhere items]. destruct (c =? 36).
    + split; [by destruct text; [constructor|]|]. intros H. by inversion H.
    + apply (Hone []). cbn. lia.
  - cbn [matchhere items]. destruct (s =? 42).
    + rewrite matchstar_spec, begins_many_inv. cbn in Hn. split; intros (u & t & ? & ? & ?); exists u, t; split_and!; try done.
      * apply IH; [lia|done].
      * apply IH; [lia|done].
    + apply (Hone (s :: re2)). lia.
Qed.

Lemma match_from_spec re text : match_from re text = true ↔ ∃ a b, text = a ++ b ∧ begins (items re) b.
Proof.
  induction text as [|x text IH]; cbn [match_from].
  - destruct (matchhere re []) eqn:Hm.
    + split; [|done]. intros _. exists [], []. split; [done|]. by apply (matchhere_spec (length re)).
    + split; [done|]. intros (a & b & He & Hb). symmetry in He. apply app_eq_nil in He as [-> ->].
      apply (matchhere_spec (length re)) in Hb; [congruence|done].
  - destruct (matchhere re (x :: text)) eqn:Hm.
    + split; [|done]. intros _. exists [], (x :: text). split; [done|]. by apply (matchhere_spec (length re)).
    + rewrite IH. split; [intros (a & b & -> & Hb); by exists (x :: a), b|].
      intros ([|y a] & b & He & Hb); [|injection He as -> ->; by exists a, b]. cbn in He. subst b.
      apply (matchhere_spec (length re)) in Hb; [congruence|done].
Qed.

(** C31: grep's matcher decides the language of its patterns: [match_ re text] is 1 exactly
    when the text begins with a match, for a pattern that starts with [^], or has one
    somewhere, where [.] is any character, [*] repeats the character before it
    any number of times, and [$] at the end is the end of the text. *)
Theorem match_language re text : match_ re text = true ↔ language re text.
Proof.
  assert (Hl : ∀ c re', c ≠ 94 → language (c :: re') text = ∃ a b, text = a ++ b ∧ begins (items (c :: re')) b).
  { intros c re' Hc. unfold language. repeat (done || destruct c as [|c|c]). }
  destruct re as [|c re']; cbn [match_]; [apply match_from_spec|].
  destruct (Z.eqb_spec c 94) as [->|Hc]; [by apply (matchhere_spec (length re'))|].
  rewrite Hl by done. apply match_from_spec.
Qed.

(** A pattern that starts with ^, one with a star, and one that ends with $. *)
Lemma match_language_witness :
  language (bytes "^ab*c") (bytes "abbbcd") ∧ ¬ language (bytes "^ab*c") (bytes "xabc") ∧ language (bytes "o.$") (bytes "foobox").
Proof.
  split_and!; [apply match_language; vm_compute; reflexivity| |apply match_language; vm_compute; reflexivity].
  intros H. apply match_language in H. vm_compute in H. discriminate H.
Defined.

(** ** Filtering a file *)

Definition unlines (ls : list (list Z)) : list Z := concat (map (λ l, l ++ [10]) ls).

Lemma unlines_cons l ls : unlines (l :: ls) = l ++ 10 :: unlines ls.
Proof. unfold unlines. cbn. by rewrite <- app_assoc. Qed.

Lemma unlines_app a b : unlines (a ++ b) = unlines a ++ unlines b.
Proof. unfold unlines. by rewrite map_app, concat_app. Qed.

(** Every text is some lines and an unfinished one. *)
Lemma split_lines p : ∃ ls t, p = unlines ls ++ t ∧ 10 ∉ t ∧ Forall (λ l, 10 ∉ l) ls.
Proof.
  induction p as [|c p (ls & t & -> & Ht & Hls)]; [exists [], []; split_and!; [done|by apply not_elem_of_nil|done]|].
  destruct (decide (c = 10)) as [->|Hc]; [exists ([] :: ls), t; split_and!; [done|done|constructor; [by apply not_elem_of_nil|done]]|].
  destruct ls as [|l ls].
  - exists [], (c :: t). split_and!; [done|by apply not_elem_of_cons|done].
  - apply Forall_cons in Hls as [Hl Hls]. exists ((c :: l) :: ls), t. rewrite !unlines_cons.
    split_and!; [done|done|constructor; [by apply not_elem_of_cons|done]].
Qed.

Lemma split_line (l x m y : list Z) : 10 ∉ l → 10 ∉ m → l ++ 10 :: x = m ++ 10 :: y → l = m ∧ x = y.
Proof.
  revert m. induction l as [|c l IH]; intros [|d m] Hl Hm He.
  - by injection He as ->.
  - injection He as <- _. destruct Hm. left.
  - injection He as -> _. destruct Hl. left.
  - apply not_elem_of_cons in Hl as [_ Hl]. apply not_elem_of_cons in Hm as [_ Hm]. injection He as -> He.
    by destruct (IH m Hl Hm He) as [-> ->].
Qed.

Lemma no_line (l x m : list Z) : 10 ∉ m → l ++ 10 :: x ≠ m.
Proof. intros Hm <-. apply Hm, elem_of_app. right. left. Qed.

Lemma unlines_split ls : ∀ lines x tail, Forall (λ l, 10 ∉ l) ls → Forall (λ l, 10 ∉ l) lines → 10 ∉ tail →
  unlines ls ++ x = unlines lines ++ tail → ∃ lines', lines = ls ++ lines' ∧ x = unlines lines' ++ tail.
Proof.
  induction ls as [|l ls IH]; intros lines x tail Hls Hlines Ht He; [by exists lines|].
  apply Forall_cons in Hls as [Hl Hls]. rewrite unlines_cons, <- app_assoc in He. cbn [app] in He.
  destruct lines as [|m lines]; [by destruct (no_line l (unlines ls ++ x) tail Ht)|].
  apply Forall_cons in Hlines as [Hm Hlines]. rewrite unlines_cons, <- app_assoc in He. cbn [app] in He.
  destruct (split_line _ _ _ _ Hl Hm He) as [-> He']. destruct (IH lines x tail Hls Hlines Ht He') as (l' & -> & ->). by exists l'.
Qed.

Lemma strchr_line l x c : c ∉ l → strchr (l ++ c :: x) c = Some (c :: x).
Proof.
  induction l as [|a l IH]; intros Hl; cbn [app strchr]; [by rewrite Z.eqb_refl|]. apply not_elem_of_cons in Hl as [Ha Hl].
  rewrite (proj2 (Z.eqb_neq a c)) by done. by apply IH.
Qed.

Lemma strchr_none l c : c ∉ l → strchr l c = None.
Proof.
  induction l as [|a l IH]; intros Hl; cbn [strchr]; [done|]. apply not_elem_of_cons in Hl as [Ha Hl].
  rewrite (proj2 (Z.eqb_neq a c)) by done. by apply IH.
Qed.

(** The lines that match, as they are printed. *)
Definition matching (pattern : list Z) (ls : list (list Z)) : list Z := unlines (List.filter (match_ pattern) ls).

Lemma grep_lines_run pattern ls : ∀ n t k, Forall (λ l, 10 ∉ l) ls → 10 ∉ t → Forall (λ c, c ≠ 0) (unlines ls ++ t) →
  (length (unlines ls ++ t) ≤ n)%nat →
  run_on file_kernel (grep_lines n pattern (unlines ls ++ t)) k =
    (Returned t, mk_fk (fk_rest k) (fk_sched k) (fk_out k ++ matching pattern ls)).
Proof.
  induction ls as [|l ls IH]; intros n t k Hls Ht Hnz Hn.
  - cbn [unlines map concat app] in *. destruct k as [a b o]. cbn. rewrite app_nil_r. destruct n as [|n]; [done|].
    cbn [grep_lines]. rewrite cstring_id by done. by rewrite (strchr_none t 10 Ht).
  - apply Forall_cons in Hls as [Hl Hls]. rewrite unlines_cons, <- app_assoc in *. cbn [app] in *.
    rewrite length_app in Hn. cbn [length] in Hn. destruct n as [|n]; [lia|]. cbn [grep_lines].
    rewrite cstring_id, (strchr_line l _ 10 Hl) by done.
    replace (length (l ++ 10%Z :: unlines ls ++ t) - length (10%Z :: unlines ls ++ t))%nat with (length l)
      by (rewrite length_app; lia).
    rewrite take_app_length. replace (S (length l)) with (length (l ++ [10])) by (rewrite length_app; cbn; lia).
    change (l ++ 10 :: unlines ls ++ t) with (l ++ [10] ++ unlines ls ++ t). rewrite (app_assoc l [10]), take_app_length, drop_app_length.
    apply Forall_app in Hnz as [_ Hnz]. apply Forall_cons in Hnz as [_ Hnz].
    unfold matching. cbn [List.filter]. destruct (match_ pattern l) eqn:Hm.
    + erewrite run_on_bind by reflexivity. rewrite (IH n t _ Hls Ht Hnz) by lia. cbn [fk_rest fk_sched fk_out].
      unfold matching. by rewrite unlines_cons, <- !app_assoc.
    + erewrite run_on_bind by reflexivity. by rewrite (IH n t _ Hls Ht Hnz) by lia.
Qed.

Lemma grep_loop_run pattern fd n : ∀ buf lines tail k, buf ++ fk_rest k = unlines lines ++ tail → 10 ∉ buf →
  Forall (λ l, 10 ∉ l ∧ Z.of_nat (length l) < GREP_BUF - 1) (tail :: lines) → Forall (λ c, c ≠ 0) (buf ++ fk_rest k) →
  (length (fk_rest k) < n)%nat →
  ∃ s, run_on file_kernel (grep_loop n pattern fd buf) k = (Returned (), mk_fk [] s (fk_out k ++ matching pattern lines)).
Proof.
  induction n as [|n IH]; intros buf lines tail k He Hbuf Hlines Hnz Hn; [lia|]. cbn [grep_loop].
  pose proof Hlines as [[Htail Htl] Hls]%Forall_cons.
  assert (Hls' : Forall (λ l, 10 ∉ l) lines) by (eapply Forall_impl; [exact Hls|]; by intros l [? _]).
  assert (Hlen : Z.of_nat (length buf) < GREP_BUF - 1).
  { destruct lines as [|l lines]; [cbn in He; apply (f_equal length) in He; rewrite length_app in He; lia|].
    rewrite unlines_cons, <- app_assoc in He. apply Forall_cons in Hls as [[_ Hl] _].
    destruct (decide (length buf ≤ length l)%nat); [lia|]. destruct Hbuf.
    assert (Hb : buf !! length l = Some 10).
    { rewrite <- (lookup_app_l buf (fk_rest k)) by lia. rewrite He, lookup_app_r, Nat.sub_diag by lia. done. }
    by eapply list_elem_of_lookup_2. }
  destruct k as [rest sched out]. cbn [fk_rest fk_out] in *.
  erewrite run_call by reflexivity. cbn [fk_rest fk_sched fk_out rv rbytes].
  set (m := Nat.min (S (hd 0%nat sched)) (Nat.min (Z.to_nat (GREP_BUF - Z.of_nat (length buf) - 1)) (length rest))).
  destruct (Z.ltb_spec 0 (Z.of_nat m)) as [Hm|Hm].
  2: { destruct rest as [|c rest]; [|cbn [length] in m; lia]. rewrite app_nil_r in He. exists (tl sched). cbn [run_on mret prog_ret].
       unfold m. rewrite drop_nil. destruct lines as [|l lines]; [cbn; by rewrite app_nil_r|].
       exfalso. rewrite unlines_cons, <- app_assoc in He. cbn [app] in He. by destruct (no_line l (unlines lines ++ tail) buf Hbuf). }
  rewrite Nat2Z.id, take_take, Nat.min_id. destruct (split_lines (buf ++ take m rest)) as (ls & t & Hs & Ht & Hl).
  assert (Hall : unlines ls ++ (t ++ drop m rest) = unlines lines ++ tail) by (rewrite app_assoc, <- Hs, <- app_assoc, take_drop; done).
  destruct (unlines_split ls lines (t ++ drop m rest) tail Hl Hls' Htail Hall) as (lines' & -> & He').
  assert (Hnz' : Forall (λ c, c ≠ 0) (unlines ls ++ t ++ drop m rest)) by (rewrite Hall, <- He; done).
  rewrite Hs. rewrite app_assoc in Hnz'. apply Forall_app in Hnz' as [Hnz1 Hnz2].
  rewrite (run_on_bind _ _ _ _ _ _ (grep_lines_run pattern ls _ t _ Hl Ht Hnz1 (Nat.le_refl _))).
  destruct (IH t lines' tail (mk_fk (drop m rest) (tl sched) (out ++ matching pattern ls)) He' Ht) as (s & E).
  - apply Forall_app in Hls as [_ Hls]. by constructor.
  - cbn [fk_rest]. apply Forall_app in Hnz1 as [_ Hnz1]. by apply Forall_app.
  - cbn [fk_rest]. rewrite length_drop. lia.
  - exists s. cbn [fk_rest fk_sched fk_out] in *. rewrite E. unfold matching. by rewrite List.filter_app, unlines_app, app_assoc.
Qed.

(** grep prints the lines of the file that match, whole and in order, however the kernel
    cuts the file into reads, for a file without NUL bytes whose lines have at most 1022 characters; an
    unfinished last line is not printed. *)
Theorem grep_filters pattern fd lines tail sched n :
  Forall (λ l, 10 ∉ l ∧ Z.of_nat (length l) < GREP_BUF - 1) (tail :: lines) → Forall (λ c, c ≠ 0) (unlines lines ++ tail) →
  (length (unlines lines ++ tail) < n)%nat →
  ∃ s, run_on file_kernel (grep n pattern fd) (mk_fk (unlines lines ++ tail) sched []) =
    (Returned (), mk_fk [] s (unlines (List.filter (match_ pattern) lines))).
Proof.
  intros Hl Hnz Hn. destruct (grep_loop_run pattern fd n [] lines tail (mk_fk (unlines lines ++ tail) sched [])) as (s & E);
    [done|by apply not_elem_of_nil|done|done|done|]. by exists s.
Qed.

Lemma grep_filters_witness :
  ∃ s, run_on file_kernel (grep 20 (bytes "b$") 0) (mk_fk (bytes "ab
c
bb
b") [2; 0; 1]%nat []) = (Returned (), mk_fk [] s (bytes "ab
bb
")).
Proof.
  destruct (grep_filters (bytes "b$") 0 [bytes "ab"; bytes "c"; bytes "bb"] (bytes "b") [2; 0; 1]%nat 20) as (s & E).
  - apply (bool_decide_unpack _). by vm_compute.
  - apply (bool_decide_unpack _). by vm_compute.
  - vm_compute. lia.
  - exists s. exact E.
Defined.
