(* ===== verification/Tools.v ===== *)
(** * user/: init and the command-line tools

    init.c, cat.c, wc.c, ls.c, echo.c, kill.c, ln.c, mkdir.c, rm.c and zombie.c as programs of
    User.v; each [main] is named after its file.  The arguments include [argv[0]].
    [cat_copies] and [wc_counts] say what comes out whatever sizes the reads have;
    [init_keeps_shell] that init never ends while it can fork, and starts a shell
    each time the last one has ended. *)

From S2P Require Import Prelude CString Printf User.

Local Open Scope Z_scope.

(** ** cat.c *)

Fixpoint cat (n : nat) (fd : Z) : prog () :=
  match n with
  | O => More
  | S n' =>
      r ← call (U_read fd 512);
      if 0 <? rv r then
        w ← callv (U_write 1 (take (Z.to_nat (rv r)) (rbytes r)));
        if negb (w =? rv r) then _ ← fprintf 2 (bytes "cat: write error
") []; exit 1
        else cat n' fd
      else if rv r <? 0 then _ ← fprintf 2 (bytes "cat: read error
") []; exit 1
      else mret ()
  end.

Fixpoint cat_files (n : nat) (files : list (list Z)) : prog () :=
  match files with
  | [] => mret ()
  | f :: files' =>
      fd ← callv (U_open f 0);
      if fd <? 0 then _ ← fprintf 2 (bytes "cat: cannot open %s
") [VStr (Some f)]; exit 1
      else _ ← cat n fd; _ ← call (U_close fd); cat_files n files'
  end.

Definition cat_main (n : nat) (argv : list (list Z)) : prog () :=
  match argv with
  | _ :: ((_ :: _) as files) => _ ← cat_files n files; exit 0
  | _ => _ ← cat n 0; exit 0
  end.

(** ** wc.c *)

(** Lines, words, characters, and whether a word is going on. *)
Record wcount := mk_wcount { wc_l : Z; wc_w : Z; wc_c : Z; wc_inword : bool }.

Definition wc_spaces : list Z := [32; 13; 9; 10; 11].

(** The body of the inner loop, on one character. *)
Definition wc_char (s : wcount) (ch : Z) : wcount :=
  let c := wc_c s + 1 in
  let l := if ch =? 10 then wc_l s + 1 else wc_l s in
  match User.strchr wc_spaces ch with
  | Some _ => mk_wcount l (wc_w s) c false
  | None => if negb (wc_inword s) then mk_wcount l (wc_w s + 1) c true else mk_wcount l (wc_w s) c (wc_inword s)
  end.

Fixpoint wc_loop (n : nat) (fd : Z) (s : wcount) : prog wcount :=
  match n with
  | O => More
  | S n' =>
      r ← call (U_read fd 512);
      if 0 <? rv r then wc_loop n' fd (fold_left wc_char (take (Z.to_nat (rv r)) (rbytes r)) s)
      else if rv r <? 0 then _ ← printf (bytes "wc: read error
") []; exit 1
      else mret s
  end.

Definition wc (n : nat) (fd : Z) (name : list Z) : prog () :=
  s ← wc_loop n fd (mk_wcount 0 0 0 false);
  printf (bytes "%d %d %d %s
") [VInt (wc_l s); VInt (wc_w s); VInt (wc_c s); VStr (Some name)].

Fixpoint wc_files (n : nat) (files : list (list Z)) : prog () :=
  match files with
  | [] => mret ()
  | f :: files' =>
      fd ← callv (U_open f 0);
      if fd <? 0 then _ ← printf (bytes "wc: cannot open %s
") [VStr (Some f)]; exit 1
      else _ ← wc n fd f; _ ← call (U_close fd); wc_files n files'
  end.

Definition wc_main (n : nat) (argv : list (list Z)) : prog () :=
  match argv with
  | _ :: ((_ :: _) as files) => _ ← wc_files n files; exit 0
  | _ => _ ← wc n 0 []; exit 0
  end.

(** ** echo.c, kill.c, ln.c, mkdir.c, rm.c, zombie.c *)

Fixpoint echo_args (args : list (list Z)) : prog () :=
  match args with
  | [] => mret ()
  | a :: args' =>
      _ ← call (U_write 1 a);
      _ ← call (U_write 1 (match args' with [] => [10] | _ => [32] end));
      echo_args args'
  end.
Definition echo_main (argv : list (list Z)) : prog () := _ ← echo_args (tl argv); exit 0.

Fixpoint kill_args (args : list (list Z)) : prog () :=
  match args with [] => mret () | a :: args' => _ ← call (U_kill (User.atoi a)); kill_args args' end.
Definition kill_main (argv : list (list Z)) : prog () :=
  match argv with
  | _ :: ((_ :: _) as args) => _ ← kill_args args; exit 0
  | _ => _ ← fprintf 2 (bytes "usage: kill pid...
") []; exit 1
  end.

Definition ln_main (argv : list (list Z)) : prog () :=
  match argv with
  | [_; old; new] =>
      r ← callv (U_link old new);
      _ ← (if r <? 0 then fprintf 2 (bytes "link %s %s: failed
") [VStr (Some old); VStr (Some new)] else mret ());
      exit 0
  | _ => _ ← fprintf 2 (bytes "Usage: ln old new
") []; exit 1
  end.

Fixpoint mkdir_args (args : list (list Z)) : prog () :=
  match args with
  | [] => mret ()
  | a :: args' =>
      r ← callv (U_mkdir a);
      if r <? 0 then fprintf 2 (bytes "mkdir: %s failed to create
") [VStr (Some a)] else mkdir_args args'
  end.
Definition mkdir_main (argv : list (list Z)) : prog () :=
  match argv with
  | _ :: ((_ :: _) as args) => _ ← mkdir_args args; exit 0
  | _ => _ ← fprintf 2 (bytes "Usage: mkdir files...
") []; exit 1
  end.

Fixpoint rm_args (args : list (list Z)) : prog () :=
  match args with
  | [] => mret ()
  | a :: args' =>
      r ← callv (U_unlink a);
      if r <? 0 then fprintf 2 (bytes "rm: %s failed to delete
") [VStr (Some a)] else rm_args args'
  end.
Definition rm_main (argv : list (list Z)) : prog () :=
  match argv with
  | _ :: ((_ :: _) as args) => _ ← rm_args args; exit 0
  | _ => _ ← fprintf 2 (bytes "Usage: rm files...
") []; exit 1
  end.

Definition zombie_main : prog () :=
  pid ← callv U_fork;
  _ ← (if 0 <? pid then _ ← call (U_pause 5); mret () else mret ());
  exit 0.

(** ** ls.c *)

Definition ls_T_DIR : Z := 1.
Definition ls_T_FILE : Z := 2.
Definition ls_T_DEVICE : Z := 3.
Definition LS_DIRSIZ : nat := 14.

(** What follows the last slash. *)
Fixpoint after_slash (path best : list Z) : list Z :=
  match path with
  | [] => best
  | c :: path' => after_slash path' (if c =? 47 then path' else best)
  end.

Definition fmtname (path : list Z) : list Z :=
  let p := after_slash path path in
  if (LS_DIRSIZ <=? length p)%nat then p else p ++ replicate (LS_DIRSIZ - length p) 32.

(** The fields of a [struct stat]. *)
Definition stat_ino (st : list Z) : Z := le_decode (sub 4 4 st).
Definition stat_type (st : list Z) : Z := le_decode (sub 8 2 st).
Definition stat_size (st : list Z) : Z := le_decode (sub 16 8 st).

Definition ls_line (path st : list Z) : prog () :=
  printf (bytes "%s %d %d %d
") [VStr (Some (fmtname path)); VInt (stat_type st); VInt (stat_ino st); VInt (s32 (stat_size st))].

Fixpoint ls_dir (n : nat) (fd : Z) (path : list Z) : prog () :=
  match n with
  | O => More
  | S n' =>
      r ← call (U_read fd 16);
      if negb (rv r =? 16) then mret ()
      else if le_decode (sub 0 2 (rbytes r)) =? 0 then ls_dir n' fd path
      else
        let buf := path ++ [47] ++ cstring (sub 2 LS_DIRSIZ (rbytes r)) in
        '(e, st) ← User.stat buf;
        _ ← (if e <? 0 then printf (bytes "ls: cannot stat %s
") [VStr (Some buf)] else ls_line buf st);
        ls_dir n' fd path
  end.

Definition ls (n : nat) (path : list Z) : prog () :=
  fd ← callv (U_open path 0);
  if fd <? 0 then fprintf 2 (bytes "ls: cannot open %s
") [VStr (Some path)]
  else
    r ← call (U_fstat fd);
    if rv r <? 0 then
      _ ← fprintf 2 (bytes "ls: cannot stat %s
") [VStr (Some path)];
      _ ← call (U_close fd); mret ()
    else
      let t := stat_type (rbytes r) in
      _ ← (if (t =? ls_T_DEVICE) || (t =? ls_T_FILE) then ls_line path (rbytes r)
           else if t =? ls_T_DIR then
             if 512 <? Z.of_nat (length path) + 1 + Z.of_nat LS_DIRSIZ + 1 then printf (bytes "ls: path too long
") []
             else ls_dir n fd path
           else mret ());
      _ ← call (U_close fd); mret ().

Fixpoint ls_args (n : nat) (args : list (list Z)) : prog () :=
  match args with [] => mret () | a :: args' => _ ← ls n a; ls_args n args' end.
Definition ls_main (n : nat) (argv : list (list Z)) : prog () :=
  match argv with
  | _ :: ((_ :: _) as args) => _ ← ls_args n args; exit 0
  | _ => _ ← ls n (bytes "."); exit 0
  end.

(** ** init.c *)

Definition init_O_RDWR : Z := 2.
Definition CONSOLE : Z := 1.

(** A child that runs a program; [exec] returns only when it fails. *)
Definition init_child (prog_name : list Z) (argv : list (list Z)) (msg : list Z) : prog () :=
  _ ← call (U_exec prog_name argv); _ ← printf msg []; exit 1.

(** Wait until the shell [pid] has ended. *)
Fixpoint init_wait (n : nat) (pid : Z) : prog () :=
  match n with
  | O => More
  | S n' =>
      wpid ← callv U_wait;
      if wpid =? pid then mret ()
      else if wpid <? 0 then _ ← printf (bytes "init: wait returned an error
") []; exit 1
      else init_wait n' pid
  end.

Fixpoint init_loop (n : nat) : prog () :=
  match n with
  | O => More
  | S n' =>
      _ ← printf (bytes "init: starting sh
") [];
      pid ← callv U_fork;
      if pid <? 0 then _ ← printf (bytes "init: fork failed
") []; exit 1
      else if pid =? 0 then init_child (bytes "sh") [bytes "sh"] (bytes "init: exec sh failed
")
      else _ ← init_wait n pid; init_loop n'
  end.

Definition init_main (n : nat) : prog () :=
  fd ← callv (U_open (bytes "console") init_O_RDWR);
  _ ← (if fd <? 0 then _ ← call (U_mknod (bytes "console") CONSOLE 0); _ ← call (U_open (bytes "console") init_O_RDWR); mret () else mret ());
  _ ← call (U_dup 0);
  _ ← call (U_dup 0);
  pid ← callv U_fork;
  if pid =? 0 then init_child (bytes "denyctl") [bytes "denyctl"; bytes "load"] (bytes "init: exec denyctl failed
")
  else
    _ ← call U_wait;
    pid ← callv U_fork;
    if pid =? 0 then init_child (bytes "agentd") [bytes "agentd"] (bytes "init: exec agentd failed
")
    else init_loop n.

(** ** cat *)

Lemma take_all (a : list Z) : take (Z.to_nat (Z.of_nat (length a))) a = a.
Proof. by rewrite Nat2Z.id, firstn_all. Qed.

Lemma cat_run fd n : ∀ k, (length (fk_rest k) < n)%nat → ∃ s, run_on file_kernel (cat n fd) k = (Returned (), mk_fk [] s (fk_out k ++ fk_rest k)).
Proof.
  induction n as [|n IH]; intros k Hn; [lia|]. cbn [cat]. destruct (read_file fd 512 k) as (a & b & s' & Hk & _ & Hne & Hr). erewrite run_call by exact Hr. cbn [rv rbytes].
  destruct a as [|c a].
  - destruct (fk_rest k) as [|? ?] eqn:Er; [|by destruct Hne]. cbn in Hk. subst b. exists s'. cbn. by rewrite app_nil_r.
  - rewrite (proj2 (Z.ltb_lt _ _)) by (cbn [length]; lia). rewrite take_all. erewrite run_callv by reflexivity. cbn [rv]. rewrite Z.eqb_refl. cbn [negb fk_rest fk_sched fk_out].
    destruct (IH (mk_fk b s' (fk_out k ++ c :: a))) as (s & E).
    + cbn [fk_rest]. rewrite Hk, length_app in Hn. cbn [length] in Hn. lia.
    + exists s. rewrite E, Hk. cbn [fk_rest fk_out]. by rewrite <- app_assoc.
Qed.

(** [cat] copies its input, whole and in order, however the kernel cuts it into reads. *)
Theorem cat_copies fd content sched n : (length content < n)%nat →
  ∃ s, run_on file_kernel (cat n fd) (mk_fk content sched []) = (Returned (), mk_fk [] s content).
Proof. intros Hn. apply (cat_run fd n (mk_fk content sched [])). done. Qed.

Lemma cat_copies_witness : ∃ s, run_on file_kernel (cat 6 0) (mk_fk (bytes "hello") [1; 0; 7]%nat []) = (Returned (), mk_fk [] s (bytes "hello")).
Proof. apply (cat_copies 0 (bytes "hello") [1; 0; 7]%nat 6). vm_compute. lia. Defined.

(** ** wc *)

(** What wc counts: newlines, maximal runs of characters that are no white space, and bytes. *)
Definition is_space (c : Z) : bool := (c =? 32) || (c =? 13) || (c =? 9) || (c =? 10) || (c =? 11).

Fixpoint split_spaces (l : list Z) : list (list Z) :=
  match l with
  | [] => [[]]
  | c :: l' =>
      if is_space c then [] :: split_spaces l'
      else match split_spaces l' with w :: ws => (c :: w) :: ws | [] => [[c]] end
  end.
Definition words (l : list Z) : list (list Z) := List.filter (λ w, negb (bool_decide (w = []))) (split_spaces l).
Definition newlines (l : list Z) : list Z := List.filter (λ c, c =? 10) l.

Lemma wc_char_eq s c : wc_char s c = mk_wcount (if c =? 10 then wc_l s + 1 else wc_l s)
  (if is_space c then wc_w s else if wc_inword s then wc_w s else wc_w s + 1) (wc_c s + 1) (negb (is_space c)).
Proof.
  unfold wc_char, is_space. cbn [wc_spaces User.strchr]. rewrite !(Z.eqb_sym c).
  destruct (32 =? c), (13 =? c), (9 =? c), (10 =? c), (11 =? c); cbn [orb negb]; try done; by destruct (wc_inword s).
Qed.

Lemma split_spaces_cons l : ∃ w ws, split_spaces l = w :: ws.
Proof. destruct l as [|c l]; cbn; [by eexists _, _|]. destruct (is_space c); [by eexists _, _|]. destruct (split_spaces l); by eexists _, _. Qed.

(** A word that is going on is counted already. *)
Lemma wc_fold l : ∀ s, fold_left wc_char l s = mk_wcount (wc_l s + Z.of_nat (length (newlines l)))
  (wc_w s + Z.of_nat (length (words l)) - (if wc_inword s && negb (bool_decide (hd [] (split_spaces l) = [])) then 1 else 0))
  (wc_c s + Z.of_nat (length l)) (match last l with Some c => negb (is_space c) | None => wc_inword s end).
Proof.
  induction l as [|c l IH]; intros s.
  - cbn. rewrite andb_false_r. destruct s; cbn. f_equal; lia.
  - cbn [fold_left]. rewrite IH, wc_char_eq. cbn [wc_l wc_w wc_c wc_inword]. destruct (split_spaces_cons l) as (w & ws & Hs). f_equal.
    + unfold newlines. cbn [List.filter]. destruct (c =? 10); cbn [length]; lia.
    + unfold words. cbn [split_spaces]. rewrite Hs. destruct (is_space c); cbn [negb andb hd List.filter].
      * rewrite (bool_decide_true ([] = [])) by done. cbn [negb]. rewrite andb_false_r. lia.
      * rewrite (bool_decide_false (c :: w = [])) by done. cbn [negb]. destruct w; [rewrite bool_decide_true by done|rewrite bool_decide_false by done]; cbn [negb length]; destruct (wc_inword s); cbn [andb]; lia.
    + cbn [length]. lia.
    + destruct l as [|d l]; [done|]. rewrite last_cons_cons. by destruct (last_is_Some (d :: l)) as [_ [x ->]].
Qed.

Lemma wc_loop_run fd n : ∀ k s, (length (fk_rest k) < n)%nat → ∃ sc, run_on file_kernel (wc_loop n fd s) k = (Returned (fold_left wc_char (fk_rest k) s), mk_fk [] sc (fk_out k)).
Proof.
  induction n as [|n IH]; intros k s Hn; [lia|]. cbn [wc_loop]. destruct (read_file fd 512 k) as (a & b & s' & Hk & _ & Hne & Hr). erewrite run_call by exact Hr. cbn [rv rbytes].
  destruct a as [|c a].
  - destruct (fk_rest k) as [|? ?] eqn:Er; [|by destruct Hne]. cbn in Hk. subst b. by exists s'.
  - rewrite (proj2 (Z.ltb_lt _ _)) by (cbn [length]; lia). rewrite take_all.
    destruct (IH (mk_fk b s' (fk_out k)) (fold_left wc_char (c :: a) s)) as (sc & E).
    + cbn [fk_rest]. rewrite Hk, length_app in Hn. cbn [length] in Hn. lia.
    + exists sc. rewrite E, Hk. cbn [fk_rest fk_out]. by rewrite fold_left_app.
Qed.

(** [wc] prints the number of newlines, of maximal runs of non-blank characters and of
    bytes of its input, however the kernel cuts it into reads: a word cut by the end of
    a buffer is counted once. *)
Theorem wc_counts fd name content sched n : (length content < n)%nat →
  ∃ s, run_on file_kernel (wc n fd name) (mk_fk content sched []) = (Returned (), mk_fk [] s
    (vformat (bytes "%d %d %d %s
") [VInt (Z.of_nat (length (newlines content))); VInt (Z.of_nat (length (words content))); VInt (Z.of_nat (length content)); VStr (Some name)])).
Proof.
  intros Hn. destruct (wc_loop_run fd n (mk_fk content sched []) (mk_wcount 0 0 0 false) Hn) as (s & E). exists s. unfold wc.
  rewrite (run_on_bind _ _ _ _ _ _ E), printf_run, wc_fold. cbn [fk_rest fk_sched fk_out wc_l wc_w wc_c wc_inword andb app]. do 2 f_equal.
  repeat f_equal; lia.
Qed.

Lemma wc_counts_witness : ∃ s, run_on file_kernel (wc 20 0 (bytes "f")) (mk_fk (bytes "one two
 three") [1; 0; 7]%nat []) = (Returned (), mk_fk [] s (bytes "1 3 14 f
")).
Proof. destruct (wc_counts 0 (bytes "f") (bytes "one two
 three") [1; 0; 7]%nat 20) as (s & E); [vm_compute; lia|]. exists s. exact E. Defined.

(** ** init *)

(** The pid of the shell that runs, by the calls so far. *)
Definition shell_step (s : option Z) (x : ucall * reply) : option Z :=
  match x.1 with
  | U_fork => if 0 <? rv x.2 then Some (rv x.2) else s
  | U_wait => if bool_decide (s = Some (rv x.2)) then None else s
  | _ => s
  end.
Definition shell_running (h : list (ucall * reply)) : option Z := fold_left shell_step h None.

Lemma shell_snoc h x : shell_running (h ++ [x]) = shell_step (shell_running h) x.
Proof. unfold shell_running. by rewrite fold_left_app. Qed.

(** [fork] only when no shell runs. *)
Definition one_shell (h : list (ucall * reply)) (c : ucall) : Prop := c = U_fork → shell_running h = None.

Lemma printf_shell s fmt args : ∀ h, shell_running h = s → wlp one_shell (λ h' _, shell_running h' = s) h (printf fmt args).
Proof.
  unfold printf, fprintf. destruct (vprintf_all 1 fmt args 1 ltac:(lia)) as (w & ->). induction w as [|b w IH]; intros h Hh; [done|].
  split; [done|]. intros r. apply IH. by rewrite shell_snoc.
Qed.

Lemma wait_shell n pid : ∀ h, shell_running h = Some pid → wlp one_shell (λ h' _, shell_running h' = None) h (init_wait n pid).
Proof.
  induction n as [|n IH]; intros h Hh; [done|]. cbn [init_wait]. apply wlp_callv; [done|]. intros r. destruct (Z.eqb_spec (rv r) pid) as [He|He].
  - cbn [wlp]. change (shell_running (h ++ [(U_wait, r)]) = None). rewrite shell_snoc, Hh. unfold shell_step. cbn [fst snd]. by rewrite He, bool_decide_true.
  - destruct (rv r <? 0).
    + eapply wlp_bind; [apply (printf_shell (shell_running (h ++ [(U_wait, r)]))); done|]. done.
    + apply IH. rewrite shell_snoc, Hh. unfold shell_step. cbn [fst snd]. rewrite bool_decide_false; [done|]. intros [= E]. by apply He.
Qed.

Lemma loop_shell n : ∀ h, shell_running h = None → wlp one_shell (λ _ _, True) h (init_loop n).
Proof.
  induction n as [|n IH]; intros h Hh; [exact I|]. cbn [init_loop]. eapply wlp_bind; [by apply (printf_shell None)|]. intros h1 u Hh1. cbn beta in Hh1. apply wlp_callv; [by intros _|]. intros r.
  destruct (Z.ltb_spec (rv r) 0) as [Hn|Hn]; [eapply wlp_bind; [by apply printf_shell|done]|]. destruct (Z.eqb_spec (rv r) 0) as [Hz|Hz].
  - unfold init_child. apply wlp_call; [done|]. intros r'. eapply wlp_bind; [by apply printf_shell|done].
  - eapply wlp_bind; [apply wait_shell|intros h2 v Hh2; by apply IH]. rewrite shell_snoc. unfold shell_step. cbn [fst snd]. by rewrite (proj2 (Z.ltb_lt _ _)) by lia.
Qed.

Lemma trace_bind {A B} ka (p : prog A) (f : A → prog B) : ∀ h, trace ka h (p ≫= f) =
  match trace ka h p with (h', Returned a) => trace ka h' (f a) | (h', Exited_with n) => (h', Exited_with n) | (h', Cut) => (h', Cut) end.
Proof. induction p as [a|c k IH|n|]; intros h; cbn; [done|apply IH|done|done]. Qed.

Lemma trace_callv {B} ka c (f : Z → prog B) h : trace ka h (callv c ≫= f) = trace ka (h ++ [(c, ka h c)]) (f (rv (ka h c))).
Proof. done. Qed.

Lemma printf_returns ka fmt args : ∀ h, ∃ h', trace ka h (printf fmt args) = (h', Returned ()).
Proof.
  unfold printf, fprintf. destruct (vprintf_all 1 fmt args 1 ltac:(lia)) as (w & ->). induction w as [|b w IH]; intros h; [by exists h|]. apply IH.
Qed.

Lemma wait_returns ka n pid : (∀ h, 0 ≤ rv (ka h U_wait)) → ∀ h, ∃ h', trace ka h (init_wait n pid) = (h', Returned ()) ∨ trace ka h (init_wait n pid) = (h', Cut).
Proof.
  intros Hw. induction n as [|n IH]; intros h; cbn [init_wait]; [exists h; by right|]. cbn. destruct (_ =? pid); [eexists; by left|].
  rewrite (proj2 (Z.ltb_ge _ _)) by apply Hw. apply IH.
Qed.

(** init's loop: at each [fork] the shell started before has ended and been waited for, so there is one shell at
    a time, whatever orphans are reaped in between; and the loop never ends while [fork] and [wait] succeed. *)
Theorem init_one_shell ka n h e : trace ka [] (init_loop n) = (h, e) →
  (∀ i r, h !! i = Some (U_fork, r) → shell_running (take i h) = None) ∧
  ((∀ h', 0 < rv (ka h' U_fork)) → (∀ h', 0 ≤ rv (ka h' U_wait)) → e = Cut).
Proof.
  intros Ht. split.
  - intros i r Hi. destruct (wlp_trace one_shell _ ka _ [] h e (loop_shell n [] eq_refl) Ht) as (_ & Hp & _). by apply (Hp i U_fork r); [cbn; lia|..].
  - intros Hf Hw. revert Ht. generalize (@nil (ucall * reply)). induction n as [|n IH]; intros h0; cbn [init_loop]; [by intros [= <- <-]|].
    rewrite trace_bind. destruct (printf_returns ka (bytes "init: starting sh
") [] h0) as (h1 & ->). rewrite trace_callv. pose proof (Hf h1). rewrite (proj2 (Z.ltb_ge _ _)), (proj2 (Z.eqb_neq _ _)) by lia. rewrite trace_bind.
    destruct (wait_returns ka (S n) (rv (ka h1 U_fork)) Hw (h1 ++ [(U_fork, ka h1 U_fork)])) as (h2 & [-> | ->]); [apply IH|by intros [= <- <-]].
Qed.

(** A kernel whose [wait] first reports an orphan. *)
Definition ex_answers (h : list (ucall * reply)) (c : ucall) : reply :=
  match c with U_fork => mk_reply (10 + Z.of_nat (length h)) [] | U_wait => mk_reply (if (length h =? 2)%nat then 5 else 11) [] | _ => mk_reply 0 [] end.

Lemma init_one_shell_witness : trace ex_answers [] (init_loop 3) = ((trace ex_answers [] (init_loop 3)).1, Cut) ∧
  shell_running (take 1 (trace ex_answers [] (init_loop 3)).1) = None.
Proof.
  assert (Ht : trace ex_answers [] (init_loop 3) = ((trace ex_answers [] (init_loop 3)).1, (trace ex_answers [] (init_loop 3)).2)) by apply surjective_pairing.
  destruct (init_one_shell ex_answers 3 _ _ Ht) as [H1 H2]. split.
  - refine (eq_trans Ht (f_equal (pair _) (H2 _ _))); intros h'; cbn; [lia|by destruct (length h' =? 2)%nat].
  - apply (H1 1%nat (mk_reply 11 [])). vm_compute. reflexivity.
Defined.
