(* ===== verification/Shell.v ===== *)
(** * user/sh.c: the shell

    The parser, the NUL termination of the words, the runner and the command loop.  A
    position in the line is the rest of the line from there; a word is the pair of its first
    offset and the offset after its last character ([q], [eq]), relative to the
    start of the command.  A parse ends with a command, a panic, or [Unfinished] when the
    fuel runs out, which [parse_total] excludes.  The tree is a value: [malloc] is taken to
    succeed. *)

From S2P Require Import Prelude CString Printf User.

Local Open Scope Z_scope.

(** A parsed command over its strings; [mode] and [fd] as they are passed to [open], [close]. *)
Inductive cmd (T : Type) : Type :=
  | EXEC (argv : list T)
  | REDIR (c : cmd T) (file : T) (mode fd : Z)
  | PIPE (left right : cmd T)
  | LIST (left right : cmd T)
  | BACK (c : cmd T).
Arguments EXEC {T} argv.
Arguments REDIR {T} c file mode fd.
Arguments PIPE {T} left right.
Arguments LIST {T} left right.
Arguments BACK {T} c.

Definition MAXARGS : nat := 10.
Definition O_RDONLY : Z := 0.
Definition O_RDWR : Z := 2.
(** [O_WRONLY|O_CREATE|O_TRUNC] and [O_WRONLY|O_CREATE]. *)
Definition O_REPLACE : Z := 0x601.
Definition O_APPEND : Z := 0x201.

Definition token : Type := nat * nat.

Inductive presult (A : Type) : Type := Parsed (a : A) | Panicked (msg : list Z) | Unfinished.
Arguments Parsed {A} a.
Arguments Panicked {A} msg.
Arguments Unfinished {A}.

#[export] Instance presult_ret : MRet presult := @Parsed.
#[export] Instance presult_bind : MBind presult := λ A B f r,
  match r with Parsed a => f a | Panicked m => Panicked m | Unfinished => Unfinished end.

(** ** Tokens *)

Definition whitespace : list Z := [32; 9; 13; 10; 11].
Definition symbols : list Z := bytes "<|>&;()".

Definition one_of (toks : list Z) (c : Z) : bool := match strchr toks c with Some _ => true | None => false end.
Definition is_word (c : Z) : bool := negb (one_of whitespace c) && negb (one_of symbols c).

Fixpoint skip_while (f : Z → bool) (s : list Z) : list Z :=
  match s with
  | c :: s' => if f c then skip_while f s' else s
  | [] => []
  end.

(** The token, its start and its end, the rest of the line. *)
Definition gettoken (es : nat) (s : list Z) : Z * token * list Z :=
  let s := skip_while (one_of whitespace) s in
  let q := (es - length s)%nat in
  let '(ret, s) :=
    match s with
    | [] => (0, [])
    | c :: t =>
        if c =? 0 then (0, s)
        else if one_of (bytes "|();&<") c then (c, t)
        else if c =? 62 then match t with d :: t' => if d =? 62 then (43, t') else (c, t) | [] => (c, t) end
        else (97, skip_while is_word s)
    end in
  (ret, (q, (es - length s)%nat), skip_while (one_of whitespace) s).

Definition peek (s toks : list Z) : bool * list Z :=
  let s := skip_while (one_of whitespace) s in
  (match s with c :: _ => negb (c =? 0) && one_of toks c | [] => false end, s).

(** ** The parser *)

(** [cmd->argv[argc] = q]: [cmd] is the command under the redirections. *)
Fixpoint push_arg (c : cmd token) (a : token) : cmd token :=
  match c with
  | EXEC argv => EXEC (argv ++ [a])
  | REDIR c f m d => REDIR (push_arg c a) f m d
  | _ => c
  end.

Fixpoint redir_loop (n : nat) (c : cmd token) (es : nat) (s : list Z) : presult (cmd token * list Z) :=
  match n with
  | O => Unfinished
  | S n' =>
      let '(b, s) := peek s (bytes "<>") in
      if b then
        let '(tok, _, s) := gettoken es s in
        let '(t, q, s) := gettoken es s in
        if negb (t =? 97) then Panicked (bytes "missing file for redirection")
        else
          let c :=
            if tok =? 60 then REDIR c q O_RDONLY 0
            else if tok =? 62 then REDIR c q O_REPLACE 1
            else if tok =? 43 then REDIR c q O_APPEND 1
            else c in
          redir_loop n' c es s
      else Parsed (c, s)
  end.
Definition parseredirs (c : cmd token) (es : nat) (s : list Z) : presult (cmd token * list Z) :=
  redir_loop (S (length s)) c es s.

Fixpoint args_loop (n : nat) (ret : cmd token) (argc : nat) (es : nat) (s : list Z) : presult (cmd token * list Z) :=
  match n with
  | O => Unfinished
  | S n' =>
      let '(b, s) := peek s (bytes "|)&;") in
      if b then Parsed (ret, s)
      else
        let '(tok, q, s) := gettoken es s in
        if tok =? 0 then Parsed (ret, s)
        else if negb (tok =? 97) then Panicked (bytes "syntax")
        else
          let ret := push_arg ret q in
          let argc := S argc in
          if (MAXARGS <=? argc)%nat then Panicked (bytes "too many args")
          else '(ret, s) ← parseredirs ret es s; args_loop n' ret argc es s
  end.

Fixpoint back_loop (n : nat) (c : cmd token) (es : nat) (s : list Z) : presult (cmd token * list Z) :=
  match n with
  | O => Unfinished
  | S n' =>
      let '(b, s) := peek s (bytes "&") in
      if b then let '(_, _, s) := gettoken es s in back_loop n' (BACK c) es s
      else Parsed (c, s)
  end.

(** [line] is [parseline] for the command in the parentheses. *)
Definition parseblock (line : nat → list Z → presult (cmd token * list Z)) (es : nat) (s : list Z) : presult (cmd token * list Z) :=
  let '(b, s) := peek s (bytes "(") in
  if negb b then Panicked (bytes "parseblock")
  else
    let '(_, _, s) := gettoken es s in
    '(c, s) ← line es s;
    let '(b, s) := peek s (bytes ")") in
    if negb b then Panicked (bytes "syntax - missing )")
    else let '(_, _, s) := gettoken es s in parseredirs c es s.

Definition parseexec (line : nat → list Z → presult (cmd token * list Z)) (es : nat) (s : list Z) : presult (cmd token * list Z) :=
  let '(b, s) := peek s (bytes "(") in
  if b then parseblock line es s
  else '(ret, s) ← parseredirs (EXEC []) es s; args_loop MAXARGS ret 0 es s.

Fixpoint parsepipe (line : nat → list Z → presult (cmd token * list Z)) (n es : nat) (s : list Z) : presult (cmd token * list Z) :=
  match n with
  | O => Unfinished
  | S n' =>
      '(c, s) ← parseexec line es s;
      let '(b, s) := peek s (bytes "|") in
      if b then
        let '(_, _, s) := gettoken es s in
        '(r, s) ← parsepipe line n' es s; Parsed (PIPE c r, s)
      else Parsed (c, s)
  end.

Fixpoint parseline (n es : nat) (s : list Z) {struct n} : presult (cmd token * list Z) :=
  match n with
  | O => Unfinished
  | S n' =>
      '(c, s) ← parsepipe (parseline n') n' es s;
      '(c, s) ← back_loop (S (length s)) c es s;
      let '(b, s) := peek s (bytes ";") in
      if b then
        let '(_, _, s) := gettoken es s in
        '(r, s) ← parseline n' es s; Parsed (LIST c r, s)
      else Parsed (c, s)
  end.

(** Fuel for a line of [len] characters. *)
Definition parse_fuel (len : nat) : nat := len + 2.

(** [*ecmd->eargv[i] = 0] and [*rcmd->efile = 0] on the buffer. *)
Definition nul_at (buf : list Z) (t : token) : list Z := <[t.2 := 0]> buf.
Fixpoint nulterminate (c : cmd token) (buf : list Z) : list Z :=
  match c with
  | EXEC argv => fold_left nul_at argv buf
  | REDIR c f _ _ => nul_at (nulterminate c buf) f
  | PIPE l r => nulterminate r (nulterminate l buf)
  | LIST l r => nulterminate r (nulterminate l buf)
  | BACK c => nulterminate c buf
  end.

Definition panic {A} (s : list Z) : prog A := _ ← fprintf 2 (bytes "%s
") [VStr (Some s)]; exit 1.

(** The command and the buffer its pointers point to. *)
Definition parsecmd (s : list Z) : prog (cmd token * list Z) :=
  let es := length s in
  match parseline (parse_fuel es) es s with
  | Parsed (c, s1) =>
      let '(_, s1) := peek s1 [] in
      match s1 with
      | [] => mret (c, nulterminate c (s ++ [0]))
      | _ => _ ← fprintf 2 (bytes "leftovers: %s
") [VStr (Some s1)]; panic (bytes "syntax")
      end
  | Panicked m => panic m
  | Unfinished => More
  end.

(** The C strings a parsed command points to. *)
Fixpoint cmap {S T} (f : S → T) (c : cmd S) : cmd T :=
  match c with
  | EXEC argv => EXEC (map f argv)
  | REDIR c t m d => REDIR (cmap f c) (f t) m d
  | PIPE l r => PIPE (cmap f l) (cmap f r)
  | LIST l r => LIST (cmap f l) (cmap f r)
  | BACK c => BACK (cmap f c)
  end.
Definition strings (buf : list Z) : cmd token → cmd (list Z) := cmap (λ t, cstring (drop t.1 buf)).

(** ** The runner *)

Definition fork1 : prog Z := pid ← callv U_fork; if pid =? -1 then panic (bytes "fork") else mret pid.

(** The two descriptors [pipe] stores. *)
Definition pipe_fds (r : reply) : Z * Z := (s32 (le_decode (take 4 (rbytes r))), s32 (le_decode (take 4 (drop 4 (rbytes r))))).

Fixpoint runcmd (c : cmd (list Z)) : prog () :=
  match c with
  | EXEC [] => exit 1
  | EXEC ((a :: _) as argv) =>
      _ ← call (U_exec a argv);
      _ ← fprintf 2 (bytes "exec %s failed
") [VStr (Some a)];
      exit 0
  | REDIR c file mode fd =>
      _ ← call (U_close fd);
      r ← callv (U_open file mode);
      if r <? 0 then
        _ ← fprintf 2 (bytes "open %s failed
") [VStr (Some file)];
        exit 1
      else runcmd c
  | LIST lc rc =>
      pid ← fork1;
      if pid =? 0 then runcmd lc
      else _ ← call U_wait; runcmd rc
  | PIPE lc rc =>
      r ← call U_pipe;
      if rv r <? 0 then panic (bytes "pipe")
      else
        let '(p0, p1) := pipe_fds r in
        pid ← fork1;
        if pid =? 0 then
          _ ← call (U_close 1); _ ← call (U_dup p1); _ ← call (U_close p0); _ ← call (U_close p1); runcmd lc
        else
          pid ← fork1;
          if pid =? 0 then
            _ ← call (U_close 0); _ ← call (U_dup p0); _ ← call (U_close p0); _ ← call (U_close p1); runcmd rc
          else
            _ ← call (U_close p0); _ ← call (U_close p1); _ ← call U_wait; _ ← call U_wait; exit 0
  | BACK c =>
      pid ← fork1;
      if pid =? 0 then runcmd c else exit 0
  end.

(** [buf] after [gets], if it is not empty. *)
Definition getcmd (nbuf : Z) : prog (option (list Z)) :=
  _ ← call (U_write 2 (bytes "$ "));
  l ← gets nbuf;
  mret (match cstring l with [] => None | s => Some s end).

Fixpoint console_loop (n : nat) : prog () :=
  match n with
  | O => More
  | S n' =>
      fd ← callv (U_open (bytes "console") O_RDWR);
      if 0 <=? fd then
        if 3 <=? fd then _ ← call (U_close fd); mret () else console_loop n'
      else mret ()
  end.

Definition CMDBUF : Z := 100.

Fixpoint command_loop (n : nat) : prog () :=
  match n with
  | O => More
  | S n' =>
      l ← getcmd CMDBUF;
      match l with
      | None => exit 0
      | Some buf =>
          let cmd := skip_while (λ c, (c =? 32) || (c =? 9)) buf in
          if nth 0 cmd 0 =? 10 then command_loop n'
          else if (nth 0 cmd 0 =? 99) && (nth 1 cmd 0 =? 100) && (nth 2 cmd 0 =? 32) then
            let cmd := removelast cmd in
            r ← callv (U_chdir (drop 3 cmd));
            _ ← (if r <? 0 then fprintf 2 (bytes "cannot cd %s
") [VStr (Some (drop 3 cmd))] else mret ());
            command_loop n'
          else
            pid ← fork1;
            if pid =? 0 then '(c, b) ← parsecmd cmd; runcmd (strings b c)
            else _ ← call U_wait; command_loop n'
      end
  end.

Definition main (n : nat) : prog () := _ ← console_loop n; command_loop n.


(** ** Tokens of a line *)

Notation blank := (one_of whitespace).
Notation skip := (skip_while blank).

(** Every string of a command. *)
Fixpoint words {T} (c : cmd T) : list T :=
  match c with
  | EXEC argv => argv
  | REDIR c f _ _ => words c ++ [f]
  | PIPE l r => words l ++ words r
  | LIST l r => words l ++ words r
  | BACK c => words c
  end.

(** A maximal word [w] of [buf], from [t.1] to [t.2]. *)
Inductive word_at (buf : list Z) : token → list Z → Prop :=
  | word_at_intro pre w post : buf = pre ++ w ++ post → w ≠ [] → Forall (λ c, is_word c = true) w →
      (∀ c, head post = Some c → is_word c = false) → word_at buf (length pre, (length pre + length w)%nat) w.

Lemma one_of_spec toks c : one_of toks c = true ↔ c ∈ toks.
Proof.
  unfold one_of. induction toks as [|x toks IH]; cbn [strchr]; [split; [done|by intros ?%not_elem_of_nil]|].
  rewrite elem_of_cons. destruct (Z.eqb_spec x c); [intuition congruence|]. rewrite IH. intuition congruence.
Qed.

Lemma one_of_false toks c : one_of toks c = false ↔ c ∉ toks.
Proof. rewrite <- not_true_iff_false, one_of_spec. done. Qed.

Lemma is_word_spec c : is_word c = true ↔ c ∉ whitespace ∧ c ∉ symbols.
Proof. unfold is_word. by rewrite andb_true_iff, !negb_true_iff, !one_of_false. Qed.

Lemma skip_suffix f s : ∃ p, s = p ++ skip_while f s ∧ Forall (λ c, f c = true) p ∧ ∀ c, head (skip_while f s) = Some c → f c = false.
Proof.
  induction s as [|c s (p & Hs & Hp & Hh)]; cbn [skip_while]; [by exists []|]. destruct (f c) eqn:Hc.
  - exists (c :: p). split_and!; [by rewrite Hs at 1|by constructor|done].
  - exists []. split_and!; [done|done|]. by intros ? [= <-].
Qed.

Lemma skip_suffix_of f s : skip_while f s `suffix_of` s.
Proof. destruct (skip_suffix f s) as (p & Hs & _). by exists p. Qed.

Lemma skip_id f s : (∀ c, head s = Some c → f c = false) → skip_while f s = s.
Proof. destruct s as [|c s]; [done|]. intros H. cbn [skip_while]. by rewrite (H c eq_refl). Qed.

Lemma skip_idem f s : skip_while f (skip_while f s) = skip_while f s.
Proof. apply skip_id. by destruct (skip_suffix f s) as (_ & _ & _ & H). Qed.

(** A character that starts no other token starts a word. *)
Lemma word_start c : one_of (bytes "|();&<") c = false → c ≠ 62 → blank c = false → is_word c = true.
Proof.
  rewrite !one_of_false. intros H1 H2 H3. apply is_word_spec. split; [done|]. intros Hc. apply H1.
  change (bytes _) with [124; 40; 41; 59; 38; 60]. change symbols with [60; 124; 62; 38; 59; 40; 41] in Hc.
  rewrite !elem_of_cons in *. intuition.
Qed.

Lemma one_of_not toks c d : one_of toks c = true → one_of toks d = false → c ≠ d.
Proof. intros H1 H2 ->. congruence. Qed.

Lemma suffix_length_lt {A} (s t : list A) : s `suffix_of` t → s ≠ t → (length s < length t)%nat.
Proof. intros [k ->] Hne. destruct k; [done|]. cbn. rewrite length_app. lia. Qed.

Lemma word_at_pos buf pre w post q e : buf = pre ++ w ++ post → w ≠ [] → Forall (λ c, is_word c = true) w →
  (∀ c, head post = Some c → is_word c = false) → q = length pre → e = (length pre + length w)%nat → word_at buf (q, e) w.
Proof. intros ? ? ? ? -> ->. by eapply word_at_intro. Qed.

(** What [gettoken] returns: the rest is a suffix, a proper one unless the line has ended, and an ['a'] is a word. *)
Lemma gettoken_spec buf s ret t s' : s `suffix_of` buf → gettoken (length buf) s = (ret, t, s') →
  s' `suffix_of` s ∧ (ret ≠ 0 → (length s' < length s)%nat) ∧ (ret = 97 → ∃ w, word_at buf t w).
Proof.
  intros Hs. unfold gettoken. destruct (skip_suffix blank s) as (p & Hp & _ & Hh). set (u := skip s) in *.
  assert (Hu : u `suffix_of` s) by (by exists p). destruct u as [|c v] eqn:Eu.
  { intros [= <- <- <-]. split_and!; [done|done|done]. }
  specialize (Hh c eq_refl). assert (Hv : v `suffix_of` s) by (etrans; [|exact Hu]; by exists [c]).
  assert (Hlen : (length v < length s)%nat) by (apply suffix_length in Hu; cbn in Hu; lia).
  assert (Hshort : ∀ v', v' `suffix_of` v → skip v' `suffix_of` s ∧ (length (skip v') < length s)%nat).
  { intros v' Hv'. pose proof (skip_suffix_of blank v') as Hk. split; [etrans; [exact Hk|]; by etrans|].
    apply suffix_length in Hk, Hv'. lia. }
  destruct (Z.eqb_spec c 0) as [->|Hc0].
  { intros [= <- <- <-]. split_and!; [exact Hu|done|done]. }
  destruct (one_of (bytes "|();&<") c) eqn:Hc1.
  { intros [= <- <- <-]. destruct (Hshort v) as [? ?]; [done|]. split_and!; [done|done|].
    intros ->. by vm_compute in Hc1. }
  destruct (Z.eqb_spec c 62) as [->|Hc2].
  { assert (Hd : ∀ d v', v = d :: v' → v' `suffix_of` v) by (intros d v' ->; by exists [d]).
    assert (Hfin : ∀ v', v' `suffix_of` v → ∀ r, (r = 62 ∨ r = 43) → skip v' `suffix_of` s ∧ (r ≠ 0 → (length (skip v') < length s)%nat) ∧
      (r = 97 → ∃ w, word_at buf t w)).
    { intros v' Hv' r Hr. destruct (Hshort v' Hv') as [? ?]. split; [done|]. split; [done|]. intros ->. by destruct Hr. }
    destruct v as [|d v']; [intros [= <- <- <-]; apply (Hfin []); [done|by left]|]. specialize (Hd d v' eq_refl).
    destruct (Z.eqb_spec d 62); intros [= <- <- <-]; [apply (Hfin v'); [done|by right]|apply (Hfin (d :: v')); [done|by left]]. }
  pose proof (word_start c Hc1 Hc2 Hh) as Hw.
  assert (Hk : skip_while is_word (c :: v) = skip_while is_word v) by (cbn [skip_while]; by rewrite Hw).
  destruct (Hshort (skip_while is_word v)) as [H1 H2]; [apply skip_suffix_of|].
  rewrite Hk. intros [= <- <- <-]. split_and!; [done|done|]. intros _.
  destruct (skip_suffix is_word (c :: v)) as (w & Hw1 & Hw2 & Hw3). rewrite Hk in Hw1, Hw3.
  destruct Hs as [k ->]. exists w.
  assert (Hbuf : k ++ s = (k ++ p) ++ w ++ skip_while is_word v) by (rewrite Hp, Hw1 at 1; by rewrite <- app_assoc).
  assert (Hl : length s = (length p + (length w + length (skip_while is_word v)))%nat) by (rewrite Hp, Hw1 at 1; rewrite !length_app; done).
  apply (f_equal length) in Hw1 as Hl2. rewrite length_app in Hl2.
  eapply word_at_pos; [exact Hbuf| |done|done| |].
  - intros ->. cbn in Hw1. apply (f_equal length) in Hw1. cbn in Hw1.
    pose proof (suffix_length _ _ (skip_suffix_of is_word v)). lia.
  - rewrite !length_app in *. cbn [length] in *. lia.
  - rewrite !length_app in *. cbn [length] in *. lia.
Qed.

Lemma peek_spec s toks b s' : peek s toks = (b, s') → s' = skip s ∧ (b = true → ∃ c t, s' = c :: t ∧ c ≠ 0 ∧ c ∈ toks).
Proof.
  unfold peek. destruct (skip s) as [|c t] eqn:E; intros [= <- <-]; split; [done|done|done|].
  intros [H1 H2]%andb_prop. exists c, t. apply negb_true_iff, Z.eqb_neq in H1. by apply one_of_spec in H2.
Qed.

(** ** The parser ends, and every string is a word *)

Section parse.
Context (buf : list Z).
Notation es := (length buf).

Definition is_token (t : token) : Prop := ∃ w, word_at buf t w.

(** The parse of [s] has ended; if it has not panicked, the rest is a suffix and the strings are words. *)
Definition ok_result (s : list Z) (r : presult (cmd token * list Z)) : Prop :=
  match r with
  | Parsed (c, s') => s' `suffix_of` s ∧ Forall is_token (words c)
  | Panicked _ => True
  | Unfinished => False
  end.

Lemma ok_weaken s s' r : ok_result s' r → s' `suffix_of` s → ok_result s r.
Proof. destruct r as [[c t]| |]; [|done|done]. intros [H1 H2] H. split; [by etrans|done]. Qed.

Lemma ok_bind s r f : ok_result s r →
  (∀ c s', s' `suffix_of` s → Forall is_token (words c) → ok_result s (f (c, s'))) → ok_result s (r ≫= f).
Proof. destruct r as [[c t]| |]; [|done|done]. intros [H1 H2] H. by apply H. Qed.

Lemma peek_suffix s toks b s' : peek s toks = (b, s') → s' `suffix_of` s.
Proof. intros [-> _]%peek_spec. apply skip_suffix_of. Qed.

(** The token after a successful [peek] is not the end. *)
Lemma peek_token s toks s1 ret t s2 : s `suffix_of` buf → peek s toks = (true, s1) → gettoken es s1 = (ret, t, s2) →
  s2 `suffix_of` s ∧ (length s2 < length s)%nat.
Proof.
  intros Hs Hp Hg. pose proof (peek_suffix _ _ _ _ Hp) as H1. apply peek_spec in Hp as [Es Hb].
  assert (Hs1 : s1 `suffix_of` buf) by (by etrans). destruct (gettoken_spec _ _ _ _ _ Hs1 Hg) as (H2 & H3 & _).
  destruct (Hb eq_refl) as (c & u & Hcu & Hc & _). assert (Hr : ret ≠ 0).
  { unfold gettoken in Hg. rewrite Es, skip_idem, <- Es, Hcu in Hg. rewrite (proj2 (Z.eqb_neq c 0)) in Hg by done.
    repeat case_match; simplify_eq; try done; lia. }
  specialize (H3 Hr). split; [by etrans|]. apply suffix_length in H1. lia.
Qed.

Lemma token_push c a : is_token a → Forall is_token (words c) → Forall is_token (words (push_arg c a)).
Proof.
  intros Ha. induction c as [argv|c IH f m d|l _ r _|l _ r _|c _]; cbn [push_arg words]; rewrite ?Forall_app; try done; [auto|intros [? ?]; auto].
Qed.

Lemma redir_ok n : ∀ c s, (length s < n)%nat → s `suffix_of` buf → Forall is_token (words c) → ok_result s (redir_loop n c es s).
Proof.
  induction n as [|n IH]; intros c s Hn Hs Hc; [lia|]. cbn [redir_loop].
  destruct (peek s (bytes "<>")) as [[] s1] eqn:Hp; [|split; [by eapply peek_suffix|done]].
  destruct (gettoken es s1) as [[tok x] s2] eqn:Hg. destruct (peek_token _ _ _ _ _ _ Hs Hp Hg) as [H2 Hl].
  destruct (gettoken es s2) as [[t q] s3] eqn:Hg'. destruct (gettoken_spec buf s2 t q s3) as (H3 & _ & Hw); [by etrans|done|].
  destruct (Z.eqb_spec t 97) as [->|]; [|done]. cbn [negb]. eapply ok_weaken; [apply IH|by etrans].
  - apply suffix_length in H3. lia.
  - etrans; [exact H3|by etrans].
  - repeat case_match; try done; cbn [words]; apply Forall_app; (split; [done|]); constructor; [apply Hw|constructor|apply Hw|constructor|apply Hw|constructor]; done.
Qed.

Lemma parseredirs_ok c s : s `suffix_of` buf → Forall is_token (words c) → ok_result s (parseredirs c es s).
Proof. intros. apply redir_ok; [lia|done|done]. Qed.

Lemma args_ok n : ∀ c argc s, (MAXARGS ≤ argc + n)%nat → (argc < MAXARGS)%nat → s `suffix_of` buf → Forall is_token (words c) →
  ok_result s (args_loop n c argc es s).
Proof.
  induction n as [|n IH]; intros c argc s Hn Ha Hs Hc; [lia|]. cbn [args_loop].
  destruct (peek s (bytes "|)&;")) as [[] s1] eqn:Hp; pose proof (peek_suffix _ _ _ _ Hp) as H1; [by split|].
  destruct (gettoken es s1) as [[tok q] s2] eqn:Hg. destruct (gettoken_spec buf s1 tok q s2) as (H2 & _ & Hw); [by etrans|done|].
  destruct (Z.eqb_spec tok 0); [split; [by etrans|done]|]. destruct (Z.eqb_spec tok 97) as [->|]; [|done]. cbn [negb].
  assert (H2' : s2 `suffix_of` s) by (by etrans). assert (H2b : s2 `suffix_of` buf) by (by etrans).
  destruct (Nat.leb_spec MAXARGS (S argc)); [done|]. eapply ok_weaken; [|exact H2'].
  apply ok_bind; [apply parseredirs_ok; [done|apply token_push; [by apply Hw|done]]|].
  intros c' s' Hs' Hc'. eapply ok_weaken; [apply IH; [lia|lia|by etrans|done]|done].
Qed.

Lemma back_ok n : ∀ c s, (length s < n)%nat → s `suffix_of` buf → Forall is_token (words c) → ok_result s (back_loop n c es s).
Proof.
  induction n as [|n IH]; intros c s Hn Hs Hc; [lia|]. cbn [back_loop].
  destruct (peek s (bytes "&")) as [[] s1] eqn:Hp; [|split; [by eapply peek_suffix|done]].
  destruct (gettoken es s1) as [[tok x] s2] eqn:Hg. destruct (peek_token _ _ _ _ _ _ Hs Hp Hg) as [H2 Hl].
  eapply ok_weaken; [apply IH; [lia|by etrans|done]|done].
Qed.

(** One [peek] and [gettoken], then the rest of the parse. *)
Lemma token_then s toks s1 ret t s2 r : s `suffix_of` buf → peek s toks = (true, s1) → gettoken es s1 = (ret, t, s2) →
  (s2 `suffix_of` buf → (length s2 < length s)%nat → ok_result s2 r) → ok_result s r.
Proof.
  intros Hs Hp Hg Hr. destruct (peek_token _ _ _ _ _ _ Hs Hp Hg) as [H2 Hl]. eapply ok_weaken; [|exact H2]. apply Hr; [by etrans|done].
Qed.

(** [line] ends on texts shorter than [len]. *)
Definition line_ok (len : nat) (line : nat → list Z → presult (cmd token * list Z)) : Prop :=
  ∀ s, s `suffix_of` buf → (length s < len)%nat → ok_result s (line es s).

Lemma block_ok line s : s `suffix_of` buf → line_ok (length s) line → ok_result s (parseblock line es s).
Proof.
  intros Hs Hline. unfold parseblock. destruct (peek s (bytes "(")) as [[] s1] eqn:Hp; [|done]. cbn [negb].
  destruct (gettoken es s1) as [[tok x] s2] eqn:Hg. eapply token_then; [done|exact Hp|exact Hg|]. intros Hb2 Hl.
  apply ok_bind; [by apply Hline|]. intros c s3 H3 Hc. assert (Hb3 : s3 `suffix_of` buf) by (by etrans).
  eapply ok_weaken; [|exact H3].
  destruct (peek s3 (bytes ")")) as [[] s4] eqn:Hp4; [|done]. cbn [negb].
  destruct (gettoken es s4) as [[tok' x'] s5] eqn:Hg5. eapply token_then; [done|exact Hp4|exact Hg5|]. intros Hb5 _. by apply parseredirs_ok.
Qed.

Lemma exec_ok line s : s `suffix_of` buf → line_ok (length s) line → ok_result s (parseexec line es s).
Proof.
  intros Hs Hline. unfold parseexec. destruct (peek s (bytes "(")) as [[] s1] eqn:Hp; pose proof (peek_suffix _ _ _ _ Hp) as H1;
    (eapply ok_weaken; [|exact H1]); assert (Hb1 : s1 `suffix_of` buf) by (by etrans).
  - apply block_ok; [done|]. intros t Ht Hlt. apply Hline; [done|]. apply suffix_length in H1. lia.
  - apply ok_bind; [by apply parseredirs_ok|]. intros c s2 H2 Hc. eapply ok_weaken; [|exact H2].
    apply args_ok; [lia|unfold MAXARGS; lia|by etrans|done].
Qed.

Lemma pipe_ok line n : ∀ s, s `suffix_of` buf → line_ok (length s) line → (length s < n)%nat → ok_result s (parsepipe line n es s).
Proof.
  induction n as [|n IH]; intros s Hs Hline Hn; [lia|]. cbn [parsepipe].
  apply ok_bind; [by apply exec_ok|]. intros c2 s2 H2 Hc2. assert (Hb2 : s2 `suffix_of` buf) by (by etrans).
  eapply ok_weaken; [|exact H2]. destruct (peek s2 (bytes "|")) as [[] s3] eqn:Hp; [|split; [by eapply peek_suffix|done]].
  destruct (gettoken es s3) as [[tok x] s4] eqn:Hg. eapply token_then; [done|exact Hp|exact Hg|]. intros Hb4 Hl. apply suffix_length in H2.
  apply ok_bind; [apply IH; [done| |lia]|].
  - intros t Ht Hlt. apply Hline; [done|lia].
  - intros r s5 H5 Hr. split; [done|]. by apply Forall_app.
Qed.

Lemma parse_ok n : ∀ s, s `suffix_of` buf → (length s + 2 ≤ n)%nat → ok_result s (parseline n es s).
Proof.
  induction n as [|n IH]; intros s Hs Hn; [lia|]. cbn [parseline].
  apply ok_bind; [apply pipe_ok; [done| |lia]; intros t Ht Hlt; apply IH; [done|lia]|].
  intros c s1 H1 Hc. assert (Hb1 : s1 `suffix_of` buf) by (by etrans).
  eapply ok_weaken; [|exact H1]. apply ok_bind; [apply back_ok; [lia|done|done]|].
  intros c2 s2 H2 Hc2. assert (Hb2 : s2 `suffix_of` buf) by (by etrans). eapply ok_weaken; [|exact H2].
  destruct (peek s2 (bytes ";")) as [[] s3] eqn:Hp; [|split; [by eapply peek_suffix|done]].
  destruct (gettoken es s3) as [[tok x] s4] eqn:Hg. eapply token_then; [done|exact Hp|exact Hg|]. intros Hb4 Hl.
  apply ok_bind; [apply IH; [done|apply suffix_length in H1, H2; lia]|]. intros r s5 H5 Hr. split; [done|]. by apply Forall_app.
Qed.
End parse.

(** More fuel changes nothing once the parse has ended. *)
Definition settles {A} (r r' : presult A) : Prop := r ≠ Unfinished → r' = r.

Lemma settles_refl {A} (r : presult A) : settles r r.
Proof. done. Qed.

Lemma settles_bind {A B} (r r' : presult A) (f f' : A → presult B) :
  settles r r' → (∀ a, settles (f a) (f' a)) → settles (r ≫= f) (r' ≫= f').
Proof.
  intros Hr Hf H. rewrite Hr by (by intros ->). destruct r as [a| |]; [|done|done]. by apply Hf.
Qed.

Ltac settle :=
  repeat match goal with
  | |- settles ?r ?r => apply settles_refl
  | |- settles (mbind _ _) (mbind _ _) => apply settles_bind; [auto|intros [? ?]]
  | |- settles (if ?b then _ else _) _ => destruct b
  | |- settles (match ?p with (_, _) => _ end) _ => destruct p
  | |- settles _ _ => solve [auto]
  end.

Lemma exec_mono line line' es s : (∀ s, settles (line es s) (line' es s)) → settles (parseexec line es s) (parseexec line' es s).
Proof. intros H. unfold parseexec, parseblock. settle. Qed.

Lemma pipe_mono line line' es n : ∀ m s, (n ≤ m)%nat → (∀ s, settles (line es s) (line' es s)) →
  settles (parsepipe line n es s) (parsepipe line' m es s).
Proof.
  induction n as [|n IH]; intros m s Hm Hline; [intros H; by destruct H|]. destruct m as [|m]; [lia|].
  assert (He : ∀ s, settles (parseexec line es s) (parseexec line' es s)) by (intros; by apply exec_mono).
  assert (Hp : ∀ s, settles (parsepipe line n es s) (parsepipe line' m es s)) by (intros; apply IH; [lia|done]).
  cbn [parsepipe]. settle.
Qed.

Lemma parse_mono n es : ∀ m s, (n ≤ m)%nat → settles (parseline n es s) (parseline m es s).
Proof.
  induction n as [|n IH]; intros m s Hm; [intros H; by destruct H|]. destruct m as [|m]; [lia|].
  assert (Hl : ∀ s, settles (parseline n es s) (parseline m es s)) by (intros; apply IH; lia).
  assert (Hp : ∀ s, settles (parsepipe (parseline n) n es s) (parsepipe (parseline m) m es s)) by (intros; apply pipe_mono; [lia|done]).
  cbn [parseline]. settle.
Qed.

(** The parser ends on every line, whatever it holds: there is one result, a command or
    a panic, which every fuel from the length plus 2 gives; the loops over
    redirections and over [&] end within the rest of the line, and the argument loop within
    [MAXARGS] rounds. *)
Theorem parse_total s : ∃ r, r ≠ Unfinished ∧ ∀ n, (parse_fuel (length s) ≤ n)%nat → parseline n (length s) s = r.
Proof.
  pose proof (parse_ok s (parse_fuel (length s)) s ltac:(done) (Nat.le_refl _)) as H.
  exists (parseline (parse_fuel (length s)) (length s) s). assert (Hr : parseline (parse_fuel (length s)) (length s) s ≠ Unfinished).
  { intros E. by rewrite E in H. }
  split; [done|]. intros n Hn. by apply (parse_mono (parse_fuel (length s)) (length s) n s Hn).
Qed.

(** A line of opening parentheses as long as the buffer: a panic, not a loop. *)
Lemma parse_total_witness : ∃ r, r ≠ Unfinished ∧ ∀ n, (parse_fuel 99 ≤ n)%nat → parseline n 99 (repeat 40 99) = r.
Proof. exact (parse_total (repeat 40 99)). Defined.

(** ** NUL termination *)

Lemma nulterminate_words c : ∀ buf, nulterminate c buf = fold_left nul_at (words c) buf.
Proof.
  induction c as [argv|c IH f m d|l IHl r IHr|l IHl r IHr|c IH]; intros buf; cbn [nulterminate words]; rewrite ?fold_left_app; [done| | | |].
  - by rewrite IH.
  - by rewrite IHl, IHr.
  - by rewrite IHl, IHr.
  - by rewrite IH.
Qed.

Lemma nul_lookup_other ts : ∀ buf i, (∀ t, t ∈ ts → t.2 ≠ i) → fold_left nul_at ts buf !! i = buf !! i.
Proof.
  induction ts as [|t ts IH]; intros buf i Hi; [done|]. cbn [fold_left]. rewrite IH by (intros; apply Hi; by right).
  apply list_lookup_insert_ne, Hi. by left.
Qed.

Lemma nul_length ts : ∀ buf, length (fold_left nul_at ts buf) = length buf.
Proof. induction ts as [|t ts IH]; intros buf; [done|]. cbn [fold_left]. rewrite IH. apply length_insert. Qed.

Lemma nul_lookup_end ts : ∀ buf t, t ∈ ts → (t.2 < length buf)%nat → fold_left nul_at ts buf !! t.2 = Some 0.
Proof.
  induction ts as [|t0 ts IH]; intros buf t Ht Hl; [by apply not_elem_of_nil in Ht|]. cbn [fold_left].
  destruct (decide (t.2 ∈ ts.*2)) as [(u & E & Hu)%list_elem_of_fmap|Hno].
  - rewrite E in Hl |- *. apply IH; [done|]. unfold nul_at. by rewrite length_insert.
  - rewrite nul_lookup_other by (intros u Hu He; apply Hno, list_elem_of_fmap; by exists u).
    apply elem_of_cons in Ht as [->|Ht]; [by apply list_lookup_insert_eq|]. destruct Hno. apply list_elem_of_fmap. by exists t.
Qed.

Lemma cstring_take l n : (∀ i c, (i < n)%nat → l !! i = Some c → c ≠ 0) → l !! n = Some 0 → cstring l = take n l.
Proof.
  revert n. induction l as [|c l IH]; intros [|n] Hc Hn; cbn [cstring take]; try done.
  - cbn in Hn. injection Hn as ->. done.
  - rewrite (proj2 (Z.eqb_neq c 0)) by (by apply (Hc 0%nat); [lia|]). f_equal. apply IH; [|done].
    intros i d Hi. apply (Hc (S i)). lia.
Qed.

(** Where a word ends there is no character of a word. *)
Lemma word_end buf t w : word_at buf t w → (t.2 ≤ length buf)%nat ∧ ∀ c, buf !! t.2 = Some c → is_word c = false.
Proof.
  destruct 1 as [pre w post -> _ _ Hh]. cbn [snd]. split; [rewrite !length_app; lia|]. intros c Hc.
  rewrite app_assoc, lookup_app_r in Hc by (rewrite length_app; lia). rewrite length_app, Nat.sub_diag in Hc.
  apply Hh. by destruct post.
Qed.

Lemma nul_string s ts t w : Forall (λ c, c ≠ 0) s → Forall (is_token s) ts → t ∈ ts → word_at s t w →
  cstring (drop t.1 (fold_left nul_at ts (s ++ [0]))) = w.
Proof.
  intros Hz Hts Ht Hw. pose proof (word_end _ _ _ Hw) as [He _]. destruct Hw as [pre w post Hs Hne Hww Hpost]. cbn [fst snd] in *.
  assert (Hin : ∀ i, (i < length w)%nat → drop (length pre) (fold_left nul_at ts (s ++ [0])) !! i = w !! i).
  { intros i Hi. rewrite lookup_drop, nul_lookup_other.
    - rewrite Hs, <- !app_assoc. rewrite lookup_app_r by lia. replace (length pre + i - length pre)%nat with i by lia.
      by rewrite lookup_app_l.
    - intros u Hu E. destruct (proj1 (Forall_forall _ _) Hts u Hu) as (w' & Hu'). apply word_end in Hu' as [_ Hu'].
      assert (Hx : s !! u.2 = w !! i) by (rewrite E, Hs, lookup_app_r, lookup_app_l by lia; f_equal; lia).
      destruct (lookup_lt_is_Some_2 w i Hi) as [c Hc]. rewrite Hc in Hx. specialize (Hu' c Hx).
      rewrite Forall_lookup in Hww. specialize (Hww i c Hc). cbn in Hww. congruence. }
  assert (Hend : drop (length pre) (fold_left nul_at ts (s ++ [0])) !! length w = Some 0).
  { rewrite lookup_drop. apply (nul_lookup_end _ _ (length pre, (length pre + length w)%nat)); [done|]. rewrite length_app. cbn. lia. }
  rewrite (cstring_take _ (length w)); [| |done].
  - apply list_eq. intros i. destruct (decide (i < length w)%nat) as [Hi|Hi].
    + rewrite lookup_take_lt by done. by apply Hin.
    + rewrite lookup_take_ge, lookup_ge_None_2 by lia. done.
  - intros i c Hi Hc. rewrite Hin in Hc by done. rewrite Hs in Hz. apply Forall_app in Hz as [_ Hz]. apply Forall_app in Hz as [Hz _].
    rewrite Forall_lookup in Hz. by apply (Hz i).
Qed.

Lemma panic_no_return {A} m (a : A) : panic m ≠ Return a.
Proof. unfold panic, fprintf. by destruct (vprintf _ _ _ _).1 as [|[fd b] w]. Qed.

Lemma fprintf_panic_no_return {A} fd fmt args m (a : A) : (_ ← fprintf fd fmt args; panic m) ≠ Return a.
Proof. unfold fprintf. destruct (vprintf _ _ _ _).1 as [|[fd' b] w]; [apply panic_no_return|done]. Qed.

Lemma parsecmd_inv s c b : parsecmd s = Return (c, b) →
  ∃ s1, parseline (parse_fuel (length s)) (length s) s = Parsed (c, s1) ∧ skip s1 = [] ∧ b = nulterminate c (s ++ [0]).
Proof.
  unfold parsecmd. destruct (parseline _ _ _) as [[c1 s1]|m|] eqn:E; [|by intros ?%panic_no_return|done].
  unfold peek. destruct (skip s1) as [|x u] eqn:Es; [|by intros ?%fprintf_panic_no_return].
  intros H. injection H as <- <-. by exists s1.
Qed.

(** The arguments and file names of a parsed command are words of the line: after
    [nulterminate] each pointer of the command points to a NUL-terminated string that is
    a maximal run of characters of the line without blanks and symbols. *)
Theorem strings_are_words s c b : Forall (λ c, c ≠ 0) s → parsecmd s = Return (c, b) →
  Forall (λ t, word_at s t (cstring (drop t.1 b))) (words c).
Proof.
  intros Hz H. destruct (parsecmd_inv s c b H) as (s1 & Hp & _ & ->).
  pose proof (parse_ok s (parse_fuel (length s)) s ltac:(done) (Nat.le_refl _)) as Hok. rewrite Hp in Hok.
  destruct Hok as [_ Hok]. apply Forall_forall. intros t Ht. destruct (proj1 (Forall_forall _ _) Hok t Ht) as (w & Hw).
  rewrite nulterminate_words. by rewrite (nul_string s (words c) t w).
Qed.

Lemma strings_are_words_witness :
  ∃ c b, parsecmd (bytes "ls>f;wc<f|x y") = Return (c, b) ∧ Forall (λ t, word_at (bytes "ls>f;wc<f|x y") t (cstring (drop t.1 b))) (words c).
Proof.
  eexists _, _. split; [vm_compute; reflexivity|]. apply strings_are_words; [apply (bool_decide_unpack _); by vm_compute|vm_compute; reflexivity].
Defined.

(** ** Printing a command *)

Definition redir : Type := list Z * Z * Z.

Definition redir_op (mode fd : Z) : list Z :=
  if fd =? 0 then bytes "<" else if mode =? O_REPLACE then bytes ">" else bytes ">>".
Definition print_redir (r : redir) : list Z := let '(f, m, d) := r in redir_op m d ++ f ++ [32].
Definition print_word (w : list Z) : list Z := w ++ [32].
Definition paren (b : bool) (s : list Z) : list Z := if b then 40 :: s ++ [41] else s.

(** The text of a command where the grammar expects a simple command (0), a pipeline (1), a
    pipeline with [&] (2), a list (3). *)
Fixpoint print (lvl : nat) (c : cmd (list Z)) : list Z :=
  match c with
  | EXEC argv => concat (map print_word argv)
  | REDIR c f m d => print 0 c ++ print_redir (f, m, d)
  | PIPE l r => paren (lvl <? 1)%nat (print 0 l ++ 124 :: print 1 r)
  | BACK c => paren (lvl <? 2)%nat (print 2 c ++ [38])
  | LIST l r => paren (lvl <? 3)%nat (print 2 l ++ 59 :: print 3 r)
  end.

(** A word is not empty and has no blanks, symbols and NULs. *)
Definition ok_word (w : list Z) : Prop := w ≠ [] ∧ Forall (λ c, c ≠ 0 ∧ is_word c = true) w.
(** The file of a redirection is a word; the mode and the descriptor are those of [<], [>], [>>]. *)
Definition ok_redir (r : redir) : Prop :=
  let '(f, m, d) := r in ok_word f ∧ (d = 0 ∧ m = O_RDONLY ∨ d = 1 ∧ m = O_REPLACE ∨ d = 1 ∧ m = O_APPEND).

Fixpoint ok_cmd (c : cmd (list Z)) : Prop :=
  match c with
  | EXEC argv => Forall ok_word argv ∧ (length argv < MAXARGS)%nat
  | REDIR c f m d => ok_cmd c ∧ ok_redir (f, m, d)
  | PIPE l r | LIST l r => ok_cmd l ∧ ok_cmd r
  | BACK c => ok_cmd c
  end.

Definition wrap (c : cmd (list Z)) (r : redir) : cmd (list Z) := let '(f, m, d) := r in REDIR c f m d.

(** The first character that is not a blank is none, or one of [stop]. *)
Definition follow (stop : list Z) (rest : list Z) : Prop := ∀ c, head (skip rest) = Some c → c ∈ stop.

Lemma blank_word c : is_word c = true → blank c = false.
Proof. rewrite is_word_spec, one_of_false. tauto. Qed.

Lemma skip_word_end w rest : Forall (λ c, is_word c = true) w → skip_while is_word (w ++ 32 :: rest) = 32 :: rest.
Proof. induction 1 as [|c w Hc Hw IH]; [done|]. cbn [app skip_while]. by rewrite Hc. Qed.

Lemma peek_skip s toks : peek (skip s) toks = peek s toks.
Proof. unfold peek. by rewrite skip_idem. Qed.

Lemma gettoken_skip es s : gettoken es (skip s) = gettoken es s.
Proof. unfold gettoken. by rewrite skip_idem. Qed.

Section roundtrip.
Context (buf : list Z).
Notation es := (length buf).

Definition text (t : token) : list Z := take (t.2 - t.1) (drop t.1 buf).

Lemma text_at w rest : (w ++ rest) `suffix_of` buf → text (es - length (w ++ rest), es - length rest)%nat = w.
Proof.
  intros [pre Hb]. unfold text. cbn [fst snd]. apply (f_equal length) in Hb as Hl. rewrite !length_app in Hl. rewrite !length_app.
  replace (es - length rest - (es - (length w + length rest)))%nat with (length w) by lia.
  replace (es - (length w + length rest))%nat with (length pre) by lia. rewrite Hb, drop_app_length. apply take_app_length.
Qed.

(** A word and the blank after it. *)
Lemma gettoken_word w rest : ok_word w → (w ++ 32 :: rest) `suffix_of` buf →
  ∃ t, gettoken es (w ++ 32 :: rest) = (97, t, skip rest) ∧ text t = w.
Proof.
  intros [Hne Hw] Hb. destruct w as [|c w]; [done|]. assert (Hw' : Forall (λ c, is_word c = true) (c :: w)).
  { eapply Forall_impl; [exact Hw|]. by intros ? [_ ?]. }
  apply Forall_cons in Hw as [[Hc0 Hc] _]. unfold gettoken.
  rewrite (skip_id blank) by (cbn; intros ? [= <-]; by apply blank_word). cbn [app].
  rewrite (proj2 (Z.eqb_neq c 0)) by done. pose proof Hc as [_ Hcs]%is_word_spec.
  assert (one_of (bytes "|();&<") c = false) as ->.
  { apply one_of_false. intros Hx. apply Hcs. change (bytes _) with [124; 40; 41; 59; 38; 60] in Hx.
    change symbols with [60; 124; 62; 38; 59; 40; 41]. rewrite !elem_of_cons in *. intuition. }
  rewrite (proj2 (Z.eqb_neq c 62)) by (intros ->; by apply Hcs, one_of_spec).
  change (c :: w ++ 32 :: rest) with ((c :: w) ++ 32 :: rest) in *. rewrite skip_word_end by done.
  eexists. split; [reflexivity|]. by apply text_at.
Qed.

Lemma word_not_symbol w rest c toks : ok_word w → head (w ++ rest) = Some c → (∀ d, d ∈ toks → d ∈ symbols) → one_of toks c = false ∧ blank c = false ∧ c ≠ 0.
Proof.
  intros [Hne Hw] Hc Ht. destruct w as [|x w]; [done|]. cbn in Hc. injection Hc as ->. apply Forall_cons in Hw as [[H0 H] _].
  pose proof H as [_ Hs]%is_word_spec. split_and!; [apply one_of_false; auto|by apply blank_word|done].
Qed.

(** At a word [peek] sees none of the symbols. *)
Lemma peek_word w rest toks : ok_word w → (∀ d, d ∈ toks → d ∈ symbols) → peek (w ++ rest) toks = (false, w ++ rest).
Proof.
  intros Hw Ht. unfold peek. assert (Hs : skip (w ++ rest) = w ++ rest).
  { apply skip_id. intros c Hc. by destruct (word_not_symbol w rest c [] Hw Hc) as (_ & ? & _); [intros d ?%not_elem_of_nil|]. }
  rewrite Hs. destruct (w ++ rest) as [|c u] eqn:E; [done|].
  destruct (word_not_symbol w rest c toks Hw) as (H & _ & _); [by rewrite E|done|]. by rewrite H, andb_false_r.
Qed.
Lemma symbol_skip c t : c ∈ symbols → skip (c :: t) = c :: t.
Proof.
  intros Hc. apply skip_id. intros d [= <-]. apply one_of_false. change symbols with [60; 124; 62; 38; 59; 40; 41] in Hc.
  change whitespace with [32; 9; 13; 10; 11]. rewrite !elem_of_cons, elem_of_nil in *. lia.
Qed.

Lemma peek_symbol c t toks : c ∈ symbols → peek (c :: t) toks = (one_of toks c, c :: t).
Proof.
  intros Hc. unfold peek. rewrite symbol_skip by done. destruct (Z.eqb_spec c 0) as [->|]; [|done].
  apply one_of_spec in Hc. by vm_compute in Hc.
Qed.

Lemma gettoken_symbol c t : c ∈ bytes "|();&<" → ∃ q, gettoken es (c :: t) = (c, q, skip t).
Proof.
  intros Hc. assert (Hs : c ∈ symbols).
  { change (bytes _) with [124; 40; 41; 59; 38; 60] in Hc. change symbols with [60; 124; 62; 38; 59; 40; 41].
    rewrite !elem_of_cons in *. intuition. }
  unfold gettoken. rewrite symbol_skip by done. apply one_of_spec in Hc as ->.
  destruct (Z.eqb_spec c 0) as [->|]; [apply one_of_spec in Hs; by vm_compute in Hs|]. by eexists.
Qed.

Lemma gettoken_gt y t : y ≠ 62 → ∃ q, gettoken es (62 :: y :: t) = (62, q, skip (y :: t)).
Proof.
  intros Hy. unfold gettoken. rewrite symbol_skip by (by apply one_of_spec).
  change (62 =? 0) with false. change (one_of (bytes "|();&<") 62) with false. change (62 =? 62) with true.
  rewrite (proj2 (Z.eqb_neq y 62)) by done. by eexists.
Qed.

Lemma gettoken_gtgt t : ∃ q, gettoken es (62 :: 62 :: t) = (43, q, skip t).
Proof. unfold gettoken. rewrite symbol_skip by (by apply one_of_spec). by eexists. Qed.

Lemma peek_none stop rest toks : follow stop rest → forallb (λ d, negb (one_of toks d)) stop = true → peek rest toks = (false, skip rest).
Proof.
  intros Hf Ht. unfold peek. destruct (skip rest) as [|c u] eqn:E; [done|].
  assert (Hc : c ∈ stop) by (apply Hf; by rewrite E). rewrite forallb_forall in Ht. apply list_elem_of_In in Hc.
  specialize (Ht c Hc). apply negb_true_iff in Ht. by rewrite Ht, andb_false_r.
Qed.

Lemma follow_mono stop stop' rest : follow stop rest → forallb (one_of stop') stop = true → follow stop' rest.
Proof. intros Hf Ht c Hc. specialize (Hf c Hc). rewrite forallb_forall in Ht. by apply one_of_spec, Ht, list_elem_of_In. Qed.

Lemma follow_symbol stop c t : c ∈ symbols → c ∈ stop → follow stop (c :: t).
Proof. intros Hs Hc d. rewrite symbol_skip by done. by intros [= <-]. Qed.

Definition redirs (rs : list redir) : list Z := concat (map print_redir rs).

Lemma redir_op_symbol r : ok_redir r → ∃ c t, print_redir r = c :: t ∧ c ∈ bytes "<>".
Proof.
  destruct r as [[f m] d]. intros [_ [[-> ->]|[[-> ->]|[-> ->]]]]; eexists _, _; (split; [reflexivity|]); apply one_of_spec; done.
Qed.

Lemma angle_symbol c : c ∈ bytes "<>" → c ∈ symbols.
Proof. change (bytes _) with [60; 62]. change symbols with [60; 124; 62; 38; 59; 40; 41]. rewrite !elem_of_cons. intuition. Qed.

Lemma follow_redirs rs rest : Forall ok_redir rs → follow (bytes "|)&;") rest → follow (bytes "<>|)&;") (redirs rs ++ rest).
Proof.
  intros Hrs Hf. destruct Hrs as [|r rs Hr Hrs]; [by eapply follow_mono|]. destruct (redir_op_symbol r Hr) as (c & t & Hp & Hc).
  unfold redirs. cbn [map concat]. rewrite Hp. cbn [app]. apply follow_symbol; [by apply angle_symbol|].
  change (bytes _) with [60; 62] in Hc. change (bytes _) with [60; 62; 124; 41; 38; 59]. rewrite !elem_of_cons in *. intuition.
Qed.

Lemma redir_count rs rest : Forall ok_redir rs → (length rs ≤ length (skip (redirs rs ++ rest)))%nat.
Proof.
  intros Hrs. destruct Hrs as [|r rs Hr Hrs]; [cbn; lia|]. destruct (redir_op_symbol r Hr) as (c & t & Hp & Hc).
  unfold redirs. cbn [map concat]. rewrite Hp. cbn [app]. rewrite symbol_skip by (by apply angle_symbol).
  cbn [length]. rewrite !length_app. assert (length rs ≤ length (concat (map print_redir rs)))%nat; [|lia].
  clear -Hrs. induction Hrs as [|r rs Hr Hrs IH]; [done|]. destruct (redir_op_symbol r Hr) as (c & t & Hp & Hc).
  cbn [map concat]. rewrite Hp. cbn [app length]. rewrite length_app. lia.
Qed.

(** One redirection: its operator, its file. *)
Lemma redir_step n c r rest : ok_redir r → (print_redir r ++ rest) `suffix_of` buf →
  ∃ c', redir_loop (S n) c es (print_redir r ++ rest) = redir_loop n c' es (skip rest) ∧ cmap text c' = wrap (cmap text c) r.
Proof.
  destruct r as [[f m] d]. intros Hr Hb. destruct (redir_op_symbol _ Hr) as (x & t & Hp & Hx). destruct Hr as [Hf Hr].
  assert (Hpk : peek (print_redir (f, m, d) ++ rest) (bytes "<>") = (true, print_redir (f, m, d) ++ rest)).
  { rewrite Hp. cbn [app]. rewrite peek_symbol by (by apply angle_symbol). by apply one_of_spec in Hx as ->. }
  cbn [redir_loop]. rewrite Hpk.
  assert (Hfb : (f ++ 32 :: rest) `suffix_of` buf).
  { etrans; [|exact Hb]. unfold print_redir. exists (redir_op m d). by rewrite <- !app_assoc. }
  destruct (gettoken_word f rest Hf Hfb) as (q & Hq & Htext).
  assert (Hskip : skip (f ++ 32 :: rest) = f ++ 32 :: rest).
  { apply skip_id. intros y Hy. by destruct (word_not_symbol f _ y [] Hf Hy) as (_ & ? & _); [intros ? ?%not_elem_of_nil|]. }
  assert (Hop : ∃ q0, gettoken es (print_redir (f, m, d) ++ rest) =
    (if d =? 0 then 60 else if m =? O_REPLACE then 62 else 43, q0, f ++ 32 :: rest)).
  { rewrite <- Hskip. unfold print_redir, redir_op. rewrite <- !app_assoc. change ([32] ++ rest) with (32 :: rest).
    destruct Hr as [[-> ->]|[[-> ->]|[-> ->]]].
    - by apply (gettoken_symbol 60), one_of_spec.
    - destruct f as [|y f]; [by destruct Hf|]. apply gettoken_gt. intros ->.
      destruct Hf as [_ [[_ Hy] _]%Forall_cons]. done.
    - apply gettoken_gtgt. }
  destruct Hop as (q0 & ->). rewrite Hq. change (negb (97 =? 97)) with false.
  destruct Hr as [[-> ->]|[[-> ->]|[-> ->]]]; eexists; (split; [reflexivity|]); cbn; by rewrite Htext.
Qed.

Lemma redir_skip n c s : (0 < n)%nat → redir_loop n c es (skip s) = redir_loop n c es s.
Proof. destruct n; [lia|]. intros _. cbn [redir_loop]. by rewrite peek_skip. Qed.

Lemma redirs_run rs rest : ∀ n c, Forall ok_redir rs → follow (bytes "|)&;") rest → (redirs rs ++ rest) `suffix_of` buf →
  (length rs < n)%nat →
  ∃ c', redir_loop n c es (redirs rs ++ rest) = Parsed (c', skip rest) ∧ cmap text c' = fold_left wrap rs (cmap text c).
Proof.
  induction rs as [|r rs IH]; intros [|n] c Hrs Hf Hb Hn; cbn [length] in Hn; try lia.
  - exists c. split; [|done]. cbn [redirs map concat app redir_loop]. by rewrite (peek_none _ _ _ Hf).
  - apply Forall_cons in Hrs as [Hr Hrs]. unfold redirs in *. cbn [map concat] in *. rewrite <- app_assoc in *.
    destruct (redir_step n c r _ Hr Hb) as (c1 & -> & E1). rewrite redir_skip by lia.
    destruct (IH n c1 Hrs Hf) as (c2 & -> & E2); [etrans; [by exists (print_redir r)|done]|lia|]. exists c2. by rewrite E2, E1.
Qed.

Lemma parseredirs_run rs rest c : Forall ok_redir rs → follow (bytes "|)&;") rest → (redirs rs ++ rest) `suffix_of` buf →
  ∃ c', parseredirs c es (skip (redirs rs ++ rest)) = Parsed (c', skip rest) ∧ cmap text c' = fold_left wrap rs (cmap text c).
Proof.
  intros Hrs Hf Hb. unfold parseredirs. rewrite redir_skip by lia. apply redirs_run; [done|done|done|].
  pose proof (redir_count rs rest Hrs). lia.
Qed.

(** No redirection. *)
Lemma parseredirs_none s c : peek s (bytes "<>") = (false, s) → parseredirs c es s = Parsed (c, s).
Proof. intros H. unfold parseredirs. cbn [redir_loop]. by rewrite H. Qed.

Definition args (argv : list (list Z)) : list Z := concat (map print_word argv).

Lemma args_cons w argv rest : args (w :: argv) ++ rest = w ++ 32 :: args argv ++ rest.
Proof. unfold args. cbn [map concat print_word]. unfold print_word. by rewrite <- !app_assoc. Qed.

Lemma args_end n c argc rest : follow (bytes "|)&;") rest → args_loop (S n) c argc es (skip rest) = Parsed (c, skip rest).
Proof.
  intros Hf. cbn [args_loop]. rewrite peek_skip. unfold peek. destruct (skip rest) as [|x u] eqn:E.
  - done.
  - assert (Hx : x ∈ bytes "|)&;") by (apply Hf; by rewrite E). assert (Hx0 : x ≠ 0) by (intros ->; by apply one_of_spec in Hx).
    apply one_of_spec in Hx as ->. by rewrite (proj2 (Z.eqb_neq x 0)).
Qed.

Lemma word_skip w rest : ok_word w → skip (w ++ rest) = w ++ rest.
Proof. intros Hw. by destruct (peek_spec _ _ _ _ (peek_word w rest [] Hw (λ d (H : d ∈ []), False_ind _ (proj1 (elem_of_nil d) H)))) as [<- _]. Qed.

Lemma one_of_sub toks : forallb (one_of symbols) toks = true → ∀ d, d ∈ toks → d ∈ symbols.
Proof. intros H d Hd. rewrite forallb_forall in H. by apply one_of_spec, H, list_elem_of_In. Qed.

Lemma args_run argv : ∀ n l rs rest, argv ≠ [] → Forall ok_word argv → Forall ok_redir rs → follow (bytes "|)&;") rest →
  (args argv ++ redirs rs ++ rest) `suffix_of` buf → (length l + length argv < MAXARGS)%nat → (MAXARGS ≤ length l + n)%nat →
  ∃ c', args_loop n (EXEC l) (length l) es (args argv ++ redirs rs ++ rest) = Parsed (c', skip rest) ∧
    cmap text c' = fold_left wrap rs (EXEC (map text l ++ argv)).
Proof.
  induction argv as [|w argv IH]; intros n l rs rest Hne Hw Hrs Hf Hb Hl Hn; [done|]. cbn [length] in Hl.
  destruct n as [|n]; [lia|]. apply Forall_cons in Hw as [Hw Hws]. rewrite args_cons in *.
  cbn [args_loop]. rewrite peek_word by (done || by apply one_of_sub). destruct (gettoken_word w _ Hw Hb) as (t & -> & Ht).
  change (97 =? 0) with false. change (negb (97 =? 97)) with false. cbn [push_arg].
  destruct (Nat.leb_spec MAXARGS (S (length l))); [lia|].
  assert (Hb' : (args argv ++ redirs rs ++ rest) `suffix_of` buf).
  { etrans; [|exact Hb]. exists (w ++ [32]). by rewrite <- app_assoc. }
  assert (Hmap : map text l ++ w :: argv = map text (l ++ [t]) ++ argv) by (rewrite map_app, <- app_assoc; cbn; by rewrite Ht).
  rewrite Hmap. replace (S (length l)) with (length (l ++ [t])) by (rewrite length_app; cbn; lia).
  destruct argv as [|w2 argv].
  - cbn [args map concat app] in *. destruct (parseredirs_run rs rest (EXEC (l ++ [t])) Hrs Hf Hb') as (c' & -> & E).
    exists c'. cbn [mbind presult_bind]. destruct n as [|n]; [lia|]. rewrite args_end by done. split; [done|]. rewrite E. cbn [cmap]. by rewrite app_nil_r.
  - pose proof (Forall_inv Hws) as Hw2. rewrite args_cons, word_skip by done.
    rewrite parseredirs_none by (apply peek_word; [done|by apply one_of_sub]). cbn [mbind presult_bind]. rewrite <- args_cons.
    apply IH; [done|done|done|done|done|rewrite length_app; cbn [length] in *; lia|rewrite length_app; cbn [length]; lia].
Qed.

(** Blanks before a command change nothing. *)
Lemma exec_skip line s : parseexec line es (skip s) = parseexec line es s.
Proof. unfold parseexec. by rewrite peek_skip. Qed.

Lemma pipe_skip line n s : parsepipe line n es (skip s) = parsepipe line n es s.
Proof. destruct n; [done|]. cbn [parsepipe]. by rewrite exec_skip. Qed.

Lemma parse_skip n s : parseline n es (skip s) = parseline n es s.
Proof. destruct n; [done|]. cbn [parseline]. by rewrite pipe_skip. Qed.

Definition backs (a : cmd token * list Z) : presult (cmd token * list Z) := let '(c, s) := a in back_loop (S (length s)) c es s.
Definition list_tail (n : nat) (a : cmd token * list Z) : presult (cmd token * list Z) :=
  let '(c, s) := a in
  let '(b, s) := peek s (bytes ";") in
  if b then let '(_, _, s) := gettoken es s in '(r, s) ← parseline n es s; Parsed (LIST c r, s) else Parsed (c, s).

Lemma parseline_eq n s : parseline (S n) es s = ((parsepipe (parseline n) n es s ≫= backs) ≫= list_tail n).
Proof. cbn [parseline]. by destruct (parsepipe (parseline n) n es s) as [[c t]| |]. Qed.

(** What the four functions do on the text of [c]. *)
Definition exec_parses (c : cmd (list Z)) : Prop := ∀ rs rest n, Forall ok_redir rs → follow (bytes "|)&;") rest →
  (print 0 c ++ redirs rs ++ rest) `suffix_of` buf → (length (print 0 c ++ redirs rs ++ rest) + 1 ≤ n)%nat →
  ∃ c', parseexec (parseline n) es (print 0 c ++ redirs rs ++ rest) = Parsed (c', skip rest) ∧ cmap text c' = fold_left wrap rs c.
Definition pipe_parses (c : cmd (list Z)) : Prop := ∀ rest n m, follow (bytes ")&;") rest →
  (print 1 c ++ rest) `suffix_of` buf → (length (print 1 c ++ rest) + 1 ≤ n)%nat → (length (print 1 c ++ rest) + 1 ≤ m)%nat →
  ∃ c', parsepipe (parseline n) m es (print 1 c ++ rest) = Parsed (c', skip rest) ∧ cmap text c' = c.
Definition back_parses (c : cmd (list Z)) : Prop := ∀ rest n, follow (bytes ")&;") rest →
  (print 2 c ++ rest) `suffix_of` buf → (length (print 2 c ++ rest) + 1 ≤ n)%nat →
  ∃ c' k, parsepipe (parseline n) n es (print 2 c ++ rest) ≫= backs = back_loop (S k) c' es (skip rest) ∧ (length (skip rest) ≤ k)%nat ∧ cmap text c' = c.
Definition line_parses (c : cmd (list Z)) : Prop := ∀ rest n, follow (bytes ")") rest →
  (print 3 c ++ rest) `suffix_of` buf → (length (print 3 c ++ rest) + 2 ≤ n)%nat →
  ∃ c', parseline n es (print 3 c ++ rest) = Parsed (c', skip rest) ∧ cmap text c' = c.

Lemma pipe_of_exec c : print 1 c = print 0 c → exec_parses c → pipe_parses c.
Proof.
  intros Hp He rest n m Hf Hb Hn Hm. rewrite Hp in *. destruct m as [|m]; [lia|].
  destruct (He [] rest n) as (c' & E & Hc); [done|by eapply follow_mono|done|cbn [redirs map concat app]; lia|].
  cbn [redirs map concat app] in E. exists c'. split; [|done]. cbn [parsepipe]. rewrite E. cbn [mbind presult_bind].
  rewrite peek_skip. by rewrite (peek_none _ _ _ Hf).
Qed.

Lemma back_of_pipe c : print 2 c = print 1 c → pipe_parses c → back_parses c.
Proof.
  intros Hp He rest n Hf Hb Hn. rewrite Hp in *. destruct (He rest n n Hf Hb Hn Hn) as (c' & -> & Hc).
  exists c', (length (skip rest)). cbn [mbind presult_bind backs]. done.
Qed.

Lemma back_end k c rest : follow (bytes ");") rest → back_loop (S k) c es (skip rest) = Parsed (c, skip rest).
Proof. intros Hf. cbn [back_loop]. rewrite peek_skip. by rewrite (peek_none _ _ _ Hf). Qed.

Lemma line_of_back c : print 3 c = print 2 c → back_parses c → line_parses c.
Proof.
  intros Hp He rest n Hf Hb Hn. rewrite Hp in *. destruct n as [|n]; [lia|].
  destruct (He rest n) as (c' & k & E & _ & Hc); [by eapply follow_mono|done|lia|]. exists c'. split; [|done].
  rewrite parseline_eq, E, back_end by (by eapply follow_mono). cbn [mbind presult_bind list_tail]. rewrite peek_skip.
  by rewrite (peek_none _ _ _ Hf).
Qed.

(** A command in parentheses. *)
Lemma exec_of_line c : print 0 c = paren true (print 3 c) → line_parses c → exec_parses c.
Proof.
  intros Hp He rs rest n Hrs Hf Hb Hn. rewrite Hp in *. cbn [paren] in *. rewrite <- !app_comm_cons, <- !app_assoc in *.
  change ([41] ++ redirs rs ++ rest) with (41 :: redirs rs ++ rest) in *.
  assert (H40 : 40 ∈ symbols) by (by apply one_of_spec). assert (H41 : 41 ∈ symbols) by (by apply one_of_spec).
  cbn [length] in Hn. unfold parseexec. rewrite peek_symbol by done. change (one_of (bytes "(") 40) with true.
  unfold parseblock. rewrite peek_symbol by done. change (negb (one_of (bytes "(") 40)) with false.
  destruct (gettoken_symbol 40 (print 3 c ++ 41 :: redirs rs ++ rest)) as (q & ->); [by apply one_of_spec|].
  rewrite parse_skip. set (tail := 41 :: redirs rs ++ rest) in *.
  assert (Hb1 : (print 3 c ++ tail) `suffix_of` buf) by (etrans; [|exact Hb]; by exists [40]).
  destruct (He tail n) as (c' & -> & Hc); [by apply follow_symbol, one_of_spec|done|lia|]. unfold tail.
  cbn [mbind presult_bind]. rewrite symbol_skip, peek_symbol by done. change (negb (one_of (bytes ")") 41)) with false.
  destruct (gettoken_symbol 41 (redirs rs ++ rest)) as (q' & ->); [by apply one_of_spec|].
  destruct (parseredirs_run rs rest c' Hrs Hf) as (c2 & -> & Hc2); [etrans; [|exact Hb1]; exists (print 3 c ++ [41]); by rewrite <- app_assoc|].
  exists c2. by rewrite Hc2, Hc.
Qed.

Lemma exec_parses_exec argv : ok_cmd (EXEC argv) → exec_parses (EXEC argv).
Proof.
  intros [Hw Hl] rs rest n Hrs Hf Hb Hn. cbn [print] in *. change (concat (map print_word argv)) with (args argv) in *.
  unfold parseexec. destruct argv as [|w argv].
  - cbn [args map concat app] in *. rewrite (peek_none _ _ _ (follow_redirs rs rest Hrs Hf)) by done.
    destruct (parseredirs_run rs rest (EXEC []) Hrs Hf Hb) as (c' & -> & Hc). exists c'. cbn [mbind presult_bind].
    unfold MAXARGS. by rewrite args_end.
  - pose proof (Forall_inv Hw) as Hw1. assert (Hpw : ∀ toks, forallb (one_of symbols) toks = true →
      peek (args (w :: argv) ++ redirs rs ++ rest) toks = (false, args (w :: argv) ++ redirs rs ++ rest)).
    { intros toks Ht. rewrite args_cons. apply peek_word; [done|by apply one_of_sub]. }
    rewrite Hpw, parseredirs_none by (done || by apply Hpw). cbn [mbind presult_bind].
    apply (args_run (w :: argv) MAXARGS [] rs rest); [done|done|done|done|done|done|done].
Qed.

Lemma exec_parses_redir c f m d : ok_redir (f, m, d) → exec_parses c → exec_parses (REDIR c f m d).
Proof.
  intros Hr He rs rest n Hrs Hf Hb Hn. cbn [print] in *. rewrite <- app_assoc in *.
  change (print_redir (f, m, d) ++ redirs rs ++ rest) with (print_redir (f, m, d) ++ redirs rs ++ rest) in *.
  assert (E : print_redir (f, m, d) ++ redirs rs ++ rest = redirs ((f, m, d) :: rs) ++ rest) by (unfold redirs; cbn [map concat]; by rewrite <- app_assoc).
  rewrite E in *. apply (He ((f, m, d) :: rs) rest n); [by constructor|done|done|done].
Qed.

Lemma pipe_parses_pipe l r : exec_parses l → pipe_parses r → pipe_parses (PIPE l r).
Proof.
  intros Hl Hr rest n m Hf Hb Hn Hm. cbn [print] in *. change (paren (1 <? 1)%nat (print 0 l ++ 124 :: print 1 r)) with (print 0 l ++ 124 :: print 1 r) in *.
  rewrite <- app_assoc, <- app_comm_cons in *. rewrite length_app in Hn. rewrite length_app in Hm. cbn [length] in Hn, Hm.
  assert (H124 : 124 ∈ symbols) by (by apply one_of_spec). destruct m as [|m]; [lia|]. cbn [parsepipe].
  destruct (Hl [] (124 :: print 1 r ++ rest) n) as (c1 & E & H1);
    [done|by apply follow_symbol, one_of_spec|done|cbn [redirs map concat app]; rewrite length_app; cbn [length]; lia|].
  cbn [redirs map concat app] in E. rewrite E. cbn [mbind presult_bind]. rewrite symbol_skip, peek_symbol by done.
  change (one_of (bytes "|") 124) with true. destruct (gettoken_symbol 124 (print 1 r ++ rest)) as (q & ->); [by apply one_of_spec|].
  rewrite pipe_skip. destruct (Hr rest n m Hf) as (c2 & -> & H2); [|lia|lia|].
  - etrans; [|exact Hb]. exists (print 0 l ++ [124]). by rewrite <- app_assoc.
  - exists (PIPE c1 c2). cbn [cmap]. cbn [fold_left] in H1. by rewrite H1, H2.
Qed.

Lemma back_parses_back c : back_parses c → back_parses (BACK c).
Proof.
  intros Hc rest n Hf Hb Hn. cbn [print] in *. change (paren (2 <? 2)%nat (print 2 c ++ [38])) with (print 2 c ++ [38]) in *.
  rewrite <- app_assoc in *. change ([38] ++ rest) with (38 :: rest) in *. assert (H38 : 38 ∈ symbols) by (by apply one_of_spec).
  destruct (Hc (38 :: rest) n) as (c1 & k & -> & Hk & H1); [by apply follow_symbol, one_of_spec|done|done|].
  rewrite symbol_skip in * by done. cbn [length] in Hk. destruct k as [|k]; [lia|].
  cbn [back_loop]. rewrite peek_symbol by done. change (one_of (bytes "&") 38) with true.
  destruct (gettoken_symbol 38 rest) as (q & ->); [by apply one_of_spec|]. exists (BACK c1), k. split; [done|]. split; [|by cbn [cmap]; rewrite H1].
  pose proof (suffix_length _ _ (skip_suffix_of blank rest)). lia.
Qed.

Lemma line_parses_list l r : back_parses l → line_parses r → line_parses (LIST l r).
Proof.
  intros Hl Hr rest n Hf Hb Hn. cbn [print] in *. change (paren (3 <? 3)%nat (print 2 l ++ 59 :: print 3 r)) with (print 2 l ++ 59 :: print 3 r) in *.
  rewrite <- app_assoc, <- app_comm_cons in *. rewrite length_app in Hn. cbn [length] in Hn.
  assert (H59 : 59 ∈ symbols) by (by apply one_of_spec). destruct n as [|n]; [lia|]. rewrite parseline_eq.
  destruct (Hl (59 :: print 3 r ++ rest) n) as (c1 & k & -> & _ & H1); [by apply follow_symbol, one_of_spec|done|rewrite length_app; cbn [length]; lia|].
  rewrite back_end by (by apply follow_symbol, one_of_spec). cbn [mbind presult_bind list_tail]. rewrite symbol_skip, peek_symbol by done.
  change (one_of (bytes ";") 59) with true. destruct (gettoken_symbol 59 (print 3 r ++ rest)) as (q & ->); [by apply one_of_spec|].
  rewrite parse_skip. destruct (Hr rest n Hf) as (c2 & -> & H2); [|lia|].
  - etrans; [|exact Hb]. exists (print 2 l ++ [59]). by rewrite <- app_assoc.
  - exists (LIST c1 c2). cbn [cmap]. by rewrite H1, H2.
Qed.

Record parses (c : cmd (list Z)) : Prop := {
  p_exec : exec_parses c; p_pipe : pipe_parses c; p_back : back_parses c; p_line : line_parses c }.

Lemma all_parse c : ok_cmd c → parses c.
Proof.
  induction c as [argv|c IH f m d|l IHl r IHr|l IHl r IHr|c IH]; intros Hok.
  - pose proof (exec_parses_exec argv Hok) as He. pose proof (pipe_of_exec (EXEC argv) eq_refl He) as Hp.
    pose proof (back_of_pipe (EXEC argv) eq_refl Hp) as Hb. split; [done|done|done|by apply line_of_back].
  - destruct Hok as [Hc Hr]. destruct (IH Hc) as [IHe _ _ _]. pose proof (exec_parses_redir c f m d Hr IHe) as He.
    pose proof (pipe_of_exec (REDIR c f m d) eq_refl He) as Hp. pose proof (back_of_pipe (REDIR c f m d) eq_refl Hp) as Hb.
    split; [done|done|done|by apply line_of_back].
  - destruct Hok as [Hl Hr]. destruct (IHl Hl) as [IHe _ _ _]. destruct (IHr Hr) as [_ IHp _ _].
    pose proof (pipe_parses_pipe l r IHe IHp) as Hp. pose proof (back_of_pipe (PIPE l r) eq_refl Hp) as Hb.
    pose proof (line_of_back (PIPE l r) eq_refl Hb) as Hli. split; [by apply exec_of_line|done|done|done].
  - destruct Hok as [Hl Hr]. destruct (IHl Hl) as [_ _ IHb _]. destruct (IHr Hr) as [_ _ _ IHli].
    pose proof (line_parses_list l r IHb IHli) as Hli. pose proof (exec_of_line (LIST l r) eq_refl Hli) as He.
    pose proof (pipe_of_exec (LIST l r) eq_refl He) as Hp. split; [done|done|by apply back_of_pipe|done].
  - destruct (IH Hok) as [_ _ IHb _]. pose proof (back_parses_back c IHb) as Hb. pose proof (line_of_back (BACK c) eq_refl Hb) as Hli.
    pose proof (exec_of_line (BACK c) eq_refl Hli) as He. split; [done|by apply pipe_of_exec|done|done].
Qed.
End roundtrip.

Lemma cmap_ext {S T} (f g : S → T) c : (∀ t, t ∈ words c → f t = g t) → cmap f c = cmap g c.
Proof.
  induction c as [argv|c IH x m d|l IHl r IHr|l IHl r IHr|c IH]; cbn [words cmap]; intros H.
  - f_equal. apply map_ext_in. intros t Ht. apply H, list_elem_of_In, Ht.
  - f_equal; [apply IH; intros; apply H, elem_of_app; by left|apply H, elem_of_app; right; by apply list_elem_of_singleton].
  - f_equal; [apply IHl|apply IHr]; intros; apply H, elem_of_app; auto.
  - f_equal; [apply IHl|apply IHr]; intros; apply H, elem_of_app; auto.
  - f_equal. by apply IH.
Qed.

Lemma print_nonzero c : ∀ lvl, ok_cmd c → Forall (λ x, x ≠ 0) (print lvl c).
Proof.
  assert (Hpar : ∀ b t, Forall (λ x, x ≠ 0) t → Forall (λ x, x ≠ 0) (paren b t)).
  { intros [] t Ht; [|done]. constructor; [done|]. apply Forall_app. split; [done|]. by repeat constructor. }
  assert (Hword : ∀ w, ok_word w → Forall (λ x, x ≠ 0) w) by (intros w [_ Hw]; eapply Forall_impl; [exact Hw|]; by intros ? [? _]).
  induction c as [argv|c IH f m d|l IHl r IHr|l IHl r IHr|c IH]; intros lvl; cbn [print ok_cmd].
  - intros [Hw _]. apply Forall_concat, Forall_map. eapply Forall_impl; [exact Hw|]. intros w Hok. apply Forall_app. split; [auto|by repeat constructor].
  - intros [Hc [Hf Hm]]. apply Forall_app. split; [auto|]. unfold print_redir. apply Forall_app. split; [|apply Forall_app; split; [auto|by repeat constructor]].
    unfold redir_op. destruct (d =? 0), (m =? O_REPLACE); by apply (bool_decide_unpack _).
  - intros [Hl Hr]. apply Hpar, Forall_app. split; [auto|]. constructor; [done|auto].
  - intros [Hl Hr]. apply Hpar, Forall_app. split; [auto|]. constructor; [done|auto].
  - intros Hc. apply Hpar, Forall_app. split; [auto|by repeat constructor].
Qed.

(** C32: The parser inverts printing: the line that [print] writes for a command, blanks after
    it included, is parsed to that command, with the same structure, arguments, files,
    modes and descriptors, whatever the nesting of lists, pipelines, [&], parentheses and
    redirections, when the words have no blanks and symbols and a command has less than
    [MAXARGS] arguments. *)
Theorem parse_print c blanks : ok_cmd c → Forall (λ x, x ∈ whitespace) blanks →
  ∃ t b, parsecmd (print 3 c ++ blanks) = Return (t, b) ∧ strings b t = c.
Proof.
  intros Hok Hbl. set (s := print 3 c ++ blanks). assert (Hsk : skip blanks = []).
  { clear s. induction Hbl as [|x l Hx Hl IH]; [done|]. cbn [skip_while]. by apply one_of_spec in Hx as ->. }
  destruct (p_line _ _ (all_parse s c Hok) blanks (parse_fuel (length s))) as (t & E & Hc).
  - intros x. by rewrite Hsk.
  - done.
  - done.
  - change (print 3 c ++ blanks) with s in E. rewrite Hsk in E. exists t, (nulterminate t (s ++ [0])). unfold parsecmd. rewrite E. split; [done|].
    assert (Hz : Forall (λ x, x ≠ 0) s).
    { apply Forall_app. split; [by apply print_nonzero|]. eapply Forall_impl; [exact Hbl|]. intros x Hx ->. by apply one_of_spec in Hx. }
    pose proof (parse_ok s (parse_fuel (length s)) s ltac:(done) (Nat.le_refl _)) as H. rewrite E in H. destruct H as [_ H].
    rewrite <- Hc. apply cmap_ext. intros u Hu. destruct (proj1 (Forall_forall _ _) H u Hu) as (w & Hw).
    rewrite nulterminate_words, (nul_string s (words t) u w Hz H Hu Hw). destruct Hw as [pre w post -> _ _ _]. unfold text. cbn [fst snd].
    replace (length pre + length w - length pre)%nat with (length w) by lia. by rewrite drop_app_length, take_app_length.
Qed.

Lemma parse_print_witness :
  let c := LIST (BACK (PIPE (REDIR (EXEC [bytes "a"; bytes "b"]) (bytes "f") O_REPLACE 1)
                            (REDIR (LIST (EXEC [bytes "c"]) (BACK (EXEC [bytes "d"]))) (bytes "h") O_APPEND 1)))
                (EXEC [bytes "e"]) in
  print 3 c = bytes "a b >f |(c ;d &)>>h &;e " ∧ ∃ t b, parsecmd (print 3 c ++ [10]) = Return (t, b) ∧ strings b t = c.
Proof.
  cbv zeta. split; [vm_compute; reflexivity|]. apply parse_print; [|apply (bool_decide_unpack _); by vm_compute].
  assert (Hw : ∀ c, is_word c = true → c ≠ 0 → ok_word [c]) by (intros c H1 H2; split; [done|by repeat constructor]).
  cbn [ok_cmd ok_redir]. repeat match goal with
  | |- _ ∧ _ => split
  | |- Forall _ _ => constructor
  | |- ok_word _ => by apply Hw
  | |- (_ < _)%nat => vm_compute; lia
  | |- _ ∨ _ => auto
  end.
Defined.

(** ** Which programs a command runs, and on which descriptors *)

(** What a process did so far; it names its next pipe. *)
Inductive step := Child | Parent | Piped.

Inductive desc := Console | File (name : list Z) (mode : Z) | PipeR (id : list step) | PipeW (id : list step).

(** The descriptors of one process, its history, which of the next [fork], [pipe] and [open]
    calls fail ([None]) and which way a [fork] goes on ([Some true] in the child), and the
    [exec] calls so far with the descriptors at the call. *)
Record skernel := mk_sk {
  sk_fds : gmap Z desc; sk_hist : list step; sk_oracle : list (option bool); sk_execs : list (list (list Z) * gmap Z desc) }.

Definition NOFILE : nat := 16.
(** The lowest free descriptor. *)
Definition fd_alloc (fds : gmap Z desc) : option Z :=
  List.find (λ fd, match fds !! fd with None => true | Some _ => false end) (map Z.of_nat (seq 0 NOFILE)).

Definition sh_kernel (c : ucall) (k : skernel) : reply * skernel :=
  let fail := mk_reply (-1) [] in
  let '(mk_sk fds h o e) := k in
  let go := default None (head o) in
  match c with
  | U_fork => match go with
              | Some true => (mk_reply 0 [], mk_sk fds (h ++ [Child]) (tail o) e)
              | Some false => (mk_reply 7 [], mk_sk fds (h ++ [Parent]) (tail o) e)
              | None => (fail, mk_sk fds h (tail o) e)
              end
  | U_open f m =>
      match go, fd_alloc fds with
      | Some _, Some fd => (mk_reply fd [], mk_sk (<[fd := File f m]> fds) h (tail o) e)
      | _, _ => (fail, mk_sk fds h (tail o) e)
      end
  | U_pipe =>
      match go, fd_alloc fds with
      | Some _, Some p0 =>
          match fd_alloc (<[p0 := PipeR h]> fds) with
          | Some p1 => (mk_reply 0 (le_encode 4 p0 ++ le_encode 4 p1), mk_sk (<[p1 := PipeW h]> (<[p0 := PipeR h]> fds)) (h ++ [Piped]) (tail o) e)
          | None => (fail, mk_sk fds h (tail o) e)
          end
      | _, _ => (fail, mk_sk fds h (tail o) e)
      end
  | U_close fd => (mk_reply 0 [], mk_sk (delete fd fds) h o e)
  | U_dup fd =>
      match fds !! fd, fd_alloc fds with
      | Some d, Some fd' => (mk_reply fd' [], mk_sk (<[fd' := d]> fds) h o e)
      | _, _ => (fail, k)
      end
  | U_exec _ argv => (fail, mk_sk fds h o (e ++ [(argv, fds)]))
  | _ => (mk_reply 0 [], k)
  end.

(** The programs a command means, each with its descriptors: a redirection replaces one
    descriptor, the sides of a pipeline share a new pipe, and nothing else changes. *)
Fixpoint wires (c : cmd (list Z)) (fds : gmap Z desc) (h : list step) : list (list (list Z) * gmap Z desc) :=
  match c with
  | EXEC [] => []
  | EXEC argv => [(argv, fds)]
  | REDIR c f m d => wires c (<[d := File f m]> fds) h
  | LIST l r => wires l fds (h ++ [Child]) ++ wires r fds (h ++ [Parent])
  | PIPE l r =>
      wires l (<[1 := PipeW h]> fds) (h ++ [Piped; Child]) ++ wires r (<[0 := PipeR h]> fds) (h ++ [Piped; Parent; Child])
  | BACK c => wires c fds (h ++ [Child])
  end.

(** Descriptors 0, 1 and 2 are open, and no others. *)
Definition std (fds : gmap Z desc) : Prop := ∀ i, is_Some (fds !! i) ↔ 0 ≤ i < 3.

Lemma std_insert fds i d : std fds → 0 ≤ i < 3 → std (<[i := d]> fds).
Proof.
  intros Hs Hi j. destruct (decide (j = i)) as [->|Hne]; [rewrite lookup_insert_eq; by split|].
  rewrite lookup_insert_ne by done. apply Hs.
Qed.

Lemma std_some fds i : std fds → 0 ≤ i < 3 → ∃ d, fds !! i = Some d.
Proof. intros Hs Hi. by apply Hs in Hi as [d ?]; exists d. Qed.

Lemma std_none fds i : std fds → 3 ≤ i → fds !! i = None.
Proof. intros Hs Hi. destruct (fds !! i) eqn:E; [|done]. assert (0 ≤ i < 3) by (apply Hs; by rewrite E). lia. Qed.

Lemma run_writes {A} (f : () → prog A) w k : run_on sh_kernel (writes w ≫= f) k = run_on sh_kernel (f ()) k.
Proof. induction w as [|[fd b] w IH]; [done|]. destruct k as [fds h o e]. exact IH. Qed.

Lemma run_fprintf {A} fd fmt args (f : () → prog A) k : run_on sh_kernel (fprintf fd fmt args ≫= f) k = run_on sh_kernel (f ()) k.
Proof. apply run_writes. Qed.

Lemma run_panic {A} m k : run_on sh_kernel (panic m : prog A) k = (Exited_with 1, k).
Proof. unfold panic. by rewrite run_fprintf. Qed.

Lemma run_exit {S A B} kernel (p : prog A) (f : A → prog B) (s : S) n s' :
  run_on kernel p s = (Exited_with n, s') → run_on kernel (p ≫= f) s = (Exited_with n, s').
Proof.
  revert s. induction p as [a|c k IH|m|]; intros s; cbn; [done| |by intros [= -> ->]|done].
  destruct (kernel c s) as [r s1]. apply IH.
Qed.

Lemma run_fork1 (f : Z → prog ()) fds h o e : run_on sh_kernel (fork1 ≫= f) (mk_sk fds h o e) =
  match default None (head o) with
  | Some true => run_on sh_kernel (f 0) (mk_sk fds (h ++ [Child]) (tail o) e)
  | Some false => run_on sh_kernel (f 7) (mk_sk fds (h ++ [Parent]) (tail o) e)
  | None => (Exited_with 1, mk_sk fds h (tail o) e)
  end.
Proof.
  destruct (default None (head o)) as [b|] eqn:Eo.
  - rewrite (run_on_bind _ _ _ _ (if b then 0 else 7) (mk_sk fds (h ++ [if b then Child else Parent]) (tail o) e)); [by destruct b|].
    unfold fork1. cbn [callv mbind prog_bind run_on sh_kernel]. rewrite Eo. by destruct b.
  - apply run_exit. unfold fork1. cbn [callv mbind prog_bind run_on sh_kernel]. rewrite Eo. cbn [rv].
    change (-1 =? -1) with true. apply run_panic.
Qed.

Lemma find_first (p : Z → bool) k : ∀ a n, (k < n)%nat → (∀ i, (a ≤ i < a + k)%nat → p (Z.of_nat i) = false) → p (Z.of_nat (a + k)) = true →
  List.find p (map Z.of_nat (seq a n)) = Some (Z.of_nat (a + k)).
Proof.
  induction k as [|k IH]; intros a [|n] Hn Hlow Hk; try lia; cbn [seq map List.find].
  - rewrite Nat.add_0_r in *. by rewrite Hk.
  - rewrite (Hlow a) by lia. rewrite (IH (S a) n); [do 2 f_equal; lia|lia|intros; apply Hlow; lia|]. by replace (S a + k)%nat with (a + S k)%nat by lia.
Qed.

Lemma alloc_is fds (n : nat) : (n < NOFILE)%nat → (∀ i, 0 ≤ i < Z.of_nat n → is_Some (fds !! i)) → fds !! Z.of_nat n = None → fd_alloc fds = Some (Z.of_nat n).
Proof.
  intros Hn Hs Hf. unfold fd_alloc. apply (find_first _ n 0%nat); [done| |].
  - intros i Hi. destruct (Hs (Z.of_nat i)) as [d Hd]; [lia|]. by rewrite Hd.
  - by rewrite Nat.add_0_l, Hf.
Qed.

Lemma alloc_std fds : std fds → fd_alloc fds = Some 3.
Proof. intros Hs. apply (alloc_is fds 3); [by vm_compute; lia|intros i Hi; apply Hs; lia|by apply std_none]. Qed.

Lemma alloc_closed fds i : std fds → i = 0 ∨ i = 1 → ∀ m : gmap Z desc, (∀ j, 0 ≤ j < 3 → j ≠ i → is_Some (m !! j)) → m !! i = None → fd_alloc m = Some i.
Proof.
  intros Hs [-> | ->] m Hm Hn.
  - by apply (alloc_is m 0); [vm_compute; lia|intros; lia|].
  - apply (alloc_is m 1); [vm_compute; lia| |done]. intros j Hj. apply Hm; lia.
Qed.

(** [close], and [open] or [dup]: the descriptor is replaced. *)
Lemma run_redirect (f : Z → prog ()) fds h o e file mode d : std fds → d = 0 ∨ d = 1 →
  run_on sh_kernel (_ ← call (U_close d); r ← callv (U_open file mode); f r) (mk_sk fds h o e) =
    match default None (head o) with
    | Some _ => run_on sh_kernel (f d) (mk_sk (<[d := File file mode]> fds) h (tail o) e)
    | None => run_on sh_kernel (f (-1)) (mk_sk (delete d fds) h (tail o) e)
    end.
Proof.
  intros Hs Hd. cbn [call callv mbind prog_bind run_on sh_kernel].
  rewrite (alloc_closed fds d Hs Hd (delete d fds)); [| |apply lookup_delete_eq].
  - destruct (default None (head o)); cbn [rv]; [|done]. by rewrite insert_delete_eq.
  - intros j Hj Hne. rewrite lookup_delete_ne by done. by apply Hs.
Qed.

(** The descriptors of a pipe, with the two ends at 3 and 4. *)
Definition piped (fds : gmap Z desc) (h : list step) : gmap Z desc := <[4 := PipeW h]> (<[3 := PipeR h]> fds).

Lemma run_pipe {A} (f : reply → prog A) fds h o e : std fds → default None (head o) ≠ None →
  ∃ r, run_on sh_kernel (call U_pipe ≫= f) (mk_sk fds h o e) = run_on sh_kernel (f r) (mk_sk (piped fds h) (h ++ [Piped]) (tail o) e) ∧
    rv r = 0 ∧ pipe_fds r = (3, 4).
Proof.
  intros Hs Ho. cbn [call mbind prog_bind run_on sh_kernel]. destruct (default None (head o)) as [b|]; [|done].
  rewrite alloc_std by done. assert (fd_alloc (<[3 := PipeR h]> fds) = Some 4) as ->.
  { apply (alloc_is _ 4); [vm_compute; lia| |].
    - intros i Hi. destruct (decide (i = 3)) as [->|]; [rewrite lookup_insert_eq; by eexists|]. rewrite lookup_insert_ne by done. apply Hs. lia.
    - rewrite lookup_insert_ne by done. by apply std_none. }
  eexists. split; [reflexivity|]. split; [done|]. by vm_compute.
Qed.

(** The child of a pipeline: [close(i); dup(end); close(p[0]); close(p[1])]. *)
Lemma run_side {A} (f : prog A) fds h h' o e i src d : std fds → (i = 0 ∨ i = 1) → piped fds h !! src = Some d → src = 3 ∨ src = 4 →
  run_on sh_kernel (_ ← call (U_close i); _ ← call (U_dup src); _ ← call (U_close 3); _ ← call (U_close 4); f) (mk_sk (piped fds h) h' o e) =
  run_on sh_kernel f (mk_sk (<[i := d]> fds) h' o e).
Proof.
  intros Hs Hi Hsrc Hv. cbn [call mbind prog_bind run_on sh_kernel]. rewrite lookup_delete_ne by lia. rewrite Hsrc.
  rewrite (alloc_closed fds i Hs Hi (delete i (piped fds h))); [| |apply lookup_delete_eq].
  - f_equal. f_equal. apply map_eq. intros j. assert (H3 := std_none fds 3 Hs ltac:(lia)). assert (H4 := std_none fds 4 Hs ltac:(lia)).
    destruct (decide (j = 4)) as [->|]; [rewrite lookup_delete_eq, lookup_insert_ne by lia; done|]. rewrite lookup_delete_ne by done.
    destruct (decide (j = 3)) as [->|]; [rewrite lookup_delete_eq, lookup_insert_ne by lia; done|]. rewrite lookup_delete_ne by done.
    destruct (decide (j = i)) as [->|]; [by rewrite !lookup_insert_eq|]. rewrite !lookup_insert_ne, lookup_delete_ne by done.
    unfold piped. by rewrite !lookup_insert_ne.
  - intros j Hj Hne. unfold piped. rewrite lookup_delete_ne, !lookup_insert_ne by lia. apply Hs. lia.
Qed.

Lemma ok_redir_fd f m d : ok_redir (f, m, d) → d = 0 ∨ d = 1.
Proof. intros [_ [[-> _]|[[-> _]|[-> _]]]]; auto. Qed.

Lemma kernel_pipe_fails fds h o e : default None (head o) = None → sh_kernel U_pipe (mk_sk fds h o e) = (mk_reply (-1) [], mk_sk fds h (tail o) e).
Proof. intros Ho. cbn [sh_kernel]. by rewrite Ho. Qed.

Lemma kernel_exec a argv fds h o e : sh_kernel (U_exec a argv) (mk_sk fds h o e) = (mk_reply (-1) [], mk_sk fds h o (e ++ [(argv, fds)])).
Proof. done. Qed.

Lemma kernel_wait fds h o e : sh_kernel U_wait (mk_sk fds h o e) = (mk_reply 0 [], mk_sk fds h o e).
Proof. done. Qed.

#[local] Opaque fork1 fprintf panic.

Lemma runcmd_redir c f m d fds h o e : ok_redir (f, m, d) → std fds →
  run_on sh_kernel (runcmd (REDIR c f m d)) (mk_sk fds h o e) =
    match default None (head o) with
    | Some _ => run_on sh_kernel (runcmd c) (mk_sk (<[d := File f m]> fds) h (tail o) e)
    | None => (Exited_with 1, mk_sk (delete d fds) h (tail o) e)
    end.
Proof.
  intros Hr Hs. pose proof (ok_redir_fd f m d Hr) as Hd. cbn [runcmd]. rewrite run_redirect by done. destruct (default None (head o)).
  - by destruct Hd as [-> | ->].
  - change (-1 <? 0) with true. cbv iota. by rewrite run_fprintf.
Qed.

Lemma runcmd_pipe l r fds h o e : std fds → ∃ fin,
  run_on sh_kernel (runcmd (PIPE l r)) (mk_sk fds h o e) =
    match default None (head o) with
    | None => (Exited_with 1, mk_sk fds h (tail o) e)
    | Some _ =>
        match default None (head (tail o)) with
        | None => (Exited_with 1, mk_sk (piped fds h) (h ++ [Piped]) (tail (tail o)) e)
        | Some true => run_on sh_kernel (runcmd l) (mk_sk (<[1 := PipeW h]> fds) (h ++ [Piped; Child]) (tail (tail o)) e)
        | Some false =>
            match default None (head (tail (tail o))) with
            | None => (Exited_with 1, mk_sk (piped fds h) (h ++ [Piped; Parent]) (tail (tail (tail o))) e)
            | Some true => run_on sh_kernel (runcmd r) (mk_sk (<[0 := PipeR h]> fds) (h ++ [Piped; Parent; Child]) (tail (tail (tail o))) e)
            | Some false => (Exited_with 0, mk_sk fin (h ++ [Piped; Parent; Parent]) (tail (tail (tail o))) e)
            end
        end
    end.
Proof.
  intros Hs. exists (delete 4 (delete 3 (piped fds h))). cbn [runcmd]. destruct (default None (head o)) as [b|] eqn:Eo.
  2: { erewrite run_call by (by apply kernel_pipe_fails). cbn [rv]. change (-1 <? 0) with true.
       cbv iota. apply run_panic. }
  destruct (run_pipe (λ r0, if rv r0 <? 0 then panic (bytes "pipe") else
     let '(p0, p1) := pipe_fds r0 in
     pid ← fork1;
     if pid =? 0 then
       _ ← call (U_close 1); _ ← call (U_dup p1); _ ← call (U_close p0); _ ← call (U_close p1); runcmd l
     else
       pid ← fork1;
       if pid =? 0 then
         _ ← call (U_close 0); _ ← call (U_dup p0); _ ← call (U_close p0); _ ← call (U_close p1); runcmd r
       else
         _ ← call (U_close p0); _ ← call (U_close p1); _ ← call U_wait; _ ← call U_wait; exit 0) fds h o e Hs) as (r0 & -> & Hr & Hp);
    [by rewrite Eo|]. rewrite Hr, Hp. change (0 <? 0) with false. cbv iota. rewrite run_fork1. cbn [tail].
  destruct (default None (head (tail o))) as [[]|]; [| |done].
  - change (0 =? 0) with true. cbv iota. rewrite (run_side _ fds h _ _ _ 1 4 (PipeW h)); [by rewrite <- app_assoc|done|by right|apply lookup_insert_eq|by right].
  - change (7 =? 0) with false. cbv iota. rewrite run_fork1. destruct (default None (head (tail (tail o)))) as [[]|].
    + change (0 =? 0) with true. cbv iota. rewrite (run_side _ fds h _ _ _ 0 3 (PipeR h)); [by rewrite <- !app_assoc|done|by left| |by left].
      unfold piped. rewrite lookup_insert_ne by lia. apply lookup_insert_eq.
    + change (7 =? 0) with false. cbv iota. rewrite <- !app_assoc. done.
    + by rewrite <- app_assoc.
Qed.

(** Every run ends, and executes only what the command means. *)
Lemma runcmd_sound c : ∀ fds h o e, ok_cmd c → std fds →
  ∃ st k l, run_on sh_kernel (runcmd c) (mk_sk fds h o e) = (Exited_with st, k) ∧ sk_execs k = e ++ l ∧ ∀ x, x ∈ l → x ∈ wires c fds h.
Proof.
  assert (Hnil : ∀ (x : list (list Z) * gmap Z desc) (ws : list _), x ∈ [] → x ∈ ws) by (intros x ws Hx; by apply not_elem_of_nil in Hx).
  assert (Hstop : ∀ c' fds h fds' h' o' st (e : list (list (list Z) * gmap Z desc)), ∃ st0 k l, (Exited_with (A := ()) st, mk_sk fds' h' o' e) = (Exited_with st0, k) ∧
    sk_execs k = e ++ l ∧ ∀ x, x ∈ l → x ∈ wires c' fds h) by (intros; eexists _, _, []; split_and!; [done|by rewrite app_nil_r|auto]).
  induction c as [argv|c IH f m d|l IHl r IHr|l IHl r IHr|c IH]; intros fds h o e Hok Hs.
  - destruct argv as [|a argv]; [apply Hstop|]. cbn [runcmd]. erewrite run_call by apply kernel_exec.
    rewrite run_fprintf. eexists _, _, _. split_and!; [reflexivity|reflexivity|]. by intros x Hx%list_elem_of_singleton; subst; left.
  - destruct Hok as [Hc Hr]. rewrite runcmd_redir by done. destruct (default None (head o)); [|apply Hstop].
    cbn [wires]. apply IH; [done|]. apply std_insert; [done|]. destruct (ok_redir_fd f m d Hr); lia.
  - destruct Hok as [Hl Hr]. destruct (runcmd_pipe l r fds h o e Hs) as (fin & ->). destruct (default None (head o)); [|apply Hstop].
    destruct (default None (head (tail o))) as [[]|]; [| |apply Hstop].
    + destruct (IHl (<[1 := PipeW h]> fds) (h ++ [Piped; Child]) (tail (tail o)) e Hl) as (st & k & x & -> & Hk & Hx); [by apply std_insert|].
      exists st, k, x. split_and!; [done|done|]. intros y Hy. cbn [wires]. apply elem_of_app. auto.
    + destruct (default None (head (tail (tail o)))) as [[]|]; [|apply Hstop|apply Hstop].
      destruct (IHr (<[0 := PipeR h]> fds) (h ++ [Piped; Parent; Child]) (tail (tail (tail o))) e Hr) as (st & k & x & -> & Hk & Hx); [by apply std_insert|].
      exists st, k, x. split_and!; [done|done|]. intros y Hy. cbn [wires]. apply elem_of_app. auto.
  - destruct Hok as [Hl Hr]. cbn [runcmd]. rewrite run_fork1. destruct (default None (head o)) as [[]|]; [| |apply Hstop].
    + change (0 =? 0) with true. cbv iota. destruct (IHl fds (h ++ [Child]) (tail o) e Hl Hs) as (st & k & x & -> & Hk & Hx).
      exists st, k, x. split_and!; [done|done|]. intros y Hy. cbn [wires]. apply elem_of_app. auto.
    + change (7 =? 0) with false. cbv iota. erewrite run_call by apply kernel_wait.
      destruct (IHr fds (h ++ [Parent]) (tail o) e Hr Hs) as (st & k & x & -> & Hk & Hx).
      exists st, k, x. split_and!; [done|done|]. intros y Hy. cbn [wires]. apply elem_of_app. auto.
  - cbn [runcmd]. rewrite run_fork1. destruct (default None (head o)) as [[]|]; [| |apply Hstop].
    + change (0 =? 0) with true. cbv iota. by apply IH.
    + apply Hstop.
Qed.

(** Every program the command means is executed in one of the processes. *)
Lemma runcmd_complete c : ∀ fds h x, ok_cmd c → std fds → x ∈ wires c fds h →
  ∃ o, ∀ e, x ∈ sk_execs (run_on sh_kernel (runcmd c) (mk_sk fds h o e)).2.
Proof.
  induction c as [argv|c IH f m d|l IHl r IHr|l IHl r IHr|c IH]; intros fds h x Hok Hs Hx; cbn [wires] in Hx.
  - destruct argv as [|a argv]; [by apply not_elem_of_nil in Hx|]. apply list_elem_of_singleton in Hx as ->. exists []. intros e.
    cbn [runcmd]. erewrite run_call by apply kernel_exec. rewrite run_fprintf. cbn [exit run_on snd sk_execs]. apply elem_of_app. right. by left.
  - destruct Hok as [Hc Hr]. destruct (IH (<[d := File f m]> fds) h x Hc) as (o & Ho); [|done|].
    { apply std_insert; [done|]. destruct (ok_redir_fd f m d Hr); lia. }
    exists (Some true :: o). intros e. rewrite runcmd_redir by done. apply Ho.
  - destruct Hok as [Hl Hr]. apply elem_of_app in Hx as [Hx|Hx].
    + destruct (IHl (<[1 := PipeW h]> fds) _ x Hl (std_insert _ 1 _ Hs ltac:(lia)) Hx) as (o & Ho). exists (Some true :: Some true :: o). intros e.
      destruct (runcmd_pipe l r fds h (Some true :: Some true :: o) e Hs) as (fin & ->). apply Ho.
    + destruct (IHr (<[0 := PipeR h]> fds) _ x Hr (std_insert _ 0 _ Hs ltac:(lia)) Hx) as (o & Ho). exists (Some true :: Some false :: Some true :: o). intros e.
      destruct (runcmd_pipe l r fds h (Some true :: Some false :: Some true :: o) e Hs) as (fin & ->). apply Ho.
  - destruct Hok as [Hl Hr]. apply elem_of_app in Hx as [Hx|Hx].
    + destruct (IHl fds _ x Hl Hs Hx) as (o & Ho). exists (Some true :: o). intros e. cbn [runcmd]. rewrite run_fork1. apply Ho.
    + destruct (IHr fds _ x Hr Hs Hx) as (o & Ho). exists (Some false :: o). intros e. cbn [runcmd]. rewrite run_fork1.
      cbn [head default from_option id tail]. change (7 =? 0) with false. cbv iota. erewrite run_call by apply kernel_wait. apply Ho.
  - destruct (IH fds _ x Hok Hs Hx) as (o & Ho). exists (Some true :: o). intros e. cbn [runcmd]. rewrite run_fork1. apply Ho.
Qed.

(** C33: The processes a command becomes execute exactly the programs it means, each
    on the right descriptors: [runcmd] never returns to its caller, a program with some
    descriptors is executed in one of the processes (for some outcome of the forks, with no
    failing call) if and only if [wires] lists it, and no failure of a call makes
    another program run or leaves a pipe end open in a child. *)
Theorem runcmd_wiring c fds : ok_cmd c → std fds →
  (∀ o, ∃ st k, run_on sh_kernel (runcmd c) (mk_sk fds [] o []) = (Exited_with st, k)) ∧
  ∀ argv fds', (∃ o, (argv, fds') ∈ sk_execs (run_on sh_kernel (runcmd c) (mk_sk fds [] o [])).2) ↔ (argv, fds') ∈ wires c fds [].
Proof.
  intros Hok Hs. split.
  - intros o. destruct (runcmd_sound c fds [] o [] Hok Hs) as (st & k & l & -> & _). by exists st, k.
  - intros argv fds'. split.
    + intros [o Ho]. destruct (runcmd_sound c fds [] o [] Hok Hs) as (st & k & l & E & Hk & Hl). rewrite E in Ho. cbn [snd] in Ho. apply Hl. by rewrite Hk in Ho.
    + intros Hx. destruct (runcmd_complete c fds [] _ Hok Hs Hx) as (o & Ho). by exists o.
Qed.

(** [a | b > f]: [a] writes to the pipe that [b] reads; [b] writes to the file. *)
Lemma runcmd_wiring_witness :
  let c := PIPE (EXEC [bytes "a"]) (REDIR (EXEC [bytes "b"]) (bytes "f") O_REPLACE 1) in
  let fds := <[0 := Console]> (<[1 := Console]> (<[2 := Console]> ∅)) in
  (∀ o, ∃ st k, run_on sh_kernel (runcmd c) (mk_sk fds [] o []) = (Exited_with st, k)) ∧
  ∃ o, ([bytes "b"], <[1 := File (bytes "f") O_REPLACE]> (<[0 := PipeR []]> fds)) ∈ sk_execs (run_on sh_kernel (runcmd c) (mk_sk fds [] o [])).2.
Proof.
  cbv zeta. edestruct runcmd_wiring as [H1 H2].
  3: { split; [exact H1|]. apply H2. cbn [wires app]. right. by left. }
  - assert (Hw : ∀ c, is_word c = true → c ≠ 0 → ok_word [c]) by (intros c H1 H2; split; [done|by repeat constructor]).
    cbn [ok_cmd ok_redir]. repeat match goal with
    | |- _ ∧ _ => split
    | |- Forall _ _ => constructor
    | |- ok_word _ => by apply Hw
    | |- (_ < _)%nat => vm_compute; lia
    | |- _ ∨ _ => auto
    end.
  - intros i. destruct (decide (i = 0)) as [->|]; [rewrite lookup_insert_eq; split; [lia|eauto]|]. rewrite lookup_insert_ne by done.
    destruct (decide (i = 1)) as [->|]; [rewrite lookup_insert_eq; split; [lia|eauto]|]. rewrite lookup_insert_ne by done.
    destruct (decide (i = 2)) as [->|]; [rewrite lookup_insert_eq; split; [lia|eauto]|]. rewrite lookup_insert_ne, lookup_empty by done.
    split; [by intros [? [=]]|lia].
Defined.
