(* ===== verification/Umalloc.v ===== *)
(** * user/umalloc.c: the Kernighan and Ritchie allocator

    The memory is a map from addresses to headers (the link and the size in units of
    [sizeof(Header)]); [sbrk] is what the kernel answers, given the break and the
    argument.  [heap_ok] describes the heap by its free blocks in address order and the
    blocks in use; [malloc_free_safe] says that blocks in use never overlap, and that no unit
    is lost. *)

From Stdlib Require Import Sorting.Sorted.
From S2P Require Import Prelude.

Local Open Scope Z_scope.

Definition sizeof_header : Z := 16.

Record header := mk_header { h_ptr : Z; h_size : Z }.
Record heap := mk_heap { hdr : gmap Z header; freep : Z; brk : Z }.

Definition set_ptr (a q : Z) (h : gmap Z header) : gmap Z header := alter (λ x, mk_header q (h_size x)) a h.
Definition set_size (a n : Z) (h : gmap Z header) : gmap Z header := alter (λ x, mk_header (h_ptr x) n) a h.
(** A header that was not there: what its link holds does not matter. *)
Definition new_size (a n : Z) (h : gmap Z header) : gmap Z header := <[a := mk_header (match h !! a with Some x => h_ptr x | None => 0 end) n]> h.
Definition ptr (h : gmap Z header) (a : Z) : Z := match h !! a with Some x => h_ptr x | None => 0 end.
Definition size (h : gmap Z header) (a : Z) : Z := match h !! a with Some x => h_size x | None => 0 end.
(** [p + n] on header pointers. *)
Definition at_unit (p n : Z) : Z := p + sizeof_header * n.

(** A block: its header's address and its size in units. *)
Notation block := (Z * Z)%type.

Section umalloc.
(** The address of [base], and [sbrk(n)] when the break is [b]. *)
Context (base : Z) (sbrk : Z → Z → option Z).

(** The place in the ring before [bp]. *)
Fixpoint find_place (n : nat) (h : gmap Z header) (bp p : Z) : option Z :=
  match n with
  | O => None
  | S n' =>
      let q := ptr h p in
      if (p <? bp) && (bp <? q) then Some p
      else if (q <=? p) && ((p <? bp) || (bp <? q)) then Some p
      else find_place n' h bp q
  end.

Definition free (n : nat) (ap : Z) (s : heap) : option heap :=
  let bp := ap - sizeof_header in
  p ← find_place n (hdr s) bp (freep s);
  let h := hdr s in
  let q := ptr h p in
  let h :=
    if at_unit bp (size h bp) =? q
    then set_ptr bp (ptr h q) (set_size bp (u32 (size h bp + size h q)) h)
    else set_ptr bp q h in
  let h :=
    if at_unit p (size h p) =? bp
    then set_ptr p (ptr h bp) (set_size p (u32 (size h p + size h bp)) h)
    else set_ptr p bp h in
  Some (mk_heap h p (brk s)).

(** The outer [None] is fuel, the inner the result 0. *)
Definition morecore (n : nat) (nu : Z) (s : heap) : option (option Z * heap) :=
  let nu := if nu <? 4096 then 4096 else nu in
  let len := s32 (nu * sizeof_header) in
  match sbrk (brk s) len with
  | None => Some (None, s)
  | Some hp =>
      s' ← free n (hp + sizeof_header) (mk_heap (new_size hp nu (hdr s)) (freep s) (hp + len));
      Some (Some (freep s'), s')
  end.

Fixpoint malloc_loop (n : nat) (nunits prevp p : Z) (s : heap) : option (Z * heap) :=
  match n with
  | O => None
  | S n' =>
      let h := hdr s in
      if nunits <=? size h p then
        if size h p =? nunits then Some (p + sizeof_header, mk_heap (set_ptr prevp (ptr h p) h) prevp (brk s))
        else
          let h := set_size p (u32 (size h p - nunits)) h in
          let r := at_unit p (size h p) in
          Some (r + sizeof_header, mk_heap (new_size r nunits h) prevp (brk s))
      else if p =? freep s then
        '(o, s) ← morecore n' nunits s;
        match o with
        | None => Some (0, s)
        | Some p => malloc_loop n' nunits p (ptr (hdr s) p) s
        end
      else malloc_loop n' nunits p (ptr h p) s
  end.

Definition units (nbytes : Z) : Z := u32 ((nbytes + sizeof_header - 1) / sizeof_header + 1).

Definition malloc (n : nat) (nbytes : Z) (s : heap) : option (Z * heap) :=
  let s := if freep s =? 0 then mk_heap (<[base := mk_header base 0]> (hdr s)) base (brk s) else s in
  malloc_loop n (units nbytes) (freep s) (ptr (hdr s) (freep s)) s.

(** ** The heap *)

Definition b_end (b : block) : Z := at_unit b.1 b.2.
Definition apart (b c : block) : Prop := b_end b ≤ c.1 ∨ b_end c ≤ b.1.

(** The blocks are linked in this order; the last one points to [z]. *)
Definition first (l : list block) (z : Z) : Z := match l with [] => z | b :: _ => b.1 end.
Fixpoint linked (h : gmap Z header) (l : list block) (z : Z) : Prop :=
  match l with
  | [] => True
  | b :: l' => h !! b.1 = Some (mk_header (first l' z) b.2) ∧ linked h l' z
  end.

(** In address order, between [lo] and [hi]. *)
Fixpoint ordered (lo : Z) (l : list block) (hi : Z) : Prop :=
  match l with
  | [] => lo ≤ hi
  | b :: l' => lo ≤ b.1 ∧ 1 ≤ b.2 ∧ ordered (b_end b) l' hi
  end.

Fixpoint all_apart (l : list block) : Prop :=
  match l with
  | [] => True
  | b :: l' => Forall (apart b) l' ∧ all_apart l'
  end.

Fixpoint total (l : list block) : Z := match l with [] => 0 | b :: l' => b.2 + total l' end.

(** [fl]: the free blocks; [used]: those in use; [brk0]: where the heap began. *)
Record heap_ok (brk0 : Z) (s : heap) (fl used : list block) : Prop := {
  hk_ring : linked (hdr s) ((base, 0) :: fl) base;
  hk_order : ordered brk0 fl (brk s);
  hk_freep : freep s ∈ ((base, 0) :: fl).*1;
  hk_used : Forall (λ b, size (hdr s) b.1 = b.2 ∧ is_Some (hdr s !! b.1) ∧ 1 ≤ b.2 ∧ brk0 ≤ b.1 ∧ b_end b ≤ brk s) used;
  hk_apart : all_apart (fl ++ used);
  hk_total : sizeof_header * total (fl ++ used) = brk s - brk0;
  hk_brk : base + sizeof_header ≤ brk0 ∧ brk s ≤ brk0 + 2 ^ 35;
}.
End umalloc.

(** ** Lists of blocks *)

Lemma b_end_eq b : b_end b = b.1 + 16 * b.2.
Proof. done. Qed.

Lemma first_app l1 l2 z : first (l1 ++ l2) z = first l1 (first l2 z).
Proof. by destruct l1. Qed.

Lemma linked_app h l1 l2 z : linked h (l1 ++ l2) z ↔ linked h l1 (first l2 z) ∧ linked h l2 z.
Proof. induction l1 as [|b l1 IH]; cbn [app linked]; [tauto|]. rewrite IH, first_app. tauto. Qed.

Lemma linked_frame h h' l z : (∀ b, b ∈ l → h' !! b.1 = h !! b.1) → linked h l z → linked h' l z.
Proof.
  induction l as [|b l IH]; [done|]. intros Hf [H1 H2]. split; [rewrite Hf by (by left); done|]. apply IH; [|done]. intros c Hc. apply Hf. by right.
Qed.

Lemma linked_insert h a x l z : (∀ b, b ∈ l → b.1 ≠ a) → linked h l z → linked (<[a := x]> h) l z.
Proof. intros Ha. apply linked_frame. intros b Hb. apply lookup_insert_ne. intros E. by apply (Ha b Hb). Qed.

Lemma linked_ptr h l1 b l2 z : linked h (l1 ++ b :: l2) z → h !! b.1 = Some (mk_header (first l2 z) b.2).
Proof. rewrite linked_app. cbn [linked]. tauto. Qed.

Lemma ordered_mono lo lo' l hi hi' : lo' ≤ lo → hi ≤ hi' → ordered lo l hi → ordered lo' l hi'.
Proof.
  revert lo lo'. induction l as [|b l IH]; intros lo lo' Hlo Hhi; cbn [ordered]; [lia|]. intros (H1 & H2 & H3). split_and!; [lia|done|]. by apply (IH (b_end b)).
Qed.

Lemma ordered_le lo l hi : ordered lo l hi → lo ≤ hi.
Proof. revert lo. induction l as [|b l IH]; intros lo; cbn [ordered]; [done|]. intros (H1 & H2 & H3%IH). rewrite b_end_eq in H3. lia. Qed.

Lemma ordered_app lo l1 l2 hi : ordered lo (l1 ++ l2) hi ↔ ∃ m, ordered lo l1 m ∧ ordered m l2 hi.
Proof.
  revert lo. induction l1 as [|b l1 IH]; intros lo; cbn [app ordered].
  - split; [intros H; exists lo; split; [lia|done]|]. intros (m & Hm & H). by apply (ordered_mono m lo l2 hi hi).
  - rewrite IH. split; [intros (H1 & H2 & m & H3 & H4); by exists m|intros (m & (H1 & H2 & H3) & H4); split_and!; [done|done|by exists m]].
Qed.

Lemma ordered_bounds lo l hi b : ordered lo l hi → b ∈ l → lo ≤ b.1 ∧ 1 ≤ b.2 ∧ b_end b ≤ hi.
Proof.
  revert lo. induction l as [|c l IH]; intros lo; [by intros _ ?%not_elem_of_nil|]. cbn [ordered]. intros (H1 & H2 & H3) [->|Hb]%elem_of_cons.
  - split_and!; [done|done|]. by apply ordered_le in H3.
  - destruct (IH _ H3 Hb) as (I1 & I2 & I3). rewrite b_end_eq in I1. split_and!; [lia|done|done].
Qed.

Lemma apart_sym b c : apart b c → apart c b.
Proof. unfold apart. tauto. Qed.

Lemma all_apart_perm l l' : l ≡ₚ l' → all_apart l → all_apart l'.
Proof.
  induction 1 as [|b l l' Hp IH|b c l|l l' l'' Hp1 IH1 Hp2 IH2]; cbn [all_apart]; [done| | |auto].
  - intros [H1 H2]. split; [by rewrite <- Hp|auto].
  - rewrite !Forall_cons. intros ((H1 & H2) & H3 & H4). split_and!; [by apply apart_sym|done|done|done].
Qed.

Lemma all_apart_app l1 l2 : all_apart (l1 ++ l2) ↔ all_apart l1 ∧ all_apart l2 ∧ ∀ b c, b ∈ l1 → c ∈ l2 → apart b c.
Proof.
  induction l1 as [|b l1 IH]; cbn [app all_apart].
  - split; [intros H; split_and!; [done|done|by intros b c ?%not_elem_of_nil]|tauto].
  - rewrite IH, Forall_app, (Forall_forall _ l2). split.
    + intros ((H1 & H2) & H3 & H4 & H5). split_and!; [done|done|done|]. intros x c [->|Hx]%elem_of_cons Hc; [by apply H2|by apply H5].
    + intros ((H1 & H2) & H3 & H4). split_and!; [done| |done|done|].
      * intros c Hc. apply H4; [by left|done].
      * intros x c Hx Hc. apply H4; [by right|done].
Qed.

Lemma ordered_apart lo l hi : ordered lo l hi → all_apart l.
Proof.
  revert lo. induction l as [|b l IH]; intros lo; cbn [ordered all_apart]; [done|]. intros (H1 & H2 & H3). split; [|by eapply IH].
  apply Forall_forall. intros c Hc. left. by destruct (ordered_bounds _ _ _ c H3 Hc) as (? & _).
Qed.

(** A block apart from an ordered list has a place in it. *)
Lemma place_exists lo l hi b : ordered lo l hi → 1 ≤ b.2 → Forall (apart b) l →
  ∃ l1 l2, l = l1 ++ l2 ∧ (∀ c, c ∈ l1 → b_end c ≤ b.1) ∧ ∀ c, c ∈ l2 → b_end b ≤ c.1.
Proof.
  revert lo. induction l as [|c l IH]; intros lo Ho Hb Ha.
  - exists [], []. split_and!; [done|by intros c ?%not_elem_of_nil|by intros c ?%not_elem_of_nil].
  - apply Forall_cons in Ha as [Hc Ha]. destruct Ho as (H1 & H2 & H3). destruct Hc as [Hc|Hc].
    + exists [], (c :: l). split_and!; [done|by intros x ?%not_elem_of_nil|]. intros x [->|Hx]%elem_of_cons; [done|].
      destruct (ordered_bounds _ _ _ x H3 Hx) as (Hx1 & _). rewrite b_end_eq in Hx1. lia.
    + destruct (IH _ H3 Hb Ha) as (l1 & l2 & -> & P1 & P2). exists (c :: l1), l2. split_and!; [done| |done].
      intros x [->|Hx]%elem_of_cons; [done|by apply P1].
Qed.

Lemma total_app l1 l2 : total (l1 ++ l2) = total l1 + total l2.
Proof. induction l1 as [|b l1 IH]; [done|]. cbn [app total]. lia. Qed.

Lemma total_perm l l' : l ≡ₚ l' → total l = total l'.
Proof. induction 1; cbn [total] in *; lia. Qed.

(** Disjoint blocks fit in the space they are in. *)
Lemma ordered_total lo l hi : ordered lo l hi → lo + 16 * total l ≤ hi.
Proof.
  revert lo. induction l as [|b l IH]; intros lo; cbn [ordered total]; [lia|]. intros (H1 & H2 & H3%IH). rewrite b_end_eq in H3.
  cbn [total]. lia.
Qed.

(** ** The ring *)

Definition below (b c : block) : Prop := b.1 < c.1.

Lemma ptr_at h a x : h !! a = Some x → ptr h a = h_ptr x.
Proof. unfold ptr. by intros ->. Qed.

Lemma size_at h a x : h !! a = Some x → size h a = h_size x.
Proof. unfold size. by intros ->. Qed.

Lemma ordered_sorted lo l hi : ordered lo l hi → StronglySorted below l.
Proof.
  revert lo. induction l as [|b l IH]; intros lo; cbn [ordered]; [constructor|]. intros (H1 & H2 & H3). constructor; [by eapply IH|].
  apply Forall_forall. intros c Hc. destruct (ordered_bounds _ _ _ c H3 Hc) as (H4 & _). rewrite b_end_eq in H4. unfold below. lia.
Qed.

Lemma sorted_app l1 l2 : StronglySorted below (l1 ++ l2) → StronglySorted below l2 ∧ ∀ b c, b ∈ l1 → c ∈ l2 → b.1 < c.1.
Proof.
  induction l1 as [|x l1 IH]; cbn [app]; [intros H; split; [done|by intros b c ?%not_elem_of_nil]|].
  intros [H1 H2]%StronglySorted_inv. destruct (IH H1) as [H3 H4]. split; [done|]. intros b c [->|Hb]%elem_of_cons Hc; [|by apply H4].
  rewrite Forall_app in H2. destruct H2 as [_ H2]. by apply (proj1 (Forall_forall _ _) H2 c).
Qed.

Section ring.
Context (base : Z) (Hbase : 0 < base).

Lemma ring_sorted fl hi : ordered (base + sizeof_header) fl hi → StronglySorted below ((base, 0) :: fl).
Proof.
  intros Ho. constructor; [by eapply ordered_sorted|]. apply Forall_forall. intros c Hc.
  destruct (ordered_bounds _ _ _ c Ho Hc) as (H1 & _). unfold below, sizeof_header in *. cbn. lia.
Qed.

(** The search from a block before the place. *)
Lemma find_before h bp p L2 M : ∀ n, linked h (M ++ p :: L2) base → StronglySorted below (M ++ p :: L2) →
  base < bp → base ≤ p.1 < bp → (∀ c, c ∈ L2 → bp < c.1) → (length M < n)%nat →
  find_place n h bp (first (M ++ p :: L2) base) = Some p.1.
Proof.
  induction M as [|x M IH]; intros [|n] Hl Hs Hb Hp Hc Hn; cbn [length] in Hn; try lia; cbn [app first find_place].
  - destruct Hl as [Hl _]. rewrite (ptr_at _ _ _ Hl). cbn [h_ptr]. rewrite (proj2 (Z.ltb_lt p.1 bp)) by lia. cbn [andb orb].
    destruct L2 as [|c L2]; cbn [first].
    + by rewrite (proj2 (Z.ltb_ge bp base)), (proj2 (Z.leb_le base p.1)) by lia.
    + by rewrite (proj2 (Z.ltb_lt bp c.1)) by (apply Hc; left).
  - destruct Hl as [Hl Hl2]. rewrite (ptr_at _ _ _ Hl). cbn [h_ptr].
    destruct (sorted_app [x] _ Hs) as [Hs2 Hx]. assert (Hy : first (M ++ p :: L2) base ≤ p.1 ∧ x.1 < first (M ++ p :: L2) base).
    { destruct M as [|y M]; cbn [app first]; (split; [|apply Hx; by left]); [lia|].
      destruct (sorted_app [y] _ Hs2) as [_ Hy]. assert (y.1 < p.1); [|lia]. apply Hy; [by left|apply elem_of_app; right; by left]. }
    rewrite (proj2 (Z.ltb_ge bp _)), andb_false_r, (proj2 (Z.leb_gt _ x.1)) by lia. cbn [andb]. apply IH; (done || lia).
Qed.

(** From a block after it, by way of [base]. *)
Lemma find_wrap h bp M : ∀ n, linked h M base → StronglySorted below M → base < bp → (∀ c, c ∈ M → bp < c.1) →
  find_place (length M + n) h bp (first M base) = find_place n h bp base.
Proof.
  induction M as [|x M IH]; intros n Hl Hs Hb Hc; [done|]. cbn [length Nat.add find_place first].
  destruct Hl as [Hl Hl2]. rewrite (ptr_at _ _ _ Hl). cbn [h_ptr]. assert (Hx : bp < x.1) by (apply Hc; left).
  rewrite (proj2 (Z.ltb_ge x.1 bp)) by lia. cbn [andb orb]. assert (((first M base <=? x.1) && (bp <? first M base)) = false) as ->.
  { destruct M as [|y M]; cbn [first].
    - by rewrite (proj2 (Z.ltb_ge bp base)), andb_false_r by lia.
    - destruct (sorted_app [x] _ Hs) as [_ Hy]. rewrite (proj2 (Z.leb_gt y.1 x.1)); [done|]. apply Hy; by left. }
  apply IH; [done|by destruct (sorted_app [x] _ Hs)|done|]. intros c Hin. apply Hc. by right.
Qed.

Lemma find_place_run h bp M p L2 n f : linked h (M ++ p :: L2) base → StronglySorted below (M ++ p :: L2) → first (M ++ p :: L2) base = base →
  base < bp → base ≤ p.1 < bp → (∀ c, c ∈ L2 → bp < c.1) → f ∈ (M ++ p :: L2).*1 → (2 * length (M ++ p :: L2) ≤ n)%nat →
  find_place n h bp f = Some p.1.
Proof.
  intros Hl Hs Hf Hb Hp Hc (x & -> & Hx)%list_elem_of_fmap Hn. rewrite length_app in Hn. cbn [length] in Hn.
  assert (Hcase : (∃ M1 M2, M = M1 ++ x :: M2) ∨ x = p ∨ ∃ X Y, L2 = X ++ x :: Y).
  { apply elem_of_app in Hx as [Hx|[->|Hx]%elem_of_cons]; [left; by apply list_elem_of_split|by right; left|right; right; by apply list_elem_of_split]. }
  destruct Hcase as [(M1 & M2 & ->)|[->|(X & Y & ->)]].
  - rewrite <- app_assoc in Hl, Hs. apply linked_app in Hl as [_ Hl]. apply sorted_app in Hs as [Hs _]. rewrite length_app in Hn. cbn [length] in Hn.
    apply (find_before h bp p L2 (x :: M2)); (done || cbn [length] in *; lia).
  - apply linked_app in Hl as [_ Hl]. apply sorted_app in Hs as [Hs _]. apply (find_before h bp p L2 []); (done || cbn [length] in *; lia).
  - rewrite length_app in Hn. cbn [length] in Hn. replace n with (length (x :: Y) + (n - length (x :: Y)))%nat by (cbn [length]; lia).
    change x.1 with (first (x :: Y) base). rewrite find_wrap.
    + rewrite <- Hf at 1. apply find_before; (done || cbn [length] in *; lia).
    + replace (M ++ p :: X ++ x :: Y) with ((M ++ p :: X) ++ x :: Y) in Hl by (by rewrite <- app_assoc). by apply linked_app in Hl as [_ Hl].
    + replace (M ++ p :: X ++ x :: Y) with ((M ++ p :: X) ++ x :: Y) in Hs by (by rewrite <- app_assoc). by apply sorted_app in Hs as [Hs _].
    + done.
    + intros c Hin. apply Hc, elem_of_app. by right.
Qed.

(** [free] on lists: the block joins its neighbours. *)
Definition join_right (b : block) (l : list block) : list block :=
  match l with c :: l' => if b_end b =? c.1 then (b.1, b.2 + c.2) :: l' else b :: l | [] => [b] end.
Definition join_left (p : block) (l : list block) : list block :=
  match l with b :: l' => if b_end p =? b.1 then (p.1, p.2 + b.2) :: l' else p :: l | [] => [p] end.

Lemma total_join_right b l : total (join_right b l) = b.2 + total l.
Proof. destruct l as [|c l]; cbn [join_right total]; [done|]. destruct (_ =? _); cbn [total snd]; lia. Qed.

Lemma total_join_left p l : total (join_left p l) = p.2 + total l.
Proof. destruct l as [|c l]; cbn [join_left total]; [done|]. destruct (_ =? _); cbn [total snd]; lia. Qed.

Lemma ordered_join_right lo b l hi : lo ≤ b.1 → 1 ≤ b.2 → ordered (b_end b) l hi → ordered lo (join_right b l) hi.
Proof.
  intros H1 H2 Ho. destruct l as [|c l]; cbn [join_right ordered] in *; [done|]. destruct Ho as (H3 & H4 & H5).
  destruct (Z.eqb_spec (b_end b) c.1) as [He|He]; cbn [ordered fst snd]; [|done]. split_and!; [done|lia|].
  apply (ordered_mono (b_end c) _ l hi hi); [|lia|done]. rewrite !b_end_eq in *. cbn [fst snd]. lia.
Qed.

Lemma ordered_join_left lo p l hi : lo ≤ p.1 → 1 ≤ p.2 → ordered (b_end p) l hi → ordered lo (join_left p l) hi.
Proof.
  intros H1 H2 Ho. destruct l as [|c l]; cbn [join_left ordered] in *; [done|]. destruct Ho as (H3 & H4 & H5).
  destruct (Z.eqb_spec (b_end p) c.1) as [He|He]; cbn [ordered fst snd]; [|done]. split_and!; [done|lia|].
  apply (ordered_mono (b_end c) _ l hi hi); [|lia|done]. rewrite !b_end_eq in *. cbn [fst snd]. lia.
Qed.

(** Two blocks side by side are apart from what each is apart from. *)
Lemma apart_join b c u : 1 ≤ b.2 → 1 ≤ c.2 → 1 ≤ u.2 → b_end b = c.1 → apart b u → apart c u → apart (b.1, b.2 + c.2) u.
Proof. unfold apart. rewrite !b_end_eq. cbn [fst snd]. lia. Qed.

Lemma apart_join_right u b l : 1 ≤ b.2 → 1 ≤ u.2 → Forall (λ c, 1 ≤ c.2) l → apart b u → Forall (λ c, apart c u) l → Forall (λ c, apart c u) (join_right b l).
Proof.
  intros H1 H2 H3 H4 H5. destruct l as [|c l]; cbn [join_right]; [by constructor|]. apply Forall_cons in H3 as [H3 _]. apply Forall_cons in H5 as [H5 H6].
  destruct (Z.eqb_spec (b_end b) c.1); constructor; try done; [by apply apart_join|by constructor].
Qed.

Lemma apart_join_left u p l : 1 ≤ p.2 → 1 ≤ u.2 → Forall (λ c, 1 ≤ c.2) l → apart p u → Forall (λ c, apart c u) l → Forall (λ c, apart c u) (join_left p l).
Proof. apply apart_join_right. Qed.

(** The first half of [free] on the memory: the freed block and what follows it. *)
Lemma link_right h b l : linked h l base → h !! b.1 = Some (mk_header (ptr h b.1) b.2) → base < b.1 →
  (∀ c, c ∈ l → b_end b ≤ c.1) → 1 ≤ b.2 → b.2 + total l < 2 ^ 32 → Forall (λ c, 1 ≤ c.2) l →
  let q := first l base in
  let h1 := if at_unit b.1 (size h b.1) =? q then set_ptr b.1 (ptr h q) (set_size b.1 (u32 (size h b.1 + size h q)) h) else set_ptr b.1 q h in
  linked h1 (join_right b l) base ∧ ∀ a, a ≠ b.1 → h1 !! a = h !! a.
Proof.
  intros Hl Hb Hbb Ho H1 Ht Hpos. cbn zeta. rewrite (size_at _ _ _ Hb). cbn [h_size]. change (at_unit b.1 b.2) with (b_end b).
  assert (Hna : ∀ c, c ∈ l → c.1 ≠ b.1) by (intros c Hc; pose proof (Ho c Hc) as E; rewrite b_end_eq in E; lia).
  split.
  2: { intros a Ha. destruct (_ =? _); unfold set_ptr, set_size; by rewrite !lookup_alter_ne. }
  destruct l as [|c l]; cbn [join_right first].
  - destruct (Z.eqb_spec (b_end b) base) as [He|He]; [rewrite b_end_eq in He; lia|]. split; [|done]. unfold set_ptr. by rewrite lookup_alter_eq, Hb.
  - destruct Hl as [Hc Hl]. apply Forall_cons in Hpos as [Hc1 Hpos]. destruct (Z.eqb_spec (b_end b) c.1) as [He|He].
    + rewrite (ptr_at _ _ _ Hc), (size_at _ _ _ Hc). cbn [h_ptr h_size].
      assert (0 ≤ total l). { clear -Hpos. induction Hpos; cbn [total]; lia. } cbn [total] in Ht.
      rewrite u32_id by (unfold is_u32; lia).
      split; [unfold set_ptr, set_size; by rewrite !lookup_alter_eq, Hb|]. apply (linked_frame h); [|done]. intros d Hd. unfold set_ptr, set_size.
      rewrite !lookup_alter_ne by (intros E; apply (Hna d); [by right|done]). done.
    + split; [unfold set_ptr; by rewrite lookup_alter_eq, Hb|]. apply (linked_frame h); [|done]. intros d Hd. unfold set_ptr.
      by rewrite lookup_alter_ne by (intros E; by apply (Hna d)).
Qed.

(** The second half: the block before the place. *)
Lemma link_left h p c l : linked h (c :: l) base → h !! p.1 = Some (mk_header (ptr h p.1) p.2) → p.1 < c.1 →
  (∀ d, d ∈ l → c.1 < d.1) → 0 ≤ p.2 → 0 ≤ c.2 → p.2 + c.2 < 2 ^ 32 →
  let h2 := if at_unit p.1 (size h p.1) =? c.1 then set_ptr p.1 (ptr h c.1) (set_size p.1 (u32 (size h p.1 + size h c.1)) h) else set_ptr p.1 c.1 h in
  linked h2 (join_left p (c :: l)) base ∧ ∀ a, a ≠ p.1 → h2 !! a = h !! a.
Proof.
  intros [Hc Hl] Hp Hpc Ho H1 H2 Ht. cbn zeta. rewrite (size_at _ _ _ Hp), (size_at _ _ _ Hc), (ptr_at _ _ _ Hc). cbn [h_ptr h_size].
  change (at_unit p.1 p.2) with (b_end p). split.
  2: { intros a Ha. destruct (_ =? _); unfold set_ptr, set_size; by rewrite !lookup_alter_ne. }
  cbn [join_left]. rewrite u32_id by (unfold is_u32; lia). destruct (Z.eqb_spec (b_end p) c.1) as [He|He].
  - split; [unfold set_ptr, set_size; by rewrite !lookup_alter_eq, Hp|]. apply (linked_frame h); [|done]. intros d Hd. unfold set_ptr, set_size.
    pose proof (Ho d Hd). by rewrite !lookup_alter_ne by lia.
  - split; [unfold set_ptr; by rewrite lookup_alter_eq, Hp|]. apply (linked_frame h); [|by split]. intros d Hd. unfold set_ptr.
    assert (c.1 ≤ d.1) by (apply elem_of_cons in Hd as [->|Hd]; [lia|specialize (Ho d Hd); lia]). by rewrite lookup_alter_ne by lia.
Qed.

(** [base] has no units: nothing joins it. *)
Lemma join_left_base c l : base < c.1 → join_left (base, 0) (c :: l) = (base, 0) :: c :: l.
Proof. intros H. cbn [join_left]. rewrite b_end_eq. cbn [fst snd]. by rewrite (proj2 (Z.eqb_neq _ _)) by lia. Qed.

Lemma join_right_length b l : (length (join_right b l) ≤ S (length l))%nat.
Proof. destruct l as [|c l]; cbn [join_right]; [done|]. destruct (_ =? _); cbn [length]; lia. Qed.

Lemma join_left_length p l : (length (join_left p l) ≤ S (length l))%nat.
Proof. apply join_right_length. Qed.

Lemma join_right_pos b l : 1 ≤ b.2 → Forall (λ c, 1 ≤ c.2) l → Forall (λ c, 1 ≤ c.2) (join_right b l).
Proof.
  intros Hb Hl. destruct l as [|c l]; cbn [join_right]; [by constructor|]. apply Forall_cons in Hl as [Hc Hl].
  destruct (_ =? _); constructor; (done || (cbn [snd]; lia) || by constructor).
Qed.

Lemma join_right_first b l : Forall (λ c, 1 ≤ c.2) l → ∃ m r, join_right b l = (b.1, m) :: r ∧ b.2 ≤ m.
Proof.
  intros Hp. destruct l as [|c l]; cbn [join_right]; [exists b.2, []; by destruct b|]. apply Forall_cons in Hp as [Hc _].
  destruct (_ =? _); [exists (b.2 + c.2), l; split; [done|lia]|exists b.2, (c :: l); by destruct b].
Qed.

Lemma ordered_pos lo l hi : ordered lo l hi → Forall (λ c, 1 ≤ c.2) l.
Proof. intros Ho. apply Forall_forall. intros c Hc. by destruct (ordered_bounds _ _ _ c Ho Hc) as (_ & ? & _). Qed.
End ring.

(** ** The operations keep the heap *)

Section alloc.
Context (base brk0 : Z) (Hbase : 0 < base).

Lemma ok_sorted s fl used : heap_ok base brk0 s fl used → StronglySorted below ((base, 0) :: fl).
Proof. intros H. apply (ring_sorted base fl (brk s)). pose proof (hk_brk _ _ _ _ _ H). apply (ordered_mono brk0 _ fl (brk s)); [lia|lia|apply H]. Qed.

Lemma total_pos l : Forall (λ c, 1 ≤ c.2) l → 0 ≤ total l.
Proof. induction 1; cbn [total]; lia. Qed.

Lemma used_pos s fl used : heap_ok base brk0 s fl used → Forall (λ c, 1 ≤ c.2) (fl ++ used).
Proof. intros H. apply Forall_app. split; [eapply ordered_pos, H|]. eapply Forall_impl; [apply H|]. by intros b (_ & _ & ? & _). Qed.

Lemma ok_total s fl used : heap_ok base brk0 s fl used → total (fl ++ used) < 2 ^ 32.
Proof. intros H. pose proof (hk_total _ _ _ _ _ H) as Ht. pose proof (hk_brk _ _ _ _ _ H). unfold sizeof_header in Ht. lia. Qed.

(** Blocks apart do not start at the same place. *)
Lemma apart_ne b c : 1 ≤ b.2 → 1 ≤ c.2 → apart b c → b.1 ≠ c.1.
Proof. unfold apart. rewrite !b_end_eq. lia. Qed.

(** What a change of the headers of free blocks leaves. *)
Lemma used_frame s h' used lo hi : (∀ u, u ∈ used → h' !! u.1 = hdr s !! u.1) →
  Forall (λ b, size (hdr s) b.1 = b.2 ∧ is_Some (hdr s !! b.1) ∧ 1 ≤ b.2 ∧ lo ≤ b.1 ∧ b_end b ≤ hi) used →
  Forall (λ b, size h' b.1 = b.2 ∧ is_Some (h' !! b.1) ∧ 1 ≤ b.2 ∧ lo ≤ b.1 ∧ b_end b ≤ hi) used.
Proof. rewrite !Forall_forall. intros Hf Hu u Hin. unfold size. rewrite Hf by done. by apply Hu. Qed.

(** The last block of a list that is not empty. *)
Lemma ring_last (fl : list block) : ∃ M p, (base, 0) :: fl = M ++ [p].
Proof. destruct (exists_last (l := (base, 0) :: fl)) as (M & p & ->); [done|]. by exists M, p. Qed.

(** The place of a block in the ring, and what [free] makes of the blocks there. *)
Definition freed (M : list block) (p b : block) (l2 : list block) : list block := M ++ join_left p (join_right b l2).

Lemma freed_ring M p b l1 l2 : (base, 0) :: l1 = M ++ [p] → base < b.1 → 1 ≤ b.2 → Forall (λ c, 1 ≤ c.2) (l1 ++ l2) →
  ∃ fl', freed M p b l2 = (base, 0) :: fl' ∧ (∀ lo hi, ordered lo l1 b.1 → lo ≤ b.1 → ordered (b_end b) l2 hi → ordered lo fl' hi) ∧
    total fl' = total l1 + b.2 + total l2 ∧ (∃ c, c ∈ fl' ∧ b.2 ≤ c.2) ∧ (length fl' ≤ S (length (l1 ++ l2)))%nat ∧
    (∀ u, 1 ≤ u.2 → apart b u → Forall (λ c, apart c u) (l1 ++ l2) → Forall (λ c, apart c u) fl').
Proof.
  intros Hm Hb Hb1 [Hp1 Hp2]%Forall_app. unfold freed. destruct (join_right_first b l2 Hp2) as (m & r & Hj & Hm2). destruct M as [|x M]; injection Hm as <- Hm.
  - destruct l1; [|done]. exists (join_right b l2). split; [rewrite Hj; by apply join_left_base|]. split_and!.
    + intros lo hi _ H1 H3. by apply ordered_join_right.
    + by rewrite total_join_right.
    + exists (b.1, m). rewrite Hj. split; [by left|done].
    + apply join_right_length.
    + intros u H2 H3 H4. by apply apart_join_right.
  - subst l1. exists (M ++ join_left p (join_right b l2)). split; [done|]. apply Forall_app in Hp1 as [_ Hp1]. apply Forall_cons in Hp1 as [Hp _]. split_and!.
    + intros lo hi (mid & H1 & H2 & H3 & H4)%ordered_app Hlo H5. cbn [ordered] in H4. apply ordered_app. exists mid. split; [done|]. apply ordered_join_left; [done|done|].
      by apply ordered_join_right.
    + rewrite !total_app, total_join_left, total_join_right. cbn [total]. lia.
    + rewrite Hj. cbn [join_left]. destruct (_ =? _).
      * exists (p.1, p.2 + m). split; [apply elem_of_app; right; by left|]. cbn [snd]. lia.
      * exists (b.1, m). split; [apply elem_of_app; right; right; by left|done].
    + pose proof (join_left_length p (join_right b l2)). pose proof (join_right_length b l2). rewrite !length_app. cbn [length] in *. lia.
    + intros u H2 H4 H5. rewrite !Forall_app, !Forall_cons in *. destruct H5 as ((H5 & H6 & _) & H7). split; [done|].
      apply apart_join_left; [done|done|by apply join_right_pos|done|by apply apart_join_right].
Qed.

Lemma ordered_upto lo l hi x : ordered lo l hi → lo ≤ x → (∀ c, c ∈ l → b_end c ≤ x) → ordered lo l x.
Proof.
  revert lo. induction l as [|c l IH]; intros lo; cbn [ordered]; [done|]. intros (H1 & H2 & H3) Hlo Hx. split_and!; [done|done|].
  apply IH; [done|apply Hx; by left|]. intros d Hd. apply Hx. by right.
Qed.

Lemma ordered_from lo l hi x : ordered lo l hi → x ≤ hi → (∀ c, c ∈ l → x ≤ c.1) → ordered x l hi.
Proof. destruct l as [|c l]; cbn [ordered]; [done|]. intros (H1 & H2 & H3) Hhi Hx. split_and!; [apply Hx; by left|done|done]. Qed.

(** The two halves together: the ring with [b] in it. *)
Lemma free_links s M p b l2 n : linked (hdr s) (M ++ p :: l2) base → StronglySorted below (M ++ p :: l2) → first (M ++ p :: l2) base = base →
  base < b.1 → base ≤ p.1 < b.1 → (∀ c, c ∈ l2 → b_end b ≤ c.1) → freep s ∈ (M ++ p :: l2).*1 → (2 * length (M ++ p :: l2) ≤ n)%nat →
  size (hdr s) b.1 = b.2 → is_Some (hdr s !! b.1) → 1 ≤ b.2 → 0 ≤ p.2 → Forall (λ c, 1 ≤ c.2) l2 → p.2 + b.2 + total l2 < 2 ^ 32 →
  ∃ h', free n (b.1 + sizeof_header) s = Some (mk_heap h' p.1 (brk s)) ∧ linked h' (freed M p b l2) base ∧ ∀ a, a ≠ b.1 → a ≠ p.1 → h' !! a = hdr s !! a.
Proof.
  intros Hl Hs Hf Hb Hp Hc Hin Hn Hsz [[pt sz] Hh] H1 H2 H3 Ht. rewrite (size_at _ _ _ Hh) in Hsz. cbn in Hsz. subst sz.
  unfold free. replace (b.1 + sizeof_header - sizeof_header) with b.1 by lia.
  rewrite (find_place_run base (hdr s) b.1 M p l2 n (freep s)); [|done..| |done|done].
  2: { intros c H. specialize (Hc c H). rewrite b_end_eq in Hc. lia. }
  cbn [mbind option_bind]. apply linked_app in Hl as [HM HL]. destruct HL as [HpH HL]. cbv zeta. rewrite (ptr_at _ _ _ HpH). cbn [h_ptr].
  destruct (link_right base (hdr s) b l2 HL) as [K1 K2]; [by rewrite (ptr_at _ _ _ Hh)|done|done|done|pose proof (total_pos l2 H3); lia|done|].
  match type of K1 with linked ?x _ _ => set (h1 := x) in * end. clearbody h1.
  destruct (join_right_first b l2 H3) as (m & r & Hj & Hm). rewrite Hj in K1.
  assert (Hr : ∀ d, d ∈ r → b.1 < d.1).
  { intros d Hd. destruct l2 as [|c l2]; cbn [join_right] in Hj; [injection Hj as _ <-; by apply elem_of_nil in Hd|].
    assert (d ∈ c :: l2) as Hd2. { destruct (_ =? _); injection Hj as _ <-; [by right|done]. } specialize (Hc d Hd2). rewrite b_end_eq in Hc. lia. }
  assert (Htot : m + total r = b.2 + total l2). { rewrite <- (total_join_right b l2), Hj. done. }
  assert (Hr0 : 0 ≤ total r). { apply total_pos. pose proof (join_right_pos b l2 H1 H3) as Hq. rewrite Hj in Hq. by apply Forall_cons in Hq as [_ ?]. }
  assert (HpH1 : h1 !! p.1 = Some (mk_header (ptr h1 p.1) p.2)). { unfold ptr. rewrite K2 by lia. by rewrite HpH. }
  destruct (link_left base h1 p (b.1, m) r K1 HpH1) as [K3 K4]; [cbn; lia|done|done|cbn; lia|cbn; lia|].
  cbn [fst] in K3, K4. match type of K3 with linked ?x _ _ => set (h2 := x) in * end. clearbody h2. exists h2. split; [done|]. split; [|intros a Ha Ha'; by rewrite K4, K2].
  unfold freed. apply linked_app. rewrite Hj. split; [|done]. apply (linked_frame (hdr s)).
  - intros x Hx. assert (x.1 < p.1). { apply (sorted_app M (p :: l2) Hs); [done|by left]. } rewrite K4 by lia. by rewrite K2 by lia.
  - replace (first (join_left p _) base) with p.1; [done|]. cbn [join_left]. by destruct (_ =? _).
Qed.

(** [free] of a block in use: the heap with the block among the free ones. *)
Lemma free_run s fl used b n : heap_ok base brk0 s fl (b :: used) → (2 * length fl + 2 ≤ n)%nat →
  ∃ s' fl', free n (b.1 + sizeof_header) s = Some s' ∧ heap_ok base brk0 s' fl' used ∧ brk s' = brk s ∧ total fl' = total fl + b.2 ∧ (length fl' ≤ S (length fl))%nat ∧ ∃ c, c ∈ fl' ∧ b.2 ≤ c.2.
Proof.
  intros H Hn. pose proof (ok_sorted _ _ _ H) as Hsort. pose proof (used_pos _ _ _ H) as Hpos. pose proof (ok_total _ _ _ H) as Htot.
  destruct H as [Hring Hord Hfp Hus Hap Ht Hbrk]. apply Forall_cons in Hus as [(Hsz & Hex & H1 & Hlo & Hhi) Hus].
  apply all_apart_app in Hap as (_ & Hap2 & Hcross). cbn [all_apart] in Hap2. destruct Hap2 as [Hbu Huu].
  destruct (place_exists brk0 fl (brk s) b) as (l1 & l2 & -> & P1 & P2); [done|done| |].
  { apply Forall_forall. intros c Hc. apply apart_sym, Hcross; [done|by left]. }
  destruct (ring_last l1) as (M & p & HM). assert (Hrw : (base, 0) :: l1 ++ l2 = M ++ p :: l2). { transitivity ((M ++ [p]) ++ l2); [by rewrite <- HM|by rewrite <- app_assoc]. }
  assert (Hpp : p = (base, 0) ∨ p ∈ l1). { assert (p ∈ (base, 0) :: l1) as [->|?]%elem_of_cons by (rewrite HM; apply elem_of_app; right; by left); auto. }
  unfold sizeof_header in Hbrk. rewrite !Forall_app, Forall_cons in Hpos. destruct Hpos as ((Hpos1 & Hpos2) & _ & Hposu).
  rewrite !total_app in Htot. cbn [total] in Htot. pose proof (total_pos _ Hpos1). pose proof (total_pos _ Hpos2). pose proof (total_pos _ Hposu).
  assert (Hp : base ≤ p.1 < b.1 ∧ 0 ≤ p.2 ≤ total l1).
  { destruct Hpp as [->|Hp]; [cbn; lia|]. pose proof (P1 p Hp) as E. rewrite b_end_eq in E. destruct (ordered_bounds _ _ _ p Hord ltac:(apply elem_of_app; by left)) as (E1 & E2 & _).
    split; [lia|]. apply list_elem_of_split in Hp as (X & Y & ->). rewrite total_app. cbn [total]. apply Forall_app in Hpos1 as [HX HY]. apply Forall_cons in HY as [_ HY].
    pose proof (total_pos _ HX). pose proof (total_pos _ HY). lia. }
  rewrite Hrw in Hring, Hsort, Hfp. assert (Hlen : (2 * length (M ++ p :: l2) ≤ n)%nat) by (rewrite <- Hrw; cbn [length]; lia).
  destruct (free_links s M p b l2 n) as (h' & Hrun & Hl' & Hf'); try done; try lia; [exact (eq_sym (f_equal (λ l : list block, first l base) Hrw))|].
  destruct (freed_ring M p b l1 l2 HM) as (fl' & Hfr & F1 & F2 & F3 & F5 & F4); [lia|done|by apply Forall_app|].
  exists (mk_heap h' p.1 (brk s)), fl'. split; [done|]. split; [|split; [done|split; [rewrite F2, total_app; lia|by split]]].
  assert (Hu : ∀ u, u ∈ used → 1 ≤ u.2 ∧ apart b u ∧ Forall (λ c, apart c u) (l1 ++ l2)).
  { intros u Hu. split_and!; [by apply (proj1 (Forall_forall _ _) Hposu)|by apply (proj1 (Forall_forall _ _) Hbu)|]. apply Forall_forall. intros c Hc. apply Hcross; [done|by right]. }
  assert (Hord' : ordered brk0 fl' (brk s)).
  { apply ordered_app in Hord as (mid & O1 & O2). apply F1; [|lia|].
    - by apply (ordered_upto _ _ mid).
    - by apply (ordered_from mid). }
  constructor; cbn [hdr freep brk].
  - by rewrite <- Hfr.
  - done.
  - rewrite <- Hfr. unfold freed. apply list_elem_of_fmap. cbn [join_left]. destruct (join_right b l2) as [|c r]; cbn [join_left].
    + exists p. split; [done|apply elem_of_app; right; by left].
    + destruct (_ =? _); eexists; (split; [|apply elem_of_app; right; by left]); done.
  - apply (used_frame s); [|done]. intros u Hin. destruct (Hu u Hin) as (U1 & U2 & U3). apply Hf'; [apply not_eq_sym, apart_ne; done|].
    destruct Hpp as [->|Hp2]; cbn [fst].
    + assert (brk0 ≤ u.1); [|lia]. by destruct (proj1 (Forall_forall _ _) Hus u Hin) as (_ & _ & _ & ? & _).
    + apply not_eq_sym, apart_ne; [by apply (proj1 (Forall_forall _ _) Hpos1)|done|]. apply (proj1 (Forall_forall _ _) U3). apply elem_of_app. by left.
  - apply all_apart_app. split_and!; [by eapply ordered_apart|done|]. intros c u Hc Hin. destruct (Hu u Hin) as (U1 & U2 & U3).
    by apply (proj1 (Forall_forall _ _) (F4 u U1 U2 U3)).
  - rewrite <- Ht, !total_app, F2. cbn [total]. lia.
  - unfold sizeof_header. lia.
Qed.

(** ** [malloc] *)

(** The walk along the blocks [L] after [x], none of them where it started. *)
Lemma scan_list sbrk s nunits z L : ∀ n x, linked (hdr s) (x :: L) z → Forall (λ b, b.1 ≠ freep s) L → (length L < n)%nat →
  (∃ L1 w y L2 m, x :: L = L1 ++ w :: y :: L2 ∧ nunits ≤ y.2 ∧ malloc_loop sbrk n nunits x.1 (first L z) s = malloc_loop sbrk (S m) nunits w.1 y.1 s) ∨
  (Forall (λ b, b.2 < nunits) L ∧ ∃ M w, x :: L = M ++ [w] ∧ malloc_loop sbrk n nunits x.1 (first L z) s = malloc_loop sbrk (n - length L) nunits w.1 z s).
Proof.
  induction L as [|y L IH]; intros n x Hl Hne Hn.
  - right. split; [done|]. exists [], x. split; [done|]. cbn. by rewrite Nat.sub_0_r.
  - apply Forall_cons in Hne as [Hy Hne]. destruct n as [|n]; [cbn in Hn; lia|]. destruct (decide (nunits ≤ y.2)) as [Hle|Hgt].
    + left. exists [], x, y, L, n. done.
    + cbn [linked] in Hl. destruct Hl as (_ & Hhy & Hl). assert (malloc_loop sbrk (S n) nunits x.1 (first (y :: L) z) s = malloc_loop sbrk n nunits y.1 (first L z) s) as ->.
      { cbn [malloc_loop first]. rewrite (size_at _ _ _ Hhy), (ptr_at _ _ _ Hhy). cbn [h_size h_ptr]. by rewrite (proj2 (Z.leb_gt _ _)), (proj2 (Z.eqb_neq _ _)) by (done || lia). }
      destruct (IH n y) as [(L1 & w & y' & L2 & m & H1 & H2 & H3)|(H1 & M & w & H2 & H3)]; [by split|done|cbn in Hn; lia|left|right].
      * exists (x :: L1), w, y', L2, m. split_and!; [cbn; by rewrite H1|done|done].
      * split; [constructor; [lia|done]|]. exists (x :: M), w. split; [cbn; by rewrite H2|]. cbn [length]. by rewrite H3.
Qed.

(** The walk around the ring from [freep]: it finds a block, or comes back to [freep]. *)
Lemma scan_ring sbrk s fl used nunits n : heap_ok base brk0 s fl used → 1 ≤ nunits → (length fl + 2 ≤ n)%nat →
  (∃ L1 w y L2 m, (base, 0) :: fl = L1 ++ w :: y :: L2 ∧ nunits ≤ y.2 ∧ malloc_loop sbrk n nunits (freep s) (ptr (hdr s) (freep s)) s = malloc_loop sbrk (S m) nunits w.1 y.1 s) ∨
  (Forall (λ b, b.2 < nunits) fl ∧ ∃ w m, (n ≤ m + length fl + 1)%nat ∧ size (hdr s) (freep s) < nunits ∧
     malloc_loop sbrk n nunits (freep s) (ptr (hdr s) (freep s)) s = malloc_loop sbrk (S m) nunits w (freep s) s).
Proof.
  intros H Hnu Hn. pose proof (ok_sorted _ _ _ H) as Hs. destruct H as [Hring _ (f & Hf & Hin)%list_elem_of_fmap _ _ _ _]. rewrite Hf.
  apply list_elem_of_split in Hin as (M & R & HMR). assert (Hlen : (length M + length R = length fl)%nat).
  { apply (f_equal length) in HMR. rewrite length_app in HMR. cbn [length] in HMR. lia. }
  rewrite HMR in Hring, Hs. destruct (sorted_app M (f :: R) Hs) as [HsR HM]. destruct (sorted_app [f] R HsR) as [_ HR].
  pose proof Hring as [_ Hl]%linked_app. assert (Hpf : ptr (hdr s) f.1 = first R base) by (destruct Hl as [Hl _]; by rewrite (ptr_at _ _ _ Hl)). rewrite Hpf.
  destruct (scan_list sbrk s nunits base R n f) as [(L1 & w & y & L2 & m & H1 & H2 & H3)|(H1 & M' & w & H2 & H3)]; [done| |lia| |].
  { apply Forall_forall. intros c Hc. rewrite Hf. assert (f.1 < c.1); [apply HR; [by left|done]|lia]. }
  { left. exists (M ++ L1), w, y, L2, m. split; [|done]. rewrite HMR, H1. by rewrite <- app_assoc. }
  rewrite H3. destruct (n - length R)%nat as [|m] eqn:Em; [lia|]. destruct M as [|x M]; injection HMR as <- HMR.
  { right. cbn [fst] in *. split; [by rewrite HMR|]. exists w.1, m. split; [lia|]. split; [|done]. destruct Hl as [Hl _]. cbn [fst] in Hl. rewrite (size_at _ _ _ Hl). cbn. lia. }
  assert (Hb : base < f.1) by (apply (HM (base, 0)); by left). cbn [app] in Hring. destruct Hring as [Hbh Hl2]. cbn [fst snd] in Hbh. 
  assert (malloc_loop sbrk (S m) nunits w.1 base s = malloc_loop sbrk m nunits base (first M f.1) s) as ->.
  { cbn [malloc_loop]. rewrite (size_at _ _ _ Hbh), (ptr_at _ _ _ Hbh), Hf, first_app. cbn [h_size h_ptr first]. by rewrite (proj2 (Z.leb_gt _ _)), (proj2 (Z.eqb_neq _ _)) by lia. }
  apply linked_app in Hl2 as [Hl2 _]. cbn [length] in Hlen. 
  destruct (scan_list sbrk s nunits f.1 M m (base, 0)) as [(L1 & y & y' & L2 & m' & K1 & K2 & K3)|(K1 & M2 & w' & K2 & K3)]; [split; [rewrite first_app in Hbh; exact Hbh|done]| |lia| |].
  { apply Forall_forall. intros c Hc. rewrite Hf. assert (c.1 < f.1); [apply HM; [by right|by left]|lia]. }
  { left. exists L1, y, y', (L2 ++ f :: R), m'. split; [|done]. rewrite HMR, app_comm_cons, K1. by rewrite <- app_assoc. }
  cbn [fst] in K3. rewrite K3. destruct (m - length M)%nat as [|m'] eqn:Em'; [lia|]. destruct Hl as [Hl _]. destruct (decide (nunits ≤ f.2)) as [Hle|Hgt].
  - left. exists M2, w', f, R, m'. split; [|done]. rewrite HMR, app_comm_cons, K2. by rewrite <- app_assoc.
  - right. split; [rewrite HMR; apply Forall_app; split; [done|by constructor; [lia|]]|]. exists w'.1, m'. split; [lia|]. split; [|done]. rewrite (size_at _ _ _ Hl). cbn. lia.
Qed.

Section take.
Context (s : heap) (fl used A L1 L2 : list block) (w y : block) (nunits : Z).
Hypothesis (Hok : heap_ok base brk0 s fl used) (Hfl : fl = A ++ y :: L2) (HA : (base, 0) :: A = L1 ++ [w]) (Hnu : 1 ≤ nunits).

Lemma take_ring : linked (hdr s) (L1 ++ w :: y :: L2) base ∧ StronglySorted below (L1 ++ w :: y :: L2).
Proof.
  assert ((base, 0) :: fl = L1 ++ w :: y :: L2) as <-. { rewrite Hfl. transitivity ((L1 ++ [w]) ++ y :: L2); [by rewrite <- HA|by rewrite <- app_assoc]. }
  split; [apply Hok|by eapply ok_sorted].
Qed.

Lemma take_ne : (∀ c, c ∈ L1 → c.1 ≠ w.1 ∧ c.1 ≠ y.1) ∧ w.1 ≠ y.1 ∧ ∀ c, c ∈ L2 → c.1 ≠ w.1 ∧ c.1 ≠ y.1.
Proof.
  destruct take_ring as [_ Hs]. destruct (sorted_app _ _ Hs) as [Hs2 H1]. destruct (sorted_app [w] _ Hs2) as [Hs3 H2]. destruct (sorted_app [y] _ Hs3) as [_ H3].
  assert (w.1 < y.1) by (apply H2; by left). split_and!; [|lia|].
  - intros c Hc. assert (c.1 < w.1) by (apply H1; [done|by left]). lia.
  - intros c Hc. assert (y.1 < c.1) by (apply H3; [by left|done]). lia.
Qed.

Lemma take_y : brk0 ≤ y.1 ∧ 1 ≤ y.2 ∧ b_end y ≤ brk s.
Proof. apply (ordered_bounds brk0 fl (brk s)); [apply Hok|]. rewrite Hfl. apply elem_of_app. right. by left. Qed.

(** The blocks in use start neither at [w] nor at [y]. *)
Lemma take_used u : u ∈ used → u.1 ≠ w.1 ∧ apart y u ∧ 1 ≤ u.2 ∧ brk0 ≤ u.1 ∧ b_end u ≤ brk s.
Proof.
  intros Hu. destruct Hok as [_ Hord _ Hus Hap _ Hbrk]. destruct (proj1 (Forall_forall _ _) Hus u Hu) as (_ & _ & U1 & U2 & U3).
  apply all_apart_app in Hap as (_ & _ & Hx). assert (Hy : apart y u). { apply Hx; [|done]. rewrite Hfl. apply elem_of_app. right. by left. }
  split_and!; [|done|done|done|done]. unfold sizeof_header in Hbrk. assert (Hw : w ∈ (base, 0) :: A) by (rewrite HA; apply elem_of_app; right; by left).
  apply elem_of_cons in Hw as [->|Hw]; [cbn; lia|]. assert (Hw2 : w ∈ fl) by (rewrite Hfl; apply elem_of_app; by left).
  apply not_eq_sym, apart_ne; [by destruct (ordered_bounds _ _ _ w Hord Hw2) as (_ & ? & _)|done|by apply Hx].
Qed.

(** Linking [w] past [y], or to what is left of it. *)
Lemma take_linked h' Y : (∀ c, c ∈ L1 ++ L2 → h' !! c.1 = hdr s !! c.1) → h' !! w.1 = Some (mk_header (first (Y ++ L2) base) w.2) →
  linked h' Y (first L2 base) → linked h' (L1 ++ w :: Y ++ L2) base.
Proof.
  intros Hf Hw HY. destruct take_ring as [Hr _]. apply linked_app in Hr as [Hr1 (_ & _ & Hr2)]. apply linked_app. split.
  - apply (linked_frame (hdr s)); [|done]. intros c Hc. apply Hf, elem_of_app. by left.
  - split; [done|]. apply linked_app. split; [done|]. apply (linked_frame (hdr s)); [|done]. intros c Hc. apply Hf, elem_of_app. by right.
Qed.

(** The heap with [y] in two: [Y] stays free, [b] is taken. *)
Lemma take_ok h' Y b : linked h' (L1 ++ w :: Y ++ L2) base → Forall (λ c, c = (y.1, y.2 - nunits) ∧ b.1 = b_end c ∧ 1 ≤ c.2) Y →
  total Y + b.2 = y.2 → b.2 = nunits → y.1 ≤ b.1 → b_end b = b_end y → h' !! b.1 = Some (mk_header (ptr h' b.1) b.2) →
  (length Y ≤ 1)%nat → (∀ u, u ∈ used → h' !! u.1 = hdr s !! u.1) →
  heap_ok base brk0 (mk_heap h' w.1 (brk s)) (A ++ Y ++ L2) (b :: used).
Proof.
  intros Hl HY Ht Hb Hyb Hbe Hh Hlen Hf. pose proof take_y as (Y1 & Y2 & Y3). pose proof Hok as [_ Hord _ Hus Hap Htot Hbrk].
  assert (Hperm : (A ++ Y ++ L2) ++ b :: used ≡ₚ Y ++ b :: (A ++ L2 ++ used)) by solve_Permutation.
  assert (Hperm2 : fl ++ used ≡ₚ y :: (A ++ L2 ++ used)) by (rewrite Hfl; solve_Permutation).
  rewrite b_end_eq in Hbe. rewrite (b_end_eq y) in Hbe.
  constructor; cbn [hdr freep brk].
  - replace ((base, 0) :: A ++ Y ++ L2) with (L1 ++ w :: Y ++ L2); [done|]. transitivity ((L1 ++ [w]) ++ Y ++ L2); [by rewrite <- app_assoc|by rewrite <- HA].
  - rewrite Hfl in Hord. apply ordered_app in Hord as (mid & O1 & O2 & O3 & O4). apply ordered_app. exists mid. split; [done|].
    destruct Y as [|y' [|? ?]]; cbn [app length] in *; [apply (ordered_mono (b_end y) _ L2 (brk s) (brk s)); rewrite ?b_end_eq; lia || done| |lia].
    apply Forall_cons in HY as [(-> & E1 & E2) _]. cbn [ordered fst snd] in *. split_and!; [done|done|].
    apply (ordered_mono (b_end y) _ L2 (brk s) (brk s)); [|lia|done]. rewrite !b_end_eq. cbn [fst snd]. lia.
  - apply list_elem_of_fmap. exists w. split; [done|]. change ((base, 0) :: A ++ Y ++ L2) with (((base, 0) :: A) ++ Y ++ L2). rewrite HA. apply elem_of_app. left. apply elem_of_app. right. by left.
  - constructor; [|by apply (used_frame s)]. unfold size. rewrite Hh. rewrite b_end_eq in *. cbn. split_and!; [done|by eexists|lia|lia|lia].
  - apply (all_apart_perm (Y ++ b :: (A ++ L2 ++ used))); [done|]. apply (all_apart_perm _ _ Hperm2) in Hap. cbn [all_apart] in Hap. destruct Hap as [Hy Hrest].
    apply all_apart_app. cbn [all_apart]. split; [|split; [split; [|done]|]].
    + destruct Y as [|? [|? ?]]; cbn in *; (done || lia || (split; [by constructor|done])).
    + eapply Forall_impl; [exact Hy|]. intros c. unfold apart. rewrite !b_end_eq. lia.
    + intros y' c Hy' Hc. destruct (proj1 (Forall_forall _ _) HY y' Hy') as (-> & E1 & E2). rewrite b_end_eq in E1. cbn [fst snd] in *. apply elem_of_cons in Hc as [->|Hc].
      * left. rewrite b_end_eq. cbn [fst snd]. lia.
      * pose proof (proj1 (Forall_forall _ _) Hy c Hc) as Hyc. unfold apart in *. rewrite !b_end_eq in *. cbn [fst snd]. lia.
  - rewrite (total_perm _ _ Hperm). rewrite (total_perm _ _ Hperm2) in Htot. cbn [total] in Htot. rewrite total_app. cbn [total]. lia.
  - done.
Qed.

Lemma take_out : (∀ c, c ∈ L1 ++ [w] → c.1 < y.1) ∧ ∀ c, c ∈ L2 → b_end y ≤ c.1.
Proof.
  split.
  - destruct take_ring as [_ Hs]. replace (L1 ++ w :: y :: L2) with ((L1 ++ [w]) ++ y :: L2) in Hs by (by rewrite <- app_assoc).
    intros c Hc. apply (sorted_app _ _ Hs); [done|by left].
  - pose proof (hk_order _ _ _ _ _ Hok) as Ho. rewrite Hfl in Ho. apply ordered_app in Ho as (mid & _ & _ & _ & Ho). intros c Hc.
    by destruct (ordered_bounds _ _ _ c Ho Hc).
Qed.

Lemma take_run sbrk m : nunits ≤ y.2 → ∃ b h' fl', malloc_loop sbrk (S m) nunits w.1 y.1 s = Some (b.1 + sizeof_header, mk_heap h' w.1 (brk s)) ∧ b.2 = nunits ∧
  heap_ok base brk0 (mk_heap h' w.1 (brk s)) fl' (b :: used).
Proof.
  intros Hle. destruct take_ring as [Hl _]. apply linked_app in Hl as [_ (Hw & Hy & _)]. destruct take_ne as (N1 & N2 & N3). destruct take_out as [O1 O2].
  pose proof take_y as (Y1 & Y2 & Y3). cbn [malloc_loop]. rewrite (size_at _ _ _ Hy), (ptr_at _ _ _ Hy). cbn [h_size h_ptr first] in *.
  rewrite (proj2 (Z.leb_le _ _)) by done. destruct (Z.eqb_spec y.2 nunits) as [He|He].
  - eexists y, _, _. split; [done|]. split; [done|]. apply (take_ok _ []); cbn [app total length]; try done.
    + apply (take_linked _ []); [|unfold set_ptr; by rewrite lookup_alter_eq, Hw|done]. intros c [Hc|Hc]%elem_of_app; unfold set_ptr; apply lookup_alter_ne, not_eq_sym; [by apply N1|by apply N3].
    + unfold set_ptr, ptr. rewrite lookup_alter_ne by done. by rewrite Hy.
    + lia.
    + intros u Hu. unfold set_ptr. apply lookup_alter_ne, not_eq_sym. by apply take_used.
  - pose proof (ok_total _ _ _ Hok) as Ht. rewrite Hfl, !total_app in Ht. cbn [total] in Ht. pose proof (used_pos _ _ _ Hok) as Hp. rewrite Hfl, !Forall_app, Forall_cons in Hp.
    destruct Hp as ((P1 & _ & P2) & P3). pose proof (total_pos _ P1). pose proof (total_pos _ P2). pose proof (total_pos _ P3).
    rewrite u32_id by (unfold is_u32; lia). set (hs := set_size y.1 (y.2 - nunits) (hdr s)).
    assert (Hsy : hs !! y.1 = Some (mk_header (first L2 base) (y.2 - nunits))) by (unfold hs, set_size; by rewrite lookup_alter_eq, Hy).
    rewrite (size_at _ _ _ Hsy). cbn [h_size]. set (b := (at_unit y.1 (y.2 - nunits), nunits)). change (at_unit y.1 (y.2 - nunits)) with b.1.
    assert (Hb : b.1 = y.1 + 16 * (y.2 - nunits)) by done. rewrite b_end_eq in O2.
    assert (Hf : ∀ c : block, c.1 ≠ y.1 → c.1 < y.1 ∨ y.1 + 16 * y.2 ≤ c.1 → new_size b.1 nunits hs !! c.1 = hdr s !! c.1).
    { intros c Hc Ho. unfold new_size, hs, set_size. rewrite lookup_insert_ne by lia. by apply lookup_alter_ne, not_eq_sym. }
    eexists b, _, _. split; [done|]. split; [done|]. apply (take_ok _ [(y.1, y.2 - nunits)]); try done.
    + apply take_linked.
      * intros c Hc. apply Hf; [apply elem_of_app in Hc as [Hc|Hc]; [by apply N1|by apply N3]|]. apply elem_of_app in Hc as [Hc|Hc]; [left; apply O1, elem_of_app; by left|right; by apply O2].
      * rewrite Hf; [done|done|left; apply O1, elem_of_app; right; by left].
      * split; [|done]. cbn [fst snd first]. unfold new_size. rewrite lookup_insert_ne by lia. done.
    + constructor; [|done]. split_and!; [done|done|cbn; lia].
    + cbn. lia.
    + lia.
    + rewrite !b_end_eq, Hb. change b.2 with nunits. lia.
    + unfold ptr, new_size. by rewrite lookup_insert_eq.
    + intros u Hu. destruct (take_used u Hu) as (U1 & U2 & U3 & _). apply Hf; [apply not_eq_sym, apart_ne; done|]. unfold apart in U2. rewrite !b_end_eq in U2. lia.
Qed.
End take.

Lemma ring_split fl L1 w y L2 : (base, 0) :: fl = L1 ++ w :: y :: L2 → ∃ A, fl = A ++ y :: L2 ∧ (base, 0) :: A = L1 ++ [w].
Proof. destruct L1 as [|x L1]; intros H; injection H as <- ->; [by exists []|]. exists (L1 ++ [w]). split; [by rewrite <- app_assoc|done]. Qed.

(** *** Fuel *)

Lemma find_place_mono n n' h bp p r : find_place n h bp p = Some r → (n ≤ n')%nat → find_place n' h bp p = Some r.
Proof.
  revert n' p. induction n as [|n IH]; intros [|n'] p H Hn; try done; [lia|]. cbn [find_place] in *. destruct (_ && _); [done|]. destruct (_ && _); [done|].
  apply IH; [done|lia].
Qed.

Lemma free_mono n n' ap s r : free n ap s = Some r → (n ≤ n')%nat → free n' ap s = Some r.
Proof. unfold free. intros (p & Hp & H)%bind_Some Hn. by rewrite (find_place_mono n n' _ _ _ p Hp Hn). Qed.

Lemma morecore_mono sbrk n n' nu s r : morecore sbrk n nu s = Some r → (n ≤ n')%nat → morecore sbrk n' nu s = Some r.
Proof. unfold morecore. destruct (sbrk _ _); [|done]. intros (s' & Hs & H)%bind_Some Hn. by rewrite (free_mono n n' _ _ s' Hs Hn). Qed.

Lemma malloc_loop_mono sbrk n n' nu q p s r : malloc_loop sbrk n nu q p s = Some r → (n ≤ n')%nat → malloc_loop sbrk n' nu q p s = Some r.
Proof.
  revert n' q p s. induction n as [|n IH]; intros [|n'] q p s H Hn; try done; [lia|]. cbn [malloc_loop] in *. destruct (_ <=? _); [done|].
  destruct (_ =? _); [|apply IH; [done|lia]]. apply bind_Some in H as ([o s'] & Hm & H). rewrite (morecore_mono sbrk n n' _ _ _ Hm) by lia. cbn.
  destruct o; [|done]. apply IH; [done|lia].
Qed.

Lemma malloc_mono sbrk n n' nb s r : malloc base sbrk n nb s = Some r → (n ≤ n')%nat → malloc base sbrk n' nb s = Some r.
Proof. apply malloc_loop_mono. Qed.

(** *** What [sbrk] promises: the new memory starts at the break, and there is a limit *)
Context (sbrk : Z → Z → option Z) (Hsbrk : ∀ b n hp, sbrk b n = Some hp → hp = b ∧ b + n ≤ brk0 + 2 ^ 35) (Hbrk0 : base + sizeof_header ≤ brk0).

(** Before the first [malloc] there is no ring. *)
Definition heap_inv (s : heap) (fl used : list (Z * Z)) : Prop :=
  heap_ok base brk0 s fl used ∨ (freep s = 0 ∧ fl = [] ∧ used = [] ∧ brk s = brk0).

(** The units [morecore] asks for. *)
Definition grow (nu : Z) : Z := if nu <? 4096 then 4096 else nu.

Lemma inv_sbrk s fl used len : heap_ok base brk0 s fl used → 1 ≤ len → brk s + 16 * len ≤ brk0 + 2 ^ 35 →
  heap_ok base brk0 (mk_heap (new_size (brk s) len (hdr s)) (freep s) (brk s + 16 * len)) fl ((brk s, len) :: used).
Proof.
  intros [Hring Hord Hfp Hus Hap Htot Hbrk] Hlen Hmax. unfold sizeof_header in *.
  assert (Hf : ∀ c : block, c.1 < brk s → new_size (brk s) len (hdr s) !! c.1 = hdr s !! c.1) by (intros c Hc; unfold new_size; by rewrite lookup_insert_ne by lia).
  assert (Hfl : ∀ c, c ∈ fl → b_end c ≤ brk s ∧ 1 ≤ c.2). { intros c Hc. by destruct (ordered_bounds _ _ _ c Hord Hc) as (_ & ? & ?). }
  pose proof (ordered_le _ _ _ Hord) as Hle.
  assert (Hbefore : Forall (apart (brk s, len)) (fl ++ used)).
  { apply Forall_forall. intros c [Hc|Hc]%elem_of_app; right; cbn; [by apply Hfl|]. by destruct (proj1 (Forall_forall _ _) Hus c Hc) as (_ & _ & _ & _ & ?). }
  constructor; cbn [hdr freep brk]; unfold sizeof_header.
  - apply (linked_frame (hdr s)); [|done]. intros c [->|Hc]%elem_of_cons; apply Hf; [cbn; lia|]. destruct (Hfl c Hc) as [E E2]. rewrite b_end_eq in E. lia.
  - apply (ordered_mono brk0 _ fl (brk s)); [lia|lia|done].
  - done.
  - constructor.
    + rewrite b_end_eq. unfold size, new_size. cbn [fst snd]. rewrite lookup_insert_eq. cbn. split_and!; [done|by eexists|done|lia|lia].
    + eapply Forall_impl; [apply (used_frame s (new_size (brk s) len (hdr s)) used brk0 (brk s)); [|done]|].
      * intros u Hu. apply Hf. destruct (proj1 (Forall_forall _ _) Hus u Hu) as (_ & _ & ? & _ & E). rewrite b_end_eq in E. lia.
      * intros u (U1 & U2 & U3 & U4 & U5). split_and!; [done|done|done|done|lia].
  - apply (all_apart_perm ((brk s, len) :: fl ++ used)); [solve_Permutation|]. by split.
  - rewrite total_app in *. cbn [total snd]. lia.
  - lia.
Qed.

(** *** [malloc] answers *)

Lemma malloc_first s : freep s = 0 → brk s = brk0 → heap_ok base brk0 (mk_heap (<[base := mk_header base 0]> (hdr s)) base (brk s)) [] [].
Proof.
  intros Hf Hb. constructor; cbn [hdr freep brk linked ordered all_apart total app]; [|lia|by left|done|done|lia|lia].
  split; [|done]. by rewrite lookup_insert_eq.
Qed.

Lemma malloc_found s fl used L1 w y L2 m nu : heap_ok base brk0 s fl used → 1 ≤ nu → (base, 0) :: fl = L1 ++ w :: y :: L2 → nu ≤ y.2 →
  ∃ b s' fl', malloc_loop sbrk (S m) nu w.1 y.1 s = Some (b.1 + sizeof_header, s') ∧ b.2 = nu ∧ heap_ok base brk0 s' fl' (b :: used).
Proof.
  intros H Hnu Hr Hle. destruct (ring_split fl L1 w y L2 Hr) as (A & Hfl & HA).
  destruct (take_run s fl used A L1 L2 w y nu H Hfl HA Hnu sbrk m Hle) as (b & h' & fl' & H1 & H2 & H3). eauto 10.
Qed.

Lemma malloc_answer s fl used nu n : heap_ok base brk0 s fl used → 1 ≤ nu → 16 * nu < 2 ^ 31 → (3 * length fl + 4 ≤ n)%nat →
  (∃ b s' fl', malloc_loop sbrk n nu (freep s) (ptr (hdr s) (freep s)) s = Some (b.1 + sizeof_header, s') ∧ b.2 = nu ∧ heap_ok base brk0 s' fl' (b :: used)) ∨
  (malloc_loop sbrk n nu (freep s) (ptr (hdr s) (freep s)) s = Some (0, s) ∧ Forall (λ b, b.2 < nu) fl ∧ sbrk (brk s) (16 * grow nu) = None).
Proof.
  intros H Hnu Hmax Hn. destruct (scan_ring sbrk s fl used nu n H Hnu) as [(L1 & w & y & L2 & m & H1 & H2 & H3)|(H1 & w & m & Hm & H2 & H3)]; [lia| |].
  { left. rewrite H3. by eapply malloc_found. }
  rewrite H3. cbn [malloc_loop]. rewrite (proj2 (Z.leb_gt _ _)) by done. rewrite Z.eqb_refl. unfold morecore.
  change (if nu <? 4096 then 4096 else nu) with (grow nu). assert (Hg : 4096 ≤ grow nu ∧ nu ≤ grow nu ∧ 16 * grow nu < 2 ^ 31) by (unfold grow; destruct (Z.ltb_spec nu 4096); lia).
  replace (s32 (grow nu * sizeof_header)) with (16 * grow nu) by (rewrite s32_id; unfold sizeof_header; lia).
  destruct (sbrk (brk s) (16 * grow nu)) as [hp|] eqn:Hs; [|by right]. left. destruct (Hsbrk _ _ _ Hs) as [-> Hlim].
  pose proof (inv_sbrk s fl used (grow nu) H ltac:(lia) Hlim) as Hi.
  destruct (free_run _ fl used (brk s, grow nu) m Hi) as (s' & fl2 & Hf & Hok & _ & _ & Hlen & c & Hc & Hcn); [lia|].
  cbn [fst snd] in Hf, Hcn. rewrite Hf. cbn [mbind option_bind].
  destruct (scan_ring sbrk s' fl2 used nu m Hok Hnu) as [(L1 & w' & y & L2 & m' & K1 & K2 & K3)|(K1 & _)]; [lia| |].
  - rewrite K3. by eapply malloc_found.
  - pose proof (proj1 (Forall_forall _ _) K1 c Hc) as K. cbn in K. lia.
Qed.

Lemma malloc_run s fl used nb n : heap_inv s fl used → 0 ≤ nb → 16 * units nb < 2 ^ 31 → 1 ≤ units nb → (3 * length fl + 4 ≤ n)%nat →
  (∃ b s' fl', malloc base sbrk n nb s = Some (b.1 + sizeof_header, s') ∧ b.2 = units nb ∧ heap_inv s' fl' (b :: used)) ∨
  (∃ s', malloc base sbrk n nb s = Some (0, s') ∧ heap_inv s' fl used ∧ Forall (λ b, b.2 < units nb) fl ∧ sbrk (brk s) (16 * grow (units nb)) = None).
Proof.
  intros H Hnb Hmax Hu Hn. unfold malloc. assert (∃ s1, (if freep s =? 0 then mk_heap (<[base := mk_header base 0]> (hdr s)) base (brk s) else s) = s1 ∧ brk s1 = brk s ∧ heap_ok base brk0 s1 fl used) as (s1 & -> & Hb & H1).
  { destruct H as [H|(H1 & -> & -> & H2)].
    - exists s. destruct (Z.eqb_spec (freep s) 0) as [E|E]; [|done]. exfalso. destruct H as [_ Hord (f & Hf & Hin)%list_elem_of_fmap _ _ _ _]. apply elem_of_cons in Hin as [->|Hin]; [cbn in *; lia|].
      destruct (ordered_bounds _ _ _ f Hord Hin) as (E2 & _). unfold sizeof_header in *. lia.
    - eexists. rewrite H1. cbn [Z.eqb]. split; [done|]. split; [done|]. by apply malloc_first. }
  destruct (malloc_answer s1 fl used (units nb) n H1 Hu Hmax Hn) as [(b & s' & fl' & K1 & K2 & K3)|(K1 & K2 & K3)]; [left|right].
  - exists b, s', fl'. split; [done|]. split; [done|]. by left.
  - exists s1. rewrite Hb in K3. split; [done|]. split; [by left|done].
Qed.
End alloc.

(** ** A program that uses the allocator *)

Section uses.
Context (base brk0 : Z) (sbrk : Z → Z → option Z).

(** What a program does: it allocates, frees a block it has, and writes inside the blocks it
    has. *)
Inductive step : heap * list (Z * Z) → heap * list (Z * Z) → Prop :=
  | step_malloc n nb s used r s' : 0 ≤ nb ≤ 2 ^ 31 - 32 → malloc base sbrk n nb s = Some (r, s') → r ≠ 0 →
      step (s, used) (s', (r - sizeof_header, units nb) :: used)
  | step_fail n nb s used s' : 0 ≤ nb ≤ 2 ^ 31 - 32 → malloc base sbrk n nb s = Some (0, s') → step (s, used) (s', used)
  | step_free n b used1 used2 s s' : free n (b.1 + sizeof_header) s = Some s' → step (s, used1 ++ b :: used2) (s', used1 ++ used2)
  | step_write h' s used : (∀ a, (∀ b, b ∈ used → ¬ (b.1 + sizeof_header ≤ a < b_end b)) → h' !! a = hdr s !! a) →
      step (s, used) (mk_heap h' (freep s) (brk s), used).

Lemma units_spec nb : 0 ≤ nb ≤ 2 ^ 31 - 32 → 1 ≤ units nb ∧ 16 * units nb < 2 ^ 31 ∧ nb ≤ 16 * (units nb - 1).
Proof.
  intros H. unfold units, sizeof_header. pose proof (Z.div_mod (nb + 16 - 1) 16 ltac:(lia)). pose proof (Z.mod_pos_bound (nb + 16 - 1) 16 ltac:(lia)).
  rewrite u32_id by (unfold is_u32; lia). lia.
Qed.

Context (Hbase : 0 < base) (Hbrk0 : base + sizeof_header ≤ brk0) (Hsbrk : ∀ b n hp, sbrk b n = Some hp → hp = b ∧ b + n ≤ brk0 + 2 ^ 35).

Lemma heap_ok_perm s fl used used' : used ≡ₚ used' → heap_ok base brk0 s fl used → heap_ok base brk0 s fl used'.
Proof.
  intros Hp [H1 H2 H3 H4 H5 H6 H7]. constructor; try done; [by rewrite <- Hp|by apply (all_apart_perm (fl ++ used)); [rewrite Hp|]|]. rewrite <- H6. f_equal. apply total_perm. by rewrite Hp.
Qed.

Lemma heap_ok_write s fl used h' : (∀ a, (∀ b, b ∈ used → ¬ (b.1 + sizeof_header ≤ a < b_end b)) → h' !! a = hdr s !! a) →
  heap_ok base brk0 s fl used → heap_ok base brk0 (mk_heap h' (freep s) (brk s)) fl used.
Proof.
  intros Hw H. pose proof (used_pos base brk0 s fl used H) as Hp. destruct H as [H1 H2 H3 H4 H5 H6 H7]. assert (Hf : ∀ c, c ∈ ((base, 0) :: fl) ++ used → h' !! c.1 = hdr s !! c.1).
  { intros c Hc. apply Hw. intros b Hb. destruct (proj1 (Forall_forall _ _) H4 b Hb) as (_ & _ & Hb1 & Hb2 & Hb3). rewrite b_end_eq. unfold sizeof_header in *.
    cbn [app] in Hc. apply elem_of_cons in Hc as [->|Hc]; [cbn; lia|]. pose proof (proj1 (Forall_forall _ _) Hp c Hc) as Hc1. cbn in Hc1.
    destruct (decide (c = b)) as [->|Hne]; [lia|]. assert (Hcb : apart c b).
    { assert (Hcb : b ∈ fl ++ used) by (apply elem_of_app; by right). apply list_elem_of_split in Hcb as (X & Y & HXY). rewrite HXY in Hc, H5.
      apply (all_apart_perm _ (b :: X ++ Y)) in H5; [|solve_Permutation]. apply apart_sym, (proj1 (Forall_forall _ _) (proj1 H5)). rewrite elem_of_app, elem_of_cons in *. tauto. }
    unfold apart in Hcb. rewrite !b_end_eq in Hcb. lia. }
  constructor; cbn [hdr freep brk]; try done.
  - apply (linked_frame (hdr s)); [|done]. intros c Hc. apply Hf, elem_of_app. by left.
  - apply (used_frame s); [|done]. intros c Hc. apply Hf, elem_of_app. by right.
Qed.

Lemma inv_step x y : step x y → (∃ fl, heap_inv base brk0 x.1 fl x.2) → ∃ fl, heap_inv base brk0 y.1 fl y.2.
Proof.
  intros [n nb s used r s' Hnb Hm Hr|n nb s used s' Hnb Hm|n b u1 u2 s s' Hf|h' s used Hw] [fl H]; cbn [fst snd] in *.
  - destruct (units_spec nb Hnb) as (U1 & U2 & _).
    destruct (malloc_run base brk0 Hbase sbrk Hsbrk Hbrk0 s fl used nb (max n (3 * length fl + 4)) H) as [(b & s2 & fl' & K1 & K2 & K3)|(s2 & K1 & _)]; try lia;
      rewrite (malloc_mono base sbrk n _ nb s _ Hm) in K1 by lia; [|congruence].
    injection K1 as -> ->. exists fl'. replace (b.1 + sizeof_header - sizeof_header) with b.1 by lia. rewrite <- K2. by destruct b.
  - destruct (units_spec nb Hnb) as (U1 & U2 & _).
    destruct (malloc_run base brk0 Hbase sbrk Hsbrk Hbrk0 s fl used nb (max n (3 * length fl + 4)) H) as [(b & s2 & fl' & K1 & K2 & K3)|(s2 & K1 & K2 & _)]; try lia;
      rewrite (malloc_mono base sbrk n _ nb s _ Hm) in K1 by lia; injection K1; intros; subst; [|by exists fl].
    exfalso. destruct K3 as [[_ _ _ K3 _ _ _]|(_ & _ & ? & _)]; [|done]. apply Forall_cons in K3 as [(_ & _ & _ & K3 & _) _]. unfold sizeof_header in *. lia.
  - destruct H as [H|(_ & _ & H & _)]; [|by destruct u1]. apply (heap_ok_perm _ _ _ (b :: u1 ++ u2)) in H; [|solve_Permutation].
    destruct (free_run base brk0 s fl (u1 ++ u2) b (max n (2 * length fl + 2)) H) as (s2 & fl' & K1 & K2 & _); [lia|].
    rewrite (free_mono n _ _ s _ Hf) in K1 by lia. injection K1 as ->. exists fl'. by left.
  - exists fl. destruct H as [H|H]; [left; by apply heap_ok_write|by right].
Qed.

Lemma inv_reach h0 y : rtc step (mk_heap h0 0 brk0, []) y → ∃ fl, heap_inv base brk0 y.1 fl y.2.
Proof.
  remember (mk_heap h0 0 brk0, []) as x eqn:E. intros H. assert (Hx : ∃ fl, heap_inv base brk0 x.1 fl x.2) by (exists []; subst; by right).
  clear E. induction H as [x|x y z Hs _ IH]; [done|]. by apply IH, (inv_step x).
Qed.

(** C35: whatever a program allocates, frees and writes inside its blocks, as long as each request
    is of at most 2^31 - 32 bytes ([step_malloc]) and it only frees blocks it has, the blocks it has
    are apart from each other, lie in the memory [sbrk] gave, and with the free blocks make
    up all of it: [free] loses nothing, and [malloc] never gives a unit twice.  A larger request
    breaks this, [malloc_4g] below. *)
Theorem malloc_blocks_apart h0 s used : rtc step (mk_heap h0 0 brk0, []) (s, used) →
  all_apart used ∧ Forall (λ b, 1 ≤ b.2 ∧ brk0 ≤ b.1 ∧ b_end b ≤ brk s) used ∧
  ∃ fl, all_apart (fl ++ used) ∧ 16 * total (fl ++ used) = brk s - brk0.
Proof.
  intros [fl H]%inv_reach. cbn [fst snd] in H. destruct H as [H|(_ & -> & -> & H)]; [|split_and!; [done|done|exists []; cbn; split; [done|lia]]].
  destruct H as [_ _ _ H4 H5 H6 _]. pose proof H5 as (_ & H7 & _)%all_apart_app. split_and!; [done| |by exists fl].
  eapply Forall_impl; [exact H4|]. by intros b (_ & _ & ? & ? & ?).
Qed.

(** C36: the walks around the ring end: for a request of at most 2^31 - 32 bytes [malloc] of a
    program's heap answers, with a block of at least the size asked for or, when [sbrk] refuses,
    with 0; [free] of a block the program has returns.  For nearly 4 GB the answer is neither
    ([malloc_4g]): the size is an [int] on its way to [sbrk]. *)
Theorem malloc_ends h0 s used nb : rtc step (mk_heap h0 0 brk0, []) (s, used) → 0 ≤ nb ≤ 2 ^ 31 - 32 →
  (∃ n r s', malloc base sbrk n nb s = Some (r, s') ∧
     (step (s, used) (s', (r - 16, units nb) :: used) ∧ nb ≤ 16 * (units nb - 1) ∨ r = 0 ∧ sbrk (brk s) (16 * grow (units nb)) = None)) ∧
  ∀ b, b ∈ used → ∃ n s', free n (b.1 + 16) s = Some s'.
Proof.
  intros [fl H]%inv_reach Hnb. cbn [fst snd] in *. destruct (units_spec nb Hnb) as (U1 & U2 & U3). split.
  - exists (3 * length fl + 4)%nat.
    destruct (malloc_run base brk0 Hbase sbrk Hsbrk Hbrk0 s fl used nb (3 * length fl + 4) H) as [(b & s' & fl' & K1 & K2 & K3)|(s' & K1 & _ & _ & K2)]; try lia; [|by exists 0, s'; auto].
    exists (b.1 + sizeof_header), s'. split; [done|]. left. split; [|done]. eapply step_malloc; [done|exact K1|].
    destruct K3 as [[_ _ _ K3 _ _ _]|(_ & _ & ? & _)]; [|done]. apply Forall_cons in K3 as [(_ & _ & _ & K3 & _) _]. unfold sizeof_header in *. lia.
  - intros b Hb. destruct H as [H|(_ & _ & -> & _)]; [|by apply elem_of_nil in Hb]. apply list_elem_of_split in Hb as (u1 & u2 & ->).
    apply (heap_ok_perm _ _ _ (b :: u1 ++ u2)) in H; [|solve_Permutation].
    destruct (free_run base brk0 s fl (u1 ++ u2) b (2 * length fl + 2) H) as (s2 & fl' & K1 & _); [lia|]. by exists (2 * length fl + 2)%nat, s2.
Qed.
End uses.

(** A kernel that gives up to 1 MB from address 4096 on. *)
Definition ex_sbrk (b n : Z) : option Z := if b + n <=? 4096 + 2 ^ 20 then Some b else None.

Lemma ex_sbrk_ok b n hp : ex_sbrk b n = Some hp → hp = b ∧ b + n ≤ 4096 + 2 ^ 35.
Proof. unfold ex_sbrk. destruct (Z.leb_spec (b + n) (4096 + 2 ^ 20)); [|done]. intros [= ->]. lia. Qed.

Definition ex_heap : heap := mk_heap ∅ 0 4096.

(** Two blocks from the end of the first 64 KB; then the first is freed. *)
Definition ex_heap2 : heap := default ex_heap (snd <$> malloc 16 ex_sbrk 20 100 ex_heap).
Definition ex_heap3 : heap := default ex_heap (snd <$> malloc 16 ex_sbrk 20 200 ex_heap2).
Definition ex_heap4 : heap := default ex_heap (free 20 69520 ex_heap3).

Lemma ex_steps : rtc (step 16 ex_sbrk) (ex_heap, []) (ex_heap3, [(69280, 14); (69504, 8)]).
Proof.
  eapply rtc_l; [apply (step_malloc 16 ex_sbrk 20 100 _ _ 69520 ex_heap2); [lia|vm_compute; reflexivity|lia]|].
  eapply rtc_l; [apply (step_malloc 16 ex_sbrk 20 200 _ _ 69296 ex_heap3); [lia|vm_compute; reflexivity|lia]|]. apply rtc_refl.
Qed.

Lemma ex_steps_free : rtc (step 16 ex_sbrk) (ex_heap, []) (ex_heap4, [(69280, 14)]).
Proof.
  eapply rtc_r; [apply ex_steps|]. apply (step_free 16 ex_sbrk 20 (69504, 8) [(69280, 14)] [] ex_heap3 ex_heap4). vm_compute. reflexivity.
Qed.

Lemma malloc_blocks_apart_witness : rtc (step 16 ex_sbrk) (ex_heap, []) (ex_heap4, [(69280, 14)]) ∧
  ∃ fl, all_apart (fl ++ [(69280, 14)]) ∧ 16 * total (fl ++ [(69280, 14)]) = brk ex_heap4 - 4096.
Proof.
  split; [apply ex_steps_free|]. apply (malloc_blocks_apart 16 4096 ex_sbrk eq_refl ltac:(done) ex_sbrk_ok ∅ ex_heap4 [(69280, 14)]). apply ex_steps_free.
Defined.

Lemma malloc_ends_witness : (∃ n r s', malloc 16 ex_sbrk n 300 ex_heap3 = Some (r, s') ∧
    (step 16 ex_sbrk (ex_heap3, [(69280, 14); (69504, 8)]) (s', [(r - 16, units 300); (69280, 14); (69504, 8)]) ∧ 300 ≤ 16 * (units 300 - 1) ∨
     r = 0 ∧ ex_sbrk (brk ex_heap3) (16 * grow (units 300)) = None)) ∧
  ∃ n s', free n 69520 ex_heap3 = Some s'.
Proof.
  destruct (malloc_ends 16 4096 ex_sbrk eq_refl ltac:(done) ex_sbrk_ok ∅ ex_heap3 _ 300 ex_steps) as [H1 H2]; [lia|].
  split; [exact H1|]. apply (H2 (69504, 8)). right. by left.
Defined.

(** Nearly 4 GB asked for: the argument of [sbrk] is an [int], and the caller gets a pointer
    to the end of 16 bytes. *)
Example malloc_4g : option_map (λ '(r, s), (r, brk s)) (malloc 16 ex_sbrk 20 0xFFFFFFFF ex_heap) = Some (4112, 4112).
Proof. vm_compute. reflexivity. Qed.
