(* ===== verification/Virtio.v ===== *)
(** * kernel/virtio_disk.c: the disk driver

    The driver's state ([vdisk]) holds the three queues it shares with the device, its own
    book-keeping and the fields of the buffers it touches.  What runs between taking and giving up
    [vdisk_lock] is one step; a process inside [virtio_disk_rw] is described by the head of
    its chain.  The device is a parameter that does what the virtio standard (section 5.2)
    lets it do ([fetch] and [complete]) as long as no request fails: on a failed one the interrupt
    handler panics ([failed_request_panics]).  [disk_is_atomic] says that each request is one
    transfer of one block, whatever the order in which the device works. *)

From stdpp Require Import functions.
From S2P Require Import Prelude Effect.

Local Open Scope Z_scope.

Definition NUM : nat := 8.
Definition BSIZE : Z := 1024.
Definition VRING_DESC_F_NEXT : Z := 1.
Definition VRING_DESC_F_WRITE : Z := 2.
Definition VIRTIO_BLK_T_IN : Z := 0.
Definition VIRTIO_BLK_T_OUT : Z := 1.

(** The addresses the driver gives the device. *)
Inductive dma := NullAddr | OpAddr (i : nat) | DataAddr (b : nat) | StatusAddr (i : nat).
Record virtq_desc := mk_desc { d_addr : dma; d_len : Z; d_flags : Z; d_next : nat }.
Record virtio_blk_req := mk_op { op_type : Z; op_reserved : Z; op_sector : Z }.
(** The fields of a [struct buf] that matter here. *)
Record vbuf := mk_vbuf { vb_blockno : Z; vb_disk : Z; vb_data : list Z }.
(** The channels of [sleep] and [wakeup]: [&disk.free[0]] and buffers. *)
Inductive chan := FreeChan | BufChan (b : nat).

Record vdisk := mk_vdisk {
  desc : nat → virtq_desc; avail_idx : Z; avail_ring : nat → nat; u_idx : Z; u_ring : nat → nat;
  dfree : nat → Z; used_idx : Z; info_b : nat → option nat; info_status : nat → Z; ops : nat → virtio_blk_req;
  bufs : nat → vbuf; wakes : list chan }.

Definition set_desc (f : nat → virtq_desc) (s : vdisk) := mk_vdisk f (avail_idx s) (avail_ring s) (u_idx s) (u_ring s) (dfree s) (used_idx s) (info_b s) (info_status s) (ops s) (bufs s) (wakes s).
Definition set_avail (i : Z) (r : nat → nat) (s : vdisk) := mk_vdisk (desc s) i r (u_idx s) (u_ring s) (dfree s) (used_idx s) (info_b s) (info_status s) (ops s) (bufs s) (wakes s).
Definition set_used (i : Z) (r : nat → nat) (s : vdisk) := mk_vdisk (desc s) (avail_idx s) (avail_ring s) i r (dfree s) (used_idx s) (info_b s) (info_status s) (ops s) (bufs s) (wakes s).
Definition set_free (f : nat → Z) (s : vdisk) := mk_vdisk (desc s) (avail_idx s) (avail_ring s) (u_idx s) (u_ring s) f (used_idx s) (info_b s) (info_status s) (ops s) (bufs s) (wakes s).
Definition set_used_idx (i : Z) (s : vdisk) := mk_vdisk (desc s) (avail_idx s) (avail_ring s) (u_idx s) (u_ring s) (dfree s) i (info_b s) (info_status s) (ops s) (bufs s) (wakes s).
Definition set_info_b (f : nat → option nat) (s : vdisk) := mk_vdisk (desc s) (avail_idx s) (avail_ring s) (u_idx s) (u_ring s) (dfree s) (used_idx s) f (info_status s) (ops s) (bufs s) (wakes s).
Definition set_status (f : nat → Z) (s : vdisk) := mk_vdisk (desc s) (avail_idx s) (avail_ring s) (u_idx s) (u_ring s) (dfree s) (used_idx s) (info_b s) f (ops s) (bufs s) (wakes s).
Definition set_ops (f : nat → virtio_blk_req) (s : vdisk) := mk_vdisk (desc s) (avail_idx s) (avail_ring s) (u_idx s) (u_ring s) (dfree s) (used_idx s) (info_b s) (info_status s) f (bufs s) (wakes s).
Definition set_bufs (f : nat → vbuf) (s : vdisk) := mk_vdisk (desc s) (avail_idx s) (avail_ring s) (u_idx s) (u_ring s) (dfree s) (used_idx s) (info_b s) (info_status s) (ops s) f (wakes s).
Definition add_wake (c : chan) (s : vdisk) := mk_vdisk (desc s) (avail_idx s) (avail_ring s) (u_idx s) (u_ring s) (dfree s) (used_idx s) (info_b s) (info_status s) (ops s) (bufs s) (wakes s ++ [c]).

Notation vm := (M vdisk).

(** A store to [disk.desc[i]]. *)
Definition put_desc (i : nat) (d : virtq_desc) : vm () := modify (λ s, set_desc (<[i := d]> (desc s)) s).
Definition put_disk (b : nat) (v : Z) : vm () := modify (λ s, set_bufs (<[b := mk_vbuf (vb_blockno (bufs s b)) v (vb_data (bufs s b))]> (bufs s)) s).
Definition vwakeup (c : chan) : vm () := modify (add_wake c).

(** ** Descriptors *)

Fixpoint alloc_desc_loop (n i : nat) : vm (option nat) :=
  match n with
  | O => mret None
  | S n' =>
      f ← gets (λ s, dfree s i);
      if negb (f =? 0) then modify (λ s, set_free (<[i := 0]> (dfree s)) s);; mret (Some i) else alloc_desc_loop n' (S i)
  end.

(** [None] is -1. *)
Definition alloc_desc : vm (option nat) := alloc_desc_loop NUM 0.

Definition free_desc (i : nat) : vm () :=
  if (NUM <=? i)%nat then panics
  else
    f ← gets (λ s, dfree s i);
    if negb (f =? 0) then panics
    else
      put_desc i (mk_desc NullAddr 0 0 0);;
      modify (λ s, set_free (<[i := 1]> (dfree s)) s);;
      vwakeup FreeChan.

(** A descriptor is freed at most once: [NUM] turns are enough. *)
Fixpoint free_chain_loop (n i : nat) : vm () :=
  match n with
  | O => undef
  | S n' =>
      flag ← gets (λ s, d_flags (desc s i));
      nxt ← gets (λ s, d_next (desc s i));
      free_desc i;;
      if negb (Z.land flag VRING_DESC_F_NEXT =? 0) then free_chain_loop n' nxt else mret ()
  end.
Definition free_chain (i : nat) : vm () := free_chain_loop (S NUM) i.

Fixpoint free_descs (l : list nat) : vm () := match l with [] => mret () | i :: l' => free_desc i;; free_descs l' end.

Fixpoint alloc3_loop (n : nat) (idx : list nat) : vm (option (list nat)) :=
  match n with
  | O => mret (Some idx)
  | S n' =>
      o ← alloc_desc;
      match o with
      | Some i => alloc3_loop n' (idx ++ [i])
      | None => free_descs idx;; mret None
      end
  end.
Definition alloc3_desc : vm (option (list nat)) := alloc3_loop 3 [].

(** ** [virtio_disk_rw]: from the lock to the first [sleep(b)] *)

Definition rw_submit (b : nat) (write : bool) (i0 i1 i2 : nat) : vm () :=
  sector ← gets (λ s, u32 (vb_blockno (bufs s b) * 2));
  modify (λ s, set_ops (<[i0 := mk_op (if write then VIRTIO_BLK_T_OUT else VIRTIO_BLK_T_IN) 0 sector]> (ops s)) s);;
  put_desc i0 (mk_desc (OpAddr i0) 16 VRING_DESC_F_NEXT i1);;
  put_desc i1 (mk_desc (DataAddr b) BSIZE (Z.lor (if write then 0 else VRING_DESC_F_WRITE) VRING_DESC_F_NEXT) i2);;
  modify (λ s, set_status (<[i0 := 0xff]> (info_status s)) s);;
  put_desc i2 (mk_desc (StatusAddr i0) 1 VRING_DESC_F_WRITE 0);;
  put_disk b 1;;
  modify (λ s, set_info_b (<[i0 := Some b]> (info_b s)) s);;
  modify (λ s, set_avail (avail_idx s) (<[Z.to_nat (avail_idx s mod Z.of_nat NUM) := i0]> (avail_ring s)) s);;
  modify (λ s, set_avail (u16 (avail_idx s + 1)) (avail_ring s) s).

(** The head of the chain, or [None]: no three descriptors are free, and the process sleeps
    on [&disk.free[0]]. *)
Definition rw_start (b : nat) (write : bool) : vm (option nat) :=
  o ← alloc3_desc;
  match o with
  | Some [i0; i1; i2] => rw_submit b write i0 i1 i2;; mret (Some i0)
  | Some _ => undef
  | None => mret None
  end.

(** After the last [sleep(b)]: [b->disk] is no longer 1. *)
Definition rw_finish (i0 : nat) : vm () :=
  modify (λ s, set_info_b (<[i0 := None]> (info_b s)) s);;
  free_chain i0.

(** ** [virtio_disk_intr] *)

Definition intr_one : vm () :=
  id ← gets (λ s, u_ring s (Z.to_nat (used_idx s mod Z.of_nat NUM)));
  if (NUM <=? id)%nat then undef
  else
    st ← gets (λ s, info_status s id);
    if negb (st =? 0) then panics
    else
      o ← gets (λ s, info_b s id);
      b ← deref o;
      put_disk b 0;;
      vwakeup (BufChan b);;
      modify (λ s, set_used_idx (u16 (used_idx s + 1)) s).

Fixpoint intr_loop (n : nat) : vm () :=
  match n with
  | O => undef
  | S n' =>
      c ← gets (λ s, negb (used_idx s =? u_idx s));
      if (c : bool) then intr_one;; intr_loop n' else mret ()
  end.

(** The turns of the loop: the entries the device has added. *)
Definition virtio_disk_intr : vm () := λ s, intr_loop (S (Z.to_nat (u16 (u_idx s - used_idx s)))) s.

(** ** [virtio_disk_init] *)

Definition VIRTIO_MMIO_MAGIC_VALUE : Z := 0x000.
Definition VIRTIO_MMIO_VERSION : Z := 0x004.
Definition VIRTIO_MMIO_DEVICE_ID : Z := 0x008.
Definition VIRTIO_MMIO_VENDOR_ID : Z := 0x00c.
Definition VIRTIO_MMIO_DEVICE_FEATURES : Z := 0x010.
Definition VIRTIO_MMIO_DRIVER_FEATURES : Z := 0x020.
Definition VIRTIO_MMIO_QUEUE_SEL : Z := 0x030.
Definition VIRTIO_MMIO_QUEUE_NUM_MAX : Z := 0x034.
Definition VIRTIO_MMIO_QUEUE_NUM : Z := 0x038.
Definition VIRTIO_MMIO_QUEUE_READY : Z := 0x044.
Definition VIRTIO_MMIO_STATUS : Z := 0x070.
Definition VIRTIO_MMIO_QUEUE_DESC_LOW : Z := 0x080.
Definition VIRTIO_MMIO_QUEUE_DESC_HIGH : Z := 0x084.
Definition VIRTIO_MMIO_DRIVER_DESC_LOW : Z := 0x090.
Definition VIRTIO_MMIO_DRIVER_DESC_HIGH : Z := 0x094.
Definition VIRTIO_MMIO_DEVICE_DESC_LOW : Z := 0x0a0.
Definition VIRTIO_MMIO_DEVICE_DESC_HIGH : Z := 0x0a4.
Definition VIRTIO_CONFIG_S_ACKNOWLEDGE : Z := 1.
Definition VIRTIO_CONFIG_S_DRIVER : Z := 2.
Definition VIRTIO_CONFIG_S_DRIVER_OK : Z := 4.
Definition VIRTIO_CONFIG_S_FEATURES_OK : Z := 8.
(** The bits the driver turns down: read-only, SCSI, write-back mode, several queues, any layout,
    event indices, indirect descriptors. *)
Definition refused_features : list Z := [5; 7; 11; 12; 27; 29; 28].

(** Queues zeroed, every descriptor free, nothing seen. *)
Definition disk0 (f : nat → vbuf) : vdisk :=
  mk_vdisk (λ _, mk_desc NullAddr 0 0 0) 0 (λ _, O) 0 (λ _, O) (λ i, if (i <? NUM)%nat then 1 else 0) 0 (λ _, None) (λ _, 0) (λ _, mk_op 0 0 0) f [].

Section init.
(** What a register reads as, after the stores so far. *)
Context (rd : list (Z * Z) → Z → Z).
Definition read_reg (r : Z) : M (list (Z * Z)) Z := gets (λ w, u32 (rd w r)).
Definition write_reg (r v : Z) : M (list (Z * Z)) () := modify (λ w, w ++ [(r, u32 v)]).
Definition write_regs (l : list (Z * Z)) : M (list (Z * Z)) () := modify (λ w, w ++ ((λ '(r, v), (r, u32 v)) <$> l)).

(** [kd], [ka] and [ku] are what the three calls of [kalloc] return. *)
Definition virtio_disk_init (kd ka ku : option Z) (f : nat → vbuf) : M (list (Z * Z)) vdisk :=
  magic ← read_reg VIRTIO_MMIO_MAGIC_VALUE;
  version ← read_reg VIRTIO_MMIO_VERSION;
  device_id ← read_reg VIRTIO_MMIO_DEVICE_ID;
  vendor ← read_reg VIRTIO_MMIO_VENDOR_ID;
  when (negb (magic =? 0x74726976) || negb (version =? 2) || negb (device_id =? 2) || negb (vendor =? 0x554d4551)) panics;;
  write_reg VIRTIO_MMIO_STATUS 0;;
  let status := VIRTIO_CONFIG_S_ACKNOWLEDGE in
  write_reg VIRTIO_MMIO_STATUS status;;
  let status := Z.lor status VIRTIO_CONFIG_S_DRIVER in
  write_reg VIRTIO_MMIO_STATUS status;;
  features ← read_reg VIRTIO_MMIO_DEVICE_FEATURES;
  write_reg VIRTIO_MMIO_DRIVER_FEATURES (foldl (λ x n, Z.land x (Z.lnot (Z.shiftl 1 n))) features refused_features);;
  write_reg VIRTIO_MMIO_STATUS (Z.lor status VIRTIO_CONFIG_S_FEATURES_OK);;
  status ← read_reg VIRTIO_MMIO_STATUS;
  when (Z.land status VIRTIO_CONFIG_S_FEATURES_OK =? 0) panics;;
  write_reg VIRTIO_MMIO_QUEUE_SEL 0;;
  ready ← read_reg VIRTIO_MMIO_QUEUE_READY;
  when (negb (ready =? 0)) panics;;
  max ← read_reg VIRTIO_MMIO_QUEUE_NUM_MAX;
  when (max =? 0) panics;;
  when (max <? Z.of_nat NUM) panics;;
  match kd, ka, ku with
  | Some d, Some a, Some u =>
      write_reg VIRTIO_MMIO_QUEUE_NUM (Z.of_nat NUM);;
      write_regs [(VIRTIO_MMIO_QUEUE_DESC_LOW, d); (VIRTIO_MMIO_QUEUE_DESC_HIGH, Z.shiftr d 32); (VIRTIO_MMIO_DRIVER_DESC_LOW, a); (VIRTIO_MMIO_DRIVER_DESC_HIGH, Z.shiftr a 32);
                  (VIRTIO_MMIO_DEVICE_DESC_LOW, u); (VIRTIO_MMIO_DEVICE_DESC_HIGH, Z.shiftr u 32)];;
      write_reg VIRTIO_MMIO_QUEUE_READY 1;;
      write_reg VIRTIO_MMIO_STATUS (Z.lor status VIRTIO_CONFIG_S_DRIVER_OK);;
      mret (disk0 f)
  | _, _, _ => panics
  end.
End init.

(** ** The device and the processes *)

Section system.
(** The medium: its contents, reading [len] bytes from a sector on, and writing bytes there. *)
Context {D : Type} (dev_read : D → Z → Z → list Z) (dev_write : D → Z → list Z → D).

(** The device's side: how far it has looked in the available ring, and the chains it works on. *)
Record vdev := mk_vdev { medium : D; seen : Z; busy : list nat }.

(** What the standard says a block device does with a chain: three descriptors, the request,
    the data and the status byte.  A chain that is not of this form has no result.  The request
    succeeds, with status 0: the standard's error statuses are outside the model. *)
Definition exec_chain (head : nat) (s : vdisk) (m : D) : option (vdisk * D) :=
  let d0 := desc s head in let d1 := desc s (d_next d0) in let d2 := desc s (d_next d1) in
  match d_addr d0, d_addr d1, d_addr d2 with
  | OpAddr i, DataAddr b, StatusAddr k =>
      let op := ops s i in
      guard (d_len d0 = 16 ∧ d_len d1 = BSIZE ∧ d_len d2 = 1);;
      guard (d_flags d0 = VRING_DESC_F_NEXT ∧ Z.land (d_flags d1) VRING_DESC_F_NEXT ≠ 0 ∧ d_flags d2 = VRING_DESC_F_WRITE);;
      let s' := set_status (<[k := 0]> (info_status s)) s in
      if op_type op =? VIRTIO_BLK_T_IN then
        guard (Z.land (d_flags d1) VRING_DESC_F_WRITE ≠ 0);;
        Some (set_bufs (<[b := mk_vbuf (vb_blockno (bufs s b)) (vb_disk (bufs s b)) (dev_read m (op_sector op) (d_len d1))]> (bufs s)) s', m)
      else
        guard (op_type op = VIRTIO_BLK_T_OUT ∧ Z.land (d_flags d1) VRING_DESC_F_WRITE = 0);;
        Some (s', dev_write m (op_sector op) (vb_data (bufs s b)))
  | _, _, _ => None
  end.

(** The driver, the device, and the processes inside [virtio_disk_rw]: by buffer, the head of
    the chain (the caller holds the buffer's lock, so there is one). *)
Record vsys := mk_vsys { drv : vdisk; dev : vdev; inside : nat → option nat }.

Inductive fetch : vsys → vsys → Prop :=
  | fetch_intro s m n l p : n ≠ avail_idx s →
      fetch (mk_vsys s (mk_vdev m n l) p) (mk_vsys s (mk_vdev m (u16 (n + 1)) (l ++ [avail_ring s (Z.to_nat (n mod Z.of_nat NUM))])) p).

(** Chains may complete in any order. *)
Inductive complete : vsys → vsys → Prop :=
  | complete_intro s m n l1 h l2 p s' m' : exec_chain h s m = Some (s', m') →
      complete (mk_vsys s (mk_vdev m n (l1 ++ h :: l2)) p)
        (mk_vsys (set_used (u16 (u_idx s' + 1)) (<[Z.to_nat (u_idx s' mod Z.of_nat NUM) := h]> (u_ring s')) s') (mk_vdev m' n (l1 ++ l2)) p).

(** The device itself, of which only this is known; in particular it reports no error. *)
Context (device : vsys → vsys → Prop) (device_spec : ∀ x y, device x y → fetch x y ∨ complete x y).

Inductive sstep : vsys → vsys → Prop :=
  | s_client s d p b bn data : p b = None →
      sstep (mk_vsys s d p) (mk_vsys (set_bufs (<[b := mk_vbuf bn (vb_disk (bufs s b)) data]> (bufs s)) s) d p)
  | s_start s d p b w i s' : p b = None → rw_start b w s = Done (Some i, s') → sstep (mk_vsys s d p) (mk_vsys s' d (<[b := Some i]> p))
  | s_full s d p b w s' : p b = None → rw_start b w s = Done (None, s') → sstep (mk_vsys s d p) (mk_vsys s' d p)
  | s_device x y : device x y → sstep x y
  | s_intr s d p s' : virtio_disk_intr s = Done ((), s') → sstep (mk_vsys s d p) (mk_vsys s' d p)
  | s_finish s d p b i s' : p b = Some i → vb_disk (bufs s b) ≠ 1 → rw_finish i s = Done ((), s') →
      sstep (mk_vsys s d p) (mk_vsys s' d (<[b := None]> p)).

(** ** The specification: a request is one transfer of a block *)

Inductive request := Todo (write : bool) | Over.
(** A buffer: its block number and contents, and the request on it. *)
Record abuf := mk_abuf { a_blockno : Z; a_data : list Z; a_req : option request }.
Record adisk := mk_adisk { a_medium : D; a_bufs : nat → abuf }.

Definition read_block (m : D) (blockno : Z) : list Z := dev_read m (u32 (blockno * 2)) BSIZE.
Definition write_block (m : D) (blockno : Z) (data : list Z) : D := dev_write m (u32 (blockno * 2)) data.

Inductive astep : adisk → adisk → Prop :=
  | a_client m f b bn data : a_req (f b) = None → astep (mk_adisk m f) (mk_adisk m (<[b := mk_abuf bn data None]> f))
  | a_start m f b w : a_req (f b) = None → astep (mk_adisk m f) (mk_adisk m (<[b := mk_abuf (a_blockno (f b)) (a_data (f b)) (Some (Todo w))]> f))
  | a_read m f b : a_req (f b) = Some (Todo false) →
      astep (mk_adisk m f) (mk_adisk m (<[b := mk_abuf (a_blockno (f b)) (read_block m (a_blockno (f b))) (Some Over)]> f))
  | a_write m f b : a_req (f b) = Some (Todo true) →
      astep (mk_adisk m f) (mk_adisk (write_block m (a_blockno (f b)) (a_data (f b))) (<[b := mk_abuf (a_blockno (f b)) (a_data (f b)) (Some Over)]> f))
  | a_return m f b : a_req (f b) = Some Over → astep (mk_adisk m f) (mk_adisk m (<[b := mk_abuf (a_blockno (f b)) (a_data (f b)) None]> f)).

(** The state of the driver that a state of the specification stands for: the same medium and buffers, and
    a process that may return only after its transfer. *)
Record shows (x : vsys) (a : adisk) : Prop := {
  sh_medium : a_medium a = medium (dev x);
  sh_buf : ∀ b, a_blockno (a_bufs a b) = vb_blockno (bufs (drv x) b) ∧ a_data (a_bufs a b) = vb_data (bufs (drv x) b);
  sh_idle : ∀ b, inside x b = None ↔ a_req (a_bufs a b) = None;
  sh_over : ∀ b, inside x b ≠ None → vb_disk (bufs (drv x) b) ≠ 1 → a_req (a_bufs a b) = Some Over;
}.

(** ** The requests in flight *)

Record req := mk_req { r_b : nat; r_w : bool; r_i0 : nat; r_i1 : nat; r_i2 : nat }.
Definition idxs (r : req) : list nat := [r_i0 r; r_i1 r; r_i2 r].
Definition held (l : list req) : list nat := l ≫= idxs.

Definition chain_ok (s : vdisk) (r : req) : Prop :=
  desc s (r_i0 r) = mk_desc (OpAddr (r_i0 r)) 16 VRING_DESC_F_NEXT (r_i1 r) ∧
  desc s (r_i1 r) = mk_desc (DataAddr (r_b r)) BSIZE (Z.lor (if r_w r then 0 else VRING_DESC_F_WRITE) VRING_DESC_F_NEXT) (r_i2 r) ∧
  desc s (r_i2 r) = mk_desc (StatusAddr (r_i0 r)) 1 VRING_DESC_F_WRITE 0 ∧
  ops s (r_i0 r) = mk_op (if r_w r then VIRTIO_BLK_T_OUT else VIRTIO_BLK_T_IN) 0 (u32 (vb_blockno (bufs s (r_b r)) * 2)) ∧
  info_b s (r_i0 r) = Some (r_b r).

(** The entries [i], ..., [i + n - 1] of a ring. *)
Definition window (ring : nat → nat) (i : Z) (n : nat) : list nat := (λ k : nat, ring (Z.to_nat ((i + Z.of_nat k) mod Z.of_nat NUM))) <$> seq 0 n.

(** The descriptors and buffers of the requests in flight are theirs alone. *)
Record vset (s : vdisk) (p : nat → option nat) (all : list req) : Prop := {
  vs_nodup : NoDup (held all);
  vs_bufs : NoDup (r_b <$> all);
  vs_free : ∀ i, (i < NUM)%nat → (dfree s i = 0 ↔ i ∈ held all);
  vs_lt : ∀ i, i ∈ held all → (i < NUM)%nat;
  vs_chain : Forall (chain_ok s) all;
  vs_inside : ∀ b i, p b = Some i ↔ ∃ r, r ∈ all ∧ r_b r = b ∧ r_i0 r = i;
}.

(** The requests the device has not fetched, those it works on, those it has put in the used ring and
    those [virtio_disk_intr] has seen. *)
Record vinv (x : vsys) (posted fetched used done : list req) : Prop := {
  vi_set : vset (drv x) (inside x) (posted ++ fetched ++ used ++ done);
  vi_todo : Forall (λ r, vb_disk (bufs (drv x) (r_b r)) = 1) (posted ++ fetched);
  vi_used : Forall (λ r, info_status (drv x) (r_i0 r) = 0 ∧ vb_disk (bufs (drv x) (r_b r)) = 1) used;
  vi_done : Forall (λ r, vb_disk (bufs (drv x) (r_b r)) = 0) done;
  vi_avail : avail_idx (drv x) = u16 (seen (dev x) + Z.of_nat (length posted)) ∧ window (avail_ring (drv x)) (seen (dev x)) (length posted) = r_i0 <$> posted;
  vi_busy : busy (dev x) = r_i0 <$> fetched;
  vi_uring : u_idx (drv x) = u16 (used_idx (drv x) + Z.of_nat (length used)) ∧ window (u_ring (drv x)) (used_idx (drv x)) (length used) = r_i0 <$> used;
  vi_range : 0 ≤ seen (dev x) < 2 ^ 16 ∧ 0 ≤ used_idx (drv x) < 2 ^ 16;
}.

(** The requests as the specification has them. *)
Record vsim (x : vsys) (a : adisk) (posted fetched used done : list req) : Prop := {
  vm_medium : a_medium a = medium (dev x);
  vm_buf : ∀ b, a_blockno (a_bufs a b) = vb_blockno (bufs (drv x) b) ∧ a_data (a_bufs a b) = vb_data (bufs (drv x) b);
  vm_todo : ∀ r, r ∈ posted ++ fetched → a_req (a_bufs a (r_b r)) = Some (Todo (r_w r));
  vm_over : ∀ r, r ∈ used ++ done → a_req (a_bufs a (r_b r)) = Some Over;
  vm_idle : ∀ b, inside x b = None → a_req (a_bufs a b) = None;
}.
End system.

(** ** Rings *)

Lemma u16_slot x : u16 x mod Z.of_nat NUM = x mod Z.of_nat NUM.
Proof. unfold u16. apply Z.mod_mod_divide. by exists 8192. Qed.

Lemma window_cons ring i n : window ring i (S n) = ring (Z.to_nat (i mod Z.of_nat NUM)) :: window ring (u16 (i + 1)) n.
Proof.
  unfold window. cbn [seq fmap list_fmap]. rewrite Z.add_0_r. f_equal. rewrite <- fmap_S_seq, <- list_fmap_compose. apply list_fmap_ext. intros k x _. cbn [compose].
  f_equal. f_equal. rewrite (Zplus_mod (u16 (i + 1))), u16_slot, <- Zplus_mod. f_equal. lia.
Qed.

Lemma window_push ring i n x : (n < NUM)%nat → window (<[Z.to_nat (u16 (i + Z.of_nat n) mod Z.of_nat NUM) := x]> ring) i (S n) = window ring i n ++ [x].
Proof.
  intros Hn. unfold window. rewrite seq_S, fmap_app, u16_slot. f_equal; [|cbn; by rewrite fn_lookup_insert].
  apply list_fmap_ext. intros k y Hk%lookup_seq. destruct Hk as [-> Hk]. apply fn_lookup_insert_ne. cbn [Nat.add]. intros E.
  assert (Hm : (i + Z.of_nat n) mod 8 = (i + Z.of_nat k) mod 8).
  { apply (f_equal Z.of_nat) in E. change (Z.of_nat NUM) with 8 in E. pose proof (Z.mod_pos_bound (i + Z.of_nat n) 8 ltac:(lia)). pose proof (Z.mod_pos_bound (i + Z.of_nat k) 8 ltac:(lia)). lia. }
  unfold NUM in Hn. pose proof (Z.div_mod (i + Z.of_nat n) 8 ltac:(lia)). pose proof (Z.div_mod (i + Z.of_nat k) 8 ltac:(lia)). lia.
Qed.

(** ** The set of requests *)

Lemma NoDup_key {A B} (f : A → B) l x y : NoDup (f <$> l) → x ∈ l → y ∈ l → f x = f y → x = y.
Proof.
  intros Hn (l1 & l2 & ->)%list_elem_of_split Hy E. rewrite fmap_app, fmap_cons in Hn. apply NoDup_app in Hn as (_ & H1 & [H2 _]%NoDup_cons).
  rewrite elem_of_app, elem_of_cons in Hy. destruct Hy as [Hy|[->|Hy]]; [|done|].
  - destruct (H1 (f y)); [by apply list_elem_of_fmap_2|]. rewrite E. by left.
  - destruct H2. rewrite E. by apply list_elem_of_fmap_2.
Qed.

Lemma held_app l1 l2 : held (l1 ++ l2) = held l1 ++ held l2.
Proof. apply bind_app. Qed.

Lemma held_in l r i : r ∈ l → i ∈ idxs r → i ∈ held l.
Proof. intros Hr Hi. apply list_elem_of_bind. by exists r. Qed.

Lemma held_length l : length (held l) = (3 * length l)%nat.
Proof. induction l as [|r l IH]; [done|]. cbn [held mbind list_bind] in *. rewrite length_app. fold (held l). cbn [idxs length]. lia. Qed.

(** A chain whose descriptors, request and buffer are as they were. *)
Lemma req_frame s s' r : (∀ i, i ∈ idxs r → desc s' i = desc s i ∧ ops s' i = ops s i ∧ info_b s' i = info_b s i) →
  vb_blockno (bufs s' (r_b r)) = vb_blockno (bufs s (r_b r)) → chain_ok s r → chain_ok s' r.
Proof.
  intros Hi Hb (C0 & C1 & C2 & C3 & C4). unfold chain_ok. destruct (Hi (r_i0 r)) as (-> & -> & ->); [by left|]. destruct (Hi (r_i1 r)) as (-> & _); [by right; left|].
  destruct (Hi (r_i2 r)) as (-> & _); [by right; right; left|]. by rewrite Hb.
Qed.

Section vset.
Context (p : nat → option nat).

Lemma vset_length s all : vset s p all → (length all ≤ 2)%nat.
Proof.
  intros H. assert (length (held all) ≤ length (seq 0 NUM))%nat as Hl.
  { apply submseteq_length, NoDup_submseteq; [apply H|]. intros i Hi. apply elem_of_seq. pose proof (vs_lt _ _ _ H i Hi). lia. }
  rewrite held_length, length_seq in Hl. unfold NUM in Hl. lia.
Qed.

Lemma vset_perm s all all' : all ≡ₚ all' → vset s p all → vset s p all'.
Proof.
  intros Hp [H1 H2 H3 H4 H5 H6]. assert (Hh : held all ≡ₚ held all') by (unfold held; by rewrite Hp).
  constructor; [by rewrite <- Hh|by rewrite <- Hp|intros i Hi; rewrite <- Hh; by apply H3|intros i Hi; apply H4; by rewrite Hh|by rewrite <- Hp|].
  intros b i. rewrite H6. by setoid_rewrite Hp.
Qed.

(** Nothing of what the requests rely on changed. *)
Lemma vset_frame s s' all : (∀ i, (i < NUM)%nat → dfree s i = 0 ↔ dfree s' i = 0) →
  (∀ i, i ∈ held all → desc s' i = desc s i ∧ ops s' i = ops s i ∧ info_b s' i = info_b s i) → (∀ r, r ∈ all → vb_blockno (bufs s' (r_b r)) = vb_blockno (bufs s (r_b r))) →
  vset s p all → vset s' p all.
Proof.
  intros Hf Hd Hb [H1 H2 H3 H4 H5 H6]. constructor; try done.
  - intros i Hi. rewrite <- Hf by done. by apply H3.
  - apply Forall_forall. intros r Hr. apply (req_frame s); [intros i Hi; by apply Hd, (held_in all r)|by apply Hb|by apply (proj1 (Forall_forall _ _) H5)].
Qed.

(** A request is known by its buffer, and by its head. *)
Lemma vset_unique s all r r' : vset s p all → r ∈ all → r' ∈ all → r_b r = r_b r' → r = r'.
Proof. intros H. apply NoDup_key, H. Qed.
End vset.

(** ** The operations on descriptors *)

Ltac fn_simp := repeat (rewrite fn_lookup_insert || (rewrite fn_lookup_insert_ne by (done || congruence || lia))).

Lemma run_gets {S A B} (f : S → A) (g : A → M S B) s : (gets f ≫= g) s = g (f s) s.
Proof. done. Qed.

Lemma run_modify {S B} (f : S → S) (g : () → M S B) s : (modify f ≫= g) s = g () (f s).
Proof. done. Qed.

Lemma alloc_desc_loop_run n i s : (alloc_desc_loop n i s = Done (None, s) ∧ ∀ j, (i ≤ j < i + n)%nat → dfree s j = 0) ∨
  ∃ j, (i ≤ j < i + n)%nat ∧ dfree s j ≠ 0 ∧ alloc_desc_loop n i s = Done (Some j, set_free (<[j := 0]> (dfree s)) s).
Proof.
  revert i. induction n as [|n IH]; intros i; cbn [alloc_desc_loop]; [left; split; [done|lia]|]. rewrite !run_gets.
  destruct (Z.eqb_spec (dfree s i) 0) as [E|E]; cbn [negb].
  - destruct (IH (S i)) as [(H1 & H2)|(j & H1 & H2 & H3)]; [left|right].
    + split; [done|]. intros j Hj. destruct (decide (j = i)) as [->|]; [done|apply H2; lia].
    + exists j. split; [lia|done].
  - right. exists i. split; [lia|done].
Qed.

Lemma alloc_desc_run s : (alloc_desc s = Done (None, s) ∧ ∀ j, (j < NUM)%nat → dfree s j = 0) ∨
  ∃ j, (j < NUM)%nat ∧ dfree s j ≠ 0 ∧ alloc_desc s = Done (Some j, set_free (<[j := 0]> (dfree s)) s).
Proof. destruct (alloc_desc_loop_run NUM 0 s) as [(H1 & H2)|(j & H1 & H2 & H3)]; [left|right; exists j]; (split; [done || lia|]); [intros j Hj; apply H2; lia|done]. Qed.

Definition freed (i : nat) (s : vdisk) : vdisk := add_wake FreeChan (set_free (<[i := 1]> (dfree s)) (set_desc (<[i := mk_desc NullAddr 0 0 0]> (desc s)) s)).

Lemma free_desc_run s i : (i < NUM)%nat → dfree s i = 0 → free_desc i s = Done ((), freed i s).
Proof. intros Hi Hf. unfold free_desc. rewrite (proj2 (Nat.leb_gt _ _)) by done. unfold gets, mbind, M_bind. by rewrite Hf. Qed.

(** Up to what is in free descriptors. *)
Definition same (s s' : vdisk) : Prop := ∃ d f w, s' = mk_vdisk d (avail_idx s) (avail_ring s) (u_idx s) (u_ring s) f (used_idx s) (info_b s) (info_status s) (ops s) (bufs s) w ∧
  (∀ i, dfree s i = 0 ↔ f i = 0) ∧ ∀ i, dfree s i = 0 → d i = desc s i.

Lemma NoDup3 (a b c : nat) : NoDup [a; b; c] ↔ a ≠ b ∧ a ≠ c ∧ b ≠ c.
Proof.
  split.
  - intros [H1 [H2 _]%NoDup_cons]%NoDup_cons. split_and!; intros ->; [apply H1; by left|apply H1; right; by left|apply H2; by left].
  - intros (H1 & H2 & H3). repeat (apply NoDup_cons; split); [..|by apply not_elem_of_nil|by apply NoDup_nil];
      intros H; repeat (apply elem_of_cons in H as [H|H]; [congruence|]); by apply elem_of_nil in H.
Qed.

Lemma alloc3_run s : (∃ i0 i1 i2, alloc3_desc s = Done (Some [i0; i1; i2], set_free (<[i2 := 0]> (<[i1 := 0]> (<[i0 := 0]> (dfree s)))) s) ∧
    Forall (λ i, (i < NUM)%nat ∧ dfree s i ≠ 0) [i0; i1; i2] ∧ NoDup [i0; i1; i2]) ∨
  ∃ s', alloc3_desc s = Done (None, s') ∧ same s s'.
Proof.
  unfold alloc3_desc. cbn [alloc3_loop]. destruct (alloc_desc_run s) as [(H1 & _)|(i0 & L0 & F0 & H0)].
  { right. exists s. rewrite (run_bind _ _ _ _ _ H1). split; [done|]. exists (desc s), (dfree s), (wakes s). by destruct s. }
  rewrite (run_bind _ _ _ _ _ H0). set (s0 := set_free _ s). destruct (alloc_desc_run s0) as [(H1 & _)|(i1 & L1 & F1 & H1)].
  { right. eexists. rewrite (run_bind _ _ _ _ _ H1). cbn [app free_descs]. split.
    - rewrite (run_bind (free_desc i0 ≫= _) _ s0 () (freed i0 s0)); [done|]. rewrite (run_bind _ _ _ () (freed i0 s0)); [done|]. apply free_desc_run; [done|]. cbn. by fn_simp.
    - eexists _, _, _. split; [reflexivity|]. cbn. split; intros i; (destruct (decide (i = i0)) as [->|]; fn_simp; [done|done]). }
  rewrite (run_bind _ _ _ _ _ H1). set (s1 := set_free _ s0). assert (i1 ≠ i0) by (intros ->; apply F1; cbn; by fn_simp).
  assert (F1' : dfree s i1 ≠ 0) by (cbn in F1; revert F1; by fn_simp).
  destruct (alloc_desc_run s1) as [(H2 & _)|(i2 & L2 & F2 & H2)].
  { right. exists (freed i1 (freed i0 s1)). rewrite (run_bind _ _ _ _ _ H2). cbn [app free_descs]. split.
    - rewrite (run_bind (free_desc i0 ≫= _) _ s1 () (freed i1 (freed i0 s1))); [done|]. rewrite (run_bind _ _ _ () (freed i0 s1)).
      + rewrite (run_bind _ _ _ () (freed i1 (freed i0 s1))); [done|]. apply free_desc_run; [done|]. cbn. by fn_simp.
      + apply free_desc_run; [done|]. cbn. by fn_simp.
    - eexists _, _, _. split; [reflexivity|]. cbn. split; intros i; (destruct (decide (i = i0)) as [->|]; [|destruct (decide (i = i1)) as [->|]]; fn_simp; done). }
  rewrite (run_bind _ _ _ _ _ H2). left. exists i0, i1, i2.
  assert (i2 ≠ i0) by (intros ->; apply F2; cbn; by fn_simp). assert (i2 ≠ i1) by (intros ->; apply F2; cbn; by fn_simp).
  assert (F2' : dfree s i2 ≠ 0) by (cbn in F2; revert F2; by fn_simp).
  split; [done|]. split; [by rewrite !Forall_cons|]. by apply NoDup3.
Qed.

Lemma free_chain_step n i s : (i < NUM)%nat → dfree s i = 0 →
  free_chain_loop (S n) i s = if Z.land (d_flags (desc s i)) VRING_DESC_F_NEXT =? 0 then Done ((), freed i s) else free_chain_loop n (d_next (desc s i)) (freed i s).
Proof. intros Hi Hf. cbn [free_chain_loop]. rewrite !run_gets. rewrite (run_bind _ _ _ _ _ (free_desc_run s i Hi Hf)). by destruct (_ =? _). Qed.

Lemma freed_other i j s : j ≠ i → dfree (freed i s) j = dfree s j ∧ desc (freed i s) j = desc s j.
Proof. intros H. cbn. by fn_simp. Qed.

Lemma free_chain_run s0 s r : desc s = desc s0 → Forall (λ i, (i < NUM)%nat ∧ dfree s i = 0) (idxs r) → NoDup (idxs r) → chain_ok s0 r →
  free_chain (r_i0 r) s = Done ((), freed (r_i2 r) (freed (r_i1 r) (freed (r_i0 r) s))).
Proof.
  intros Hs0 Hl (E1 & E2 & E3)%NoDup3 (C0 & C1 & C2 & _). rewrite <- Hs0 in C0, C1, C2. unfold idxs in *. rewrite !Forall_cons in Hl. destruct Hl as ((L0 & F0) & (L1 & F1) & (L2 & F2) & _).
  destruct (freed_other (r_i0 r) (r_i1 r) s) as [G1 D1]; [done|]. destruct (freed_other (r_i0 r) (r_i2 r) s) as [G2 D2]; [done|].
  destruct (freed_other (r_i1 r) (r_i2 r) (freed (r_i0 r) s)) as [G3 D3]; [done|].
  unfold free_chain, NUM. rewrite free_chain_step, C0; [|done|done]. cbn [d_flags d_next]. change (Z.land VRING_DESC_F_NEXT VRING_DESC_F_NEXT =? 0) with false. cbv iota.
  rewrite free_chain_step, D1, C1; [|done|by rewrite G1]. cbn [d_flags d_next]. replace (_ =? 0) with false by (by destruct (r_w r)). cbv iota.
  rewrite free_chain_step, D3, D2, C2; [done|done|by rewrite G3, G2].
Qed.

(** ** Requests come and go *)

Lemma vset_held s p all r : vset s p all → r ∈ all → Forall (λ i, (i < NUM)%nat ∧ dfree s i = 0) (idxs r) ∧ NoDup (idxs r).
Proof.
  intros H Hr. split.
  - apply Forall_forall. intros i Hi. pose proof (held_in all r i Hr Hi) as Hh. pose proof (vs_lt _ _ _ H i Hh). split; [done|]. by apply (vs_free _ _ _ H).
  - pose proof (vs_nodup _ _ _ H) as Hn. apply list_elem_of_split in Hr as (l1 & l2 & ->). rewrite held_app in Hn. apply NoDup_app in Hn as (_ & _ & Hn).
    change (held (r :: l2)) with (idxs r ++ held l2) in Hn. by apply NoDup_app in Hn as [Hn _].
Qed.

Lemma not_idxs r j : j ∉ idxs r → j ≠ r_i0 r ∧ j ≠ r_i1 r ∧ j ≠ r_i2 r.
Proof. intros Hj. split_and!; intros ->; apply Hj; [by left|by right; left|by right; right; left]. Qed.

(** A new request on descriptors that were free. *)
Lemma vset_add s s' p all r : vset s p all → p (r_b r) = None → Forall (λ i, (i < NUM)%nat ∧ dfree s i ≠ 0) (idxs r) → NoDup (idxs r) → chain_ok s' r →
  (∀ i, dfree s' i = if decide (i ∈ idxs r) then 0 else dfree s i) → (∀ i, i ∉ idxs r → desc s' i = desc s i ∧ ops s' i = ops s i ∧ info_b s' i = info_b s i) →
  (∀ b, vb_blockno (bufs s' b) = vb_blockno (bufs s b)) → vset s' (<[r_b r := Some (r_i0 r)]> p) (r :: all).
Proof.
  intros H Hp Hl Hn Hc Hf Hd Hb. pose proof H as [H1 H2 H3 H4 H5 H6]. rewrite Forall_forall in Hl.
  assert (Hdis : ∀ i, i ∈ idxs r → i ∉ held all) by (intros i Hi Hh; destruct (Hl i Hi) as [L F]; by apply F, H3).
  assert (Hnb : ∀ r', r' ∈ all → r_b r' ≠ r_b r). { intros r' Hr' E. assert (p (r_b r) = Some (r_i0 r')) by (apply H6; by exists r'). congruence. }
  constructor; change (held (r :: all)) with (idxs r ++ held all).
  - apply NoDup_app. split; [done|]. by split.
  - rewrite fmap_cons. apply NoDup_cons. split; [|done]. intros (r' & E & Hr')%list_elem_of_fmap. by apply (Hnb r').
  - intros i Hi. rewrite Hf, elem_of_app. destruct (decide (i ∈ idxs r)); [tauto|]. rewrite H3 by done. tauto.
  - intros i [Hi|Hi]%elem_of_app; [by apply Hl|by apply H4].
  - constructor; [done|]. apply Forall_forall. intros r' Hr'. pose proof (proj1 (Forall_forall _ _) H5 r' Hr') as Hc'.
    assert (Hi : ∀ i, i ∈ idxs r' → desc s' i = desc s i ∧ ops s' i = ops s i ∧ info_b s' i = info_b s i).
    { intros i Hi. apply Hd. intros Hi2. apply (Hdis i Hi2). by apply (held_in all r'). }
    by apply (req_frame s).
  - intros b i. destruct (decide (b = r_b r)) as [->|Hne]; fn_simp.
    + split; [intros [= <-]; exists r; split_and!; [by left|done|done]|]. intros (r' & [->|Hr']%elem_of_cons & E & <-); [done|]. by apply Hnb in Hr'.
    + rewrite H6. split; intros (r' & Hr' & E1 & E2).
      * exists r'. split_and!; [by right|done|done].
      * exists r'. apply elem_of_cons in Hr' as [->|Hr']; [congruence|done].
Qed.

(** A request is over; its descriptors are free again. *)
Lemma vset_remove s s' p all r : vset s p (r :: all) → (∀ i, dfree s' i = if decide (i ∈ idxs r) then 1 else dfree s i) →
  (∀ i, i ∉ idxs r → desc s' i = desc s i ∧ ops s' i = ops s i ∧ info_b s' i = info_b s i) → (∀ b, vb_blockno (bufs s' b) = vb_blockno (bufs s b)) →
  vset s' (<[r_b r := None]> p) all.
Proof.
  intros H Hf Hd Hb. pose proof H as [H1 H2 H3 H4 H5 H6]. change (held (r :: all)) with (idxs r ++ held all) in *. apply NoDup_app in H1 as (H1 & Hdis & H1').
  rewrite fmap_cons in H2. apply NoDup_cons in H2 as [Hnb H2]. apply Forall_cons in H5 as [_ H5].
  constructor.
  - done.
  - done.
  - intros i Hi. rewrite Hf. destruct (decide (i ∈ idxs r)) as [Hin|Hin]; [split; [done|intros Hh; by destruct (Hdis i Hin)]|]. rewrite H3 by done. rewrite elem_of_app. tauto.
  - intros i Hi. apply H4, elem_of_app. by right.
  - apply Forall_forall. intros r' Hr'. pose proof (proj1 (Forall_forall _ _) H5 r' Hr') as Hc'.
    assert (Hi : ∀ i, i ∈ idxs r' → desc s' i = desc s i ∧ ops s' i = ops s i ∧ info_b s' i = info_b s i).
    { intros i Hi. apply Hd. intros Hi2. apply (Hdis i Hi2). by apply (held_in all r'). }
    by apply (req_frame s).
  - intros b i. destruct (decide (b = r_b r)) as [->|Hne]; fn_simp.
    + split; [done|]. intros (r' & Hr' & E & _). destruct Hnb. apply list_elem_of_fmap. by exists r'.
    + rewrite H6. split; intros (r' & Hr' & E1 & E2); exists r'.
      * apply elem_of_cons in Hr' as [->|Hr']; [congruence|done].
      * split_and!; [by right|done|done].
Qed.

(** ** The steps *)

Lemma u16_succ x : u16 (u16 x + 1) = u16 (x + 1).
Proof. unfold u16. by rewrite Zplus_mod_idemp_l. Qed.

Section sim.
Context {D : Type} (dev_read : D → Z → Z → list Z) (dev_write : D → Z → list Z → D).

Lemma vinv_short (x : vsys) (po fe us dn : list req) : vinv (D := D) x po fe us dn → (length po + length fe + length us + length dn ≤ 2)%nat.
Proof. intros H. pose proof (vset_length _ _ _ (vi_set _ _ _ _ _ H)) as Hl. rewrite !length_app in Hl. lia. Qed.

(** The device takes the first request that was posted. *)
Lemma sim_fetch x y a po fe us dn : fetch x y → vinv (D := D) x po fe us dn → vsim x a po fe us dn →
  ∃ po' fe', vinv y po' fe' us dn ∧ vsim y a po' fe' us dn.
Proof.
  intros [s m n l p Hne] H [M1 M2 M3 M4 M5]. pose proof (vinv_short _ _ _ _ _ H) as Hlen. destruct H as [H1 H2 H3 H4 [H5 H5'] H6 H7 [H8 H8']]. cbn [drv dev inside seen busy medium] in *.
  destruct po as [|r po]; [cbn in H5; rewrite Z.add_0_r, u16_id in H5 by done; congruence|]. exists po, (fe ++ [r]).
  cbn [length fmap list_fmap] in *. rewrite window_cons in H5'. injection H5' as Hr H5'.
  assert (Hp : (r :: po) ++ fe ++ us ++ dn ≡ₚ po ++ (fe ++ [r]) ++ us ++ dn) by solve_Permutation.
  assert (Hp2 : (r :: po) ++ fe ≡ₚ po ++ fe ++ [r]) by solve_Permutation. split; constructor; cbn [drv dev inside seen busy medium]; try done.
  - by apply (vset_perm _ _ _ _ Hp).
  - by rewrite <- Hp2.
  - split; [|done]. rewrite H5. unfold u16. rewrite Zplus_mod_idemp_l. f_equal. lia.
  - by rewrite fmap_app, H6, Hr.
  - split; [apply u16_range|done].
  - intros r' Hr'. apply M3. by rewrite Hp2.
Qed.

(** What a chain of the driver makes the device do. *)
Lemma exec_run s r m : chain_ok s r → exec_chain dev_read dev_write (r_i0 r) s m =
  Some (let s' := set_status (<[r_i0 r := 0]> (info_status s)) s in let b := bufs s (r_b r) in
        if r_w r then (s', write_block dev_write m (vb_blockno b) (vb_data b))
        else (set_bufs (<[r_b r := mk_vbuf (vb_blockno b) (vb_disk b) (read_block dev_read m (vb_blockno b))]> (bufs s)) s', m)).
Proof. intros (C0 & C1 & C2 & C3 & _). unfold exec_chain. rewrite C0. cbn [d_next]. rewrite C1. cbn [d_next d_addr]. rewrite C2. cbn [d_addr d_len d_flags]. rewrite C3. by destruct (r_w r). Qed.

(** What a completion changes in the driver's state. *)
Definition after_exec (r : req) (s s' : vdisk) : Prop :=
  desc s' = desc s ∧ ops s' = ops s ∧ info_b s' = info_b s ∧ dfree s' = dfree s ∧ avail_idx s' = avail_idx s ∧ avail_ring s' = avail_ring s ∧ used_idx s' = used_idx s ∧
  info_status s' = <[r_i0 r := 0]> (info_status s) ∧ u_idx s' = u16 (u_idx s + 1) ∧ u_ring s' = <[Z.to_nat (u_idx s mod Z.of_nat NUM) := r_i0 r]> (u_ring s) ∧
  ∀ b, vb_blockno (bufs s' b) = vb_blockno (bufs s b) ∧ vb_disk (bufs s' b) = vb_disk (bufs s b).

Lemma inv_complete s s' (m m' : D) n l1 l2 p po f1 r f2 us dn : after_exec r s s' → length l1 = length f1 →
  vinv (D := D) (mk_vsys s (mk_vdev m n (l1 ++ r_i0 r :: l2)) p) po (f1 ++ r :: f2) us dn →
  vinv (mk_vsys s' (mk_vdev m' n (l1 ++ l2)) p) po (f1 ++ f2) (us ++ [r]) dn.
Proof.
  intros (E1 & E2 & E3 & E4 & E5 & E6 & E7 & E8 & E9 & E10 & E11) Hl H. pose proof (vinv_short _ _ _ _ _ H) as Hlen. destruct H as [H1 H2 H3 H4 [H5 H5'] H6 [H7 H7'] [H8 H8']].
  cbn [drv dev inside seen busy medium] in *. assert (Hp : po ++ (f1 ++ r :: f2) ++ us ++ dn ≡ₚ po ++ (f1 ++ f2) ++ (us ++ [r]) ++ dn) by solve_Permutation.
  assert (Hr : vb_disk (bufs s (r_b r)) = 1). { apply (proj1 (Forall_forall _ _) H2 r). rewrite !elem_of_app. right. right. by left. }
  assert (Hd : ∀ (P : Z → Prop) l, Forall (λ r', P (vb_disk (bufs s (r_b r')))) l → Forall (λ r', P (vb_disk (bufs s' (r_b r')))) l).
  { intros P l HP. eapply Forall_impl; [exact HP|]. intros r'. by destruct (E11 (r_b r')) as [_ ->]. }
  constructor; cbn [drv dev inside seen busy medium].
  - apply (vset_perm _ _ _ _ Hp). apply (vset_frame p s); [by rewrite E4|by rewrite E1, E2, E3|intros; apply E11|done].
  - apply (Hd (λ d, d = 1)). rewrite !Forall_app, Forall_cons in H2. rewrite !Forall_app. tauto.
  - apply Forall_app. split; [|constructor; [|done]].
    + eapply Forall_impl; [exact H3|]. intros r' [S1 S2]. destruct (E11 (r_b r')) as [_ ->]. rewrite E8. split; [|done]. destruct (decide (r_i0 r' = r_i0 r)) as [->|]; by fn_simp.
    + destruct (E11 (r_b r)) as [_ ->]. rewrite E8. by fn_simp.
  - by apply (Hd (λ d, d = 0)).
  - by rewrite E5, E6.
  - rewrite fmap_app, fmap_cons in H6. apply app_inj_1 in H6 as [-> H6]; [|by rewrite length_fmap]. injection H6 as ->. by rewrite fmap_app.
  - rewrite E7, E9, E10, length_app. cbn [length]. rewrite Nat.add_1_r. split.
    + rewrite H7, u16_succ. f_equal. lia.
    + rewrite H7, window_push, H7', fmap_app by (unfold NUM; lia). done.
  - by rewrite E7.
Qed.

(** The buffers of the other requests are others. *)
Lemma other_buf s p all all' r r' : vset s p all → all ≡ₚ r :: all' → r' ∈ all' → r_b r' ≠ r_b r.
Proof.
  intros H Hp Hr' E. pose proof (vs_bufs _ _ _ H) as Hn. rewrite Hp, fmap_cons in Hn. apply NoDup_cons in Hn as [Hn _]. apply Hn. rewrite <- E. by apply list_elem_of_fmap_2.
Qed.

(** A transfer, in the specification. *)
Lemma sim_transfer (s s' : vdisk) (d d' : vdev (D := D)) (p : nat → option nat) a (po f1 : list req) (r : req) (f2 us dn : list req) (data : list Z) (m' : D) :
  vinv (D := D) (mk_vsys s d p) po (f1 ++ r :: f2) us dn → vsim (mk_vsys s d p) a po (f1 ++ r :: f2) us dn → medium d' = m' →
  (∀ b, vb_blockno (bufs s' b) = vb_blockno (bufs s b) ∧ vb_data (bufs s' b) = if decide (b = r_b r) then data else vb_data (bufs s b)) →
  vsim (mk_vsys s' d' p) (mk_adisk m' (<[r_b r := mk_abuf (a_blockno (a_bufs a (r_b r))) data (Some Over)]> (a_bufs a))) po (f1 ++ f2) (us ++ [r]) dn.
Proof.
  intros H [M1 M2 M3 M4 M5] Hm Hb. pose proof (vi_set _ _ _ _ _ H) as Hset. cbn [drv inside] in Hset.
  assert (Ho : ∀ r', r' ∈ po ++ f1 ++ f2 ++ us ++ dn → r_b r' ≠ r_b r) by (intros r'; apply (other_buf _ _ _ _ _ _ Hset); solve_Permutation).
  constructor; cbn [drv dev inside a_medium a_bufs] in *.
  - done.
  - intros b. destruct (Hb b) as [-> ->]. destruct (decide (b = r_b r)) as [->|Hne]; fn_simp; cbn; [split; [apply M2|done]|apply M2].
  - intros r' Hr'. assert (r_b r' ≠ r_b r) by (apply Ho; rewrite !elem_of_app in *; tauto). fn_simp. apply M3. rewrite !elem_of_app, elem_of_cons in *. tauto.
  - intros r' Hr'. destruct (decide (r_b r' = r_b r)) as [->|Hne]; [by fn_simp|]. fn_simp. apply M4. rewrite !elem_of_app, list_elem_of_singleton in Hr'.
    rewrite elem_of_app. destruct Hr' as [[Hr'| ->]|Hr']; [by left|done|by right].
  - intros b Hbn. destruct (decide (b = r_b r)) as [->|Hne]; [|fn_simp; by apply M5]. assert (p (r_b r) = Some (r_i0 r)) as E; [|congruence].
    apply (vs_inside _ _ _ Hset). exists r. split; [|done]. rewrite !elem_of_app, elem_of_cons. tauto.
Qed.

(** The device completes one of its chains: the transfer. *)
Lemma sim_complete x y a po fe us dn : complete dev_read dev_write x y → vinv x po fe us dn → vsim x a po fe us dn →
  ∃ a' fe' us', astep dev_read dev_write a a' ∧ vinv y po fe' us' dn ∧ vsim y a' po fe' us' dn.
Proof.
  intros [s m n l1 h l2 p s' m' Hx] H Hsim. pose proof (vi_busy _ _ _ _ _ H) as Hb. cbn [dev busy] in Hb. symmetry in Hb.
  apply fmap_app_inv in Hb as (f1 & f2' & -> & Hb & ->). symmetry in Hb. apply fmap_cons_inv in Hb as (r & f2 & -> & -> & ->).
  assert (Hin : r ∈ po ++ (f1 ++ r :: f2) ++ us ++ dn) by (rewrite !elem_of_app, elem_of_cons; tauto).
  pose proof (proj1 (Forall_forall _ _) (vs_chain _ _ _ (vi_set _ _ _ _ _ H)) r Hin) as Hc. cbn [drv] in Hc. rewrite (exec_run s r m Hc) in Hx.
  pose proof Hsim as [M1 M2 M3 _ _]. cbn [drv dev medium] in M1, M2. destruct (M2 (r_b r)) as [B1 B2]. assert (Hreq : a_req (a_bufs a (r_b r)) = Some (Todo (r_w r))).
  { apply M3. rewrite !elem_of_app, elem_of_cons. tauto. }
  destruct a as [am af]. cbn [a_medium a_bufs] in *. subst am. cbv zeta in Hx. destruct (r_w r) eqn:Hw; injection Hx as <- <-; eexists _, (f1 ++ f2), (us ++ [r]); (split; [|split]).
  - apply (a_write _ _ m af (r_b r)). by rewrite Hreq.
  - apply (inv_complete s _ m _ n _ _ p po f1 r f2); [|by rewrite length_fmap|done]. by split_and!.
  - rewrite B1, B2. rewrite <- B1. refine (sim_transfer s _ _ _ p _ po f1 r f2 us dn _ _ H Hsim _ _); [by rewrite B1|].
    intros b. cbn [set_used bufs set_status]. split; [done|]. destruct (decide (b = r_b r)) as [->|]; [|done]. done.
  - apply (a_read _ _ m af (r_b r)). by rewrite Hreq.
  - apply (inv_complete s _ m _ n _ _ p po f1 r f2); [|by rewrite length_fmap|done]. split_and!; try done. intros b. cbn [set_used bufs set_bufs set_status].
    destruct (decide (b = r_b r)) as [->|]; by fn_simp.
  - refine (sim_transfer s _ _ _ p _ po f1 r f2 us dn _ _ H Hsim _ _); [done|]. intros b. cbn [set_used bufs set_bufs set_status].
    destruct (decide (b = r_b r)) as [->|]; fn_simp; [|done]. cbn. by rewrite B1.
Qed.

(** Steps of the driver that neither move data nor change requests. *)
Lemma vsim_quiet (s s' : vdisk) (d : vdev (D := D)) p a po fe us dn us' dn' : us ++ dn ≡ₚ us' ++ dn' →
  (∀ b, vb_blockno (bufs s' b) = vb_blockno (bufs s b) ∧ vb_data (bufs s' b) = vb_data (bufs s b)) →
  vsim (mk_vsys s d p) a po fe us dn → vsim (mk_vsys s' d p) a po fe us' dn'.
Proof.
  intros Hp Hb [M1 M2 M3 M4 M5]. constructor; cbn [drv dev inside] in *; try done.
  - intros b. destruct (Hb b) as [-> ->]. apply M2.
  - intros r. rewrite <- Hp. apply M4.
Qed.

(** [virtio_disk_intr] takes the first entry of the used ring. *)
Lemma intr_one_run s (d : vdev (D := D)) p po fe r us dn : vinv (mk_vsys s d p) po fe (r :: us) dn → ∃ s', intr_one s = Done ((), s') ∧ vinv (mk_vsys s' d p) po fe us (r :: dn) ∧
  (∀ b, vb_blockno (bufs s' b) = vb_blockno (bufs s b) ∧ vb_data (bufs s' b) = vb_data (bufs s b)) ∧ u_idx s' = u_idx s.
Proof.
  intros [H1 H2 H3 H4 H5 H6 [H7 H7'] [H8 H8']]. cbn [drv dev inside] in *. cbn [length fmap list_fmap] in H7, H7'. rewrite window_cons in H7'. injection H7' as Hr H7'.
  assert (Hin : r ∈ po ++ fe ++ (r :: us) ++ dn) by (rewrite !elem_of_app, elem_of_cons; tauto). apply Forall_cons in H3 as [[S1 S2] H3].
  pose proof (proj1 (Forall_forall _ _) (vs_chain _ _ _ H1) r Hin) as (_ & _ & _ & _ & Hi). pose proof (vs_lt _ _ _ H1 (r_i0 r) (held_in _ r _ Hin ltac:(by left))) as Hlt.
  assert (Hp : po ++ fe ++ (r :: us) ++ dn ≡ₚ po ++ fe ++ us ++ r :: dn) by solve_Permutation.
  assert (Ho : ∀ r', r' ∈ po ++ fe ++ us ++ dn → r_b r' ≠ r_b r) by (intros r'; apply (other_buf _ _ _ _ _ _ H1); solve_Permutation).
  eexists. split; [|split; [|split]].
  - unfold intr_one. rewrite run_gets, Hr, (proj2 (Nat.leb_gt _ _)) by done. rewrite !run_gets, S1. cbn [Z.eqb negb]. rewrite run_gets, Hi. reflexivity.
  - assert (Hd : ∀ r', r_b r' ≠ r_b r → vb_disk (<[r_b r := mk_vbuf (vb_blockno (bufs s (r_b r))) 0 (vb_data (bufs s (r_b r)))]> (bufs s) (r_b r')) = vb_disk (bufs s (r_b r'))).
    { intros r' Hne. by fn_simp. }
    constructor; cbn [drv dev inside set_used_idx add_wake set_bufs bufs info_status avail_idx avail_ring u_idx u_ring used_idx].
    + apply (vset_perm _ _ _ _ Hp). apply (vset_frame p s); [done|done| |done]. intros r' _. cbn. destruct (decide (r_b r' = r_b r)) as [->|]; by fn_simp.
    + apply Forall_forall. intros r' Hr'. rewrite Hd by (apply Ho; rewrite !elem_of_app in *; tauto). by apply (proj1 (Forall_forall _ _) H2).
    + apply Forall_forall. intros r' Hr'. rewrite Hd by (apply Ho; rewrite !elem_of_app in *; tauto). by apply (proj1 (Forall_forall _ _) H3).
    + constructor; [by fn_simp|]. apply Forall_forall. intros r' Hr'. rewrite Hd by (apply Ho; rewrite !elem_of_app in *; tauto). by apply (proj1 (Forall_forall _ _) H4).
    + done.
    + done.
    + split; [|done]. rewrite H7. unfold u16. rewrite Zplus_mod_idemp_l. f_equal. lia.
    + split; [done|apply u16_range].
  - intros b. cbn. destruct (decide (b = r_b r)) as [->|]; by fn_simp.
  - done.
Qed.

Lemma intr_loop_run d p a po fe us : ∀ n s dn, vinv (D := D) (mk_vsys s d p) po fe us dn → vsim (mk_vsys s d p) a po fe us dn → (length us < n)%nat →
  ∃ s' dn', intr_loop n s = Done ((), s') ∧ vinv (mk_vsys s' d p) po fe [] dn' ∧ vsim (mk_vsys s' d p) a po fe [] dn'.
Proof.
  induction us as [|r us IH]; intros [|n] s dn H Hs Hn; try (cbn in Hn; lia); cbn [intr_loop]; rewrite run_gets; pose proof (vinv_short _ _ _ _ _ H) as Hlen; pose proof (vi_uring _ _ _ _ _ H) as [Hu _];
    pose proof (vi_range _ _ _ _ _ H) as [_ Hr]; cbn [drv dev length] in *.
  - rewrite Hu, Z.add_0_r, u16_id, Z.eqb_refl by done. exists s, dn. done.
  - rewrite (proj2 (Z.eqb_neq _ _)). 2: { rewrite Hu. unfold u16. intros E. pose proof (Z.div_mod (used_idx s + Z.of_nat (S (length us))) (2 ^ 16) ltac:(lia)). lia. }
    cbn [negb]. destruct (intr_one_run s d p po fe r us dn H) as (s1 & H1 & H2 & H3 & _). rewrite (run_bind _ _ _ _ _ H1).
    apply (IH n s1 (r :: dn) H2); [|cbn in Hn; lia]. apply (vsim_quiet s _ _ _ _ _ _ (r :: us) dn); [solve_Permutation|done|done].
Qed.

Lemma intr_run s d p a po fe us dn : vinv (D := D) (mk_vsys s d p) po fe us dn → vsim (mk_vsys s d p) a po fe us dn →
  ∃ s' dn', virtio_disk_intr s = Done ((), s') ∧ vinv (mk_vsys s' d p) po fe [] dn' ∧ vsim (mk_vsys s' d p) a po fe [] dn'.
Proof.
  intros H Hs. apply (intr_loop_run d p a po fe us _ s dn H Hs). pose proof (vinv_short _ _ _ _ _ H). destruct (vi_uring _ _ _ _ _ H) as [Hu _]. cbn [drv] in Hu. rewrite Hu.
  unfold u16. rewrite Zminus_mod_idemp_l. replace (used_idx s + Z.of_nat (length us) - used_idx s) with (Z.of_nat (length us)) by lia. rewrite Z.mod_small by lia. lia.
Qed.

(** ** [virtio_disk_rw] *)

(** No descriptors: the process will sleep, and nothing has changed but free descriptors. *)
Lemma sim_full s s' d p a po fe us dn : same s s' → vinv (D := D) (mk_vsys s d p) po fe us dn → vsim (mk_vsys s d p) a po fe us dn →
  vinv (mk_vsys s' d p) po fe us dn ∧ vsim (mk_vsys s' d p) a po fe us dn.
Proof.
  intros (ds & f & w & -> & Hf & Hd) H Hs. split; [|by apply (vsim_quiet s _ _ _ _ _ _ us dn)]. destruct H as [H1 H2 H3 H4 H5 H6 H7 H8]. cbn [drv dev inside] in *. constructor; try done. cbn [drv dev inside].
  apply (vset_frame p s); [intros i _; apply Hf| |done|done]. intros i Hi. cbn. split; [|done]. apply Hd, (vs_free _ _ _ H1); [by apply (vs_lt _ _ _ H1)|done].
Qed.

Lemma sim_client s d p a po fe us dn b bn data : p b = None → vinv (D := D) (mk_vsys s d p) po fe us dn → vsim (mk_vsys s d p) a po fe us dn →
  vinv (mk_vsys (set_bufs (<[b := mk_vbuf bn (vb_disk (bufs s b)) data]> (bufs s)) s) d p) po fe us dn ∧
  vsim (mk_vsys (set_bufs (<[b := mk_vbuf bn (vb_disk (bufs s b)) data]> (bufs s)) s) d p) (mk_adisk (a_medium a) (<[b := mk_abuf bn data None]> (a_bufs a))) po fe us dn.
Proof.
  intros Hb [H1 H2 H3 H4 H5 H6 H7 H8] [M1 M2 M3 M4 M5]. cbn [drv dev inside] in *. assert (Ho : ∀ r, r ∈ po ++ fe ++ us ++ dn → r_b r ≠ b).
  { intros r Hr <-. assert (p (r_b r) = Some (r_i0 r)); [|congruence]. apply (vs_inside _ _ _ H1). by exists r. }
  assert (Hd : ∀ r, vb_disk (<[b := mk_vbuf bn (vb_disk (bufs s b)) data]> (bufs s) (r_b r)) = vb_disk (bufs s (r_b r))).
  { intros r. destruct (decide (r_b r = b)) as [->|]; by fn_simp. }
  split; constructor; cbn [drv dev inside set_bufs bufs a_medium a_bufs info_status]; try done.
  - apply (vset_frame p s); [done|done| |done]. intros r Hr. cbn. pose proof (Ho r Hr). by fn_simp.
  - eapply Forall_impl; [exact H2|]. intros r. by rewrite Hd.
  - eapply Forall_impl; [exact H3|]. intros r. by rewrite Hd.
  - eapply Forall_impl; [exact H4|]. intros r. by rewrite Hd.
  - intros b'. destruct (decide (b' = b)) as [->|]; by fn_simp.
  - intros r Hr. assert (r_b r ≠ b) by (apply Ho; rewrite !elem_of_app in *; tauto). fn_simp. by apply M3.
  - intros r Hr. assert (r_b r ≠ b) by (apply Ho; rewrite !elem_of_app in *; tauto). fn_simp. by apply M4.
  - intros b' Hb'. destruct (decide (b' = b)) as [->|]; fn_simp; [done|by apply M5].
Qed.

(** The request as [rw_submit] leaves it. *)
Lemma submit_run s b w i0 i1 i2 : NoDup [i0; i1; i2] → ∃ s', rw_submit b w i0 i1 i2 s = Done ((), s') ∧ chain_ok s' (mk_req b w i0 i1 i2) ∧
  dfree s' = dfree s ∧ (∀ i, i ∉ [i0; i1; i2] → desc s' i = desc s i ∧ ops s' i = ops s i ∧ info_b s' i = info_b s i ∧ info_status s' i = info_status s i) ∧
  bufs s' = <[b := mk_vbuf (vb_blockno (bufs s b)) 1 (vb_data (bufs s b))]> (bufs s) ∧
  avail_idx s' = u16 (avail_idx s + 1) ∧ avail_ring s' = <[Z.to_nat (avail_idx s mod Z.of_nat NUM) := i0]> (avail_ring s) ∧ u_idx s' = u_idx s ∧ u_ring s' = u_ring s ∧ used_idx s' = used_idx s.
Proof.
  intros (E1 & E2 & E3)%NoDup3. eexists. split; [unfold rw_submit, put_desc, put_disk; rewrite run_gets, !run_modify; reflexivity|].
  split; [|split; [done|split; [|done]]].
  - unfold chain_ok. cbn. split_and!; by fn_simp.
  - intros i Hi. apply (not_idxs (mk_req b w i0 i1 i2)) in Hi as (N0 & N1 & N2). cbn in *. by fn_simp.
Qed.

Lemma sim_start s s' d p a po fe us dn b w i : p b = None → rw_start b w s = Done (Some i, s') → vinv (D := D) (mk_vsys s d p) po fe us dn → vsim (mk_vsys s d p) a po fe us dn →
  ∃ r a', astep dev_read dev_write a a' ∧ vinv (mk_vsys s' d (<[b := Some i]> p)) (po ++ [r]) fe us dn ∧ vsim (mk_vsys s' d (<[b := Some i]> p)) a' (po ++ [r]) fe us dn.
Proof.
  intros Hb Hrun H [M1 M2 M3 M4 M5]. pose proof (vinv_short _ _ _ _ _ H) as Hlen. destruct H as [H1 H2 H3 H4 [H5 H5'] H6 H7 [H8 H8']]. cbn [drv dev inside] in *.
  unfold rw_start in Hrun. destruct (alloc3_run s) as [(i0 & i1 & i2 & Ha & Hi & Hn)|(s1 & Ha & _)]; rewrite (run_bind _ _ _ _ _ Ha) in Hrun; [|done].
  set (s1 := set_free _ s) in Hrun. destruct (submit_run s1 b w i0 i1 i2 Hn) as (s2 & Hs & Hc & F1 & F2 & F3 & F4 & F5 & F6 & F7 & F8). rewrite (run_bind _ _ _ _ _ Hs) in Hrun. injection Hrun as <- <-.
  set (r := mk_req b w i0 i1 i2) in *. exists r. pose proof Hn as (N1 & N2 & N3)%NoDup3.
  assert (Hset : vset s2 (<[r_b r := Some (r_i0 r)]> p) (r :: po ++ fe ++ us ++ dn)).
  { apply (vset_add s); try done.
    - intros j. rewrite F1. cbn [s1 set_free dfree]. destruct (decide (j ∈ idxs r)) as [[->|[->|[->|Hj]%elem_of_cons]%elem_of_cons]%elem_of_cons|Hj]; fn_simp; try done; [by apply elem_of_nil in Hj|].
      apply not_idxs in Hj as (J0 & J1 & J2). cbn [r r_i0 r_i1 r_i2] in *. by fn_simp.
    - intros j Hj. destruct (F2 j Hj) as (-> & -> & -> & _). done.
    - intros b'. rewrite F3. cbn [s1 set_free bufs]. destruct (decide (b' = b)) as [->|]; by fn_simp. }
  assert (Ho : ∀ r', r' ∈ po ++ fe ++ us ++ dn → r_b r' ≠ b ∧ info_status s2 (r_i0 r') = info_status s (r_i0 r')).
  { intros r' Hr'. split; [by apply (other_buf _ _ _ _ _ _ Hset (Permutation_refl _))|]. destruct (F2 (r_i0 r')) as (_ & _ & _ & ->); [|done].
    intros Hin. pose proof (vs_nodup _ _ _ Hset) as Hnd. change (held (r :: po ++ fe ++ us ++ dn)) with (idxs r ++ held (po ++ fe ++ us ++ dn)) in Hnd. apply NoDup_app in Hnd as (_ & Hdis & _).
    apply (Hdis (r_i0 r') Hin). apply (held_in _ r'); [done|by left]. }
  assert (Hd : ∀ r', r' ∈ po ++ fe ++ us ++ dn → vb_disk (bufs s2 (r_b r')) = vb_disk (bufs s (r_b r'))).
  { intros r' Hr'. destruct (Ho r' Hr') as [Hne _]. rewrite F3. by fn_simp. }
  destruct a as [am af]. cbn [a_medium a_bufs] in *. exists (mk_adisk am (<[b := mk_abuf (a_blockno (af b)) (a_data (af b)) (Some (Todo w))]> af)).
  split; [by apply a_start, M5|]. split; constructor; cbn [drv dev inside a_medium a_bufs]; try done.
  - apply (vset_perm _ _ (r :: po ++ fe ++ us ++ dn)); [solve_Permutation|done].
  - rewrite <- app_assoc. apply Forall_app in H2 as [H2 H2']. apply Forall_app. split; [|constructor; [rewrite F3; by fn_simp|]]; apply Forall_forall; intros r' Hr'; (rewrite Hd by (rewrite !elem_of_app; tauto)).
    + by apply (proj1 (Forall_forall _ _) H2).
    + by apply (proj1 (Forall_forall _ _) H2').
  - apply Forall_forall. intros r' Hr'. rewrite Hd by (rewrite !elem_of_app; tauto). destruct (Ho r') as [_ ->]; [rewrite !elem_of_app; tauto|]. by apply (proj1 (Forall_forall _ _) H3).
  - apply Forall_forall. intros r' Hr'. rewrite Hd by (rewrite !elem_of_app; tauto). by apply (proj1 (Forall_forall _ _) H4).
  - rewrite F4, F5. cbn [s1 set_free avail_idx avail_ring]. rewrite length_app. cbn [length]. rewrite Nat.add_1_r. split.
    + rewrite H5, u16_succ. f_equal. lia.
    + rewrite H5, window_push, H5', fmap_app by (unfold NUM; lia). done.
  - by rewrite F6, F7, F8.
  - by rewrite F8.
  - intros b'. rewrite F3. cbn [s1 set_free bufs]. destruct (decide (b' = b)) as [->|]; fn_simp; cbn; apply M2.
  - intros r' Hr'. assert (r' = r ∨ r' ∈ po ++ fe) as [->|Hin] by (rewrite !elem_of_app, list_elem_of_singleton in *; tauto).
    + cbn [r r_b r_w]. by fn_simp.
    + destruct (Ho r') as [Hne _]; [rewrite !elem_of_app in *; tauto|]. fn_simp. by apply M3.
  - intros r' Hr'. destruct (Ho r') as [Hne _]; [rewrite !elem_of_app in *; tauto|]. fn_simp. by apply M4.
  - intros b'. destruct (decide (b' = b)) as [->|]; fn_simp; [done|apply M5].
Qed.

(** The end of [virtio_disk_rw]. *)
Lemma sim_finish s d p a po fe us dn b i : p b = Some i → vb_disk (bufs s b) ≠ 1 → vinv (D := D) (mk_vsys s d p) po fe us dn → vsim (mk_vsys s d p) a po fe us dn →
  ∃ s' a' dn', rw_finish i s = Done ((), s') ∧ astep dev_read dev_write a a' ∧ vinv (mk_vsys s' d (<[b := None]> p)) po fe us dn' ∧ vsim (mk_vsys s' d (<[b := None]> p)) a' po fe us dn'.
Proof.
  intros Hb Hdisk [H1 H2 H3 H4 H5 H6 H7 H8] [M1 M2 M3 M4 M5]. cbn [drv dev inside] in *. apply (vs_inside _ _ _ H1) in Hb as (r & Hr & <- & <-).
  assert (Hdn : r ∈ dn). { rewrite app_assoc, !elem_of_app in Hr. rewrite <- elem_of_app in Hr. destruct Hr as [Hr|[Hr|Hr]]; [|by destruct (proj1 (Forall_forall _ _) H3 r Hr)|done]. by destruct (proj1 (Forall_forall _ _) H2 r Hr). }
  destruct (vset_held _ _ _ _ H1 Hr) as [Hl Hn]. pose proof (proj1 (Forall_forall _ _) (vs_chain _ _ _ H1) r Hr) as Hc. pose proof (M4 r ltac:(apply elem_of_app; by right)) as Hover.
  apply list_elem_of_split in Hdn as (d1 & d2 & ->). set (s1 := set_info_b (<[r_i0 r := None]> (info_b s)) s).
  exists (freed (r_i2 r) (freed (r_i1 r) (freed (r_i0 r) s1))), (mk_adisk (a_medium a) (<[r_b r := mk_abuf (a_blockno (a_bufs a (r_b r))) (a_data (a_bufs a (r_b r))) None]> (a_bufs a))), (d1 ++ d2).
  split; [unfold rw_finish; rewrite run_modify; by apply (free_chain_run s)|]. split; [destruct a; by apply a_return|].
  assert (Hperm : po ++ fe ++ us ++ d1 ++ r :: d2 ≡ₚ r :: po ++ fe ++ us ++ d1 ++ d2) by solve_Permutation. pose proof (vset_perm _ _ _ _ Hperm H1) as H1'.
  assert (Ho : ∀ r', r' ∈ po ++ fe ++ us ++ d1 ++ d2 → r_b r' ≠ r_b r) by (intros r'; by apply (other_buf _ _ _ _ _ _ H1')).
  split; constructor; cbn [drv dev inside a_medium a_bufs]; try done.
  - apply (vset_remove s _ _ _ _ H1'); [| |done].
    + intros j. apply NoDup3 in Hn as (N1 & N2 & N3). cbn [s1 freed set_info_b set_desc set_free add_wake dfree].
      destruct (decide (j ∈ idxs r)) as [[->|[->|[->|Hj]%elem_of_cons]%elem_of_cons]%elem_of_cons|Hj]; fn_simp; try done; [by apply elem_of_nil in Hj|].
      apply not_idxs in Hj as (J0 & J1 & J2). by fn_simp.
    + intros j (J0 & J1 & J2)%not_idxs. cbn [s1 freed set_info_b set_desc set_free add_wake desc ops info_b]. by fn_simp.
  - apply Forall_app in H4 as [H4 [_ H4']%Forall_cons]. by apply Forall_app.
  - intros b. destruct (decide (b = r_b r)) as [->|]; fn_simp; apply M2.
  - intros r' Hr'. assert (r_b r' ≠ r_b r) by (apply Ho; rewrite !elem_of_app in *; tauto). fn_simp. by apply M3.
  - intros r' Hr'. assert (r_b r' ≠ r_b r) by (apply Ho; rewrite !elem_of_app in *; tauto). fn_simp. apply M4. rewrite !elem_of_app, elem_of_cons in *. tauto.
  - intros b. destruct (decide (b = r_b r)) as [->|]; fn_simp; [done|apply M5].
Qed.

(** ** Every run *)

Context (device : vsys (D := D) → vsys (D := D) → Prop) (device_spec : ∀ x y, device x y → fetch x y ∨ complete dev_read dev_write x y).

Definition vboot (f : nat → vbuf) (m : D) : vsys := mk_vsys (disk0 f) (mk_vdev m 0 []) (λ _, None).
Definition aboot (f : nat → vbuf) (m : D) : adisk := mk_adisk m (λ b, mk_abuf (vb_blockno (f b)) (vb_data (f b)) None).

Lemma vboot_inv f m : vinv (vboot f m) [] [] [] [] ∧ vsim (vboot f m) (aboot f m) [] [] [] [].
Proof.
  split; constructor; cbn [vboot aboot drv dev inside medium a_medium a_bufs app]; try done.
  - constructor; cbn; try done; try apply NoDup_nil_2.
    + intros i Hi. rewrite (proj2 (Nat.leb_le i 7)) by (unfold NUM in Hi; lia). split; [done|by intros ?%elem_of_nil].
    + by intros i ?%elem_of_nil.
    + intros b i. split; [done|]. by intros (r & ?%elem_of_nil & _).
  - by intros r ?%elem_of_nil.
  - by intros r ?%elem_of_nil.
Qed.

(** One step of the system is at most one step of the specification. *)
Lemma sim_step x y a po fe us dn : sstep device x y → vinv x po fe us dn → vsim x a po fe us dn →
  ∃ a' po' fe' us' dn', rtc (astep dev_read dev_write) a a' ∧ vinv y po' fe' us' dn' ∧ vsim y a' po' fe' us' dn'.
Proof using device_spec.
  intros [s d p b bn data Hb|s d p b w i s' Hb Hr|s d p b w s' Hb Hr|x' y' Hd|s d p s' Hr|s d p b i s' Hb Hdisk Hr] H Hs.
  - destruct (sim_client s d p a po fe us dn b bn data Hb H Hs) as [H1 H2]. eexists _, po, fe, us, dn. split; [|done]. apply rtc_once. destruct a as [am af].
    apply a_client. by apply (vm_idle _ _ _ _ _ _ Hs).
  - destruct (sim_start s s' d p a po fe us dn b w i Hb Hr H Hs) as (r & a' & H1 & H2 & H3). exists a', (po ++ [r]), fe, us, dn. split; [by apply rtc_once|done].
  - exists a, po, fe, us, dn. split; [done|]. apply (sim_full s); [|done|done]. unfold rw_start in Hr. destruct (alloc3_run s) as [(i0 & i1 & i2 & Ha & _ & Hn)|(s1 & Ha & Hsame)]; rewrite (run_bind _ _ _ _ _ Ha) in Hr.
    + exfalso. set (s1 := set_free _ s) in Hr. destruct (submit_run s1 b w i0 i1 i2 Hn) as (s2 & Hs2 & _). rewrite (run_bind _ _ _ _ _ Hs2) in Hr. done.
    + by injection Hr as <-.
  - destruct (device_spec _ _ Hd) as [Hf|Hc].
    + destruct (sim_fetch _ _ a po fe us dn Hf H Hs) as (po' & fe' & H1 & H2). by exists a, po', fe', us, dn.
    + destruct (sim_complete _ _ a po fe us dn Hc H Hs) as (a' & fe' & us' & H1 & H2 & H3). exists a', po, fe', us', dn. split; [by apply rtc_once|done].
  - destruct (intr_run s d p a po fe us dn H Hs) as (s2 & dn' & H1 & H2 & H3). rewrite Hr in H1. injection H1 as <-. by exists a, po, fe, [], dn'.
  - destruct (sim_finish s d p a po fe us dn b i Hb Hdisk H Hs) as (s2 & a' & dn' & H1 & H2 & H3 & H4). rewrite Hr in H1. injection H1 as <-.
    exists a', po, fe, us, dn'. split; [by apply rtc_once|done].
Qed.

Lemma sim_run f m x : rtc (sstep device) (vboot f m) x →
  ∃ a po fe us dn, rtc (astep dev_read dev_write) (aboot f m) a ∧ vinv x po fe us dn ∧ vsim x a po fe us dn.
Proof using device_spec.
  intros H. assert (Hx : ∃ a po fe us dn, rtc (astep dev_read dev_write) (aboot f m) a ∧ vinv (vboot f m) po fe us dn ∧ vsim (vboot f m) a po fe us dn).
  { exists (aboot f m), [], [], [], []. split; [done|apply vboot_inv]. }
  revert Hx. generalize (aboot f m). induction H as [x|x y z Hxy _ IH]; [done|]. intros a0 (a & po & fe & us & dn & Ha & H & Hs). apply IH.
  destruct (sim_step x y a po fe us dn Hxy H Hs) as (a' & po' & fe' & us' & dn' & Ha' & H'). exists a', po', fe', us', dn'. split; [by etrans|done].
Qed.

Lemma sim_shows x a po fe us dn : vinv (D := D) x po fe us dn → vsim x a po fe us dn → shows x a.
Proof.
  intros H [M1 M2 M3 M4 M5]. pose proof (vi_set _ _ _ _ _ H) as Hset. constructor; [done|done| |].
  - intros b. split; [apply M5|]. intros Ha. destruct (inside x b) as [i|] eqn:Hi; [|done]. exfalso. apply (vs_inside _ _ _ Hset) in Hi as (r & Hr & <- & _).
    rewrite app_assoc in Hr. apply elem_of_app in Hr as [Hr%M3|Hr%M4]; congruence.
  - intros b Hb Hd. destruct (inside x b) as [i|] eqn:Hi; [|done]. apply (vs_inside _ _ _ Hset) in Hi as (r & Hr & <- & _). rewrite app_assoc in Hr. apply elem_of_app in Hr as [Hr|Hr]; [|by apply M4].
    by destruct (proj1 (Forall_forall _ _) (vi_todo _ _ _ _ _ H) r Hr).
Qed.

(** C37: whatever the order in which processes make requests and a device that reports no error
    fetches and completes them, what the driver, the device and the buffers hold is what a disk shows on which each request is one
    transfer of one block; and a process that leaves [virtio_disk_rw] has had its transfer. *)
Theorem disk_is_atomic f m x : rtc (sstep device) (vboot f m) x →
  ∃ a, rtc (astep dev_read dev_write) (aboot f m) a ∧ shows x a.
Proof using device_spec. intros (a & po & fe & us & dn & Ha & H & Hs)%sim_run. exists a. split; [done|by eapply sim_shows]. Qed.

(** the driver never panics and never follows a bad index: [free_desc] is never called on a free
    descriptor, [virtio_disk_intr] finds status 0 and a buffer in every entry, a request either gets its
    three descriptors or sleeps, and every chain the device has is one it can execute. *)
Theorem disk_no_panic f m x : rtc (sstep device) (vboot f m) x →
  (∀ b w, ∃ o s', rw_start b w (drv x) = Done (o, s')) ∧ (∃ s', virtio_disk_intr (drv x) = Done ((), s')) ∧
  (∀ b i, inside x b = Some i → vb_disk (bufs (drv x) b) ≠ 1 → ∃ s', rw_finish i (drv x) = Done ((), s')) ∧
  ∀ h, h ∈ busy (dev x) → is_Some (exec_chain dev_read dev_write h (drv x) (medium (dev x))).
Proof using device_spec.
  intros (a & po & fe & us & dn & Ha & H & Hs)%sim_run. destruct x as [s d p]. cbn [drv dev inside]. split; [|split; [|split]].
  - intros b w. unfold rw_start. destruct (alloc3_run s) as [(i0 & i1 & i2 & Hal & _ & Hn)|(s1 & Hal & _)]; rewrite (run_bind _ _ _ _ _ Hal); [|by eexists _, _].
    destruct (submit_run (set_free (<[i2:=0]> (<[i1:=0]> (<[i0:=0]> (dfree s)))) s) b w i0 i1 i2 Hn) as (s2 & Hs2 & _). rewrite (run_bind _ _ _ _ _ Hs2). by eexists _, _.
  - destruct (intr_run s d p a po fe us dn H Hs) as (s' & _ & Hr & _). by exists s'.
  - intros b i Hb Hd. destruct (sim_finish s d p a po fe us dn b i Hb Hd H Hs) as (s' & _ & _ & Hr & _). by exists s'.
  - intros h Hh. pose proof (vi_busy _ _ _ _ _ H) as Hb. cbn [dev busy] in Hb. rewrite Hb in Hh. apply list_elem_of_fmap in Hh as (r & -> & Hr). rewrite exec_run; [by eexists|].
    apply (proj1 (Forall_forall _ _) (vs_chain _ _ _ (vi_set _ _ _ _ _ H))). rewrite !elem_of_app. tauto.
Qed.
End sim.

(** ** [virtio_disk_init] *)

Lemma when_panics {S B} c (k : () → M S B) s : (when c panics ≫= k) s = if c then Panics else k () s.
Proof. by destruct c. Qed.

(** If the device and [kalloc] give what the driver needs, the queues are as the theorems above start, and the
    last store tells the device that the driver is ready. *)
Lemma virtio_disk_init_run rd kd ka ku f w s w' : virtio_disk_init rd kd ka ku f w = Done (s, w') → s = disk0 f ∧ ∃ w1 v, w' = w1 ++ [(VIRTIO_MMIO_STATUS, v)] ∧ is_Some kd ∧ is_Some ka ∧ is_Some ku.
Proof.
  unfold virtio_disk_init, read_reg, write_reg, write_regs. rewrite !run_gets, when_panics. destruct (_ || _ || _ || _); [done|]. rewrite !run_modify, run_gets, !run_modify, run_gets, when_panics.
  destruct (_ =? 0); [done|]. rewrite run_modify, run_gets, when_panics. destruct (negb _); [done|]. rewrite run_gets, !when_panics. destruct (_ =? 0); [done|]. destruct (_ <? _); [done|].
  destruct kd, ka, ku; [|done..]. rewrite !run_modify. intros [= <- <-]. split; [done|]. by eexists _, _.
Qed.

(** ** A run: a block is written *)

Definition ex_read (m : Z → list Z) (sector len : Z) : list Z := m sector.
Definition ex_write (m : Z → list Z) (sector : Z) (data : list Z) : Z → list Z := <[sector := data]> m.
Definition ex_device (x y : vsys (D := Z → list Z)) : Prop := fetch x y ∨ complete ex_read ex_write x y.
Definition vrun {A} (m : vm A) (s : vdisk) : vdisk := match m s with Done (_, s') => s' | _ => s end.
Definition vres {A} (m : vm A) (s : vdisk) : option A := match m s with Done (a, _) => Some a | _ => None end.

Lemma vrun_done {A} (m : vm A) s a : vres m s = Some a → m s = Done (a, vrun m s).
Proof. unfold vres, vrun. destruct (m s) as [[a' s']| | |]; [|done..]. by intros [= ->]. Qed.

Definition ex_bufs (b : nat) : vbuf := mk_vbuf 46 0 [7; 8; 9].
Definition ex_medium : Z → list Z := λ _, [].
Definition ex_s1 : vdisk := vrun (rw_start 0 true) (disk0 ex_bufs).
Definition ex_done : vdisk * (Z → list Z) := default (ex_s1, ex_medium) (exec_chain ex_read ex_write 0 ex_s1 ex_medium).
Definition ex_s2 : vdisk := let s := ex_done.1 in set_used (u16 (u_idx s + 1)) (<[Z.to_nat (u_idx s mod Z.of_nat NUM) := O]> (u_ring s)) s.
Definition ex_s3 : vdisk := vrun virtio_disk_intr ex_s2.
Definition ex_s4 : vdisk := vrun (rw_finish 0) ex_s3.
Definition ex_end : vsys := mk_vsys ex_s4 (mk_vdev ex_done.2 1 []) (<[O := None]> (<[O := Some O]> (λ _, None))).

Lemma ex_exec : exec_chain ex_read ex_write 0 ex_s1 ex_medium = Some (ex_done.1, ex_done.2).
Proof.
  unfold ex_done. destruct (exec_chain ex_read ex_write 0 ex_s1 ex_medium) as [[s m]|] eqn:E; [done|].
  exfalso. assert (H : (if exec_chain ex_read ex_write 0 ex_s1 ex_medium then true else false) = true) by (vm_compute; reflexivity). by rewrite E in H.
Qed.

Lemma ex_fetch p : fetch (mk_vsys ex_s1 (mk_vdev ex_medium 0 []) p) (mk_vsys ex_s1 (mk_vdev ex_medium 1 [O]) p).
Proof.
  assert (E : [] ++ [avail_ring ex_s1 (Z.to_nat (0 mod Z.of_nat NUM))] = [O]) by (vm_compute; reflexivity). rewrite <- E. change 1 with (u16 (0 + 1)). apply fetch_intro. by vm_compute.
Qed.

Lemma ex_finish : rw_finish 0 ex_s3 = Done ((), ex_s4).
Proof. unfold ex_s4. apply vrun_done. vm_compute. reflexivity. Qed.

Lemma ex_disk_run : rtc (sstep ex_device) (vboot ex_bufs ex_medium) ex_end.
Proof.
  eapply rtc_l; [apply (s_start _ _ _ _ 0%nat true 0%nat ex_s1); [done|]; apply vrun_done; vm_compute; reflexivity|].
  eapply rtc_l; [apply s_device; left; apply ex_fetch|].
  eapply rtc_l; [apply s_device; right; apply (complete_intro _ _ _ _ _ [] 0%nat [] _ ex_done.1 ex_done.2); apply ex_exec|].
  eapply rtc_l; [apply (s_intr _ ex_s2 _ _ ex_s3); apply vrun_done; vm_compute; reflexivity|].
  apply rtc_once. apply (s_finish _ ex_s3 _ _ 0%nat 0%nat ex_s4); [done|by vm_compute|]. apply ex_finish.
Qed.

(** A used entry whose status byte the device set to 1 (VIRTIO_BLK_S_IOERR). *)
Example failed_request_panics : virtio_disk_intr (set_status (λ _, 1) ex_s2) = Panics.
Proof. vm_compute. reflexivity. Qed.

(** The block is where [read_block] finds it. *)
Example ex_written : read_block ex_read (medium (dev ex_end)) 46 = [7; 8; 9].
Proof. vm_compute. reflexivity. Qed.

Lemma disk_is_atomic_witness : rtc (sstep ex_device) (vboot ex_bufs ex_medium) ex_end ∧
  ∃ a, rtc (astep ex_read ex_write) (aboot ex_bufs ex_medium) a ∧ shows ex_end a.
Proof. split; [apply ex_disk_run|]. apply (disk_is_atomic ex_read ex_write ex_device (λ x y H, H) ex_bufs ex_medium ex_end). apply ex_disk_run. Defined.

Lemma disk_no_panic_witness : ∃ s', virtio_disk_intr (drv ex_end) = Done ((), s').
Proof. apply (disk_no_panic ex_read ex_write ex_device (λ x y H, H) ex_bufs ex_medium ex_end). apply ex_disk_run. Defined.
