(* ===== verification/Uart.v ===== *)
(** * kernel/uart.c: the serial port

    Writers ([uartwrite]) share the port under [tx_lock] and sleep until the
    interrupt handler says that the port is idle; [uartputc_sync] (printf and echo) takes no
    lock and polls the port.  The port has a queue of 16 bytes; a byte stored when it is full
    is lost.  [uart_lossless] says that none is, [uart_no_lost_wakeup] that a writer that
    sleeps is going to be woken. *)

From stdpp Require Import functions.
From S2P Require Import Prelude.

Local Open Scope Z_scope.

Definition THR : Z := 0.
Definition IER : Z := 1.
Definition IER_RX_ENABLE : Z := Z.shiftl 1 0.
Definition IER_TX_ENABLE : Z := Z.shiftl 1 1.
Definition FCR : Z := 2.
Definition FCR_FIFO_ENABLE : Z := Z.shiftl 1 0.
Definition FCR_FIFO_CLEAR : Z := Z.shiftl 3 1.
Definition LCR : Z := 3.
Definition LCR_EIGHT_BITS : Z := Z.shiftl 3 0.
Definition LCR_BAUD_LATCH : Z := Z.shiftl 1 7.
Definition LSR_RX_READY : Z := Z.shiftl 1 0.
Definition LSR_TX_IDLE : Z := Z.shiftl 1 5.

(** The stores of [uartinit]: register and value. *)
Definition uartinit : list (Z * Z) :=
  [(IER, 0); (LCR, LCR_BAUD_LATCH); (0, 3); (1, 0); (LCR, LCR_EIGHT_BITS); (FCR, Z.lor FCR_FIFO_ENABLE FCR_FIFO_CLEAR); (IER, Z.lor IER_TX_ENABLE IER_RX_ENABLE)].

(** Who stored a byte: a process in [uartwrite], or a CPU in [uartputc_sync]. *)
Inductive source := Writer (i : nat) | Sync (k : nat).
#[export] Instance source_eq_dec : EqDecision source. Proof. solve_decision. Defined.

(** A process inside [uartwrite]: the bytes from [buf + i] on, and whether it sleeps on [&tx_chan]. *)
Record writer := mk_writer { w_rest : list Z; w_asleep : bool }.

(** The port: its queue, what has left on the line, whether a transmit interrupt is pending.
    [stored] is every store to THR so far, [cpu] the byte of a CPU that has found the port
    idle in [uartputc_sync], [handler] whether [uartintr] has acknowledged an interrupt,
    [asked] what each process has given [uartwrite] so far. *)
Record uart := mk_uart {
  fifo : list (source * Z); line : list (source * Z); pending : bool; stored : list (source * Z);
  tx_busy : Z; wr : nat → option writer; cpu : nat → option Z; handler : bool; asked : nat → list Z }.

Definition FIFO_SIZE : nat := 16.

Definition store_thr (w : source) (c : Z) (s : uart) : uart :=
  mk_uart (if (length (fifo s) <? FIFO_SIZE)%nat then fifo s ++ [(w, c)] else fifo s) (line s) (pending s) (stored s ++ [(w, c)]) (tx_busy s) (wr s) (cpu s) (handler s) (asked s).
Definition set_busy (b : Z) (s : uart) : uart := mk_uart (fifo s) (line s) (pending s) (stored s) b (wr s) (cpu s) (handler s) (asked s).
Definition set_wr (f : nat → option writer) (s : uart) : uart := mk_uart (fifo s) (line s) (pending s) (stored s) (tx_busy s) f (cpu s) (handler s) (asked s).
Definition set_cpu (f : nat → option Z) (s : uart) : uart := mk_uart (fifo s) (line s) (pending s) (stored s) (tx_busy s) (wr s) f (handler s) (asked s).

Definition set_handler (h p : bool) (s : uart) : uart := mk_uart (fifo s) (line s) p (stored s) (tx_busy s) (wr s) (cpu s) h (asked s).
Definition ask (i : nat) (buf : list Z) (s : uart) : uart := mk_uart (fifo s) (line s) (pending s) (stored s) (tx_busy s) (wr s) (cpu s) (handler s) (<[i := asked s i ++ buf]> (asked s)).

(** The line status register, for the transmitter. *)
Definition tx_idle (s : uart) : bool := match fifo s with [] => true | _ => false end.

(** [uartwrite] of process [i] from where it has [tx_lock] to where it gives it up: at the
    end ([None]), or in [sleep] with the rest of the buffer. *)
Fixpoint uartwrite (i : nat) (buf : list Z) (s : uart) : option (list Z) * uart :=
  match buf with
  | [] => (None, s)
  | c :: buf' =>
      if negb (tx_busy s =? 0) then (Some buf, s)
      else uartwrite i buf' (set_busy 1 (store_thr (Writer i) c s))
  end.

(** The state after that: the process has returned, or sleeps. *)
Definition after_write (i : nat) (r : option (list Z) * uart) : uart :=
  set_wr (<[i := (λ b, mk_writer b true) <$> r.1]> (wr r.2)) r.2.

(** [wakeup(&tx_chan)]. *)
Definition wake_writers (s : uart) : uart := set_wr (λ i, (λ w, mk_writer (w_rest w) false) <$> wr s i) s.

(** The part of [uartintr] under [tx_lock]. *)
Definition uartintr_tx (s : uart) : uart := if tx_idle s then wake_writers (set_busy 0 s) else s.

(** [uartputc_sync] on CPU [k] when no CPU panics: the loop has seen the port idle; the store. *)
Definition sync_seen (k : nat) (c : Z) (s : uart) : option uart := if tx_idle s then Some (set_cpu (<[k := Some (u8 c)]> (cpu s)) s) else None.
Definition sync_store (k : nat) (s : uart) : option uart :=
  match cpu s k with Some c => Some (set_cpu (<[k := None]> (cpu s)) (store_thr (Sync k) c s)) | None => None end.

(** [uartgetc], given what LSR and RHR read as. *)
Definition uartgetc (lsr rhr : Z) : Z := if negb (Z.land lsr LSR_RX_READY =? 0) then rhr else -1.

Definition NCPU : nat := 8.

(** The port sends a byte; with the last one it raises its interrupt.  [uartintr] reads ISR, which
    acknowledges, and then takes [tx_lock]. *)
Inductive port_step : uart → uart → Prop :=
  | st_send x f l p o b w c h a : port_step (mk_uart (x :: f) l p o b w c h a) (mk_uart f (l ++ [x]) (match f with [] => true | _ => p end) o b w c h a)
  | st_ack f l o b w c a : port_step (mk_uart f l true o b w c false a) (mk_uart f l false o b w c true a)
  | st_intr s : handler s = true → port_step s (set_handler false (pending s) (uartintr_tx s)).

Inductive step : uart → uart → Prop :=
  | st_port s s' : port_step s s' → step s s'
  (** The interrupt is for input. *)
  | st_input s : handler s = false → step s (set_handler true false s)
  | st_call i buf s : wr s i = None → step s (after_write i (uartwrite i buf (ask i buf s)))
  | st_woken i w s : wr s i = Some w → w_asleep w = false → step s (after_write i (uartwrite i (w_rest w) s))
  | st_seen k c s s' : (k < NCPU)%nat → cpu s k = None → sync_seen k c s = Some s' → step s s'
  | st_store k s s' : sync_store k s = Some s' → step s s'.

Definition uart0 : uart := mk_uart [] [] false [] 0 (λ _, None) (λ _, None) false (λ _, []).

(** ** The invariant *)

Definition by_writer (x : source * Z) : bool := match x.1 with Writer _ => true | Sync _ => false end.
(** What process [i] stored, in order. *)
Definition stored_by (i : nat) (l : list (source * Z)) : list Z := omap (λ x, if decide (x.1 = Writer i) then Some x.2 else None) l.
Definition rest_of (o : option writer) : list Z := match o with Some w => w_rest w | None => [] end.
(** The bytes CPUs are about to store. *)
Definition waiting_cpus (c : nat → option Z) : list Z := omap c (seq 0 NCPU).

Record uinv (s : uart) : Prop := {
  ui_stored : line s ++ fifo s = stored s;
  ui_writers : (length (filter (λ x, by_writer x = true) (fifo s)) ≤ if (tx_busy s =? 0)%Z then 0 else 1)%nat;
  ui_sync : (length (filter (λ x, by_writer x = false) (fifo s)) + length (waiting_cpus (cpu s)) ≤ NCPU)%nat;
  ui_cpus : ∀ k, cpu s k ≠ None → (k < NCPU)%nat;
  ui_asleep : ∀ i w, wr s i = Some w → w_asleep w = true → tx_busy s ≠ 0;
  ui_awaited : tx_busy s ≠ 0 → fifo s ≠ [] ∨ pending s = true ∨ handler s = true;
}.

(** Each process's bytes have been stored or are still to be stored, in its order. *)
Definition asked_ok (s : uart) : Prop := ∀ i, asked s i = stored_by i (stored s) ++ rest_of (wr s i).

Ltac fn_simp := repeat (rewrite fn_lookup_insert || (rewrite fn_lookup_insert_ne by (done || congruence || lia))).

Lemma fifo_split {A} (f : A → bool) l : length l = (length (filter (λ x, f x = true) l) + length (filter (λ x, f x = false) l))%nat.
Proof. induction l as [|x l IH]; [done|]. rewrite !filter_cons. destruct (f x); cbn [decide]; repeat case_decide; cbn [length]; try lia; congruence. Qed.

(** There is always room. *)
Lemma fifo_room s : uinv s → (length (fifo s) + length (waiting_cpus (cpu s)) ≤ S NCPU)%nat.
Proof. intros H. rewrite (fifo_split by_writer). pose proof (ui_writers s H). pose proof (ui_sync s H). destruct (tx_busy s =? 0); lia. Qed.

Lemma store_run w c s : uinv s →
  store_thr w c s = mk_uart (fifo s ++ [(w, c)]) (line s) (pending s) (stored s ++ [(w, c)]) (tx_busy s) (wr s) (cpu s) (handler s) (asked s).
Proof. intros H. pose proof (fifo_room s H). unfold store_thr. by rewrite (proj2 (Nat.ltb_lt _ _)) by (unfold FIFO_SIZE, NCPU in *; lia). Qed.

(** [uartwrite] stores at most one byte each time it has the lock. *)
Lemma uartwrite_run i buf s : uartwrite i buf s =
  match buf with
  | [] => (None, s)
  | c :: buf' => if tx_busy s =? 0 then (match buf' with [] => None | _ => Some buf' end, set_busy 1 (store_thr (Writer i) c s)) else (Some buf, s)
  end.
Proof. destruct buf as [|c [|d buf]]; [done|cbn [uartwrite]; by destruct (tx_busy s =? 0)|]. cbn [uartwrite]. by destruct (tx_busy s =? 0). Qed.

Lemma omap_set_notin (c : nat → option Z) k o (l : list nat) : k ∉ l → omap (<[k := o]> c) l = omap c l.
Proof.
  induction l as [|j l IH]; [done|]. intros [Hj Hl]%not_elem_of_cons. cbn. rewrite fn_lookup_insert_ne by done.
  destruct (c j); [f_equal|]; by apply IH.
Qed.

Lemma omap_set (c : nat → option Z) k o (l : list nat) : NoDup l → k ∈ l →
  (length (omap (<[k := o]> c) l) + length (option_list (c k)) = length (omap c l) + length (option_list o))%nat.
Proof.
  induction l as [|j l IH]; [by intros _ ?%elem_of_nil|]. intros [Hj Hn]%NoDup_cons Hk. cbn. destruct (decide (j = k)) as [->|Hne].
  - rewrite fn_lookup_insert. fold (omap (M := list) (<[k := o]> c) l). fold (omap (M := list) c l). rewrite omap_set_notin by done. destruct (c k), o; cbn; lia.
  - rewrite fn_lookup_insert_ne by done. apply elem_of_cons in Hk as [->|Hk]; [done|]. specialize (IH Hn Hk). destruct (c j); cbn; cbn in IH; lia.
Qed.

Lemma waiting_set c k o : (k < NCPU)%nat →
  (length (waiting_cpus (<[k := o]> c)) + length (option_list (c k)) = length (waiting_cpus c) + length (option_list o))%nat.
Proof. intros Hk. apply omap_set; [apply NoDup_seq|]. apply elem_of_seq. lia. Qed.

Lemma waiting_le c : (length (waiting_cpus c) ≤ NCPU)%nat.
Proof.
  unfold waiting_cpus. rewrite <- (length_seq NCPU 0) at 2. induction (seq 0 NCPU) as [|j l IH]; [done|]. cbn in *. destruct (c j); cbn; lia.
Qed.

Lemma stored_by_app i l1 l2 : stored_by i (l1 ++ l2) = stored_by i l1 ++ stored_by i l2.
Proof. apply omap_app. Qed.

Lemma stored_by_one i j c : stored_by i [(Writer j, c)] = if decide (i = j) then [c] else [].
Proof. unfold stored_by. cbn. destruct (decide (Writer j = Writer i)) as [[= ->]|Hne]; case_decide; done || congruence. Qed.

Ltac ucbn := cbn [fifo line pending stored tx_busy wr cpu handler asked set_busy set_wr set_cpu set_handler ask after_write wake_writers fst snd].

(** What process [i] does with [tx_lock]. *)
Lemma inv_write i buf s : uinv s → (∀ w, wr s i = Some w → w_asleep w = false) → uinv (after_write i (uartwrite i buf s)).
Proof.
  intros H Hi. rewrite uartwrite_run. pose proof (fifo_room s H) as Hroom. destruct buf as [|c buf].
  - destruct H as [H1 H2 H3 H4 H6 H7]. constructor; ucbn; try done. intros j w. destruct (decide (j = i)) as [->|]; fn_simp; [done|apply H6].
  - rewrite store_run by done. destruct H as [H1 H2 H3 H4 H6 H7]. destruct (Z.eqb_spec (tx_busy s) 0) as [E|E].
    + constructor; ucbn; try done.
      * by rewrite app_assoc, H1.
      * cbn [Z.eqb] in *. rewrite filter_app, length_app. etrans; [apply Nat.add_le_mono; [exact H2|apply length_filter]|]. cbn. lia.
      * rewrite filter_app, length_app. cbn [filter list_filter by_writer fst]. cbn [length decide]. case_decide; [done|]. cbn [length]. by rewrite Nat.add_0_r.
      * intros _. left. by destruct (fifo s).
    + constructor; ucbn; try done. { by rewrite (proj2 (Z.eqb_neq _ _)). }
Qed.

Lemma asked_write i buf s : asked s i = stored_by i (stored s) ++ buf → (∀ j, j ≠ i → asked s j = stored_by j (stored s) ++ rest_of (wr s j)) →
  asked_ok (after_write i (uartwrite i buf s)).
Proof.
  intros Hi Ho j. rewrite uartwrite_run. destruct (decide (j = i)) as [->|Hne].
  - destruct buf as [|c buf]; [ucbn; fn_simp; done|]. destruct (tx_busy s =? 0); ucbn; fn_simp; [|done]. unfold store_thr. ucbn. rewrite stored_by_app, stored_by_one, Hi. case_decide; [|done].
    rewrite <- app_assoc. by destruct buf.
  - destruct buf as [|c buf]; [ucbn; fn_simp; by apply Ho|]. destruct (tx_busy s =? 0); ucbn; fn_simp; [|by apply Ho]. unfold store_thr. ucbn. rewrite stored_by_app, stored_by_one, Ho by done.
    case_decide; [done|]. by rewrite app_nil_r.
Qed.

Lemma inv_port s s' : port_step s s' → uinv s → uinv s' ∧ (asked_ok s → asked_ok s').
Proof.
  intros [x f l p o b w c h a|f l o b w c a|t Ht] [H1 H2 H3 H4 H6 H7]; ucbn; cbn [fifo line pending stored tx_busy wr cpu handler asked] in *.
  - split; [|done]. constructor; ucbn; try done.
    + by rewrite <- app_assoc.
    + etrans; [|exact H2]. rewrite filter_cons. case_decide; cbn [length]; lia.
    + etrans; [|exact H3]. rewrite (filter_cons _ x). case_decide; cbn [length]; lia.
    + intros Hb. destruct f; [by right; left|by left].
  - split; [|done]. constructor; ucbn; try done. intros Hb. right. by right.
  - unfold uartintr_tx, tx_idle. destruct (fifo t) as [|x f] eqn:Ef.
    + split.
      * constructor; ucbn; try done; rewrite ?Ef; try done. intros i w Hw Ha. apply fmap_Some in Hw as (w' & _ & ->). done.
      * intros Ho i. ucbn. rewrite (Ho i). by destruct (wr t i).
    + split; [|done]. constructor; ucbn; rewrite ?Ef; try done. intros _. by left.
Qed.

Lemma inv_step_uart s s' : step s s' → uinv s ∧ asked_ok s → uinv s' ∧ asked_ok s'.
Proof.
  intros [s1 s2 Hp|s1 Hh|i buf s1 Hi|i w s1 Hi Hw|k c s1 s2 Hk Hc Hs|k s1 s2 Hs] [H Ha].
  - destruct (inv_port _ _ Hp H) as [H1 H2]. split; [done|by apply H2].
  - split; [|done]. destruct H as [H1 H2 H3 H4 H6 H7]. constructor; ucbn; try done. intros Hb. right. by right.
  - split.
    + apply inv_write; [|ucbn; by rewrite Hi]. destruct H as [H1 H2 H3 H4 H6 H7]. by constructor.
    + apply asked_write; ucbn; fn_simp.
      * by rewrite (Ha i), Hi, app_nil_r.
      * intros j Hj. fn_simp. apply Ha.
  - split; [apply inv_write; [done|by rewrite Hi; intros w' [= <-]]|]. apply asked_write; [by rewrite (Ha i), Hi|]. intros j _. apply Ha.
  - unfold sync_seen, tx_idle in Hs. destruct (fifo s1) eqn:Ef; [|done]. injection Hs as <-. split; [|done]. destruct H as [H1 H2 H3 H4 H6 H7]. constructor; ucbn; try done.
    + rewrite Ef. apply waiting_le.
    + intros j. destruct (decide (j = k)) as [->|]; fn_simp; [done|apply H4].
  - unfold sync_store in Hs. destruct (cpu s1 k) as [c|] eqn:Ec; [|done]. injection Hs as <-. rewrite store_run by done. pose proof H as [H1 H2 H3 H4 H6 H7].
    assert (Hk : (k < NCPU)%nat) by (apply H4; by rewrite Ec). split.
    + constructor; ucbn; try done.
      * by rewrite app_assoc, H1.
      * rewrite filter_app, length_app. cbn [length filter list_filter]. case_decide; [done|]. cbn [length]. lia.
      * rewrite filter_app, length_app. cbn [filter list_filter]. case_decide as E; [|by destruct E]. cbn [length]. pose proof (waiting_set (cpu s1) k None Hk) as E2. rewrite Ec in E2. change (length (option_list (Some c))) with 1%nat in E2; change (length (option_list None)) with 0%nat in E2. lia.
      * intros j. destruct (decide (j = k)) as [->|]; fn_simp; [done|apply H4].
      * intros _. left. by destruct (fifo s1).
    + intros i. ucbn. rewrite (Ha i), stored_by_app. unfold stored_by at 3. cbn. case_decide; [done|]. by rewrite app_nil_r.
Qed.

Lemma inv_uart s : rtc step uart0 s → uinv s ∧ asked_ok s.
Proof.
  remember uart0 as s0 eqn:E. intros H. assert (H0 : uinv s0 ∧ asked_ok s0). { subst. split; [|done]. constructor; cbn; try done; lia. }
  clear E. induction H as [s|s1 s2 s3 Hs _ IH]; [done|]. by apply IH, (inv_step_uart s1).
Qed.

(** ** The theorems *)

(** C38: no byte is lost and none is reordered: whatever processes write, CPUs print and the
    port does, every byte stored so far is on the line or in the queue, in the order of
    the stores; and the bytes of a process are stored in its order, none twice. *)
Theorem uart_lossless s : rtc step uart0 s →
  line s ++ fifo s = stored s ∧ ∀ i, asked s i = stored_by i (stored s) ++ rest_of (wr s i).
Proof. intros [H1 H2]%inv_uart. split; [apply H1|apply H2]. Qed.

(** The port sends what it holds. *)
Lemma drain s : ∃ s', rtc port_step s s' ∧ fifo s' = [] ∧ (fifo s ≠ [] ∨ pending s = true → pending s' = true) ∧
  tx_busy s' = tx_busy s ∧ wr s' = wr s ∧ handler s' = handler s.
Proof.
  destruct s as [f l p o b w c h a]. revert l p. induction f as [|x f IH]; intros l p.
  - eexists. split; [apply rtc_refl|]. split_and!; try done. by intros [?|?].
  - destruct (IH (l ++ [x]) (match f with [] => true | _ => p end)) as (s' & H1 & H2 & H3 & H4). exists s'. split; [eapply rtc_l; [apply st_send|done]|].
    split; [done|]. split; [|done]. intros _. apply H3. cbn. destruct f; [by right|by left].
Qed.

(** The handler, once it runs with the queue empty. *)
Lemma handled s : handler s = true → fifo s = [] → ∃ s', port_step s s' ∧ tx_busy s' = 0 ∧ wr s' = λ i, (λ w, mk_writer (w_rest w) false) <$> wr s i.
Proof. intros Hh Hf. eexists. split; [by apply st_intr|]. unfold uartintr_tx, tx_idle. by rewrite Hf. Qed.

(** C39: no wakeup is lost: when a process waits in [uartwrite], the port and its interrupt
    handler alone bring it to a state where it runs and finds the port idle; it never
    sleeps while the port is idle. *)
Theorem uart_no_lost_wakeup s i w : rtc step uart0 s → wr s i = Some w → w_asleep w = true →
  tx_busy s ≠ 0 ∧ ∃ s', rtc port_step s s' ∧ tx_busy s' = 0 ∧ wr s' i = Some (mk_writer (w_rest w) false).
Proof.
  intros [H _]%inv_uart Hw Ha. pose proof (ui_asleep s H i w Hw Ha) as Hb. split; [done|]. destruct (drain s) as (s1 & H1 & H2 & H3 & H4 & H5 & H6).
  assert (∃ s2, rtc port_step s1 s2 ∧ handler s2 = true ∧ fifo s2 = [] ∧ wr s2 = wr s) as (s2 & K1 & K2 & K3 & K4).
  { destruct (handler s) eqn:Eh; [by exists s1; rewrite H6|]. assert (Hp : pending s1 = true) by (apply H3; destruct (ui_awaited s H Hb) as [?|[?|?]]; [by left|by right|congruence]).
    destruct s1 as [f l p o b w1 c h a]. cbn in *. subst. eexists. split; [apply rtc_once, st_ack|done]. }
  destruct (handled s2 K2 K3) as (s3 & L1 & L2 & L3). exists s3. split; [etrans; [exact H1|]; etrans; [exact K1|by apply rtc_once]|]. split; [done|]. by rewrite L3, K4, Hw.
Qed.

(** Two bytes: the second waits for the first. *)
Definition ex_uart : uart := after_write 3 (uartwrite 3 [104; 105] (ask 3 [104; 105] uart0)).

Lemma ex_uart_run : rtc step uart0 ex_uart.
Proof. apply rtc_once. by apply st_call. Qed.

Lemma uart_lossless_witness : rtc step uart0 ex_uart ∧ line ex_uart ++ fifo ex_uart = [(Writer 3, 104)] ∧ asked ex_uart 3%nat = [104] ++ rest_of (wr ex_uart 3%nat).
Proof. destruct (uart_lossless ex_uart ex_uart_run) as [H1 H2]. split; [apply ex_uart_run|]. split; [exact H1|exact (H2 3%nat)]. Defined.

Lemma uart_no_lost_wakeup_witness : ∃ s', rtc port_step ex_uart s' ∧ tx_busy s' = 0 ∧ wr s' 3%nat = Some (mk_writer [105] false).
Proof. apply (uart_no_lost_wakeup ex_uart 3 (mk_writer [105] true) ex_uart_run); reflexivity. Defined.
